(* ===== verification/_CoqProject ===== *)
-Q . S2P
Prelude.v
Utf8.v
Bytes.v
Numerals.v
Decimal.v
Values.v
Schema.v
SchemaCheck.v
Concrete.v
DatumOrder.v
Expr.v
DataFile.v
ExprEval.v
Binding.v
Transform.v
ConcreteTime.v
TransformSpec.v
PartitionSpecs.v
SortOrders.v
Project.v
ProjectSpec.v
Projection.v
Metrics.v
InclusiveMetrics.v
ParquetStatistics.v
ArrowSchema.v
RowGroupMetrics.v
PageIndex.v
DeleteVector.v
ByteRanges.v
Storage.v
ByteCache.v
RowFilter.v
ReaderPlan.v
StrictMetrics.v
ManifestEval.v
LiteralEq.v
ArrowValues.v
DeleteIndex.v
TableMetadata.v
ScanTask.v
PartitionSchema.v
ScanPlan.v
ScanSpec.v
PlanSpec.v
Namespace.v
MetadataLocation.v
FileGroups.v
ManifestWriter.v
ManifestList.v
MetadataBuilder.v
MetadataSpec.v
Versions.v
Commit.v
RawValues.v
LiteralJson.v
AvroSchema.v
ManifestSerde.v
RecordBatchTransformer.v
Int96.v
FileColumns.v
EqualityDeletes.v
DeleteFilter.v
SnapshotSummary.v
Writers.v
PartitionWriters.v
FileMetrics.v
ParquetWriter.v
EnginePredicates.v
EngineScan.v
Producer.v
AppendSpec.v
Transactions.v
TransactionSpec.v
