(* ===== verification/Prelude.v ===== *)
(** * A verification library of iceberg-db-rs

    iceberg-db-rs is a query engine over Apache Iceberg tables.  Its own table format
    layer is a patched copy of the iceberg crate; paths below are relative to
    src/patches/iceberg-0.9.1/src/ unless they start with "datafusion:", which stands for
    src/patches/iceberg-datafusion-0.9.1/src/, or with "crates:", which is src/crates/.

    ** The program

    A scan binds a filter to the schema of the table, removes its negations, projects it to
    the partition columns, and skips what cannot match: whole manifests by their partition
    summaries, data files by their partition tuple and by their column metrics.  What is
    left becomes file scan tasks, which the engine divides over partitions.  A skip that is
    wrong loses rows without any error, so the first concern of the development is the
    soundness of each of these decisions, and of the plan that composes them, against one
    meaning of "the row matches".

    A table is found through a catalog, which maps names to the location of a metadata file.
    It changes by commits: a transaction runs its actions on the current metadata, an append
    writes a manifest and a manifest list, and the catalog applies the updates under the
    requirements and moves the table to a new metadata file.  The second concern is that
    every version that commits can reach is well formed, and that what an append wrote is
    what a later scan reads.

    A task is read by opening its parquet file: row groups are picked by the byte range of the
    task and by their statistics, pages by the page index, rows by the delete vector and by a
    row filter for the predicate of the scan and of the equality deletes; the batches that
    come out are fitted to the projected schema.  The third concern is that the rows that
    arrive are those of the file that match and are not deleted, with their values.

    An insert goes the other way: batches are split by partition, written to parquet files that
    are rolled over when they are large, and the footers become the records of data files, with
    the counts and bounds that later scans rely on.  The fourth concern is that no row is lost
    or changes its partition, and that the records describe the rows.

    Between the engine and the scan stand translations: filters become predicates, and the
    keys of filtered dimensions bounds on fact tables; and between the scan and storage stands
    a cache of bytes.  The fifth concern is that none of these changes the rows of a query.

    ** Files and what they model

    - Prelude: this file.  Results and failures of fallible code, the state monad [SR] of
      code that mutates and fails, machine integers, and shared lemmas and tactics.
    - Utf8, Bytes, Numerals: Rust's [str], [to_le_bytes]/[to_be_bytes] and integer
      [Display]/[FromStr], which the code uses throughout.
    - Decimal: spec/values/decimal_utils.rs.
    - Values: spec/datatypes.rs and spec/values/: types, [PrimitiveLiteral], [Datum] with its
      order, equality, conversion ([Datum::to]) and binary form, literals and accessors.
    - DatumOrder: the order of datums as an order of integer sequences ([lit_key]), on which
      all later comparisons are reasoned about; the binary round trip.
    - Schema, SchemaCheck: spec/schema/: visitor, indexes, id reassignment,
      [SchemaBuilder::build], lookups; what the builder guarantees.
    - Expr, Binding: expr/predicate.rs, expr/term.rs, expr/visitors/predicate_visitor.rs,
      bound_predicate_visitor.rs, rewrite_not.rs: predicates, negation, binding.
    - ExprEval: expr/visitors/expression_evaluator.rs, with the reference semantics.
    - DataFile: the metadata records of spec/manifest/data_file.rs and spec/manifest_list.rs.
    - Metrics, InclusiveMetrics, StrictMetrics: expr/visitors/inclusive_metrics_evaluator.rs
      and strict_metrics_evaluator.rs, against the contract between metrics and rows.
    - ManifestEval: expr/visitors/manifest_evaluator.rs.
    - ParquetStatistics: the statistics of a parquet column as datums (arrow/schema.rs).
    - RowGroupMetrics, PageIndex: expr/visitors/row_group_metrics_evaluator.rs and
      page_index_evaluator.rs, against the contract between the statistics and the rows.
    - DeleteVector: delete_vector.rs, and [build_deletes_row_selection] of arrow/reader.rs.
    - RowFilter: the predicate converter of arrow/reader.rs, which compiles a bound predicate
      to kernels on record batches.
    - ReaderPlan, ByteRanges: the rest of arrow/reader.rs between the metadata of a file and
      the stream: row groups, selection and filter; and its coalesced reads.
    - ArrowSchema: arrow/schema.rs: schemas to Arrow and back, their metadata stripped.
    - ArrowValues: arrow/value.rs and the partner visitor of spec/schema/visitor.rs: arrays
      to literals, and arrays of a constant.
    - RecordBatchTransformer: arrow/record_batch_transformer.rs.
    - Int96, FileColumns: arrow/int96.rs, and the part of arrow/reader.rs that finds the field ids
      of the columns of a file and the projection mask.
    - EqualityDeletes: the equality deletes of arrow/caching_delete_file_loader.rs, and
      [evolve_schema] of arrow/delete_file_loader.rs.
    - DeleteFilter: arrow/delete_filter.rs and the rest of arrow/caching_delete_file_loader.rs:
      the shared state of loaded delete files, and its tasks as a step relation.
    - LiteralEq: equality of literals and partition tuples, as keys of maps.
    - Transform, TransformSpec: spec/transform.rs and transform/: partition transforms.
    - PartitionSpecs, SortOrders, PartitionSchema: spec/partition.rs and spec/sort.rs: specs
      and orders, bound and unbound, and their builders; the schema of partition tuples.
    - Project, ProjectSpec, Projection: [Transform::project] and [strict_project], and the
      visitors inclusive_projection.rs and strict_projection.rs.
    - DeleteIndex: delete_file_index.rs: the index, its lookup, and its readers' waiting.
    - ScanTask, ScanPlan: scan/task.rs, scan/mod.rs, scan/context.rs, scan/cache.rs and
      io/object_cache.rs: from the builder of a scan to its tasks.  ScanSpec and PlanSpec hold
      the lemmas on its caches and contexts and the theorem on the plan.
    - Namespace: catalog/memory/namespace_state.rs and the operations of
      catalog/memory/catalog.rs that touch only the tree.
    - MetadataLocation: catalog/metadata_location.rs.
    - FileGroups: datafusion:physical_plan/file_groups.rs.
    - TableMetadata, MetadataBuilder: spec/table_metadata.rs, spec/table_metadata_builder.rs and
      the updates of catalog/mod.rs; MetadataSpec and Versions: the invariant of a builder and
      of the versions of a table.
    - Commit: the requirements of catalog/mod.rs, [TableCommit::apply], and [create_table] and
      [update_table] of catalog/memory/catalog.rs.
    - RawValues, LiteralJson, AvroSchema: spec/values/serde.rs, the JSON form of
      spec/values/literal.rs with spec/values/temporal.rs, and avro/schema.rs: the forms in
      which values are stored, and the avro schemas they are stored under.
    - ManifestWriter, ManifestList, ManifestSerde: spec/manifest/ and spec/manifest_list.rs: the
      two writers and the stored records of every format version, with the avro schemas and the
      header of a manifest.
    - SnapshotSummary: spec/snapshot_summary.rs.
    - Producer, AppendSpec: transaction/snapshot.rs and transaction/append.rs, and what an append
      leaves in storage.
    - Transactions, TransactionSpec: the rest of transaction/ and spec/table_properties.rs:
      actions, attempts and retries, and what a committed transaction leaves.
    - Storage: io/storage/mod.rs, io/storage/memory.rs and io/file_io.rs.
    - ByteCache: crates:idb-catalog/src/byte_cache/mod.rs and caching_storage.rs: the two caches
      behind one interface ([ByteCacheStore]), and the storage that reads through them.
    - Writers, PartitionWriters: writer/file_writer/, writer/base_writer/data_file_writer.rs,
      writer/partitioning/, arrow/record_batch_partition_splitter.rs and
      datafusion:task_writer.rs, over the interface of a writer of one file ([FileWriter]).
    - FileMetrics, ParquetWriter: writer/file_writer/parquet_writer.rs and
      arrow/nan_val_cnt_visitor.rs; ParquetWriter is an instance of the interface.
    - EnginePredicates: datafusion:physical_plan/expr_to_predicate.rs and
      physical_expr_to_predicate.rs.
    - EngineScan: datafusion:physical_plan/, scan.rs, scan_statistics.rs, dim_key_bounds.rs,
      fk_bound_pushdown.rs, fact_filter_pushdown.rs, join_utils.rs and join_reorder.rs.
    - Concrete, ConcreteTime: instances of the interfaces to third-party code, for witnesses.

    ** How code is translated

    A function that returns [Result] or may panic returns [result]: a value, an [Error] with
    its [ErrorKind], or [Panic] for [unwrap], [unreachable!] and indexing out of range.
    Error messages are left out, for no modelled caller branches on them.  A method on
    [&mut self] is a function in [SR], whose state is lost on failure because its callers
    drop it, or in [ST], which keeps the state of a failed operation because the tree of a
    catalog and the files of a table outlive it.  A struct is a record, an enum an inductive
    type with the same
    constructors.  A [HashMap] is a [gmap]; where iteration order can show, the list of its
    pairs.  Integers are [Z] with the wrap of the release profile written out ([wrapS],
    [wrapU]); floats are their bit patterns, read by [float_num] and [float_is_nan].  Text is a
    list of Unicode scalar values where its bytes or characters count ([str]) and a [string]
    where only equality does.

    [Predicate] and [BoundPredicate] share one type [Pred] that differs in the term of a
    leaf; functions the code writes twice with different bodies are given twice.

    ** Third-party code

    It is a parameter, with documented laws as hypotheses: [Fastnum] (the D128 decimals),
    [ValueLib] (ordered-float, uuid order, chrono parsing), [TransformLib] (murmur3, chrono
    calendar), [UuidText] (uuid text), [Lowercase] ([str::to_lowercase]), [HashOrder] (the
    iteration order of hash maps), [AvroLists] (avro files of manifest lists), [AvroNames] (the
    names that the avro crate accepts), [AvroManifests] (avro files of manifests: a record that
    is written comes back without the fields that its schema does not have), [ManifestJson] and
    [JsonText] (the JSON of schemas and partition fields, and the text of calendar values),
    [RowSelections] (the normal form of row selections of the parquet crate), [Roaring] and
    [RoaringOps] (roaring treemaps and their iterators), [RowFilter.Arrow] (kernels, scalars
    and casts), [ArrowTypes], [ArrowBatches], [ArrowLeaves] and [ArrowColumns] (checks on data
    types, casts and batches, the leaves of a type, columns by name), [StructOrder] (the order of
    a hash map of partitions), [ArrowWriter] (the writer of the parquet crate and its footers,
    whose statistics are exact for values of at most 64 bytes), [Storage] (reading, writing and
    deleting files; the one in memory is an instance), [DefaultHasher] (hashes of cache keys);
    and, as arguments, the JSON form of table metadata, the text of a value, the kernel that
    filters a batch, the waits of the backon crate, clocks and random ids.  The data types of
    Arrow, its arrays, the statistics and indexes of a parquet file, the schemas of avro and the
    expressions of the engine are inductive types with the cases the code matches on, and one
    for the others.  What a filter of the engine means is not the code's translation: it is
    SQL's semantics, defined on values ([sql_cmp], [sql_test], [like]), which [SqlLaws] and
    [LogicalLaws] lay down for the truth of an expression.  The laws hold of the instances in
    Concrete, ConcreteTime, Versions, ManifestList and the files named for what they model, so
    theorems that assume them are not vacuous.

    ** What the theorems show

    - No row is lost: [scan_loses_no_row] says that planning a scan turns every live file with a
      matching row into a task, whatever the schedule of entries and with caches on or off.  It
      composes [inclusive_metrics_sound], [manifest_eval_sound] and
      [inclusive_projection_sound], which say that a file, a manifest or a partition tuple is
      only ruled out when no row of it matches.  [strict_metrics_sound] and
      [strict_projection_sound] say that "all rows match" is only claimed when they do.
      Each is relative to the meaning [eval_row] of the expression evaluator and to
      conditions, which are those under which it is true: [leaf_described] (counts and bounds
      that are right, no negative zero in compared columns and literals, no NaN in ordered
      columns and their bounds), [leaf_summarised] (the same of partition summaries), and
      [projectable] and [strict_projectable] (no overflow, no truncated decimals, no timestamp
      of a skewed day, no prefix of as many bytes as the width but fewer characters).  The
      theorems at the end of this list show a failure for each kind of input that is excluded.
    - Rewriting and binding: [rewrite_not_meaning], [bind_folds_constants],
      [rewritten_filter_evaluates], [bind_typed], [bind_integer_comparison].
    - Values: [datum_total_order], [datum_eq_is_order_eq], [datum_bytes_roundtrip],
      [decimal_required_bytes_least].
    - Schemas and specs: [index_by_id_spec], [build_accessor_reads], [build_reassigns_ids],
      [build_validates_identifiers], [bind_validates].
    - Transforms: [transform_monotone], [transform_result_typed],
      [transform_text_roundtrip], [truncate_greatest_multiple], [bucket_in_range],
      [hash_decimal_minimal], [day_of_timestamp].
    - Reading a file: [reader_plan_sound] composes [row_group_metrics_sound],
      [page_index_sound] and [deletes_selection_exact]; [row_group_is_inclusive] reduces the
      row group evaluator to the inclusive metrics evaluator; [row_filter_exact] says what the
      row filter keeps; [get_byte_ranges_exact] and [merge_ranges_coalesces] are about the
      reads.  [transform_resolves], [arrow_rows_read], [constant_column_reads],
      [arrow_type_roundtrip], [arrow_schema_roundtrip] and [strip_exact] are about the form
      of the data; [projection_selects], [fallback_columns_agree] and [file_read_resolves] about
      which columns of a file are read.
    - Storage: [writer_flushes_at_close] about the storage in memory; [memory_cache_bounded] and
      [caching_storage_transparent] about the cache, for keys that its names tell apart, files
      that do not change and no partial reads from the start.
    - Writing: [data_files_hold_rows] and [insert_succeeds], for any writer of one file;
      [written_metrics_describe]; [inserted_rows_kept] composes them with the parquet writer and
      the metrics evaluator.
    - The engine: [engine_filters_sound] and [merged_filters_sound] say that a row that passes
      the filters, by the meaning that SQL gives them, satisfies the bound predicate;
      [join_rewriting_preserves_rows] that bounds on fact tables change no row of a plan over
      given snapshots; [partitions_read_every_task].
    - Delete files: [deletes_for_data_file]; [wait_is_safe_but_can_hang];
      [parse_positional_deletes_exact], [equality_deletes_exact] and [task_deletes_exact] say
      which rows are deleted; [positional_deletes_loaded], [delete_vectors_exact] and
      [loads_and_answers] hold however the tasks that share the loaded files interleave.
    - Tables: [every_version_ok] is the invariant of all versions; [commit_is_readable] and
      [row_ids_stay_disjoint] are about one commit; [update_table_atomic] about the catalog.
    - Manifests: [writer_counts_entries], [manifest_roundtrip] and [data_files_roundtrip] (up to
      what a version does not store, [stored_file]), [manifest_list_roundtrip],
      [row_ids_assigned]; [written_manifest_kept] joins the writer to the manifest evaluator.
    - Appends and transactions: [append_is_read] and [append_takes_rows] are about what an
      append writes, [append_commits] joins them to the catalog and the metadata builder,
      [commit_attempts] bounds the retries; [append_adds_to_totals].
    - Catalog: [namespace_tree_refines_flat_map] is a refinement of a flat map from paths,
      for every sequence of operations; [rename_table_atomic];
      [metadata_location_roundtrip].
    - Scan division: [partition_loses_no_task], [partition_balances_bytes].
    - What the code does not do: [nan_lower_bound_is_trusted], [negative_zero_is_lost],
      [multibyte_prefix_excludes_rows], [multibyte_prefix_strict_wrong],
      [day_not_monotone], [day_projection_excludes_rows],
      [truncated_decimal_does_not_bind], [bind_out_of_range_matches_null],
      [decimal_literal_loses_scale], [failed_registration_keeps_table],
      [failed_commit_creates_table], [row_ids_may_overlap], [reserved_name_hides_column],
      [totals_restart], [two_appends_conflict], [counter_property_panics],
      [decimal_pages_are_lost], [page_index_rejects_binary_and_uuid],
      [advance_to_loses_deletes], [advance_to_hangs], [row_filter_deviates],
      [row_filter_refuses_time], [adjacent_splits_share_a_group], [uuid_becomes_fixed],
      [strip_rejects_containers], [nested_nulls_deviate], [null_struct_with_date_panics],
      [added_columns_unreadable], [added_lists_unreadable], [reordered_columns_swap],
      [added_column_takes_data], [constants_refuse_empty_batches],
      [equality_deletes_swapped], [equality_deletes_drop_nulls], [lost_wakeup],
      [failed_load_hangs], [replaced_notifier_hangs], [name_mapping_read_by_position],
      [unpromoted_column_is_dropped], [unknown_column_stops_coercion],
      [prefix_served_as_whole_file], [changed_file_is_served_stale],
      [fingerprint_ignores_names], [name_collision_serves_other_file],
      [delete_root_keeps_everything], [negated_conjunction_loses_row], [cast_is_ignored],
      [zeros_are_confused], [float_filter_fails], [unconverted_filter_is_claimed],
      [outer_join_is_bounded], [other_scan_is_bounded], [constraint_outlives_snapshot],
      [swaps_both_ways], [file_between_partitions_is_lost], [filter_passes_any_node],
      [sorted_input_refused], [inexact_bounds_are_dropped], [uncounted_nulls_are_dropped],
      [nans_of_null_structs_counted], [nanosecond_partition_unreadable],
      [early_timestamptz_panics], [binary_text_is_ambiguous], [binary_text_panics],
      [unreadable_member_is_null] and [referenced_file_is_ignored] each exhibit inputs on which
      the code departs from what it means to do, or from the specification of the format.

    ** Fuel

    Seven definitions recurse on fuel.  [PartitionSpecs.skip_assigned] has one more than the number
    of ids it may have to skip; [bind_validates] shows that it finds a free one.
    [Numerals.digits_acc] has [log2 z + 1], at least the number of decimal digits ([log2_fuel]).  [Values.ilog10] has 60, and the
    greatest number it is applied to, [2 ^ 191], has 58 digits; its use is pinned down by
    [decimal_required_bytes_least].  [Schema.validate_parents] has the number of fields, at
    least the depth of any field ([ancestry_depth]); [build_validates_identifiers] shows that
    [build] never runs out of it.  [DeleteVector.build_deletes_row_selection] has the number of
    positions of the delete vector, and [deletes_selection_exact] shows that it is enough for
    files below 2^32 rows; [advance_to_hangs] that no fuel is enough beyond.
    [EqualityDeletes.balanced] has the number of predicates, of which each level has fewer
    ([balanced_decides]).  [ByteCache.evict] has the number of paths in the cache;
    each round removes one, and the bound of the cache fails if it runs out.

    ** Details that differ from what one may expect

    Rows are compared by the derived [PartialOrd] of literals, for which NaN is above
    every number; the strict evaluator
    of NOT IN does not look at a NaN upper bound.  The definitions follow the code
    in all of these.

    ** Not modelled

    The bytes of parquet and avro files and of Arrow buffers, which other crates encode; the
    text of JSON documents, which serde derives (of metadata, schemas and name mappings);
    puffin files, which no scan or insert uses; local, REST and browser storage, the command
    line tools and the benchmarks, which only call libraries; views, with a builder of the
    shape of that of tables; the inspection tables; the methods of transforms on Arrow arrays,
    which apply the functions of Transform to each element, with the computation of partition
    values from source columns; the writer of equality deletes; join_collect_left.rs, which
    changes how a join is executed and not what it gives; the display of predicates and plans;
    the configuration profiles of the command line; and the conversion of avro schemas to
    schemas, which only tests use. *)

From stdpp Require Export base numbers list strings option gmap sorting.
From Stdlib Require Export ZArith Lia.

Declare Scope iceberg_scope.
Delimit Scope iceberg_scope with ice.
#[global] Open Scope Z_scope.

(** ** Errors

    [ErrorKind] is the enum of error.rs.  Messages, context and sources of an
    [Error] are not modelled: no caller in the modelled code branches on them. *)
Inductive ErrorKind :=
| PreconditionFailed | Unexpected | DataInvalid
| NamespaceAlreadyExists | TableAlreadyExists
| NamespaceNotFound | TableNotFound
| FeatureUnsupported | CatalogCommitConflicts.

#[global] Instance ErrorKind_eq_dec : EqDecision ErrorKind.
Proof. solve_decision. Defined.

(** What a fallible computation can end with besides a value: the [Err] of a
    [Result], or a panic of the thread ([unwrap], [unreachable!], an index out
    of range). *)
Inductive failure := Error (k : ErrorKind) | Panic.

Inductive result (A : Type) :=
| Ok (a : A)
| Err (e : failure).
Arguments Ok {A} _.
Arguments Err {A} _.

#[global] Instance result_ret : MRet result := fun A a => Ok a.
#[global] Instance result_bind : MBind result := fun A B f r =>
  match r with Ok a => f a | Err e => Err e end.
#[global] Instance result_throw : MThrow failure result := fun A e => Err e.
#[global] Instance result_fmap : FMap result := fun A B f r =>
  match r with Ok a => Ok (f a) | Err e => Err e end.

Notation "'let?' x ':=' e 'in' k" := (mbind (M := result) (fun x => k) e)
  (at level 10, x name, e at level 100, k at level 200) : iceberg_scope.
#[global] Open Scope iceberg_scope.

(** [o.ok_or(Error)], and [o.unwrap()] / [o.expect(..)]. *)
Definition ok_or {A} (o : option A) (k : ErrorKind) : result A :=
  match o with Some a => Ok a | None => Err (Error k) end.
Definition unwrap {A} (o : option A) : result A :=
  match o with Some a => Ok a | None => Err Panic end.
(** [unwrap_or]. *)
Definition ok_value {A} (d : A) (r : result A) : A :=
  match r with Ok a => a | Err _ => d end.
Definition is_ok {A} (r : result A) : bool :=
  match r with Ok _ => true | Err _ => false end.

Lemma bind_Ok {A B} (f : A -> result B) r b :
  r ≫= f = Ok b <-> exists a, r = Ok a /\ f a = Ok b.
Proof. destruct r as [a|e]; simpl; split; [eauto| | |]; naive_solver. Qed.

Lemma fmap_Ok {A B} (f : A -> B) (r : result A) b :
  f <$> r = Ok b <-> exists a, r = Ok a /\ f a = b.
Proof. destruct r as [a|e]; simpl; split; naive_solver. Qed.

Lemma ok_value_Ok {A} (d : A) r : is_ok r = true -> r = Ok (ok_value d r).
Proof. by destruct r. Qed.
Lemma is_ok_true {A} (r : result A) : is_ok r = true <-> exists a, r = Ok a.
Proof. destruct r; simpl; naive_solver. Qed.

(** [iter.map(f).collect::<Result<Vec<_>>>()]: the first error wins. *)
Fixpoint mapR {A B} (f : A -> result B) (l : list A) : result (list B) :=
  match l with
  | [] => Ok []
  | a :: l => let? b := f a in let? bs := mapR f l in Ok (b :: bs)
  end.

Lemma mapR_Ok {A B} (f : A -> result B) l l' :
  mapR f l = Ok l' <-> Forall2 (fun a b => f a = Ok b) l l'.
Proof.
  revert l'; induction l as [|a l IH]; intros l'; simpl.
  - split; [intros [= <-]; constructor | by inversion 1].
  - rewrite bind_Ok. setoid_rewrite bind_Ok. setoid_rewrite IH. split.
    + intros (b & Hb & bs & Hbs & [= <-]). by constructor.
    + inversion 1; subst; eauto.
Qed.

Lemma mapR_total {A B} (f : A -> result B) l :
  Forall (fun a => exists b, f a = Ok b) l -> exists l', mapR f l = Ok l'.
Proof.
  induction 1 as [|a l (b & Hb) _ (l' & IH)]; [by exists []|]. exists (b :: l'). cbn. by rewrite Hb, IH.
Qed.

(** [iter.try_fold(init, f)]. *)
Fixpoint try_fold {A B} (f : A -> B -> result A) (acc : A) (l : list B) : result A :=
  match l with
  | [] => Ok acc
  | b :: l => let? acc' := f acc b in try_fold f acc' l
  end.

(** Code that threads a mutable state through fallible calls ([&mut self] methods
    returning [Result]); what a failed call leaves in the state is not observed. *)
Definition SR (S A : Type) : Type := S -> result (A * S).
#[global] Instance sr_ret {S} : MRet (SR S) := fun A a s => Ok (a, s).
#[global] Instance sr_bind {S} : MBind (SR S) := fun A B f m s =>
  match m s with Ok (a, s') => f a s' | Err e => Err e end.
#[global] Instance sr_throw {S} : MThrow failure (SR S) := fun A e s => Err e.
Definition sr_lift {S A} (r : result A) : SR S A := fun s =>
  match r with Ok a => Ok (a, s) | Err e => Err e end.
Definition sr_get {S} : SR S S := fun s => Ok (s, s).
Definition sr_modify {S} (f : S -> S) : SR S unit := fun s => Ok (tt, f s).

Notation "'let!' x ':=' e 'in' k" := (mbind (M := SR _) (fun x => k) e)
  (at level 10, x name, e at level 100, k at level 200) : iceberg_scope.

Lemma sr_bind_Ok {S A B} (f : A -> SR S B) (m : SR S A) s r :
  (m ≫= f) s = Ok r <-> exists a s', m s = Ok (a, s') /\ f a s' = Ok r.
Proof.
  unfold mbind, sr_bind. destruct (m s) as [[a s']|e]; split.
  - eauto.
  - by intros (? & ? & [= <- <-] & ?).
  - done.
  - by intros (? & ? & ? & ?).
Qed.

(** Running a sequence whose first step succeeds. *)
Lemma run_bind {S A B} (run : SR S A) (f : A -> SR S B) s a s' :
  run s = Ok (a, s') -> (run ≫= f) s = f a s'.
Proof. unfold mbind, sr_bind. by intros ->. Qed.

(** [iter.map(f).collect::<Result<Vec<_>>>()] where [f] mutates the state. *)
Fixpoint mapSR {S A B} (f : A -> SR S B) (l : list A) : SR S (list B) :=
  match l with
  | [] => mret []
  | a :: l => let! b := f a in let! bs := mapSR f l in mret (b :: bs)
  end.

(** ** Machine integers

    Integers are [Z]; the arithmetic of the code wraps at its width, as Rust's
    release profile does.  [wrapS n] is two's complement at [n] bits. *)
Definition wrapU (n : Z) (z : Z) : Z := z mod 2 ^ n.
Definition wrapS (n : Z) (z : Z) : Z := (z + 2 ^ (n - 1)) mod 2 ^ n - 2 ^ (n - 1).
Definition inS (n : Z) (z : Z) : bool := (- 2 ^ (n - 1) <=? z) && (z <? 2 ^ (n - 1)).
Definition inU (n : Z) (z : Z) : bool := (0 <=? z) && (z <? 2 ^ n).

Lemma inS_spec n z : inS n z = true <-> - 2 ^ (n - 1) <= z < 2 ^ (n - 1).
Proof. unfold inS. rewrite andb_true_iff, Z.leb_le, Z.ltb_lt. lia. Qed.
Lemma inU_spec n z : inU n z = true <-> 0 <= z < 2 ^ n.
Proof. unfold inU. rewrite andb_true_iff, Z.leb_le, Z.ltb_lt. lia. Qed.

Lemma pow2_split n : 0 < n -> 2 ^ n = 2 * 2 ^ (n - 1).
Proof. intros. rewrite <- Z.pow_succ_r by lia. f_equal. lia. Qed.

Lemma wrapS_inS n z : 0 < n -> inS n (wrapS n z) = true.
Proof.
  intros Hn. apply inS_spec. unfold wrapS.
  pose proof (Z.mod_pos_bound (z + 2 ^ (n - 1)) (2 ^ n) ltac:(apply Z.pow_pos_nonneg; lia)).
  rewrite (pow2_split n) in * by lia. lia.
Qed.

Lemma wrapS_id n z : 0 < n -> inS n z = true -> wrapS n z = z.
Proof.
  intros Hn Hz%inS_spec. unfold wrapS.
  rewrite Z.mod_small; [lia|]. rewrite (pow2_split n) by lia. lia.
Qed.

Lemma wrapU_id n z : inU n z = true -> wrapU n z = z.
Proof. intros Hz%inU_spec. by apply Z.mod_small. Qed.

Lemma wrapS_wrapU n z : 0 < n -> wrapS n (wrapU n z) = wrapS n z.
Proof.
  intros Hn. unfold wrapS, wrapU. f_equal.
  assert (2 ^ n <> 0) by (apply Z.pow_nonzero; lia).
  rewrite <- (Zplus_mod_idemp_l z). reflexivity.
Qed.

(** ** Lexicographic order on sequences of integers

    Rust's [Ord] for [\[u8\]], [Vec<u8>] and [str]; also the single order into
    which the literals of every primitive type embed (see [Values.lit_key]). *)
Fixpoint lex_cmp (a b : list Z) : comparison :=
  match a, b with
  | [], [] => Eq
  | [], _ :: _ => Lt
  | _ :: _, [] => Gt
  | x :: a, y :: b => match x ?= y with Eq => lex_cmp a b | c => c end
  end.

Definition lex_le (a b : list Z) : Prop := lex_cmp a b <> Gt.
Definition lex_lt (a b : list Z) : Prop := lex_cmp a b = Lt.

Lemma lex_cmp_refl a : lex_cmp a a = Eq.
Proof. induction a; simpl; [done|]. by rewrite Z.compare_refl. Qed.

Lemma lex_cmp_eq a b : lex_cmp a b = Eq <-> a = b.
Proof.
  split; [|intros ->; apply lex_cmp_refl].
  revert b; induction a as [|x a IH]; intros [|y b]; simpl; try done.
  destruct (Z.compare_spec x y); try done. intros ?%IH. by subst.
Qed.

Lemma lex_cmp_antisym a b : lex_cmp b a = CompOpp (lex_cmp a b).
Proof.
  revert b; induction a as [|x a IH]; intros [|y b]; simpl; try done.
  rewrite Z.compare_antisym. destruct (x ?= y); simpl; auto.
Qed.

Lemma lex_lt_le a b : lex_lt a b -> lex_le a b.
Proof. unfold lex_lt, lex_le. congruence. Qed.

Lemma lex_le_refl a : lex_le a a.
Proof. unfold lex_le. by rewrite lex_cmp_refl. Qed.

Lemma lex_not_le a b : ~ lex_le a b <-> lex_lt b a.
Proof.
  unfold lex_le, lex_lt. rewrite (lex_cmp_antisym a b).
  destruct (lex_cmp a b); simpl; split; try done; intros H; try tauto; exfalso; apply H; done.
Qed.

Lemma lex_not_lt a b : ~ lex_lt a b <-> lex_le b a.
Proof.
  unfold lex_le, lex_lt. rewrite (lex_cmp_antisym a b).
  destruct (lex_cmp a b); simpl; split; try done; congruence.
Qed.

Lemma lex_lt_trans a b c : lex_lt a b -> lex_lt b c -> lex_lt a c.
Proof.
  unfold lex_lt. revert b c; induction a as [|x a IH]; intros [|y b] [|z c]; simpl; try done.
  destruct (Z.compare_spec x y); try done; destruct (Z.compare_spec y z); try done; subst.
  - rewrite Z.compare_refl. apply IH.
  - intros _ _. by rewrite (proj2 (Z.compare_lt_iff y z)).
  - intros _ _. by rewrite (proj2 (Z.compare_lt_iff x z)).
  - intros _ _. rewrite (proj2 (Z.compare_lt_iff x z)); [done|lia].
Qed.

Lemma lex_le_cases a b : lex_le a b <-> lex_lt a b \/ a = b.
Proof.
  rewrite <- (lex_cmp_eq a b). unfold lex_le, lex_lt.
  destruct (lex_cmp a b); naive_solver.
Qed.

Lemma lex_le_trans a b c : lex_le a b -> lex_le b c -> lex_le a c.
Proof.
  rewrite !lex_le_cases. intros [?| ->] [?| ->]; eauto using lex_lt_trans.
Qed.
Lemma lex_lt_le_trans a b c : lex_lt a b -> lex_le b c -> lex_lt a c.
Proof. rewrite lex_le_cases. intros ? [?| ->]; eauto using lex_lt_trans. Qed.
Lemma lex_le_lt_trans a b c : lex_le a b -> lex_lt b c -> lex_lt a c.
Proof. rewrite lex_le_cases. intros [?| ->] ?; eauto using lex_lt_trans. Qed.
Lemma lex_lt_irrefl a : ~ lex_lt a a.
Proof. unfold lex_lt. by rewrite lex_cmp_refl. Qed.
Lemma lex_le_antisym a b : lex_le a b -> lex_le b a -> a = b.
Proof.
  rewrite !lex_le_cases. intros [H| ->] [H'|?]; auto.
  destruct (lex_lt_irrefl a). eauto using lex_lt_trans.
Qed.

(** Truncation is monotone, and a prefix is a lower bound. *)
Lemma lex_le_take n a b : lex_le a b -> lex_le (take n a) (take n b).
Proof.
  unfold lex_le. revert n b; induction a as [|x a IH]; intros [|n] [|y b]; simpl; try done.
  destruct (x ?= y); [apply IH|done|done].
Qed.

Lemma lex_take_le n a : lex_le (take n a) a.
Proof.
  unfold lex_le. revert n; induction a as [|x a IH]; intros [|n]; simpl; try done.
  rewrite Z.compare_refl. apply IH.
Qed.

(** Prefixes of what lies between two bounds. *)
Lemma lex_app_le p q : lex_le p (p ++ q).
Proof. rewrite <- (take_app_length p q) at 1. apply lex_take_le. Qed.

Lemma lex_prefix_lower p q lb n : lex_le lb (p ++ q) -> (n <= length p)%nat -> lex_le (take n lb) p.
Proof.
  intros H Hn. apply (lex_le_trans _ (take n p)); [|apply lex_take_le].
  rewrite <- (take_app_le p q n) by done. by apply lex_le_take.
Qed.

Lemma lex_prefix_upper p q ub :
  lex_le (p ++ q) ub -> lex_le p (take (length ub `min` length p) ub).
Proof.
  intros H. destruct (Nat.le_ge_cases (length p) (length ub)).
  - rewrite Nat.min_r by done. rewrite <- (take_app_length p q) at 1. by apply lex_le_take.
  - rewrite Nat.min_l, take_ge by done. by apply (lex_le_trans _ (p ++ q)); [apply lex_app_le|].
Qed.

Lemma lex_prefix_between p lb ub s :
  lex_le lb s -> lex_le s ub -> take (length p) lb = p -> take (length p) ub = p ->
  take (length p) s = p.
Proof.
  intros Hl Hu El Eu. apply lex_le_antisym.
  - rewrite <- Eu at 2. by apply lex_le_take.
  - rewrite <- El at 1. by apply lex_le_take.
Qed.

Lemma lex_cmp_cons_same x a b : lex_cmp (x :: a) (x :: b) = lex_cmp a b.
Proof. simpl. by rewrite Z.compare_refl. Qed.

Lemma lex_cmp_app_same p a b : lex_cmp (p ++ a) (p ++ b) = lex_cmp a b.
Proof. induction p; simpl; [done|]. by rewrite Z.compare_refl. Qed.

Lemma lex_cmp_singleton x y : lex_cmp [x] [y] = (x ?= y).
Proof. simpl. by destruct (x ?= y). Qed.

Lemma lex_le_singleton x y : lex_le [x] [y] <-> x <= y.
Proof. unfold lex_le. rewrite lex_cmp_singleton. reflexivity. Qed.
Lemma lex_lt_singleton x y : lex_lt [x] [y] <-> x < y.
Proof. unfold lex_lt. rewrite lex_cmp_singleton. reflexivity. Qed.

Create HintDb lex.
Create Rewrite HintDb lex_rw.
#[export] Hint Resolve lex_lt_le lex_le_refl lex_le_trans lex_lt_le_trans
  lex_le_lt_trans lex_lt_trans lex_le_take lex_take_le : lex.
#[export] Hint Rewrite lex_cmp_refl lex_cmp_cons_same lex_cmp_app_same lex_cmp_singleton : lex_rw.

(** Rust's derived comparison operators of a [PartialOrd]:
    [a < b] is [a.partial_cmp(b) == Some(Less)], and so on. *)
Definition is_lt (c : option comparison) : bool := match c with Some Lt => true | _ => false end.
Definition is_le (c : option comparison) : bool :=
  match c with Some Lt | Some Eq => true | _ => false end.
Definition is_gt (c : option comparison) : bool := match c with Some Gt => true | _ => false end.
Definition is_ge (c : option comparison) : bool :=
  match c with Some Gt | Some Eq => true | _ => false end.

(** ** Tactics *)

(** Case-split on the scrutinee of a [match] or [if] in the goal or context. *)
Ltac split_match :=
  match goal with
  | |- context [match ?x with _ => _ end] => destruct x eqn:?
  | H : context [match ?x with _ => _ end] |- _ => destruct x eqn:?
  end.

(** Turn boolean equations into propositions. *)
Ltac bool_to_prop :=
  repeat match goal with
  | H : _ && _ = true |- _ => apply andb_true_iff in H; destruct H
  | H : _ || _ = true |- _ => apply orb_true_iff in H
  | H : _ || _ = false |- _ => apply orb_false_iff in H; destruct H
  | H : _ && _ = false |- _ => apply andb_false_iff in H
  | H : negb _ = true |- _ => apply negb_true_iff in H
  | H : negb _ = false |- _ => apply negb_false_iff in H
  | H : (_ =? _) = true |- _ => apply Z.eqb_eq in H
  | H : (_ =? _) = false |- _ => apply Z.eqb_neq in H
  | H : (_ <? _) = true |- _ => apply Z.ltb_lt in H
  | H : (_ <? _) = false |- _ => apply Z.ltb_ge in H
  | H : (_ <=? _) = true |- _ => apply Z.leb_le in H
  | H : (_ <=? _) = false |- _ => apply Z.leb_gt in H
  end.

(** Decompose successful binds. *)
Ltac inv_ok :=
  repeat match goal with
  | H : Ok _ = Ok _ |- _ => injection H as H; try subst
  | H : Err _ = Ok _ |- _ => discriminate H
  | H : Ok _ = Err _ |- _ => discriminate H
  | H : mbind _ _ = Ok _ |- _ => apply bind_Ok in H as (? & ? & H)
  | H : fmap _ _ = Ok _ |- _ => apply fmap_Ok in H as (? & ? & H)
  end.

(** ** Record update

    [x <| f := v |>] is the record [x] with the field [f] set, as [x.f = v] does it: a
    record type is updatable once its eta expansion is known. *)

Class Updatable (R : Type) := eta : R -> R.
Class Update {R T} (proj : R -> T) := update_field : (T -> T) -> R -> R.
Arguments update_field {R T} proj {_} _ _ /.

Ltac solve_update :=
  lazymatch goal with
  | |- @Update ?R ?T ?proj =>
      let upd := fresh "upd" in let r := fresh "r" in intros upd r;
      let h := constr:(_ : Updatable R) in
      let h := eval hnf in h in
      let body := eval cbv beta in (h r) in
      lazymatch eval pattern (proj r) in body with
      | ?build _ => let res := eval cbv beta in (build (upd (proj r))) in exact res
      end
  end.
#[global] Hint Extern 1 (Update _) => solve_update : typeclass_instances.

Notation "x <| f := v |>" := (update_field f (fun _ => v) x)
  (at level 12, f at next level, left associativity, format "x  <| f  :=  v |>").
