(* ===== verification/Utf8.v ===== *)
(** * Strings: Unicode text, its UTF-8 bytes, and Rust's [str] operations

    A [String] of the code is modelled by its Unicode scalar values, [str :=
    list Z]; [utf8] gives the bytes Rust stores.  [str] operations that work on
    bytes in Rust (comparison, [len], [starts_with]) are defined through [utf8],
    those that work on [char]s ([chars().count()], [chars().take(n)]) on the
    scalar values.  The lemmas relate the two views: UTF-8 is prefix free and
    order preserving, so for well-formed text the byte-wise operations agree
    with the character-wise ones. *)

From S2P Require Import Prelude.

Abbreviation str := (list Z).

(** A Unicode scalar value: a code point outside the surrogate range. *)
Definition valid_char (c : Z) : bool :=
  ((0 <=? c) && (c <? 55296)) || ((57344 <=? c) && (c <? 1114112)).
Definition valid_str (s : str) : bool := forallb valid_char s.
Arguments valid_str : simpl never.

Definition utf8_char (c : Z) : list Z :=
  if c <? 128 then [c]
  else if c <? 2048 then [192 + c / 64; 128 + c mod 64]
  else if c <? 65536 then [224 + c / 4096; 128 + (c / 64) mod 64; 128 + c mod 64]
  else [240 + c / 262144; 128 + (c / 4096) mod 64; 128 + (c / 64) mod 64; 128 + c mod 64].

Fixpoint utf8 (s : str) : list Z :=
  match s with [] => [] | c :: s => utf8_char c ++ utf8 s end.

(** [str::len]: the number of bytes. *)
Definition str_len (s : str) : nat := length (utf8 s).
(** [Ord for str]: byte-wise. *)
Definition str_cmp (s t : str) : comparison := lex_cmp (utf8 s) (utf8 t).
(** [str::starts_with]: a byte prefix. *)
Definition starts_with (s p : str) : bool :=
  bool_decide (take (str_len p) (utf8 s) = utf8 p).
(** [chars().count()] and [chars().take(n).collect()]. *)
Definition chars_count (s : str) : nat := length s.
Definition chars_take (n : nat) (s : str) : str := take n s.

(** [std::str::from_utf8]: the validating decoder. *)
Definition cont (b : Z) : bool := (128 <=? b) && (b <? 192).
Fixpoint from_utf8 (bs : list Z) : option str :=
  match bs with
  | [] => Some []
  | b0 :: r0 =>
      if (0 <=? b0) && (b0 <? 128) then cons b0 <$> from_utf8 r0
      else match r0 with
      | [] => None
      | b1 :: r1 =>
          if (194 <=? b0) && (b0 <? 224) && cont b1
          then cons ((b0 - 192) * 64 + (b1 - 128)) <$> from_utf8 r1
          else match r1 with
          | [] => None
          | b2 :: r2 =>
              let c := (b0 - 224) * 4096 + (b1 - 128) * 64 + (b2 - 128) in
              if (224 <=? b0) && (b0 <? 240) && cont b1 && cont b2
                 && (2048 <=? c) && valid_char c
              then cons c <$> from_utf8 r2
              else match r2 with
              | [] => None
              | b3 :: r3 =>
                  let c := (b0 - 240) * 262144 + (b1 - 128) * 4096
                           + (b2 - 128) * 64 + (b3 - 128) in
                  if (240 <=? b0) && (b0 <? 245) && cont b1 && cont b2 && cont b3
                     && (65536 <=? c) && valid_char c
                  then cons c <$> from_utf8 r3
                  else None
              end
          end
      end
  end.

(** ** UTF-8 is order preserving and prefix free *)

Lemma valid_char_range c : valid_char c = true -> 0 <= c < 1114112.
Proof. unfold valid_char. intros H. bool_to_prop. destruct H as [H|H]; bool_to_prop; lia. Qed.

Lemma valid_str_cons c s : valid_str (c :: s) = true <-> valid_char c = true /\ valid_str s = true.
Proof. unfold valid_str. simpl. apply andb_true_iff. Qed.

Lemma valid_str_app s t : valid_str (s ++ t) = valid_str s && valid_str t.
Proof. apply forallb_app. Qed.

Lemma valid_str_take n s : valid_str s = true -> valid_str (take n s) = true.
Proof.
  rewrite <- (take_drop n s) at 1. rewrite valid_str_app. intros H.
  by apply andb_true_iff in H as [? _].
Qed.

Lemma utf8_char_nonempty c : utf8_char c <> [].
Proof. unfold utf8_char. repeat case_match; done. Qed.

Lemma utf8_char_lt c d x y :
  0 <= c -> c < d -> lex_lt (utf8_char c ++ x) (utf8_char d ++ y).
Proof.
  intros Hc Hcd. unfold lex_lt, utf8_char.
  pose proof (Z.div_mod c 64). pose proof (Z.div_mod d 64).
  repeat (case_match; bool_to_prop; try lia); cbn [app lex_cmp];
  repeat (let E := fresh in
          match goal with |- context [?a ?= ?b] => destruct (Z.compare_spec a b) as [E|E|E] end;
          try done);
  exfalso; Z.div_mod_to_equations; lia.
Qed.

Lemma utf8_char_inj c d x y :
  0 <= c -> 0 <= d -> utf8_char c ++ x = utf8_char d ++ y -> c = d /\ x = y.
Proof.
  intros Hc Hd E. destruct (Z.lt_trichotomy c d) as [H|[H|H]].
  - pose proof (utf8_char_lt c d x y Hc H) as L. rewrite E in L. by destruct (lex_lt_irrefl _ L).
  - subst. by apply app_inv_head in E.
  - pose proof (utf8_char_lt d c y x Hd H) as L. rewrite E in L. by destruct (lex_lt_irrefl _ L).
Qed.

Lemma utf8_lex_cmp s t :
  valid_str s = true -> valid_str t = true -> lex_cmp (utf8 s) (utf8 t) = lex_cmp s t.
Proof.
  revert t; induction s as [|c s IH]; intros [|d t]; simpl; try done.
  - intros _ _. pose proof (utf8_char_nonempty d). by destruct (utf8_char d).
  - intros _ _. pose proof (utf8_char_nonempty c). by destruct (utf8_char c).
  - rewrite !valid_str_cons. intros [Hc%valid_char_range Hs] [Hd%valid_char_range Ht].
    destruct (Z.compare_spec c d) as [->|H|H].
    + rewrite lex_cmp_app_same. auto.
    + apply utf8_char_lt; lia.
    + rewrite lex_cmp_antisym.
      assert (lex_lt (utf8_char d ++ utf8 t) (utf8_char c ++ utf8 s)) as L
        by (apply utf8_char_lt; lia).
      unfold lex_lt in L. by rewrite L.
Qed.

Lemma utf8_app s t : utf8 (s ++ t) = utf8 s ++ utf8 t.
Proof. induction s; simpl; [done|]. by rewrite <- app_assoc, IHs. Qed.

Lemma utf8_prefix p s r :
  valid_str p = true -> valid_str s = true -> utf8 s = utf8 p ++ r ->
  exists q, s = p ++ q.
Proof.
  revert s; induction p as [|c p IH]; intros s; simpl; [eauto|].
  rewrite valid_str_cons. intros [Hc%valid_char_range Hp] Hs E.
  destruct s as [|d s]; simpl in E.
  - pose proof (utf8_char_nonempty c). by destruct (utf8_char c).
  - apply valid_str_cons in Hs as [Hd%valid_char_range Hs].
    rewrite <- app_assoc in E. apply utf8_char_inj in E as [-> E]; [|lia..].
    destruct (IH s) as [q ->]; eauto.
Qed.

Lemma starts_with_prefix s p : starts_with s p = true <-> exists r, utf8 s = utf8 p ++ r.
Proof.
  unfold starts_with, str_len. rewrite bool_decide_eq_true. split.
  - intros E. exists (drop (length (utf8 p)) (utf8 s)). by rewrite <- E at 1; rewrite take_drop.
  - intros [r ->]. apply take_app_length.
Qed.

Lemma starts_with_chars s p :
  valid_str s = true -> valid_str p = true ->
  starts_with s p = true <-> exists q, s = p ++ q.
Proof.
  intros Hs Hp. rewrite starts_with_prefix. split.
  - intros [r E]. by eapply utf8_prefix.
  - intros [q ->]. rewrite utf8_app. eauto.
Qed.

Lemma starts_with_take s p :
  valid_str s = true -> valid_str p = true ->
  starts_with s p = true <-> take (length p) s = p.
Proof.
  intros. rewrite starts_with_chars by done. split.
  - intros [q ->]. apply take_app_length.
  - intros E. exists (drop (length p) s). by rewrite <- E at 1; rewrite take_drop.
Qed.

(** ** Decoding inverts encoding *)

Lemma from_utf8_char c bs :
  valid_char c = true -> from_utf8 (utf8_char c ++ bs) = cons c <$> from_utf8 bs.
Proof.
  intros Hv. pose proof (valid_char_range c Hv) as Hc.
  unfold utf8_char. destruct (Z.ltb_spec c 128); [|destruct (Z.ltb_spec c 2048);
    [|destruct (Z.ltb_spec c 65536)]].
  - cbn [app from_utf8]. by rewrite (proj2 (andb_true_iff _ _)) by (split; lia).
  - cbn [app from_utf8].
    rewrite (proj2 (andb_false_iff (0 <=? _) _)) by (right; Z.div_mod_to_equations; lia).
    unfold cont. rewrite !(proj2 (andb_true_iff _ _))
      by (rewrite ?andb_true_iff; Z.div_mod_to_equations; lia).
    do 2 f_equal. Z.div_mod_to_equations; lia.
  - cbn [app from_utf8].
    rewrite (proj2 (andb_false_iff (0 <=? _) _)) by (right; Z.div_mod_to_equations; lia).
    rewrite (proj2 (andb_false_iff ((194 <=? _) && _) _))
      by (left; apply andb_false_iff; right; Z.div_mod_to_equations; lia).
    match goal with |- context [valid_char ?e] =>
      replace e with c by (Z.div_mod_to_equations; lia) end.
    rewrite Hv. unfold cont. rewrite !andb_true_r.
    rewrite !(proj2 (andb_true_iff _ _))
      by (rewrite ?andb_true_iff; Z.div_mod_to_equations; lia). done.
  - cbn [app from_utf8].
    rewrite (proj2 (andb_false_iff (0 <=? _) _)) by (right; Z.div_mod_to_equations; lia).
    rewrite (proj2 (andb_false_iff ((194 <=? _) && _) _))
      by (left; apply andb_false_iff; right; Z.div_mod_to_equations; lia).
    assert (240 + c / 262144 >= 240) by (Z.div_mod_to_equations; lia).
    rewrite (proj2 (Z.ltb_ge (240 + c / 262144) 240)) by lia.
    rewrite !andb_false_r. cbn [andb].
    match goal with |- context [valid_char ?e] =>
      replace e with c by (Z.div_mod_to_equations; lia) end.
    rewrite Hv. unfold cont. rewrite !andb_true_r.
    rewrite !(proj2 (andb_true_iff _ _))
      by (rewrite ?andb_true_iff; Z.div_mod_to_equations; lia). done.
Qed.

Lemma from_utf8_utf8 s : valid_str s = true -> from_utf8 (utf8 s) = Some s.
Proof.
  induction s as [|c s IH]; [done|]. rewrite valid_str_cons. intros [Hc Hs].
  cbn [utf8]. rewrite from_utf8_char by done. by rewrite IH.
Qed.
