(* ===== verification/Bytes.v ===== *)
(** * Fixed-width integers as bytes

    [to_le_bytes]/[from_le_bytes] and [to_be_bytes]/[from_be_bytes] of the Rust
    integer types: a byte is a [Z] in [0, 256). *)

From S2P Require Import Prelude.

Definition is_byte (b : Z) : bool := (0 <=? b) && (b <? 256).

Fixpoint le_bytes (n : nat) (z : Z) : list Z :=
  match n with O => [] | S n => z mod 256 :: le_bytes n (z / 256) end.
Fixpoint of_le (bs : list Z) : Z :=
  match bs with [] => 0 | b :: bs => b + 256 * of_le bs end.

Definition be_bytes (n : nat) (z : Z) : list Z := rev (le_bytes n z).
Definition of_be (bs : list Z) : Z := of_le (rev bs).

(** The signed readings, at the width of the slice. *)
Definition of_le_signed (bs : list Z) : Z := wrapS (8 * Z.of_nat (length bs)) (of_le bs).
Definition of_be_signed (bs : list Z) : Z := wrapS (8 * Z.of_nat (length bs)) (of_be bs).

Lemma length_le_bytes n z : length (le_bytes n z) = n.
Proof. revert z; induction n; simpl; auto. Qed.
Lemma length_be_bytes n z : length (be_bytes n z) = n.
Proof. unfold be_bytes. by rewrite length_rev, length_le_bytes. Qed.

Lemma le_bytes_is_byte n z : forallb is_byte (le_bytes n z) = true.
Proof.
  revert z; induction n; intros z; simpl; [done|]. rewrite IHn, andb_true_r.
  unfold is_byte. pose proof (Z.mod_pos_bound z 256). apply andb_true_iff; split; lia.
Qed.

Lemma pow_256 n : 256 ^ Z.of_nat n = 2 ^ (8 * Z.of_nat n).
Proof. rewrite Z.pow_mul_r by lia. done. Qed.

Lemma of_le_bytes n z : of_le (le_bytes n z) = z mod 256 ^ Z.of_nat n.
Proof.
  revert z; induction n as [|n IH]; intros z; cbn [le_bytes of_le].
  - by rewrite Z.mod_1_r.
  - rewrite IH, Nat2Z.inj_succ, Z.pow_succ_r by lia.
    rewrite (Z.rem_mul_r z) by (try lia; apply Z.pow_pos_nonneg; lia). lia.
Qed.

Lemma of_be_bytes n z : of_be (be_bytes n z) = z mod 256 ^ Z.of_nat n.
Proof. unfold of_be, be_bytes. rewrite rev_involutive. apply of_le_bytes. Qed.

Lemma of_le_range bs :
  forallb is_byte bs = true -> 0 <= of_le bs < 256 ^ Z.of_nat (length bs).
Proof.
  induction bs as [|b bs IH]; cbn [forallb of_le length]; [lia|].
  intros [Hb%andb_true_iff Hbs]%andb_true_iff. destruct Hb. bool_to_prop.
  rewrite Nat2Z.inj_succ, Z.pow_succ_r by lia. specialize (IH Hbs). lia.
Qed.

Lemma le_bytes_of_le bs :
  forallb is_byte bs = true -> le_bytes (length bs) (of_le bs) = bs.
Proof.
  induction bs as [|b bs IH]; cbn [forallb of_le length le_bytes]; [done|].
  intros [Hb%andb_true_iff Hbs]%andb_true_iff. destruct Hb. bool_to_prop. f_equal.
  - rewrite Z.mul_comm, Z_mod_plus_full. by apply Z.mod_small.
  - rewrite Z.mul_comm, Z_div_plus_full by lia. rewrite Z.div_small by lia. by apply IH.
Qed.

Lemma wrapS_mod n z : 0 < n -> wrapS n (z mod 2 ^ n) = wrapS n z.
Proof. apply wrapS_wrapU. Qed.

Lemma of_le_signed_bytes n z :
  (0 < n)%nat -> inS (8 * Z.of_nat n) z = true -> of_le_signed (le_bytes n z) = z.
Proof.
  intros Hn Hz. unfold of_le_signed. rewrite length_le_bytes, of_le_bytes, pow_256.
  rewrite wrapS_mod by lia. apply wrapS_id; [lia|done].
Qed.

Lemma of_be_signed_bytes n z :
  (0 < n)%nat -> inS (8 * Z.of_nat n) z = true -> of_be_signed (be_bytes n z) = z.
Proof.
  intros Hn Hz. unfold of_be_signed. rewrite length_be_bytes, of_be_bytes, pow_256.
  rewrite wrapS_mod by lia. apply wrapS_id; [lia|done].
Qed.

Lemma of_be_bytes_id n z : inU (8 * Z.of_nat n) z = true -> of_be (be_bytes n z) = z.
Proof.
  intros Hz. rewrite of_be_bytes, pow_256. by apply wrapU_id.
Qed.
Lemma of_le_bytes_id n z : inU (8 * Z.of_nat n) z = true -> of_le (le_bytes n z) = z.
Proof.
  intros Hz. rewrite of_le_bytes, pow_256. by apply wrapU_id.
Qed.
