(* ===== verification/Numerals.v ===== *)
(** * Decimal numerals as text

    [to_string] and [parse] of the Rust integer types, on text as a list of
    Unicode scalar values. *)

From S2P Require Import Prelude Utf8.

(** The text of an ASCII string literal of the code. *)
Fixpoint lit (s : string) : str :=
  match s with
  | EmptyString => []
  | String a s => Z.of_N (Ascii.N_of_ascii a) :: lit s
  end.

(** The string of a [str] of ASCII characters, as where a location is printed, or parsed by
    looking for ASCII characters. *)
Fixpoint text (s : str) : string :=
  match s with
  | [] => EmptyString
  | c :: s => String (Ascii.ascii_of_N (Z.to_N c)) (text s)
  end.
Lemma text_lit s : text (lit s) = s.
Proof. induction s as [|a s IH]; [done|]. cbn. by rewrite IH, N2Z.id, Ascii.ascii_N_embedding. Qed.

Definition is_digit (c : Z) : bool := (48 <=? c) && (c <=? 57).

(** [u128::to_string]: the accumulator holds the less significant digits; the
    fuel bounds the number of digits (see [to_string_u_spec]: [log2 z + 1] is
    enough). *)
Fixpoint digits_acc (fuel : nat) (z : Z) (acc : str) : str :=
  match fuel with
  | O => acc
  | S fuel =>
      if z <? 10 then (48 + z) :: acc
      else digits_acc fuel (z / 10) ((48 + z mod 10) :: acc)
  end.
Definition to_string_u (z : Z) : str := digits_acc (S (Z.to_nat (Z.log2 z))) z [].
Definition to_string_i (z : Z) : str :=
  if z <? 0 then 45 :: to_string_u (- z) else to_string_u z.

(** [{:0>width}] of a text. *)
Definition pad_left (width : nat) (s : str) : str := replicate (width - length s) 48 ++ s.

Definition digits_value (s : str) : Z := fold_left (fun v c => 10 * v + (c - 48)) s 0.

Definition parse_digits (s : str) : option Z :=
  match s with
  | [] => None
  | _ => if forallb is_digit s then Some (digits_value s) else None
  end.

(** [str::parse] at the width [n]: an optional sign, at least one digit, and the
    value in range. *)
Definition parse_unsigned (n : Z) (s : str) : option Z :=
  let digits := match s with 43 :: s' => s' | _ => s end in
  match parse_digits digits with
  | Some v => if inU n v then Some v else None
  | None => None
  end.
Definition parse_signed (n : Z) (s : str) : option Z :=
  let v := match s with
           | 43 :: s' => parse_digits s'
           | 45 :: s' => Z.opp <$> parse_digits s'
           | _ => parse_digits s
           end in
  match v with
  | Some v => if inS n v then Some v else None
  | None => None
  end.

(** ** Printing then parsing *)

Lemma digits_fold_shift s v :
  fold_left (fun v c => 10 * v + (c - 48)) s v
  = v * 10 ^ Z.of_nat (length s) + digits_value s.
Proof.
  unfold digits_value. revert v; induction s as [|c s IH]; intros v; cbn [fold_left length].
  - rewrite Z.pow_0_r. lia.
  - rewrite IH, (IH (10 * 0 + (c - 48))), Nat2Z.inj_succ, Z.pow_succ_r by lia. lia.
Qed.

Lemma digits_value_cons c s :
  digits_value (c :: s) = (c - 48) * 10 ^ Z.of_nat (length s) + digits_value s.
Proof.
  unfold digits_value at 1. cbn [fold_left]. rewrite digits_fold_shift. lia.
Qed.

Lemma digits_value_app s t :
  digits_value (s ++ t) = digits_value s * 10 ^ Z.of_nat (length t) + digits_value t.
Proof. unfold digits_value at 1. by rewrite fold_left_app, digits_fold_shift. Qed.

Lemma digits_acc_spec fuel z acc :
  0 <= z < 10 ^ Z.of_nat fuel -> forallb is_digit acc = true ->
  (0 < fuel)%nat ->
  forallb is_digit (digits_acc fuel z acc) = true
  /\ digits_acc fuel z acc <> []
  /\ digits_value (digits_acc fuel z acc)
     = z * 10 ^ Z.of_nat (length acc) + digits_value acc.
Proof.
  revert z acc; induction fuel as [|fuel IH]; intros z acc Hz Hacc Hf; [lia|].
  cbn [digits_acc]. destruct (Z.ltb_spec z 10).
  - split; [|split; [done|]].
    + cbn [forallb]. rewrite Hacc, andb_true_r. unfold is_digit.
      apply andb_true_iff; split; lia.
    + rewrite digits_value_cons. lia.
  - rewrite Nat2Z.inj_succ, Z.pow_succ_r in Hz by lia.
    destruct (IH (z / 10) ((48 + z mod 10) :: acc)) as (Hd & Hne & Hv).
    + split; [apply Z.div_pos; lia|]. apply Z.div_lt_upper_bound; lia.
    + cbn [forallb]. rewrite Hacc, andb_true_r. unfold is_digit.
      pose proof (Z.mod_pos_bound z 10). apply andb_true_iff; split; lia.
    + destruct fuel; [|lia]. cbn in Hz. lia.
    + split; [done|]. split; [done|]. rewrite Hv, digits_value_cons. cbn [length].
      rewrite Nat2Z.inj_succ, Z.pow_succ_r by lia.
      rewrite (Z.div_mod z 10) at 3 by lia. lia.
Qed.

Lemma log2_fuel z : 0 <= z -> z < 10 ^ Z.of_nat (S (Z.to_nat (Z.log2 z))).
Proof.
  intros Hz. rewrite Nat2Z.inj_succ, Z2Nat.id by apply Z.log2_nonneg.
  destruct (Z.eq_dec z 0) as [->|]; [done|].
  eapply Z.lt_le_trans; [apply (Z.log2_spec z); lia|].
  apply Z.pow_le_mono_l. lia.
Qed.

Lemma to_string_u_spec z :
  0 <= z ->
  forallb is_digit (to_string_u z) = true /\ to_string_u z <> []
  /\ digits_value (to_string_u z) = z.
Proof.
  intros Hz. pose proof (log2_fuel z Hz).
  destruct (digits_acc_spec (S (Z.to_nat (Z.log2 z))) z []) as (?&?&Hv); [lia|done|lia|].
  unfold to_string_u. split; [done|]. split; [done|]. rewrite Hv. cbn. lia.
Qed.

Lemma parse_digits_Some s v :
  parse_digits s = Some v <-> s <> [] /\ forallb is_digit s = true /\ digits_value s = v.
Proof.
  unfold parse_digits. destruct s as [|c s]; [naive_solver|].
  destruct (forallb _ _); naive_solver.
Qed.

Lemma parse_to_string_u z : 0 <= z -> parse_digits (to_string_u z) = Some z.
Proof. intros Hz. apply parse_digits_Some. destruct (to_string_u_spec z Hz) as (?&?&?). auto. Qed.

Lemma digits_head s : s <> [] -> forallb is_digit s = true ->
  exists c s', s = c :: s' /\ 48 <= c <= 57.
Proof.
  destruct s as [|c s]; [done|]. cbn [forallb]. intros _ [Hc _]%andb_true_iff.
  unfold is_digit in Hc. bool_to_prop. eauto with lia.
Qed.

Lemma parse_unsigned_digits n s v :
  parse_digits s = Some v -> inU n v = true -> parse_unsigned n s = Some v.
Proof.
  intros Hs Hv. pose proof Hs as (Hne & Hd & _)%parse_digits_Some.
  destruct (digits_head s Hne Hd) as (c & s' & -> & Hc).
  unfold parse_unsigned. repeat (case_match; try lia); simplify_eq; congruence.
Qed.

Lemma parse_signed_digits n s v :
  parse_digits s = Some v -> inS n v = true -> parse_signed n s = Some v.
Proof.
  intros Hs Hv. pose proof Hs as (Hne & Hd & _)%parse_digits_Some.
  destruct (digits_head s Hne Hd) as (c & s' & -> & Hc).
  unfold parse_signed. repeat (case_match; try lia); simplify_eq; congruence.
Qed.

Lemma parse_unsigned_to_string n z :
  inU n z = true -> parse_unsigned n (to_string_u z) = Some z.
Proof.
  intros Hz. pose proof Hz as ?%inU_spec.
  apply parse_unsigned_digits; [apply parse_to_string_u; lia|done].
Qed.

(** The text of a number is ASCII. *)
Lemma lit_text s : Forall (fun c => 0 <= c < 256) s -> lit (text s) = s.
Proof.
  induction 1 as [|c s Hc _ IH]; [done|]. cbn. rewrite IH, Ascii.N_ascii_embedding by lia.
  by rewrite Z2N.id by lia.
Qed.
Lemma lit_text_digits s : forallb is_digit s = true -> lit (text s) = s.
Proof.
  intros Hs. apply lit_text. apply Forall_forall. intros c Hc%list_elem_of_In.
  rewrite forallb_forall in Hs. apply Hs in Hc. unfold is_digit in Hc. bool_to_prop. lia.
Qed.
Lemma parse_unsigned_text n z : inU n z = true -> parse_unsigned n (lit (text (to_string_u z))) = Some z.
Proof.
  intros Hz. pose proof Hz as ?%inU_spec.
  rewrite lit_text_digits; [by apply parse_unsigned_to_string|]. apply to_string_u_spec. lia.
Qed.
Lemma parse_signed_text n z : inS n z = true -> parse_signed n (lit (text (to_string_i z))) = Some z.
Proof.
  intros Hz. unfold to_string_i. destruct (Z.ltb_spec z 0).
  - destruct (to_string_u_spec (- z) ltac:(lia)) as (Hd & _).
    change (lit (text (45 :: to_string_u (- z)))) with (45 :: lit (text (to_string_u (- z)))).
    rewrite lit_text_digits by done. unfold parse_signed. rewrite parse_to_string_u by lia. cbn. by rewrite Z.opp_involutive, Hz.
  - destruct (to_string_u_spec z ltac:(lia)) as (Hd & _). rewrite lit_text_digits by done.
    apply parse_signed_digits; [by apply parse_to_string_u|done].
Qed.
