(* ===== verification/Decimal.v ===== *)
(** * Decimals (spec/values/decimal_utils.rs)

    The unscaled 128-bit mantissas of Iceberg decimals, their big-endian minimal
    encoding, and the bridge to the third-party [fastnum::D128] numbers that the
    code uses to compare decimals of different scales.  [D128] is a parameter:
    class [Fastnum] holds its operations, [FastnumLaws] what the crate documents
    of them, and [pair_fastnum] a concrete instance used by the witnesses. *)

From S2P Require Import Prelude Utf8 Bytes Numerals.

(** ** The [fastnum] interface *)

Class Fastnum := {
  D128 : Type;
  D128_from_i128 : Z -> D128;          (* D128::from_i128(m).expect(..) *)
  D128_from_str : str -> D128;         (* D128::from_str(s, Context::default()).expect(..) *)
  D128_cmp : D128 -> D128 -> comparison;
  D128_digits : D128 -> Z;             (* the unsigned coefficient *)
  D128_is_sign_negative : D128 -> bool;
  D128_fractional_digits_count : D128 -> Z;
}.

(** [D128_denotes d m s]: [d] is [m * 10^(-s)], written with [s] fractional
    digits.  The laws hold up to 38 digits, the precision the crate documents. *)
Class FastnumLaws (F : Fastnum) := {
  D128_denotes : D128 -> Z -> Z -> Prop;
  D128_from_i128_ok m : Z.abs m < 10 ^ 38 -> D128_denotes (D128_from_i128 m) m 0;
  D128_from_str_ok (neg : bool) (ip fp : str) :
    parse_digits ip <> None -> parse_digits fp <> None ->
    digits_value (ip ++ fp) < 10 ^ 38 ->
    D128_denotes (D128_from_str ((if neg then [45] else []) ++ ip ++ 46 :: fp))
      ((if neg then -1 else 1) * digits_value (ip ++ fp)) (Z.of_nat (length fp));
  D128_cmp_ok a b m s m' s' :
    D128_denotes a m s -> D128_denotes b m' s' ->
    D128_cmp a b = (m * 10 ^ s' ?= m' * 10 ^ s);
  D128_digits_ok d m s : D128_denotes d m s -> D128_digits d = Z.abs m;
  D128_sign_ok d m s : D128_denotes d m s -> m <> 0 -> D128_is_sign_negative d = (m <? 0);
  D128_frac_ok d m s : D128_denotes d m s -> D128_fractional_digits_count d = s;
}.

Section decimal.
Context {F : Fastnum}.

(** The string that [decimal_from_i128_with_scale] builds for a nonzero scale. *)
Definition decimal_text (mantissa scale : Z) : str :=
  let abs_str := to_string_u (Z.abs mantissa) in
  let scale_usize := Z.to_nat scale in
  let sign := if mantissa <? 0 then [45] else [] in
  if (length abs_str <=? scale_usize)%nat
  then let zeros_needed := (scale_usize - length abs_str)%nat in
       sign ++ [48] ++ 46 :: (replicate zeros_needed 48 ++ abs_str)
  else let decimal_pos := (length abs_str - scale_usize)%nat in
       sign ++ take decimal_pos abs_str ++ 46 :: drop decimal_pos abs_str.

Definition decimal_from_i128_with_scale (mantissa scale : Z) : D128 :=
  if scale =? 0 then D128_from_i128 mantissa
  else D128_from_str (decimal_text mantissa scale).

Definition decimal_mantissa (d : D128) : Z :=
  let signed := wrapS 128 (D128_digits d) in
  if D128_is_sign_negative d then - signed else signed.

Definition decimal_scale (d : D128) : Z :=
  let frac := D128_fractional_digits_count d in
  if frac <? 0 then 0 else frac.

End decimal.

(** [i128_from_be_bytes]: sign extension of at most 16 bytes. *)
Definition i128_from_be_bytes (bytes : list Z) : option Z :=
  match bytes with
  | [] => Some 0
  | b0 :: _ =>
      if (16 <? length bytes)%nat then None
      else let is_negative := negb (Z.land b0 128 =? 0) in
           let pad := if is_negative then 255 else 0 in
           Some (of_be_signed (replicate (16 - length bytes) pad ++ bytes))
  end.

(** The loop of [i128_to_be_bytes_min], on the remaining bytes. *)
Fixpoint skip_sign_bytes (is_negative : bool) (bytes : list Z) : list Z :=
  match bytes with
  | b :: ((next_byte :: _) as rest) =>
      let skip_byte := if is_negative then 255 else 0 in
      if (b =? skip_byte)
         && eqb (negb (Z.land next_byte 128 =? 0)) is_negative
      then skip_sign_bytes is_negative rest
      else bytes
  | _ => bytes
  end.

Definition i128_to_be_bytes_min (value : Z) : list Z :=
  skip_sign_bytes (value <? 0) (be_bytes 16 value).

(** ** The constructed decimal is the mantissa scaled *)

Lemma parse_digits_ne s : forallb is_digit s = true -> s <> [] -> parse_digits s <> None.
Proof. intros Hd Hne. by rewrite (proj2 (parse_digits_Some s _) (conj Hne (conj Hd eq_refl))). Qed.

Lemma zeros_digits k s :
  forallb is_digit (replicate k 48 ++ s) = forallb is_digit s
  /\ digits_value (replicate k 48 ++ s) = digits_value s.
Proof.
  induction k as [|k [IH1 IH2]]; cbn [replicate app]; [done|].
  split; [done|]. rewrite digits_value_cons, IH2. lia.
Qed.

Lemma decimal_text_shape m s :
  0 < s ->
  exists ip fp, decimal_text m s = (if m <? 0 then [45] else []) ++ ip ++ 46 :: fp
    /\ parse_digits ip <> None /\ parse_digits fp <> None
    /\ digits_value (ip ++ fp) = Z.abs m /\ Z.of_nat (length fp) = s.
Proof.
  intros Hs. unfold decimal_text.
  destruct (to_string_u_spec (Z.abs m) (Z.abs_nonneg m)) as (Hd & Hne & Hv).
  set (a := to_string_u (Z.abs m)) in *.
  assert (0 < length a)%nat by (destruct a; [done|cbn; lia]).
  destruct (Nat.leb_spec (length a) (Z.to_nat s)) as [Hl|Hl].
  - exists [48], (replicate (Z.to_nat s - length a) 48 ++ a).
    destruct (zeros_digits (Z.to_nat s - length a) a) as [Hz1 Hz2].
    split; [by rewrite <- ?app_assoc|]. split; [done|]. split; [|split].
    + apply parse_digits_ne; [by rewrite Hz1|]. by destruct a, (Z.to_nat s - _)%nat.
    + cbn [app]. by rewrite digits_value_cons, Hz2, Hv, Z.sub_diag, Z.mul_0_l, Z.add_0_l.
    + rewrite length_app, length_replicate. lia.
  - exists (take (length a - Z.to_nat s) a), (drop (length a - Z.to_nat s) a).
    rewrite <- (take_drop (length a - Z.to_nat s) a), forallb_app in Hd.
    apply andb_true_iff in Hd as [Hd1 Hd2].
    split; [done|]. split; [|split; [|split]].
    + apply parse_digits_ne; [done|]. intros E%(f_equal length).
      rewrite length_take, length_nil in E. lia.
    + apply parse_digits_ne; [done|]. intros E%(f_equal length).
      rewrite length_drop, length_nil in E. lia.
    + by rewrite take_drop.
    + rewrite length_drop. lia.
Qed.

Lemma decimal_from_i128_with_scale_ok {F : Fastnum} {FL : FastnumLaws F} m s :
  Z.abs m < 10 ^ 38 -> 0 <= s ->
  D128_denotes (decimal_from_i128_with_scale m s) m s.
Proof.
  intros Hm Hs. unfold decimal_from_i128_with_scale.
  destruct (Z.eqb_spec s 0) as [->|Hs0].
  - eauto using D128_from_i128_ok.
  - destruct (decimal_text_shape m s ltac:(lia)) as (ip & fp & -> & Hip & Hfp & Hv & Hl).
    pose proof (D128_from_str_ok (m <? 0) ip fp Hip Hfp ltac:(lia)) as Hd.
    rewrite Hv, Hl in Hd.
    replace ((if m <? 0 then -1 else 1) * Z.abs m) with m in Hd; [done|].
    destruct (Z.ltb_spec m 0); lia.
Qed.

Lemma decimal_cmp_same_scale {F : Fastnum} {FL : FastnumLaws F} m m' s a b :
  D128_denotes a m s -> D128_denotes b m' s -> 0 <= s -> D128_cmp a b = (m ?= m').
Proof.
  intros Ha Hb Hs. rewrite (D128_cmp_ok _ _ _ _ _ _ Ha Hb).
  symmetry. apply Zmult_compare_compat_r, Z.lt_gt, Z.pow_pos_nonneg; lia.
Qed.

(** ** The minimal big-endian encoding *)

Definition sign_byte (neg : bool) : Z := if neg then 255 else 0.
Definition sign_bit (b : Z) : bool := negb (Z.land b 128 =? 0).

Lemma sign_bit_byte b : 0 <= b < 256 -> sign_bit b = (128 <=? b).
Proof.
  intros Hb. unfold sign_bit.
  assert (forallb (fun b => eqb (negb (Z.land b 128 =? 0)) (128 <=? b))
            (map Z.of_nat (seq 0 256)) = true) as H by (vm_compute; reflexivity).
  rewrite forallb_forall in H. apply eqb_prop, H, in_map_iff.
  exists (Z.to_nat b). rewrite in_seq. lia.
Qed.

Lemma sign_bit_sign_byte neg : sign_bit (sign_byte neg) = neg.
Proof. by destruct neg. Qed.

Lemma skip_sign_bytes_spec neg bs :
  exists k, bs = replicate k (sign_byte neg) ++ skip_sign_bytes neg bs
    /\ (bs <> [] -> sign_bit (hd 0 bs) = neg ->
        skip_sign_bytes neg bs <> [] /\ sign_bit (hd 0 (skip_sign_bytes neg bs)) = neg).
Proof.
  induction bs as [|b bs IH]; [by exists 0%nat|].
  destruct bs as [|b' bs]; [by exists 0%nat|].
  cbn [skip_sign_bytes]. fold (sign_byte neg) (sign_bit b').
  destruct (Z.eqb_spec b (sign_byte neg)) as [->|]; [|by exists 0%nat].
  destruct (eqb (sign_bit b') neg) eqn:E; [|by exists 0%nat].
  apply eqb_prop in E. destruct IH as (k & Hk & Hh). exists (S k). split.
  - cbn [replicate app andb]. by rewrite Hk at 1.
  - intros _ _. by apply Hh.
Qed.

Lemma skip_sign_bytes_replicate neg k r :
  r <> [] -> sign_bit (hd 0 r) = neg ->
  skip_sign_bytes neg (replicate k (sign_byte neg) ++ r) = skip_sign_bytes neg r.
Proof.
  intros Hr Hs. induction k as [|k IH]; [done|]. rewrite <- IH.
  cbn [replicate app]. set (t := replicate k (sign_byte neg) ++ r) in *.
  assert (sign_bit (hd 0 t) = neg /\ t <> []) as [Ht Hne].
  { subst t. destruct k; [done|]. cbn. split; [apply sign_bit_sign_byte|done]. }
  destruct t as [|b' t]; [done|]. cbn [hd] in Ht.
  cbn [skip_sign_bytes]. fold (sign_byte neg) (sign_bit b').
  by rewrite Ht, Z.eqb_refl, eqb_reflx.
Qed.

Lemma skip_sign_bytes_length neg bs : (length (skip_sign_bytes neg bs) <= length bs)%nat.
Proof.
  destruct (skip_sign_bytes_spec neg bs) as (k & E & _).
  apply (f_equal length) in E. rewrite length_app in E. lia.
Qed.

Lemma le_bytes_app n k v :
  le_bytes (n + k) v = le_bytes n v ++ le_bytes k (v / 256 ^ Z.of_nat n).
Proof.
  revert v; induction n as [|n IH]; intros v; cbn [Nat.add le_bytes app].
  - by rewrite Z.div_1_r.
  - rewrite IH, Nat2Z.inj_succ, Z.pow_succ_r by lia. f_equal. f_equal.
    by rewrite Z.div_div by (try lia; apply Z.pow_pos_nonneg; lia).
Qed.

Lemma le_bytes_sign k neg :
  le_bytes k (if neg : bool then -1 else 0) = replicate k (sign_byte neg).
Proof. induction k; cbn [le_bytes replicate]; [done|]. rewrite <- IHk. by destruct neg. Qed.

Lemma rev_replicate {A} k (a : A) : rev (replicate k a) = replicate k a.
Proof. rewrite rev_alt. apply reverse_replicate. Qed.

(** The bytes of a value that fits [n] bytes are those [n] bytes, sign extended. *)
Lemma fits_quotient n v :
  (0 < n)%nat -> inS (8 * Z.of_nat n) v = true ->
  v / 256 ^ Z.of_nat n = if v <? 0 then -1 else 0.
Proof.
  intros Hn Hv%inS_spec. rewrite pow_256.
  pose proof (pow2_split (8 * Z.of_nat n) ltac:(lia)) as E.
  assert (0 < 2 ^ (8 * Z.of_nat n - 1)) by (apply Z.pow_pos_nonneg; lia).
  destruct (Z.ltb_spec v 0).
  - symmetry. apply Z.div_unique with (v + 2 ^ (8 * Z.of_nat n)); lia.
  - apply Z.div_small. lia.
Qed.

Lemma be_bytes_extend n k v :
  (0 < n)%nat -> inS (8 * Z.of_nat n) v = true ->
  be_bytes (n + k) v = replicate k (sign_byte (v <? 0)) ++ be_bytes n v.
Proof.
  intros Hn Hv. unfold be_bytes. rewrite le_bytes_app, rev_app_distr.
  by rewrite fits_quotient, le_bytes_sign, rev_replicate by done.
Qed.

Lemma be_bytes_head n v :
  be_bytes (S n) v = (v / 256 ^ Z.of_nat n) mod 256 :: be_bytes n v.
Proof.
  unfold be_bytes. rewrite <- (Nat.add_1_r n), le_bytes_app, rev_app_distr. done.
Qed.

Lemma be_bytes_sign n v :
  (0 < n)%nat -> inS (8 * Z.of_nat n) v = true -> sign_bit (hd 0 (be_bytes n v)) = (v <? 0).
Proof.
  intros Hn Hv. destruct n as [|n]; [lia|]. rewrite be_bytes_head. cbn [hd].
  rewrite sign_bit_byte by (apply Z.mod_pos_bound; lia).
  apply inS_spec in Hv.
  assert (2 ^ (8 * Z.of_nat (S n) - 1) = 128 * 256 ^ Z.of_nat n) as E.
  { rewrite pow_256. replace (8 * Z.of_nat (S n) - 1) with (7 + 8 * Z.of_nat n) by lia.
    by rewrite Z.pow_add_r by lia. }
  rewrite E in Hv. clear E.
  assert (0 < 256 ^ Z.of_nat n) as Hp by (apply Z.pow_pos_nonneg; lia).
  set (p := 256 ^ Z.of_nat n) in *.
  assert (-128 <= v / p < 128) as Hq
    by (split; [apply Z.div_le_lower_bound; lia|apply Z.div_lt_upper_bound; lia]).
  destruct (Z.ltb_spec v 0) as [H0|H0].
  - assert (v / p < 0) by (apply Z.div_lt_upper_bound; lia).
    replace ((v / p) mod 256) with (v / p + 256)
      by (apply Z.mod_unique with (-1); lia). apply Z.leb_le. lia.
  - assert (0 <= v / p) by (apply Z.div_pos; lia).
    rewrite Z.mod_small by lia. apply Z.leb_gt. lia.
Qed.

Lemma i128_min_bytes_shape v :
  inS 128 v = true ->
  exists k, be_bytes 16 v = replicate k (sign_byte (v <? 0)) ++ i128_to_be_bytes_min v
    /\ i128_to_be_bytes_min v <> []
    /\ sign_bit (hd 0 (i128_to_be_bytes_min v)) = (v <? 0).
Proof.
  intros Hv. destruct (skip_sign_bytes_spec (v <? 0) (be_bytes 16 v)) as (k & Hk & Hh).
  exists k. split; [done|]. apply Hh; [done|].
  apply (be_bytes_sign 16); [lia|done].
Qed.

Lemma i128_bytes_roundtrip v :
  inS 128 v = true -> i128_from_be_bytes (i128_to_be_bytes_min v) = Some v.
Proof.
  intros Hv. destruct (i128_min_bytes_shape v Hv) as (k & Hk & Hne & Hs).
  set (m := i128_to_be_bytes_min v) in *.
  pose proof (f_equal length Hk) as Hl.
  rewrite length_be_bytes, length_app, length_replicate in Hl.
  unfold i128_from_be_bytes. destruct m as [|b0 m]; [done|].
  destruct (Nat.ltb_spec 16 (length (b0 :: m))); [lia|].
  cbn [hd] in Hs. fold (sign_bit b0). rewrite Hs. fold (sign_byte (v <? 0)).
  replace (16 - length (b0 :: m))%nat with k by lia. rewrite <- Hk.
  f_equal. apply (of_be_signed_bytes 16); [lia|done].
Qed.

Lemma i128_min_bytes_length n v :
  (0 < n <= 16)%nat -> inS (8 * Z.of_nat n) v = true ->
  (length (i128_to_be_bytes_min v) <= n)%nat.
Proof.
  intros Hn Hv. unfold i128_to_be_bytes_min.
  replace 16%nat with (n + (16 - n))%nat by lia.
  rewrite be_bytes_extend, skip_sign_bytes_replicate by
    (try lia; try done; try (by apply be_bytes_sign; [lia|]);
     intros E%(f_equal length); rewrite length_be_bytes, length_nil in E; lia).
  etransitivity; [apply skip_sign_bytes_length|]. by rewrite length_be_bytes.
Qed.

(** ** A concrete [Fastnum]: pairs of mantissa and scale *)

Definition split_dot (s : str) : option (str * str) :=
  match list_find (eq 46) s with
  | Some (i, _) => Some (take i s, drop (S i) s)
  | None => None
  end.

Definition pair_fastnum : Fastnum := {|
  D128 := Z * Z;
  D128_from_i128 m := (m, 0);
  D128_from_str s :=
    let neg := bool_decide (head s = Some 45) in
    match split_dot (if neg then tail s else s) with
    | Some (ip, fp) =>
        match parse_digits ip, parse_digits fp with
        | Some _, Some _ =>
            ((if neg then -1 else 1) * digits_value (ip ++ fp), Z.of_nat (length fp))
        | _, _ => (0, 0)
        end
    | None => (0, 0)
    end;
  D128_cmp a b := a.1 * 10 ^ b.2 ?= b.1 * 10 ^ a.2;
  D128_digits d := Z.abs d.1;
  D128_is_sign_negative d := d.1 <? 0;
  D128_fractional_digits_count d := d.2;
|}.

Lemma split_dot_app ip fp :
  forallb is_digit ip = true -> split_dot (ip ++ 46 :: fp) = Some (ip, fp).
Proof.
  intros Hip. unfold split_dot.
  assert (list_find (eq 46) (ip ++ 46 :: fp) = Some (length ip, 46)) as ->.
  { induction ip as [|c ip IH]; [done|]. cbn [forallb] in Hip.
    apply andb_true_iff in Hip as [Hc Hip]. unfold is_digit in Hc. bool_to_prop.
    cbn [app list_find]. rewrite decide_False by lia. by rewrite IH. }
  rewrite take_app_length. do 2 f_equal. replace (S (length ip)) with (length (ip ++ [46]))
    by (rewrite length_app; cbn; lia).
  replace (ip ++ 46 :: fp) with ((ip ++ [46]) ++ fp) by by rewrite <- app_assoc.
  apply drop_app_length.
Qed.

Lemma pair_fastnum_laws : FastnumLaws pair_fastnum.
Proof.
  refine {| D128_denotes := fun (d : @D128 pair_fastnum) m s => d = (m, s) |}; try naive_solver.
  intros neg ip fp Hip Hfp _.
  assert (ip <> [] /\ forallb is_digit ip = true) as [Hne Hd].
  { destruct (parse_digits ip) eqn:E; [|done]. by apply parse_digits_Some in E as (?&?&?). }
  destruct (digits_head ip Hne Hd) as (c & ip' & -> & Hc).
  cbn -[split_dot parse_digits digits_value].
  assert (bool_decide (head ((if neg : bool then [45] else []) ++ c :: ip' ++ 46 :: fp)
                       = Some 45) = neg) as ->.
  { destruct neg; [done|]. apply bool_decide_eq_false_2. cbn. intros [=]. lia. }
  replace (if neg then _ else _) with ((c :: ip') ++ 46 :: fp) by by destruct neg.
  rewrite (split_dot_app (c :: ip')) by done.
  by destruct (parse_digits (c :: ip')), (parse_digits fp).
Qed.
