(* ===== verification/Values.v ===== *)
(** * Types and values (spec/datatypes.rs, spec/values/)

    Primitive and nested types, literals, typed literals ([Datum]) with their
    ordering, equality, conversions and binary single-value serialisation, and
    the accessors that read a column of a row.

    Third-party code is behind class [ValueLib] (ordered-float, uuid, chrono)
    and class [Fastnum] of Decimal.v. *)

From S2P Require Import Prelude Utf8 Bytes Numerals Decimal.

(** ** Types *)

Module PrimitiveType.
Inductive t :=
| Boolean | Int | Long | Float | Double
| Decimal (precision scale : Z)
| Date | Time | Timestamp | Timestamptz | TimestampNs | TimestamptzNs
| String | Uuid | Fixed (len : Z) | Binary.

#[global] Instance eq_dec : EqDecision t.
Proof. solve_decision. Defined.
End PrimitiveType.

(** ** Literals *)

Module PrimitiveLiteral.
(** Floats are their IEEE-754 bit patterns. *)
Inductive t :=
| Boolean (b : bool) | Int (v : Z) | Long (v : Z) | Float (bits : Z) | Double (bits : Z)
| String (s : str) | Binary (bs : list Z) | Int128 (v : Z) | UInt128 (v : Z)
| AboveMax | BelowMin.
End PrimitiveLiteral.

#[warnings="-register-all"]
Inductive Literal :=
| LPrimitive (l : PrimitiveLiteral.t)
| LStruct (fields : list (option Literal))
| LList (elems : list (option Literal))
| LMap (entries : list (Literal * option Literal)).

(** ** Nested types *)

(** [Type] and [NestedField]. *)
Inductive Ty :=
| TPrimitive (p : PrimitiveType.t)
| TStruct (fields : list NestedField)
| TList (element_field : NestedField)
| TMap (key_field value_field : NestedField)
with NestedField :=
| mkNestedField (id : Z) (name : string) (required : bool) (field_type : Ty)
    (doc : option string) (initial_default write_default : option Literal).

(** [NestedField::new]. *)
Definition mkField (id : Z) (name : string) (required : bool) (ty : Ty) : NestedField :=
  mkNestedField id name required ty None None None.

Definition field_id (f : NestedField) : Z := match f with mkNestedField i _ _ _ _ _ _ => i end.
Definition field_name (f : NestedField) : string :=
  match f with mkNestedField _ n _ _ _ _ _ => n end.
Definition field_required (f : NestedField) : bool :=
  match f with mkNestedField _ _ r _ _ _ _ => r end.
Definition field_type (f : NestedField) : Ty := match f with mkNestedField _ _ _ t _ _ _ => t end.
(** The field with another id and type. *)
Definition retype (f : NestedField) (id : Z) (ty : Ty) : NestedField :=
  match f with mkNestedField _ n r _ d i w => mkNestedField id n r ty d i w end.

Lemma retype_id f id ty : field_id (retype f id ty) = id.
Proof. by destruct f. Qed.
Lemma retype_type f id ty : field_type (retype f id ty) = ty.
Proof. by destruct f. Qed.

Definition as_primitive_type (t : Ty) : option PrimitiveType.t :=
  match t with TPrimitive p => Some p | _ => None end.

Definition is_floating_type (t : Ty) : bool :=
  match t with
  | TPrimitive PrimitiveType.Float | TPrimitive PrimitiveType.Double => true
  | _ => false
  end.

(** ** Decimal widths *)

Definition MAX_DECIMAL_BYTES : nat := 24.
Definition MAX_DECIMAL_PRECISION : Z := 38.

(** [2f64.powi(8 * (i + 1) - 1).log10().floor()]: the exact integer logarithm
    (no power of two in the table is near a power of ten). *)
Fixpoint ilog10 (fuel : nat) (z : Z) : Z :=
  match fuel with O => 0 | S fuel => if z <? 10 then 0 else 1 + ilog10 fuel (z / 10) end.
Definition MAX_PRECISION (i : nat) : Z := ilog10 60 (2 ^ (8 * (Z.of_nat i + 1) - 1)).

(** The inner loop of [REQUIRED_LENGTH]: the first table entry that is large enough. *)
Definition REQUIRED_LENGTH (i : nat) : Z :=
  match list_find (fun j => Z.of_nat i + 1 <= MAX_PRECISION j) (seq 0 MAX_DECIMAL_BYTES) with
  | Some (_, j) => Z.of_nat j + 1
  | None => 0
  end.

Definition decimal_required_bytes (precision : Z) : result Z :=
  if (0 <? precision) && (precision <=? MAX_DECIMAL_PRECISION)
  then Ok (REQUIRED_LENGTH (Z.to_nat precision - 1))
  else Err (Error DataInvalid).

Definition decimal_type (precision scale : Z) : result PrimitiveType.t :=
  if (0 <? precision) && (precision <=? MAX_DECIMAL_PRECISION)
  then Ok (PrimitiveType.Decimal precision scale)
  else Err (Error DataInvalid).

(** ** Structs

    A [Struct] is its vector of fields. *)
Abbreviation Struct := (list (option Literal)).

(** [PrimitiveType::compatible]. *)
Definition compatible (ty : PrimitiveType.t) (l : PrimitiveLiteral.t) : bool :=
  match ty, l with
  | PrimitiveType.Boolean, PrimitiveLiteral.Boolean _
  | PrimitiveType.Int, PrimitiveLiteral.Int _
  | PrimitiveType.Long, PrimitiveLiteral.Long _
  | PrimitiveType.Float, PrimitiveLiteral.Float _
  | PrimitiveType.Double, PrimitiveLiteral.Double _
  | PrimitiveType.Decimal _ _, PrimitiveLiteral.Int128 _
  | PrimitiveType.Date, PrimitiveLiteral.Int _
  | PrimitiveType.Time, PrimitiveLiteral.Long _
  | PrimitiveType.Timestamp, PrimitiveLiteral.Long _
  | PrimitiveType.Timestamptz, PrimitiveLiteral.Long _
  | PrimitiveType.TimestampNs, PrimitiveLiteral.Long _
  | PrimitiveType.TimestamptzNs, PrimitiveLiteral.Long _
  | PrimitiveType.String, PrimitiveLiteral.String _
  | PrimitiveType.Uuid, PrimitiveLiteral.UInt128 _
  | PrimitiveType.Fixed _, PrimitiveLiteral.Binary _
  | PrimitiveType.Binary, PrimitiveLiteral.Binary _ => true
  | _, _ => false
  end.

(** ** Floating point on bit patterns

    [w] is the width (32 or 64) and [m] the number of mantissa bits. *)
Definition float_sign (w bits : Z) : bool := 2 ^ (w - 1) <=? bits.
Definition float_abs (w bits : Z) : Z := bits mod 2 ^ (w - 1).
Definition mantissa_bits (w : Z) : Z := if w =? 32 then 23 else 52.
Definition float_inf (w : Z) : Z := (2 ^ (w - 1 - mantissa_bits w) - 1) * 2 ^ mantissa_bits w.
Definition float_is_nan (w bits : Z) : bool := float_inf w <? float_abs w bits.

(** [f32::total_cmp] and [f64::total_cmp]: compare the bits as signed integers,
    the magnitude bits of a negative number flipped. *)
Definition total_key (w bits : Z) : Z :=
  Z.lxor (wrapS w bits) (if float_sign w bits then 2 ^ (w - 1) - 1 else 0).
Definition total_cmp (w a b : Z) : comparison := total_key w a ?= total_key w b.

(** The numeric value of a non-NaN pattern, up to an increasing map: this is
    the order of the IEEE comparison, in which the two zeros are equal. *)
Definition float_num (w bits : Z) : Z :=
  if float_sign w bits then - float_abs w bits else float_abs w bits.

(** ** Third-party value libraries

    [OrderedFloat_eq]/[OrderedFloat_cmp] are [==] and [partial_cmp] of
    [ordered_float::OrderedFloat]; [uuid_cmp] orders [uuid::Uuid]s given as
    [u128]s; the two parsers are [chrono]'s [FromStr] for [NaiveDateTime] and
    [DateTime<Utc>], followed by [timestamp_micros]. *)
Class ValueLib := {
  value_fastnum :: Fastnum;
  OrderedFloat_eq : Z -> Z -> Z -> bool;
  OrderedFloat_cmp : Z -> Z -> Z -> comparison;
  uuid_cmp : Z -> Z -> comparison;
  parse_naive_datetime_micros : str -> option Z;
  parse_datetime_utc_micros : str -> option Z;
}.

(** What those crates document: NaN equals itself and is greater than every
    other float, other floats compare by value; UUIDs compare as numbers; a
    timestamp in microseconds is an [i64]. *)
Class ValueLibLaws (V : ValueLib) := {
  value_fastnum_laws :: FastnumLaws value_fastnum;
  OrderedFloat_eq_ok w a b :
    OrderedFloat_eq w a b =
      if float_is_nan w a then float_is_nan w b
      else negb (float_is_nan w b) && (float_num w a =? float_num w b);
  OrderedFloat_cmp_ok w a b :
    OrderedFloat_cmp w a b =
      match float_is_nan w a, float_is_nan w b with
      | true, true => Eq
      | true, false => Gt
      | false, true => Lt
      | false, false => float_num w a ?= float_num w b
      end;
  uuid_cmp_ok a b : uuid_cmp a b = (a ?= b);
  parse_naive_datetime_range s v :
    parse_naive_datetime_micros s = Some v -> inS 64 v = true;
  parse_datetime_utc_range s v :
    parse_datetime_utc_micros s = Some v -> inS 64 v = true;
}.

(** ** [PrimitiveLiteral] and [Datum] *)

Record Datum := mkDatum { datum_type : PrimitiveType.t; datum_literal : PrimitiveLiteral.t }.

Definition lit_is_nan (l : PrimitiveLiteral.t) : bool :=
  match l with
  | PrimitiveLiteral.Double b => float_is_nan 64 b
  | PrimitiveLiteral.Float b => float_is_nan 32 b
  | _ => false
  end.
Definition is_nan (d : Datum) : bool := lit_is_nan (datum_literal d).

Section datum.
Context {V : ValueLib}.

(** The derived [PartialEq] of [PrimitiveLiteral]. *)
Definition lit_eqb (a b : PrimitiveLiteral.t) : bool :=
  match a, b with
  | PrimitiveLiteral.Boolean x, PrimitiveLiteral.Boolean y => eqb x y
  | PrimitiveLiteral.Int x, PrimitiveLiteral.Int y
  | PrimitiveLiteral.Long x, PrimitiveLiteral.Long y
  | PrimitiveLiteral.Int128 x, PrimitiveLiteral.Int128 y
  | PrimitiveLiteral.UInt128 x, PrimitiveLiteral.UInt128 y => x =? y
  | PrimitiveLiteral.Float x, PrimitiveLiteral.Float y => OrderedFloat_eq 32 x y
  | PrimitiveLiteral.Double x, PrimitiveLiteral.Double y => OrderedFloat_eq 64 x y
  | PrimitiveLiteral.String x, PrimitiveLiteral.String y => bool_decide (utf8 x = utf8 y)
  | PrimitiveLiteral.Binary x, PrimitiveLiteral.Binary y => bool_decide (x = y)
  | PrimitiveLiteral.AboveMax, PrimitiveLiteral.AboveMax
  | PrimitiveLiteral.BelowMin, PrimitiveLiteral.BelowMin => true
  | _, _ => false
  end.

(** The derived [PartialOrd]: declaration order of the variants first. *)
Definition lit_discriminant (a : PrimitiveLiteral.t) : Z :=
  match a with
  | PrimitiveLiteral.Boolean _ => 0 | PrimitiveLiteral.Int _ => 1
  | PrimitiveLiteral.Long _ => 2 | PrimitiveLiteral.Float _ => 3
  | PrimitiveLiteral.Double _ => 4 | PrimitiveLiteral.String _ => 5
  | PrimitiveLiteral.Binary _ => 6 | PrimitiveLiteral.Int128 _ => 7
  | PrimitiveLiteral.UInt128 _ => 8 | PrimitiveLiteral.AboveMax => 9
  | PrimitiveLiteral.BelowMin => 10
  end.

Definition lit_partial_cmp (a b : PrimitiveLiteral.t) : option comparison :=
  match a, b with
  | PrimitiveLiteral.Boolean x, PrimitiveLiteral.Boolean y => Some (Z.b2z x ?= Z.b2z y)
  | PrimitiveLiteral.Int x, PrimitiveLiteral.Int y
  | PrimitiveLiteral.Long x, PrimitiveLiteral.Long y
  | PrimitiveLiteral.Int128 x, PrimitiveLiteral.Int128 y
  | PrimitiveLiteral.UInt128 x, PrimitiveLiteral.UInt128 y => Some (x ?= y)
  | PrimitiveLiteral.Float x, PrimitiveLiteral.Float y => Some (OrderedFloat_cmp 32 x y)
  | PrimitiveLiteral.Double x, PrimitiveLiteral.Double y => Some (OrderedFloat_cmp 64 x y)
  | PrimitiveLiteral.String x, PrimitiveLiteral.String y => Some (str_cmp x y)
  | PrimitiveLiteral.Binary x, PrimitiveLiteral.Binary y => Some (lex_cmp x y)
  | _, _ => Some (lit_discriminant a ?= lit_discriminant b)
  end.

(** The derived [PartialEq] of [Datum]. *)
Definition datum_eqb (a b : Datum) : bool :=
  bool_decide (datum_type a = datum_type b) && lit_eqb (datum_literal a) (datum_literal b).

(** [PartialOrd for Datum]: same type and same kind of literal, or incomparable. *)
Definition partial_cmp (a b : Datum) : option comparison :=
  match datum_literal a, datum_literal b, datum_type a, datum_type b with
  | PrimitiveLiteral.Boolean v, PrimitiveLiteral.Boolean o,
    PrimitiveType.Boolean, PrimitiveType.Boolean => Some (Z.b2z v ?= Z.b2z o)
  | PrimitiveLiteral.Int v, PrimitiveLiteral.Int o,
    PrimitiveType.Int, PrimitiveType.Int => Some (v ?= o)
  | PrimitiveLiteral.Long v, PrimitiveLiteral.Long o,
    PrimitiveType.Long, PrimitiveType.Long => Some (v ?= o)
  | PrimitiveLiteral.Float v, PrimitiveLiteral.Float o,
    PrimitiveType.Float, PrimitiveType.Float => Some (total_cmp 32 v o)
  | PrimitiveLiteral.Double v, PrimitiveLiteral.Double o,
    PrimitiveType.Double, PrimitiveType.Double => Some (total_cmp 64 v o)
  | PrimitiveLiteral.Int v, PrimitiveLiteral.Int o,
    PrimitiveType.Date, PrimitiveType.Date => Some (v ?= o)
  | PrimitiveLiteral.Long v, PrimitiveLiteral.Long o,
    PrimitiveType.Time, PrimitiveType.Time => Some (v ?= o)
  | PrimitiveLiteral.Long v, PrimitiveLiteral.Long o,
    PrimitiveType.Timestamp, PrimitiveType.Timestamp => Some (v ?= o)
  | PrimitiveLiteral.Long v, PrimitiveLiteral.Long o,
    PrimitiveType.Timestamptz, PrimitiveType.Timestamptz => Some (v ?= o)
  | PrimitiveLiteral.Long v, PrimitiveLiteral.Long o,
    PrimitiveType.TimestampNs, PrimitiveType.TimestampNs => Some (v ?= o)
  | PrimitiveLiteral.Long v, PrimitiveLiteral.Long o,
    PrimitiveType.TimestamptzNs, PrimitiveType.TimestamptzNs => Some (v ?= o)
  | PrimitiveLiteral.String v, PrimitiveLiteral.String o,
    PrimitiveType.String, PrimitiveType.String => Some (str_cmp v o)
  | PrimitiveLiteral.UInt128 v, PrimitiveLiteral.UInt128 o,
    PrimitiveType.Uuid, PrimitiveType.Uuid => Some (uuid_cmp v o)
  | PrimitiveLiteral.Binary v, PrimitiveLiteral.Binary o,
    PrimitiveType.Fixed _, PrimitiveType.Fixed _ => Some (lex_cmp v o)
  | PrimitiveLiteral.Binary v, PrimitiveLiteral.Binary o,
    PrimitiveType.Binary, PrimitiveType.Binary => Some (lex_cmp v o)
  | PrimitiveLiteral.Int128 v, PrimitiveLiteral.Int128 o,
    PrimitiveType.Decimal _ scale, PrimitiveType.Decimal _ other_scale =>
      Some (D128_cmp (decimal_from_i128_with_scale v scale)
                     (decimal_from_i128_with_scale o other_scale))
  | _, _, _, _ => None
  end.

Definition datum_lt (a b : Datum) : bool := is_lt (partial_cmp a b).
Definition datum_le (a b : Datum) : bool := is_le (partial_cmp a b).
Definition datum_gt (a b : Datum) : bool := is_gt (partial_cmp a b).
Definition datum_ge (a b : Datum) : bool := is_ge (partial_cmp a b).

(** An [FnvHashSet<Datum>]: a list in the (unspecified) iteration order, whose
    elements are pairwise different for [datum_eqb]. *)
Definition set_contains (s : list Datum) (d : Datum) : bool := existsb (datum_eqb d) s.
Definition set_insert (s : list Datum) (d : Datum) : list Datum :=
  if set_contains s d then s else s ++ [d].
Definition set_from_iter (ds : list Datum) : list Datum := fold_left set_insert ds [].

(** *** Constructors and conversions *)

Definition datum_bool b := mkDatum PrimitiveType.Boolean (PrimitiveLiteral.Boolean b).
Definition datum_int v := mkDatum PrimitiveType.Int (PrimitiveLiteral.Int v).
Definition datum_long v := mkDatum PrimitiveType.Long (PrimitiveLiteral.Long v).
Definition datum_date v := mkDatum PrimitiveType.Date (PrimitiveLiteral.Int v).
Definition timestamp_micros v := mkDatum PrimitiveType.Timestamp (PrimitiveLiteral.Long v).
Definition timestamp_nanos v := mkDatum PrimitiveType.TimestampNs (PrimitiveLiteral.Long v).
Definition timestamptz_micros v := mkDatum PrimitiveType.Timestamptz (PrimitiveLiteral.Long v).
Definition timestamptz_nanos v := mkDatum PrimitiveType.TimestamptzNs (PrimitiveLiteral.Long v).
Definition datum_string s := mkDatum PrimitiveType.String (PrimitiveLiteral.String s).

Definition MAX_TIME_VALUE : Z := 24 * 60 * 60 * 1000000 - 1.
Definition time_micros (v : Z) : result Datum :=
  if (0 <=? v) && (v <=? MAX_TIME_VALUE)
  then Ok (mkDatum PrimitiveType.Time (PrimitiveLiteral.Long v))
  else Err (Error DataInvalid).

Definition datum_decimal (value : D128) : result Datum :=
  let scale := decimal_scale value in
  let? ty := decimal_type MAX_DECIMAL_PRECISION scale in
  Ok (mkDatum ty (PrimitiveLiteral.Int128 (decimal_mantissa value))).

Definition decimal_with_precision (value : D128) (precision : Z) : result Datum :=
  let scale := decimal_scale value in
  let mantissa := decimal_mantissa value in
  let? available_bytes := decimal_required_bytes precision in
  if available_bytes <? Z.of_nat (length (i128_to_be_bytes_min mantissa))
  then Err (Error DataInvalid)
  else let? ty := decimal_type precision scale in
       Ok (mkDatum ty (PrimitiveLiteral.Int128 mantissa)).

Definition bool_from_str (s : str) : result Datum :=
  if bool_decide (s = lit "true") then Ok (datum_bool true)
  else if bool_decide (s = lit "false") then Ok (datum_bool false)
  else Err (Error DataInvalid).

Definition INT_MAX : Z := 2147483647.
Definition INT_MIN : Z := -2147483648.
Definition LONG_MAX : Z := 9223372036854775807.
Definition LONG_MIN : Z := -9223372036854775808.

Definition i64_to_i32 (val : Z) : Datum :=
  if INT_MAX <? val then mkDatum PrimitiveType.Int PrimitiveLiteral.AboveMax
  else if val <? INT_MIN then mkDatum PrimitiveType.Int PrimitiveLiteral.BelowMin
  else datum_int (wrapS 32 val).
Definition i128_to_i32 (val : Z) : Datum :=
  if INT_MAX <? val then mkDatum PrimitiveType.Int PrimitiveLiteral.AboveMax
  else if val <? INT_MIN then mkDatum PrimitiveType.Int PrimitiveLiteral.BelowMin
  else datum_int (wrapS 32 val).
Definition i128_to_i64 (val : Z) : Datum :=
  if LONG_MAX <? val then mkDatum PrimitiveType.Long PrimitiveLiteral.AboveMax
  else if val <? LONG_MIN then mkDatum PrimitiveType.Long PrimitiveLiteral.BelowMin
  else datum_long (wrapS 64 val).

Definition string_to_i128 (s : str) : result Z := ok_or (parse_signed 128 s) DataInvalid.

(** [Datum::to]. *)
Definition datum_to (self : Datum) (target_type : Ty) : result Datum :=
  match target_type with
  | TPrimitive target =>
      match datum_literal self, target with
      | PrimitiveLiteral.Int val, PrimitiveType.Int => Ok (datum_int val)
      | PrimitiveLiteral.Int val, PrimitiveType.Date => Ok (datum_date val)
      | PrimitiveLiteral.Int val, PrimitiveType.Long => Ok (datum_long val)
      | PrimitiveLiteral.Long val, PrimitiveType.Int => Ok (i64_to_i32 val)
      | PrimitiveLiteral.Long val, PrimitiveType.Timestamp => Ok (timestamp_micros val)
      | PrimitiveLiteral.Long val, PrimitiveType.Timestamptz => Ok (timestamptz_micros val)
      | PrimitiveLiteral.Int128 val, PrimitiveType.Long => Ok (i128_to_i64 val)
      | PrimitiveLiteral.String val, PrimitiveType.Boolean => bool_from_str val
      | PrimitiveLiteral.String val, PrimitiveType.Int => i128_to_i32 <$> string_to_i128 val
      | PrimitiveLiteral.String val, PrimitiveType.Long => i128_to_i64 <$> string_to_i128 val
      | PrimitiveLiteral.String val, PrimitiveType.Timestamp =>
          timestamp_micros <$> ok_or (parse_naive_datetime_micros val) DataInvalid
      | PrimitiveLiteral.String val, PrimitiveType.Timestamptz =>
          timestamptz_micros <$> ok_or (parse_datetime_utc_micros val) DataInvalid
      | _, _ => if bool_decide (datum_type self = target) then Ok self
                else Err (Error DataInvalid)
      end
  | _ => Err (Error DataInvalid)
  end.

End datum.

(** ** Binary single-value serialisation *)

Section bytes.
Context {V : ValueLib}.

(** [bytes.try_into::<[u8; n]>()]: the slice must have exactly [n] bytes. *)
Definition exact_len (n : nat) (bytes : list Z) : result (list Z) :=
  if (length bytes =? n)%nat then Ok bytes else Err (Error DataInvalid).

(** The bit pattern of [f32::from_le_bytes(..) as f64]: exact, a NaN keeps its
    sign and payload bits (made quiet). *)
Definition f32_to_f64_bits (b : Z) : Z :=
  let sign := if float_sign 32 b then 2 ^ 63 else 0 in
  let e := float_abs 32 b / 2 ^ 23 in
  let f := float_abs 32 b mod 2 ^ 23 in
  if e =? 255 then sign + 2047 * 2 ^ 52 + (if f =? 0 then 0 else Z.lor (f * 2 ^ 29) (2 ^ 51))
  else if e =? 0 then
    if f =? 0 then sign
    else let k := Z.log2 f in
         sign + (k + 874) * 2 ^ 52 + (f * 2 ^ (52 - k) - 2 ^ 52)
  else sign + (e + 896) * 2 ^ 52 + f * 2 ^ 29.

(** [Datum::try_from_bytes]. *)
Definition try_from_bytes (bytes : list Z) (data_type : PrimitiveType.t) : result Datum :=
  let? literal :=
    match data_type with
    | PrimitiveType.Boolean =>
        Ok (PrimitiveLiteral.Boolean (negb (bool_decide (bytes = [0]))))
    | PrimitiveType.Int => (fun b => PrimitiveLiteral.Int (of_le_signed b)) <$> exact_len 4 bytes
    | PrimitiveType.Long =>
        if (length bytes =? 4)%nat
        then Ok (PrimitiveLiteral.Long (of_le_signed bytes))
        else (fun b => PrimitiveLiteral.Long (of_le_signed b)) <$> exact_len 8 bytes
    | PrimitiveType.Float => (fun b => PrimitiveLiteral.Float (of_le b)) <$> exact_len 4 bytes
    | PrimitiveType.Double =>
        if (length bytes =? 4)%nat
        then Ok (PrimitiveLiteral.Double (f32_to_f64_bits (of_le bytes)))
        else (fun b => PrimitiveLiteral.Double (of_le b)) <$> exact_len 8 bytes
    | PrimitiveType.Date => (fun b => PrimitiveLiteral.Int (of_le_signed b)) <$> exact_len 4 bytes
    | PrimitiveType.Time | PrimitiveType.Timestamp | PrimitiveType.Timestamptz
    | PrimitiveType.TimestampNs | PrimitiveType.TimestamptzNs =>
        (fun b => PrimitiveLiteral.Long (of_le_signed b)) <$> exact_len 8 bytes
    | PrimitiveType.String =>
        PrimitiveLiteral.String <$> ok_or (from_utf8 bytes) Unexpected
    | PrimitiveType.Uuid => (fun b => PrimitiveLiteral.UInt128 (of_be b)) <$> exact_len 16 bytes
    | PrimitiveType.Fixed _ | PrimitiveType.Binary => Ok (PrimitiveLiteral.Binary bytes)
    | PrimitiveType.Decimal _ _ =>
        PrimitiveLiteral.Int128 <$> ok_or (i128_from_be_bytes bytes) DataInvalid
    end in
  Ok (mkDatum data_type literal).

(** [Datum::to_bytes]. *)
Definition to_bytes (self : Datum) : result (list Z) :=
  match datum_literal self with
  | PrimitiveLiteral.Boolean val => Ok [Z.b2z val]
  | PrimitiveLiteral.Int val => Ok (le_bytes 4 val)
  | PrimitiveLiteral.Long val => Ok (le_bytes 8 val)
  | PrimitiveLiteral.Float val => Ok (le_bytes 4 val)
  | PrimitiveLiteral.Double val => Ok (le_bytes 8 val)
  | PrimitiveLiteral.String val => Ok (utf8 val)
  | PrimitiveLiteral.UInt128 val => Ok (be_bytes 16 val)
  | PrimitiveLiteral.Binary val => Ok val
  | PrimitiveLiteral.Int128 val =>
      match datum_type self with
      | PrimitiveType.Decimal precision _ =>
          match decimal_required_bytes precision with
          | Ok required_bytes => Ok (take (Z.to_nat required_bytes) (i128_to_be_bytes_min val))
          | Err _ => Err (Error DataInvalid)
          end
      | _ => Err (Error DataInvalid)
      end
  | PrimitiveLiteral.AboveMax | PrimitiveLiteral.BelowMin => Err (Error DataInvalid)
  end.

End bytes.

(** ** Reading a column of a row (expr/accessor.rs) *)

Inductive StructAccessor :=
| mkAccessor (position : nat) (ty : PrimitiveType.t) (inner : option StructAccessor).

Definition accessor_position (a : StructAccessor) : nat :=
  match a with mkAccessor p _ _ => p end.
Definition accessor_type (a : StructAccessor) : PrimitiveType.t :=
  match a with mkAccessor _ t _ => t end.

Definition accessor_new (position : nat) (ty : PrimitiveType.t) : StructAccessor :=
  mkAccessor position ty None.
Definition accessor_wrap (position : nat) (inner : StructAccessor) : StructAccessor :=
  mkAccessor position (accessor_type inner) (Some inner).

(** [StructAccessor::get]; indexing a [Struct] out of range panics. *)
Fixpoint accessor_get (a : StructAccessor) (container : Struct) : result (option Datum) :=
  match a with
  | mkAccessor position ty None =>
      let? field := unwrap (container !! position) in
      match field with
      | None => Ok None
      | Some (LPrimitive literal) => Ok (Some (mkDatum ty literal))
      | Some _ => Err (Error Unexpected)
      end
  | mkAccessor position _ (Some inner) =>
      let? field := unwrap (container !! position) in
      match field with
      | Some (LStruct wrapped) => accessor_get inner wrapped
      | _ => Err (Error Unexpected)
      end
  end.
