(* ===== verification/Schema.v ===== *)
(** * Schemas (spec/schema/)

    The schema visitor, the indexes a [Schema] is built with (by id, by name, of
    parents, of accessors), the checks of [SchemaBuilder::build], the
    reassignment of field ids, and the lookups of [Schema]. *)

From S2P Require Import Prelude Values.

Definition try_insert_field {A} (map : gmap Z A) (id : Z) (value : A) : result (gmap Z A) :=
  match map !! id with
  | None => Ok (<[id := value]> map)
  | Some _ => Err (Error DataInvalid)
  end.

(** ** The visitor (schema/visitor.rs) *)

Record SchemaVisitor (S T : Type) := {
  before_struct_field : NestedField -> SR S unit;
  after_struct_field : NestedField -> SR S unit;
  before_list_element : NestedField -> SR S unit;
  after_list_element : NestedField -> SR S unit;
  before_map_key : NestedField -> SR S unit;
  after_map_key : NestedField -> SR S unit;
  before_map_value : NestedField -> SR S unit;
  after_map_value : NestedField -> SR S unit;
  v_field : NestedField -> T -> SR S T;
  v_struct : list NestedField -> list T -> SR S T;
  v_list : NestedField -> T -> SR S T;
  v_map : NestedField -> NestedField -> T -> T -> SR S T;
  v_primitive : PrimitiveType.t -> SR S T;
}.
Arguments before_struct_field {S T}. Arguments after_struct_field {S T}.
Arguments before_list_element {S T}. Arguments after_list_element {S T}.
Arguments before_map_key {S T}. Arguments after_map_key {S T}.
Arguments before_map_value {S T}. Arguments after_map_value {S T}.
Arguments v_field {S T}. Arguments v_struct {S T}. Arguments v_list {S T}.
Arguments v_map {S T}. Arguments v_primitive {S T}.

(** The trait's default hooks. *)
Definition no_hook {S} (_ : NestedField) : SR S unit := mret tt.

(** [visit_type], the loop of [visit_struct] inlined for the recursion. *)
Fixpoint visit_type {S T} (v : SchemaVisitor S T) (ty : Ty) : SR S T :=
  match ty with
  | TPrimitive p => v_primitive v p
  | TList element =>
      let! _ := before_list_element v element in
      let! value := visit_type v (field_type element) in
      let! _ := after_list_element v element in
      v_list v element value
  | TMap key value =>
      let! _ := before_map_key v key in
      let! key_result := visit_type v (field_type key) in
      let! _ := after_map_key v key in
      let! _ := before_map_value v value in
      let! value_result := visit_type v (field_type value) in
      let! _ := after_map_value v value in
      v_map v key value key_result value_result
  | TStruct fields =>
      let! results :=
        (fix visit_fields (fields : list NestedField) : SR S (list T) :=
           match fields with
           | [] => mret []
           | field :: fields =>
               let! _ := before_struct_field v field in
               let! result := visit_type v (field_type field) in
               let! _ := after_struct_field v field in
               let! result := v_field v field result in
               let! results := visit_fields fields in
               mret (result :: results)
           end) fields in
      v_struct v fields results
  end.

Definition visit_struct_field {S T} (v : SchemaVisitor S T) (field : NestedField) : SR S T :=
  let! _ := before_struct_field v field in
  let! result := visit_type v (field_type field) in
  let! _ := after_struct_field v field in
  v_field v field result.
Definition visit_struct {S T} (v : SchemaVisitor S T) (fields : list NestedField) : SR S T :=
  let! results := mapSR (visit_struct_field v) fields in
  v_struct v fields results.

(** ** Indexes (schema/index.rs) *)

(** [index_by_id]. *)
Definition IndexById : SchemaVisitor (gmap Z NestedField) unit :=
  let insert (field : NestedField) : SR (gmap Z NestedField) unit := fun m =>
    match try_insert_field m (field_id field) field with
    | Ok m => Ok (tt, m)
    | Err e => Err e
    end in
  {| before_struct_field := no_hook; after_struct_field := no_hook;
     before_list_element := no_hook; after_list_element := no_hook;
     before_map_key := no_hook; after_map_key := no_hook;
     before_map_value := no_hook; after_map_value := no_hook;
     v_field field _ := insert field;
     v_struct _ _ := mret tt;
     v_list element _ := insert element;
     v_map key value _ _ := let! _ := insert key in insert value;
     v_primitive _ := mret tt |}.
Definition index_by_id (fields : list NestedField) : result (gmap Z NestedField) :=
  snd <$> visit_struct IndexById fields ∅.

(** [index_parents]: the stack of open fields, and the map built so far. *)
Definition IndexByParent : SchemaVisitor (list Z * gmap Z Z) unit :=
  let push (field : NestedField) : SR (list Z * gmap Z Z) unit :=
    sr_modify (fun '(parents, m) =>
      (parents ++ [field_id field],
       match last parents with
       | Some parent => <[field_id field := parent]> m
       | None => m
       end)) in
  let pop (_ : NestedField) : SR (list Z * gmap Z Z) unit :=
    sr_modify (fun '(parents, m) => (removelast parents, m)) in
  {| before_struct_field := push; after_struct_field := pop;
     before_list_element := push; after_list_element := pop;
     before_map_key := push; after_map_key := pop;
     before_map_value := push; after_map_value := pop;
     v_field _ _ := mret tt; v_struct _ _ := mret tt; v_list _ _ := mret tt;
     v_map _ _ _ _ := mret tt; v_primitive _ := mret tt |}.
Definition index_parents (fields : list NestedField) : result (gmap Z Z) :=
  (fun r => snd (snd r)) <$> visit_struct IndexByParent fields ([], ∅).

(** [IndexByName]. *)
Definition LIST_FIELD_NAME : string := "element".
Definition MAP_KEY_FIELD_NAME : string := "key".
Definition MAP_VALUE_FIELD_NAME : string := "value".

Record IndexByName := mkIndexByName {
  name_to_id' : gmap string Z;
  short_name_to_id : gmap string Z;
  field_names : list string;
  short_field_names : list string;
}.

Definition join (sep : string) (parts : list string) : string := String.concat sep parts.
Definition is_struct (t : Ty) : bool := match t with TStruct _ => true | _ => false end.

Definition add_field (name : string) (id : Z) : SR IndexByName unit := fun self =>
  let full_name := join "." (field_names self ++ [name]) in
  match name_to_id' self !! full_name with
  | Some _ => Err (Error DataInvalid)
  | None =>
      let full_short_name := join "." (short_field_names self ++ [name]) in
      Ok (tt,
        mkIndexByName (<[full_name := id]> (name_to_id' self))
          (match short_name_to_id self !! full_short_name with
           | Some _ => short_name_to_id self
           | None => <[full_short_name := id]> (short_name_to_id self)
           end)
          (field_names self) (short_field_names self))
  end.

Definition push_names (long short : bool) (field : NestedField) : SR IndexByName unit :=
  sr_modify (fun self => mkIndexByName (name_to_id' self) (short_name_to_id self)
    (if long then field_names self ++ [field_name field] else field_names self)
    (if short then short_field_names self ++ [field_name field] else short_field_names self)).
Definition pop_names (long short : bool) (_ : NestedField) : SR IndexByName unit :=
  sr_modify (fun self => mkIndexByName (name_to_id' self) (short_name_to_id self)
    (if long then removelast (field_names self) else field_names self)
    (if short then removelast (short_field_names self) else short_field_names self)).

Definition IndexByName_visitor : SchemaVisitor IndexByName unit :=
  let push_element f := push_names true (negb (is_struct (field_type f))) f in
  let pop_element f := pop_names true (negb (is_struct (field_type f))) f in
  {| before_struct_field := push_names true true; after_struct_field := pop_names true true;
     before_list_element := push_element; after_list_element := pop_element;
     before_map_key := push_names true true; after_map_key := pop_names true true;
     before_map_value := push_element; after_map_value := pop_element;
     v_field field _ := add_field (field_name field) (field_id field);
     v_struct _ _ := mret tt;
     v_list element _ := add_field LIST_FIELD_NAME (field_id element);
     v_map key value _ _ :=
       let! _ := add_field MAP_KEY_FIELD_NAME (field_id key) in
       add_field MAP_VALUE_FIELD_NAME (field_id value);
     v_primitive _ := mret tt |}.

(** [IndexByName::indexes]: full names win over short ones. *)
Definition indexes (self : IndexByName) : gmap string Z * gmap Z string :=
  (foldl (fun m '(name, id) => <[name := id]> m) (short_name_to_id self)
     (map_to_list (name_to_id' self)),
   foldl (fun m '(name, id) => <[id := name]> m) ∅ (map_to_list (name_to_id' self))).

Definition index_by_name (fields : list NestedField) :
    result (gmap string Z * gmap Z string) :=
  (fun r => indexes (snd r)) <$>
    visit_struct IndexByName_visitor fields (mkIndexByName ∅ ∅ [] []).

(** ** Accessors ([SchemaBuilder::build_accessors]) *)

Fixpoint build_accessors_of (pos : nat) (ty : Ty) (id : Z) : list (Z * StructAccessor) :=
  match ty with
  | TPrimitive prim_type => [(id, accessor_new pos prim_type)]
  | TStruct nested =>
      (fun '(i, a) => (i, accessor_wrap pos a)) <$>
        (fix go (pos : nat) (fields : list NestedField) :=
           match fields with
           | [] => []
           | mkNestedField id _ _ ty _ _ _ :: fields => build_accessors_of pos ty id ++ go (S pos) fields
           end) 0%nat nested
  | _ => []
  end.

Fixpoint build_accessors_nested (pos : nat) (fields : list NestedField) :
    list (Z * StructAccessor) :=
  match fields with
  | [] => []
  | field :: fields =>
      build_accessors_of pos (field_type field) (field_id field)
      ++ build_accessors_nested (S pos) fields
  end.

(** Every accessor is inserted in order: a later one for the same id wins. *)
Definition build_accessors (fields : list NestedField) : gmap Z StructAccessor :=
  foldl (fun m '(id, a) => <[id := a]> m) ∅ (build_accessors_nested 0 fields).

(** ** Reassigning field ids (schema/id_reassigner.rs) *)

Record ReassignFieldIds := mkReassign {
  next_field_id : Z;
  old_to_new_id : gmap Z Z;
}.

Definition is_primitive (t : Ty) : bool := match t with TPrimitive _ => true | _ => false end.

Definition I32_MAX : Z := 2147483647.
Definition increase_next_field_id : SR ReassignFieldIds unit := fun self =>
  if next_field_id self =? I32_MAX then Err (Error DataInvalid)
  else Ok (tt, mkReassign (next_field_id self + 1) (old_to_new_id self)).

(** One field of the outer loop of [reassign_field_ids]: its new id. *)
Definition reassign_outer (field : NestedField) : SR ReassignFieldIds Z := fun self =>
  let new_id := next_field_id self in
  match try_insert_field (old_to_new_id self) (field_id field) new_id with
  | Err e => Err e
  | Ok m =>
      (let! _ := increase_next_field_id in mret new_id) (mkReassign new_id m)
  end.

(** The unconditional insertion for list elements, map keys and values. *)
Definition reassign_inner (id : Z) : SR ReassignFieldIds Z := fun self =>
  let new_id := next_field_id self in
  (let! _ := increase_next_field_id in mret new_id)
    (mkReassign new_id (<[id := new_id]> (old_to_new_id self))).

(** [reassign_ids_visit_type], with the nested loop of [reassign_field_ids] inlined
    for the recursion: all fields of one level first, then what is below them. *)
Fixpoint reassign_ids_visit_type (ty : Ty) : SR ReassignFieldIds Ty :=
  match ty with
  | TPrimitive p => mret (TPrimitive p)
  | TStruct fields =>
      let! outer := mapSR reassign_outer fields in
      let! new_fields :=
        (fix go (fields : list NestedField) (outer : list Z) :=
           match fields, outer with
           | field :: fields, id :: outer =>
               let! new_ty := reassign_ids_visit_type (field_type field) in
               let! rest := go fields outer in
               mret (retype field id new_ty :: rest)
           | _, _ => mret []
           end) fields outer in
      mret (TStruct new_fields)
  | TList element =>
      let! id := reassign_inner (field_id element) in
      let! new_ty := reassign_ids_visit_type (field_type element) in
      mret (TList (retype element id new_ty))
  | TMap key value =>
      let! key_id := reassign_inner (field_id key) in
      let! key_ty := reassign_ids_visit_type (field_type key) in
      let! value_id := reassign_inner (field_id value) in
      let! value_ty := reassign_ids_visit_type (field_type value) in
      mret (TMap (retype key key_id key_ty)
                 (retype value value_id value_ty))
  end.

Definition reassign_nested (field : NestedField) (id : Z) : SR ReassignFieldIds NestedField :=
  let! new_ty := reassign_ids_visit_type (field_type field) in
  mret (retype field id new_ty).

Fixpoint reassign_nested_all (fields : list NestedField) (outer : list Z) :
    SR ReassignFieldIds (list NestedField) :=
  match fields, outer with
  | field :: fields, id :: outer =>
      let! new_field := reassign_nested field id in
      let! rest := reassign_nested_all fields outer in
      mret (new_field :: rest)
  | _, _ => mret []
  end.

Definition reassign_field_ids (fields : list NestedField) :
    SR ReassignFieldIds (list NestedField) :=
  let! outer := mapSR reassign_outer fields in
  reassign_nested_all fields outer.

Definition apply_to_identifier_fields (self : ReassignFieldIds) (field_ids : gset Z) :
    result (gset Z) :=
  list_to_set <$> mapR (fun id => ok_or (old_to_new_id self !! id) DataInvalid)
                       (elements field_ids).

(** A [BiHashMap<String, i32>] is the list of its pairs. *)
Definition apply_to_aliases (self : ReassignFieldIds) (alias : list (string * Z)) :
    result (list (string * Z)) :=
  mapR (fun '(name, id) =>
          let? new_id := ok_or (old_to_new_id self !! id) DataInvalid in Ok (name, new_id))
       alias.

(** ** [Schema] and its builder (schema/mod.rs) *)

(** [str::to_lowercase] of the standard library follows the Unicode tables. *)
Class Lowercase := to_lowercase : string -> string.

Record Schema := mkSchema {
  as_struct : list NestedField;
  schema_id : Z;
  highest_field_id : Z;
  identifier_field_ids : gset Z;
  alias_to_id : list (string * Z);
  id_to_field : gmap Z NestedField;
  name_to_id : gmap string Z;
  lowercase_name_to_id : gmap string Z;
  id_to_name : gmap Z string;
  field_id_to_accessor : gmap Z StructAccessor;
}.

Definition ensure_data_valid (cond : bool) : result unit :=
  if cond then Ok tt else Err (Error DataInvalid).

(** The [while let] over the parents of an identifier field.  [fuel] bounds the
    number of ancestors; [SchemaCheck] proves it sufficient. *)
Fixpoint validate_parents (fuel : nat) (id_to_parent : gmap Z Z)
    (id_to_field : gmap Z NestedField) (cur_field_id : Z) : result unit :=
  match id_to_parent !! cur_field_id with
  | None => Ok tt
  | Some parent =>
      match fuel with
      | O => Err Panic
      | S fuel =>
          let? parent_field := unwrap (id_to_field !! parent) in
          let? _ := ensure_data_valid (is_struct (field_type parent_field)) in
          let? _ := ensure_data_valid (field_required parent_field) in
          validate_parents fuel id_to_parent id_to_field parent
      end
  end.

Definition validate_identifier_id (id_to_parent : gmap Z Z) (id_to_field : gmap Z NestedField)
    (identifier_field_id : Z) : result unit :=
  let? field := ok_or (id_to_field !! identifier_field_id) DataInvalid in
  let? _ := ensure_data_valid (field_required field) in
  let? _ :=
    match field_type field with
    | TPrimitive p =>
        ensure_data_valid (negb (bool_decide (p = PrimitiveType.Double)
                                 || bool_decide (p = PrimitiveType.Float)))
    | _ => Err (Error DataInvalid)
    end in
  validate_parents (size id_to_field) id_to_parent id_to_field identifier_field_id.

Definition validate_identifier_ids (fields : list NestedField)
    (id_to_field : gmap Z NestedField) (identifier_field_ids : list Z) : result unit :=
  let? id_to_parent := index_parents fields in
  try_fold (fun _ id => validate_identifier_id id_to_parent id_to_field id) tt
    identifier_field_ids.

Record SchemaBuilder := mkSchemaBuilder {
  b_schema_id : Z;
  b_fields : list NestedField;
  b_alias_to_id : list (string * Z);
  b_identifier_field_ids : gset Z;
  b_reassign_field_ids_from : option Z;
}.

Section builder.
Context {LC : Lowercase}.

(** [SchemaBuilder::build] without the reassignment. *)
Definition build_indexed (self : SchemaBuilder) : result Schema :=
  let field_id_to_accessor := build_accessors (b_fields self) in
  let struct := b_fields self in
  let? id_to_field := index_by_id struct in
  let? _ := validate_identifier_ids struct id_to_field
              (elements (b_identifier_field_ids self)) in
  let? names := index_by_name struct in
  let '(name_to_id, id_to_name) := names in
  let lowercase_name_to_id :=
    foldl (fun m '(k, v) => <[to_lowercase k := v]> m) ∅ (map_to_list name_to_id) in
  let highest_field_id :=
    match map_to_list id_to_field with
    | [] => 0
    | (k, _) :: rest => foldl (fun m '(k, _) => Z.max m k) k rest
    end in
  Ok (mkSchema struct (b_schema_id self) highest_field_id (b_identifier_field_ids self)
        (b_alias_to_id self) id_to_field name_to_id lowercase_name_to_id id_to_name
        field_id_to_accessor).

(** [SchemaBuilder::build]: the recursive call has no reassignment of its own. *)
Definition build (self : SchemaBuilder) : result Schema :=
  let? schema := build_indexed self in
  match b_reassign_field_ids_from self with
  | None => Ok schema
  | Some start_from =>
      let? r := reassign_field_ids (as_struct schema) (mkReassign start_from ∅) in
      let '(new_fields, id_reassigner) := r in
      let? new_identifier_field_ids :=
        apply_to_identifier_fields id_reassigner (identifier_field_ids schema) in
      let? new_alias_to_id := apply_to_aliases id_reassigner (alias_to_id schema) in
      build_indexed (mkSchemaBuilder (schema_id schema) new_fields new_alias_to_id
                       new_identifier_field_ids None)
  end.

Definition field_by_id (self : Schema) (id : Z) : option NestedField := id_to_field self !! id.
Definition field_by_name (self : Schema) (name : string) : option NestedField :=
  name_to_id self !! name ≫= field_by_id self.
Definition field_by_name_case_insensitive (self : Schema) (name : string) :
    option NestedField :=
  lowercase_name_to_id self !! to_lowercase name ≫= field_by_id self.
Definition accessor_by_field_id (self : Schema) (id : Z) : option StructAccessor :=
  field_id_to_accessor self !! id.

End builder.

(** ** Theory: the index by id *)

Lemma Ty_nested_ind (P : Ty -> Prop) :
  (forall p, P (TPrimitive p)) ->
  (forall fields, Forall (fun f => P (field_type f)) fields -> P (TStruct fields)) ->
  (forall element, P (field_type element) -> P (TList element)) ->
  (forall key value, P (field_type key) -> P (field_type value) -> P (TMap key value)) ->
  forall ty, P ty.
Proof.
  intros Hp Hs Hl Hm. fix IH 1. intros [p|fields|[? ? ? t ? ? ?]|[? ? ? k ? ? ?] [? ? ? v ? ? ?]].
  - apply Hp.
  - apply Hs. induction fields as [|[i n r t ? ? ?] fields IHf]; constructor; [apply IH|exact IHf].
  - apply Hl, IH.
  - apply Hm; apply IH.
Qed.

(** Every field of a type, in the order of the visitor. *)
Fixpoint nested_fields (ty : Ty) : list NestedField :=
  match ty with
  | TPrimitive _ => []
  | TStruct fields => flat_map (fun f => nested_fields (field_type f) ++ [f]) fields
  | TList element => nested_fields (field_type element) ++ [element]
  | TMap key value =>
      nested_fields (field_type key) ++ nested_fields (field_type value) ++ [key; value]
  end.
Definition all_fields (fields : list NestedField) : list NestedField :=
  nested_fields (TStruct fields).

Lemma visit_type_struct {S T} (v : SchemaVisitor S T) fields s :
  visit_type v (TStruct fields) s = visit_struct v fields s.
Proof.
  cbn [visit_type]. unfold visit_struct, mbind, sr_bind.
  match goal with |- match ?a with _ => _ end = match ?b with _ => _ end =>
    enough (a = b) as -> by done end.
  revert s. induction fields as [|f fields IH]; intros s; [done|].
  cbn [mapSR]. unfold visit_struct_field. unfold mbind, sr_bind in *.
  destruct (before_struct_field v f s) as [[? s1]|]; [|done].
  destruct (visit_type v (field_type f) s1) as [[? s2]|]; [|done].
  destruct (after_struct_field v f s2) as [[? s3]|]; [|done].
  destruct (v_field v f _ s3) as [[? s4]|]; [|done]. by rewrite IH.
Qed.

Definition try_inserts (m : gmap Z NestedField) (l : list NestedField) :=
  try_fold (fun m f => try_insert_field m (field_id f) f) m l.

Lemma try_fold_app {A B} (f : A -> B -> result A) a l1 l2 :
  try_fold f a (l1 ++ l2) = let? a' := try_fold f a l1 in try_fold f a' l2.
Proof.
  revert a; induction l1 as [|b l1 IH]; intros a; [done|]. cbn.
  destruct (f a b); cbn; [apply IH|done].
Qed.

Lemma visit_index_by_id ty m :
  visit_type IndexById ty m = (fun m' => (tt, m')) <$> try_inserts m (nested_fields ty).
Proof.
  revert m; induction ty as [p|fields IH|e IH|k v IHk IHv] using Ty_nested_ind; intros m.
  - done.
  - rewrite visit_type_struct. unfold visit_struct, mbind, sr_bind.
    enough (forall m, match mapSR (visit_struct_field IndexById) fields m with
                      | Ok (_, s') => Ok (tt, s') | Err e => Err e end
                      = (fun m' => (tt, m')) <$> try_inserts m (nested_fields (TStruct fields)))
      as E by apply E.
    clear m; induction IH as [|f fields Hf _ IH]; intros m; [done|].
    cbn [mapSR nested_fields flat_map]. unfold try_inserts in *.
    rewrite try_fold_app, try_fold_app. unfold visit_struct_field.
    unfold mbind, sr_bind, result_bind in *.
    change (before_struct_field IndexById f m) with (Ok (tt, m)). cbn beta iota.
    rewrite Hf. destruct (try_fold _ m (nested_fields (field_type f))) as [m1|]; [|done]. cbn.
    destruct (try_insert_field m1 (field_id f) f) as [m2|]; [|done]. cbn.
    specialize (IH m2). cbn [nested_fields] in IH. rewrite <- IH.
    by destruct (mapSR _ fields m2) as [[? ?]|].
  - cbn [visit_type nested_fields]. unfold mbind, sr_bind, try_inserts in *.
    cbn. rewrite IH, try_fold_app. cbn.
    destruct (try_fold _ m (nested_fields (field_type e))) as [m1|]; [|done]. cbn.
    by destruct (try_insert_field m1 (field_id e) e).
  - cbn [visit_type nested_fields]. unfold mbind, sr_bind, try_inserts in *.
    cbn. rewrite IHk, try_fold_app. cbn.
    destruct (try_fold _ m (nested_fields (field_type k))) as [m1|]; [|done]. cbn.
    rewrite try_fold_app, IHv. cbn. destruct (try_fold _ m1 (nested_fields (field_type v))) as [m2|]; [|done]. cbn.
    unfold mbind, sr_bind, result_bind.
    destruct (try_insert_field m2 (field_id k) k) as [m3|]; [|done].
    by destruct (try_insert_field m3 (field_id v) v).
Qed.

Lemma index_by_id_inserts fields :
  index_by_id fields = try_inserts ∅ (all_fields fields).
Proof.
  unfold index_by_id. rewrite <- visit_type_struct, visit_index_by_id.
  unfold all_fields. by destruct (try_inserts ∅ _).
Qed.

Lemma try_inserts_Ok m l m' :
  try_inserts m l = Ok m' <->
  NoDup (field_id <$> l) /\ (forall f, f ∈ l -> m !! field_id f = None)
  /\ m' = list_to_map ((fun f => (field_id f, f)) <$> l) ∪ m.
Proof.
  revert m. induction l as [|f l IH]; intros m; cbn.
  - rewrite (left_id_L ∅ (∪)). split; [intros [= <-]|intros (_ & _ & ->)]; [|done].
    split; [constructor|]. split; [|done]. intros f Hf. by apply not_elem_of_nil in Hf.
  - rewrite bind_Ok. unfold try_inserts in IH. setoid_rewrite IH. unfold try_insert_field.
    rewrite NoDup_cons, list_elem_of_fmap. split.
    + intros (m1 & Hm1 & Hn & Hf & ->). case_match; [done|]. inv_ok. split.
      * split; [|done]. intros (g & Eg & Hg). specialize (Hf g Hg).
        rewrite <- Eg, lookup_insert_eq in Hf. done.
      * split.
        -- intros g [->|Hg]%elem_of_cons; [done|]. specialize (Hf g Hg).
           by apply lookup_insert_None in Hf as [? _].
        -- rewrite <- insert_union_r; [by rewrite insert_union_l|].
           apply not_elem_of_list_to_map_1. rewrite <- list_fmap_compose.
           rewrite list_elem_of_fmap. intros (g & Eg & Hg). specialize (Hf g Hg).
           cbn in Eg. rewrite <- Eg, lookup_insert_eq in Hf. done.
    + intros ((Hnin & Hn) & Hf & ->).
      rewrite (Hf f) by apply list_elem_of_here. eexists. split; [done|].
      split; [done|]. split.
      * intros g Hg. apply lookup_insert_None. split; [apply Hf; by apply list_elem_of_further|].
        intros E. apply Hnin. eauto.
      * rewrite <- insert_union_r; [by rewrite insert_union_l|].
        apply not_elem_of_list_to_map_1. rewrite <- list_fmap_compose.
        rewrite list_elem_of_fmap. cbn. intros (g & Eg & Hg). apply Hnin. eauto.
Qed.

(** [index_by_id] succeeds exactly on structs whose field ids, nested ones included,
    are pairwise different, and then maps every field's id to that field. *)
Theorem index_by_id_spec fields m :
  index_by_id fields = Ok m <->
  NoDup (field_id <$> all_fields fields)
  /\ m = list_to_map ((fun f => (field_id f, f)) <$> all_fields fields).
Proof.
  rewrite index_by_id_inserts, try_inserts_Ok. rewrite (right_id_L ∅ (∪)).
  split; [tauto|]. intros [? ?]. split; [done|]. split; [|done]. intros. apply lookup_empty.
Qed.

(** ** Theory: reassigned ids *)

Definition ids (ty : Ty) : list Z := field_id <$> nested_fields ty.
Definition field_ids (fields : list NestedField) : list Z := ids (TStruct fields).

(** A type without its field ids. *)
Fixpoint strip (ty : Ty) : Ty :=
  match ty with
  | TPrimitive p => TPrimitive p
  | TStruct fields =>
      TStruct (map (fun f => retype f 0 (strip (field_type f))) fields)
  | TList e => TList (retype e 0 (strip (field_type e)))
  | TMap k v =>
      TMap (retype k 0 (strip (field_type k)))
           (retype v 0 (strip (field_type v)))
  end.

Lemma ids_struct_cons f fields :
  ids (TStruct (f :: fields)) = ids (field_type f) ++ [field_id f] ++ ids (TStruct fields).
Proof. unfold ids. cbn. by rewrite !fmap_app, <- app_assoc. Qed.

Lemma reassign_inner_Ok id s new s' :
  reassign_inner id s = Ok (new, s') ->
  new = next_field_id s /\ next_field_id s' = next_field_id s + 1.
Proof.
  unfold reassign_inner, mbind, sr_bind, increase_next_field_id. cbn.
  destruct (next_field_id s =? I32_MAX); [done|]. by intros [= <- <-].
Qed.

Lemma reassign_outer_Ok f s new s' :
  reassign_outer f s = Ok (new, s') ->
  new = next_field_id s /\ next_field_id s' = next_field_id s + 1.
Proof.
  unfold reassign_outer, mbind, sr_bind, increase_next_field_id.
  destruct (try_insert_field _ _ _); [|done]. cbn.
  destruct (next_field_id s =? I32_MAX); [done|]. by intros [= <- <-].
Qed.

Lemma reassign_outers_Ok fields s outer s' :
  mapSR reassign_outer fields s = Ok (outer, s') ->
  outer = seqZ (next_field_id s) (Z.of_nat (length fields))
  /\ next_field_id s' = next_field_id s + Z.of_nat (length fields).
Proof.
  revert s outer s'; induction fields as [|f fields IH]; intros s outer s'.
  - intros [= <- <-]. cbn. by rewrite Z.add_0_r.
  - cbn [mapSR]. intros (id & s1 & H1%reassign_outer_Ok & H)%sr_bind_Ok.
    apply sr_bind_Ok in H as (ids & s2 & H2%IH & [= <- <-]).
    destruct H1 as [-> E1], H2 as [-> E2].
    rewrite E2, E1. split; [|cbn [length]; lia].
    rewrite (seqZ_cons _ (Z.of_nat (length (f :: fields)))) by (cbn [length]; lia).
    do 2 f_equal; unfold Z.succ; cbn [length]; lia.
Qed.

(** The struct case of [reassign_ids_visit_type] is [reassign_field_ids]. *)
Lemma reassign_struct fields s :
  reassign_ids_visit_type (TStruct fields) s =
  (let! new_fields := reassign_field_ids fields in mret (TStruct new_fields)) s.
Proof.
  cbn [reassign_ids_visit_type]. unfold reassign_field_ids, mbind, sr_bind.
  destruct (mapSR reassign_outer fields s) as [[outer s1]|]; [|done]. clear s.
  match goal with |- match ?a with _ => _ end = match ?b with _ => _ end =>
    enough (a = b) as -> by done end.
  revert outer s1; induction fields as [|f fields IH]; intros [|id outer] s; try done.
  cbn [reassign_nested_all]. unfold reassign_nested, mbind, sr_bind in *.
  destruct (reassign_ids_visit_type (field_type f) s) as [[? s1]|]; [|done]. cbn.
  by rewrite IH.
Qed.

Definition reassigned (ty ty' : Ty) (s s' : ReassignFieldIds) : Prop :=
  strip ty' = strip ty
  /\ next_field_id s' = next_field_id s + Z.of_nat (length (ids ty))
  /\ ids ty' ≡ₚ seqZ (next_field_id s) (Z.of_nat (length (ids ty))).

Lemma seqZ_split a n m :
  seqZ a (Z.of_nat (n + m)) = seqZ a (Z.of_nat n) ++ seqZ (a + Z.of_nat n) (Z.of_nat m).
Proof. rewrite Nat2Z.inj_add, seqZ_app by lia. done. Qed.

Lemma seqZ_1 a : seqZ a (Z.of_nat 1) = [a].
Proof. unfold seqZ. cbn. by destruct a. Qed.

Lemma reassign_nested_all_Ok fields outer s new s' :
  Forall (fun f => forall s ty' s', reassign_ids_visit_type (field_type f) s = Ok (ty', s') ->
                   reassigned (field_type f) ty' s s') fields ->
  length outer = length fields ->
  reassign_nested_all fields outer s = Ok (new, s') ->
  let nested := flat_map (fun f => ids (field_type f)) fields in
  strip (TStruct new) = strip (TStruct fields)
  /\ next_field_id s' = next_field_id s + Z.of_nat (length nested)
  /\ ids (TStruct new) ≡ₚ outer ++ seqZ (next_field_id s) (Z.of_nat (length nested)).
Proof.
  intros Hf. revert outer s new s'; induction Hf as [|f fields Hf _ IH];
    intros [|id outer] s new s' Hlen; try discriminate Hlen; cbn [reassign_nested_all].
  - intros [= <- <-]. cbn. by rewrite Z.add_0_r.
  - intros (new_f & s1 & H1 & H)%sr_bind_Ok. apply sr_bind_Ok in H as (rest & s2 & H2 & [= <- <-]).
    unfold reassign_nested in H1.
    apply sr_bind_Ok in H1 as (ty' & s1' & H1%Hf & [= <- <-]).
    destruct H1 as (E1 & N1 & P1).
    apply IH in H2 as (E2 & N2 & P2); [|by injection Hlen].
    cbn [flat_map]. rewrite length_app. cbv zeta. split; [|split].
    + cbn in E2. injection E2 as E2. destruct f. cbn in *. by rewrite E1, E2.
    + rewrite N2, N1. lia.
    + rewrite ids_struct_cons, retype_type, retype_id, P1, P2, N1, seqZ_split.
      solve_Permutation.
Qed.

Lemma ids_struct_length fields :
  length (ids (TStruct fields))
  = (length fields + length (flat_map (fun f => ids (field_type f)) fields))%nat.
Proof.
  induction fields as [|f fields IH]; [done|].
  rewrite ids_struct_cons. cbn [flat_map]. rewrite !length_app, IH. cbn. lia.
Qed.

Lemma reassign_field_ids_of_nested fields s new s' :
  Forall (fun f => forall s ty' s', reassign_ids_visit_type (field_type f) s = Ok (ty', s') ->
                   reassigned (field_type f) ty' s s') fields ->
  reassign_field_ids fields s = Ok (new, s') ->
  reassigned (TStruct fields) (TStruct new) s s'.
Proof.
  intros Hf (outer & s1 & (-> & N1)%reassign_outers_Ok & H)%sr_bind_Ok.
  apply reassign_nested_all_Ok in H as (E & N & P); [|done|by rewrite length_seqZ, Nat2Z.id].
  split; [done|]. rewrite ids_struct_length. split; [lia|].
  rewrite P, N1, seqZ_split. done.
Qed.

Lemma reassign_visit_type_Ok ty s ty' s' :
  reassign_ids_visit_type ty s = Ok (ty', s') -> reassigned ty ty' s s'.
Proof.
  revert s ty' s'; induction ty as [p|fields IH|e IH|k v IHk IHv] using Ty_nested_ind;
    intros s ty' s'.
  - intros [= <- <-]. split; [done|]. cbn. by rewrite Z.add_0_r.
  - rewrite reassign_struct. intros (new & s1 & H & [= <- <-])%sr_bind_Ok.
    by apply reassign_field_ids_of_nested.
  - cbn [reassign_ids_visit_type]. intros (id & s1 & [-> N1]%reassign_inner_Ok & H)%sr_bind_Ok.
    apply sr_bind_Ok in H as (t & s2 & (E & N & P)%IH & [= <- <-]).
    split; [destruct e; cbn in *; by rewrite E|]. unfold ids in *. cbn. rewrite retype_type.
    rewrite !fmap_app, !length_app. cbn. rewrite retype_id. split; [lia|].
    rewrite P, N1, Nat.add_comm, seqZ_split. cbn. solve_Permutation.
  - cbn [reassign_ids_visit_type].
    intros (id & s1 & [-> N1]%reassign_inner_Ok & H)%sr_bind_Ok.
    apply sr_bind_Ok in H as (t & s2 & (E & N & P)%IHk & H).
    apply sr_bind_Ok in H as (id & s3 & [-> N3]%reassign_inner_Ok & H).
    apply sr_bind_Ok in H as (t' & s4 & (E' & N' & P')%IHv & [= <- <-]).
    split; [destruct k, v; cbn in *; by rewrite E, E'|]. unfold ids in *. cbn. rewrite !retype_type.
    rewrite !fmap_app, !length_app. cbn. rewrite !retype_id. split; [lia|].
    rewrite P, P', N3, N, N1. generalize (length (field_id <$> nested_fields (field_type k))).
    generalize (length (field_id <$> nested_fields (field_type v))). intros n m.
    replace (m + (n + 2))%nat with (1 + (m + (1 + n)))%nat by lia.
    rewrite !seqZ_split, !seqZ_1. change (Z.of_nat 1) with 1.
    solve_Permutation.
Qed.

Lemma reassign_field_ids_Ok fields s new s' :
  reassign_field_ids fields s = Ok (new, s') ->
  reassigned (TStruct fields) (TStruct new) s s'.
Proof.
  apply reassign_field_ids_of_nested. apply Forall_forall. intros. by apply reassign_visit_type_Ok.
Qed.

(** ** Theory: accessors *)

Lemma build_accessors_struct pos fields id :
  build_accessors_of pos (TStruct fields) id
  = (fun '(i, a) => (i, accessor_wrap pos a)) <$> build_accessors_nested 0 fields.
Proof.
  cbn [build_accessors_of]. f_equal. generalize 0%nat.
  induction fields as [|[i n r t d iw ww] fields IH]; intros p; [done|]. cbn. by rewrite IH.
Qed.

Lemma build_accessors_nested_elem fields pos0 pos f id a :
  fields !! pos = Some f ->
  (id, a) ∈ build_accessors_of (pos0 + pos) (field_type f) (field_id f) ->
  (id, a) ∈ build_accessors_nested pos0 fields.
Proof.
  revert pos0 pos; induction fields as [|g fields IH]; intros pos0 [|pos] Hf Ha; try discriminate Hf;
    cbn [build_accessors_nested]; apply elem_of_app.
  - left. injection Hf as ->. by rewrite Nat.add_0_r in Ha.
  - right. apply (IH (S pos0) pos); [done|]. by replace (S pos0 + pos)%nat with (pos0 + S pos)%nat by lia.
Qed.

Lemma fst_fmap_wrap pos (l : list (Z * StructAccessor)) :
  ((fun '(i, a) => (i, accessor_wrap pos a)) <$> l).*1 = l.*1.
Proof. induction l as [|[i a] l IH]; [done|]. cbn. by f_equal. Qed.

(** The ids with an accessor are, in order, some of the ids of the struct. *)
Lemma build_accessors_ids ty pos id :
  (build_accessors_of pos ty id).*1 `sublist_of` ids ty ++ [id].
Proof.
  revert pos id; induction ty as [p|fields IH|e IH|k v IHk IHv] using Ty_nested_ind; intros pos id.
  - done.
  - rewrite build_accessors_struct, fst_fmap_wrap. apply sublist_inserts_r.
    generalize 0%nat. induction IH as [|f fields Hf _ IH]; intros p; [done|].
    cbn [build_accessors_nested]. rewrite fmap_app, ids_struct_cons, (assoc_L (++)).
    apply sublist_app; [apply Hf|apply IH].
  - apply sublist_nil_l.
  - apply sublist_nil_l.
Qed.

Lemma build_accessors_nested_ids pos fields :
  (build_accessors_nested pos fields).*1 `sublist_of` field_ids fields.
Proof.
  unfold field_ids. revert pos; induction fields as [|f fields IH]; intros pos; [done|].
  cbn [build_accessors_nested]. rewrite fmap_app, ids_struct_cons, (assoc_L (++)).
  apply sublist_app; [apply build_accessors_ids|apply IH].
Qed.

Lemma foldl_insert_lookup {K A} `{Countable K} (l : list (K * A)) (m : gmap K A) k a :
  NoDup l.*1 -> (k, a) ∈ l -> foldl (fun m '(k, a) => <[k := a]> m) m l !! k = Some a.
Proof.
  revert m. induction l as [|[k' a'] l IH]; intros m Hn Hin; [by apply not_elem_of_nil in Hin|].
  cbn in *. apply NoDup_cons in Hn as [Hnin Hn]. apply elem_of_cons in Hin as [[= -> ->]|Hin].
  - clear IH Hn. assert (forall m : gmap K A, m !! k' = Some a' ->
      foldl (fun m '(k, a) => <[k := a]> m) m l !! k' = Some a') as Hk.
    { induction l as [|[k a] l IH]; intros m' Hm; [done|]. cbn in *. rewrite not_elem_of_cons in Hnin.
      apply IH; [tauto|]. rewrite lookup_insert_ne; [done|]. intros ->. tauto. }
    apply Hk, lookup_insert_eq.
  - by apply IH.
Qed.

(** [field_at fields row id p v]: following structs only, the primitive field [id] of
    type [p] holds [v] in [row]; the structs on the way are present. *)
Inductive field_at : list NestedField -> Struct -> Z -> PrimitiveType.t ->
    option PrimitiveLiteral.t -> Prop :=
| field_at_primitive fields row pos f p v :
    fields !! pos = Some f -> field_type f = TPrimitive p ->
    row !! pos = Some (LPrimitive <$> v) -> field_at fields row (field_id f) p v
| field_at_struct fields row pos f nested wrapped id p v :
    fields !! pos = Some f -> field_type f = TStruct nested ->
    row !! pos = Some (Some (LStruct wrapped)) ->
    field_at nested wrapped id p v -> field_at fields row id p v.

Lemma field_at_accessor fields row id p v :
  field_at fields row id p v ->
  exists a, (id, a) ∈ build_accessors_nested 0 fields
    /\ accessor_type a = p /\ accessor_get a row = Ok (mkDatum p <$> v).
Proof.
  induction 1 as [fields row pos f p v Hf Ht Hr|fields row pos f nested wrapped id p v Hf Ht Hr _ IH].
  - exists (accessor_new pos p). split; [|split; [done|]].
    + eapply build_accessors_nested_elem; [done|]. rewrite Ht. apply list_elem_of_singleton. done.
    + cbn. rewrite Hr. by destruct v.
  - destruct IH as (a & Ha & Hp & Hg). exists (accessor_wrap pos a). split; [|split; [done|]].
    + eapply build_accessors_nested_elem; [done|]. rewrite Ht, build_accessors_struct.
      apply list_elem_of_fmap. by exists (id, a).
    + cbn. by rewrite Hr.
Qed.

Lemma build_indexed_Ok {LC : Lowercase} b s :
  build_indexed b = Ok s ->
  as_struct s = b_fields b /\ index_by_id (b_fields b) = Ok (id_to_field s)
  /\ field_id_to_accessor s = build_accessors (b_fields b)
  /\ validate_identifier_ids (b_fields b) (id_to_field s) (elements (b_identifier_field_ids b)) = Ok tt
  /\ schema_id s = b_schema_id b /\ identifier_field_ids s = b_identifier_field_ids b.
Proof.
  unfold build_indexed. intros (m & Hm & H)%bind_Ok. apply bind_Ok in H as ([] & Hv & H).
  apply bind_Ok in H as ([n1 n2] & Hn & [= <-]). done.
Qed.

(** What [build] returns is what [build_indexed] returns on the final fields. *)
Lemma build_Ok {LC : Lowercase} b s :
  build b = Ok s -> exists b', build_indexed b' = Ok s
    /\ match b_reassign_field_ids_from b with
       | None => b' = b
       | Some start => exists r,
           reassign_field_ids (b_fields b) (mkReassign start ∅) = Ok (b_fields b', r)
       end.
Proof.
  unfold build. intros (s1 & H1 & H)%bind_Ok. destruct (b_reassign_field_ids_from b) as [start|].
  - apply bind_Ok in H as ([new r] & Hr & H). apply bind_Ok in H as (i & _ & H).
    apply bind_Ok in H as (al & _ & H). eexists; split; [exact H|]. exists r.
    apply build_indexed_Ok in H1 as (<- & _). done.
  - injection H as <-. eauto.
Qed.

(** The index by id of a built schema is keyed by the fields' ids. *)
Definition ids_consistent (schema : Schema) : Prop :=
  forall id f, field_by_id schema id = Some f -> field_id f = id.

Lemma build_ids_consistent {LC : Lowercase} b s : build b = Ok s -> ids_consistent s.
Proof.
  intros (b' & H & _)%build_Ok id f. apply build_indexed_Ok in H as (_ & Hi & _).
  rewrite index_by_id_inserts in Hi. apply try_inserts_Ok in Hi as (_ & _ & Hm).
  unfold field_by_id. rewrite Hm, (right_id_L ∅ (∪)).
  intros (g & [= -> ->] & _)%elem_of_list_to_map_2%list_elem_of_fmap. done.
Qed.

(** In a schema that [build] accepts, the accessor of every primitive field that is
    reached through structs exists, has the field's type and reads that field's value in
    every row. *)
Theorem build_accessor_reads {LC : Lowercase} b s row id p v :
  build b = Ok s -> field_at (as_struct s) row id p v ->
  exists a, accessor_by_field_id s id = Some a
    /\ accessor_type a = p /\ accessor_get a row = Ok (mkDatum p <$> v).
Proof.
  intros (b' & H & _)%build_Ok (a & Ha & Hr)%field_at_accessor. exists a. split; [|done].
  apply build_indexed_Ok in H as (Es & Hi & Hacc & _). rewrite Es in Ha.
  unfold accessor_by_field_id. rewrite Hacc. apply foldl_insert_lookup; [|done].
  eapply sublist_NoDup; [|apply build_accessors_nested_ids].
  rewrite index_by_id_inserts in Hi. by apply try_inserts_Ok in Hi as [? _].
Qed.

(** A schema built with reassignment from [start] numbers its fields, nested ones
    included, with exactly [start], [start + 1], ..., and is otherwise the given schema. *)
Theorem build_reassigns_ids {LC : Lowercase} b s start :
  build b = Ok s -> b_reassign_field_ids_from b = Some start ->
  field_ids (as_struct s) ≡ₚ seqZ start (Z.of_nat (length (field_ids (b_fields b))))
  /\ strip (TStruct (as_struct s)) = strip (TStruct (b_fields b)).
Proof.
  intros (b' & H & Hr)%build_Ok E. rewrite E in Hr. destruct Hr as [r Hr].
  apply build_indexed_Ok in H as (-> & _).
  apply reassign_field_ids_Ok in Hr as (Hs & _ & Hp). done.
Qed.
