(* ===== verification/SchemaCheck.v ===== *)
(** * The identifier fields of a schema (spec/schema/mod.rs, spec/schema/index.rs)

    What [SchemaBuilder::build] checks of the identifier field ids: the index of
    parents, the walk over it, and that the walk ends. *)

From S2P Require Import Prelude Values Schema.

(** ** Specification *)

(** A required primitive field that is not floating point, inside required structs only. *)
Definition may_identify (f : NestedField) : bool :=
  field_required f
  && match field_type f with
     | TPrimitive p => negb (bool_decide (p = PrimitiveType.Double)
                             || bool_decide (p = PrimitiveType.Float))
     | _ => false
     end.
Definition may_contain (f : NestedField) : bool :=
  is_struct (field_type f) && field_required f.

Inductive identifier_at : list NestedField -> Z -> Prop :=
| identifier_here fields f :
    f ∈ fields -> may_identify f = true -> identifier_at fields (field_id f)
| identifier_inside fields f nested id :
    f ∈ fields -> field_type f = TStruct nested -> field_required f = true ->
    identifier_at nested id -> identifier_at fields id.

(** ** Every field with the fields around it, the nearest first *)

Fixpoint ancestry (around : list NestedField) (ty : Ty) : list (NestedField * list NestedField) :=
  match ty with
  | TPrimitive _ => []
  | TStruct fields =>
      flat_map (fun f => (f, around) :: ancestry (f :: around) (field_type f)) fields
  | TList e => (e, around) :: ancestry (e :: around) (field_type e)
  | TMap k v =>
      ((k, around) :: ancestry (k :: around) (field_type k))
      ++ ((v, around) :: ancestry (v :: around) (field_type v))
  end.

Definition link (fa : NestedField * list NestedField) : option (Z * Z) :=
  match snd fa with [] => None | a :: _ => Some (field_id (fst fa), field_id a) end.
Definition links (l : list (NestedField * list NestedField)) : list (Z * Z) := omap link l.
Definition inserts (m : gmap Z Z) (l : list (Z * Z)) : gmap Z Z :=
  foldl (fun m '(k, a) => <[k := a]> m) m l.

Lemma inserts_app m l1 l2 : inserts m (l1 ++ l2) = inserts (inserts m l1) l2.
Proof. apply foldl_app. Qed.
Lemma links_app l1 l2 : links (l1 ++ l2) = links l1 ++ links l2.
Proof. apply omap_app. Qed.

(** *** [index_parents] inserts the links *)

Definition open_ids (around : list NestedField) : list Z := rev (field_id <$> around).

Lemma push_parent f around m :
  before_struct_field IndexByParent f (open_ids around, m)
  = Ok (tt, (open_ids (f :: around), inserts m (links [(f, around)]))).
Proof.
  cbn [before_struct_field IndexByParent]. unfold sr_modify, open_ids. do 3 f_equal.
  destruct around as [|a around]; [done|]. cbn. by rewrite last_snoc.
Qed.
Lemma pop_parent f g around m :
  after_struct_field IndexByParent f (open_ids (g :: around), m) = Ok (tt, (open_ids around, m)).
Proof.
  cbn [after_struct_field IndexByParent]. unfold sr_modify. do 3 f_equal.
  change (open_ids (g :: around)) with (open_ids around ++ [field_id g]).
  apply removelast_last.
Qed.

Definition indexes_type (ty : Ty) : Prop := forall around m,
  visit_type IndexByParent ty (open_ids around, m)
  = Ok (tt, (open_ids around, inserts m (links (ancestry around ty)))).

Lemma index_parents_field f around m :
  indexes_type (field_type f) ->
  (let! _ := before_struct_field IndexByParent f in
   let! result := visit_type IndexByParent (field_type f) in
   let! _ := after_struct_field IndexByParent f in
   mret result) (open_ids around, m)
  = Ok (tt, (open_ids around,
             inserts m (links ((f, around) :: ancestry (f :: around) (field_type f))))).
Proof.
  intros H. unfold mbind, sr_bind. rewrite push_parent, H, pop_parent.
  by rewrite <- inserts_app, <- links_app.
Qed.

Lemma index_parents_struct_field f around m :
  indexes_type (field_type f) ->
  visit_struct_field IndexByParent f (open_ids around, m)
  = Ok (tt, (open_ids around,
             inserts m (links ((f, around) :: ancestry (f :: around) (field_type f))))).
Proof.
  intros H. pose proof (index_parents_field f around m H) as E.
  unfold visit_struct_field, mbind, sr_bind in *.
  destruct (before_struct_field _ _ _) as [[? s1]|]; [|done].
  destruct (visit_type _ _ s1) as [[[] s2]|]; [|done].
  destruct (after_struct_field _ _ s2) as [[? s3]|]; [|done]. by injection E as ->.
Qed.

Lemma index_parents_type ty : indexes_type ty.
Proof.
  induction ty as [p|fields IH|e IH|k v IHk IHv] using Ty_nested_ind; intros around m.
  - done.
  - rewrite visit_type_struct. cbn [ancestry]. unfold visit_struct, mbind, sr_bind.
    enough (exists ts, mapSR (visit_struct_field IndexByParent) fields (open_ids around, m)
      = Ok (ts, (open_ids around, inserts m (links (ancestry around (TStruct fields)))))) as [ts E]
      by by rewrite E.
    revert m; induction IH as [|f fields Hf _ IH]; intros m; [by exists []|].
    specialize (IH (inserts m (links ((f, around) :: ancestry (f :: around) (field_type f))))).
    destruct IH as [ts IH]. exists (tt :: ts). cbn [mapSR]. unfold mbind, sr_bind.
    rewrite index_parents_struct_field, IH by done. cbn [ancestry flat_map].
    by rewrite links_app, inserts_app.
  - pose proof (index_parents_field e around m IH) as E. cbn [visit_type ancestry] in *.
    unfold mbind, sr_bind in *. cbn [before_list_element after_list_element before_struct_field
      after_struct_field v_list IndexByParent] in *.
    destruct (sr_modify _ _) as [[? s1]|]; [|done].
    destruct (visit_type _ _ s1) as [[[] s2]|]; [|done].
    destruct (sr_modify _ s2) as [[? s3]|]; [|done]. by injection E as ->.
  - pose proof (index_parents_field k around m IHk) as Ek.
    pose proof (index_parents_field v around
      (inserts m (links ((k, around) :: ancestry (k :: around) (field_type k)))) IHv) as Ev.
    cbn [visit_type ancestry] in *. rewrite links_app, inserts_app. unfold mbind, sr_bind in *.
    cbn [before_map_key after_map_key before_map_value after_map_value before_struct_field
      after_struct_field v_map IndexByParent] in *.
    destruct (sr_modify _ _) as [[? s1]|]; [|done].
    destruct (visit_type _ _ s1) as [[[] s2]|]; [|done].
    destruct (sr_modify _ s2) as [[? s3]|]; [|done]. injection Ek as ->.
    destruct (sr_modify _ _) as [[? s4]|]; [|done].
    destruct (visit_type _ _ s4) as [[[] s5]|]; [|done].
    destruct (sr_modify _ s5) as [[? s6]|]; [|done]. by injection Ev as ->.
Qed.

Lemma index_parents_links fields :
  index_parents fields = Ok (inserts ∅ (links (ancestry [] (TStruct fields)))).
Proof.
  unfold index_parents. rewrite <- visit_type_struct.
  change ([], ∅) with (open_ids [], ∅ : gmap Z Z). by rewrite index_parents_type.
Qed.

(** *** What the ancestry holds *)

Lemma ancestry_fields ty around : fst <$> ancestry around ty ≡ₚ nested_fields ty.
Proof.
  revert around; induction ty as [p|fields IH|e IH|k v IHk IHv] using Ty_nested_ind; intros around;
    cbn [ancestry nested_fields].
  - done.
  - induction IH as [|f fields Hf _ IH]; cbn; [done|].
    rewrite fmap_app, Hf. cbn in IH. rewrite IH. solve_Permutation.
  - cbn. rewrite IH. solve_Permutation.
  - rewrite fmap_app. cbn. rewrite IHk, IHv. solve_Permutation.
Qed.

(** The nearest field around a field is listed too, with those around it. *)
Definition closed (around : list NestedField) (l : list (NestedField * list NestedField)) : Prop :=
  forall f a anc, (f, a :: anc) ∈ l -> a :: anc = around \/ (a, anc) ∈ l.

Lemma closed_cons g around l : closed (g :: around) l -> closed around ((g, around) :: l).
Proof.
  intros H f a anc [[= -> <-]|Hin]%elem_of_cons; [by left|]. right.
  destruct (H _ _ _ Hin) as [[= -> ->]|?]; [by left|by right].
Qed.
Lemma closed_app around l1 l2 : closed around l1 -> closed around l2 -> closed around (l1 ++ l2).
Proof.
  intros H1 H2 f a anc. rewrite !elem_of_app. intros [H|H]; [apply H1 in H|apply H2 in H]; tauto.
Qed.

Lemma ancestry_closed ty around : closed around (ancestry around ty).
Proof.
  revert around; induction ty as [p|fields IH|e IH|k v IHk IHv] using Ty_nested_ind; intros around;
    cbn [ancestry].
  - by intros f a anc ?%not_elem_of_nil.
  - induction IH as [|f fields Hf _ IH]; [by intros f a anc ?%not_elem_of_nil|].
    apply closed_app; [by apply closed_cons|done].
  - by apply closed_cons.
  - by apply closed_app; apply closed_cons.
Qed.

Lemma ancestry_depth ty around f anc :
  (f, anc) ∈ ancestry around ty -> (length anc < length around + length (nested_fields ty))%nat.
Proof.
  revert around f anc; induction ty as [p|fields IH|e IH|k v IHk IHv] using Ty_nested_ind;
    intros around f anc; cbn [ancestry nested_fields].
  - by intros ?%not_elem_of_nil.
  - induction IH as [|g fields Hg _ IH]; [by intros ?%not_elem_of_nil|].
    cbn [flat_map]. rewrite !length_app, elem_of_app, elem_of_cons. cbn [length].
    intros [[[= _ ->]|H%Hg]|H%IH]; cbn [length] in *; lia.
  - rewrite length_app, elem_of_cons. intros [[= _ ->]|H%IH]; cbn [length] in *; lia.
  - rewrite !length_app, elem_of_app, !elem_of_cons.
    intros [[[= _ ->]|H%IHk]|[[= _ ->]|H%IHv]]; cbn [length] in *; lia.
Qed.

Lemma all_fields_ancestry fields f :
  f ∈ all_fields fields <-> exists anc, (f, anc) ∈ ancestry [] (TStruct fields).
Proof.
  unfold all_fields. rewrite <- (ancestry_fields (TStruct fields) []), list_elem_of_fmap. split.
  - intros ([g anc] & -> & H). eauto.
  - intros [anc H]. by exists (f, anc).
Qed.

Lemma ancestry_suffix ty around f anc :
  (f, anc) ∈ ancestry around ty -> exists inner, anc = inner ++ around.
Proof.
  assert (Hcons : forall g around ty, (forall f anc, (f, anc) ∈ ancestry (g :: around) ty ->
      exists inner, anc = inner ++ g :: around) -> forall f anc,
      (f, anc) ∈ (g, around) :: ancestry (g :: around) ty -> exists inner, anc = inner ++ around).
  { intros g ar t IH f' anc' [[= _ ->]|[inner ->]%IH]%elem_of_cons; [by exists []|].
    exists (inner ++ [g]). by rewrite <- (assoc_L (++)). }
  revert around f anc; induction ty as [p|fields IH|e IH|k v IHk IHv] using Ty_nested_ind;
    intros around f anc; cbn [ancestry].
  - by intros ?%not_elem_of_nil.
  - induction IH as [|g fields Hg _ IH]; [by intros ?%not_elem_of_nil|].
    cbn [flat_map]. rewrite elem_of_app. intros [H|H]; [|by apply IH].
    by apply (Hcons _ _ _ (Hg _)) in H.
  - eauto.
  - rewrite elem_of_app. intros [H|H]; eauto.
Qed.

Lemma ancestry_struct around fields f anc :
  (f, anc) ∈ ancestry around (TStruct fields) <->
  exists g, g ∈ fields /\ (f, anc) ∈ (g, around) :: ancestry (g :: around) (field_type g).
Proof.
  cbn [ancestry]. rewrite list_elem_of_In, in_flat_map.
  setoid_rewrite <- list_elem_of_In. done.
Qed.

(** The specification in terms of the fields around. *)
Definition identified (fields : list NestedField) (around : list NestedField) (id : Z) : Prop :=
  exists f anc, (f, anc ++ around) ∈ ancestry around (TStruct fields)
    /\ field_id f = id /\ may_identify f = true /\ Forall (fun a => may_contain a = true) anc.

Lemma identifier_at_identified fields around id :
  identifier_at fields id -> identified fields around id.
Proof.
  intros H; revert around; induction H as [fields f Hf Hm|fields f nested id Hf Ht Hr _ IH];
    intros around.
  - exists f, []. split; [|done]. apply ancestry_struct. exists f. split; [done|by left].
  - destruct (IH (f :: around)) as (g & anc & Hg & Hid & Hm & Hanc). exists g, (anc ++ [f]).
    split.
    + apply ancestry_struct. exists f. split; [done|]. right. rewrite Ht.
      by rewrite <- (assoc_L (++)).
    + split_and!; [done..|]. apply Forall_app. split; [done|]. constructor; [|done].
      unfold may_contain. by rewrite Ht, Hr.
Qed.

Lemma identified_identifier_at ty around id :
  match ty with
  | TStruct fields => identified fields around id -> identifier_at fields id
  | _ => True
  end.
Proof.
  revert around; induction ty as [p|fields IH|e IH|k v IHk IHv] using Ty_nested_ind;
    intros around; try done.
  intros (f & anc & (g & Hg & Hin)%ancestry_struct & Hid & Hm & Hanc).
  apply elem_of_cons in Hin as [[= -> _]|Hin]; [subst; by constructor|].
  destruct (ancestry_suffix _ _ _ _ Hin) as [inner E].
  rewrite cons_middle, (assoc_L (++)) in E. apply app_inv_tail in E as ->.
  apply Forall_app in Hanc as [Hanc Hc]. inversion Hc as [|? ? Hmc _]; subst.
  unfold may_contain in Hmc. rewrite Forall_forall in IH. specialize (IH g Hg (g :: around)).
  destruct (field_type g) eqn:Ht; try done. eapply identifier_inside; [done..|].
  apply IH. exists f, inner. by rewrite <- (assoc_L (++)) in Hin.
Qed.

Lemma identifier_at_iff fields id :
  identifier_at fields id <-> identified fields [] id.
Proof.
  split; [apply identifier_at_identified|apply (identified_identifier_at (TStruct fields))].
Qed.

(** ** The walk over the parents *)

Lemma inserts_lookup l : NoDup l.*1 -> forall m k,
  inserts m l !! k = match list_to_map (M := gmap Z Z) l !! k with Some a => Some a | None => m !! k end.
Proof.
  induction l as [|[k a] l IH]; intros Hn m k'; cbn; [by rewrite lookup_empty|].
  cbn in Hn. apply NoDup_cons in Hn as [Hk Hn]. unfold inserts in IH. rewrite IH by done.
  destruct (decide (k = k')) as [<-|Hne].
  - rewrite !lookup_insert_eq. by rewrite not_elem_of_list_to_map_1.
  - by rewrite !lookup_insert_ne.
Qed.

Lemma NoDup_fmap_eq {A B} (h : A -> B) l x y :
  NoDup (h <$> l) -> x ∈ l -> y ∈ l -> h x = h y -> x = y.
Proof.
  induction l as [|z l IH]; [by intros _ ?%not_elem_of_nil|]. cbn.
  rewrite NoDup_cons, list_elem_of_fmap, !elem_of_cons. intros [Hz Hn].
  intros [->|Hx] [->|Hy] E; [done|exfalso; eauto..|by apply IH].
Qed.

Lemma links_keys l : (links l).*1 `sublist_of` field_id <$> l.*1.
Proof.
  induction l as [|[f [|a anc]] l IH]; cbn; [done|by apply sublist_cons|by apply sublist_skip].
Qed.

Lemma Forall_forallb {A} (h : A -> bool) l : Forall (fun a => h a = true) l <-> forallb h l = true.
Proof. induction l; cbn; [done|]. by rewrite Forall_cons, andb_true_iff, IHl. Qed.

Section walk.
Context (fields : list NestedField).
Hypothesis distinct : NoDup (field_id <$> all_fields fields).

Definition listed : list (NestedField * list NestedField) := ancestry [] (TStruct fields).

Lemma listed_ids : NoDup (field_id <$> listed.*1).
Proof. unfold listed. by rewrite (ancestry_fields (TStruct fields) []). Qed.

Lemma listed_unique f g anc anc' :
  (f, anc) ∈ listed -> (g, anc') ∈ listed -> field_id f = field_id g -> (f, anc) = (g, anc').
Proof.
  intros Hf Hg E. pose proof listed_ids as Hn. rewrite <- list_fmap_compose in Hn.
  by apply (NoDup_fmap_eq _ _ (f, anc) (g, anc') Hn).
Qed.

Lemma parent_lookup f anc :
  (f, anc) ∈ listed -> inserts ∅ (links listed) !! field_id f = field_id <$> head anc.
Proof.
  intros Hf.
  assert (Hn : NoDup (links listed).*1) by (eapply sublist_NoDup; [apply listed_ids|apply links_keys]).
  rewrite inserts_lookup, lookup_empty by done.
  destruct anc as [|a anc]; cbn.
  - rewrite not_elem_of_list_to_map_1; [done|].
    intros ([i p] & Hi & Hin)%list_elem_of_fmap. cbn in Hi. subst i.
    apply list_elem_of_omap in Hin as ([g [|a anc]] & Hg & E); [done|]. injection E as Hid _.
    by pose proof (listed_unique _ _ _ _ Hf Hg (eq_sym Hid)).
  - erewrite elem_of_list_to_map_1; [done|done|]. apply list_elem_of_omap. by exists (f, a :: anc).
Qed.

Definition indexed : gmap Z NestedField := list_to_map ((fun f => (field_id f, f)) <$> all_fields fields).

Lemma indexed_lookup f : f ∈ all_fields fields -> indexed !! field_id f = Some f.
Proof.
  intros Hf. apply elem_of_list_to_map_1; [by rewrite <- list_fmap_compose|].
  apply list_elem_of_fmap. eauto.
Qed.
Lemma indexed_inv id f : indexed !! id = Some f -> field_id f = id /\ f ∈ all_fields fields.
Proof. by intros (g & [= -> ->] & Hg)%elem_of_list_to_map_2%list_elem_of_fmap. Qed.
Lemma indexed_size : size indexed = length (all_fields fields).
Proof.
  unfold indexed. rewrite map_size_list_to_map by by rewrite <- list_fmap_compose.
  by rewrite length_fmap.
Qed.

(** The walk ends, and tells whether the fields around are required structs. *)
Lemma validate_parents_listed anc : forall f fuel,
  (f, anc) ∈ listed -> (length anc <= fuel)%nat ->
  validate_parents fuel (inserts ∅ (links listed)) indexed (field_id f)
  = ensure_data_valid (forallb may_contain anc).
Proof.
  induction anc as [|a anc IH]; intros f fuel Hf Hfuel; pose proof (parent_lookup _ _ Hf) as Hp;
    cbn [head fmap option_fmap option_map] in Hp.
  - destruct fuel; cbn [validate_parents]; by rewrite Hp.
  - destruct fuel as [|fuel]; [cbn in Hfuel; lia|]. cbn [validate_parents]. rewrite Hp.
    destruct (ancestry_closed (TStruct fields) [] f a anc Hf) as [|Ha]; [done|].
    rewrite indexed_lookup by (apply all_fields_ancestry; by exists anc).
    cbn [unwrap mbind result_bind forallb]. unfold may_contain at 1.
    destruct (is_struct (field_type a)); [|done]. destruct (field_required a); [|done].
    cbn. apply IH; [done|cbn in Hfuel; lia].
Qed.

(** The checks of one field id, in the order of the code. *)
Lemma validate_listed f anc :
  (f, anc) ∈ listed ->
  validate_identifier_id (inserts ∅ (links listed)) indexed (field_id f)
  = ensure_data_valid (may_identify f && forallb may_contain anc).
Proof.
  intros Ha. unfold validate_identifier_id, may_identify.
  rewrite indexed_lookup by (apply all_fields_ancestry; by exists anc). cbn [ok_or mbind result_bind].
  destruct (field_required f); [|done]. cbn [ensure_data_valid mbind result_bind andb].
  destruct (field_type f) as [p| | |]; try done. destruct (negb _); [|done].
  cbn [ensure_data_valid mbind result_bind]. apply validate_parents_listed; [done|]. rewrite indexed_size.
  apply ancestry_depth in Ha. unfold all_fields. cbn in *. lia.
Qed.

Lemma identifier_at_listed f anc :
  (f, anc) ∈ listed ->
  identifier_at fields (field_id f) <-> may_identify f && forallb may_contain anc = true.
Proof.
  intros Ha. rewrite identifier_at_iff, andb_true_iff, <- Forall_forallb. split.
  - intros (g & anc' & Hg & E & Hm & Hanc). rewrite app_nil_r in Hg.
    by injection (listed_unique _ _ _ _ Hg Ha E) as -> ->.
  - intros [Hm Hanc]. exists f, anc. by rewrite app_nil_r.
Qed.

Definition decides (r : result unit) (P : Prop) : Prop :=
  (r = Ok tt /\ P) \/ (r = Err (Error DataInvalid) /\ ~ P).

Lemma validate_identifier_id_decides id :
  decides (validate_identifier_id (inserts ∅ (links listed)) indexed id) (identifier_at fields id).
Proof.
  destruct (indexed !! id) as [f|] eqn:Hid.
  - apply indexed_inv in Hid as [<- [anc Ha]%all_fields_ancestry].
    rewrite (validate_listed f anc Ha). unfold decides. rewrite (identifier_at_listed f anc Ha).
    destruct (may_identify f && _); [by left|by right].
  - right. unfold validate_identifier_id. rewrite Hid. split; [done|].
    intros (f & anc & Ha & <- & _)%identifier_at_iff. rewrite app_nil_r in Ha.
    rewrite indexed_lookup in Hid; [done|]. apply all_fields_ancestry. by exists anc.
Qed.

Lemma validate_identifier_ids_decides l :
  decides (validate_identifier_ids fields indexed l) (Forall (identifier_at fields) l).
Proof.
  unfold validate_identifier_ids. rewrite index_parents_links. cbn [mbind result_bind].
  fold listed. induction l as [|id l IH]; cbn [try_fold]; [by left|]. unfold decides.
  rewrite Forall_cons. destruct (validate_identifier_id_decides id) as [[-> H]|[-> H]];
    cbn [mbind result_bind].
  - destruct IH as [[-> ?]|[-> ?]]; [by left|right; tauto].
  - right; tauto.
Qed.
End walk.

(** ** The builder *)

Lemma bind_safe {A B} (r : result A) (f : A -> result B) :
  r <> Err Panic -> (forall a, r = Ok a -> f a <> Err Panic) -> (r ≫= f) <> Err Panic.
Proof. destruct r; cbn; [auto|congruence]. Qed.

Lemma fmap_safe {A B} (f : A -> B) (r : result A) : r <> Err Panic -> f <$> r <> Err Panic.
Proof. destruct r; cbn; congruence. Qed.

Definition safe {S A} (m : SR S A) : Prop := forall s, m s <> Err Panic.

Lemma safe_bind {S A B} (m : SR S A) (f : A -> SR S B) :
  safe m -> (forall a, safe (f a)) -> safe (m ≫= f).
Proof.
  intros Hm Hf s. unfold mbind, sr_bind. specialize (Hm s). destruct (m s) as [[a s']|e]; [apply Hf|congruence].
Qed.
Lemma safe_ret {S A} (a : A) : safe (mret a : SR S A).
Proof. done. Qed.
Lemma safe_mapSR {S A B} (f : A -> SR S B) l : Forall (fun a => safe (f a)) l -> safe (mapSR f l).
Proof.
  induction 1 as [|a l Ha _ IH]; [done|]. cbn [mapSR].
  apply safe_bind; [done|]. intros b. by apply safe_bind.
Qed.

Record safe_visitor {S T} (v : SchemaVisitor S T) : Prop := {
  safe_before_field f : safe (before_struct_field v f);
  safe_after_field f : safe (after_struct_field v f);
  safe_before_element f : safe (before_list_element v f);
  safe_after_element f : safe (after_list_element v f);
  safe_before_key f : safe (before_map_key v f);
  safe_after_key f : safe (after_map_key v f);
  safe_before_value f : safe (before_map_value v f);
  safe_after_value f : safe (after_map_value v f);
  safe_field f r : safe (v_field v f r);
  safe_struct fs r : safe (v_struct v fs r);
  safe_list f r : safe (v_list v f r);
  safe_map k w r r' : safe (v_map v k w r r');
  safe_primitive p : safe (v_primitive v p);
}.

Create HintDb safety discriminated.
#[local] Hint Resolve safe_bind safe_ret safe_before_field safe_after_field safe_before_element
  safe_after_element safe_before_key safe_after_key safe_before_value safe_after_value safe_field
  safe_struct safe_list safe_map safe_primitive : safety.

(** Every call of a sequence is safe. *)
Ltac safe_binds := repeat (apply safe_bind; [|intros ?]); eauto with safety.

Lemma safe_visit_struct {S T} (v : SchemaVisitor S T) fields :
  safe_visitor v -> Forall (fun f => safe (visit_type v (field_type f))) fields ->
  safe (visit_struct v fields).
Proof.
  intros Hv Hf. apply safe_bind; [|eauto with safety].
  apply safe_mapSR. eapply Forall_impl; [exact Hf|]. intros f H. cbn in H.
  unfold visit_struct_field. safe_binds.
Qed.

Lemma safe_visit_type {S T} (v : SchemaVisitor S T) ty : safe_visitor v -> safe (visit_type v ty).
Proof.
  intros Hv. induction ty as [p|fields IH|e IH|k w IHk IHw] using Ty_nested_ind.
  - eauto with safety.
  - intros s. rewrite visit_type_struct. by apply safe_visit_struct.
  - cbn [visit_type]. safe_binds.
  - cbn [visit_type]. safe_binds.
Qed.

Lemma safe_index_by_name fields : index_by_name fields <> Err Panic.
Proof.
  assert (Hadd : forall n i, safe (add_field n i)).
  { intros n i s. unfold add_field. by case_match. }
  assert (Hv : safe_visitor IndexByName_visitor).
  { split; intros; cbn; try done. by apply safe_bind. }
  unfold index_by_name. pose proof (safe_visit_type _ (TStruct fields) Hv (mkIndexByName ∅ ∅ [] [])) as H.
  rewrite visit_type_struct in H. by apply fmap_safe.
Qed.

Lemma safe_index_by_id fields : index_by_id fields <> Err Panic.
Proof.
  rewrite index_by_id_inserts. generalize (∅ : gmap Z NestedField).
  induction (all_fields fields) as [|f l IH]; intros m; [done|]. cbn.
  unfold try_insert_field. case_match; [done|apply IH].
Qed.

Lemma safe_reassign_inner id : safe (reassign_inner id).
Proof.
  intros s. unfold reassign_inner, increase_next_field_id, mbind, sr_bind. cbn [next_field_id].
  by destruct (next_field_id s =? I32_MAX).
Qed.
Lemma safe_reassign_outer f : safe (reassign_outer f).
Proof.
  intros s. unfold reassign_outer, increase_next_field_id, try_insert_field, mbind, sr_bind.
  destruct (old_to_new_id s !! _); [done|]. cbn [next_field_id].
  by destruct (next_field_id s =? I32_MAX).
Qed.
#[local] Hint Resolve safe_reassign_inner safe_reassign_outer : safety.

Lemma safe_reassign_fields fields :
  Forall (fun f => safe (reassign_ids_visit_type (field_type f))) fields ->
  safe (reassign_field_ids fields).
Proof.
  intros Hf. apply safe_bind; [apply safe_mapSR, Forall_forall; eauto with safety|].
  intros outer. revert outer; induction Hf as [|f fields Hf _ IH]; intros [|id outer]; try done.
  cbn [reassign_nested_all]. unfold reassign_nested.
  safe_binds.
Qed.

Lemma safe_reassign_type ty : safe (reassign_ids_visit_type ty).
Proof.
  induction ty as [p|fields IH|e IH|k w IHk IHw] using Ty_nested_ind.
  - done.
  - intros s. rewrite reassign_struct. apply safe_bind; [by apply safe_reassign_fields|done].
  - cbn [reassign_ids_visit_type]. safe_binds.
  - cbn [reassign_ids_visit_type]. safe_binds.
Qed.

Lemma safe_mapR {A B} (f : A -> result B) l : (forall a, f a <> Err Panic) -> mapR f l <> Err Panic.
Proof.
  intros Hf. induction l as [|a l IH]; [done|]. cbn [mapR].
  apply bind_safe; [apply Hf|]. intros b _. by apply bind_safe.
Qed.
Lemma safe_ok_or {A} (o : option A) k : ok_or o k <> Err Panic.
Proof. by destruct o. Qed.

Lemma index_by_id_indexed fields m :
  index_by_id fields = Ok m -> NoDup (field_id <$> all_fields fields) /\ m = indexed fields.
Proof.
  rewrite index_by_id_inserts, try_inserts_Ok, (right_id_L ∅ (∪)). unfold indexed. tauto.
Qed.

Lemma build_indexed_safe {LC : Lowercase} b : build_indexed b <> Err Panic.
Proof.
  unfold build_indexed. apply bind_safe; [apply safe_index_by_id|].
  intros m [Hn ->]%index_by_id_indexed. apply bind_safe; [|intros _ _].
  - destruct (validate_identifier_ids_decides _ Hn (elements (b_identifier_field_ids b)))
      as [[-> _]|[-> _]]; done.
  - apply bind_safe; [apply safe_index_by_name|]. by intros [? ?] _.
Qed.

Lemma build_safe {LC : Lowercase} b : build b <> Err Panic.
Proof.
  unfold build. apply bind_safe; [apply build_indexed_safe|]. intros s _.
  destruct (b_reassign_field_ids_from b); [|done]. apply bind_safe.
  - apply safe_reassign_fields, Forall_forall. intros. apply safe_reassign_type.
  - intros [new r] _. apply bind_safe; [|intros ids _; apply bind_safe; [|intros al _]].
    + apply fmap_safe, safe_mapR. intros id. apply safe_ok_or.
    + apply safe_mapR. intros [n i]. apply bind_safe; [apply safe_ok_or|done].
    + apply build_indexed_safe.
Qed.

(** The identifier field ids of a schema that [build] returns, reassigned or not, are
    those of required primitive fields that are not floating point and lie inside required
    structs only; the check rejects nothing else; and [build] never panics (so the walk
    over the parents ends). *)
Theorem build_validates_identifiers {LC : Lowercase} b :
  (forall s, build b = Ok s ->
     forall id, id ∈ identifier_field_ids s -> identifier_at (as_struct s) id)
  /\ (forall m ids, index_by_id (b_fields b) = Ok m ->
        decides (validate_identifier_ids (b_fields b) m ids) (Forall (identifier_at (b_fields b)) ids))
  /\ build b <> Err Panic.
Proof.
  split_and!; [|intros m ids [Hn ->]%index_by_id_indexed; by apply validate_identifier_ids_decides|
               apply build_safe].
  intros s (b' & H & _)%build_Ok id Hid.
  apply build_indexed_Ok in H as (Es & [Hn Hm]%index_by_id_indexed & _ & Hv & _ & Ei).
  rewrite Es. rewrite Hm in Hv.
  destruct (validate_identifier_ids_decides _ Hn (elements (b_identifier_field_ids b')))
    as [[_ H]|[H _]]; [|by rewrite H in Hv].
  rewrite Forall_forall in H. apply H, elem_of_elements. by rewrite <- Ei.
Qed.

(** A key inside a required struct. *)
Definition ex_builder : SchemaBuilder :=
  mkSchemaBuilder 0
    [mkField 1 "a" true (TStruct [mkField 2 "k" true (TPrimitive PrimitiveType.Long)]);
     mkField 3 "b" false (TStruct [mkField 4 "k" true (TPrimitive PrimitiveType.Long)])]
    [] {[ 2 ]} (Some 10).

Lemma build_validates_identifiers_witness :
  let _ : Lowercase := fun s => s in
  exists s, build ex_builder = Ok s /\ identifier_field_ids s = {[ 12 ]}
    /\ identifier_at (as_struct s) 12
    /\ validate_identifier_ids (b_fields ex_builder) (indexed (b_fields ex_builder)) [4]
       = Err (Error DataInvalid).
Proof.
  intros LC. destruct (build ex_builder) as [s|e] eqn:E; [|vm_compute in E; discriminate E].
  destruct (build_validates_identifiers ex_builder) as (H & _ & _). exists s.
  assert (Hs : identifier_field_ids s = {[ 12 ]}) by (vm_compute in E; injection E as <-; reflexivity).
  split; [reflexivity|]. split; [exact Hs|]. split.
  - apply H; [exact E|]. rewrite Hs. apply elem_of_singleton. reflexivity.
  - vm_compute. reflexivity.
Defined.
