(* ===== verification/Concrete.v ===== *)
(** * Concrete instances of the library interfaces

    Simple functions with the documented behaviour of the third-party crates, on
    which the witnesses of the theorems evaluate.  No theorem about the program
    depends on them. *)

From S2P Require Import Prelude Utf8 Decimal Values Schema.

Definition concrete_values : ValueLib :=
  {| value_fastnum := pair_fastnum;
     OrderedFloat_eq w a b :=
       if float_is_nan w a then float_is_nan w b
       else negb (float_is_nan w b) && (float_num w a =? float_num w b);
     OrderedFloat_cmp w a b :=
       match float_is_nan w a, float_is_nan w b with
       | true, true => Eq
       | true, false => Gt
       | false, true => Lt
       | false, false => float_num w a ?= float_num w b
       end;
     uuid_cmp := Z.compare;
     parse_naive_datetime_micros _ := None;
     parse_datetime_utc_micros _ := None |}.

#[export] Instance concrete_values_laws : ValueLibLaws concrete_values.
Proof. split; try done. apply pair_fastnum_laws. Qed.

(** ASCII lower case. *)
Definition ascii_lower (c : Ascii.ascii) : Ascii.ascii :=
  let n := Ascii.nat_of_ascii c in
  if ((65 <=? n) && (n <=? 90))%nat then Ascii.ascii_of_nat (n + 32) else c.
Fixpoint ascii_lowercase (s : string) : string :=
  match s with
  | EmptyString => EmptyString
  | String c s => String (ascii_lower c) (ascii_lowercase s)
  end.
Definition concrete_lowercase : Lowercase := ascii_lowercase.
