(* ===== verification/DatumOrder.v ===== *)
(** * The order of typed literals

    Well-formed datums of one type are totally ordered: [lit_key] embeds them
    into lexicographically ordered integer sequences, and every comparison of
    the code is a comparison of keys.  Also: when [==] agrees with that order,
    and the round trip of the binary serialisation. *)

From S2P Require Import Prelude Utf8 Bytes Numerals Decimal Values Concrete.

(** The ranges that Rust's types guarantee, plus 38 digits for a decimal. *)
Definition lit_wf (l : PrimitiveLiteral.t) : bool :=
  match l with
  | PrimitiveLiteral.Boolean _ => true
  | PrimitiveLiteral.Int v => inS 32 v
  | PrimitiveLiteral.Long v => inS 64 v
  | PrimitiveLiteral.Float b => inU 32 b
  | PrimitiveLiteral.Double b => inU 64 b
  | PrimitiveLiteral.String s => valid_str s
  | PrimitiveLiteral.Binary bs => forallb is_byte bs
  | PrimitiveLiteral.Int128 v => Z.abs v <? 10 ^ 38
  | PrimitiveLiteral.UInt128 v => inU 128 v
  | PrimitiveLiteral.AboveMax | PrimitiveLiteral.BelowMin => true
  end.

Definition type_wf (ty : PrimitiveType.t) : bool :=
  match ty with
  | PrimitiveType.Decimal precision scale =>
      (0 <? precision) && (precision <=? 38) && (0 <=? scale)
  | _ => true
  end.

(** A datum whose literal is a value of its type. *)
Definition datum_wf (d : Datum) : bool :=
  type_wf (datum_type d) && compatible (datum_type d) (datum_literal d)
  && lit_wf (datum_literal d).

Definition lit_key (l : PrimitiveLiteral.t) : list Z :=
  match l with
  | PrimitiveLiteral.Boolean b => [Z.b2z b]
  | PrimitiveLiteral.Int v | PrimitiveLiteral.Long v
  | PrimitiveLiteral.Int128 v | PrimitiveLiteral.UInt128 v => [v]
  | PrimitiveLiteral.Float b => [total_key 32 b]
  | PrimitiveLiteral.Double b => [total_key 64 b]
  | PrimitiveLiteral.String s => utf8 s
  | PrimitiveLiteral.Binary bs => bs
  | PrimitiveLiteral.AboveMax | PrimitiveLiteral.BelowMin => []
  end.
Definition key (d : Datum) : list Z := lit_key (datum_literal d).

(** Not the negative zero of a float, on which [==] and the order disagree. *)
Definition lit_regular (l : PrimitiveLiteral.t) : bool :=
  match l with
  | PrimitiveLiteral.Float b => negb (b =? 2 ^ 31)
  | PrimitiveLiteral.Double b => negb (b =? 2 ^ 63)
  | _ => true
  end.
Definition regular (d : Datum) : bool := lit_regular (datum_literal d).

(** ** Floats *)

Lemma lxor_ones n z : 0 <= n -> 0 <= z < 2 ^ n -> Z.lxor z (2 ^ n - 1) = 2 ^ n - 1 - z.
Proof.
  intros Hn Hz. rewrite <- Z.pred_succ with (n := 2 ^ n - 1) at 1.
  replace (Z.pred (Z.succ (2 ^ n - 1))) with (Z.ones n) by (rewrite Z.ones_equiv; lia).
  replace (2 ^ n - 1 - z) with (Z.ones n - z) by (rewrite Z.ones_equiv; lia).
  assert (Z.ldiff z (Z.ones n) = 0) as Hd.
  { destruct (Z.eq_dec z 0) as [->|]; [apply Z.ldiff_0_l|].
    apply Z.ldiff_ones_r_low; [lia|]. apply Z.log2_lt_pow2; lia. }
  rewrite Z.sub_nocarry_ldiff by done.
  apply Z.bits_inj'. intros i Hi. rewrite Z.lxor_spec, Z.ldiff_spec.
  pose proof (f_equal (fun x => Z.testbit x i) Hd) as Hb. cbn in Hb.
  rewrite Z.ldiff_spec, Z.bits_0 in Hb.
  destruct (Z.testbit z i), (Z.testbit (Z.ones n) i); naive_solver.
Qed.

Lemma total_key_num w b :
  0 < w -> inU w b = true ->
  total_key w b = if float_sign w b then float_num w b - 1 else float_num w b.
Proof.
  intros Hw Hb%inU_spec. unfold total_key, float_num, float_sign, float_abs, wrapS.
  pose proof (pow2_split w Hw) as E. assert (0 < 2 ^ (w - 1)) by (apply Z.pow_pos_nonneg; lia).
  rewrite E in *. set (p := 2 ^ (w - 1)) in *.
  destruct (Z.leb_spec p b).
  - replace ((b + p) mod (2 * p)) with (b - p) by (apply Z.mod_unique with 1; lia).
    replace (b mod p) with (b - p) by (apply Z.mod_unique with 1; lia).
    replace (b - p - p) with (Z.lnot (2 * p - 1 - b)) by (unfold Z.lnot; lia).
    rewrite <- Z.lnot_lxor_l. subst p. rewrite lxor_ones by lia. unfold Z.lnot. lia.
  - rewrite Z.lxor_0_r. rewrite !Z.mod_small by lia. lia.
Qed.

Lemma float_eq_key {V : ValueLib} {L : ValueLibLaws V} w a b :
  0 < w -> inU w a = true -> inU w b = true ->
  float_is_nan w a = false -> float_is_nan w b = false ->
  a <> 2 ^ (w - 1) -> b <> 2 ^ (w - 1) ->
  OrderedFloat_eq w a b = true <-> total_key w a = total_key w b.
Proof.
  intros Hw Ha Hb Na Nb Za Zb. rewrite OrderedFloat_eq_ok, Na, Nb. cbn [negb andb].
  rewrite Z.eqb_eq, !total_key_num by done.
  apply inU_spec in Ha, Hb. unfold float_num, float_sign, float_abs.
  rewrite (pow2_split w Hw) in *.
  assert (0 < 2 ^ (w - 1)) by (apply Z.pow_pos_nonneg; lia). set (p := 2 ^ (w - 1)) in *.
  assert (forall x, p <= x < 2 * p -> x mod p = x - p) as Hm
    by (intros; symmetry; apply Z.mod_unique with 1; lia).
  destruct (Z.leb_spec p a), (Z.leb_spec p b).
  - rewrite (Hm a), (Hm b) by lia. lia.
  - rewrite (Hm a), (Z.mod_small b) by lia. lia.
  - rewrite (Z.mod_small a), (Hm b) by lia. lia.
  - rewrite (Z.mod_small a), (Z.mod_small b) by lia. lia.
Qed.

(** ** Comparison is comparison of keys *)

(** Two well-formed datums of one type. *)
Definition comparable (a b : Datum) : Prop :=
  datum_wf a = true /\ datum_wf b = true /\ datum_type a = datum_type b.

Lemma comparable_sym a b : comparable a b -> comparable b a.
Proof. unfold comparable. naive_solver. Qed.
Lemma comparable_trans a b c : comparable a b -> comparable b c -> comparable a c.
Proof. unfold comparable. intros (?&?&?) (?&?&?). repeat split; congruence. Qed.

(** Case analysis on the kind of two well-formed datums of one type. *)
Ltac datum_cases H :=
  let a1 := fresh "ty" in let b1 := fresh "l" in let a2 := fresh "ty" in let b2 := fresh "l" in
  let Hw1 := fresh "Hw" in let Hw2 := fresh "Hw" in let E := fresh "E" in
  destruct H as (Hw1 & Hw2 & E);
  match type of E with datum_type ?a = datum_type ?b =>
    destruct a as [a1 b1], b as [a2 b2]; cbn [datum_type datum_literal] in *; subst;
    unfold datum_wf in Hw1, Hw2; cbn [datum_type datum_literal] in Hw1, Hw2;
    apply andb_true_iff in Hw1 as [Hw1 ?]; apply andb_true_iff in Hw1 as [? Hw1];
    apply andb_true_iff in Hw2 as [Hw2 ?]; apply andb_true_iff in Hw2 as [? Hw2];
    match type of Hw1 with compatible ?t _ = true => destruct t end;
    destruct b1; try discriminate Hw1; destruct b2; try discriminate Hw2;
    cbn [lit_wf type_wf] in *
  end.

Section order.
Context {V : ValueLib} {L : ValueLibLaws V}.

Lemma partial_cmp_key a b :
  comparable a b -> partial_cmp a b = Some (lex_cmp (key a) (key b)).
Proof.
  intros H. datum_cases H; unfold partial_cmp, key, str_cmp, total_cmp;
    cbn [datum_type datum_literal lit_key];
    rewrite ?lex_cmp_singleton, ?uuid_cmp_ok; try reflexivity.
  bool_to_prop. f_equal. eapply decimal_cmp_same_scale;
    [apply decimal_from_i128_with_scale_ok; lia..|lia].
Qed.

Lemma datum_lt_key a b : comparable a b -> datum_lt a b = true <-> lex_lt (key a) (key b).
Proof.
  intros H. unfold datum_lt. rewrite partial_cmp_key by done. unfold lex_lt.
  destruct (lex_cmp _ _); cbn; naive_solver.
Qed.
Lemma datum_le_key a b : comparable a b -> datum_le a b = true <-> lex_le (key a) (key b).
Proof.
  intros H. unfold datum_le. rewrite partial_cmp_key by done. unfold lex_le.
  destruct (lex_cmp _ _); cbn; naive_solver.
Qed.
Lemma datum_gt_key a b : comparable a b -> datum_gt a b = true <-> lex_lt (key b) (key a).
Proof.
  intros H. unfold datum_gt. rewrite partial_cmp_key by done. unfold lex_lt.
  rewrite lex_cmp_antisym. destruct (lex_cmp (key b) _); cbn; naive_solver.
Qed.
Lemma datum_ge_key a b : comparable a b -> datum_ge a b = true <-> lex_le (key b) (key a).
Proof.
  intros H. unfold datum_ge. rewrite partial_cmp_key by done. unfold lex_le.
  rewrite lex_cmp_antisym. destruct (lex_cmp (key b) _); cbn; naive_solver.
Qed.

(** [utf8] is injective on text that Rust can hold. *)
Lemma utf8_inj s t : valid_str s = true -> valid_str t = true -> utf8 s = utf8 t -> s = t.
Proof.
  intros Hs Ht E. apply lex_cmp_eq. rewrite <- utf8_lex_cmp by done. by rewrite E, lex_cmp_refl.
Qed.

Lemma datum_eqb_key a b :
  comparable a b -> regular a = true -> regular b = true ->
  is_nan a = false -> is_nan b = false ->
  datum_eqb a b = true <-> key a = key b.
Proof.
  intros H. unfold datum_eqb. rewrite bool_decide_eq_true_2 by apply H. cbn [andb].
  datum_cases H; unfold regular, key, is_nan;
    cbn [datum_literal lit_regular lit_is_nan lit_key lit_eqb]; intros Ra Rb Na Nb;
    rewrite ?Z.eqb_eq, ?bool_decide_eq_true; try naive_solver.
  - destruct b, b0; cbn; naive_solver.
  - bool_to_prop. rewrite (float_eq_key 32) by (first [done | lia]). split; congruence.
  - bool_to_prop. rewrite (float_eq_key 64) by (first [done | lia]). split; congruence.
Qed.

(** *** The value order, in which the two zeros of a float are equal *)

Definition lit_value_key (l : PrimitiveLiteral.t) : list Z :=
  match l with
  | PrimitiveLiteral.Float b => [float_num 32 b]
  | PrimitiveLiteral.Double b => [float_num 64 b]
  | l => lit_key l
  end.
Definition value_key (d : Datum) : list Z := lit_value_key (datum_literal d).

Lemma total_key_float_num w a b :
  0 < w -> inU w a = true -> inU w b = true ->
  total_key w a <= total_key w b -> float_num w a <= float_num w b.
Proof.
  intros Hw Ha Hb. rewrite !total_key_num by done.
  apply inU_spec in Ha, Hb. unfold float_num, float_sign, float_abs.
  assert (0 < 2 ^ (w - 1)) by (apply Z.pow_pos_nonneg; lia).
  pose proof (Z.mod_pos_bound a (2 ^ (w - 1))). pose proof (Z.mod_pos_bound b (2 ^ (w - 1))).
  destruct (2 ^ (w - 1) <=? a), (2 ^ (w - 1) <=? b); lia.
Qed.

Lemma key_value_key a b :
  comparable a b -> lex_le (key a) (key b) -> lex_le (value_key a) (value_key b).
Proof.
  intros H. datum_cases H; unfold key, value_key; cbn [datum_literal lit_key lit_value_key];
    try done; rewrite !lex_le_singleton; apply total_key_float_num; done.
Qed.

Lemma datum_eqb_value_key a b :
  comparable a b -> is_nan a = false -> is_nan b = false ->
  datum_eqb a b = true <-> value_key a = value_key b.
Proof.
  intros H. unfold datum_eqb. rewrite bool_decide_eq_true_2 by apply H. cbn [andb].
  datum_cases H; unfold value_key, is_nan;
    cbn [datum_literal lit_is_nan lit_value_key lit_key lit_eqb]; intros Na Nb;
    rewrite ?Z.eqb_eq, ?bool_decide_eq_true; try (split; congruence).
  - destruct b, b0; cbn; split; congruence.
  - rewrite OrderedFloat_eq_ok, Na, Nb. cbn [negb andb]. rewrite Z.eqb_eq. split; congruence.
  - rewrite OrderedFloat_eq_ok, Na, Nb. cbn [negb andb]. rewrite Z.eqb_eq. split; congruence.
Qed.

(** A NaN is equal to nothing but a NaN. *)
Lemma datum_eqb_nan a b :
  comparable a b -> is_nan a = true -> is_nan b = false -> datum_eqb a b = false.
Proof.
  intros H. unfold datum_eqb. rewrite bool_decide_eq_true_2 by apply H. cbn [andb].
  datum_cases H; unfold is_nan; cbn [datum_literal lit_is_nan lit_eqb]; intros Na Nb; try done;
    by rewrite OrderedFloat_eq_ok, Na, Nb.
Qed.

(** The derived order of [PrimitiveLiteral] compares values. *)
Lemma lit_partial_cmp_value_key a b :
  comparable a b -> is_nan a = false -> is_nan b = false ->
  lit_partial_cmp (datum_literal a) (datum_literal b)
  = Some (lex_cmp (value_key a) (value_key b)).
Proof.
  intros H. datum_cases H; unfold value_key, is_nan, str_cmp;
    cbn [datum_literal lit_is_nan lit_value_key lit_key lit_partial_cmp]; intros Na Nb;
    rewrite ?lex_cmp_singleton, ?OrderedFloat_cmp_ok, ?Na, ?Nb; done.
Qed.

End order.

(** ** Serialisation *)

(** The unscaled value of a decimal has at most as many digits as its precision. *)
Definition decimal_fits (d : Datum) : bool :=
  match datum_type d, datum_literal d with
  | PrimitiveType.Decimal precision _, PrimitiveLiteral.Int128 v => Z.abs v <? 10 ^ precision
  | _, _ => true
  end.

Lemma required_bytes_table :
  forallb (fun i => let n := REQUIRED_LENGTH i in
     (0 <? n) && (n <=? 16) && (10 ^ (Z.of_nat i + 1) <=? 2 ^ (8 * n - 1))
     && (2 ^ (8 * (n - 1) - 1) <? 10 ^ (Z.of_nat i + 1)))
    (seq 0 38) = true.
Proof. vm_compute. reflexivity. Qed.

Lemma required_bytes_spec precision n :
  decimal_required_bytes precision = Ok n ->
  0 < n <= 16 /\ 10 ^ precision <= 2 ^ (8 * n - 1) /\ 2 ^ (8 * (n - 1) - 1) < 10 ^ precision.
Proof.
  unfold decimal_required_bytes, MAX_DECIMAL_PRECISION.
  case_match; [|done]. intros [= <-]. bool_to_prop.
  pose proof required_bytes_table as T. rewrite forallb_forall in T.
  specialize (T (Z.to_nat precision - 1)%nat). rewrite in_seq in T.
  specialize (T ltac:(lia)). cbv zeta in T.
  replace (Z.of_nat (Z.to_nat precision - 1) + 1) with precision in T by lia.
  bool_to_prop. lia.
Qed.

Lemma decimal_bytes_fit precision n v :
  decimal_required_bytes precision = Ok n -> Z.abs v < 10 ^ precision ->
  take (Z.to_nat n) (i128_to_be_bytes_min v) = i128_to_be_bytes_min v.
Proof.
  intros (Hn & Hp & _)%required_bytes_spec Hv. apply take_ge.
  apply i128_min_bytes_length; [lia|]. apply inS_spec. rewrite Z2Nat.id by lia. lia.
Qed.

Lemma exact_len_ok n bs : length bs = n -> exact_len n bs = Ok bs.
Proof. intros <-. unfold exact_len. by rewrite Nat.eqb_refl. Qed.

Lemma le_int_roundtrip n v :
  (0 < n)%nat -> inS (8 * Z.of_nat n) v = true ->
  of_le_signed (le_bytes n v) = v.
Proof. apply of_le_signed_bytes. Qed.

Lemma decimal_roundtrip precision scale v :
  (0 <? precision) && (precision <=? 38) = true -> Z.abs v < 10 ^ 38 ->
  Z.abs v < 10 ^ precision ->
  let d := mkDatum (PrimitiveType.Decimal precision scale) (PrimitiveLiteral.Int128 v) in
  exists bs, to_bytes d = Ok bs /\ try_from_bytes bs (datum_type d) = Ok d.
Proof.
  intros Hp Hv Hfit. cbn [datum_type]. unfold to_bytes. cbn [datum_type datum_literal].
  destruct (decimal_required_bytes precision) as [n|e] eqn:E.
  - eexists. split; [reflexivity|]. rewrite (decimal_bytes_fit _ _ _ E) by done.
    unfold try_from_bytes. rewrite i128_bytes_roundtrip; [done|].
    apply inS_spec. change (2 ^ (128 - 1)) with 170141183460469231731687303715884105728. lia.
  - unfold decimal_required_bytes, MAX_DECIMAL_PRECISION in E. by rewrite Hp in E.
Qed.

Lemma datum_roundtrip d :
  datum_wf d = true -> decimal_fits d = true ->
  exists bs, to_bytes d = Ok bs /\ try_from_bytes bs (datum_type d) = Ok d.
Proof.
  intros Hw Hfit. destruct d as [ty l]. unfold datum_wf in Hw. unfold decimal_fits in Hfit.
  cbn [datum_type datum_literal] in *. rewrite !andb_true_iff in Hw. destruct Hw as [[Ht Hc] Hl].
  destruct ty, l; try discriminate Hc; cbn [lit_wf type_wf] in *;
    try (eexists; split; [reflexivity|]; unfold try_from_bytes; cbn [datum_type];
      rewrite ?exact_len_ok by first [apply length_le_bytes | apply length_be_bytes];
      rewrite ?length_le_bytes;
      cbn [Nat.eqb fmap result_fmap mbind result_bind];
      rewrite ?of_le_signed_bytes, ?of_le_bytes_id, ?(of_be_bytes_id 16), ?from_utf8_utf8
        by first [done | lia]; done).
  - eexists. split; [reflexivity|]. by destruct b.
  - bool_to_prop. apply decimal_roundtrip; [apply andb_true_iff; split; lia|lia|lia].
Qed.

(** ** Properties *)

(** C39 Serialising a well-formed typed value and parsing the bytes with its type gives the
    value back. *)
Theorem datum_bytes_roundtrip d :
  datum_wf d = true -> decimal_fits d = true ->
  exists bs, to_bytes d = Ok bs /\ try_from_bytes bs (datum_type d) = Ok d.
Proof. apply datum_roundtrip. Qed.

(** The order of well-formed typed values of one type is total: they always compare, the
    comparison of the swapped pair is the opposite, and [<=] is transitive. *)
Theorem datum_total_order {V : ValueLib} {L : ValueLibLaws V} a b c :
  comparable a b -> comparable b c ->
  (exists r, partial_cmp a b = Some r /\ partial_cmp b a = Some (CompOpp r))
  /\ (datum_le a b = true -> datum_le b c = true -> datum_le a c = true)
  /\ (datum_le a b = true -> datum_lt b c = true -> datum_lt a c = true).
Proof.
  intros Hab Hbc. assert (comparable a c) as Hac by (by eapply comparable_trans).
  split; [|split].
  - exists (lex_cmp (key a) (key b)). rewrite !partial_cmp_key; [|by apply comparable_sym|done].
    by rewrite (lex_cmp_antisym (key a)).
  - rewrite !datum_le_key by done. apply lex_le_trans.
  - rewrite datum_le_key, !datum_lt_key by done. apply lex_le_lt_trans.
Qed.

(** Equality of typed values is the equivalence of their order, on values that are neither
    NaN nor negative zero. *)
Theorem datum_eq_is_order_eq {V : ValueLib} {L : ValueLibLaws V} a b :
  comparable a b -> regular a = true -> regular b = true ->
  is_nan a = false -> is_nan b = false ->
  datum_eqb a b = true <-> partial_cmp a b = Some Eq.
Proof.
  intros. rewrite datum_eqb_key, partial_cmp_key by done. rewrite <- lex_cmp_eq.
  split; congruence.
Qed.

(** [decimal_required_bytes] gives the least number of bytes that holds every signed
    integer of that many digits. *)
Theorem decimal_required_bytes_least precision n :
  decimal_required_bytes precision = Ok n ->
  0 < n <= 16 /\ 10 ^ precision <= 2 ^ (8 * n - 1) /\ 2 ^ (8 * (n - 1) - 1) < 10 ^ precision.
Proof. apply required_bytes_spec. Qed.

Section witnesses.
#[local] Existing Instance concrete_values.
Definition ex_decimal : Datum :=
  mkDatum (PrimitiveType.Decimal 9 2) (PrimitiveLiteral.Int128 (-1234567)).

Lemma datum_bytes_roundtrip_witness :
  exists bs, to_bytes ex_decimal = Ok bs
    /\ try_from_bytes bs (PrimitiveType.Decimal 9 2) = Ok ex_decimal.
Proof. refine (datum_bytes_roundtrip ex_decimal _ _); vm_compute; reflexivity. Defined.

Lemma datum_total_order_witness :
  datum_lt (datum_string (lit "ab")) (datum_string (lit "c")) = true.
Proof.
  refine (proj2 (proj2 (datum_total_order (datum_string (lit "ab")) (datum_string (lit "b"))
            (datum_string (lit "c")) _ _)) _ _); repeat split; vm_compute; reflexivity.
Defined.

Lemma datum_eq_is_order_eq_witness :
  datum_eqb (datum_int 5) (datum_int 5) = true.
Proof.
  refine (proj2 (datum_eq_is_order_eq (datum_int 5) (datum_int 5) _ _ _ _ _) _);
    repeat split; vm_compute; reflexivity.
Defined.

Lemma decimal_required_bytes_least_witness :
  0 < 4 <= 16 /\ 10 ^ 9 <= 2 ^ (8 * 4 - 1) /\ 2 ^ (8 * (4 - 1) - 1) < 10 ^ 9.
Proof. refine (decimal_required_bytes_least 9 4 _). vm_compute. reflexivity. Defined.
End witnesses.
