(* ===== verification/Expr.v ===== *)
(** * Predicate expressions (expr/mod.rs, expr/predicate.rs, expr/term.rs)

    Operators, unbound and bound predicates, their combinators and binding, and the
    generic visitors of expr/visitors/.  [Predicate] and [BoundPredicate] have the same
    constructors and differ in the term of a leaf, so both are instances of one
    type [Pred]; the functions that the code writes twice are given twice where
    the two bodies differ. *)

From S2P Require Import Prelude Utf8 Values Schema.

(** ** Operators *)

Module PredicateOperator.
Inductive t :=
| IsNull | NotNull | IsNan | NotNan
| LessThan | LessThanOrEq | GreaterThan | GreaterThanOrEq | Eq | NotEq
| StartsWith | NotStartsWith
| In | NotIn.

#[global] Instance eq_dec : EqDecision t.
Proof. solve_decision. Defined.

(** The [repr(u16)] discriminant. *)
Definition as_u16 (op : t) : Z :=
  match op with
  | IsNull => 101 | NotNull => 102 | IsNan => 103 | NotNan => 104
  | LessThan => 201 | LessThanOrEq => 202 | GreaterThan => 203 | GreaterThanOrEq => 204
  | Eq => 205 | NotEq => 206 | StartsWith => 207 | NotStartsWith => 208
  | In => 301 | NotIn => 302
  end.

Definition is_unary (op : t) : bool := as_u16 op <? as_u16 LessThan.
Definition is_binary (op : t) : bool := (as_u16 NotNan <? as_u16 op) && (as_u16 op <? as_u16 In).
Definition is_set (op : t) : bool := as_u16 NotStartsWith <? as_u16 op.

Definition negate (op : t) : t :=
  match op with
  | IsNull => NotNull
  | NotNull => IsNull
  | IsNan => NotNan
  | NotNan => IsNan
  | LessThan => GreaterThanOrEq
  | LessThanOrEq => GreaterThan
  | GreaterThan => LessThanOrEq
  | GreaterThanOrEq => LessThan
  | Eq => NotEq
  | NotEq => Eq
  | In => NotIn
  | NotIn => In
  | StartsWith => NotStartsWith
  | NotStartsWith => StartsWith
  end.

Lemma op_negate_involutive op : negate (negate op) = op.
Proof. by destruct op. Qed.
Lemma negate_kind op :
  is_unary (negate op) = is_unary op /\ is_binary (negate op) = is_binary op
  /\ is_set (negate op) = is_set op.
Proof. by destruct op. Qed.
End PredicateOperator.

(** ** Terms *)

Record Reference := mkReference { ref_name : string }.

Record BoundReference := mkBoundReference {
  column_name : string;
  ref_field : NestedField;
  ref_accessor : StructAccessor;
}.

(** ** Predicates *)

Inductive Pred (T : Type) :=
| AlwaysTrue
| AlwaysFalse
| And (l r : Pred T)
| Or (l r : Pred T)
| Not (p : Pred T)
| Unary (op : PredicateOperator.t) (term : T)
| Binary (op : PredicateOperator.t) (term : T) (literal : Datum)
| SetP (op : PredicateOperator.t) (term : T) (literals : list Datum).
Arguments AlwaysTrue {T}.
Arguments AlwaysFalse {T}.
Arguments And {T} _ _.
Arguments Or {T} _ _.
Arguments Not {T} _.
Arguments Unary {T} _ _.
Arguments Binary {T} _ _ _.
Arguments SetP {T} _ _ _.

Abbreviation Predicate := (Pred Reference).
Abbreviation BoundPredicate := (Pred BoundReference).

(** [Predicate::negate] and [BoundPredicate::negate]: push one negation to the
    leaves; under a [Not] the negation is dropped and nothing else changes. *)
Fixpoint negate {T} (self : Pred T) : Pred T :=
  match self with
  | AlwaysTrue => AlwaysFalse
  | AlwaysFalse => AlwaysTrue
  | And l r => Or (negate l) (negate r)
  | Or l r => And (negate l) (negate r)
  | Not input_0 => input_0
  | Unary op term => Unary (PredicateOperator.negate op) term
  | Binary op term literal => Binary (PredicateOperator.negate op) term literal
  | SetP op term literals => SetP (PredicateOperator.negate op) term literals
  end.

(** [Predicate::and] and [Predicate::or] simplify constants. *)
Definition predicate_and (self other : Predicate) : Predicate :=
  match self, other with
  | AlwaysFalse, _ => AlwaysFalse
  | _, AlwaysFalse => AlwaysFalse
  | AlwaysTrue, rhs => rhs
  | lhs, AlwaysTrue => lhs
  | lhs, rhs => And lhs rhs
  end.
Definition predicate_or (self other : Predicate) : Predicate :=
  match self, other with
  | AlwaysTrue, _ => AlwaysTrue
  | _, AlwaysTrue => AlwaysTrue
  | AlwaysFalse, rhs => rhs
  | lhs, AlwaysFalse => lhs
  | lhs, rhs => Or lhs rhs
  end.

(** [BoundPredicate::and] and [BoundPredicate::or] do not. *)
Definition bound_and (self other : BoundPredicate) : BoundPredicate := And self other.
Definition bound_or (self other : BoundPredicate) : BoundPredicate := Or self other.

(** The constructors of expr/term.rs. *)
Definition ref_less_than (r : Reference) (d : Datum) : Predicate :=
  Binary PredicateOperator.LessThan r d.
Definition ref_less_than_or_equal_to (r : Reference) (d : Datum) : Predicate :=
  Binary PredicateOperator.LessThanOrEq r d.
Definition ref_greater_than (r : Reference) (d : Datum) : Predicate :=
  Binary PredicateOperator.GreaterThan r d.
Definition ref_greater_than_or_equal_to (r : Reference) (d : Datum) : Predicate :=
  Binary PredicateOperator.GreaterThanOrEq r d.
Definition ref_equal_to (r : Reference) (d : Datum) : Predicate :=
  Binary PredicateOperator.Eq r d.
Definition ref_not_equal_to (r : Reference) (d : Datum) : Predicate :=
  Binary PredicateOperator.NotEq r d.
Definition ref_starts_with (r : Reference) (d : Datum) : Predicate :=
  Binary PredicateOperator.StartsWith r d.
Definition ref_not_starts_with (r : Reference) (d : Datum) : Predicate :=
  Binary PredicateOperator.NotStartsWith r d.
Definition ref_is_nan (r : Reference) : Predicate := Unary PredicateOperator.IsNan r.
Definition ref_is_not_nan (r : Reference) : Predicate := Unary PredicateOperator.NotNan r.
Definition ref_is_null (r : Reference) : Predicate := Unary PredicateOperator.IsNull r.
Definition ref_is_not_null (r : Reference) : Predicate := Unary PredicateOperator.NotNull r.
Definition ref_is_in {V : ValueLib} (r : Reference) (ds : list Datum) : Predicate :=
  SetP PredicateOperator.In r (set_from_iter ds).
Definition ref_is_not_in {V : ValueLib} (r : Reference) (ds : list Datum) : Predicate :=
  SetP PredicateOperator.NotIn r (set_from_iter ds).

(** ** Visitors (bound_predicate_visitor.rs and predicate_visitor.rs)

    [M] is the monad of the methods: [result] for a visitor that only reads its
    own fields, [SR S] for one that updates a field of type [S]. *)

Record Visitor (T : Type) (M : Type -> Type) (R : Type) := mkVisitor {
  always_true : M R;
  always_false : M R;
  and : R -> R -> M R;
  or : R -> R -> M R;
  not : R -> M R;
  is_null : T -> Pred T -> M R;
  not_null : T -> Pred T -> M R;
  is_nan : T -> Pred T -> M R;
  not_nan : T -> Pred T -> M R;
  less_than : T -> Datum -> Pred T -> M R;
  less_than_or_eq : T -> Datum -> Pred T -> M R;
  greater_than : T -> Datum -> Pred T -> M R;
  greater_than_or_eq : T -> Datum -> Pred T -> M R;
  eq : T -> Datum -> Pred T -> M R;
  not_eq : T -> Datum -> Pred T -> M R;
  starts_with : T -> Datum -> Pred T -> M R;
  not_starts_with : T -> Datum -> Pred T -> M R;
  in_ : T -> list Datum -> Pred T -> M R;
  not_in : T -> list Datum -> Pred T -> M R;
}.
Arguments always_true {T M R}. Arguments always_false {T M R}.
Arguments and {T M R}. Arguments or {T M R}. Arguments not {T M R}.
Arguments is_null {T M R}. Arguments not_null {T M R}.
Arguments is_nan {T M R}. Arguments not_nan {T M R}.
Arguments less_than {T M R}. Arguments less_than_or_eq {T M R}.
Arguments greater_than {T M R}. Arguments greater_than_or_eq {T M R}.
Arguments eq {T M R}. Arguments not_eq {T M R}.
Arguments starts_with {T M R}. Arguments not_starts_with {T M R}.
Arguments in_ {T M R}. Arguments not_in {T M R}.

Definition PredicateVisitor := Visitor Reference.
Definition BoundPredicateVisitor := Visitor BoundReference.

Section visit.
Context {T : Type} {M : Type -> Type} {BM : MBind M} {TM : MThrow failure M} {R : Type}.

(** The leaves of [visit]: a leaf with an operator of the wrong arity panics. *)
Definition visit_unary (v : Visitor T M R) (op : PredicateOperator.t) (t : T) (p : Pred T) : M R :=
  match op with
  | PredicateOperator.IsNull => is_null v t p
  | PredicateOperator.NotNull => not_null v t p
  | PredicateOperator.IsNan => is_nan v t p
  | PredicateOperator.NotNan => not_nan v t p
  | _ => mthrow Panic
  end.
Definition visit_binary (v : Visitor T M R) (op : PredicateOperator.t) (t : T) (d : Datum)
    (p : Pred T) : M R :=
  match op with
  | PredicateOperator.LessThan => less_than v t d p
  | PredicateOperator.LessThanOrEq => less_than_or_eq v t d p
  | PredicateOperator.GreaterThan => greater_than v t d p
  | PredicateOperator.GreaterThanOrEq => greater_than_or_eq v t d p
  | PredicateOperator.Eq => eq v t d p
  | PredicateOperator.NotEq => not_eq v t d p
  | PredicateOperator.StartsWith => starts_with v t d p
  | PredicateOperator.NotStartsWith => not_starts_with v t d p
  | _ => mthrow Panic
  end.
Definition visit_set (v : Visitor T M R) (op : PredicateOperator.t) (t : T) (ds : list Datum)
    (p : Pred T) : M R :=
  match op with
  | PredicateOperator.In => in_ v t ds p
  | PredicateOperator.NotIn => not_in v t ds p
  | _ => mthrow Panic
  end.

Fixpoint visit (v : Visitor T M R) (predicate : Pred T) : M R :=
  match predicate with
  | AlwaysTrue => always_true v
  | AlwaysFalse => always_false v
  | And left_pred right_pred =>
      visit v left_pred ≫= fun left_result =>
      visit v right_pred ≫= fun right_result =>
      and v left_result right_result
  | Or left_pred right_pred =>
      visit v left_pred ≫= fun left_result =>
      visit v right_pred ≫= fun right_result =>
      or v left_result right_result
  | Not inner_pred =>
      visit v inner_pred ≫= fun inner_result => not v inner_result
  | Unary op term => visit_unary v op term predicate
  | Binary op term literal => visit_binary v op term literal predicate
  | SetP op term literals => visit_set v op term literals predicate
  end.

End visit.

(** ** Removing negations (rewrite_not.rs)

    The two [impl]s of [RewriteNotVisitor] differ in the [and]/[or] they call. *)
Definition rewrite_visitor {T} (and_ or_ : Pred T -> Pred T -> Pred T) :
    Visitor T result (Pred T) :=
  {| always_true := Ok AlwaysTrue; always_false := Ok AlwaysFalse;
     and lhs rhs := Ok (and_ lhs rhs); or lhs rhs := Ok (or_ lhs rhs);
     not inner := Ok (negate inner);
     is_null _ p := Ok p; not_null _ p := Ok p; is_nan _ p := Ok p; not_nan _ p := Ok p;
     less_than _ _ p := Ok p; less_than_or_eq _ _ p := Ok p;
     greater_than _ _ p := Ok p; greater_than_or_eq _ _ p := Ok p;
     eq _ _ p := Ok p; not_eq _ _ p := Ok p;
     starts_with _ _ p := Ok p; not_starts_with _ _ p := Ok p;
     in_ _ _ p := Ok p; not_in _ _ p := Ok p |}.
Definition RewriteNotVisitor : PredicateVisitor result Predicate :=
  rewrite_visitor predicate_and predicate_or.
Definition RewriteNotVisitor_bound : BoundPredicateVisitor result BoundPredicate :=
  rewrite_visitor bound_and bound_or.

(** [Predicate::rewrite_not] and [BoundPredicate::rewrite_not]: an [Err] of the
    visitor would be a panic of [expect]. *)
Definition expect {A} (r : result A) : result A :=
  match r with Ok a => Ok a | Err _ => Err Panic end.
Definition rewrite_not (self : Predicate) : result Predicate :=
  expect (visit RewriteNotVisitor self).
Definition bound_rewrite_not (self : BoundPredicate) : result BoundPredicate :=
  expect (visit RewriteNotVisitor_bound self).

(** ** Binding to a schema ([Bind], predicate.rs and term.rs) *)

Section bind.
Context {V : ValueLib} {LC : Lowercase}.

Definition bind_reference (self : Reference) (schema : Schema) (case_sensitive : bool) :
    result BoundReference :=
  let field := if case_sensitive then field_by_name schema (ref_name self)
               else field_by_name_case_insensitive schema (ref_name self) in
  let? field := ok_or field DataInvalid in
  let? accessor := ok_or (accessor_by_field_id schema (field_id field)) DataInvalid in
  Ok (mkBoundReference (ref_name self) field accessor).

Definition bind_and (left right : BoundPredicate) : BoundPredicate :=
  match left, right with
  | _, AlwaysFalse => AlwaysFalse
  | AlwaysFalse, _ => AlwaysFalse
  | l, AlwaysTrue => l
  | AlwaysTrue, r => r
  | l, r => And l r
  end.
Definition bind_not (inner : BoundPredicate) : BoundPredicate :=
  match inner with
  | AlwaysTrue => AlwaysFalse
  | AlwaysFalse => AlwaysTrue
  | e => Not e
  end.
Definition bind_or (left right : BoundPredicate) : BoundPredicate :=
  match left, right with
  | _, AlwaysTrue | AlwaysTrue, _ => AlwaysTrue
  | l, AlwaysFalse => l
  | AlwaysFalse, r => r
  | l, r => Or l r
  end.

Definition bind_unary (op : PredicateOperator.t) (term : BoundReference) :
    result BoundPredicate :=
  match op with
  | PredicateOperator.IsNull =>
      Ok (if field_required (ref_field term) then AlwaysFalse else Unary op term)
  | PredicateOperator.NotNull =>
      Ok (if field_required (ref_field term) then AlwaysTrue else Unary op term)
  | PredicateOperator.IsNan | PredicateOperator.NotNan =>
      if is_floating_type (field_type (ref_field term)) then Ok (Unary op term)
      else Err (Error DataInvalid)
  | _ => Err (Error Unexpected)
  end.

Definition bind_binary (op : PredicateOperator.t) (term : BoundReference) (literal : Datum) :
    result BoundPredicate :=
  let? bound_literal := datum_to literal (field_type (ref_field term)) in
  match datum_literal bound_literal, op with
  | PrimitiveLiteral.AboveMax, PredicateOperator.LessThan
  | PrimitiveLiteral.AboveMax, PredicateOperator.LessThanOrEq
  | PrimitiveLiteral.AboveMax, PredicateOperator.NotEq => Ok AlwaysTrue
  | PrimitiveLiteral.AboveMax, PredicateOperator.GreaterThan
  | PrimitiveLiteral.AboveMax, PredicateOperator.GreaterThanOrEq
  | PrimitiveLiteral.AboveMax, PredicateOperator.Eq => Ok AlwaysFalse
  | PrimitiveLiteral.BelowMin, PredicateOperator.GreaterThan
  | PrimitiveLiteral.BelowMin, PredicateOperator.GreaterThanOrEq
  | PrimitiveLiteral.BelowMin, PredicateOperator.NotEq => Ok AlwaysTrue
  | PrimitiveLiteral.BelowMin, PredicateOperator.LessThan
  | PrimitiveLiteral.BelowMin, PredicateOperator.LessThanOrEq
  | PrimitiveLiteral.BelowMin, PredicateOperator.Eq => Ok AlwaysFalse
  | _, _ => Ok (Binary op term bound_literal)
  end.

Definition bind_set (op : PredicateOperator.t) (term : BoundReference) (literals : list Datum) :
    result BoundPredicate :=
  let? bound_literals := mapR (fun l => datum_to l (field_type (ref_field term))) literals in
  let bound_literals := set_from_iter bound_literals in
  match op with
  | PredicateOperator.In =>
      match bound_literals with
      | [] => Ok AlwaysFalse
      | [l] => Ok (Binary PredicateOperator.Eq term l)
      | _ => Ok (SetP op term bound_literals)
      end
  | PredicateOperator.NotIn =>
      match bound_literals with
      | [] => Ok AlwaysTrue
      | [l] => Ok (Binary PredicateOperator.NotEq term l)
      | _ => Ok (SetP op term bound_literals)
      end
  | _ => Err (Error Unexpected)
  end.

Fixpoint bind (self : Predicate) (schema : Schema) (case_sensitive : bool) :
    result BoundPredicate :=
  match self with
  | And l r =>
      let? left := bind l schema case_sensitive in
      let? right := bind r schema case_sensitive in
      Ok (bind_and left right)
  | Not e =>
      let? inner := bind e schema case_sensitive in
      Ok (bind_not inner)
  | Or l r =>
      let? left := bind l schema case_sensitive in
      let? right := bind r schema case_sensitive in
      Ok (bind_or left right)
  | Unary op term =>
      let? bound_term := bind_reference term schema case_sensitive in
      bind_unary op bound_term
  | Binary op term literal =>
      let? bound_term := bind_reference term schema case_sensitive in
      bind_binary op bound_term literal
  | SetP op term literals =>
      let? bound_term := bind_reference term schema case_sensitive in
      bind_set op bound_term literals
  | AlwaysTrue => Ok AlwaysTrue
  | AlwaysFalse => Ok AlwaysFalse
  end.

End bind.

(** ** Theory *)

(** Arity of the operators of the leaves, and absence of [Not]. *)
Fixpoint well_formed {T} (p : Pred T) : bool :=
  match p with
  | AlwaysTrue | AlwaysFalse => true
  | And l r | Or l r => well_formed l && well_formed r
  | Not p => well_formed p
  | Unary op _ => PredicateOperator.is_unary op
  | Binary op _ _ => PredicateOperator.is_binary op
  | SetP op _ _ => PredicateOperator.is_set op
  end.
Fixpoint not_free {T} (p : Pred T) : bool :=
  match p with
  | And l r | Or l r => not_free l && not_free r
  | Not _ => false
  | _ => true
  end.

(** [P] holds of every leaf. *)
Fixpoint leaves {T} (P : Pred T -> Prop) (p : Pred T) : Prop :=
  match p with
  | AlwaysTrue | AlwaysFalse => True
  | And l r | Or l r => leaves P l /\ leaves P r
  | Not p => leaves P p
  | p => P p
  end.

(** [P] holds of the term of every leaf. *)
Definition terms {T} (P : T -> Prop) : Pred T -> Prop :=
  leaves (fun q => match q with
                   | Unary _ t | Binary _ t _ | SetP _ t _ => P t
                   | _ => True
                   end).

Lemma leaves_impl {T} (P Q : Pred T -> Prop) p :
  (forall q, P q -> Q q) -> leaves P p -> leaves Q p.
Proof. intros H. induction p; cbn; naive_solver. Qed.
Lemma leaves_and {T} (P Q : Pred T -> Prop) p :
  leaves P p -> leaves Q p -> leaves (fun q => P q /\ Q q) p.
Proof. induction p; cbn; naive_solver. Qed.

(** A visitor that combines booleans; most refuse [Not]. *)
Record boolean_visitor {T} (v : Visitor T result bool) : Prop := {
  bv_true : always_true v = Ok true;
  bv_false : always_false v = Ok false;
  bv_and a b : and v a b = Ok (a && b);
  bv_or a b : or v a b = Ok (a || b);
}.
Definition refuses_not {T} (v : Visitor T result bool) : Prop :=
  forall a, exists e, not v a = Err e.

(** [x] is at most [y]: where [x] answers, so does [y], and it is true where [x] is. *)
Definition answers_le (x y : result bool) : Prop :=
  match x with
  | Ok b => exists b', y = Ok b' /\ (b = true -> b' = true)
  | Err _ => True
  end.

Lemma answers_le_true x y : answers_le x y -> x = Ok true -> y = Ok true.
Proof. intros H ->. destruct H as (b' & -> & H). by rewrite H. Qed.

(** If two boolean visitors are related on the leaves, they are on the predicate. *)
Lemma visit_sim {T} (v w : Visitor T result bool) p :
  boolean_visitor v -> refuses_not v -> boolean_visitor w ->
  leaves (fun q => answers_le (visit v q) (visit w q)) p ->
  answers_le (visit v p) (visit w p).
Proof.
  intros [Vt Vf Va Vo] Vn [Wt Wf Wa Wo].
  induction p as [| |l IHl r IHr|l IHl r IHr|p IH| | |]; try (intros H; exact H).
  - intros _. cbn. rewrite Vt, Wt. cbn. eauto.
  - intros _. cbn. rewrite Vf, Wf. cbn. eauto.
  - cbn [leaves visit]. intros [Hl%IHl Hr%IHr].
    destruct (visit v l) as [bl|], (visit v r) as [br|]; try done.
    destruct Hl as (bl' & -> & ?), Hr as (br' & -> & ?). cbn. rewrite Va, Wa.
    eexists; split; [done|]. rewrite !andb_true_iff. tauto.
  - cbn [leaves visit]. intros [Hl%IHl Hr%IHr].
    destruct (visit v l) as [bl|], (visit v r) as [br|]; try done.
    destruct Hl as (bl' & -> & ?), Hr as (br' & -> & ?). cbn. rewrite Vo, Wo.
    eexists; split; [done|]. rewrite !orb_true_iff. tauto.
  - intros _. cbn [visit]. destruct (visit v p) as [b|]; [|done]. cbn.
    destruct (Vn b) as [e ->]. done.
Qed.

Lemma negate_not_free {T} (p : Pred T) : not_free p = true -> not_free (negate p) = true.
Proof. induction p; cbn; rewrite ?andb_true_iff; try done; tauto. Qed.
Lemma negate_well_formed {T} (p : Pred T) : well_formed p = true -> well_formed (negate p) = true.
Proof.
  induction p as [| |l IHl r IHr|l IHl r IHr|p IH|op|op|op]; cbn;
    rewrite ?andb_true_iff; try done; try tauto;
    destruct (PredicateOperator.negate_kind op) as (E1 & E2 & E3); rewrite ?E1, ?E2, ?E3; done.
Qed.

Lemma negate_terms {T} (P : T -> Prop) p : terms P p -> terms P (negate p).
Proof. unfold terms. induction p; cbn; tauto. Qed.

(** On predicates without [Not], [negate] is an involution. *)
Lemma negate_involutive {T} (p : Pred T) : not_free p = true -> negate (negate p) = p.
Proof.
  induction p; cbn; rewrite ?andb_true_iff, ?PredicateOperator.op_negate_involutive; try done;
    intros [? ?]; f_equal; auto.
Qed.
