(* ===== verification/DataFile.v ===== *)
(** * Content files and manifests (spec/manifest/data_file.rs, spec/manifest_list.rs)

    The metadata records the evaluators read. *)

From S2P Require Import Prelude Values.

Inductive DataContentType := Data | PositionDeletes | EqualityDeletes.
#[global] Instance DataContentType_eq_dec : EqDecision DataContentType.
Proof. solve_decision. Defined.
Inductive DataFileFormat := Avro | Orc | Parquet | Puffin.

(** [key_metadata] and [split_offsets] are kept opaque to every modelled function. *)
Record DataFile := mkDataFile {
  content : DataContentType;
  file_path : string;
  file_format : DataFileFormat;
  partition : Struct;
  record_count : Z;
  file_size_in_bytes : Z;
  column_sizes : gmap Z Z;
  value_counts : gmap Z Z;
  null_value_counts : gmap Z Z;
  nan_value_counts : gmap Z Z;
  lower_bounds : gmap Z Datum;
  upper_bounds : gmap Z Datum;
  key_metadata : option (list Z);
  split_offsets : option (list Z);
  equality_ids : option (list Z);
  sort_order_id : option Z;
  first_row_id : option Z;
  partition_spec_id : Z;
  referenced_data_file : option string;
  content_offset : option Z;
  content_size_in_bytes : option Z;
}.

(** ** Manifest entries (spec/manifest/entry.rs) *)

Inductive ManifestStatus := Existing | Added | Deleted.
#[global] Instance ManifestStatus_eq_dec : EqDecision ManifestStatus.
Proof. solve_decision. Defined.

Record ManifestEntry := mkManifestEntry {
  status : ManifestStatus;
  entry_snapshot_id : option Z;
  entry_sequence_number : option Z;
  file_sequence_number : option Z;
  data_file : DataFile;
}.

Definition is_alive (self : ManifestEntry) : bool :=
  match status self with Added | Existing => true | Deleted => false end.
Definition content_type (self : ManifestEntry) : DataContentType := content (data_file self).

(** ** Manifests

    A bound of a summary is its serialised bytes. *)
Record FieldSummary := mkFieldSummary {
  contains_null : bool;
  contains_nan : option bool;
  lower_bound : option (list Z);
  upper_bound : option (list Z);
}.

Inductive ManifestContentType := MData | MDeletes.

Record ManifestFile := mkManifestFile {
  manifest_path : string;
  manifest_length : Z;
  manifest_partition_spec_id : Z;
  manifest_content : ManifestContentType;
  sequence_number : Z;
  min_sequence_number : Z;
  added_snapshot_id : Z;
  added_files_count : option Z;
  existing_files_count : option Z;
  deleted_files_count : option Z;
  added_rows_count : option Z;
  existing_rows_count : option Z;
  deleted_rows_count : option Z;
  partitions : option (list FieldSummary);
  manifest_key_metadata : option (list Z);
  manifest_first_row_id : option Z;
}.

Definition count_positive (c : option Z) : bool :=
  match c with Some c => 0 <? c | None => true end.
Definition has_added_files (m : ManifestFile) : bool := count_positive (added_files_count m).
Definition has_deleted_files (m : ManifestFile) : bool := count_positive (deleted_files_count m).
Definition has_existing_files (m : ManifestFile) : bool :=
  count_positive (existing_files_count m).

Definition INITIAL_SEQUENCE_NUMBER : Z := 0.

(** [ManifestEntry::inherit_data], which every entry of a manifest goes through when the
    manifest is loaded. *)
Definition inherit_data (self : ManifestEntry) (snapshot_entry : ManifestFile) : ManifestEntry :=
  let inherited (n : option Z) :=
    match n with
    | None =>
        if bool_decide (status self = Added)
           || (sequence_number snapshot_entry =? INITIAL_SEQUENCE_NUMBER)
        then Some (sequence_number snapshot_entry) else None
    | n => n
    end in
  mkManifestEntry (status self)
    (match entry_snapshot_id self with
     | None => Some (added_snapshot_id snapshot_entry)
     | n => n
     end)
    (inherited (entry_sequence_number self)) (inherited (file_sequence_number self))
    (data_file self).
