(* ===== verification/ExprEval.v ===== *)
(** * Evaluating a predicate on a row (expr/visitors/expression_evaluator.rs)

    The evaluator that the scan applies to partition tuples.  Its result is
    compared with a three-valued reference semantics of predicates, which also
    shows what [rewrite_not] preserves; it is the meaning of "row matches" in the
    soundness theorems of the metrics evaluators and projections. *)

From S2P Require Import Prelude Utf8 Values Expr DataFile.

Section eval.
Context {V : ValueLib}.

Definition not_in_predicate {A} : result A := Err (Error Unexpected).

(** Read the column, then answer: [none] on null. *)
Definition on_value (t : BoundReference) (partition : Struct) (some : Datum -> bool)
    (none : bool) : result bool :=
  let? v := accessor_get (ref_accessor t) partition in
  match v with
  | Some datum => Ok (some datum)
  | None => Ok none
  end.

Definition literal_starts_with (datum literal : Datum) : bool :=
  match datum_literal datum, datum_literal literal with
  | PrimitiveLiteral.String d, PrimitiveLiteral.String l => Utf8.starts_with d l
  | _, _ => false
  end.

Definition ExpressionEvaluatorVisitor (partition : Struct) :
    BoundPredicateVisitor result bool :=
  {| always_true := Ok true;
     always_false := Ok false;
     and lhs rhs := Ok (lhs && rhs);
     or lhs rhs := Ok (lhs || rhs);
     not _ := Err (Error Unexpected);
     is_null t _ := on_value t partition (fun _ => false) true;
     not_null t _ := on_value t partition (fun _ => true) false;
     is_nan t _ := on_value t partition (fun datum => Values.is_nan datum) false;
     not_nan t _ := on_value t partition (fun datum => negb (Values.is_nan datum)) true;
     less_than t literal _ := on_value t partition (fun datum => datum_lt datum literal) false;
     less_than_or_eq t literal _ :=
       on_value t partition (fun datum => datum_le datum literal) false;
     greater_than t literal _ :=
       on_value t partition (fun datum => datum_gt datum literal) false;
     greater_than_or_eq t literal _ :=
       on_value t partition (fun datum => datum_ge datum literal) false;
     eq t literal _ := on_value t partition (fun datum => datum_eqb datum literal) false;
     not_eq t literal _ :=
       on_value t partition (fun datum => negb (datum_eqb datum literal)) true;
     starts_with t literal _ :=
       on_value t partition (fun datum => literal_starts_with datum literal) false;
     not_starts_with t literal _ :=
       negb <$> on_value t partition (fun datum => literal_starts_with datum literal) false;
     in_ t literals _ := on_value t partition (fun datum => set_contains literals datum) false;
     not_in t literals _ :=
       on_value t partition (fun datum => negb (set_contains literals datum)) true |}.

(** The evaluator on one row. *)
Definition eval_row (filter : BoundPredicate) (row : Struct) : result bool :=
  visit (ExpressionEvaluatorVisitor row) filter.

Record ExpressionEvaluator := mkExpressionEvaluator { partition_filter : BoundPredicate }.
Definition expression_eval (self : ExpressionEvaluator) (data_file : DataFile) : result bool :=
  eval_row (partition_filter self) (partition data_file).

(** ** Reference semantics

    Kleene's three values: [None] is "unknown", the value of an order comparison
    with null or with a value of another type.  The other operators are
    two-valued: null is not equal to anything and is in no set. *)
Definition kleene_not (a : option bool) : option bool := negb <$> a.
Definition kleene_and (a b : option bool) : option bool :=
  match a, b with
  | Some false, _ | _, Some false => Some false
  | Some true, b => b
  | None, _ => None
  end.
Definition kleene_or (a b : option bool) : option bool :=
  match a, b with
  | Some true, _ | _, Some true => Some true
  | Some false, b => b
  | None, _ => None
  end.

Definition compare3 (test : comparison -> bool) (v : option Datum) (literal : Datum) :
    option bool :=
  match v with
  | Some datum => test <$> partial_cmp datum literal
  | None => None
  end.

Definition holds_unary (op : PredicateOperator.t) (v : option Datum) : option bool :=
  match op with
  | PredicateOperator.IsNull => Some (negb (bool_decide (is_Some v)))
  | PredicateOperator.NotNull => Some (bool_decide (is_Some v))
  | PredicateOperator.IsNan => Some (match v with Some d => Values.is_nan d | None => false end)
  | PredicateOperator.NotNan =>
      Some (match v with Some d => negb (Values.is_nan d) | None => true end)
  | _ => None
  end.

Definition holds_binary (op : PredicateOperator.t) (v : option Datum) (d : Datum) :
    option bool :=
  match op with
  | PredicateOperator.LessThan =>
      compare3 (fun c => match c with Lt => true | _ => false end) v d
  | PredicateOperator.LessThanOrEq =>
      compare3 (fun c => match c with Gt => false | _ => true end) v d
  | PredicateOperator.GreaterThan =>
      compare3 (fun c => match c with Gt => true | _ => false end) v d
  | PredicateOperator.GreaterThanOrEq =>
      compare3 (fun c => match c with Lt => false | _ => true end) v d
  | PredicateOperator.Eq =>
      Some (match v with Some x => datum_eqb x d | None => false end)
  | PredicateOperator.NotEq =>
      Some (match v with Some x => negb (datum_eqb x d) | None => true end)
  | PredicateOperator.StartsWith =>
      Some (match v with Some x => literal_starts_with x d | None => false end)
  | PredicateOperator.NotStartsWith =>
      Some (match v with Some x => negb (literal_starts_with x d) | None => true end)
  | _ => None
  end.

Definition holds_set (op : PredicateOperator.t) (v : option Datum) (ds : list Datum) :
    option bool :=
  match op with
  | PredicateOperator.In =>
      Some (match v with Some x => set_contains ds x | None => false end)
  | PredicateOperator.NotIn =>
      Some (match v with Some x => negb (set_contains ds x) | None => true end)
  | _ => None
  end.

(** The truth value of a predicate, given the value of each term. *)
Fixpoint denote {T} (value : T -> option Datum) (p : Pred T) : option bool :=
  match p with
  | AlwaysTrue => Some true
  | AlwaysFalse => Some false
  | And l r => kleene_and (denote value l) (denote value r)
  | Or l r => kleene_or (denote value l) (denote value r)
  | Not p => kleene_not (denote value p)
  | Unary op t => holds_unary op (value t)
  | Binary op t d => holds_binary op (value t) d
  | SetP op t ds => holds_set op (value t) ds
  end.

Definition is_true3 (v : option bool) : bool := match v with Some b => b | None => false end.

(** [value] gives what the accessors of the predicate's terms read in [row]. *)
Definition reads (row : Struct) (value : BoundReference -> option Datum) :
    BoundPredicate -> Prop :=
  terms (fun t => accessor_get (ref_accessor t) row = Ok (value t)).

(** ** Theory *)

Lemma kleene_and_true a b : is_true3 (kleene_and a b) = is_true3 a && is_true3 b.
Proof. by destruct a as [[]|], b as [[]|]. Qed.
Lemma kleene_or_true a b : is_true3 (kleene_or a b) = is_true3 a || is_true3 b.
Proof. by destruct a as [[]|], b as [[]|]. Qed.

Lemma expression_boolean_visitor row : boolean_visitor (ExpressionEvaluatorVisitor row).
Proof. split; done. Qed.
Lemma expression_refuses_not row : refuses_not (ExpressionEvaluatorVisitor row).
Proof. intros b. by eexists. Qed.

(** On predicates without [Not], the evaluator decides whether the denotation is true. *)
Lemma eval_row_denote row value p :
  well_formed p = true -> not_free p = true -> reads row value p ->
  eval_row p row = Ok (is_true3 (denote value p)).
Proof.
  unfold eval_row, reads, terms.
  induction p as [| |l IHl r IHr|l IHl r IHr|p IH|op t|op t d|op t ds];
    cbn [well_formed not_free leaves]; rewrite ?andb_true_iff; try done.
  - intros [? ?] [? ?] [? ?]. cbn. rewrite IHl, IHr by done. cbn. by rewrite kleene_and_true.
  - intros [? ?] [? ?] [? ?]. cbn. rewrite IHl, IHr by done. cbn. by rewrite kleene_or_true.
  - intros Hop _ Hr. cbn in Hr. destruct op; try discriminate Hop;
      cbn; unfold on_value; rewrite Hr; cbn; by destruct (value t).
  - intros Hop _ Hr. cbn in Hr. destruct op; try discriminate Hop;
      cbn; unfold on_value; rewrite Hr; cbn; destruct (value t) as [x|]; cbn; try done;
      unfold datum_lt, datum_le, datum_gt, datum_ge; by destruct (partial_cmp x d) as [[]|].
  - intros Hop _ Hr. cbn in Hr. destruct op; try discriminate Hop;
      cbn; unfold on_value; rewrite Hr; cbn; by destruct (value t).
Qed.

Lemma negate_denote {T} (value : T -> option Datum) p :
  well_formed p = true -> not_free p = true ->
  denote value (negate p) = kleene_not (denote value p).
Proof.
  induction p as [| |l IHl r IHr|l IHl r IHr|p IH|op t|op t d|op t ds];
    cbn [well_formed not_free negate denote]; rewrite ?andb_true_iff; try done.
  - intros [? ?] [? ?]. rewrite IHl, IHr by done.
    by destruct (denote value l) as [[]|], (denote value r) as [[]|].
  - intros [? ?] [? ?]. rewrite IHl, IHr by done.
    by destruct (denote value l) as [[]|], (denote value r) as [[]|].
  - intros Hop _. destruct op; try discriminate Hop; cbn; destruct (value t) as [x|]; cbn;
      try done; by destruct (Values.is_nan x).
  - intros Hop _. destruct op; try discriminate Hop; cbn; destruct (value t) as [x|]; cbn;
      try done; try (by destruct (partial_cmp x d) as [[]|]);
      rewrite ?negb_involutive; done.
  - intros Hop _. destruct op; try discriminate Hop; cbn; destruct (value t) as [x|]; cbn;
      rewrite ?negb_involutive; done.
Qed.

Lemma kleene_and_id a :
  kleene_and (Some true) a = a /\ kleene_and a (Some true) = a
  /\ kleene_and (Some false) a = Some false /\ kleene_and a (Some false) = Some false.
Proof. by destruct a as [[]|]. Qed.
Lemma kleene_or_id a :
  kleene_or (Some false) a = a /\ kleene_or a (Some false) = a
  /\ kleene_or (Some true) a = Some true /\ kleene_or a (Some true) = Some true.
Proof. by destruct a as [[]|]. Qed.

Lemma predicate_and_denote (value : Reference -> option Datum) p q :
  denote value (predicate_and p q) = kleene_and (denote value p) (denote value q).
Proof.
  destruct p, q; cbn [predicate_and]; cbn [denote]; symmetry; try apply kleene_and_id; done.
Qed.
Lemma predicate_or_denote (value : Reference -> option Datum) p q :
  denote value (predicate_or p q) = kleene_or (denote value p) (denote value q).
Proof.
  destruct p, q; cbn [predicate_or]; cbn [denote]; symmetry; try apply kleene_or_id; done.
Qed.

(** What a rewritten predicate is: well formed, without [Not], on the same terms and with
    the same meaning. *)
Record rewritten {T} (p q : Pred T) : Prop := {
  rw_well_formed : well_formed q = true;
  rw_not_free : not_free q = true;
  rw_denote value : denote value q = denote value p;
  rw_terms P : terms P p -> terms P q;
}.

(** The rewriting of both [impl]s, for any [and]/[or] that keep these properties. *)
Lemma rewrite_visitor_spec {T} (and_ or_ : Pred T -> Pred T -> Pred T) p :
  (forall l r l' r', rewritten l l' -> rewritten r r' ->
     rewritten (And l r) (and_ l' r') /\ rewritten (Or l r) (or_ l' r')) ->
  well_formed p = true ->
  exists q, visit (rewrite_visitor and_ or_) p = Ok q /\ rewritten p q.
Proof.
  intros Hc. induction p as [| |l IHl r IHr|l IHl r IHr|p IH|op t|op t d|op t ds];
    cbn [well_formed]; rewrite ?andb_true_iff; intros Hp.
  - by exists AlwaysTrue.
  - by exists AlwaysFalse.
  - destruct IHl as (l' & El & Hl), IHr as (r' & Er & Hr); try tauto.
    exists (and_ l' r'). cbn. rewrite El, Er. split; [done|]. by apply (Hc l r l' r').
  - destruct IHl as (l' & El & Hl), IHr as (r' & Er & Hr); try tauto.
    exists (or_ l' r'). cbn. rewrite El, Er. split; [done|]. by apply (Hc l r l' r').
  - destruct IH as (q & E & [? ? ? ?]); [done|]. exists (negate q). cbn. rewrite E.
    split; [done|]. split; [by apply negate_well_formed|by apply negate_not_free| |].
    + intros v. rewrite negate_denote by done. by rewrite rw_denote0.
    + intros P HP. by apply negate_terms, rw_terms0.
  - exists (Unary op t). split; [by destruct op|]. split; done.
  - exists (Binary op t d). split; [by destruct op|]. split; done.
  - exists (SetP op t ds). split; [by destruct op|]. split; done.
Qed.

Lemma bound_rewrite_spec p :
  well_formed p = true -> exists q, bound_rewrite_not p = Ok q /\ rewritten p q.
Proof.
  intros Hp. destruct (rewrite_visitor_spec bound_and bound_or p) as (q & E & H); try done.
  - intros l r l' r' [? ? Dl Tl] [? ? Dr Tr]. split; split; cbn; try (by apply andb_true_iff);
      try (intros v; by rewrite Dl, Dr); intros P [? ?]; split; [by apply Tl|by apply Tr|..];
      [by apply Tl|by apply Tr].
  - exists q. split; [|done]. unfold bound_rewrite_not, RewriteNotVisitor_bound. by rewrite E.
Qed.

Lemma predicate_and_or_closed (P : Predicate -> Prop) p q :
  P AlwaysTrue -> P AlwaysFalse -> P p -> P q -> P (And p q) -> P (Or p q) ->
  P (predicate_and p q) /\ P (predicate_or p q).
Proof. destruct p, q; cbn; tauto. Qed.

Lemma rewrite_spec p :
  well_formed p = true -> exists q, rewrite_not p = Ok q /\ rewritten p q.
Proof.
  intros Hp. destruct (rewrite_visitor_spec predicate_and predicate_or p) as (q & E & H); try done.
  - intros l r l' r' [? ? Dl Tl] [? ? Dr Tr].
    destruct (predicate_and_or_closed (fun p => well_formed p = true) l' r'); cbn;
      rewrite ?andb_true_iff; try done.
    destruct (predicate_and_or_closed (fun p => not_free p = true) l' r'); cbn;
      rewrite ?andb_true_iff; try done.
    assert (forall P, terms P l -> terms P r ->
              terms P (predicate_and l' r') /\ terms P (predicate_or l' r')) as HT.
    { intros P Hl%Tl Hr%Tr. by apply predicate_and_or_closed. }
    split; split; try done.
    + intros v. by rewrite predicate_and_denote, Dl, Dr.
    + intros P [? ?]. by apply HT.
    + intros v. by rewrite predicate_or_denote, Dl, Dr.
    + intros P [? ?]. by apply HT.
  - exists q. split; [|done]. unfold rewrite_not, RewriteNotVisitor. by rewrite E.
Qed.

End eval.
