(* ===== verification/Binding.v ===== *)
(** * Properties of rewriting and binding predicates

    What [rewrite_not] and [bind] (Expr.v) do to the meaning of a predicate (the
    reference semantics of ExprEval.v), the types of bound literals, and how a
    comparison with an integer literal outside the column's range is folded. *)

From S2P Require Import Prelude Utf8 Numerals Values Schema Concrete Expr ExprEval.

(** ** Rewriting *)

(** C28 [Predicate::rewrite_not] never fails on a predicate whose leaves have operators of
    the right arity; its result has no [Not] and the same truth value for all values of the
    terms, unknown included. *)
Theorem rewrite_not_meaning {V : ValueLib} p :
  well_formed p = true ->
  exists q, rewrite_not p = Ok q /\ not_free q = true
    /\ forall value, denote value q = denote value p.
Proof. intros (q & E & [? ? ? ?])%rewrite_spec. eauto. Qed.

(** Evaluating a rewritten bound predicate on a row never fails when the row can be
    read, and answers true exactly when the predicate's three-valued meaning is true. *)
Theorem rewritten_filter_evaluates {V : ValueLib} p row value :
  well_formed p = true -> reads row value p ->
  exists q, bound_rewrite_not p = Ok q
    /\ eval_row q row = Ok (is_true3 (denote value p)).
Proof.
  intros (q & E & [Hw Hn Hd Ht])%bound_rewrite_spec Hr. exists q. split; [done|].
  rewrite <- Hd. apply eval_row_denote; [done..|]. by apply Ht.
Qed.

(** ** Binding: connectives *)

Section bind.
Context {V : ValueLib} {LC : Lowercase}.

(** Binding without the simplification of constants. *)
Fixpoint bind_plain (self : Predicate) (schema : Schema) (case_sensitive : bool) :
    result BoundPredicate :=
  match self with
  | And l r =>
      let? left := bind_plain l schema case_sensitive in
      let? right := bind_plain r schema case_sensitive in
      Ok (And left right)
  | Not e => let? inner := bind_plain e schema case_sensitive in Ok (Not inner)
  | Or l r =>
      let? left := bind_plain l schema case_sensitive in
      let? right := bind_plain r schema case_sensitive in
      Ok (Or left right)
  | p => bind p schema case_sensitive
  end.

Lemma bind_and_denote (value : BoundReference -> option Datum) l r :
  denote value (bind_and l r) = kleene_and (denote value l) (denote value r).
Proof.
  destruct l, r; cbn [bind_and]; cbn [denote]; symmetry; try apply kleene_and_id; done.
Qed.
Lemma bind_or_denote (value : BoundReference -> option Datum) l r :
  denote value (bind_or l r) = kleene_or (denote value l) (denote value r).
Proof.
  destruct l, r; cbn [bind_or]; cbn [denote]; symmetry; try apply kleene_or_id; done.
Qed.
Lemma bind_not_denote (value : BoundReference -> option Datum) p :
  denote value (bind_not p) = kleene_not (denote value p).
Proof. by destruct p. Qed.

(** Binding succeeds or fails as binding every leaf does, and the constants it folds
    under [And], [Or] and [Not] do not change the meaning of the predicate. *)
Theorem bind_folds_constants p schema case_sensitive :
  match bind p schema case_sensitive, bind_plain p schema case_sensitive with
  | Ok b, Ok b0 => forall value, denote value b = denote value b0
  | Err e, Err e0 => e = e0
  | _, _ => False
  end.
Proof.
  induction p as [| |l IHl r IHr|l IHl r IHr|p IH|op t|op t d|op t ds]; cbn [bind bind_plain];
    try done.
  - destruct (bind l _ _) as [bl|], (bind_plain l _ _) as [cl|]; try done. cbn.
    destruct (bind r _ _) as [br|], (bind_plain r _ _) as [cr|]; try done. cbn.
    intros value. by rewrite bind_and_denote, IHl, IHr.
  - destruct (bind l _ _) as [bl|], (bind_plain l _ _) as [cl|]; try done. cbn.
    destruct (bind r _ _) as [br|], (bind_plain r _ _) as [cr|]; try done. cbn.
    intros value. by rewrite bind_or_denote, IHl, IHr.
  - destruct (bind p _ _) as [b|], (bind_plain p _ _) as [c|]; try done. cbn.
    intros value. by rewrite bind_not_denote, IH.
  - by destruct (let? bound_term := _ in _).
  - by destruct (let? bound_term := _ in _).
  - by destruct (let? bound_term := _ in _).
Qed.

(** ** Binding: types *)

Lemma datum_to_type d ty d' : datum_to d ty = Ok d' -> TPrimitive (datum_type d') = ty.
Proof.
  unfold datum_to. destruct ty as [p| | |]; try done.
  assert (forall a, ((if bool_decide (datum_type d = p) then Ok d else Err (Error DataInvalid))
            = Ok a) -> datum_type a = p) as Hsame.
  { intros a. case_bool_decide; [|done]. by intros [= <-]. }
  assert (forall z, datum_type (i64_to_i32 z) = PrimitiveType.Int) as H1
    by (intros; unfold i64_to_i32; by repeat case_match).
  assert (forall z, datum_type (i128_to_i32 z) = PrimitiveType.Int) as H2
    by (intros; unfold i128_to_i32; by repeat case_match).
  assert (forall z, datum_type (i128_to_i64 z) = PrimitiveType.Long) as H3
    by (intros; unfold i128_to_i64; by repeat case_match).
  assert (forall s b, bool_from_str s = Ok b -> datum_type b = PrimitiveType.Boolean) as H4.
  { intros s b. unfold bool_from_str. repeat case_bool_decide; by intros [= <-]. }
  intros H. f_equal. destruct (datum_literal d), p; try (by apply Hsame); inv_ok;
    try match goal with E : _ = d' |- _ => rewrite <- E end; eauto.
Qed.

(** The term and the literals of a leaf of a bound predicate fit the schema. *)
Definition leaf_typed (schema : Schema) (q : BoundPredicate) : Prop :=
  let known t := exists f, field_by_id schema (field_id f) = Some f /\ ref_field t = f
    /\ accessor_by_field_id schema (field_id f) = Some (ref_accessor t) in
  let typed t d := field_type (ref_field t) = TPrimitive (datum_type d) in
  match q with
  | Unary op t => known t
  | Binary op t d => known t /\ typed t d
  | SetP op t ds => known t /\ Forall (typed t) ds
  | _ => True
  end.

Lemma set_insert_Forall (P : Datum -> Prop) s d : Forall P s -> P d -> Forall P (set_insert s d).
Proof.
  unfold set_insert. intros ? ?. destruct (set_contains s d); [done|]. by apply Forall_app_2; auto.
Qed.
Lemma set_from_iter_Forall (P : Datum -> Prop) ds : Forall P ds -> Forall P (set_from_iter ds).
Proof.
  unfold set_from_iter. assert (Forall P []) as H0 by constructor. revert H0.
  generalize ([] : list Datum). intros s Hs Hd. revert s Hs.
  induction Hd as [|d ds Hd _ IH]; intros s Hs; cbn; [done|]. apply IH. by apply set_insert_Forall.
Qed.

Lemma bind_reference_known schema r cs t :
  ids_consistent schema -> bind_reference r schema cs = Ok t -> leaf_typed schema (Unary PredicateOperator.IsNull t).
Proof.
  unfold bind_reference. intros Hc (f & Hf & H)%bind_Ok. apply bind_Ok in H as (a & Ha & [= <-]).
  cbn. exists f.
  assert (field_by_id schema (field_id f) = Some f) as Hid.
  { destruct cs; unfold field_by_name, field_by_name_case_insensitive in Hf;
      destruct (_ !! _) as [id|]; try discriminate Hf; cbn in Hf;
      destruct (field_by_id schema id) as [g|] eqn:E; try discriminate Hf; injection Hf as ->;
      by rewrite (Hc _ _ E). }
  split; [done|]. split; [done|].
  destruct (accessor_by_field_id schema (field_id f)); cbn in Ha; congruence.
Qed.

Lemma bind_leaf_typed schema p cs b :
  ids_consistent schema -> (match p with Unary _ _ | Binary _ _ _ | SetP _ _ _ => True | _ => False end) ->
  bind p schema cs = Ok b -> leaves (leaf_typed schema) b.
Proof.
  intros Hc Hp. destruct p as [| | | | |op t|op t d|op t ds]; try done; cbn [bind];
    intros (bt & Ht%bind_reference_known & H)%bind_Ok; try done; cbn in Ht.
  - unfold bind_unary in H.
    destruct op, (field_required (ref_field bt)), (is_floating_type (field_type (ref_field bt)));
      inv_ok; done.
  - unfold bind_binary in H. apply bind_Ok in H as (d' & Hd%datum_to_type & H).
    destruct (datum_literal d'), op; inv_ok; done.
  - unfold bind_set in H. apply bind_Ok in H as (ds' & Hds%mapR_Ok & H).
    assert (Forall (fun d => field_type (ref_field bt) = TPrimitive (datum_type d)) ds') as Hty.
    { apply Forall_forall. intros d' (i & Hi)%list_elem_of_lookup.
      destruct (Forall2_lookup_r _ _ _ _ _ Hds Hi) as (d & _ & E%datum_to_type). done. }
    apply set_from_iter_Forall in Hty.
    destruct op; try done;
      destruct (set_from_iter ds') as [|x [|y rest]] eqn:E; inv_ok; cbn; try done;
      split; try done; by inversion Hty.
Qed.

Lemma bind_connectives_leaves P l r :
  leaves P l -> leaves P r ->
  leaves P (bind_and l r) /\ leaves P (bind_or l r) /\ leaves P (bind_not l).
Proof. intros Hl Hr. destruct l, r; cbn in *; tauto. Qed.

(** The leaves of a bound predicate fit the schema. *)
Lemma bind_leaves_typed p schema cs b :
  ids_consistent schema -> bind p schema cs = Ok b -> leaves (leaf_typed schema) b.
Proof.
  intros Hc. revert b.
  induction p as [| |l IHl r IHr|l IHl r IHr|p IH|op t|op t d|op t ds]; intros b;
    try (by apply bind_leaf_typed); cbn [bind].
  - by intros [= <-].
  - by intros [= <-].
  - intros (bl & ?%IHl & H)%bind_Ok. apply bind_Ok in H as (br & ?%IHr & [= <-]).
    by apply bind_connectives_leaves.
  - intros (bl & ?%IHl & H)%bind_Ok. apply bind_Ok in H as (br & ?%IHr & [= <-]).
    by apply bind_connectives_leaves.
  - intros (b' & ?%IH & [= <-])%bind_Ok.
    by apply (bind_connectives_leaves _ b' AlwaysTrue).
Qed.

(** C38 Every leaf of a bound predicate refers to a field of the schema by that field's
    accessor, and each of its literals has the field's type. *)
Theorem bind_typed p schema cs b :
  ids_consistent schema -> bind p schema cs = Ok b -> leaves (leaf_typed schema) b.
Proof. apply bind_leaves_typed. Qed.

(** ** Binding: integer comparisons *)

(** The comparison a binary operator stands for. *)
Definition int_test (op : PredicateOperator.t) (v n : Z) : option bool :=
  match op with
  | PredicateOperator.LessThan => Some (v <? n)
  | PredicateOperator.LessThanOrEq => Some (v <=? n)
  | PredicateOperator.GreaterThan => Some (n <? v)
  | PredicateOperator.GreaterThanOrEq => Some (n <=? v)
  | PredicateOperator.Eq => Some (v =? n)
  | PredicateOperator.NotEq => Some (negb (v =? n))
  | _ => None
  end.

(** The integer that a literal denotes for an [int] or [long] column. *)
Definition literal_integer (d : Datum) : option Z :=
  match datum_type d, datum_literal d with
  | PrimitiveType.Int, PrimitiveLiteral.Int n => Some n
  | PrimitiveType.Long, PrimitiveLiteral.Long n => Some n
  | PrimitiveType.String, PrimitiveLiteral.String s => parse_signed 128 s
  | _, _ => None
  end.

(** A value of an [int] or [long] column. *)
Definition int_datum (wide : bool) (v : Z) : Datum := if wide then datum_long v else datum_int v.
Definition int_in_range (wide : bool) (v : Z) : bool := if wide then inS 64 v else inS 32 v.
(** What an integer literal becomes. *)
Definition int_bound_literal (wide : bool) (n : Z) : Datum :=
  let ty := datum_type (int_datum wide 0) in
  if int_in_range wide n then int_datum wide n
  else mkDatum ty (if 0 <? n then PrimitiveLiteral.AboveMax else PrimitiveLiteral.BelowMin).

(** Comparing with the extremes of a width is comparing with its range. *)
Lemma inS_cases w n :
  0 < w ->
  (if 2 ^ (w - 1) - 1 <? n then inS w n = false /\ (0 <? n) = true
   else if n <? - 2 ^ (w - 1) then inS w n = false /\ (0 <? n) = false
   else inS w n = true).
Proof.
  intros Hw. assert (0 < 2 ^ (w - 1)) by (apply Z.pow_pos_nonneg; lia). unfold inS.
  destruct (Z.ltb_spec (2 ^ (w - 1) - 1) n); [lia|]. destruct (Z.ltb_spec n (- 2 ^ (w - 1))); lia.
Qed.

Lemma i64_to_i32_bound n : i64_to_i32 n = int_bound_literal false n.
Proof.
  unfold i64_to_i32, int_bound_literal, int_in_range. pose proof (inS_cases 32 n eq_refl) as H.
  change (2 ^ (32 - 1) - 1) with INT_MAX in H. change (- 2 ^ (32 - 1)) with INT_MIN in H.
  destruct (INT_MAX <? n); [by destruct H as [-> ->]|].
  destruct (n <? INT_MIN); [by destruct H as [-> ->]|]. rewrite H. by rewrite wrapS_id.
Qed.
Lemma i128_to_i32_bound n : i128_to_i32 n = int_bound_literal false n.
Proof. apply i64_to_i32_bound. Qed.
Lemma i128_to_i64_bound n : i128_to_i64 n = int_bound_literal true n.
Proof.
  unfold i128_to_i64, int_bound_literal, int_in_range. pose proof (inS_cases 64 n eq_refl) as H.
  change (2 ^ (64 - 1) - 1) with LONG_MAX in H. change (- 2 ^ (64 - 1)) with LONG_MIN in H.
  destruct (LONG_MAX <? n); [by destruct H as [-> ->]|].
  destruct (n <? LONG_MIN); [by destruct H as [-> ->]|]. rewrite H. by rewrite wrapS_id.
Qed.

Lemma int_literal_to wide d n :
  literal_integer d = Some n ->
  (match datum_type d with
   | PrimitiveType.Int => inS 32 n | PrimitiveType.Long => inS 64 n | _ => true end) = true ->
  datum_to d (TPrimitive (datum_type (int_datum wide 0))) = Ok (int_bound_literal wide n).
Proof.
  destruct d as [ty l]. unfold literal_integer, datum_to. cbn [datum_type datum_literal].
  intros H Hr. assert (inS 32 n = true -> inS 64 n = true) as H64.
  { rewrite !inS_spec. change (2 ^ (32 - 1)) with 2147483648.
    change (2 ^ (64 - 1)) with 9223372036854775808. lia. }
  destruct ty, l; try discriminate H; destruct wide; cbn [int_datum datum_type datum_long datum_int].
  - injection H as ->. unfold int_bound_literal, int_in_range. by rewrite H64.
  - injection H as ->. unfold int_bound_literal, int_in_range. by rewrite Hr.
  - injection H as ->. unfold int_bound_literal, int_in_range. rewrite Hr.
    by rewrite bool_decide_eq_true_2.
  - injection H as ->. by rewrite i64_to_i32_bound.
  - unfold string_to_i128. rewrite H. cbn. by rewrite i128_to_i64_bound.
  - unfold string_to_i128. rewrite H. cbn. by rewrite i128_to_i32_bound.
Qed.

Lemma int_compare wide v n : partial_cmp (int_datum wide v) (int_datum wide n) = Some (v ?= n).
Proof. by destruct wide. Qed.
Lemma int_equal wide v n : datum_eqb (int_datum wide v) (int_datum wide n) = (v =? n).
Proof. destruct wide; unfold datum_eqb; cbn; by rewrite bool_decide_eq_true_2. Qed.

Lemma int_eval wide op t v n row ans :
  int_test op v n = Some ans ->
  accessor_get (ref_accessor t) row = Ok (Some (int_datum wide v)) ->
  eval_row (Binary op t (int_datum wide n)) row = Ok ans.
Proof.
  intros Hop Hrow. unfold eval_row. destruct op; try discriminate Hop;
    cbn [visit visit_binary less_than less_than_or_eq greater_than greater_than_or_eq eq not_eq
         ExpressionEvaluatorVisitor]; unfold on_value; rewrite Hrow; cbn [mbind result_bind];
    unfold datum_lt, datum_le, datum_gt, datum_ge; rewrite ?int_compare, ?int_equal;
    injection Hop as <-; f_equal; unfold is_lt, is_le, is_gt, is_ge; try done;
    destruct (Z.compare_spec v n); lia.
Qed.

(** Binding a comparison of an [int] or [long] column with an integer literal (of either
    width, or a decimal numeral in a string) succeeds, and on a non-null value the bound
    predicate decides the comparison of the two integers, also when the literal is outside
    the column's range. *)
Theorem bind_integer_comparison wide op r t d n v row schema cs ans :
  bind_reference r schema cs = Ok t ->
  field_type (ref_field t) = TPrimitive (datum_type (int_datum wide 0)) ->
  literal_integer d = Some n ->
  (match datum_type d with
   | PrimitiveType.Int => inS 32 n | PrimitiveType.Long => inS 64 n | _ => true end) = true ->
  int_test op v n = Some ans -> int_in_range wide v = true ->
  accessor_get (ref_accessor t) row = Ok (Some (int_datum wide v)) ->
  exists b, bind (Binary op r d) schema cs = Ok b /\ eval_row b row = Ok ans.
Proof.
  intros Ht Hty Hd Hn Hop Hv Hrow. cbn [bind]. rewrite Ht. cbn [mbind result_bind].
  unfold bind_binary. rewrite Hty, (int_literal_to wide d n) by done. cbn [mbind result_bind].
  unfold int_bound_literal. destruct (int_in_range wide n) eqn:Hrange.
  - exists (Binary op t (int_datum wide n)). split; [by destruct wide|].
    by apply (int_eval wide op t v n).
  - assert (0 < n /\ v < n \/ ~ 0 < n /\ n < v) as Hcmp.
    { destruct wide; unfold int_in_range in *; rewrite inS_spec in Hv; unfold inS in Hrange;
        bool_to_prop; change (2 ^ (32 - 1)) with 2147483648 in *;
        change (2 ^ (64 - 1)) with 9223372036854775808 in *; lia. }
    destruct Hcmp as [[H0 Hlt]|[H0 Hgt]].
    + replace (0 <? n) with true by lia.
      destruct op; try discriminate Hop; injection Hop as <-; eexists; (split; [done|]);
        cbn; f_equal; lia.
    + replace (0 <? n) with false by lia.
      destruct op; try discriminate Hop; injection Hop as <-; eexists; (split; [done|]);
        cbn; f_equal; lia.
Qed.

(** *** Deviations *)

(** A less-than comparison of an [int] column with a literal above its range is bound to
    "always true", so that it is also true on null, where the same comparison with a literal
    in range is false. *)
Theorem bind_out_of_range_matches_null r t n row schema cs :
  bind_reference r schema cs = Ok t ->
  field_type (ref_field t) = TPrimitive PrimitiveType.Int ->
  accessor_get (ref_accessor t) row = Ok None ->
  exists b, bind (ref_less_than r (datum_long n)) schema cs = Ok b
    /\ eval_row b row = Ok (INT_MAX <? n).
Proof.
  intros Ht Hty Hrow. unfold ref_less_than. cbn [bind]. rewrite Ht. cbn [mbind result_bind].
  unfold bind_binary. rewrite Hty. cbn [datum_to datum_long datum_literal].
  rewrite i64_to_i32_bound. unfold int_bound_literal, int_in_range.
  cbn [mbind result_bind]. pose proof (inS_cases 32 n eq_refl) as H.
  change (2 ^ (32 - 1) - 1) with INT_MAX in H. change (- 2 ^ (32 - 1)) with INT_MIN in H.
  destruct (INT_MAX <? n).
  - destruct H as [-> ->]. by eexists.
  - destruct (n <? INT_MIN); [destruct H as [-> ->]; by eexists|]. rewrite H.
    eexists. split; [done|]. unfold eval_row. cbn. unfold on_value. by rewrite Hrow.
Qed.

(** A decimal literal of scale [s] bound to a [long] column becomes its unscaled value:
    the scale is ignored, so 12.34 is compared as 1234. *)
Theorem decimal_literal_loses_scale precision scale v :
  inS 64 v = true ->
  datum_to (mkDatum (PrimitiveType.Decimal precision scale) (PrimitiveLiteral.Int128 v))
    (TPrimitive PrimitiveType.Long) = Ok (datum_long v).
Proof.
  intros Hv. cbn. rewrite i128_to_i64_bound. unfold int_bound_literal, int_in_range. by rewrite Hv.
Qed.

End bind.

(** ** Witnesses *)

Section witnesses.
#[local] Existing Instance concrete_values.
#[local] Existing Instance concrete_lowercase.

Definition ex_builder : SchemaBuilder :=
  mkSchemaBuilder 0
    [mkField 1 "a" false (TPrimitive PrimitiveType.Int);
     mkField 2 "s" true (TStruct [mkField 3 "B" false (TPrimitive PrimitiveType.Long)])]
    [] ∅ None.
Definition ex_schema : Schema :=
  match build ex_builder with Ok s => s | Err _ => mkSchema [] 0 0 ∅ [] ∅ ∅ ∅ ∅ ∅ end.

(** [NOT (a < 5 AND s.B IS NULL)] *)
Definition ex_predicate : Predicate :=
  Not (And (ref_less_than (mkReference "a") (datum_int 5)) (ref_is_null (mkReference "s.B"))).

Lemma rewrite_not_meaning_witness :
  exists q, rewrite_not ex_predicate = Ok q /\ not_free q = true
    /\ forall value, denote value q = denote value ex_predicate.
Proof. apply (rewrite_not_meaning ex_predicate). reflexivity. Defined.

Definition ex_bound : BoundPredicate :=
  match bind ex_predicate ex_schema true with Ok b => b | Err _ => AlwaysTrue end.
Definition ex_row : Struct :=
  [Some (LPrimitive (PrimitiveLiteral.Int 7));
   Some (LStruct [Some (LPrimitive (PrimitiveLiteral.Long 9))])].
Definition ex_value (t : BoundReference) : option Datum :=
  if String.eqb (column_name t) "a" then Some (datum_int 7) else Some (datum_long 9).

Lemma build_accessor_reads_witness :
  exists a, accessor_by_field_id ex_schema 3 = Some a
    /\ accessor_type a = PrimitiveType.Long
    /\ accessor_get a ex_row
       = Ok (mkDatum PrimitiveType.Long <$> Some (PrimitiveLiteral.Long 9)).
Proof.
  refine (build_accessor_reads ex_builder ex_schema ex_row 3 PrimitiveType.Long
            (Some (PrimitiveLiteral.Long 9)) _ _); [vm_compute; reflexivity|].
  eapply (field_at_struct _ _ 1); [vm_compute; reflexivity..|].
  change 3 with (field_id (mkField 3 "B" false (TPrimitive PrimitiveType.Long))).
  by eapply (field_at_primitive _ _ 0).
Defined.

Definition ex_renumbered : SchemaBuilder :=
  mkSchemaBuilder 0 (b_fields ex_builder) [] ∅ (Some 10).

Lemma build_reassigns_ids_witness :
  exists s, build ex_renumbered = Ok s /\ field_ids (as_struct s) ≡ₚ seqZ 10 3.
Proof.
  eexists. split; [vm_compute; reflexivity|].
  refine (proj1 (build_reassigns_ids ex_renumbered _ 10 _ _)); vm_compute; reflexivity.
Defined.

Lemma rewritten_filter_evaluates_witness :
  exists q, bound_rewrite_not ex_bound = Ok q /\ eval_row q ex_row = Ok true.
Proof.
  refine (rewritten_filter_evaluates ex_bound ex_row ex_value _ _).
  - vm_compute. reflexivity.
  - vm_compute. repeat split.
Defined.

Lemma bind_typed_witness :
  bind ex_predicate ex_schema true = Ok ex_bound /\ leaves (leaf_typed ex_schema) ex_bound.
Proof.
  split; [vm_compute; reflexivity|].
  refine (bind_typed ex_predicate ex_schema true ex_bound _ _); [|vm_compute; reflexivity].
  apply (build_ids_consistent ex_builder). vm_compute. reflexivity.
Defined.

Definition ex_reference : BoundReference :=
  mkBoundReference "a" (mkField 1 "a" false (TPrimitive PrimitiveType.Int))
    (accessor_new 0 PrimitiveType.Int).

Lemma bind_integer_comparison_witness :
  exists b, bind (Binary PredicateOperator.LessThan (mkReference "a") (datum_long 3000000000))
              ex_schema true = Ok b /\ eval_row b ex_row = Ok true.
Proof.
  refine (bind_integer_comparison false PredicateOperator.LessThan (mkReference "a") ex_reference
            (datum_long 3000000000) 3000000000 7 ex_row ex_schema true true _ _ _ _ _ _ _);
    vm_compute; reflexivity.
Defined.

Lemma bind_out_of_range_matches_null_witness :
  exists b, bind (ref_less_than (mkReference "a") (datum_long 3000000000)) ex_schema true = Ok b
    /\ eval_row b [None; None] = Ok true.
Proof.
  refine (bind_out_of_range_matches_null (mkReference "a") ex_reference 3000000000 [None; None]
            ex_schema true _ _ _); vm_compute; reflexivity.
Defined.

Lemma decimal_literal_loses_scale_witness :
  datum_to (mkDatum (PrimitiveType.Decimal 4 2) (PrimitiveLiteral.Int128 1234))
    (TPrimitive PrimitiveType.Long) = Ok (datum_long 1234).
Proof. refine (decimal_literal_loses_scale 4 2 1234 _). vm_compute. reflexivity. Defined.

End witnesses.
