(* ===== verification/Transform.v ===== *)
(** * Partition transforms (spec/transform.rs, transform/)

    The transforms of partition fields and their functions on literals (the
    [transform] methods apply the same functions to the elements of Arrow
    arrays), the type a transform gives, its text form, and the projection of
    a predicate on a column to a predicate on the partition value.

    Third-party code is behind class [TransformLib]: the murmur3 hash and the
    calendar of chrono. *)

From S2P Require Import Prelude Utf8 Bytes Numerals Decimal Values Expr.

Module Transform.
Inductive t :=
| Identity | Bucket (n : Z) | Truncate (width : Z) | Year | Month | Day | Hour | Void | Unknown.

#[global] Instance eq_dec : EqDecision t.
Proof. solve_decision. Defined.
End Transform.

(** [murmur3_32] is [murmur3::murmur3_32(bytes, 0)], a [u32].  A date is a pair of a year and
    a month counted from 0: [naive_date] is [Date32Type::to_naive_date] (which panics out of
    chrono's range), [datetime_from_micros] and [datetime_from_nanos] are the UTC dates of
    [DateTime::from_timestamp_micros] and [from_timestamp_nanos].  [duration_num_days secs
    nanos] is [Duration::new(secs, nanos)] followed by [num_days]. *)
Class TransformLib := {
  murmur3_32 : list Z -> Z;
  naive_date : Z -> option (Z * Z);
  datetime_from_micros : Z -> option (Z * Z);
  datetime_from_nanos : Z -> Z * Z;
  duration_num_days : Z -> Z -> option Z;
}.

(** The months of a date, counted from January 1970. *)
Definition months_of (d : Z * Z) : Z := 12 * (fst d - 1970) + snd d.

(** What those crates document: dates advance with time, months are 0 to 11, years fit far
    inside an [i32], and a duration's whole days are truncated towards zero. *)
Class TransformLibLaws (TL : TransformLib) := {
  naive_date_month d ym : naive_date d = Some ym -> 0 <= snd ym < 12 /\ Z.abs (fst ym) <= 262143;
  naive_date_mono d1 d2 ym1 ym2 :
    d1 <= d2 -> naive_date d1 = Some ym1 -> naive_date d2 = Some ym2 ->
    months_of ym1 <= months_of ym2;
  datetime_micros_month t ym :
    datetime_from_micros t = Some ym -> 0 <= snd ym < 12 /\ Z.abs (fst ym) <= 262143;
  datetime_micros_mono t1 t2 ym1 ym2 :
    t1 <= t2 -> datetime_from_micros t1 = Some ym1 -> datetime_from_micros t2 = Some ym2 ->
    months_of ym1 <= months_of ym2;
  datetime_nanos_month t :
    inS 64 t = true ->
    0 <= snd (datetime_from_nanos t) < 12 /\ Z.abs (fst (datetime_from_nanos t)) <= 262143;
  datetime_nanos_mono t1 t2 :
    inS 64 t1 = true -> inS 64 t2 = true -> t1 <= t2 -> months_of (datetime_from_nanos t1) <= months_of (datetime_from_nanos t2);
  duration_num_days_ok secs nanos :
    Z.abs secs <= 9223372036854775 -> 0 <= nanos < 1000000000 ->
    duration_num_days secs nanos = Some (Z.quot (secs * 1000000000 + nanos) (86400 * 1000000000));
}.

(** ** Types and order *)

(** The types a transform other than identity and void accepts. *)
Definition bucket_input (p : PrimitiveType.t) : bool :=
  match p with
  | PrimitiveType.Boolean | PrimitiveType.Float | PrimitiveType.Double => false
  | _ => true
  end.
Definition truncate_input (p : PrimitiveType.t) : bool :=
  match p with
  | PrimitiveType.Int | PrimitiveType.Long | PrimitiveType.String | PrimitiveType.Binary
  | PrimitiveType.Decimal _ _ => true
  | _ => false
  end.
Definition timestamp_input (p : PrimitiveType.t) : bool :=
  match p with
  | PrimitiveType.Timestamp | PrimitiveType.Timestamptz
  | PrimitiveType.TimestampNs | PrimitiveType.TimestamptzNs => true
  | _ => false
  end.
Definition date_input (p : PrimitiveType.t) : bool :=
  timestamp_input p || bool_decide (p = PrimitiveType.Date).

Definition result_type (self : Transform.t) (input_type : Ty) : result Ty :=
  let on_primitive (accepts : PrimitiveType.t -> bool) (res : Ty) :=
    match input_type with
    | TPrimitive p => if accepts p then Ok res else Err (Error DataInvalid)
    | _ => Err (Error DataInvalid)
    end in
  match self with
  | Transform.Identity => on_primitive (fun _ => true) input_type
  | Transform.Void => Ok input_type
  | Transform.Unknown => Ok (TPrimitive PrimitiveType.String)
  | Transform.Bucket _ => on_primitive bucket_input (TPrimitive PrimitiveType.Int)
  | Transform.Truncate _ => on_primitive truncate_input input_type
  | Transform.Year | Transform.Month => on_primitive date_input (TPrimitive PrimitiveType.Int)
  | Transform.Day => on_primitive date_input (TPrimitive PrimitiveType.Date)
  | Transform.Hour => on_primitive timestamp_input (TPrimitive PrimitiveType.Int)
  end.

Definition preserves_order (self : Transform.t) : bool :=
  match self with
  | Transform.Void | Transform.Bucket _ | Transform.Unknown => false
  | _ => true
  end.

Definition satisfies_order_of (self other : Transform.t) : bool :=
  match self with
  | Transform.Identity => preserves_order other
  | Transform.Hour =>
      match other with
      | Transform.Hour | Transform.Day | Transform.Month | Transform.Year => true
      | _ => false
      end
  | Transform.Day =>
      match other with Transform.Day | Transform.Month | Transform.Year => true | _ => false end
  | Transform.Month =>
      match other with Transform.Month | Transform.Year => true | _ => false end
  | _ => bool_decide (self = other)
  end.

(** ** Text form *)

(** [Display for Transform]. *)
Definition to_string (self : Transform.t) : str :=
  match self with
  | Transform.Identity => lit "identity"
  | Transform.Year => lit "year"
  | Transform.Month => lit "month"
  | Transform.Day => lit "day"
  | Transform.Hour => lit "hour"
  | Transform.Void => lit "void"
  | Transform.Bucket length => lit "bucket[" ++ to_string_u length ++ lit "]"
  | Transform.Truncate width => lit "truncate[" ++ to_string_u width ++ lit "]"
  | Transform.Unknown => lit "unknown"
  end.

(** [trim_start_matches] and [trim_end_matches] of one character. *)
Fixpoint trim_start_matches (c : Z) (s : str) : str :=
  match s with
  | d :: s' => if d =? c then trim_start_matches c s' else s
  | [] => []
  end.
Definition trim_end_matches (c : Z) (s : str) : str := rev (trim_start_matches c (rev s)).

(** [v.strip_prefix(p).trim_start_matches('\[').trim_end_matches('\]').parse::<u32>()]. *)
Definition parse_argument (p v : str) : result Z :=
  ok_or (parse_unsigned 32
           (trim_end_matches 93 (trim_start_matches 91 (drop (length p) v)))) DataInvalid.

(** [FromStr for Transform]. *)
Definition from_str (s : str) : result Transform.t :=
  if bool_decide (s = lit "identity") then Ok Transform.Identity
  else if bool_decide (s = lit "year") then Ok Transform.Year
  else if bool_decide (s = lit "month") then Ok Transform.Month
  else if bool_decide (s = lit "day") then Ok Transform.Day
  else if bool_decide (s = lit "hour") then Ok Transform.Hour
  else if bool_decide (s = lit "void") then Ok Transform.Void
  else if bool_decide (s = lit "unknown") then Ok Transform.Unknown
  else if Utf8.starts_with s (lit "bucket") then
    Transform.Bucket <$> parse_argument (lit "bucket") s
  else if Utf8.starts_with s (lit "truncate") then
    Transform.Truncate <$> parse_argument (lit "truncate") s
  else Err (Error DataInvalid).

Definition dedup_name (self : Transform.t) : str :=
  match self with
  | Transform.Year | Transform.Month | Transform.Day | Transform.Hour => lit "time"
  | _ => to_string self
  end.

(** ** Transform functions on literals *)

Section functions.
Context {V : ValueLib} {TL : TransformLib}.

(** *** truncate.rs *)

Definition truncate_str (s : str) (width : Z) : str := chars_take (Z.to_nat width) s.
Definition truncate_i32 (v width : Z) : Z := wrapS 32 (v - v mod width).
Definition truncate_i64 (v width : Z) : Z :=
  wrapS 64 (v - Z.rem (Z.rem v width + width) width).
Definition truncate_decimal_i128 (v width : Z) : Z :=
  wrapS 128 (v - Z.rem (Z.rem v width + width) width).

(** A width of 0 panics in the remainder; a [u32] width must fit an [i32] for an [int]. *)
Definition truncate_transform_literal (width : Z) (input : Datum) : result (option Datum) :=
  match datum_literal input with
  | PrimitiveLiteral.Int v =>
      if inS 32 width then
        if width =? 0 then Err Panic else Ok (Some (datum_int (truncate_i32 v width)))
      else Err (Error DataInvalid)
  | PrimitiveLiteral.Long v =>
      if width =? 0 then Err Panic else Ok (Some (datum_long (truncate_i64 v width)))
  | PrimitiveLiteral.Int128 v =>
      if width =? 0 then Err Panic
      else Some <$> datum_decimal
             (decimal_from_i128_with_scale (truncate_decimal_i128 v width) 0)
  | PrimitiveLiteral.String v => Ok (Some (datum_string (truncate_str v width)))
  | _ => Err (Error FeatureUnsupported)
  end.

(** *** bucket.rs *)

Definition hash_bytes (v : list Z) : Z := wrapS 32 (murmur3_32 v).
Definition hash_long (v : Z) : Z := hash_bytes (le_bytes 8 v).
Definition hash_int (v : Z) : Z := hash_long v.
Definition hash_str (s : str) : Z := hash_bytes (utf8 s).

(** [bytes.windows(2).position(p)]. *)
Fixpoint windows2_position (p : Z -> Z -> bool) (bytes : list Z) : option nat :=
  match bytes with
  | w0 :: ((w1 :: _) as rest) =>
      if p w0 w1 then Some 0%nat else S <$> windows2_position p rest
  | _ => None
  end.

Definition hash_decimal (v : Z) : Z :=
  if v =? 0 then hash_bytes [0]
  else
    let bytes := be_bytes 16 v in
    let start :=
      default 15%nat
        (if 0 <? v
         then windows2_position (fun w0 w1 => negb (w0 =? 0) || negb (Z.land w1 128 =? 0)) bytes
         else windows2_position (fun w0 w1 => negb (w0 =? 255) || (Z.land w1 128 =? 0)) bytes) in
    hash_bytes (drop start bytes).

(** [(v & i32::MAX) % (mod_n as i32)]; a divisor of 0 panics. *)
Definition bucket_n (mod_n v : Z) : result Z :=
  let n := wrapS 32 mod_n in
  if n =? 0 then Err Panic else Ok (Z.rem (Z.land v 2147483647) n).

Definition bucket_hash (input : Datum) : result Z :=
  match datum_type input, datum_literal input with
  | PrimitiveType.Int, PrimitiveLiteral.Int v => Ok (hash_int v)
  | PrimitiveType.Long, PrimitiveLiteral.Long v => Ok (hash_long v)
  | PrimitiveType.Decimal _ _, PrimitiveLiteral.Int128 v => Ok (hash_decimal v)
  | PrimitiveType.Date, PrimitiveLiteral.Int v => Ok (hash_int v)
  | PrimitiveType.Time, PrimitiveLiteral.Long v => Ok (hash_long v)
  | PrimitiveType.Timestamp, PrimitiveLiteral.Long v => Ok (hash_long v)
  | PrimitiveType.Timestamptz, PrimitiveLiteral.Long v => Ok (hash_long v)
  | PrimitiveType.TimestampNs, PrimitiveLiteral.Long v => Ok (hash_long (Z.quot v 1000))
  | PrimitiveType.TimestamptzNs, PrimitiveLiteral.Long v => Ok (hash_long (Z.quot v 1000))
  | PrimitiveType.String, PrimitiveLiteral.String v => Ok (hash_str v)
  | PrimitiveType.Uuid, PrimitiveLiteral.UInt128 v => Ok (hash_bytes (be_bytes 16 v))
  | PrimitiveType.Binary, PrimitiveLiteral.Binary v => Ok (hash_bytes v)
  | PrimitiveType.Fixed _, PrimitiveLiteral.Binary v => Ok (hash_bytes v)
  | _, _ => Err (Error FeatureUnsupported)
  end.
Definition bucket_transform_literal (mod_n : Z) (input : Datum) : result (option Datum) :=
  let? h := bucket_hash input in
  let? b := bucket_n mod_n h in
  Ok (Some (datum_int b)).

(** *** temporal.rs *)

Definition MICROSECONDS_PER_HOUR : Z := 3600000000.
Definition NANOSECONDS_PER_HOUR : Z := 3600000000000.
Definition UNIX_EPOCH_YEAR : Z := 1970.
Definition MICROS_PER_SECOND : Z := 1000000.
Definition NANOS_PER_SECOND : Z := 1000000000.

Definition timestamp_to_year_micros (timestamp : Z) : result Z :=
  let? ym := ok_or (datetime_from_micros timestamp) DataInvalid in
  Ok (fst ym - UNIX_EPOCH_YEAR).
Definition timestamp_to_year_nanos (timestamp : Z) : result Z :=
  Ok (fst (datetime_from_nanos timestamp) - UNIX_EPOCH_YEAR).

Definition year_transform_literal (input : Datum) : result (option Datum) :=
  let? val :=
    match datum_type input, datum_literal input with
    | PrimitiveType.Date, PrimitiveLiteral.Int v =>
        let? ym := unwrap (naive_date v) in Ok (fst ym - UNIX_EPOCH_YEAR)
    | PrimitiveType.Timestamp, PrimitiveLiteral.Long v => timestamp_to_year_micros v
    | PrimitiveType.Timestamptz, PrimitiveLiteral.Long v => timestamp_to_year_micros v
    | PrimitiveType.TimestampNs, PrimitiveLiteral.Long v => timestamp_to_year_nanos v
    | PrimitiveType.TimestamptzNs, PrimitiveLiteral.Long v => timestamp_to_year_nanos v
    | _, _ => Err (Error FeatureUnsupported)
    end in
  Ok (Some (datum_int val)).

(** [after_epoch]: [date > unix_epoch_date]. *)
Definition timestamp_to_month (after_epoch : bool) (date : Z * Z) : Z :=
  let '(year, month0) := date in
  if after_epoch then month0 + 12 * (year - UNIX_EPOCH_YEAR)
  else
    let delta := (12 - month0) + 12 * (UNIX_EPOCH_YEAR - year - 1) in
    - delta.
Definition timestamp_to_month_micros (timestamp : Z) : result Z :=
  let? date := ok_or (datetime_from_micros timestamp) DataInvalid in
  Ok (timestamp_to_month (0 <? timestamp) date).
Definition timestamp_to_month_nanos (timestamp : Z) : result Z :=
  Ok (timestamp_to_month (0 <? timestamp) (datetime_from_nanos timestamp)).

Definition month_transform_literal (input : Datum) : result (option Datum) :=
  let? val :=
    match datum_type input, datum_literal input with
    | PrimitiveType.Date, PrimitiveLiteral.Int v =>
        let? ym := unwrap (naive_date v) in Ok ((fst ym - UNIX_EPOCH_YEAR) * 12 + snd ym)
    | PrimitiveType.Timestamp, PrimitiveLiteral.Long v => timestamp_to_month_micros v
    | PrimitiveType.Timestamptz, PrimitiveLiteral.Long v => timestamp_to_month_micros v
    | PrimitiveType.TimestampNs, PrimitiveLiteral.Long v => timestamp_to_month_nanos v
    | PrimitiveType.TimestamptzNs, PrimitiveLiteral.Long v => timestamp_to_month_nanos v
    | _, _ => Err (Error FeatureUnsupported)
    end in
  Ok (Some (datum_int val)).

(** [day_timestamp_micro] and [day_timestamp_nano] differ in the number of ticks of a second
    and of nanoseconds of a tick. *)
Definition day_timestamp (per_second nanos_per_tick v : Z) : result Z :=
  let secs := Z.quot v per_second in
  let '(nanos, offset) :=
    if 0 <=? v then (v mod per_second * nanos_per_tick, 0)
    else ((v + 1) mod per_second * nanos_per_tick, 1) in
  let? days := ok_or (duration_num_days secs nanos) DataInvalid in
  Ok (wrapS 32 (days - offset)).
Definition day_timestamp_micro (v : Z) : result Z := day_timestamp MICROS_PER_SECOND 1000 v.
Definition day_timestamp_nano (v : Z) : result Z := day_timestamp NANOS_PER_SECOND 1 v.

Definition day_transform_literal (input : Datum) : result (option Datum) :=
  let? val :=
    match datum_type input, datum_literal input with
    | PrimitiveType.Date, PrimitiveLiteral.Int v => Ok v
    | PrimitiveType.Timestamp, PrimitiveLiteral.Long v => day_timestamp_micro v
    | PrimitiveType.Timestamptz, PrimitiveLiteral.Long v => day_timestamp_micro v
    | PrimitiveType.TimestampNs, PrimitiveLiteral.Long v => day_timestamp_nano v
    | PrimitiveType.TimestamptzNs, PrimitiveLiteral.Long v => day_timestamp_nano v
    | _, _ => Err (Error FeatureUnsupported)
    end in
  Ok (Some (datum_date val)).

Definition hour_timestamp_micro (v : Z) : Z := wrapS 32 (v / MICROSECONDS_PER_HOUR).
Definition hour_timestamp_nano (v : Z) : Z := wrapS 32 (v / NANOSECONDS_PER_HOUR).

Definition hour_transform_literal (input : Datum) : result (option Datum) :=
  let? val :=
    match datum_type input, datum_literal input with
    | PrimitiveType.Timestamp, PrimitiveLiteral.Long v => Ok (hour_timestamp_micro v)
    | PrimitiveType.Timestamptz, PrimitiveLiteral.Long v => Ok (hour_timestamp_micro v)
    | PrimitiveType.TimestampNs, PrimitiveLiteral.Long v => Ok (hour_timestamp_nano v)
    | PrimitiveType.TimestamptzNs, PrimitiveLiteral.Long v => Ok (hour_timestamp_nano v)
    | _, _ => Err (Error FeatureUnsupported)
    end in
  Ok (Some (datum_int val)).

(** *** mod.rs *)

(** A [BoxedTransformFunction], by its [transform_literal]. *)
Definition TransformFunction := Datum -> result (option Datum).

Definition create_transform_function (transform : Transform.t) : result TransformFunction :=
  match transform with
  | Transform.Identity => Ok (fun input => Ok (Some input))
  | Transform.Void => Ok (fun _ => Ok None)
  | Transform.Year => Ok year_transform_literal
  | Transform.Month => Ok month_transform_literal
  | Transform.Day => Ok day_transform_literal
  | Transform.Hour => Ok hour_transform_literal
  | Transform.Bucket mod_n => Ok (bucket_transform_literal mod_n)
  | Transform.Truncate width => Ok (truncate_transform_literal width)
  | Transform.Unknown => Err (Error FeatureUnsupported)
  end.

Definition transform_literal_result (func : TransformFunction) (input : Datum) : result Datum :=
  let? r := func input in ok_or r Unexpected.

End functions.
