(* ===== verification/ConcreteTime.v ===== *)
(** * A concrete instance of the hash and calendar interface

    A calendar of twelve equal months a year and a checksum in the place of the
    hash, on which the witnesses of the theorems evaluate.  No theorem about the
    program depends on it. *)

From S2P Require Import Prelude Transform.

(** The month, counted from January 1970, of a number of ticks since 1970, where a year has
    [year] ticks. *)
Definition calendar (year t : Z) : Z * Z :=
  let m := 12 * t / year in (1970 + m / 12, m mod 12).
Definition calendar_in_range (year t : Z) : option (Z * Z) :=
  if Z.abs t <=? 260000 * year then Some (calendar year t) else None.

Lemma months_of_calendar year t : months_of (calendar year t) = 12 * t / year.
Proof.
  unfold months_of, calendar. cbn [fst snd]. pose proof (Z.div_mod (12 * t / year) 12). lia.
Qed.

Lemma calendar_mono year t1 t2 :
  0 < year -> t1 <= t2 -> months_of (calendar year t1) <= months_of (calendar year t2).
Proof. intros. rewrite !months_of_calendar. apply Z.div_le_mono; lia. Qed.

Lemma calendar_range year t :
  0 < year -> Z.abs t <= 260000 * year ->
  0 <= snd (calendar year t) < 12 /\ Z.abs (fst (calendar year t)) <= 262143.
Proof.
  intros Hy Ht. unfold calendar. cbn [fst snd].
  split; [apply Z.mod_pos_bound; lia|].
  assert (- (12 * 260000) <= 12 * t / year <= 12 * 260000) as Hm
    by (split; [apply Z.div_le_lower_bound; lia|apply Z.div_le_upper_bound; lia]).
  assert (-260000 <= 12 * t / year / 12 <= 260000)
    by (split; [apply Z.div_le_lower_bound; lia|apply Z.div_le_upper_bound; lia]).
  lia.
Qed.

Definition concrete_time : TransformLib :=
  {| murmur3_32 bytes := fold_left (fun h b => (31 * h + b) mod 2 ^ 32) bytes 0;
     naive_date := calendar_in_range 365;
     datetime_from_micros := calendar_in_range (365 * 86400 * 1000000);
     datetime_from_nanos := calendar (365 * 86400 * 1000000000);
     duration_num_days secs nanos :=
       Some (Z.quot (secs * 1000000000 + nanos) (86400 * 1000000000)) |}.

#[export] Instance concrete_time_laws : TransformLibLaws concrete_time.
Proof.
  assert (forall year t ym, 0 < year -> calendar_in_range year t = Some ym ->
            ym = calendar year t /\ 0 <= snd ym < 12 /\ Z.abs (fst ym) <= 262143) as Hr.
  { unfold calendar_in_range. intros year t ym Hy. destruct (Z.leb_spec (Z.abs t) (260000 * year)); [|done].
    intros [= <-]. split; [done|]. by apply calendar_range. }
  assert (forall t, inS 64 t = true -> Z.abs t <= 260000 * (365 * 86400 * 1000000000)) as Hn.
  { intros t Ht%inS_spec. change (2 ^ (64 - 1)) with 9223372036854775808 in Ht. lia. }
  split; cbn [naive_date datetime_from_micros datetime_from_nanos duration_num_days concrete_time].
  - intros d ym H. by apply Hr in H as [_ ?].
  - intros d1 d2 ym1 ym2 Hle [-> _]%Hr [-> _]%Hr; [|done..]. by apply calendar_mono.
  - intros d ym H. by apply Hr in H as [_ ?].
  - intros d1 d2 ym1 ym2 Hle [-> _]%Hr [-> _]%Hr; [|done..]. by apply calendar_mono.
  - intros t Ht. by apply calendar_range; [|apply Hn].
  - intros t1 t2 _ _. by apply calendar_mono.
  - done.
Qed.
