(* ===== verification/TransformSpec.v ===== *)
(** * What the partition transforms compute

    Reference values of the transform functions, the order-preserving ones are
    monotone, every function gives a literal of the result type, and the text
    form parses back. *)

From S2P Require Import Prelude Utf8 Bytes Numerals Decimal Values Concrete DatumOrder Expr.
From S2P Require Import Transform ConcreteTime.

(** The arguments of a transform are [u32]s. *)
Definition transform_wf (T : Transform.t) : bool :=
  match T with
  | Transform.Bucket n | Transform.Truncate n => inU 32 n
  | _ => true
  end.

(** The ticks before 1970 that [day_timestamp], at [t] ticks in a second, counts with the
    next day: the last second of a day that does not end at 1970, but for its first and its
    last tick. *)
Definition day_skewed (t v : Z) : bool :=
  let day := 86400 * t in
  (v <? - day) && (day - t <? v mod day) && (v mod day <? day - 1).

(** The mathematical value of [transform] on [d] fits the type it is computed in: truncation
    does not go below the least integer, the hours since 1970 fit an [i32], and the day is the
    day of the timestamp. *)
Definition exact (T : Transform.t) (d : Datum) : bool :=
  match T, datum_literal d with
  | Transform.Truncate w, PrimitiveLiteral.Int v => inS 32 (w * (v / w))
  | Transform.Truncate w, PrimitiveLiteral.Long v => inS 64 (w * (v / w))
  | Transform.Truncate w, PrimitiveLiteral.Int128 v => Z.abs (w * (v / w)) <? 10 ^ 38
  | Transform.Day, PrimitiveLiteral.Long v =>
      match datum_type d with
      | PrimitiveType.Timestamp | PrimitiveType.Timestamptz =>
          negb (day_skewed MICROS_PER_SECOND v)
      | _ => negb (day_skewed NANOS_PER_SECOND v)
      end
  | Transform.Hour, PrimitiveLiteral.Long v =>
      match datum_type d with
      | PrimitiveType.Timestamp | PrimitiveType.Timestamptz =>
          inS 32 (v / MICROSECONDS_PER_HOUR)
      | _ => inS 32 (v / NANOSECONDS_PER_HOUR)
      end
  | _, _ => true
  end.

(** ** Truncation *)

Lemma truncate_rem v w : 0 < w -> v - Z.rem (Z.rem v w + w) w = w * (v / w).
Proof.
  intros Hw. pose proof (Z.div_mod v w). pose proof (Z.mod_pos_bound v w Hw).
  pose proof (Z.quot_rem v w). pose proof (Z.rem_bound_abs v w).
  rewrite (Z.rem_mod_nonneg (Z.rem v w + w)) by lia.
  replace ((Z.rem v w + w) mod w) with (v mod w); [lia|].
  replace (Z.rem v w + w) with (v + (1 - Z.quot v w) * w) by lia. by rewrite Z_mod_plus_full.
Qed.

Lemma truncate_mod v w : 0 < w -> v - v mod w = w * (v / w).
Proof. intros Hw. pose proof (Z.div_mod v w). lia. Qed.

Lemma truncate_i32_spec v w : 0 < w -> inS 32 (w * (v / w)) = true -> truncate_i32 v w = w * (v / w).
Proof. intros Hw He. unfold truncate_i32. by rewrite truncate_mod, wrapS_id. Qed.
Lemma truncate_i64_spec v w : 0 < w -> inS 64 (w * (v / w)) = true -> truncate_i64 v w = w * (v / w).
Proof. intros Hw He. unfold truncate_i64. by rewrite truncate_rem, wrapS_id. Qed.
Lemma truncate_i128_spec v w :
  0 < w -> Z.abs (w * (v / w)) < 10 ^ 38 -> truncate_decimal_i128 v w = w * (v / w).
Proof.
  intros Hw He. unfold truncate_decimal_i128. rewrite truncate_rem by done.
  apply wrapS_id; [done|]. apply inS_spec.
  change (2 ^ (128 - 1)) with 170141183460469231731687303715884105728. lia.
Qed.

(** The greatest multiple of the width that is at most the value. *)
Lemma truncate_greatest v w m : 0 < w -> m * w <= v -> m * w <= w * (v / w) <= v.
Proof.
  intros Hw Hm. pose proof (Z.mul_div_le v w Hw). split; [|lia].
  rewrite Z.mul_comm. apply Z.mul_le_mono_nonneg_l; [lia|]. apply Z.div_le_lower_bound; lia.
Qed.

Lemma truncate_mono v v' w : 0 < w -> v <= v' -> w * (v / w) <= w * (v' / w).
Proof. intros Hw Hv. apply Z.mul_le_mono_nonneg_l; [lia|]. by apply Z.div_le_mono. Qed.

(** ** Time *)

Lemma timestamp_to_month_months b d : timestamp_to_month b d = months_of d.
Proof. destruct d as [y m]. unfold timestamp_to_month, months_of, UNIX_EPOCH_YEAR. cbn. destruct b; lia. Qed.

Lemma months_years ym1 ym2 :
  0 <= snd ym1 < 12 -> 0 <= snd ym2 < 12 -> months_of ym1 <= months_of ym2 -> fst ym1 <= fst ym2.
Proof. unfold months_of. lia. Qed.

Section day.
Context {TL : TransformLib} {TLL : TransformLibLaws TL}.

(** The duration that [day_timestamp] builds for a negative tick [v = - (a * t + b)]. *)
Lemma negative_ticks t v :
  1 < t -> v < 0 ->
  Z.quot v t * t + (v + 1) mod t
  = v + 1 + (if 2 <=? (- v) mod t then t else 0).
Proof.
  intros Ht Hv. pose proof (Z.div_mod (- v) t). pose proof (Z.mod_pos_bound (- v) t).
  set (a := - v / t) in *. set (b := (- v) mod t) in *.
  assert (Z.quot v t = - a) as ->.
  { replace v with (- - v) at 1 by lia. rewrite Z.quot_opp_l by lia. f_equal.
    apply Z.quot_div_nonneg; lia. }
  destruct (Z.leb_spec 2 b).
  - rewrite <- (Z.mod_unique (v + 1) t (- a - 1) (t + 1 - b)) by lia. lia.
  - rewrite <- (Z.mod_unique (v + 1) t (- a) (1 - b)) by lia. lia.
Qed.

Lemma quot_negative m day : 0 < day -> m <= 0 -> Z.quot m day - 1 = (m - 1) / day.
Proof.
  intros Hd Hm. replace m with (- - m) at 1 by lia. rewrite Z.quot_opp_l by lia.
  rewrite Z.quot_div_nonneg by lia.
  pose proof (Z.div_mod (- m) day). pose proof (Z.mod_pos_bound (- m) day).
  apply (Z.div_unique _ _ _ (day - 1 - (- m) mod day)); lia.
Qed.

Lemma skewed_days t v :
  1 < t -> v < 0 ->
  let day := 86400 * t in
  Z.quot (v + 1 + (if 2 <=? (- v) mod t then t else 0)) day - 1
  = v / day + (if day_skewed t v then 1 else 0).
Proof.
  intros Ht Hv day. assert (0 < day) as Hd by lia. unfold day_skewed. fold day.
  pose proof (Z.div_mod v day). pose proof (Z.mod_pos_bound v day).
  set (q := v / day) in *. set (r := v mod day) in *.
  assert ((- v) mod t = (- r) mod t) as ->.
  { replace (- v) with (- r + (- q * 86400) * t) by lia. apply Z_mod_plus_full. }
  assert (q = -1 \/ q <= -2 /\ v < - day) as Hq by nia.
  assert (day - t < r -> (- r) mod t = day - r) as Hr1.
  { intros. symmetry. apply (Z.mod_unique _ _ (- 86400)); lia. }
  assert (r = day - t -> (- r) mod t = 0) as Hr2.
  { intros ->. replace (- (day - t)) with (0 + -86399 * t) by lia. by rewrite Z_mod_plus_full. }
  set (e := if 2 <=? (- r) mod t then t else 0).
  assert (0 <= e <= t /\ (e = t <-> 2 <= (- r) mod t) /\ (e = 0 <-> (- r) mod t < 2)) as He.
  { unfold e. destruct (Z.leb_spec 2 ((- r) mod t)); lia. }
  destruct (Z.le_gt_cases (v + 1 + e) 0) as [Hm|Hm].
  - rewrite quot_negative by done. symmetry.
    destruct (Z.ltb_spec v (- day)), (Z.ltb_spec (day - t) r), (Z.ltb_spec r (day - 1));
      cbn [andb]; 
      first [ apply (Z.div_unique _ _ _ (r + e)); lia
            | apply (Z.div_unique _ _ _ (r + e - day)); lia ].
  - rewrite Z.quot_small by lia.
    destruct (Z.ltb_spec v (- day)); cbn [andb]; lia.
Qed.

Lemma day_timestamp_spec t npt v :
  1000000 <= t -> t * npt = 1000000000 -> inS 64 v = true ->
  day_timestamp t npt v = Ok (v / (86400 * t) + (if day_skewed t v then 1 else 0)).
Proof using TLL.
  intros Ht Hnpt Hv%inS_spec. change (2 ^ (64 - 1)) with 9223372036854775808 in Hv.
  assert (0 < npt) as Hn by nia.
  assert (Z.abs (Z.quot v t) <= 9223372036854775) as Hs.
  { rewrite <- Z.quot_abs by lia. rewrite Z.quot_div_nonneg by lia.
    apply Z.lt_succ_r, Z.div_lt_upper_bound; [lia|]. rewrite (Z.abs_eq t) by lia.
    apply (Z.lt_le_trans _ (1000000 * 9223372036854776)); [lia|].
    apply Z.mul_le_mono_nonneg_r; lia. }
  assert (forall x, 0 <= x mod t * npt < 1000000000) as Hr.
  { intros x. pose proof (Z.mod_pos_bound x t). nia. }
  assert (forall x, Z.quot (Z.quot v t * 1000000000 + x * npt) (86400 * 1000000000)
            = Z.quot (Z.quot v t * t + x) (86400 * t)) as Hq.
  { intros x. rewrite <- Hnpt. replace (Z.quot v t * (t * npt) + x * npt)
      with ((Z.quot v t * t + x) * npt) by lia.
    replace (86400 * (t * npt)) with (86400 * t * npt) by lia. apply Z.quot_mul_cancel_r; lia. }
  assert (-200000000 <= v / (86400 * t) <= 200000000) as Hb.
  { split; [apply Z.div_le_lower_bound|apply Z.div_le_upper_bound]; lia. }
  assert (inS 32 (v / (86400 * t) + (if day_skewed t v then 1 else 0)) = true) as Hw.
  { apply inS_spec. change (2 ^ (32 - 1)) with 2147483648. destruct (day_skewed t v); lia. }
  unfold day_timestamp. destruct (Z.leb_spec 0 v) as [Hp|Hp].
  - rewrite duration_num_days_ok, Hq by auto. cbn [ok_or mbind result_bind]. f_equal.
    rewrite <- (wrapS_id 32 _ eq_refl Hw). f_equal. rewrite Z.sub_0_r.
    unfold day_skewed. destruct (Z.ltb_spec v (- (86400 * t))); [lia|]. cbn [andb].
    rewrite Z.add_0_r. rewrite <- Z.quot_div_nonneg by lia. f_equal.
    rewrite <- Z.rem_mod_nonneg by lia. pose proof (Z.quot_rem v t). lia.
  - rewrite duration_num_days_ok, Hq by auto. cbn [ok_or mbind result_bind]. f_equal.
    rewrite <- (wrapS_id 32 _ eq_refl Hw). f_equal.
    rewrite negative_ticks by lia. apply skewed_days; lia.
Qed.
End day.

(** ** Monotonicity *)

Section mono.
Context {V : ValueLib} {L : ValueLibLaws V} {TL : TransformLib} {TLL : TransformLibLaws TL}.

(** Two literals of one kind, made by [mk] from 32-bit integers in order. *)
Definition in_order (mk : Z -> Datum) (ra rb : Datum) : Prop :=
  exists n m, ra = mk n /\ rb = mk m /\ inS 32 n = true /\ inS 32 m = true /\ n <= m.

Lemma year_range (ym : Z * Z) : Z.abs (fst ym) <= 262143 -> inS 32 (fst ym - 1970) = true.
Proof. intros. apply inS_spec. change (2 ^ (32 - 1)) with 2147483648. lia. Qed.
Lemma month_range (ym : Z * Z) :
  0 <= snd ym < 12 -> Z.abs (fst ym) <= 262143 -> inS 32 (months_of ym) = true.
Proof. intros. unfold months_of. apply inS_spec. change (2 ^ (32 - 1)) with 2147483648. lia. Qed.

(** Years and months of two dates in order. *)
Lemma years_in_order (ym1 ym2 : Z * Z) :
  0 <= snd ym1 < 12 /\ Z.abs (fst ym1) <= 262143 ->
  0 <= snd ym2 < 12 /\ Z.abs (fst ym2) <= 262143 ->
  months_of ym1 <= months_of ym2 ->
  in_order datum_int (datum_int (fst ym1 - 1970)) (datum_int (fst ym2 - 1970)).
Proof.
  intros [? ?] [? ?] ?. do 2 eexists. split; [done|]. split; [done|].
  split; [by apply year_range|]. split; [by apply year_range|].
  pose proof (months_years ym1 ym2). lia.
Qed.
Lemma months_in_order (ym1 ym2 : Z * Z) :
  0 <= snd ym1 < 12 /\ Z.abs (fst ym1) <= 262143 ->
  0 <= snd ym2 < 12 /\ Z.abs (fst ym2) <= 262143 ->
  months_of ym1 <= months_of ym2 ->
  in_order datum_int (datum_int (months_of ym1)) (datum_int (months_of ym2)).
Proof.
  intros [? ?] [? ?] ?. do 2 eexists. split; [done|]. split; [done|].
  split; [by apply month_range|]. split; [by apply month_range|]. done.
Qed.

Lemma months_of_sum (ym : Z * Z) : (fst ym - UNIX_EPOCH_YEAR) * 12 + snd ym = months_of ym.
Proof. unfold months_of, UNIX_EPOCH_YEAR. lia. Qed.

Lemma ok_or_Ok {A} (o : option A) k a : ok_or o k = Ok a <-> o = Some a.
Proof. destruct o; cbn; split; congruence. Qed.
Lemma unwrap_Ok {A} (o : option A) a : unwrap o = Ok a <-> o = Some a.
Proof. destruct o; cbn; split; congruence. Qed.

Lemma year_mono a b ra rb :
  comparable a b -> lex_le (key a) (key b) ->
  year_transform_literal a = Ok (Some ra) -> year_transform_literal b = Ok (Some rb) ->
  in_order datum_int ra rb.
Proof.
  intros H. datum_cases H; unfold key, year_transform_literal;
    cbn [datum_type datum_literal lit_key]; rewrite ?lex_le_singleton; intros Hle Ha Hb;
    inv_ok; try discriminate;
    unfold timestamp_to_year_micros, timestamp_to_year_nanos in *; inv_ok;
    repeat match goal with
    | H : unwrap _ = Ok _ |- _ => apply unwrap_Ok in H
    | H : ok_or _ _ = Ok _ |- _ => apply ok_or_Ok in H
    end;
    apply years_in_order;
    eauto using naive_date_month, naive_date_mono, datetime_micros_month, datetime_micros_mono,
      datetime_nanos_month, datetime_nanos_mono.
Qed.

Lemma month_mono a b ra rb :
  comparable a b -> lex_le (key a) (key b) ->
  month_transform_literal a = Ok (Some ra) -> month_transform_literal b = Ok (Some rb) ->
  in_order datum_int ra rb.
Proof.
  intros H. datum_cases H; unfold key, month_transform_literal;
    cbn [datum_type datum_literal lit_key]; rewrite ?lex_le_singleton; intros Hle Ha Hb;
    inv_ok; try discriminate;
    unfold timestamp_to_month_micros, timestamp_to_month_nanos in *; inv_ok;
    repeat match goal with
    | H : unwrap _ = Ok _ |- _ => apply unwrap_Ok in H
    | H : ok_or _ _ = Ok _ |- _ => apply ok_or_Ok in H
    end;
    rewrite ?timestamp_to_month_months;
    rewrite ?months_of_sum;
    apply months_in_order;
    eauto using naive_date_month, naive_date_mono, datetime_micros_month, datetime_micros_mono,
      datetime_nanos_month, datetime_nanos_mono.
Qed.

Lemma hour_mono a b ra rb :
  comparable a b -> lex_le (key a) (key b) ->
  exact Transform.Hour a = true -> exact Transform.Hour b = true ->
  hour_transform_literal a = Ok (Some ra) -> hour_transform_literal b = Ok (Some rb) ->
  in_order datum_int ra rb.
Proof.
  intros H. datum_cases H; unfold key, hour_transform_literal, exact;
    cbn [datum_type datum_literal lit_key]; rewrite ?lex_le_singleton; intros Hle Ea Eb Ha Hb;
    inv_ok; try discriminate;
    unfold hour_timestamp_micro, hour_timestamp_nano; rewrite !wrapS_id by done;
    do 2 eexists; (repeat split; [done|done|]); by apply Z.div_le_mono.
Qed.

Lemma day_exact t npt v n :
  1000000 <= t -> t * npt = 1000000000 -> inS 64 v = true -> day_skewed t v = false ->
  day_timestamp t npt v = Ok n ->
  n = v / (86400 * t) /\ inS 32 n = true.
Proof.
  intros Ht Hn Hv He. rewrite day_timestamp_spec, He, Z.add_0_r by done. intros [= <-].
  split; [done|]. apply inS_spec in Hv. change (2 ^ (64 - 1)) with 9223372036854775808 in Hv.
  apply inS_spec. change (2 ^ (32 - 1)) with 2147483648.
  assert (-200000000 <= v / (86400 * t) <= 200000000); [|lia].
  split; [apply Z.div_le_lower_bound|apply Z.div_le_upper_bound]; lia.
Qed.

Lemma day_mono a b ra rb :
  comparable a b -> lex_le (key a) (key b) ->
  exact Transform.Day a = true -> exact Transform.Day b = true ->
  day_transform_literal a = Ok (Some ra) -> day_transform_literal b = Ok (Some rb) ->
  in_order datum_date ra rb.
Proof.
  intros H. datum_cases H; unfold key, day_transform_literal, exact;
    cbn [datum_type datum_literal lit_key]; rewrite ?lex_le_singleton, ?negb_true_iff;
    intros Hle Ea Eb Ha Hb; inv_ok; try discriminate.
  { do 2 eexists. split; [done|]. split; [done|]. done. }
  all: unfold day_timestamp_micro, day_timestamp_nano in *;
    repeat match goal with
    | H : day_timestamp _ _ _ = Ok _ |- _ => apply day_exact in H as [-> ?]; [|done..]
    end;
    do 2 eexists; split; [done|]; split; [done|]; split; [done|]; split; [done|];
    by apply Z.div_le_mono.
Qed.

(** [ra] is at most [rb], for literals of one type. *)
Definition at_most (ra rb : Datum) : Prop := comparable ra rb /\ lex_le (key ra) (key rb).

Lemma in_order_at_most mk ra rb :
  mk = datum_int \/ mk = datum_date -> in_order mk ra rb -> at_most ra rb.
Proof.
  intros Hmk (n & m & -> & -> & Hn & Hm & Hle). unfold at_most, comparable, key.
  destruct Hmk as [-> | ->]; unfold datum_wf; cbn; rewrite Hn, Hm; split; try done;
    by apply lex_le_singleton.
Qed.

Lemma decimal_parts d m s :
  D128_denotes d m s -> Z.abs m < 10 ^ 38 -> 0 <= s -> decimal_mantissa d = m /\ decimal_scale d = s.
Proof.
  intros Hd Hm Hs. unfold decimal_mantissa, decimal_scale.
  rewrite (D128_digits_ok _ _ _ Hd), (D128_frac_ok _ _ _ Hd).
  destruct (Z.ltb_spec s 0); [lia|]. split; [|done].
  rewrite wrapS_id; [|done|apply inS_spec;
    change (2 ^ (128 - 1)) with 170141183460469231731687303715884105728; lia].
  destruct (Z.eq_dec m 0) as [-> | Hz]; [by destruct (D128_is_sign_negative d)|].
  rewrite (D128_sign_ok _ _ _ Hd Hz). destruct (Z.ltb_spec m 0); lia.
Qed.

Lemma decimal_datum_ok v :
  Z.abs v < 10 ^ 38 ->
  datum_decimal (decimal_from_i128_with_scale v 0)
  = Ok (mkDatum (PrimitiveType.Decimal 38 0) (PrimitiveLiteral.Int128 v)).
Proof.
  intros Hv. pose proof (decimal_from_i128_with_scale_ok v 0 Hv ltac:(lia)) as Hd.
  apply decimal_parts in Hd as [Em Es]; [|done|done].
  unfold datum_decimal. by rewrite Em, Es.
Qed.

(** Truncation on the four kinds of literals it accepts. *)
Lemma truncate_literal_ok w d r :
  0 <= w -> exact (Transform.Truncate w) d = true ->
  truncate_transform_literal w d = Ok (Some r) ->
  match datum_literal d with
  | PrimitiveLiteral.Int v => 0 < w /\ r = datum_int (w * (v / w))
  | PrimitiveLiteral.Long v => 0 < w /\ r = datum_long (w * (v / w))
  | PrimitiveLiteral.Int128 v =>
      0 < w /\ r = mkDatum (PrimitiveType.Decimal 38 0) (PrimitiveLiteral.Int128 (w * (v / w)))
  | PrimitiveLiteral.String s => r = datum_string (chars_take (Z.to_nat w) s)
  | _ => False
  end.
Proof.
  intros Hw He. unfold truncate_transform_literal, exact in *.
  destruct (datum_literal d) as [| | | | | | | | | |]; try done.
  - destruct (inS 32 w); [|done]. destruct (Z.eqb_spec w 0); [done|]. intros [= <-].
    rewrite truncate_i32_spec by (first [done | lia]). split; [lia|done].
  - destruct (Z.eqb_spec w 0); [done|]. intros [= <-].
    rewrite truncate_i64_spec by (first [done | lia]). split; [lia|done].
  - by intros [= <-].
  - destruct (Z.eqb_spec w 0); [done|]. bool_to_prop.
    rewrite truncate_i128_spec by (first [done | lia]).
    rewrite decimal_datum_ok by done. intros [= <-]. split; [lia|done].
Qed.

Lemma truncate_literal_mono w a b ra rb :
  inU 32 w = true -> comparable a b -> lex_le (key a) (key b) ->
  exact (Transform.Truncate w) a = true -> exact (Transform.Truncate w) b = true ->
  truncate_transform_literal w a = Ok (Some ra) ->
  truncate_transform_literal w b = Ok (Some rb) ->
  at_most ra rb.
Proof.
  intros [Hw _]%inU_spec H Hle Ea Eb Ha%truncate_literal_ok Hb%truncate_literal_ok; try done.
  revert Hle Ea Eb Ha Hb. unfold at_most.
  datum_cases H; unfold key, exact, comparable;
    cbn [datum_type datum_literal lit_key]; try done; rewrite ?lex_le_singleton; intros Hle Ea Eb Ha Hb.
  all: try (destruct Ha as [Hp ->], Hb as [_ ->]; pose proof (truncate_mono _ _ w Hp Hle);
    split; [unfold datum_wf; cbn; rewrite ?Ea, ?Eb; done|]; by apply lex_le_singleton).
  subst ra rb. unfold datum_wf, chars_take; cbn. rewrite !valid_str_take by done.
  split; [done|]. unfold lex_le in *. rewrite utf8_lex_cmp in * by auto using valid_str_take.
  by apply lex_le_take.
Qed.

(** The transforms that preserve order, other than the identity, are monotone where they are
    exact. *)
Lemma transform_mono T f a b ra rb :
  transform_wf T = true -> preserves_order T = true -> T <> Transform.Identity ->
  create_transform_function T = Ok f ->
  comparable a b -> exact T a = true -> exact T b = true -> lex_le (key a) (key b) ->
  f a = Ok (Some ra) -> f b = Ok (Some rb) -> at_most ra rb.
Proof.
  destruct T; cbn [preserves_order create_transform_function transform_wf]; try done;
    intros Hw _ Hi [= <-] Hc Ea Eb Hle Ha Hb.
  - by eapply truncate_literal_mono.
  - eapply in_order_at_most; [by left|]. by eapply year_mono.
  - eapply in_order_at_most; [by left|]. by eapply month_mono.
  - eapply in_order_at_most; [by right|]. by eapply day_mono.
  - eapply in_order_at_most; [by left|]. by eapply hour_mono.
Qed.
End mono.

(** ** The hash of a decimal *)

Lemma windows2_skip neg bs n :
  length bs = S n ->
  drop (default n (windows2_position
          (fun w0 w1 => negb (w0 =? sign_byte neg) || negb (eqb (sign_bit w1) neg)) bs)) bs
  = skip_sign_bytes neg bs.
Proof.
  revert n; induction bs as [|b [|b' bs] IH]; intros n Hn; [done|by injection Hn as <-|].
  injection Hn as Hn. specialize (IH (length bs) eq_refl).
  set (p := fun w0 w1 => _) in *.
  change (windows2_position p (b :: b' :: bs))
    with (if p b b' then Some 0%nat else S <$> windows2_position p (b' :: bs)).
  change (skip_sign_bytes neg (b :: b' :: bs))
    with (if (b =? sign_byte neg) && eqb (sign_bit b') neg
          then skip_sign_bytes neg (b' :: bs) else b :: b' :: bs).
  assert (p b b' = negb ((b =? sign_byte neg) && eqb (sign_bit b') neg)) as ->
    by (unfold p; by rewrite negb_andb).
  destruct ((b =? sign_byte neg) && eqb (sign_bit b') neg); cbn [negb]; [|done].
  rewrite <- IH, <- Hn. by destruct (windows2_position p (b' :: bs)).
Qed.

Lemma windows2_ext p q bs :
  (forall x y, p x y = q x y) -> windows2_position p bs = windows2_position q bs.
Proof.
  intros H. induction bs as [|b [|b' bs] IH]; [done..|].
  change (windows2_position p (b :: b' :: bs))
    with (if p b b' then Some 0%nat else S <$> windows2_position p (b' :: bs)).
  change (windows2_position q (b :: b' :: bs))
    with (if q b b' then Some 0%nat else S <$> windows2_position q (b' :: bs)).
  by rewrite H, IH.
Qed.

(** ** Text *)

Lemma trim_start_stop c s t : (forall d, head s = Some d -> d <> c) -> s <> [] ->
  trim_start_matches c (s ++ t) = s ++ t.
Proof.
  destruct s as [|d s]; [done|]. intros H _. cbn. destruct (Z.eqb_spec d c); [|done].
  by destruct (H d eq_refl).
Qed.

Lemma parse_argument_ok p n :
  inU 32 n = true -> parse_argument p (p ++ 91 :: to_string_u n ++ [93]) = Ok n.
Proof.
  intros Hn. unfold parse_argument. rewrite drop_app_length.
  pose proof Hn as [H0 _]%inU_spec. destruct (to_string_u_spec n H0) as (Hd & Hne & _).
  assert (forall c, forallb is_digit (to_string_u n) = true ->
            (c ∈ to_string_u n) -> 48 <= c <= 57) as Hin.
  { intros c Hall Hc. rewrite forallb_forall in Hall.
    specialize (Hall c ltac:(by apply list_elem_of_In)). unfold is_digit in Hall. bool_to_prop. lia. }
  cbn [trim_start_matches]. rewrite Z.eqb_refl.
  rewrite trim_start_stop.
  2: { intros d Ed. pose proof (Hin d Hd (head_Some_elem_of _ _ Ed)). lia. }
  2: done.
  unfold trim_end_matches. rewrite rev_app_distr. cbn [rev app trim_start_matches].
  rewrite Z.eqb_refl.
  assert (trim_start_matches 93 (rev (to_string_u n)) = rev (to_string_u n)) as ->.
  { rewrite <- (app_nil_r (rev _)). apply trim_start_stop.
    - intros d Ed%head_Some_elem_of%list_elem_of_In%in_rev%list_elem_of_In.
      pose proof (Hin d Hd Ed). lia.
    - intros E. apply (f_equal (@rev Z)) in E. by rewrite rev_involutive in E. }
  by rewrite rev_involutive, parse_unsigned_to_string.
Qed.

Lemma starts_with_app p s : Utf8.starts_with (p ++ s) p = true.
Proof. apply starts_with_prefix. exists (utf8 s). apply utf8_app. Qed.

(** ** Properties *)

(** Parsing the text of a transform gives it back, arguments included. *)
Theorem transform_text_roundtrip T :
  transform_wf T = true -> from_str (to_string T) = Ok T.
Proof.
  destruct T as [|n|w| | | | | |]; intros Hw; try reflexivity; cbn [transform_wf] in Hw;
    unfold from_str, to_string.
  - rewrite !bool_decide_eq_false_2 by discriminate.
    change (lit "bucket[" ++ to_string_u n ++ lit "]")
      with (lit "bucket" ++ 91 :: to_string_u n ++ [93]).
    by rewrite starts_with_app, parse_argument_ok.
  - rewrite !bool_decide_eq_false_2 by discriminate.
    change (lit "truncate[" ++ to_string_u w ++ lit "]")
      with (lit "truncate" ++ 91 :: to_string_u w ++ [93]).
    assert (Utf8.starts_with (lit "truncate" ++ 91 :: to_string_u w ++ [93]) (lit "bucket") = false)
      as -> by (apply bool_decide_eq_false_2; discriminate).
    by rewrite starts_with_app, parse_argument_ok.
Qed.

Section properties.
Context {V : ValueLib} {L : ValueLibLaws V} {TL : TransformLib} {TLL : TransformLibLaws TL}.

(** The result of a transform is of the result type, and its literal fits that type. *)
Lemma transform_result_compatible T f d r ty :
  compatible (datum_type d) (datum_literal d) = true ->
  result_type T (TPrimitive (datum_type d)) = Ok ty ->
  create_transform_function T = Ok f -> f d = Ok (Some r) ->
  (ty = TPrimitive (datum_type r) /\ compatible (datum_type r) (datum_literal r) = true)
  \/ exists w precision scale, T = Transform.Truncate w
       /\ datum_type d = PrimitiveType.Decimal precision scale.
Proof.
  intros Hc Hty Hf Hr. destruct d as [p l]; cbn [datum_type datum_literal] in *.
  destruct T; cbn in Hty, Hf; inv_ok; try (left; done).
  - destruct (bucket_input p); [|done]. inv_ok. unfold bucket_transform_literal in Hr.
    by inv_ok; left.
  - destruct p; cbn in Hty; try discriminate Hty; inv_ok;
      try (right; by do 3 eexists); left;
      destruct l; try discriminate Hc; cbn in Hr;
      repeat (case_match; try discriminate Hr); try discriminate Hr; by inv_ok.
  - destruct (date_input p); [|done]. unfold year_transform_literal in Hr. by inv_ok; left.
  - destruct (date_input p); [|done]. unfold month_transform_literal in Hr. by inv_ok; left.
  - destruct (date_input p); [|done]. unfold day_transform_literal in Hr. by inv_ok; left.
  - destruct (timestamp_input p); [|done]. unfold hour_transform_literal in Hr. by inv_ok; left.
Qed.

(** A transform that accepts the type of a literal gives a literal of its result type,
    but for the truncation of decimals. *)
Theorem transform_result_typed T f d r ty :
  datum_wf d = true -> result_type T (TPrimitive (datum_type d)) = Ok ty ->
  create_transform_function T = Ok f -> f d = Ok (Some r) ->
  ty = TPrimitive (datum_type r)
  \/ exists w precision scale, T = Transform.Truncate w
       /\ datum_type d = PrimitiveType.Decimal precision scale.
Proof.
  unfold datum_wf. intros [[_ Hc]%andb_true_iff _]%andb_true_iff Hty Hf Hr.
  destruct (transform_result_compatible T f d r ty Hc Hty Hf Hr) as [[? _]|?]; auto.
Qed.

(** Where it is exact, an order-preserving transform is monotone in the order of typed
    values. *)
Theorem transform_monotone T f a b ra rb :
  transform_wf T = true -> preserves_order T = true ->
  create_transform_function T = Ok f ->
  comparable a b -> exact T a = true -> exact T b = true -> datum_le a b = true ->
  f a = Ok (Some ra) -> f b = Ok (Some rb) -> datum_le ra rb = true.
Proof.
  intros Hw Hp Hf Hc Ea Eb Hle Ha Hb. destruct (decide (T = Transform.Identity)) as [->|Hi].
  - cbn in Hf. injection Hf as <-. by injection Ha as <-; injection Hb as <-.
  - destruct (transform_mono T f a b ra rb) as [Hc' Hle']; try done.
    + by apply datum_le_key.
    + by apply datum_le_key.
Qed.

(** Truncating an integer literal gives the greatest multiple of the width that is not
    above it, when that is in range; truncating text keeps its first characters. *)
Theorem truncate_greatest_multiple w d r :
  inU 32 w = true -> exact (Transform.Truncate w) d = true ->
  truncate_transform_literal w d = Ok (Some r) ->
  match datum_literal d with
  | PrimitiveLiteral.Int v | PrimitiveLiteral.Long v | PrimitiveLiteral.Int128 v =>
      exists m, lit_key (datum_literal r) = [m * w] /\ m * w <= v
        /\ forall k, k * w <= v -> k * w <= m * w
  | PrimitiveLiteral.String s =>
      exists t, s = t ++ drop (Z.to_nat w) s /\ r = datum_string t
        /\ (chars_count t <= Z.to_nat w)%nat
  | _ => False
  end.
Proof.
  intros [Hw _]%inU_spec He Hr%truncate_literal_ok; try done.
  destruct (datum_literal d) as [| | | | |s| | | | |] eqn:El; try done.
  3: { exists (take (Z.to_nat w) s). rewrite take_drop. split; [done|]. split; [done|].
       unfold chars_count. rewrite length_take. lia. }
  all: destruct Hr as [Hp ->]; exists (v / w); rewrite (Z.mul_comm (v / w)); split; [done|];
    split; [apply Z.mul_div_le; lia|]; intros k Hk; by apply truncate_greatest.
Qed.

(** A bucket number is at least 0 and less than the number of buckets. *)
Theorem bucket_in_range n d r :
  0 < n -> inU 32 n = true -> bucket_transform_literal n d = Ok (Some r) ->
  exists b, r = datum_int b /\ 0 <= b < n.
Proof.
  intros Hn [_ Hu]%inU_spec. unfold bucket_transform_literal, bucket_n.
  intros (h & _ & H)%bind_Ok. apply bind_Ok in H as (b & Hb & [= <-]). exists b. split; [done|].
  pose proof (wrapS_inS 32 n eq_refl) as Hs%inS_spec.
  assert (wrapS 32 n = n \/ wrapS 32 n = n - 2 ^ 32 /\ 2 ^ 31 <= n) as Hc.
  { destruct (Z.lt_ge_cases n (2 ^ 31)).
    - left. apply wrapS_id; [done|]. apply inS_spec. cbn. lia.
    - right. split; [|done]. unfold wrapS. cbn [Z.sub Z.opp Z.pow Z.add] in *.
      rewrite <- (Z.mod_unique (n + 2 ^ (32 - 1)) (2 ^ 32) 1 (n + 2 ^ 31 - 2 ^ 32)); cbn; lia. }
  destruct (Z.eqb_spec (wrapS 32 n) 0); [done|]. injection Hb as <-.
  assert (0 <= Z.land h 2147483647 < 2 ^ 31) as Hl.
  { change 2147483647 with (Z.ones 31). rewrite Z.land_ones by lia. by apply Z.mod_pos_bound. }
  pose proof (Z.rem_nonneg (Z.land h 2147483647) (wrapS 32 n) ltac:(done) ltac:(lia)).
  pose proof (Z.rem_bound_abs (Z.land h 2147483647) (wrapS 32 n) ltac:(done)). lia.
Qed.

(** The hash of a decimal is the hash of the minimal big-endian bytes of its unscaled
    value, which the loop over windows of two bytes finds. *)
Theorem hash_decimal_minimal v : hash_decimal v = hash_bytes (i128_to_be_bytes_min v).
Proof.
  unfold hash_decimal, i128_to_be_bytes_min.
  destruct (Z.eqb_spec v 0) as [->|Hz]; [done|]. cbv zeta. f_equal.
  rewrite <- (windows2_skip _ _ 15) by apply length_be_bytes.
  generalize (be_bytes 16 v). intros bytes.
  destruct (Z.ltb_spec 0 v), (Z.ltb_spec v 0); try lia;
    match goal with |- drop (default _ ?o) _ = drop (default _ ?o') _ => assert (o = o') as -> end;
    try done; apply windows2_ext; intros w0 w1; unfold sign_bit, sign_byte;
    by destruct (Z.land w1 128 =? 0).
Qed.

(** The day of a timestamp, in microseconds or nanoseconds, is the floor of the quotient,
    except on the ticks [day_skewed] describes, where it is the next day. *)
Theorem day_of_timestamp per_second v :
  per_second = MICROS_PER_SECOND \/ per_second = NANOS_PER_SECOND -> inS 64 v = true ->
  (if per_second =? MICROS_PER_SECOND then day_timestamp_micro v else day_timestamp_nano v)
  = Ok (v / (86400 * per_second) + (if day_skewed per_second v then 1 else 0)).
Proof. intros [-> | ->] Hv; cbn [Z.eqb]; by apply day_timestamp_spec. Qed.

(** The day of a timestamp is not monotone before 1970: one microsecond before the last of
    1969-12-30 it is 1969-12-31, and in the last microsecond 1969-12-30 again. *)
Theorem day_not_monotone :
  day_timestamp_micro (-86400000002) = Ok (-1) /\ day_timestamp_micro (-86400000001) = Ok (-2).
Proof. unfold day_timestamp_micro. rewrite !day_timestamp_spec by done. done. Qed.

(** A truncated decimal has type [decimal(38, 0)] and does not convert to the type of the
    partition field, which is that of the column, so binding a projected predicate on it
    fails. *)
Theorem truncated_decimal_does_not_bind w d precision scale r :
  inU 32 w = true -> datum_wf d = true -> exact (Transform.Truncate w) d = true ->
  datum_type d = PrimitiveType.Decimal precision scale -> scale <> 0 ->
  truncate_transform_literal w d = Ok (Some r) ->
  result_type (Transform.Truncate w) (TPrimitive (datum_type d)) = Ok (TPrimitive (datum_type d))
  /\ datum_to r (TPrimitive (datum_type d)) = Err (Error DataInvalid).
Proof.
  intros [Hw _]%inU_spec Hd He Ety Hs Hr%truncate_literal_ok; try done. rewrite Ety.
  split; [done|]. unfold datum_wf in Hd. rewrite Ety in Hd.
  apply andb_true_iff in Hd as [[_ Hc]%andb_true_iff _].
  destruct (datum_literal d) as [| | | | | | | | | |]; try discriminate Hc.
  destruct Hr as [_ ->]. cbn [datum_to datum_literal datum_type].
  rewrite bool_decide_eq_false_2 by congruence. done.
Qed.
End properties.

Section witnesses.
#[local] Existing Instance concrete_values.
#[local] Existing Instance concrete_time.

Lemma transform_text_roundtrip_witness :
  from_str (lit "bucket[16]") = Ok (Transform.Bucket 16).
Proof. refine (transform_text_roundtrip (Transform.Bucket 16) _). vm_compute. reflexivity. Defined.

Lemma transform_result_typed_witness :
  TPrimitive PrimitiveType.Date = TPrimitive (datum_type (datum_date 19000))
  \/ exists w precision scale, Transform.Day = Transform.Truncate w
       /\ PrimitiveType.Date = PrimitiveType.Decimal precision scale.
Proof.
  refine (transform_result_typed Transform.Day day_transform_literal (datum_date 19000)
            (datum_date 19000) _ _ _ _ _); reflexivity.
Defined.

Lemma transform_monotone_witness : datum_le (datum_int (-10)) (datum_int 20) = true.
Proof.
  refine (transform_monotone (Transform.Truncate 10) (truncate_transform_literal 10)
            (datum_int (-7)) (datum_int 25) _ _ _ _ _ _ _ _ _ _ _); repeat split; reflexivity.
Defined.

Lemma truncate_greatest_multiple_witness :
  exists m, lit_key (datum_literal (datum_long (-20))) = [m * 10] /\ m * 10 <= -11
    /\ forall k, k * 10 <= -11 -> k * 10 <= m * 10.
Proof.
  refine (truncate_greatest_multiple 10 (datum_long (-11)) (datum_long (-20)) _ _ _);
    vm_compute; reflexivity.
Defined.

Lemma bucket_in_range_witness : exists b, datum_int 0 = datum_int b /\ 0 <= b < 16.
Proof. refine (bucket_in_range 16 (datum_int 0) (datum_int 0) _ _ _); vm_compute; reflexivity. Defined.

Lemma day_of_timestamp_witness : day_timestamp_micro (-1) = Ok (-1).
Proof. refine (day_of_timestamp MICROS_PER_SECOND (-1) _ _); [by left|reflexivity]. Defined.

Lemma day_not_monotone_witness : day_timestamp_micro (-86400000002) = Ok (-1).
Proof. exact (proj1 day_not_monotone). Defined.

Lemma truncated_decimal_does_not_bind_witness :
  datum_to (mkDatum (PrimitiveType.Decimal 38 0) (PrimitiveLiteral.Int128 1230))
    (TPrimitive (PrimitiveType.Decimal 9 2)) = Err (Error DataInvalid).
Proof.
  refine (proj2 (truncated_decimal_does_not_bind 10
            (mkDatum (PrimitiveType.Decimal 9 2) (PrimitiveLiteral.Int128 1234)) 9 2 _ _ _ _ _ _ _));
    [vm_compute; reflexivity..|done|vm_compute; reflexivity].
Defined.
End witnesses.
