(* ===== verification/PartitionSpecs.v ===== *)
(** * Partition specs and their builders (spec/partition.rs)

    Bound and unbound specs, the two builders with their shared checks, the assignment of
    field ids, and what a spec that was bound to a schema guarantees. *)

From S2P Require Import Prelude Utf8 Values Schema Transform.

Definition UNPARTITIONED_LAST_ASSIGNED_ID : Z := 999.
Definition DEFAULT_PARTITION_SPEC_ID : Z := 0.

Record PartitionField := mkPartitionField {
  source_id : Z;
  partition_field_id : Z;
  partition_name : string;
  partition_transform : Transform.t;
}.
Record PartitionSpec := mkPartitionSpec { spec_id : Z; spec_fields : list PartitionField }.

Record UnboundPartitionField := mkUnboundField {
  u_source_id : Z;
  u_field_id : option Z;
  u_name : string;
  u_transform : Transform.t;
}.
Record UnboundPartitionSpec := mkUnboundSpec {
  u_spec_id : option Z;
  u_fields : list UnboundPartitionField;
}.

#[global] Instance PartitionField_eq_dec : EqDecision PartitionField.
Proof. solve_decision. Defined.
#[global] Instance PartitionSpec_eq_dec : EqDecision PartitionSpec.
Proof. solve_decision. Defined.

(** ** Bound and unbound specs *)

Definition unpartition_spec : PartitionSpec := mkPartitionSpec DEFAULT_PARTITION_SPEC_ID [].
Definition is_unpartitioned (self : PartitionSpec) : bool :=
  forallb (fun f => bool_decide (partition_transform f = Transform.Void)) (spec_fields self).
Definition into_unbound_field (field : PartitionField) : UnboundPartitionField :=
  mkUnboundField (source_id field) (Some (partition_field_id field)) (partition_name field)
    (partition_transform field).
Definition into_unbound (spec : PartitionSpec) : UnboundPartitionSpec :=
  mkUnboundSpec (Some (spec_id spec)) (into_unbound_field <$> spec_fields spec).
Definition with_spec_id (self : PartitionSpec) (id : Z) : PartitionSpec :=
  mkPartitionSpec id (spec_fields self).
Definition unbound_with_spec_id (self : UnboundPartitionSpec) (id : Z) : UnboundPartitionSpec :=
  mkUnboundSpec (Some id) (u_fields self).

(** The ids from position [index] on; the bounds of [i64] are out of reach of an index. *)
Fixpoint sequential_from (index : Z) (field_ids : list Z) : bool :=
  match field_ids with
  | [] => true
  | id :: field_ids =>
      (id =? UNPARTITIONED_LAST_ASSIGNED_ID + 1 + index) && sequential_from (index + 1) field_ids
  end.
Definition has_sequential_ids (self : PartitionSpec) : bool :=
  sequential_from 0 (partition_field_id <$> spec_fields self).

(** [Iterator::max]. *)
Fixpoint list_max (l : list Z) : option Z :=
  match l with
  | [] => None
  | z :: l => Some (match list_max l with Some m => Z.max z m | None => z end)
  end.
Definition highest_field_id (self : PartitionSpec) : option Z :=
  list_max (partition_field_id <$> spec_fields self).

Definition same_field (this other : PartitionField) : bool :=
  (source_id this =? source_id other)
  && bool_decide (partition_name this = partition_name other)
  && bool_decide (partition_transform this = partition_transform other).
Fixpoint same_fields (this other : list PartitionField) : bool :=
  match this, other with
  | [], [] => true
  | f :: this, g :: other => same_field f g && same_fields this other
  | _, _ => false
  end.
Definition is_compatible_with (self other : PartitionSpec) : bool :=
  same_fields (spec_fields self) (spec_fields other).

(** [PartitionSpec::partition_type]. *)
Definition partition_type (self : PartitionSpec) (schema : Schema) : result (list NestedField) :=
  mapR (fun partition_field =>
          let? field := ok_or (field_by_id schema (source_id partition_field)) Unexpected in
          let? res_type := result_type (partition_transform partition_field) (field_type field) in
          Ok (mkField (partition_field_id partition_field) (partition_name partition_field) false
                res_type))
       (spec_fields self).

(** ** The checks of both builders ([CorePartitionSpecValidator]) *)

Definition ensure (ok : bool) (k : ErrorKind) : result unit := if ok then Ok tt else Err (Error k).

Definition check_name_set_and_unique (fields : list UnboundPartitionField) (name : string) :
    result unit :=
  let? _ := ensure (negb (bool_decide (name = ""%string))) DataInvalid in
  ensure (negb (existsb (fun f => bool_decide (u_name f = name)) fields)) DataInvalid.

Definition check_for_redundant_partitions (fields : list UnboundPartitionField) (source : Z)
    (transform : Transform.t) : result unit :=
  ensure (negb (existsb (fun f => (u_source_id f =? source)
                           && bool_decide (dedup_name (u_transform f) = dedup_name transform)) fields))
    DataInvalid.

Definition check_partition_id_unique (fields : list UnboundPartitionField) (id : Z) : result unit :=
  ensure (negb (existsb (fun f => bool_decide (u_field_id f = Some id)) fields)) DataInvalid.

Definition check_id_if_set (fields : list UnboundPartitionField) (field : UnboundPartitionField) :
    result unit :=
  match u_field_id field with Some id => check_partition_id_unique fields id | None => Ok tt end.

(** ** [UnboundPartitionSpecBuilder] *)

Record UnboundPartitionSpecBuilder := mkUnboundBuilder {
  ub_spec_id : option Z;
  ub_fields : list UnboundPartitionField;
}.
Definition unbound_add_partition_field_internal (self : UnboundPartitionSpecBuilder)
    (field : UnboundPartitionField) : result UnboundPartitionSpecBuilder :=
  let? _ := check_name_set_and_unique (ub_fields self) (u_name field) in
  let? _ := check_for_redundant_partitions (ub_fields self) (u_source_id field) (u_transform field) in
  let? _ := check_id_if_set (ub_fields self) field in
  Ok (mkUnboundBuilder (ub_spec_id self) (ub_fields self ++ [field])).
Definition unbound_add_partition_field (self : UnboundPartitionSpecBuilder) (source : Z)
    (target_name : string) (transform : Transform.t) : result UnboundPartitionSpecBuilder :=
  unbound_add_partition_field_internal self (mkUnboundField source None target_name transform).
Definition unbound_add_partition_fields (self : UnboundPartitionSpecBuilder)
    (fields : list UnboundPartitionField) : result UnboundPartitionSpecBuilder :=
  try_fold unbound_add_partition_field_internal self fields.
Definition unbound_build (self : UnboundPartitionSpecBuilder) : UnboundPartitionSpec :=
  mkUnboundSpec (ub_spec_id self) (ub_fields self).

(** ** [PartitionSpecBuilder] *)

Record PartitionSpecBuilder := mkSpecBuilder {
  pb_spec_id : option Z;
  pb_last_assigned_field_id : Z;
  pb_fields : list UnboundPartitionField;
  pb_schema : Schema;
}.
Definition spec_builder_new (schema : Schema) : PartitionSpecBuilder :=
  mkSpecBuilder None UNPARTITIONED_LAST_ASSIGNED_ID [] schema.
Definition with_last_assigned_field_id (self : PartitionSpecBuilder) (id : Z) : PartitionSpecBuilder :=
  mkSpecBuilder (pb_spec_id self) id (pb_fields self) (pb_schema self).
Definition builder_with_spec_id (self : PartitionSpecBuilder) (id : Z) : PartitionSpecBuilder :=
  mkSpecBuilder (Some id) (pb_last_assigned_field_id self) (pb_fields self) (pb_schema self).

Definition check_name_does_not_collide_with_schema (field : UnboundPartitionField) (schema : Schema) :
    result unit :=
  match field_by_name schema (u_name field) with
  | Some schema_collision =>
      if bool_decide (u_transform field = Transform.Identity)
      then ensure (field_id schema_collision =? u_source_id field) DataInvalid
      else Err (Error DataInvalid)
  | None => Ok tt
  end.

Definition check_transform_compatibility (field : UnboundPartitionField) (schema : Schema) :
    result unit :=
  let? schema_field := ok_or (field_by_id schema (u_source_id field)) DataInvalid in
  if bool_decide (u_transform field = Transform.Void) then Ok tt
  else
    let? _ := ensure (is_primitive (field_type schema_field)) DataInvalid in
    ensure (is_ok (result_type (u_transform field) (field_type schema_field))) DataInvalid.

Definition add_unbound_field (self : PartitionSpecBuilder) (field : UnboundPartitionField) :
    result PartitionSpecBuilder :=
  let? _ := check_name_set_and_unique (pb_fields self) (u_name field) in
  let? _ := check_for_redundant_partitions (pb_fields self) (u_source_id field) (u_transform field) in
  let? _ := check_name_does_not_collide_with_schema field (pb_schema self) in
  let? _ := check_transform_compatibility field (pb_schema self) in
  let? _ := check_id_if_set (pb_fields self) field in
  Ok (mkSpecBuilder (pb_spec_id self) (pb_last_assigned_field_id self) (pb_fields self ++ [field])
        (pb_schema self)).
Definition add_unbound_fields (self : PartitionSpecBuilder) (fields : list UnboundPartitionField) :
    result PartitionSpecBuilder := try_fold add_unbound_field self fields.
Definition add_partition_field (self : PartitionSpecBuilder) (source_name target_name : string)
    (transform : Transform.t) : result PartitionSpecBuilder :=
  let? field := ok_or (field_by_name (pb_schema self) source_name) DataInvalid in
  add_unbound_field self (mkUnboundField (field_id field) None target_name transform).
Definition new_from_unbound (unbound : UnboundPartitionSpec) (schema : Schema) :
    result PartitionSpecBuilder :=
  add_unbound_fields
    (builder_with_spec_id (spec_builder_new schema)
       (default DEFAULT_PARTITION_SPEC_ID (u_spec_id unbound)))
    (u_fields unbound).

(** ** Assigning field ids ([set_field_ids]) *)

Definition check_add_1 (prev : Z) : result Z :=
  if prev =? I32_MAX then Err (Error DataInvalid) else Ok (prev + 1).

(** The [while] loop: [None] when the fuel is too small. *)
Fixpoint skip_assigned (fuel : nat) (assigned_ids : gset Z) (last : Z) : option (result Z) :=
  match fuel with
  | O => None
  | S fuel =>
      if bool_decide (last ∈ assigned_ids) then
        match check_add_1 last with
        | Ok last => skip_assigned fuel assigned_ids last
        | Err e => Some (Err e)
        end
      else Some (Ok last)
  end.
(** Every turn of the loop leaves one assigned id behind. *)
Definition next_free (assigned_ids : gset Z) (last : Z) : result Z :=
  let? last := check_add_1 last in
  default (Err Panic) (skip_assigned (S (size assigned_ids)) assigned_ids last).

Fixpoint set_ids (assigned_ids : gset Z) (last : Z) (fields : list UnboundPartitionField) :
    result (list PartitionField) :=
  match fields with
  | [] => Ok []
  | field :: fields =>
      let? assigned :=
        match u_field_id field with
        | Some id => Ok (id, Z.max last id)
        | None => let? id := next_free assigned_ids last in Ok (id, id)
        end in
      let? rest := set_ids assigned_ids (snd assigned) fields in
      Ok (mkPartitionField (u_source_id field) (fst assigned) (u_name field) (u_transform field) :: rest)
  end.
Definition assigned_ids (fields : list UnboundPartitionField) : gset Z :=
  list_to_set (omap u_field_id fields).
Definition set_field_ids (fields : list UnboundPartitionField) (last_assigned_field_id : Z) :
    result (list PartitionField) :=
  set_ids (assigned_ids fields) last_assigned_field_id fields.

Definition spec_build (self : PartitionSpecBuilder) : result PartitionSpec :=
  let? fields := set_field_ids (pb_fields self) (pb_last_assigned_field_id self) in
  Ok (mkPartitionSpec (default DEFAULT_PARTITION_SPEC_ID (pb_spec_id self)) fields).

(** [UnboundPartitionSpec::bind]. *)
Definition unbound_bind (self : UnboundPartitionSpec) (schema : Schema) : result PartitionSpec :=
  let? b := new_from_unbound self schema in spec_build b.

(** ** Theory: field ids *)

Lemma check_add_1_Ok prev next : check_add_1 prev = Ok next <-> prev <> I32_MAX /\ next = prev + 1.
Proof. unfold check_add_1. destruct (Z.eqb_spec prev I32_MAX); naive_solver. Qed.
Lemma check_add_1_Err prev e : check_add_1 prev = Err e -> e = Error DataInvalid.
Proof. unfold check_add_1. destruct (_ =? _); [by intros [= <-]|done]. Qed.

(** The loop leaves an assigned id behind in every turn. *)
Lemma skip_assigned_total (ids : gset Z) fuel (last : Z) :
  (size (filter (fun id => (last <= id)%Z) ids) < fuel)%nat ->
  exists r, skip_assigned fuel ids last = Some r.
Proof.
  revert last; induction fuel as [|fuel IH]; intros last Hf; [lia|]. cbn [skip_assigned].
  case_bool_decide as Hin; [|by eexists].
  destruct (check_add_1 last) as [next|] eqn:E; [|by eexists].
  apply check_add_1_Ok in E as [_ ->]. apply IH.
  enough (size (filter (fun id => (last + 1 <= id)%Z) ids)
          < size (filter (fun id => (last <= id)%Z) ids))%nat by lia.
  apply subset_size. split; [|intros H]; [intros id; rewrite !elem_of_filter; intuition lia|].
  specialize (H last). rewrite !elem_of_filter in H. destruct H; [by split|lia].
Qed.

Lemma skip_assigned_Ok ids fuel last next :
  skip_assigned fuel ids last = Some (Ok next) ->
  last <= next /\ next ∉ ids /\ (last <= I32_MAX -> next <= I32_MAX).
Proof.
  revert last; induction fuel as [|fuel IH]; intros last; cbn [skip_assigned]; [done|].
  case_bool_decide as Hin; [|intros [= <-]; by split_and!].
  destruct (check_add_1 last) as [l|] eqn:E; [|done]. apply check_add_1_Ok in E as [? ->].
  intros (? & ? & ?)%IH. split_and!; [lia|done|]. intros. unfold I32_MAX in *. lia.
Qed.

Lemma skip_assigned_Err ids fuel last e :
  skip_assigned fuel ids last = Some (Err e) -> e = Error DataInvalid.
Proof.
  revert last; induction fuel as [|fuel IH]; intros last; cbn [skip_assigned]; [done|].
  case_bool_decide; [|done]. destruct (check_add_1 last) eqn:E; [apply IH|].
  intros [= <-]. by eapply check_add_1_Err.
Qed.

(** Below [bound] nothing overflows. *)
Lemma skip_assigned_below ids fuel last bound :
  (forall id, id ∈ ids -> id <= bound) -> bound < I32_MAX -> last <= bound + 1 ->
  match skip_assigned fuel ids last with
  | Some (Ok next) => next <= bound + 1
  | Some (Err _) => False
  | None => True
  end.
Proof.
  intros Hids Hb. revert last; induction fuel as [|fuel IH]; intros last Hl; cbn [skip_assigned]; [done|].
  case_bool_decide as Hin; [|done]. apply Hids in Hin.
  destruct (check_add_1 last) as [next|] eqn:E; [apply check_add_1_Ok in E as [_ ->]; apply IH; lia|].
  unfold check_add_1 in E. destruct (Z.eqb_spec last I32_MAX); [lia|done].
Qed.

Lemma next_free_spec ids last :
  match next_free ids last with
  | Ok id => last < id /\ id ∉ ids /\ (last <= I32_MAX -> id <= I32_MAX)
  | Err e => e = Error DataInvalid
  end.
Proof.
  unfold next_free. destruct (check_add_1 last) as [l|] eqn:E; cbn [mbind result_bind];
    [|by eapply check_add_1_Err].
  apply check_add_1_Ok in E as [? ->].
  destruct (skip_assigned_total ids (S (size ids)) (last + 1)) as [[id|e] Hr].
  - apply Nat.lt_succ_r, subseteq_size. intros id. rewrite elem_of_filter. by intros [_ ?].
  - rewrite Hr. apply skip_assigned_Ok in Hr as (? & ? & ?). cbn.
    split_and!; [lia|done|]. unfold I32_MAX in *. lia.
  - rewrite Hr. by apply skip_assigned_Err in Hr.
Qed.

Lemma next_free_below ids last bound :
  (forall id, id ∈ ids -> id <= bound) -> bound < I32_MAX -> last <= bound ->
  exists id, next_free ids last = Ok id /\ id <= bound + 1.
Proof.
  intros Hids Hb Hl. pose proof (next_free_spec ids last) as H. unfold next_free in *.
  destruct (check_add_1 last) as [l|] eqn:E; cbn [mbind result_bind] in *.
  - apply check_add_1_Ok in E as [_ ->].
    destruct (skip_assigned_total ids (S (size ids)) (last + 1)) as [r Hr].
    { apply Nat.lt_succ_r, subseteq_size. intros id. rewrite elem_of_filter. by intros [_ ?]. }
    pose proof (skip_assigned_below ids (S (size ids)) (last + 1) bound Hids Hb ltac:(lia)) as Hbelow.
    rewrite Hr in *. destruct r as [id|]; [|done]. by exists id.
  - unfold check_add_1 in E. destruct (Z.eqb_spec last I32_MAX); [lia|done].
Qed.

(** What binding makes of one field: an id that was given is kept, any other is new. *)
Record field_bound (ids : gset Z) (last : Z) (u : UnboundPartitionField) (f : PartitionField) : Prop := {
  fb_source : source_id f = u_source_id u;
  fb_name : partition_name f = u_name u;
  fb_transform : partition_transform f = u_transform u;
  fb_id : match u_field_id u with
          | Some id => partition_field_id f = id
          | None => last < partition_field_id f <= I32_MAX /\ partition_field_id f ∉ ids
          end;
}.

Lemma field_bound_weaken ids last last' u f :
  last' <= last -> field_bound ids last u f -> field_bound ids last' u f.
Proof. intros Hl [? ? ? Hid]. split; [done..|]. destruct (u_field_id u); [done|]. intuition lia. Qed.

Lemma set_ids_spec ids fields last :
  (forall u id, u ∈ fields -> u_field_id u = Some id -> id ∈ ids /\ id <= I32_MAX) ->
  last <= I32_MAX -> NoDup (omap u_field_id fields) ->
  match set_ids ids last fields with
  | Ok bound => Forall2 (field_bound ids last) fields bound /\ NoDup (partition_field_id <$> bound)
  | Err e => e = Error DataInvalid
  end.
Proof.
  revert last; induction fields as [|u fields IH]; intros last Hids Hmax Hd; cbn [set_ids].
  { split; constructor. }
  assert (forall v id, v ∈ fields -> u_field_id v = Some id -> id ∈ ids /\ id <= I32_MAX) as Hids'
    by (intros v id ? ?; apply (Hids v); [by right|done]).
  assert (forall v f last', field_bound ids last' v f -> v ∈ fields ->
    (u_field_id v = Some (partition_field_id f) /\ partition_field_id f ∈ ids)
    \/ (partition_field_id f ∉ ids /\ last' < partition_field_id f)) as Hcase.
  { intros v f last' [_ _ _ Hid] Hv. destruct (u_field_id v) as [i|] eqn:Ev; [left|right; intuition lia].
    subst i. split; [done|]. by eapply Hids'. }
  destruct (u_field_id u) as [id|] eqn:Eu; cbn [omap list_omap] in Hd.
  - cbn in Hd. rewrite Eu in Hd. apply NoDup_cons in Hd as [Hn Hd].
    destruct (Hids u id ltac:(by left) Eu) as [Hin Hle]. cbn [mbind result_bind fst snd].
    specialize (IH (Z.max last id) Hids' ltac:(lia) Hd).
    destruct (set_ids ids (Z.max last id) fields) as [rest|]; [|done]. destruct IH as [IH1 IH2].
    split.
    + constructor; [by split; cbn; rewrite ?Eu|]. eapply Forall2_impl; [exact IH1|].
      intros v f. apply field_bound_weaken. lia.
    + apply NoDup_cons. split; [|done]. intros (f & Ef & Hf)%list_elem_of_fmap. cbn in Ef.
      apply list_elem_of_lookup in Hf as [i Hi].
      destruct (Forall2_lookup_r _ _ _ _ _ IH1 Hi) as (v & Hv & Hb). apply list_elem_of_lookup_2 in Hv.
      destruct (Hcase v f _ Hb Hv) as [[Ev _]|[? _]]; [|congruence].
      apply Hn, list_elem_of_omap. exists v. by rewrite Ev, <- Ef.
  - cbn in Hd. rewrite Eu in Hd. pose proof (next_free_spec ids last) as Hnf.
    destruct (next_free ids last) as [id|]; [|done]. cbn [mbind result_bind fst snd].
    destruct Hnf as (Hlt & Hnin & Hle). specialize (Hle Hmax).
    specialize (IH id Hids' Hle Hd). destruct (set_ids ids id fields) as [rest|]; [|done].
    destruct IH as [IH1 IH2]. split.
    + constructor; [by split; cbn; rewrite ?Eu|]. eapply Forall2_impl; [exact IH1|].
      intros v f. apply field_bound_weaken. lia.
    + apply NoDup_cons. split; [|done]. intros (f & Ef & Hf)%list_elem_of_fmap. cbn in Ef.
      apply list_elem_of_lookup in Hf as [i Hi].
      destruct (Forall2_lookup_r _ _ _ _ _ IH1 Hi) as (v & Hv & Hb). apply list_elem_of_lookup_2 in Hv.
      destruct (Hcase v f _ Hb Hv) as [[_ ?]|[_ ?]]; [congruence|lia].
Qed.

(** With room above the ids in use, ids do not run out. *)
Lemma set_ids_succeeds ids fields : forall last bound,
  (forall u id, u ∈ fields -> u_field_id u = Some id -> id ∈ ids) ->
  (forall id, id ∈ ids -> id <= bound) -> last <= bound ->
  bound + Z.of_nat (length fields) <= I32_MAX -> exists l, set_ids ids last fields = Ok l.
Proof.
  induction fields as [|u fields IH]; intros last bound Hin Hids Hl Hb; cbn [set_ids]; [by eexists|].
  cbn [length] in Hb. assert (forall v id, v ∈ fields -> u_field_id v = Some id -> id ∈ ids)
    by (intros v id ? ?; apply (Hin v); [by right|done]).
  destruct (u_field_id u) as [id|] eqn:Eu; cbn [mbind result_bind fst snd].
  - specialize (Hids id (Hin u id ltac:(by left) Eu)) as Hid.
    destruct (IH (Z.max last id) bound) as [l ->]; [done|done|lia..|by eexists].
  - destruct (next_free_below ids last bound Hids ltac:(lia) Hl) as (id & -> & Hid).
    cbn [mbind result_bind fst snd].
    destruct (IH id (bound + 1)) as [l ->]; [done| |lia..|by eexists].
    intros i Hi%Hids. lia.
Qed.

Lemma assigned_ids_elem fields id :
  id ∈ assigned_ids fields <-> exists u, u ∈ fields /\ u_field_id u = Some id.
Proof. unfold assigned_ids. by rewrite elem_of_list_to_set, list_elem_of_omap. Qed.

(** ** Theory: what the builders accept *)

Lemma ensure_Ok ok k : ensure ok k = Ok tt <-> ok = true.
Proof. by destruct ok. Qed.
Lemma ensure_Err ok k e : ensure ok k = Err e -> ok = false /\ e = Error k.
Proof. destruct ok; [done|]. by intros [= <-]. Qed.

Lemma existsb_absent {A} (test : A -> bool) (P : A -> Prop) l :
  (forall a, test a = true <-> P a) -> negb (existsb test l) = true <-> forall a, a ∈ l -> ~ P a.
Proof.
  intros HP. rewrite negb_true_iff, <- not_true_iff_false, existsb_exists. split.
  - intros H a Ha Hp. apply H. exists a. by rewrite <- list_elem_of_In, HP.
  - intros H (a & Ha%list_elem_of_In & Ht%HP). by apply (H a).
Qed.

Definition duplicates_key (f : UnboundPartitionField) : Z * str :=
  (u_source_id f, dedup_name (u_transform f)).

Lemma NoDup_snoc {A} (l : list A) x : NoDup (l ++ [x]) <-> NoDup l /\ x ∉ l.
Proof.
  rewrite NoDup_app. split.
  - intros (? & H & _). split; [done|]. intros Hx. apply (H x Hx). by left.
  - intros [? Hx]. split_and!; [done| |apply NoDup_singleton].
    intros y Hy ->%list_elem_of_singleton. done.
Qed.

Lemma name_check fields name :
  check_name_set_and_unique fields name = Ok tt <-> name <> ""%string /\ name ∉ (u_name <$> fields).
Proof.
  unfold check_name_set_and_unique. rewrite bind_Ok. setoid_rewrite ensure_Ok. split.
  - intros ([] & H1 & H2). rewrite ensure_Ok in H1. apply negb_true_iff, bool_decide_eq_false in H1.
    split; [done|]. rewrite (existsb_absent _ (fun f => u_name f = name)) in H2
      by (intros; apply bool_decide_eq_true).
    intros (f & -> & Hf)%list_elem_of_fmap. by apply (H2 f).
  - intros [Hn Hf]. exists tt. rewrite ensure_Ok. split; [by apply negb_true_iff, bool_decide_eq_false|].
    apply (existsb_absent _ (fun f => u_name f = name)); [intros; apply bool_decide_eq_true|].
    intros f Hin <-. apply Hf. by apply list_elem_of_fmap_2.
Qed.

Lemma redundant_check fields u :
  check_for_redundant_partitions fields (u_source_id u) (u_transform u) = Ok tt
  <-> duplicates_key u ∉ (duplicates_key <$> fields).
Proof.
  unfold check_for_redundant_partitions. rewrite ensure_Ok.
  rewrite (existsb_absent _ (fun f => duplicates_key f = duplicates_key u)).
  - rewrite list_elem_of_fmap. split; [intros H (f & E & Hf); by apply (H f)|].
    intros H f Hf E. apply H. by exists f.
  - intros f. rewrite andb_true_iff, Z.eqb_eq, bool_decide_eq_true. unfold duplicates_key.
    split; [by intros [-> ->]|by intros [= -> ->]].
Qed.

Lemma id_check fields u :
  check_id_if_set fields u = Ok tt
  <-> forall id, u_field_id u = Some id -> id ∉ omap u_field_id fields.
Proof.
  unfold check_id_if_set, check_partition_id_unique. destruct (u_field_id u) as [id|]; [|done].
  rewrite ensure_Ok, (existsb_absent _ (fun f => u_field_id f = Some id))
    by (intros; apply bool_decide_eq_true).
  split.
  - intros H _ [= <-] (f & Hf & E)%list_elem_of_omap. by apply (H f).
  - intros H f Hf E. apply (H id eq_refl). apply list_elem_of_omap. by exists f.
Qed.

(** The name does not hide a column, unless it is the field's own column, taken as it is. *)
Definition names_own_column (schema : Schema) (u : UnboundPartitionField) : Prop :=
  forall g, field_by_name schema (u_name u) = Some g ->
    u_transform u = Transform.Identity /\ field_id g = u_source_id u.
Definition transforms_source (schema : Schema) (u : UnboundPartitionField) : Prop :=
  exists g, field_by_id schema (u_source_id u) = Some g
    /\ (u_transform u = Transform.Void
        \/ exists p rt, field_type g = TPrimitive p /\ result_type (u_transform u) (TPrimitive p) = Ok rt).

Lemma collision_check u schema :
  check_name_does_not_collide_with_schema u schema = Ok tt <-> names_own_column schema u.
Proof.
  unfold check_name_does_not_collide_with_schema, names_own_column.
  destruct (field_by_name schema (u_name u)) as [g|]; [|done].
  case_bool_decide as Ht; [rewrite ensure_Ok, Z.eqb_eq|]; split.
  - by intros Hg _ [= <-].
  - intros H. by apply (H g).
  - done.
  - intros H. by destruct (H g eq_refl).
Qed.

Lemma transform_check u schema :
  check_transform_compatibility u schema = Ok tt <-> transforms_source schema u.
Proof.
  unfold check_transform_compatibility, transforms_source.
  destruct (field_by_id schema (u_source_id u)) as [g|]; cbn [ok_or mbind result_bind];
    [|by split; [|intros (? & ? & _)]].
  case_bool_decide as Ht; [split; [intros _; exists g; auto|done]|]. rewrite bind_Ok.
  setoid_rewrite ensure_Ok. split.
  - intros ([] & H1 & H2). rewrite ensure_Ok in H1. exists g. split; [done|]. right.
    destruct (field_type g) as [p| | |]; try done. apply is_ok_true in H2 as [rt Hrt]. eauto.
  - intros (g' & [= <-] & [?|(p & rt & Hp & Hrt)]); [done|]. exists tt.
    rewrite ensure_Ok, Hp, Hrt. done.
Qed.

(** The unbound fields that can be bound to a schema. *)
Record valid_unbound (schema : Schema) (fields : list UnboundPartitionField) : Prop := {
  vu_names : NoDup (u_name <$> fields);
  vu_named : Forall (fun u => u_name u <> ""%string) fields;
  vu_redundant : NoDup (duplicates_key <$> fields);
  vu_ids : NoDup (omap u_field_id fields);
  vu_collision : Forall (names_own_column schema) fields;
  vu_source : Forall (transforms_source schema) fields;
}.

Lemma valid_unbound_nil schema : valid_unbound schema [].
Proof. split; constructor. Qed.

Lemma omap_snoc {A B} (f : A -> option B) l x :
  omap f (l ++ [x]) = omap f l ++ match f x with Some y => [y] | None => [] end.
Proof. rewrite omap_app. cbn. by destruct (f x). Qed.

Lemma valid_unbound_snoc schema fields u :
  valid_unbound schema (fields ++ [u]) <->
  valid_unbound schema fields
  /\ (u_name u <> ""%string /\ u_name u ∉ (u_name <$> fields))
  /\ duplicates_key u ∉ (duplicates_key <$> fields)
  /\ names_own_column schema u /\ transforms_source schema u
  /\ (forall id, u_field_id u = Some id -> id ∉ omap u_field_id fields).
Proof.
  split.
  - intros [H1 H2 H3 H4 H5 H6]. rewrite fmap_app in H1. rewrite fmap_app in H3. cbn in H1, H3.
    rewrite omap_snoc in H4. apply Forall_app in H2 as [? [? _]%Forall_cons].
    apply Forall_app in H5 as [? [? _]%Forall_cons]. apply Forall_app in H6 as [? [? _]%Forall_cons].
    apply NoDup_snoc in H1 as [? ?]. apply NoDup_snoc in H3 as [? ?].
    apply NoDup_app in H4 as (? & Hd & _).
    split; [by split|]. split_and!; try done. intros id Hid Hin. rewrite Hid in Hd.
    apply (Hd id Hin). by left.
  - intros ([? ? ? ? ? ?] & [? ?] & ? & ? & ? & Hid).
    split; rewrite ?fmap_app, ?omap_snoc; try (by apply Forall_app; split; [|apply Forall_singleton]);
      try (by apply NoDup_snoc).
    destruct (u_field_id u) as [id|]; [|by rewrite app_nil_r]. apply NoDup_snoc. split; [done|]. by apply Hid.
Qed.

Lemma add_unbound_field_Ok self u self' :
  add_unbound_field self u = Ok self' <->
  self' = mkSpecBuilder (pb_spec_id self) (pb_last_assigned_field_id self) (pb_fields self ++ [u])
            (pb_schema self)
  /\ (u_name u <> ""%string /\ u_name u ∉ (u_name <$> pb_fields self))
  /\ duplicates_key u ∉ (duplicates_key <$> pb_fields self)
  /\ names_own_column (pb_schema self) u /\ transforms_source (pb_schema self) u
  /\ (forall id, u_field_id u = Some id -> id ∉ omap u_field_id (pb_fields self)).
Proof.
  unfold add_unbound_field. rewrite <- name_check, <- redundant_check, <- collision_check,
    <- transform_check, <- id_check. split.
  - intros ([] & -> & H)%bind_Ok. apply bind_Ok in H as ([] & -> & H).
    apply bind_Ok in H as ([] & -> & H). apply bind_Ok in H as ([] & -> & H).
    apply bind_Ok in H as ([] & -> & [= <-]). done.
  - by intros (-> & -> & -> & -> & -> & ->).
Qed.

Lemma bind_Err {A B} (f : A -> result B) r e :
  r ≫= f = Err e <-> r = Err e \/ exists a, r = Ok a /\ f a = Err e.
Proof. destruct r as [a|e']; cbn; split; naive_solver. Qed.

Lemma add_unbound_field_Err self u e : add_unbound_field self u = Err e -> e = Error DataInvalid.
Proof.
  unfold add_unbound_field, check_name_set_and_unique, check_for_redundant_partitions,
    check_name_does_not_collide_with_schema, check_transform_compatibility, check_id_if_set,
    check_partition_id_unique, ensure, ok_or.
  repeat (case_match; cbn [mbind result_bind]); try done; by intros [= <-].
Qed.

Lemma add_unbound_fields_Ok fields : forall self self',
  valid_unbound (pb_schema self) (pb_fields self) ->
  (add_unbound_fields self fields = Ok self' <->
   self' = mkSpecBuilder (pb_spec_id self) (pb_last_assigned_field_id self) (pb_fields self ++ fields)
             (pb_schema self)
   /\ valid_unbound (pb_schema self) (pb_fields self ++ fields)).
Proof.
  unfold add_unbound_fields. induction fields as [|u fields IH]; intros self self' Hv; cbn [try_fold].
  - rewrite app_nil_r. destruct self. split; [by intros [= <-]|by intros [-> _]].
  - rewrite bind_Ok. setoid_rewrite add_unbound_field_Ok.
    replace (pb_fields self ++ u :: fields) with ((pb_fields self ++ [u]) ++ fields)
      by by rewrite <- app_assoc. split.
    + intros (b & (-> & Hu) & H). apply IH in H as [-> H]; [by split|].
      by apply valid_unbound_snoc.
    + intros [-> H]. assert (valid_unbound (pb_schema self) (pb_fields self ++ [u])) as Hv'.
      { destruct H as [H1 H2 H3 H4 H5 H6]. rewrite fmap_app in H1. rewrite fmap_app in H3. rewrite omap_app in H4.
        split; [by apply NoDup_app in H1 as [? _]|by apply Forall_app in H2 as [? _]|
          by apply NoDup_app in H3 as [? _]|by apply NoDup_app in H4 as [? _]|
          by apply Forall_app in H5 as [? _]|by apply Forall_app in H6 as [? _]]. }
      eexists. split; [split; [done|by apply valid_unbound_snoc in Hv' as [_ ?]]|].
      by apply IH.
Qed.

Lemma add_unbound_fields_Err fields : forall self e,
  add_unbound_fields self fields = Err e -> e = Error DataInvalid.
Proof.
  unfold add_unbound_fields. induction fields as [|u fields IH]; intros self e; cbn [try_fold]; [done|].
  intros [?%add_unbound_field_Err|(b & _ & ?%IH)]%bind_Err; done.
Qed.

Lemma bound_partition_type schema ids last us spec :
  Forall2 (field_bound ids last) us (spec_fields spec) -> Forall (transforms_source schema) us ->
  exists fields, partition_type spec schema = Ok fields.
Proof.
  unfold partition_type. generalize (spec_fields spec). intros fs H.
  induction H as [|v f us' fs [E1 E2 E3 E4] _ IH]; intros Hsrc; [by exists []|].
  apply Forall_cons in Hsrc as [(g & Hg & Ht) Hsrc]. destruct (IH Hsrc) as [l Hl].
  cbn [mapR]. rewrite E1, E3, Hg. cbn [ok_or mbind result_bind].
  destruct Ht as [->|(p & rt & -> & ->)]; cbn [result_type mbind result_bind]; rewrite Hl; by eexists.
Qed.

Lemma ids_run_out fields last e :
  set_field_ids fields last = Err e ->
  exists id, (id = last \/ id ∈ assigned_ids fields) /\ I32_MAX < id + Z.of_nat (length fields).
Proof.
  intros E. destruct (decide (Exists (fun id => I32_MAX < id + Z.of_nat (length fields))
                        (last :: elements (assigned_ids fields)))) as [H|H].
  - apply Exists_exists in H as (id & Hid & Hlt). exists id. split; [|done].
    apply elem_of_cons in Hid as [->|?%elem_of_elements]; auto.
  - exfalso. apply Forall_Exists_neg in H. rewrite Forall_forall in H.
    destruct (set_ids_succeeds (assigned_ids fields) fields last (I32_MAX - Z.of_nat (length fields)))
      as [l Hl]; [| | |lia|unfold set_field_ids in E; congruence].
    + intros u id Hu Hid. apply assigned_ids_elem. by exists u.
    + intros id Hid. assert (~ I32_MAX < id + Z.of_nat (length fields)); [|lia].
      apply H. right. by apply elem_of_elements.
    + assert (~ I32_MAX < last + Z.of_nat (length fields)); [|lia]. apply H. by left.
Qed.

(** ** Properties *)

Definition ids_fit (fields : list UnboundPartitionField) : Prop :=
  forall u id, u ∈ fields -> u_field_id u = Some id -> id <= I32_MAX.

(** Binding an unbound spec to a schema succeeds exactly on the specs whose names, ids and
    source-transform pairs are distinct, whose names hide no other column and whose transforms
    fit their source columns, unless the field ids run out; the bound spec keeps every field,
    its ids are distinct, given ids are kept, and its partition type exists.  The loop that
    looks for free ids ends: an error is never anything but invalid data. *)
Theorem bind_validates u schema :
  ids_fit (u_fields u) ->
  match unbound_bind u schema with
  | Ok spec =>
      valid_unbound schema (u_fields u)
      /\ spec_id spec = default DEFAULT_PARTITION_SPEC_ID (u_spec_id u)
      /\ Forall2 (field_bound (assigned_ids (u_fields u)) UNPARTITIONED_LAST_ASSIGNED_ID)
           (u_fields u) (spec_fields spec)
      /\ NoDup (partition_field_id <$> spec_fields spec)
      /\ exists fields, partition_type spec schema = Ok fields
  | Err e =>
      e = Error DataInvalid
      /\ (valid_unbound schema (u_fields u) ->
          exists id, (id = UNPARTITIONED_LAST_ASSIGNED_ID \/ id ∈ assigned_ids (u_fields u))
            /\ I32_MAX < id + Z.of_nat (length (u_fields u)))
  end.
Proof.
  intros Hfit. unfold unbound_bind.
  pose proof (add_unbound_fields_Ok (u_fields u)
    (builder_with_spec_id (spec_builder_new schema) (default DEFAULT_PARTITION_SPEC_ID (u_spec_id u))))
    as Hok.
  destruct (new_from_unbound u schema) as [b|e] eqn:E; cbn [mbind result_bind]; unfold new_from_unbound in E.
  - apply Hok in E as [-> Hv]; [|apply valid_unbound_nil]. cbn in Hv. unfold spec_build.
    cbn [pb_fields pb_last_assigned_field_id builder_with_spec_id spec_builder_new app pb_spec_id].
    assert (forall v id, v ∈ u_fields u -> u_field_id v = Some id ->
              id ∈ assigned_ids (u_fields u) /\ id <= I32_MAX) as Hids.
    { intros v id Hin Hid. split; [|by eapply Hfit]. apply assigned_ids_elem. by exists v. }
    pose proof (set_ids_spec _ (u_fields u) UNPARTITIONED_LAST_ASSIGNED_ID Hids ltac:(done)
                  (vu_ids _ _ Hv)) as H. fold (set_field_ids (u_fields u) UNPARTITIONED_LAST_ASSIGNED_ID) in H.
    destruct (set_field_ids _ _) as [fields|e] eqn:Es; cbn [mbind result_bind].
    + destruct H as [H1 H2]. do 4 (split; [done|]).
      eapply bound_partition_type; [exact H1|]. by apply vu_source.
    + split; [done|]. intros _. by eapply ids_run_out.
  - split; [by eapply add_unbound_fields_Err|]. intros Hv.
    destruct (Hok (mkSpecBuilder (Some (default DEFAULT_PARTITION_SPEC_ID (u_spec_id u)))
      UNPARTITIONED_LAST_ASSIGNED_ID (u_fields u) schema) (valid_unbound_nil schema)) as [_ H].
    rewrite H in E; [done|]. by split.
Qed.

Section witness.
#[local] Instance ascii_only : Lowercase := fun s => s.
Definition ex_partition_schema : Schema :=
  match build (mkSchemaBuilder 0 [mkField 1 "a" false (TPrimitive PrimitiveType.Int);
                                  mkField 2 "b" false (TPrimitive PrimitiveType.String)] [] ∅ None) with
  | Ok s => s
  | Err _ => mkSchema [] 0 0 ∅ [] ∅ ∅ ∅ ∅ ∅
  end.
(** The given id 1001 is skipped when the first field gets its own. *)
Definition ex_unbound : UnboundPartitionSpec :=
  mkUnboundSpec None [mkUnboundField 2 (Some 1000) "b" Transform.Identity;
                      mkUnboundField 1 None "a_bucket" (Transform.Bucket 16);
                      mkUnboundField 1 (Some 1001) "a_trunc" (Transform.Truncate 10)].

Lemma bind_validates_witness :
  exists spec, unbound_bind ex_unbound ex_partition_schema = Ok spec
    /\ partition_field_id <$> spec_fields spec = [1000; 1002; 1001]
    /\ NoDup (partition_field_id <$> spec_fields spec).
Proof.
  eexists. split; [vm_compute; reflexivity|]. split; [reflexivity|].
  refine (match bind_validates ex_unbound ex_partition_schema _ with conj _ (conj _ (conj _ (conj H _))) => H end).
  intros u id [->|[->|[->|[]%not_elem_of_nil]%elem_of_cons]%elem_of_cons]%elem_of_cons [= <-]; done.
Defined.
End witness.
