(* ===== verification/SortOrders.v ===== *)
(** * Sort orders and their builder (spec/sort.rs) *)

From S2P Require Import Prelude Values Schema Transform.

Inductive SortDirection := Ascending | Descending.
Inductive NullOrder := First | Last.
#[global] Instance SortDirection_eq_dec : EqDecision SortDirection.
Proof. solve_decision. Defined.
#[global] Instance NullOrder_eq_dec : EqDecision NullOrder.
Proof. solve_decision. Defined.

Record SortField := mkSortField {
  sort_source_id : Z;
  sort_transform : Transform.t;
  direction : SortDirection;
  null_order : NullOrder;
}.
#[global] Instance SortField_eq_dec : EqDecision SortField.
Proof. solve_decision. Defined.

Record SortOrder := mkSortOrder { order_id : Z; sort_fields : list SortField }.

Definition UNSORTED_ORDER_ID : Z := 0.
Definition unsorted_order : SortOrder := mkSortOrder UNSORTED_ORDER_ID [].
Definition is_unsorted (self : SortOrder) : bool :=
  match sort_fields self with [] => true | _ => false end.
Definition with_order_id (self : SortOrder) (id : Z) : SortOrder := mkSortOrder id (sort_fields self).

(** ** [SortOrderBuilder] *)

Record SortOrderBuilder := mkSortOrderBuilder {
  sb_order_id : option Z;
  sb_fields : option (list SortField);
}.
Definition sort_builder : SortOrderBuilder := mkSortOrderBuilder None None.
Definition sort_with_order_id (self : SortOrderBuilder) (id : Z) : SortOrderBuilder :=
  mkSortOrderBuilder (Some id) (sb_fields self).
Definition sort_with_fields (self : SortOrderBuilder) (fields : list SortField) : SortOrderBuilder :=
  mkSortOrderBuilder (sb_order_id self) (Some fields).
Definition with_sort_field (self : SortOrderBuilder) (field : SortField) : SortOrderBuilder :=
  mkSortOrderBuilder (sb_order_id self) (Some (default [] (sb_fields self) ++ [field])).

Definition build_unbound (self : SortOrderBuilder) : result SortOrder :=
  match sb_order_id self, default [] (sb_fields self) with
  | None, [] => Ok unsorted_order
  | Some id, [] => if id =? UNSORTED_ORDER_ID then Ok unsorted_order else Err (Error Unexpected)
  | Some id, fields =>
      if id =? UNSORTED_ORDER_ID then Err (Error Unexpected) else Ok (mkSortOrder id fields)
  | None, fields => Ok (mkSortOrder 1 fields)
  end.

Definition check_sort_field (schema : Schema) (sort_field : SortField) : result unit :=
  match field_by_id schema (sort_source_id sort_field) with
  | None => Err (Error Unexpected)
  | Some source_field =>
      if is_primitive (field_type source_field)
         && is_ok (result_type (sort_transform sort_field) (field_type source_field))
      then Ok tt else Err (Error Unexpected)
  end.
Definition check_compatibility (sort_order : SortOrder) (schema : Schema) : result SortOrder :=
  let? _ := mapR (check_sort_field schema) (sort_fields sort_order) in Ok sort_order.

Definition sort_build (self : SortOrderBuilder) (schema : Schema) : result SortOrder :=
  let? unbound_sort_order := build_unbound self in check_compatibility unbound_sort_order schema.

(** ** Theory *)

(** A sort field that a schema supports. *)
Definition sortable (schema : Schema) (f : SortField) : Prop :=
  exists g p rt, field_by_id schema (sort_source_id f) = Some g /\ field_type g = TPrimitive p
    /\ result_type (sort_transform f) (TPrimitive p) = Ok rt.

(** The id 0 stands for no order, and for nothing else. *)
Definition order_id_ok (o : SortOrder) : Prop :=
  order_id o = UNSORTED_ORDER_ID <-> sort_fields o = [].

Lemma check_sort_field_Ok schema f : check_sort_field schema f = Ok tt <-> sortable schema f.
Proof.
  unfold check_sort_field, sortable. destruct (field_by_id schema (sort_source_id f)) as [g|];
    [|by split; [|intros (? & ? & ? & ? & _)]]. split.
  - destruct (field_type g) as [p| | |] eqn:Et; cbn [is_primitive andb]; try done.
    destruct (result_type _ _) as [rt|] eqn:Er; [|done]. intros _. by exists g, p, rt.
  - intros (g' & p & rt & [= <-] & -> & ->). done.
Qed.

Lemma check_compatibility_Ok o schema o' :
  check_compatibility o schema = Ok o' <-> o' = o /\ Forall (sortable schema) (sort_fields o).
Proof.
  unfold check_compatibility. rewrite bind_Ok. split.
  - intros (l & Hl%mapR_Ok & [= <-]). split; [done|].
    induction Hl as [|f [] fs l Hf _ IH]; constructor; [by apply check_sort_field_Ok|done].
  - intros [-> H]. exists (replicate (length (sort_fields o)) tt). split; [|done].
    apply mapR_Ok. induction H as [|f fs Hf _ IH]; constructor; [by apply check_sort_field_Ok|done].
Qed.

Lemma sort_build_Ok b schema o :
  sort_build b schema = Ok o ->
  order_id_ok o /\ Forall (sortable schema) (sort_fields o) /\ sort_fields o = default [] (sb_fields b)
  /\ (sort_fields o <> [] -> forall id, sb_order_id b = Some id -> order_id o = id).
Proof.
  intros (u & Hu & [-> H]%check_compatibility_Ok)%bind_Ok. unfold build_unbound in Hu.
  destruct (sb_order_id b) as [id|], (default [] (sb_fields b)) as [|f fs];
    try destruct (Z.eqb_spec id UNSORTED_ORDER_ID); inv_ok; simplify_eq; unfold order_id_ok; cbn in *;
    naive_solver.
Qed.

(** A sort order that was checked keeps passing the check with the id [build] gives it. *)
Lemma sort_rebuild schema fields :
  Forall (sortable schema) fields -> is_ok (sort_build (sort_with_fields sort_builder fields) schema) = true.
Proof.
  intros H. unfold sort_build, build_unbound. cbn.
  destruct fields as [|f fs]; cbn [mbind result_bind]; apply is_ok_true.
  - eexists. by apply check_compatibility_Ok.
  - eexists. by apply check_compatibility_Ok.
Qed.
