(* ===== verification/Project.v ===== *)
(** * Projecting a predicate through a transform (spec/transform.rs)

    [Transform::project] turns a predicate on a column into a predicate on the
    partition value that holds wherever the original holds;
    [Transform::strict_project] into one that holds only where the original
    does. *)

From S2P Require Import Prelude Utf8 Bytes Numerals Decimal Values Expr Transform.

Inductive AdjustedProjection :=
| Single (d : Datum)
| SetOf (ds : list Datum).

Section project.
Context {V : ValueLib} {TL : TransformLib}.

Definition can_transform (self : Transform.t) (datum : Datum) : bool :=
  is_ok (result_type self (TPrimitive (datum_type datum))).

Definition project_unary (op : PredicateOperator.t) (name : string) : result (option Predicate) :=
  Ok (Some (Unary op (mkReference name))).

Definition project_binary_expr (self : Transform.t) (name : string) (op : PredicateOperator.t)
    (expr_op : PredicateOperator.t) (literal : Datum) (func : TransformFunction) :
    result (option Predicate) :=
  if negb (bool_decide (expr_op = op)) || negb (can_transform self literal) then Ok None
  else
    let? d := transform_literal_result func literal in
    Ok (Some (Binary expr_op (mkReference name) d)).

(** [v - 1] and [v + 1] wrap at the width of the literal. *)
Definition shift_boundary (delta : Z) (datum : Datum) : result Datum :=
  match datum_type datum, datum_literal datum with
  | PrimitiveType.Int, PrimitiveLiteral.Int v => Ok (datum_int (wrapS 32 (v + delta)))
  | PrimitiveType.Long, PrimitiveLiteral.Long v => Ok (datum_long (wrapS 64 (v + delta)))
  | PrimitiveType.Decimal _ _, PrimitiveLiteral.Int128 v =>
      datum_decimal (decimal_from_i128_with_scale (wrapS 128 (v + delta)) 0)
  | PrimitiveType.Date, PrimitiveLiteral.Int v => Ok (datum_date (wrapS 32 (v + delta)))
  | PrimitiveType.Timestamp, PrimitiveLiteral.Long v =>
      Ok (timestamp_micros (wrapS 64 (v + delta)))
  | _, _ => Ok datum
  end.

Definition adjust_boundary (op : PredicateOperator.t) (datum : Datum) : result (option Datum) :=
  match op with
  | PredicateOperator.LessThan => Some <$> shift_boundary (-1) datum
  | PredicateOperator.GreaterThan => Some <$> shift_boundary 1 datum
  | PredicateOperator.Eq | PredicateOperator.LessThanOrEq | PredicateOperator.GreaterThanOrEq
  | PredicateOperator.StartsWith | PredicateOperator.NotStartsWith => Ok (Some datum)
  | _ => Ok None
  end.

Definition adjust_operator (op : PredicateOperator.t) (datum : Datum) (width : option Z) :
    option PredicateOperator.t :=
  match op with
  | PredicateOperator.LessThan => Some PredicateOperator.LessThanOrEq
  | PredicateOperator.GreaterThan => Some PredicateOperator.GreaterThanOrEq
  | PredicateOperator.StartsWith =>
      match datum_literal datum, width with
      | PrimitiveLiteral.String s, Some w =>
          if Z.of_nat (str_len s) =? w then Some PredicateOperator.Eq else Some op
      | _, _ => Some op
      end
  | PredicateOperator.NotStartsWith =>
      match datum_literal datum, width with
      | PrimitiveLiteral.String s, Some w =>
          if Z.of_nat (str_len s) =? w then Some PredicateOperator.NotEq
          else if Z.of_nat (str_len s) <? w then Some op
          else None
      | _, _ => Some op
      end
  | _ => Some op
  end.

Definition adjust_time_projection (self : Transform.t) (op : PredicateOperator.t)
    (original transformed : Datum) : option AdjustedProjection :=
  let should_adjust :=
    match self with
    | Transform.Day => bool_decide (datum_type original = PrimitiveType.Timestamp)
    | Transform.Year | Transform.Month => true
    | _ => false
    end in
  let incremented v :=
    match self with
    | Transform.Day => datum_date (wrapS 32 (v + 1))
    | _ => datum_int (wrapS 32 (v + 1))
    end in
  match should_adjust, datum_literal transformed with
  | true, PrimitiveLiteral.Int v =>
      match op with
      | PredicateOperator.LessThan | PredicateOperator.LessThanOrEq | PredicateOperator.In =>
          if v <? 0 then Some (Single (incremented v)) else None
      | PredicateOperator.Eq =>
          if v <? 0 then Some (SetOf (set_from_iter [transformed; incremented v])) else None
      | _ => None
      end
  | _, _ => None
  end.

Definition project_binary_with_adjusted_boundary (self : Transform.t) (name : string)
    (op : PredicateOperator.t) (datum : Datum) (func : TransformFunction) (width : option Z) :
    result (option Predicate) :=
  if negb (can_transform self datum) then Ok None
  else
    let? boundary := adjust_boundary op datum in
    match boundary with
    | Some boundary =>
        let? transformed_projection := transform_literal_result func boundary in
        let adjusted_projection := adjust_time_projection self op datum transformed_projection in
        match adjust_operator op datum width with
        | Some op =>
            Ok (Some
              (match adjusted_projection with
               | None => Binary op (mkReference name) transformed_projection
               | Some (Single d) => Binary op (mkReference name) d
               | Some (SetOf d) => SetP PredicateOperator.In (mkReference name) d
               end))
        | None => Ok None
        end
    | None => Ok None
    end.

(** The loop over the literals of [project_set_expr]. *)
Definition project_set_step (self : Transform.t) (op : PredicateOperator.t)
    (func : TransformFunction) (new_set : list Datum) (lit : Datum) : result (list Datum) :=
  let? datum := transform_literal_result func lit in
  let new_set :=
    match adjust_time_projection self op lit datum with
    | Some (Single d) => set_insert new_set d
    | _ => new_set
    end in
  Ok (set_insert new_set datum).

Definition project_set_expr (self : Transform.t) (expr_op : PredicateOperator.t)
    (literals : list Datum) (op : PredicateOperator.t) (name : string)
    (func : TransformFunction) : result (option Predicate) :=
  if negb (bool_decide (expr_op = op)) || existsb (fun d => negb (can_transform self d)) literals
  then Ok None
  else
    let? new_set := try_fold (project_set_step self op func) [] literals in
    Ok (Some (SetP expr_op (mkReference name) new_set)).

Definition project (self : Transform.t) (name : string) (predicate : BoundPredicate) :
    result (option Predicate) :=
  let? func := create_transform_function self in
  match self, predicate with
  | (Transform.Identity | Transform.Bucket _ | Transform.Truncate _
     | Transform.Year | Transform.Month | Transform.Day | Transform.Hour), Unary op _ =>
      project_unary op name
  | Transform.Identity, Binary op _ literal => Ok (Some (Binary op (mkReference name) literal))
  | Transform.Identity, SetP op _ literals => Ok (Some (SetP op (mkReference name) literals))
  | Transform.Bucket _, Binary op _ literal =>
      project_binary_expr self name PredicateOperator.Eq op literal func
  | Transform.Bucket _, SetP op _ literals =>
      project_set_expr self op literals PredicateOperator.In name func
  | Transform.Truncate width, Binary op _ literal =>
      project_binary_with_adjusted_boundary self name op literal func (Some width)
  | Transform.Truncate _, SetP op _ literals =>
      project_set_expr self op literals PredicateOperator.In name func
  | (Transform.Year | Transform.Month | Transform.Day | Transform.Hour), Binary op _ literal =>
      project_binary_with_adjusted_boundary self name op literal func None
  | (Transform.Year | Transform.Month | Transform.Day | Transform.Hour), SetP op _ literals =>
      project_set_expr self op literals PredicateOperator.In name func
  | _, _ => Ok None
  end.

(** *** Strict projection *)

(** [try_increment_number] and [try_decrement_number], by the step. *)
Definition try_shift_number (delta : Z) (datum : Datum) : result Datum :=
  match datum_type datum, datum_literal datum with
  | PrimitiveType.Int, PrimitiveLiteral.Int v => Ok (datum_int (wrapS 32 (v + delta)))
  | PrimitiveType.Long, PrimitiveLiteral.Long v => Ok (datum_long (wrapS 64 (v + delta)))
  | PrimitiveType.Decimal _ _, PrimitiveLiteral.Int128 v =>
      datum_decimal (decimal_from_i128_with_scale (wrapS 128 (v + delta)) 0)
  | PrimitiveType.Date, PrimitiveLiteral.Int v => Ok (datum_date (wrapS 32 (v + delta)))
  | PrimitiveType.Timestamp, PrimitiveLiteral.Long v =>
      Ok (timestamp_micros (wrapS 64 (v + delta)))
  | PrimitiveType.TimestampNs, PrimitiveLiteral.Long v =>
      Ok (timestamp_nanos (wrapS 64 (v + delta)))
  | PrimitiveType.Timestamptz, PrimitiveLiteral.Long v =>
      Ok (timestamptz_micros (wrapS 64 (v + delta)))
  | PrimitiveType.TimestamptzNs, PrimitiveLiteral.Long v =>
      Ok (timestamptz_nanos (wrapS 64 (v + delta)))
  | PrimitiveType.Int, _ | PrimitiveType.Long, _ | PrimitiveType.Decimal _ _, _
  | PrimitiveType.Date, _ | PrimitiveType.Timestamp, _ => Err (Error Unexpected)
  | _, _ => Ok datum
  end.
Definition try_increment_number : Datum -> result Datum := try_shift_number 1.
Definition try_decrement_number : Datum -> result Datum := try_shift_number (-1).

Definition binary_of (op : PredicateOperator.t) (name : string) (d : Datum) : option Predicate :=
  Some (Binary op (mkReference name) d).

Definition is_number_type (p : PrimitiveType.t) : bool :=
  match p with
  | PrimitiveType.Int | PrimitiveType.Long | PrimitiveType.Decimal _ _ | PrimitiveType.Date
  | PrimitiveType.Timestamp | PrimitiveType.Timestamptz
  | PrimitiveType.TimestampNs | PrimitiveType.TimestamptzNs => true
  | _ => false
  end.

Definition truncate_number_strict (name : string) (op : PredicateOperator.t) (boundary : Datum)
    (func : TransformFunction) : result (option Predicate) :=
  if negb (is_number_type (datum_type boundary)) then Err (Error DataInvalid)
  else
    match op with
    | PredicateOperator.LessThan =>
        binary_of PredicateOperator.LessThan name <$> transform_literal_result func boundary
    | PredicateOperator.LessThanOrEq =>
        let? b := try_increment_number boundary in
        binary_of PredicateOperator.LessThan name <$> transform_literal_result func b
    | PredicateOperator.GreaterThan =>
        binary_of PredicateOperator.GreaterThan name <$> transform_literal_result func boundary
    | PredicateOperator.GreaterThanOrEq =>
        let? b := try_decrement_number boundary in
        binary_of PredicateOperator.GreaterThan name <$> transform_literal_result func b
    | PredicateOperator.NotEq =>
        binary_of PredicateOperator.NotEq name <$> transform_literal_result func boundary
    | _ => Ok None
    end.

Definition truncate_array_strict (name : string) (op : PredicateOperator.t) (boundary : Datum)
    (func : TransformFunction) : result (option Predicate) :=
  match op with
  | PredicateOperator.LessThan | PredicateOperator.LessThanOrEq =>
      binary_of PredicateOperator.LessThan name <$> transform_literal_result func boundary
  | PredicateOperator.GreaterThan | PredicateOperator.GreaterThanOrEq =>
      binary_of PredicateOperator.GreaterThan name <$> transform_literal_result func boundary
  | PredicateOperator.NotEq =>
      binary_of PredicateOperator.NotEq name <$> transform_literal_result func boundary
  | _ => Ok None
  end.

(** The length of a prefix: [s.len()] or [b.len()]. *)
Definition literal_len (d : Datum) : result Z :=
  match datum_literal d with
  | PrimitiveLiteral.String s => Ok (Z.of_nat (str_len s))
  | PrimitiveLiteral.Binary b => Ok (Z.of_nat (length b))
  | _ => Err (Error DataInvalid)
  end.

Definition is_truncated_number (t : Ty) : bool :=
  match as_primitive_type t with
  | Some PrimitiveType.Int | Some PrimitiveType.Long | Some (PrimitiveType.Decimal _ _) => true
  | _ => false
  end.

Definition truncate_strict (width : Z) (name : string) (op : PredicateOperator.t)
    (term : BoundReference) (literal : Datum) (func : TransformFunction) :
    result (option Predicate) :=
  if is_truncated_number (field_type (ref_field term)) then
    truncate_number_strict name op literal func
  else
    match op with
    | PredicateOperator.StartsWith =>
        let? len := literal_len literal in
        match len ?= width with
        | Lt => Ok (binary_of PredicateOperator.StartsWith name literal)
        | Eq => Ok (binary_of PredicateOperator.Eq name literal)
        | Gt => Ok None
        end
    | PredicateOperator.NotStartsWith =>
        let? len := literal_len literal in
        match len ?= width with
        | Lt => Ok (binary_of PredicateOperator.NotStartsWith name literal)
        | Eq => Ok (binary_of PredicateOperator.NotEq name literal)
        | Gt => binary_of op name <$> transform_literal_result func literal
        end
    | _ => truncate_array_strict name op literal func
    end.

Definition strict_project (self : Transform.t) (name : string) (predicate : BoundPredicate) :
    result (option Predicate) :=
  let? func := create_transform_function self in
  match self, predicate with
  | (Transform.Identity | Transform.Bucket _ | Transform.Truncate _
     | Transform.Year | Transform.Month | Transform.Day | Transform.Hour), Unary op _ =>
      project_unary op name
  | Transform.Identity, Binary op _ literal => Ok (Some (Binary op (mkReference name) literal))
  | Transform.Identity, SetP op _ literals => Ok (Some (SetP op (mkReference name) literals))
  | Transform.Bucket _, Binary op _ literal =>
      project_binary_expr self name PredicateOperator.NotEq op literal func
  | Transform.Bucket _, SetP op _ literals =>
      project_set_expr self op literals PredicateOperator.NotIn name func
  | Transform.Truncate width, Binary op term literal =>
      truncate_strict width name op term literal func
  | Transform.Truncate _, SetP op _ literals =>
      project_set_expr self op literals PredicateOperator.NotIn name func
  | (Transform.Year | Transform.Month | Transform.Day | Transform.Hour), Binary op _ literal =>
      truncate_number_strict name op literal func
  | (Transform.Year | Transform.Month | Transform.Day | Transform.Hour), SetP op _ literals =>
      project_set_expr self op literals PredicateOperator.NotIn name func
  | _, _ => Ok None
  end.

End project.
