(* ===== verification/ProjectSpec.v ===== *)
(** * Soundness of the projection of one comparison

    Where a comparison on a column holds, its inclusive projection holds on the
    partition value of the column; where its strict projection holds on the
    partition value, the comparison holds on the column. *)

From S2P Require Import Prelude Utf8 Bytes Numerals Decimal Values Concrete DatumOrder Expr.
From S2P Require Import ExprEval Transform ConcreteTime TransformSpec Project.

(** ** Hypotheses *)

Section hypotheses.
Context {V : ValueLib} {TL : TransformLib}.

(** [y] is the partition value of the column value [x]: null for null, otherwise what the
    transform's function gives. *)
Definition partition_value (T : Transform.t) (x y : option Datum) : Prop :=
  match x with
  | None => y = None
  | Some d => exists f, create_transform_function T = Ok f /\ f d = Ok y
  end.

(** Decimals are not truncated: their projections cannot be bound
    ([truncated_decimal_does_not_bind]). *)
Definition truncatable (T : Transform.t) (d : Datum) : bool :=
  match T, datum_type d with
  | Transform.Truncate _, PrimitiveType.Decimal _ _ => false
  | _, _ => true
  end.

(** A prefix whose length in bytes is the width has as many characters. *)
Definition width_in_chars (T : Transform.t) (literal : Datum) : bool :=
  match T, datum_literal literal with
  | Transform.Truncate w, PrimitiveLiteral.String s =>
      implb (Z.of_nat (str_len s) =? w) (Z.of_nat (chars_count s) =? w)
  | _, _ => true
  end.

(** What a comparison's literals are to the column value [d], for the transform. *)
Definition literals_fit (T : Transform.t) (d : Datum) (q : BoundPredicate) : Prop :=
  match q with
  | Binary _ _ literal => comparable d literal
  | SetP _ _ literals => Forall (comparable d) literals
  | _ => True
  end.

(** The literal that the strict projection of an order comparison transforms. *)
Definition strict_boundary (op : PredicateOperator.t) (literal : Datum) : result Datum :=
  match op with
  | PredicateOperator.LessThanOrEq => try_increment_number literal
  | PredicateOperator.GreaterThanOrEq => try_decrement_number literal
  | _ => Ok literal
  end.

(** The value and the literal the projection transforms are in the exact range. *)
Definition projectable (T : Transform.t) (x : option Datum) (q : BoundPredicate) : Prop :=
  match x with
  | None => True
  | Some d =>
      literals_fit T d q /\ exact T d = true /\ truncatable T d = true
      /\ match q with
         | Binary op _ literal =>
             (forall b, adjust_boundary op literal = Ok (Some b) -> exact T b = true)
             /\ (op = PredicateOperator.StartsWith -> width_in_chars T literal = true)
         | _ => True
         end
  end.
Definition strict_projectable (T : Transform.t) (x : option Datum) (q : BoundPredicate) : Prop :=
  match x with
  | None => True
  | Some d =>
      literals_fit T d q /\ exact T d = true /\ truncatable T d = true
      /\ match q with
         | Binary op _ literal =>
             exact T literal = true
             /\ (forall b, strict_boundary op literal = Ok b -> exact T b = true)
             /\ (op = PredicateOperator.NotStartsWith -> width_in_chars T literal = true)
         | _ => True
         end
  end.
End hypotheses.

Section lemmas.
Context {V : ValueLib} {L : ValueLibLaws V} {TL : TransformLib} {TLL : TransformLibLaws TL}.

(** ** Comparisons as comparisons of keys *)

Lemma holds_order_iff x d :
  comparable x d ->
  (holds_binary PredicateOperator.LessThan (Some x) d = Some true <-> lex_lt (key x) (key d))
  /\ (holds_binary PredicateOperator.LessThanOrEq (Some x) d = Some true <-> lex_le (key x) (key d))
  /\ (holds_binary PredicateOperator.GreaterThan (Some x) d = Some true <-> lex_lt (key d) (key x))
  /\ (holds_binary PredicateOperator.GreaterThanOrEq (Some x) d = Some true
        <-> lex_le (key d) (key x)).
Proof.
  intros Hc. cbn. rewrite partial_cmp_key by done. unfold lex_lt, lex_le.
  rewrite (lex_cmp_antisym (key x) (key d)). destruct (lex_cmp (key x) (key d)); cbn;
    repeat split; congruence.
Qed.

Lemma datum_eqb_refl r : datum_eqb r r = true.
Proof.
  unfold datum_eqb. rewrite bool_decide_eq_true_2 by done. cbn [andb].
  destruct (datum_literal r); cbn [lit_eqb]; rewrite ?OrderedFloat_eq_ok, ?Z.eqb_refl; try done.
  - apply eqb_reflx.
  - destruct (float_is_nan 32 bits); done.
  - destruct (float_is_nan 64 bits); done.
  - by apply bool_decide_eq_true_2.
  - by apply bool_decide_eq_true_2.
Qed.

(** ** The transform functions *)

(** Literals that are equal give equal results; floats, on which [==] is not identity, are
    accepted by no transform but the identity. *)
Lemma eqb_same_result T f x d y :
  create_transform_function T = Ok f -> T <> Transform.Identity ->
  comparable x d -> datum_eqb x d = true -> f x = Ok (Some y) -> f d = Ok (Some y).
Proof.
  intros Hf Hi Hc. unfold datum_eqb. rewrite bool_decide_eq_true_2 by apply Hc. cbn [andb].
  destruct T; cbn in Hf; inv_ok; try done; datum_cases Hc; cbn [datum_literal lit_eqb];
    try discriminate; intros E; bool_to_prop; subst; try done;
    try (apply eqb_prop in E; subst; done);
    try (apply bool_decide_eq_true in E; try apply utf8_inj in E; try done; subst; done).
Qed.

(** A result of a transform on accepted input, by its type. *)
Lemma time_result_kind T f d r :
  create_transform_function T = Ok f -> f d = Ok (Some r) ->
  match T with
  | Transform.Day => exists n, r = datum_date n
  | Transform.Year | Transform.Month | Transform.Hour | Transform.Bucket _ => exists n, r = datum_int n
  | _ => True
  end.
Proof.
  intros Hf Hr. destruct T; cbn in Hf; inv_ok; try done.
  - unfold bucket_transform_literal in Hr. inv_ok. eauto.
  - unfold year_transform_literal in Hr. inv_ok. eauto.
  - unfold month_transform_literal in Hr. inv_ok. eauto.
  - unfold day_transform_literal in Hr. inv_ok. eauto.
  - unfold hour_transform_literal in Hr. inv_ok. eauto.
Qed.

(** ** Boundaries *)

Definition is_decimal (p : PrimitiveType.t) : bool :=
  match p with PrimitiveType.Decimal _ _ => true | _ => false end.

Lemma inS_shift n v x delta :
  0 < n -> inS n v = true -> inS n x = true ->
  (delta = -1 /\ x < v \/ delta = 1 /\ v < x) -> wrapS n (v + delta) = v + delta /\ inS n (v + delta) = true.
Proof.
  intros Hn Hv Hx Hd. assert (inS n (v + delta) = true) as E.
  { apply inS_spec in Hv, Hx. apply inS_spec. lia. }
  split; [by apply wrapS_id|done].
Qed.

(** [b] is [lit] or its number moved by [delta] at the width of its type. *)
Definition moved (delta : Z) (lit b : Datum) : Prop :=
  b = lit
  \/ (exists v, datum_literal lit = PrimitiveLiteral.Int v
        /\ b = mkDatum (datum_type lit) (PrimitiveLiteral.Int (wrapS 32 (v + delta))))
  \/ (exists v, datum_literal lit = PrimitiveLiteral.Long v
        /\ b = mkDatum (datum_type lit) (PrimitiveLiteral.Long (wrapS 64 (v + delta)))).

Lemma shift_boundary_moved delta lit b :
  is_decimal (datum_type lit) = false -> shift_boundary delta lit = Ok b -> moved delta lit b.
Proof.
  unfold shift_boundary, moved. destruct lit as [ty l]; cbn [datum_type datum_literal].
  destruct ty; try discriminate; destruct l; intros _ Hb; try discriminate Hb; injection Hb as <-; eauto.
Qed.

Lemma try_shift_number_moved delta lit b :
  is_decimal (datum_type lit) = false -> try_shift_number delta lit = Ok b -> moved delta lit b.
Proof.
  unfold try_shift_number, moved. destruct lit as [ty l]; cbn [datum_type datum_literal].
  destruct ty; try discriminate; destruct l; intros _ Hb; try discriminate Hb; injection Hb as <-; eauto.
Qed.

(** A literal moved towards [x] does not pass it. *)
Ltac moved_cases Hc Hlt El :=
  revert Hlt El; unfold at_most, comparable, key; datum_cases Hc;
  cbn [datum_type datum_literal lit_key]; intros Hlt El;
  try discriminate El; rewrite lex_lt_singleton in Hlt; injection El as ->;
  match goal with
  | Hv : inS ?n ?v = true, Hx : inS ?n ?x = true, Hl : ?x < ?v |- context [wrapS ?n (?v + ?delta)] =>
      destruct (inS_shift n v x delta) as [-> ?]; [done..|lia|]
  | Hv : inS ?n ?v = true, Hx : inS ?n ?x = true, Hl : ?v < ?x |- context [wrapS ?n (?v + ?delta)] =>
      destruct (inS_shift n v x delta) as [-> ?]; [done..|lia|]
  end;
  rewrite lex_le_singleton; unfold datum_wf; cbn [datum_type datum_literal type_wf compatible lit_wf andb];
  (split; [done|lia]).

Lemma moved_down x lit b :
  comparable x lit -> moved (-1) lit b -> lex_lt (key x) (key lit) -> at_most x b.
Proof.
  intros Hc Hm Hlt. destruct Hm as [->|[(v & El & ->)|(v & El & ->)]].
  { split; [done|]. by apply lex_lt_le. }
  all: moved_cases Hc Hlt El.
Qed.
Lemma moved_up x lit b :
  comparable x lit -> moved 1 lit b -> lex_lt (key lit) (key x) -> at_most b x.
Proof.
  intros Hc Hm Hlt. destruct Hm as [->|[(v & El & ->)|(v & El & ->)]].
  { split; [by apply comparable_sym|]. by apply lex_lt_le. }
  all: moved_cases Hc Hlt El.
Qed.

(** *** The boundary of a comparison *)

Lemma boundary_of op x lit b :
  comparable x lit -> is_decimal (datum_type lit) = false ->
  adjust_boundary op lit = Ok (Some b) ->
  holds_binary op (Some x) lit = Some true ->
  match op with
  | PredicateOperator.LessThan | PredicateOperator.LessThanOrEq => at_most x b
  | PredicateOperator.GreaterThan | PredicateOperator.GreaterThanOrEq => at_most b x
  | _ => b = lit
  end.
Proof.
  intros Hc Hd Hb Hh. destruct (holds_order_iff x lit Hc) as (Hlt & Hle & Hgt & Hge).
  destruct op; cbn [adjust_boundary] in Hb; try discriminate Hb; inv_ok;
    simplify_eq; try done.
  - apply (moved_down x lit); [done|by apply shift_boundary_moved|by apply Hlt].
  - split; [done|by apply Hle].
  - apply (moved_up x lit); [done|by apply shift_boundary_moved|by apply Hgt].
  - split; [by apply comparable_sym|by apply Hge].
Qed.

(** ** Adjusted time projections *)

Lemma set_insert_self s d : set_contains (set_insert s d) d = true.
Proof.
  unfold set_insert, set_contains. destruct (existsb (datum_eqb d) s) eqn:E; [done|].
  rewrite existsb_app. cbn. by rewrite datum_eqb_refl, orb_true_r.
Qed.
Lemma set_insert_keep s d e : set_contains s e = true -> set_contains (set_insert s d) e = true.
Proof.
  unfold set_insert, set_contains. intros H. destruct (existsb (datum_eqb d) s); [done|].
  by rewrite existsb_app, H.
Qed.

Lemma adjusted T f op original b r adj :
  create_transform_function T = Ok f -> f b = Ok (Some r) -> datum_wf r = true ->
  adjust_time_projection T op original r = Some adj ->
  match adj with
  | Single d =>
      (op = PredicateOperator.LessThan \/ op = PredicateOperator.LessThanOrEq
       \/ op = PredicateOperator.In) /\ at_most r d
  | SetOf ds => op = PredicateOperator.Eq /\ set_contains ds r = true
  end.
Proof.
  intros Hf Hr Hw Ha. pose proof (time_result_kind T f b r Hf Hr) as Hk.
  assert (T = Transform.Day \/ T = Transform.Year \/ T = Transform.Month) as HT.
  { destruct T; try discriminate Ha; auto. }
  assert (exists n mk, r = mk n /\ inS 32 n = true /\ (mk = datum_int \/ mk = datum_date)
            /\ match T with Transform.Day => mk = datum_date | _ => mk = datum_int end) as
    (n & mk & -> & Hn & Hmk & HTmk).
  { destruct HT as [->|[->| ->]]; destruct Hk as [n ->];
      (exists n; eexists; split; [reflexivity|]; split; [exact Hw|]; auto). }
  assert (forall d, n < 0 -> d = mk (wrapS 32 (n + 1)) -> at_most (mk n) d) as Hs.
  { intros d Hneg ->. apply (in_order_at_most mk); [done|]. exists n, (wrapS 32 (n + 1)).
    split; [done|]. split; [done|]. split; [done|]. split; [by apply wrapS_inS|].
    rewrite wrapS_id; [lia|done|]. apply inS_spec in Hn. apply inS_spec.
    change (2 ^ (32 - 1)) with 2147483648 in *. lia. }
  assert (datum_literal (mk n) = PrimitiveLiteral.Int n) as El by (by destruct Hmk as [-> | ->]).
  unfold adjust_time_projection in Ha. rewrite El in Ha.
  destruct (match T with Transform.Day => _ | _ => _ end) in Ha; [|done].
  destruct op; try discriminate Ha; destruct (Z.ltb_spec n 0); inv_ok; try discriminate Ha;
    injection Ha as <-.
  all: try (split; [by auto|]; apply Hs; [done|]; by destruct HT as [->|[->| ->]]; subst mk).
  split; [done|]. unfold set_from_iter. cbn [fold_left]. apply set_insert_keep, set_insert_self.
Qed.

Lemma at_most_trans a b c : at_most a b -> at_most b c -> at_most a c.
Proof. intros [? ?] [? ?]. split; [by eapply comparable_trans|by eapply lex_le_trans]. Qed.

(** ** Prefixes *)

(** On text, the transform of a prefix comparison is a truncation. *)
Lemma prefix_literals x lit :
  comparable x lit -> literal_starts_with x lit = true ->
  exists s p, x = datum_string s /\ lit = datum_string p
    /\ valid_str s = true /\ valid_str p = true /\ take (length p) s = p.
Proof.
  intros Hc. datum_cases Hc; unfold literal_starts_with; cbn [datum_literal]; try discriminate.
  intros Hs%starts_with_take; try done. eauto 10.
Qed.

(** A prefix relation survives truncation; for a prefix of at most [n] characters the
    truncation loses nothing. *)
Lemma take_prefix {A} n (s p : list A) :
  take (length p) s = p -> take (length (take n p)) (take n s) = take n p.
Proof.
  intros E. transitivity (take n (take (length p) s)); [|by rewrite E].
  rewrite length_take, !take_take. f_equal. lia.
Qed.
Lemma take_prefix_inv {A} n (s p : list A) :
  (length p <= n)%nat -> take (length p) (take n s) = p -> take (length p) s = p.
Proof. intros Hn. rewrite take_take. by replace (length p `min` n)%nat with (length p) by lia. Qed.

(** The number of characters is at most that of bytes. *)
Lemma chars_le_bytes s : (chars_count s <= str_len s)%nat.
Proof.
  unfold chars_count, str_len. induction s as [|c s IH]; [done|]. cbn [utf8 length].
  rewrite length_app. pose proof (utf8_char_nonempty c). destruct (utf8_char c); [done|]. cbn. lia.
Qed.

(** ** Inclusive projection *)

(** The comparisons that [project_binary_with_adjusted_boundary] builds. *)
Lemma adjusted_binary_Ok T f name op lit width p :
  project_binary_with_adjusted_boundary T name op lit f width = Ok (Some p) ->
  can_transform T lit = true
  /\ exists b r op', adjust_boundary op lit = Ok (Some b) /\ f b = Ok (Some r)
       /\ adjust_operator op lit width = Some op'
       /\ p = match adjust_time_projection T op lit r with
              | None => Binary op' (mkReference name) r
              | Some (Single d) => Binary op' (mkReference name) d
              | Some (SetOf d) => SetP PredicateOperator.In (mkReference name) d
              end.
Proof.
  unfold project_binary_with_adjusted_boundary. destruct (can_transform T lit); [|done]. cbn [negb].
  intros (bo & Hb & H)%bind_Ok. split; [done|]. destruct bo as [b|]; [|done].
  apply bind_Ok in H as (r & Hr & H). unfold transform_literal_result in Hr.
  apply bind_Ok in Hr as (ro & Hr & Hro%ok_or_Ok). subst ro.
  destruct (adjust_operator op lit width) as [op'|] eqn:Eo; [|done]. injection H as <-. eauto 10.
Qed.

Section binary.
Variables (T : Transform.t) (f : TransformFunction) (name : string).
Variables (x y lit : Datum).
Hypothesis HT : transform_wf T = true.
Hypothesis Hord : preserves_order T = true.
Hypothesis Hid : T <> Transform.Identity.
Hypothesis Hf : create_transform_function T = Ok f.
Hypothesis Hc : comparable x lit.
Hypothesis Hx : exact T x = true.
Hypothesis Hdec : truncatable T x = true.
Hypothesis Hy : f x = Ok (Some y).

Lemma not_decimal : can_transform T lit = true -> is_decimal (datum_type lit) = false.
Proof using All.
  intros Ht. destruct Hc as (_ & _ & E). unfold truncatable in Hdec. rewrite E in Hdec.
  unfold can_transform, result_type in Ht. destruct (datum_type lit); try done; by destruct T.
Qed.

(** The four order comparisons. *)
Lemma order_comparison_sound op b r op' :
  (op = PredicateOperator.LessThan \/ op = PredicateOperator.LessThanOrEq
   \/ op = PredicateOperator.GreaterThan \/ op = PredicateOperator.GreaterThanOrEq) ->
  is_decimal (datum_type lit) = false ->
  adjust_boundary op lit = Ok (Some b) -> exact T b = true -> f b = Ok (Some r) ->
  (exists width, adjust_operator op lit width = Some op') ->
  holds_binary op (Some x) lit = Some true ->
  let p := match adjust_time_projection T op lit r with
           | None => Binary op' (mkReference name) r
           | Some (Single d) => Binary op' (mkReference name) d
           | Some (SetOf d) => SetP PredicateOperator.In (mkReference name) d
           end in
  denote (fun _ => Some y) p = Some true.
Proof using All.
  intros Hop Hnd Hb Eb Hr [width Ho] Hh p. subst p.
  pose proof (boundary_of op x lit b Hc Hnd Hb Hh) as Hbound.
  assert ((op = PredicateOperator.LessThan \/ op = PredicateOperator.LessThanOrEq)
            /\ op' = PredicateOperator.LessThanOrEq /\ at_most x b
          \/ (op = PredicateOperator.GreaterThan \/ op = PredicateOperator.GreaterThanOrEq)
            /\ op' = PredicateOperator.GreaterThanOrEq /\ at_most b x) as [H|H].
  { destruct Hop as [->|[->|[->| ->]]]; cbn in Ho; injection Ho as <-; tauto. }
  - destruct H as (Hop' & -> & [Hcb Hle]).
    pose proof (transform_mono T f x b y r HT Hord Hid Hf Hcb Hx Eb Hle Hy Hr) as Hm.
    assert (forall d, at_most y d ->
              denote (fun _ => Some y) (Binary PredicateOperator.LessThanOrEq (mkReference name) d)
              = Some true) as Hd.
    { intros d [Hcd Hd]. by apply (holds_order_iff y d Hcd). }
    destruct (adjust_time_projection T op lit r) as [adj|] eqn:Ea; [|by apply Hd].
    apply (adjusted T f op lit b r adj Hf Hr) in Ea; [|by apply Hm].
    destruct adj as [d|ds].
    + apply Hd. eapply at_most_trans; [exact Hm|by apply Ea].
    + destruct Ea as [-> _]. by destruct Hop' as [?|?].
  - destruct H as (Hop' & -> & [Hcb Hle]).
    pose proof (transform_mono T f b x r y HT Hord Hid Hf Hcb Eb Hx Hle Hr Hy) as Hm.
    destruct (adjust_time_projection T op lit r) as [adj|] eqn:Ea.
    + apply (adjusted T f op lit b r adj Hf Hr) in Ea; [|by apply Hm].
      destruct adj as [d|ds]; destruct Ea as [Ea _];
        destruct Hop' as [-> | ->]; naive_solver.
    + destruct Hm as [Hcm Hm]. by apply (holds_order_iff y r (comparable_sym _ _ Hcm)).
Qed.

(** Equality: the value has the literal's partition value. *)
Lemma equality_sound op' b r :
  adjust_boundary PredicateOperator.Eq lit = Ok (Some b) -> f b = Ok (Some r) ->
  adjust_operator PredicateOperator.Eq lit None = Some op' ->
  datum_eqb x lit = true -> exact T lit = true ->
  denote (fun _ => Some y)
    match adjust_time_projection T PredicateOperator.Eq lit r with
    | None => Binary op' (mkReference name) r
    | Some (Single d) => Binary op' (mkReference name) d
    | Some (SetOf d) => SetP PredicateOperator.In (mkReference name) d
    end = Some true.
Proof using All.
  intros Hb Hr Ho Heq El. cbn in Hb, Ho. injection Hb as <-. injection Ho as <-.
  pose proof (eqb_same_result T f x lit y Hf Hid Hc Heq Hy) as Hy'.
  assert (y = r) as -> by congruence.
  assert (comparable lit lit) as Hcl by (by eapply comparable_trans; [by apply comparable_sym|]).
  destruct (transform_mono T f lit lit r r HT Hord Hid Hf Hcl El El (lex_le_refl _) Hr Hr)
    as [[Hw _] _].
  destruct (adjust_time_projection T _ lit r) as [adj|] eqn:Ea.
  - apply (adjusted T f _ lit lit r adj Hf Hr Hw) in Ea. destruct adj as [d|ds].
    + destruct Ea as [[?|[?|?]] _]; discriminate.
    + cbn. by destruct Ea as [_ ->].
  - cbn. by rewrite datum_eqb_refl.
Qed.

(** On text, the only order-preserving transform is truncation. *)
Lemma text_is_truncated s : x = datum_string s ->
  exists w, T = Transform.Truncate w /\ 0 <= w /\ y = datum_string (chars_take (Z.to_nat w) s).
Proof using All.
  intros ->. destruct T; cbn in Hf, Hord; inv_ok; try done.
  cbn in Hy. injection Hy as <-. cbn in HT. apply inU_spec in HT. eexists. split; [done|]. split; [lia|done].
Qed.

(** A prefix comparison of text.  The literal's truncation is compared for equality when its
    bytes fill the width. *)
Lemma starts_with_sound op' r w :
  T = Transform.Truncate w ->
  f lit = Ok (Some r) -> width_in_chars T lit = true ->
  adjust_operator PredicateOperator.StartsWith lit (Some w) = Some op' ->
  literal_starts_with x lit = true ->
  denote (fun _ => Some y) (Binary op' (mkReference name) r) = Some true.
Proof using All.
  intros -> Hr Hwc Ho Hh. cbn in Hf. injection Hf as <-.
  destruct (prefix_literals x lit Hc Hh) as (s & p & -> & -> & Hs & Hp & E).
  cbn in Hy, Hr, Ho, Hwc. injection Hy as <-. injection Hr as <-. cbn in HT.
  unfold truncate_str, chars_take.
  pose proof (take_prefix (Z.to_nat w) s p E) as Et.
  destruct (Z.eqb_spec (Z.of_nat (str_len p)) w) as [Hl|Hl]; injection Ho as <-; cbn [denote holds_binary].
  - cbn in Hwc. apply Z.eqb_eq in Hwc. unfold chars_count in Hwc.
    assert (take (Z.to_nat w) s = p) as -> by (by replace (Z.to_nat w) with (length p) by lia).
    rewrite take_ge by lia. by rewrite datum_eqb_refl.
  - cbn. f_equal. apply starts_with_take; [by apply valid_str_take..|done].
Qed.

Lemma not_starts_with_sound op' r w :
  T = Transform.Truncate w ->
  f lit = Ok (Some r) ->
  adjust_operator PredicateOperator.NotStartsWith lit (Some w) = Some op' ->
  literal_starts_with x lit = false ->
  denote (fun _ => Some y) (Binary op' (mkReference name) r) = Some true.
Proof using All.
  intros -> Hr Ho Hh. cbn in Hf. injection Hf as <-. cbn in HT. apply inU_spec in HT.
  revert Hx Hdec Hy Hr Ho Hh. unfold literal_starts_with, truncate_transform_literal.
  datum_cases Hc; cbn [datum_literal adjust_operator]; intros _ Hd' Hy' Hr' Ho Hh;
    try discriminate Hd'; try discriminate Hy';
    try (injection Ho as <-; repeat (case_match; try discriminate Hy'); inv_ok; simplify_eq; done).
  injection Hy' as <-. injection Hr' as <-. unfold truncate_str, chars_take.
  match goal with H : Utf8.starts_with ?s ?p = false |- _ => rename s into s0, p into p0 end.
  assert (take (length p0) s0 <> p0) as Hne.
  { intros E%starts_with_take; [congruence|done..]. }
  pose proof (chars_le_bytes p0) as Hcb. unfold chars_count in Hcb.
  assert (Z.of_nat (str_len p0) <= w -> take (Z.to_nat w) p0 = p0) as Htp
    by (intros; apply take_ge; lia).
  destruct (Z.eqb_spec (Z.of_nat (str_len p0)) w) as [Hl|Hl].
  - injection Ho as <-. cbn [denote holds_binary]. f_equal. apply negb_true_iff.
    rewrite Htp by lia. unfold datum_eqb. cbn. apply bool_decide_eq_false.
    intros E%utf8_inj; [|by apply valid_str_take|done]. apply Hne.
    apply (take_prefix_inv (Z.to_nat w)); [lia|]. by rewrite E, firstn_all.
  - destruct (Z.ltb_spec (Z.of_nat (str_len p0)) w); [|done]. injection Ho as <-.
    cbn [denote holds_binary]. f_equal. apply negb_true_iff. rewrite Htp by lia.
    apply not_true_iff_false. cbn. intros E%starts_with_take; [|by apply valid_str_take|done].
    apply Hne. apply (take_prefix_inv (Z.to_nat w)); [lia|done].
Qed.

(** Every comparison. *)
Lemma adjusted_boundary_sound op p :
  PredicateOperator.is_binary op = true ->
  (forall b, adjust_boundary op lit = Ok (Some b) -> exact T b = true) ->
  (op = PredicateOperator.StartsWith -> width_in_chars T lit = true) ->
  project_binary_with_adjusted_boundary T name op lit f
    (match T with Transform.Truncate w => Some w | _ => None end) = Ok (Some p) ->
  holds_binary op (Some x) lit = Some true ->
  denote (fun _ => Some y) p = Some true.
Proof using All.
  intros Hop Hexact Hwidth Hp Hh.
  apply adjusted_binary_Ok in Hp as (Hcan & b & r & op' & Hb & Hr & Ho & ->).
  pose proof (not_decimal Hcan) as Hnd. specialize (Hexact b Hb).
  assert (adjust_time_projection T PredicateOperator.StartsWith lit r = None
          /\ adjust_time_projection T PredicateOperator.NotStartsWith lit r = None) as [Es En].
  { unfold adjust_time_projection. split; repeat case_match; done. }
  assert (literal_starts_with x lit = true -> exists w, T = Transform.Truncate w) as Htext.
  { intros H. destruct (prefix_literals x lit Hc H) as (s & q & Ex & _).
    destruct (text_is_truncated s Ex) as (w & Ew & _). eauto. }
  destruct op; try discriminate Hop; try discriminate Hb;
    try (eapply order_comparison_sound; eauto; tauto).
  - cbn in Hb. injection Hb as <-. cbn in Ho. injection Ho as <-. cbn in Hh. injection Hh as Hh.
    by apply (equality_sound PredicateOperator.Eq lit r).
  - cbn in Hb. injection Hb as <-. rewrite Es. cbn in Hh. injection Hh as Hh.
    destruct (Htext Hh) as [w Ew].
    apply (starts_with_sound op' r w); auto. by rewrite Ew in Ho.
  - cbn in Hb. injection Hb as <-. rewrite En. cbn in Hh. injection Hh as Hh%negb_true_iff.
    assert (op' = PredicateOperator.NotStartsWith -> literal_starts_with y r = false ->
              denote (fun _ => Some y) (Binary op' (mkReference name) r) = Some true) as Hnot
      by (intros -> E; cbn; by rewrite E).
    assert ((exists w, T = Transform.Truncate w) \/ (forall w, T <> Transform.Truncate w)) as
      [[w Ew]|Hnt] by (destruct T; eauto).
    + apply (not_starts_with_sound op' r w); auto. by rewrite Ew in Ho.
    + pose proof (time_result_kind T f x y Hf Hy) as Hk. apply Hnot.
      * destruct T as [| |w| | | | | |]; try (by destruct (Hnt w));
          cbn in Ho; by destruct (datum_literal lit); injection Ho as <-.
      * destruct T as [| |w| | | | | |]; try done; try (by destruct (Hnt w));
          by destruct Hk as [n ->].
Qed.
(** *** Strict projection *)

Lemma value_not_decimal : is_decimal (datum_type x) = false.
Proof using All.
  unfold truncatable in Hdec. destruct T; try done; cbn in Hf; injection Hf as <-.
  - by destruct (datum_type x).
  - unfold year_transform_literal in Hy. by destruct (datum_type x).
  - unfold month_transform_literal in Hy. by destruct (datum_type x).
  - unfold day_transform_literal in Hy. by destruct (datum_type x).
  - unfold hour_transform_literal in Hy. by destruct (datum_type x).
Qed.

(** A partition value on the outer side of a transformed boundary comes from a value on the
    outer side of the literal. *)
Lemma strict_below op b r :
  (op = PredicateOperator.LessThan /\ b = lit
   \/ op = PredicateOperator.LessThanOrEq /\ moved 1 lit b) ->
  exact T b = true -> f b = Ok (Some r) ->
  holds_binary PredicateOperator.LessThan (Some y) r = Some true ->
  holds_binary op (Some x) lit = Some true.
Proof using All.
  intros Hop Eb Hr Hh. destruct (holds_order_iff x lit Hc) as (Hlt & Hle & _ & _).
  assert (~ at_most b x) as Hno.
  { intros [Hcb Hbx].
    destruct (transform_mono T f b x r y HT Hord Hid Hf Hcb Eb Hx Hbx Hr Hy) as [Hcr Hry].
    apply (holds_order_iff y r) in Hh; [|by apply comparable_sym]. by apply lex_not_lt in Hry. }
  destruct Hop as [[-> ->]|[-> Hm]]; [apply Hlt|apply Hle].
  - destruct (lex_cmp (key x) (key lit)) eqn:E; [|done|]; destruct Hno;
      (split; [by apply comparable_sym|]); apply lex_not_lt; unfold lex_lt; congruence.
  - intros E. destruct Hno. apply moved_up with lit; [done|done|].
    apply lex_not_le. unfold lex_le. by intros ?.
Qed.
Lemma strict_above op b r :
  (op = PredicateOperator.GreaterThan /\ b = lit
   \/ op = PredicateOperator.GreaterThanOrEq /\ moved (-1) lit b) ->
  exact T b = true -> f b = Ok (Some r) ->
  holds_binary PredicateOperator.GreaterThan (Some y) r = Some true ->
  holds_binary op (Some x) lit = Some true.
Proof using All.
  intros Hop Eb Hr Hh. destruct (holds_order_iff x lit Hc) as (_ & _ & Hgt & Hge).
  assert (~ at_most x b) as Hno.
  { intros [Hcb Hbx].
    destruct (transform_mono T f x b y r HT Hord Hid Hf Hcb Hx Eb Hbx Hy Hr) as [Hcr Hry].
    apply (holds_order_iff y r Hcr) in Hh. by apply lex_not_lt in Hry. }
  destruct Hop as [[-> ->]|[-> Hm]]; [apply Hgt|apply Hge].
  - apply lex_not_le. intros H. by destruct Hno.
  - destruct (lex_cmp (key x) (key lit)) eqn:E; [..|by apply lex_not_lt; unfold lex_lt; congruence].
    + apply lex_cmp_eq in E. rewrite E. apply lex_le_refl.
    + destruct Hno. by apply moved_down with lit.
Qed.

(** A different partition value comes from a different value. *)
Lemma strict_not_eq r :
  f lit = Ok (Some r) -> datum_eqb y r = false -> datum_eqb x lit = false.
Proof using All.
  intros Hr Hne. apply not_true_iff_false. intros He.
  pose proof (eqb_same_result T f x lit y Hf Hid Hc He Hy).
  assert (y = r) as -> by congruence. by rewrite datum_eqb_refl in Hne.
Qed.
(** The prefix comparisons of [truncate_strict], on text. *)
Lemma strict_prefix_sound w op t p :
  T = Transform.Truncate w ->
  (op = PredicateOperator.StartsWith \/ op = PredicateOperator.NotStartsWith) ->
  (op = PredicateOperator.NotStartsWith -> width_in_chars T lit = true) ->
  is_truncated_number (field_type (ref_field t)) = false ->
  truncate_strict w name op t lit f = Ok (Some p) ->
  denote (fun _ => Some y) p = Some true -> holds_binary op (Some x) lit = Some true.
Proof using All.
  intros -> Hop Hwd Hnum. unfold truncate_strict. rewrite Hnum. clear Hnum.
  cbn in Hf. injection Hf as <-. cbn in HT. apply inU_spec in HT.
  assert (forall len, literal_len lit = Ok len -> exists s q, x = datum_string s /\ lit = datum_string q
            /\ valid_str s = true /\ valid_str q = true /\ len = Z.of_nat (str_len q)
            /\ y = datum_string (take (Z.to_nat w) s)) as Htext.
  { unfold literal_len. intros len. revert Hy. unfold truncate_transform_literal.
    datum_cases Hc; cbn [datum_literal]; intros Hy' Hl; try discriminate; inv_ok; eauto 10. }
  intros Hp. assert (exists len, literal_len lit = Ok len) as [len Hlen]
    by (destruct Hop as [-> | ->]; apply bind_Ok in Hp as (len & ? & _); eauto).
  destruct (Htext len Hlen) as (s & q & Ex & El & Hs & Hq & -> & Ey). rewrite Hlen in Hp.
  cbn [mbind result_bind] in Hp. rewrite Ex, Ey. clear Htext.
  pose proof (chars_le_bytes q) as Hcb. unfold chars_count in Hcb.
  pose proof (starts_with_take s q Hs Hq) as Hsq.
  pose proof (starts_with_take (take (Z.to_nat w) s) q (valid_str_take _ _ Hs) Hq) as Htq.
  destruct Hop as [-> | ->]; destruct (Z.compare_spec (Z.of_nat (str_len q)) w) as [Hl|Hl|Hl];
    try discriminate Hp; try (unfold binary_of in Hp; injection Hp as <-); cbn [denote].
  - rewrite El. cbn. intros [= E]. unfold datum_eqb in E. cbn in E.
    apply bool_decide_eq_true in E. apply utf8_inj in E; [|by apply valid_str_take|done].
    f_equal. apply Hsq. apply (take_prefix_inv (Z.to_nat w)); [lia|]. by rewrite E, firstn_all.
  - rewrite El. cbn. intros [= E]. f_equal. apply Hsq. apply (take_prefix_inv (Z.to_nat w)); [lia|].
    by apply Htq.
  - rewrite El in Hwd |- *. cbn. intros [= E%negb_true_iff]. f_equal. apply negb_true_iff.
    apply not_true_iff_false. intros E'%Hsq. unfold datum_eqb in E. cbn in E.
    apply bool_decide_eq_false in E. apply E. f_equal.
    specialize (Hwd eq_refl). cbn in Hwd. rewrite Hl, Z.eqb_refl in Hwd. cbn in Hwd.
    apply Z.eqb_eq in Hwd. unfold chars_count in Hwd.
    by replace (Z.to_nat w) with (length q) by lia.
  - rewrite El. cbn. intros [= E%negb_true_iff]. f_equal. apply negb_true_iff.
    apply not_true_iff_false. intros E'%Hsq. apply not_true_iff_false in E. apply E, Htq.
    rewrite take_take. by replace (length q `min` Z.to_nat w)%nat with (length q) by lia.
  - unfold transform_literal_result, binary_of in Hp.
    apply fmap_Ok in Hp as (r & (ro & Hro & ->%ok_or_Ok)%bind_Ok & [= <-]).
    rewrite El in Hro |- *. cbn in Hro. injection Hro as <-. cbn.
    intros [= E%negb_true_iff]. f_equal. apply negb_true_iff.
    apply not_true_iff_false. intros E'%Hsq. apply not_true_iff_false in E. apply E.
    apply starts_with_take; [by apply valid_str_take..|]. by apply take_prefix.
Qed.
Lemma transformed_Ok (d : Datum) r : transform_literal_result f d = Ok r -> f d = Ok (Some r).
Proof using Type. unfold transform_literal_result. by intros (ro & Hro & ->%ok_or_Ok)%bind_Ok. Qed.

(** The order comparisons and [<>] of [truncate_number_strict] and [truncate_array_strict]. *)
Lemma strict_numbers_sound op p :
  exact T lit = true ->
  (forall b, strict_boundary op lit = Ok b -> exact T b = true) ->
  truncate_number_strict name op lit f = Ok (Some p)
  \/ truncate_array_strict name op lit f = Ok (Some p) ->
  denote (fun _ => Some y) p = Some true -> holds_binary op (Some x) lit = Some true.
Proof using All.
  intros El Eb Hp. pose proof value_not_decimal as Hnd.
  assert (is_decimal (datum_type lit) = false) as Hnl by (destruct Hc as (_ & _ & <-); done).
  assert (exists b, (b = lit \/ strict_boundary op lit = Ok b)
            /\ exists r, f b = Ok (Some r)
            /\ match op with
               | PredicateOperator.LessThan | PredicateOperator.GreaterThan
               | PredicateOperator.NotEq => b = lit /\ p = Binary op (mkReference name) r
               | PredicateOperator.LessThanOrEq =>
                   p = Binary PredicateOperator.LessThan (mkReference name) r
               | PredicateOperator.GreaterThanOrEq =>
                   p = Binary PredicateOperator.GreaterThan (mkReference name) r
               | _ => False
               end) as (b & Hb & r & Hr & Hop).
  { unfold truncate_number_strict, truncate_array_strict, binary_of in Hp.
    destruct Hp as [Hp|Hp]; [destruct (is_number_type _); [|done]; cbn [negb] in Hp|];
      destruct op; try discriminate Hp; inv_ok; simplify_eq;
      repeat match goal with H : transform_literal_result _ _ = Ok _ |- _ => apply transformed_Ok in H end;
      eauto 10. }
  assert (exact T b = true) as Hexb by (destruct Hb as [->|Hb]; auto).
  assert (forall delta, (op = PredicateOperator.LessThanOrEq /\ delta = 1
            \/ op = PredicateOperator.GreaterThanOrEq /\ delta = -1) -> moved delta lit b) as Hm.
  { intros delta Hd. destruct Hb as [->|Hb]; [by left|].
    destruct Hd as [[-> ->]|[-> ->]]; by apply try_shift_number_moved. }
  destruct op; try done; cbn [denote] in *.
  - destruct Hop as [-> ->]. apply (strict_below _ lit r); auto.
  - subst p. apply (strict_below _ b r); [right|done..]. split; [done|]. apply Hm. by left.
  - destruct Hop as [-> ->]. apply (strict_above _ lit r); auto.
  - subst p. apply (strict_above _ b r); [right|done..]. split; [done|]. apply Hm. by right.
  - destruct Hop as [-> ->]. cbn. intros [= E%negb_true_iff]. f_equal. apply negb_true_iff.
    by apply (strict_not_eq r).
Qed.
End binary.

(** *** Tests of null and NaN, sets *)

Lemma function_result T f d y :
  create_transform_function T = Ok f -> T <> Transform.Void -> T <> Transform.Identity ->
  f d = Ok y -> exists r, y = Some r /\ Values.is_nan d = false /\ Values.is_nan r = false.
Proof.
  intros Hf Hv Hi Hy. destruct T; cbn in Hf; inv_ok; try done.
  - unfold bucket_transform_literal, bucket_hash, bucket_n in Hy. inv_ok.
    eexists. split; [done|]. split; [|done]. unfold Values.is_nan.
    by destruct (datum_type d), (datum_literal d).
  - unfold truncate_transform_literal in Hy. unfold Values.is_nan.
    destruct (datum_literal d); try discriminate; repeat (case_match; try discriminate); inv_ok;
      try by eexists.
    eexists. split; [done|]. split; [done|]. unfold datum_decimal in *. by inv_ok.
  - unfold year_transform_literal in Hy. inv_ok. eexists. split; [done|]. split; [|done].
    unfold Values.is_nan. by destruct (datum_type d), (datum_literal d).
  - unfold month_transform_literal in Hy. inv_ok. eexists. split; [done|]. split; [|done].
    unfold Values.is_nan. by destruct (datum_type d), (datum_literal d).
  - unfold day_transform_literal in Hy. inv_ok. eexists. split; [done|]. split; [|done].
    unfold Values.is_nan. by destruct (datum_type d), (datum_literal d).
  - unfold hour_transform_literal in Hy. inv_ok. eexists. split; [done|]. split; [|done].
    unfold Values.is_nan. by destruct (datum_type d), (datum_literal d).
Qed.

Lemma unary_transform T op x y :
  partition_value T x y -> T <> Transform.Void -> T <> Transform.Identity ->
  holds_unary op x = holds_unary op y.
Proof.
  intros Hp Hv Hi. destruct x as [d|]; [|by rewrite Hp]. destruct Hp as (f & Hf & Hy).
  destruct (function_result T f d y Hf Hv Hi Hy) as (r & -> & Hd & Hr).
  destruct op; cbn; by rewrite ?Hd, ?Hr.
Qed.

Lemma set_step_keep T op f acc lit acc' y :
  project_set_step T op f acc lit = Ok acc' ->
  set_contains acc y = true \/ f lit = Ok (Some y) -> set_contains acc' y = true.
Proof.
  unfold project_set_step, transform_literal_result.
  intros (d & (ro & Hro & Hd%ok_or_Ok)%bind_Ok & [= <-])%bind_Ok [Hy|Hy].
  - apply set_insert_keep. repeat case_match; try done. by apply set_insert_keep.
  - assert (d = y) as -> by congruence. apply set_insert_self.
Qed.

Lemma set_fold_contains T op f ds acc s y :
  try_fold (project_set_step T op f) acc ds = Ok s ->
  set_contains acc y = true \/ (exists d, d ∈ ds /\ f d = Ok (Some y)) -> set_contains s y = true.
Proof.
  revert acc; induction ds as [|d ds IH]; intros acc; cbn [try_fold].
  - intros [= <-] [?|(? & H & _)]; [done|by apply not_elem_of_nil in H].
  - intros (acc' & Hs & H)%bind_Ok Hy. apply (IH acc' H).
    destruct Hy as [Hy|(e & [->|He]%elem_of_cons & Hfe)].
    + left. eapply set_step_keep; eauto.
    + left. eapply set_step_keep; eauto.
    + right. eauto.
Qed.

(** The set that [project_set_expr] builds has the partition value of every member. *)
Lemma project_set_Ok T expr_op ds op name f p :
  project_set_expr T expr_op ds op name f = Ok (Some p) ->
  expr_op = op /\ exists s, p = SetP op (mkReference name) s
    /\ forall x y, T <> Transform.Identity -> create_transform_function T = Ok f ->
         Forall (comparable x) ds -> set_contains ds x = true -> f x = Ok (Some y) ->
         set_contains s y = true.
Proof.
  unfold project_set_expr. destruct (bool_decide (expr_op = op)) eqn:E; [|done].
  apply bool_decide_eq_true in E as ->. cbn [negb orb].
  destruct (existsb (fun d => negb (can_transform T d)) ds); [done|].
  intros (s & Hs & [= <-])%bind_Ok. split; [done|]. exists s. split; [done|].
  intros x y Hi Hf Hc Hx Hy. eapply set_fold_contains; [exact Hs|]. right.
  apply existsb_exists in Hx as (d & Hd%list_elem_of_In & He). exists d. split; [done|].
  rewrite Forall_forall in Hc. by apply (eqb_same_result T f x d y Hf Hi (Hc d Hd)).
Qed.

(** *** Any comparison *)

Definition width_of (T : Transform.t) : option Z :=
  match T with Transform.Truncate w => Some w | _ => None end.

(** Which of the builders makes the projection of a binary comparison. *)
Lemma project_binary_cases T f name op t lit p :
  T <> Transform.Identity -> create_transform_function T = Ok f ->
  project T name (Binary op t lit) = Ok (Some p) ->
  (preserves_order T = true
    /\ project_binary_with_adjusted_boundary T name op lit f (width_of T) = Ok (Some p))
  \/ (op = PredicateOperator.Eq
      /\ exists r, f lit = Ok (Some r) /\ p = Binary op (mkReference name) r).
Proof.
  intros Hi Hf Hp. unfold project in Hp. rewrite Hf in Hp. cbn [mbind result_bind] in Hp.
  destruct T; try done; auto. right. unfold project_binary_expr in Hp.
  destruct (bool_decide _) eqn:E in Hp; [|done]. apply bool_decide_eq_true in E as ->.
  destruct (can_transform _ _); [|done]. cbn [negb orb] in Hp.
  apply bind_Ok in Hp as (r & (ro & Hr & ->%ok_or_Ok)%bind_Ok & [= <-]). eauto.
Qed.

(** On null, only the negated comparisons are true, and so are their projections. *)
Lemma project_null_sound T f name op t lit p :
  T <> Transform.Identity -> create_transform_function T = Ok f ->
  project T name (Binary op t lit) = Ok (Some p) ->
  holds_binary op None lit = Some true -> denote (fun _ => None) p = Some true.
Proof.
  intros Hi Hf Hp Hh. apply (project_binary_cases T f) in Hp as [[_ Hp]|[-> _]]; [|done..].
  apply adjusted_binary_Ok in Hp as (_ & b & r & op' & Hb & _ & Ho & ->).
  destruct op; try discriminate Hh; try discriminate Hb.
  assert (adjust_time_projection T PredicateOperator.NotStartsWith lit r = None) as ->
    by (unfold adjust_time_projection; repeat case_match; done).
  cbn in Ho. repeat (case_match; try discriminate Ho); by injection Ho as <-.
Qed.

Lemma project_leaf_sound T name (q : BoundPredicate) x y p (value : BoundReference -> option Datum) :
  transform_wf T = true -> well_formed q = true ->
  projectable T x q -> partition_value T x y -> (forall t, value t = x) ->
  project T name q = Ok (Some p) -> denote value q = Some true ->
  denote (fun _ => y) p = Some true.
Proof.
  intros HT Hw Hq Hxy Hval Hp Hh.
  destruct (decide (T = Transform.Identity)) as [->|Hi].
  { assert (y = x) as ->.
    { destruct x as [d|]; [|done]. by destruct Hxy as (f & [= <-] & [= <-]). }
    cbn in Hp. destruct q; try discriminate Hp; injection Hp as <-; cbn in *; by rewrite Hval in Hh. }
  pose proof Hp as Hp0. unfold project in Hp. apply bind_Ok in Hp as (f & Hf & Hp).
  destruct (decide (T = Transform.Void)) as [->|Hv]; [done|].
  destruct q as [| |l r|l r|q|op t|op t lit|op t ds]; try (by destruct T);
    cbn [denote] in Hh; rewrite Hval in Hh.
  - assert (p = Unary op (mkReference name)) as ->
      by (unfold project_unary in Hp; destruct T; try done; by injection Hp).
    cbn. by rewrite <- (unary_transform T op x y).
  - destruct x as [d|]; [|rewrite Hxy; by apply (project_null_sound T f name op t lit)].
    destruct Hxy as (f' & Hf' & Hy). assert (f' = f) as -> by congruence.
    destruct (function_result T f d y Hf Hv Hi Hy) as (ry & -> & _).
    cbn in Hq. destruct Hq as (Hc & Hx & Hdec & Hb & Hwd).
    apply (project_binary_cases T f) in Hp0 as [[Hord Hp']|(-> & r & Hr & ->)]; [..|done|done].
    + by apply (adjusted_boundary_sound T f name d ry lit) with (op := op).
    + cbn in Hh. injection Hh as Hh. pose proof (eqb_same_result T f d lit ry Hf Hi Hc Hh Hy).
      assert (r = ry) as -> by congruence. cbn. by rewrite datum_eqb_refl.
  - assert (project_set_expr T op ds PredicateOperator.In name f = Ok (Some p)) as Hs
      by (by destruct T).
    apply project_set_Ok in Hs as (-> & s & -> & Hs).
    destruct x as [d|]; [|done]. destruct Hxy as (f' & Hf' & Hy).
    assert (f' = f) as -> by congruence.
    destruct (function_result T f d y Hf Hv Hi Hy) as (ry & -> & _).
    cbn in Hh. injection Hh as Hh. destruct Hq as (Hc & _). cbn in Hc.
    cbn. by rewrite (Hs d ry).
Qed.
(** ** Strict projection *)

(** Which of the builders makes the strict projection of a binary comparison. *)
Lemma strict_binary_cases T f name op t lit p :
  T <> Transform.Identity -> create_transform_function T = Ok f ->
  strict_project T name (Binary op t lit) = Ok (Some p) ->
  (preserves_order T = true
    /\ (truncate_number_strict name op lit f = Ok (Some p)
        \/ truncate_array_strict name op lit f = Ok (Some p)))
  \/ (exists w, T = Transform.Truncate w /\ truncate_strict w name op t lit f = Ok (Some p)
        /\ is_truncated_number (field_type (ref_field t)) = false
        /\ (op = PredicateOperator.StartsWith \/ op = PredicateOperator.NotStartsWith))
  \/ (op = PredicateOperator.NotEq
      /\ exists r, f lit = Ok (Some r) /\ p = Binary op (mkReference name) r).
Proof.
  intros Hi Hf Hp. unfold strict_project in Hp. rewrite Hf in Hp. cbn [mbind result_bind] in Hp.
  destruct T; try done; auto.
  - right; right. unfold project_binary_expr in Hp.
    destruct (bool_decide _) eqn:E in Hp; [|done]. apply bool_decide_eq_true in E as ->.
    destruct (can_transform _ _); [|done]. cbn [negb orb] in Hp.
    apply bind_Ok in Hp as (r & (ro & Hr & ->%ok_or_Ok)%bind_Ok & [= <-]). eauto.
  - pose proof Hp as Hp'. unfold truncate_strict in Hp.
    destruct (is_truncated_number _) eqn:En; [by auto|].
    destruct op; auto 10; right; left; eauto 10.
Qed.

(** The strict projection of a comparison with null is false on null, or the comparison is
    true there. *)
Lemma strict_null_sound T f name op t lit p :
  T <> Transform.Identity -> create_transform_function T = Ok f ->
  strict_project T name (Binary op t lit) = Ok (Some p) ->
  denote (fun _ => None) p = Some true -> holds_binary op None lit = Some true.
Proof.
  intros Hi Hf Hp. apply (strict_binary_cases T f) in Hp; [|done..].
  destruct Hp as [[_ Hp]|[(w & _ & Hp & En & Hop)|(-> & r & _ & ->)]]; [..|done].
  - unfold truncate_number_strict, truncate_array_strict, binary_of in Hp.
    destruct Hp as [Hp|Hp]; [destruct (is_number_type _); [|done]; cbn [negb] in Hp|];
      destruct op; try discriminate Hp; inv_ok; by simplify_eq.
  - unfold truncate_strict, binary_of in Hp. rewrite En in Hp.
    destruct Hop as [-> | ->]; [|done]. apply bind_Ok in Hp as (len & _ & Hp).
    destruct (_ ?= _); inv_ok; by simplify_eq.
Qed.

Lemma strict_project_leaf_sound T name (q : BoundPredicate) x y p (value : BoundReference -> option Datum) :
  transform_wf T = true -> well_formed q = true ->
  strict_projectable T x q -> partition_value T x y -> (forall t, value t = x) ->
  strict_project T name q = Ok (Some p) -> denote (fun _ => y) p = Some true ->
  denote value q = Some true.
Proof.
  intros HT Hw Hq Hxy Hval Hp Hh.
  destruct (decide (T = Transform.Identity)) as [->|Hi].
  { assert (y = x) as ->.
    { destruct x as [d|]; [|done]. by destruct Hxy as (f & [= <-] & [= <-]). }
    cbn in Hp. destruct q; try discriminate Hp; injection Hp as <-; cbn in *; by rewrite Hval. }
  pose proof Hp as Hp0. unfold strict_project in Hp. apply bind_Ok in Hp as (f & Hf & Hp).
  destruct (decide (T = Transform.Void)) as [->|Hv]; [done|].
  destruct q as [| |l r|l r|q|op t|op t lit|op t ds]; try (by destruct T);
    cbn [denote]; rewrite Hval.
  - assert (p = Unary op (mkReference name)) as ->
      by (unfold project_unary in Hp; destruct T; try done; by injection Hp).
    by rewrite (unary_transform T op x y).
  - destruct x as [d|];
      [|rewrite Hxy in Hh; by apply (strict_null_sound T f name op t lit p)].
    destruct Hxy as (f' & Hf' & Hy). assert (f' = f) as -> by congruence.
    destruct (function_result T f d y Hf Hv Hi Hy) as (ry & -> & _).
    cbn in Hq. destruct Hq as (Hc & Hx & Hdec & El & Eb & Hwd).
    apply (strict_binary_cases T f) in Hp0; [|done..].
    destruct Hp0 as [[Hord Hp']|[(w & -> & Hp' & En & Hop)|(-> & r & Hr & ->)]].
    + by apply (strict_numbers_sound T f name d ry lit HT Hord Hi Hf Hc Hx Hdec Hy op p).
    + by apply (strict_prefix_sound (Transform.Truncate w) f name d ry lit HT eq_refl Hi Hf Hc Hx Hdec Hy
                  w op t p).
    + cbn in Hh |- *. injection Hh as Hh%negb_true_iff. f_equal. apply negb_true_iff.
      apply not_true_iff_false. intros He. pose proof (eqb_same_result T f d lit ry Hf Hi Hc He Hy).
      assert (r = ry) as -> by congruence. by rewrite datum_eqb_refl in Hh.
  - assert (project_set_expr T op ds PredicateOperator.NotIn name f = Ok (Some p)) as Hs
      by (by destruct T).
    apply project_set_Ok in Hs as (-> & s & -> & Hs).
    destruct x as [d|]; [|done]. destruct Hxy as (f' & Hf' & Hy).
    assert (f' = f) as -> by congruence.
    destruct (function_result T f d y Hf Hv Hi Hy) as (ry & -> & _).
    destruct Hq as (Hc & _). cbn in Hc, Hh |- *. injection Hh as Hh%negb_true_iff. f_equal.
    apply negb_true_iff, not_true_iff_false. intros He. by rewrite (Hs d ry) in Hh.
Qed.
End lemmas.
