(* ===== verification/Projection.v ===== *)
(** * Projecting a predicate to a partition spec (inclusive_projection.rs, strict_projection.rs)

    The two visitors, with the cache of partition fields by source column that
    they mutate, and the soundness of the predicate on partition tuples that
    they build. *)

From S2P Require Import Prelude Values Concrete DatumOrder Expr ExprEval Transform ConcreteTime.
From S2P Require Import PartitionSpecs TransformSpec Project ProjectSpec.

(** ** The visitors *)

Section visitors.
Context {V : ValueLib} {TL : TransformLib}.

(** [cached_parts]. *)
Abbreviation Parts := (gmap Z (list PartitionField)).

(** The fields of the spec on one column, in the order of the spec. *)
Fixpoint parts_of (fields : list PartitionField) (field_id : Z) : list PartitionField :=
  match fields with
  | [] => []
  | f :: fields =>
      if source_id f =? field_id then f :: parts_of fields field_id else parts_of fields field_id
  end.

Definition get_parts_for_field_id (spec : PartitionSpec) (field_id : Z) :
    SR Parts (list PartitionField) := fun cached =>
  match cached !! field_id with
  | Some parts => Ok (parts, cached)
  | None =>
      let parts := parts_of (spec_fields spec) field_id in Ok (parts, <[field_id := parts]> cached)
  end.

(** The step of [try_fold]: [project] is [Transform::project] or [strict_project]; a first
    result replaces the start value, a further one is combined with it. *)
Definition part_step (project : Transform.t -> string -> BoundPredicate -> result (option Predicate))
    (is_start : Predicate -> bool) (combine : Predicate -> Predicate -> Predicate)
    (predicate : BoundPredicate) (res : Predicate) (part : PartitionField) : result Predicate :=
  let? pred_for_part := project (partition_transform part) (partition_name part) predicate in
  Ok (match pred_for_part with
      | Some p => if is_start res then p else combine res p
      | None => res
      end).

Definition is_always_true (p : Predicate) : bool :=
  match p with AlwaysTrue => true | _ => false end.
Definition is_always_false (p : Predicate) : bool :=
  match p with AlwaysFalse => true | _ => false end.

Definition inclusive_get_parts (spec : PartitionSpec) (reference : BoundReference)
    (predicate : BoundPredicate) : SR Parts Predicate :=
  let! parts := get_parts_for_field_id spec (field_id (ref_field reference)) in
  sr_lift (try_fold (part_step project is_always_true predicate_and predicate) AlwaysTrue parts).

Definition strict_get_parts (spec : PartitionSpec) (reference : BoundReference)
    (predicate : BoundPredicate) : SR Parts Predicate :=
  let! parts := get_parts_for_field_id spec (field_id (ref_field reference)) in
  sr_lift (try_fold (part_step strict_project is_always_false predicate_or predicate)
             AlwaysFalse parts).

(** Both visitors combine the projections of the leaves and refuse [Not]. *)
Definition projection_visitor
    (get_parts : BoundReference -> BoundPredicate -> SR Parts Predicate) :
    BoundPredicateVisitor (SR Parts) Predicate :=
  {| always_true := mret AlwaysTrue; always_false := mret AlwaysFalse;
     and lhs rhs := mret (predicate_and lhs rhs); or lhs rhs := mret (predicate_or lhs rhs);
     not _ := mthrow (Error Unexpected);
     is_null := get_parts; not_null := get_parts; is_nan := get_parts; not_nan := get_parts;
     less_than t _ := get_parts t; less_than_or_eq t _ := get_parts t;
     greater_than t _ := get_parts t; greater_than_or_eq t _ := get_parts t;
     eq t _ := get_parts t; not_eq t _ := get_parts t;
     starts_with t _ := get_parts t; not_starts_with t _ := get_parts t;
     in_ t _ := get_parts t; not_in t _ := get_parts t |}.

Definition InclusiveProjection (spec : PartitionSpec) := projection_visitor (inclusive_get_parts spec).
Definition StrictProjection (spec : PartitionSpec) := projection_visitor (strict_get_parts spec).

(** [InclusiveProjection::project] and [StrictProjection::strict_project]. *)
Definition inclusive_project (spec : PartitionSpec) (predicate : BoundPredicate) :
    SR Parts Predicate := visit (InclusiveProjection spec) predicate.
Definition strict_project_all (spec : PartitionSpec) (predicate : BoundPredicate) :
    SR Parts Predicate := visit (StrictProjection spec) predicate.

End visitors.

(** ** Theory *)

Section theory.
Context {V : ValueLib} {L : ValueLibLaws V} {TL : TransformLib} {TLL : TransformLibLaws TL}.

Lemma denote_terms {T} (v1 v2 : T -> option Datum) p :
  terms (fun t => v1 t = v2 t) p -> denote v1 p = denote v2 p.
Proof.
  unfold terms. induction p; cbn; try done; try (intros [? ?]; by rewrite IHp1, IHp2);
    try (intros; by rewrite IHp); intros H; by rewrite H.
Qed.

(** A projection is a comparison of the partition field. *)
Definition on_field (name : string) (p : Predicate) : Prop :=
  terms (fun t => t = mkReference name) p.

Lemma adjusted_on_field name op r adj :
  on_field name
    match adj with
    | None => Binary op (mkReference name) r
    | Some (Single d) => Binary op (mkReference name) d
    | Some (SetOf d) => SetP PredicateOperator.In (mkReference name) d
    end.
Proof. by destruct adj as [[|]|]. Qed.

Lemma project_on_field T name q p : project T name q = Ok (Some p) -> on_field name p.
Proof.
  intros Hp. pose proof Hp as Hp0. unfold project in Hp. apply bind_Ok in Hp as (f & Hf & Hp).
  destruct (decide (T = Transform.Identity)) as [->|Hi].
  { destruct q; try discriminate Hp; by injection Hp as <-. }
  destruct q as [| |l r|l r|q|op t|op t lit|op t ds]; try (by destruct T).
  - unfold project_unary in Hp. destruct T; try done; by injection Hp as <-.
  - apply (project_binary_cases T f) in Hp0 as [[_ H]|(-> & r & _ & ->)]; [|done..].
    apply adjusted_binary_Ok in H as (_ & b & r & op' & _ & _ & _ & ->). apply adjusted_on_field.
  - assert (project_set_expr T op ds PredicateOperator.In name f = Ok (Some p)) as Hs
      by (by destruct T).
    by apply project_set_Ok in Hs as (_ & s & -> & _).
Qed.

Lemma strict_on_field T name q p : strict_project T name q = Ok (Some p) -> on_field name p.
Proof.
  intros Hp. pose proof Hp as Hp0. unfold strict_project in Hp. apply bind_Ok in Hp as (f & Hf & Hp).
  destruct (decide (T = Transform.Identity)) as [->|Hi].
  { destruct q; try discriminate Hp; by injection Hp as <-. }
  destruct q as [| |l r|l r|q|op t|op t lit|op t ds]; try (by destruct T).
  - unfold project_unary in Hp. destruct T; try done; by injection Hp as <-.
  - apply (strict_binary_cases T f) in Hp0; [|done..].
    destruct Hp0 as [[_ H]|[(w & -> & H & En & Hop)|(-> & r & _ & ->)]]; [..|done].
    + unfold truncate_number_strict, truncate_array_strict, binary_of in H.
      destruct H as [H|H]; [destruct (is_number_type _); [|done]; cbn [negb] in H|];
        destruct op; try discriminate H; inv_ok; by simplify_eq.
    + unfold truncate_strict, binary_of in H. rewrite En in H.
      destruct Hop as [-> | ->]; apply bind_Ok in H as (len & _ & H); destruct (_ ?= _);
        inv_ok; by simplify_eq.
  - assert (project_set_expr T op ds PredicateOperator.NotIn name f = Ok (Some p)) as Hs
      by (by destruct T).
    by apply project_set_Ok in Hs as (_ & s & -> & _).
Qed.

Lemma on_field_denote name p (pv : Reference -> option Datum) :
  on_field name p -> denote pv p = denote (fun _ => pv (mkReference name)) p.
Proof.
  intros H. apply denote_terms. unfold on_field, terms in *. eapply leaves_impl; [|exact H].
  intros q Hq. by destruct q; try done; cbn in *; subst.
Qed.

(** The cache holds what it would be filled with. *)
Definition cache_ok (spec : PartitionSpec) (cached : gmap Z (list PartitionField)) : Prop :=
  map_Forall (fun id parts => parts = parts_of (spec_fields spec) id) cached.

Lemma get_parts_for_field_id_Ok spec id cached parts cached' :
  cache_ok spec cached -> get_parts_for_field_id spec id cached = Ok (parts, cached') ->
  parts = parts_of (spec_fields spec) id /\ cache_ok spec cached'.
Proof.
  unfold get_parts_for_field_id. intros Hc. destruct (cached !! id) as [ps|] eqn:E; intros [= <- <-].
  - split; [by apply Hc|done].
  - split; [done|]. by apply map_Forall_insert_2.
Qed.

Lemma parts_of_elem fields id part :
  part ∈ parts_of fields id <-> part ∈ fields /\ source_id part = id.
Proof.
  induction fields as [|f fields IH]; cbn [parts_of].
  - split; [by intros ?%not_elem_of_nil|by intros [?%not_elem_of_nil _]].
  - destruct (Z.eqb_spec (source_id f) id); rewrite !elem_of_cons, IH; naive_solver.
Qed.

(** What a filter's leaf needs of the partition tuple: for each partition field on its
    column, the tuple holds the transformed value, and value and literals are [good]. *)
Definition leaf_partitioned (good : Transform.t -> option Datum -> BoundPredicate -> Prop)
    (spec : PartitionSpec) (value : BoundReference -> option Datum)
    (pv : Reference -> option Datum) (q : BoundPredicate) : Prop :=
  match q with
  | Unary _ t | Binary _ t _ | SetP _ t _ =>
      forall part, part ∈ spec_fields spec -> source_id part = field_id (ref_field t) ->
        transform_wf (partition_transform part) = true
        /\ good (partition_transform part) (value t) q
        /\ partition_value (partition_transform part) (value t)
             (pv (mkReference (partition_name part)))
  | _ => True
  end.

Lemma inclusive_fold q (pv : Reference -> option Datum) parts res p :
  (forall part p, part ∈ parts ->
     project (partition_transform part) (partition_name part) q = Ok (Some p) ->
     denote pv p = Some true) ->
  try_fold (part_step project is_always_true predicate_and q) res parts = Ok p ->
  denote pv res = Some true -> denote pv p = Some true.
Proof.
  revert res; induction parts as [|part parts IH]; intros res Hp; cbn [try_fold].
  - by intros [= <-].
  - intros (res' & Hs & H)%bind_Ok Hres. apply (IH res'); [|done|].
    { intros part' p' Hin. apply Hp. by apply list_elem_of_further. }
    apply bind_Ok in Hs as (o & Ho & [= <-]). destruct o as [p'|]; [|done].
    apply Hp in Ho; [|by apply list_elem_of_here]. destruct (is_always_true res); [done|].
    by rewrite predicate_and_denote, Hres, Ho.
Qed.

Lemma strict_fold (G : Prop) q (pv : Reference -> option Datum) parts res p :
  (forall part p, part ∈ parts ->
     strict_project (partition_transform part) (partition_name part) q = Ok (Some p) ->
     denote pv p = Some true -> G) ->
  try_fold (part_step strict_project is_always_false predicate_or q) res parts = Ok p ->
  (denote pv res = Some true -> G) -> denote pv p = Some true -> G.
Proof.
  revert res; induction parts as [|part parts IH]; intros res Hp; cbn [try_fold].
  - by intros [= <-].
  - intros (res' & Hs & H)%bind_Ok Hres. apply (IH res'); [|done|].
    { intros part' p' Hin. apply Hp. by apply list_elem_of_further. }
    apply bind_Ok in Hs as (o & Ho & [= <-]). destruct o as [p'|]; [|done].
    specialize (Hp part p' ltac:(by apply list_elem_of_here) Ho).
    destruct (is_always_false res); [done|]. rewrite predicate_or_denote. intros Hor.
    destruct (denote pv res) as [[]|], (denote pv p') as [[]|]; try discriminate Hor; auto.
Qed.

(** [q] is a comparison of [t]. *)
Definition on_term (t : BoundReference) (q : BoundPredicate) : Prop :=
  match q with Unary _ t' | Binary _ t' _ | SetP _ t' _ => t' = t | _ => False end.

Lemma on_term_denote t q value :
  on_term t q -> denote value q = denote (fun _ => value t) q.
Proof. destruct q; try done; by intros ->. Qed.

Lemma on_term_parts good spec value pv t q part :
  on_term t q -> leaf_partitioned good spec value pv q ->
  part ∈ parts_of (spec_fields spec) (field_id (ref_field t)) ->
  transform_wf (partition_transform part) = true
  /\ good (partition_transform part) (value t) q
  /\ partition_value (partition_transform part) (value t)
       (pv (mkReference (partition_name part))).
Proof. destruct q; try done; intros -> H [Hin Hs]%parts_of_elem; by apply H. Qed.

(** The leaves, with the cache. *)
Lemma inclusive_leaf spec value pv t q cached p cached' :
  on_term t q -> cache_ok spec cached -> well_formed q = true ->
  leaf_partitioned projectable spec value pv q ->
  inclusive_get_parts spec t q cached = Ok (p, cached') ->
  cache_ok spec cached' /\ (denote value q = Some true -> denote pv p = Some true).
Proof.
  intros Hq Hc Hw Hl (parts & c1 & H & Hf)%sr_bind_Ok.
  apply get_parts_for_field_id_Ok in H as [-> Hc1]; [|done].
  unfold sr_lift in Hf. destruct (try_fold _ _ _) as [p'|] eqn:Ef in Hf; [|done].
  injection Hf as -> ->. split; [done|]. rewrite (on_term_denote t) by done. intros Hh.
  eapply (inclusive_fold q pv); [|exact Ef|done]. intros part p' Hin Hp.
  destruct (on_term_parts _ _ _ _ _ _ _ Hq Hl Hin) as (HT & Hgood & Hpv).
  rewrite (on_field_denote (partition_name part)) by (by eapply project_on_field).
  by eapply project_leaf_sound.
Qed.

Lemma strict_leaf spec value pv t q cached p cached' :
  on_term t q -> cache_ok spec cached -> well_formed q = true ->
  leaf_partitioned strict_projectable spec value pv q ->
  strict_get_parts spec t q cached = Ok (p, cached') ->
  cache_ok spec cached' /\ (denote pv p = Some true -> denote value q = Some true).
Proof.
  intros Hq Hc Hw Hl (parts & c1 & H & Hf)%sr_bind_Ok.
  apply get_parts_for_field_id_Ok in H as [-> Hc1]; [|done].
  unfold sr_lift in Hf. destruct (try_fold _ _ _) as [p'|] eqn:Ef in Hf; [|done].
  injection Hf as -> ->. split; [done|]. rewrite (on_term_denote t) by done.
  eapply (strict_fold _ q pv); [|exact Ef|done]. intros part p' Hin Hp.
  destruct (on_term_parts _ _ _ _ _ _ _ Hq Hl Hin) as (HT & Hgood & Hpv).
  rewrite (on_field_denote (partition_name part)) by (by eapply strict_on_field).
  intros Hh. by eapply strict_project_leaf_sound.
Qed.

(** A visitor that is right on the leaves is right on every predicate; [le a b] is the
    direction of the projection. *)
Lemma projection_visit (le : option bool -> option bool -> Prop) get_parts good spec value pv q
    cached p cached' :
  (forall b, le (Some b) (Some b)) ->
  (forall a b a' b', le a b -> le a' b' ->
     le (kleene_and a a') (kleene_and b b') /\ le (kleene_or a a') (kleene_or b b')) ->
  (forall t q c p c', on_term t q -> cache_ok spec c -> well_formed q = true ->
     leaf_partitioned good spec value pv q -> get_parts t q c = Ok (p, c') ->
     cache_ok spec c' /\ le (denote value q) (denote pv p)) ->
  cache_ok spec cached -> well_formed q = true ->
  leaves (leaf_partitioned good spec value pv) q ->
  visit (projection_visitor get_parts) q cached = Ok (p, cached') ->
  cache_ok spec cached' /\ le (denote value q) (denote pv p).
Proof.
  intros Hb Hk Hleaf. revert cached p cached'.
  induction q as [| |l IHl r IHr|l IHl r IHr|q IH|op t|op t d|op t ds];
    intros cached p cached' Hc Hw Hl Hv; cbn [visit] in Hv.
  - injection Hv as <- <-. split; [done|apply Hb].
  - injection Hv as <- <-. split; [done|apply Hb].
  - cbn in Hw, Hl. apply andb_true_iff in Hw as [Hwl Hwr]. destruct Hl as [Hll Hlr].
    apply sr_bind_Ok in Hv as (pl & c1 & Hvl & Hv). apply sr_bind_Ok in Hv as (pr & c2 & Hvr & Hv).
    injection Hv as <- <-. destruct (IHl _ _ _ Hc Hwl Hll Hvl) as [Hc1 Hl'].
    destruct (IHr _ _ _ Hc1 Hwr Hlr Hvr) as [Hc2 Hr']. split; [done|].
    rewrite predicate_and_denote. by apply Hk.
  - cbn in Hw, Hl. apply andb_true_iff in Hw as [Hwl Hwr]. destruct Hl as [Hll Hlr].
    apply sr_bind_Ok in Hv as (pl & c1 & Hvl & Hv). apply sr_bind_Ok in Hv as (pr & c2 & Hvr & Hv).
    injection Hv as <- <-. destruct (IHl _ _ _ Hc Hwl Hll Hvl) as [Hc1 Hl'].
    destruct (IHr _ _ _ Hc1 Hwr Hlr Hvr) as [Hc2 Hr']. split; [done|].
    rewrite predicate_or_denote. by apply Hk.
  - by apply sr_bind_Ok in Hv as (? & ? & _ & Hv).
  - apply (Hleaf t (Unary op t) cached); try done. by destruct op.
  - apply (Hleaf t (Binary op t d) cached); try done. by destruct op.
  - apply (Hleaf t (SetP op t ds) cached); try done. by destruct op.
Qed.

(** ** Properties *)

(** A filter implies its inclusive projection. *)
Lemma inclusive_projection_implied spec cached filter p cached' value pv :
  cache_ok spec cached -> well_formed filter = true ->
  leaves (leaf_partitioned projectable spec value pv) filter ->
  inclusive_project spec filter cached = Ok (p, cached') ->
  denote value filter = Some true -> denote pv p = Some true.
Proof.
  intros Hc Hw Hl Hp.
  apply (projection_visit (fun a b => a = Some true -> b = Some true) (inclusive_get_parts spec)
           projectable spec value pv filter cached p cached'); try done.
  - intros [[]|] [[]|] [[]|] [[]|]; cbn; intuition congruence.
  - intros. by eapply inclusive_leaf.
Qed.

(** C20 The inclusive projection of a filter is true on the partition tuple of every row the
    filter is true on, whatever the cache already holds, if the filter is projectable on the
    row: literals compare with the values; no decimal is truncated; truncation and the hours
    since 1970 do not overflow, on the value and on the boundary that the projection
    transforms, and neither is a timestamp of a skewed day ([day_projection_excludes_rows]);
    and a prefix of as many bytes as the width of the truncation has as many characters
    ([multibyte_prefix_excludes_rows]). *)
Theorem inclusive_projection_sound spec cached filter p cached' value pv :
  cache_ok spec cached -> well_formed filter = true ->
  leaves (leaf_partitioned projectable spec value pv) filter ->
  inclusive_project spec filter cached = Ok (p, cached') ->
  denote value filter = Some true -> denote pv p = Some true.
Proof. apply inclusive_projection_implied. Qed.

(** C23 A row is one the filter is true on when the strict projection of the filter is true on
    the row's partition tuple, if the filter is strictly projectable on the row: literals
    compare with the values; no decimal is truncated; truncation and the hours since 1970 do
    not overflow, on the value, the literal and the boundary that is transformed, and none is a
    timestamp of a skewed day; and the prefix of a NOT STARTS WITH of as many bytes as the
    width of the truncation has as many characters ([multibyte_prefix_strict_wrong]). *)
Theorem strict_projection_sound spec cached filter p cached' value pv :
  cache_ok spec cached -> well_formed filter = true ->
  leaves (leaf_partitioned strict_projectable spec value pv) filter ->
  strict_project_all spec filter cached = Ok (p, cached') ->
  denote pv p = Some true -> denote value filter = Some true.
Proof.
  intros Hc Hw Hl Hp.
  apply (projection_visit (fun a b => b = Some true -> a = Some true) (strict_get_parts spec)
           strict_projectable spec value pv filter cached p cached'); try done.
  - intros [[]|] [[]|] [[]|] [[]|]; cbn; intuition congruence.
  - intros. by eapply strict_leaf.
Qed.
End theory.

(** ** Where the projections lose rows *)

Section findings.
Context {V : ValueLib} {TL : TransformLib}.

Definition any_term : BoundReference :=
  mkBoundReference "c" (mkField 1 "c" false (TPrimitive PrimitiveType.String))
    (accessor_new 0 PrimitiveType.String).

(** With [truncate\[2\]], the prefix U+00E9, one character of two bytes, projects to
    equality with it, which is false on the partition value of text that starts with it. *)
Theorem multibyte_prefix_excludes_rows :
  exists p, project (Transform.Truncate 2) "p"
              (Binary PredicateOperator.StartsWith any_term (datum_string [233])) = Ok (Some p)
    /\ denote (fun _ => Some (datum_string [233; 97; 98]))
         (Binary PredicateOperator.StartsWith any_term (datum_string [233])) = Some true
    /\ truncate_transform_literal 2 (datum_string [233; 97; 98])
       = Ok (Some (datum_string [233; 97]))
    /\ denote (fun _ => Some (datum_string [233; 97])) p = Some false.
Proof. eexists. repeat split; vm_compute; reflexivity. Qed.

(** The dual for the strict projection: the text is reported not to start with the prefix
    although it does. *)
Theorem multibyte_prefix_strict_wrong :
  exists p, strict_project (Transform.Truncate 2) "p"
              (Binary PredicateOperator.NotStartsWith any_term (datum_string [233])) = Ok (Some p)
    /\ denote (fun _ => Some (datum_string [233; 97])) p = Some true
    /\ denote (fun _ => Some (datum_string [233; 97; 98]))
         (Binary PredicateOperator.NotStartsWith any_term (datum_string [233])) = Some false.
Proof. eexists. repeat split; vm_compute; reflexivity. Qed.

(** With [day], the filter [ts >= 1969-12-30T23:59:59.999998] projects to
    [day >= 1969-12-31], which is false on the partition value of the next microsecond. *)
Theorem day_projection_excludes_rows {TLL : TransformLibLaws TL} name :
  exists p, project Transform.Day name
              (Binary PredicateOperator.GreaterThanOrEq any_term (timestamp_micros (-86400000002)))
            = Ok (Some p)
    /\ day_transform_literal (timestamp_micros (-86400000001)) = Ok (Some (datum_date (-2)))
    /\ denote (fun _ => Some (timestamp_micros (-86400000001)))
         (Binary PredicateOperator.GreaterThanOrEq any_term (timestamp_micros (-86400000002)))
       = Some true
    /\ denote (fun _ => Some (datum_date (-2))) p = Some false.
Proof.
  exists (Binary PredicateOperator.GreaterThanOrEq (mkReference name) (datum_date (-1))).
  assert (forall v n, day_timestamp_micro v = Ok n ->
            day_transform_literal (timestamp_micros v) = Ok (Some (datum_date n))) as Hd
    by (intros v n H; cbn; by rewrite H).
  assert (day_timestamp_micro (-86400000002) = Ok (-1)) as E1
    by (unfold day_timestamp_micro; by rewrite day_timestamp_spec).
  assert (day_timestamp_micro (-86400000001) = Ok (-2)) as E2
    by (unfold day_timestamp_micro; by rewrite day_timestamp_spec).
  split; [|split; [by apply Hd|by repeat split]].
  unfold project. cbn [create_transform_function mbind result_bind].
  unfold project_binary_with_adjusted_boundary. cbn [can_transform negb adjust_boundary].
  change (negb (can_transform Transform.Day (timestamp_micros (-86400000002)))) with false.
  cbn [mbind result_bind]. unfold transform_literal_result. by rewrite (Hd _ _ E1).
Qed.
End findings.

(** ** Witnesses *)

Section witnesses.
#[local] Existing Instance concrete_values.
#[local] Existing Instance concrete_time.

Definition ex_column_a : BoundReference :=
  mkBoundReference "a" (mkField 1 "a" false (TPrimitive PrimitiveType.Int))
    (accessor_new 0 PrimitiveType.Int).
Definition ex_spec : PartitionSpec :=
  mkPartitionSpec 0 [mkPartitionField 1 1000 "a_trunc" (Transform.Truncate 10);
                     mkPartitionField 1 1001 "a_bucket" (Transform.Bucket 16)].
(** [a < 25 AND a <> 3], on a row with [a = 7]. *)
Definition ex_projected_filter : BoundPredicate :=
  And (Binary PredicateOperator.LessThan ex_column_a (datum_int 25))
      (Binary PredicateOperator.NotEq ex_column_a (datum_int 3)).
Definition ex_column_value (t : BoundReference) : option Datum := Some (datum_int 7).
Definition ex_partition_value (r : Reference) : option Datum :=
  if String.eqb (ref_name r) "a_trunc" then Some (datum_int 0)
  else match bucket_transform_literal 16 (datum_int 7) with Ok y => y | Err _ => None end.

Lemma ex_partitioned (good : Transform.t -> option Datum -> BoundPredicate -> Prop) :
  (forall T q, T = Transform.Truncate 10 \/ T = Transform.Bucket 16 ->
     q = Binary PredicateOperator.LessThan ex_column_a (datum_int 25)
     \/ q = Binary PredicateOperator.NotEq ex_column_a (datum_int 3) ->
     good T (Some (datum_int 7)) q) ->
  leaves (leaf_partitioned good ex_spec ex_column_value ex_partition_value) ex_projected_filter.
Proof.
  intros Hg. split; intros part [->|[->|H%not_elem_of_nil]%elem_of_cons]%elem_of_cons _; try done;
    (split; [done|]; split; [apply Hg; by auto|]; eexists; split; [reflexivity|]; vm_compute; reflexivity).
Qed.

Lemma inclusive_projection_sound_witness :
  exists p c, inclusive_project ex_spec ex_projected_filter ∅ = Ok (p, c)
    /\ denote ex_partition_value p = Some true.
Proof.
  do 2 eexists. split; [vm_compute; reflexivity|].
  refine (inclusive_projection_sound ex_spec ∅ ex_projected_filter _ _ ex_column_value
            ex_partition_value _ _ _ _ _); [done|reflexivity| |vm_compute; reflexivity..].
  apply ex_partitioned. intros T q [-> | ->] [-> | ->]; repeat split; try done;
    intros b Hb; vm_compute in Hb; by simplify_eq.
Defined.

Lemma strict_projection_sound_witness :
  denote ex_column_value ex_projected_filter = Some true.
Proof.
  refine (strict_projection_sound ex_spec ∅ ex_projected_filter _ _ ex_column_value
            ex_partition_value _ _ _ _ _); [done|reflexivity| |vm_compute; reflexivity|].
  - apply ex_partitioned. intros T q [-> | ->] [-> | ->]; repeat split; try done;
      intros b Hb; vm_compute in Hb; by simplify_eq.
  - vm_compute. reflexivity.
Defined.

Lemma day_projection_excludes_rows_witness :
  day_transform_literal (timestamp_micros (-86400000001)) = Ok (Some (datum_date (-2))).
Proof.
  destruct (day_projection_excludes_rows "ts_day") as (p & _ & H & _). exact H.
Defined.
End witnesses.
