(* ===== verification/Metrics.v ===== *)
(** * What column metrics promise

    The abstract contract between a data file's metrics and its rows, shared by
    the metrics evaluators: exact counts and covering bounds.  The evaluators
    are proved sound against it, with "row matches" meaning [eval_row]. *)

From S2P Require Import Prelude Utf8 Values Concrete DatumOrder Expr DataFile ExprEval.

(** The counters of [InclusiveMetricsEvaluator] and [StrictMetricsEvaluator]. *)
Section counters.
Context (data_file : DataFile).

Definition nan_count (field_id : Z) : option Z := nan_value_counts data_file !! field_id.
Definition null_count (field_id : Z) : option Z := null_value_counts data_file !! field_id.
Definition value_count (field_id : Z) : option Z := value_counts data_file !! field_id.
Definition lower_bound_of (field_id : Z) : option Datum := lower_bounds data_file !! field_id.
Definition upper_bound_of (field_id : Z) : option Datum := upper_bounds data_file !! field_id.

Definition contains_nans_only (field_id : Z) : bool :=
  let nan_count := nan_count field_id in
  let value_count := value_count field_id in
  bool_decide (is_Some nan_count) && bool_decide (nan_count = value_count).
Definition contains_nulls_only (field_id : Z) : bool :=
  let null_count := null_count field_id in
  let value_count := value_count field_id in
  bool_decide (is_Some null_count) && bool_decide (null_count = value_count).
Definition may_contain_null (field_id : Z) : bool :=
  match null_count field_id with
  | Some null_count => 0 <? null_count
  | None => true
  end.
Definition may_contain_nan (field_id : Z) : bool :=
  match nan_count field_id with
  | Some nan_count => 0 <? nan_count
  | None => true
  end.
End counters.

(** ** The contract *)

Definition column := list (option Datum).
Definition count (P : option Datum -> bool) (values : column) : Z :=
  Z.of_nat (length (List.filter P values)).
Definition null_value (v : option Datum) : bool :=
  match v with None => true | Some _ => false end.
Definition nan_value (v : option Datum) : bool :=
  match v with None => false | Some d => Values.is_nan d end.

(** The values of a column are well-formed values of its type. *)
Definition column_typed (ty : PrimitiveType.t) (values : column) : Prop :=
  forall x, Some x ∈ values -> datum_wf x = true /\ datum_type x = ty.

(** A bound is of the column's type, and covers the values that are not NaN, unless
    it is itself NaN, which the specification of the format calls unreliable. *)
Definition bound_ok (covers : list Z -> list Z -> Prop) (ty : PrimitiveType.t)
    (values : column) (b : Datum) : Prop :=
  datum_wf b = true /\ datum_type b = ty
  /\ (Values.is_nan b = true
      \/ forall x, Some x ∈ values -> Values.is_nan x = false -> covers (key b) (key x)).

Record column_metrics (f : DataFile) (id : Z) (ty : PrimitiveType.t) (values : column) : Prop := {
  cm_typed : column_typed ty values;
  cm_values n : value_count f id = Some n -> n = Z.of_nat (length values);
  cm_nulls n : null_count f id = Some n -> n = count null_value values;
  cm_nans n : nan_count f id = Some n -> n = count nan_value values;
  cm_lower b : lower_bound_of f id = Some b -> bound_ok lex_le ty values b;
  cm_upper b : upper_bound_of f id = Some b -> bound_ok (flip lex_le) ty values b;
}.

(** The literal of a comparison: a regular value of the column's type that is not NaN. *)
Definition literal_ok (ty : PrimitiveType.t) (d : Datum) : Prop :=
  datum_wf d = true /\ datum_type d = ty /\ Values.is_nan d = false /\ regular d = true.

Definition is_order (op : PredicateOperator.t) : bool :=
  match op with
  | PredicateOperator.LessThan | PredicateOperator.LessThanOrEq
  | PredicateOperator.GreaterThan | PredicateOperator.GreaterThanOrEq => true
  | _ => false
  end.
Definition is_prefix (op : PredicateOperator.t) : bool :=
  match op with
  | PredicateOperator.StartsWith | PredicateOperator.NotStartsWith => true
  | _ => false
  end.

Definition column_regular (values : column) : Prop := forall x, Some x ∈ values -> regular x = true.
Definition column_nan_free (values : column) : Prop :=
  forall x, Some x ∈ values -> Values.is_nan x = false.
Definition bounds_not_nan (f : DataFile) (id : Z) : Prop :=
  (forall b, lower_bound_of f id = Some b -> Values.is_nan b = false)
  /\ (forall b, upper_bound_of f id = Some b -> Values.is_nan b = false).

(** The column that a term reads in the rows of a file, described by the metrics. *)
Definition describes (f : DataFile) (rows : list Struct) (t : BoundReference)
    (ty : PrimitiveType.t) (values : column) : Prop :=
  mapR (accessor_get (ref_accessor t)) rows = Ok values
  /\ column_metrics f (field_id (ref_field t)) ty values.

(** What a leaf needs: its column is described; no negative zero among the values and
    literals of a comparison; no NaN where values are ordered; prefixes of strings.  (The
    strict evaluator does not look for a NaN upper bound in [NOT IN].) *)
Definition leaf_described (f : DataFile) (rows : list Struct) (q : BoundPredicate) : Prop :=
  match q with
  | Unary _ t => exists ty values, describes f rows t ty values
  | Binary op t d => exists ty values, describes f rows t ty values
      /\ literal_ok ty d /\ column_regular values
      /\ (is_order op = true ->
          column_nan_free values /\ bounds_not_nan f (field_id (ref_field t)))
      /\ (is_prefix op = true -> ty = PrimitiveType.String)
  | SetP op t ds => exists ty values, describes f rows t ty values
      /\ Forall (literal_ok ty) ds /\ column_regular values
      /\ (op = PredicateOperator.NotIn -> bounds_not_nan f (field_id (ref_field t)))
  | _ => True
  end.

(** ** Theory *)

Lemma mapR_lookup {A B} (f : A -> result B) l l' a :
  mapR f l = Ok l' -> a ∈ l -> exists b, f a = Ok b /\ b ∈ l'.
Proof.
  intros H%mapR_Ok (i & Hi)%list_elem_of_lookup.
  destruct (Forall2_lookup_l _ _ _ _ _ H Hi) as (b & Hb & E). exists b. split; [done|].
  by eapply list_elem_of_lookup_2.
Qed.

Lemma count_all P values v : count P values = Z.of_nat (length values) -> v ∈ values -> P v = true.
Proof.
  unfold count. intros H. apply Nat2Z.inj in H. revert v.
  induction values as [|w values IH]; intros v; [by intros ?%not_elem_of_nil|].
  pose proof (List.filter_length_le P values). cbn in H. destruct (P w) eqn:E; cbn in H; [|lia].
  intros [->|Hv]%elem_of_cons; [done|]. apply IH; [lia|done].
Qed.

Lemma count_none P values v : count P values = 0 -> v ∈ values -> P v = false.
Proof.
  unfold count. induction values as [|w values IH]; [by intros _ ?%not_elem_of_nil|].
  cbn. destruct (P w) eqn:E; cbn; [lia|]. intros H [->|Hv]%elem_of_cons; auto.
Qed.

Section theory.
Context {V : ValueLib} {L : ValueLibLaws V}.
Context {f : DataFile} {id : Z} {ty : PrimitiveType.t} {values : column}.
Context (CM : column_metrics f id ty values).

Lemma nulls_only_null v : contains_nulls_only f id = true -> v ∈ values -> v = None.
Proof using CM.
  unfold contains_nulls_only. rewrite andb_true_iff, !bool_decide_eq_true.
  intros [[n Hn] E] Hv. rewrite Hn in E. symmetry in E.
  apply (cm_values _ _ _ _ CM) in E. apply (cm_nulls _ _ _ _ CM) in Hn.
  pose proof (count_all null_value values v ltac:(congruence) Hv). by destruct v.
Qed.

Lemma nans_only_nan v : contains_nans_only f id = true -> v ∈ values -> nan_value v = true.
Proof using CM.
  unfold contains_nans_only. rewrite andb_true_iff, !bool_decide_eq_true.
  intros [[n Hn] E] Hv. rewrite Hn in E. symmetry in E.
  apply (cm_values _ _ _ _ CM) in E. apply (cm_nans _ _ _ _ CM) in Hn.
  apply (count_all nan_value values v); [congruence|done].
Qed.

Lemma null_count_zero v : null_count f id = Some 0 -> v ∈ values -> exists x, v = Some x.
Proof using CM.
  intros H%(cm_nulls _ _ _ _ CM) Hv.
  pose proof (count_none null_value values v ltac:(congruence) Hv). destruct v; [eauto|done].
Qed.
Lemma nan_count_zero v : nan_count f id = Some 0 -> v ∈ values -> nan_value v = false.
Proof using CM.
  intros H%(cm_nans _ _ _ _ CM) Hv. by apply (count_none nan_value values v).
Qed.

Lemma no_null v : may_contain_null f id = false -> v ∈ values -> exists x, v = Some x.
Proof using CM.
  unfold may_contain_null. destruct (null_count f id) as [n|] eqn:E; [|done].
  intros H%Z.ltb_ge. apply null_count_zero.
  pose proof (cm_nulls _ _ _ _ CM _ E). unfold count in *. rewrite E. f_equal. lia.
Qed.
Lemma no_nan v : may_contain_nan f id = false -> v ∈ values -> nan_value v = false.
Proof using CM.
  unfold may_contain_nan. destruct (nan_count f id) as [n|] eqn:E; [|done].
  intros H%Z.ltb_ge. apply nan_count_zero.
  pose proof (cm_nans _ _ _ _ CM _ E). unfold count in *. rewrite E. f_equal. lia.
Qed.

(** The bounds and the literal are comparable with every value. *)
Lemma value_literal_comparable x d : Some x ∈ values -> literal_ok ty d -> comparable x d.
Proof using CM.
  intros Hx%(cm_typed _ _ _ _ CM) (? & ? & _). unfold comparable. intuition congruence.
Qed.
Lemma value_bound_comparable covers x b :
  Some x ∈ values -> bound_ok covers ty values b -> comparable x b.
Proof using CM.
  intros Hx%(cm_typed _ _ _ _ CM) (? & ? & _). unfold comparable. intuition congruence.
Qed.
Lemma bound_literal_comparable covers b d :
  bound_ok covers ty values b -> literal_ok ty d -> comparable b d.
Proof. intros (? & ? & _) (? & ? & _). unfold comparable. intuition congruence. Qed.

Lemma lower_covers b x :
  lower_bound_of f id = Some b -> Values.is_nan b = false ->
  Some x ∈ values -> Values.is_nan x = false -> lex_le (key b) (key x).
Proof using CM.
  intros Hb%(cm_lower _ _ _ _ CM) Hn Hx Hnx. destruct Hb as (_ & _ & [?|H]); [congruence|eauto].
Qed.
Lemma upper_covers b x :
  upper_bound_of f id = Some b -> Values.is_nan b = false ->
  Some x ∈ values -> Values.is_nan x = false -> lex_le (key x) (key b).
Proof using CM.
  intros Hb%(cm_upper _ _ _ _ CM) Hn Hx Hnx. destruct Hb as (_ & _ & [?|H]); [congruence|].
  by apply H.
Qed.

(** A row value that is neither null nor NaN shows that the counters say so. *)
Lemma value_not_only_null x : Some x ∈ values -> contains_nulls_only f id = false.
Proof using CM.
  intros Hx. destruct (contains_nulls_only f id) eqn:E; [|done].
  by pose proof (nulls_only_null _ E Hx).
Qed.
Lemma value_not_only_nan v :
  v ∈ values -> nan_value v = false -> contains_nans_only f id = false.
Proof using CM.
  intros Hv Hn. destruct (contains_nans_only f id) eqn:E; [|done].
  pose proof (nans_only_nan _ E Hv). congruence.
Qed.

End theory.

(** Reading a described column in a row gives one of the column's values. *)
Lemma on_value_le rows t values row some none y :
  mapR (accessor_get (ref_accessor t)) rows = Ok values -> row ∈ rows ->
  (forall v, v ∈ values -> exists b, y = Ok b
     /\ (match v with Some x => some x | None => none end = true -> b = true)) ->
  answers_le (on_value t row some none) y.
Proof.
  intros Hm Hrow H. destruct (mapR_lookup _ _ _ _ Hm Hrow) as (v & Hv & Hin).
  unfold on_value. rewrite Hv. cbn. destruct (H v Hin) as (b & -> & Hb).
  destruct v; cbn; eauto.
Qed.

(** The dual, for a strict evaluator [y]. *)
Lemma on_value_ge rows t values row some none y :
  mapR (accessor_get (ref_accessor t)) rows = Ok values -> row ∈ rows ->
  (forall v b, v ∈ values -> y = Ok b -> b = true ->
     match v with Some x => some x | None => none end = true) ->
  answers_le y (on_value t row some none).
Proof.
  intros Hm Hrow H. destruct (mapR_lookup _ _ _ _ Hm Hrow) as (v & Hv & Hin).
  unfold on_value. rewrite Hv. cbn. destruct y as [b|]; [|done].
  specialize (H v b Hin eq_refl). destruct v; cbn; eauto.
Qed.

(** ** An example file

    Two rows of one [int] column "a" with exact metrics, for the witnesses. *)
Definition ex_rows : list Struct :=
  [[Some (LPrimitive (PrimitiveLiteral.Int 3))]; [Some (LPrimitive (PrimitiveLiteral.Int 8))]].
Definition ex_column : column := [Some (datum_int 3); Some (datum_int 8)].
Definition ex_term : BoundReference :=
  mkBoundReference "a" (mkField 1 "a" false (TPrimitive PrimitiveType.Int))
    (accessor_new 0 PrimitiveType.Int).
Definition ex_file_in (tuple : Struct) : DataFile :=
  mkDataFile Data "f.parquet" Parquet tuple 2 10 ∅
    {[1 := 2]} {[1 := 0]} {[1 := 0]} {[1 := datum_int 3]} {[1 := datum_int 8]}
    None None None None None 0 None None None.
Definition ex_file : DataFile := ex_file_in [Some (LPrimitive (PrimitiveLiteral.Int 3))].

Lemma ex_described tuple :
  describes (ex_file_in tuple) ex_rows ex_term PrimitiveType.Int ex_column.
Proof.
  split; [reflexivity|]. split.
  - intros x [[= ->]|[[= ->]|[]%not_elem_of_nil]%elem_of_cons]%elem_of_cons; done.
  - by intros n [= <-].
  - by intros n [= <-].
  - by intros n [= <-].
  - intros b [= <-]. split; [done|]. split; [done|]. right.
    intros x [[= ->]|[[= ->]|[]%not_elem_of_nil]%elem_of_cons]%elem_of_cons _; done.
  - intros b [= <-]. split; [done|]. split; [done|]. right.
    intros x [[= ->]|[[= ->]|[]%not_elem_of_nil]%elem_of_cons]%elem_of_cons _; done.
Qed.

Lemma ex_leaf_described tuple op n :
  is_prefix op = false -> inS 32 n = true ->
  leaf_described (ex_file_in tuple) ex_rows (Binary op ex_term (datum_int n)).
Proof.
  intros Hop Hn. exists PrimitiveType.Int, ex_column. split; [apply ex_described|].
  split; [by repeat split|]. split; [|split; [intros _; split|by rewrite Hop]].
  - intros x [[= ->]|[[= ->]|[]%not_elem_of_nil]%elem_of_cons]%elem_of_cons; done.
  - intros x [[= ->]|[[= ->]|[]%not_elem_of_nil]%elem_of_cons]%elem_of_cons; done.
  - by split; intros b [= <-].
Qed.
