(* ===== verification/InclusiveMetrics.v ===== *)
(** * The inclusive metrics evaluator (expr/visitors/inclusive_metrics_evaluator.rs)

    Decides from the metrics of a data file whether some row of it may match a
    filter; a scan skips the file when it answers no.  Soundness: it answers
    yes whenever a row matches. *)

From S2P Require Import Prelude Utf8 Values Concrete DatumOrder Expr DataFile ExprEval Metrics.

Definition IN_PREDICATE_LIMIT : Z := 4096.
Definition ROWS_MIGHT_MATCH : result bool := Ok true.
Definition ROWS_CANNOT_MATCH : result bool := Ok false.

Section evaluator.
Context {V : ValueLib}.
Context (data_file : DataFile).

Definition visit_inequality (reference : BoundReference) (datum : Datum)
    (cmp_fn : Datum -> Datum -> bool) (use_lower_bound : bool) : result bool :=
  let field_id := field_id (ref_field reference) in
  if contains_nulls_only data_file field_id || contains_nans_only data_file field_id
  then ROWS_CANNOT_MATCH
  else if Values.is_nan datum then ROWS_MIGHT_MATCH
  else
    let bound := if use_lower_bound then lower_bound_of data_file field_id
                 else upper_bound_of data_file field_id in
    match bound with
    | Some bound => if cmp_fn bound datum then ROWS_MIGHT_MATCH else ROWS_CANNOT_MATCH
    | None => ROWS_MIGHT_MATCH
    end.

(** [let PrimitiveLiteral::String(s) = l else { return Err }]. *)
Definition expect_string (d : Datum) : result str :=
  match datum_literal d with
  | PrimitiveLiteral.String s => Ok s
  | _ => Err (Error Unexpected)
  end.

Definition visit_is_null (reference : BoundReference) : result bool :=
  match null_count data_file (field_id (ref_field reference)) with
  | Some null_count => if null_count =? 0 then ROWS_CANNOT_MATCH else ROWS_MIGHT_MATCH
  | None => ROWS_MIGHT_MATCH
  end.

Definition visit_not_null (reference : BoundReference) : result bool :=
  if contains_nulls_only data_file (field_id (ref_field reference))
  then ROWS_CANNOT_MATCH else ROWS_MIGHT_MATCH.

Definition visit_is_nan (reference : BoundReference) : result bool :=
  let field_id := field_id (ref_field reference) in
  if bool_decide (nan_count data_file field_id = Some 0) then ROWS_CANNOT_MATCH
  else if contains_nulls_only data_file field_id then ROWS_CANNOT_MATCH
  else ROWS_MIGHT_MATCH.

Definition visit_not_nan (reference : BoundReference) : result bool :=
  if contains_nans_only data_file (field_id (ref_field reference))
  then ROWS_CANNOT_MATCH else ROWS_MIGHT_MATCH.

Definition visit_eq (reference : BoundReference) (datum : Datum) : result bool :=
  let field_id := field_id (ref_field reference) in
  if contains_nulls_only data_file field_id || contains_nans_only data_file field_id
  then ROWS_CANNOT_MATCH
  else
    let check_upper :=
      match upper_bound_of data_file field_id with
      | Some upper_bound =>
          if Values.is_nan upper_bound then ROWS_MIGHT_MATCH
          else if datum_lt upper_bound datum then ROWS_CANNOT_MATCH
          else ROWS_MIGHT_MATCH
      | None => ROWS_MIGHT_MATCH
      end in
    match lower_bound_of data_file field_id with
    | Some lower_bound =>
        if Values.is_nan lower_bound then ROWS_MIGHT_MATCH
        else if datum_gt lower_bound datum then ROWS_CANNOT_MATCH
        else check_upper
    | None => check_upper
    end.

Definition visit_starts_with (reference : BoundReference) (datum : Datum) : result bool :=
  let field_id := field_id (ref_field reference) in
  if contains_nulls_only data_file field_id then ROWS_CANNOT_MATCH
  else
    let? datum := expect_string datum in
    let check_upper :=
      match upper_bound_of data_file field_id with
      | Some upper_bound =>
          let? upper_bound := expect_string upper_bound in
          let prefix_length := (chars_count upper_bound `min` chars_count datum)%nat in
          let truncated_upper_bound := chars_take prefix_length upper_bound in
          match str_cmp datum truncated_upper_bound with
          | Gt => ROWS_CANNOT_MATCH
          | _ => ROWS_MIGHT_MATCH
          end
      | None => ROWS_MIGHT_MATCH
      end in
    match lower_bound_of data_file field_id with
    | Some lower_bound =>
        let? lower_bound := expect_string lower_bound in
        let prefix_length := (chars_count lower_bound `min` chars_count datum)%nat in
        let truncated_lower_bound := chars_take prefix_length lower_bound in
        match str_cmp datum truncated_lower_bound with
        | Lt => ROWS_CANNOT_MATCH
        | _ => check_upper
        end
    | None => check_upper
    end.

Definition visit_not_starts_with (reference : BoundReference) (datum : Datum) : result bool :=
  let field_id := field_id (ref_field reference) in
  if may_contain_null data_file field_id then ROWS_MIGHT_MATCH
  else
    let? prefix := expect_string datum in
    match lower_bound_of data_file field_id with
    | None => ROWS_MIGHT_MATCH
    | Some lower_bound =>
        let? lower_bound_str := expect_string lower_bound in
        match str_cmp lower_bound_str prefix with
        | Lt => ROWS_MIGHT_MATCH
        | _ =>
            let prefix_len := chars_count prefix in
            if bool_decide (utf8 (chars_take prefix_len lower_bound_str) = utf8 prefix) then
              match upper_bound_of data_file field_id with
              | None => ROWS_MIGHT_MATCH
              | Some upper_bound =>
                  let? upper_bound := expect_string upper_bound in
                  if (chars_count upper_bound <? prefix_len)%nat then ROWS_MIGHT_MATCH
                  else if bool_decide (utf8 (chars_take prefix_len upper_bound) = utf8 prefix)
                  then ROWS_CANNOT_MATCH
                  else ROWS_MIGHT_MATCH
              end
            else ROWS_MIGHT_MATCH
        end
    end.

Definition visit_in (reference : BoundReference) (literals : list Datum) : result bool :=
  let field_id := field_id (ref_field reference) in
  if contains_nulls_only data_file field_id || contains_nans_only data_file field_id
  then ROWS_CANNOT_MATCH
  else if IN_PREDICATE_LIMIT <? Z.of_nat (length literals) then ROWS_MIGHT_MATCH
  else
    let check_upper :=
      match upper_bound_of data_file field_id with
      | Some upper_bound =>
          if Values.is_nan upper_bound then ROWS_MIGHT_MATCH
          else if negb (existsb (fun datum => datum_le datum upper_bound) literals)
          then ROWS_CANNOT_MATCH
          else ROWS_MIGHT_MATCH
      | None => ROWS_MIGHT_MATCH
      end in
    match lower_bound_of data_file field_id with
    | Some lower_bound =>
        if Values.is_nan lower_bound then ROWS_MIGHT_MATCH
        else if negb (existsb (fun datum => datum_ge datum lower_bound) literals)
        then ROWS_CANNOT_MATCH
        else check_upper
    | None => check_upper
    end.

Definition InclusiveMetricsEvaluator : BoundPredicateVisitor result bool :=
  {| always_true := ROWS_MIGHT_MATCH;
     always_false := ROWS_CANNOT_MATCH;
     and lhs rhs := Ok (lhs && rhs);
     or lhs rhs := Ok (lhs || rhs);
     not inner := Ok (negb inner);
     is_null reference _ := visit_is_null reference;
     not_null reference _ := visit_not_null reference;
     is_nan reference _ := visit_is_nan reference;
     not_nan reference _ := visit_not_nan reference;
     less_than reference datum _ := visit_inequality reference datum datum_lt true;
     less_than_or_eq reference datum _ := visit_inequality reference datum datum_le true;
     greater_than reference datum _ := visit_inequality reference datum datum_gt false;
     greater_than_or_eq reference datum _ := visit_inequality reference datum datum_ge false;
     eq reference datum _ := visit_eq reference datum;
     not_eq _ _ _ := ROWS_MIGHT_MATCH;
     starts_with reference datum _ := visit_starts_with reference datum;
     not_starts_with reference datum _ := visit_not_starts_with reference datum;
     in_ reference literals _ := visit_in reference literals;
     not_in _ _ _ := ROWS_MIGHT_MATCH |}.

Definition inclusive_eval (filter : BoundPredicate) (include_empty_files : bool) : result bool :=
  if negb include_empty_files && (record_count data_file =? 0) then ROWS_CANNOT_MATCH
  else visit InclusiveMetricsEvaluator filter.

End evaluator.

(** ** Soundness *)

Section soundness.
Context {V : ValueLib} {L : ValueLibLaws V}.
Context {f : DataFile} {rows : list Struct} {row : Struct}.
Context {t : BoundReference} {ty : PrimitiveType.t} {values : column}.
Context (D : describes f rows t ty values) (Hrow : row ∈ rows).

Let CM : column_metrics f (field_id (ref_field t)) ty values := proj2 D.

Lemma inclusive_is_null_sound :
  answers_le (on_value t row (fun _ => false) true) (visit_is_null f t).
Proof using D Hrow.
  apply (on_value_le _ _ _ _ _ _ _ (proj1 D) Hrow). intros v Hv. unfold visit_is_null.
  destruct (null_count f _) as [n|] eqn:E; [|by eexists].
  destruct (Z.eqb_spec n 0) as [->|]; [|by eexists].
  destruct (null_count_zero CM v E Hv) as [x ->]. by eexists.
Qed.

Lemma inclusive_not_null_sound :
  answers_le (on_value t row (fun _ => true) false) (visit_not_null f t).
Proof using D Hrow.
  apply (on_value_le _ _ _ _ _ _ _ (proj1 D) Hrow). intros v Hv. unfold visit_not_null.
  destruct (contains_nulls_only f _) eqn:E; [|by eexists].
  rewrite (nulls_only_null CM v E Hv). by eexists.
Qed.

Lemma inclusive_is_nan_sound :
  answers_le (on_value t row (fun x => Values.is_nan x) false) (visit_is_nan f t).
Proof using D Hrow.
  apply (on_value_le _ _ _ _ _ _ _ (proj1 D) Hrow). intros v Hv. unfold visit_is_nan.
  case_bool_decide as E.
  - pose proof (nan_count_zero CM v E Hv) as Hn. eexists. split; [done|].
    destruct v; cbn in Hn; congruence.
  - destruct (contains_nulls_only f _) eqn:En; [|by eexists].
    rewrite (nulls_only_null CM v En Hv). by eexists.
Qed.

Lemma inclusive_not_nan_sound :
  answers_le (on_value t row (fun x => negb (Values.is_nan x)) true) (visit_not_nan f t).
Proof using D Hrow.
  apply (on_value_le _ _ _ _ _ _ _ (proj1 D) Hrow). intros v Hv. unfold visit_not_nan.
  destruct (contains_nans_only f _) eqn:E; [|by eexists].
  pose proof (nans_only_nan CM v E Hv) as Hn. eexists. split; [done|].
  destruct v as [x|]; cbn in Hn; [|done]. by rewrite Hn.
Qed.

(** When a regular value of the column is the witness, the "only nulls" and "only NaNs"
    shortcuts are not taken. *)
Lemma shortcut_not_taken x :
  Some x ∈ values -> Values.is_nan x = false ->
  contains_nulls_only f (field_id (ref_field t))
  || contains_nans_only f (field_id (ref_field t)) = false.
Proof using D.
  intros Hx Hn. rewrite (value_not_only_null CM x Hx).
  by rewrite (value_not_only_nan CM (Some x) Hx).
Qed.

Lemma visit_inequality_ok d cmp use_lower :
  exists b, visit_inequality f t d cmp use_lower = Ok b.
Proof.
  unfold visit_inequality, ROWS_CANNOT_MATCH, ROWS_MIGHT_MATCH. repeat case_match; eauto.
Qed.

(** An order comparison that a value passes is passed by the bound on its side. *)
Lemma inclusive_inequality_sound d cmp (use_lower : bool) :
  literal_ok ty d -> column_nan_free values -> bounds_not_nan f (field_id (ref_field t)) ->
  (forall b x, comparable b d -> comparable x d ->
     (if use_lower then lex_le (key b) (key x) else lex_le (key x) (key b)) ->
     cmp x d = true -> cmp b d = true) ->
  answers_le (on_value t row (fun x => cmp x d) false) (visit_inequality f t d cmp use_lower).
Proof using D Hrow.
  intros Hd Hnan [Hlo Hup] Hcmp. apply (on_value_le _ _ _ _ _ _ _ (proj1 D) Hrow). intros v Hv.
  destruct (visit_inequality_ok d cmp use_lower) as [b Hb]. exists b. split; [done|].
  destruct v as [x|]; [|done]. intros Hx. pose proof (Hnan x Hv) as Hn.
  unfold visit_inequality in Hb. rewrite (shortcut_not_taken x Hv Hn) in Hb.
  destruct Hd as (Hdw & Hdt & Hdn & Hdr). rewrite Hdn in Hb.
  assert (comparable x d) as Hxd by (by eapply value_literal_comparable).
  destruct use_lower.
  - destruct (lower_bound_of f _) as [lb|] eqn:E; [|by injection Hb as <-].
    rewrite (Hcmp lb x) in Hb; [by injection Hb as <-|..]; try done.
    + eapply comparable_trans; [apply comparable_sym|exact Hxd].
      eapply value_bound_comparable; [done..|]. by apply (cm_lower _ _ _ _ CM).
    + by apply (lower_covers CM); [|apply Hlo|..].
  - destruct (upper_bound_of f _) as [ub|] eqn:E; [|by injection Hb as <-].
    rewrite (Hcmp ub x) in Hb; [by injection Hb as <-|..]; try done.
    + eapply comparable_trans; [apply comparable_sym|exact Hxd].
      eapply value_bound_comparable; [done..|]. by apply (cm_upper _ _ _ _ CM).
    + by apply (upper_covers CM); [|apply Hup|..].
Qed.

(** The two bound checks that [visit_eq] and [visit_in] have in common. *)
Definition bounds_check (id : Z) (misses_lower misses_upper : Datum -> bool) : result bool :=
  let check_upper :=
    match upper_bound_of f id with
    | Some ub => if Values.is_nan ub then ROWS_MIGHT_MATCH
                 else if misses_upper ub then ROWS_CANNOT_MATCH else ROWS_MIGHT_MATCH
    | None => ROWS_MIGHT_MATCH
    end in
  match lower_bound_of f id with
  | Some lb => if Values.is_nan lb then ROWS_MIGHT_MATCH
               else if misses_lower lb then ROWS_CANNOT_MATCH else check_upper
  | None => check_upper
  end.

Lemma bounds_check_pass id misses_lower misses_upper :
  (forall lb, lower_bound_of f id = Some lb -> Values.is_nan lb = false ->
     misses_lower lb = false) ->
  (forall ub, upper_bound_of f id = Some ub -> Values.is_nan ub = false ->
     misses_upper ub = false) ->
  bounds_check id misses_lower misses_upper = Ok true.
Proof.
  unfold bounds_check. intros Hlo Hup.
  assert (match upper_bound_of f id with
          | Some ub => if Values.is_nan ub then ROWS_MIGHT_MATCH
                       else if misses_upper ub then ROWS_CANNOT_MATCH else ROWS_MIGHT_MATCH
          | None => ROWS_MIGHT_MATCH
          end = Ok true) as ->.
  { destruct (upper_bound_of f id) as [ub|]; [|done].
    destruct (Values.is_nan ub) eqn:E; [done|]. by rewrite Hup. }
  destruct (lower_bound_of f id) as [lb|]; [|done].
  destruct (Values.is_nan lb) eqn:E; [done|]. by rewrite Hlo.
Qed.

(** A value equal to a literal puts the literal between the bounds. *)
Lemma equal_value_bounds x d :
  Some x ∈ values -> literal_ok ty d -> regular x = true -> datum_eqb x d = true ->
  Values.is_nan x = false
  /\ (forall lb, lower_bound_of f (field_id (ref_field t)) = Some lb ->
        Values.is_nan lb = false -> comparable lb d /\ lex_le (key lb) (key d))
  /\ (forall ub, upper_bound_of f (field_id (ref_field t)) = Some ub ->
        Values.is_nan ub = false -> comparable ub d /\ lex_le (key d) (key ub)).
Proof using D L.
  intros Hv Hd Hreg Hx. assert (comparable x d) as Hxd by (by eapply value_literal_comparable).
  pose proof Hd as (_ & _ & Hdn & Hdr).
  assert (Values.is_nan x = false) as Hn.
  { destruct (Values.is_nan x) eqn:E; [|done]. by rewrite datum_eqb_nan in Hx. }
  apply datum_eqb_key in Hx; [|done..]. split; [done|]. rewrite <- Hx. split.
  - intros lb E Hnl. split; [|by apply (lower_covers CM)].
    eapply bound_literal_comparable; [by apply (cm_lower _ _ _ _ CM)|done].
  - intros ub E Hnl. split; [|by apply (upper_covers CM)].
    eapply bound_literal_comparable; [by apply (cm_upper _ _ _ _ CM)|done].
Qed.

Lemma inclusive_eq_sound d :
  literal_ok ty d -> column_regular values ->
  answers_le (on_value t row (fun x => datum_eqb x d) false) (visit_eq f t d).
Proof using D Hrow L.
  intros Hd Hreg. apply (on_value_le _ _ _ _ _ _ _ (proj1 D) Hrow). intros v Hv.
  assert (exists b, visit_eq f t d = Ok b) as [b Hb].
  { unfold visit_eq, ROWS_CANNOT_MATCH, ROWS_MIGHT_MATCH. repeat case_match; eauto. }
  exists b. split; [done|]. destruct v as [x|]; [|done]. intros Hx.
  destruct (equal_value_bounds x d) as (Hn & Hlo & Hup); auto.
  unfold visit_eq in Hb. rewrite (shortcut_not_taken x Hv Hn) in Hb.
  enough (Ok b = Ok true) by congruence. rewrite <- Hb.
  apply (bounds_check_pass _ (fun lb => datum_gt lb d) (fun ub => datum_lt ub d)).
  - intros lb E Hnl. destruct (Hlo lb E Hnl) as [Hc Hle].
    apply not_true_iff_false. rewrite datum_gt_key by done. by apply lex_not_lt.
  - intros ub E Hnl. destruct (Hup ub E Hnl) as [Hc Hle].
    apply not_true_iff_false. rewrite datum_lt_key by done. by apply lex_not_lt.
Qed.

Lemma inclusive_in_sound ds :
  Forall (literal_ok ty) ds -> column_regular values ->
  answers_le (on_value t row (fun x => set_contains ds x) false) (visit_in f t ds).
Proof using D Hrow L.
  intros Hds Hreg. apply (on_value_le _ _ _ _ _ _ _ (proj1 D) Hrow). intros v Hv.
  assert (exists b, visit_in f t ds = Ok b) as [b Hb].
  { unfold visit_in, ROWS_CANNOT_MATCH, ROWS_MIGHT_MATCH. repeat case_match; eauto. }
  exists b. split; [done|]. destruct v as [x|]; [|done].
  unfold set_contains. intros (d & Hin & Hx)%existsb_exists.
  assert (literal_ok ty d) as Hd.
  { rewrite Forall_forall in Hds. apply Hds. by apply list_elem_of_In. }
  destruct (equal_value_bounds x d) as (Hn & Hlo & Hup); auto.
  unfold visit_in in Hb. rewrite (shortcut_not_taken x Hv Hn) in Hb.
  destruct (IN_PREDICATE_LIMIT <? _); [by injection Hb as <-|].
  enough (Ok b = Ok true) by congruence. rewrite <- Hb.
  apply (bounds_check_pass _ (fun lb => negb (existsb (fun d => datum_ge d lb) ds))
                             (fun ub => negb (existsb (fun d => datum_le d ub) ds))).
  - intros lb E Hnl. destruct (Hlo lb E Hnl) as [Hc Hle]. apply negb_false_iff, existsb_exists.
    exists d. split; [done|]. apply datum_ge_key; [by apply comparable_sym|done].
  - intros ub E Hnl. destruct (Hup ub E Hnl) as [Hc Hle]. apply negb_false_iff, existsb_exists.
    exists d. split; [done|]. apply datum_le_key; [by apply comparable_sym|done].
Qed.

(** *** Prefixes *)

(** The string of a well-formed string datum. *)
Lemma expect_string_ok d :
  datum_wf d = true -> datum_type d = PrimitiveType.String ->
  exists s, d = datum_string s /\ expect_string d = Ok s /\ valid_str s = true /\ key d = utf8 s.
Proof.
  destruct d as [ty' l]. cbn. intros Hw ->. unfold datum_wf in Hw. cbn in Hw.
  apply andb_true_iff in Hw as [Hc Hl]. destruct l; try discriminate Hc. by exists s.
Qed.

(** A string bound, and how it relates to a string of the column. *)
Lemma inclusive_string_bound covers b :
  ty = PrimitiveType.String -> bound_ok covers ty values b ->
  exists sb, b = datum_string sb /\ expect_string b = Ok sb /\ valid_str sb = true
    /\ forall sx, Some (datum_string sx) ∈ values -> valid_str sx = true
         /\ covers (utf8 sb) (utf8 sx).
Proof using D.
  intros Hty (Hw & Ht & Hcov). subst ty.
  destruct (expect_string_ok b) as (sb & -> & Eb & Hvb & Kb); [done..|].
  exists sb. split; [done|]. split; [done|]. split; [done|]. intros sx Hx. split.
  - destruct (cm_typed _ _ _ _ CM _ Hx) as [Hxw _]. unfold datum_wf in Hxw.
    by apply andb_true_iff in Hxw as [_ ?].
  - destruct Hcov as [?|Hcov]; [done|]. by apply (Hcov (datum_string sx)).
Qed.

Lemma utf8_le s1 s2 :
  valid_str s1 = true -> valid_str s2 = true -> lex_le (utf8 s1) (utf8 s2) <-> lex_le s1 s2.
Proof. intros. unfold lex_le. by rewrite utf8_lex_cmp. Qed.

Lemma str_cmp_not_lt s1 s2 :
  valid_str s1 = true -> valid_str s2 = true -> lex_le s2 s1 -> str_cmp s1 s2 <> Lt.
Proof. intros. unfold str_cmp. rewrite utf8_lex_cmp by done. by apply lex_not_lt. Qed.
Lemma str_cmp_not_gt s1 s2 :
  valid_str s1 = true -> valid_str s2 = true -> lex_le s1 s2 -> str_cmp s1 s2 <> Gt.
Proof. intros. unfold str_cmp. by rewrite utf8_lex_cmp. Qed.

Lemma inclusive_starts_with_sound d :
  literal_ok ty d -> ty = PrimitiveType.String ->
  answers_le (on_value t row (fun x => literal_starts_with x d) false) (visit_starts_with f t d).
Proof using D Hrow L.
  intros (Hw & Hdt & _) Hty. apply (on_value_le _ _ _ _ _ _ _ (proj1 D) Hrow). intros v Hv.
  destruct (expect_string_ok d) as (p & -> & Ep & Hvp & _); [done|congruence|].
  assert (forall x, v = Some x -> literal_starts_with x (datum_string p) = true ->
            exists q, x = datum_string (p ++ q) /\ valid_str (p ++ q) = true) as Hmatch.
  { intros x -> Hx. destruct (cm_typed _ _ _ _ CM x Hv) as [Hxw Hxt].
    destruct (expect_string_ok x) as (sx & -> & _ & Hvx & _); [done|congruence|].
    cbn in Hx. apply starts_with_chars in Hx as [q ->]; [|done..]. by exists q. }
  unfold visit_starts_with. rewrite Ep. cbn [mbind result_bind].
  destruct (contains_nulls_only f _) eqn:En.
  { eexists. split; [done|]. by rewrite (nulls_only_null CM v En Hv). }
  assert (exists b, match upper_bound_of f (field_id (ref_field t)) with
    | Some upper_bound =>
        let? upper_bound := expect_string upper_bound in
        match str_cmp p (chars_take (chars_count upper_bound `min` chars_count p) upper_bound) with
        | Gt => ROWS_CANNOT_MATCH | _ => ROWS_MIGHT_MATCH end
    | None => ROWS_MIGHT_MATCH end = Ok b
    /\ (match v with Some x => literal_starts_with x (datum_string p) | None => false end = true
        -> b = true)) as (b & Hb & Hbt).
  { destruct (upper_bound_of f _) as [ub|] eqn:Eu; [|by eexists].
    destruct (inclusive_string_bound _ ub Hty (cm_upper _ _ _ _ CM ub Eu)) as (su & -> & Eb & Hvu & Hcov).
    rewrite Eb. cbn [mbind result_bind]. destruct (str_cmp p _) eqn:Ec; try (by eexists).
    exists false. split; [done|]. destruct v as [x|]; [|done].
    intros (q & -> & Hvq)%Hmatch; [|done]. destruct (Hcov _ Hv) as [_ Hle]. exfalso.
    revert Ec. apply str_cmp_not_gt; [done|by apply valid_str_take|].
    unfold chars_take, chars_count. apply (lex_prefix_upper p q). by apply utf8_le. }
  destruct (lower_bound_of f _) as [lb|] eqn:El; [|by exists b].
  destruct (inclusive_string_bound _ lb Hty (cm_lower _ _ _ _ CM lb El)) as (sl & -> & Eb & Hvl & Hcov).
  rewrite Eb. cbn [mbind result_bind]. destruct (str_cmp p _) eqn:Ec; try (by exists b).
  exists false. split; [done|]. destruct v as [x|]; [|done].
  intros (q & -> & Hvq)%Hmatch; [|done]. destruct (Hcov _ Hv) as [_ Hle]. exfalso.
  revert Ec. apply str_cmp_not_lt; [done|by apply valid_str_take|].
  unfold chars_take, chars_count. apply (lex_prefix_lower p q); [by apply utf8_le|lia].
Qed.

Lemma inclusive_not_starts_with_sound d :
  literal_ok ty d -> ty = PrimitiveType.String ->
  answers_le (negb <$> on_value t row (fun x => literal_starts_with x d) false)
    (visit_not_starts_with f t d).
Proof using D Hrow L.
  intros (Hw & Hdt & _) Hty.
  enough (answers_le (on_value t row (fun x => negb (literal_starts_with x d)) true)
            (visit_not_starts_with f t d)) as Hle.
  { revert Hle. unfold on_value. by destruct (accessor_get _ _) as [[x|]|]. }
  apply (on_value_le _ _ _ _ _ _ _ (proj1 D) Hrow). intros v Hv.
  destruct (expect_string_ok d) as (p & -> & Ep & Hvp & _); [done|congruence|].
  unfold visit_not_starts_with. rewrite Ep. cbn [mbind result_bind].
  destruct (may_contain_null f _) eqn:En; [by eexists|].
  destruct (no_null CM v En Hv) as [x ->].
  destruct (cm_typed _ _ _ _ CM x Hv) as [Hxw Hxt].
  destruct (expect_string_ok x) as (sx & -> & _ & Hvx & _); [done|congruence|].
  destruct (lower_bound_of f _) as [lb|] eqn:El; [|by eexists].
  destruct (inclusive_string_bound _ lb Hty (cm_lower _ _ _ _ CM lb El)) as (sl & -> & Eb & Hvl & Hl).
  rewrite Eb. cbn [mbind result_bind]. destruct (str_cmp sl p); [|by eexists|];
    (case_bool_decide as Htl; [|by eexists]);
    (destruct (upper_bound_of f _) as [ub|] eqn:Eu; [|by eexists]);
    destruct (inclusive_string_bound _ ub Hty (cm_upper _ _ _ _ CM ub Eu)) as (su & -> & Eb' & Hvu & Hu);
    rewrite Eb'; cbn [mbind result_bind];
    (destruct (chars_count su <? chars_count p)%nat; [by eexists|]);
    (case_bool_decide as Htu; [|by eexists]); exists false; (split; [done|]);
    apply utf8_inj in Htl, Htu; try done; try (by apply valid_str_take);
    intros Hneg%negb_true_iff; exfalso; revert Hneg; apply not_false_iff_true; cbn;
    apply starts_with_take; try done;
    apply (lex_prefix_between p sl su); try done;
    apply utf8_le; first [done | by apply Hl | by apply Hu].
Qed.

(** *** The evaluator *)

End soundness.

Lemma inclusive_boolean_visitor {V : ValueLib} f : boolean_visitor (InclusiveMetricsEvaluator f).
Proof. split; done. Qed.

Lemma inclusive_leaf_sound {V : ValueLib} {L : ValueLibLaws V} f rows row q :
  row ∈ rows -> leaf_described f rows q ->
  match q with Unary _ _ | Binary _ _ _ | SetP _ _ _ => True | _ => False end ->
  answers_le (visit (ExpressionEvaluatorVisitor row) q)
             (visit (InclusiveMetricsEvaluator f) q).
Proof.
  intros Hrow Hq Hleaf. destruct q as [| | | | |op t|op t d|op t ds]; try done; cbn in Hq.
  - destruct Hq as (ty & values & D). destruct op; try done; cbn.
    + by eapply inclusive_is_null_sound. + by eapply inclusive_not_null_sound.
    + by eapply inclusive_is_nan_sound. + by eapply inclusive_not_nan_sound.
  - destruct Hq as (ty & values & D & Hd & Hreg & Hord & Hpre). destruct op; try done; cbn.
    + destruct Hord; [done|]. eapply (inclusive_inequality_sound D Hrow d datum_lt true); [done..|].
      intros b x Hb Hx Hle. rewrite !datum_lt_key by done. by apply lex_le_lt_trans.
    + destruct Hord; [done|]. eapply (inclusive_inequality_sound D Hrow d datum_le true); [done..|].
      intros b x Hb Hx Hle. rewrite !datum_le_key by done. by apply lex_le_trans.
    + destruct Hord; [done|]. eapply (inclusive_inequality_sound D Hrow d datum_gt false); [done..|].
      intros b x Hb Hx Hle. rewrite !datum_gt_key by done. intros ?. by eapply lex_lt_le_trans.
    + destruct Hord; [done|]. eapply (inclusive_inequality_sound D Hrow d datum_ge false); [done..|].
      intros b x Hb Hx Hle. rewrite !datum_ge_key by done. intros ?. by eapply lex_le_trans.
    + by eapply inclusive_eq_sound.
    + apply (on_value_le _ _ _ _ _ _ _ (proj1 D) Hrow). by eexists.
    + eapply inclusive_starts_with_sound; eauto.
    + eapply inclusive_not_starts_with_sound; eauto.
  - destruct Hq as (ty & values & D & Hds & Hreg & _). destruct op; try done; cbn.
    + by eapply inclusive_in_sound.
    + apply (on_value_le _ _ _ _ _ _ _ (proj1 D) Hrow). by eexists.
Qed.

(** The evaluator keeps a file with a matching row. *)
Lemma inclusive_keeps_file {V : ValueLib} {L : ValueLibLaws V} f rows row filter
    include_empty_files :
  record_count f = Z.of_nat (length rows) -> row ∈ rows ->
  leaves (leaf_described f rows) filter ->
  eval_row filter row = Ok true -> inclusive_eval f filter include_empty_files = Ok true.
Proof.
  intros Hcount Hrow Hleaves Heval. unfold inclusive_eval.
  replace (negb include_empty_files && (record_count f =? 0)) with false.
  2: { destruct rows; [by apply not_elem_of_nil in Hrow|]. rewrite Hcount.
       by destruct include_empty_files. }
  eapply answers_le_true; [|exact Heval].
  apply visit_sim; [apply expression_boolean_visitor|apply expression_refuses_not|
                    apply inclusive_boolean_visitor|].
  clear Heval. induction filter; cbn [leaves] in *; try tauto; by apply (inclusive_leaf_sound f rows).
Qed.

(** C19 A scan does not skip a file with a matching row: if the file's metrics describe its rows
    and some row matches the filter, the inclusive evaluator answers that rows might match,
    whether or not empty files are kept.  The metrics describe the rows ([leaf_described]) when
    counts are right and bounds, when given, cover the values; a column that is compared must
    hold no negative zero ([negative_zero_is_lost]), one that is ordered no NaN, with bounds
    that are not NaN ([nan_lower_bound_is_trusted]), as must the bounds under NOT IN; literals
    are neither, and of the type of their column. *)
Theorem inclusive_metrics_sound {V : ValueLib} {L : ValueLibLaws V} f rows row filter
    include_empty_files :
  record_count f = Z.of_nat (length rows) -> row ∈ rows ->
  leaves (leaf_described f rows) filter ->
  eval_row filter row = Ok true -> inclusive_eval f filter include_empty_files = Ok true.
Proof. apply inclusive_keeps_file. Qed.

Section witnesses.
#[local] Existing Instance concrete_values.

(** [a > 5], matched by the second row. *)
Lemma inclusive_metrics_sound_witness :
  inclusive_eval ex_file (Binary PredicateOperator.GreaterThan ex_term (datum_int 5)) false = Ok true.
Proof.
  refine (inclusive_metrics_sound ex_file ex_rows [Some (LPrimitive (PrimitiveLiteral.Int 8))]
            _ false _ _ _ _).
  - reflexivity.
  - right. left.
  - apply ex_leaf_described; reflexivity.
  - reflexivity.
Defined.

(** *** Deviations *)

(** One row of a [double] column, with bounds [lower] and [upper]. *)
Definition double_term : BoundReference :=
  mkBoundReference "d" (mkField 1 "d" false (TPrimitive PrimitiveType.Double))
    (accessor_new 0 PrimitiveType.Double).
Definition double_bits (b : Z) : Datum := mkDatum PrimitiveType.Double (PrimitiveLiteral.Double b).
Definition double_row (b : Z) : Struct := [Some (LPrimitive (PrimitiveLiteral.Double b))].
Definition double_file (lower upper : Z) : DataFile :=
  mkDataFile Data "f.parquet" Parquet [] 1 10 ∅ {[1 := 1]} {[1 := 0]} {[1 := 0]}
    {[1 := double_bits lower]} {[1 := double_bits upper]}
    None None None None None 0 None None None.

Definition F64_NAN : Z := 0x7ff8000000000000.
Definition F64_ONE : Z := 0x3ff0000000000000.
Definition F64_TWO : Z := 0x4000000000000000.
Definition F64_NEG_ZERO : Z := 0x8000000000000000.

(** A file whose lower bound is NaN, which the format calls unreliable, is skipped for
    [d < 2.0] although its row 1.0 matches: [visit_inequality] looks for a NaN in the literal
    instead of the bound.  The equality test on the same file is answered correctly. *)
Theorem nan_lower_bound_is_trusted :
  let f := double_file F64_NAN F64_NAN in
  let less := Binary PredicateOperator.LessThan double_term (double_bits F64_TWO) in
  let equal := Binary PredicateOperator.Eq double_term (double_bits F64_ONE) in
  column_metrics f 1 PrimitiveType.Double [Some (double_bits F64_ONE)]
  /\ eval_row less (double_row F64_ONE) = Ok true /\ inclusive_eval f less false = Ok false
  /\ eval_row equal (double_row F64_ONE) = Ok true /\ inclusive_eval f equal false = Ok true.
Proof.
  cbv zeta. split; [|by vm_compute]. split.
  - intros x [[= ->]|[]%not_elem_of_nil]%elem_of_cons; done.
  - by intros n [= <-].
  - by intros n [= <-].
  - by intros n [= <-].
  - intros b [= <-]. split; [done|]. split; [done|]. by left.
  - intros b [= <-]. split; [done|]. split; [done|]. by left.
Qed.

(** A file that holds only -0.0, with exact bounds, is skipped for [d = 0.0], which its
    row matches: equality identifies the two zeros and the order of [Datum] does not. *)
Theorem negative_zero_is_lost :
  let f := double_file F64_NEG_ZERO F64_NEG_ZERO in
  let equal := Binary PredicateOperator.Eq double_term (double_bits 0) in
  column_metrics f 1 PrimitiveType.Double [Some (double_bits F64_NEG_ZERO)]
  /\ eval_row equal (double_row F64_NEG_ZERO) = Ok true /\ inclusive_eval f equal false = Ok false.
Proof.
  cbv zeta. split; [|by vm_compute]. split.
  - intros x [[= ->]|[]%not_elem_of_nil]%elem_of_cons; done.
  - by intros n [= <-].
  - by intros n [= <-].
  - by intros n [= <-].
  - intros b [= <-]. split; [done|]. split; [done|]. right.
    intros x [[= ->]|[]%not_elem_of_nil]%elem_of_cons _. apply lex_le_refl.
  - intros b [= <-]. split; [done|]. split; [done|]. right.
    intros x [[= ->]|[]%not_elem_of_nil]%elem_of_cons _. apply lex_le_refl.
Qed.

End witnesses.
