(* ===== verification/ParquetStatistics.v ===== *)
(** * Column chunk statistics (arrow/schema.rs)

    How the statistics of a Parquet column chunk become typed bounds.
    [Statistics] and [RowGroupMetaData] are the data that the [parquet] crate
    hands over: the variants and fields that the code reads. *)

From S2P Require Import Prelude Utf8 Bytes Numerals Decimal Values Concrete DatumOrder.

Record ValueStatistics (T : Type) := mkValueStatistics {
  min_opt : option T;
  max_opt : option T;
  null_count_opt : option Z;
}.
Arguments mkValueStatistics {T}. Arguments min_opt {T}. Arguments max_opt {T}.
Arguments null_count_opt {T}.

(** [parquet::file::statistics::Statistics]; floats are bit patterns, byte arrays lists of
    bytes, an [Int96] its three words. *)
Module Statistics.
Inductive t :=
| Boolean (stats : ValueStatistics bool)
| Int32 (stats : ValueStatistics Z)
| Int64 (stats : ValueStatistics Z)
| Int96 (stats : ValueStatistics (list Z))
| Float (stats : ValueStatistics Z)
| Double (stats : ValueStatistics Z)
| ByteArray (stats : ValueStatistics (list Z))
| FixedLenByteArray (stats : ValueStatistics (list Z)).

Definition null_count (self : t) : option Z :=
  match self with
  | Boolean s => null_count_opt s | Int32 s => null_count_opt s | Int64 s => null_count_opt s
  | Int96 s => null_count_opt s | Float s => null_count_opt s | Double s => null_count_opt s
  | ByteArray s => null_count_opt s | FixedLenByteArray s => null_count_opt s
  end.
End Statistics.

(** [Datum::uuid] of [Uuid::from_bytes], [Datum::fixed] and [Datum::binary]. *)
Definition datum_float (bits : Z) : Datum :=
  mkDatum PrimitiveType.Float (PrimitiveLiteral.Float bits).
Definition datum_double (bits : Z) : Datum :=
  mkDatum PrimitiveType.Double (PrimitiveLiteral.Double bits).
Definition datum_uuid (uuid : Z) : Datum :=
  mkDatum PrimitiveType.Uuid (PrimitiveLiteral.UInt128 uuid).
Definition datum_fixed (bytes : list Z) : Datum :=
  mkDatum (PrimitiveType.Fixed (Z.of_nat (length bytes))) (PrimitiveLiteral.Binary bytes).
Definition datum_binary (bytes : list Z) : Datum :=
  mkDatum PrimitiveType.Binary (PrimitiveLiteral.Binary bytes).

(** [opt.map(f)] where [f] may fail. *)
Definition opt_try {A B} (opt : option A) (f : A -> result B) : result (option B) :=
  match opt with
  | Some a => Some <$> f a
  | None => Ok None
  end.

(** [get_parquet_stat_min_as_datum] and [get_parquet_stat_max_as_datum] differ in the side
    [opt] that they read. *)
Definition stat_as_datum (opt : forall T, ValueStatistics T -> option T)
    (primitive_type : PrimitiveType.t) (stats : Statistics.t) : result (option Datum) :=
  match primitive_type, stats with
  | PrimitiveType.Boolean, Statistics.Boolean stats => Ok (datum_bool <$> opt _ stats)
  | PrimitiveType.Int, Statistics.Int32 stats => Ok (datum_int <$> opt _ stats)
  | PrimitiveType.Date, Statistics.Int32 stats => Ok (datum_date <$> opt _ stats)
  | PrimitiveType.Long, Statistics.Int64 stats => Ok (datum_long <$> opt _ stats)
  | PrimitiveType.Time, Statistics.Int64 stats => opt_try (opt _ stats) time_micros
  | PrimitiveType.Timestamp, Statistics.Int64 stats => Ok (timestamp_micros <$> opt _ stats)
  | PrimitiveType.Timestamptz, Statistics.Int64 stats => Ok (timestamptz_micros <$> opt _ stats)
  | PrimitiveType.TimestampNs, Statistics.Int64 stats => Ok (timestamp_nanos <$> opt _ stats)
  | PrimitiveType.TimestamptzNs, Statistics.Int64 stats => Ok (timestamptz_nanos <$> opt _ stats)
  | PrimitiveType.Float, Statistics.Float stats => Ok (datum_float <$> opt _ stats)
  | PrimitiveType.Double, Statistics.Double stats => Ok (datum_double <$> opt _ stats)
  | PrimitiveType.String, Statistics.ByteArray stats =>
      opt_try (opt _ stats) (fun val => datum_string <$> ok_or (from_utf8 val) Unexpected)
  | PrimitiveType.Decimal _ _, Statistics.ByteArray stats =>
      opt_try (opt _ stats) (fun bytes =>
        (fun bytes => mkDatum primitive_type (PrimitiveLiteral.Int128 (of_be_signed bytes)))
        <$> exact_len 16 bytes)
  | PrimitiveType.Decimal _ _, Statistics.FixedLenByteArray stats =>
      opt_try (opt _ stats) (fun bytes =>
        (fun v => mkDatum primitive_type (PrimitiveLiteral.Int128 v))
        <$> ok_or (i128_from_be_bytes bytes) DataInvalid)
  | PrimitiveType.Decimal _ _, Statistics.Int32 stats =>
      Ok ((fun val => mkDatum primitive_type (PrimitiveLiteral.Int128 val)) <$> opt _ stats)
  | PrimitiveType.Decimal _ _, Statistics.Int64 stats =>
      Ok ((fun val => mkDatum primitive_type (PrimitiveLiteral.Int128 val)) <$> opt _ stats)
  | PrimitiveType.Uuid, Statistics.FixedLenByteArray stats =>
      opt_try (opt _ stats) (fun bytes =>
        if negb (length bytes =? 16)%nat then Err (Error Unexpected)
        else Ok (datum_uuid (of_be bytes)))
  | PrimitiveType.Fixed len, Statistics.FixedLenByteArray stat =>
      opt_try (opt _ stat) (fun bytes =>
        if negb (Z.of_nat (length bytes) =? len) then Err (Error Unexpected)
        else Ok (datum_fixed bytes))
  | PrimitiveType.Binary, Statistics.ByteArray stat => Ok (datum_binary <$> opt _ stat)
  | _, _ => Ok None
  end.

Definition get_parquet_stat_min_as_datum : PrimitiveType.t -> Statistics.t -> result (option Datum) :=
  stat_as_datum (@min_opt).
Definition get_parquet_stat_max_as_datum : PrimitiveType.t -> Statistics.t -> result (option Datum) :=
  stat_as_datum (@max_opt).

(** ** Well-formed statistics *)

(** What a column of type [ty] writes: values in the range of their physical type, strings
    in UTF-8, decimals of at most 38 digits, byte arrays of the width of the type. *)
Definition stat_wf (opt : forall T, ValueStatistics T -> option T) (ty : PrimitiveType.t)
    (stats : Statistics.t) : Prop :=
  match stats with
  | Statistics.Int32 stats => forall v, opt _ stats = Some v -> inS 32 v = true
  | Statistics.Int64 stats => forall v, opt _ stats = Some v ->
      inS 64 v = true /\ (ty = PrimitiveType.Time -> 0 <= v <= MAX_TIME_VALUE)
  | Statistics.Float stats => forall b, opt _ stats = Some b -> inU 32 b = true
  | Statistics.Double stats => forall b, opt _ stats = Some b -> inU 64 b = true
  | Statistics.ByteArray stats => forall bs, opt _ stats = Some bs ->
      match ty with
      | PrimitiveType.String => exists s, valid_str s = true /\ bs = utf8 s
      | PrimitiveType.Decimal _ _ => length bs = 16%nat /\ Z.abs (of_be_signed bs) < 10 ^ 38
      | _ => forallb is_byte bs = true
      end
  | Statistics.FixedLenByteArray stats => forall bs, opt _ stats = Some bs ->
      match ty with
      | PrimitiveType.Decimal _ _ => exists v, i128_from_be_bytes bs = Some v /\ Z.abs v < 10 ^ 38
      | PrimitiveType.Fixed len => forallb is_byte bs = true /\ Z.of_nat (length bs) = len
      | _ => forallb is_byte bs = true /\ length bs = 16%nat
      end
  | _ => True
  end.

Lemma of_be_inU bs : forallb is_byte bs = true -> inU (8 * Z.of_nat (length bs)) (of_be bs) = true.
Proof.
  intros H. unfold of_be. apply inU_spec. rewrite <- (length_rev bs), <- pow_256.
  apply of_le_range. rewrite forallb_forall in *. intros b Hb. by apply H, in_rev.
Qed.

Lemma stat_decimal_wf precision scale v :
  type_wf (PrimitiveType.Decimal precision scale) = true -> Z.abs v < 10 ^ 38 ->
  let d := mkDatum (PrimitiveType.Decimal precision scale) (PrimitiveLiteral.Int128 v) in
  datum_wf d = true /\ datum_type d = PrimitiveType.Decimal precision scale.
Proof.
  intros Ht Hv. cbn. split; [|done]. unfold datum_wf. cbn [datum_type datum_literal compatible].
  rewrite Ht. by apply Z.ltb_lt.
Qed.

(** The bound read from well-formed statistics is a well-formed value of the column's type;
    reading it never fails. *)
Lemma stat_reads opt ty stats :
  type_wf ty = true -> stat_wf opt ty stats ->
  exists bound, stat_as_datum opt ty stats = Ok bound
    /\ forall d, bound = Some d -> datum_wf d = true /\ datum_type d = ty.
Proof.
  intros Ht Hs. destruct ty, stats as [s|s|s|s|s|s|s|s]; cbn [stat_as_datum stat_wf] in *;
    try (by eexists; split; [reflexivity|]);
    destruct (opt _ s) as [v|] eqn:E; cbn [opt_try fmap option_fmap option_map];
    try (by eexists; split; [reflexivity|]); try specialize (Hs v eq_refl);
    try (eexists; split; [reflexivity|]; intros d [= <-]; unfold datum_wf; cbn in *;
         destruct_and?; rewrite ?Hs; done).
  - eexists. split; [reflexivity|]. intros d [= <-]. apply stat_decimal_wf; [done|].
    apply inS_spec in Hs. lia.
  - destruct Hs as [Hs _]. eexists. split; [reflexivity|]. intros d [= <-].
    apply stat_decimal_wf; [done|]. apply inS_spec in Hs. lia.
  - destruct Hs as [Hl Hv]. rewrite (exact_len_ok 16) by done. eexists. split; [reflexivity|].
    intros d [= <-]. by apply stat_decimal_wf.
  - destruct Hs as (n & -> & Hv). eexists. split; [reflexivity|].
    intros d [= <-]. by apply stat_decimal_wf.
  - destruct Hs as [Hr Hv]. specialize (Hv eq_refl). unfold time_micros.
    rewrite (proj2 (andb_true_iff _ _)) by (split; apply Z.leb_le; lia).
    eexists. split; [reflexivity|]. intros d [= <-]. split; [by unfold datum_wf|done].
  - destruct Hs as (x & Hx & ->). rewrite from_utf8_utf8 by done.
    eexists. split; [reflexivity|]. intros d [= <-]. split; [by unfold datum_wf|done].
  - destruct Hs as [Hb Hl]. rewrite Hl. cbn. eexists. split; [reflexivity|]. intros d [= <-].
    split; [|done]. unfold datum_wf. cbn. rewrite <- (of_be_inU v Hb). by rewrite Hl.
  - destruct Hs as [Hb Hl]. rewrite (proj2 (Z.eqb_eq _ _) Hl). cbn.
    eexists. split; [reflexivity|]. intros d [= <-]. split; [by unfold datum_wf|].
    cbn. by rewrite Hl.
Qed.
