(* ===== verification/ArrowSchema.v ===== *)
(** * Arrow schemas and Iceberg schemas (arrow/schema.rs)

    The visitor over Arrow schemas, the conversions between Arrow and Iceberg types in
    both directions, and the removal of metadata.  Correctness: a type that Arrow can
    express comes back as it was; what does not come back, and which schemas the removal
    of metadata cannot handle, is stated at the end. *)

From S2P Require Import Prelude Utf8 Numerals Values Schema.
From S2P Require Concrete.

(** ** Arrow types

    [arrow_schema::DataType] and [Field] are data of the Arrow crates: the variants that the
    code names, and the others as [Other].  A field has its name, type, nullability and
    metadata. *)
Inductive TimeUnit := Second | Millisecond | Microsecond | Nanosecond.
#[export] Instance TimeUnit_eq_dec : EqDecision TimeUnit.
Proof. solve_decision. Defined.

Module Arrow.
#[warnings="-register-all"]
Inductive DataType :=
| Null | Boolean | Int8 | Int16 | Int32 | Int64 | UInt8 | UInt16 | UInt32 | UInt64
| Float32 | Float64 | Decimal128 (precision scale : Z) | Date32 | Time64 (unit : TimeUnit)
| Timestamp (unit : TimeUnit) (zone : option string)
| Utf8 | LargeUtf8 | Utf8View | Binary | LargeBinary | BinaryView | FixedSizeBinary (width : Z)
| List (element : Field) | LargeList (element : Field) | FixedSizeList (element : Field) (size : Z)
| Map (entries : Field) (sorted : bool) | Struct (fields : list Field)
| Dictionary (key value : DataType) | RunEndEncoded (run_ends values : Field) | Other (variant : Z)
with Field :=
| mkField (name : string) (data_type : DataType) (nullable : bool) (metadata : gmap string string).

Definition name (f : Field) : string := match f with mkField n _ _ _ => n end.
Definition data_type (f : Field) : DataType := match f with mkField _ t _ _ => t end.
Definition is_nullable (f : Field) : bool := match f with mkField _ _ b _ => b end.
Definition metadata (f : Field) : gmap string string := match f with mkField _ _ _ m => m end.
(** [Field::new] and [with_metadata]. *)
Definition new (name : string) (ty : DataType) (nullable : bool) : Field := mkField name ty nullable ∅.
Definition with_metadata (f : Field) (m : gmap string string) : Field :=
  match f with mkField n t b _ => mkField n t b m end.
End Arrow.
Abbreviation DataType := Arrow.DataType.
(** The fields of an [ArrowSchema]; the code builds schemas without metadata of their own. *)
Abbreviation ArrowFields := (list Arrow.Field).

(** Derived equality. *)
Fixpoint data_type_eq_dec (a b : DataType) {struct a} : {a = b} + {a <> b}
with field_eq_dec (f g : Arrow.Field) {struct f} : {f = g} + {f <> g}.
Proof.
  - destruct a as [| | | | | | | | | | | |p s| |u|u z| | | | | | |w|e|e|e n|e b'|fs|k v|r v|n],
      b as [| | | | | | | | | | | |p' s'| |u'|u' z'| | | | | | |w'|e'|e'|e' n'|e' b''|fs'|k' v'|r' v'|n'];
      try (right; discriminate); try (left; reflexivity).
    + destruct (decide (p = p')), (decide (s = s')); [left|right..]; congruence.
    + destruct (decide (u = u')); [left|right]; congruence.
    + destruct (decide (u = u')), (decide (z = z')); [left|right..]; congruence.
    + destruct (decide (w = w')); [left|right]; congruence.
    + destruct (field_eq_dec e e'); [left|right]; congruence.
    + destruct (field_eq_dec e e'); [left|right]; congruence.
    + destruct (field_eq_dec e e'), (decide (n = n')); [left|right..]; congruence.
    + destruct (field_eq_dec e e'), (decide (b' = b'')); [left|right..]; congruence.
    + assert ({fs = fs'} + {fs <> fs'}) as [?|?]; [|left; congruence|right; congruence].
      revert fs'. induction fs as [|f fs IH]; intros [|f' fs']; try (right; discriminate); [left; reflexivity|].
      destruct (field_eq_dec f f'), (IH fs'); [left|right..]; congruence.
    + destruct (data_type_eq_dec k k'), (data_type_eq_dec v v'); [left|right..]; congruence.
    + destruct (field_eq_dec r r'), (field_eq_dec v v'); [left|right..]; congruence.
    + destruct (decide (n = n')); [left|right]; congruence.
  - destruct f as [n t b m], g as [n' t' b' m'].
    destruct (decide (n = n')), (data_type_eq_dec t t'), (decide (b = b')), (decide (m = m'));
      [left|right..]; congruence.
Defined.
#[export] Instance DataType_eq_decision : EqDecision DataType := data_type_eq_dec.

(** What the code calls on them. *)
Class ArrowTypes := {
  is_primitive : DataType -> bool;
  validate_decimal_precision_and_scale : Z -> Z -> bool;
  PARQUET_FIELD_ID_META_KEY : string;
}.

Definition ARROW_FIELD_DOC_KEY : string := "doc".
Definition DEFAULT_MAP_FIELD_NAME : string := "key_value".
Definition UTC_TIME_ZONE : string := "+00:00".
Definition LIST_FIELD_NAME : string := "element".
Definition MAP_KEY_FIELD_NAME : string := "key".
Definition MAP_VALUE_FIELD_NAME : string := "value".

(** ** The visitor *)

Record ArrowSchemaVisitor (S T U : Type) := {
  before_field : Arrow.Field -> SR S unit;
  after_field : Arrow.Field -> SR S unit;
  before_list_element : Arrow.Field -> SR S unit;
  after_list_element : Arrow.Field -> SR S unit;
  before_map_key : Arrow.Field -> SR S unit;
  after_map_key : Arrow.Field -> SR S unit;
  before_map_value : Arrow.Field -> SR S unit;
  after_map_value : Arrow.Field -> SR S unit;
  a_schema : ArrowFields -> list T -> SR S U;
  a_struct : list Arrow.Field -> list T -> SR S T;
  a_list : DataType -> T -> SR S T;
  a_map : DataType -> T -> T -> SR S T;
  a_primitive : DataType -> SR S T;
}.
Arguments before_field {S T U}. Arguments after_field {S T U}.
Arguments before_list_element {S T U}. Arguments after_list_element {S T U}.
Arguments before_map_key {S T U}. Arguments after_map_key {S T U}.
Arguments before_map_value {S T U}. Arguments after_map_value {S T U}.
Arguments a_schema {S T U}. Arguments a_struct {S T U}. Arguments a_list {S T U}.
Arguments a_map {S T U}. Arguments a_primitive {S T U}.

(** The trait's default hooks. *)
Definition no_hook {S} (_ : Arrow.Field) : SR S unit := mret tt.

Section arrow.
Context {AT : ArrowTypes}.

(** The guard of the first arm of [visit_type]. *)
Definition visited_as_primitive (p : DataType) : bool :=
  is_primitive p
  || match p with
     | Arrow.Boolean | Arrow.Utf8 | Arrow.LargeUtf8 | Arrow.Utf8View | Arrow.Binary
     | Arrow.LargeBinary | Arrow.BinaryView | Arrow.FixedSizeBinary _ => true
     | _ => false
     end.

(** [visit_type], with [visit_list] and [visit_struct] inlined for the recursion. *)
Fixpoint visit_type {S T U} (visitor : ArrowSchemaVisitor S T U) (type : DataType) : SR S T :=
  if visited_as_primitive type then a_primitive visitor type
  else
    match type with
    | Arrow.List (Arrow.mkField _ ty _ _ as element_field)
    | Arrow.LargeList (Arrow.mkField _ ty _ _ as element_field)
    | Arrow.FixedSizeList (Arrow.mkField _ ty _ _ as element_field) _ =>
        let! _ := before_list_element visitor element_field in
        let! value := visit_type visitor ty in
        let! _ := after_list_element visitor element_field in
        a_list visitor type value
    | Arrow.Map (Arrow.mkField _ (Arrow.Struct fields) _ _) _ =>
        match fields with
        | [Arrow.mkField _ key_type _ _ as key_field; Arrow.mkField _ value_type _ _ as value_field] =>
            let! _ := before_map_key visitor key_field in
            let! key_result := visit_type visitor key_type in
            let! _ := after_map_key visitor key_field in
            let! _ := before_map_value visitor value_field in
            let! value_result := visit_type visitor value_type in
            let! _ := after_map_value visitor value_field in
            a_map visitor type key_result value_result
        | _ => mthrow (Error DataInvalid)
        end
    | Arrow.Map _ _ => mthrow (Error DataInvalid)
    | Arrow.Struct fields =>
        let! results :=
          (fix visit_fields (fields : list Arrow.Field) : SR S (list T) :=
             match fields with
             | [] => mret []
             | (Arrow.mkField _ ty _ _ as field) :: fields =>
                 let! _ := before_field visitor field in
                 let! result := visit_type visitor ty in
                 let! _ := after_field visitor field in
                 let! results := visit_fields fields in
                 mret (result :: results)
             end) fields in
        a_struct visitor fields results
    | Arrow.Dictionary _key_type value_type => visit_type visitor value_type
    | _ => mthrow (Error DataInvalid)
    end.

Definition visit_field {S T U} (visitor : ArrowSchemaVisitor S T U) (field : Arrow.Field) : SR S T :=
  let! _ := before_field visitor field in
  let! result := visit_type visitor (Arrow.data_type field) in
  let! _ := after_field visitor field in
  mret result.
(** [visit_schema]. *)
Definition visit_arrow_schema {S T U} (schema : ArrowFields) (visitor : ArrowSchemaVisitor S T U) : SR S U :=
  let! results := mapSR (visit_field visitor) schema in
  a_schema visitor schema results.

(** ** From Arrow *)

Definition get_field_id_from_metadata (field : Arrow.Field) : result Z :=
  match Arrow.metadata field !! PARQUET_FIELD_ID_META_KEY with
  | Some value => ok_or (parse_signed 32 (lit value)) DataInvalid
  | None => Err (Error DataInvalid)
  end.
Definition get_field_doc (field : Arrow.Field) : option string :=
  Arrow.metadata field !! ARROW_FIELD_DOC_KEY.

(** [ArrowSchemaConverter]: the state is [next_field_id]. *)
Section converter.
Context {LC : Lowercase} (reassign_field_ids_from : option Z).

Definition get_field_id (field : Arrow.Field) : SR Z Z :=
  match reassign_field_ids_from with
  | Some _ => fun next_field_id => Ok (next_field_id, wrapS 32 (next_field_id + 1))
  | None => sr_lift (get_field_id_from_metadata field)
  end.

Fixpoint convert_fields (fields : list Arrow.Field) (field_results : list Ty) : SR Z (list NestedField) :=
  match fields, field_results with
  | [], _ => mret []
  | field :: fields, field_type :: field_results =>
      let! id := get_field_id field in
      let doc := get_field_doc field in
      let! results := convert_fields fields field_results in
      mret (mkNestedField id (Arrow.name field) (negb (Arrow.is_nullable field)) field_type doc None None
            :: results)
  | _, [] => mthrow Panic
  end.

Definition convert_schema (schema : ArrowFields) (values : list Ty) : SR Z Schema :=
  let! fields := convert_fields schema values in
  sr_lift (build (mkSchemaBuilder 0 fields [] ∅ reassign_field_ids_from)).
Definition convert_struct (fields : list Arrow.Field) (results : list Ty) : SR Z Ty :=
  let! fields := convert_fields fields results in
  mret (TStruct fields).
Definition convert_list (list : DataType) (value : Ty) : SR Z Ty :=
  match list with
  | Arrow.List element_field | Arrow.LargeList element_field | Arrow.FixedSizeList element_field _ =>
      let! id := get_field_id element_field in
      let doc := get_field_doc element_field in
      mret (TList (mkNestedField id LIST_FIELD_NAME (negb (Arrow.is_nullable element_field)) value doc
                     None None))
  | _ => mthrow (Error DataInvalid)
  end.
Definition convert_map (map : DataType) (key_value value : Ty) : SR Z Ty :=
  match map with
  | Arrow.Map (Arrow.mkField _ (Arrow.Struct fields) _ _) _ =>
      match fields with
      | [key_field; value_field] =>
          let! key_id := get_field_id key_field in
          let key_doc := get_field_doc key_field in
          let! value_id := get_field_id value_field in
          let value_doc := get_field_doc value_field in
          mret (TMap (mkNestedField key_id MAP_KEY_FIELD_NAME true key_value key_doc None None)
                     (mkNestedField value_id MAP_VALUE_FIELD_NAME (negb (Arrow.is_nullable value_field))
                        value value_doc None None))
      | _ => mthrow (Error DataInvalid)
      end
  | _ => mthrow (Error DataInvalid)
  end.
Definition convert_primitive (p : DataType) : result Ty :=
  match p with
  | Arrow.Boolean => Ok (TPrimitive PrimitiveType.Boolean)
  | Arrow.Int8 | Arrow.Int16 | Arrow.Int32 => Ok (TPrimitive PrimitiveType.Int)
  | Arrow.UInt8 | Arrow.UInt16 => Ok (TPrimitive PrimitiveType.Int)
  | Arrow.UInt32 => Ok (TPrimitive PrimitiveType.Long)
  | Arrow.Int64 => Ok (TPrimitive PrimitiveType.Long)
  | Arrow.UInt64 => Err (Error DataInvalid)
  | Arrow.Float32 => Ok (TPrimitive PrimitiveType.Float)
  | Arrow.Float64 => Ok (TPrimitive PrimitiveType.Double)
  | Arrow.Decimal128 p s =>
      match decimal_type p (wrapU 32 s) with
      | Ok ty => Ok (TPrimitive ty)
      | Err _ => Err (Error DataInvalid)
      end
  | Arrow.Date32 => Ok (TPrimitive PrimitiveType.Date)
  | Arrow.Time64 Microsecond => Ok (TPrimitive PrimitiveType.Time)
  | Arrow.Timestamp Microsecond None => Ok (TPrimitive PrimitiveType.Timestamp)
  | Arrow.Timestamp Nanosecond None => Ok (TPrimitive PrimitiveType.TimestampNs)
  | Arrow.Timestamp Microsecond (Some zone) =>
      if bool_decide (zone = "UTC") || bool_decide (zone = "+00:00")
      then Ok (TPrimitive PrimitiveType.Timestamptz) else Err (Error DataInvalid)
  | Arrow.Timestamp Nanosecond (Some zone) =>
      if bool_decide (zone = "UTC") || bool_decide (zone = "+00:00")
      then Ok (TPrimitive PrimitiveType.TimestamptzNs) else Err (Error DataInvalid)
  | Arrow.Binary | Arrow.LargeBinary | Arrow.BinaryView => Ok (TPrimitive PrimitiveType.Binary)
  | Arrow.FixedSizeBinary width => Ok (TPrimitive (PrimitiveType.Fixed (wrapU 64 width)))
  | Arrow.Utf8View | Arrow.Utf8 | Arrow.LargeUtf8 => Ok (TPrimitive PrimitiveType.String)
  | _ => Err (Error DataInvalid)
  end.

Definition ArrowSchemaConverter : ArrowSchemaVisitor Z Ty Schema :=
  {| before_field := no_hook; after_field := no_hook;
     before_list_element := no_hook; after_list_element := no_hook;
     before_map_key := no_hook; after_map_key := no_hook;
     before_map_value := no_hook; after_map_value := no_hook;
     a_schema := convert_schema; a_struct := convert_struct; a_list := convert_list;
     a_map := convert_map; a_primitive p := sr_lift (convert_primitive p) |}.
End converter.

Definition arrow_schema_to_schema {LC : Lowercase} (schema : ArrowFields) : result Schema :=
  fst <$> visit_arrow_schema schema (ArrowSchemaConverter None) 0.
Definition arrow_schema_to_schema_auto_assign_ids {LC : Lowercase} (schema : ArrowFields) : result Schema :=
  fst <$> visit_arrow_schema schema (ArrowSchemaConverter (Some 1)) 0.
Definition arrow_type_to_type {LC : Lowercase} (ty : DataType) : result Ty :=
  fst <$> visit_type (ArrowSchemaConverter None) ty 0.

(** ** To Arrow *)

Inductive ArrowSchemaOrFieldOrType :=
| OfSchema (schema : ArrowFields)
| OfField (field : Arrow.Field)
| OfType (ty : DataType).

Definition field_doc (f : NestedField) : option string :=
  match f with mkNestedField _ _ _ _ d _ _ => d end.

(** The metadata of a field, built in [field] and again in [list]. *)
Definition field_metadata (field : NestedField) : gmap string string :=
  let id := text (to_string_i (field_id field)) in
  match field_doc field with
  | Some doc => <[PARQUET_FIELD_ID_META_KEY := id]> {[ARROW_FIELD_DOC_KEY := doc]}
  | None => {[PARQUET_FIELD_ID_META_KEY := id]}
  end.

Definition to_arrow_field (field : NestedField) (value : ArrowSchemaOrFieldOrType) :
    result ArrowSchemaOrFieldOrType :=
  match value with
  | OfType ty =>
      Ok (OfField (Arrow.with_metadata
                     (Arrow.new (field_name field) ty (negb (field_required field)))
                     (field_metadata field)))
  | _ => Err Panic
  end.
Definition expect_field (value : ArrowSchemaOrFieldOrType) : result Arrow.Field :=
  match value with OfField field => Ok field | _ => Err Panic end.
Definition to_arrow_primitive (p : PrimitiveType.t) : result DataType :=
  match p with
  | PrimitiveType.Boolean => Ok Arrow.Boolean
  | PrimitiveType.Int => Ok Arrow.Int32
  | PrimitiveType.Long => Ok Arrow.Int64
  | PrimitiveType.Float => Ok Arrow.Float32
  | PrimitiveType.Double => Ok Arrow.Float64
  | PrimitiveType.Decimal precision scale =>
      if negb (inU 8 precision) then Err (Error DataInvalid)
      else if negb (inS 8 scale) then Err (Error DataInvalid)
      else if validate_decimal_precision_and_scale precision scale
      then Ok (Arrow.Decimal128 precision scale)
      else Err (Error DataInvalid)
  | PrimitiveType.Date => Ok Arrow.Date32
  | PrimitiveType.Time => Ok (Arrow.Time64 Microsecond)
  | PrimitiveType.Timestamp => Ok (Arrow.Timestamp Microsecond None)
  | PrimitiveType.Timestamptz => Ok (Arrow.Timestamp Microsecond (Some UTC_TIME_ZONE))
  | PrimitiveType.TimestampNs => Ok (Arrow.Timestamp Nanosecond None)
  | PrimitiveType.TimestamptzNs => Ok (Arrow.Timestamp Nanosecond (Some UTC_TIME_ZONE))
  | PrimitiveType.String => Ok Arrow.Utf8
  | PrimitiveType.Uuid => Ok (Arrow.FixedSizeBinary 16)
  | PrimitiveType.Fixed len =>
      Ok (if inS 32 len then Arrow.FixedSizeBinary len else Arrow.LargeBinary)
  | PrimitiveType.Binary => Ok Arrow.LargeBinary
  end.

Definition ToArrowSchemaConverter : SchemaVisitor unit ArrowSchemaOrFieldOrType :=
  {| before_struct_field := Schema.no_hook; after_struct_field := Schema.no_hook;
     Schema.before_list_element := Schema.no_hook; Schema.after_list_element := Schema.no_hook;
     Schema.before_map_key := Schema.no_hook; Schema.after_map_key := Schema.no_hook;
     Schema.before_map_value := Schema.no_hook; Schema.after_map_value := Schema.no_hook;
     v_field field value := sr_lift (to_arrow_field field value);
     v_struct _ results := sr_lift (
       let? fields := mapR expect_field results in
       Ok (OfType (Arrow.Struct fields)));
     v_list element value := sr_lift (
       let? field := to_arrow_field element value in
       let? field := expect_field field in
       let field := Arrow.with_metadata field (field_metadata element) in
       Ok (OfType (Arrow.List field)));
     v_map key value key_value value_value := sr_lift (
       let? key_field := to_arrow_field key key_value in
       let? key_field := expect_field key_field in
       let? value_field := to_arrow_field value value_value in
       let? value_field := expect_field value_field in
       let field := Arrow.new DEFAULT_MAP_FIELD_NAME (Arrow.Struct [key_field; value_field]) false in
       Ok (OfType (Arrow.Map field false)));
     v_primitive p := sr_lift (OfType <$> to_arrow_primitive p) |}.

(** [ToArrowSchemaConverter::schema]. *)
Definition to_arrow_schema (value : ArrowSchemaOrFieldOrType) : result ArrowSchemaOrFieldOrType :=
  match value with OfType (Arrow.Struct fields) => Ok (OfSchema fields) | _ => Err Panic end.

Definition schema_to_arrow_schema (schema : Schema) : result ArrowFields :=
  let? value := visit_struct ToArrowSchemaConverter (as_struct schema) tt in
  let? value := to_arrow_schema (fst value) in
  match value with OfSchema schema => Ok schema | _ => Err Panic end.
Definition type_to_arrow_type (ty : Ty) : result DataType :=
  let? value := Schema.visit_type ToArrowSchemaConverter ty tt in
  match fst value with OfType ty => Ok ty | _ => Err Panic end.

(** ** Without metadata

    [MetadataStripVisitor]: the state is [field_stack], its top first. *)
Definition push_field (field : Arrow.Field) : SR (list Arrow.Field) unit :=
  sr_modify (fun stack => Arrow.new (Arrow.name field) Arrow.Null (Arrow.is_nullable field) :: stack).
Definition pop_field : SR (list Arrow.Field) Arrow.Field := fun stack =>
  match stack with
  | field :: stack => Ok (field, stack)
  | [] => Err (Error Unexpected)
  end.

Definition MetadataStripVisitor : ArrowSchemaVisitor (list Arrow.Field) Arrow.Field ArrowFields :=
  {| before_field := push_field; after_field := no_hook;
     before_list_element := no_hook; after_list_element := no_hook;
     before_map_key := no_hook; after_map_key := no_hook;
     before_map_value := no_hook; after_map_value := no_hook;
     a_schema _ values := mret values;
     a_struct _ results :=
       let! field_info := pop_field in
       mret (Arrow.new (Arrow.name field_info) (Arrow.Struct results) (Arrow.is_nullable field_info));
     a_list list value :=
       let! field_info := pop_field in
       let! list_type :=
         match list with
         | Arrow.List _ => mret (Arrow.List value)
         | Arrow.LargeList _ => mret (Arrow.LargeList value)
         | Arrow.FixedSizeList _ size => mret (Arrow.FixedSizeList value size)
         | _ => mthrow (Error Unexpected)
         end in
       mret (Arrow.new (Arrow.name field_info) list_type (Arrow.is_nullable field_info));
     a_map map key_value value :=
       let! field_info := pop_field in
       let struct_field :=
         Arrow.new DEFAULT_MAP_FIELD_NAME (Arrow.Struct [key_value; value]) false in
       let! sorted :=
         match map with
         | Arrow.Map _ sorted => mret sorted
         | _ => mthrow (Error Unexpected)
         end in
       mret (Arrow.new (Arrow.name field_info) (Arrow.Map struct_field sorted)
               (Arrow.is_nullable field_info));
     a_primitive p :=
       let! field_info := pop_field in
       mret (Arrow.new (Arrow.name field_info) p (Arrow.is_nullable field_info)) |}.

Definition strip_metadata_from_schema (schema : ArrowFields) : result ArrowFields :=
  fst <$> visit_arrow_schema schema MetadataStripVisitor [].

(** ** The type of a constant column *)

Definition make_ree (values_type : DataType) : DataType :=
  Arrow.RunEndEncoded (Arrow.new "run_ends" Arrow.Int32 false) (Arrow.new "values" values_type true).
Definition datum_to_arrow_type_with_ree (datum : Datum) : DataType :=
  match datum_type datum with
  | PrimitiveType.Boolean => make_ree Arrow.Boolean
  | PrimitiveType.Int => make_ree Arrow.Int32
  | PrimitiveType.Long => make_ree Arrow.Int64
  | PrimitiveType.Float => make_ree Arrow.Float32
  | PrimitiveType.Double => make_ree Arrow.Float64
  | PrimitiveType.Date => make_ree Arrow.Date32
  | PrimitiveType.Time => make_ree Arrow.Int64
  | PrimitiveType.Timestamp => make_ree Arrow.Int64
  | PrimitiveType.Timestamptz => make_ree Arrow.Int64
  | PrimitiveType.TimestampNs => make_ree Arrow.Int64
  | PrimitiveType.TimestamptzNs => make_ree Arrow.Int64
  | PrimitiveType.String => make_ree Arrow.Utf8
  | PrimitiveType.Uuid => make_ree Arrow.Binary
  | PrimitiveType.Fixed _ => make_ree Arrow.Binary
  | PrimitiveType.Binary => make_ree Arrow.Binary
  | PrimitiveType.Decimal precision scale =>
      make_ree (Arrow.Decimal128 (wrapU 8 precision) (wrapS 8 scale))
  end.
End arrow.

(** ** Documented behaviour of the Arrow crates *)

(** Numeric and temporal types are primitive, others are not. *)
Definition named_primitive (t : DataType) : option bool :=
  match t with
  | Arrow.Int8 | Arrow.Int16 | Arrow.Int32 | Arrow.Int64 | Arrow.UInt8 | Arrow.UInt16
  | Arrow.UInt32 | Arrow.UInt64 | Arrow.Float32 | Arrow.Float64 | Arrow.Decimal128 _ _
  | Arrow.Date32 | Arrow.Time64 _ | Arrow.Timestamp _ _ => Some true
  | Arrow.Other _ => None
  | _ => Some false
  end.

Class ArrowTypesLaws (AT : ArrowTypes) := {
  is_primitive_named t b : named_primitive t = Some b -> is_primitive t = b;
  validate_decimal_ok precision scale :
    0 < precision <= 38 -> 0 <= scale <= precision ->
    validate_decimal_precision_and_scale precision scale = true;
  field_id_key_not_doc : PARQUET_FIELD_ID_META_KEY <> ARROW_FIELD_DOC_KEY;
}.

(** ** Round trip *)

Section roundtrip.
Context {AT : ArrowTypes} {AL : ArrowTypesLaws AT} {LC : Lowercase}.

(** The types that an Arrow type can express: no [Uuid], widths and precisions in range. *)
Definition arrow_primitive_ok (p : PrimitiveType.t) : bool :=
  match p with
  | PrimitiveType.Uuid => false
  | PrimitiveType.Fixed len => (0 <=? len) && (len <? 2 ^ 31)
  | PrimitiveType.Decimal precision scale =>
      (0 <? precision) && (precision <=? 38) && (0 <=? scale) && (scale <=? precision)
  | _ => true
  end.

(** Fields: an [i32] id, no default values; elements, keys and values have their names. *)
Definition plain_field (f : NestedField) : bool :=
  match f with mkNestedField id _ _ _ _ None None => inS 32 id | _ => false end.

Fixpoint arrow_ok (ty : Ty) : bool :=
  match ty with
  | TPrimitive p => arrow_primitive_ok p
  | TStruct fields =>
      (fix fields_ok (fields : list NestedField) : bool :=
         match fields with
         | [] => true
         | (mkNestedField _ _ _ ty _ _ _ as f) :: fields => plain_field f && arrow_ok ty && fields_ok fields
         end) fields
  | TList (mkNestedField _ name _ ty _ _ _ as f) =>
      plain_field f && bool_decide (name = LIST_FIELD_NAME) && arrow_ok ty
  | TMap (mkNestedField _ kname krequired kty _ _ _ as k) (mkNestedField _ vname _ vty _ _ _ as v) =>
      plain_field k && bool_decide (kname = MAP_KEY_FIELD_NAME) && krequired && arrow_ok kty
      && (plain_field v && bool_decide (vname = MAP_VALUE_FIELD_NAME) && arrow_ok vty)
  end.
Definition fields_ok (fields : list NestedField) : bool :=
  forallb (fun f => plain_field f && arrow_ok (field_type f)) fields.

Lemma arrow_ok_struct fields : arrow_ok (TStruct fields) = fields_ok fields.
Proof.
  unfold fields_ok. cbn [arrow_ok]. induction fields as [|[i n r t d iw ww] fields IH]; [done|].
  cbn [forallb field_type]. by rewrite <- IH.
Qed.

Lemma visit_arrow_primitive {S T U} (v : ArrowSchemaVisitor S T U) ty s :
  visited_as_primitive ty = true -> visit_type v ty s = a_primitive v ty s.
Proof. intros H. destruct ty; cbn [visit_type]; by rewrite H. Qed.

(** The converter has no hooks. *)
Lemma visit_arrow_list r n t b m s :
  visit_type (ArrowSchemaConverter r) (Arrow.List (Arrow.mkField n t b m)) s
  = (let! value := visit_type (ArrowSchemaConverter r) t in
     a_list (ArrowSchemaConverter r) (Arrow.List (Arrow.mkField n t b m)) value) s.
Proof using AL.
  cbn [visit_type]. unfold visited_as_primitive. rewrite (is_primitive_named _ false) by done. cbn [orb].
  rewrite (run_bind _ _ s tt s eq_refl). unfold mbind, sr_bind.
  by destruct (visit_type _ t s) as [[value s']|].
Qed.
Lemma visit_arrow_map r n nk tk bk mk nv tv bv mv b m sorted s :
  let ty := Arrow.Map (Arrow.mkField n (Arrow.Struct [Arrow.mkField nk tk bk mk; Arrow.mkField nv tv bv mv]) b m) sorted in
  visit_type (ArrowSchemaConverter r) ty s
  = (let! key := visit_type (ArrowSchemaConverter r) tk in
     let! value := visit_type (ArrowSchemaConverter r) tv in
     a_map (ArrowSchemaConverter r) ty key value) s.
Proof using AL.
  cbn [visit_type]. unfold visited_as_primitive. rewrite (is_primitive_named _ false) by done. cbn [orb].
  rewrite (run_bind _ _ s tt s eq_refl). unfold mbind, sr_bind.
  destruct (visit_type _ tk s) as [[key s']|]; [|done]. cbn.
  by destruct (visit_type _ tv s') as [[value s'']|].
Qed.

Lemma visit_arrow_struct {S T U} (v : ArrowSchemaVisitor S T U) fields s :
  visit_type v (Arrow.Struct fields) s
  = (let! results := mapSR (visit_field v) fields in a_struct v fields results) s.
Proof using AL.
  cbn [visit_type]. unfold visited_as_primitive. rewrite (is_primitive_named _ false) by done. cbn [orb].
  unfold mbind, sr_bind.
  match goal with |- match ?a with _ => _ end = match ?b with _ => _ end =>
    enough (a = b) as -> by done end.
  revert s. induction fields as [|[n t b m] fields IH]; intros s; [done|].
  cbn [mapSR]. unfold visit_field. unfold mbind, sr_bind in *.
  destruct (before_field v _ s) as [[? s1]|]; [|done]. cbn [Arrow.data_type].
  destruct (visit_type v t s1) as [[? s2]|]; [|done].
  destruct (after_field v _ s2) as [[? s3]|]; [|done]. cbn. by rewrite IH.
Qed.

(** The Arrow field of an Iceberg field of a given type. *)
Definition arrow_field (f : NestedField) (ty : DataType) : Arrow.Field :=
  Arrow.mkField (field_name f) ty (negb (field_required f)) (field_metadata f).

Lemma to_arrow_field_eq f ty : to_arrow_field f (OfType ty) = Ok (OfField (arrow_field f ty)).
Proof. done. Qed.

Lemma field_id_back f ty n :
  plain_field f = true -> get_field_id None (arrow_field f ty) n = Ok (field_id f, n).
Proof using AL.
  destruct f as [id name required fty doc [] []]; try done. cbn [plain_field]. intros Hid.
  cbn. unfold sr_lift, get_field_id_from_metadata. cbn [arrow_field Arrow.metadata].
  assert (field_metadata (mkNestedField id name required fty doc None None) !! PARQUET_FIELD_ID_META_KEY
          = Some (text (to_string_i id))) as ->.
  { unfold field_metadata. cbn. destruct doc; [apply lookup_insert_eq|apply lookup_singleton_eq]. }
  by rewrite parse_signed_text.
Qed.
Lemma field_doc_back f ty : get_field_doc (arrow_field f ty) = field_doc f.
Proof using AL.
  unfold get_field_doc, field_metadata. cbn [arrow_field Arrow.metadata].
  pose proof field_id_key_not_doc. unfold field_metadata. destruct (field_doc f).
  - rewrite lookup_insert_ne by done. apply lookup_singleton_eq.
  - by apply lookup_singleton_ne.
Qed.

(** A field is rebuilt from its Arrow field. *)
Lemma field_rebuilt f :
  plain_field f = true ->
  mkNestedField (field_id f) (field_name f) (negb (negb (field_required f))) (field_type f) (field_doc f)
    None None = f.
Proof. destruct f as [id name required fty doc [] []]; try done. intros _. cbn. by rewrite negb_involutive. Qed.

Definition comes_back (ty : Ty) : Prop :=
  arrow_ok ty = true ->
  exists dt, Schema.visit_type ToArrowSchemaConverter ty tt = Ok (OfType dt, tt)
    /\ forall n, visit_type (ArrowSchemaConverter None) dt n = Ok (ty, n).

Lemma primitive_comes_back p : comes_back (TPrimitive p).
Proof using AL.
  intros Hp. cbn in Hp. cbn [Schema.visit_type ToArrowSchemaConverter v_primitive]. unfold sr_lift.
  assert (exists dt, to_arrow_primitive p = Ok dt /\ visited_as_primitive dt = true
            /\ convert_primitive dt = Ok (TPrimitive p)) as (dt & -> & Hv & Hc).
  { destruct p as [| | | | |precision scale| | | | | | | | |len|]; try done;
      try (eexists; split; [reflexivity|]; split;
           [unfold visited_as_primitive; by rewrite ?orb_true_r, ?(is_primitive_named _ true)|done]).
    - cbn in Hp. bool_to_prop.
      assert (inU 8 precision = true) as HA by (apply inU_spec; lia).
      assert (inS 8 scale = true) as HB by (apply inS_spec; lia).
      exists (Arrow.Decimal128 precision scale). cbn. rewrite HA, HB. cbn.
      rewrite validate_decimal_ok by lia. split; [done|].
      split; [unfold visited_as_primitive; by rewrite (is_primitive_named _ true)|].
      unfold decimal_type. rewrite wrapU_id by (apply inU_spec; lia).
      rewrite (proj2 (Z.ltb_lt 0 precision)), (proj2 (Z.leb_le precision MAX_DECIMAL_PRECISION)); try done.
    - cbn in Hp. bool_to_prop. assert (inS 32 len = true) as HA by (apply inS_spec; lia).
      exists (Arrow.FixedSizeBinary len). cbn. rewrite HA. split; [done|].
      split; [unfold visited_as_primitive; by rewrite orb_true_r|].
      by rewrite wrapU_id by (apply inU_spec; lia). }
  exists dt. split; [done|]. intros n. rewrite visit_arrow_primitive by done.
  cbn [a_primitive ArrowSchemaConverter]. unfold sr_lift. by rewrite Hc.
Qed.

Lemma fields_come_back fields :
  Forall (fun f => comes_back (field_type f)) fields -> fields_ok fields = true ->
  exists afs, mapSR (visit_struct_field ToArrowSchemaConverter) fields tt = Ok (OfField <$> afs, tt)
    /\ forall n, mapSR (visit_field (ArrowSchemaConverter None)) afs n = Ok (field_type <$> fields, n)
    /\ convert_fields None afs (field_type <$> fields) n = Ok (fields, n).
Proof using AL.
  intros HF. induction HF as [|f fields Hf HF IH]; intros Hok; [by exists []|].
  cbn in Hok. apply andb_true_iff in Hok as [[Hp Ht]%andb_true_iff Hok].
  destruct (Hf Ht) as (dt & Hto & Hfrom), (IH Hok) as (afs & Hafs & Hback).
  exists (arrow_field f dt :: afs). split.
  - assert (visit_struct_field ToArrowSchemaConverter f tt = Ok (OfField (arrow_field f dt), tt)) as Hfield.
    { unfold visit_struct_field, mbind, sr_bind. cbn. by rewrite Hto. }
    cbn [mapSR]. by rewrite (run_bind _ _ _ _ _ Hfield), (run_bind _ _ _ _ _ Hafs).
  - intros n. destruct (Hback n) as [H1 H2]. split.
    + assert (visit_field (ArrowSchemaConverter None) (arrow_field f dt) n = Ok (field_type f, n)) as Hfield.
      { unfold visit_field, mbind, sr_bind. cbn. by rewrite Hfrom. }
      cbn [mapSR]. by rewrite (run_bind _ _ _ _ _ Hfield), (run_bind _ _ _ _ _ H1).
    + cbn [convert_fields fmap list_fmap].
      rewrite (run_bind _ _ _ _ _ (field_id_back f dt n Hp)), (run_bind _ _ _ _ _ H2), field_doc_back.
      cbn. by rewrite field_rebuilt.
Qed.

Lemma arrow_ok_list e :
  arrow_ok (TList e) = true ->
  plain_field e = true /\ field_name e = LIST_FIELD_NAME /\ arrow_ok (field_type e) = true.
Proof. destruct e. cbn. by intros [[? ?%bool_decide_eq_true]%andb_true_iff ?]%andb_true_iff. Qed.
Lemma arrow_ok_map k v :
  arrow_ok (TMap k v) = true ->
  (plain_field k = true /\ field_name k = MAP_KEY_FIELD_NAME /\ field_required k = true
   /\ arrow_ok (field_type k) = true)
  /\ plain_field v = true /\ field_name v = MAP_VALUE_FIELD_NAME /\ arrow_ok (field_type v) = true.
Proof.
  destruct k, v. cbn -[plain_field]. rewrite !andb_true_iff, !bool_decide_eq_true. tauto.
Qed.

(** Every type that Arrow can express comes back. *)
Lemma type_comes_back ty : comes_back ty.
Proof using AL.
  induction ty as [p|fields IH|e IH|k v IHk IHv] using Ty_nested_ind.
  - apply primitive_comes_back.
  - intros Hok. rewrite arrow_ok_struct in Hok. destruct (fields_come_back fields IH Hok) as (afs & Hto & Hfrom).
    exists (Arrow.Struct afs). split.
    + rewrite visit_type_struct. unfold visit_struct. rewrite (run_bind _ _ _ _ _ Hto).
      cbn [v_struct ToArrowSchemaConverter]. unfold sr_lift.
      assert (mapR expect_field (OfField <$> afs) = Ok afs) as ->; [|done].
      clear. induction afs as [|a afs IH]; [done|]. cbn. by rewrite IH.
    + intros n. destruct (Hfrom n) as [H1 H2]. rewrite visit_arrow_struct, (run_bind _ _ _ _ _ H1).
      cbn [a_struct ArrowSchemaConverter]. unfold convert_struct. by rewrite (run_bind _ _ _ _ _ H2).
  - intros (Hp & Hname & Ht)%arrow_ok_list. destruct (IH Ht) as (dt & Hto & Hfrom).
    exists (Arrow.List (arrow_field e dt)). split.
    + cbn [Schema.visit_type]. rewrite (run_bind _ _ tt tt tt eq_refl), (run_bind _ _ _ _ _ Hto). done.
    + intros n. unfold arrow_field at 1. rewrite visit_arrow_list, (run_bind _ _ _ _ _ (Hfrom n)).
      fold (arrow_field e dt). cbn [a_list ArrowSchemaConverter convert_list].
      rewrite (run_bind _ _ _ _ _ (field_id_back e dt n Hp)), field_doc_back. cbn.
      by rewrite <- Hname, field_rebuilt.
  - intros ((Hpk & Hk & Hreq & Htk) & Hpv & Hv & Htv)%arrow_ok_map.
    destruct (IHk Htk) as (kdt & Htok & Hfromk), (IHv Htv) as (vdt & Htov & Hfromv).
    exists (Arrow.Map (Arrow.new DEFAULT_MAP_FIELD_NAME (Arrow.Struct [arrow_field k kdt; arrow_field v vdt]) false)
              false). split.
    + cbn [Schema.visit_type].
      rewrite (run_bind _ _ tt tt tt eq_refl), (run_bind _ _ _ _ _ Htok).
      rewrite (run_bind _ _ tt tt tt eq_refl), (run_bind _ _ tt tt tt eq_refl), (run_bind _ _ _ _ _ Htov). done.
    + intros n. unfold arrow_field at 1 2, Arrow.new. rewrite visit_arrow_map, (run_bind _ _ _ _ _ (Hfromk n)), (run_bind _ _ _ _ _ (Hfromv n)).
      fold (arrow_field k kdt) (arrow_field v vdt). cbn [a_map ArrowSchemaConverter convert_map Arrow.new].
      rewrite (run_bind _ _ _ _ _ (field_id_back k kdt n Hpk)).
      rewrite (run_bind _ _ _ _ _ (field_id_back v vdt n Hpv)), !field_doc_back. cbn.
      by rewrite <- Hk, <- Hv, field_rebuilt, <- Hreq, <- (negb_involutive (field_required k)), field_rebuilt.
Qed.

(** Of a schema its fields come back; the id, the identifier fields and the aliases are the
    default ones. *)
Lemma schema_comes_back schema :
  fields_ok (as_struct schema) = true ->
  exists arrow, schema_to_arrow_schema schema = Ok arrow
    /\ arrow_schema_to_schema arrow = build (mkSchemaBuilder 0 (as_struct schema) [] ∅ None).
Proof using AL.
  intros Hok.
  assert (Forall (fun f => comes_back (field_type f)) (as_struct schema)) as HF.
  { apply Forall_forall. intros f _. apply type_comes_back. }
  destruct (fields_come_back _ HF Hok) as (afs & Hto & Hfrom). exists afs. split.
  - unfold schema_to_arrow_schema, visit_struct. rewrite (run_bind _ _ _ _ _ Hto).
    cbn [v_struct ToArrowSchemaConverter]. unfold sr_lift.
    assert (mapR expect_field (OfField <$> afs) = Ok afs) as ->; [|done].
    clear. induction afs as [|a afs IH]; [done|]. cbn. by rewrite IH.
  - destruct (Hfrom 0) as [H1 H2]. unfold arrow_schema_to_schema, visit_arrow_schema.
    rewrite (run_bind _ _ _ _ _ H1). cbn [a_schema ArrowSchemaConverter]. unfold convert_schema.
    rewrite (run_bind _ _ _ _ _ H2). unfold sr_lift. by destruct (build _).
Qed.

(** ** Removal of metadata *)

(** Lists and maps of a type. *)
Fixpoint containers (ty : DataType) : nat :=
  match ty with
  | Arrow.List (Arrow.mkField _ ty _ _) | Arrow.LargeList (Arrow.mkField _ ty _ _)
  | Arrow.FixedSizeList (Arrow.mkField _ ty _ _) _ => S (containers ty)
  | Arrow.Map (Arrow.mkField _ (Arrow.Struct fields) _ _) _ =>
      match fields with
      | [Arrow.mkField _ kty _ _; Arrow.mkField _ vty _ _] => S (S (containers kty + containers vty)%nat)
      | _ => 0%nat
      end
  | Arrow.Struct fields =>
      (fix go (fields : list Arrow.Field) : nat :=
         match fields with
         | [] => 0%nat
         | Arrow.mkField _ ty _ _ :: fields => (containers ty + go fields)%nat
         end) fields
  | Arrow.Dictionary _ ty => containers ty
  | _ => 0%nat
  end.

(** The type without metadata; a dictionary becomes the type of its values. *)
Fixpoint strip (ty : DataType) : DataType :=
  match ty with
  | Arrow.Struct fields =>
      Arrow.Struct ((fix go (fields : list Arrow.Field) : list Arrow.Field :=
         match fields with
         | [] => []
         | Arrow.mkField n ty b _ :: fields => Arrow.new n (strip ty) b :: go fields
         end) fields)
  | Arrow.Dictionary _ ty => strip ty
  | ty => ty
  end.
Definition strip_field (f : Arrow.Field) : Arrow.Field :=
  Arrow.new (Arrow.name f) (strip (Arrow.data_type f)) (Arrow.is_nullable f).

(** Induction on the types that the visitor descends into. *)
Definition nested (ty : DataType) : bool :=
  match ty with
  | Arrow.List _ | Arrow.LargeList _ | Arrow.FixedSizeList _ _ | Arrow.Map _ _ | Arrow.Struct _
  | Arrow.Dictionary _ _ => true
  | _ => false
  end.
Lemma arrow_nested_ind (P : DataType -> Prop) :
  (forall ty, nested ty = false -> P ty) ->
  (forall e, P (Arrow.data_type e) ->
     P (Arrow.List e) /\ P (Arrow.LargeList e) /\ forall n, P (Arrow.FixedSizeList e n)) ->
  (forall n ty b m sorted,
     (forall fields, ty = Arrow.Struct fields -> Forall (fun f => P (Arrow.data_type f)) fields) ->
     P (Arrow.Map (Arrow.mkField n ty b m) sorted)) ->
  (forall fields, Forall (fun f => P (Arrow.data_type f)) fields -> P (Arrow.Struct fields)) ->
  (forall k v, P v -> P (Arrow.Dictionary k v)) ->
  forall ty, P ty.
Proof.
  intros Hleaf Hlist Hmap Hstruct Hdict. fix IH 1.
  intros [| | | | | | | | | | | | | | | | | | | | | | |[n t b m]|[n t b m]|[n t b m] size|[n t b m] sorted|fields
         |k v| |]; try (by apply Hleaf).
  - apply (Hlist (Arrow.mkField n t b m)), IH.
  - apply (Hlist (Arrow.mkField n t b m)), IH.
  - apply (Hlist (Arrow.mkField n t b m)), IH.
  - apply Hmap. destruct t as [| | | | | | | | | | | | | | | | | | | | | | | | | | |fields| | |];
      intros fields' [=]. subst fields'.
    induction fields as [|[n' t' b' m'] fields IHf]; constructor; [apply IH|exact IHf].
  - apply Hstruct. induction fields as [|[n t b m] fields IHf]; constructor; [apply IH|exact IHf].
  - apply Hdict, IH.
Qed.

(** A visit pops one field for the type and one more for each list, two for each map. *)
Definition pops (ty : DataType) : Prop :=
  forall stack f stack',
    visit_type MetadataStripVisitor ty stack = Ok (f, stack') ->
    (length stack' + S (containers ty) <= length stack)%nat.

Lemma pop_field_Ok stack f stack' : pop_field stack = Ok (f, stack') -> stack = f :: stack'.
Proof. destruct stack; [done|]. by intros [= -> ->]. Qed.

Lemma pops_fields fields :
  Forall (fun f => pops (Arrow.data_type f)) fields ->
  forall stack results stack',
    mapSR (visit_field MetadataStripVisitor) fields stack = Ok (results, stack') ->
    (length stack' + sum_list (containers ∘ Arrow.data_type <$> fields) <= length stack)%nat.
Proof.
  induction 1 as [|f fields Hf _ IH]; intros stack results stack'.
  - intros [= _ ->]. cbn. lia.
  - cbn [mapSR]. intros (r & s1 & Hr & (rs & s2 & Hrs & [= _ ->])%sr_bind_Ok)%sr_bind_Ok.
    apply IH in Hrs. unfold visit_field in Hr.
    apply sr_bind_Ok in Hr as (u & s0 & [= _ <-] & Hr).
    apply sr_bind_Ok in Hr as (r' & s3 & Hr & Hend). apply Hf in Hr. injection Hend as _ <-.
    cbn in *. lia.
Qed.

Lemma containers_struct fields :
  containers (Arrow.Struct fields) = sum_list (containers ∘ Arrow.data_type <$> fields).
Proof. cbn. induction fields as [|[n t b m] fields IH]; [done|]. cbn. by rewrite IH. Qed.

Lemma visit_pops ty : pops ty.
Proof using AL.
  revert ty. apply arrow_nested_ind;
    [intros ty Hn|intros [n ty b m] IH|intros n ty b m sorted IH|intros fields IH|intros k v IH].
  - intros stack f stack' H. assert (containers ty = 0%nat) as -> by (by destruct ty).
    assert (visit_type MetadataStripVisitor ty stack = a_primitive MetadataStripVisitor ty stack) as E.
    { destruct (visited_as_primitive ty) eqn:E; [by apply visit_arrow_primitive|].
      exfalso. destruct ty; try done; cbn [visit_type] in H; by rewrite E in H. }
    rewrite E in H. cbn in H. apply sr_bind_Ok in H as (g & s1 & ->%pop_field_Ok & [= _ ->]). cbn. lia.
  - assert (forall list stack f stack',
      (let! value := visit_type MetadataStripVisitor ty in a_list MetadataStripVisitor list value) stack
        = Ok (f, stack') -> (length stack' + S (S (containers ty)) <= length stack)%nat) as Hlist.
    { intros list stack f stack' (value & s1 & Hv%IH & H)%sr_bind_Ok. cbn in Hv.
      cbn in H. apply sr_bind_Ok in H as (g & s2 & ->%pop_field_Ok & H).
      apply sr_bind_Ok in H as (lt & s3 & Hlt & [= _ <-]). cbn in Hv.
      destruct list; try done; injection Hlt as _ <-; lia. }
    split; [|split; [|intros size]]; intros stack f stack' H; cbn [visit_type] in H;
      unfold visited_as_primitive in H; rewrite (is_primitive_named _ false) in H by done;
      cbn [orb] in H; rewrite (run_bind _ _ stack tt stack eq_refl) in H; cbn [containers];
      eapply Hlist, H.
  - intros stack f stack' H. cbn [visit_type] in H.
    unfold visited_as_primitive in H; rewrite (is_primitive_named _ false) in H by done; cbn [orb] in H.
    destruct ty as [| | | | | | | | | | | | | | | | | | | | | | | | | | |fields| | |]; try done.
    specialize (IH fields eq_refl).
    destruct fields as [|[kn kt kb km] [|[vn vt vb vm] [|]]]; try done.
    apply Forall_cons_1 in IH as [IHk [IHv _]%Forall_cons_1].
    rewrite (run_bind _ _ stack tt stack eq_refl) in H.
    apply sr_bind_Ok in H as (kr & s1 & Hk%IHk & H).
    rewrite (run_bind _ _ s1 tt s1 eq_refl), (run_bind _ _ s1 tt s1 eq_refl) in H.
    apply sr_bind_Ok in H as (vr & s2 & Hv%IHv & H).
    rewrite (run_bind _ _ s2 tt s2 eq_refl) in H. cbn in H, Hk, Hv.
    apply sr_bind_Ok in H as (g & s3 & ->%pop_field_Ok & H). injection H as _ <-. cbn in *. lia.
  - intros stack f stack'. rewrite visit_arrow_struct.
    intros (rs & s1 & Hrs & Hend)%sr_bind_Ok. apply (pops_fields fields IH) in Hrs.
    cbn in Hend. apply sr_bind_Ok in Hend as (g & s2 & ->%pop_field_Ok & [= _ ->]).
    rewrite containers_struct. cbn in *. lia.
  - intros stack f stack' H. cbn [visit_type] in H. unfold visited_as_primitive in H.
    rewrite (is_primitive_named _ false) in H by done. cbn [orb] in H. by apply IH in H.
Qed.

(** Types without lists and maps that the visitor knows. *)
Fixpoint flat (ty : DataType) : bool :=
  match ty with
  | Arrow.Struct fields =>
      (fix go (fields : list Arrow.Field) : bool :=
         match fields with
         | [] => true
         | Arrow.mkField _ ty _ _ :: fields => flat ty && go fields
         end) fields
  | Arrow.Dictionary _ ty => flat ty
  | Arrow.List _ | Arrow.LargeList _ | Arrow.FixedSizeList _ _ | Arrow.Map _ _ => false
  | ty => visited_as_primitive ty
  end.

Lemma strip_struct fields : strip (Arrow.Struct fields) = Arrow.Struct (strip_field <$> fields).
Proof. cbn. f_equal. induction fields as [|[n t b m] fields IH]; [done|]. cbn. by rewrite IH. Qed.

Definition strips (ty : DataType) : Prop :=
  flat ty = true ->
  forall g stack, visit_type MetadataStripVisitor ty (g :: stack)
    = Ok (Arrow.new (Arrow.name g) (strip ty) (Arrow.is_nullable g), stack).

Lemma strip_visit ty : strips ty.
Proof using AL.
  revert ty. apply arrow_nested_ind;
    [intros ty Hn|intros [n ty b m] _|intros n ty b m sorted _|intros fields IH|intros k v IH];
    [| |done| |].
  - intros Hf g stack. assert (visited_as_primitive ty = true) as Hv by (by destruct ty).
    rewrite visit_arrow_primitive by done. replace (strip ty) with ty by (by destruct ty). done.
  - by split; [|split].
  - intros Hf g stack. rewrite visit_arrow_struct.
    assert (forall stack, mapSR (visit_field MetadataStripVisitor) fields stack
              = Ok (strip_field <$> fields, stack)) as H.
    { clear g stack. cbn in Hf. induction IH as [|[n t b m] fields Hty IH' IHf]; intros stack; [done|].
      apply andb_true_iff in Hf as [Ht Hf]. specialize (IHf Hf).
      assert (visit_field MetadataStripVisitor (Arrow.mkField n t b m) stack
              = Ok (strip_field (Arrow.mkField n t b m), stack)) as E.
      { unfold visit_field. rewrite (run_bind _ _ stack tt (Arrow.new n Arrow.Null b :: stack) eq_refl).
        cbn [Arrow.data_type] in *. by rewrite (run_bind _ _ _ _ _ (Hty Ht _ _)). }
      cbn [mapSR]. by rewrite (run_bind _ _ _ _ _ E), (run_bind _ _ _ _ _ (IHf stack)). }
    by rewrite (run_bind _ _ _ _ _ (H _)), strip_struct.
  - intros Hf g stack. cbn [visit_type]. unfold visited_as_primitive.
    rewrite (is_primitive_named _ false) by done. cbn [orb]. by apply IH.
Qed.

Lemma strip_visit_field f stack :
  flat (Arrow.data_type f) = true ->
  visit_field MetadataStripVisitor f stack = Ok (strip_field f, stack).
Proof using AL.
  destruct f as [n t b m]. intros Hf. unfold visit_field.
  rewrite (run_bind _ _ stack tt (Arrow.new n Arrow.Null b :: stack) eq_refl).
  by rewrite (run_bind _ _ _ _ _ (strip_visit t Hf _ _)).
Qed.

(** ** Properties *)

(** C29 A type that Arrow can express survives the conversion to Arrow and back, nested fields
    with their ids, documentation and nullability included.  Such a type ([arrow_ok]) has no
    UUIDs, fixed lengths below 2^31, decimals of a precision from 1 to 38 and a scale from 0 to
    the precision, field ids of 32 bits, no default values, the standard names for elements,
    keys and values, and required keys; of the others [uuid_becomes_fixed] shows two. *)
Theorem arrow_type_roundtrip ty :
  arrow_ok ty = true ->
  exists dt, type_to_arrow_type ty = Ok dt /\ arrow_type_to_type dt = Ok ty.
Proof using AL.
  intros Hok. destruct (type_comes_back ty Hok) as (dt & Hto & Hfrom). exists dt.
  unfold type_to_arrow_type, arrow_type_to_type. by rewrite Hto, Hfrom.
Qed.

(** So does a schema: reading back its Arrow schema builds a schema of the same fields. *)
Theorem arrow_schema_roundtrip schema :
  fields_ok (as_struct schema) = true ->
  exists arrow, schema_to_arrow_schema schema = Ok arrow
    /\ arrow_schema_to_schema arrow = build (mkSchemaBuilder 0 (as_struct schema) [] ∅ None).
Proof using AL. apply schema_comes_back. Qed.

(** Removing metadata from a schema without lists and maps keeps everything else, except
    that dictionaries become the type of their values. *)
Theorem strip_exact schema :
  forallb (fun f => flat (Arrow.data_type f)) schema = true ->
  strip_metadata_from_schema schema = Ok (strip_field <$> schema).
Proof using AL.
  intros Hf. unfold strip_metadata_from_schema, visit_arrow_schema.
  assert (mapSR (visit_field MetadataStripVisitor) schema [] = Ok (strip_field <$> schema, [])) as H.
  { induction schema as [|f schema IH]; [done|]. cbn [forallb] in Hf. apply andb_true_iff in Hf as [Ht Hf].
    cbn [mapSR]. by rewrite (run_bind _ _ _ _ _ (strip_visit_field f [] Ht)), (run_bind _ _ _ _ _ (IH Hf)). }
  by rewrite (run_bind _ _ _ _ _ H).
Qed.

(** It fails on every schema with a list or a map, at any depth: the visitor pops a field
    for each of them that it never pushed. *)
Theorem strip_rejects_containers schema f :
  f ∈ schema -> containers (Arrow.data_type f) <> 0%nat ->
  is_ok (strip_metadata_from_schema schema) = false.
Proof using AL.
  intros Hin Hc. unfold strip_metadata_from_schema, visit_arrow_schema.
  match goal with |- is_ok (fst <$> ?r) = _ => destruct r as [[r' s]|e] eqn:E; [|done] end. exfalso.
  apply sr_bind_Ok in E as (rs & s1 & Hrs & _).
  apply (pops_fields schema) in Hrs; [|apply Forall_forall; intros ? _; apply visit_pops].
  assert (containers (Arrow.data_type f) <= sum_list (containers ∘ Arrow.data_type <$> schema))%nat as Hle.
  { clear -Hin. induction Hin as [|f g schema Hin IH]; cbn in *; lia. }
  cbn in Hrs. lia.
Qed.

End roundtrip.

(** ** An instance, and examples *)

#[local] Instance concrete_arrow_types : ArrowTypes := {
  is_primitive t := match named_primitive t with Some b => b | None => false end;
  validate_decimal_precision_and_scale precision scale :=
    (0 <? precision) && (precision <=? 38) && (scale <=? precision);
  PARQUET_FIELD_ID_META_KEY := "PARQUET:field_id";
}.
#[local] Instance concrete_arrow_types_laws : ArrowTypesLaws concrete_arrow_types.
Proof.
  split; [|intros; cbn; rewrite !andb_true_iff; repeat split; lia|done]. intros t b. cbn. by intros ->.
Qed.

(** A struct of a decimal, a list of maps and a documented timestamp. *)
Definition ex_nested : Ty :=
  let field id name required ty := mkField id name required (TPrimitive ty) in
  TStruct [field 1 "d" true (PrimitiveType.Decimal 10 2);
           mkField 2 "l" false (TList (mkField 3 "element" false (TMap
             (field 4 "key" true PrimitiveType.String) (field 5 "value" false (PrimitiveType.Fixed 12)))));
           mkNestedField (-6) "t" true (TPrimitive PrimitiveType.Timestamptz) (Some "when") None None].

Section witnesses.
#[local] Existing Instance Concrete.concrete_lowercase.

Lemma arrow_type_roundtrip_witness :
  (arrow_type_to_type <$> type_to_arrow_type ex_nested) = Ok (Ok ex_nested)
  /\ exists dt, type_to_arrow_type ex_nested = Ok dt /\ arrow_type_to_type dt = Ok ex_nested.
Proof. split; [by vm_compute|]. by apply arrow_type_roundtrip. Defined.

(** A schema [a: int, b: list<int>]. *)
Definition list_schema : ArrowFields :=
  [Arrow.new "a" Arrow.Int32 false; Arrow.new "b" (Arrow.List (Arrow.new "element" Arrow.Int32 true)) true].

Lemma strip_rejects_containers_witness :
  strip_metadata_from_schema list_schema = Err (Error Unexpected)
  /\ is_ok (strip_metadata_from_schema list_schema) = false.
Proof.
  split; [by vm_compute|].
  apply (strip_rejects_containers list_schema
           (Arrow.new "b" (Arrow.List (Arrow.new "element" Arrow.Int32 true)) true)); [right; left|done].
Defined.

(** *** Deviations *)

(** A [uuid] comes back as a [fixed(16)], a width that Arrow cannot express as [binary]; the
    types of arriving unsigned columns are widened, [uint64] is refused. *)
Theorem uuid_becomes_fixed :
  (arrow_type_to_type <$> type_to_arrow_type (TPrimitive PrimitiveType.Uuid))
  = Ok (Ok (TPrimitive (PrimitiveType.Fixed 16)))
  /\ (arrow_type_to_type <$> type_to_arrow_type (TPrimitive (PrimitiveType.Fixed (2 ^ 31))))
     = Ok (Ok (TPrimitive PrimitiveType.Binary))
  /\ arrow_type_to_type Arrow.UInt32 = Ok (TPrimitive PrimitiveType.Long)
  /\ arrow_type_to_type Arrow.UInt64 = Err (Error DataInvalid).
Proof. by vm_compute. Qed.
End witnesses.
