(* ===== verification/RowGroupMetrics.v ===== *)
(** * The row group metrics evaluator (expr/visitors/row_group_metrics_evaluator.rs)

    Decides from the statistics of the column chunks of a Parquet row group
    whether some row of the group may match a filter.  The evaluator is the
    inclusive metrics evaluator on the metrics that the statistics amount to
    ([group_file]), except that it knows no NaN counts; soundness follows. *)

From S2P Require Import Prelude Utf8 Values Concrete DatumOrder Schema Expr DataFile ExprEval Metrics.
From S2P Require InclusiveMetrics.
From S2P Require Import ParquetStatistics.

(** [parquet::file::metadata::RowGroupMetaData]: the row count, the statistics of each
    column if the writer stored them, and the size in the file. *)
Record RowGroupMetaData := mkRowGroupMetaData {
  num_rows : Z;
  columns : list (option Statistics.t);
  compressed_size : Z;
}.

Definition IN_PREDICATE_LIMIT : Z := 4096.
Definition ROW_GROUP_MIGHT_MATCH : result bool := Ok true.
Definition ROW_GROUP_CANT_MATCH : result bool := Ok false.

Section evaluator.
Context {V : ValueLib}.
Context (row_group_metadata : RowGroupMetaData) (field_id_map : gmap Z nat)
        (snapshot_schema : Schema).

(** [RowGroupMetaData::column] indexes the columns. *)
Definition stats_for_field_id (field_id : Z) : result (option Statistics.t) :=
  match field_id_map !! field_id with
  | Some parquet_column_index => unwrap (columns row_group_metadata !! parquet_column_index)
  | None => Ok None
  end.

Definition null_count (field_id : Z) : result (option Z) :=
  let? stats := stats_for_field_id field_id in
  Ok (stats ≫= Statistics.null_count).

Definition value_count : Z := wrapU 64 (num_rows row_group_metadata).

Definition contains_nulls_only (field_id : Z) : result bool :=
  let? null_count := null_count field_id in
  Ok (bool_decide (null_count = Some value_count)).

Definition may_contain_null (field_id : Z) : result bool :=
  let? null_count := null_count field_id in
  Ok (match null_count with Some null_count => 0 <? null_count | None => true end).

Definition stats_and_type_for_field_id (field_id : Z) :
    result (option (Statistics.t * PrimitiveType.t)) :=
  let? stats := stats_for_field_id field_id in
  match stats with
  | None => Ok None
  | Some stats =>
      let? field := ok_or (field_by_id snapshot_schema field_id) Unexpected in
      let? primitive_type := ok_or (as_primitive_type (field_type field)) Unexpected in
      Ok (Some (stats, primitive_type))
  end.

Definition min_value (field_id : Z) : result (option Datum) :=
  let? found := stats_and_type_for_field_id field_id in
  match found with
  | None => Ok None
  | Some (stats, primitive_type) => get_parquet_stat_min_as_datum primitive_type stats
  end.

Definition max_value (field_id : Z) : result (option Datum) :=
  let? found := stats_and_type_for_field_id field_id in
  match found with
  | None => Ok None
  | Some (stats, primitive_type) => get_parquet_stat_max_as_datum primitive_type stats
  end.

Definition visit_inequality (reference : BoundReference) (datum : Datum)
    (cmp_fn : Datum -> Datum -> bool) (use_lower_bound : bool) : result bool :=
  let field_id := field_id (ref_field reference) in
  let? nulls_only := contains_nulls_only field_id in
  if (nulls_only : bool) then ROW_GROUP_CANT_MATCH
  else if Values.is_nan datum then ROW_GROUP_MIGHT_MATCH
  else
    let? bound := if use_lower_bound then min_value field_id else max_value field_id in
    match bound with
    | Some bound => if cmp_fn bound datum then ROW_GROUP_MIGHT_MATCH else ROW_GROUP_CANT_MATCH
    | None => ROW_GROUP_MIGHT_MATCH
    end.

Definition visit_is_null (reference : BoundReference) : result bool :=
  let? null_count := null_count (field_id (ref_field reference)) in
  match null_count with
  | Some null_count => if null_count =? 0 then ROW_GROUP_CANT_MATCH else ROW_GROUP_MIGHT_MATCH
  | None => ROW_GROUP_MIGHT_MATCH
  end.

Definition visit_not_null (reference : BoundReference) : result bool :=
  let? nulls_only := contains_nulls_only (field_id (ref_field reference)) in
  if (nulls_only : bool) then ROW_GROUP_CANT_MATCH else ROW_GROUP_MIGHT_MATCH.

Definition visit_eq (reference : BoundReference) (datum : Datum) : result bool :=
  let field_id := field_id (ref_field reference) in
  let? nulls_only := contains_nulls_only field_id in
  if (nulls_only : bool) then ROW_GROUP_CANT_MATCH
  else
    let check_upper :=
      let? upper_bound := max_value field_id in
      match upper_bound with
      | Some upper_bound =>
          if Values.is_nan upper_bound then ROW_GROUP_MIGHT_MATCH
          else if datum_lt upper_bound datum then ROW_GROUP_CANT_MATCH
          else ROW_GROUP_MIGHT_MATCH
      | None => ROW_GROUP_MIGHT_MATCH
      end in
    let? lower_bound := min_value field_id in
    match lower_bound with
    | Some lower_bound =>
        if Values.is_nan lower_bound then ROW_GROUP_MIGHT_MATCH
        else if datum_gt lower_bound datum then ROW_GROUP_CANT_MATCH
        else check_upper
    | None => check_upper
    end.

Definition visit_starts_with (reference : BoundReference) (datum : Datum) : result bool :=
  let field_id := field_id (ref_field reference) in
  let? nulls_only := contains_nulls_only field_id in
  if (nulls_only : bool) then ROW_GROUP_CANT_MATCH
  else
    let? datum := InclusiveMetrics.expect_string datum in
    let check_upper :=
      let? upper_bound := max_value field_id in
      match upper_bound with
      | Some upper_bound =>
          let? upper_bound := InclusiveMetrics.expect_string upper_bound in
          let prefix_length := (chars_count upper_bound `min` chars_count datum)%nat in
          let truncated_upper_bound := chars_take prefix_length upper_bound in
          match str_cmp datum truncated_upper_bound with
          | Gt => ROW_GROUP_CANT_MATCH
          | _ => ROW_GROUP_MIGHT_MATCH
          end
      | None => ROW_GROUP_MIGHT_MATCH
      end in
    let? lower_bound := min_value field_id in
    match lower_bound with
    | Some lower_bound =>
        let? lower_bound := InclusiveMetrics.expect_string lower_bound in
        let prefix_length := (chars_count lower_bound `min` chars_count datum)%nat in
        let truncated_lower_bound := chars_take prefix_length lower_bound in
        match str_cmp datum truncated_lower_bound with
        | Lt => ROW_GROUP_CANT_MATCH
        | _ => check_upper
        end
    | None => check_upper
    end.

Definition visit_not_starts_with (reference : BoundReference) (datum : Datum) : result bool :=
  let field_id := field_id (ref_field reference) in
  let? nulls := may_contain_null field_id in
  if (nulls : bool) then ROW_GROUP_MIGHT_MATCH
  else
    let? prefix := InclusiveMetrics.expect_string datum in
    let? lower_bound := min_value field_id in
    match lower_bound with
    | None => ROW_GROUP_MIGHT_MATCH
    | Some lower_bound =>
        let? lower_bound_str := InclusiveMetrics.expect_string lower_bound in
        match str_cmp lower_bound_str prefix with
        | Lt => ROW_GROUP_MIGHT_MATCH
        | _ =>
            let prefix_len := chars_count prefix in
            if bool_decide (utf8 (chars_take prefix_len lower_bound_str) = utf8 prefix) then
              let? upper_bound := max_value field_id in
              match upper_bound with
              | None => ROW_GROUP_MIGHT_MATCH
              | Some upper_bound =>
                  let? upper_bound := InclusiveMetrics.expect_string upper_bound in
                  if (chars_count upper_bound <? prefix_len)%nat then ROW_GROUP_MIGHT_MATCH
                  else if bool_decide (utf8 (chars_take prefix_len upper_bound) = utf8 prefix)
                  then ROW_GROUP_CANT_MATCH
                  else ROW_GROUP_MIGHT_MATCH
              end
            else ROW_GROUP_MIGHT_MATCH
        end
    end.

Definition visit_in (reference : BoundReference) (literals : list Datum) : result bool :=
  let field_id := field_id (ref_field reference) in
  let? nulls_only := contains_nulls_only field_id in
  if (nulls_only : bool) then ROW_GROUP_CANT_MATCH
  else if IN_PREDICATE_LIMIT <? Z.of_nat (length literals) then ROW_GROUP_MIGHT_MATCH
  else
    let check_upper :=
      let? upper_bound := max_value field_id in
      match upper_bound with
      | Some upper_bound =>
          if Values.is_nan upper_bound then ROW_GROUP_MIGHT_MATCH
          else if negb (existsb (fun datum => datum_le datum upper_bound) literals)
          then ROW_GROUP_CANT_MATCH
          else ROW_GROUP_MIGHT_MATCH
      | None => ROW_GROUP_MIGHT_MATCH
      end in
    let? lower_bound := min_value field_id in
    match lower_bound with
    | Some lower_bound =>
        if Values.is_nan lower_bound then ROW_GROUP_MIGHT_MATCH
        else if negb (existsb (fun datum => datum_ge datum lower_bound) literals)
        then ROW_GROUP_CANT_MATCH
        else check_upper
    | None => check_upper
    end.

Definition RowGroupMetricsEvaluator : BoundPredicateVisitor result bool :=
  {| always_true := ROW_GROUP_MIGHT_MATCH;
     always_false := ROW_GROUP_CANT_MATCH;
     and lhs rhs := Ok (lhs && rhs);
     or lhs rhs := Ok (lhs || rhs);
     not inner := Ok (negb inner);
     is_null reference _ := visit_is_null reference;
     not_null reference _ := visit_not_null reference;
     is_nan _ _ := ROW_GROUP_MIGHT_MATCH;
     not_nan _ _ := ROW_GROUP_MIGHT_MATCH;
     less_than reference datum _ := visit_inequality reference datum datum_lt true;
     less_than_or_eq reference datum _ := visit_inequality reference datum datum_le true;
     greater_than reference datum _ := visit_inequality reference datum datum_gt false;
     greater_than_or_eq reference datum _ := visit_inequality reference datum datum_ge false;
     eq reference datum _ := visit_eq reference datum;
     not_eq _ _ _ := ROW_GROUP_MIGHT_MATCH;
     starts_with reference datum _ := visit_starts_with reference datum;
     not_starts_with reference datum _ := visit_not_starts_with reference datum;
     in_ reference literals _ := visit_in reference literals;
     not_in _ _ _ := ROW_GROUP_MIGHT_MATCH |}.

Definition row_group_eval (filter : BoundPredicate) : result bool :=
  if num_rows row_group_metadata =? 0 then ROW_GROUP_CANT_MATCH
  else visit RowGroupMetricsEvaluator filter.

(** ** The metrics that the statistics amount to *)

Definition known {A} (r : result (option A)) : option A := ok_value None r.

(** The columns of the group: every value is counted, nulls and bounds are the ones that the
    evaluator reads, NaNs are not counted. *)
Definition group_file : DataFile :=
  mkDataFile Data "" Parquet [] (num_rows row_group_metadata) 0 ∅
    ((fun _ => value_count) <$> field_id_map)
    (map_imap (fun id _ => known (null_count id)) field_id_map)
    ∅
    (map_imap (fun id _ => known (min_value id)) field_id_map)
    (map_imap (fun id _ => known (max_value id)) field_id_map)
    None None None None None 0 None None None.

(** The statistics of a column can be read: a column in range, a primitive field of the
    schema, bounds that its type can hold. *)
Definition readable (field_id : Z) : Prop :=
  is_ok (null_count field_id) = true
  /\ is_ok (min_value field_id) = true /\ is_ok (max_value field_id) = true.

(** ** Theory *)

Lemma not_mapped id :
  field_id_map !! id = None ->
  null_count id = Ok None /\ min_value id = Ok None /\ max_value id = Ok None.
Proof.
  intros H. unfold null_count, min_value, max_value, stats_and_type_for_field_id, stats_for_field_id.
  by rewrite H.
Qed.

Lemma group_lookup {A} (get : Z -> result (option A)) id :
  (field_id_map !! id = None -> get id = Ok None) -> is_ok (get id) = true ->
  get id = Ok (map_imap (fun i (_ : nat) => known (get i)) field_id_map !! id).
Proof.
  intros Hn Hok. rewrite map_lookup_imap. destruct (field_id_map !! id) eqn:E; cbn; [|auto].
  by apply ok_value_Ok.
Qed.

Section readable.
Context (id : Z) (R : readable id).

Lemma group_null_count : null_count id = Ok (Metrics.null_count group_file id).
Proof using R. apply group_lookup; [by intros []%not_mapped|apply R]. Qed.
Lemma group_lower : min_value id = Ok (lower_bound_of group_file id).
Proof using R. apply group_lookup; [by intros (? & ? & ?)%not_mapped|apply R]. Qed.
Lemma group_upper : max_value id = Ok (upper_bound_of group_file id).
Proof using R. apply group_lookup; [by intros (? & ? & ?)%not_mapped|apply R]. Qed.

Lemma group_nulls_only : contains_nulls_only id = Ok (Metrics.contains_nulls_only group_file id).
Proof using R.
  unfold contains_nulls_only. rewrite group_null_count. cbn. f_equal.
  unfold Metrics.contains_nulls_only, Metrics.value_count. cbn [group_file value_counts].
  rewrite lookup_fmap. destruct (Metrics.null_count group_file id) as [n|] eqn:E; [|done].
  unfold Metrics.null_count in E. cbn in E. rewrite map_lookup_imap in E.
  by destruct (field_id_map !! id).
Qed.

Lemma group_nans_only : Metrics.contains_nans_only group_file id = false.
Proof. unfold Metrics.contains_nans_only, Metrics.nan_count. cbn. by rewrite lookup_empty. Qed.

End readable.
End evaluator.

(** ** The evaluator is the inclusive evaluator *)

(** The column of a leaf can be read. *)
Definition leaf_readable (rg : RowGroupMetaData) (m : gmap Z nat) (schema : Schema)
    (q : BoundPredicate) : Prop :=
  terms (fun t => readable rg m schema (field_id (ref_field t))) q.

Definition nan_test (q : BoundPredicate) : bool :=
  match q with
  | Unary PredicateOperator.IsNan _ | Unary PredicateOperator.NotNan _ => true
  | _ => false
  end.

Section agreement.
Context {V : ValueLib} {rg : RowGroupMetaData} {m : gmap Z nat} {schema : Schema}.
Let file : DataFile := group_file rg m schema.

Lemma row_group_boolean_visitor : boolean_visitor (RowGroupMetricsEvaluator rg m schema).
Proof. split; done. Qed.

Ltac read_column R :=
  cbv zeta; rewrite ?(group_nulls_only _ _ _ _ R), ?(group_nans_only rg m schema), ?orb_false_r;
  cbn [mbind result_bind].

Lemma agrees_inequality t d cmp use_lower :
  readable rg m schema (field_id (ref_field t)) ->
  visit_inequality rg m schema t d cmp use_lower
  = InclusiveMetrics.visit_inequality file t d cmp use_lower.
Proof.
  intros R. unfold visit_inequality, InclusiveMetrics.visit_inequality, file. read_column R.
  destruct (Metrics.contains_nulls_only _ _); [done|]. destruct (Values.is_nan d); [done|].
  by destruct use_lower; rewrite ?(group_lower _ _ _ _ R), ?(group_upper _ _ _ _ R).
Qed.

Lemma agrees_eq t d :
  readable rg m schema (field_id (ref_field t)) ->
  visit_eq rg m schema t d = InclusiveMetrics.visit_eq file t d.
Proof.
  intros R. unfold visit_eq, InclusiveMetrics.visit_eq, file. read_column R.
  by rewrite (group_lower _ _ _ _ R), (group_upper _ _ _ _ R).
Qed.

Lemma agrees_in t ds :
  readable rg m schema (field_id (ref_field t)) ->
  visit_in rg m schema t ds = InclusiveMetrics.visit_in file t ds.
Proof.
  intros R. unfold visit_in, InclusiveMetrics.visit_in, file. read_column R.
  by rewrite (group_lower _ _ _ _ R), (group_upper _ _ _ _ R).
Qed.

Lemma agrees_starts_with t d :
  readable rg m schema (field_id (ref_field t)) ->
  visit_starts_with rg m schema t d = InclusiveMetrics.visit_starts_with file t d.
Proof.
  intros R. unfold visit_starts_with, InclusiveMetrics.visit_starts_with, file. read_column R.
  by rewrite (group_lower _ _ _ _ R), (group_upper _ _ _ _ R).
Qed.

Lemma agrees_not_starts_with t d :
  readable rg m schema (field_id (ref_field t)) ->
  visit_not_starts_with rg m schema t d = InclusiveMetrics.visit_not_starts_with file t d.
Proof.
  intros R. unfold visit_not_starts_with, InclusiveMetrics.visit_not_starts_with, may_contain_null, file.
  rewrite (group_null_count _ _ _ _ R), (group_lower _ _ _ _ R), (group_upper _ _ _ _ R).
  reflexivity.
Qed.

Lemma row_group_leaf q :
  leaf_readable rg m schema q -> nan_test q = false ->
  match q with Unary _ _ | Binary _ _ _ | SetP _ _ _ => True | _ => False end ->
  visit (RowGroupMetricsEvaluator rg m schema) q
  = visit (InclusiveMetrics.InclusiveMetricsEvaluator file) q.
Proof.
  intros R Hn Hleaf. destruct q as [| | | | |op t|op t d|op t ds]; try done; cbn in R;
    destruct op; try done; cbn [visit visit_unary visit_binary visit_set RowGroupMetricsEvaluator
      InclusiveMetrics.InclusiveMetricsEvaluator is_null not_null less_than less_than_or_eq
      greater_than greater_than_or_eq eq starts_with not_starts_with in_];
    rewrite ?agrees_inequality, ?agrees_eq, ?agrees_in, ?agrees_starts_with,
      ?agrees_not_starts_with by done; try done.
  - unfold visit_is_null, InclusiveMetrics.visit_is_null. by rewrite (group_null_count _ _ _ _ R).
  - unfold visit_not_null, InclusiveMetrics.visit_not_null. by rewrite (group_nulls_only _ _ _ _ R).
Qed.

(** Where a row is evaluated, so is the row group, and it is kept if the row matches. *)
Lemma row_group_visit_le {L : ValueLibLaws V} rows row filter :
  row ∈ rows ->
  leaves (leaf_readable rg m schema) filter -> leaves (leaf_described file rows) filter ->
  answers_le (eval_row filter row) (visit (RowGroupMetricsEvaluator rg m schema) filter).
Proof.
  intros Hrow HR HD.
  apply visit_sim; [apply expression_boolean_visitor|apply expression_refuses_not|
                    apply row_group_boolean_visitor|].
  pose proof (leaves_and _ _ _ HR HD) as H. clear HR HD.
  assert (forall q, leaf_readable rg m schema q /\ leaf_described file rows q ->
    match q with Unary _ _ | Binary _ _ _ | SetP _ _ _ => True | _ => False end ->
    answers_le (visit (ExpressionEvaluatorVisitor row) q)
               (visit (RowGroupMetricsEvaluator rg m schema) q)) as Hleaf.
  { intros q [R Dq] Hq. destruct (nan_test q) eqn:En.
    - destruct q as [| | | | |op t| |]; try done. destruct Dq as (ty & values & D).
      destruct op; try done; cbn; apply (on_value_le _ _ _ _ _ _ _ (proj1 D) Hrow); by eexists.
    - rewrite row_group_leaf by done. by apply (InclusiveMetrics.inclusive_leaf_sound file rows). }
  induction filter; cbn [leaves] in *; try tauto; by apply Hleaf.
Qed.

(** The evaluator keeps a row group with a matching row. *)
Lemma row_group_keeps {L : ValueLibLaws V} rows row filter :
  num_rows rg = Z.of_nat (length rows) -> row ∈ rows ->
  leaves (leaf_readable rg m schema) filter -> leaves (leaf_described file rows) filter ->
  eval_row filter row = Ok true -> row_group_eval rg m schema filter = Ok true.
Proof.
  intros Hn Hrow HR HD Heval. unfold row_group_eval.
  replace (num_rows rg =? 0) with false.
  2: { destruct rows; [by apply not_elem_of_nil in Hrow|]. rewrite Hn. done. }
  eapply answers_le_true; [|exact Heval]. by apply (row_group_visit_le rows).
Qed.

Lemma row_group_is_inclusive_eval filter :
  leaves (leaf_readable rg m schema) filter -> leaves (fun q => nan_test q = false) filter ->
  row_group_eval rg m schema filter = InclusiveMetrics.inclusive_eval file filter false.
Proof.
  intros HR HN. unfold row_group_eval, InclusiveMetrics.inclusive_eval. cbn [negb andb].
  change (record_count file) with (num_rows rg). destruct (num_rows rg =? 0); [done|].
  pose proof (leaves_and _ _ _ HR HN) as H. clear HR HN.
  induction filter as [| |l IHl r IHr|l IHl r IHr|p IH| | |]; cbn [leaves] in H; try done;
    try (by destruct H; apply row_group_leaf).
  - destruct H. cbn [visit]. by rewrite IHl, IHr.
  - destruct H. cbn [visit]. by rewrite IHl, IHr.
  - cbn [visit]. by rewrite IH.
Qed.

End agreement.

(** A column with well-formed statistics, in range and of a primitive type, can be read. *)
Lemma chunk_readable {V : ValueLib} rg m schema id column stats field ty :
  m !! id = Some column -> columns rg !! column = Some (Some stats) ->
  field_by_id schema id = Some field -> field_type field = TPrimitive ty -> type_wf ty = true ->
  stat_wf (@min_opt) ty stats -> stat_wf (@max_opt) ty stats -> readable rg m schema id.
Proof.
  intros Hm Hc Hf Ht Hw Hmin Hmax.
  assert (stats_and_type_for_field_id rg m schema id = Ok (Some (stats, ty))) as E.
  { unfold stats_and_type_for_field_id, stats_for_field_id. rewrite Hm, Hc. cbn. rewrite Hf.
    cbn. by rewrite Ht. }
  destruct (stat_reads _ _ _ Hw Hmin) as (lo & Elo & _).
  destruct (stat_reads _ _ _ Hw Hmax) as (up & Eup & _).
  unfold readable, null_count, min_value, max_value, stats_for_field_id. rewrite E, Hm, Hc. cbn.
  unfold get_parquet_stat_min_as_datum, get_parquet_stat_max_as_datum. by rewrite Elo, Eup.
Qed.

(** ** Properties *)

(** On a filter without NaN tests, whose columns have readable statistics, the row group
    evaluator answers what the inclusive metrics evaluator answers on a data file with the
    metrics that the statistics amount to: the two copies of the code agree. *)
Theorem row_group_is_inclusive {V : ValueLib} rg m schema filter :
  leaves (leaf_readable rg m schema) filter -> leaves (fun q => nan_test q = false) filter ->
  row_group_eval rg m schema filter
  = InclusiveMetrics.inclusive_eval (group_file rg m schema) filter false.
Proof. apply row_group_is_inclusive_eval. Qed.

(** The reader never skips a row group with a matching row: if the statistics of the
    group describe its rows and some row matches the filter, the evaluator answers that the
    row group might match. *)
Theorem row_group_metrics_sound {V : ValueLib} {L : ValueLibLaws V} rg m schema rows row filter :
  num_rows rg = Z.of_nat (length rows) -> row ∈ rows ->
  leaves (leaf_readable rg m schema) filter ->
  leaves (leaf_described (group_file rg m schema) rows) filter ->
  eval_row filter row = Ok true -> row_group_eval rg m schema filter = Ok true.
Proof. intros. by eapply row_group_keeps. Qed.

Section witnesses.
#[local] Existing Instance concrete_values.

(** The two rows of [ex_rows] as a row group of one [int] column. *)
Definition ex_group : RowGroupMetaData :=
  mkRowGroupMetaData 2
    [Some (Statistics.Int32 (mkValueStatistics (Some 3) (Some 8) (Some 0)))] 100.
Definition ex_field_ids : gmap Z nat := {[1 := 0%nat]}.
Definition ex_group_schema : Schema :=
  let field := mkField 1 "a" false (TPrimitive PrimitiveType.Int) in
  mkSchema [field] 0 1 ∅ [] {[1 := field]} {["a" := 1]} {["a" := 1]} {[1 := "a"]}
    {[1 := accessor_new 0 PrimitiveType.Int]}.
Definition ex_greater (n : Z) : BoundPredicate :=
  Binary PredicateOperator.GreaterThan ex_term (datum_int n).

Lemma ex_group_readable : readable ex_group ex_field_ids ex_group_schema 1.
Proof. by vm_compute. Qed.

Lemma ex_group_reads :
  Metrics.value_count (group_file ex_group ex_field_ids ex_group_schema) 1 = Some 2
  /\ Metrics.null_count (group_file ex_group ex_field_ids ex_group_schema) 1 = Some 0
  /\ Metrics.nan_count (group_file ex_group ex_field_ids ex_group_schema) 1 = None
  /\ lower_bound_of (group_file ex_group ex_field_ids ex_group_schema) 1 = Some (datum_int 3)
  /\ upper_bound_of (group_file ex_group ex_field_ids ex_group_schema) 1 = Some (datum_int 8).
Proof. by vm_compute. Qed.

Lemma ex_group_described n :
  inS 32 n = true ->
  leaf_described (group_file ex_group ex_field_ids ex_group_schema) ex_rows (ex_greater n).
Proof.
  intros Hn. destruct ex_group_reads as (Ev & En & Ea & El & Eu).
  pose proof (ex_leaf_described [] PredicateOperator.GreaterThan n eq_refl Hn)
    as (ty & values & [Hm CM] & Hd & Hr & Ho & Hp).
  exists ty, values. destruct CM as [c1 c2 c3 c4 c5 c6].
  split; [split; [done|split]|split; [done|split; [done|split; [|done]]]];
    cbn [field_id ref_field ex_term mkField] in *.
  - done.
  - rewrite Ev. intros k. apply c2.
  - rewrite En. intros k. apply c3.
  - by rewrite Ea.
  - rewrite El. intros b. apply c5.
  - rewrite Eu. intros b. apply c6.
  - intros H. destruct (Ho H) as [Hf Hb]. split; [done|]. unfold bounds_not_nan.
    cbn [field_id ref_field ex_term mkField]. rewrite El, Eu. exact Hb.
Qed.

(** [a > 5] on the group: its second row matches. *)
Lemma row_group_metrics_sound_witness :
  row_group_eval ex_group ex_field_ids ex_group_schema (ex_greater 5) = Ok true.
Proof.
  refine (row_group_metrics_sound ex_group ex_field_ids ex_group_schema ex_rows
            [Some (LPrimitive (PrimitiveLiteral.Int 8))] _ _ _ _ _ _).
  - reflexivity.
  - right. left.
  - exact ex_group_readable.
  - by apply ex_group_described.
  - reflexivity.
Defined.

(** [a > 9] is excluded by the statistics, through either evaluator. *)
Lemma row_group_is_inclusive_witness :
  row_group_eval ex_group ex_field_ids ex_group_schema (ex_greater 9)
  = InclusiveMetrics.inclusive_eval (group_file ex_group ex_field_ids ex_group_schema)
      (ex_greater 9) false
  /\ row_group_eval ex_group ex_field_ids ex_group_schema (ex_greater 9) = Ok false.
Proof.
  split; [|by vm_compute]. apply row_group_is_inclusive; [exact ex_group_readable|reflexivity].
Defined.

End witnesses.
