(* ===== verification/PageIndex.v ===== *)
(** * The page index evaluator (expr/visitors/page_index_evaluator.rs)

    Turns a filter into the selection of the rows of a Parquet row group that the
    page index cannot rule out.  Row selections and the page index itself belong to
    the [parquet] crate: the former are a parameter with the documented laws of
    [RowSelection], the latter the data that the code reads.  Soundness: a row that
    matches the filter is selected. *)

From S2P Require Import Prelude Utf8 Values Concrete DatumOrder Schema Expr DataFile ExprEval Metrics.
From S2P Require InclusiveMetrics.
From S2P Require Import ParquetStatistics RowGroupMetrics.

(** ** The page index *)

(** The typed index of a column: per page the bounds, and the null counts if stored. *)
Record ColumnIndex (T : Type) := mkColumnIndex {
  min_values : list (option T);
  max_values : list (option T);
  index_null_count : nat -> option Z;
}.
Arguments mkColumnIndex {T}. Arguments min_values {T}. Arguments max_values {T}.
Arguments index_null_count {T}.

Module ColumnIndexMetaData.
Inductive t :=
| NONE
| BOOLEAN (idx : ColumnIndex bool)
| INT32 (idx : ColumnIndex Z)
| INT64 (idx : ColumnIndex Z)
| INT96
| FLOAT (idx : ColumnIndex Z)
| DOUBLE (idx : ColumnIndex Z)
| BYTE_ARRAY (idx : ColumnIndex (list Z))
| FIXED_LEN_BYTE_ARRAY.
End ColumnIndexMetaData.

(** [OffsetIndexMetaData]: the first row of each page. *)
Record OffsetIndexMetaData := mkOffsetIndexMetaData { page_first_rows : list Z }.

(** ** Row selections *)

Record RowSelector := mkRowSelector { row_count : Z; skip : bool }.
Definition selector_select (row_count : Z) : RowSelector := mkRowSelector row_count false.
Definition selector_skip (row_count : Z) : RowSelector := mkRowSelector row_count true.

Class RowSelections := {
  RowSelection : Type;
  selection_from : list RowSelector -> RowSelection;
  selection_iter : RowSelection -> list RowSelector;
  selection_intersection : RowSelection -> RowSelection -> RowSelection;
  selection_union : RowSelection -> RowSelection -> RowSelection;
}.

(** The row mask of a list of selectors. *)
Fixpoint row_mask (selectors : list RowSelector) : list bool :=
  match selectors with
  | [] => []
  | s :: selectors => replicate (Z.to_nat (row_count s)) (negb (skip s)) ++ row_mask selectors
  end.

(** A selection denotes the mask of its selectors; on masks of one length, intersection and
    union are those of the rows. *)
Class RowSelectionLaws (R : RowSelections) := {
  selection_from_mask v : row_mask (selection_iter (selection_from v)) = row_mask v;
  intersection_mask a b :
    length (row_mask (selection_iter a)) = length (row_mask (selection_iter b)) ->
    row_mask (selection_iter (selection_intersection a b))
    = zip_with andb (row_mask (selection_iter a)) (row_mask (selection_iter b));
  union_mask a b :
    length (row_mask (selection_iter a)) = length (row_mask (selection_iter b)) ->
    row_mask (selection_iter (selection_union a b))
    = zip_with orb (row_mask (selection_iter a)) (row_mask (selection_iter b));
}.

(** ** The evaluator *)

Definition IN_PREDICATE_LIMIT : Z := 4096.

Inductive MissingColBehavior := CantMatch | MightMatch.

Inductive PageNullCount := AllNull | NoneNull | SomeNull | Unknown.

Definition from_row_and_null_counts (num_rows : Z) (null_count : option Z) : PageNullCount :=
  match null_count with
  | Some y => if num_rows =? wrapU 64 y then AllNull else if y =? 0 then NoneNull else SomeNull
  | None => Unknown
  end.
Definition is_all_null (c : PageNullCount) : bool :=
  match c with AllNull => true | _ => false end.
Definition is_none_null (c : PageNullCount) : bool :=
  match c with NoneNull => true | _ => false end.

(** The closures passed to [calc_row_selection]. *)
Definition PagePredicate : Type :=
  option Datum -> option Datum -> PageNullCount -> result bool.

(** The loop of [calc_row_counts] from page [idx] on. *)
Fixpoint row_counts_from (page_locations : list Z) (remaining_rows : Z) : list Z :=
  match page_locations with
  | [] => []
  | first :: rest =>
      match rest with
      | next :: _ =>
          let row_count := wrapU 64 (wrapS 64 (next - first)) in
          row_count :: row_counts_from rest (wrapU 64 (remaining_rows - row_count))
      | [] => [remaining_rows]
      end
  end.

(** The pages of an index: position, bounds and row count. *)
Definition index_pages {T} (idx : ColumnIndex T) (row_counts : list Z) :
    list (nat * (option T * option T) * Z) :=
  let bounds := zip (min_values idx) (max_values idx) in
  zip (zip (seq 0 (length bounds)) bounds) row_counts.

(** [row_count_cache]. *)
Abbreviation Cache := (gmap nat (list Z)).

Section evaluator.
Context {V : ValueLib} {R : RowSelections}.
Context (column_index : list ColumnIndexMetaData.t) (offset_index : list OffsetIndexMetaData)
        (row_group_metadata : RowGroupMetaData) (field_id_map : gmap Z nat)
        (snapshot_schema : Schema).

Definition group_rows : Z := wrapU 64 (num_rows row_group_metadata).
Definition select_all_rows : result RowSelection :=
  Ok (selection_from [selector_select group_rows]).
Definition skip_all_rows : result RowSelection :=
  Ok (selection_from [selector_skip group_rows]).

Definition calc_row_counts (offset_index : OffsetIndexMetaData) : list Z :=
  row_counts_from (page_first_rows offset_index) group_rows.

(** A branch of [apply_predicate_to_column_index]: [literal] wraps a bound. *)
Definition apply_to_pages {T} (literal : T -> result PrimitiveLiteral.t)
    (predicate : PagePredicate) (field_type : PrimitiveType.t) (idx : ColumnIndex T)
    (row_counts : list Z) : result (list bool) :=
  mapR (fun '(i, (min, max), row_count) =>
    let? min := opt_try min (fun val => mkDatum field_type <$> literal val) in
    let? max := opt_try max (fun val => mkDatum field_type <$> literal val) in
    predicate min max (from_row_and_null_counts row_count (index_null_count idx i)))
    (index_pages idx row_counts).

Definition apply_predicate_to_column_index (predicate : PagePredicate)
    (field_type : PrimitiveType.t) (column_index : ColumnIndexMetaData.t)
    (row_counts : list Z) : result (option (list bool)) :=
  match column_index with
  | ColumnIndexMetaData.NONE => Ok None
  | ColumnIndexMetaData.BOOLEAN idx =>
      Some <$> apply_to_pages (fun v => Ok (PrimitiveLiteral.Boolean v)) predicate field_type idx row_counts
  | ColumnIndexMetaData.INT32 idx =>
      Some <$> apply_to_pages (fun v => Ok (PrimitiveLiteral.Int v)) predicate field_type idx row_counts
  | ColumnIndexMetaData.INT64 idx =>
      Some <$> apply_to_pages (fun v => Ok (PrimitiveLiteral.Long v)) predicate field_type idx row_counts
  | ColumnIndexMetaData.FLOAT idx =>
      Some <$> apply_to_pages (fun v => Ok (PrimitiveLiteral.Float v)) predicate field_type idx row_counts
  | ColumnIndexMetaData.DOUBLE idx =>
      Some <$> apply_to_pages (fun v => Ok (PrimitiveLiteral.Double v)) predicate field_type idx row_counts
  | ColumnIndexMetaData.BYTE_ARRAY idx =>
      Some <$> apply_to_pages (fun v => PrimitiveLiteral.String <$> unwrap (from_utf8 v))
                 predicate field_type idx row_counts
  | ColumnIndexMetaData.FIXED_LEN_BYTE_ARRAY => Err (Error FeatureUnsupported)
  | ColumnIndexMetaData.INT96 => Err (Error FeatureUnsupported)
  end.

Definition page_selectors (row_counts : list Z) (page_filter : list bool) : list RowSelector :=
  zip_with (fun row_count (is_selected : bool) =>
    if is_selected then selector_select row_count else selector_skip row_count)
    row_counts page_filter.

(** The cached row counts of a column. *)
Definition column_row_counts (parquet_column_index : nat) : SR Cache (list Z) :=
  let! row_count_cache := sr_get in
  match row_count_cache !! parquet_column_index with
  | Some count => mret count
  | None =>
      let! offset_index := sr_lift (ok_or (offset_index !! parquet_column_index) Unexpected) in
      let count := calc_row_counts offset_index in
      let! _ := sr_modify (fun cache => <[parquet_column_index := count]> cache) in
      mret count
  end.

Definition calc_row_selection (field_id : Z) (predicate : PagePredicate)
    (missing_col_behavior : MissingColBehavior) : SR Cache RowSelection :=
  match field_id_map !! field_id with
  | None =>
      sr_lift (match missing_col_behavior with
               | CantMatch => skip_all_rows
               | MightMatch => select_all_rows
               end)
  | Some parquet_column_index =>
      let! field := sr_lift (ok_or (field_by_id snapshot_schema field_id) Unexpected) in
      let! field_type := sr_lift (ok_or (as_primitive_type (field_type field)) Unexpected) in
      match column_index !! parquet_column_index with
      | None => sr_lift select_all_rows
      | Some column_index =>
          let! row_counts := column_row_counts parquet_column_index in
          let! page_filter :=
            sr_lift (apply_predicate_to_column_index predicate field_type column_index row_counts) in
          match page_filter with
          | None => sr_lift select_all_rows
          | Some page_filter => mret (selection_from (page_selectors row_counts page_filter))
          end
      end
  end.

(** *** The page predicates *)

Definition inequality_page (datum : Datum) (cmp_fn : Datum -> Datum -> bool)
    (use_lower_bound : bool) : PagePredicate := fun min max null_count =>
  if is_all_null null_count then Ok false
  else if Values.is_nan datum then Ok true
  else
    let bound := if use_lower_bound then min else max in
    match bound with
    | Some bound => if cmp_fn bound datum then Ok true else Ok false
    | None => Ok true
    end.

Definition is_null_page : PagePredicate := fun _ _ null_count => Ok (negb (is_none_null null_count)).
Definition not_null_page : PagePredicate := fun _ _ null_count => Ok (negb (is_all_null null_count)).

Definition eq_page (datum : Datum) : PagePredicate := fun min max nulls =>
  if is_all_null nulls then Ok false
  else if match min with Some min => datum_gt min datum | None => false end then Ok false
  else if match max with Some max => datum_lt max datum | None => false end then Ok false
  else Ok true.

Definition starts_with_page (datum : str) : PagePredicate := fun min max nulls =>
  if is_all_null nulls then Ok false
  else
    let check_upper :=
      match max with
      | Some upper_bound =>
          let? upper_bound := InclusiveMetrics.expect_string upper_bound in
          let prefix_length := (chars_count upper_bound `min` chars_count datum)%nat in
          let truncated_upper_bound := chars_take prefix_length upper_bound in
          match str_cmp datum truncated_upper_bound with Gt => Ok false | _ => Ok true end
      | None => Ok true
      end in
    match min with
    | Some lower_bound =>
        let? lower_bound := InclusiveMetrics.expect_string lower_bound in
        let prefix_length := (chars_count lower_bound `min` chars_count datum)%nat in
        let truncated_lower_bound := chars_take prefix_length lower_bound in
        match str_cmp datum truncated_lower_bound with Lt => Ok false | _ => check_upper end
    | None => check_upper
    end.

Definition not_starts_with_page (prefix : str) : PagePredicate := fun min max nulls =>
  if negb (is_none_null nulls) then Ok true
  else
    match min with
    | None => Ok true
    | Some lower_bound =>
        let? lower_bound_str := InclusiveMetrics.expect_string lower_bound in
        match str_cmp lower_bound_str prefix with
        | Lt => Ok true
        | _ =>
            let prefix_len := chars_count prefix in
            if bool_decide (utf8 (chars_take prefix_len lower_bound_str) = utf8 prefix) then
              match max with
              | None => Ok true
              | Some upper_bound =>
                  let? upper_bound := InclusiveMetrics.expect_string upper_bound in
                  if (chars_count upper_bound <? prefix_len)%nat then Ok true
                  else if bool_decide (utf8 (chars_take prefix_len upper_bound) = utf8 prefix)
                  then Ok false
                  else Ok true
              end
            else Ok true
        end
    end.

Definition in_page (literals : list Datum) : PagePredicate := fun min max nulls =>
  if is_all_null nulls then Ok false
  else
    match min, max with
    | Some min, Some max =>
        if forallb (fun datum => datum_lt datum min || datum_gt datum max) literals
        then Ok false else Ok true
    | Some min, _ =>
        if negb (existsb (fun datum => datum_ge datum min) literals) then Ok false else Ok true
    | _, Some max =>
        if negb (existsb (fun datum => datum_le datum max) literals) then Ok false else Ok true
    | _, _ => Ok true
    end.

(** *** The visitor *)

Definition visit_inequality (reference : BoundReference) (datum : Datum)
    (cmp_fn : Datum -> Datum -> bool) (use_lower_bound : bool) : SR Cache RowSelection :=
  calc_row_selection (field_id (ref_field reference))
    (inequality_page datum cmp_fn use_lower_bound) MightMatch.

Definition visit_is_nan (reference : BoundReference) : result RowSelection :=
  if is_floating_type (field_type (ref_field reference)) then select_all_rows else skip_all_rows.

Definition visit_starts_with (reference : BoundReference) (datum : Datum) :
    SR Cache RowSelection :=
  let! datum := sr_lift (InclusiveMetrics.expect_string datum) in
  calc_row_selection (field_id (ref_field reference)) (starts_with_page datum) CantMatch.

Definition visit_not_starts_with (reference : BoundReference) (datum : Datum) :
    SR Cache RowSelection :=
  let! prefix := sr_lift (InclusiveMetrics.expect_string datum) in
  calc_row_selection (field_id (ref_field reference)) (not_starts_with_page prefix) MightMatch.

Definition visit_in (reference : BoundReference) (literals : list Datum) :
    SR Cache RowSelection :=
  if IN_PREDICATE_LIMIT <? Z.of_nat (length literals) then sr_lift select_all_rows
  else calc_row_selection (field_id (ref_field reference)) (in_page literals) CantMatch.

Definition PageIndexEvaluator : BoundPredicateVisitor (SR Cache) RowSelection :=
  {| always_true := sr_lift select_all_rows;
     always_false := sr_lift skip_all_rows;
     and lhs rhs := mret (selection_intersection lhs rhs);
     or lhs rhs := mret (selection_union lhs rhs);
     not _ := mthrow (Error Unexpected);
     is_null reference _ :=
       calc_row_selection (field_id (ref_field reference)) is_null_page MightMatch;
     not_null reference _ :=
       calc_row_selection (field_id (ref_field reference)) not_null_page CantMatch;
     is_nan reference _ := sr_lift (visit_is_nan reference);
     not_nan _ _ := sr_lift select_all_rows;
     less_than reference datum _ := visit_inequality reference datum datum_lt true;
     less_than_or_eq reference datum _ := visit_inequality reference datum datum_le true;
     greater_than reference datum _ := visit_inequality reference datum datum_gt false;
     greater_than_or_eq reference datum _ := visit_inequality reference datum datum_ge false;
     eq reference datum _ :=
       calc_row_selection (field_id (ref_field reference)) (eq_page datum) CantMatch;
     not_eq _ _ _ := sr_lift select_all_rows;
     starts_with reference datum _ := visit_starts_with reference datum;
     not_starts_with reference datum _ := visit_not_starts_with reference datum;
     in_ reference literals _ := visit_in reference literals;
     not_in _ _ _ := sr_lift select_all_rows |}.

Definition page_index_eval (filter : BoundPredicate) : result (list RowSelector) :=
  if num_rows row_group_metadata =? 0 then Ok []
  else
    let? visited := visit PageIndexEvaluator filter ∅ in
    Ok (selection_iter (fst visited)).

End evaluator.

(** ** The entries of a page index *)

(** What the page predicates see of a page. *)
Record PageEntry := mkPageEntry {
  entry_min : option Datum;
  entry_max : option Datum;
  entry_nulls : option Z;
  entry_rows : Z;
}.
Definition ask (predicate : PagePredicate) (e : PageEntry) : result bool :=
  predicate (entry_min e) (entry_max e) (from_row_and_null_counts (entry_rows e) (entry_nulls e)).

Definition read_pages {T} (literal : T -> result PrimitiveLiteral.t) (ty : PrimitiveType.t)
    (idx : ColumnIndex T) (row_counts : list Z) : result (list PageEntry) :=
  mapR (fun '(i, (min, max), row_count) =>
    let? min := opt_try min (fun val => mkDatum ty <$> literal val) in
    let? max := opt_try max (fun val => mkDatum ty <$> literal val) in
    Ok (mkPageEntry min max (index_null_count idx i) row_count)) (index_pages idx row_counts).

(** The entries of a column; [None] where the code selects all rows or gives up. *)
Definition column_entries (ty : PrimitiveType.t) (column_index : ColumnIndexMetaData.t)
    (row_counts : list Z) : option (result (list PageEntry)) :=
  match column_index with
  | ColumnIndexMetaData.BOOLEAN idx =>
      Some (read_pages (fun v => Ok (PrimitiveLiteral.Boolean v)) ty idx row_counts)
  | ColumnIndexMetaData.INT32 idx =>
      Some (read_pages (fun v => Ok (PrimitiveLiteral.Int v)) ty idx row_counts)
  | ColumnIndexMetaData.INT64 idx =>
      Some (read_pages (fun v => Ok (PrimitiveLiteral.Long v)) ty idx row_counts)
  | ColumnIndexMetaData.FLOAT idx =>
      Some (read_pages (fun v => Ok (PrimitiveLiteral.Float v)) ty idx row_counts)
  | ColumnIndexMetaData.DOUBLE idx =>
      Some (read_pages (fun v => Ok (PrimitiveLiteral.Double v)) ty idx row_counts)
  | ColumnIndexMetaData.BYTE_ARRAY idx =>
      Some (read_pages (fun v => PrimitiveLiteral.String <$> unwrap (from_utf8 v)) ty idx row_counts)
  | _ => None
  end.

Lemma apply_to_entries {T} (literal : T -> result PrimitiveLiteral.t) p ty idx counts es :
  read_pages literal ty idx counts = Ok es ->
  apply_to_pages literal p ty idx counts = mapR (ask p) es.
Proof.
  unfold read_pages, apply_to_pages. generalize (index_pages idx counts) as l.
  intros l. revert es. induction l as [|[[i [mn mx]] rc] l IH]; intros es; [by intros [= <-]|].
  cbn [mapR]. intros (e & (mn' & E1 & (mx' & E2 & [= <-])%bind_Ok)%bind_Ok
    & (es' & E3 & [= <-])%bind_Ok)%bind_Ok.
  cbn [mapR]. rewrite E1, (IH _ E3). cbn [mbind result_bind]. rewrite E2. reflexivity.
Qed.

Lemma column_entries_apply p ty ci counts es :
  column_entries ty ci counts = Some (Ok es) ->
  apply_predicate_to_column_index p ty ci counts = Some <$> mapR (ask p) es.
Proof.
  intros H. destruct ci; cbn [column_entries apply_predicate_to_column_index] in *;
    try discriminate H; injection H as H; by rewrite (apply_to_entries _ _ _ _ _ _ H).
Qed.

(** The selectors are those of the entries: pages beyond the shorter list are dropped. *)
Lemma zip_counts {A B C} (f : Z -> B -> C) (a : list A) (counts : list Z) (filter : list B) :
  length filter = length (zip a counts) ->
  zip_with f counts filter = zip_with f (snd <$> zip a counts) filter.
Proof.
  revert counts filter.
  induction a as [|x a IH]; intros [|c counts] [|b filter] H; try done.
  cbn in *. f_equal. apply IH. congruence.
Qed.

Lemma read_pages_rows {T} (literal : T -> result PrimitiveLiteral.t) ty idx counts es :
  read_pages literal ty idx counts = Ok es ->
  entry_rows <$> es = snd <$> index_pages idx counts.
Proof.
  unfold read_pages. generalize (index_pages idx counts) as l. intros l. revert es.
  induction l as [|[[i [mn mx]] rc] l IH]; intros es; [by intros [= <-]|].
  cbn [mapR]. intros (e & (mn' & E1 & (mx' & E2 & [= <-])%bind_Ok)%bind_Ok
    & (es' & E3 & [= <-])%bind_Ok)%bind_Ok. cbn. f_equal. by apply IH.
Qed.

Lemma read_pages_selectors {T} (literal : T -> result PrimitiveLiteral.t) ty idx counts es filter :
  read_pages literal ty idx counts = Ok es -> length filter = length es ->
  page_selectors counts filter = page_selectors (entry_rows <$> es) filter.
Proof.
  intros E Hl. pose proof (read_pages_rows _ _ _ _ _ E) as Hr. rewrite Hr.
  unfold page_selectors, index_pages. apply zip_counts. rewrite Hl.
  apply (f_equal length) in Hr. rewrite !length_fmap in Hr. exact Hr.
Qed.

Lemma column_entries_selectors ty ci counts es filter :
  column_entries ty ci counts = Some (Ok es) -> length filter = length es ->
  page_selectors counts filter = page_selectors (entry_rows <$> es) filter.
Proof.
  intros H. destruct ci; cbn [column_entries] in H; try discriminate H; injection H as H;
    by eapply read_pages_selectors.
Qed.

(** ** Pages rule out no matching row *)

(** The metrics of one page of a column. *)
Definition page_file (id : Z) (e : PageEntry) : DataFile :=
  mkDataFile Data "" Parquet [] (entry_rows e) 0 ∅
    {[id := entry_rows e]} (match entry_nulls e with Some n => {[id := n]} | None => ∅ end) ∅
    (match entry_min e with Some b => {[id := b]} | None => ∅ end)
    (match entry_max e with Some b => {[id := b]} | None => ∅ end)
    None None None None None 0 None None None.

Lemma lookup_opt {A} (id : Z) (o : option A) :
  (match o with Some x => {[id := x]} | None => ∅ end : gmap Z A) !! id = o.
Proof. destruct o; [by rewrite lookup_singleton_eq|by rewrite lookup_empty]. Qed.

Section page.
Context {V : ValueLib} {L : ValueLibLaws V}.
Context (e : PageEntry) (rows : list Struct) (t : BoundReference)
        (ty : PrimitiveType.t) (values : column).
Let id : Z := field_id (ref_field t).
Let pf : DataFile := page_file id e.
Context (D : describes pf rows t ty values) (N : bounds_not_nan pf id)
        (Hsize : inU 64 (entry_rows e) = true).

Lemma page_value_count : Metrics.value_count pf id = Some (entry_rows e).
Proof. apply lookup_singleton_eq. Qed.
Lemma page_null_count : Metrics.null_count pf id = entry_nulls e.
Proof. apply lookup_opt. Qed.
Lemma page_lower : lower_bound_of pf id = entry_min e.
Proof. apply lookup_opt. Qed.
Lemma page_upper : upper_bound_of pf id = entry_max e.
Proof. apply lookup_opt. Qed.
Lemma page_nans_only : Metrics.contains_nans_only pf id = false.
Proof. reflexivity. Qed.

#[local] Abbreviation nulls := (from_row_and_null_counts (entry_rows e) (entry_nulls e)).

Lemma page_null_range n : entry_nulls e = Some n -> wrapU 64 n = n.
Proof using D Hsize.
  intros E. apply wrapU_id, inU_spec. apply inU_spec in Hsize.
  destruct D as [_ CM]. pose proof (cm_values _ _ _ _ CM _ page_value_count) as Hv.
  pose proof (cm_nulls _ _ _ _ CM n) as Hn. fold id in Hn. rewrite page_null_count in Hn.
  specialize (Hn E). unfold count in Hn. pose proof (List.filter_length_le null_value values). lia.
Qed.

Lemma page_all_null : is_all_null nulls = Metrics.contains_nulls_only pf id.
Proof using D Hsize.
  unfold Metrics.contains_nulls_only. rewrite page_null_count, page_value_count.
  unfold from_row_and_null_counts. destruct (entry_nulls e) as [n|] eqn:E; [|done].
  rewrite (page_null_range n E). rewrite bool_decide_true by done. cbn [andb].
  destruct (Z.eqb_spec (entry_rows e) n) as [->|Hne]; [by rewrite bool_decide_true|].
  rewrite bool_decide_false by congruence. by destruct (n =? 0).
Qed.

Lemma page_none_null : is_none_null nulls = true -> entry_nulls e = Some 0.
Proof.
  unfold from_row_and_null_counts. destruct (entry_nulls e) as [n|]; [|done].
  destruct (_ =? wrapU 64 n); [done|]. by destruct (Z.eqb_spec n 0) as [->|].
Qed.

Lemma page_inequality d cmp use_lower :
  ask (inequality_page d cmp use_lower) e = InclusiveMetrics.visit_inequality pf t d cmp use_lower.
Proof using D Hsize.
  unfold ask, inequality_page, InclusiveMetrics.visit_inequality. fold id.
  rewrite page_all_null, page_nans_only, page_lower, page_upper, orb_false_r. reflexivity.
Qed.

Lemma page_eq d : ask (eq_page d) e = InclusiveMetrics.visit_eq pf t d.
Proof using D Hsize N.
  unfold ask, eq_page, InclusiveMetrics.visit_eq. fold id.
  rewrite page_all_null, page_nans_only, page_lower, page_upper, orb_false_r.
  destruct N as [Hlo Hup]. rewrite page_lower in Hlo. rewrite page_upper in Hup.
  destruct (Metrics.contains_nulls_only pf id); [done|].
  destruct (entry_min e) as [lo|]; [rewrite (Hlo lo eq_refl); destruct (datum_gt lo d); [done|]|];
    (destruct (entry_max e) as [up|]; [|done]); rewrite (Hup up eq_refl);
    by destruct (datum_lt up d).
Qed.

Lemma page_not_null : ask not_null_page e = InclusiveMetrics.visit_not_null pf t.
Proof using D Hsize.
  unfold ask, not_null_page, InclusiveMetrics.visit_not_null. fold id. rewrite page_all_null.
  by destruct (Metrics.contains_nulls_only pf id).
Qed.

Lemma page_starts_with s :
  ask (starts_with_page s) e = InclusiveMetrics.visit_starts_with pf t (datum_string s).
Proof using D Hsize.
  unfold ask, starts_with_page, InclusiveMetrics.visit_starts_with. fold id.
  rewrite page_all_null, page_lower, page_upper. reflexivity.
Qed.

Lemma page_not_starts_with s :
  ask (not_starts_with_page s) e = Ok true
  \/ ask (not_starts_with_page s) e = InclusiveMetrics.visit_not_starts_with pf t (datum_string s).
Proof.
  unfold ask, not_starts_with_page.  destruct (is_none_null nulls) eqn:E; [|by left].
  right. unfold InclusiveMetrics.visit_not_starts_with, Metrics.may_contain_null. fold id.
  rewrite page_null_count, page_lower, page_upper, (page_none_null E). reflexivity.
Qed.

(** A literal between the bounds passes the page filter of [IN]. *)
Lemma page_in ds row :
  row ∈ rows -> Forall (literal_ok ty) ds -> column_regular values ->
  answers_le (on_value t row (fun x => set_contains ds x) false) (ask (in_page ds) e).
Proof using D Hsize N L.
  intros Hrow Hds Hreg. apply (on_value_le _ _ _ _ _ _ _ (proj1 D) Hrow). intros v Hv.
  assert (exists b, ask (in_page ds) e = Ok b) as [b Hb].
  { unfold ask, in_page. repeat case_match; eauto. }
  exists b. split; [done|]. destruct v as [x|]; [|done].
  unfold set_contains. intros (d & Hin & Hx)%existsb_exists.
  assert (literal_ok ty d) as Hd.
  { rewrite Forall_forall in Hds. apply Hds. by apply list_elem_of_In. }
  destruct (InclusiveMetrics.equal_value_bounds D x d) as (Hn & Hlo & Hup); auto.
  fold id in Hlo, Hup. rewrite page_lower in Hlo. rewrite page_upper in Hup.
  destruct N as [Nlo Nup]. rewrite page_lower in Nlo. rewrite page_upper in Nup.
  unfold ask, in_page in Hb.  rewrite page_all_null in Hb.
  pose proof (value_not_only_null (proj2 D) x Hv) as Hnn. fold id in Hnn. rewrite Hnn in Hb.
  assert (forall lo, entry_min e = Some lo -> datum_ge d lo = true /\ datum_lt d lo = false) as Ha.
  { intros lo E. destruct (Hlo lo E (Nlo lo E)) as [Hc%comparable_sym Hle]. split.
    - by apply datum_ge_key.
    - apply not_true_iff_false. rewrite datum_lt_key by done. by apply lex_not_lt. }
  assert (forall up, entry_max e = Some up -> datum_le d up = true /\ datum_gt d up = false) as Hz.
  { intros up E. destruct (Hup up E (Nup up E)) as [Hc%comparable_sym Hle]. split.
    - by apply datum_le_key.
    - apply not_true_iff_false. rewrite datum_gt_key by done. by apply lex_not_lt. }
  destruct (entry_min e) as [lo|], (entry_max e) as [up|].
  - destruct (forallb _ ds) eqn:Ef; [|congruence]. rewrite forallb_forall in Ef.
    specialize (Ef d Hin). destruct (Ha lo eq_refl) as [_ Hlt], (Hz up eq_refl) as [_ Hgt].
    by rewrite Hlt, Hgt in Ef.
  - destruct (existsb _ ds) eqn:Ef; [cbn in Hb; congruence|]. exfalso.
    apply not_true_iff_false in Ef. apply Ef, existsb_exists. exists d. by destruct (Ha lo).
  - destruct (existsb _ ds) eqn:Ef; [cbn in Hb; congruence|]. exfalso.
    apply not_true_iff_false in Ef. apply Ef, existsb_exists. exists d. by destruct (Hz up).
  - congruence.
Qed.

End page.

(** ** Selections keep the matching rows *)

(** The selection has a bit for every row, set where [P] holds. *)
Definition keeps (P : Struct -> Prop) (mask : list bool) (rows : list Struct) : Prop :=
  Forall2 (fun keep row => P row -> keep = true) mask rows.

Lemma keeps_replicate P b rows n :
  Z.to_nat n = length rows -> (forall row, row ∈ rows -> P row -> b = true) ->
  keeps P (replicate (Z.to_nat n) b) rows.
Proof.
  intros -> H. induction rows as [|row rows IH]; cbn; constructor.
  - apply H. left.
  - apply IH. intros r Hr. apply H. by right.
Qed.

Lemma keeps_impl (P Q : Struct -> Prop) mask rows :
  (forall row, row ∈ rows -> Q row -> P row) -> keeps P mask rows -> keeps Q mask rows.
Proof.
  intros H K. induction K as [|b row mask rows Hb K IH]; constructor.
  - intros HQ. apply Hb, H; [left|done].
  - apply IH. intros r Hr. apply H. by right.
Qed.

Lemma keeps_zip f (P Q T : Struct -> Prop) a b rows :
  (forall row x y, (P row -> x = true) -> (Q row -> y = true) -> T row -> f x y = true) ->
  keeps P a rows -> keeps Q b rows -> keeps T (zip_with f a b) rows.
Proof.
  intros Hf Ha. revert b. induction Ha as [|x row a rows Hx Ha IH]; intros b Hb.
  - apply Forall2_nil_inv_r in Hb as ->. constructor.
  - apply Forall2_cons_inv_r in Hb as (y & b' & Hy & Hb & ->). constructor; [|by apply IH].
    by apply (Hf row).
Qed.

(** The selectors of the pages of a column. *)
Lemma keeps_pages P (es : list PageEntry) (pages : list (list Struct)) filter :
  Forall2 (fun e page => Z.to_nat (entry_rows e) = length page) es pages ->
  Forall2 (fun (b : bool) page => forall row, row ∈ page -> P row -> b = true) filter pages ->
  keeps P (row_mask (page_selectors (entry_rows <$> es) filter)) (concat pages).
Proof.
  intros He. revert filter. induction He as [|e page es pages Hr He IH]; intros filter Hf.
  - apply Forall2_nil_inv_r in Hf as ->. constructor.
  - apply Forall2_cons_inv_r in Hf as (b & filter' & Hb & Hf & ->).
    cbn. apply Forall2_app; [|by apply IH].
    destruct b; cbn; by apply keeps_replicate.
Qed.

Section soundness.
Context {V : ValueLib} {L : ValueLibLaws V} {R : RowSelections} {RL : RowSelectionLaws R}.
Context (ci : list ColumnIndexMetaData.t) (oi : list OffsetIndexMetaData)
        (rg : RowGroupMetaData) (m : gmap Z nat) (schema : Schema) (rows : list Struct).
Context (Hrows : num_rows rg = Z.of_nat (length rows)) (Hsize : inS 64 (num_rows rg) = true).

Lemma group_rows_length : Z.to_nat (group_rows rg) = length rows.
Proof using Hrows Hsize.
  unfold group_rows. apply inS_spec in Hsize. rewrite wrapU_id; [lia|].
  apply inU_spec. lia.
Qed.

(** A visitor's result in the state [cache]. *)
Definition selects (P : Struct -> Prop) (run : SR Cache RowSelection) : Prop :=
  forall cache,
    (forall c counts, cache !! c = Some counts ->
       exists o, oi !! c = Some o /\ counts = calc_row_counts rg o) ->
    exists selection cache', run cache = Ok (selection, cache')
      /\ (forall c counts, cache' !! c = Some counts ->
            exists o, oi !! c = Some o /\ counts = calc_row_counts rg o)
      /\ keeps P (row_mask (selection_iter selection)) rows.

Lemma selects_all P : selects P (sr_lift (select_all_rows rg)).
Proof using Hrows Hsize RL.
  intros cache Hc. eexists _, cache. split; [reflexivity|]. split; [done|].
  rewrite selection_from_mask. cbn [row_mask selector_select row_count skip negb].
  rewrite app_nil_r. apply keeps_replicate; [apply group_rows_length|done].
Qed.

Lemma selects_none (P : Struct -> Prop) :
  (forall row, row ∈ rows -> ~ P row) -> selects P (sr_lift (skip_all_rows rg)).
Proof using Hrows Hsize RL.
  intros HP cache Hc. eexists _, cache. split; [reflexivity|]. split; [done|].
  rewrite selection_from_mask. cbn [row_mask selector_skip row_count skip negb].
  rewrite app_nil_r. apply keeps_replicate; [apply group_rows_length|].
  intros row Hr Hp. by destruct (HP row Hr).
Qed.

(** The page index of a column describes the rows: [page_ok] holds of each page. *)
Definition column_paged (id : Z) (page_ok : PageEntry -> list Struct -> Prop) : Prop :=
  match m !! id with
  | None => True
  | Some c => exists field ty,
      field_by_id schema id = Some field /\ field_type field = TPrimitive ty
      /\ match ci !! c with
         | None => True
         | Some index => exists o, oi !! c = Some o
             /\ (index = ColumnIndexMetaData.NONE
                 \/ exists es pages,
                      column_entries ty index (calc_row_counts rg o) = Some (Ok es)
                      /\ rows = concat pages
                      /\ Forall2 (fun e page => entry_rows e = Z.of_nat (length page)
                                   /\ page_ok e page) es pages)
         end
  end.

Lemma row_counts_cached c o cache :
  oi !! c = Some o ->
  (forall c counts, cache !! c = Some counts ->
     exists o, oi !! c = Some o /\ counts = calc_row_counts rg o) ->
  exists cache', column_row_counts oi rg c cache = Ok (calc_row_counts rg o, cache')
    /\ forall c counts, cache' !! c = Some counts ->
         exists o, oi !! c = Some o /\ counts = calc_row_counts rg o.
Proof.
  intros Ho Hc. unfold column_row_counts, sr_get. cbv [mbind sr_bind mret sr_ret].
  destruct (cache !! c) as [counts|] eqn:E.
  - destruct (Hc c counts E) as (o' & Ho' & ->). eexists. split; [|exact Hc].
    rewrite Ho in Ho'. injection Ho' as <-. reflexivity.
  - rewrite Ho. cbn [ok_or sr_lift mbind result_bind sr_modify].
    eexists. split; [reflexivity|]. intros c' counts.
    destruct (decide (c = c')) as [<-|Hne].
    + rewrite lookup_insert_eq. intros [= <-]. eauto.
    + rewrite lookup_insert_ne by done. apply Hc.
Qed.

(** A page predicate that holds wherever a row of the page matches makes a sound selection. *)
Lemma calc_row_selection_sound (P : Struct -> Prop) id predicate missing page_ok :
  column_paged id page_ok ->
  (forall e page, page_ok e page -> exists b, ask predicate e = Ok b
     /\ forall row, row ∈ page -> P row -> b = true) ->
  (m !! id = None -> missing = CantMatch -> forall row, row ∈ rows -> ~ P row) ->
  selects P (calc_row_selection ci oi rg m schema id predicate missing).
Proof using Hrows Hsize RL.
  intros Hp Hpred Hmiss. unfold calc_row_selection, column_paged in *.
  destruct (m !! id) as [c|].
  2: { destruct missing; [apply selects_none; auto|apply selects_all]. }
  destruct Hp as (field & ty & Hf & Ht & Hp). intros cache Hc.
  cbv [mbind sr_bind]. rewrite Hf. cbn [ok_or sr_lift]. rewrite Ht.
  cbn [as_primitive_type ok_or sr_lift].
  destruct (ci !! c) as [index|]; [|by apply selects_all].
  destruct Hp as (o & Ho & Hp). destruct (row_counts_cached c o cache Ho Hc) as (cache' & E & Hc').
  rewrite E. destruct Hp as [->|(es & pages & Ees & Hpages & Hf2)].
  { by apply selects_all. }
  rewrite (column_entries_apply _ _ _ _ _ Ees).
  assert (exists filter, mapR (ask predicate) es = Ok filter
    /\ Forall2 (fun (b : bool) page => forall row, row ∈ page -> P row -> b = true) filter pages)
    as (filter & Ef & Hfilter).
  { clear - Hf2 Hpred. induction Hf2 as [|e page es pages [_ He] Hf2 IH]; [by exists []|].
    destruct (Hpred e page He) as (b & Eb & Hb), IH as (filter & Ef & Hfil).
    exists (b :: filter). cbn. rewrite Eb. cbn. rewrite Ef. split; [done|]. by constructor. }
  rewrite Ef. cbn. eexists _, cache'. split; [reflexivity|]. split; [done|].
  rewrite selection_from_mask, (column_entries_selectors _ _ _ _ _ Ees).
  - rewrite Hpages. apply keeps_pages; [|done].
    eapply Forall2_impl; [exact Hf2|]. intros e page [-> _]. lia.
  - apply Forall2_length in Hfilter. apply Forall2_length in Hf2. congruence.
Qed.

Lemma selects_impl (P Q : Struct -> Prop) run :
  (forall row, row ∈ rows -> Q row -> P row) -> selects P run -> selects Q run.
Proof.
  intros H S cache Hc. destruct (S cache Hc) as (s & cache' & E & Hc' & K).
  exists s, cache'. split; [done|]. split; [done|]. by eapply keeps_impl.
Qed.

End soundness.

(** ** Leaves *)

(** The page predicate of a leaf, and the answer for a column that the file lacks. *)
Definition leaf_page {V : ValueLib} (q : BoundPredicate) : option PagePredicate :=
  match q with
  | Unary PredicateOperator.IsNull _ => Some is_null_page
  | Unary PredicateOperator.NotNull _ => Some not_null_page
  | Binary PredicateOperator.LessThan _ d => Some (inequality_page d datum_lt true)
  | Binary PredicateOperator.LessThanOrEq _ d => Some (inequality_page d datum_le true)
  | Binary PredicateOperator.GreaterThan _ d => Some (inequality_page d datum_gt false)
  | Binary PredicateOperator.GreaterThanOrEq _ d => Some (inequality_page d datum_ge false)
  | Binary PredicateOperator.Eq _ d => Some (eq_page d)
  | Binary PredicateOperator.StartsWith _ (mkDatum _ (PrimitiveLiteral.String s)) =>
      Some (starts_with_page s)
  | Binary PredicateOperator.NotStartsWith _ (mkDatum _ (PrimitiveLiteral.String s)) =>
      Some (not_starts_with_page s)
  | SetP PredicateOperator.In _ ds => Some (in_page ds)
  | _ => None
  end.

Definition leaf_missing (q : BoundPredicate) : MissingColBehavior :=
  match q with
  | Unary PredicateOperator.NotNull _ | Binary PredicateOperator.Eq _ _
  | Binary PredicateOperator.StartsWith _ _ | SetP PredicateOperator.In _ _ => CantMatch
  | _ => MightMatch
  end.

(** What a leaf needs: each page of its column is described by its entry, with bounds that
    are not NaN; a column that the file lacks reads as null; and only floats are NaN. *)
Definition page_ok (q : BoundPredicate) (id : Z) (e : PageEntry) (page : list Struct) : Prop :=
  page <> [] /\ inU 64 (entry_rows e) = true
  /\ leaf_described (page_file id e) page q /\ bounds_not_nan (page_file id e) id.

Definition leaf_paged (ci : list ColumnIndexMetaData.t) (oi : list OffsetIndexMetaData)
    (rg : RowGroupMetaData) (m : gmap Z nat) (schema : Schema) (rows : list Struct)
    (q : BoundPredicate) : Prop :=
  match q with
  | Unary _ t | Binary _ t _ | SetP _ t _ =>
      let id := field_id (ref_field t) in
      column_paged ci oi rg m schema rows id (page_ok q id)
      /\ (m !! id = None -> forall row, row ∈ rows -> accessor_get (ref_accessor t) row = Ok None)
      /\ (is_floating_type (field_type (ref_field t)) = false ->
          forall row x, row ∈ rows -> accessor_get (ref_accessor t) row = Ok (Some x) ->
          Values.is_nan x = false)
      /\ match q with
         | Binary op _ d => is_prefix op = true -> is_ok (InclusiveMetrics.expect_string d) = true
         | _ => True
         end
  | _ => True
  end.

Definition is_leaf (q : BoundPredicate) : Prop :=
  match q with Unary _ _ | Binary _ _ _ | SetP _ _ _ => True | _ => False end.

(** Evaluating a described leaf on a row of its file succeeds. *)
Lemma leaf_reads {V : ValueLib} f rows row q :
  is_leaf q -> well_formed q = true -> leaf_described f rows q -> row ∈ rows ->
  exists b, eval_row q row = Ok b.
Proof.
  intros Hleaf Hw Hd Hrow.
  assert (forall t ty values, describes f rows t ty values ->
            exists v, accessor_get (ref_accessor t) row = Ok v) as Hread.
  { intros t ty values [Hm _]. destruct (mapR_lookup _ _ _ _ Hm Hrow) as (v & Hv & _). eauto. }
  assert (forall t some none, (exists v, accessor_get (ref_accessor t) row = Ok v) ->
            exists b, on_value t row some none = Ok b) as Hon.
  { intros t some none [v Hv]. unfold on_value. rewrite Hv. cbn. destruct v; eauto. }
  destruct q as [| | | | |op t|op t d|op t ds]; try done; cbn in Hd.
  - destruct Hd as (ty & values & D). apply Hread in D. destruct op; try done; by apply Hon.
  - destruct Hd as (ty & values & D & _). apply Hread in D. destruct op; try done; try (by apply Hon).
    destruct (Hon t (fun x => literal_starts_with x d) false D) as [b Hb].
    exists (negb b). unfold eval_row. cbn. by rewrite Hb.
  - destruct Hd as (ty & values & D & _). apply Hread in D. destruct op; try done; by apply Hon.
Qed.

(** So does evaluating a predicate without negation. *)
Lemma eval_reads {V : ValueLib} f rows row p :
  well_formed p = true -> not_free p = true -> leaves (leaf_described f rows) p -> row ∈ rows ->
  exists b, eval_row p row = Ok b.
Proof.
  induction p as [| |l IHl r IHr|l IHl r IHr|p IH|op t|op t d|op t ds]; cbn [well_formed not_free leaves];
    rewrite ?andb_true_iff; intros Hw Hn Hd Hrow; try done; try (by eapply leaf_reads); try (by eexists).
  - destruct Hw, Hn, Hd. destruct IHl as [a Ha], IHr as [b Hb]; try done.
    exists (a && b). unfold eval_row in *. cbn. by rewrite Ha, Hb.
  - destruct Hw, Hn, Hd. destruct IHl as [a Ha], IHr as [b Hb]; try done.
    exists (a || b). unfold eval_row in *. cbn. by rewrite Ha, Hb.
Qed.

Lemma eval_and {V : ValueLib} l r row :
  eval_row (And l r) row = Ok true -> eval_row l row = Ok true /\ eval_row r row = Ok true.
Proof.
  unfold eval_row. cbn. destruct (visit _ l) as [x|]; [|done]. cbn.
  destruct (visit _ r) as [y|]; [|done]. cbn. by intros [= [-> ->]%andb_true_iff].
Qed.
Lemma eval_or {V : ValueLib} l r row :
  eval_row (Or l r) row = Ok true -> eval_row l row = Ok true \/ eval_row r row = Ok true.
Proof.
  unfold eval_row. cbn. destruct (visit _ l) as [x|]; [|done]. cbn.
  destruct (visit _ r) as [y|]; [|done]. cbn. intros [= [-> | ->]%orb_true_iff]; eauto.
Qed.

Section leaves.
Context {V : ValueLib} {L : ValueLibLaws V}.

Lemma page_leaf_le q t p e page row :
  terms (fun u => u = t) q -> leaf_page q = Some p ->
  page_ok q (field_id (ref_field t)) e page -> row ∈ page ->
  answers_le (eval_row q row) (ask p e).
Proof.
  intros Ht Hp (_ & Hsize & Hd & Hn) Hrow.
  assert (answers_le (eval_row q row)
    (visit (InclusiveMetrics.InclusiveMetricsEvaluator (page_file (field_id (ref_field t)) e)) q)) as Hle.
  { apply (InclusiveMetrics.inclusive_leaf_sound _ page); [done..|]. by destruct q. }
  destruct q as [| | | | |op u|op u d|op u ds]; try done; cbn in Ht; subst u; cbn in Hd.
  - destruct Hd as (ty & values & D). destruct op; try done; injection Hp as <-.
    + unfold ask, is_null_page. destruct (is_none_null _) eqn:E; cbn [negb].
      * apply page_none_null in E. revert Hle. cbn. unfold InclusiveMetrics.visit_is_null.
        rewrite page_null_count, E. done.
      * destruct (eval_row _ row) as [b|]; [|done]. by exists true.
    + by rewrite (page_not_null e page t ty values D Hsize).
  - destruct Hd as (ty & values & D & Hl & Hr & _).
    destruct op; try done; try (injection Hp as <-);
      try (by rewrite (page_inequality e page t ty values D Hsize)).
    + by rewrite (page_eq e page t ty values D Hn Hsize).
    + destruct d as [dty []]; try done. injection Hp as <-.
      rewrite (page_starts_with e page t ty values D Hsize). exact Hle.
    + destruct d as [dty []]; try done. injection Hp as <-.
      destruct (page_not_starts_with e t s) as [-> | ->]; [|exact Hle].
      destruct (eval_row _ row) as [b|]; [|done]. by exists true.
  - destruct Hd as (ty & values & D & Hl & Hr & _). destruct op; try done. injection Hp as <-.
    by apply (page_in e page t ty values D Hn Hsize).
Qed.

Lemma page_leaf q t p e page :
  is_leaf q -> well_formed q = true -> terms (fun u => u = t) q -> leaf_page q = Some p ->
  page_ok q (field_id (ref_field t)) e page ->
  exists b, ask p e = Ok b /\ forall row, row ∈ page -> eval_row q row = Ok true -> b = true.
Proof.
  intros Hleaf Hw Ht Hp Hok.
  assert (forall row, row ∈ page -> exists b, ask p e = Ok b
            /\ (eval_row q row = Ok true -> b = true)) as Hrow.
  { intros row Hrow. pose proof (page_leaf_le q t p e page row Ht Hp Hok Hrow) as Hle.
    destruct Hok as (_ & _ & Hd & _). destruct (leaf_reads _ _ row q Hleaf Hw Hd Hrow) as [b Hb].
    rewrite Hb in Hle. destruct Hle as (b' & Hb' & Hbb). exists b'. split; [done|].
    rewrite Hb. intros [= ->]. auto. }
  destruct Hok as [Hne _]. destruct page as [|r0 page]; [done|].
  destruct (Hrow r0 ltac:(left)) as (b & Hb & _). exists b. split; [done|].
  intros row Hin Hev. destruct (Hrow row Hin) as (b' & Hb' & Hbb).
  rewrite Hb in Hb'. injection Hb' as <-. auto.
Qed.

(** A leaf that asks for a value is not true of a column that reads as null. *)
Lemma leaf_missing_false q t row :
  terms (fun u => u = t) q -> leaf_missing q = CantMatch ->
  accessor_get (ref_accessor t) row = Ok None -> eval_row q row <> Ok true.
Proof.
  intros Ht Hm Hnull. unfold eval_row.
  destruct q as [| | | | |op u|op u d|op u ds]; try done; cbn in Ht; subst u;
    destruct op; try done; cbn; unfold on_value; by rewrite Hnull.
Qed.

Context {R : RowSelections} {RL : RowSelectionLaws R}.
Context (ci : list ColumnIndexMetaData.t) (oi : list OffsetIndexMetaData)
        (rg : RowGroupMetaData) (m : gmap Z nat) (schema : Schema) (rows : list Struct).
Context (Hrows : num_rows rg = Z.of_nat (length rows)) (Hsize : inS 64 (num_rows rg) = true).

Lemma leaf_calc q t p :
  is_leaf q -> well_formed q = true -> terms (fun u => u = t) q -> leaf_page q = Some p ->
  leaf_paged ci oi rg m schema rows q ->
  selects oi rg rows (fun row => eval_row q row = Ok true)
    (calc_row_selection ci oi rg m schema (field_id (ref_field t)) p (leaf_missing q)).
Proof using L RL Hrows Hsize.
  intros Hleaf Hw Ht Hp Hpaged.
  assert (column_paged ci oi rg m schema rows (field_id (ref_field t)) (page_ok q (field_id (ref_field t)))
    /\ (m !! field_id (ref_field t) = None ->
        forall row, row ∈ rows -> accessor_get (ref_accessor t) row = Ok None)) as [Hcol Hnull].
  { destruct q; try done; cbn in Ht; subst; by destruct Hpaged as (? & ? & ?). }
  eapply calc_row_selection_sound; [done..|exact Hcol| |].
  - intros e page Hok. by apply (page_leaf q t p e page).
  - intros Hm Hc row Hrow. apply (leaf_missing_false q t); auto.
Qed.

Lemma leaf_sound q :
  is_leaf q -> well_formed q = true -> leaf_paged ci oi rg m schema rows q ->
  selects oi rg rows (fun row => eval_row q row = Ok true)
    (visit (PageIndexEvaluator ci oi rg m schema) q).
Proof using L RL Hrows Hsize.
  intros Hleaf Hw Hp.
  pose proof (fun t p => leaf_calc q t p Hleaf Hw) as Hcalc.
  pose proof (fun P => selects_all oi rg rows Hrows Hsize P) as Hall.
  destruct q as [| | | | |op t|op t d|op t ds]; try done; destruct op; try done;
    try (apply Hall);
    try (refine (Hcalc t _ eq_refl eq_refl Hp)).
  - cbn. unfold visit_is_nan. destruct (is_floating_type _) eqn:E; [apply Hall|].
    apply selects_none; [done..|]. intros row Hrow.
    destruct Hp as (_ & _ & Hnan & _). specialize (Hnan E row).
    unfold eval_row. cbn. unfold on_value. destruct (accessor_get _ row) as [[x|]|]; try done.
    cbn. intros [= Hx]. rewrite (Hnan x Hrow eq_refl) in Hx. done.
  - destruct Hp as (Hp1 & Hp2 & Hp3 & Hs). specialize (Hs eq_refl).
    destruct d as [dty []]; try done.
    refine (Hcalc t _ eq_refl eq_refl _). by repeat split.
  - destruct Hp as (Hp1 & Hp2 & Hp3 & Hs). specialize (Hs eq_refl).
    destruct d as [dty []]; try done.
    refine (Hcalc t _ eq_refl eq_refl _). by repeat split.
  - cbn. unfold visit_in. destruct (IN_PREDICATE_LIMIT <? _); [apply Hall|].
    refine (Hcalc t _ eq_refl eq_refl Hp).
Qed.

(** The visitor combines the selections of the leaves. *)
Lemma visit_sound filter :
  not_free filter = true -> well_formed filter = true ->
  leaves (leaf_paged ci oi rg m schema rows) filter ->
  selects oi rg rows (fun row => eval_row filter row = Ok true)
    (visit (PageIndexEvaluator ci oi rg m schema) filter).
Proof using L RL Hrows Hsize.
  induction filter as [| |l IHl r IHr|l IHl r IHr|p IH|op t|op t d|op t ds];
    intros Hn Hw Hp; try (by apply leaf_sound); try done.
  - by apply (selects_all oi rg rows Hrows Hsize).
  - by apply (selects_none oi rg rows Hrows Hsize).
  - cbn in Hn, Hw. apply andb_true_iff in Hn as [Hnl Hnr], Hw as [Hwl Hwr]. destruct Hp as [Hpl Hpr].
    intros c0 Hc0. destruct (IHl Hnl Hwl Hpl c0 Hc0) as (a & c1 & Ea & Hc1 & Ka).
    destruct (IHr Hnr Hwr Hpr c1 Hc1) as (b & c2 & Eb & Hc2 & Kb).
    eexists _, c2. cbn [visit]. rewrite (run_bind _ _ _ _ _ Ea), (run_bind _ _ _ _ _ Eb).
    split; [reflexivity|].
    split; [done|]. rewrite intersection_mask.
    2: { pose proof (Forall2_length _ _ _ Ka). pose proof (Forall2_length _ _ _ Kb). lia. }
    refine (keeps_zip _ _ _ _ _ _ _ _ Ka Kb). intros row x y Hx Hy.
    intros [Hl Hr]%eval_and. by rewrite (Hx Hl), (Hy Hr).
  - cbn in Hn, Hw. apply andb_true_iff in Hn as [Hnl Hnr], Hw as [Hwl Hwr]. destruct Hp as [Hpl Hpr].
    intros c0 Hc0. destruct (IHl Hnl Hwl Hpl c0 Hc0) as (a & c1 & Ea & Hc1 & Ka).
    destruct (IHr Hnr Hwr Hpr c1 Hc1) as (b & c2 & Eb & Hc2 & Kb).
    eexists _, c2. cbn [visit]. rewrite (run_bind _ _ _ _ _ Ea), (run_bind _ _ _ _ _ Eb).
    split; [reflexivity|].
    split; [done|]. rewrite union_mask.
    2: { pose proof (Forall2_length _ _ _ Ka). pose proof (Forall2_length _ _ _ Kb). lia. }
    refine (keeps_zip _ _ _ _ _ _ _ _ Ka Kb). intros row x y Hx Hy.
    intros [Hl|Hr]%eval_or; [by rewrite (Hx Hl)|]. by rewrite (Hy Hr), orb_true_r.
Qed.

End leaves.

(** The rows that the page index lets through include every matching row. *)
Lemma page_index_selects {V : ValueLib} {L : ValueLibLaws V} {R : RowSelections}
    {RL : RowSelectionLaws R} ci oi rg m schema rows filter :
  num_rows rg = Z.of_nat (length rows) -> inS 64 (num_rows rg) = true ->
  not_free filter = true -> well_formed filter = true ->
  leaves (leaf_paged ci oi rg m schema rows) filter ->
  exists selectors, page_index_eval ci oi rg m schema filter = Ok selectors
    /\ Forall2 (fun keep row => eval_row filter row = Ok true -> keep = true)
         (row_mask selectors) rows.
Proof.
  intros Hrows Hsize Hn Hw Hp. unfold page_index_eval. destruct (Z.eqb_spec (num_rows rg) 0) as [E|E].
  - exists []. split; [done|]. destruct rows; [constructor|]. cbn in Hrows. lia.
  - destruct (visit_sound ci oi rg m schema rows Hrows Hsize filter Hn Hw Hp ∅) as (s & c & Es & _ & K).
    { intros k counts. by rewrite lookup_empty. }
    rewrite Es. by eexists.
Qed.

(** ** Properties *)

(** The rows that the page index lets through include every matching row: evaluating a
    filter succeeds, with a selection that has a bit for each row of the row group, set
    wherever the row matches; whatever the order in which columns fill the row count cache. *)
Theorem page_index_sound {V : ValueLib} {L : ValueLibLaws V} {R : RowSelections}
    {RL : RowSelectionLaws R} ci oi rg m schema rows filter :
  num_rows rg = Z.of_nat (length rows) -> inS 64 (num_rows rg) = true ->
  not_free filter = true -> well_formed filter = true ->
  leaves (leaf_paged ci oi rg m schema rows) filter ->
  exists selectors, page_index_eval ci oi rg m schema filter = Ok selectors
    /\ Forall2 (fun keep row => eval_row filter row = Ok true -> keep = true)
         (row_mask selectors) rows.
Proof. apply page_index_selects. Qed.

(** ** An instance of row selections, and examples *)

Definition of_mask (mask : list bool) : list RowSelector :=
  (fun keep => mkRowSelector 1 (negb keep)) <$> mask.

Lemma of_mask_mask mask : row_mask (of_mask mask) = mask.
Proof.
  induction mask as [|b mask IH]; [done|].
  change (row_mask (of_mask (b :: mask))) with (negb (negb b) :: row_mask (of_mask mask)).
  by rewrite negb_involutive, IH.
Qed.

#[local] Instance concrete_selections : RowSelections := {
  RowSelection := list RowSelector;
  selection_from v := v;
  selection_iter v := v;
  selection_intersection a b := of_mask (zip_with andb (row_mask a) (row_mask b));
  selection_union a b := of_mask (zip_with orb (row_mask a) (row_mask b));
}.
#[local] Instance concrete_selection_laws : RowSelectionLaws concrete_selections.
Proof. split; intros; cbn; by rewrite ?of_mask_mask. Qed.

Section witnesses.
#[local] Existing Instance concrete_values.

(** The two rows of [ex_rows] as two pages of one row. *)
Definition ex_index : list ColumnIndexMetaData.t :=
  [ColumnIndexMetaData.INT32 (mkColumnIndex [Some 3; Some 8] [Some 3; Some 8] (fun _ => Some 0))].
Definition ex_offsets : list OffsetIndexMetaData := [mkOffsetIndexMetaData [0; 1]].
Definition ex_entry (n : Z) : PageEntry :=
  mkPageEntry (Some (datum_int n)) (Some (datum_int n)) (Some 0) 1.
Definition ex_row (n : Z) : Struct := [Some (LPrimitive (PrimitiveLiteral.Int n))].

Lemma ex_page_ok n k :
  inS 32 n = true -> inS 32 k = true -> page_ok (ex_greater k) 1 (ex_entry n) [ex_row n].
Proof.
  intros Hn Hk.
  assert (datum_wf (datum_int n) = true) as Hw by (unfold datum_wf; cbn; by rewrite Hn).
  assert (forall x, Some x ∈ [Some (datum_int n)] -> x = datum_int n) as Hin.
  { intros x [[= ->]|[]%not_elem_of_nil]%elem_of_cons; done. }
  pose proof (page_lower (ex_entry n) ex_term) as El.
  pose proof (page_upper (ex_entry n) ex_term) as Eu.
  cbn [field_id ref_field ex_term mkField entry_min entry_max ex_entry] in El, Eu.
  assert (bounds_not_nan (page_file 1 (ex_entry n)) 1) as Hb.
  { unfold bounds_not_nan. rewrite El, Eu. split; by intros b [= <-]. }
  split; [done|]. split; [done|]. split; [|exact Hb].
  exists PrimitiveType.Int, [Some (datum_int n)]. split.
  - split; [reflexivity|]. split; cbn [field_id ref_field ex_term mkField].
    + by intros x ->%Hin.
    + by intros j [= <-].
    + by intros j [= <-].
    + by intros j [=].
    + rewrite El. intros b [= <-].
      split; [done|]. split; [done|]. right. intros x ->%Hin _. apply lex_le_refl.
    + rewrite Eu. intros b [= <-].
      split; [done|]. split; [done|]. right. intros x ->%Hin _. apply lex_le_refl.
  - split; [split; [unfold datum_wf; cbn; by rewrite Hk|done]|].
    split; [by intros x ->%Hin|]. split; [|done]. intros _. split; [by intros x ->%Hin|exact Hb].
Qed.

Lemma ex_row_reads n : accessor_get (ref_accessor ex_term) (ex_row n) = Ok (Some (datum_int n)).
Proof. reflexivity. Qed.

Lemma ex_paged :
  leaf_paged ex_index ex_offsets ex_group ex_field_ids ex_group_schema [ex_row 3; ex_row 8]
    (ex_greater 5).
Proof.
  split; [|split; [done|split; [|done]]].
  2: { intros _ row x [->|[->|[]%not_elem_of_nil]%elem_of_cons]%elem_of_cons;
       rewrite ex_row_reads; by intros [= <-]. }
  unfold column_paged. eexists _, PrimitiveType.Int. split; [vm_compute; reflexivity|].
  split; [reflexivity|]. eexists. split; [reflexivity|]. right.
  exists [ex_entry 3; ex_entry 8], [[ex_row 3]; [ex_row 8]].
  split; [vm_compute; reflexivity|]. split; [done|].
  apply Forall2_cons_2; [|apply Forall2_cons_2; [|constructor]];
    (split; [done|]); by apply ex_page_ok.
Qed.

(** [a > 5] skips the first page and keeps the second. *)
Lemma page_index_sound_witness :
  page_index_eval ex_index ex_offsets ex_group ex_field_ids ex_group_schema (ex_greater 5)
  = Ok [selector_skip 1; selector_select 1]
  /\ exists selectors,
       page_index_eval ex_index ex_offsets ex_group ex_field_ids ex_group_schema (ex_greater 5)
       = Ok selectors
       /\ Forall2 (fun keep row => eval_row (ex_greater 5) row = Ok true -> keep = true)
            (row_mask selectors) [ex_row 3; ex_row 8].
Proof.
  split; [vm_compute; reflexivity|]. apply page_index_sound; try reflexivity. exact ex_paged.
Defined.

(** *** Deviations *)

Definition decimal_5_0 : PrimitiveType.t := PrimitiveType.Decimal 5 0.
Definition decimal_row : Struct := [Some (LPrimitive (PrimitiveLiteral.Int128 3))].
Definition column_term (ty : PrimitiveType.t) : BoundReference :=
  mkBoundReference "a" (mkField 1 "a" false (TPrimitive ty)) (accessor_new 0 ty).
Definition column_schema (ty : PrimitiveType.t) : Schema :=
  let field := mkField 1 "a" false (TPrimitive ty) in
  mkSchema [field] 0 1 ∅ [] {[1 := field]} {["a" := 1]} {["a" := 1]} {[1 := "a"]}
    {[1 := accessor_new 0 ty]}.
Definition one_row : RowGroupMetaData := mkRowGroupMetaData 1 [None] 100.

(** A decimal that Parquet stores as an INT32 is compared as an [Int] literal, which the
    order of [Datum] does not relate to a decimal: the page of a matching row is skipped. *)
Theorem decimal_pages_are_lost :
  let filter := Binary PredicateOperator.LessThan (column_term decimal_5_0)
                  (mkDatum decimal_5_0 (PrimitiveLiteral.Int128 5)) in
  let index := [ColumnIndexMetaData.INT32 (mkColumnIndex [Some 3] [Some 3] (fun _ => Some 0))] in
  eval_row filter decimal_row = Ok true
  /\ page_index_eval index [mkOffsetIndexMetaData [0]] one_row ex_field_ids
       (column_schema decimal_5_0) filter = Ok [selector_skip 1].
Proof. by vm_compute. Qed.

(** A binary column whose page bounds are not UTF-8 text panics; a UUID column is an error. *)
Theorem page_index_rejects_binary_and_uuid :
  let filter ty v := Binary PredicateOperator.Eq (column_term ty) (mkDatum ty v) in
  let binary := [ColumnIndexMetaData.BYTE_ARRAY (mkColumnIndex [Some [255]] [Some [255]] (fun _ => None))] in
  let uuid := [ColumnIndexMetaData.FIXED_LEN_BYTE_ARRAY] in
  page_index_eval binary [mkOffsetIndexMetaData [0]] one_row ex_field_ids
    (column_schema PrimitiveType.Binary)
    (filter PrimitiveType.Binary (PrimitiveLiteral.Binary [255])) = Err Panic
  /\ page_index_eval uuid [mkOffsetIndexMetaData [0]] one_row ex_field_ids
       (column_schema PrimitiveType.Uuid)
       (filter PrimitiveType.Uuid (PrimitiveLiteral.UInt128 0)) = Err (Error FeatureUnsupported).
Proof. by vm_compute. Qed.

End witnesses.
