(* ===== verification/DeleteVector.v ===== *)
(** * Delete vectors and the selection of the rows that are left

    delete_vector.rs and [build_deletes_row_selection] of arrow/reader.rs: the
    positions deleted from a data file become a row selection over its row groups.
    Roaring bitmaps are a parameter.  Correctness: the selection keeps exactly the
    rows that are not deleted, in files of fewer than 2^32 rows; beyond, the
    iterator's [advance_to] can lose deletes. *)

From stdpp Require Import list sorting.
From S2P Require Import Prelude Values.
From S2P Require Import ParquetStatistics RowGroupMetrics PageIndex.

(** ** Roaring bitmaps *)

(** [RoaringTreemap] with its [bitmaps], which lists the bitmaps of the high halves in
    ascending order, and the iterator of a [RoaringBitmap]. *)
Class Roaring := {
  RoaringTreemap : Type;
  RoaringBitmap : Type;
  BitIter : Type;
  bitmaps : RoaringTreemap -> list (Z * RoaringBitmap);
  bitmap_iter : RoaringBitmap -> BitIter;
  iter_next : BitIter -> option (Z * BitIter);
  iter_advance_to : BitIter -> Z -> BitIter;
}.

(** Its constructors and updates. *)
Class RoaringOps (R : Roaring) := {
  treemap_default : RoaringTreemap;
  treemap_insert : RoaringTreemap -> Z -> bool * RoaringTreemap;
  treemap_append : RoaringTreemap -> list Z -> option RoaringTreemap;
  treemap_or : RoaringTreemap -> RoaringTreemap -> RoaringTreemap;
  treemap_len : RoaringTreemap -> Z;
}.

(** The positions that are left in an iterator, the elements of a treemap. *)
Fixpoint drop_below (n : Z) (l : list Z) : list Z :=
  match l with
  | [] => []
  | x :: l' => if x <? n then drop_below n l' else l
  end.

Class RoaringLaws (R : Roaring) := {
  iter_elements : BitIter -> list Z;
  iter_next_elements it :
    match iter_elements it with
    | [] => iter_next it = None
    | x :: l => exists it', iter_next it = Some (x, it') /\ iter_elements it' = l
    end;
  iter_advance_elements it n : iter_elements (iter_advance_to it n) = drop_below n (iter_elements it);
  bitmaps_ascending t : StronglySorted Z.lt (bitmaps t).*1;
  bitmaps_ok t high b : (high, b) ∈ bitmaps t ->
    0 <= high < 2 ^ 32 /\ iter_elements (bitmap_iter b) <> []
    /\ StronglySorted Z.lt (iter_elements (bitmap_iter b))
    /\ forall low, low ∈ iter_elements (bitmap_iter b) -> 0 <= low < 2 ^ 32;
}.

(** The positions of a treemap, in ascending order. *)
Definition positions {R : Roaring} {RL : RoaringLaws R} (t : RoaringTreemap) : list Z :=
  concat ((fun '(high, b) => (fun low => high * 2 ^ 32 + low) <$> iter_elements (bitmap_iter b))
          <$> bitmaps t).

(** Changes to a treemap change its positions. *)
Class RoaringOpsLaws (R : Roaring) (RO : RoaringOps R) (RL : RoaringLaws R) := {
  treemap_default_positions : positions treemap_default = [];
  treemap_insert_positions t pos x : inU 64 pos = true ->
    x ∈ positions (snd (treemap_insert t pos)) <-> x = pos \/ x ∈ positions t;
  treemap_or_positions a b x :
    x ∈ positions (treemap_or a b) <-> x ∈ positions a \/ x ∈ positions b;
}.

Section delete_vector.
Context {R : Roaring}.

(** ** [DeleteVector] *)

Definition DeleteVector : Type := RoaringTreemap.

Context {RO : RoaringOps R}.

Definition delete_vector_insert (self : DeleteVector) (pos : Z) : bool * DeleteVector :=
  treemap_insert self pos.
Definition insert_positions (self : DeleteVector) (positions : list Z) : result (Z * DeleteVector) :=
  match treemap_append self positions with
  | Some inner => Ok (Z.of_nat (length positions), inner)
  | None => Err (Error PreconditionFailed)
  end.
Definition delete_vector_len (self : DeleteVector) : Z := treemap_len self.
Definition bitor_assign (self other : DeleteVector) : DeleteVector := treemap_or self other.

(** ** [DeleteVectorIterator] *)

Record DeleteVectorIterator := mkDeleteVectorIterator {
  outer : list (Z * RoaringBitmap);
  inner : option (Z * BitIter);
}.

Definition delete_vector_iter (self : DeleteVector) : DeleteVectorIterator :=
  mkDeleteVectorIterator (bitmaps self) None.

(** [u64::from(high_bits) << 32 | u64::from(low)]. *)
Definition position (high_bits low : Z) : Z := Z.lor (Z.shiftl high_bits 32) low.

(** [DeleteVectorIterator::next], on the fields: the recursion consumes [outer]. *)
Fixpoint next_from (outer : list (Z * RoaringBitmap)) (inner : option (Z * BitIter)) :
    option Z * DeleteVectorIterator :=
  let advance :=
    match outer with
    | (high_bits, next_bitmap) :: outer =>
        next_from outer (Some (high_bits, bitmap_iter next_bitmap))
    | [] => (None, mkDeleteVectorIterator [] inner)
    end in
  match inner with
  | Some (high_bits, it) =>
      match iter_next it with
      | Some (low, it') =>
          (Some (position high_bits low), mkDeleteVectorIterator outer (Some (high_bits, it')))
      | None => advance
      end
  | None => advance
  end.
Definition iterator_next (self : DeleteVectorIterator) : option Z * DeleteVectorIterator :=
  next_from (outer self) (inner self).

(** The [while] of [advance_to]: [None] where it returns early. *)
Fixpoint skip_bitmaps (hi : Z) (outer : list (Z * RoaringBitmap)) (high_bits : Z) (it : BitIter) :
    DeleteVectorIterator + (list (Z * RoaringBitmap) * Z * BitIter) :=
  if high_bits <? hi then
    match outer with
    | [] => inl (mkDeleteVectorIterator [] (Some (high_bits, it)))
    | (next_hi, next_bitmap) :: outer => skip_bitmaps hi outer next_hi (bitmap_iter next_bitmap)
    end
  else inr (outer, high_bits, it).

Definition advance_to (self : DeleteVectorIterator) (pos : Z) : DeleteVectorIterator :=
  let hi := wrapU 32 (Z.shiftr pos 32) in
  let lo := wrapU 32 pos in
  match inner self with
  | None => self
  | Some (high_bits, it) =>
      match skip_bitmaps hi (outer self) high_bits it with
      | inl returned => returned
      | inr (outer, high_bits, it) =>
          mkDeleteVectorIterator outer (Some (high_bits, iter_advance_to it lo))
      end
  end.

(** ** [build_deletes_row_selection]

    [fuel] bounds the iterations of the two [while] loops; running out of it is [None].
    The positions stay below the end of the row group, so nothing else overflows. *)

(** The inner [while], from [run_length] on; a [None] for the next position is the exit by
    [break 'chunks]. *)
Fixpoint skip_run (fuel : nat) (delete_vector_iter : DeleteVectorIterator)
    (next_deleted_row_idx current_idx run_length next_row_group_base_idx : Z) :
    option (DeleteVectorIterator * option Z * Z * Z) :=
  match fuel with
  | O => None
  | S fuel =>
      if (next_deleted_row_idx =? current_idx) && (next_deleted_row_idx <? next_row_group_base_idx)
      then
        let run_length := run_length + 1 in
        let current_idx := current_idx + 1 in
        match iterator_next delete_vector_iter with
        | (Some next_deleted_row_idx, delete_vector_iter) =>
            skip_run fuel delete_vector_iter next_deleted_row_idx current_idx run_length
              next_row_group_base_idx
        | (None, delete_vector_iter) => Some (delete_vector_iter, None, current_idx, run_length)
        end
      else Some (delete_vector_iter, Some next_deleted_row_idx, current_idx, run_length)
  end.

(** The loop ['chunks]: the selectors pushed, and [current_idx] after it. *)
Fixpoint chunks (fuel : nat) (delete_vector_iter : DeleteVectorIterator)
    (next_deleted_row_idx current_idx next_row_group_base_idx : Z) :
    option (list RowSelector * Z * DeleteVectorIterator * option Z) :=
  match fuel with
  | O => None
  | S fuel =>
      if next_deleted_row_idx <? next_row_group_base_idx then
        let selected :=
          if current_idx <? next_deleted_row_idx
          then [selector_select (next_deleted_row_idx - current_idx)] else [] in
        let current_idx :=
          if current_idx <? next_deleted_row_idx then next_deleted_row_idx else current_idx in
        match skip_run (S fuel) delete_vector_iter next_deleted_row_idx current_idx 0
                next_row_group_base_idx with
        | None => None
        | Some (delete_vector_iter, None, current_idx, run_length) =>
            Some (selected ++ [selector_skip run_length], current_idx, delete_vector_iter, None)
        | Some (delete_vector_iter, Some next_deleted_row_idx, current_idx, run_length) =>
            let skipped := if 0 <? run_length then [selector_skip run_length] else [] in
            match chunks fuel delete_vector_iter next_deleted_row_idx current_idx
                    next_row_group_base_idx with
            | None => None
            | Some (rest, current_idx, delete_vector_iter, next_opt) =>
                Some (selected ++ skipped ++ rest, current_idx, delete_vector_iter, next_opt)
            end
        end
      else Some ([], current_idx, delete_vector_iter, Some next_deleted_row_idx)
  end.

(** The body of the [for] for a row group that is read. *)
Definition delete_row_group (fuel : nat) (delete_vector_iter : DeleteVectorIterator)
    (next_deleted_row_idx_opt : option Z) (current_row_group_base_idx row_group_num_rows : Z) :
    option (list RowSelector * DeleteVectorIterator * option Z) :=
  let next_row_group_base_idx := wrapU 64 (current_row_group_base_idx + row_group_num_rows) in
  match next_deleted_row_idx_opt with
  | None => Some ([selector_select row_group_num_rows], delete_vector_iter, None)
  | Some next_deleted_row_idx =>
      if next_row_group_base_idx <=? next_deleted_row_idx
      then Some ([selector_select row_group_num_rows], delete_vector_iter, next_deleted_row_idx_opt)
      else
        match chunks fuel delete_vector_iter next_deleted_row_idx current_row_group_base_idx
                next_row_group_base_idx with
        | None => None
        | Some (pushed, current_idx, delete_vector_iter, next_opt) =>
            let last :=
              if current_idx <? next_row_group_base_idx
              then [selector_select (next_row_group_base_idx - current_idx)] else [] in
            Some (pushed ++ last, delete_vector_iter, next_opt)
        end
  end.

(** The branch of the [for] for a row group that is not selected. *)
Definition skip_row_group (delete_vector_iter : DeleteVectorIterator)
    (next_deleted_row_idx_opt : option Z) (next_row_group_base_idx : Z) :
    DeleteVectorIterator * option Z :=
  let delete_vector_iter := advance_to delete_vector_iter next_row_group_base_idx in
  match next_deleted_row_idx_opt with
  | Some cached_idx =>
      if cached_idx <? next_row_group_base_idx
      then let '(next, delete_vector_iter) := iterator_next delete_vector_iter in
           (delete_vector_iter, next)
      else (delete_vector_iter, next_deleted_row_idx_opt)
  | None => (delete_vector_iter, next_deleted_row_idx_opt)
  end.

(** The [for] over the row groups from [idx] on; [selected] is what
    [selected_row_groups[selected_row_groups_idx..]] has left. *)
Fixpoint delete_row_groups (fuel : nat) (row_groups : list RowGroupMetaData) (idx : nat)
    (selected_row_groups : option (list nat)) (current_row_group_base_idx : Z)
    (delete_vector_iter : DeleteVectorIterator) (next_deleted_row_idx_opt : option Z) :
    option (list RowSelector) :=
  match row_groups with
  | [] => Some []
  | row_group_metadata :: row_groups =>
      let row_group_num_rows := wrapU 64 (num_rows row_group_metadata) in
      let next_row_group_base_idx := wrapU 64 (current_row_group_base_idx + row_group_num_rows) in
      let read selected_row_groups :=
        match delete_row_group fuel delete_vector_iter next_deleted_row_idx_opt
                current_row_group_base_idx row_group_num_rows with
        | None => None
        | Some (pushed, delete_vector_iter, next_opt) =>
            (fun rest => pushed ++ rest)
            <$> delete_row_groups fuel row_groups (S idx) selected_row_groups
                  next_row_group_base_idx delete_vector_iter next_opt
        end in
      match selected_row_groups with
      | None => read None
      | Some [] => Some []
      | Some (selected :: rest) =>
          if (idx =? selected)%nat then read (Some rest)
          else
            let '(delete_vector_iter, next_opt) :=
              skip_row_group delete_vector_iter next_deleted_row_idx_opt next_row_group_base_idx in
            delete_row_groups fuel row_groups (S idx) selected_row_groups
              next_row_group_base_idx delete_vector_iter next_opt
      end
  end.

Definition build_deletes_row_selection {S : RowSelections} (fuel : nat)
    (row_group_metadata_list : list RowGroupMetaData) (selected_row_groups : option (list nat))
    (positional_deletes : DeleteVector) : option RowSelection :=
  let '(next_deleted_row_idx_opt, delete_vector_iter) :=
    iterator_next (delete_vector_iter positional_deletes) in
  selection_from <$> delete_row_groups fuel row_group_metadata_list 0 selected_row_groups 0
    delete_vector_iter next_deleted_row_idx_opt.

End delete_vector.

(** ** The iterator *)

Lemma position_add high low : 0 <= low < 2 ^ 32 -> position high low = high * 2 ^ 32 + low.
Proof.
  intros H. unfold position. rewrite Z.shiftl_mul_pow2 by lia. symmetry. apply Z.add_nocarry_lor.
  apply Z.bits_inj'. intros n Hn. rewrite Z.land_spec, Z.bits_0.
  destruct (decide (n < 32)) as [Hlt|Hge].
  - by rewrite Z.mul_pow2_bits_low.
  - rewrite <- (Z.mod_small low (2 ^ 32)) by lia. rewrite Z.mod_pow2_bits_high by lia.
    apply andb_false_r.
Qed.

Section iterator.
Context {R : Roaring} {RL : RoaringLaws R}.

(** What is left of an iterator. *)
Definition remaining (it : DeleteVectorIterator) : list Z :=
  match inner it with
  | Some (high, i) => (fun low => high * 2 ^ 32 + low) <$> iter_elements i
  | None => []
  end
  ++ concat ((fun '(high, b) => (fun low => high * 2 ^ 32 + low) <$> iter_elements (bitmap_iter b))
             <$> outer it).

Definition iterator_ok (it : DeleteVectorIterator) : Prop :=
  (forall high i low, inner it = Some (high, i) -> low ∈ iter_elements i -> 0 <= low < 2 ^ 32)
  /\ (forall high b low, (high, b) ∈ outer it -> low ∈ iter_elements (bitmap_iter b) ->
        0 <= low < 2 ^ 32).

Lemma iter_ok t : iterator_ok (delete_vector_iter t) /\ remaining (delete_vector_iter t) = positions t.
Proof.
  split; [|done]. split; [done|]. intros high b low Hb Hlow.
  by apply (proj2 (proj2 (proj2 (bitmaps_ok t high b Hb)))).
Qed.

(** [next] takes the first of the remaining positions. *)
Lemma iterator_next_remaining it :
  iterator_ok it ->
  match remaining it with
  | [] => exists it', iterator_next it = (None, it') /\ remaining it' = [] /\ iterator_ok it'
  | x :: l => exists it', iterator_next it = (Some x, it') /\ remaining it' = l /\ iterator_ok it'
  end.
Proof.
  destruct it as [outer inner]. unfold iterator_next. cbn [DeleteVector.outer DeleteVector.inner].
  revert inner. induction outer as [|[high b] outer IH]; intros inner [Hin Hout].
  - unfold remaining. cbn [DeleteVector.outer DeleteVector.inner]. cbn [fmap list_fmap concat].
    rewrite app_nil_r. destruct inner as [[h i]|]; [|by eexists].
    pose proof (iter_next_elements i) as Hn. cbn [next_from].
    destruct (iter_elements i) as [|x l] eqn:E; cbn [fmap list_fmap].
    + rewrite Hn. eexists. split; [reflexivity|]. cbn. by rewrite E.
    + destruct Hn as (i' & -> & El). eexists. rewrite position_add.
      2: { apply (Hin h i); [done|]. rewrite E. left. }
      split; [reflexivity|]. cbn. rewrite app_nil_r, El. split; [done|]. split; [|done].
      intros ? ? low [= <- <-] Hlow. apply (Hin h i); [done|]. rewrite E. right. by rewrite <- El.
  - assert (iterator_ok (mkDeleteVectorIterator outer (Some (high, bitmap_iter b)))) as Hok.
    { split; cbn.
      - intros ? ? low [= <- <-] Hlow. apply (Hout high b low); [left|done].
      - intros h b' low Hb. apply (Hout h b' low). by right. }
    specialize (IH (Some (high, bitmap_iter b)) Hok).
    unfold remaining in *. cbn [DeleteVector.outer DeleteVector.inner] in *. cbn [fmap list_fmap concat].
    destruct inner as [[h i]|]; [|exact IH].
    pose proof (iter_next_elements i) as Hn. cbn [next_from].
    destruct (iter_elements i) as [|x l] eqn:E; cbn [fmap list_fmap].
    + rewrite Hn. exact IH.
    + destruct Hn as (i' & -> & El). eexists. rewrite position_add.
      2: { apply (Hin h i); [done|]. rewrite E. left. }
      split; [reflexivity|]. cbn. rewrite El. split; [done|]. split; [|exact Hout].
      intros ? ? low [= <- <-] Hlow. apply (Hin h i); [done|]. rewrite E. right. by rewrite <- El.
Qed.

(** In a file of fewer than 2^32 rows one bitmap holds all positions. *)
Definition small (it : DeleteVectorIterator) : Prop :=
  outer it = [] /\ (forall high i, inner it = Some (high, i) -> high = 0) /\ iterator_ok it.

Lemma small_bitmaps t :
  (forall x, x ∈ positions t -> x < 2 ^ 32) -> bitmaps t = [] \/ exists b, bitmaps t = [(0, b)].
Proof.
  intros Hsmall.
  assert (forall high b, (high, b) ∈ bitmaps t -> high = 0) as Hzero.
  { intros high b Hb. destruct (bitmaps_ok t high b Hb) as (Hh & Hne & _ & Hr).
    destruct (iter_elements (bitmap_iter b)) as [|low l] eqn:E; [done|].
    assert (high * 2 ^ 32 + low ∈ positions t) as Hx.
    { unfold positions. apply list_elem_of_In, in_concat.
      exists ((fun low => high * 2 ^ 32 + low) <$> iter_elements (bitmap_iter b)).
      rewrite <- !list_elem_of_In. split.
      - apply list_elem_of_fmap. by exists (high, b).
      - apply list_elem_of_fmap. exists low. split; [done|]. rewrite E. left. }
    apply Hsmall in Hx. specialize (Hr low ltac:(left)). lia. }
  pose proof (bitmaps_ascending t) as Ha.
  destruct (bitmaps t) as [|[h b] [|[h' b'] rest]]; [by left| |].
  - right. exists b. rewrite (Hzero h b); [done|left].
  - exfalso. cbn in Ha. apply StronglySorted_inv in Ha as [_ Hf]. apply Forall_inv in Hf.
    rewrite (Hzero h b), (Hzero h' b') in Hf; [lia|right; left|left].
Qed.

Lemma next_small it : small it -> small (snd (iterator_next it)).
Proof.
  intros (Ho & Hh & Hok). pose proof (iterator_next_remaining it Hok) as Hn.
  assert (iterator_ok (snd (iterator_next it))) as Hok'.
  { destruct (remaining it); destruct Hn as (it' & -> & _ & ?); done. }
  destruct it as [out inn]. cbn in Ho, Hh. subst out. unfold iterator_next in *. cbn in *.
  destruct inn as [[h i]|]; [|by split].
  destruct (iter_next i) as [[low i']|] eqn:E; cbn in *; split; [done| |done|]; split; try done.
  - intros ? ? [= <- <-]. by eapply Hh.
Qed.

Lemma start_small t :
  (forall x, x ∈ positions t -> x < 2 ^ 32) -> small (snd (iterator_next (delete_vector_iter t))).
Proof.
  intros Hs. destruct (iter_ok t) as [Hok Hr].
  pose proof (iterator_next_remaining _ Hok) as Hn.
  assert (iterator_ok (snd (iterator_next (delete_vector_iter t)))) as Hok'.
  { destruct (remaining _); destruct Hn as (it' & -> & _ & ?); done. }
  unfold delete_vector_iter, iterator_next in *. cbn in *.
  destruct (small_bitmaps t Hs) as [E | [b E]]; rewrite E in *; cbn in *; [by split|].
  destruct (iter_next (bitmap_iter b)) as [[low i']|] eqn:En; cbn in *.
  - split; [done|]. split; [|done]. by intros ? ? [= <- <-].
  - split; [done|]. split; [|done]. by intros ? ? [= <- <-].
Qed.

Lemma drop_below_shift n l : drop_below n ((fun low => 0 * 2 ^ 32 + low) <$> l)
  = (fun low => 0 * 2 ^ 32 + low) <$> drop_below n l.
Proof.
  induction l as [|x l IH]; [done|]. cbn [fmap list_fmap drop_below].
  rewrite Z.mul_0_l, Z.add_0_l. by destruct (x <? n).
Qed.

Lemma drop_below_elem n l x : x ∈ drop_below n l -> x ∈ l.
Proof.
  induction l as [|y l IH]; cbn; [done|]. destruct (y <? n); [|done].
  intros H. right. auto.
Qed.

(** There [advance_to] moves to the first position that is not below. *)
Lemma advance_small it pos :
  small it -> 0 <= pos < 2 ^ 32 ->
  small (advance_to it pos) /\ remaining (advance_to it pos) = drop_below pos (remaining it).
Proof.
  intros (Ho & Hh & Hok) Hpos. destruct it as [out inn]. cbn in Ho. subst out.
  unfold advance_to. cbn [inner outer]. destruct inn as [[h i]|]; [|done].
  assert (h = 0) as -> by (by eapply Hh).
  rewrite Z.shiftr_div_pow2, (Z.div_small pos) by lia. cbn [skip_bitmaps].
  change (wrapU 32 0) with 0. cbn [Z.ltb Z.compare]. rewrite wrapU_id by (apply inU_spec; lia).
  unfold remaining. cbn [inner outer]. cbn [fmap list_fmap concat]. rewrite !app_nil_r.
  rewrite iter_advance_elements, <- drop_below_shift. split; [|done].
  split; [done|]. split; [by intros ? ? [= <- <-]|]. split; [|by intros ? ? ? ?%not_elem_of_nil].
  cbn. intros ? ? low [= <- <-]. rewrite iter_advance_elements. intros Hl%drop_below_elem.
  by eapply (proj1 Hok).
Qed.

End iterator.

(** ** The mask of the rows that are left *)

(** The rows [a .. a + n - 1] that are not in [deleted]. *)
Definition kept_mask (deleted : list Z) (a n : Z) : list bool :=
  (fun i => negb (bool_decide (i ∈ deleted))) <$> seqZ a n.

Lemma kept_mask_app deleted a n m :
  0 <= n -> 0 <= m -> kept_mask deleted a (n + m) = kept_mask deleted a n ++ kept_mask deleted (a + n) m.
Proof. intros. unfold kept_mask. by rewrite seqZ_app, fmap_app. Qed.

Lemma kept_mask_ext l l' a n :
  (forall i, a <= i < a + n -> i ∈ l <-> i ∈ l') -> kept_mask l a n = kept_mask l' a n.
Proof.
  intros H. apply list_fmap_ext. intros k i Hi%lookup_seqZ. f_equal. apply bool_decide_ext. apply H. lia.
Qed.

Lemma kept_mask_const (b : bool) l a n :
  (forall i, a <= i < a + n -> bool_decide (i ∈ l) = negb b) ->
  kept_mask l a n = replicate (Z.to_nat n) b.
Proof.
  intros H. unfold kept_mask. apply list_eq. intros k. rewrite list_lookup_fmap.
  destruct (decide (Z.of_nat k < n)) as [Hk|Hk].
  - rewrite lookup_seqZ_lt by lia. cbn. rewrite H, negb_involutive by lia.
    symmetry. apply lookup_replicate_2. lia.
  - rewrite lookup_seqZ_ge by lia. symmetry. apply lookup_replicate_None. lia.
Qed.

Lemma row_mask_app a b : row_mask (a ++ b) = row_mask a ++ row_mask b.
Proof. induction a as [|s a IH]; [done|]. cbn. by rewrite IH, app_assoc. Qed.

Lemma row_mask_select n : row_mask [selector_select n] = replicate (Z.to_nat n) true.
Proof. cbn. apply app_nil_r. Qed.
Lemma row_mask_skip n : row_mask [selector_skip n] = replicate (Z.to_nat n) false.
Proof. cbn. apply app_nil_r. Qed.

(** Selecting [a .. b - 1] where nothing is deleted. *)
Lemma select_range l a b :
  a <= b -> (forall i, a <= i < b -> ~ i ∈ l) ->
  row_mask (if a <? b then [selector_select (b - a)] else []) = kept_mask l a (b - a).
Proof.
  intros Hab H. rewrite (kept_mask_const true).
  2: { intros i Hi. apply bool_decide_false. apply H. lia. }
  destruct (Z.ltb_spec a b); [apply row_mask_select|]. by replace (b - a) with 0 by lia.
Qed.

Section selection.
Context {R : Roaring} {RL : RoaringLaws R}.

(** The cached position and the iterator together give the positions [s] that are left. *)
Definition stream (next : option Z) (it : DeleteVectorIterator) (s : list Z) : Prop :=
  small it /\ match next with None => s = [] | Some x => s = x :: remaining it end.

Lemma stream_next it :
  small it -> exists next it', iterator_next it = (next, it') /\ stream next it' (remaining it).
Proof.
  intros Hs. pose proof (next_small it Hs) as Hs'. destruct Hs as (_ & _ & Hok).
  pose proof (iterator_next_remaining it Hok) as Hn.
  destruct (remaining it) as [|x l]; destruct Hn as (it' & E & Hr & _); rewrite E in *;
    eexists _, it'; (split; [reflexivity|]); (split; [done|]); by rewrite ?Hr.
Qed.

(** Ascending positions, none below [n]. *)
Definition ascending (n : Z) (s : list Z) : Prop := StronglySorted Z.lt s /\ Forall (Z.le n) s.

Lemma ascending_cons n x s : ascending n (x :: s) -> n <= x /\ ascending (x + 1) s.
Proof.
  intros [[Hs Hf]%StronglySorted_inv [Hx _]%Forall_cons]. split; [done|]. split; [done|].
  eapply Forall_impl; [exact Hf|]. cbn. lia.
Qed.

Lemma ascending_not n s i : ascending n s -> i < n -> ~ i ∈ s.
Proof. intros [_ Hf] Hi Hin. rewrite Forall_forall in Hf. specialize (Hf i Hin). lia. Qed.

Lemma drop_below_ascending n m s : ascending n s -> ascending m (drop_below m s).
Proof.
  revert n. induction s as [|x s IH]; intros n H; [by split; constructor|]. cbn.
  pose proof (ascending_cons _ _ _ H) as [_ H']. destruct (Z.ltb_spec x m); [by apply (IH (x + 1))|].
  destruct H as [Hs _]. split; [done|]. constructor; [done|].
  destruct H' as [_ Hf]. eapply Forall_impl; [exact Hf|]. cbn. lia.
Qed.

Lemma drop_below_none n s : ascending n s -> drop_below n s = s.
Proof. destruct s as [|x s]; [done|]. intros [Hx _]%ascending_cons. cbn. by destruct (Z.ltb_spec x n); [lia|]. Qed.

Lemma drop_below_drop n m s : n <= m -> drop_below m (drop_below n s) = drop_below m s.
Proof.
  intros Hnm. induction s as [|x s IH]; [done|]. cbn. destruct (Z.ltb_spec x n); [|done].
  rewrite IH. by destruct (Z.ltb_spec x m); [|lia].
Qed.

Lemma drop_below_in n s i : n <= i -> i ∈ drop_below n s <-> i ∈ s.
Proof.
  intros Hi. induction s as [|x s IH]; [done|]. cbn. destruct (Z.ltb_spec x n); [|done].
  rewrite IH, elem_of_cons. intuition lia.
Qed.

(** The inner loop consumes a run of consecutive positions. *)
Lemma skip_run_ok fuel it next cur run e :
  small it -> ascending cur (next :: remaining it) -> cur <= e -> (length (remaining it) < fuel)%nat ->
  exists it' next' cur' s',
    skip_run fuel it next cur run e = Some (it', next', cur', run + (cur' - cur))
    /\ cur <= cur' <= e /\ stream next' it' s' /\ next :: remaining it = seqZ cur (cur' - cur) ++ s'
    /\ ascending cur' s' /\ (cur < cur' \/ (next' = Some next /\ it' = it /\ cur' = cur))
    /\ (next = cur -> next < e -> cur < cur').
Proof.
  revert it next cur run. induction fuel as [|fuel IH]; intros it next cur run Hs Ha Hcur Hf; [lia|].
  cbn [skip_run]. destruct (_ && _) eqn:E.
  2: { exists it, (Some next), cur, (next :: remaining it). rewrite Z.sub_diag, Z.add_0_r.
       split; [done|]. split; [lia|]. split; [by split|]. split; [done|]. split; [done|].
       split; [by right|]. intros -> Hlt. exfalso. rewrite Z.eqb_refl in E. cbn in E.
       apply Z.ltb_ge in E. lia. }
  apply andb_true_iff in E as [->%Z.eqb_eq Hlt%Z.ltb_lt].
  pose proof (ascending_cons _ _ _ Ha) as [_ Ha'].
  destruct (stream_next it Hs) as (nx & it' & En & [Hs' Hnx]). rewrite En.
  assert (seqZ cur 1 = [cur]) as H1 by done.
  destruct nx as [x|].
  - rewrite Hnx in Ha'. destruct (IH it' x (cur + 1) (run + 1) Hs' Ha' ltac:(lia)) as
      (it'' & next' & cur' & s' & E & Hc & Hst & Heq & Has & _ & _).
    { rewrite Hnx in Hf. cbn in Hf. lia. }
    exists it'', next', cur', s'. rewrite E. split; [do 2 f_equal; lia|]. split; [lia|].
    split; [done|]. split; [|split; [done|split; [left; lia|lia]]].
    rewrite Hnx, Heq. replace (cur' - cur) with (1 + (cur' - (cur + 1))) by lia.
    rewrite seqZ_app, H1 by lia. done.
  - exists it', None, (cur + 1), []. split; [do 2 f_equal; lia|]. split; [lia|].
    split; [by split|]. replace (cur + 1 - cur) with 1 by lia. rewrite H1, Hnx.
    split; [done|]. split; [by split; constructor|]. split; [left; lia|lia].
Qed.

Lemma drop_below_app e l s : Forall (fun x => x < e) l -> drop_below e (l ++ s) = drop_below e s.
Proof. induction 1 as [|x l Hx Hl IH]; [done|]. cbn. by rewrite (proj2 (Z.ltb_lt _ _) Hx). Qed.

Lemma seqZ_below a n e : a + n <= e -> Forall (fun x => x < e) (seqZ a n).
Proof. intros H. apply Forall_forall. intros x Hx%elem_of_seqZ. lia. Qed.

(** A run of deleted positions and what follows it. *)
Lemma kept_mask_run a n s b :
  0 <= n -> a + n <= b -> ascending (a + n) s ->
  kept_mask (seqZ a n ++ s) a (b - a) = replicate (Z.to_nat n) false ++ kept_mask s (a + n) (b - (a + n)).
Proof.
  intros Hn Hb Ha. replace (b - a) with (n + (b - (a + n))) by lia. rewrite kept_mask_app by lia. f_equal.
  - apply kept_mask_const. intros i Hi. apply bool_decide_true. rewrite elem_of_app, elem_of_seqZ. by left.
  - apply kept_mask_ext. intros i Hi. rewrite elem_of_app, elem_of_seqZ. intuition lia.
Qed.

Lemma chunks_ok fuel it next cur e :
  small it -> ascending cur (next :: remaining it) -> cur <= e -> (length (remaining it) < fuel)%nat ->
  exists pushed cur' it' next',
    chunks fuel it next cur e = Some (pushed, cur', it', next') /\ cur <= cur' <= e
    /\ stream next' it' (drop_below e (next :: remaining it))
    /\ row_mask (pushed ++ if cur' <? e then [selector_select (e - cur')] else [])
       = kept_mask (next :: remaining it) cur (e - cur).
Proof.
  revert it next cur. induction fuel as [|fuel IH]; intros it next cur Hs Ha Hcur Hf; [lia|].
  cbn [chunks]. destruct (Z.ltb_spec next e) as [Hlt|Hge].
  2: { exists [], cur, it, (Some next). split; [done|]. split; [lia|]. split.
       - split; [done|]. cbn. by destruct (Z.ltb_spec next e); [lia|].
       - cbn [app]. apply select_range; [done|]. intros i Hi.
         apply ascending_cons in Ha as [Hn Ha]. rewrite elem_of_cons. intros [->|Hin]; [lia|].
         eapply ascending_not; [exact Ha| |exact Hin]. lia. }
  pose proof (ascending_cons _ _ _ Ha) as [Hn Ha'].
  set (s := next :: remaining it) in *.
  assert (row_mask (if cur <? next then [selector_select (next - cur)] else [])
          = kept_mask s cur (next - cur)) as Hsel.
  { apply select_range; [done|]. intros i Hi. unfold s. rewrite elem_of_cons.
    intros [->|Hin]; [lia|]. eapply ascending_not; [exact Ha'| |exact Hin]. lia. }
  replace (if cur <? next then next else cur) with next by (destruct (Z.ltb_spec cur next); lia).
  assert (ascending next s) as Hanext.
  { destruct Ha as [Hsort _]. split; [done|]. constructor; [done|]. destruct Ha' as [_ Hall].
    eapply Forall_impl; [exact Hall|]. cbn. lia. }
  destruct (skip_run_ok (S fuel) it next next 0 e Hs Hanext ltac:(lia) Hf)
    as (it' & next' & c & s' & E & Hc & [Hs' Hst] & Heq & Has & _ & Hprog).
  rewrite E, Z.add_0_l. specialize (Hprog eq_refl Hlt). fold s in Heq.
  assert (kept_mask s cur (e - cur) = kept_mask s cur (next - cur)
            ++ replicate (Z.to_nat (c - next)) false ++ kept_mask s' c (e - c)) as Hmask.
  { replace (e - cur) with ((next - cur) + (e - next)) by lia. rewrite kept_mask_app by lia.
    f_equal. replace (cur + (next - cur)) with next by lia. rewrite Heq.
    rewrite kept_mask_run; [|lia|lia|by replace (next + (c - next)) with c by lia].
    by replace (next + (c - next)) with c by lia. }
  assert (drop_below e s = drop_below e s') as Hdrop.
  { rewrite Heq. apply drop_below_app, seqZ_below. lia. }
  destruct next' as [x|].
  - assert (length (remaining it') < fuel)%nat as Hlen.
    { apply (f_equal length) in Heq. rewrite length_app, length_seqZ, Hst in Heq. unfold s in Heq.
      cbn in Heq. lia. }
    rewrite Hst in Has. destruct (IH it' x c Hs' Has ltac:(lia) Hlen)
      as (rest & c' & it'' & next'' & -> & Hc' & Hst'' & Hm).
    rewrite (proj2 (Z.ltb_lt 0 (c - next))) by lia.
    eexists _, c', it'', next''. split; [reflexivity|]. split; [lia|]. split.
    { by rewrite Hdrop, Hst. }
    rewrite Hmask, Hst, <- !app_assoc, !row_mask_app, Hsel, row_mask_skip.
    rewrite row_mask_app in Hm. by rewrite Hm.
  - eexists _, c, it', None. split; [reflexivity|]. split; [lia|]. split.
    { split; [done|]. by rewrite Hdrop, Hst. }
    rewrite Hmask, <- !app_assoc, !row_mask_app, Hsel, row_mask_skip. do 2 f_equal.
    apply select_range; [lia|]. intros i _. rewrite Hst. apply not_elem_of_nil.
Qed.

(** ** Row groups *)

(** The selection of a row group that is read keeps the rows that are not deleted. *)
Lemma delete_row_group_ok fuel it next base n s :
  stream next it s -> ascending base s -> 0 <= base -> 0 <= n -> base + n < 2 ^ 32 ->
  (length s <= fuel)%nat ->
  exists pushed it' next', delete_row_group fuel it next base n = Some (pushed, it', next')
    /\ stream next' it' (drop_below (base + n) s) /\ row_mask pushed = kept_mask s base n.
Proof.
  intros [Hs Hst] Ha Hb Hn Hsmall Hf. unfold delete_row_group.
  rewrite (wrapU_id 64 (base + n)) by (apply inU_spec; lia).
  destruct next as [x|]; subst s.
  2: { eexists _, it, None. split; [reflexivity|]. split; [by split|].
       rewrite row_mask_select. symmetry. by apply kept_mask_const. }
  destruct (Z.leb_spec (base + n) x) as [Hx|Hx].
  - eexists _, it, (Some x). split; [reflexivity|]. split.
    + split; [done|]. cbn. by destruct (Z.ltb_spec x (base + n)); [lia|].
    + rewrite row_mask_select. symmetry. apply kept_mask_const. intros i Hi.
      apply bool_decide_false. apply ascending_cons in Ha as [_ Ha]. rewrite elem_of_cons.
      intros [->|Hin]; [lia|]. eapply ascending_not; [exact Ha| |exact Hin]. lia.
  - cbn [length] in Hf. destruct (chunks_ok fuel it x base (base + n) Hs Ha ltac:(lia) ltac:(lia))
      as (pushed & c & it' & next' & -> & Hc & Hst & Hm).
    eexists _, it', next'. split; [reflexivity|]. split; [done|].
    rewrite Hm. f_equal. lia.
Qed.

Lemma skip_row_group_ok it next e s :
  stream next it s -> 0 <= e < 2 ^ 32 -> ascending 0 s ->
  exists it' next', skip_row_group it next e = (it', next') /\ stream next' it' (drop_below e s).
Proof.
  intros [Hs Hst] He Ha. unfold skip_row_group. destruct (advance_small it e Hs He) as [Hs' Hr].
  destruct next as [x|]; subst s.
  2: { eexists _, _. split; [reflexivity|]. by split. }
  cbn [drop_below]. destruct (Z.ltb_spec x e).
  - destruct (stream_next _ Hs') as (nx & it' & -> & Hst'). eexists _, _. split; [reflexivity|].
    by rewrite <- Hr.
  - eexists _, _. split; [reflexivity|]. split; [done|]. f_equal. rewrite Hr.
    symmetry. apply (drop_below_none e). apply ascending_cons in Ha as [_ [Hsort Hall]].
    split; [done|]. eapply Forall_impl; [exact Hall|]. cbn. lia.
Qed.

End selection.

(** The mask over the rows of the row groups [idx ..] that satisfy [read]. *)
Fixpoint kept_rows (deleted : list Z) (read : nat -> bool) (sizes : list Z) (idx : nat) (base : Z) :
    list bool :=
  match sizes with
  | [] => []
  | n :: sizes =>
      (if read idx then kept_mask deleted base n else [])
      ++ kept_rows deleted read sizes (S idx) (base + n)
  end.

Definition is_selected (selected : option (list nat)) (idx : nat) : bool :=
  match selected with None => true | Some l => bool_decide (idx ∈ l) end.

Lemma kept_rows_ext deleted read read' sizes idx base :
  (forall i, (idx <= i)%nat -> read i = read' i) ->
  kept_rows deleted read sizes idx base = kept_rows deleted read' sizes idx base.
Proof.
  revert idx base. induction sizes as [|n sizes IH]; intros idx base H; [done|]. cbn.
  rewrite H by lia. f_equal. apply IH. intros i Hi. apply H. lia.
Qed.

Lemma kept_rows_none deleted read sizes idx base :
  (forall i, (idx <= i)%nat -> read i = false) -> kept_rows deleted read sizes idx base = [].
Proof.
  revert idx base. induction sizes as [|n sizes IH]; intros idx base H; [done|]. cbn.
  rewrite H by lia. apply IH. intros i Hi. apply H. lia.
Qed.

(** Ascending indices of row groups. *)
Definition selection_ok (idx : nat) (selected : option (list nat)) : Prop :=
  match selected with
  | None => True
  | Some l => StronglySorted lt l /\ Forall (le idx) l
  end.

Lemma selection_ok_tail idx l : selection_ok idx (Some (idx :: l)) -> selection_ok (S idx) (Some l).
Proof. intros [[Hs Hf]%StronglySorted_inv _]. by split. Qed.

Lemma selection_ok_later idx x l :
  idx <> x -> selection_ok idx (Some (x :: l)) -> selection_ok (S idx) (Some (x :: l)).
Proof.
  intros Hne [Hs [Hx Hf]%Forall_cons]. split; [done|].
  apply StronglySorted_inv in Hs as [_ Hall]. constructor; [lia|].
  eapply Forall_impl; [exact Hall|]. cbn. lia.
Qed.

Lemma drop_below_length n s : (length (drop_below n s) <= length s)%nat.
Proof. induction s as [|x s IH]; [done|]. cbn. destruct (x <? n); cbn; lia. Qed.

Lemma kept_rows_deleted l l' read sizes idx base :
  Forall (Z.le 0) sizes -> (forall i, base <= i -> i ∈ l <-> i ∈ l') ->
  kept_rows l read sizes idx base = kept_rows l' read sizes idx base.
Proof.
  intros Hn. revert idx base. induction Hn as [|n sizes Hn _ IH]; intros idx base H; [done|]. cbn.
  rewrite (kept_mask_ext l l') by (intros i Hi; apply H; lia). f_equal.
  apply IH. intros i Hi. apply H. lia.
Qed.

Section row_groups.
Context {R : Roaring} {RL : RoaringLaws R}.

(** The rows of all row groups. *)
Definition total_rows (groups : list RowGroupMetaData) : Z :=
  fold_right Z.add 0 (num_rows <$> groups).

Lemma total_rows_nonneg groups : Forall (Z.le 0) (num_rows <$> groups) -> 0 <= total_rows groups.
Proof. unfold total_rows. induction 1; cbn; lia. Qed.

Lemma delete_row_groups_ok fuel groups idx selected base it next s :
  stream next it s -> ascending base s -> (length s <= fuel)%nat -> 0 <= base ->
  Forall (Z.le 0) (num_rows <$> groups) -> base + total_rows groups < 2 ^ 32 ->
  selection_ok idx selected ->
  exists selectors, delete_row_groups fuel groups idx selected base it next = Some selectors
    /\ row_mask selectors = kept_rows s (is_selected selected) (num_rows <$> groups) idx base.
Proof.
  revert idx selected base it next s.
  induction groups as [|g groups IH]; intros idx selected base it next s Hst Ha Hf Hb Hn Hsum Hsel;
    [by exists []|].
  cbn [fmap list_fmap] in Hn. apply Forall_cons in Hn as [Hg Hn].
  pose proof (total_rows_nonneg groups Hn) as Hrest.
  change (total_rows (g :: groups)) with (num_rows g + total_rows groups) in Hsum.
  cbn [delete_row_groups fmap list_fmap kept_rows].
  rewrite (wrapU_id 64 (num_rows g)) by (apply inU_spec; lia).
  rewrite (wrapU_id 64 (base + num_rows g)) by (apply inU_spec; lia).
  set (s' := drop_below (base + num_rows g) s).
  assert (ascending (base + num_rows g) s') as Ha' by (by eapply drop_below_ascending).
  assert (length s' <= fuel)%nat as Hf'
    by (unfold s'; pose proof (drop_below_length (base + num_rows g) s); lia).
  assert (forall read, kept_rows s' read (num_rows <$> groups) (S idx) (base + num_rows g)
                  = kept_rows s read (num_rows <$> groups) (S idx) (base + num_rows g)) as Hs'.
  { intros read. apply kept_rows_deleted; [done|]. intros i Hi. by apply drop_below_in. }
  assert (forall rest, selection_ok (S idx) rest ->
    (forall i, (S idx <= i)%nat -> is_selected rest i = is_selected selected i) ->
    exists selectors,
      match delete_row_group fuel it next base (num_rows g) with
      | None => None
      | Some (pushed, it', next') =>
          (fun rest => pushed ++ rest)
          <$> delete_row_groups fuel groups (S idx) rest (base + num_rows g) it' next'
      end = Some selectors
      /\ row_mask selectors = kept_mask s base (num_rows g)
          ++ kept_rows s (is_selected selected) (num_rows <$> groups) (S idx) (base + num_rows g))
    as Hread.
  { intros rest Hrestok Hext.
    destruct (delete_row_group_ok fuel it next base (num_rows g) s Hst Ha Hb Hg ltac:(lia) Hf)
      as (pushed & it' & next' & -> & Hst' & Hm).
    destruct (IH (S idx) rest (base + num_rows g) it' next' s' Hst' Ha' Hf' ltac:(lia) Hn ltac:(lia)
                Hrestok) as (selectors & -> & Hms).
    eexists. split; [reflexivity|]. rewrite row_mask_app, Hm, Hms, Hs'. f_equal.
    by apply kept_rows_ext. }
  destruct selected as [[|x rest]|]; cbn [is_selected] in *.
  - exists []. split; [done|]. rewrite bool_decide_false by apply not_elem_of_nil. cbn.
    symmetry. apply kept_rows_none. intros i _. apply bool_decide_false, not_elem_of_nil.
  - destruct (Nat.eqb_spec idx x) as [<-|Hne].
    + rewrite bool_decide_true by left. apply Hread; [by apply selection_ok_tail|].
      intros i Hi. apply bool_decide_ext. rewrite elem_of_cons. intuition lia.
    + rewrite bool_decide_false.
      2: { destruct Hsel as [Hss Hall]. apply StronglySorted_inv in Hss as [_ Hlt].
           apply Forall_cons in Hall as [Hx _]. rewrite elem_of_cons. intros [->|Hin]; [done|].
           rewrite Forall_forall in Hlt. specialize (Hlt _ Hin). lia. }
      destruct (skip_row_group_ok it next (base + num_rows g) s Hst ltac:(lia)) as
        (it' & next' & -> & Hst').
      { destruct Ha as [Hss Hall]. split; [done|]. eapply Forall_impl; [exact Hall|]. cbn. lia. }
      destruct (IH (S idx) (Some (x :: rest)) (base + num_rows g) it' next' s' Hst' Ha' Hf' ltac:(lia)
                  Hn ltac:(lia)) as (selectors & -> & Hms); [by apply selection_ok_later|].
      exists selectors. split; [done|]. by rewrite Hms, Hs'.
  - by apply Hread.
Qed.

Lemma positions_ascending t : (forall x, x ∈ positions t -> x < 2 ^ 32) -> ascending 0 (positions t).
Proof.
  intros Hs. unfold positions. destruct (small_bitmaps t Hs) as [E | [b E]]; rewrite E.
  - by split; constructor.
  - destruct (bitmaps_ok t 0 b) as (_ & _ & Hsort & Hr); [rewrite E; left|].
    cbn [fmap list_fmap concat]. rewrite app_nil_r.
    replace ((fun low => 0 * 2 ^ 32 + low) <$> iter_elements (bitmap_iter b))
      with (iter_elements (bitmap_iter b)) by (rewrite <- list_fmap_id at 1; by apply list_fmap_ext).
    split; [done|]. apply Forall_forall. intros x Hx. by apply Hr.
Qed.

(** The selection built from the deletes of a file. *)
Lemma deletes_selection {S : RowSelections} {SL : RowSelectionLaws S} fuel groups selected t :
  (length (positions t) <= fuel)%nat -> (forall x, x ∈ positions t -> x < 2 ^ 32) ->
  Forall (Z.le 0) (num_rows <$> groups) -> total_rows groups < 2 ^ 32 -> selection_ok 0 selected ->
  exists selection, build_deletes_row_selection fuel groups selected t = Some selection
    /\ row_mask (selection_iter selection)
       = kept_rows (positions t) (is_selected selected) (num_rows <$> groups) 0 0.
Proof.
  intros Hf Hsmall Hn Hsum Hsel. unfold build_deletes_row_selection.
  pose proof (start_small t Hsmall) as Hs.
  destruct (iter_ok t) as [Hok Hr]. pose proof (iterator_next_remaining _ Hok) as Hnext.
  rewrite Hr in Hnext. destruct (iterator_next (delete_vector_iter t)) as [next it] eqn:E. cbn in Hs.
  assert (stream next it (positions t)) as Hst.
  { split; [done|]. destruct (positions t) as [|x l]; destruct Hnext as (it' & [= -> ->] & Hl & _); [done|].
    by rewrite Hl. }
  destruct (delete_row_groups_ok fuel groups 0 selected 0 it next (positions t)) as (sel & Hsels & Hm);
    try done.
  { by apply positions_ascending. }
  rewrite Hsels. eexists. split; [reflexivity|]. by rewrite selection_from_mask.
Qed.

End row_groups.

(** ** Properties *)

(** C8 The selection built for the row groups that are read keeps exactly the rows of these
    groups that the delete vector does not list, for a file of fewer than 2^32 rows; the loops
    end within as many iterations as there are positions. *)
Theorem deletes_selection_exact {R : Roaring} {RL : RoaringLaws R} {S : RowSelections}
    {SL : RowSelectionLaws S} fuel groups selected t :
  (length (positions t) <= fuel)%nat -> (forall x, x ∈ positions t -> x < 2 ^ 32) ->
  Forall (Z.le 0) (num_rows <$> groups) -> total_rows groups < 2 ^ 32 -> selection_ok 0 selected ->
  exists selection, build_deletes_row_selection fuel groups selected t = Some selection
    /\ row_mask (selection_iter selection)
       = kept_rows (positions t) (is_selected selected) (num_rows <$> groups) 0 0.
Proof. apply deletes_selection. Qed.

(** ** An instance of the bitmaps

    The halves of the positions as ascending association lists. *)

Definition low_ok (low : Z) : Prop := 0 <= low < 2 ^ 32.
Definition bitmap_ok (b : Z * list Z) : Prop :=
  low_ok b.1 /\ b.2 <> [] /\ StronglySorted Z.lt b.2 /\ Forall low_ok b.2.
Definition halves_ok (l : list (Z * list Z)) : Prop :=
  StronglySorted Z.lt l.*1 /\ Forall bitmap_ok l.
Definition Halves : Type := { l : list (Z * list Z) | halves_ok l }.

Fixpoint insert_low (x : Z) (l : list Z) : list Z :=
  match l with
  | [] => [x]
  | y :: l' => if x <? y then x :: l else if x =? y then l else y :: insert_low x l'
  end.
Fixpoint insert_half (high low : Z) (l : list (Z * list Z)) : list (Z * list Z) :=
  match l with
  | [] => [(high, [low])]
  | (h, b) :: l' =>
      if high <? h then (high, [low]) :: l
      else if high =? h then (h, insert_low low b) :: l'
      else (h, b) :: insert_half high low l'
  end.

Lemma insert_low_elem x l y : y ∈ insert_low x l <-> y = x \/ y ∈ l.
Proof.
  induction l as [|z l IH]; cbn [insert_low]; [rewrite list_elem_of_singleton; set_solver|].
  destruct (Z.ltb_spec x z); [set_solver|]. destruct (Z.eqb_spec x z); set_solver.
Qed.

Lemma insert_low_sorted x l : StronglySorted Z.lt l -> StronglySorted Z.lt (insert_low x l).
Proof.
  induction 1 as [|y l Hs IH Hf]; cbn [insert_low]; [by repeat constructor|].
  destruct (Z.ltb_spec x y).
  - constructor; [by constructor|]. constructor; [done|]. eapply Forall_impl; [exact Hf|]. cbn. lia.
  - destruct (Z.eqb_spec x y); [by constructor|]. constructor; [done|].
    apply Forall_forall. intros z [->|Hz]%insert_low_elem; [lia|]. rewrite Forall_forall in Hf. auto.
Qed.

Lemma insert_low_nonempty x l : insert_low x l <> [].
Proof. destruct l as [|y l]; cbn; [done|]. destruct (x <? y); [done|]. by destruct (x =? y). Qed.

Lemma insert_half_keys high low l h :
  h ∈ (insert_half high low l).*1 <-> h = high \/ h ∈ l.*1.
Proof.
  induction l as [|[k b] l IH]; cbn [insert_half fmap list_fmap fst];
    [rewrite list_elem_of_singleton; set_solver|].
  destruct (Z.ltb_spec high k); cbn [fmap list_fmap fst]; [set_solver|].
  destruct (Z.eqb_spec high k); cbn [fmap list_fmap fst]; set_solver.
Qed.

Lemma insert_half_ok high low l :
  low_ok high -> low_ok low -> halves_ok l -> halves_ok (insert_half high low l).
Proof.
  intros Hh Hl [Hs Hf]. induction Hf as [|[k b] l Hb Hf IH]; cbn [insert_half].
  - split; [by repeat constructor|]. repeat constructor; by try apply Hh; try apply Hl.
  - cbn [fmap list_fmap fst] in Hs. apply StronglySorted_inv in Hs as [Hs Hall].
    destruct (Z.ltb_spec high k) as [Hlt|Hge].
    + split.
      * cbn. constructor; [by constructor|]. constructor; [done|].
        eapply Forall_impl; [exact Hall|]. cbn. lia.
      * constructor; [|by constructor]. repeat constructor; by try apply Hh; try apply Hl.
    + destruct (Z.eqb_spec high k) as [->|Hne].
      * split; [by constructor|]. constructor; [|done]. destruct Hb as (Hk & Hn & Hbs & Hbf).
        split; [done|]. split; [apply insert_low_nonempty|]. split; [by apply insert_low_sorted|].
        apply Forall_forall. intros x [->|Hx]%insert_low_elem; [done|]. rewrite Forall_forall in Hbf. auto.
      * destruct (IH Hs) as [Hs' Hf']. split; [|by constructor]. cbn. constructor; [done|].
        apply Forall_forall. intros x [->|Hx]%insert_half_keys; [lia|].
        rewrite Forall_forall in Hall. auto.
Qed.

Lemma wrapU32_ok z : low_ok (wrapU 32 z).
Proof. unfold low_ok, wrapU. pose proof (Z.mod_pos_bound z (2 ^ 32) ltac:(lia)). lia. Qed.

Definition halves_insert (t : Halves) (pos : Z) : Halves :=
  exist _ (insert_half (wrapU 32 (Z.shiftr pos 32)) (wrapU 32 pos) (proj1_sig t))
    (insert_half_ok _ _ _ (wrapU32_ok _) (wrapU32_ok _) (proj2_sig t)).
Definition halves_empty : Halves := exist _ [] (conj (SSorted_nil _) (Forall_nil_2 _)).
Definition list_positions (l : list (Z * list Z)) : list Z :=
  concat ((fun '(high, b) => (fun low => high * 2 ^ 32 + low) <$> (b : list Z)) <$> l).
Definition halves_positions (t : Halves) : list Z := list_positions (proj1_sig t).

Definition concrete_roaring : Roaring := {|
  RoaringTreemap := Halves;
  RoaringBitmap := list Z;
  BitIter := list Z;
  bitmaps t := proj1_sig t;
  bitmap_iter b := b;
  iter_next it := match it with [] => None | x :: l => Some (x, l) end;
  iter_advance_to it n := drop_below n it;
|}.

Definition concrete_roaring_laws : RoaringLaws concrete_roaring.
Proof.
  refine (Build_RoaringLaws concrete_roaring (fun it => it) _ _ _ _).
  - intros [|x l]; [done|]. by exists l.
  - done.
  - intros t. apply (proj2_sig t).
  - intros t high b Hin. pose proof (proj2 (proj2_sig t)) as Hf. rewrite Forall_forall in Hf.
    destruct (Hf _ Hin) as (Hh & Hn & Hbs & Hbf). rewrite Forall_forall in Hbf. by repeat split; try apply Hh; try apply Hbf.
Defined.

Definition concrete_roaring_ops : RoaringOps concrete_roaring := {|
  treemap_default := (halves_empty : @RoaringTreemap concrete_roaring);
  treemap_insert t pos := (bool_decide (pos ∉ halves_positions t), halves_insert t pos);
  treemap_append t positions :=
    if bool_decide (StronglySorted Z.lt (halves_positions t ++ positions))
    then Some (foldl halves_insert t positions) else None;
  treemap_or a b := foldl halves_insert a (halves_positions b);
  treemap_len t := Z.of_nat (length (halves_positions t));
|}.

Lemma insert_half_positions high low l x :
  low_ok high -> low_ok low -> halves_ok l ->
  x ∈ list_positions (insert_half high low l) <-> x = high * 2 ^ 32 + low \/ x ∈ list_positions l.
Proof.
  unfold list_positions. intros Hh Hl [_ Hf]. induction Hf as [|[k b] l Hb Hf IH]; cbn [insert_half].
  - cbn. rewrite list_elem_of_singleton. set_solver.
  - destruct (high <? k); [cbn; rewrite elem_of_cons; done|].
    destruct (Z.eqb_spec high k) as [->|Hne]; cbn [fmap list_fmap concat]; rewrite !elem_of_app.
    + rewrite !list_elem_of_fmap. setoid_rewrite insert_low_elem. naive_solver.
    + rewrite IH. naive_solver.
Qed.

Lemma halves_insert_positions t pos x :
  inU 64 pos = true -> x ∈ halves_positions (halves_insert t pos) <-> x = pos \/ x ∈ halves_positions t.
Proof.
  intros Hpos%inU_spec. unfold halves_positions, halves_insert. cbn [proj1_sig].
  rewrite insert_half_positions; [|apply wrapU32_ok|apply wrapU32_ok|apply (proj2_sig t)].
  rewrite Z.shiftr_div_pow2 by lia. rewrite (wrapU_id 32 (pos / 2 ^ 32)).
  2: { apply inU_spec. split; [apply Z.div_pos; lia|]. apply Z.div_lt_upper_bound; lia. }
  unfold wrapU. replace (pos / 2 ^ 32 * 2 ^ 32 + pos mod 2 ^ 32) with pos; [done|].
  rewrite (Z.div_mod pos (2 ^ 32)) at 1 by lia. lia.
Qed.

Lemma foldl_insert_positions l t x :
  Forall (fun pos => inU 64 pos = true) l ->
  x ∈ halves_positions (foldl halves_insert t l) <-> x ∈ l \/ x ∈ halves_positions t.
Proof.
  intros H. revert t. induction H as [|pos l Hp _ IH]; intros t; cbn [foldl].
  - split; [by right|]. by intros [?%not_elem_of_nil|].
  - rewrite IH, halves_insert_positions by done. rewrite elem_of_cons. tauto.
Qed.

Lemma halves_positions_range t x : x ∈ halves_positions t -> inU 64 x = true.
Proof.
  unfold halves_positions, list_positions. intros (b & Hb & Hx)%list_elem_of_In%in_concat.
  apply list_elem_of_In, list_elem_of_fmap in Hb as ([high lows] & -> & Hin).
  apply list_elem_of_In, list_elem_of_fmap in Hx as (low & -> & Hlow).
  pose proof (proj2 (proj2_sig t)) as Hf. rewrite Forall_forall in Hf.
  destruct (Hf _ Hin) as (Hh & _ & _ & Hall). rewrite Forall_forall in Hall.
  specialize (Hall _ Hlow). cbn in Hh. unfold low_ok in *. apply inU_spec. lia.
Qed.

#[local] Existing Instance concrete_roaring.
#[local] Existing Instance concrete_roaring_laws.
#[local] Existing Instance concrete_roaring_ops.

Lemma concrete_roaring_ops_laws :
  RoaringOpsLaws concrete_roaring concrete_roaring_ops concrete_roaring_laws.
Proof.
  split.
  - reflexivity.
  - intros t pos x Hpos. by apply halves_insert_positions.
  - intros a b x. etrans; [apply foldl_insert_positions|tauto].
    apply Forall_forall. intros y. apply halves_positions_range.
Qed.

Section witnesses.
#[local] Existing Instance concrete_selections.
#[local] Existing Instance concrete_selection_laws.

Definition of_positions (l : list Z) : Halves := foldl halves_insert halves_empty l.
Definition row_groups_of (sizes : list Z) : list RowGroupMetaData :=
  (fun n => mkRowGroupMetaData n [] 100) <$> sizes.

(** The outcome of [build_deletes_row_selection], as its selectors. *)
Definition selectors_of (fuel : nat) (sizes : list Z) (selected : option (list nat)) (deleted : list Z) :
    option (list RowSelector) :=
  selection_iter <$> build_deletes_row_selection fuel (row_groups_of sizes) selected
    (of_positions deleted).

Lemma ex_positions : positions (of_positions [1; 2; 3; 5; 9]) = [1; 2; 3; 5; 9].
Proof. by vm_compute. Qed.

(** Row groups of 2, 4 and 4 rows, of which the first and last are read. *)
Lemma deletes_selection_exact_witness :
  selectors_of 5 [2; 4; 4] (Some [0%nat; 2%nat]) [1; 2; 3; 5; 9]
  = Some [selector_select 1; selector_skip 1; selector_select 3; selector_skip 1]
  /\ exists selection,
       build_deletes_row_selection 5 (row_groups_of [2; 4; 4]) (Some [0%nat; 2%nat])
         (of_positions [1; 2; 3; 5; 9]) = Some selection
       /\ row_mask (selection_iter selection)
          = kept_rows (positions (of_positions [1; 2; 3; 5; 9])) (is_selected (Some [0%nat; 2%nat]))
              (num_rows <$> row_groups_of [2; 4; 4]) 0 0.
Proof.
  split; [by vm_compute|]. apply deletes_selection_exact.
  - rewrite ex_positions. cbn. lia.
  - rewrite ex_positions. intros x Hx.
    repeat (apply elem_of_cons in Hx as [->|Hx]; [lia|]). by apply not_elem_of_nil in Hx.
  - by repeat constructor.
  - by vm_compute.
  - repeat constructor; lia.
Defined.

(** *** Deviations *)

(** A file of more than 2^32 rows whose first row group is skipped: [advance_to] compares
    only the low half when the iterator is already in a later bitmap, and passes over the
    delete at 2^32 + 3. *)
Theorem advance_to_loses_deletes :
  selectors_of 10 [5; 2 ^ 32] (Some [1%nat]) [2 ^ 32 + 1; 2 ^ 32 + 3]
  = Some [selector_select (2 ^ 32 - 4); selector_skip 1; selector_select 3].
Proof. by vm_compute. Qed.

Lemma chunks_stuck fuel it next cur e : next < cur < e -> chunks fuel it next cur e = None.
Proof.
  intros H. revert it. induction fuel as [|fuel IH]; intros it; [done|]. cbn [chunks skip_run].
  rewrite (proj2 (Z.ltb_lt next e)), (proj2 (Z.ltb_ge cur next)), (proj2 (Z.eqb_neq next cur)) by lia.
  cbn [andb]. by rewrite IH.
Qed.

(** Deletes only in a skipped row group of 2^32 rows: [advance_to] returns without moving
    when no bitmap is left, the stale position is below the next row group, and the loop
    makes no progress. *)
Theorem advance_to_hangs fuel :
  selectors_of fuel [2 ^ 32; 5] (Some [1%nat]) [0; 1] = None.
Proof.
  unfold selectors_of, build_deletes_row_selection.
  enough (delete_row_groups fuel (row_groups_of [2 ^ 32; 5]) 0 (Some [1%nat]) 0
            (snd (iterator_next (delete_vector_iter (of_positions [0; 1])))) (Some 0) = None) as H.
  { destruct (iterator_next _) as [next it] eqn:E. cbn [snd] in H.
    replace next with (Some 0) by (by injection E). by rewrite H. }
  assert (snd (skip_row_group (snd (iterator_next (delete_vector_iter (of_positions [0; 1]))))
            (Some 0) (2 ^ 32)) = Some 1) as Hskip by (vm_compute; reflexivity).
  cbn [delete_row_groups row_groups_of fmap list_fmap num_rows Nat.eqb].
  change (wrapU 64 (0 + wrapU 64 (2 ^ 32))) with (2 ^ 32).
  destruct (skip_row_group _ _ _) as [it next]. cbn [snd] in Hskip. subst next.
  unfold delete_row_group. change (wrapU 64 (2 ^ 32 + wrapU 64 5)) with (2 ^ 32 + 5).
  change (2 ^ 32 + 5 <=? 1) with false. cbv iota. by rewrite chunks_stuck by lia.
Qed.

End witnesses.
