(* ===== verification/ByteRanges.v ===== *)
(** * Coalesced reads of byte ranges (arrow/reader.rs)

    [merge_ranges] and [ArrowFileReader::get_byte_ranges]: the byte ranges that the
    Parquet reader asks for are merged when they are near each other, read, and cut
    back into the ranges asked for.  Correctness: the result is what reading each range
    alone would return. *)

From stdpp Require Import list sorting.
From S2P Require Import Prelude.

(** [Range<u64>]. *)
Record Range := mkRange { range_start : Z; range_end : Z }.

(** Order by key of [sort_unstable_by_key]; the ranges of equal start, which it may leave in
    any order, merge into the same range. *)
Definition start_le (a b : Range) : Prop := range_start a <= range_start b.
#[export] Instance start_le_dec a b : Decision (start_le a b) := Z.le_dec _ _.
#[export] Instance start_le_trans : Transitive start_le.
Proof. unfold start_le. intros a b c ??. lia. Qed.
#[export] Instance start_le_total : Total start_le.
Proof. unfold start_le. intros a b. destruct (Z.le_ge_cases (range_start a) (range_start b)); auto. Qed.

(** [checked_sub(..).map(..).unwrap_or(true)]. *)
Definition near (coalesce range_end start : Z) : bool :=
  if range_end <=? start then start - range_end <=? coalesce else true.

(** The two [while] loops: the range that is merged starts at [start] and ends at
    [finish] so far. *)
Fixpoint merge_from (coalesce start finish : Z) (ranges : list Range) : list Range :=
  match ranges with
  | [] => [mkRange start finish]
  | r :: ranges =>
      if near coalesce finish (range_start r)
      then merge_from coalesce start (Z.max finish (range_end r)) ranges
      else mkRange start finish :: merge_from coalesce (range_start r) (range_end r) ranges
  end.
Definition merge_sorted (coalesce : Z) (ranges : list Range) : list Range :=
  match ranges with
  | [] => []
  | r :: ranges => merge_from coalesce (range_start r) (range_end r) ranges
  end.
Definition merge_ranges (ranges : list Range) (coalesce : Z) : list Range :=
  merge_sorted coalesce (merge_sort start_le ranges).

Section get_byte_ranges.
Context {B : Type}.

(** [Bytes::slice]. *)
Definition bytes_slice (bytes : list B) (start finish : Z) : result (list B) :=
  if (start <=? finish) && (finish <=? Z.of_nat (length bytes))
  then Ok (take (Z.to_nat (finish - start)) (drop (Z.to_nat start) bytes))
  else Err Panic.

(** [partition_point] of a partitioned slice. *)
Fixpoint partition_point {T} (pred : T -> bool) (l : list T) : nat :=
  match l with
  | [] => 0
  | x :: l => if pred x then S (partition_point pred l) else 0
  end.

(** The slice of the fetched data that holds a range. *)
Definition slice_fetched (fetch_ranges : list Range) (fetched : list (list B)) (range : Range) :
    result (list B) :=
  match partition_point (fun v => range_start v <=? range_start range) fetch_ranges with
  | O => Err Panic
  | S idx =>
      let? fetch_range := unwrap (fetch_ranges !! idx) in
      let? fetch_bytes := unwrap (fetched !! idx) in
      let start := wrapU 64 (range_start range - range_start fetch_range) in
      let finish := wrapU 64 (range_end range - range_start fetch_range) in
      bytes_slice fetch_bytes start (Z.min finish (Z.of_nat (length fetch_bytes)))
  end.

(** [get_byte_ranges] of a [FileRead] whose [read] is given: the reads are concurrent, their
    results in order. *)
Definition get_byte_ranges (read : Range -> result (list B)) (coalesce_bytes : Z)
    (ranges : list Range) : result (list (list B)) :=
  let fetch_ranges := merge_ranges ranges coalesce_bytes in
  let? fetched := mapR read fetch_ranges in
  mapR (slice_fetched fetch_ranges fetched) ranges.
End get_byte_ranges.

Lemma mapR_all {T U} (f : T -> result U) (g : T -> U) l :
  (forall x, x ∈ l -> f x = Ok (g x)) -> mapR f l = Ok (g <$> l).
Proof.
  intros H. apply mapR_Ok, Forall2_fmap_r, Forall_Forall2_diag, Forall_forall. auto.
Qed.

(** ** Merged ranges *)

Definition ordered (r : Range) : Prop := range_start r <= range_end r.
Definition within (r m : Range) : Prop := range_start m <= range_start r /\ range_end r <= range_end m.
Definition separated (coalesce : Z) (a b : Range) : Prop := range_end a + coalesce < range_start b.

(** A list of ranges that covers [ranges], in order, each more than [coalesce] bytes from
    the next, with endpoints among theirs. *)
Record covers (coalesce : Z) (ranges merged : list Range) : Prop := {
  covers_ordered : Forall ordered merged;
  covers_separated : StronglySorted (separated coalesce) merged;
  covers_all r : r ∈ ranges -> exists m, m ∈ merged /\ within r m;
  covers_ends m : m ∈ merged ->
    (exists r, r ∈ ranges /\ range_start m = range_start r)
    /\ (exists r, r ∈ ranges /\ range_end m = range_end r);
}.

(** A range absorbed by the one that is being merged. *)
Lemma covers_absorb c start finish r ranges merged :
  start <= range_start r ->
  covers c (mkRange start (Z.max finish (range_end r)) :: ranges) merged ->
  covers c (mkRange start finish :: r :: ranges) merged.
Proof.
  intros Hr [H1 H2 H3 H4]. split; [done..| |].
  - assert (forall x, within x (mkRange start (Z.max finish (range_end r))) ->
              exists m, m ∈ merged /\ within x m) as Habs.
    { intros x Hx. destruct (H3 _ ltac:(left)) as (m & Hm & Hw). exists m. split; [done|].
      unfold within in *. cbn in *. lia. }
    intros x [->|[->|Hx]%elem_of_cons]%elem_of_cons; [| |apply H3; by right];
      apply Habs; unfold within; cbn; lia.
  - intros m Hm. destruct (H4 m Hm) as [(r1 & Hr1 & E1) (r2 & Hr2 & E2)]. split.
    + apply elem_of_cons in Hr1 as [->|Hr1]; [|exists r1; split; [by right; right|done]].
      exists (mkRange start finish). split; [left|done].
    + apply elem_of_cons in Hr2 as [->|Hr2]; [|exists r2; split; [by right; right|done]].
      cbn in E2. destruct (Z.max_spec finish (range_end r)) as [[_ E]|[_ E]]; rewrite E in E2;
        [exists r; split; [right; left|done]|exists (mkRange start finish); split; [left|done]].
Qed.

Lemma merge_from_covers c start finish ranges :
  0 <= c -> start <= finish -> Forall ordered ranges -> StronglySorted start_le ranges ->
  Forall (fun r => start <= range_start r) ranges ->
  covers c (mkRange start finish :: ranges) (merge_from c start finish ranges)
  /\ Forall (fun m => start <= range_start m) (merge_from c start finish ranges).
Proof.
  intros Hc. revert start finish.
  induction ranges as [|r ranges IH]; intros start finish Hle Ho Hs Hb; cbn [merge_from].
  - split; [|repeat constructor; cbn; lia]. split.
    + repeat constructor. done.
    + repeat constructor.
    + intros r ->%list_elem_of_singleton. exists (mkRange start finish). split; [by left|].
      split; cbn; lia.
    + intros m ->%list_elem_of_singleton. split; exists (mkRange start finish); (split; [by left|done]).
  - apply Forall_cons_1 in Ho as [Hor Ho], Hb as [Hbr Hb]. apply StronglySorted_inv in Hs as [Hs Hr].
    unfold ordered in Hor. unfold near.
    destruct (Z.leb_spec finish (range_start r)) as [H1|H1];
      [destruct (Z.leb_spec (range_start r - finish) c) as [H2|H2]|].
    2: { destruct (IH (range_start r) (range_end r)) as [[C1 C2 C3 C4] Hst]; [done..|].
         assert (forall x, x ∈ mkRange (range_start r) (range_end r) :: ranges <-> x ∈ r :: ranges)
           as Heq by (intros x; by destruct r).
         split; [split|].
         - constructor; [done|exact C1].
         - constructor; [exact C2|]. eapply Forall_impl; [exact Hst|]. unfold separated. cbn. lia.
         - intros x [->|Hx]%elem_of_cons.
           + exists (mkRange start finish). split; [by left|]. split; cbn; lia.
           + apply Heq in Hx. destruct (C3 x Hx) as (m & Hm & Hw). exists m. split; [by right|done].
         - intros m [->|Hm]%elem_of_cons.
           + split; exists (mkRange start finish); (split; [by left|done]).
           + destruct (C4 m Hm) as [(r1 & Hr1%Heq & E1) (r2 & Hr2%Heq & E2)].
             split; [exists r1|exists r2]; (split; [by right|done]).
         - constructor; [cbn; lia|]. eapply Forall_impl; [exact Hst|]. cbn. lia. }
    all: destruct (IH start (Z.max finish (range_end r))) as [C Hst]; [lia|done|done|done|];
      (split; [by apply covers_absorb|exact Hst]).
Qed.

(** Sorting permutes. *)
Lemma merge_ranges_covers c ranges :
  0 <= c -> Forall ordered ranges -> covers c ranges (merge_ranges ranges c).
Proof.
  intros Hc Ho. unfold merge_ranges.
  pose proof (merge_sort_Permutation start_le ranges) as Hperm.
  pose proof (StronglySorted_merge_sort start_le ranges) as Hs.
  destruct (merge_sort start_le ranges) as [|r sorted].
  - apply Permutation_nil_l in Hperm. subst ranges. split; [constructor|constructor| |]; by intros ? []%not_elem_of_nil.
  - rewrite <- Hperm in Ho. apply Forall_cons_1 in Ho as [Hr Ho]. apply StronglySorted_inv in Hs as [Hs Hb].
    destruct (merge_from_covers c (range_start r) (range_end r) sorted Hc Hr Ho Hs Hb) as [[C1 C2 C3 C4] _].
    assert (forall x, x ∈ mkRange (range_start r) (range_end r) :: sorted <-> x ∈ ranges) as Heq.
    { intros x. rewrite <- Hperm. by destruct r. }
    cbn [merge_sorted]. split; [done|done| |].
    + intros x Hx%Heq. by apply C3.
    + intros m Hm. destruct (C4 m Hm) as [(r1 & H1%Heq & E1) (r2 & H2%Heq & E2)].
      split; [exists r1|exists r2]; done.
Qed.

(** The partition point of a range is just after the merged range that holds it. *)
Lemma partition_point_within c merged r m :
  0 <= c -> ordered r -> Forall ordered merged -> StronglySorted (separated c) merged ->
  m ∈ merged -> within r m ->
  exists idx, partition_point (fun v => range_start v <=? range_start r) merged = S idx
    /\ merged !! idx = Some m.
Proof.
  intros Hc Hr Ho Hs Hm [Hw1 Hw2]. unfold ordered in Hr.
  induction Hs as [|a merged Hs IH Ha]; [by apply not_elem_of_nil in Hm|].
  apply Forall_cons_1 in Ho as [Hoa Ho]. rewrite Forall_forall in Ha. cbn [partition_point].
  apply elem_of_cons in Hm as [->|Hm].
  - rewrite (proj2 (Z.leb_le _ _)) by done. exists 0%nat. split; [|done]. f_equal.
    destruct merged as [|b merged]; [done|]. cbn. specialize (Ha b ltac:(left)).
    unfold separated in Ha. by rewrite (proj2 (Z.leb_gt _ _)) by lia.
  - destruct (IH Ho Hm) as (idx & E & Hidx). specialize (Ha m Hm). unfold separated, ordered in *.
    rewrite (proj2 (Z.leb_le _ _)) by lia. exists (S idx). by rewrite E.
Qed.

(** ** Reads *)

Section reads.
Context {B : Type} (content : list B).

(** The bytes of a range of the file. *)
Definition bytes_at (r : Range) : list B :=
  take (Z.to_nat (range_end r - range_start r)) (drop (Z.to_nat (range_start r)) content).
Definition in_file (r : Range) : Prop :=
  0 <= range_start r /\ ordered r /\ range_end r <= Z.of_nat (length content).

Context (Hsize : Z.of_nat (length content) < 2 ^ 64).

Lemma slice_within r m :
  in_file r -> in_file m -> within r m ->
  bytes_slice (bytes_at m) (wrapU 64 (range_start r - range_start m))
    (Z.min (wrapU 64 (range_end r - range_start m)) (Z.of_nat (length (bytes_at m))))
  = Ok (bytes_at r).
Proof using Hsize.
  intros (Hr1 & Hr2 & Hr3) (Hm1 & Hm2 & Hm3) [Hw1 Hw2]. unfold ordered in *.
  rewrite !wrapU_id by (apply inU_spec; lia).
  assert (Z.of_nat (length (bytes_at m)) = range_end m - range_start m) as Hlen.
  { unfold bytes_at. rewrite length_take, length_drop. lia. }
  rewrite Hlen. unfold bytes_slice. rewrite Hlen.
  rewrite (proj2 (Z.leb_le _ _)) by lia. rewrite (proj2 (Z.leb_le _ _)) by lia. cbn [andb].
  f_equal. unfold bytes_at. rewrite Z.min_l by lia.
  rewrite skipn_firstn_comm, drop_drop, take_take. f_equal; [lia|]. f_equal. lia.
Qed.
End reads.

(** ** Properties *)

(** Coalescing is sound and stops where it is meant to: each range asked for lies in a
    merged range, the merged ranges are in order and more than [coalesce] bytes apart, and
    no merged range reaches beyond the ranges asked for. *)
Theorem merge_ranges_coalesces coalesce ranges :
  0 <= coalesce -> Forall ordered ranges -> covers coalesce ranges (merge_ranges ranges coalesce).
Proof. apply merge_ranges_covers. Qed.

(** C30 Reading through merged ranges returns the bytes of each range asked for, whatever the
    order of the ranges, their overlaps and the coalescing distance. *)
Theorem get_byte_ranges_exact {B} (content : list B) read coalesce ranges :
  Z.of_nat (length content) < 2 ^ 64 -> 0 <= coalesce ->
  (forall r, in_file content r -> read r = Ok (bytes_at content r)) ->
  Forall (in_file content) ranges ->
  get_byte_ranges read coalesce ranges = Ok (bytes_at content <$> ranges).
Proof.
  intros Hsize Hc Hread Hr. unfold get_byte_ranges.
  assert (Forall ordered ranges) as Ho by (eapply Forall_impl; [exact Hr|]; intros r H; apply H).
  destruct (merge_ranges_covers coalesce ranges Hc Ho) as [C1 C2 C3 C4].
  set (merged := merge_ranges ranges coalesce) in *. rewrite Forall_forall in Hr, C1.
  assert (forall m, m ∈ merged -> in_file content m) as Hm.
  { intros m Hin. destruct (C4 m Hin) as [(r1 & H1 & E1) (r2 & H2 & E2)].
    pose proof (C1 m Hin). destruct (Hr r1 H1) as (? & _ & _), (Hr r2 H2) as (_ & _ & ?).
    unfold in_file. rewrite E1, E2. unfold ordered in *. lia. }
  rewrite (mapR_all read (bytes_at content)) by auto. cbn.
  apply mapR_all. intros r Hin. destruct (C3 r Hin) as (m & Hmin & Hw).
  destruct (partition_point_within coalesce merged r m) as (idx & E & Hidx);
    [done|apply (Hr r Hin)|by apply Forall_forall|done..|].
  unfold slice_fetched. rewrite E, Hidx. cbn. rewrite list_lookup_fmap, Hidx. cbn.
  apply slice_within; [done|by apply Hr|by apply Hm|done].
Qed.

(** A failing read fails the whole request. *)
Theorem get_byte_ranges_fails {B} (read : Range -> result (list B)) coalesce ranges e :
  ranges <> [] -> (forall r, read r = Err e) -> get_byte_ranges read coalesce ranges = Err e.
Proof.
  intros Hne Hread. unfold get_byte_ranges.
  assert (exists r l, merge_ranges ranges coalesce = r :: l) as (r & l & ->).
  { unfold merge_ranges. pose proof (merge_sort_Permutation start_le ranges) as Hp.
    destruct (merge_sort start_le ranges) as [|[s f] l]; [by apply Permutation_nil_l in Hp as <-|].
    cbn [merge_sorted range_start range_end]. clear. revert f.
    induction l as [|r l IH]; intros f; cbn [merge_from]; [eauto|]. destruct (near _ _ _); eauto. }
  cbn. by rewrite Hread.
Qed.

(** Overlapping ranges out of order, a gap of one byte that is read, a gap of two that is
    not. *)
Definition ex_content : list Z := seqZ 0 10.
Definition ex_ranges : list Range := [mkRange 3 5; mkRange 0 2; mkRange 1 2; mkRange 7 9].

Lemma merge_ranges_coalesces_witness :
  merge_ranges ex_ranges 1 = [mkRange 0 5; mkRange 7 9]
  /\ covers 1 ex_ranges (merge_ranges ex_ranges 1).
Proof.
  split; [by vm_compute|]. apply merge_ranges_coalesces; [done|]. by repeat constructor.
Defined.

Lemma get_byte_ranges_exact_witness :
  get_byte_ranges (fun r => Ok (bytes_at ex_content r)) 1 ex_ranges
  = Ok [[3; 4]; [0; 1]; [1]; [7; 8]].
Proof.
  change ([[3; 4]; [0; 1]; [1]; [7; 8]]) with (bytes_at ex_content <$> ex_ranges).
  apply get_byte_ranges_exact; [done|done|done|]. by repeat constructor.
Defined.
