(* ===== verification/Storage.v ===== *)
(** * Storage (io/storage/mod.rs, io/storage/memory.rs, io/file_io.rs)

    The interface to storage with its laws, the handles of files, and the in-memory storage
    with its readers and buffered writers.  Correctness: the in-memory storage has the laws;
    what a writer was given is read back once it is closed and not before, under every path
    that names the file; deleting a prefix removes the files under it and no others. *)

From stdpp Require Import gmap.
From S2P Require Import Prelude Utf8 Numerals ByteRanges.

Abbreviation Bytes := (list Byte.byte).

(** ** The interface

    [W] is the state of what is stored.  A [FileRead] and a [FileWrite] are values of the
    implementation. *)
Class Storage (W : Type) := {
  FileRead : Type;
  FileWrite : Type;
  exists_ : W -> str -> result bool;
  metadata : W -> str -> result Z;
  read : W -> str -> result Bytes;
  reader : W -> str -> result FileRead;
  read_range : W -> FileRead -> Range -> result Bytes;
  write : W -> str -> Bytes -> result W;
  writer : W -> str -> result FileWrite;
  write_chunk : FileWrite -> Bytes -> result FileWrite;
  close : W -> FileWrite -> result (FileWrite * W);
  delete : W -> str -> result W;
  delete_prefix : W -> str -> result W;
}.
Arguments FileRead W {_}.
Arguments FileWrite W {_}.

(** A file is what is read of it: its size, its ranges. *)
Class StorageLaws (W : Type) {S : Storage W} := {
  content : W -> str -> option Bytes;
  exists_content w path : exists_ w path = Ok (bool_decide (is_Some (content w path)));
  metadata_content w path :
    match content w path with
    | Some bytes => metadata w path = Ok (Z.of_nat (length bytes))
    | None => is_ok (metadata w path) = false
    end;
  read_content w path :
    match content w path with
    | Some bytes => read w path = Ok bytes
    | None => is_ok (read w path) = false
    end;
  reader_content w path :
    match content w path with
    | Some bytes => exists r, reader w path = Ok r /\
        forall w' range start finish, range = mkRange start finish -> inU 64 start = true -> inU 64 finish = true ->
          read_range w' r range
          = if (start <=? Z.of_nat (length bytes)) && (finish <=? Z.of_nat (length bytes))
            then bytes_slice bytes start finish else Err (Error DataInvalid)
    | None => is_ok (reader w path) = false
    end;
  write_content w path bytes w' : write w path bytes = Ok w' -> content w' path = Some bytes;
  delete_content w path w' : delete w path = Ok w' -> content w' path = None;
}.

(** ** Handles of files (io/file_io.rs) *)

Section file_io.
Context {W : Type} {S : Storage W}.

Record InputFile := mkInputFile { input_path : str }.
Record OutputFile := mkOutputFile { output_path : str }.
Definition input_exists (w : W) (self : InputFile) : result bool := exists_ w (input_path self).
Definition input_metadata (w : W) (self : InputFile) : result Z := metadata w (input_path self).
Definition input_read (w : W) (self : InputFile) : result Bytes := read w (input_path self).
Definition input_reader (w : W) (self : InputFile) : result (FileRead W) := reader w (input_path self).
Definition output_exists (w : W) (self : OutputFile) : result bool := exists_ w (output_path self).
Definition output_delete (w : W) (self : OutputFile) : result W := delete w (output_path self).
Definition to_input_file (self : OutputFile) : InputFile := mkInputFile (output_path self).
Definition output_write (w : W) (self : OutputFile) (bs : Bytes) : result W := write w (output_path self) bs.
Definition output_writer (w : W) (self : OutputFile) : result (FileWrite W) := writer w (output_path self).

(** [FileIO]: the storage is built by the factory at its first use; a factory that failed is
    asked again. *)
Record FileIO := mkFileIO { factory : result W; storage : option W }.
Definition get_storage (self : FileIO) : result (FileIO * W) :=
  match storage self with
  | Some s => Ok (self, s)
  | None => let? s := factory self in Ok (mkFileIO (factory self) (Some s), s)
  end.
End file_io.

(** ** The in-memory storage (io/storage/memory.rs) *)

Definition slash : Z := 47.
(** [str::strip_prefix], on characters. *)
Definition strip_prefix (prefix s : str) : option str :=
  if bool_decide (take (length prefix) s = prefix) then Some (drop (length prefix) s) else None.
Fixpoint trim_start (c : Z) (s : str) : str :=
  match s with
  | x :: s' => if x =? c then trim_start c s' else s
  | [] => []
  end.
Definition ends_with_slash (s : str) : bool := bool_decide (last s = Some slash).

Abbreviation MemoryStorage := (gmap str Bytes).
Definition normalize_path (path : str) : str :=
  let path := default path (strip_prefix (lit "memory://") path) in
  let path := default path (strip_prefix (lit "memory:/") path) in
  trim_start slash path.

(** [MemoryFileRead] keeps the bytes the file had when it was opened. *)
Definition memory_read_range (data : Bytes) (range : Range) : result Bytes :=
  let start := range_start range in
  let finish := range_end range in
  if (Z.of_nat (length data) <? start) || (Z.of_nat (length data) <? finish) then Err (Error DataInvalid)
  else bytes_slice data start finish.

Record MemoryFileWrite := mkMemoryFileWrite { mw_path : str; mw_buffer : Bytes; mw_closed : bool }.
Definition memory_write_chunk (self : MemoryFileWrite) (bs : Bytes) : result MemoryFileWrite :=
  if mw_closed self then Err (Error DataInvalid)
  else Ok (mkMemoryFileWrite (mw_path self) (mw_buffer self ++ bs) false).
Definition memory_close (data : MemoryStorage) (self : MemoryFileWrite) :
    result (MemoryFileWrite * MemoryStorage) :=
  if mw_closed self then Err (Error DataInvalid)
  else Ok (mkMemoryFileWrite (mw_path self) [] true, <[mw_path self := mw_buffer self]> data).

Definition memory_get (data : MemoryStorage) (path : str) : result Bytes :=
  ok_or (data !! normalize_path path) DataInvalid.
Definition directory_prefix (path : str) : str :=
  let normalized := normalize_path path in
  if ends_with_slash normalized then normalized else normalized ++ [slash].
Definition memory_delete_prefix (data : MemoryStorage) (path : str) : result MemoryStorage :=
  let prefix := directory_prefix path in
  Ok (filter (fun kv => strip_prefix prefix (fst kv) = None) data).

#[export] Instance memory_storage : Storage MemoryStorage := {
  FileRead := Bytes;
  FileWrite := MemoryFileWrite;
  exists_ data path := Ok (bool_decide (is_Some (data !! normalize_path path)));
  metadata data path := (fun bytes : Bytes => Z.of_nat (length bytes)) <$> memory_get data path;
  read data path := memory_get data path;
  reader data path := memory_get data path;
  read_range _ r range := memory_read_range r range;
  write data path bs := Ok (<[normalize_path path := bs]> data);
  writer data path := Ok (mkMemoryFileWrite (normalize_path path) [] false);
  write_chunk := memory_write_chunk;
  close := memory_close;
  delete data path := Ok (base.delete (normalize_path path) data);
  delete_prefix := memory_delete_prefix;
}.

(** ** Theory *)

#[export] Instance memory_storage_laws : StorageLaws MemoryStorage.
Proof.
  exists (fun (data : MemoryStorage) path => data !! normalize_path path).
  - done.
  - intros w path. cbn. unfold memory_get. by destruct (w !! normalize_path path).
  - intros w path. cbn. unfold memory_get. by destruct (w !! normalize_path path).
  - intros w path. cbn. unfold memory_get. destruct (w !! normalize_path path) as [bytes|]; [|done].
    exists bytes. split; [done|]. intros w' ? start finish -> Hs Hf. unfold memory_read_range. cbn [range_start range_end].
    destruct (Z.ltb_spec (Z.of_nat (length bytes)) start), (Z.leb_spec start (Z.of_nat (length bytes))),
      (Z.ltb_spec (Z.of_nat (length bytes)) finish), (Z.leb_spec finish (Z.of_nat (length bytes)));
      cbn [orb andb]; try done; lia.
  - intros w path bytes w' [= <-]. apply lookup_insert_eq.
  - intros w path w' [= <-]. apply lookup_delete_eq.
Defined.

Lemma strip_prefix_app prefix s : strip_prefix prefix (prefix ++ s) = Some s.
Proof. unfold strip_prefix. rewrite take_app_length, bool_decide_true by done. by rewrite drop_app_length. Qed.
Lemma strip_prefix_Some prefix s t : strip_prefix prefix s = Some t <-> s = prefix ++ t.
Proof.
  split; [|intros ->; apply strip_prefix_app]. unfold strip_prefix. case_bool_decide as H; [|done].
  intros [= <-]. rewrite <- H at 1. by rewrite take_drop.
Qed.

Lemma memory_get_insert data p bytes path :
  normalize_path path = p -> memory_get (<[p := bytes]> data) path = Ok bytes.
Proof. intros <-. unfold memory_get. by rewrite lookup_insert_eq. Qed.

(** The chunks of a writer. *)
Fixpoint write_chunks {W} {S : Storage W} (w : FileWrite W) (chunks : list Bytes) : result (FileWrite W) :=
  match chunks with
  | [] => Ok w
  | bs :: chunks => let? w := write_chunk w bs in write_chunks w chunks
  end.
Lemma memory_chunks path chunks : forall buffer,
  write_chunks (S := memory_storage) (mkMemoryFileWrite path buffer false) chunks
  = Ok (mkMemoryFileWrite path (buffer ++ concat chunks) false).
Proof.
  induction chunks as [|bs chunks IH]; intros buffer; cbn; [by rewrite app_nil_r|].
  rewrite IH. by rewrite <- app_assoc.
Qed.

(** ** Properties *)

(** The chunks that are written to a file of the in-memory storage are not seen before the
    writer is closed; then the file, read under any path that normalizes to the same one, is
    their concatenation, other files are as they were, and the closed writer refuses more. *)
Theorem writer_flushes_at_close data path chunks :
  exists w w' closed data',
    writer data path = Ok w /\ write_chunks w chunks = Ok w' /\ close data w' = Ok (closed, data')
    /\ (forall path', normalize_path path' = normalize_path path ->
          read data' path' = Ok (concat chunks)
          /\ metadata data' path' = Ok (Z.of_nat (length (concat chunks))))
    /\ (forall path', normalize_path path' <> normalize_path path ->
          content data' path' = content data path')
    /\ (forall bs, write_chunk closed bs = Err (Error DataInvalid))
    /\ close data' closed = Err (Error DataInvalid).
Proof.
  eexists _, _, _, _. split; [done|]. split; [apply memory_chunks|]. split; [done|].
  split; [|split]; [| |split; [intros bs; reflexivity|reflexivity]].
  - intros path' Hp. pose proof (memory_get_insert data _ (concat chunks) path' Hp) as E.
    split; [exact E|]. exact (f_equal (fmap (M := result) (fun bytes : Bytes => Z.of_nat (length bytes))) E).
  - intros path' Hp. cbn. by apply lookup_insert_ne.
Qed.

(** Deleting a prefix removes exactly the files whose normalized path is in the directory
    that the prefix names. *)
Theorem delete_prefix_exact (data : MemoryStorage) path :
  exists data', delete_prefix data path = Ok data' /\
    forall file, content data' file
      = if bool_decide (directory_prefix path `prefix_of` normalize_path file)
        then None else content data file.
Proof.
  eexists. split; [done|]. intros file. cbn. set (p := directory_prefix path). set (f := normalize_path file).
  destruct (strip_prefix p f) as [rest|] eqn:E.
  - rewrite bool_decide_true by (exists rest; by apply strip_prefix_Some).
    apply map_lookup_filter_None. right. intros x _. cbn. by rewrite E.
  - rewrite bool_decide_false.
    + destruct (data !! f) as [bytes|] eqn:Ef.
      * by apply map_lookup_filter_Some.
      * apply map_lookup_filter_None. by left.
    + intros [rest Hr%strip_prefix_Some]. congruence.
Qed.

(** *** Deviations *)

Lemma trim_start_head c s : head (trim_start c s) <> Some c.
Proof. induction s as [|x s IH]; [done|]. cbn. destruct (Z.eqb_spec x c); [done|]. cbn. congruence. Qed.

(** Deleting the root deletes nothing: the prefix is a slash, and no normalized path starts
    with one. *)
Theorem delete_root_keeps_everything (data : MemoryStorage) :
  directory_prefix (lit "memory://") = [slash]
  /\ exists data', delete_prefix data (lit "memory://") = Ok data'
     /\ forall file, content data' file = content data file.
Proof.
  split; [done|]. eexists. split; [done|]. intros file. cbn.
  destruct (data !! normalize_path file) as [bytes|] eqn:E.
  - apply map_lookup_filter_Some. split; [done|]. cbn.
    destruct (strip_prefix _ _) as [rest|] eqn:Er; [|done]. exfalso.
    apply strip_prefix_Some in Er. apply (trim_start_head slash
      (let path := default file (strip_prefix (lit "memory://") file) in
       default path (strip_prefix (lit "memory:/") path))).
    change (head (normalize_path file) = Some slash). by rewrite Er.
  - apply map_lookup_filter_None. by left.
Qed.
