(* ===== verification/ByteCache.v ===== *)
(** * The byte cache and the storage that reads through it (idb-catalog)

    byte_cache/mod.rs and caching_storage.rs: the chunks of files that were read, by path and
    by fingerprint of the connection, in memory with a bound or on disk under hashed names,
    and the [Storage] that answers reads from them.  Correctness: both caches give back only
    what was put; the bound of the one in memory holds; a client of the storage sees what it
    would see without the cache as long as files do not change and are not read in part from
    their start. *)

From stdpp Require Import gmap.
From S2P Require Import Prelude Utf8 Numerals ByteRanges Storage.

#[export] Instance Range_eq_decision : EqDecision Range.
Proof. solve_decision. Defined.

(** ** Keys *)

Record ByteCacheKey := mkByteCacheKey { key_path : str; key_range : Range; key_cred : Z }.
#[export] Instance ByteCacheKey_eq_decision : EqDecision ByteCacheKey.
Proof. solve_decision. Defined.

(** [DefaultHasher] of the standard library, whose algorithm is not specified: the hash of a
    sequence of strings, and of a path with three integers. *)
Class DefaultHasher := {
  hash_strings : list str -> Z;
  hash_key : str -> Z -> Z -> Z -> Z;
}.

(** [{:016x}]. *)
Definition hex_digit (z : Z) : Z := if z <? 10 then 48 + z else 87 + z.
Definition hex16 (h : Z) : str :=
  (fun i => hex_digit ((h / 16 ^ i) mod 16)) <$> [15; 14; 13; 12; 11; 10; 9; 8; 7; 6; 5; 4; 3; 2; 1; 0].
Definition file_name {DH : DefaultHasher} (self : ByteCacheKey) : str :=
  hex16 (hash_key (key_path self) (range_start (key_range self)) (range_end (key_range self)) (key_cred self)).

Definition FINGERPRINT_KEYS : list string :=
  ["uri"; "warehouse"; "prefix"; "s3.endpoint"; "client.region"; "s3.path-style-access"; "s3.region";
   "s3.bucket"]%string.
Definition cred_fingerprint {DH : DefaultHasher} (props : gmap string str) : Z :=
  hash_strings (omap (fun key => v ← props !! key; if bool_decide (v = []) then None else Some v) FINGERPRINT_KEYS).

(** The interface [ByteCacheStore]. *)
Class ByteCacheStore (C : Type) := {
  get_range : C -> str -> Range -> Z -> result (option Bytes);
  get_full_object : C -> str -> Z -> option Bytes;
  put : C -> ByteCacheKey -> Bytes -> C;
}.

(** ** Chunks of a file *)

Record CachedChunk := mkCachedChunk { chunk_range : Range; chunk_data : Bytes }.
Abbreviation PathByteCache := (list CachedChunk).

(** The difference of an inverted range wraps; [Bytes::slice] panics on one. *)
Definition slice_cached_range (cached : Range) (data : Bytes) (want : Range) : result (option Bytes) :=
  if (range_start cached <=? range_start want) && (range_end want <=? range_end cached) then
    let start := range_start want - range_start cached in
    let len := wrapU 64 (range_end want - range_start want) in
    let finish := wrapU 64 (start + len) in
    if finish <=? Z.of_nat (length data) then Some <$> bytes_slice data start finish else Ok None
  else Ok None.
Fixpoint find_range (chunks : PathByteCache) (want : Range) : result (option Bytes) :=
  match chunks with
  | [] => Ok None
  | chunk :: chunks =>
      let? slice := slice_cached_range (chunk_range chunk) (chunk_data chunk) want in
      match slice with Some slice => Ok (Some slice) | None => find_range chunks want end
  end.
(** [Iterator::max_by_key]: the last of the greatest. *)
Definition max_by_key {A} (key : A -> Z) (l : list A) : option A :=
  foldl (fun best x => match best with
                       | Some b => if key b <=? key x then Some x else Some b
                       | None => Some x
                       end) None l.
Definition find_full_object (chunks : PathByteCache) : option Bytes :=
  chunk_data <$> max_by_key (fun c => range_end (chunk_range c))
    (filter (fun c => range_start (chunk_range c) = 0) chunks).
Definition insert_chunk (chunks : PathByteCache) (key : ByteCacheKey) (data : Bytes) :
    PathByteCache * option Z :=
  match data with
  | [] => (chunks, None)
  | _ =>
      match list_find (fun c => chunk_range c = key_range key) chunks with
      | Some (idx, c) =>
          (<[idx := mkCachedChunk (chunk_range c) data]> chunks, Some (Z.of_nat (length (chunk_data c))))
      | None => (chunks ++ [mkCachedChunk (key_range key) data], None)
      end
  end.
Definition chunks_len (chunks : PathByteCache) : Z :=
  foldr (fun c n => Z.of_nat (length (chunk_data c)) + n) 0 chunks.
Definition bytes_used (chunks : PathByteCache) : Z := wrapU 64 (chunks_len chunks).

(** ** No cache *)

#[export] Instance NoopByteCache : ByteCacheStore unit := {
  get_range _ _ _ _ := Ok None;
  get_full_object _ _ _ := None;
  put self _ _ := self;
}.

(** ** The cache in memory *)

Abbreviation ByPath := (gmap (str * Z) PathByteCache).
Record MemoryByteCache := mkMemoryByteCache { mem_by_path : ByPath; mem_bytes_used : Z; max_bytes : Z }.
Definition memory_new (max_bytes : Z) : MemoryByteCache := mkMemoryByteCache ∅ 0 max_bytes.

(** The first key of a [HashMap], in the order of its hashes. *)
Class HashOrder := first_key : ByPath -> option (str * Z).
Class HashOrderLaws {HO : HashOrder} := {
  first_key_Some by_path k : first_key by_path = Some k -> is_Some (by_path !! k);
  first_key_None by_path : first_key by_path = None -> by_path = ∅;
}.

Section memory.
Context {HO : HashOrder}.

(** The loop of [evict_if_needed]; [None] is out of fuel. *)
Fixpoint evict (fuel : nat) (used incoming max_bytes : Z) (by_path : ByPath) : option (Z * ByPath) :=
  if (max_bytes <? wrapU 64 (used + incoming)) && negb (bool_decide (by_path = ∅)) then
    match first_key by_path, fuel with
    | None, _ => Some (used, by_path)
    | Some _, O => None
    | Some removed_key, S fuel =>
        match by_path !! removed_key with
        | Some removed =>
            evict fuel (Z.max 0 (used - bytes_used removed)) incoming max_bytes (base.delete removed_key by_path)
        | None => evict fuel used incoming max_bytes by_path
        end
    end
  else Some (used, by_path).
Definition evict_if_needed (self : MemoryByteCache) (incoming : Z) : MemoryByteCache :=
  if wrapU 64 (mem_bytes_used self + incoming) <=? max_bytes self then self
  else
    match evict (size (mem_by_path self)) (mem_bytes_used self) incoming (max_bytes self) (mem_by_path self) with
    | Some (used, by_path) => mkMemoryByteCache by_path used (max_bytes self)
    | None => self
    end.
Definition sum_used (by_path : ByPath) : Z := map_fold (fun _ chunks total => bytes_used chunks + total) 0 by_path.
Definition memory_put (self : MemoryByteCache) (key : ByteCacheKey) (data : Bytes) : MemoryByteCache :=
  match data with
  | [] => self
  | _ =>
      let self := evict_if_needed self (Z.of_nat (length data)) in
      let path_key := (key_path key, key_cred key) in
      let entry := default [] (mem_by_path self !! path_key) in
      let by_path := <[path_key := fst (insert_chunk entry key data)]> (mem_by_path self) in
      mkMemoryByteCache by_path (wrapU 64 (sum_used by_path)) (max_bytes self)
  end.
Definition lookup_chunks {R : Type} (by_path : ByPath) (path : str) (cred : Z) (d : R) (f : PathByteCache -> R) : R :=
  match by_path !! (path, cred) with Some chunks => f chunks | None => d end.

#[export] Instance memory_byte_cache : ByteCacheStore MemoryByteCache := {
  get_range self path range cred :=
    lookup_chunks (mem_by_path self) path cred (Ok None) (fun chunks => find_range chunks range);
  get_full_object self path cred := lookup_chunks (mem_by_path self) path cred None find_full_object;
  put := memory_put;
}.
End memory.

(** ** The cache on disk *)

Section fs.
Context {DH : DefaultHasher}.

(** The files under [root]; [fs_writes] says which of the coming writes of the disk succeed. *)
Record FsByteCache := mkFsByteCache {
  fs_root : str; disk : gmap (list str) Bytes; fs_by_path : ByPath; fs_writes : list bool;
}.
Definition path_for (self : FsByteCache) (key : ByteCacheKey) : list str :=
  let name := file_name key in
  [fs_root self; take 2 name; take 2 (drop 2 name); name ++ lit ".bin"].
Definition fs_get (self : FsByteCache) (key : ByteCacheKey) : option Bytes := disk self !! path_for self key.
Definition fs_put (self : FsByteCache) (key : ByteCacheKey) (data : Bytes) : FsByteCache :=
  match data with
  | [] => self
  | _ =>
      let written := default true (head (fs_writes self)) in
      let path_key := (key_path key, key_cred key) in
      let entry := default [] (fs_by_path self !! path_key) in
      mkFsByteCache (fs_root self)
        (if written : bool then <[path_for self key := data]> (disk self) else disk self)
        (<[path_key := fst (insert_chunk entry key data)]> (fs_by_path self)) (tail (fs_writes self))
  end.

#[export] Instance fs_byte_cache : ByteCacheStore FsByteCache := {
  get_range self path range cred :=
    match fs_get self (mkByteCacheKey path range cred) with
    | Some hit => Ok (Some hit)
    | None => lookup_chunks (fs_by_path self) path cred (Ok None) (fun chunks => find_range chunks range)
    end;
  get_full_object self path cred := lookup_chunks (fs_by_path self) path cred None find_full_object;
  put := fs_put;
}.
End fs.

Arguments hex16 : simpl never.
Arguments file_name : simpl never.
Arguments path_for : simpl never.
Arguments fs_get : simpl never.

(** ** The storage with a cache (caching_storage.rs)

    The state is that of the storage inside and of the cache.  [cancelled] is whether the
    query was cancelled when the read begins. *)

Section caching.
Context {W : Type} {ST : Storage W} {C : Type} {BC : ByteCacheStore C} (cred_fp : Z).
Abbreviation Caching := (SR (W * C)).

(** [put] of what was read, unless it is empty. *)
Definition put_read (path : str) (range : Range) (data : Bytes) : Caching unit :=
  match data with
  | [] => mret tt
  | _ => sr_modify (fun s : W * C => (fst s, put (snd s) (mkByteCacheKey path range cred_fp) data))
  end.
(** [read_range_cached], and [CachingFileRead::read] after its test of cancellation. *)
Definition read_range_cached (path : str) (range : Range) (fetch : result Bytes) : Caching Bytes :=
  let! s := sr_get in
  let! hit := sr_lift (get_range (snd s) path range cred_fp) in
  match hit with
  | Some hit => mret hit
  | None =>
      let! data := sr_lift fetch in
      let! _ := put_read path range data in
      mret data
  end.

Record CachingFileRead := mkCachingFileRead { cfr_inner : FileRead W; cfr_path : str }.
Definition caching_reader (path : str) : Caching CachingFileRead :=
  let! s := sr_get in
  let! inner := sr_lift (reader (fst s) path) in
  mret (mkCachingFileRead inner path).
Definition caching_read_range (cancelled : bool) (self : CachingFileRead) (range : Range) : Caching Bytes :=
  if cancelled then mthrow (Error Unexpected)
  else
    let! s := sr_get in
    read_range_cached (cfr_path self) range (read_range (fst s) (cfr_inner self) range).

Definition caching_read (cancelled : bool) (path : str) : Caching Bytes :=
  if cancelled then mthrow (Error Unexpected)
  else
    let! s := sr_get in
    match get_full_object (snd s) path cred_fp with
    | Some hit => mret hit
    | None =>
        let! size := sr_lift (metadata (fst s) path) in
        if size =? 0 then sr_lift (read (fst s) path)
        else read_range_cached path (mkRange 0 size) (read (fst s) path)
    end.
(** The other operations are those of the storage inside. *)
Definition on_inner {A} (f : W -> result (A * W)) : Caching A :=
  fun s => let? r := f (fst s) in Ok (fst r, (snd r, snd s)).
Definition caching_exists (path : str) : Caching bool :=
  on_inner (fun w => let? b := exists_ w path in Ok (b, w)).
Definition caching_metadata (path : str) : Caching Z :=
  on_inner (fun w => let? size := metadata w path in Ok (size, w)).
Definition caching_write (path : str) (bs : Bytes) : Caching unit :=
  on_inner (fun w => let? w := write w path bs in Ok (tt, w)).
Definition caching_delete (path : str) : Caching unit :=
  on_inner (fun w => let? w := delete w path in Ok (tt, w)).
Definition caching_delete_prefix (path : str) : Caching unit :=
  on_inner (fun w => let? w := delete_prefix w path in Ok (tt, w)).
End caching.

(** ** What a cache promises

    [held c key data]: the cache has [data] for the range of [key].  A cache answers with
    pieces of what it holds and holds what was put, for keys that its names tell apart. *)
Class ByteCacheLaws (C : Type) {BC : ByteCacheStore C} (dom : ByteCacheKey -> Prop) := {
  held : C -> ByteCacheKey -> Bytes -> Prop;
  get_range_held c path range cred :
    dom (mkByteCacheKey path range cred) ->
    match get_range c path range cred with
    | Ok (Some bytes) =>
        exists range' data, held c (mkByteCacheKey path range' cred) data
          /\ ((range' = range /\ bytes = data) \/ slice_cached_range range' data range = Ok (Some bytes))
    | Ok None => True
    | Err f => exists range' data, held c (mkByteCacheKey path range' cred) data
        /\ slice_cached_range range' data range = Err f
    end;
  get_full_held c path cred bytes :
    get_full_object c path cred = Some bytes ->
    exists finish, held c (mkByteCacheKey path (mkRange 0 finish) cred) bytes;
  put_held c key data key' data' :
    dom key -> held (put c key data) key' data' -> held c key' data' \/ (key' = key /\ data' = data);
}.

(** *** Chunks *)

Lemma find_range_chunk chunks want :
  match find_range chunks want with
  | Ok (Some bytes) => exists chunk, chunk ∈ chunks
      /\ slice_cached_range (chunk_range chunk) (chunk_data chunk) want = Ok (Some bytes)
  | Ok None => True
  | Err f => exists chunk, chunk ∈ chunks
      /\ slice_cached_range (chunk_range chunk) (chunk_data chunk) want = Err f
  end.
Proof.
  induction chunks as [|chunk chunks IH]; [done|]. cbn [find_range].
  destruct (slice_cached_range (chunk_range chunk) (chunk_data chunk) want) as [[bytes|]|f] eqn:E; cbn.
  - exists chunk. split; [constructor|done].
  - destruct (find_range chunks want) as [[bytes|]|f]; [|done|];
      destruct IH as (c & Hc & H); exists c; (split; [by constructor|done]).
  - exists chunk. split; [constructor|done].
Qed.

Lemma max_by_key_elem {A} (key : A -> Z) l x : max_by_key key l = Some x -> x ∈ l.
Proof.
  unfold max_by_key. assert (forall best, foldl (fun best x => match best with
     | Some b => if key b <=? key x then Some x else Some b | None => Some x end) best l = Some x ->
     best = Some x \/ x ∈ l) as H; [|intros E; destruct (H None E); [done|done]].
  induction l as [|y l IH]; intros best; cbn [foldl]; [by left|]. intros E. apply IH in E as [E|E]; [|by right; constructor].
  destruct best as [b|]; [destruct (key b <=? key y)|]; injection E as <-; first [by left|by right; constructor].
Qed.
Lemma find_full_chunk chunks bytes :
  find_full_object chunks = Some bytes ->
  exists finish, mkCachedChunk (mkRange 0 finish) bytes ∈ chunks.
Proof.
  unfold find_full_object. intros H. apply fmap_Some in H as (c & Hc & ->). apply max_by_key_elem in Hc.
  apply list_elem_of_filter in Hc as [Hs Hc]. exists (range_end (chunk_range c)). by destruct c as [[s f] d]; cbn in *; subst s.
Qed.
Lemma insert_chunk_elem chunks key data c :
  c ∈ fst (insert_chunk chunks key data) -> c ∈ chunks \/ c = mkCachedChunk (key_range key) data.
Proof.
  unfold insert_chunk. destruct data as [|b data]; [by left|].
  destruct (list_find _ chunks) as [[idx c']|] eqn:E; cbn.
  - apply list_find_Some in E as (Hc' & Hr & _). rewrite <- Hr. intros Hc.
    apply list_elem_of_lookup in Hc as [j Hc]. apply list_lookup_insert_Some in Hc as [(_ & <- & _)|[_ Hc]]; [by right|].
    left. by eapply list_elem_of_lookup_2.
  - intros Hc. apply elem_of_app in Hc as [Hc|Hc]; [by left|]. apply list_elem_of_singleton in Hc as ->. by right.
Qed.

(** *** The caches have the laws *)

#[export] Instance noop_laws dom : ByteCacheLaws unit dom.
Proof. by exists (fun _ _ _ => False). Defined.

Definition chunk_held (by_path : ByPath) (key : ByteCacheKey) (data : Bytes) : Prop :=
  exists chunks, by_path !! (key_path key, key_cred key) = Some chunks
    /\ mkCachedChunk (key_range key) data ∈ chunks.
Lemma lookup_range_held by_path path range cred :
  match lookup_chunks by_path path cred (Ok None) (fun chunks => find_range chunks range) with
  | Ok (Some bytes) => exists range' data, chunk_held by_path (mkByteCacheKey path range' cred) data
      /\ slice_cached_range range' data range = Ok (Some bytes)
  | Ok None => True
  | Err f => exists range' data, chunk_held by_path (mkByteCacheKey path range' cred) data
      /\ slice_cached_range range' data range = Err f
  end.
Proof.
  unfold lookup_chunks. destruct (by_path !! (path, cred)) as [chunks|] eqn:E; [|done].
  pose proof (find_range_chunk chunks range) as H. destruct (find_range chunks range) as [[bytes|]|f]; [|done|];
    destruct H as ([r d] & Hc & H); exists r, d; (split; [by exists chunks|done]).
Qed.
Lemma lookup_full_held by_path path cred bytes :
  lookup_chunks by_path path cred None find_full_object = Some bytes ->
  exists finish, chunk_held by_path (mkByteCacheKey path (mkRange 0 finish) cred) bytes.
Proof.
  unfold lookup_chunks. destruct (by_path !! (path, cred)) as [chunks|] eqn:E; [|done].
  intros (finish & H)%find_full_chunk. exists finish. by exists chunks.
Qed.
Lemma insert_held by_path key data key' data' :
  chunk_held (<[(key_path key, key_cred key) := fst (insert_chunk (default []
    (by_path !! (key_path key, key_cred key))) key data)]> by_path) key' data' ->
  chunk_held by_path key' data' \/ (key' = key /\ data' = data).
Proof.
  intros (chunks & H & Hc). destruct (decide ((key_path key, key_cred key) = (key_path key', key_cred key'))) as [E|E].
  - rewrite E, lookup_insert_eq in H. injection H as <-. apply insert_chunk_elem in Hc as [Hc|Hc].
    + left. rewrite <- E in Hc. destruct (by_path !! (key_path key, key_cred key)) as [chunks|] eqn:El.
      * exists chunks. by rewrite <- E.
      * by apply not_elem_of_nil in Hc.
    + right. injection Hc as Hr ->. injection E as Hp Hf. destruct key, key'. cbn in *. by subst.
  - rewrite lookup_insert_ne in H by done. left. by exists chunks.
Qed.

Section memory_laws.
Context {HO : HashOrder} {HL : HashOrderLaws}.

(** Eviction only removes. *)
Lemma evict_submap fuel used incoming bound by_path used' by_path' :
  evict fuel used incoming bound by_path = Some (used', by_path') -> by_path' ⊆ by_path.
Proof.
  revert used by_path. induction fuel as [|fuel IH]; intros used by_path; cbn [evict];
    (destruct (_ && _); [|by intros [= _ <-]]); (destruct (first_key by_path) as [k|]; [|by intros [= _ <-]]); [done|].
  destruct (by_path !! k); intros H; apply IH in H; [|done]. etrans; [exact H|apply delete_subseteq].
Qed.
Lemma evicted_held self incoming key data :
  chunk_held (mem_by_path (evict_if_needed self incoming)) key data -> chunk_held (mem_by_path self) key data.
Proof.
  unfold evict_if_needed. destruct (_ <=? _); [done|]. destruct (evict _ _ _ _ _) as [[used by_path]|] eqn:E; [|done].
  intros (chunks & H & Hc). exists chunks. split; [|done]. by eapply lookup_weaken, evict_submap.
Qed.

#[export] Instance memory_laws dom : ByteCacheLaws MemoryByteCache dom.
Proof.
  exists (fun c => chunk_held (mem_by_path c)).
  - intros c path range cred _. cbn. pose proof (lookup_range_held (mem_by_path c) path range cred) as H.
    destruct (lookup_chunks _ _ _ _ _) as [[bytes|]|f]; [|done|]; destruct H as (r & d & ? & ?); exists r, d; auto.
  - intros c path cred bytes. apply lookup_full_held.
  - intros c key data key' data' _. cbn. unfold memory_put. destruct data as [|b data]; [by left|].
    intros [H|H]%insert_held; [|by right]. left. by apply evicted_held in H.
Defined.

(** The loop of the eviction ends, with room for what comes in or with nothing left. *)
Lemma evict_ends fuel used incoming bound by_path :
  (size by_path <= fuel)%nat ->
  exists used' by_path', evict fuel used incoming bound by_path = Some (used', by_path')
    /\ (wrapU 64 (used' + incoming) <= bound \/ by_path' = ∅).
Proof using HL.
  revert used by_path. induction fuel as [|fuel IH]; intros used by_path Hs; cbn [evict].
  - assert (by_path = ∅) as -> by (apply map_size_empty_iff; lia).
    rewrite (bool_decide_true (∅ = ∅)), andb_false_r by done. eexists _, _. split; [done|by right].
  - destruct (Z.ltb_spec bound (wrapU 64 (used + incoming))) as [Hlt|Hle]; cbn [andb].
    + case_bool_decide as He; cbn [negb]; [eexists _, _; split; [done|by right]|].
      destruct (first_key by_path) as [k|] eqn:Ek.
      * apply first_key_Some in Ek as [chunks Hk]. rewrite Hk. apply IH. rewrite map_size_delete_Some by done. lia.
      * by apply first_key_None in Ek.
    + eexists _, _. split; [done|by left].
Qed.
End memory_laws.

(** Names that tell the keys of a use apart. *)
Lemma fs_name_inj {DH : DefaultHasher} self key key' :
  path_for self key = path_for self key' -> file_name key = file_name key'.
Proof.
  unfold path_for. generalize (file_name key), (file_name key'). intros n n' H.
  apply (f_equal (fun l => nth 3 l [])) in H. by apply app_inj_2 in H as [H _].
Qed.

#[export] Instance fs_laws {DH : DefaultHasher} (dom : ByteCacheKey -> Prop)
    (Hinj : forall key key', dom key -> dom key' -> file_name key = file_name key' -> key = key') :
  ByteCacheLaws FsByteCache dom.
Proof.
  exists (fun c key data => (dom key /\ fs_get c key = Some data) \/ chunk_held (fs_by_path c) key data).
  - intros c path range cred Hdom. cbn. destruct (fs_get c (mkByteCacheKey path range cred)) as [hit|] eqn:E.
    + exists range, hit. split; [left; by split|by left].
    + pose proof (lookup_range_held (fs_by_path c) path range cred) as H.
      destruct (lookup_chunks _ _ _ _ _) as [[bytes|]|f]; [|done|]; destruct H as (r & d & ? & ?); exists r, d; auto.
  - intros c path cred bytes (finish & H)%lookup_full_held. exists finish. by right.
  - intros c key data key' data' Hdom. cbn. unfold fs_put. destruct data as [|b data]; [by left|].
    intros [[Hdom' H]|[H|H]%insert_held]; [|by left; right|by right].
    unfold fs_get in H. change (path_for _ key') with (path_for c key') in H. cbn [disk] in H.
    destruct (default true (head (fs_writes c))); [|by left; left].
    destruct (decide (path_for c key = path_for c key')) as [E|E].
    + right. apply fs_name_inj, Hinj in E as <-; [|done..]. split; [done|].
      rewrite lookup_insert_eq in H. by injection H as <-.
    + left; left. split; [done|]. by rewrite lookup_insert_ne in H.
Defined.

(** ** Reading through the cache

    The operations of a client, its answers (a failure has one answer: the cached storage
    asks for the size of a file before it reads it, so its error may be another one), and its
    runs with and without the cache. *)
Inductive StorageOp :=
  | OpRead (cancelled : bool) (path : str)
  | OpReadRange (cancelled : bool) (path : str) (range : Range)
  | OpExists (path : str)
  | OpMetadata (path : str)
  | OpWrite (path : str) (bs : Bytes)
  | OpDelete (path : str)
  | OpDeletePrefix (path : str).
Inductive Answer := ABytes (bs : Bytes) | AFlag (b : bool) | ASize (size : Z) | ADone | AFailed.

Definition answer {S A} (f : A -> Answer) (m : SR S A) (s : S) : Answer * S :=
  match m s with Ok (a, s') => (f a, s') | Err _ => (AFailed, s) end.
Fixpoint run_ops {S} (step : StorageOp -> S -> Answer * S) (ops : list StorageOp) (s : S) : list Answer * S :=
  match ops with
  | [] => ([], s)
  | o :: ops =>
      let s1 := step o s in
      let s2 := run_ops step ops (snd s1) in
      (fst s1 :: fst s2, snd s2)
  end.

Section transparency.
Context {W : Type} {ST : Storage W} {SL : StorageLaws W} {C : Type} {BC : ByteCacheStore C} (cred_fp : Z).
Context (dom : ByteCacheKey -> Prop) {CL : ByteCacheLaws C dom}.

Definition cached_step (o : StorageOp) : W * C -> Answer * (W * C) :=
  match o with
  | OpRead cancelled path => answer ABytes (caching_read cred_fp cancelled path)
  | OpReadRange cancelled path range =>
      answer ABytes (let! r := caching_reader path in caching_read_range cred_fp cancelled r range)
  | OpExists path => answer AFlag (caching_exists path)
  | OpMetadata path => answer ASize (caching_metadata path)
  | OpWrite path bs => answer (fun _ => ADone) (caching_write path bs)
  | OpDelete path => answer (fun _ => ADone) (caching_delete path)
  | OpDeletePrefix path => answer (fun _ => ADone) (caching_delete_prefix path)
  end.
Definition plain_bytes (cancelled : bool) (w : W) (r : result Bytes) : Answer * W :=
  (if cancelled then AFailed else match r with Ok bs => ABytes bs | Err _ => AFailed end, w).
Definition plain_change (w : W) (r : result W) : Answer * W :=
  match r with Ok w' => (ADone, w') | Err _ => (AFailed, w) end.
Definition plain_step (o : StorageOp) (w : W) : Answer * W :=
  match o with
  | OpRead cancelled path => plain_bytes cancelled w (read w path)
  | OpReadRange cancelled path range => plain_bytes cancelled w (let? r := reader w path in read_range w r range)
  | OpExists path => (match exists_ w path with Ok b => AFlag b | Err _ => AFailed end, w)
  | OpMetadata path => (match metadata w path with Ok size => ASize size | Err _ => AFailed end, w)
  | OpWrite path bs => plain_change w (write w path bs)
  | OpDelete path => plain_change w (delete w path)
  | OpDeletePrefix path => plain_change w (delete_prefix w path)
  end.

(** The runs for which the cache is transparent: files that were read do not change, and no
    proper part of a file is read from its start.  Ranges are not inverted, and the keys of
    the reads are in [dom]. *)
Definition reads_of (o : StorageOp) : list str :=
  match o with OpRead _ path | OpReadRange _ path _ => [path] | _ => [] end.
Definition op_ok (o : StorageOp) (w : W) : Prop :=
  match o with
  | OpRead _ path => forall bytes, content w path = Some bytes ->
      Z.of_nat (length bytes) < 2 ^ 64
      /\ dom (mkByteCacheKey path (mkRange 0 (Z.of_nat (length bytes))) cred_fp)
  | OpReadRange _ path range =>
      0 <= range_start range <= range_end range /\ range_end range < 2 ^ 64
      /\ dom (mkByteCacheKey path range cred_fp)
      /\ forall bytes, content w path = Some bytes -> range_start range = 0 -> 0 < range_end range ->
           Z.of_nat (length bytes) <= range_end range
  | _ => True
  end.
Fixpoint admissible (seen : list str) (ops : list StorageOp) (w : W) : Prop :=
  match ops with
  | [] => True
  | o :: ops =>
      let w' := snd (plain_step o w) in
      op_ok o w /\ (forall path, path ∈ seen -> content w' path = content w path)
      /\ admissible (reads_of o ++ seen) ops w'
  end.

(** *** The invariant *)

Definition piece (bytes : Bytes) (range : Range) : Bytes :=
  take (Z.to_nat (range_end range - range_start range)) (drop (Z.to_nat (range_start range)) bytes).
Definition piece_of (bytes data : Bytes) (range : Range) : Prop :=
  0 <= range_start range <= range_end range /\ range_end range <= Z.of_nat (length bytes)
  /\ data = piece bytes range.
Definition faithful (seen : list str) (w : W) (c : C) : Prop :=
  forall key data, held c key data -> key_cred key = cred_fp ->
    key_path key ∈ seen /\ exists bytes, content w (key_path key) = Some bytes
      /\ piece_of bytes data (key_range key)
      /\ (range_start (key_range key) = 0 -> range_end (key_range key) = Z.of_nat (length bytes)).

Lemma bytes_slice_piece {bytes : Bytes} {start finish} :
  start <= finish -> finish <= Z.of_nat (length bytes) ->
  bytes_slice bytes start finish = Ok (piece bytes (mkRange start finish)).
Proof. intros H1 H2. unfold bytes_slice. by rewrite (proj2 (Z.leb_le _ _) H1), (proj2 (Z.leb_le _ _) H2). Qed.
Lemma piece_whole bytes : piece bytes (mkRange 0 (Z.of_nat (length bytes))) = bytes.
Proof. unfold piece. cbn [range_start range_end]. rewrite Z.sub_0_r, Nat2Z.id, drop_0. by apply take_ge. Qed.

Lemma slice_of_piece bytes data cached want :
  piece_of bytes data cached -> 0 <= range_start want <= range_end want -> range_end want < 2 ^ 64 ->
  match slice_cached_range cached data want with
  | Ok (Some b) => piece_of bytes b want
  | Ok None => True
  | Err _ => False
  end.
Proof.
  intros (Hc & Hlen & ->) Hw H64. unfold slice_cached_range.
  destruct (Z.leb_spec (range_start cached) (range_start want)) as [H1|]; [|done].
  destruct (Z.leb_spec (range_end want) (range_end cached)) as [H2|]; [|done]. cbn [andb].
  rewrite (wrapU_id 64 (range_end want - range_start want)) by (apply inU_spec; lia).
  rewrite wrapU_id by (apply inU_spec; lia).
  replace (range_start want - range_start cached + (range_end want - range_start want))
    with (range_end want - range_start cached) by lia.
  destruct (Z.leb_spec (range_end want - range_start cached) (Z.of_nat (length (piece bytes cached)))) as [H3|]; [|done].
  rewrite bytes_slice_piece by lia. cbn. split; [lia|]. split; [lia|]. unfold piece. cbn [range_start range_end].
  rewrite skipn_firstn_comm, firstn_firstn, drop_drop. f_equal; [lia|]. f_equal. lia.
Qed.

Lemma faithful_more seen path w c : faithful seen w c -> faithful (path :: seen) w c.
Proof. intros H key data Hk Hf. destruct (H key data Hk Hf) as [Hs ?]. split; [by constructor|done]. Qed.

Lemma put_read_faithful seen w c path range data bytes :
  faithful seen w c -> dom (mkByteCacheKey path range cred_fp) ->
  content w path = Some bytes -> piece_of bytes data range ->
  (range_start range = 0 -> range_end range = Z.of_nat (length bytes) \/ data = []) ->
  exists c', put_read cred_fp path range data (w, c) = Ok (tt, (w, c')) /\ faithful (path :: seen) w c'.
Proof.
  intros Hc Hdom Hw Hp H0. destruct data as [|b data].
  { exists c. split; [done|]. by apply faithful_more. }
  eexists. split; [done|]. intros key d Hk Hf. cbn [fst snd] in Hk.
  destruct (put_held _ _ _ _ _ Hdom Hk) as [Hk'|[-> ->]].
  - by apply (faithful_more _ path _ _ Hc).
  - split; [constructor|]. exists bytes. split; [done|]. split; [done|]. intros E. by destruct (H0 E).
Qed.

(** A read through the cache of a range that [fetch] reads from the storage. *)
Lemma read_range_cached_spec seen w c path range fetch :
  faithful seen w c -> dom (mkByteCacheKey path range cred_fp) ->
  0 <= range_start range <= range_end range -> range_end range < 2 ^ 64 ->
  (forall bytes, content w path = Some bytes ->
     fetch = if range_end range <=? Z.of_nat (length bytes) then Ok (piece bytes range) else Err (Error DataInvalid)) ->
  (content w path = None -> is_ok fetch = false) ->
  (forall bytes, content w path = Some bytes -> range_start range = 0 -> 0 < range_end range ->
     Z.of_nat (length bytes) <= range_end range) ->
  match read_range_cached cred_fp path range fetch (w, c) with
  | Ok (d, (w', c')) => fetch = Ok d /\ w' = w /\ faithful (path :: seen) w c'
  | Err _ => is_ok fetch = false
  end.
Proof.
  intros Hc Hdom Hr H64 Hsome Hnone H0. unfold read_range_cached. unfold mbind, sr_bind, sr_get. cbn [fst snd].
  unfold sr_lift. pose proof (get_range_held c path range cred_fp Hdom) as Hg.
  assert (forall range' data, held c (mkByteCacheKey path range' cred_fp) data -> exists bytes,
    content w path = Some bytes /\ piece_of bytes data range') as Hh.
  { intros range' data Hk. destruct (Hc _ _ Hk eq_refl) as (_ & bytes & ? & ? & _). by exists bytes. }
  destruct (get_range c path range cred_fp) as [[hit|]|f].
  - destruct Hg as (range' & data & Hk & Hhit). destruct (Hh _ _ Hk) as (bytes & Hw & Hp).
    assert (piece_of bytes hit range) as Hpiece.
    { destruct Hhit as [[-> ->]|Hs]; [done|]. pose proof (slice_of_piece bytes data range' range Hp Hr H64) as H.
      by rewrite Hs in H. }
    destruct Hpiece as (_ & Hlen & ->). rewrite (Hsome bytes Hw), (proj2 (Z.leb_le _ _) Hlen).
    split; [done|]. split; [done|]. by apply faithful_more.
  - destruct (content w path) as [bytes|] eqn:Hw; [|specialize (Hnone eq_refl); by destruct fetch].
    specialize (Hsome bytes eq_refl). rewrite Hsome. destruct (Z.leb_spec (range_end range) (Z.of_nat (length bytes)));
      [|done].
    destruct (put_read_faithful seen w c path range (piece bytes range) bytes Hc Hdom Hw) as (c' & -> & Hf).
    { split; [lia|]. by split. }
    { intros E. specialize (H0 bytes eq_refl E). unfold piece. rewrite E.
      destruct (Z.eq_dec (range_end range) 0) as [->|]; [right; done|left; lia]. }
    by cbn.
  - destruct Hg as (range' & data & Hk & Hs). destruct (Hh _ _ Hk) as (bytes & _ & Hp).
    pose proof (slice_of_piece bytes data range' range Hp Hr H64) as H. by rewrite Hs in H.
Qed.

Lemma caching_read_spec seen w c path :
  faithful seen w c -> op_ok (OpRead false path) w ->
  match caching_read cred_fp false path (w, c) with
  | Ok (d, (w', c')) => read w path = Ok d /\ w' = w /\ faithful (path :: seen) w c'
  | Err _ => is_ok (read w path) = false
  end.
Proof.
  intros Hc Hok. unfold caching_read. unfold mbind at 1, sr_bind at 1, sr_get. cbn [fst snd].
  pose proof (read_content w path) as Hr. pose proof (metadata_content w path) as Hm.
  destruct (get_full_object c path cred_fp) as [hit|] eqn:Eg.
  { apply get_full_held in Eg as (finish & Hk). destruct (Hc _ _ Hk eq_refl) as (_ & bytes & Hw & Hp & H0).
    cbn [key_path] in Hw. rewrite Hw in Hr. specialize (H0 eq_refl). cbn [key_range range_end] in H0.
    destruct Hp as (_ & _ & ->). rewrite Hr. split; [|split; [done|by apply faithful_more]].
    cbn [key_range]. by rewrite H0, piece_whole. }
  destruct (content w path) as [bytes|] eqn:Hw.
  - destruct (Hok bytes Hw) as [H64 Hdom]. unfold mbind at 1, sr_bind at 1, sr_lift at 1. rewrite Hm.
    destruct (Z.eqb_spec (Z.of_nat (length bytes)) 0) as [Hz|Hz].
    + unfold sr_lift. rewrite Hr. split; [done|]. split; [done|]. by apply faithful_more.
    + apply read_range_cached_spec; cbn [range_start range_end]; try done; [lia| | |].
      * intros bytes' Hw'. rewrite Hw in Hw'. injection Hw' as <-. by rewrite Hr, Z.leb_refl, piece_whole.
      * by rewrite Hw.
      * intros bytes' Hw' _ _. rewrite Hw in Hw'. by injection Hw' as <-.
  - unfold mbind at 1, sr_bind at 1, sr_lift at 1. destruct (metadata w path); [done|]. done.
Qed.

Lemma caching_range_spec seen w c path range :
  faithful seen w c -> op_ok (OpReadRange false path range) w ->
  match (let! r := caching_reader path in caching_read_range cred_fp false r range) (w, c) with
  | Ok (d, (w', c')) => (let? r := reader w path in read_range w r range) = Ok d /\ w' = w /\ faithful (path :: seen) w c'
  | Err _ => is_ok (let? r := reader w path in read_range w r range) = false
  end.
Proof.
  intros Hc (Hr & H64 & Hdom & H0). pose proof (reader_content w path) as Hrd.
  unfold mbind at 1, sr_bind at 1. unfold caching_reader, mbind at 1, sr_bind at 1, sr_get. cbn [fst snd].
  unfold mbind at 1, sr_bind at 1, sr_lift.
  destruct (content w path) as [bytes|] eqn:Hw; [|by destruct (reader w path)].
  destruct Hrd as (r & -> & Hrd). cbn [cfr_inner]. unfold mret at 1, sr_ret at 1, caching_read_range.
  unfold mbind at 1, sr_bind at 1, sr_get. cbn [fst snd cfr_path cfr_inner mbind result_bind].
  apply read_range_cached_spec; try done; [| |by rewrite Hw].
  - intros bytes' Hw'. rewrite Hw in Hw'. injection Hw' as <-. destruct range as [start finish].
    cbn [range_start range_end] in *. rewrite (Hrd w _ start finish eq_refl) by (apply inU_spec; lia).
    destruct (Z.leb_spec finish (Z.of_nat (length bytes))); [|by rewrite andb_false_r].
    destruct (Z.leb_spec start (Z.of_nat (length bytes))); [|lia]. by apply bytes_slice_piece; lia.
  - by rewrite Hw.
Qed.

Lemma faithful_kept seen w w' c :
  faithful seen w c -> (forall path, path ∈ seen -> content w' path = content w path) -> faithful seen w' c.
Proof.
  intros Hc Hk key data Hh Hf. destruct (Hc key data Hh Hf) as (Hs & bytes & Hw & ?). split; [done|].
  exists bytes. split; [|done]. by rewrite Hk.
Qed.

(** One operation, with and without the cache. *)
Lemma step_transparent o seen w c :
  faithful seen w c -> op_ok o w ->
  (forall path, path ∈ seen -> content (snd (plain_step o w)) path = content w path) ->
  fst (cached_step o (w, c)) = fst (plain_step o w)
  /\ fst (snd (cached_step o (w, c))) = snd (plain_step o w)
  /\ faithful (reads_of o ++ seen) (snd (plain_step o w)) (snd (snd (cached_step o (w, c)))).
Proof.
  intros Hc Hok Hkept. destruct o as [cancelled path|cancelled path range|path|path|path bs|path|path].
  - destruct cancelled; [cbn; split_and!; try done; by apply faithful_more|].
    pose proof (caching_read_spec seen w c path Hc Hok) as H. cbn [cached_step plain_step]. unfold answer, plain_bytes.
    destruct (caching_read _ _ _ _) as [[d [w' c']]|e].
    + destruct H as (-> & -> & H). done.
    + destruct (read w path); [done|]. split_and!; try done. by apply faithful_more.
  - destruct cancelled.
    { assert (cached_step (OpReadRange true path range) (w, c) = (AFailed, (w, c))) as ->.
      { cbn [cached_step]. unfold answer, mbind, sr_bind. by destruct (caching_reader path (w, c)) as [[r s]|e]. }
      split_and!; try done. by apply faithful_more. }
    pose proof (caching_range_spec seen w c path range Hc Hok) as H. cbn [cached_step plain_step].
    unfold answer, plain_bytes. destruct ((let! r := caching_reader path in _) (w, c)) as [[d [w' c']]|e].
    + destruct H as (-> & -> & H). done.
    + destruct (let? r := reader w path in _); [done|]. split_and!; try done. by apply faithful_more.
  - cbn. unfold answer, caching_exists, on_inner. cbn. by destruct (exists_ w path).
  - cbn. unfold answer, caching_metadata, on_inner. cbn. by destruct (metadata w path).
  - apply (faithful_kept _ _ _ _ Hc) in Hkept. revert Hkept. cbn. unfold answer, caching_write, on_inner. cbn.
    by destruct (write w path bs).
  - apply (faithful_kept _ _ _ _ Hc) in Hkept. revert Hkept. cbn. unfold answer, caching_delete, on_inner. cbn.
    by destruct (delete w path).
  - apply (faithful_kept _ _ _ _ Hc) in Hkept. revert Hkept. cbn. unfold answer, caching_delete_prefix, on_inner. cbn.
    by destruct (delete_prefix w path).
Qed.

(** C33 Reads through the byte cache are transparent: for any sequence of reads of files and of
    ranges, queries for existence and size, writes and deletes (there is no listing), the
    storage with a cache gives the answers of the storage itself, and leaves the same files.
    The run has to be [admissible]: files that were read do not change; no proper part of a
    file is read from its start; ranges are not inverted and within 64 bits; and the keys of
    the reads are among those that the cache tells apart.  The cache in memory tells all keys
    apart; that on disk only those with different hashed names
    ([name_collision_serves_other_file]). *)
Theorem caching_storage_transparent ops : forall seen w c,
  faithful seen w c -> admissible seen ops w ->
  fst (run_ops cached_step ops (w, c)) = fst (run_ops plain_step ops w)
  /\ fst (snd (run_ops cached_step ops (w, c))) = snd (run_ops plain_step ops w).
Proof.
  induction ops as [|o ops IH]; intros seen w c Hc Ha; [done|]. destruct Ha as (Hok & Hkept & Ha).
  destruct (step_transparent o seen w c Hc Hok Hkept) as (H1 & H2 & H3). cbn [run_ops fst snd].
  destruct (cached_step o (w, c)) as [a [w' c']]. cbn [fst snd] in *. subst w'.
  destruct (IH _ _ _ H3 Ha) as [-> ->]. by rewrite H1.
Qed.
End transparency.

(** ** The bound of the cache in memory *)

Definition total_len (by_path : ByPath) : Z := map_fold (fun _ chunks total => chunks_len chunks + total) 0 by_path.

Lemma chunks_len_cons c chunks : chunks_len (c :: chunks) = Z.of_nat (length (chunk_data c)) + chunks_len chunks.
Proof. done. Qed.
Lemma chunks_len_nonneg chunks : 0 <= chunks_len chunks.
Proof. induction chunks as [|c chunks IH]; [done|]. rewrite chunks_len_cons. lia. Qed.
Lemma chunks_len_app a b : chunks_len (a ++ b) = chunks_len a + chunks_len b.
Proof. induction a as [|c a IH]; [done|]. cbn [app]. rewrite !chunks_len_cons, IH. apply Z.add_assoc. Qed.
Lemma insert_chunk_len chunks key data :
  chunks_len (fst (insert_chunk chunks key data)) <= chunks_len chunks + Z.of_nat (length data).
Proof.
  unfold insert_chunk. destruct data as [|b data]; [cbn [fst length]; lia|].
  destruct (list_find _ chunks) as [[idx c]|] eqn:E; cbn [fst].
  - apply list_find_Some in E as (Hc & _). rewrite insert_take_drop by (by eapply lookup_lt_Some).
    pose proof (f_equal chunks_len (take_drop_middle chunks idx c Hc)) as E.
    rewrite !chunks_len_app, !chunks_len_cons in *. cbn [chunk_data]. lia.
  - rewrite chunks_len_app, chunks_len_cons. cbn [chunk_data]. change (chunks_len []) with 0. lia.
Qed.

Lemma total_len_delete by_path k chunks :
  by_path !! k = Some chunks -> total_len by_path = chunks_len chunks + total_len (base.delete k by_path).
Proof. intros H. unfold total_len. rewrite (map_fold_delete_L _ _ k chunks); [done|intros; lia|done]. Qed.
Lemma total_len_nonneg by_path : 0 <= total_len by_path.
Proof.
  unfold total_len. apply (map_fold_weak_ind (fun z _ => 0 <= z)); [done|]. intros k chunks m r _ Hr.
  pose proof (chunks_len_nonneg chunks). lia.
Qed.
Lemma total_len_delete_le by_path k : total_len (base.delete k by_path) <= total_len by_path.
Proof.
  destruct (by_path !! k) as [chunks|] eqn:E; [|by rewrite delete_id].
  rewrite (total_len_delete by_path k chunks E). pose proof (chunks_len_nonneg chunks). lia.
Qed.
Lemma total_len_insert by_path k chunks :
  total_len (<[k := chunks]> by_path) = chunks_len chunks + total_len (base.delete k by_path).
Proof. rewrite (total_len_delete _ k chunks) by apply lookup_insert_eq. by rewrite delete_insert_eq. Qed.
Lemma sum_used_total by_path : wrapU 64 (sum_used by_path) = wrapU 64 (total_len by_path).
Proof.
  unfold sum_used, total_len, wrapU. induction by_path as [|k chunks m Hk Hf IH] using map_first_key_ind; [done|].
  rewrite !map_fold_insert_first_key by done. revert IH.
  generalize (map_fold (fun _ chunks total => bytes_used chunks + total) 0 m),
    (map_fold (fun _ chunks total => chunks_len chunks + total) 0 m).
  intros x y IH. unfold bytes_used, wrapU. rewrite Zplus_mod_idemp_l, Z.add_mod, IH, <- Z.add_mod by done. done.
Qed.

Section bound.
Context {HO : HashOrder} {HL : HashOrderLaws}.

Lemma evict_total fuel incoming bound by_path used' by_path' :
  0 <= incoming -> total_len by_path + incoming < 2 ^ 64 -> (size by_path <= fuel)%nat ->
  evict fuel (total_len by_path) incoming bound by_path = Some (used', by_path') ->
  used' = total_len by_path' /\ total_len by_path' <= total_len by_path
  /\ (total_len by_path' + incoming <= bound \/ by_path' = ∅).
Proof using HL.
  intros Hi. revert by_path. induction fuel as [|fuel IH]; intros by_path Ht Hs He.
  - assert (by_path = ∅) as -> by (apply map_size_empty_iff; lia). cbn [evict] in He.
    rewrite (bool_decide_true (∅ = ∅)), andb_false_r in He by done. injection He as <- <-. auto with lia.
  - cbn [evict] in He. pose proof (total_len_nonneg by_path) as Hn1.
    destruct (Z.ltb_spec bound (wrapU 64 (total_len by_path + incoming))) as [Hlt|Hle]; cbn [andb] in He.
    + case_bool_decide as Hb; cbn [negb] in He; [injection He as <- <-; subst; auto with lia|].
      destruct (first_key by_path) as [k|] eqn:Ek; [|by apply first_key_None in Ek].
      apply first_key_Some in Ek as [chunks Hk]. rewrite Hk in He.
      pose proof (total_len_delete by_path k chunks Hk) as Hd. pose proof (chunks_len_nonneg chunks) as Hn2.
      pose proof (total_len_nonneg (base.delete k by_path)) as Hn3.
      assert (Z.max 0 (total_len by_path - bytes_used chunks) = total_len (base.delete k by_path)) as E.
      { unfold bytes_used. rewrite wrapU_id by (apply inU_spec; lia). lia. }
      rewrite E in He. apply IH in He as (H1 & H2 & H3); [split_and!; [done|lia|done]|lia|].
      rewrite map_size_delete_Some by done. lia.
    + injection He as <- <-. rewrite wrapU_id in Hle by (apply inU_spec; lia). auto with lia.
Qed.

(** One [put] keeps the count, and stays within the bound or the size of what is put. *)
Lemma memory_put_total c key data :
  mem_bytes_used c = total_len (mem_by_path c) -> total_len (mem_by_path c) + Z.of_nat (length data) < 2 ^ 64 ->
  max_bytes (memory_put c key data) = max_bytes c
  /\ mem_bytes_used (memory_put c key data) = total_len (mem_by_path (memory_put c key data))
  /\ total_len (mem_by_path (memory_put c key data))
     <= Z.max (total_len (mem_by_path c)) (Z.max (max_bytes c) (Z.of_nat (length data)))
  /\ (data <> [] ->
      total_len (mem_by_path (memory_put c key data)) <= Z.max (max_bytes c) (Z.of_nat (length data))).
Proof using HL.
  intros Hu H64. unfold memory_put. destruct data as [|b data].
  { split_and!; [done|done|lia|done]. }
  remember (b :: data) as d eqn:Ed.
  assert (exists used by_path, evict_if_needed c (Z.of_nat (length d)) = mkMemoryByteCache by_path used (max_bytes c)
    /\ total_len by_path + Z.of_nat (length d) < 2 ^ 64
    /\ total_len by_path + Z.of_nat (length d) <= Z.max (max_bytes c) (Z.of_nat (length d)))
    as (used & by_path & -> & H1 & H2).
  { unfold evict_if_needed. pose proof (total_len_nonneg (mem_by_path c)) as Hn1. rewrite Hu.
    destruct (Z.leb_spec (wrapU 64 (total_len (mem_by_path c) + Z.of_nat (length d))) (max_bytes c)) as [Hle|Hgt].
    - rewrite wrapU_id in Hle by (apply inU_spec; lia). destruct c as [by_path used max]. cbn in *.
      eexists _, _. split; [done|]. lia.
    - destruct (evict_ends (size (mem_by_path c)) (total_len (mem_by_path c)) (Z.of_nat (length d)) (max_bytes c)
                  (mem_by_path c) ltac:(lia)) as (used & by_path & E & _). rewrite E.
      apply evict_total in E as (_ & H1 & H2); [|lia..].
      eexists _, _. split; [done|]. split; [lia|].
      destruct H2 as [H2| ->]; [lia|]. change (total_len ∅) with 0. lia. }
  cbn [mem_by_path mem_bytes_used max_bytes]. rewrite sum_used_total, total_len_insert.
  set (k := (key_path key, key_cred key)).
  pose proof (insert_chunk_len (default [] (by_path !! k)) key d) as Hins.
  assert (chunks_len (default [] (by_path !! k)) + total_len (base.delete k by_path) = total_len by_path) as Hk.
  { destruct (by_path !! k) as [chunks|] eqn:E; cbn [default].
    - by rewrite (total_len_delete by_path k chunks E).
    - by rewrite delete_id. }
  pose proof (total_len_nonneg (base.delete k by_path)) as Hn1.
  pose proof (chunks_len_nonneg (fst (insert_chunk (default [] (by_path !! k)) key d))) as Hn2.
  split; [done|]. rewrite wrapU_id by (apply inU_spec; lia). split_and!; [done|lia|intros _; lia].
Qed.

(** C31 After any sequence of additions, the cache in memory counts the bytes it holds, and holds
    no more than its bound or the largest addition: with additions within the bound, no more
    than the bound. *)
Theorem memory_cache_bounded max big puts :
  0 <= max -> Z.max max big + big < 2 ^ 64 ->
  Forall (fun p : ByteCacheKey * Bytes => Z.of_nat (length (snd p)) <= big) puts ->
  let c := foldl (fun c p => put c (fst p) (snd p)) (memory_new max) puts in
  mem_bytes_used c = total_len (mem_by_path c) /\ total_len (mem_by_path c) <= Z.max max big.
Proof using HL.
  intros Hmax Hbig Hputs.
  assert (forall c, max_bytes c = max -> mem_bytes_used c = total_len (mem_by_path c) ->
    total_len (mem_by_path c) <= Z.max max big ->
    let c' := foldl (fun c p => put c (fst p) (snd p)) c puts in
    mem_bytes_used c' = total_len (mem_by_path c') /\ total_len (mem_by_path c') <= Z.max max big) as H.
  { induction Hputs as [|[key data] puts Hd _ IH]; intros c Hm Hu Ht; [done|]. cbn [foldl fst snd]. cbn [snd] in Hd.
    destruct (memory_put_total c key data Hu) as (H1 & H2 & H3 & _); [lia|].
    apply IH; [by rewrite <- Hm|done|]. etrans; [exact H3|]. rewrite Hm. lia. }
  apply H; [done|done|]. cbn. change (total_len ∅) with 0. lia.
Qed.
End bound.

(** ** Witnesses and deviations *)

Section witnesses.

(** The order of the keys, and a hash that tells small ranges apart. *)
#[local] Instance list_order : HashOrder := fun by_path => fst <$> head (map_to_list by_path).
#[local] Instance list_order_laws : HashOrderLaws.
Proof.
  split; intros by_path; unfold first_key, list_order.
  - intros k. destruct (map_to_list by_path) as [|[k' v] l] eqn:E; [done|]. intros [= <-]. exists v.
    apply elem_of_map_to_list. rewrite E. constructor.
  - destruct (map_to_list by_path) as [|[k' v] l] eqn:E; [|done]. intros _. by apply map_to_list_empty_iff.
Qed.
#[local] Instance small_hasher : DefaultHasher := {
  hash_strings l := Z.of_nat (length (concat l));
  hash_key _ start finish _ := start * 16 + finish;
}.

Definition ex_path : str := lit "memory://t/a.parquet".
Definition ex_bytes : Bytes := [Byte.x00; Byte.x01; Byte.x02; Byte.x03; Byte.x04; Byte.x05].
Definition ex_ops : list StorageOp :=
  [OpWrite ex_path ex_bytes; OpReadRange false ex_path (mkRange 2 5); OpReadRange false ex_path (mkRange 3 4);
   OpRead false ex_path; OpDeletePrefix (lit "u")].
Definition ex_answers : list Answer :=
  [ADone; ABytes [Byte.x02; Byte.x03; Byte.x04]; ABytes [Byte.x03]; ABytes ex_bytes; ADone].
Definition ex_keys : list ByteCacheKey :=
  (fun r => mkByteCacheKey ex_path r 7) <$> [mkRange 2 5; mkRange 3 4; mkRange 0 6].
Definition ex_dom (key : ByteCacheKey) : Prop := key ∈ ex_keys.
Lemma ex_dom_names key key' : ex_dom key -> ex_dom key' -> file_name key = file_name key' -> key = key'.
Proof.
  assert (forallb (fun k => forallb (fun k' => implb (bool_decide (file_name k = file_name k')) (bool_decide (k = k')))
    ex_keys) ex_keys = true) as H by by vm_compute.
  intros Hk Hk' E. rewrite forallb_forall in H. specialize (H key (proj1 (list_elem_of_In _ _) Hk)).
  rewrite forallb_forall in H. specialize (H key' (proj1 (list_elem_of_In _ _) Hk')).
  rewrite (bool_decide_true (file_name key = _) E) in H. by apply bool_decide_eq_true in H.
Qed.
Lemma ex_dom_in r : r ∈ [mkRange 2 5; mkRange 3 4; mkRange 0 6] -> ex_dom (mkByteCacheKey ex_path r 7).
Proof. intros Hr. apply list_elem_of_fmap. by exists r. Qed.
Definition ex_files : MemoryStorage := <[normalize_path ex_path := ex_bytes]> ∅.
Lemma ex_content bytes : content ex_files ex_path = Some bytes -> bytes = ex_bytes.
Proof.
  assert (content ex_files ex_path = Some ex_bytes) as -> by apply lookup_insert_eq. by intros [= <-].
Qed.
Lemma ex_range_ok range :
  range ∈ [mkRange 2 5; mkRange 3 4] -> op_ok (W := MemoryStorage) 7 ex_dom (OpReadRange false ex_path range) ex_files.
Proof.
  intros H. split; [|split; [|split]].
  1, 2, 4: apply elem_of_cons in H as [->|H%list_elem_of_singleton]; [done|by subst].
  apply ex_dom_in. apply elem_of_cons in H as [->|H%list_elem_of_singleton]; [|subst]; by repeat constructor.
Qed.
Lemma ex_admissible : admissible (W := MemoryStorage) 7 ex_dom [] ex_ops ∅.
Proof.
  split; [exact I|]. split; [intros path H; by apply not_elem_of_nil in H|].
  change (snd (plain_step (OpWrite ex_path ex_bytes) ∅)) with ex_files.
  split; [apply ex_range_ok; by repeat constructor|]. split; [done|].
  split; [apply ex_range_ok; by repeat constructor|]. split; [done|].
  split; [|split; [done|]].
  - intros bytes Hb. apply ex_content in Hb as ->. split; [done|]. apply ex_dom_in. by repeat constructor.
  - split; [exact I|]. split; [|exact I].
    change (snd (plain_step (OpRead false ex_path) _)) with ex_files.
    apply Forall_forall. repeat constructor; by vm_compute.
Qed.

(** With the cache in memory, and with the one on disk whose second write fails. *)
Definition ex_fs : FsByteCache := mkFsByteCache (lit "/cache") ∅ ∅ [true; false].
Lemma caching_storage_transparent_witness :
  fst (run_ops (cached_step (ST := memory_storage) (BC := memory_byte_cache) 7) ex_ops (∅, memory_new 4)) = ex_answers
  /\ fst (run_ops (cached_step (ST := memory_storage) (BC := fs_byte_cache) 7) ex_ops (∅, ex_fs)) = ex_answers.
Proof.
  assert (fst (run_ops (plain_step (ST := memory_storage)) ex_ops ∅) = ex_answers) as <- by by vm_compute.
  split.
  - apply (caching_storage_transparent 7 ex_dom (CL := memory_laws ex_dom) ex_ops [] ∅ (memory_new 4)).
    + intros key data (chunks & H & _). discriminate H.
    + exact ex_admissible.
  - apply (caching_storage_transparent 7 ex_dom (CL := fs_laws ex_dom ex_dom_names) ex_ops [] ∅ ex_fs).
    + intros key data [[_ H]|(chunks & H & _)]; discriminate H.
    + exact ex_admissible.
Defined.

Lemma memory_cache_bounded_witness :
  let c := foldl (fun c p => put c (fst p) (snd p)) (memory_new 4)
    [(mkByteCacheKey ex_path (mkRange 0 3) 7, take 3 ex_bytes); (mkByteCacheKey (lit "b") (mkRange 0 2) 7, take 2 ex_bytes)] in
  mem_bytes_used c = 2 /\ total_len (mem_by_path c) <= 4.
Proof.
  split; [by vm_compute|].
  apply (memory_cache_bounded 4 3 [(mkByteCacheKey ex_path (mkRange 0 3) 7, take 3 ex_bytes);
    (mkByteCacheKey (lit "b") (mkRange 0 2) 7, take 2 ex_bytes)]); [done|done|].
  by repeat constructor.
Defined.

(** A part of a file that was read from its start is then served as the whole file. *)
Theorem prefix_served_as_whole_file :
  fst (run_ops (cached_step (ST := memory_storage) (BC := memory_byte_cache) 7)
    [OpWrite ex_path ex_bytes; OpReadRange false ex_path (mkRange 0 2); OpRead false ex_path] (∅, memory_new 100))
  = [ADone; ABytes [Byte.x00; Byte.x01]; ABytes [Byte.x00; Byte.x01]].
Proof. by vm_compute. Qed.

(** Neither a write nor a deletion through the storage reaches the cache. *)
Theorem changed_file_is_served_stale :
  fst (run_ops (cached_step (ST := memory_storage) (BC := memory_byte_cache) 7)
    [OpWrite ex_path ex_bytes; OpRead false ex_path; OpWrite ex_path [Byte.xff]; OpRead false ex_path;
     OpDelete ex_path; OpExists ex_path; OpRead false ex_path] (∅, memory_new 100))
  = [ADone; ABytes ex_bytes; ADone; ABytes ex_bytes; ADone; AFlag false; ABytes ex_bytes].
Proof. by vm_compute. Qed.
End witnesses.

(** The fingerprint hashes the values of the properties and not which property each one is of. *)
Theorem fingerprint_ignores_names {DH : DefaultHasher} value :
  cred_fingerprint {["uri"%string := value]} = cred_fingerprint {["warehouse"%string := value]}.
Proof. by destruct value. Qed.

(** Files of the cache on disk are found by the hash alone. *)
Theorem name_collision_serves_other_file {DH : DefaultHasher} c key key' b data :
  file_name key = file_name key' -> head (fs_writes c) = Some true ->
  get_range (put c key (b :: data)) (key_path key') (key_range key') (key_cred key') = Ok (Some (b :: data)).
Proof.
  intros Hn Hw. cbn [get_range put fs_byte_cache]. unfold fs_put. rewrite Hw. cbn [default].
  unfold fs_get. cbn [disk]. replace (mkByteCacheKey (key_path key') (key_range key') (key_cred key')) with key'
    by by destruct key'.
  change (path_for _ key') with (path_for c key'). cbn [disk].
  assert (path_for c key' = path_for c key) as -> by (unfold path_for; by rewrite Hn). change (id true) with true. cbv iota. by rewrite lookup_insert_eq.
Qed.
