(* ===== verification/RowFilter.v ===== *)
(** * The row filter of the Parquet reader (arrow/reader.rs, arrow/schema.rs)

    [CollectFieldIdVisitor], [PredicateConverter] and [get_row_filter]: a bound
    predicate becomes a function on record batches, built from Arrow's compute
    kernels.  Arrays and kernels are a parameter; [ArrowLaws] states what the arrow
    crate documents of them.  The theorems say which rows the filter keeps, and where
    that differs from the meaning of the predicate. *)

From S2P Require Import Prelude Utf8 Bytes Values Concrete DatumOrder Expr DataFile ExprEval.

(** ** Arrow *)

(** The scalars that [get_arrow_datum] builds. *)
Inductive ArrowScalar :=
| BooleanScalar (v : bool) | Int32Scalar (v : Z) | Int64Scalar (v : Z)
| Float32Scalar (bits : Z) | Float64Scalar (bits : Z) | StringScalar (v : str)
| BinaryScalar (v : list Z) | Date32Scalar (v : Z)
| TimestampMicrosecondScalar (v : Z) (utc : bool) | TimestampNanosecondScalar (v : Z) (utc : bool)
| Decimal128Scalar (v precision scale : Z) | FixedSizeBinaryScalar (v : list Z).

(** A [BooleanArray]; null is [None]. *)
Abbreviation BooleanArray := (list (option bool)).

Class Arrow := {
  ArrayRef : Type;
  ArrowDatum : Type;
  DataType : Type;
  DataType_eq_dec :: EqDecision DataType;
  dt_Int32 : DataType;
  dt_Int64 : DataType;
  dt_is_struct : DataType -> bool;
  data_type : ArrayRef -> DataType;
  datum_of_scalar : ArrowScalar -> ArrowDatum;
  datum_data_type : ArrowDatum -> DataType;
  cast_datum : ArrowDatum -> DataType -> result ArrowDatum;
  cast_array : ArrayRef -> DataType -> result ArrayRef;
  int32_values : ArrayRef -> option (list (option Z));
  int64_values : ArrayRef -> option (list (option Z));
  decimal_type_valid : Z -> Z -> bool;
  k_is_null : ArrayRef -> result BooleanArray;
  k_is_not_null : ArrayRef -> result BooleanArray;
  k_lt : ArrayRef -> ArrowDatum -> result BooleanArray;
  k_lt_eq : ArrayRef -> ArrowDatum -> result BooleanArray;
  k_gt : ArrayRef -> ArrowDatum -> result BooleanArray;
  k_gt_eq : ArrayRef -> ArrowDatum -> result BooleanArray;
  k_eq : ArrayRef -> ArrowDatum -> result BooleanArray;
  k_neq : ArrayRef -> ArrowDatum -> result BooleanArray;
  k_starts_with : ArrayRef -> ArrowDatum -> result BooleanArray;
  k_and : BooleanArray -> BooleanArray -> result BooleanArray;
  k_or : BooleanArray -> BooleanArray -> result BooleanArray;
  k_and_kleene : BooleanArray -> BooleanArray -> result BooleanArray;
  k_or_kleene : BooleanArray -> BooleanArray -> result BooleanArray;
  k_not : BooleanArray -> result BooleanArray;
}.

(** A batch: its row count and its columns. *)
Record RecordBatch {A : Arrow} := mkRecordBatch {
  batch_rows : nat;
  batch_columns : list ArrayRef;
}.
Arguments mkRecordBatch {A}.

Section converter.
Context {V : ValueLib} {A : Arrow}.

(** [get_arrow_datum] (arrow/schema.rs); [as u8] and [as i8] of precision and scale. *)
Definition get_arrow_scalar (datum : Datum) : result ArrowScalar :=
  match datum_type datum, datum_literal datum with
  | PrimitiveType.Boolean, PrimitiveLiteral.Boolean value => Ok (BooleanScalar value)
  | PrimitiveType.Int, PrimitiveLiteral.Int value => Ok (Int32Scalar value)
  | PrimitiveType.Long, PrimitiveLiteral.Long value => Ok (Int64Scalar value)
  | PrimitiveType.Float, PrimitiveLiteral.Float value => Ok (Float32Scalar value)
  | PrimitiveType.Double, PrimitiveLiteral.Double value => Ok (Float64Scalar value)
  | PrimitiveType.String, PrimitiveLiteral.String value => Ok (StringScalar value)
  | PrimitiveType.Binary, PrimitiveLiteral.Binary value => Ok (BinaryScalar value)
  | PrimitiveType.Date, PrimitiveLiteral.Int value => Ok (Date32Scalar value)
  | PrimitiveType.Timestamp, PrimitiveLiteral.Long value => Ok (TimestampMicrosecondScalar value false)
  | PrimitiveType.Timestamptz, PrimitiveLiteral.Long value => Ok (TimestampMicrosecondScalar value true)
  | PrimitiveType.TimestampNs, PrimitiveLiteral.Long value => Ok (TimestampNanosecondScalar value false)
  | PrimitiveType.TimestamptzNs, PrimitiveLiteral.Long value => Ok (TimestampNanosecondScalar value true)
  | PrimitiveType.Decimal precision scale, PrimitiveLiteral.Int128 value =>
      let precision := wrapU 8 precision in
      let scale := wrapS 8 scale in
      if decimal_type_valid precision scale then Ok (Decimal128Scalar value precision scale)
      else Err Panic
  | PrimitiveType.Uuid, PrimitiveLiteral.UInt128 value => Ok (FixedSizeBinaryScalar (be_bytes 16 value))
  | _, _ => Err (Error FeatureUnsupported)
  end.
Definition get_arrow_datum (datum : Datum) : result ArrowDatum :=
  datum_of_scalar <$> get_arrow_scalar datum.

Definition try_cast_literal (literal : ArrowDatum) (column_type : DataType) : result ArrowDatum :=
  if bool_decide (datum_data_type literal = column_type) then Ok literal
  else cast_datum literal column_type.

(** ** Collecting field ids *)

Definition collect_id (reference : BoundReference) : SR (gset Z) unit :=
  sr_modify (fun field_ids => {[field_id (ref_field reference)]} ∪ field_ids).

Definition CollectFieldIdVisitor : BoundPredicateVisitor (SR (gset Z)) unit :=
  {| always_true := mret tt; always_false := mret tt;
     and _ _ := mret tt; or _ _ := mret tt; not _ := mret tt;
     is_null reference _ := collect_id reference; not_null reference _ := collect_id reference;
     is_nan reference _ := collect_id reference; not_nan reference _ := collect_id reference;
     less_than reference _ _ := collect_id reference;
     less_than_or_eq reference _ _ := collect_id reference;
     greater_than reference _ _ := collect_id reference;
     greater_than_or_eq reference _ _ := collect_id reference;
     eq reference _ _ := collect_id reference; not_eq reference _ _ := collect_id reference;
     starts_with reference _ _ := collect_id reference;
     not_starts_with reference _ _ := collect_id reference;
     in_ reference _ _ := collect_id reference; not_in reference _ _ := collect_id reference |}.

(** The first half of [build_field_id_set_and_map]. *)
Definition collect_field_ids (predicate : BoundPredicate) : result (gset Z) :=
  snd <$> visit CollectFieldIdVisitor predicate ∅.

(** ** Predicates on batches *)

Definition PredicateResult : Type := RecordBatch -> result BooleanArray.

Section columns.
Context (column_root_is_group : nat -> bool) (column_map : gmap Z nat) (column_indices : list nat).

Definition bound_reference (reference : BoundReference) : result (option nat) :=
  match column_map !! field_id (ref_field reference) with
  | Some column_idx =>
      if column_root_is_group column_idx then Err (Error DataInvalid)
      else
        match list_find (fun idx => idx = column_idx) column_indices with
        | Some (index, _) => Ok (Some index)
        | None => Err (Error DataInvalid)
        end
  | None => Ok None
  end.

Definition build_always_true : result PredicateResult :=
  Ok (fun batch => Ok (replicate (batch_rows batch) (Some true))).
Definition build_always_false : result PredicateResult :=
  Ok (fun batch => Ok (replicate (batch_rows batch) (Some false))).

Definition project_column (batch : RecordBatch) (column_idx : nat) : result ArrayRef :=
  let? column := unwrap (batch_columns batch !! column_idx) in
  if dt_is_struct (data_type column) then Err (Error Unexpected) else Ok column.

Definition integer_literal_set (literals : list Datum) : option (list Z) :=
  foldr (fun literal set =>
    match datum_literal literal with
    | PrimitiveLiteral.Int v => (fun s => v :: s) <$> set
    | PrimitiveLiteral.Long v => (fun s => v :: s) <$> set
    | _ => None
    end) (Some []) literals.

(** The integers of a column, widened. *)
Definition integer_values (array : ArrayRef) : result (list (option Z)) :=
  if bool_decide (data_type array = dt_Int32) then unwrap (int32_values array)
  else if bool_decide (data_type array = dt_Int64) then unwrap (int64_values array)
  else let? casted := cast_array array dt_Int64 in unwrap (int64_values casted).

Definition integer_array_is_in (array : ArrayRef) (set : list Z) : result BooleanArray :=
  let? arr := integer_values array in
  Ok ((fun v => Some (match v with Some x => bool_decide (x ∈ set) | None => false end)) <$> arr).

(** The comparisons: [kernel] on the column and the literal, [missing] without a column. *)
Definition compare_with (kernel : ArrayRef -> ArrowDatum -> result BooleanArray)
    (missing : result PredicateResult) (reference : BoundReference) (literal : Datum) :
    result PredicateResult :=
  let? bound := bound_reference reference in
  match bound with
  | Some idx =>
      let? literal := get_arrow_datum literal in
      Ok (fun batch =>
        let? left := project_column batch idx in
        let? literal := try_cast_literal literal (data_type left) in
        kernel left literal)
  | None => missing
  end.

(** [is_null] and [not_null]. *)
Definition null_test (kernel : ArrayRef -> result BooleanArray) (missing : result PredicateResult)
    (reference : BoundReference) : result PredicateResult :=
  let? bound := bound_reference reference in
  match bound with
  | Some idx => Ok (fun batch => let? column := project_column batch idx in kernel column)
  | None => missing
  end.

(** [is_nan] and [not_nan] look at the presence of the column only. *)
Definition presence_test (present missing : result PredicateResult) (reference : BoundReference) :
    result PredicateResult :=
  let? bound := bound_reference reference in
  match bound with Some _ => present | None => missing end.

Definition unwrap_datum (literal : Datum) : result ArrowDatum :=
  match get_arrow_datum literal with Ok d => Ok d | Err _ => Err Panic end.

(** The accumulation over the literals of a set. *)
Definition fold_literals (literals : list ArrowDatum) (init : bool)
    (combine : BooleanArray -> BooleanArray -> result BooleanArray)
    (kernel : ArrayRef -> ArrowDatum -> result BooleanArray) (idx : nat) : PredicateResult :=
  fun batch =>
    let? left := project_column batch idx in
    try_fold (fun acc literal =>
      let? literal := try_cast_literal literal (data_type left) in
      let? mask := kernel left literal in
      combine acc mask) (replicate (batch_rows batch) (Some init)) literals.

Definition visit_in (reference : BoundReference) (literals : list Datum) : result PredicateResult :=
  let? bound := bound_reference reference in
  match bound with
  | Some idx =>
      match integer_literal_set literals with
      | Some int_set =>
          Ok (fun batch =>
            let? left := project_column batch idx in
            integer_array_is_in left int_set)
      | None =>
          let? literals := mapR unwrap_datum literals in
          Ok (fold_literals literals false k_or k_eq idx)
      end
  | None => build_always_false
  end.

Definition visit_not_in (reference : BoundReference) (literals : list Datum) : result PredicateResult :=
  let? bound := bound_reference reference in
  match bound with
  | Some idx =>
      let? literals := mapR unwrap_datum literals in
      Ok (fold_literals literals true k_and k_neq idx)
  | None => build_always_true
  end.

(** [starts_with], negated. *)
Definition not_starts_with_kernel (left : ArrayRef) (literal : ArrowDatum) : result BooleanArray :=
  let? mask := k_starts_with left literal in k_not mask.

(** Two results combined row by row. *)
Definition both (combine : BooleanArray -> BooleanArray -> result BooleanArray)
    (lhs rhs : PredicateResult) : PredicateResult :=
  fun batch => let? left := lhs batch in let? right := rhs batch in combine left right.

Definition PredicateConverter : BoundPredicateVisitor result PredicateResult :=
  {| always_true := build_always_true;
     always_false := build_always_false;
     and lhs rhs := Ok (both k_and_kleene lhs rhs);
     or lhs rhs := Ok (both k_or_kleene lhs rhs);
     not inner := Ok (fun batch => let? pred_ret := inner batch in k_not pred_ret);
     is_null reference _ := null_test k_is_null build_always_true reference;
     not_null reference _ := null_test k_is_not_null build_always_false reference;
     is_nan reference _ := presence_test build_always_true build_always_false reference;
     not_nan reference _ := presence_test build_always_false build_always_true reference;
     less_than reference literal _ := compare_with k_lt build_always_true reference literal;
     less_than_or_eq reference literal _ := compare_with k_lt_eq build_always_true reference literal;
     greater_than reference literal _ := compare_with k_gt build_always_false reference literal;
     greater_than_or_eq reference literal _ := compare_with k_gt_eq build_always_false reference literal;
     eq reference literal _ := compare_with k_eq build_always_false reference literal;
     not_eq reference literal _ := compare_with k_neq build_always_false reference literal;
     starts_with reference literal _ := compare_with k_starts_with build_always_false reference literal;
     not_starts_with reference literal _ :=
       compare_with not_starts_with_kernel build_always_true reference literal;
     in_ reference literals _ := visit_in reference literals;
     not_in reference literals _ := visit_not_in reference literals |}.

End columns.

(** The indices of the leaf columns that a filter needs: collected, then sorted. *)
Definition filter_columns (iceberg_field_ids : gset Z) (field_id_map : gmap Z nat) : list nat :=
  merge_sort le (omap (fun field_id => field_id_map !! field_id) (elements iceberg_field_ids)).

(** [get_row_filter]: the leaf columns of the projection, in ascending order, and the function
    that the reader runs on batches of these columns. *)
Definition get_row_filter (predicates : BoundPredicate) (column_root_is_group : nat -> bool)
    (iceberg_field_ids : gset Z) (field_id_map : gmap Z nat) : result (list nat * PredicateResult) :=
  let column_indices := filter_columns iceberg_field_ids field_id_map in
  let? predicate_func :=
    visit (PredicateConverter column_root_is_group field_id_map column_indices) predicates in
  Ok (column_indices, predicate_func).

End converter.

(** ** What arrow documents *)

(** The value of a leaf in a row, through the accessor of its term. *)
Definition read (row : Struct) (t : BoundReference) : option Datum :=
  ok_value None (accessor_get (ref_accessor t) row).

Definition strict2 (f : bool -> bool -> bool) (a b : option bool) : option bool :=
  match a, b with Some x, Some y => Some (f x y) | _, _ => None end.

(** Equality of arrow's total order, in which -0.0 and 0.0 differ. *)
Definition eq_value (x d : Datum) : bool := bool_decide (key x = key d).

(** A well-formed literal whose scale is at most its precision, as the format demands. *)
Definition literal_fits (d : Datum) : bool :=
  datum_wf d
  && match datum_type d with PrimitiveType.Decimal precision scale => scale <=? precision | _ => true end.

(** An integer literal. *)
Definition int_literal (d : Datum) : option Z :=
  match datum_literal d with
  | PrimitiveLiteral.Int v | PrimitiveLiteral.Long v => Some v
  | _ => None
  end.

(** A test on the values of a column, null on null. *)
Definition per_row (test : Datum -> bool) (vs : list (option Datum)) : BooleanArray :=
  (fun v : option Datum => test <$> v) <$> vs.

(** An array holds a column of values.  Comparison kernels give null on null and otherwise
    compare; the two-valued connectives give null if either side is. *)
Class ArrowLaws (V : ValueLib) (A : Arrow) := {
  holds : ArrayRef -> list (option Datum) -> Prop;
  holds_flat a vs : holds a vs -> dt_is_struct (data_type a) = false;
  is_null_ok a vs : holds a vs -> k_is_null a = Ok ((fun v : option Datum => Some (negb (bool_decide (is_Some v)))) <$> vs);
  is_not_null_ok a vs : holds a vs -> k_is_not_null a = Ok ((fun v : option Datum => Some (bool_decide (is_Some v))) <$> vs);
  compare_ok a vs d s :
    holds a vs -> (forall x, Some x ∈ vs -> comparable x d) -> literal_fits d = true ->
    get_arrow_datum d = Ok s ->
    exists s', try_cast_literal s (data_type a) = Ok s'
      /\ k_lt a s' = Ok (per_row (fun x => datum_lt x d) vs)
      /\ k_lt_eq a s' = Ok (per_row (fun x => datum_le x d) vs)
      /\ k_gt a s' = Ok (per_row (fun x => datum_gt x d) vs)
      /\ k_gt_eq a s' = Ok (per_row (fun x => datum_ge x d) vs)
      /\ k_eq a s' = Ok (per_row (fun x => eq_value x d) vs)
      /\ k_neq a s' = Ok (per_row (fun x => negb (eq_value x d)) vs)
      /\ (datum_type d = PrimitiveType.String ->
          k_starts_with a s' = Ok (per_row (fun x => literal_starts_with x d) vs));
  integer_values_ok a vs :
    holds a vs -> (forall x, Some x ∈ vs -> is_Some (int_literal x)) ->
    integer_values a = Ok ((fun v : option Datum => v ≫= int_literal) <$> vs);
  and_ok a b : length a = length b -> k_and a b = Ok (zip_with (strict2 andb) a b);
  or_ok a b : length a = length b -> k_or a b = Ok (zip_with (strict2 orb) a b);
  and_kleene_ok a b : length a = length b -> k_and_kleene a b = Ok (zip_with kleene_and a b);
  or_kleene_ok a b : length a = length b -> k_or_kleene a b = Ok (zip_with kleene_or a b);
  not_ok (a : BooleanArray) : k_not a = Ok (kleene_not <$> a);
}.

(** ** The value of the filter in a row *)

Definition arrow_binary {V : ValueLib} (op : PredicateOperator.t) (x d : Datum) : bool :=
  match op with
  | PredicateOperator.LessThan => datum_lt x d
  | PredicateOperator.LessThanOrEq => datum_le x d
  | PredicateOperator.GreaterThan => datum_gt x d
  | PredicateOperator.GreaterThanOrEq => datum_ge x d
  | PredicateOperator.Eq => eq_value x d
  | PredicateOperator.NotEq => negb (eq_value x d)
  | PredicateOperator.StartsWith => literal_starts_with x d
  | PredicateOperator.NotStartsWith => negb (literal_starts_with x d)
  | _ => false
  end.

Definition arrow_leaf {V : ValueLib} (q : BoundPredicate) (v : option Datum) : option bool :=
  match q with
  | Unary PredicateOperator.IsNull _ => Some (negb (bool_decide (is_Some v)))
  | Unary PredicateOperator.NotNull _ => Some (bool_decide (is_Some v))
  | Unary PredicateOperator.IsNan _ => Some true
  | Unary PredicateOperator.NotNan _ => Some false
  | Binary op _ d => (fun x => arrow_binary op x d) <$> v
  | SetP PredicateOperator.In _ ds =>
      if bool_decide (is_Some (integer_literal_set ds))
      then Some (match v with Some x => existsb (eq_value x) ds | None => false end)
      else match v, ds with
           | Some x, _ => Some (existsb (eq_value x) ds)
           | None, [] => Some false
           | None, _ => None
           end
  | SetP PredicateOperator.NotIn _ ds =>
      match v, ds with
      | Some x, _ => Some (negb (existsb (eq_value x) ds))
      | None, [] => Some true
      | None, _ => None
      end
  | _ => None
  end.

(** The constant for a column that the file lacks. *)
Definition missing_leaf (q : BoundPredicate) : bool :=
  match q with
  | Unary PredicateOperator.IsNull _ | Unary PredicateOperator.NotNan _
  | Binary PredicateOperator.LessThan _ _ | Binary PredicateOperator.LessThanOrEq _ _
  | Binary PredicateOperator.NotStartsWith _ _ | SetP PredicateOperator.NotIn _ _ => true
  | _ => false
  end.

Definition leaf_term (q : BoundPredicate) : option BoundReference :=
  match q with Unary _ t | Binary _ t _ | SetP _ t _ => Some t | _ => None end.

Fixpoint filter_value {V : ValueLib} (column_map : gmap Z nat) (p : BoundPredicate) (row : Struct) :
    option bool :=
  match p with
  | AlwaysTrue => Some true
  | AlwaysFalse => Some false
  | And l r => kleene_and (filter_value column_map l row) (filter_value column_map r row)
  | Or l r => kleene_or (filter_value column_map l row) (filter_value column_map r row)
  | Not p => kleene_not (filter_value column_map p row)
  | Unary _ t | Binary _ t _ | SetP _ t _ =>
      if bool_decide (is_Some (column_map !! field_id (ref_field t)))
      then arrow_leaf p (read row t) else Some (missing_leaf p)
  end.

(** ** Theory *)

Section filter.
Context {V : ValueLib} {A : Arrow} {AL : ArrowLaws V A}.
Context (is_group : nat -> bool) (column_map : gmap Z nat) (column_indices : list nat)
        (batch : RecordBatch) (rows : list Struct).
Context (Hlen : batch_rows batch = length rows).

(** The literals of a leaf can be compared with the values [vs]. *)
Definition literals_ok (q : BoundPredicate) (vs : list (option Datum)) : Prop :=
  match q with
  | Binary op _ d => (is_ok (get_arrow_datum d) = true /\ literal_fits d = true)
      /\ (forall x, Some x ∈ vs -> comparable x d)
      /\ ((op = PredicateOperator.StartsWith \/ op = PredicateOperator.NotStartsWith) ->
          datum_type d = PrimitiveType.String)
  | SetP _ _ ds => Forall (fun d => (is_ok (get_arrow_datum d) = true /\ literal_fits d = true)
                       /\ forall x, Some x ∈ vs -> comparable x d) ds
      /\ (is_Some (integer_literal_set ds) -> forall x, Some x ∈ vs -> is_Some (int_literal x))
  | _ => True
  end.

(** The column of a leaf is absent from the file, or it is a root column of the projection
    that holds the values that the rows have there. *)
Definition leaf_held (q : BoundPredicate) : Prop :=
  match leaf_term q with
  | None => True
  | Some t =>
      match column_map !! field_id (ref_field t) with
      | None => True
      | Some c => is_group c = false /\ exists i a,
          fst <$> list_find (fun idx => idx = c) column_indices = Some i
          /\ batch_columns batch !! i = Some a
          /\ holds a ((fun row => read row t) <$> rows)
          /\ literals_ok q ((fun row => read row t) <$> rows)
      end
  end.

Lemma const_array (b : bool) : replicate (batch_rows batch) (Some b) = (fun _ => Some b) <$> rows.
Proof using Hlen.
  rewrite Hlen. clear. induction rows as [|r l IH]; [done|]. cbn. by rewrite IH.
Qed.

Lemma bound_reference_held t c i :
  column_map !! field_id (ref_field t) = Some c -> is_group c = false ->
  fst <$> list_find (fun idx => idx = c) column_indices = Some i ->
  bound_reference is_group column_map column_indices t = Ok (Some i).
Proof.
  intros Hc Hg Hf. unfold bound_reference. rewrite Hc, Hg.
  destruct (list_find _ column_indices) as [[j x]|]; [|done]. cbn in Hf. by injection Hf as ->.
Qed.

Lemma project_held i a vs :
  batch_columns batch !! i = Some a -> holds a vs -> project_column batch i = Ok a.
Proof. intros Hb Ha. unfold project_column. rewrite Hb. cbn. by rewrite (holds_flat a vs Ha). Qed.

(** A run of the filter gives the values [f] of the rows. *)
Definition yields (run : result PredicateResult) (f : Struct -> option bool) : Prop :=
  exists g, run = Ok g /\ g batch = Ok (f <$> rows).

Lemma yields_const b f :
  (forall row, row ∈ rows -> f row = Some b) ->
  yields (Ok (fun batch => Ok (replicate (batch_rows batch) (Some b)))) f.
Proof using Hlen.
  intros H. eexists. split; [reflexivity|]. cbn. rewrite const_array. f_equal.
  apply list_fmap_ext. intros i row Hrow%list_elem_of_lookup_2. by rewrite H.
Qed.

Lemma yields_compare kernel missing t d (test : Datum -> bool) c i a :
  column_map !! field_id (ref_field t) = Some c -> is_group c = false ->
  fst <$> list_find (fun idx => idx = c) column_indices = Some i ->
  batch_columns batch !! i = Some a -> holds a ((fun row => read row t) <$> rows) ->
  is_ok (get_arrow_datum d) = true ->
  (forall s, get_arrow_datum d = Ok s -> exists s', try_cast_literal s (data_type a) = Ok s'
     /\ kernel a s' = Ok (per_row test ((fun row => read row t) <$> rows))) ->
  yields (compare_with is_group column_map column_indices kernel missing t d)
    (fun row => test <$> read row t).
Proof.
  intros Hc Hg Hi Hb Ha Hd Hk. unfold compare_with.
  rewrite (bound_reference_held t c i Hc Hg Hi). cbn [mbind result_bind].
  apply is_ok_true in Hd as [s Hs]. destruct (Hk s Hs) as (s' & Hs' & E). rewrite Hs.
  cbn [mbind result_bind]. eexists. split; [reflexivity|]. cbn beta.
  rewrite (project_held i a _ Hb Ha). cbn [mbind result_bind]. rewrite Hs'. cbn [mbind result_bind].
  rewrite E. f_equal. unfold per_row. by rewrite <- list_fmap_compose.
Qed.

(** The accumulation over the literals of a set. *)
Lemma fold_literals_ok kernel combine op (test : Datum -> Datum -> bool) ds ss a vs acc :
  mapR unwrap_datum ds = Ok ss -> holds a vs ->
  Forall (fun d => forall s, get_arrow_datum d = Ok s -> exists s',
     try_cast_literal s (data_type a) = Ok s'
     /\ kernel a s' = Ok (per_row (fun x => test x d) vs)) ds ->
  (forall x y : BooleanArray, length x = length y -> combine x y = Ok (zip_with (strict2 op) x y)) ->
  length acc = length vs ->
  try_fold (fun acc literal =>
      let? literal := try_cast_literal literal (data_type a) in
      let? mask := kernel a literal in combine acc mask) acc ss
  = Ok (zip_with (fun b v => foldl (fun b d => strict2 op b ((fun x => test x d) <$> v)) b ds) acc vs).
Proof.
  intros Hm Ha Hk Hop. apply mapR_Ok in Hm. revert acc.
  induction Hm as [|d s ds ss Hd Hm IH]; intros acc Hacc; cbn [try_fold].
  - f_equal. clear -Hacc. revert vs Hacc. induction acc as [|b acc IH]; intros [|v vs] H; try done.
    cbn in *. f_equal. apply IH. congruence.
  - apply Forall_cons in Hk as [Hk1 Hk]. unfold unwrap_datum in Hd.
    destruct (get_arrow_datum d) as [s0|] eqn:E; [|done]. injection Hd as ->.
    destruct (Hk1 s eq_refl) as (s' & -> & Ek). cbn [mbind result_bind]. rewrite Ek.
    cbn [mbind result_bind]. unfold per_row. rewrite Hop by (by rewrite length_fmap).
    cbn [mbind result_bind].
    rewrite (IH Hk) by (rewrite length_zip_with, length_fmap; lia). f_equal. clear -Hacc.
    revert vs Hacc. induction acc as [|b acc IHa]; intros [|v vs] H; try done.
    cbn. f_equal. apply IHa. cbn in H. congruence.
Qed.

Lemma fold_none op (test : Datum -> Datum -> bool) ds :
  foldl (fun b d => strict2 op b ((fun x => test x d) <$> None)) None ds = None.
Proof. induction ds; [done|]. exact IHds. Qed.

Lemma fold_or x ds b :
  foldl (fun b d => strict2 orb b ((fun x => eq_value x d) <$> Some x)) (Some b) ds
  = Some (b || existsb (eq_value x) ds).
Proof.
  revert b. induction ds as [|d ds IH]; intros b; cbn [foldl existsb fmap option_fmap option_map strict2];
    [by rewrite orb_false_r|]. by rewrite IH, orb_assoc.
Qed.

Lemma fold_and x ds b :
  foldl (fun b d => strict2 andb b ((fun x => negb (eq_value x d)) <$> Some x)) (Some b) ds
  = Some (b && negb (existsb (eq_value x) ds)).
Proof.
  revert b. induction ds as [|d ds IH]; intros b; cbn [foldl existsb fmap option_fmap option_map strict2];
    [by rewrite andb_true_r|]. by rewrite IH, negb_orb, andb_assoc.
Qed.

Lemma yields_ext run f g :
  (forall row, row ∈ rows -> f row = g row) -> yields run f -> yields run g.
Proof.
  intros H (k & -> & E). exists k. split; [done|]. rewrite E. f_equal.
  apply list_fmap_ext. intros i row Hrow%list_elem_of_lookup_2. by apply H.
Qed.

Lemma integer_set_elements ds set :
  integer_literal_set ds = Some set -> Forall2 (fun d z => int_literal d = Some z) ds set.
Proof.
  revert set. induction ds as [|d ds IH]; intros set; cbn [integer_literal_set foldr].
  - intros [= <-]. constructor.
  - unfold int_literal. destruct (datum_literal d) eqn:E; try done;
      (destruct (foldr _ _ ds) as [s|] eqn:Es; [|done]); intros [= <-]; constructor;
      try (by rewrite E); by apply IH.
Qed.

(** Membership in the set of integers is equality with one of the literals. *)
Lemma integer_membership ds set x z :
  integer_literal_set ds = Some set -> int_literal x = Some z ->
  Forall (fun d => comparable x d) ds ->
  bool_decide (z ∈ set) = existsb (eq_value x) ds.
Proof.
  intros Hs%integer_set_elements Hx Hc. induction Hs as [|d y ds set Hd Hs IH].
  - apply bool_decide_false, not_elem_of_nil.
  - apply Forall_cons in Hc as [Hxd Hc]. cbn [existsb]. rewrite <- IH by done.
    assert (eq_value x d = bool_decide (z = y)) as ->.
    { unfold eq_value. apply bool_decide_ext. unfold int_literal in Hx, Hd. unfold key.
      destruct (datum_literal x), (datum_literal d); try done; cbn;
        injection Hx as ->; injection Hd as ->; split; congruence. }
    rewrite (bool_decide_ext _ _ (elem_of_cons set z y)). by rewrite bool_decide_or.
Qed.

Lemma column_held q t c :
  leaf_term q = Some t -> column_map !! field_id (ref_field t) = Some c -> leaf_held q ->
  is_group c = false /\ exists i a,
    fst <$> list_find (fun idx => idx = c) column_indices = Some i
    /\ batch_columns batch !! i = Some a /\ holds a ((fun row => read row t) <$> rows)
    /\ literals_ok q ((fun row => read row t) <$> rows).
Proof. unfold leaf_held. by intros -> ->. Qed.

Lemma read_in t row : row ∈ rows -> read row t ∈ (fun row => read row t) <$> rows.
Proof. intros H. apply list_elem_of_fmap. eauto. Qed.

Lemma unwrap_literals ds :
  (forall d, d ∈ ds -> is_ok (get_arrow_datum d) = true) -> exists ss, mapR unwrap_datum ds = Ok ss.
Proof.
  induction ds as [|d ds IH]; intros H; [by eexists|]. cbn.
  destruct (proj1 (is_ok_true _) (H d ltac:(left))) as [s Hs].
  assert (unwrap_datum d = Ok s) as -> by (unfold unwrap_datum; by rewrite Hs). cbn.
  destruct IH as [ss ->]; [intros d' Hd'; apply H; by right|]. by eexists.
Qed.

Lemma yields_in t ds :
  leaf_held (SetP PredicateOperator.In t ds) ->
  yields (visit_in is_group column_map column_indices t ds)
    (filter_value column_map (SetP PredicateOperator.In t ds)).
Proof using Hlen AL.
  intros Hh. unfold visit_in. cbn [filter_value missing_leaf].
  destruct (column_map !! field_id (ref_field t)) as [c|] eqn:Hc.
  2: { unfold bound_reference. rewrite Hc. cbn. by apply yields_const. }
  destruct (column_held (SetP PredicateOperator.In t ds) t c eq_refl Hc Hh)
    as (Hg & i & a & Hi & Hb & Ha & Hlit & Hint).
  rewrite (bound_reference_held t c i Hc Hg Hi). cbn [mbind result_bind].
  set (vs := (fun row => read row t) <$> rows) in *.
  rewrite Forall_forall in Hlit.
  assert (forall x, Some x ∈ vs -> Forall (comparable x) ds) as Hcmp.
  { intros x Hx. apply Forall_forall. intros d Hd. by apply (proj2 (Hlit d Hd)). }
  destruct (integer_literal_set ds) as [set|] eqn:Es.
  - eexists. split; [reflexivity|]. cbn beta. rewrite (project_held i a vs Hb Ha).
    cbn [mbind result_bind]. unfold integer_array_is_in.
    rewrite (integer_values_ok a vs Ha (Hint ltac:(by eexists))). cbn [mbind result_bind]. f_equal.
    rewrite <- list_fmap_compose. unfold vs. rewrite <- list_fmap_compose. apply list_fmap_ext.
    intros k row Hrow%list_elem_of_lookup_2. cbn. rewrite Es. cbn.
    pose proof (read_in t row Hrow) as Hin. fold vs in Hin.
    destruct (read row t) as [x|]; [|done]. cbn.
    destruct (Hint ltac:(by eexists) x Hin) as [z Hz]. rewrite Hz. f_equal.
    by apply (integer_membership ds); [| |apply Hcmp].
  - destruct (unwrap_literals ds) as [ss Hss]; [by intros d Hd; apply Hlit|]. rewrite Hss. cbn [mbind result_bind]. eexists. split; [reflexivity|]. unfold fold_literals.
    rewrite (project_held i a vs Hb Ha). cbn [mbind result_bind].
    rewrite (fold_literals_ok k_eq k_or orb eq_value ds ss a vs); [|done|done| |apply or_ok|].
    + f_equal. rewrite const_array. unfold vs. clear -Es. induction rows as [|row l IH]; [done|].
      cbn [fmap list_fmap zip_with]. f_equal; [|exact IH]. cbn. rewrite Es. cbn.
      destruct (read row t) as [x|]; [by rewrite fold_or|].
      destruct ds as [|d ds]; [done|]. cbn [foldl]. by rewrite fold_none.
    + apply Forall_forall. intros d Hd s Hs. destruct (Hlit d Hd) as [[_ Hfit] Hcd].
      destruct (compare_ok a vs d s Ha Hcd Hfit Hs) as (s' & ? & _ & _ & _ & _ & ? & _). by exists s'.
    + rewrite const_array. unfold vs. by rewrite !length_fmap.
Qed.

Lemma yields_not_in t ds :
  leaf_held (SetP PredicateOperator.NotIn t ds) ->
  yields (visit_not_in is_group column_map column_indices t ds)
    (filter_value column_map (SetP PredicateOperator.NotIn t ds)).
Proof using Hlen AL.
  intros Hh. unfold visit_not_in. cbn [filter_value missing_leaf].
  destruct (column_map !! field_id (ref_field t)) as [c|] eqn:Hc.
  2: { unfold bound_reference. rewrite Hc. cbn. by apply yields_const. }
  destruct (column_held (SetP PredicateOperator.NotIn t ds) t c eq_refl Hc Hh)
    as (Hg & i & a & Hi & Hb & Ha & Hlit & _).
  rewrite (bound_reference_held t c i Hc Hg Hi). cbn [mbind result_bind].
  set (vs := (fun row => read row t) <$> rows) in *. rewrite Forall_forall in Hlit.
  destruct (unwrap_literals ds) as [ss Hss]; [by intros d Hd; apply Hlit|]. rewrite Hss.
  cbn [mbind result_bind]. eexists. split; [reflexivity|]. unfold fold_literals.
  rewrite (project_held i a vs Hb Ha). cbn [mbind result_bind].
  rewrite (fold_literals_ok k_neq k_and andb (fun x d => negb (eq_value x d)) ds ss a vs);
    [|done|done| |apply and_ok|].
  - f_equal. rewrite const_array. unfold vs. clear. induction rows as [|row l IH]; [done|].
    cbn [fmap list_fmap zip_with]. f_equal; [|exact IH]. cbn.
    destruct (read row t) as [x|]; [by rewrite fold_and|].
    destruct ds as [|d ds]; [done|]. cbn [foldl].
    by rewrite (fold_none andb (fun x d => negb (eq_value x d))).
  - apply Forall_forall. intros d Hd s Hs. destruct (Hlit d Hd) as [[_ Hfit] Hcd].
    destruct (compare_ok a vs d s Ha Hcd Hfit Hs) as (s' & ? & _ & _ & _ & _ & _ & ? & _). by exists s'.
  - rewrite const_array. unfold vs. by rewrite !length_fmap.
Qed.

Lemma yields_binary op t d :
  well_formed (T := BoundReference) (Binary op t d) = true -> leaf_held (Binary op t d) ->
  yields (visit (PredicateConverter is_group column_map column_indices) (Binary op t d))
    (filter_value column_map (Binary op t d)).
Proof using Hlen AL.
  intros Hw Hh.
  destruct (column_map !! field_id (ref_field t)) as [c|] eqn:Hc.
  2: { assert (bound_reference is_group column_map column_indices t = Ok None) as Eb
         by (unfold bound_reference; by rewrite Hc).
       destruct op; try discriminate Hw; cbn; unfold compare_with; rewrite Eb; cbn;
         apply yields_const; intros row _; by rewrite Hc. }
  destruct (column_held (Binary op t d) t c eq_refl Hc Hh)
    as (Hg & i & a & Hi & Hb & Ha & [Hok Hfit] & Hcmp & Hstr).
  refine (yields_ext _ (fun row => (fun x => arrow_binary op x d) <$> read row t) _ _ _).
  { intros row _. cbn. by rewrite Hc. }
  destruct op; try discriminate Hw;
    refine (yields_compare _ _ t d _ c i a Hc Hg Hi Hb Ha Hok _); intros s Hs;
    destruct (compare_ok a _ d s Ha Hcmp Hfit Hs) as (s' & Ecast & H1 & H2 & H3 & H4 & H5 & H6 & H7);
    exists s'; (split; [exact Ecast|]); try (first [exact H1|exact H2|exact H3|exact H4|exact H5|exact H6]).
  - apply H7, Hstr. by left.
  - unfold not_starts_with_kernel. rewrite H7 by (apply Hstr; by right). cbn [mbind result_bind].
    rewrite not_ok. f_equal. unfold per_row. rewrite <- list_fmap_compose. apply list_fmap_ext.
    intros k v _. by destruct v.
Qed.

Lemma yields_unary op t :
  well_formed (T := BoundReference) (Unary op t) = true -> leaf_held (Unary op t) ->
  yields (visit (PredicateConverter is_group column_map column_indices) (Unary op t))
    (filter_value column_map (Unary op t)).
Proof using Hlen AL.
  intros Hw Hh.
  destruct (column_map !! field_id (ref_field t)) as [c|] eqn:Hc.
  2: { assert (bound_reference is_group column_map column_indices t = Ok None) as Eb
         by (unfold bound_reference; by rewrite Hc).
       destruct op; try discriminate Hw; cbn; unfold null_test, presence_test; rewrite Eb; cbn;
         apply yields_const; intros row _; by rewrite Hc. }
  destruct (column_held (Unary op t) t c eq_refl Hc Hh) as (Hg & i & a & Hi & Hb & Ha & _).
  pose proof (bound_reference_held t c i Hc Hg Hi) as Eb.
  destruct op; try discriminate Hw; cbn; unfold null_test, presence_test; rewrite Eb; cbn [mbind result_bind];
    try (apply yields_const; intros row _; by rewrite Hc);
    eexists; (split; [reflexivity|]); cbn beta; rewrite (project_held i a _ Hb Ha);
    cbn [mbind result_bind]; rewrite ?(is_null_ok a _ Ha), ?(is_not_null_ok a _ Ha); f_equal;
    rewrite <- list_fmap_compose; apply list_fmap_ext; intros k row _; cbn; by rewrite Hc.
Qed.

(** The filter gives each row the value [filter_value]. *)
Lemma yields_filter p :
  well_formed p = true -> leaves leaf_held p ->
  yields (visit (PredicateConverter is_group column_map column_indices) p) (filter_value column_map p).
Proof using Hlen AL.
  induction p as [| |l IHl r IHr|l IHl r IHr|p IH|op t|op t d|op t ds]; cbn [well_formed leaves];
    intros Hw Hh.
  - by apply yields_const.
  - by apply yields_const.
  - apply andb_true_iff in Hw as [Hwl Hwr]. destruct Hh as [Hl Hr].
    destruct (IHl Hwl Hl) as (f & Ef & Hf), (IHr Hwr Hr) as (g & Eg & Hg).
    exists (both k_and_kleene f g). cbn [visit]. rewrite Ef, Eg. split; [reflexivity|].
    unfold both. rewrite Hf, Hg. cbn [mbind result_bind]. rewrite and_kleene_ok by (by rewrite !length_fmap).
    f_equal. clear. induction rows as [|row l' IH]; [done|]. cbn. by rewrite IH.
  - apply andb_true_iff in Hw as [Hwl Hwr]. destruct Hh as [Hl Hr].
    destruct (IHl Hwl Hl) as (f & Ef & Hf), (IHr Hwr Hr) as (g & Eg & Hg).
    exists (both k_or_kleene f g). cbn [visit]. rewrite Ef, Eg. split; [reflexivity|].
    unfold both. rewrite Hf, Hg. cbn [mbind result_bind]. rewrite or_kleene_ok by (by rewrite !length_fmap).
    f_equal. clear. induction rows as [|row l' IH]; [done|]. cbn. by rewrite IH.
  - destruct (IH Hw Hh) as (f & Ef & Hf). eexists. cbn [visit]. rewrite Ef. split; [reflexivity|].
    cbn beta. rewrite Hf. cbn [mbind result_bind]. rewrite not_ok. by rewrite <- list_fmap_compose.
  - by apply yields_unary.
  - by apply yields_binary.
  - destruct op; try discriminate Hw; [by apply yields_in|by apply yields_not_in].
Qed.

End filter.

(** ** The fields of a predicate *)

Fixpoint term_ids (p : BoundPredicate) : gset Z :=
  match p with
  | And l r | Or l r => term_ids l ∪ term_ids r
  | Not p => term_ids p
  | Unary _ t | Binary _ t _ | SetP _ t _ => {[field_id (ref_field t)]}
  | _ => ∅
  end.

Lemma collect_visit p ids :
  well_formed p = true -> visit CollectFieldIdVisitor p ids = Ok (tt, term_ids p ∪ ids).
Proof.
  revert ids. induction p as [| |l IHl r IHr|l IHl r IHr|p IH|op t|op t d|op t ds]; intros ids;
    cbn [well_formed term_ids]; rewrite ?andb_true_iff; intros Hw.
  - cbn. by rewrite (left_id_L ∅ (∪)).
  - cbn. by rewrite (left_id_L ∅ (∪)).
  - destruct Hw as [Hl Hr]. cbn [visit].
    rewrite (run_bind _ _ _ _ _ (IHl ids Hl)), (run_bind _ _ _ _ _ (IHr _ Hr)). cbn.
    by rewrite (assoc_L (∪)), (comm_L (∪) (term_ids r)).
  - destruct Hw as [Hl Hr]. cbn [visit].
    rewrite (run_bind _ _ _ _ _ (IHl ids Hl)), (run_bind _ _ _ _ _ (IHr _ Hr)). cbn.
    by rewrite (assoc_L (∪)), (comm_L (∪) (term_ids r)).
  - cbn [visit]. by rewrite (run_bind _ _ _ _ _ (IH ids Hw)).
  - destruct op; try discriminate Hw; done.
  - destruct op; try discriminate Hw; done.
  - destruct op; try discriminate Hw; done.
Qed.

(** Every column that the filter reads is projected. *)
Lemma filter_columns_elem ids m id c :
  id ∈ ids -> m !! id = Some c -> c ∈ filter_columns ids m.
Proof.
  intros Hid Hc. unfold filter_columns. rewrite merge_sort_Permutation.
  apply list_elem_of_omap. exists id. split; [by apply elem_of_elements|done].
Qed.

(** ** Which rows are kept *)

(** A batch of the projected columns of a file: the column of a leaf, if the file has it, is
    a root column that holds the values of the rows. *)
Definition leaf_in_batch {V : ValueLib} {A : Arrow} {AL : ArrowLaws V A} (is_group : nat -> bool)
    (column_map : gmap Z nat) (column_indices : list nat) (batch : RecordBatch) (rows : list Struct)
    (q : BoundPredicate) : Prop :=
  match leaf_term q with
  | None => True
  | Some t =>
      forall c, column_map !! field_id (ref_field t) = Some c ->
        is_group c = false
        /\ literals_ok q ((fun row => read row t) <$> rows)
        /\ forall i, column_indices !! i = Some c ->
             exists a, batch_columns batch !! i = Some a /\ holds a ((fun row => read row t) <$> rows)
  end.

Lemma leaf_in_batch_held {V : ValueLib} {A : Arrow} {AL : ArrowLaws V A} is_group m p batch rows ids :
  term_ids p ⊆ ids ->
  leaves (leaf_in_batch is_group m (filter_columns ids m) batch rows) p ->
  leaves (leaf_held is_group m (filter_columns ids m) batch rows) p.
Proof.
  assert (forall q t, leaf_term q = Some t -> field_id (ref_field t) ∈ ids ->
            leaf_in_batch is_group m (filter_columns ids m) batch rows q ->
            leaf_held is_group m (filter_columns ids m) batch rows q) as Hleaf.
  { intros q t Ht Hid Hq. unfold leaf_held, leaf_in_batch in *. rewrite Ht in *.
    destruct (m !! _) as [c|] eqn:Hc; [|done]. destruct (Hq c eq_refl) as (Hg & Hl & Hi).
    split; [done|]. pose proof (filter_columns_elem ids m _ c Hid Hc) as Hin.
    destruct (list_find (fun idx => idx = c) (filter_columns ids m)) as [[i x]|] eqn:E.
    - apply list_find_Some in E as (Hx & -> & _). destruct (Hi i Hx) as (a & Ha & Hh). by exists i, a.
    - apply list_find_None in E. rewrite Forall_forall in E. by destruct (E c Hin). }
  induction p as [| |l IHl r IHr|l IHl r IHr|p IH|op t|op t d|op t ds]; cbn [term_ids leaves]; try done.
  - intros Hs [Hl Hr]. split; [apply IHl|apply IHr]; set_solver.
  - intros Hs [Hl Hr]. split; [apply IHl|apply IHr]; set_solver.
  - intros Hs. apply (Hleaf (Unary op t) t eq_refl), Hs, elem_of_singleton_2. reflexivity.
  - intros Hs. apply (Hleaf (Binary op t d) t eq_refl), Hs, elem_of_singleton_2. reflexivity.
  - intros Hs. apply (Hleaf (SetP op t ds) t eq_refl), Hs, elem_of_singleton_2. reflexivity.
Qed.

(** The steps of the reader: collect the fields, build the filter. *)
Definition row_filter_of {V : ValueLib} {A : Arrow} (is_group : nat -> bool) (field_id_map : gmap Z nat)
    (predicate : BoundPredicate) : result (list nat * PredicateResult) :=
  let? ids := collect_field_ids predicate in
  get_row_filter predicate is_group ids field_id_map.

Lemma row_filter_values {V : ValueLib} {A : Arrow} {AL : ArrowLaws V A} is_group m p batch rows :
  batch_rows batch = length rows -> well_formed p = true ->
  leaves (leaf_in_batch is_group m (filter_columns (term_ids p) m) batch rows) p ->
  exists f, row_filter_of is_group m p = Ok (filter_columns (term_ids p) m, f)
    /\ f batch = Ok (filter_value m p <$> rows).
Proof.
  intros Hlen Hw Hl. unfold row_filter_of, collect_field_ids. rewrite (collect_visit p ∅ Hw).
  cbn [fmap result_fmap mbind result_bind snd]. rewrite (right_id_L ∅ (∪)). unfold get_row_filter.
  destruct (yields_filter is_group m (filter_columns (term_ids p) m) batch rows Hlen p Hw) as (f & -> & Hf).
  { by apply leaf_in_batch_held. }
  by exists f.
Qed.

(** Values of one type, neither NaN nor a negative zero. *)
Definition equatable (x d : Datum) : Prop :=
  comparable x d /\ regular x = true /\ regular d = true
  /\ Values.is_nan x = false /\ Values.is_nan d = false.

(** A leaf whose filter decides it: its column is in the file, it is no NaN test, equality is
    asked of ordinary values, and a negated comparison is not asked of null. *)
Definition negative (op : PredicateOperator.t) : bool :=
  match op with
  | PredicateOperator.NotEq | PredicateOperator.NotStartsWith | PredicateOperator.NotIn => true
  | _ => false
  end.
Definition leaf_decided {V : ValueLib} (m : gmap Z nat) (row : Struct) (q : BoundPredicate) : Prop :=
  match leaf_term q with
  | None => True
  | Some t =>
      is_Some (m !! field_id (ref_field t)) /\ accessor_get (ref_accessor t) row = Ok (read row t)
      /\ match q with
         | Unary op _ => op = PredicateOperator.IsNull \/ op = PredicateOperator.NotNull
         | Binary op _ d => (negative op = true -> is_Some (read row t))
             /\ (forall x, read row t = Some x -> equatable x d)
         | SetP op _ ds => (negative op = true -> is_Some (read row t))
             /\ Forall (fun d => forall x, read row t = Some x -> equatable x d) ds
         | _ => True
         end
  end.

Section decided.
Context {V : ValueLib} {L : ValueLibLaws V}.

Lemma eq_value_eqb x d : equatable x d -> eq_value x d = datum_eqb x d.
Proof.
  intros (Hc & Hx & Hd & Nx & Nd). unfold eq_value. apply eq_true_iff_eq.
  rewrite bool_decide_eq_true. symmetry. by apply datum_eqb_key.
Qed.

Lemma existsb_eqb x ds :
  Forall (equatable x) ds -> existsb (eq_value x) ds = set_contains ds x.
Proof.
  unfold set_contains. induction 1 as [|d ds Hd _ IH]; [done|]. cbn. by rewrite IH, eq_value_eqb.
Qed.

Lemma leaf_value m row q :
  match q with Unary _ _ | Binary _ _ _ | SetP _ _ _ => True | _ => False end ->
  well_formed q = true -> leaf_decided m row q ->
  eval_row q row = Ok (is_true3 (filter_value m q row)).
Proof.
  intros Hleaf Hw Hd. unfold eval_row.
  destruct q as [| | | | |op t|op t d|op t ds]; try done; cbn [leaf_decided leaf_term] in Hd;
    destruct Hd as ([c Hc] & Hread & Hd); cbn [filter_value]; rewrite Hc;
    rewrite bool_decide_true by (by eexists).
  - destruct Hd as [-> | ->]; cbn; unfold on_value; rewrite Hread; cbn; by destruct (read row t).
  - destruct Hd as (Hneg & Heq). destruct op; try discriminate Hw; cbn; unfold on_value; rewrite Hread;
      cbn; (destruct (read row t) as [x|]; [|try done; by destruct (Hneg eq_refl)]); cbn;
      try done; by rewrite (eq_value_eqb x d (Heq x eq_refl)).
  - destruct Hd as (Hneg & Heq). assert (forall x, read row t = Some x -> Forall (equatable x) ds) as Hall.
    { intros x Hx. eapply Forall_impl; [exact Heq|]. auto. }
    destruct op; try discriminate Hw; cbn; unfold on_value; rewrite Hread; cbn;
      (destruct (read row t) as [x|]; [|try (by destruct (Hneg eq_refl))]); cbn;
      try (rewrite (existsb_eqb x ds (Hall x eq_refl))); try (by case_bool_decide); try done.
    case_bool_decide; [done|]. by destruct ds.
Qed.

Lemma filter_decides m row p :
  well_formed p = true -> not_free p = true -> leaves (leaf_decided m row) p ->
  eval_row p row = Ok (is_true3 (filter_value m p row)).
Proof.
  induction p as [| |l IHl r IHr|l IHl r IHr|p IH|op t|op t d|op t ds];
    cbn [well_formed not_free leaves]; rewrite ?andb_true_iff; try done; try (by intros; apply leaf_value).
  - intros [? ?] [? ?] [? ?]. unfold eval_row in *. cbn. rewrite IHl, IHr by done. cbn.
    by rewrite kleene_and_true.
  - intros [? ?] [? ?] [? ?]. unfold eval_row in *. cbn. rewrite IHl, IHr by done. cbn.
    by rewrite kleene_or_true.
Qed.

End decided.

(** ** Properties *)

(** C9 The row filter that the reader builds from a predicate, run on a batch of the columns
    that it asked to project, keeps a row exactly when the row matches: the columns are
    collected and found, and the mask is true where the expression evaluator answers true.
    Required of each leaf: its column is in the file, it is no NaN test, and a negated
    comparison is not asked of a null. *)
Theorem row_filter_exact {V : ValueLib} {L : ValueLibLaws V} {A : Arrow} {AL : ArrowLaws V A}
    is_group m p batch rows :
  batch_rows batch = length rows -> well_formed p = true -> not_free p = true ->
  leaves (leaf_in_batch is_group m (filter_columns (term_ids p) m) batch rows) p ->
  Forall (fun row => leaves (leaf_decided m row) p) rows ->
  exists f mask, row_filter_of is_group m p = Ok (filter_columns (term_ids p) m, f)
    /\ f batch = Ok mask
    /\ Forall2 (fun keep row => keep = Some true <-> eval_row p row = Ok true) mask rows.
Proof.
  intros Hlen Hw Hn Hb Hd. destruct (row_filter_values is_group m p batch rows Hlen Hw Hb) as (f & Ef & Hf).
  exists f, (filter_value m p <$> rows). split; [done|]. split; [done|].
  clear -L Hd Hw Hn. induction Hd as [|row rows Hd _ IH]; [constructor|]. cbn. constructor; [|exact IH].
  rewrite (filter_decides m row p Hw Hn Hd). destruct (filter_value m p row) as [[]|]; cbn; split; congruence.
Qed.

(** ** An instance of arrow

    An array is its values, a scalar is the value it was made of, and no cast is needed. *)

Definition scalar_value (s : ArrowScalar) : Datum :=
  match s with
  | BooleanScalar v => mkDatum PrimitiveType.Boolean (PrimitiveLiteral.Boolean v)
  | Int32Scalar v => mkDatum PrimitiveType.Int (PrimitiveLiteral.Int v)
  | Int64Scalar v => mkDatum PrimitiveType.Long (PrimitiveLiteral.Long v)
  | Float32Scalar v => mkDatum PrimitiveType.Float (PrimitiveLiteral.Float v)
  | Float64Scalar v => mkDatum PrimitiveType.Double (PrimitiveLiteral.Double v)
  | StringScalar v => mkDatum PrimitiveType.String (PrimitiveLiteral.String v)
  | BinaryScalar v => mkDatum PrimitiveType.Binary (PrimitiveLiteral.Binary v)
  | Date32Scalar v => mkDatum PrimitiveType.Date (PrimitiveLiteral.Int v)
  | TimestampMicrosecondScalar v utc =>
      mkDatum (if utc then PrimitiveType.Timestamptz else PrimitiveType.Timestamp) (PrimitiveLiteral.Long v)
  | TimestampNanosecondScalar v utc =>
      mkDatum (if utc then PrimitiveType.TimestamptzNs else PrimitiveType.TimestampNs) (PrimitiveLiteral.Long v)
  | Decimal128Scalar v p s => mkDatum (PrimitiveType.Decimal p s) (PrimitiveLiteral.Int128 v)
  | FixedSizeBinaryScalar v => mkDatum PrimitiveType.Uuid (PrimitiveLiteral.UInt128 (of_be v))
  end.

Definition zip_arrays (f : option bool -> option bool -> option bool) (a b : BooleanArray) :
    result BooleanArray :=
  if (length a =? length b)%nat then Ok (zip_with f a b) else Err (Error Unexpected).

Definition concrete_arrow {V : ValueLib} : Arrow := {|
  ArrayRef := list (option Datum);
  ArrowDatum := Datum;
  DataType := unit;
  dt_Int32 := tt;
  dt_Int64 := tt;
  dt_is_struct _ := false;
  data_type _ := tt;
  datum_of_scalar := scalar_value;
  datum_data_type _ := tt;
  cast_datum d _ := Ok d;
  cast_array a _ := Ok a;
  int32_values a := Some ((fun v : option Datum => v ≫= int_literal) <$> a);
  int64_values a := Some ((fun v : option Datum => v ≫= int_literal) <$> a);
  decimal_type_valid precision scale := (0 <? precision) && (precision <=? 38) && (scale <=? precision);
  k_is_null a := Ok ((fun v : option Datum => Some (negb (bool_decide (is_Some v)))) <$> a);
  k_is_not_null a := Ok ((fun v : option Datum => Some (bool_decide (is_Some v))) <$> a);
  k_lt a d := Ok (per_row (fun x => datum_lt x d) a);
  k_lt_eq a d := Ok (per_row (fun x => datum_le x d) a);
  k_gt a d := Ok (per_row (fun x => datum_gt x d) a);
  k_gt_eq a d := Ok (per_row (fun x => datum_ge x d) a);
  k_eq a d := Ok (per_row (fun x => eq_value x d) a);
  k_neq a d := Ok (per_row (fun x => negb (eq_value x d)) a);
  k_starts_with a d := Ok (per_row (fun x => literal_starts_with x d) a);
  k_and := zip_arrays (strict2 andb);
  k_or := zip_arrays (strict2 orb);
  k_and_kleene := zip_arrays kleene_and;
  k_or_kleene := zip_arrays kleene_or;
  k_not a := Ok (kleene_not <$> a);
|}.

Lemma scalar_value_of {V : ValueLib} {A : Arrow} d s :
  literal_fits d = true -> get_arrow_scalar d = Ok s -> scalar_value s = d.
Proof.
  unfold literal_fits. rewrite andb_true_iff. intros [Hw Hf]. destruct d as [ty l].
  unfold datum_wf in Hw. cbn [datum_type datum_literal] in *. rewrite !andb_true_iff in Hw.
  destruct Hw as [[Ht Hc] Hl]. unfold get_arrow_scalar. cbn [datum_type datum_literal].
  destruct ty, l; try discriminate Hc; cbn [lit_wf type_wf] in *; try (by intros [= <-]); try done.
  - rewrite !andb_true_iff in Ht. destruct Ht as [[H1%Z.ltb_lt H2%Z.leb_le] H3%Z.leb_le].
    apply Z.leb_le in Hf. rewrite wrapU_id by (apply inU_spec; lia).
    rewrite wrapS_id by (first [lia|apply inS_spec; lia]).
    destruct (decimal_type_valid _ _); [|done]. by intros [= <-].
  - intros [= <-]. cbn. f_equal. f_equal. by apply (of_be_bytes_id 16).
Qed.

Lemma zip_arrays_ok f a b : length a = length b -> zip_arrays f a b = Ok (zip_with f a b).
Proof. intros H. unfold zip_arrays. by rewrite H, Nat.eqb_refl. Qed.

#[local] Existing Instance concrete_arrow.

Definition concrete_arrow_laws {V : ValueLib} : ArrowLaws V concrete_arrow.
Proof.
  refine (Build_ArrowLaws V concrete_arrow (fun a vs => a = vs) _ _ _ _ _ _ _ _ _ _).
  - done.
  - by intros a vs ->.
  - by intros a vs ->.
  - intros a vs d s -> _ Hfit Hs. unfold get_arrow_datum in Hs. apply fmap_Ok in Hs as (sc & Hsc & <-).
    pose proof (scalar_value_of d sc Hfit Hsc) as E. cbn. rewrite E.
    exists d. by repeat split.
  - by intros a vs -> _.
  - apply zip_arrays_ok.
  - apply zip_arrays_ok.
  - apply zip_arrays_ok.
  - apply zip_arrays_ok.
  - done.
Defined.

Section witnesses.
#[local] Existing Instance concrete_values.
#[local] Existing Instance concrete_arrow_laws.

Definition int_term : BoundReference :=
  mkBoundReference "a" (mkField 1 "a" false (TPrimitive PrimitiveType.Int))
    (accessor_new 0 PrimitiveType.Int).
Definition int_cell (v : option Z) : Struct :=
  [(fun n => LPrimitive (PrimitiveLiteral.Int n)) <$> v].
Definition int_batch (vs : list (option Z)) : RecordBatch :=
  mkRecordBatch (length vs) [(fun v : option Z => datum_int <$> v) <$> vs].
Definition one_column : gmap Z nat := {[1 := 0%nat]}.
Definition run_filter (p : BoundPredicate) (batch : RecordBatch) : result BooleanArray :=
  let? filter := row_filter_of (fun _ => false) one_column p in
  snd filter batch.
Definition ex_filter : BoundPredicate :=
  And (Binary PredicateOperator.GreaterThan int_term (datum_int 3))
      (SetP PredicateOperator.In int_term [datum_int 5; datum_int 8]).

Lemma int_read v : read (int_cell v) int_term = datum_int <$> v.
Proof. by destruct v. Qed.

Lemma ex_columns : filter_columns (term_ids ex_filter) one_column = [0%nat].
Proof. by vm_compute. Qed.

Lemma int_comparable n k : inS 32 n = true -> inS 32 k = true -> comparable (datum_int n) (datum_int k).
Proof. intros Hn Hk. repeat split; unfold datum_wf; cbn; by rewrite ?Hn, ?Hk. Qed.

Lemma ex_decided n : inS 32 n = true -> leaves (leaf_decided one_column (int_cell (Some n))) ex_filter.
Proof.
  intros Hn.
  assert (forall k x, inS 32 k = true -> read (int_cell (Some n)) int_term = Some x ->
            equatable x (datum_int k)) as He.
  { intros k x Hk. rewrite int_read. intros [= <-]. split; [by apply int_comparable|done]. }
  split; (split; [by eexists|]); (split; [done|]); (split; [done|]).
  - intros x Hx. by apply He.
  - apply Forall_cons_2; [|apply Forall_cons_2; [|apply Forall_nil_2]]; intros x Hx; by apply He.
Qed.

Lemma row_filter_exact_witness :
  run_filter ex_filter (int_batch [Some 2; Some 5; Some 8]) = Ok [Some false; Some true; Some true]
  /\ exists f mask, row_filter_of (fun _ => false) one_column ex_filter
       = Ok (filter_columns (term_ids ex_filter) one_column, f)
     /\ f (int_batch [Some 2; Some 5; Some 8]) = Ok mask
     /\ Forall2 (fun keep row => keep = Some true <-> eval_row ex_filter row = Ok true) mask
          [int_cell (Some 2); int_cell (Some 5); int_cell (Some 8)].
Proof.
  split; [by vm_compute|].
  assert (forall x k, Some x ∈ [Some (datum_int 2); Some (datum_int 5); Some (datum_int 8)] ->
            inS 32 k = true -> comparable x (datum_int k) /\ regular x = true /\ Values.is_nan x = false
              /\ is_Some (int_literal x)) as Hin.
  { intros x k Hx Hk.
    repeat (apply elem_of_cons in Hx as [[= ->]|Hx];
            [split; [by apply int_comparable|split; [done|split; [done|by eexists]]]|]).
    by apply not_elem_of_nil in Hx. }
  apply row_filter_exact; [done|done|done| |].
  - rewrite ex_columns. split; intros c [= <-]; (split; [done|]); split.
    + split; [done|]. split; [|by intros [|]]. intros x Hx. by apply (Hin x 3).
    + intros [|i] Hi; [|done]. eexists. by split.
    + split; [|intros _ x Hx; by apply (Hin x 3)].
      apply Forall_cons_2; [|apply Forall_cons_2; [|apply Forall_nil_2]];
        (split; [done|]); intros x Hx; by apply (Hin x).
    + intros [|i] Hi; [|done]. eexists. by split.
  - apply Forall_cons_2; [|apply Forall_cons_2; [|apply Forall_cons_2; [|apply Forall_nil_2]]];
      by apply ex_decided.
Defined.

(** *** Deviations *)

(** A comparison that is negated is null on null, so the filter drops the row, although
    [NotEq] and [NotIn] match it; the test for "not NaN" drops every row of a column that the
    file has, and the test for NaN keeps every row. *)
Theorem row_filter_deviates :
  let null_row := int_cell None in
  let batch := int_batch [None] in
  let not_five := Binary PredicateOperator.NotEq int_term (datum_int 5) in
  let not_in_five := SetP PredicateOperator.NotIn int_term [datum_int 5] in
  let not_nan := Unary PredicateOperator.NotNan int_term in
  let is_nan := Unary PredicateOperator.IsNan int_term in
  (eval_row not_five null_row = Ok true /\ run_filter not_five batch = Ok [None])
  /\ (eval_row not_in_five null_row = Ok true /\ run_filter not_in_five batch = Ok [None])
  /\ (eval_row not_nan (int_cell (Some 1)) = Ok true
      /\ run_filter not_nan (int_batch [Some 1]) = Ok [Some false])
  /\ (eval_row is_nan (int_cell (Some 1)) = Ok false
      /\ run_filter is_nan (int_batch [Some 1]) = Ok [Some true]).
Proof. by vm_compute. Qed.

(** A literal of type [time] has no arrow scalar: a comparison is refused, and so is a set
    membership that is not of integers; the negated membership panics. *)
Theorem row_filter_refuses_time :
  let t := mkBoundReference "t" (mkField 1 "t" false (TPrimitive PrimitiveType.Time))
             (accessor_new 0 PrimitiveType.Time) in
  let noon := mkDatum PrimitiveType.Time (PrimitiveLiteral.Long 43200000000) in
  let build p := (fun _ => tt) <$> row_filter_of (fun _ => false) one_column p in
  build (Binary PredicateOperator.Eq t noon) = Err (Error FeatureUnsupported)
  /\ build (SetP PredicateOperator.NotIn t [noon]) = Err Panic
  /\ build (SetP PredicateOperator.In t [noon]) = Ok tt.
Proof. by vm_compute. Qed.

End witnesses.
