(* ===== verification/ReaderPlan.v ===== *)
(** * Which rows of a Parquet file the reader reads (arrow/reader.rs)

    The part of [process_file_scan_task] that narrows a file scan task down to row
    groups and rows: splits by byte range, row group statistics, the page index and
    positional deletes.  Soundness composes the evaluators: an undeleted row that
    matches, of a row group in the split, is in a row group that is read and is
    selected there; a deleted row never is. *)

From stdpp Require Import list sorting.
From S2P Require Import Prelude Utf8 Values Concrete DatumOrder Schema Expr DataFile ExprEval Metrics.
From S2P Require Import ParquetStatistics RowGroupMetrics PageIndex DeleteVector.
From S2P Require RowFilter.

(** [ParquetMetaData], with the indexes of each row group if they were loaded. *)
Record ParquetMetaData := mkParquetMetaData {
  row_groups : list RowGroupMetaData;
  file_column_index : option (list (list ColumnIndexMetaData.t));
  file_offset_index : option (list (list OffsetIndexMetaData));
}.

Section reader.
Context {V : ValueLib} {S : RowSelections} {R : Roaring} {A : RowFilter.Arrow}.

(** [filter_row_groups_by_byte_range], from [idx] on. *)
Fixpoint byte_range_from (row_groups : list RowGroupMetaData) (start finish : Z) (idx : nat)
    (current_byte_offset : Z) : list nat :=
  match row_groups with
  | [] => []
  | row_group :: row_groups =>
      let row_group_size := wrapU 64 (compressed_size row_group) in
      let row_group_end := wrapU 64 (current_byte_offset + row_group_size) in
      let rest := byte_range_from row_groups start finish (Datatypes.S idx) row_group_end in
      if (current_byte_offset <? finish) && (start <? row_group_end) then idx :: rest else rest
  end.
Definition filter_row_groups_by_byte_range (parquet_metadata : ParquetMetaData)
    (start length : Z) : list nat :=
  byte_range_from (row_groups parquet_metadata) start (wrapU 64 (start + length)) 0 4.

(** [get_selected_row_group_indices], from [idx] on. *)
Fixpoint row_group_indices_from (predicate : BoundPredicate) (row_groups : list RowGroupMetaData)
    (field_id_map : gmap Z nat) (snapshot_schema : Schema) (idx : nat) : result (list nat) :=
  match row_groups with
  | [] => Ok []
  | row_group_metadata :: row_groups =>
      let? might_match := row_group_eval row_group_metadata field_id_map snapshot_schema predicate in
      let? rest := row_group_indices_from predicate row_groups field_id_map snapshot_schema
                     (Datatypes.S idx) in
      Ok (if (might_match : bool) then idx :: rest else rest)
  end.
Definition get_selected_row_group_indices (predicate : BoundPredicate)
    (parquet_metadata : ParquetMetaData) (field_id_map : gmap Z nat) (snapshot_schema : Schema) :
    result (list nat) :=
  row_group_indices_from predicate (row_groups parquet_metadata) field_id_map snapshot_schema 0.

(** The [for] of [get_row_selection_for_filter_predicate]: the selectors of the row groups
    that are read.  [selected] is what is left of the selected indices; the code stops when
    the last one has been read. *)
Fixpoint page_selections (predicate : BoundPredicate) (field_id_map : gmap Z nat)
    (snapshot_schema : Schema)
    (page_index : list (list ColumnIndexMetaData.t * list OffsetIndexMetaData * RowGroupMetaData))
    (idx : nat) (selected_row_groups : option (list nat)) : result (list RowSelector) :=
  match page_index with
  | [] => Ok []
  | (column_index, offset_index, row_group_metadata) :: page_index =>
      let eval_page :=
        page_index_eval column_index offset_index row_group_metadata field_id_map snapshot_schema
          predicate in
      let continue := page_selections predicate field_id_map snapshot_schema page_index (Datatypes.S idx) in
      match selected_row_groups with
      | None =>
          let? selections_for_page := eval_page in
          let? rest := continue None in
          Ok (selections_for_page ++ rest)
      | Some [] => Err Panic
      | Some (selected :: left_selected) =>
          if (idx =? selected)%nat then
            let? selections_for_page := eval_page in
            match left_selected with
            | [] => Ok selections_for_page
            | _ =>
                let? rest := continue (Some left_selected) in
                Ok (selections_for_page ++ rest)
            end
          else continue selected_row_groups
      end
  end.

Definition get_row_selection_for_filter_predicate (predicate : BoundPredicate)
    (parquet_metadata : ParquetMetaData) (selected_row_groups : option (list nat))
    (field_id_map : gmap Z nat) (snapshot_schema : Schema) : result RowSelection :=
  let? column_index := ok_or (file_column_index parquet_metadata) Unexpected in
  let? offset_index := ok_or (file_offset_index parquet_metadata) Unexpected in
  match selected_row_groups with
  | Some [] => Ok (selection_from [])
  | _ =>
      let? results :=
        page_selections predicate field_id_map snapshot_schema
          (zip (zip column_index offset_index) (row_groups parquet_metadata)) 0 selected_row_groups in
      Ok (selection_from results)
  end.

(** The flags of the reader and what a task asks for. *)
Record ReadRequest := mkReadRequest {
  task_start : Z;
  task_length : Z;
  task_predicate : option BoundPredicate;
  row_group_filtering_enabled : bool;
  row_selection_enabled : bool;
}.

(** [final_predicate]: the scan predicate and the predicate of the equality deletes. *)
Definition final_predicate (predicate delete_predicate : option BoundPredicate) : option BoundPredicate :=
  match predicate, delete_predicate with
  | None, None => None
  | Some predicate, None => Some predicate
  | None, Some predicate => Some predicate
  | Some filter_predicate, Some delete_predicate => Some (bound_and filter_predicate delete_predicate)
  end.

(** The selection by the page index; a failure of kind [Unexpected] is ignored. *)
Definition filter_row_selection (predicate : BoundPredicate) (parquet_metadata : ParquetMetaData)
    (selected_row_group_indices : option (list nat)) (field_id_map : gmap Z nat) (schema : Schema) :
    result (option RowSelection) :=
  match get_row_selection_for_filter_predicate predicate parquet_metadata selected_row_group_indices
          field_id_map schema with
  | Ok sel => Ok (Some sel)
  | Err (Error Unexpected) => Ok None
  | Err e => Err e
  end.

(** What the stream of record batches is built from. *)
Record ReadPlan := mkReadPlan {
  plan_row_groups : option (list nat);
  plan_selection : option RowSelection;
  plan_filter : option (list nat * RowFilter.PredicateResult);
}.

(** The part of [process_file_scan_task] from [final_predicate] on; [fuel] is that of
    [build_deletes_row_selection], and [None] its loops not ending. *)
Definition read_plan (fuel : nat) (request : ReadRequest) (delete_predicate : option BoundPredicate)
    (positional_delete_indexes : option DeleteVector) (parquet_metadata : ParquetMetaData)
    (column_root_is_group : nat -> bool) (field_id_map : gmap Z nat) (schema : Schema) :
    option (result ReadPlan) :=
  let byte_range_filtered :=
    if negb (task_start request =? 0) || negb (task_length request =? 0)
    then Some (filter_row_groups_by_byte_range parquet_metadata (task_start request) (task_length request))
    else None in
  let narrowed :=
    match final_predicate (task_predicate request) delete_predicate with
    | None => Ok (mkReadPlan byte_range_filtered None None)
    | Some predicate =>
        let? row_filter := RowFilter.row_filter_of column_root_is_group field_id_map predicate in
        let? selected_row_group_indices :=
          if row_group_filtering_enabled request then
            let? predicate_filtered_row_groups :=
              get_selected_row_group_indices predicate parquet_metadata field_id_map schema in
            Ok (Some (match byte_range_filtered with
                      | Some byte_range_filtered =>
                          filter (fun idx => idx ∈ predicate_filtered_row_groups) byte_range_filtered
                      | None => predicate_filtered_row_groups
                      end))
          else Ok byte_range_filtered in
        let? row_selection :=
          if row_selection_enabled request
          then filter_row_selection predicate parquet_metadata selected_row_group_indices field_id_map schema
          else Ok None in
        Ok (mkReadPlan selected_row_group_indices row_selection (Some row_filter))
    end in
  match narrowed with
  | Err e => Some (Err e)
  | Ok plan =>
      match positional_delete_indexes with
      | None => Some (Ok plan)
      | Some positional_delete_indexes =>
          match build_deletes_row_selection fuel (row_groups parquet_metadata)
                  (plan_row_groups plan) positional_delete_indexes with
          | None => None
          | Some delete_row_selection =>
              let row_selection :=
                match plan_selection plan with
                | None => delete_row_selection
                | Some filter_row_selection => selection_intersection filter_row_selection delete_row_selection
                end in
              Some (Ok (mkReadPlan (plan_row_groups plan) (Some row_selection) (plan_filter plan)))
          end
      end
  end.

End reader.

(** ** Rows and their positions *)

(** The rows of a group with their positions in the file. *)
Fixpoint number_groups (base : Z) (groups : list (list Struct)) : list (list (Z * Struct)) :=
  match groups with
  | [] => []
  | rows :: groups =>
      zip (seqZ base (Z.of_nat (length rows))) rows :: number_groups (base + Z.of_nat (length rows)) groups
  end.

(** The contents of the groups that are read. *)
Fixpoint pick {T} (read : nat -> bool) (groups : list (list T)) (idx : nat) : list T :=
  match groups with
  | [] => []
  | g :: groups => (if read idx then g else []) ++ pick read groups (Datatypes.S idx)
  end.

Lemma pick_ext {T} read read' (groups : list (list T)) idx :
  (forall i, (idx <= i)%nat -> read i = read' i) -> pick read groups idx = pick read' groups idx.
Proof.
  revert idx. induction groups as [|g groups IH]; intros idx H; [done|]. cbn.
  rewrite H by lia. f_equal. apply IH. intros i Hi. apply H. lia.
Qed.
Lemma pick_none {T} read (groups : list (list T)) idx :
  (forall i, (idx <= i)%nat -> read i = false) -> pick read groups idx = [].
Proof.
  revert idx. induction groups as [|g groups IH]; intros idx H; [done|]. cbn.
  rewrite H by lia. apply IH. intros i Hi. apply H. lia.
Qed.

Lemma zip_snd (base : Z) (rows : list Struct) : (zip (seqZ base (Z.of_nat (length rows))) rows).*2 = rows.
Proof. apply snd_zip. rewrite length_seqZ. lia. Qed.

Lemma pick_snd read base groups idx : (pick read (number_groups base groups) idx).*2 = pick read groups idx.
Proof.
  revert base idx. induction groups as [|rows groups IH]; intros base idx; [done|].
  cbn [number_groups pick]. rewrite fmap_app, IH. f_equal. destruct (read idx); [apply zip_snd|done].
Qed.

(** The mask of the rows that are not deleted, row by row. *)
Lemma kept_rows_pick deleted read groups idx base :
  Forall2 (fun keep pr => keep = negb (bool_decide (pr.1 ∈ deleted)))
    (kept_rows deleted read ((fun rows => Z.of_nat (length rows)) <$> groups) idx base)
    (pick read (number_groups base groups) idx).
Proof.
  revert idx base. induction groups as [|rows groups IH]; intros idx base; [constructor|].
  cbn [fmap list_fmap kept_rows number_groups pick]. apply Forall2_app; [|apply IH].
  destruct (read idx); [|constructor]. unfold kept_mask. clear.
  assert (forall (l : list Z), length l = length rows ->
    Forall2 (fun keep pr => keep = negb (bool_decide (pr.1 ∈ deleted)))
      ((fun i => negb (bool_decide (i ∈ deleted))) <$> l) (zip l rows)) as H.
  { intros l. revert rows. induction l as [|i l IH]; intros [|row rows] H; [constructor|done|done|].
    cbn. constructor; [done|]. apply IH. cbn in H. congruence. }
  apply H. rewrite length_seqZ. lia.
Qed.

(** ** Ascending indices *)

(** Indices [idx ..] in ascending order, as [selection_ok] asks. *)
Definition indices_ok (idx : nat) (l : list nat) : Prop := selection_ok idx (Some l).

Lemma indices_cons idx l : indices_ok (Datatypes.S idx) l -> indices_ok idx (idx :: l).
Proof.
  intros [Hs Hf]. split.
  - constructor; [done|]. eapply Forall_impl; [exact Hf|]. cbn. lia.
  - constructor; [done|]. eapply Forall_impl; [exact Hf|]. cbn. lia.
Qed.
Lemma indices_later idx l : indices_ok (Datatypes.S idx) l -> indices_ok idx l.
Proof. intros [Hs Hf]. split; [done|]. eapply Forall_impl; [exact Hf|]. cbn. lia. Qed.

Lemma indices_filter idx (P : nat -> Prop) `{!forall i, Decision (P i)} l :
  indices_ok idx l -> indices_ok idx (filter P l).
Proof.
  intros [Hs Hf]. split.
  - clear Hf. induction Hs as [|x l Hs IH Hall]; [constructor|]. rewrite filter_cons.
    destruct (decide (P x)); [|done]. constructor; [done|].
    apply Forall_forall. intros y [_ Hy]%list_elem_of_filter. rewrite Forall_forall in Hall. auto.
  - apply Forall_forall. intros y [_ Hy]%list_elem_of_filter. rewrite Forall_forall in Hf. auto.
Qed.

Lemma byte_range_ok groups start finish idx offset :
  indices_ok idx (byte_range_from groups start finish idx offset).
Proof.
  revert idx offset. induction groups as [|g groups IH]; intros idx offset; [by repeat constructor|].
  cbn [byte_range_from]. destruct (_ && _); [apply indices_cons|apply indices_later]; apply IH.
Qed.

Section soundness.
Context {V : ValueLib} {L : ValueLibLaws V} {S : RowSelections} {SL : RowSelectionLaws S}.
Context (m : gmap Z nat) (schema : Schema) (p : BoundPredicate).


(** A row group whose statistics describe its rows. *)
Definition group_described (g : RowGroupMetaData) (rows : list Struct) : Prop :=
  leaves (leaf_readable g m schema) p /\ leaves (leaf_described (group_file g m schema) rows) p.

(** A row group whose page index describes its rows. *)
Definition index_described
    (entry : list ColumnIndexMetaData.t * list OffsetIndexMetaData * RowGroupMetaData)
    (rows : list Struct) : Prop :=
  leaves (leaf_paged entry.1.1 entry.1.2 entry.2 m schema rows) p.

(** The number of rows of each group is that of the metadata. *)
Definition group_counted (g : RowGroupMetaData) (rows : list Struct) : Prop :=
  num_rows g = Z.of_nat (length rows) /\ inS 64 (num_rows g) = true.

Context (Hn : not_free p = true) (Hw : well_formed p = true).

(** Its evaluation succeeds, and is true if a row matches. *)
Lemma row_group_evaluates g rows :
  group_counted g rows -> group_described g rows ->
  exists b, row_group_eval g m schema p = Ok b
    /\ forall row, row ∈ rows -> eval_row p row = Ok true -> b = true.
Proof using L Hn Hw.
  intros [Hlen _] [HR HD]. destruct rows as [|r0 rows].
  - exists false. split; [|by intros row []%not_elem_of_nil].
    unfold row_group_eval. by rewrite Hlen.
  - destruct (eval_reads _ _ r0 p Hw Hn HD ltac:(left)) as [b0 Hb0].
    pose proof (row_group_visit_le _ r0 p ltac:(left) HR HD) as Hle. rewrite Hb0 in Hle.
    destruct Hle as (b & Hb & _). exists b.
    assert (row_group_eval g m schema p = Ok b) as E.
    { unfold row_group_eval. rewrite Hlen. exact Hb. }
    split; [exact E|]. intros row Hrow Hev.
    pose proof (row_group_keeps _ row p Hlen Hrow HR HD Hev) as K. congruence.
Qed.

(** The indices of the row groups that may match. *)
Lemma row_group_indices_ok gs groups idx :
  Forall2 group_counted gs groups -> Forall2 group_described gs groups ->
  exists l, row_group_indices_from p gs m schema idx = Ok l /\ indices_ok idx l
    /\ forall i rows row, groups !! i = Some rows -> row ∈ rows -> eval_row p row = Ok true ->
         (idx + i)%nat ∈ l.
Proof using L Hn Hw.
  intros Hc. revert idx. induction Hc as [|g rows gs groups Hg Hc IH]; intros idx Hd.
  - exists []. split; [done|]. split; [by repeat constructor|]. done.
  - apply Forall2_cons_1 in Hd as [Hgd Hd].
    destruct (row_group_evaluates g rows Hg Hgd) as (b & Hb & Hkeep).
    destruct (IH (Datatypes.S idx) Hd) as (l & Hl & Hok & Hin).
    cbn [row_group_indices_from]. rewrite Hb. rewrite Hl.
    eexists. split; [reflexivity|]. split.
    + destruct b; [by apply indices_cons|by apply indices_later].
    + intros [|i] rows' row Hi Hrow Hev; cbn in Hi.
      * injection Hi as <-. rewrite (Hkeep row Hrow Hev), Nat.add_0_r. by left.
      * specialize (Hin i rows' row Hi Hrow Hev).
        replace (idx + Datatypes.S i)%nat with (Datatypes.S idx + i)%nat by lia.
        destruct b; [by right|done].
Qed.

(** A mask that is set wherever a row matches. *)
Definition keeps_matches (mask : list bool) (rows : list Struct) : Prop :=
  Forall2 (fun keep row => eval_row p row = Ok true -> keep = true) mask rows.

Lemma page_selections_ok entries groups idx selected :
  Forall2 group_counted entries.*2 groups -> Forall2 index_described entries groups ->
  selection_ok idx selected -> selected <> Some [] ->
  exists sel, page_selections p m schema entries idx selected = Ok sel
    /\ keeps_matches (row_mask sel) (pick (is_selected selected) groups idx).
Proof using L SL Hn Hw.
  intros Hc Hd. revert idx selected Hc.
  induction Hd as [|[[ci oi] g] rows entries groups Hg Hd IH]; intros idx selected Hc Hok Hne.
  - exists []. split; [done|]. constructor.
  - apply Forall2_cons_1 in Hc as [[Hlen Hsize] Hc]. cbn in Hlen, Hsize.
    destruct (page_index_selects ci oi g m schema rows p Hlen Hsize Hn Hw Hg) as (sel & Es & Ks).
    cbn [page_selections pick]. destruct selected as [[|x left_selected]|]; [done| |].
    + cbn [is_selected]. destruct (Nat.eqb_spec idx x) as [<-|Hx].
      * rewrite Es.
        rewrite bool_decide_true by left.
        assert (forall i, (Datatypes.S idx <= i)%nat ->
                  bool_decide (i ∈ idx :: left_selected) = bool_decide (i ∈ left_selected)) as Hext.
        { intros i Hi. apply bool_decide_ext. rewrite elem_of_cons. split; [intros [->|]; [lia|done]|auto]. }
        rewrite (pick_ext _ _ _ _ Hext).
        destruct left_selected as [|y left_selected].
        { eexists. split; [reflexivity|]. rewrite pick_none, app_nil_r; [done|].
          intros i _. apply bool_decide_false, not_elem_of_nil. }
        destruct (IH (Datatypes.S idx) (Some (y :: left_selected)) Hc) as (rest & Er & Kr);
          [by apply selection_ok_tail|done|].
        rewrite Er. eexists. split; [reflexivity|].
        unfold keeps_matches. rewrite row_mask_app. by apply Forall2_app.
      * destruct (IH (Datatypes.S idx) (Some (x :: left_selected)) Hc) as (rest & Er & Kr);
          [by apply selection_ok_later|done|].
        exists rest. split; [exact Er|]. rewrite bool_decide_false; [done|].
        destruct Hok as [Hs Hf]. intros Hin. apply elem_of_cons in Hin as [->|Hin]; [done|].
        apply StronglySorted_inv in Hs as [_ Hs]. rewrite Forall_forall in Hs. specialize (Hs _ Hin).
        apply Forall_cons_1 in Hf as [Hf _]. lia.
    + rewrite Es. cbn [is_selected].
      destruct (IH (Datatypes.S idx) None Hc) as (rest & Er & Kr); [done|done|].
      rewrite Er. eexists. split; [reflexivity|].
      unfold keeps_matches. rewrite row_mask_app. by apply Forall2_app.
Qed.
End soundness.

(** ** Soundness of the plan *)

Section plan.
Context {V : ValueLib} {L : ValueLibLaws V} {S : RowSelections} {SL : RowSelectionLaws S}.
Context {R : Roaring} {RL : RoaringLaws R} {A : RowFilter.Arrow}.
Context (request : ReadRequest) (pm : ParquetMetaData) (m : gmap Z nat) (schema : Schema).
Context (groups : list (list Struct)).

(** The row groups of the split of the task; all of them if the task has no split. *)
Definition split_groups : option (list nat) :=
  if negb (task_start request =? 0) || negb (task_length request =? 0)
  then Some (filter_row_groups_by_byte_range pm (task_start request) (task_length request))
  else None.

(** A row satisfies a predicate, if there is one. *)
Definition matches (p : option BoundPredicate) (row : Struct) : Prop :=
  match p with Some p => eval_row p row = Ok true | None => True end.

(** The statistics and the page index of the file describe its rows. *)
Definition page_index_described (p : BoundPredicate) : Prop :=
  match file_column_index pm, file_offset_index pm with
  | Some ci, Some oi => Forall2 (index_described m schema p) (zip (zip ci oi) (row_groups pm)) groups
  | _, _ => True
  end.
Definition file_described (is_group : nat -> bool) (p : option BoundPredicate) : Prop :=
  match p with
  | None => True
  | Some p =>
      not_free p = true /\ well_formed p = true
      /\ is_ok (RowFilter.row_filter_of is_group m p) = true
      /\ Forall2 (group_described m schema p) (row_groups pm) groups
      /\ page_index_described p
  end.

(** The selection by the page index keeps the matching rows of the groups that are read. *)
Lemma filter_row_selection_ok p selected :
  not_free p = true -> well_formed p = true ->
  Forall2 group_counted (row_groups pm) groups -> page_index_described p ->
  selection_ok 0 selected ->
  exists sel, filter_row_selection p pm selected m schema = Ok sel
    /\ forall sel', sel = Some sel' ->
         keeps_matches p (row_mask (selection_iter sel')) (pick (is_selected selected) groups 0).
Proof using L SL.
  intros Hn Hw Hc Hd Hok. unfold filter_row_selection, get_row_selection_for_filter_predicate.
  unfold page_index_described in Hd.
  destruct (file_column_index pm) as [ci|]; [|by exists None].
  destruct (file_offset_index pm) as [oi|]; [|by exists None].
  destruct (decide (selected = Some [])) as [->|Hne].
  { eexists. split; [reflexivity|]. intros sel' [= <-]. rewrite selection_from_mask.
    rewrite pick_none; [constructor|]. intros i _. apply bool_decide_false, not_elem_of_nil. }
  assert (Forall2 group_counted (zip (zip ci oi) (row_groups pm)).*2 groups) as Hc'.
  { pose proof (Forall2_length _ _ _ Hd) as Hl. rewrite length_zip_with in Hl.
    pose proof (Forall2_length _ _ _ Hc). rewrite snd_zip; [done|]. lia. }
  destruct (page_selections_ok m schema p Hn Hw _ _ 0%nat selected Hc' Hd Hok Hne) as (sel & Es & Ks).
  exists (Some (selection_from sel)). split.
  - destruct selected as [[|x l]|]; [done| |]; cbn; by rewrite Es.
  - intros sel' [= <-]. by rewrite selection_from_mask.
Qed.

(** The row groups that are read: in order, in the split, those with a matching row. *)
Definition groups_ok (p : option BoundPredicate) (selected : option (list nat)) : Prop :=
  selection_ok 0 selected
  /\ (forall i, is_selected selected i = true -> is_selected split_groups i = true)
  /\ forall i rows row, groups !! i = Some rows -> is_selected split_groups i = true ->
       row ∈ rows -> matches p row -> is_selected selected i = true.

Lemma split_groups_ok p : groups_ok p split_groups.
Proof.
  split; [|by split]. unfold split_groups. destruct (_ || _); [|done]. apply byte_range_ok.
Qed.

Lemma selected_groups_ok p predicate_groups :
  indices_ok 0 predicate_groups ->
  (forall i rows row, groups !! i = Some rows -> row ∈ rows -> eval_row p row = Ok true ->
     i ∈ predicate_groups) ->
  groups_ok (Some p)
    (Some (match split_groups with
           | Some byte_range_filtered => filter (fun idx => idx ∈ predicate_groups) byte_range_filtered
           | None => predicate_groups
           end)).
Proof.
  intros Hok Hin. destruct (split_groups_ok None) as (Hs & _ & _). unfold groups_ok.
  destruct split_groups as [l|]; cbn [is_selected].
  - split; [by apply indices_filter|]. split.
    + intros i. rewrite !bool_decide_eq_true, list_elem_of_filter. tauto.
    + intros i rows row Hi Hl Hrow Hm. rewrite bool_decide_eq_true in Hl |- *.
      rewrite list_elem_of_filter. eauto.
  - split; [done|]. split; [done|]. intros i rows row Hi _ Hrow Hm.
    rewrite bool_decide_eq_true. eauto.
Qed.

(** The positional deletes of the file, of fewer than 2^32 rows. *)
Definition deletes_described (fuel : nat) (deletes : option DeleteVector) : Prop :=
  match deletes with
  | None => True
  | Some dv =>
      (length (positions dv) <= fuel)%nat /\ (forall x, x ∈ positions dv -> x < 2 ^ 32)
      /\ total_rows (row_groups pm) < 2 ^ 32
  end.
Definition deleted (deletes : option DeleteVector) (pos : Z) : Prop :=
  match deletes with None => False | Some dv => pos ∈ positions dv end.

(** What the plan promises of a row of a row group that is read. *)
Definition row_planned (p : option BoundPredicate) (deletes : option DeleteVector) (keep : bool)
    (row : Z * Struct) : Prop :=
  (deleted deletes row.1 -> keep = false)
  /\ (matches p row.2 -> ~ deleted deletes row.1 -> keep = true).
Definition selection_planned (p : option BoundPredicate) (deletes : option DeleteVector)
    (selected : option (list nat)) (selection : option RowSelection) : Prop :=
  match selection with
  | None => deletes = None
  | Some sel =>
      Forall2 (row_planned p deletes) (row_mask (selection_iter sel))
        (pick (is_selected selected) (number_groups 0 groups) 0)
  end.

Lemma keeps_numbered p mask read :
  keeps_matches p mask (pick read groups 0) ->
  Forall2 (fun keep pr => eval_row p pr.2 = Ok true -> keep = true) mask
    (pick read (number_groups 0 groups) 0).
Proof. unfold keeps_matches. rewrite <- (pick_snd read 0). intros H. by apply Forall2_fmap_r in H. Qed.

(** Without positional deletes, a mask that keeps the matching rows is the plan. *)
Lemma planned_filter p selected sel :
  (forall sel', sel = Some sel' ->
     keeps_matches p (row_mask (selection_iter sel')) (pick (is_selected selected) groups 0)) ->
  selection_planned (Some p) None selected sel.
Proof.
  intros H. destruct sel as [sel|]; [|done]. cbn.
  eapply Forall2_impl; [apply keeps_numbered, H; reflexivity|]. intros keep pr Hk. split; [done|].
  intros Hm _. auto.
Qed.

(** With them, it is intersected with the rows that are left. *)
Lemma planned_deletes p fuel dv selected sel :
  Forall2 group_counted (row_groups pm) groups -> deletes_described fuel (Some dv) ->
  selection_ok 0 selected -> selection_planned p None selected sel ->
  exists deletes, build_deletes_row_selection fuel (row_groups pm) selected dv = Some deletes
    /\ selection_planned p (Some dv) selected
         (Some match sel with None => deletes | Some filter => selection_intersection filter deletes end).
Proof using SL.
  intros Hc (Hf & Hsmall & Hsum) Hok Hplan.
  assert (num_rows <$> row_groups pm = (fun rows => Z.of_nat (length rows)) <$> groups) as Hsizes.
  { clear -Hc. induction Hc as [|g rows gs groups [Hg _] Hc IH]; [done|]. cbn. by rewrite Hg, IH. }
  assert (Forall (Z.le 0) (num_rows <$> row_groups pm)) as Hpos.
  { rewrite Hsizes. apply Forall_fmap, Forall_forall. intros rows _. cbn. lia. }
  destruct (deletes_selection fuel (row_groups pm) selected dv Hf Hsmall Hpos Hsum Hok)
    as (deletes & Hd & Hmask).
  exists deletes. split; [done|].
  pose proof (kept_rows_pick (positions dv) (is_selected selected) groups 0 0) as Hkept.
  rewrite <- Hsizes, <- Hmask in Hkept. destruct sel as [filter|]; cbn in *.
  - rewrite intersection_mask.
    2: { by rewrite (Forall2_length _ _ _ Hplan), (Forall2_length _ _ _ Hkept). }
    revert Hkept. generalize (row_mask (selection_iter deletes)). clear -Hplan.
    induction Hplan as [|keep pr mask rows [_ Hk] Hplan IH]; intros mask' Hm;
      apply Forall2_cons_inv_r in Hm || apply Forall2_nil_inv_r in Hm; [by subst|].
    destruct Hm as (keep' & mask'' & -> & Hm & ->). constructor; [|by apply IH].
    split.
    + intros Hin. by rewrite bool_decide_true, andb_false_r.
    + intros Hrow Hnin. rewrite bool_decide_false by done. rewrite Hk; [done|done|by intros []].
  - eapply Forall2_impl; [exact Hkept|]. intros keep pr ->. split.
    + intros Hin. by rewrite bool_decide_true.
    + intros _ Hnin. by rewrite bool_decide_false.
Qed.

(** The row groups and the rows of them that are read; a task without a predicate or
    deletes reads all rows of its row groups. *)
Lemma narrowed_groups is_group (p : BoundPredicate) :
  Forall2 group_counted (row_groups pm) groups -> file_described is_group (Some p) ->
  exists row_filter selected sel,
    RowFilter.row_filter_of is_group m p = Ok row_filter
    /\ (if row_group_filtering_enabled request then
          let? predicate_groups := get_selected_row_group_indices p pm m schema in
          Ok (Some (match split_groups with
                    | Some byte_range_filtered => filter (fun idx => idx ∈ predicate_groups) byte_range_filtered
                    | None => predicate_groups
                    end))
        else Ok split_groups) = Ok selected
    /\ (if row_selection_enabled request
        then filter_row_selection p pm selected m schema else Ok None) = Ok sel
    /\ groups_ok (Some p) selected /\ selection_planned (Some p) None selected sel.
Proof using L SL.
  intros Hc (Hn & Hw & Hfilter & Hg & Hi). apply is_ok_true in Hfilter as [row_filter Hfilter].
  assert (exists selected,
    (if row_group_filtering_enabled request then
       let? predicate_groups := get_selected_row_group_indices p pm m schema in
       Ok (Some (match split_groups with
                 | Some byte_range_filtered => filter (fun idx => idx ∈ predicate_groups) byte_range_filtered
                 | None => predicate_groups
                 end))
     else Ok split_groups) = Ok selected /\ groups_ok (Some p) selected) as (selected & Hs & Hok).
  { destruct (row_group_filtering_enabled request).
    - destruct (row_group_indices_ok m schema p Hn Hw _ _ 0%nat Hc Hg) as (l & Hl & Hlok & Hin).
      unfold get_selected_row_group_indices. rewrite Hl. eexists. split; [reflexivity|].
      by apply selected_groups_ok.
    - eexists. split; [reflexivity|]. apply split_groups_ok. }
  exists row_filter, selected.
  destruct (row_selection_enabled request).
  - destruct (filter_row_selection_ok p selected Hn Hw Hc Hi (proj1 Hok)) as (sel & Es & Ks).
    exists sel. split_and!; [done..|]. by apply planned_filter.
  - exists None. by split_and!.
Qed.

(** The plan exists, and reads what it has to read. *)
Definition plan_ok (p : option BoundPredicate) (deletes : option DeleteVector) (plan : ReadPlan) : Prop :=
  groups_ok p (plan_row_groups plan)
  /\ selection_planned p deletes (plan_row_groups plan) (plan_selection plan).

Lemma add_deletes fuel p deletes plan :
  Forall2 group_counted (row_groups pm) groups -> deletes_described fuel deletes ->
  plan_ok p None plan ->
  exists plan', plan_ok p deletes plan' /\
    match deletes with
    | None => Some (Ok plan)
    | Some dv =>
        match build_deletes_row_selection fuel (row_groups pm) (plan_row_groups plan) dv with
        | None => None
        | Some delete_row_selection =>
            Some (Ok (mkReadPlan (plan_row_groups plan)
              (Some match plan_selection plan with
                    | None => delete_row_selection
                    | Some filter => selection_intersection filter delete_row_selection
                    end) (plan_filter plan)))
        end
    end = Some (Ok plan').
Proof using SL.
  intros Hc Hd [Hg Hs]. destruct deletes as [dv|]; [|by exists plan].
  destruct (planned_deletes p fuel dv _ _ Hc Hd (proj1 Hg) Hs) as (sel & -> & Hplan).
  eexists. by split; [|reflexivity].
Qed.

End plan.

(** C2 The row groups and rows that the reader selects.  For a file whose statistics and page
    index, if any, describe its rows (with the conditions on NaN, negative zero and literals of
    [leaf_described]), and whose filter compiles to a row filter, the plan of a task exists;
    its row groups are some of those of the split, among them each that has a matching row; and
    of the rows of those groups its selection drops every row deleted by position and keeps
    every other row that matches.  Deletes need a file of fewer than 2^32 rows, positions below
    2^32, and fuel for each position.  Nothing is said of the row filter, which the plan only
    carries: what that keeps is in RowFilter.v ([row_filter_deviates] shows where it loses
    rows). *)
Theorem reader_plan_sound {V : ValueLib} {L : ValueLibLaws V} {S : RowSelections}
    {SL : RowSelectionLaws S} {R : Roaring} {RL : RoaringLaws R} {A : RowFilter.Arrow}
    fuel request delete_predicate deletes pm is_group m schema groups :
  let p := final_predicate (task_predicate request) delete_predicate in
  Forall2 group_counted (row_groups pm) groups ->
  file_described pm m schema groups is_group p ->
  deletes_described pm fuel deletes ->
  exists plan,
    read_plan fuel request delete_predicate deletes pm is_group m schema = Some (Ok plan)
    /\ plan_ok request pm groups p deletes plan.
Proof.
  intros p Hc Hp Hd. unfold read_plan. fold p. fold (split_groups request pm).
  destruct p as [p|].
  - destruct (narrowed_groups request pm m schema groups is_group p Hc Hp)
      as (row_filter & selected & sel & -> & Hs & Hsel & Hg & Hplan).
    cbn. rewrite Hs. cbn. rewrite Hsel. cbn.
    destruct (add_deletes request pm groups fuel (Some p) deletes
                (mkReadPlan selected sel (Some row_filter)) Hc Hd) as (plan & Hok & E); [done|].
    by exists plan.
  - destruct (add_deletes request pm groups fuel None deletes
                (mkReadPlan (split_groups request pm) None None) Hc Hd) as (plan & Hok & E).
    { split; [apply split_groups_ok|done]. }
    by exists plan.
Qed.

Section witnesses.
#[local] Existing Instance concrete_values.
#[local] Existing Instance concrete_roaring.
#[local] Existing Instance concrete_roaring_laws.
#[local] Existing Instance concrete_roaring_ops.
#[local] Existing Instance concrete_selections.
#[local] Existing Instance concrete_selection_laws.
#[local] Existing Instance RowFilter.concrete_arrow.

(** Two row groups of the rows 3 and 8, with a page for each row. *)
Definition ex_metadata : ParquetMetaData :=
  mkParquetMetaData [ex_group; ex_group] (Some [ex_index; ex_index]) (Some [ex_offsets; ex_offsets]).
Definition ex_groups : list (list Struct) := [[ex_row 3; ex_row 8]; [ex_row 3; ex_row 8]].
Definition ex_plan (start length : Z) (deletes : list Z) : option (result ReadPlan) :=
  read_plan 5 (mkReadRequest start length (Some (ex_greater 5)) true true) None
    (Some (of_positions deletes)) ex_metadata (fun _ => false) ex_field_ids ex_group_schema.
Definition planned (plan : option (result ReadPlan)) : option (option (list nat) * option (list RowSelector)) :=
  match plan with
  | Some (Ok plan) => Some (plan_row_groups plan, plan_selection plan)
  | _ => None
  end.

Lemma ex_deletes : positions (of_positions [2; 3]) = [2; 3].
Proof. by vm_compute. Qed.

Lemma ex_metadata_described :
  file_described ex_metadata ex_field_ids ex_group_schema ex_groups (fun _ => false)
    (final_predicate (Some (ex_greater 5)) None).
Proof.
  cbn [final_predicate file_described]. split; [done|]. split; [done|]. split; [by vm_compute|].
  assert (group_described ex_field_ids ex_group_schema (ex_greater 5) ex_group [ex_row 3; ex_row 8]) as Hg.
  { split; [exact ex_group_readable|]. by apply ex_group_described. }
  split; [by apply Forall2_cons_2; [|apply Forall2_cons_2; [|constructor]]|].
  apply Forall2_cons_2; [|apply Forall2_cons_2; [|constructor]]; exact ex_paged.
Qed.

(** [a > 5], when the last two rows are deleted: the page index drops row 0, the deletes rows
    2 and 3. *)
Lemma reader_plan_sound_witness :
  planned (ex_plan 0 0 [2; 3])
  = Some (Some [0%nat; 1%nat],
          Some [selector_skip 1; selector_select 1; selector_skip 1; selector_skip 1])
  /\ exists plan,
       ex_plan 0 0 [2; 3] = Some (Ok plan)
       /\ plan_ok (mkReadRequest 0 0 (Some (ex_greater 5)) true true) ex_metadata ex_groups
            (Some (ex_greater 5)) (Some (of_positions [2; 3] : @DeleteVector concrete_roaring)) plan.
Proof.
  split; [by vm_compute|]. unfold ex_plan.
  refine (reader_plan_sound (R := concrete_roaring) (S := concrete_selections)
            (A := RowFilter.concrete_arrow) 5 (mkReadRequest 0 0 (Some (ex_greater 5)) true true) None
            (Some (of_positions [2; 3])) ex_metadata (fun _ => false) ex_field_ids ex_group_schema
            ex_groups _ _ _).
  - by repeat constructor.
  - exact ex_metadata_described.
  - cbn [deletes_described]. rewrite ex_deletes. split; [cbn; lia|]. split; [|by vm_compute].
    intros x Hx. repeat (apply elem_of_cons in Hx as [->|Hx]; [lia|]). by apply not_elem_of_nil in Hx.
Defined.

(** *** Splits *)

(** Two adjacent splits that cut a row group both read it: the group that holds the bytes
    104 to 203 is read by the split that ends at 150 and by the split that starts there. *)
Theorem adjacent_splits_share_a_group :
  filter_row_groups_by_byte_range ex_metadata 4 146 = [0%nat; 1%nat]
  /\ filter_row_groups_by_byte_range ex_metadata 150 54 = [1%nat].
Proof. by vm_compute. Qed.

End witnesses.
