(* ===== verification/StrictMetrics.v ===== *)
(** * The strict metrics evaluator (expr/visitors/strict_metrics_evaluator.rs)

    Decides from the metrics of a data file whether all of its rows must match a
    filter.  Soundness: when it answers yes, every row matches. *)

From S2P Require Import Prelude Utf8 Values Concrete DatumOrder Expr DataFile ExprEval Metrics.

Definition ROWS_MUST_MATCH : result bool := Ok true.
Definition ROWS_MIGHT_NOT_MATCH : result bool := Ok false.

Section evaluator.
Context {V : ValueLib}.
Context (data_file : DataFile).

Definition visit_inequality (reference : BoundReference) (datum : Datum)
    (cmp_fn : Datum -> Datum -> bool) (use_lower_bound : bool) : result bool :=
  let field_id := field_id (ref_field reference) in
  if may_contain_null data_file field_id || may_contain_nan data_file field_id
  then ROWS_MIGHT_NOT_MATCH
  else
    let bound := if use_lower_bound then lower_bound_of data_file field_id
                 else upper_bound_of data_file field_id in
    match bound with
    | Some bound => if cmp_fn bound datum then ROWS_MUST_MATCH else ROWS_MIGHT_NOT_MATCH
    | None => ROWS_MIGHT_NOT_MATCH
    end.

Definition visit_is_null (reference : BoundReference) : result bool :=
  if contains_nulls_only data_file (field_id (ref_field reference))
  then ROWS_MUST_MATCH else ROWS_MIGHT_NOT_MATCH.

Definition visit_not_null (reference : BoundReference) : result bool :=
  match null_count data_file (field_id (ref_field reference)) with
  | Some count => if count =? 0 then ROWS_MUST_MATCH else ROWS_MIGHT_NOT_MATCH
  | None => ROWS_MIGHT_NOT_MATCH
  end.

Definition visit_is_nan (reference : BoundReference) : result bool :=
  if contains_nans_only data_file (field_id (ref_field reference))
  then ROWS_MUST_MATCH else ROWS_MIGHT_NOT_MATCH.

Definition visit_not_nan (reference : BoundReference) : result bool :=
  let field_id := field_id (ref_field reference) in
  if bool_decide (nan_count data_file field_id = Some 0) then ROWS_MUST_MATCH
  else if contains_nulls_only data_file field_id then ROWS_MUST_MATCH
  else ROWS_MIGHT_NOT_MATCH.

Definition visit_greater_than (reference : BoundReference) (datum : Datum) : result bool :=
  match lower_bound_of data_file (field_id (ref_field reference)) with
  | Some lower => if Values.is_nan lower then ROWS_MIGHT_NOT_MATCH
                  else visit_inequality reference datum datum_gt true
  | None => visit_inequality reference datum datum_gt true
  end.

Definition visit_eq (reference : BoundReference) (datum : Datum) : result bool :=
  let field_id := field_id (ref_field reference) in
  if may_contain_null data_file field_id || may_contain_nan data_file field_id
  then ROWS_MIGHT_NOT_MATCH
  else
    match lower_bound_of data_file field_id, upper_bound_of data_file field_id with
    | Some lower, Some upper =>
        if lit_eqb (datum_literal lower) (datum_literal datum)
           && lit_eqb (datum_literal upper) (datum_literal datum)
        then ROWS_MUST_MATCH else ROWS_MIGHT_NOT_MATCH
    | _, _ => ROWS_MIGHT_NOT_MATCH
    end.

Definition visit_not_eq (reference : BoundReference) (datum : Datum) : result bool :=
  let field_id := field_id (ref_field reference) in
  if contains_nulls_only data_file field_id || contains_nans_only data_file field_id
  then ROWS_MUST_MATCH
  else
    let check_upper :=
      match upper_bound_of data_file field_id with
      | Some upper =>
          if Values.is_nan upper then ROWS_MIGHT_NOT_MATCH
          else if is_lt (lit_partial_cmp (datum_literal upper) (datum_literal datum))
          then ROWS_MUST_MATCH
          else ROWS_MIGHT_NOT_MATCH
      | None => ROWS_MIGHT_NOT_MATCH
      end in
    match lower_bound_of data_file field_id with
    | Some lower =>
        if Values.is_nan lower then ROWS_MIGHT_NOT_MATCH
        else if is_gt (lit_partial_cmp (datum_literal lower) (datum_literal datum))
        then ROWS_MUST_MATCH
        else check_upper
    | None => check_upper
    end.

Definition visit_in (reference : BoundReference) (literals : list Datum) : result bool :=
  let field_id := field_id (ref_field reference) in
  if may_contain_null data_file field_id || may_contain_nan data_file field_id
  then ROWS_MIGHT_NOT_MATCH
  else
    match lower_bound_of data_file field_id, upper_bound_of data_file field_id with
    | Some lower, Some upper =>
        if negb (set_contains literals lower) || negb (set_contains literals upper)
           || negb (datum_eqb lower upper)
        then ROWS_MIGHT_NOT_MATCH else ROWS_MUST_MATCH
    | _, _ => ROWS_MIGHT_NOT_MATCH
    end.

Definition is_empty {A} (l : list A) : bool := match l with [] => true | _ => false end.

Definition visit_not_in (reference : BoundReference) (literals : list Datum) : result bool :=
  let field_id := field_id (ref_field reference) in
  if contains_nulls_only data_file field_id || contains_nans_only data_file field_id
  then ROWS_MUST_MATCH
  else
    let check_upper (filtered_literals : list Datum) :=
      match upper_bound_of data_file field_id with
      | Some upper =>
          let filtered_literals := List.filter (fun val => datum_le val upper) filtered_literals in
          if is_empty filtered_literals then ROWS_MUST_MATCH else ROWS_MIGHT_NOT_MATCH
      | None => ROWS_MIGHT_NOT_MATCH
      end in
    match lower_bound_of data_file field_id with
    | Some lower =>
        if Values.is_nan lower then ROWS_MIGHT_NOT_MATCH
        else
          let filtered_literals := List.filter (fun val => datum_le lower val) literals in
          if is_empty filtered_literals then ROWS_MUST_MATCH else check_upper filtered_literals
    | None => check_upper literals
    end.

Definition StrictMetricsEvaluator : BoundPredicateVisitor result bool :=
  {| always_true := ROWS_MUST_MATCH;
     always_false := ROWS_MIGHT_NOT_MATCH;
     and lhs rhs := Ok (lhs && rhs);
     or lhs rhs := Ok (lhs || rhs);
     not _ := Err (Error DataInvalid);
     is_null reference _ := visit_is_null reference;
     not_null reference _ := visit_not_null reference;
     is_nan reference _ := visit_is_nan reference;
     not_nan reference _ := visit_not_nan reference;
     less_than reference datum _ := visit_inequality reference datum datum_lt false;
     less_than_or_eq reference datum _ := visit_inequality reference datum datum_le false;
     greater_than reference datum _ := visit_greater_than reference datum;
     greater_than_or_eq reference datum _ := visit_inequality reference datum datum_ge true;
     eq reference datum _ := visit_eq reference datum;
     not_eq reference datum _ := visit_not_eq reference datum;
     starts_with _ _ _ := ROWS_MIGHT_NOT_MATCH;
     not_starts_with _ _ _ := ROWS_MIGHT_NOT_MATCH;
     in_ reference literals _ := visit_in reference literals;
     not_in reference literals _ := visit_not_in reference literals |}.

Definition strict_eval (filter : BoundPredicate) : result bool :=
  if record_count data_file =? 0 then ROWS_MUST_MATCH
  else visit StrictMetricsEvaluator filter.

End evaluator.

(** ** Soundness *)

Section soundness.
Context {V : ValueLib} {L : ValueLibLaws V}.
Context {f : DataFile} {rows : list Struct} {row : Struct}.
Context {t : BoundReference} {ty : PrimitiveType.t} {values : column}.
Context (D : describes f rows t ty values) (Hrow : row ∈ rows).

Let CM : column_metrics f (field_id (ref_field t)) ty values := proj2 D.
Let id := field_id (ref_field t).

Lemma strict_is_null_sound : answers_le (visit_is_null f t) (on_value t row (fun _ => false) true).
Proof using D Hrow.
  apply (on_value_ge _ _ _ _ _ _ _ (proj1 D) Hrow). unfold visit_is_null. intros v b Hv.
  destruct (contains_nulls_only f _) eqn:E; [|by intros [= <-]].
  by rewrite (nulls_only_null CM v E Hv).
Qed.

Lemma strict_not_null_sound : answers_le (visit_not_null f t) (on_value t row (fun _ => true) false).
Proof using D Hrow.
  apply (on_value_ge _ _ _ _ _ _ _ (proj1 D) Hrow). unfold visit_not_null. intros v b Hv.
  destruct (null_count f _) as [n|] eqn:E; [|by intros [= <-]].
  destruct (Z.eqb_spec n 0) as [->|]; [|by intros [= <-]].
  by destruct (null_count_zero CM v E Hv) as [x ->].
Qed.

Lemma strict_is_nan_sound :
  answers_le (visit_is_nan f t) (on_value t row (fun x => Values.is_nan x) false).
Proof using D Hrow.
  apply (on_value_ge _ _ _ _ _ _ _ (proj1 D) Hrow). unfold visit_is_nan. intros v b Hv.
  destruct (contains_nans_only f _) eqn:E; [|by intros [= <-]].
  pose proof (nans_only_nan CM v E Hv). by destruct v.
Qed.

Lemma strict_not_nan_sound :
  answers_le (visit_not_nan f t) (on_value t row (fun x => negb (Values.is_nan x)) true).
Proof using D Hrow.
  apply (on_value_ge _ _ _ _ _ _ _ (proj1 D) Hrow). unfold visit_not_nan. intros v b Hv.
  case_bool_decide as E.
  - pose proof (nan_count_zero CM v E Hv) as Hn. destruct v; [|done]. cbn in Hn. by rewrite Hn.
  - destruct (contains_nulls_only f _) eqn:En; [|by intros [= <-]].
    by rewrite (nulls_only_null CM v En Hv).
Qed.

(** Past the first guard of a comparison, the row's value is there and is not NaN. *)
Lemma guarded_value v :
  v ∈ values -> may_contain_null f id || may_contain_nan f id = false ->
  exists x, v = Some x /\ Values.is_nan x = false.
Proof using D.
  intros Hv [Hnull Hnan]%orb_false_iff. destruct (no_null CM v Hnull Hv) as [x ->].
  exists x. split; [done|]. by apply (no_nan CM (Some x)).
Qed.

Lemma strict_inequality_sound d cmp (use_lower : bool) :
  literal_ok ty d -> bounds_not_nan f id ->
  (forall b x, comparable b d -> comparable x d ->
     (if use_lower then lex_le (key b) (key x) else lex_le (key x) (key b)) ->
     cmp b d = true -> cmp x d = true) ->
  answers_le (visit_inequality f t d cmp use_lower) (on_value t row (fun x => cmp x d) false).
Proof using D Hrow.
  intros Hd [Hlo Hup] Hcmp. apply (on_value_ge _ _ _ _ _ _ _ (proj1 D) Hrow). intros v b Hv.
  unfold visit_inequality.
  destruct (may_contain_null f _ || may_contain_nan f _) eqn:E; [by intros [= <-]|].
  destruct (guarded_value v Hv E) as (x & -> & Hn).
  assert (comparable x d) as Hxd by (by eapply value_literal_comparable).
  destruct use_lower.
  - destruct (lower_bound_of f _) as [lb|] eqn:El; [|by intros [= <-]].
    destruct (cmp lb d) eqn:Hc; [|by intros [= <-]]. intros _ _. apply (Hcmp lb x); try done.
    + eapply bound_literal_comparable; [by apply (cm_lower _ _ _ _ CM)|done].
    + by apply (lower_covers CM); [|apply Hlo|..].
  - destruct (upper_bound_of f _) as [ub|] eqn:Eu; [|by intros [= <-]].
    destruct (cmp ub d) eqn:Hc; [|by intros [= <-]]. intros _ _. apply (Hcmp ub x); try done.
    + eapply bound_literal_comparable; [by apply (cm_upper _ _ _ _ CM)|done].
    + by apply (upper_covers CM); [|apply Hup|..].
Qed.

(** The value order between a bound, a value and a literal. *)
Lemma lower_value_le b x :
  lower_bound_of f id = Some b -> Values.is_nan b = false -> Some x ∈ values ->
  Values.is_nan x = false -> lex_le (value_key b) (value_key x).
Proof using D.
  intros Hb Hn Hx Hnx. apply key_value_key; [|by apply (lower_covers CM)].
  apply comparable_sym. by eapply (value_bound_comparable CM), (cm_lower _ _ _ _ CM).
Qed.
Lemma upper_value_le b x :
  upper_bound_of f id = Some b -> Values.is_nan b = false -> Some x ∈ values ->
  Values.is_nan x = false -> lex_le (value_key x) (value_key b).
Proof using D.
  intros Hb Hn Hx Hnx. apply key_value_key; [|by apply (upper_covers CM)].
  by eapply (value_bound_comparable CM), (cm_upper _ _ _ _ CM).
Qed.

(** Equality of a bound with a literal shows that the bound is not NaN. *)
Lemma bound_equals covers b d :
  bound_ok covers ty values b -> literal_ok ty d -> datum_eqb b d = true ->
  Values.is_nan b = false /\ value_key b = value_key d.
Proof using L.
  intros Hb Hd He. assert (comparable b d) as Hc by (by eapply bound_literal_comparable).
  destruct Hd as (_ & _ & Hdn & _). destruct (Values.is_nan b) eqn:E.
  - by rewrite datum_eqb_nan in He.
  - by apply datum_eqb_value_key in He.
Qed.

(** A value between two bounds that both equal a literal equals it. *)
Lemma squeezed x lb ub d :
  lower_bound_of f id = Some lb -> upper_bound_of f id = Some ub -> literal_ok ty d ->
  Some x ∈ values -> Values.is_nan x = false ->
  datum_eqb lb d = true -> datum_eqb ub d = true -> datum_eqb x d = true.
Proof using D L.
  intros El Eu Hd Hx Hn Hl Hu.
  destruct (bound_equals _ lb d (cm_lower _ _ _ _ CM lb El) Hd Hl) as [Hln Hlk].
  destruct (bound_equals _ ub d (cm_upper _ _ _ _ CM ub Eu) Hd Hu) as [Hun Huk].
  pose proof Hd as (_ & _ & Hdn & _).
  apply datum_eqb_value_key; [by eapply value_literal_comparable|done..|].
  apply lex_le_antisym.
  - rewrite <- Huk. by apply upper_value_le.
  - rewrite <- Hlk. by apply lower_value_le.
Qed.

Lemma lit_eqb_datum_eqb a b :
  datum_type a = datum_type b -> lit_eqb (datum_literal a) (datum_literal b) = datum_eqb a b.
Proof. intros E. unfold datum_eqb. by rewrite bool_decide_eq_true_2. Qed.

Lemma strict_eq_sound d :
  literal_ok ty d ->
  answers_le (visit_eq f t d) (on_value t row (fun x => datum_eqb x d) false).
Proof using D Hrow L.
  intros Hd. apply (on_value_ge _ _ _ _ _ _ _ (proj1 D) Hrow). intros v b Hv. unfold visit_eq.
  destruct (may_contain_null f _ || may_contain_nan f _) eqn:E; [by intros [= <-]|].
  destruct (guarded_value v Hv E) as (x & -> & Hn).
  destruct (lower_bound_of f _) as [lb|] eqn:El; [|by intros [= <-]].
  destruct (upper_bound_of f _) as [ub|] eqn:Eu; [|by intros [= <-]].
  pose proof (cm_lower _ _ _ _ CM lb El) as (_ & Tl & _).
  pose proof (cm_upper _ _ _ _ CM ub Eu) as (_ & Tu & _). pose proof Hd as (_ & Td & _).
  rewrite !lit_eqb_datum_eqb by congruence.
  destruct (datum_eqb lb d && datum_eqb ub d) eqn:Eb; [|by intros [= <-]].
  apply andb_true_iff in Eb as [Hl Hu]. intros _ _. by apply (squeezed x lb ub).
Qed.

Lemma strict_in_sound ds :
  Forall (literal_ok ty) ds ->
  answers_le (visit_in f t ds) (on_value t row (fun x => set_contains ds x) false).
Proof using D Hrow L.
  intros Hds. apply (on_value_ge _ _ _ _ _ _ _ (proj1 D) Hrow). intros v b Hv. unfold visit_in.
  destruct (may_contain_null f _ || may_contain_nan f _) eqn:E; [by intros [= <-]|].
  destruct (guarded_value v Hv E) as (x & -> & Hn).
  destruct (lower_bound_of f _) as [lb|] eqn:El; [|by intros [= <-]].
  destruct (upper_bound_of f _) as [ub|] eqn:Eu; [|by intros [= <-]].
  destruct (negb _ || negb _ || negb _) eqn:Eb; [by intros [= <-]|]. intros _ _.
  rewrite !orb_false_iff, !negb_false_iff in Eb. destruct Eb as [[Hl Hu] Hlu].
  unfold set_contains in *. apply existsb_exists in Hl as (d & Hin & Hl).
  apply existsb_exists. exists d. split; [done|].
  assert (literal_ok ty d) as Hd.
  { rewrite Forall_forall in Hds. apply Hds. by apply list_elem_of_In. }
  apply (squeezed x lb ub); try done.
  pose proof (cm_lower _ _ _ _ CM lb El) as Bl. pose proof (cm_upper _ _ _ _ CM ub Eu) as Bu.
  destruct (bound_equals _ lb d Bl Hd Hl) as [Hln Hlk].
  apply existsb_exists in Hu as (d' & Hin' & Hu).
  assert (literal_ok ty d') as Hd'.
  { rewrite Forall_forall in Hds. apply Hds. by apply list_elem_of_In. }
  destruct (bound_equals _ ub d' Bu Hd' Hu) as [Hun _]. pose proof Hd as (_ & _ & Hdn & _).
  apply datum_eqb_value_key; [by eapply bound_literal_comparable|done..|].
  rewrite <- Hlk. symmetry. apply datum_eqb_value_key; [|done..].
  destruct Bl as (? & ? & _), Bu as (? & ? & _). unfold comparable. intuition congruence.
Qed.

Lemma strict_not_eq_sound d :
  literal_ok ty d ->
  answers_le (visit_not_eq f t d) (on_value t row (fun x => negb (datum_eqb x d)) true).
Proof using D Hrow L.
  intros Hd. apply (on_value_ge _ _ _ _ _ _ _ (proj1 D) Hrow). intros v b Hv. unfold visit_not_eq.
  destruct v as [x|]; [|done].
  assert (comparable x d) as Hxd by (by eapply value_literal_comparable).
  pose proof Hd as (_ & _ & Hdn & _).
  destruct (Values.is_nan x) eqn:Hn; [by rewrite datum_eqb_nan|].
  rewrite (value_not_only_null CM x Hv), (value_not_only_nan CM (Some x) Hv Hn). cbn [orb].
  enough ((forall lb, lower_bound_of f id = Some lb -> Values.is_nan lb = false ->
             is_gt (lit_partial_cmp (datum_literal lb) (datum_literal d)) = true ->
             negb (datum_eqb x d) = true)
          /\ (forall ub, upper_bound_of f id = Some ub -> Values.is_nan ub = false ->
             is_lt (lit_partial_cmp (datum_literal ub) (datum_literal d)) = true ->
             negb (datum_eqb x d) = true)) as [Hlo Hup].
  { assert (forall b, match upper_bound_of f id with
                      | Some upper =>
                          if Values.is_nan upper then ROWS_MIGHT_NOT_MATCH
                          else if is_lt (lit_partial_cmp (datum_literal upper) (datum_literal d))
                          then ROWS_MUST_MATCH else ROWS_MIGHT_NOT_MATCH
                      | None => ROWS_MIGHT_NOT_MATCH
                      end = Ok b -> b = true -> negb (datum_eqb x d) = true) as Hcheck.
    { intros b'. destruct (upper_bound_of f id) as [ub|] eqn:Eu; [|by intros [= <-]].
      destruct (Values.is_nan ub) eqn:Nu; [by intros [= <-]|].
      destruct (is_lt _) eqn:Lu; [|by intros [= <-]]. intros _ _. by apply (Hup ub). }
    fold id. destruct (lower_bound_of f id) as [lb|] eqn:El; [|by apply Hcheck].
    destruct (Values.is_nan lb) eqn:Nl; [by intros [= <-]|].
    destruct (is_gt _) eqn:Gl; [|by apply Hcheck]. intros _ _. by apply (Hlo lb). }
  split.
  - intros lb El Nl. rewrite lit_partial_cmp_value_key; [|eapply bound_literal_comparable;
      [by apply (cm_lower _ _ _ _ CM)|done]|done..]. intros Hg.
    apply negb_true_iff, not_true_iff_false. rewrite datum_eqb_value_key by done. intros Heq.
    pose proof (lower_value_le lb x El Nl Hv Hn) as Hle. rewrite Heq in Hle. unfold lex_le in Hle.
    by destruct (lex_cmp _ _).
  - intros ub Eu Nu. rewrite lit_partial_cmp_value_key; [|eapply bound_literal_comparable;
      [by apply (cm_upper _ _ _ _ CM)|done]|done..]. intros Hg.
    apply negb_true_iff, not_true_iff_false. rewrite datum_eqb_value_key by done. intros Heq.
    pose proof (upper_value_le ub x Eu Nu Hv Hn) as Hle. rewrite Heq in Hle.
    unfold lex_le in Hle. rewrite lex_cmp_antisym in Hle. by destruct (lex_cmp _ _).
Qed.

Lemma strict_not_in_sound ds :
  Forall (literal_ok ty) ds -> column_regular values -> bounds_not_nan f id ->
  answers_le (visit_not_in f t ds) (on_value t row (fun x => negb (set_contains ds x)) true).
Proof using D Hrow L.
  intros Hds Hreg [_ Hup]. apply (on_value_ge _ _ _ _ _ _ _ (proj1 D) Hrow). intros v b Hv Hb ->.
  destruct v as [x|]; [|done]. apply negb_true_iff, not_true_iff_false.
  unfold set_contains. intros (d & Hin & Hx)%existsb_exists.
  assert (literal_ok ty d) as Hd.
  { rewrite Forall_forall in Hds. apply Hds. by apply list_elem_of_In. }
  assert (comparable x d) as Hxd by (by eapply value_literal_comparable).
  pose proof Hd as (_ & _ & Hdn & Hdr).
  assert (Values.is_nan x = false) as Hn.
  { destruct (Values.is_nan x) eqn:E; [|done]. by rewrite datum_eqb_nan in Hx. }
  apply datum_eqb_key in Hx; [|by auto..]. revert Hb. unfold visit_not_in.
  rewrite (value_not_only_null CM x Hv), (value_not_only_nan CM (Some x) Hv Hn). cbn [orb].
  assert (forall ds', In d ds' -> match upper_bound_of f id with
      | Some upper =>
          if is_empty (List.filter (fun val => datum_le val upper) ds')
          then ROWS_MUST_MATCH else ROWS_MIGHT_NOT_MATCH
      | None => ROWS_MIGHT_NOT_MATCH
      end <> Ok true) as Hcheck.
  { intros ds' Hin'. destruct (upper_bound_of f id) as [ub|] eqn:Eu; [|done].
    assert (In d (List.filter (fun val => datum_le val ub) ds')) as Hf.
    { apply filter_In. split; [done|]. apply datum_le_key.
      - apply comparable_sym. eapply bound_literal_comparable; [by apply (cm_upper _ _ _ _ CM)|done].
      - rewrite <- Hx. apply (upper_covers CM); auto. }
    by destruct (List.filter _ ds'). }
  fold id. destruct (lower_bound_of f id) as [lb|] eqn:El; [|by apply Hcheck].
  destruct (Values.is_nan lb) eqn:Nl; [done|].
  assert (In d (List.filter (fun val => datum_le lb val) ds)) as Hf.
  { apply filter_In. split; [done|]. apply datum_le_key.
    - eapply bound_literal_comparable; [by apply (cm_lower _ _ _ _ CM)|done].
    - rewrite <- Hx. by apply (lower_covers CM). }
  pose proof (Hcheck _ Hf) as Hc. by destruct (List.filter (fun val => datum_le lb val) ds).
Qed.

End soundness.

Lemma strict_boolean_visitor {V : ValueLib} f : boolean_visitor (StrictMetricsEvaluator f).
Proof. split; done. Qed.
Lemma strict_refuses_not {V : ValueLib} f : refuses_not (StrictMetricsEvaluator f).
Proof. intros b. by eexists. Qed.

Lemma strict_leaf_sound {V : ValueLib} {L : ValueLibLaws V} f rows row q :
  row ∈ rows -> leaf_described f rows q ->
  match q with Unary _ _ | Binary _ _ _ | SetP _ _ _ => True | _ => False end ->
  answers_le (visit (StrictMetricsEvaluator f) q)
             (visit (ExpressionEvaluatorVisitor row) q).
Proof.
  intros Hrow Hq Hleaf. destruct q as [| | | | |op t|op t d|op t ds]; try done; cbn in Hq.
  - destruct Hq as (ty & values & D). destruct op; try done; cbn.
    + by eapply strict_is_null_sound. + by eapply strict_not_null_sound.
    + by eapply strict_is_nan_sound. + by eapply strict_not_nan_sound.
  - destruct Hq as (ty & values & D & Hd & Hreg & Hord & Hpre).
    assert (forall some none, answers_le ROWS_MIGHT_NOT_MATCH (on_value t row some none)) as Hno.
    { intros. apply (on_value_ge _ _ _ _ _ _ _ (proj1 D) Hrow). by intros v b _ [= <-]. }
    destruct op; try done; cbn.
    + destruct Hord; [done|]. eapply (strict_inequality_sound D Hrow d datum_lt false); [done..|].
      intros b x Hb Hx Hle. rewrite !datum_lt_key by done. by apply lex_le_lt_trans.
    + destruct Hord; [done|]. eapply (strict_inequality_sound D Hrow d datum_le false); [done..|].
      intros b x Hb Hx Hle. rewrite !datum_le_key by done. by apply lex_le_trans.
    + destruct Hord as [_ Hbn]; [done|]. unfold visit_greater_than.
      assert (answers_le (visit_inequality f t d datum_gt true)
                (on_value t row (fun x => datum_gt x d) false)) as Hle.
      { eapply (strict_inequality_sound D Hrow d datum_gt true); [done..|].
        intros b x Hb Hx Hle. rewrite !datum_gt_key by done. intros ?. by eapply lex_lt_le_trans. }
      destruct (lower_bound_of f _) as [lb|]; [|done]. by destruct (Values.is_nan lb).
    + destruct Hord; [done|]. eapply (strict_inequality_sound D Hrow d datum_ge true); [done..|].
      intros b x Hb Hx Hle. rewrite !datum_ge_key by done. intros ?. by eapply lex_le_trans.
    + by eapply strict_eq_sound.
    + by eapply strict_not_eq_sound.
    + apply Hno.
    + specialize (Hno (fun x => literal_starts_with x d) false). destruct Hno as (b' & -> & _).
      by exists (negb b').
  - destruct Hq as (ty & values & D & Hds & Hreg & Hnan). destruct op; try done; cbn.
    + by eapply strict_in_sound.
    + eapply strict_not_in_sound; eauto.
Qed.

(** C22 When the strict evaluator answers that all rows must match, every row of the file the
    metrics describe matches the filter.  The conditions are those of the inclusive evaluator:
    counts and bounds are right; no negative zero among the values and literals of comparisons,
    the elements of IN and NOT IN included; no NaN in an ordered column, in its bounds, nor in
    the bounds under NOT IN; literals of the types of their columns. *)
Theorem strict_metrics_sound {V : ValueLib} {L : ValueLibLaws V} f rows filter :
  record_count f = Z.of_nat (length rows) ->
  leaves (leaf_described f rows) filter ->
  strict_eval f filter = Ok true ->
  forall row, row ∈ rows -> eval_row filter row = Ok true.
Proof.
  intros Hcount Hleaves Heval row Hrow. unfold strict_eval in Heval.
  replace (record_count f =? 0) with false in Heval.
  2: { destruct rows; [by apply not_elem_of_nil in Hrow|]. by rewrite Hcount. }
  eapply answers_le_true; [|exact Heval].
  apply visit_sim; [apply strict_boolean_visitor|apply strict_refuses_not|
                    apply expression_boolean_visitor|].
  clear Heval. induction filter; cbn [leaves] in *; try tauto; by apply (strict_leaf_sound f rows).
Qed.

(** [a < 10] holds of both rows. *)
Lemma strict_metrics_sound_witness :
  eval_row (V := concrete_values) (Binary PredicateOperator.LessThan ex_term (datum_int 10))
    [Some (LPrimitive (PrimitiveLiteral.Int 8))] = Ok true.
Proof.
  refine (strict_metrics_sound (V := concrete_values) ex_file ex_rows _ _ _ _ _ _).
  - reflexivity.
  - apply ex_leaf_described; reflexivity.
  - reflexivity.
  - right. left.
Defined.
