(* ===== verification/ManifestEval.v ===== *)
(** * The manifest evaluator (expr/visitors/manifest_evaluator.rs)

    Decides from the partition summaries of a manifest whether some data file
    listed in it may have a partition tuple that matches a partition filter.
    Soundness is against the same row semantics, the rows being the partition
    tuples of the manifest's files. *)

From S2P Require Import Prelude Utf8 Values Concrete DatumOrder Expr DataFile ExprEval Metrics.

Definition IN_PREDICATE_LIMIT : Z := 4096.
Definition ROWS_MIGHT_MATCH : result bool := Ok true.
Definition ROWS_CANNOT_MATCH : result bool := Ok false.

Section evaluator.
Context {V : ValueLib}.
Context (partitions : list FieldSummary).

(** Indexing out of range panics, as do the two [unwrap]s of [bytes_to_datum]. *)
Definition field_summary_for_reference (reference : BoundReference) : result FieldSummary :=
  unwrap (partitions !! accessor_position (ref_accessor reference)).

Definition bytes_to_datum (bytes : list Z) (t : Ty) : result Datum :=
  let? p := unwrap (as_primitive_type t) in
  expect (try_from_bytes bytes p).

Definition datum_as_str (bound : Datum) : result str :=
  match datum_literal bound with
  | PrimitiveLiteral.String bound => Ok bound
  | _ => Err (Error Unexpected)
  end.

Definition are_all_null (field : FieldSummary) (t : Ty) : bool :=
  let all_null := contains_null field && negb (bool_decide (is_Some (lower_bound field))) in
  if all_null && is_floating_type t then
    match contains_nan field with
    | Some val => negb val
    | None => false
    end
  else all_null.

Definition visit_is_null (reference : BoundReference) : result bool :=
  contains_null <$> field_summary_for_reference reference.

Definition visit_not_null (reference : BoundReference) : result bool :=
  let? field := field_summary_for_reference reference in
  if are_all_null field (field_type (ref_field reference))
  then ROWS_CANNOT_MATCH else ROWS_MIGHT_MATCH.

Definition visit_is_nan (reference : BoundReference) : result bool :=
  let? field := field_summary_for_reference reference in
  if bool_decide (contains_nan field = Some false) then ROWS_CANNOT_MATCH
  else if are_all_null field (field_type (ref_field reference)) then ROWS_CANNOT_MATCH
  else ROWS_MIGHT_MATCH.

Definition visit_not_nan (reference : BoundReference) : result bool :=
  let? field := field_summary_for_reference reference in
  match contains_nan field with
  | Some contains_nan =>
      if contains_nan && negb (contains_null field)
         && negb (bool_decide (is_Some (lower_bound field)))
      then ROWS_CANNOT_MATCH else ROWS_MIGHT_MATCH
  | None => ROWS_MIGHT_MATCH
  end.

(** The four comparisons: [misses datum bound] says that no value on the bound's side
    can match. *)
Definition visit_comparison (reference : BoundReference) (datum : Datum)
    (bound_of : FieldSummary -> option (list Z)) (misses : Datum -> Datum -> bool) : result bool :=
  let? field := field_summary_for_reference reference in
  match bound_of field with
  | Some bound_bytes =>
      let? bound := bytes_to_datum bound_bytes (field_type (ref_field reference)) in
      if misses datum bound then ROWS_CANNOT_MATCH else ROWS_MIGHT_MATCH
  | None => ROWS_CANNOT_MATCH
  end.

Definition visit_eq (reference : BoundReference) (datum : Datum) : result bool :=
  let? field := field_summary_for_reference reference in
  match lower_bound field, upper_bound field with
  | Some lower_bound_bytes, Some upper_bound_bytes =>
      let? lower_bound := bytes_to_datum lower_bound_bytes (field_type (ref_field reference)) in
      if datum_gt lower_bound datum then ROWS_CANNOT_MATCH
      else
        let? upper_bound := bytes_to_datum upper_bound_bytes (field_type (ref_field reference)) in
        if datum_lt upper_bound datum then ROWS_CANNOT_MATCH else ROWS_MIGHT_MATCH
  | _, _ => ROWS_CANNOT_MATCH
  end.

Definition visit_starts_with (reference : BoundReference) (datum : Datum) : result bool :=
  let? field := field_summary_for_reference reference in
  match lower_bound field, upper_bound field with
  | Some lower_bound, Some upper_bound =>
      let? prefix := datum_as_str datum in
      let prefix_len := str_len prefix in
      let min_len := (length lower_bound `min` prefix_len)%nat in
      match lex_cmp (utf8 prefix) (take min_len lower_bound) with
      | Lt => ROWS_CANNOT_MATCH
      | _ =>
          let min_len := (length upper_bound `min` prefix_len)%nat in
          match lex_cmp (utf8 prefix) (take min_len upper_bound) with
          | Gt => ROWS_CANNOT_MATCH
          | _ => ROWS_MIGHT_MATCH
          end
      end
  | _, _ => ROWS_CANNOT_MATCH
  end.

Definition visit_not_starts_with (reference : BoundReference) (datum : Datum) : result bool :=
  let? field := field_summary_for_reference reference in
  match contains_null field, lower_bound field, upper_bound field with
  | false, Some lower_bound, Some upper_bound =>
      let? prefix := datum_as_str datum in
      let prefix_len := str_len prefix in
      if (length lower_bound <? prefix_len)%nat then ROWS_MIGHT_MATCH
      else if bool_decide (utf8 prefix = take prefix_len lower_bound) then
        if (length upper_bound <? prefix_len)%nat then ROWS_MIGHT_MATCH
        else if bool_decide (utf8 prefix = take prefix_len upper_bound)
        then ROWS_CANNOT_MATCH else ROWS_MIGHT_MATCH
      else ROWS_MIGHT_MATCH
  | _, _, _ => ROWS_MIGHT_MATCH
  end.

Definition visit_in (reference : BoundReference) (literals : list Datum) : result bool :=
  let? field := field_summary_for_reference reference in
  match lower_bound field with
  | None => ROWS_CANNOT_MATCH
  | Some lower_bound =>
      if IN_PREDICATE_LIMIT <? Z.of_nat (length literals) then ROWS_MIGHT_MATCH
      else
        let? lower_bound := bytes_to_datum lower_bound (field_type (ref_field reference)) in
        if forallb (fun datum => datum_gt lower_bound datum) literals then ROWS_CANNOT_MATCH
        else
          match upper_bound field with
          | Some upper_bound =>
              let? upper_bound := bytes_to_datum upper_bound (field_type (ref_field reference)) in
              if forallb (fun datum => datum_lt upper_bound datum) literals
              then ROWS_CANNOT_MATCH else ROWS_MIGHT_MATCH
          | None => ROWS_MIGHT_MATCH
          end
  end.

Definition ManifestFilterVisitor : BoundPredicateVisitor result bool :=
  {| always_true := ROWS_MIGHT_MATCH;
     always_false := ROWS_CANNOT_MATCH;
     and lhs rhs := Ok (lhs && rhs);
     or lhs rhs := Ok (lhs || rhs);
     not _ := Err (Error Unexpected);
     is_null reference _ := visit_is_null reference;
     not_null reference _ := visit_not_null reference;
     is_nan reference _ := visit_is_nan reference;
     not_nan reference _ := visit_not_nan reference;
     less_than reference datum _ := visit_comparison reference datum lower_bound datum_le;
     less_than_or_eq reference datum _ := visit_comparison reference datum lower_bound datum_lt;
     greater_than reference datum _ := visit_comparison reference datum upper_bound datum_ge;
     greater_than_or_eq reference datum _ :=
       visit_comparison reference datum upper_bound datum_gt;
     eq reference datum _ := visit_eq reference datum;
     not_eq _ _ _ := ROWS_MIGHT_MATCH;
     starts_with reference datum _ := visit_starts_with reference datum;
     not_starts_with reference datum _ := visit_not_starts_with reference datum;
     in_ reference literals _ := visit_in reference literals;
     not_in _ _ _ := ROWS_MIGHT_MATCH |}.

End evaluator.

(** [ManifestEvaluator] and its builder. *)
Record ManifestEvaluatorBuilder := mkManifestEvaluatorBuilder {
  mb_partition_filter : BoundPredicate;
  mb_rewrite_not : bool;
}.
Record ManifestEvaluator := mkManifestEvaluator { m_partition_filter : BoundPredicate }.

Definition builder (partition_filter : BoundPredicate) : ManifestEvaluatorBuilder :=
  mkManifestEvaluatorBuilder partition_filter false.
Definition with_rewrite_not (self : ManifestEvaluatorBuilder) (rewrite_not : bool) :
    ManifestEvaluatorBuilder :=
  mkManifestEvaluatorBuilder (mb_partition_filter self) rewrite_not.
Definition build (self : ManifestEvaluatorBuilder) : result ManifestEvaluator :=
  let? partition_filter :=
    if mb_rewrite_not self then bound_rewrite_not (mb_partition_filter self)
    else Ok (mb_partition_filter self) in
  Ok (mkManifestEvaluator partition_filter).

Definition manifest_eval {V : ValueLib} (self : ManifestEvaluator) (manifest_file : ManifestFile) :
    result bool :=
  match partitions manifest_file with
  | Some ((_ :: _) as p) => visit (ManifestFilterVisitor p) (m_partition_filter self)
  | _ => Ok true
  end.

(** ** The contract of partition summaries *)

(** A summary bound is the serialisation of a value of the column's type that covers
    the values that are neither null nor NaN; it is absent only if there are none. *)
Definition summary_bound_ok (covers : list Z -> list Z -> Prop) (ty : PrimitiveType.t)
    (values : column) (bytes : option (list Z)) : Prop :=
  match bytes with
  | Some bytes => exists b, to_bytes b = Ok bytes /\ decimal_fits b = true
      /\ Values.is_nan b = false /\ bound_ok covers ty values b
  | None => forall x, Some x ∈ values -> Values.is_nan x = true
  end.

Record summary_ok (s : FieldSummary) (ty : PrimitiveType.t) (values : column) : Prop := {
  so_typed : column_typed ty values;
  so_null : contains_null s = false -> None ∉ values;
  so_nan : contains_nan s = Some false -> column_nan_free values;
  so_lower : summary_bound_ok lex_le ty values (lower_bound s);
  so_upper : summary_bound_ok (flip lex_le) ty values (upper_bound s);
}.

(** The summary at the position of the term's accessor describes the term's column. *)
Definition summarised (partitions : list FieldSummary) (rows : list Struct)
    (t : BoundReference) (ty : PrimitiveType.t) (values : column) : Prop :=
  mapR (accessor_get (ref_accessor t)) rows = Ok values
  /\ field_type (ref_field t) = TPrimitive ty
  /\ exists s, partitions !! accessor_position (ref_accessor t) = Some s /\ summary_ok s ty values.

Definition leaf_summarised (partitions : list FieldSummary) (rows : list Struct)
    (q : BoundPredicate) : Prop :=
  match q with
  | Unary _ t => exists ty values, summarised partitions rows t ty values
  | Binary op t d => exists ty values, summarised partitions rows t ty values
      /\ literal_ok ty d /\ column_regular values
      /\ (is_order op = true -> column_nan_free values)
      /\ (is_prefix op = true -> ty = PrimitiveType.String)
  | SetP op t ds => exists ty values, summarised partitions rows t ty values
      /\ Forall (literal_ok ty) ds /\ column_regular values
  | _ => True
  end.

(** ** Soundness *)

Section soundness.
Context {V : ValueLib} {L : ValueLibLaws V}.
Context {partitions : list FieldSummary} {rows : list Struct} {row : Struct}.
Context {t : BoundReference} {ty : PrimitiveType.t} {values : column} {s : FieldSummary}.
Context (Hm : mapR (accessor_get (ref_accessor t)) rows = Ok values) (Hrow : row ∈ rows).
Context (Hty : field_type (ref_field t) = TPrimitive ty).
Context (Hs : partitions !! accessor_position (ref_accessor t) = Some s).
Context (SO : summary_ok s ty values).

Lemma summary_read : field_summary_for_reference partitions t = Ok s.
Proof using Hs. unfold field_summary_for_reference. by rewrite Hs. Qed.

(** Decoding a bound of the summary. *)
Lemma bound_decodes covers bytes :
  summary_bound_ok covers ty values (Some bytes) ->
  exists b, bytes_to_datum bytes (field_type (ref_field t)) = Ok b
    /\ to_bytes b = Ok bytes /\ datum_wf b = true /\ datum_type b = ty
    /\ (forall d, literal_ok ty d -> comparable b d)
    /\ forall x, Some x ∈ values -> Values.is_nan x = false -> covers (key b) (key x).
Proof using Hty L.
  intros (b & Hb & Hfit & Hn & Hok). pose proof Hok as (Hw & Ht & Hcov). exists b.
  destruct (datum_roundtrip b Hw Hfit) as (bs & Hbs & Hrt).
  rewrite Hb in Hbs. injection Hbs as <-. unfold bytes_to_datum. rewrite Hty. cbn.
  rewrite <- Ht at 1. rewrite Hrt. split; [done|]. split; [done|]. split; [done|].
  split; [done|]. split.
  - intros d Hd. by eapply bound_literal_comparable.
  - destruct Hcov as [?|Hcov]; [congruence|done].
Qed.

Lemma absent_bound_nan covers bound x :
  summary_bound_ok covers ty values bound -> Some x ∈ values -> Values.is_nan x = false ->
  exists bytes, bound = Some bytes.
Proof. intros H Hx Hn. destruct bound; [eauto|]. apply H in Hx. congruence. Qed.

Lemma typed_comparable x d : Some x ∈ values -> literal_ok ty d -> comparable x d.
Proof using SO.
  intros Hx%(so_typed _ _ _ SO) (? & ? & _). unfold comparable. intuition congruence.
Qed.

(** Only floats can be NaN. *)
Lemma nan_floating x : Some x ∈ values -> Values.is_nan x = true -> is_floating_type (TPrimitive ty) = true.
Proof using SO.
  intros Hx Hn. destruct (so_typed _ _ _ SO x Hx) as [Hw Ht]. rewrite <- Ht.
  clear -Hw Hn. destruct x as [xt xl]. unfold datum_wf in Hw. cbn in *. apply andb_true_iff in Hw as [[_ Hc]%andb_true_iff _].
  destruct xl; try done; destruct xt; done.
Qed.

Lemma all_null_null v :
  are_all_null s (field_type (ref_field t)) = true -> v ∈ values -> v = None.
Proof using SO Hty.
  unfold are_all_null. rewrite Hty. intros H Hv. destruct v as [x|]; [|done]. exfalso.
  destruct (contains_null s); [|done]. pose proof (so_lower _ _ _ SO) as Hl.
  destruct (lower_bound s); [done|]. pose proof (Hl x Hv) as Hn.
  rewrite (nan_floating x Hv Hn) in H. cbn in H. pose proof (so_nan _ _ _ SO) as Hf.
  destruct (contains_nan s) as [[]|]; try done. rewrite (Hf eq_refl x Hv) in Hn. done.
Qed.

Lemma manifest_is_null_sound :
  answers_le (on_value t row (fun _ => false) true) (visit_is_null partitions t).
Proof using Hm Hrow Hs SO.
  apply (on_value_le _ _ _ _ _ _ _ Hm Hrow). intros v Hv. unfold visit_is_null.
  rewrite summary_read. cbn. eexists. split; [done|]. destruct v; [done|]. intros _.
  destruct (contains_null s) eqn:E; [done|]. by apply (so_null _ _ _ SO) in E.
Qed.

Lemma manifest_not_null_sound :
  answers_le (on_value t row (fun _ => true) false) (visit_not_null partitions t).
Proof using Hm Hrow Hs SO Hty.
  apply (on_value_le _ _ _ _ _ _ _ Hm Hrow). intros v Hv. unfold visit_not_null.
  rewrite summary_read. cbn [mbind result_bind].
  destruct (are_all_null _ _) eqn:E; [|by eexists]. rewrite (all_null_null v E Hv). by eexists.
Qed.

Lemma manifest_is_nan_sound :
  answers_le (on_value t row (fun x => Values.is_nan x) false) (visit_is_nan partitions t).
Proof using Hm Hrow Hs SO Hty.
  apply (on_value_le _ _ _ _ _ _ _ Hm Hrow). intros v Hv. unfold visit_is_nan.
  rewrite summary_read. cbn [mbind result_bind]. case_bool_decide as En.
  - eexists. split; [done|]. destruct v as [x|]; [|done]. intros Hx.
    by rewrite (so_nan _ _ _ SO En x Hv) in Hx.
  - destruct (are_all_null _ _) eqn:E; [|by eexists]. rewrite (all_null_null v E Hv). by eexists.
Qed.

Lemma manifest_not_nan_sound :
  answers_le (on_value t row (fun x => negb (Values.is_nan x)) true) (visit_not_nan partitions t).
Proof using Hm Hrow Hs SO.
  apply (on_value_le _ _ _ _ _ _ _ Hm Hrow). intros v Hv. unfold visit_not_nan.
  rewrite summary_read. cbn [mbind result_bind].
  destruct (contains_nan s) as [b|]; [|by eexists]. destruct (_ && _) eqn:E; [|by eexists].
  eexists. split; [done|]. rewrite !andb_true_iff, !negb_true_iff in E.
  destruct E as [[_ Hnull] Hl]. apply (so_null _ _ _ SO) in Hnull.
  apply bool_decide_eq_false in Hl. pose proof (so_lower _ _ _ SO) as Hb.
  destruct v as [x|]; [|done]. destruct (lower_bound s); [by destruct Hl; eauto|].
  by rewrite (Hb x Hv).
Qed.

(** An order comparison that the value passes is not refuted by a covering bound. *)
Lemma comparison_sound covers bound_of d test misses :
  summary_bound_ok covers ty values (bound_of s) -> literal_ok ty d -> column_nan_free values ->
  (forall b x, comparable b d -> comparable x d -> covers (key b) (key x) ->
     test x d = true -> misses d b = false) ->
  answers_le (on_value t row (fun x => test x d) false)
    (visit_comparison partitions t d bound_of misses).
Proof using Hm Hrow Hs SO Hty L.
  intros Hb Hd Hnan Hmiss. apply (on_value_le _ _ _ _ _ _ _ Hm Hrow). intros v Hv.
  unfold visit_comparison. rewrite summary_read. cbn [mbind result_bind].
  destruct (bound_of s) as [bytes|].
  - destruct (bound_decodes _ _ Hb) as (b & -> & _ & _ & _ & Hc & Hcov). cbn [mbind result_bind].
    destruct (misses d b) eqn:E; [|by eexists]. eexists. split; [done|].
    destruct v as [x|]; [|done]. intros Hx. exfalso.
    rewrite (Hmiss b x) in E; [done|by apply Hc|by apply typed_comparable| |done].
    apply Hcov; [done|by apply Hnan].
  - eexists. split; [done|]. destruct v as [x|]; [|done]. pose proof (Hb x Hv) as Hn.
    by rewrite (Hnan x Hv) in Hn.
Qed.

Lemma equal_not_nan x d :
  Some x ∈ values -> literal_ok ty d -> datum_eqb x d = true -> regular x = true ->
  Values.is_nan x = false /\ key x = key d.
Proof using SO L.
  intros Hv Hd He Hr. pose proof (typed_comparable x d Hv Hd) as Hc.
  pose proof Hd as (_ & _ & Hdn & Hdr). destruct (Values.is_nan x) eqn:E.
  - by rewrite datum_eqb_nan in He.
  - by apply datum_eqb_key in He.
Qed.

Lemma manifest_eq_sound d :
  literal_ok ty d -> column_regular values ->
  answers_le (on_value t row (fun x => datum_eqb x d) false) (visit_eq partitions t d).
Proof using Hm Hrow Hs SO Hty L.
  intros Hd Hreg. apply (on_value_le _ _ _ _ _ _ _ Hm Hrow). intros v Hv.
  unfold visit_eq. rewrite summary_read. cbn [mbind result_bind].
  pose proof (so_lower _ _ _ SO) as Hlo. pose proof (so_upper _ _ _ SO) as Hup.
  assert (forall x, v = Some x -> datum_eqb x d = true ->
            Values.is_nan x = false /\ key x = key d) as Hx.
  { intros x -> He. apply equal_not_nan; auto. }
  destruct (lower_bound s) as [lbs|]; [destruct (upper_bound s) as [ubs|]|].
  - destruct (bound_decodes _ _ Hlo) as (lb & -> & _ & _ & _ & Cl & Hcl). cbn [mbind result_bind].
    destruct (bound_decodes _ _ Hup) as (ub & -> & _ & _ & _ & Cu & Hcu). cbn [mbind result_bind].
    destruct (datum_gt lb d) eqn:El; [|destruct (datum_lt ub d) eqn:Eu; [|by eexists]];
      (eexists; split; [done|]); destruct v as [x|]; try done; intros He;
      destruct (Hx x eq_refl He) as [Hn Hk]; exfalso.
    + apply datum_gt_key in El; [|by apply Cl]. rewrite <- Hk in El. revert El.
      apply lex_not_lt. by apply Hcl.
    + apply datum_lt_key in Eu; [|by apply Cu]. rewrite <- Hk in Eu. revert Eu.
      apply lex_not_lt. by apply Hcu.
  - eexists. split; [done|]. destruct v as [x|]; [|done]. intros He.
    destruct (Hx x eq_refl He) as [Hn _]. by rewrite (Hup x Hv) in Hn.
  - eexists. split; [done|]. destruct v as [x|]; [|done]. intros He.
    destruct (Hx x eq_refl He) as [Hn _]. by rewrite (Hlo x Hv) in Hn.
Qed.

Lemma manifest_in_sound ds :
  Forall (literal_ok ty) ds -> column_regular values ->
  answers_le (on_value t row (fun x => set_contains ds x) false) (visit_in partitions t ds).
Proof using Hm Hrow Hs SO Hty L.
  intros Hds Hreg. apply (on_value_le _ _ _ _ _ _ _ Hm Hrow). intros v Hv.
  unfold visit_in. rewrite summary_read. cbn [mbind result_bind].
  pose proof (so_lower _ _ _ SO) as Hlo. pose proof (so_upper _ _ _ SO) as Hup.
  assert (forall x, v = Some x -> set_contains ds x = true -> Values.is_nan x = false
            /\ exists d, In d ds /\ literal_ok ty d /\ key x = key d) as Hx.
  { intros x -> (d & Hin & He)%existsb_exists. assert (literal_ok ty d) as Hd.
    { rewrite Forall_forall in Hds. apply Hds. by apply list_elem_of_In. }
    destruct (equal_not_nan x d) as [Hn Hk]; eauto. }
  destruct (lower_bound s) as [lbs|].
  2: { eexists. split; [done|]. destruct v as [x|]; [|done]. intros He.
       destruct (Hx x eq_refl He) as [Hn _]. by rewrite (Hlo x Hv) in Hn. }
  destruct (_ <? _); [by eexists|].
  destruct (bound_decodes _ _ Hlo) as (lb & -> & _ & _ & _ & Cl & Hcl). cbn [mbind result_bind].
  destruct (forallb _ ds) eqn:El.
  { eexists. split; [done|]. destruct v as [x|]; [|done]. intros He.
    destruct (Hx x eq_refl He) as (Hn & d & Hin & Hd & Hk). rewrite forallb_forall in El.
    specialize (El d Hin). apply datum_gt_key in El; [|by apply Cl]. exfalso. revert El.
    rewrite <- Hk. apply lex_not_lt. by apply Hcl. }
  destruct (upper_bound s) as [ubs|]; [|by eexists].
  destruct (bound_decodes _ _ Hup) as (ub & -> & _ & _ & _ & Cu & Hcu). cbn [mbind result_bind].
  destruct (forallb (fun d => datum_lt ub d) ds) eqn:Eu; [|by eexists].
  eexists. split; [done|]. destruct v as [x|]; [|done]. intros He.
  destruct (Hx x eq_refl He) as (Hn & d & Hin & Hd & Hk). rewrite forallb_forall in Eu.
  specialize (Eu d Hin). apply datum_lt_key in Eu; [|by apply Cu]. exfalso. revert Eu.
  rewrite <- Hk. apply lex_not_lt. by apply Hcu.
Qed.

(** *** Prefixes: the bounds are compared as bytes *)

Lemma string_datum d :
  datum_wf d = true -> datum_type d = PrimitiveType.String ->
  exists str, d = datum_string str /\ valid_str str = true.
Proof.
  destruct d as [dt dl]. cbn. intros Hw ->. unfold datum_wf in Hw. cbn in Hw.
  apply andb_true_iff in Hw as [Hc Hl]. destruct dl; try discriminate Hc. by eexists.
Qed.

Lemma manifest_string_bound covers bytes :
  ty = PrimitiveType.String -> summary_bound_ok covers ty values (Some bytes) ->
  forall x, Some (datum_string x) ∈ values -> covers bytes (utf8 x).
Proof using Type.
  intros Hstr (b & Hb & _ & _ & Hw & Ht & Hcov) x Hx. rewrite Hstr in Ht.
  destruct (string_datum b Hw Ht) as (sb & -> & _). cbn in Hb. injection Hb as <-.
  destruct Hcov as [?|Hcov]; [done|]. by apply (Hcov (datum_string x)).
Qed.

Lemma manifest_starts_with_sound d :
  literal_ok ty d -> ty = PrimitiveType.String ->
  answers_le (on_value t row (fun x => literal_starts_with x d) false)
    (visit_starts_with partitions t d).
Proof using Hm Hrow Hs SO.
  intros (Hw & Hdt & _) Hstr. apply (on_value_le _ _ _ _ _ _ _ Hm Hrow). intros v Hv.
  destruct (string_datum d) as (p & -> & Hvp); [done|congruence|].
  pose proof (so_lower _ _ _ SO) as Hlo. pose proof (so_upper _ _ _ SO) as Hup.
  assert (forall x, v = Some x -> literal_starts_with x (datum_string p) = true ->
            exists sx q, x = datum_string sx /\ utf8 sx = utf8 p ++ q) as Hx.
  { intros x -> Hx. destruct (so_typed _ _ _ SO x Hv) as [Hxw Hxt].
    destruct (string_datum x) as (sx & -> & _); [done|congruence|]. cbn in Hx.
    apply starts_with_prefix in Hx as [q Hq]. eauto. }
  unfold visit_starts_with. rewrite summary_read. cbn [mbind result_bind].
  destruct (lower_bound s) as [lbs|]; [destruct (upper_bound s) as [ubs|]|].
  - cbn [datum_as_str datum_string datum_literal mbind result_bind].
    pose proof (manifest_string_bound _ _ Hstr Hlo) as Hl. pose proof (manifest_string_bound _ _ Hstr Hup) as Hu.
    assert (forall b, (exists b', Ok b = Ok b' /\ (match v with Some x =>
        literal_starts_with x (datum_string p) | None => false end = true -> b' = true)) <->
        (match v with Some x => literal_starts_with x (datum_string p) | None => false end = true
         -> b = true)) as Hiff.
    { intros b. split; [intros (? & [= <-] & ?); done|eauto]. }
    assert (match v with Some x => literal_starts_with x (datum_string p) | None => false end = true ->
      lex_cmp (utf8 p) (take (length lbs `min` str_len p) lbs) <> Lt
      /\ lex_cmp (utf8 p) (take (length ubs `min` str_len p) ubs) <> Gt) as Hboth.
    { destruct v as [x|]; [|done]. intros (sx & q & -> & Hq)%Hx; [|done].
      specialize (Hl sx Hv). specialize (Hu sx Hv). unfold flip in Hu. rewrite Hq in Hl, Hu.
      split; [apply lex_not_lt, (lex_prefix_lower _ q); [done|unfold str_len; lia]|].
      by apply (lex_prefix_upper _ q). }
    unfold ROWS_CANNOT_MATCH, ROWS_MIGHT_MATCH.
    destruct (lex_cmp (utf8 p) (take (length lbs `min` _) lbs));
      destruct (lex_cmp (utf8 p) (take (length ubs `min` _) ubs)); apply Hiff; tauto.
  - eexists. split; [done|]. destruct v as [x|]; [|done]. intros (sx & q & -> & _)%Hx; [|done].
    by pose proof (Hup _ Hv).
  - eexists. split; [done|]. destruct v as [x|]; [|done]. intros (sx & q & -> & _)%Hx; [|done].
    by pose proof (Hlo _ Hv).
Qed.

Lemma manifest_not_starts_with_sound d :
  literal_ok ty d -> ty = PrimitiveType.String ->
  answers_le (negb <$> on_value t row (fun x => literal_starts_with x d) false)
    (visit_not_starts_with partitions t d).
Proof using Hm Hrow Hs SO.
  intros (Hw & Hdt & _) Hstr.
  enough (answers_le (on_value t row (fun x => negb (literal_starts_with x d)) true)
            (visit_not_starts_with partitions t d)) as Hle.
  { revert Hle. unfold on_value. by destruct (accessor_get _ _) as [[x|]|]. }
  apply (on_value_le _ _ _ _ _ _ _ Hm Hrow). intros v Hv.
  destruct (string_datum d) as (p & -> & Hvp); [done|congruence|].
  pose proof (so_lower _ _ _ SO) as Hlo. pose proof (so_upper _ _ _ SO) as Hup.
  unfold visit_not_starts_with. rewrite summary_read. cbn [mbind result_bind].
  destruct (contains_null s) eqn:En; [by eexists|].
  destruct v as [x|]; [|by destruct (so_null _ _ _ SO En)].
  destruct (so_typed _ _ _ SO x Hv) as [Hxw Hxt].
  destruct (string_datum x) as (sx & -> & Hvx); [done|congruence|].
  destruct (lower_bound s) as [lbs|]; [|by eexists].
  destruct (upper_bound s) as [ubs|]; [|by eexists].
  cbn [datum_as_str datum_string datum_literal mbind result_bind].
  pose proof (manifest_string_bound _ _ Hstr Hlo sx Hv) as Hl.
  pose proof (manifest_string_bound _ _ Hstr Hup sx Hv) as Hu.
  destruct (_ <? _)%nat; [by eexists|]. case_bool_decide as El; [|by eexists].
  destruct (_ <? _)%nat; [by eexists|]. case_bool_decide as Eu; [|by eexists].
  exists false. split; [done|]. intros Hneg%negb_true_iff. exfalso. revert Hneg.
  apply not_false_iff_true. cbn. unfold Utf8.starts_with. apply bool_decide_eq_true.
  unfold str_len in *. by apply (lex_prefix_between (utf8 p) lbs ubs).
Qed.

End soundness.

Lemma manifest_boolean_visitor {V : ValueLib} p : boolean_visitor (ManifestFilterVisitor p).
Proof. split; done. Qed.

Lemma manifest_leaf_sound {V : ValueLib} {L : ValueLibLaws V} p rows row q :
  row ∈ rows -> leaf_summarised p rows q ->
  match q with Unary _ _ | Binary _ _ _ | SetP _ _ _ => True | _ => False end ->
  answers_le (visit (ExpressionEvaluatorVisitor row) q) (visit (ManifestFilterVisitor p) q).
Proof.
  intros Hrow Hq Hleaf. destruct q as [| | | | |op t|op t d|op t ds]; try done; cbn in Hq.
  - destruct Hq as (ty & values & Hm & Hty & s & Hs & SO). destruct op; try done; cbn.
    + by eapply manifest_is_null_sound. + by eapply manifest_not_null_sound.
    + by eapply manifest_is_nan_sound. + by eapply manifest_not_nan_sound.
  - destruct Hq as (ty & values & (Hm & Hty & s & Hs & SO) & Hd & Hreg & Hord & Hpre).
    pose proof (so_lower _ _ _ SO) as Hlo. pose proof (so_upper _ _ _ SO) as Hup.
    destruct op; try done; cbn.
    + eapply (comparison_sound Hm Hrow Hty Hs SO lex_le); eauto. intros b x Hb Hx Hle.
      rewrite <- not_true_iff_false. rewrite datum_lt_key by done.
      rewrite datum_le_key by (by apply comparable_sym). intros Hlt Hle'.
      apply (lex_lt_irrefl (key d)). eauto with lex.
    + eapply (comparison_sound Hm Hrow Hty Hs SO lex_le); eauto. intros b x Hb Hx Hle.
      rewrite <- not_true_iff_false. rewrite datum_le_key by done.
      rewrite datum_lt_key by (by apply comparable_sym). intros Hlt Hle'.
      apply (lex_lt_irrefl (key d)). eauto with lex.
    + eapply (comparison_sound Hm Hrow Hty Hs SO (flip lex_le)); eauto. intros b x Hb Hx Hle.
      unfold flip in Hle. rewrite <- not_true_iff_false. rewrite datum_gt_key by done.
      rewrite datum_ge_key by (by apply comparable_sym). intros Hlt Hle'.
      apply (lex_lt_irrefl (key d)). eauto with lex.
    + eapply (comparison_sound Hm Hrow Hty Hs SO (flip lex_le)); eauto. intros b x Hb Hx Hle.
      unfold flip in Hle. rewrite <- not_true_iff_false. rewrite datum_ge_key by done.
      rewrite datum_gt_key by (by apply comparable_sym). intros Hlt Hle'.
      apply (lex_lt_irrefl (key d)). eauto with lex.
    + by eapply manifest_eq_sound.
    + apply (on_value_le _ _ _ _ _ _ _ Hm Hrow). by eexists.
    + eapply manifest_starts_with_sound; eauto.
    + eapply manifest_not_starts_with_sound; eauto.
  - destruct Hq as (ty & values & (Hm & Hty & s & Hs & SO) & Hds & Hreg).
    destruct op; try done; cbn.
    + by eapply manifest_in_sound.
    + apply (on_value_le _ _ _ _ _ _ _ Hm Hrow). by eexists.
Qed.

(** The evaluator keeps a manifest with a matching file. *)
Lemma manifest_kept {V : ValueLib} {L : ValueLibLaws V} m files file self :
  file ∈ files ->
  (forall p, partitions m = Some p ->
     leaves (leaf_summarised p (partition <$> files)) (m_partition_filter self)) ->
  expression_eval (mkExpressionEvaluator (m_partition_filter self)) file = Ok true ->
  manifest_eval self m = Ok true.
Proof.
  intros Hfile Hleaves Heval. unfold manifest_eval.
  destruct (partitions m) as [[|s p]|]; [done| |done]. specialize (Hleaves _ eq_refl).
  eapply answers_le_true; [|exact Heval].
  apply visit_sim; [apply expression_boolean_visitor|apply expression_refuses_not|
                    apply manifest_boolean_visitor|].
  assert (partition file ∈ partition <$> files) as Hrow by (by apply list_elem_of_fmap_2).
  clear Heval. cbn [partition_filter]. induction (m_partition_filter self);
    cbn [leaves] in *; try tauto; by apply (manifest_leaf_sound (s :: p) (partition <$> files)).
Qed.

(** C21 A scan does not skip a manifest that lists a file whose partition tuple matches the
    partition filter, when the manifest's summaries describe the tuples of its files
    ([leaf_summarised]): flags and bounds are right, a missing bound means that there are no
    values but NaN; literals are of the types of the columns and neither NaN nor negative zero;
    no tuple has a negative zero in a compared column, nor NaN in an ordered one. *)
Theorem manifest_eval_sound {V : ValueLib} {L : ValueLibLaws V} m files file self :
  file ∈ files ->
  (forall p, partitions m = Some p ->
     leaves (leaf_summarised p (partition <$> files)) (m_partition_filter self)) ->
  expression_eval (mkExpressionEvaluator (m_partition_filter self)) file = Ok true ->
  manifest_eval self m = Ok true.
Proof. apply manifest_kept. Qed.

(** A manifest with one file in the partition [a = 3]. *)
Definition ex_summary : FieldSummary :=
  mkFieldSummary false None (Some [3; 0; 0; 0]) (Some [3; 0; 0; 0]).
Definition ex_manifest : ManifestFile :=
  mkManifestFile "m.avro" 10 0 MData 1 1 1 None None None None None None
    (Some [ex_summary]) None None.
Definition ex_filter : BoundPredicate := Binary PredicateOperator.Eq ex_term (datum_int 3).

Lemma ex_leaf_summarised :
  leaf_summarised [ex_summary] (partition <$> [ex_file]) ex_filter.
Proof.
  exists PrimitiveType.Int, [Some (datum_int 3)]. split; [split; [done|]; split; [done|]|].
  - exists ex_summary. split; [done|]. split.
    + intros x [[= ->]|[]%not_elem_of_nil]%elem_of_cons; done.
    + intros _ [?|[]%not_elem_of_nil]%elem_of_cons; done.
    + done.
    + exists (datum_int 3). do 3 (split; [done|]). split; [done|]. split; [done|]. right.
      intros x [[= ->]|[]%not_elem_of_nil]%elem_of_cons _; done.
    + exists (datum_int 3). do 3 (split; [done|]). split; [done|]. split; [done|]. right.
      intros x [[= ->]|[]%not_elem_of_nil]%elem_of_cons _; done.
  - split; [done|]. split; [|done].
    intros x [[= ->]|[]%not_elem_of_nil]%elem_of_cons; done.
Qed.

Lemma manifest_eval_sound_witness :
  manifest_eval (V := concrete_values) (mkManifestEvaluator ex_filter) ex_manifest = Ok true.
Proof.
  refine (manifest_eval_sound (V := concrete_values) ex_manifest [ex_file] ex_file
            (mkManifestEvaluator ex_filter) _ _ _).
  - left.
  - intros p [= <-]. apply ex_leaf_summarised.
  - reflexivity.
Defined.
