(* ===== verification/LiteralEq.v ===== *)
(** * Equality of literals, tuples and types

    The derived [PartialEq] of [Literal] and [Struct], by which partitions are told apart,
    with its theory, and that of types and fields, by which schemas are. *)

From S2P Require Import Prelude Utf8 Values Concrete.

(** ** Equality of partition tuples *)

Section equality.
Context {V : ValueLib}.

Definition option_eqb {A} (f : A -> A -> bool) (a b : option A) : bool :=
  match a, b with Some a, Some b => f a b | None, None => true | _, _ => false end.

Fixpoint literal_eqb (a b : Literal) : bool :=
  let values :=
    fix values (xs ys : list (option Literal)) : bool :=
      match xs, ys with
      | [], [] => true
      | x :: xs, y :: ys =>
          match x, y with Some x, Some y => literal_eqb x y | None, None => true | _, _ => false end
          && values xs ys
      | _, _ => false
      end in
  match a, b with
  | LPrimitive x, LPrimitive y => lit_eqb x y
  | LStruct xs, LStruct ys => values xs ys
  | LList xs, LList ys => values xs ys
  | LMap xs, LMap ys =>
      (fix pairs (xs ys : list (Literal * option Literal)) : bool :=
         match xs, ys with
         | [], [] => true
         | (k, x) :: xs, (l, y) :: ys =>
             literal_eqb k l
             && match x, y with Some x, Some y => literal_eqb x y | None, None => true | _, _ => false end
             && pairs xs ys
         | _, _ => false
         end) xs ys
  | _, _ => false
  end.

Fixpoint list_eqb {A} (f : A -> A -> bool) (xs ys : list A) : bool :=
  match xs, ys with
  | [], [] => true
  | x :: xs, y :: ys => f x y && list_eqb f xs ys
  | _, _ => false
  end.
Definition struct_eqb (a b : Struct) : bool := list_eqb (option_eqb literal_eqb) a b.

(** [Map::insert]: the value of a key that is there is replaced. *)
Fixpoint map_insert (pairs : list (Literal * option Literal)) (key : Literal) (value : option Literal) :
    list (Literal * option Literal) :=
  match pairs with
  | [] => [(key, value)]
  | (k, v) :: pairs =>
      if literal_eqb k key then (k, value) :: pairs else (k, v) :: map_insert pairs key value
  end.

End equality.

(** ** Equality of types and fields (spec/datatypes.rs) *)

Section types.
Context {V : ValueLib}.

Fixpoint ty_eqb (a b : Ty) : bool :=
  let field_eqb (f g : NestedField) : bool :=
    match f, g with
    | mkNestedField i n r t d iw ww, mkNestedField i' n' r' t' d' iw' ww' =>
        (i =? i') && bool_decide (n = n') && eqb r r' && ty_eqb t t' && bool_decide (d = d')
        && option_eqb literal_eqb iw iw' && option_eqb literal_eqb ww ww'
    end in
  match a, b with
  | TPrimitive p, TPrimitive q => bool_decide (p = q)
  | TStruct fs, TStruct gs =>
      (fix fields (fs gs : list NestedField) : bool :=
         match fs, gs with
         | [], [] => true
         | f :: fs, g :: gs => field_eqb f g && fields fs gs
         | _, _ => false
         end) fs gs
  | TList f, TList g => field_eqb f g
  | TMap k v, TMap k' v' => field_eqb k k' && field_eqb v v'
  | _, _ => false
  end.
(** [StructType] compares its fields. *)
Definition struct_type_eqb (a b : list NestedField) : bool := ty_eqb (TStruct a) (TStruct b).

End types.

(** ** Theory: equality of literals and tuples is an equivalence *)

(** The list cases of [literal_eqb] are [list_eqb]. *)
Section literal_equality.
Context {V : ValueLib}.

Definition pair_eqb {A B} (f : A -> A -> bool) (g : B -> B -> bool) (x y : A * B) : bool :=
  f x.1 y.1 && g x.2 y.2.

Definition literal_eqb_body (a b : Literal) : bool :=
  match a, b with
  | LPrimitive x, LPrimitive y => lit_eqb x y
  | LStruct xs, LStruct ys | LList xs, LList ys => list_eqb (option_eqb literal_eqb) xs ys
  | LMap xs, LMap ys => list_eqb (pair_eqb literal_eqb (option_eqb literal_eqb)) xs ys
  | _, _ => false
  end.

Lemma literal_eqb_unfold a b : literal_eqb a b = literal_eqb_body a b.
Proof.
  destruct a as [x|xs|xs|xs], b as [y|ys|ys|ys]; try done; cbn [literal_eqb literal_eqb_body].
  - revert ys; induction xs as [|x xs IH]; intros [|y ys]; try done. cbn. by rewrite IH.
  - revert ys; induction xs as [|x xs IH]; intros [|y ys]; try done. cbn. by rewrite IH.
  - revert ys; induction xs as [|[k x] xs IH]; intros [|[l y] ys]; try done. cbn.
    unfold pair_eqb at 1. cbn. by rewrite IH.
Qed.

Lemma Literal_nested_ind (P : Literal -> Prop) :
  (forall l, P (LPrimitive l)) ->
  (forall fields, Forall (fun o => forall x, o = Some x -> P x) fields -> P (LStruct fields)) ->
  (forall elems, Forall (fun o => forall x, o = Some x -> P x) elems -> P (LList elems)) ->
  (forall entries, Forall (fun e => P e.1 /\ forall x, e.2 = Some x -> P x) entries ->
     P (LMap entries)) ->
  forall a, P a.
Proof.
  intros Hp Hs Hl Hm. fix IH 1. intros [l|fields|elems|entries].
  - apply Hp.
  - apply Hs. induction fields as [|o fields IHf]; constructor; [|exact IHf].
    destruct o; [|discriminate]. intros x [= <-]. apply IH.
  - apply Hl. induction elems as [|o elems IHf]; constructor; [|exact IHf].
    destruct o; [|discriminate]. intros x [= <-]. apply IH.
  - apply Hm. induction entries as [|[k o] entries IHf]; constructor; [|exact IHf].
    split; [apply IH|]. cbn. destruct o; [|discriminate]. intros x [= <-]. apply IH.
Qed.

(** What an equality test needs at [a] to be part of an equivalence. *)
Record eqb_at {A} (f : A -> A -> bool) (a : A) : Prop := {
  at_refl : f a a = true;
  at_sym b : f a b = true -> f b a = true;
  at_trans b c : f a b = true -> f b c = true -> f a c = true;
}.

Lemma option_eqb_at {A} (f : A -> A -> bool) o :
  (forall x, o = Some x -> eqb_at f x) -> eqb_at (option_eqb f) o.
Proof.
  destruct o as [x|]; intros H.
  - specialize (H x eq_refl). split; [apply H|intros [y|]; [apply H|done]|].
    intros [y|] [z|]; try done. apply H.
  - split; [done|by intros []|by intros [] []].
Qed.

Lemma pair_eqb_at {A B} (f : A -> A -> bool) (g : B -> B -> bool) x :
  eqb_at f x.1 -> eqb_at g x.2 -> eqb_at (pair_eqb f g) x.
Proof.
  intros Hf Hg. split; unfold pair_eqb.
  - by rewrite (at_refl _ _ Hf), (at_refl _ _ Hg).
  - intros y [H1%(at_sym _ _ Hf) H2%(at_sym _ _ Hg)]%andb_true_iff. by rewrite H1, H2.
  - intros y z [H1 H2]%andb_true_iff [H3 H4]%andb_true_iff.
    by rewrite (at_trans _ _ Hf _ _ H1 H3), (at_trans _ _ Hg _ _ H2 H4).
Qed.

Lemma list_eqb_at {A} (f : A -> A -> bool) l : Forall (eqb_at f) l -> eqb_at (list_eqb f) l.
Proof.
  induction 1 as [|x l Hx _ IH]; [by split; [done|intros []|intros [] []]|]. split; cbn.
  - by rewrite (at_refl _ _ Hx), (at_refl _ _ IH).
  - intros [|y ys]; [done|]. cbn.
    intros [H1%(at_sym _ _ Hx) H2%(at_sym _ _ IH)]%andb_true_iff. by rewrite H1, H2.
  - intros [|y ys] [|z zs]; try done. cbn. intros [H1 H2]%andb_true_iff [H3 H4]%andb_true_iff.
    by rewrite (at_trans _ _ Hx _ _ H1 H3), (at_trans _ _ IH _ _ H2 H4).
Qed.

Context {L : ValueLibLaws V}.

Lemma OrderedFloat_eq_at w a : eqb_at (OrderedFloat_eq w) a.
Proof.
  split; [|intros b|intros b c]; rewrite !OrderedFloat_eq_ok;
    destruct (float_is_nan w a); try (destruct (float_is_nan w b)); try (destruct (float_is_nan w c));
    cbn; rewrite ?Z.eqb_eq; try done; congruence.
Qed.

Lemma lit_eqb_at l : eqb_at lit_eqb l.
Proof.
  pose proof (OrderedFloat_eq_at 32) as H32. pose proof (OrderedFloat_eq_at 64) as H64.
  split; [|intros b|intros b c]; destruct l; try (destruct b; try done); try (destruct c; try done);
    cbn [lit_eqb]; rewrite ?Z.eqb_eq, ?bool_decide_eq_true, ?eqb_true_iff;
    try congruence; first [apply H32|apply H64].
Qed.

Lemma literal_eqb_at a : eqb_at literal_eqb a.
Proof.
  assert (Hext : forall (f : Literal -> Literal -> bool) a,
    (forall x y, f x y = literal_eqb x y) -> eqb_at f a -> eqb_at literal_eqb a).
  { intros f x Hf [H1 H2 H3]. split; intros *; rewrite <- !Hf; auto. apply H3. }
  assert (Hopt : forall o, (forall x, o = Some x -> eqb_at literal_eqb x) ->
    eqb_at (option_eqb literal_eqb) o) by (intros; by apply option_eqb_at).
  induction a as [l|fields IH|elems IH|entries IH] using Literal_nested_ind;
    apply (Hext literal_eqb_body); try (intros; symmetry; apply literal_eqb_unfold).
  - destruct (lit_eqb_at l) as [H1 H2 H3]. split; [done|intros []; cbn; auto; done|].
    intros [] []; try done. apply H3.
  - destruct (list_eqb_at (option_eqb literal_eqb) fields) as [H1 H2 H3].
    { eapply Forall_impl; [exact IH|]. auto. }
    split; [done|intros []; cbn; auto; done|]. intros [] []; try done. apply H3.
  - destruct (list_eqb_at (option_eqb literal_eqb) elems) as [H1 H2 H3].
    { eapply Forall_impl; [exact IH|]. auto. }
    split; [done|intros []; cbn; auto; done|]. intros [] []; try done. apply H3.
  - destruct (list_eqb_at (pair_eqb literal_eqb (option_eqb literal_eqb)) entries) as [H1 H2 H3].
    { eapply Forall_impl; [exact IH|]. intros e [? ?]. apply pair_eqb_at; auto. }
    split; [done|intros []; cbn; auto; done|]. intros [] []; try done. apply H3.
Qed.

Lemma struct_eqb_at s : eqb_at struct_eqb s.
Proof.
  apply list_eqb_at, Forall_forall. intros o _. apply option_eqb_at. intros. apply literal_eqb_at.
Qed.
Lemma struct_eqb_nil s : struct_eqb s [] = bool_decide (s = []).
Proof. by destruct s. Qed.
End literal_equality.
