(* ===== verification/ArrowValues.v ===== *)
(** * Arrow arrays and Iceberg values (arrow/value.rs)

    The schema visitor with a partner, the conversion of Arrow arrays to literals, and
    the arrays of a constant column.  Correctness: the rows that an array holds are the
    rows that are read, columns found by their field ids whatever their order; what the
    conversion does with null lists and empty structs is stated at the end. *)

From S2P Require Import Prelude Utf8 Bytes Numerals Values Schema LiteralEq ArrowSchema.

(** ** The visitor with a partner (spec/schema/visitor.rs) *)

Record SchemaWithPartnerVisitor (P S T : Type) := {
  p_before_struct_field : NestedField -> P -> SR S unit;
  p_after_struct_field : NestedField -> P -> SR S unit;
  p_before_list_element : NestedField -> P -> SR S unit;
  p_after_list_element : NestedField -> P -> SR S unit;
  p_before_map_key : NestedField -> P -> SR S unit;
  p_after_map_key : NestedField -> P -> SR S unit;
  p_before_map_value : NestedField -> P -> SR S unit;
  p_after_map_value : NestedField -> P -> SR S unit;
  p_schema : Schema -> P -> T -> SR S T;
  p_field : NestedField -> P -> T -> SR S T;
  p_struct : list NestedField -> P -> list T -> SR S T;
  p_list : NestedField -> P -> T -> SR S T;
  p_map : NestedField -> NestedField -> P -> T -> T -> SR S T;
  p_primitive : PrimitiveType.t -> P -> SR S T;
}.
Arguments p_before_struct_field {P S T}. Arguments p_after_struct_field {P S T}.
Arguments p_before_list_element {P S T}. Arguments p_after_list_element {P S T}.
Arguments p_before_map_key {P S T}. Arguments p_after_map_key {P S T}.
Arguments p_before_map_value {P S T}. Arguments p_after_map_value {P S T}.
Arguments p_schema {P S T}. Arguments p_field {P S T}. Arguments p_struct {P S T}.
Arguments p_list {P S T}. Arguments p_map {P S T}. Arguments p_primitive {P S T}.

(** The trait's default hooks. *)
Definition no_partner_hook {P S} (_ : NestedField) (_ : P) : SR S unit := mret tt.

Record PartnerAccessor (P : Type) := {
  struct_partner : P -> result P;
  field_partner : P -> NestedField -> result P;
  list_element_partner : P -> result P;
  map_key_partner : P -> result P;
  map_value_partner : P -> result P;
}.
Arguments struct_partner {P}. Arguments field_partner {P}. Arguments list_element_partner {P}.
Arguments map_key_partner {P}. Arguments map_value_partner {P}.

Section visit.
Context {P S T : Type} (visitor : SchemaWithPartnerVisitor P S T) (accessor : PartnerAccessor P).

(** [visit_type_with_partner], the loop of [visit_struct_with_partner] inlined for the
    recursion. *)
Fixpoint visit_type_with_partner (ty : Ty) (partner : P) : SR S T :=
  match ty with
  | TPrimitive p => p_primitive visitor p partner
  | TList element =>
      let! list_element_partner := sr_lift (list_element_partner accessor partner) in
      let! _ := p_before_list_element visitor element list_element_partner in
      let! element_results := visit_type_with_partner (field_type element) list_element_partner in
      let! _ := p_after_list_element visitor element list_element_partner in
      p_list visitor element partner element_results
  | TMap key value =>
      let! key_partner := sr_lift (map_key_partner accessor partner) in
      let! _ := p_before_map_key visitor key key_partner in
      let! key_result := visit_type_with_partner (field_type key) key_partner in
      let! _ := p_after_map_key visitor key key_partner in
      let! value_partner := sr_lift (map_value_partner accessor partner) in
      let! _ := p_before_map_value visitor value value_partner in
      let! value_result := visit_type_with_partner (field_type value) value_partner in
      let! _ := p_after_map_value visitor value value_partner in
      p_map visitor key value partner key_result value_result
  | TStruct fields =>
      let! results :=
        (fix visit_fields (fields : list NestedField) : SR S (list T) :=
           match fields with
           | [] => mret []
           | field :: fields =>
               let! field_partner := sr_lift (field_partner accessor partner field) in
               let! _ := p_before_struct_field visitor field field_partner in
               let! result := visit_type_with_partner (field_type field) field_partner in
               let! _ := p_after_struct_field visitor field field_partner in
               let! result := p_field visitor field field_partner result in
               let! results := visit_fields fields in
               mret (result :: results)
           end) fields in
      p_struct visitor fields partner results
  end.
Definition visit_struct_with_partner (fields : list NestedField) (partner : P) : SR S T :=
  visit_type_with_partner (TStruct fields) partner.
Definition visit_schema_with_partner (schema : Schema) (partner : P) : SR S T :=
  let! struct_partner := sr_lift (struct_partner accessor partner) in
  let! result := visit_struct_with_partner (as_struct schema) struct_partner in
  p_schema visitor schema partner result.
End visit.

(** ** Arrow arrays

    The arrays that the code downcasts to: a primitive array lists its values, [None] where
    it is null; of a nested array, [nulls] tells the rows that are null. *)
#[warnings="-register-all"]
Inductive ArrayRef :=
| NullArray (len : nat)
| BooleanArray (values : list (option bool))
| Int32Array (values : list (option Z))
| Int64Array (values : list (option Z))
| Float32Array (values : list (option Z))
| Float64Array (values : list (option Z))
| Decimal128Array (precision scale : Z) (values : list (option Z))
| Date32Array (values : list (option Z))
| Time64MicrosecondArray (values : list (option Z))
| TimestampMicrosecondArray (zone : option string) (values : list (option Z))
| TimestampNanosecondArray (zone : option string) (values : list (option Z))
| StringArray (values : list (option str))
| LargeStringArray (values : list (option str))
| BinaryArray (values : list (option (list Z)))
| LargeBinaryArray (values : list (option (list Z)))
| FixedSizeBinaryArray (width : Z) (values : list (option (list Z)))
| StructArray (columns : list (Arrow.Field * ArrayRef)) (nulls : list bool)
| ListArray (offsets : list Z) (values : ArrayRef) (nulls : list bool)
| LargeListArray (offsets : list Z) (values : ArrayRef) (nulls : list bool)
| FixedSizeListArray (size : Z) (values : ArrayRef) (nulls : list bool)
| MapArray (offsets : list Z) (keys values : ArrayRef) (nulls : list bool)
| RunArray (run_ends : list Z) (values : ArrayRef)
| OtherArray (data_type : DataType).

(** [Array::is_null]. *)
Definition is_null (array : ArrayRef) (i : nat) : bool :=
  match array with StructArray _ nulls => nth i nulls false | _ => false end.

(** [elements[start..end]]. *)
Definition slice {T} (elements : list T) (start finish : Z) : result (list T) :=
  if (0 <=? start) && (start <=? finish) && (finish <=? Z.of_nat (length elements))
  then Ok (take (Z.to_nat (finish - start)) (drop (Z.to_nat start) elements))
  else Err Panic.

(** ** The converter ([ArrowArrayToIcebergStructConverter]) *)

Abbreviation Column := (list (option Literal)).

Definition has_null (values : Column) : bool := existsb (fun v => negb (bool_decide (is_Some v))) values.

Definition c_field (field : NestedField) (value : Column) : result Column :=
  if field_required field && has_null value then Err (Error DataInvalid) else Ok value.

(** The row [i] of the columns: [column_iter.next().unwrap()] of each. *)
Definition row_literals (results : list Column) (i : nat) : result (list (option Literal)) :=
  mapR (fun column => unwrap (column !! i)) results.
Definition c_struct (array : ArrayRef) (results : list Column) : result Column :=
  let row_len := match results with column :: _ => length column | [] => 0%nat end in
  if existsb (fun col => negb (length col =? row_len)%nat) results then Err (Error DataInvalid)
  else
    mapR (fun i =>
      let? literals := row_literals results i in
      Ok (if is_null array i then None else Some (LStruct literals))) (seq 0 row_len).

(** The loop over the offsets, which are never empty. *)
Fixpoint slices {T U} (f : list T -> result U) (offset : list Z) (elements : list T) : result (list U) :=
  match offset with
  | [] => Ok []
  | start :: offset =>
      match offset with
      | [] => Ok []
      | finish :: _ =>
          let? part := slice elements (wrapU 64 start) (wrapU 64 finish) in
          let? part := f part in
          let? rest := slices f offset elements in
          Ok (part :: rest)
      end
  end.
(** The loop over the parts of a fixed size, from part [i] on. *)
Fixpoint chunks_from (len : Z) (elements : Column) (i : Z) (parts : nat) : result Column :=
  match parts with
  | O => Ok []
  | S parts =>
      let? part := slice elements (i * len) ((i + 1) * len) in
      let? rest := chunks_from len elements (i + 1) parts in
      Ok (Some (LList part) :: rest)
  end.

Definition c_list (element_field : NestedField) (array : ArrayRef) (elements : Column) : result Column :=
  if field_required element_field && has_null elements then Err (Error DataInvalid)
  else
    match array with
    | ListArray offset _ _ | LargeListArray offset _ _ =>
        slices (fun part => Ok (Some (LList part))) offset elements
    | FixedSizeListArray len _ _ =>
        let len := wrapU 64 len in
        if len =? 0 then Err Panic
        else chunks_from len elements 0 (Z.to_nat (Z.of_nat (length elements) / len))
    | _ => Err (Error DataInvalid)
    end.

Definition insert_entry {V : ValueLib} (map : list (Literal * option Literal)) (entry : option Literal * option Literal) :
    result (list (Literal * option Literal)) :=
  let? key := unwrap (fst entry) in
  Ok (map_insert map key (snd entry)).
Definition c_map {V : ValueLib} (partner : ArrayRef) (key_values values : Column) : result Column :=
  if negb (length key_values =? length values)%nat then Err (Error DataInvalid)
  else
    match partner with
    | MapArray offsets _ _ _ =>
        slices (fun entries =>
                  let? map := try_fold insert_entry [] entries in
                  Ok (Some (LMap map))) offsets (zip key_values values)
    | _ => Err (Error DataInvalid)
    end.

Definition literals {T} (f : T -> PrimitiveLiteral.t) (values : list (option T)) : result Column :=
  Ok ((fun v : option T => (fun x => LPrimitive (f x)) <$> v) <$> values).

Definition c_primitive (p : PrimitiveType.t) (partner : ArrayRef) : result Column :=
  match p, partner with
  | PrimitiveType.Boolean, BooleanArray array => literals PrimitiveLiteral.Boolean array
  | PrimitiveType.Int, Int32Array array => literals PrimitiveLiteral.Int array
  | PrimitiveType.Long, Int64Array array => literals PrimitiveLiteral.Long array
  | PrimitiveType.Float, Float32Array array => literals PrimitiveLiteral.Float array
  | PrimitiveType.Double, Float64Array array => literals PrimitiveLiteral.Double array
  | PrimitiveType.Decimal precision scale, Decimal128Array arrow_precision arrow_scale array =>
      if negb (arrow_precision =? precision) || negb (wrapU 32 arrow_scale =? scale)
      then Err (Error DataInvalid)
      else literals PrimitiveLiteral.Int128 array
  | PrimitiveType.Date, Date32Array array => literals PrimitiveLiteral.Int array
  | PrimitiveType.Time, Time64MicrosecondArray array => literals PrimitiveLiteral.Long array
  | PrimitiveType.Timestamp, TimestampMicrosecondArray _ array
  | PrimitiveType.Timestamptz, TimestampMicrosecondArray _ array
  | PrimitiveType.TimestampNs, TimestampNanosecondArray _ array
  | PrimitiveType.TimestamptzNs, TimestampNanosecondArray _ array => literals PrimitiveLiteral.Long array
  | PrimitiveType.String, LargeStringArray array
  | PrimitiveType.String, StringArray array => literals PrimitiveLiteral.String array
  | PrimitiveType.Uuid, FixedSizeBinaryArray width array =>
      if negb (width =? 16) then Err (Error DataInvalid)
      else
        mapR (fun v : option (list Z) =>
          match v with
          | None => Ok None
          | Some v =>
              if (length v =? 16)%nat
              then Ok (Some (LPrimitive (PrimitiveLiteral.UInt128 (of_be v))))
              else Err (Error DataInvalid)
          end) array
  | PrimitiveType.Fixed len, FixedSizeBinaryArray width array =>
      if negb (width =? wrapS 32 len) then Err (Error DataInvalid)
      else literals PrimitiveLiteral.Binary array
  | PrimitiveType.Binary, LargeBinaryArray array
  | PrimitiveType.Binary, BinaryArray array => literals PrimitiveLiteral.Binary array
  | _, _ => Err (Error DataInvalid)
  end.

Definition ArrowArrayToIcebergStructConverter {V : ValueLib} :
    SchemaWithPartnerVisitor ArrayRef unit Column :=
  {| p_before_struct_field := no_partner_hook; p_after_struct_field := no_partner_hook;
     p_before_list_element := no_partner_hook; p_after_list_element := no_partner_hook;
     p_before_map_key := no_partner_hook; p_after_map_key := no_partner_hook;
     p_before_map_value := no_partner_hook; p_after_map_value := no_partner_hook;
     p_schema _ _ value := mret value;
     p_field field _ value := sr_lift (c_field field value);
     p_struct _ array results := sr_lift (c_struct array results);
     p_list element array elements := sr_lift (c_list element array elements);
     p_map _ _ partner key_values values := sr_lift (c_map partner key_values values);
     p_primitive p partner := sr_lift (c_primitive p partner) |}.

(** ** The accessor ([ArrowArrayAccessor]) *)

Inductive FieldMatchMode := MatchId | MatchName.

Section accessor.
Context {V : ValueLib} {AT : ArrowTypes}.

Definition match_field (mode : FieldMatchMode) (arrow_field : Arrow.Field) (iceberg_field : NestedField) :
    bool :=
  match mode with
  | MatchId => ok_value false ((fun id => id =? field_id iceberg_field) <$> get_field_id_from_metadata arrow_field)
  | MatchName => bool_decide (Arrow.name arrow_field = field_name iceberg_field)
  end.

Definition ArrowArrayAccessor (match_mode : FieldMatchMode) : PartnerAccessor ArrayRef :=
  {| struct_partner schema_partner :=
       match schema_partner with
       | StructArray _ _ => Ok schema_partner
       | _ => Err (Error DataInvalid)
       end;
     field_partner struct_partner field :=
       match struct_partner with
       | StructArray columns _ =>
           match list_find (fun c => match_field match_mode (fst c) field = true) columns with
           | Some (_, c) => Ok (snd c)
           | None => Err (Error DataInvalid)
           end
       | _ => Err (Error DataInvalid)
       end;
     list_element_partner list_partner :=
       match list_partner with
       | ListArray _ values _ | LargeListArray _ values _ | FixedSizeListArray _ values _ => Ok values
       | _ => Err (Error DataInvalid)
       end;
     map_key_partner map_partner :=
       match map_partner with MapArray _ keys _ _ => Ok keys | _ => Err (Error DataInvalid) end;
     map_value_partner map_partner :=
       match map_partner with MapArray _ _ values _ => Ok values | _ => Err (Error DataInvalid) end |}.

Definition arrow_struct_to_literal (struct_array : ArrayRef) (ty : list NestedField) : result Column :=
  fst <$> visit_struct_with_partner ArrowArrayToIcebergStructConverter (ArrowArrayAccessor MatchId) ty
            struct_array tt.
Definition arrow_primitive_to_literal (primitive_array : ArrayRef) (ty : Ty) : result Column :=
  fst <$> visit_type_with_partner ArrowArrayToIcebergStructConverter (ArrowArrayAccessor MatchId) ty
            primitive_array tt.
End accessor.

(** ** Arrays of a constant *)

Section constants.
Context {AT : ArrowTypes}.

(** [Decimal128Array::with_precision_and_scale]. *)
Definition decimal_array (precision scale : Z) (values : list (option Z)) : result ArrayRef :=
  if validate_decimal_precision_and_scale precision scale
  then Ok (Decimal128Array precision scale values) else Err (Error DataInvalid).

(** The arms of both functions for a value, or null, of a type that is not nested; [None]
    where they have no arm. *)
Definition constant_array (data_type : DataType) (prim_lit : option PrimitiveLiteral.t) (num_rows : nat) :
    option (result ArrayRef) :=
  let rep {T} (v : option T) := replicate num_rows v in
  match data_type, prim_lit with
  | Arrow.Boolean, Some (PrimitiveLiteral.Boolean v) => Some (Ok (BooleanArray (rep (Some v))))
  | Arrow.Boolean, None => Some (Ok (BooleanArray (rep None)))
  | Arrow.Int32, Some (PrimitiveLiteral.Int v) => Some (Ok (Int32Array (rep (Some v))))
  | Arrow.Int32, None => Some (Ok (Int32Array (rep None)))
  | Arrow.Date32, Some (PrimitiveLiteral.Int v) => Some (Ok (Date32Array (rep (Some v))))
  | Arrow.Date32, None => Some (Ok (Date32Array (rep None)))
  | Arrow.Int64, Some (PrimitiveLiteral.Long v) => Some (Ok (Int64Array (rep (Some v))))
  | Arrow.Int64, None => Some (Ok (Int64Array (rep None)))
  | Arrow.Timestamp Microsecond timezone, Some (PrimitiveLiteral.Long v) =>
      Some (Ok (TimestampMicrosecondArray timezone (rep (Some v))))
  | Arrow.Timestamp Microsecond timezone, None => Some (Ok (TimestampMicrosecondArray timezone (rep None)))
  | Arrow.Timestamp Nanosecond timezone, Some (PrimitiveLiteral.Long v) =>
      Some (Ok (TimestampNanosecondArray timezone (rep (Some v))))
  | Arrow.Timestamp Nanosecond timezone, None => Some (Ok (TimestampNanosecondArray timezone (rep None)))
  | Arrow.Float32, Some (PrimitiveLiteral.Float v) => Some (Ok (Float32Array (rep (Some v))))
  | Arrow.Float32, None => Some (Ok (Float32Array (rep None)))
  | Arrow.Float64, Some (PrimitiveLiteral.Double v) => Some (Ok (Float64Array (rep (Some v))))
  | Arrow.Float64, None => Some (Ok (Float64Array (rep None)))
  | Arrow.Utf8, Some (PrimitiveLiteral.String v) => Some (Ok (StringArray (rep (Some v))))
  | Arrow.Utf8, None => Some (Ok (StringArray (rep None)))
  | Arrow.Binary, Some (PrimitiveLiteral.Binary v) => Some (Ok (BinaryArray (rep (Some v))))
  | Arrow.Binary, None => Some (Ok (BinaryArray (rep None)))
  | Arrow.Decimal128 precision scale, Some (PrimitiveLiteral.Int128 v) =>
      Some (decimal_array precision scale (rep (Some v)))
  | Arrow.Decimal128 precision scale, Some (PrimitiveLiteral.UInt128 v) =>
      Some (decimal_array precision scale (rep (Some (wrapS 128 v))))
  | Arrow.Decimal128 precision scale, None => Some (decimal_array precision scale (rep None))
  | _, _ => None
  end.

(** A null field of the struct of [create_primitive_array_single_element]: a [Date32] field
    gets an [Int32Array]. *)
Definition null_struct_field (data_type : DataType) : result ArrayRef :=
  match data_type with
  | Arrow.Int32 | Arrow.Date32 => Ok (Int32Array [None])
  | Arrow.Boolean => Ok (BooleanArray [None])
  | Arrow.Int64 => Ok (Int64Array [None])
  | Arrow.Timestamp Microsecond timezone => Ok (TimestampMicrosecondArray timezone [None])
  | Arrow.Timestamp Nanosecond timezone => Ok (TimestampNanosecondArray timezone [None])
  | Arrow.Float32 => Ok (Float32Array [None])
  | Arrow.Float64 => Ok (Float64Array [None])
  | Arrow.Utf8 => Ok (StringArray [None])
  | Arrow.Binary => Ok (BinaryArray [None])
  | _ => Err (Error Unexpected)
  end.

(** [StructArray::new] panics if an array is not of the type of its field: of the arrays
    above, the one for a [Date32] field. *)
Definition single_struct (fields : list Arrow.Field) (arrays : list ArrayRef) : result ArrayRef :=
  if existsb (fun f => match Arrow.data_type f with Arrow.Date32 => true | _ => false end) fields
  then Err Panic else Ok (StructArray (zip fields arrays) [true]).

Definition create_primitive_array_single_element (data_type : DataType)
    (prim_lit : option PrimitiveLiteral.t) : result ArrayRef :=
  match constant_array data_type prim_lit 1 with
  | Some array => array
  | None =>
      match data_type, prim_lit with
      | Arrow.Struct fields, None =>
          let? null_arrays := mapR (fun f => null_struct_field (Arrow.data_type f)) fields in
          single_struct fields null_arrays
      | _, _ => Err (Error Unexpected)
      end
  end.

Fixpoint create_primitive_array_repeated (data_type : DataType) (prim_lit : option PrimitiveLiteral.t)
    (num_rows : nat) : result ArrayRef :=
  match constant_array data_type prim_lit num_rows with
  | Some array => array
  | None =>
      match data_type, prim_lit with
      | Arrow.Struct fields, None =>
          let? null_arrays :=
            (fix nulls (fields : list Arrow.Field) : result (list ArrayRef) :=
               match fields with
               | [] => Ok []
               | Arrow.mkField _ ty _ _ :: fields =>
                   let? array := create_primitive_array_repeated ty None num_rows in
                   let? arrays := nulls fields in
                   Ok (array :: arrays)
               end) fields in
          Ok (StructArray (zip fields null_arrays) (replicate num_rows true))
      | Arrow.Null, _ => Ok (NullArray num_rows)
      | _, _ => Err (Error Unexpected)
      end
  end.
End constants.

(** ** What an array holds *)

Section spec.
Context {V : ValueLib} {AT : ArrowTypes}.

Definition lits {T} (f : T -> PrimitiveLiteral.t) (values : list (option T)) : Column :=
  (fun v : option T => (fun x => LPrimitive (f x)) <$> v) <$> values.

(** The Arrow array for each primitive type; timestamps in any time zone. *)
Inductive primitive_holds : PrimitiveType.t -> ArrayRef -> Column -> Prop :=
| holds_boolean vs : primitive_holds PrimitiveType.Boolean (BooleanArray vs) (lits PrimitiveLiteral.Boolean vs)
| holds_int vs : primitive_holds PrimitiveType.Int (Int32Array vs) (lits PrimitiveLiteral.Int vs)
| holds_long vs : primitive_holds PrimitiveType.Long (Int64Array vs) (lits PrimitiveLiteral.Long vs)
| holds_float vs : primitive_holds PrimitiveType.Float (Float32Array vs) (lits PrimitiveLiteral.Float vs)
| holds_double vs : primitive_holds PrimitiveType.Double (Float64Array vs) (lits PrimitiveLiteral.Double vs)
| holds_decimal p s vs : 0 <= s < 2 ^ 32 ->
    primitive_holds (PrimitiveType.Decimal p s) (Decimal128Array p s vs) (lits PrimitiveLiteral.Int128 vs)
| holds_date vs : primitive_holds PrimitiveType.Date (Date32Array vs) (lits PrimitiveLiteral.Int vs)
| holds_time vs : primitive_holds PrimitiveType.Time (Time64MicrosecondArray vs) (lits PrimitiveLiteral.Long vs)
| holds_timestamp zone ty vs : ty ∈ [PrimitiveType.Timestamp; PrimitiveType.Timestamptz] ->
    primitive_holds ty (TimestampMicrosecondArray zone vs) (lits PrimitiveLiteral.Long vs)
| holds_timestamp_ns zone ty vs : ty ∈ [PrimitiveType.TimestampNs; PrimitiveType.TimestamptzNs] ->
    primitive_holds ty (TimestampNanosecondArray zone vs) (lits PrimitiveLiteral.Long vs)
| holds_string arr vs : arr ∈ [StringArray vs; LargeStringArray vs] ->
    primitive_holds PrimitiveType.String arr (lits PrimitiveLiteral.String vs)
| holds_uuid vs : (forall v, Some v ∈ vs -> length v = 16%nat) ->
    primitive_holds PrimitiveType.Uuid (FixedSizeBinaryArray 16 vs)
      (lits (fun v => PrimitiveLiteral.UInt128 (of_be v)) vs)
| holds_fixed len vs : inS 32 len = true ->
    primitive_holds (PrimitiveType.Fixed len) (FixedSizeBinaryArray len vs) (lits PrimitiveLiteral.Binary vs)
| holds_binary arr vs : arr ∈ [BinaryArray vs; LargeBinaryArray vs] ->
    primitive_holds PrimitiveType.Binary arr (lits PrimitiveLiteral.Binary vs).

(** The rows of a struct: null where the struct is null, whatever its columns hold there. *)
Definition struct_rows (columns : list Column) (nulls : list bool) : Column :=
  imap (fun i is_null => if (is_null : bool) then None
                         else Some (LStruct ((fun column : Column => mjoin (column !! i)) <$> columns))) nulls.

(** The parts of a list of values between offsets. *)
Definition part {T} (elements : list T) (window : Z * Z) : list T :=
  take (Z.to_nat (window.2 - window.1)) (drop (Z.to_nat window.1) elements).
Definition windows (offsets : list Z) : list (Z * Z) := zip offsets (tail offsets).
Definition offsets_ok (len : nat) (offsets : list Z) : Prop :=
  Forall (fun w => 0 <= w.1 <= w.2 /\ w.2 <= Z.of_nat len) (windows offsets) /\ Z.of_nat len < 2 ^ 64.

(** The entries of a map: keys are not null, and no two of a row are equal. *)
Fixpoint distinct_keys (entries : list (Literal * option Literal)) : bool :=
  match entries with
  | [] => true
  | (k, _) :: entries =>
      forallb (fun e => negb (literal_eqb k (fst e))) entries && distinct_keys entries
  end.
Definition entry_of (e : Literal * option Literal) : option Literal * option Literal := (Some e.1, e.2).

Fixpoint holds (ty : Ty) (array : ArrayRef) (column : Column) : Prop :=
  match ty with
  | TPrimitive p => primitive_holds p array column
  | TStruct fields =>
      match array with
      | StructArray arrays nulls =>
          fields <> [] /\
          exists columns, column = struct_rows columns nulls /\
          (fix fields_hold (fields : list NestedField) (columns : list Column) : Prop :=
             match fields, columns with
             | [], [] => True
             | (mkNestedField _ _ required ty _ _ _ as field) :: fields, column :: columns =>
                 (exists array, field_partner (ArrowArrayAccessor MatchId) (StructArray arrays nulls) field = Ok array
                    /\ holds ty array column)
                 /\ (required = true -> has_null column = false)
                 /\ length column = length nulls
                 /\ fields_hold fields columns
             | _, _ => False
             end) fields columns
      | _ => False
      end
  | TList (mkNestedField _ _ required ty _ _ _) =>
      match array with
      | ListArray offsets values nulls | LargeListArray offsets values nulls =>
          forallb negb nulls = true
          /\ exists elements, holds ty values elements
            /\ (required = true -> has_null elements = false)
            /\ offsets_ok (length elements) offsets
            /\ column = (fun w => Some (LList (part elements w))) <$> windows offsets
      | _ => False
      end
  | TMap (mkNestedField _ _ _ kty _ _ _) (mkNestedField _ _ _ vty _ _ _) =>
      match array with
      | MapArray offsets keys values nulls =>
          forallb negb nulls = true
          /\ exists entries, holds kty keys ((fun e : Literal * option Literal => Some e.1) <$> entries)
            /\ holds vty values (snd <$> entries)
            /\ offsets_ok (length entries) offsets
            /\ Forall (fun w => distinct_keys (part entries w) = true) (windows offsets)
            /\ column = (fun w => Some (LMap (part entries w))) <$> windows offsets
      | _ => False
      end
  end.
End spec.

Section theory.
Context {V : ValueLib} {AT : ArrowTypes}.

Lemma primitive_read p array column : primitive_holds p array column -> c_primitive p array = Ok column.
Proof.
  intros H. destruct H; try done; cbn [c_primitive].
  - by rewrite Z.eqb_refl, wrapU_id, Z.eqb_refl by (by apply inU_spec).
  - by repeat (apply elem_of_cons in H as [->|H]); [..|apply not_elem_of_nil in H].
  - by repeat (apply elem_of_cons in H as [->|H]); [..|apply not_elem_of_nil in H].
  - by repeat (apply elem_of_cons in H as [->|H]); [..|apply not_elem_of_nil in H].
  - cbn. apply mapR_Ok, Forall2_fmap_r, Forall_Forall2_diag, Forall_forall. intros [v|] Hv; [|done].
    by rewrite (H v Hv).
  - by rewrite wrapS_id, Z.eqb_refl.
  - by repeat (apply elem_of_cons in H as [->|H]); [..|apply not_elem_of_nil in H].
Qed.

Lemma slice_part {T} (elements : list T) w :
  0 <= w.1 <= w.2 /\ w.2 <= Z.of_nat (length elements) -> Z.of_nat (length elements) < 2 ^ 64 ->
  slice elements (wrapU 64 w.1) (wrapU 64 w.2) = Ok (part elements w).
Proof.
  intros [Hw1 Hw2] Hlen. rewrite !wrapU_id by (apply inU_spec; lia). unfold slice.
  rewrite (proj2 (Z.leb_le 0 _)), (proj2 (Z.leb_le w.1 _)), (proj2 (Z.leb_le w.2 _)) by lia. done.
Qed.

Lemma slices_parts {T U} (f : list T -> result U) (g : list T -> U) offsets elements :
  offsets_ok (length elements) offsets ->
  Forall (fun w => f (part elements w) = Ok (g (part elements w))) (windows offsets) ->
  slices f offsets elements = Ok (g ∘ part elements <$> windows offsets).
Proof.
  intros [Hok Hlen] Hf. induction offsets as [|a offsets IH]; [done|].
  destruct offsets as [|b offsets]; [done|].
  apply Forall_cons_1 in Hok as [Hw Hok], Hf as [Hfw Hf]. specialize (IH Hok Hf).
  cbn [slices] in IH |- *.
  pose proof (slice_part elements (a, b) Hw Hlen) as E. cbn [fst snd] in E. rewrite E.
  cbn [mbind result_bind]. rewrite Hfw. cbn [mbind result_bind].
  rewrite IH. done.
Qed.

Lemma map_insert_fresh pairs k v :
  forallb (fun e => negb (literal_eqb (fst e) k)) pairs = true -> map_insert pairs k v = pairs ++ [(k, v)].
Proof.
  induction pairs as [|[k' v'] pairs IH]; [done|]. cbn. intros [Hk Hp]%andb_true_iff.
  apply negb_true_iff in Hk. by rewrite Hk, IH.
Qed.
Lemma entries_inserted entries acc :
  distinct_keys entries = true ->
  Forall (fun e => forallb (fun a => negb (literal_eqb (fst a) e.1)) acc = true) entries ->
  try_fold insert_entry acc (entry_of <$> entries) = Ok (acc ++ entries).
Proof.
  revert acc. induction entries as [|[k v] entries IH]; intros acc Hd Ha; [by rewrite app_nil_r|].
  cbn in Hd. apply andb_true_iff in Hd as [Hk Hd]. apply Forall_cons_1 in Ha as [Hka Ha].
  cbn [fmap list_fmap try_fold]. cbn. cbn in Hka. rewrite map_insert_fresh by done.
  rewrite IH; [by rewrite <- app_assoc|done|].
  rewrite forallb_forall in Hk. rewrite Forall_forall in Ha |- *. intros e He.
  rewrite forallb_app, Ha by done. cbn. rewrite (Hk e) by (by apply list_elem_of_In). done.
Qed.

(** The columns of a struct become its rows. *)
Lemma row_literals_ok columns i :
  (forall column, column ∈ columns -> (i < length column)%nat) ->
  row_literals columns i = Ok ((fun column : Column => mjoin (column !! i)) <$> columns).
Proof.
  intros H. apply mapR_Ok, Forall2_fmap_r, Forall_Forall2_diag, Forall_forall. intros column Hc.
  specialize (H column Hc). cbn. destruct (column !! i) as [v|] eqn:Hv; [done|].
  apply lookup_ge_None_1 in Hv. lia.
Qed.
Lemma struct_read arrays columns nulls :
  columns <> [] -> Forall (fun column : Column => length column = length nulls) columns ->
  c_struct (StructArray arrays nulls) columns = Ok (struct_rows columns nulls).
Proof.
  intros Hne Hlen. unfold c_struct.
  assert (match columns with column :: _ => length column | [] => 0%nat end = length nulls) as ->.
  { destruct columns as [|c columns]; [done|]. by apply Forall_cons_1 in Hlen as [-> _]. }
  replace (existsb _ columns) with false.
  2: { symmetry. apply not_true_iff_false. rewrite existsb_exists. intros (c & Hc & Hl).
       rewrite Forall_forall in Hlen. rewrite (Hlen c) in Hl by (by apply list_elem_of_In).
       by rewrite Nat.eqb_refl in Hl. }
  apply mapR_Ok. unfold struct_rows.
  apply Forall2_same_length_lookup_2; [by rewrite length_imap, length_seq|].
  intros i x y Hx Hy. apply lookup_seq in Hx as [-> Hi]. rewrite list_lookup_imap in Hy. cbn [Nat.add] in *.
  destruct (nulls !! i) as [b|] eqn:Eb; [|done]. cbn in Hy. injection Hy as <-.
  rewrite row_literals_ok.
  2: { intros c Hc. rewrite Forall_forall in Hlen. by rewrite (Hlen c). }
  cbn. rewrite (nth_lookup_Some _ _ _ _ Eb). by destruct b.
Qed.

Lemma not_has_null column required :
  (required = true -> has_null column = false) -> required && has_null column = false.
Proof. destruct required; [|done]. intros H. by rewrite H. Qed.

(** The body of the loop of [visit_struct_with_partner]. *)
Definition visit_partner_field {P S T} (visitor : SchemaWithPartnerVisitor P S T)
    (accessor : PartnerAccessor P) (partner : P) (field : NestedField) : SR S T :=
  let! field_partner := sr_lift (field_partner accessor partner field) in
  let! _ := p_before_struct_field visitor field field_partner in
  let! result := visit_type_with_partner visitor accessor (field_type field) field_partner in
  let! _ := p_after_struct_field visitor field field_partner in
  p_field visitor field field_partner result.

Lemma visit_partner_struct {P S T} (visitor : SchemaWithPartnerVisitor P S T) accessor fields partner s :
  visit_type_with_partner visitor accessor (TStruct fields) partner s
  = (let! results := mapSR (visit_partner_field visitor accessor partner) fields in
     p_struct visitor fields partner results) s.
Proof.
  cbn [visit_type_with_partner]. unfold mbind, sr_bind.
  match goal with |- match ?a with _ => _ end = match ?b with _ => _ end =>
    enough (a = b) as -> by done end.
  revert s. induction fields as [|f fields IH]; intros s; [done|].
  cbn [mapSR]. unfold visit_partner_field. unfold mbind, sr_bind in *.
  destruct (sr_lift _ s) as [[p s0]|]; [|done].
  destruct (p_before_struct_field visitor f p s0) as [[? s1]|]; [|done].
  destruct (visit_type_with_partner visitor accessor (field_type f) p s1) as [[? s2]|]; [|done].
  destruct (p_after_struct_field visitor f p s2) as [[? s3]|]; [|done].
  destruct (p_field visitor f p _ s3) as [[? s4]|]; [|done]. by rewrite IH.
Qed.

(** What is read is what is held. *)
Lemma held_read ty : forall array column,
  holds ty array column ->
  visit_type_with_partner ArrowArrayToIcebergStructConverter (ArrowArrayAccessor MatchId) ty array tt
  = Ok (column, tt).
Proof.
  induction ty as [p|fields IH|e IH|k v IHk IHv] using Ty_nested_ind; intros array column H.
  - cbn. unfold sr_lift. by rewrite (primitive_read _ _ _ H).
  - destruct array as [| | | | | | | | | | | | | | | |arrays nulls| | | | | |]; try done. cbn [holds] in H.
    destruct H as (Hne & columns & -> & H). rewrite visit_partner_struct.
    assert (mapSR (visit_partner_field ArrowArrayToIcebergStructConverter (ArrowArrayAccessor MatchId)
              (StructArray arrays nulls)) fields tt = Ok (columns, tt)
            /\ Forall (fun column : Column => length column = length nulls) columns
            /\ length columns = length fields) as (Hf & Hlen & Hc).
    { clear Hne. revert columns H. induction IH as [|[id name required ty doc iw ww] fields Hty IH' IHf];
        intros [|column columns]; try done.
      intros ((array & Hpartner & Hheld) & Hreq & Hl & H). destruct (IHf columns H) as (Hf & Hlen & Hc).
      cbn [field_type] in Hty.
      assert (visit_partner_field ArrowArrayToIcebergStructConverter (ArrowArrayAccessor MatchId)
                (StructArray arrays nulls) (mkNestedField id name required ty doc iw ww) tt
              = Ok (column, tt)) as E.
      { unfold visit_partner_field. unfold sr_lift at 1. rewrite Hpartner.
        rewrite (run_bind _ _ tt array tt eq_refl), (run_bind _ _ tt tt tt eq_refl).
        rewrite (run_bind _ _ _ _ _ (Hty _ _ Hheld)), (run_bind _ _ tt tt tt eq_refl).
        cbn. unfold sr_lift, c_field. cbn [field_required]. by rewrite (not_has_null _ _ Hreq). }
      cbn [mapSR]. rewrite (run_bind _ _ _ _ _ E), (run_bind _ _ _ _ _ Hf).
      split; [done|]. split; [by constructor|cbn; by f_equal]. }
    rewrite (run_bind _ _ _ _ _ Hf). cbn. unfold sr_lift. rewrite struct_read; [done| |done].
    by intros ->; destruct fields.
  - destruct e as [id name required ty doc iw ww]. cbn [field_type] in IH.
    destruct array as [| | | | | | | | | | | | | | | | |offsets values nulls|offsets values nulls| | | |]; try done;
      cbn [holds] in H; destruct H as (_ & elements & He & Hreq & Hoff & ->); cbn [visit_type_with_partner];
      rewrite (run_bind _ _ tt values tt eq_refl), (run_bind _ _ tt tt tt eq_refl);
      rewrite (run_bind _ _ _ _ _ (IH _ _ He)), (run_bind _ _ tt tt tt eq_refl);
      cbn; unfold sr_lift, c_list; cbn [field_required]; rewrite (not_has_null _ _ Hreq);
      rewrite (slices_parts _ (fun p => Some (LList p))); try done; by apply Forall_forall.
  - destruct k as [kid kname krequired kty kdoc kiw kww], v as [vid vname vrequired vty vdoc viw vww].
    cbn [field_type] in IHk, IHv.
    destruct array as [| | | | | | | | | | | | | | | | | | | |offsets keys values nulls| |]; try done.
    cbn [holds] in H. destruct H as (_ & entries & Hk & Hv & Hoff & Hd & ->). cbn [visit_type_with_partner].
    rewrite (run_bind _ _ tt keys tt eq_refl), (run_bind _ _ tt tt tt eq_refl).
    rewrite (run_bind _ _ _ _ _ (IHk _ _ Hk)), (run_bind _ _ tt tt tt eq_refl).
    rewrite (run_bind _ _ tt values tt eq_refl), (run_bind _ _ tt tt tt eq_refl).
    rewrite (run_bind _ _ _ _ _ (IHv _ _ Hv)), (run_bind _ _ tt tt tt eq_refl).
    cbn. unfold sr_lift, c_map. rewrite !length_fmap, Nat.eqb_refl. cbn [negb].
    assert (zip ((fun e : Literal * option Literal => Some e.1) <$> entries) (snd <$> entries)
            = entry_of <$> entries) as ->.
    { clear. induction entries as [|[k v] entries IH]; [done|]. cbn. by f_equal. }
    assert (forall w, part (entry_of <$> entries) w = entry_of <$> part entries w) as Hpart.
    { intros w. unfold part. by rewrite <- fmap_drop, <- fmap_take. }
    rewrite (slices_parts _ (fun p => Some (LMap (omap (fun e => (fun k => (k, e.2)) <$> e.1) p)))).
    + cbn. do 2 f_equal. apply list_fmap_ext. intros i w _. cbn. do 2 f_equal. rewrite Hpart.
      generalize (part entries w). clear. intros l. induction l as [|[k v] l IH]; [done|]. cbn. by f_equal.
    + by rewrite length_fmap.
    + eapply Forall_impl; [exact Hd|]. intros w Hw. cbn in Hw. rewrite Hpart.
      rewrite (entries_inserted _ []) by (first [done|by apply Forall_forall]). cbn. do 3 f_equal.
      generalize (part entries w). clear. intros l. induction l as [|[k v] l IH]; [done|]. cbn. by f_equal.
Qed.

(** *** Constants *)

(** The types of columns that the constant arrays can have. *)
Definition constant_type (p : PrimitiveType.t) : bool :=
  match p with
  | PrimitiveType.Time | PrimitiveType.Uuid | PrimitiveType.Fixed _ | PrimitiveType.Binary => false
  | _ => true
  end.

Lemma lits_replicate {T} (f : T -> PrimitiveLiteral.t) n v :
  lits f (replicate n v) = replicate n ((fun x => LPrimitive (f x)) <$> v).
Proof. unfold lits. by rewrite fmap_replicate. Qed.

Lemma constant_read {AL : ArrowTypesLaws AT} p l n :
  arrow_primitive_ok p = true -> constant_type p = true ->
  (forall l', l = Some l' -> compatible p l' = true) ->
  exists dt array, to_arrow_primitive p = Ok dt
    /\ create_primitive_array_repeated dt l n = Ok array
    /\ c_primitive p array = Ok (replicate n (LPrimitive <$> l)).
Proof.
  intros Hok Hc Hl.
  destruct p as [| | | | |precision scale| | | | | | | | |len|]; try done;
    try (destruct l as [l|];
         [specialize (Hl l eq_refl); destruct l; try done|];
         (eexists _, _; split; [reflexivity|]; split; [reflexivity|];
          cbn [c_primitive]; exact (f_equal Ok (lits_replicate _ n _)))).
  cbn in Hok. bool_to_prop.
  assert (inU 8 precision = true) as HA by (apply inU_spec; lia).
  assert (inS 8 scale = true) as HB by (apply inS_spec; lia).
  exists (Arrow.Decimal128 precision scale). cbn [to_arrow_primitive]. rewrite HA, HB. cbn [negb].
  rewrite validate_decimal_ok by lia.
  destruct l as [l|]; [specialize (Hl l eq_refl); destruct l; try done|];
    cbn [create_primitive_array_repeated constant_array]; unfold decimal_array;
    rewrite validate_decimal_ok by lia; (eexists; split; [done|]; split; [done|]);
    cbn [c_primitive]; rewrite wrapU_id by (apply inU_spec; lia); rewrite !Z.eqb_refl; cbn [negb orb];
    exact (f_equal Ok (lits_replicate _ n _)).
Qed.
End theory.

(** ** Properties *)

(** C17 The rows that a struct array holds are the rows that are read: columns are found by
    field id in whatever order, lists and maps are cut at their offsets, and a null row hides
    what its columns hold.  The arrays hold their rows ([holds]) when structs have fields,
    lists are list or large list arrays, no list or map is null, required columns have no nulls
    (not even where the row is null), and the keys of each map are distinct; of null lists and
    nulls below null rows [nested_nulls_deviate] shows what is read. *)
Theorem arrow_rows_read {V : ValueLib} {AT : ArrowTypes} fields array rows :
  holds (TStruct fields) array rows -> arrow_struct_to_literal array fields = Ok rows.
Proof. intros H. unfold arrow_struct_to_literal, visit_struct_with_partner. by rewrite (held_read _ _ _ H). Qed.

(** A column of a constant, or of nulls, holds that value in each row, for all primitive
    types but [time], [uuid], [fixed] and [binary]. *)
Theorem constant_column_reads {AT : ArrowTypes} {AL : ArrowTypesLaws AT} p l n :
  arrow_primitive_ok p = true -> constant_type p = true ->
  (forall l', l = Some l' -> compatible p l' = true) ->
  exists dt array, to_arrow_primitive p = Ok dt
    /\ create_primitive_array_repeated dt l n = Ok array
    /\ c_primitive p array = Ok (replicate n (LPrimitive <$> l)).
Proof. apply constant_read. Qed.

(** *** Deviations *)

(** No column of nulls can be made for the others, nor for lists and maps: data files that
    were written before such a column was added to the table cannot be read. *)
Theorem added_columns_unreadable {AT : ArrowTypes} p dt n :
  constant_type p = false -> to_arrow_primitive p = Ok dt ->
  create_primitive_array_repeated dt None n = Err (Error Unexpected).
Proof. destruct p; try done; cbn; intros _; [| |destruct (inS 32 len)|]; by intros [= <-]. Qed.
Theorem added_lists_unreadable {AT : ArrowTypes} e k v n :
  (forall dt, type_to_arrow_type (TList e) = Ok dt ->
     create_primitive_array_repeated dt None n = Err (Error Unexpected))
  /\ (forall dt, type_to_arrow_type (TMap k v) = Ok dt ->
     create_primitive_array_repeated dt None n = Err (Error Unexpected)).
Proof.
  split; intros dt; unfold type_to_arrow_type; intros (r & Hr & H)%bind_Ok; cbn [Schema.visit_type] in Hr.
  - apply sr_bind_Ok in Hr as (? & ? & _ & Hr). apply sr_bind_Ok in Hr as (t & ? & _ & Hr).
    apply sr_bind_Ok in Hr as (? & ? & _ & Hr). cbn in Hr. unfold sr_lift in Hr.
    destruct t; try done. cbn in Hr. injection Hr as <-. cbn in H. injection H as <-. done.
  - do 6 (apply sr_bind_Ok in Hr as (? & ? & _ & Hr)). cbn in Hr. unfold sr_lift in Hr.
    do 2 (match type of Hr with context [to_arrow_field _ ?x] => destruct x; try done; cbn in Hr end).
    injection Hr as <-. cbn in H. injection H as <-. done.
Qed.

Section witnesses.
#[local] Existing Instance concrete_arrow_types.
#[local] Existing Instance concrete_arrow_types_laws.
#[local] Existing Instance Concrete.concrete_values.

Definition id_metadata (id : string) : gmap string string := {["PARQUET:field_id" := id]}.
Definition arrow_column (name id : string) (ty : DataType) : Arrow.Field :=
  Arrow.with_metadata (Arrow.new name ty true) (id_metadata id).
Definition ex_fields : list NestedField :=
  [mkField 1 "a" true (TPrimitive PrimitiveType.Int);
   mkField 2 "l" false (TList (mkField 3 "element" true (TPrimitive PrimitiveType.String)))].

(** The columns [l] and [a], in the other order and with a row that is null. *)
Definition ex_struct : ArrayRef :=
  StructArray
    [(arrow_column "l" "2" (Arrow.List (Arrow.new "element" Arrow.Utf8 false)),
      ListArray [0; 2; 2; 3] (StringArray [Some [97]; Some [98]; Some [99]]) [false; false; false]);
     (arrow_column "a" "1" Arrow.Int32, Int32Array [Some 7; Some 8; Some 9])]
    [false; false; true].
Definition ex_struct_rows : Column :=
  let text c := Some (LPrimitive (PrimitiveLiteral.String [c])) in
  [Some (LStruct [Some (LPrimitive (PrimitiveLiteral.Int 7)); Some (LList [text 97; text 98])]);
   Some (LStruct [Some (LPrimitive (PrimitiveLiteral.Int 8)); Some (LList [])]); None].

Lemma ex_struct_holds : holds (TStruct ex_fields) ex_struct ex_struct_rows.
Proof.
  cbn [holds ex_struct ex_fields mkField]. split; [done|].
  set (text c := Some (LPrimitive (PrimitiveLiteral.String [c]))).
  exists [lits PrimitiveLiteral.Int [Some 7; Some 8; Some 9];
          [Some (LList [text 97; text 98]); Some (LList []); Some (LList [text 99])]].
  split; [reflexivity|]. split; [eexists; split; [by vm_compute|constructor]|].
  split; [done|]. split; [done|].
  split; [eexists; split; [by vm_compute|]|by split; [done|split]].
  split; [done|]. exists (lits PrimitiveLiteral.String [Some [97]; Some [98]; Some [99]]).
  split; [constructor; left|]. split; [done|]. split; [|done]. split; [|done]. by repeat constructor.
Qed.

Lemma arrow_rows_read_witness : arrow_struct_to_literal ex_struct ex_fields = Ok ex_struct_rows.
Proof. apply arrow_rows_read. exact ex_struct_holds. Defined.

Lemma constant_column_reads_witness :
  exists dt array, to_arrow_primitive (PrimitiveType.Decimal 9 2) = Ok dt
    /\ create_primitive_array_repeated dt (Some (PrimitiveLiteral.Int128 5)) 3 = Ok array
    /\ c_primitive (PrimitiveType.Decimal 9 2) array
       = Ok (replicate 3 (Some (LPrimitive (PrimitiveLiteral.Int128 5)))).
Proof. apply constant_column_reads; [done|done|]. by intros l' [= <-]. Defined.

Lemma added_columns_unreadable_witness :
  create_primitive_array_repeated (Arrow.Time64 Microsecond) None 2 = Err (Error Unexpected).
Proof. by apply (added_columns_unreadable PrimitiveType.Time). Defined.

(** A null list is read as an empty list, a struct without fields loses its rows, and a null
    struct is an error if a required field of it is null there. *)
Theorem nested_nulls_deviate :
  let ints := TList (mkField 1 "element" false (TPrimitive PrimitiveType.Int)) in
  let required := TStruct [mkField 1 "a" true (TPrimitive PrimitiveType.Int)] in
  arrow_primitive_to_literal (ListArray [0; 0] (Int32Array []) [true]) ints = Ok [Some (LList [])]
  /\ arrow_primitive_to_literal (StructArray [] [false; false]) (TStruct []) = Ok []
  /\ arrow_primitive_to_literal
       (StructArray [(arrow_column "a" "1" Arrow.Int32, Int32Array [None])] [true]) required
     = Err (Error DataInvalid).
Proof. by vm_compute. Qed.

(** A null constant of a struct with a date panics. *)
Theorem null_struct_with_date_panics :
  create_primitive_array_single_element (Arrow.Struct [arrow_column "d" "1" Arrow.Date32]) None = Err Panic.
Proof. by vm_compute. Qed.
End witnesses.
