(* ===== verification/DeleteIndex.v ===== *)
(** * The index of delete files (delete_file_index.rs, scan/task.rs)

    Which delete files apply to a data file, and how the readers of the index wait
    for it to be filled. *)

From S2P Require Import Prelude Utf8 Values Concrete LiteralEq DataFile.

(** ** Delete files of a scan (scan/task.rs) *)

Record DeleteFileContext := mkDeleteFileContext {
  manifest_entry : ManifestEntry;
  ctx_partition_spec_id : Z;
}.
Record FileScanTaskDeleteFile := mkFileScanTaskDeleteFile {
  delete_file_path : string;
  delete_file_size_in_bytes : Z;
  delete_file_type : DataContentType;
  delete_partition_spec_id : Z;
  delete_equality_ids : option (list Z);
}.

(** [From<&DeleteFileContext>]. *)
Definition delete_file_of (ctx : DeleteFileContext) : FileScanTaskDeleteFile :=
  let file := data_file (manifest_entry ctx) in
  mkFileScanTaskDeleteFile (file_path file) (file_size_in_bytes file) (content file)
    (ctx_partition_spec_id ctx) (equality_ids file).

(** ** The index *)

(** [HashMap<Struct, Vec<_>>], never iterated: its entries, with different keys. *)
Abbreviation ByPartition := (list (Struct * list DeleteFileContext)).

Record PopulatedDeleteFileIndex := mkIndex {
  global_equality_deletes : list DeleteFileContext;
  eq_deletes_by_partition : ByPartition;
  pos_deletes_by_partition : ByPartition;
}.

Section index.
Context {V : ValueLib}.

Fixpoint partition_get (m : ByPartition) (key : Struct) : option (list DeleteFileContext) :=
  match m with
  | [] => None
  | (k, ctxs) :: m => if struct_eqb k key then Some ctxs else partition_get m key
  end.
(** [entry(key).and_modify(|e| e.push(ctx)).or_insert(vec![ctx])]. *)
Fixpoint partition_push (m : ByPartition) (key : Struct) (ctx : DeleteFileContext) : ByPartition :=
  match m with
  | [] => [(key, [ctx])]
  | (k, ctxs) :: m =>
      if struct_eqb k key then (k, ctxs ++ [ctx]) :: m else (k, ctxs) :: partition_push m key ctx
  end.

Definition ctx_partition (ctx : DeleteFileContext) : Struct :=
  partition (data_file (manifest_entry ctx)).
Definition ctx_content (ctx : DeleteFileContext) : DataContentType :=
  content_type (manifest_entry ctx).

(** One turn of the loop of [PopulatedDeleteFileIndex::new]. *)
Definition index_delete (self : PopulatedDeleteFileIndex) (ctx : DeleteFileContext) :
    result PopulatedDeleteFileIndex :=
  let partition := ctx_partition ctx in
  if bool_decide (partition = []) && negb (bool_decide (ctx_content ctx = PositionDeletes))
  then Ok (mkIndex (global_equality_deletes self ++ [ctx]) (eq_deletes_by_partition self)
             (pos_deletes_by_partition self))
  else
    match ctx_content ctx with
    | PositionDeletes =>
        Ok (mkIndex (global_equality_deletes self) (eq_deletes_by_partition self)
              (partition_push (pos_deletes_by_partition self) partition ctx))
    | EqualityDeletes =>
        Ok (mkIndex (global_equality_deletes self)
              (partition_push (eq_deletes_by_partition self) partition ctx)
              (pos_deletes_by_partition self))
    | Data => Err Panic
    end.

Definition index_new (files : list DeleteFileContext) : result PopulatedDeleteFileIndex :=
  try_fold index_delete (mkIndex [] [] []) files.

(** [>] and [>=] of [Option<i64>], for which [None] is least. *)
Definition later_than (delete_seq : option Z) (seq_num : Z) : bool :=
  match delete_seq with Some n => seq_num <? n | None => false end.
Definition not_earlier_than (delete_seq : option Z) (seq_num : Z) : bool :=
  match delete_seq with Some n => seq_num <=? n | None => false end.
Definition sequence_ok (test : option Z -> Z -> bool) (ctx : DeleteFileContext)
    (seq_num : option Z) : bool :=
  match seq_num with
  | Some seq_num => test (entry_sequence_number (manifest_entry ctx)) seq_num
  | None => true
  end.

Definition get_deletes_for_data_file (self : PopulatedDeleteFileIndex) (file : DataFile)
    (seq_num : option Z) : list FileScanTaskDeleteFile :=
  let of_partition m test :=
    match partition_get m (partition file) with
    | Some deletes =>
        List.filter (fun delete =>
          sequence_ok test delete seq_num && (partition_spec_id file =? ctx_partition_spec_id delete))
          deletes
    | None => []
    end in
  delete_file_of <$>
    (List.filter (fun delete => sequence_ok later_than delete seq_num) (global_equality_deletes self)
     ++ of_partition (eq_deletes_by_partition self) later_than
     ++ of_partition (pos_deletes_by_partition self) not_earlier_than).

(** ** Specification

    A position delete applies to the files of its partition and spec that are not newer; an
    equality delete to those that are older, of its partition and spec or, when it
    was written without partition, of any.  A delete without a sequence number is older than
    every file that has one; to a file without one every delete applies. *)
Definition applies (file : DataFile) (seq_num : option Z) (ctx : DeleteFileContext) : bool :=
  let same_partition :=
    struct_eqb (ctx_partition ctx) (partition file)
    && (partition_spec_id file =? ctx_partition_spec_id ctx) in
  match ctx_content ctx, seq_num, entry_sequence_number (manifest_entry ctx) with
  | _, Some _, None => false
  | PositionDeletes, Some data, Some delete => (data <=? delete) && same_partition
  | PositionDeletes, None, _ => same_partition
  | _, Some data, Some delete => (data <? delete) && (bool_decide (ctx_partition ctx = []) || same_partition)
  | _, None, _ => bool_decide (ctx_partition ctx = []) || same_partition
  end.

End index.

Section index_theory.
Context {V : ValueLib} {L : ValueLibLaws V}.

(** ** Theory: the index *)

Lemma partition_get_push m key key' ctx :
  partition_get (partition_push m key ctx) key'
  = if struct_eqb key key' then Some (default [] (partition_get m key) ++ [ctx])
    else partition_get m key'.
Proof.
  destruct (struct_eqb key key') eqn:E.
  - assert (Heq : forall k, struct_eqb k key' = struct_eqb k key).
    { intros k. apply eq_true_iff_eq. split; intros H.
      - apply (at_trans _ _ (struct_eqb_at k) _ _ H). by apply (at_sym _ _ (struct_eqb_at key)).
      - by apply (at_trans _ _ (struct_eqb_at k) _ _ H). }
    induction m as [|[k ctxs] m IH]; cbn [partition_push partition_get].
    + by rewrite E.
    + destruct (struct_eqb k key) eqn:Ek; cbn [partition_get]; rewrite Heq, Ek; [done|apply IH].
  - induction m as [|[k ctxs] m IH]; cbn [partition_push partition_get]; [by rewrite E|].
    destruct (struct_eqb k key) eqn:Ek; cbn [partition_get]; [|by rewrite IH].
    destruct (struct_eqb k key') eqn:Ek'; [|done]. exfalso.
    rewrite (at_trans _ _ (struct_eqb_at key) k key') in E; try done.
    by apply (at_sym _ _ (struct_eqb_at k)).
Qed.

(** Where a delete file is put. *)
Definition is_global (ctx : DeleteFileContext) : bool :=
  bool_decide (ctx_partition ctx = []) && negb (bool_decide (ctx_content ctx = PositionDeletes)).
Definition is_partition_equality (ctx : DeleteFileContext) : bool :=
  negb (is_global ctx) && bool_decide (ctx_content ctx = EqualityDeletes).
Definition is_position (ctx : DeleteFileContext) : bool :=
  bool_decide (ctx_content ctx = PositionDeletes).
Definition keyed (P : DeleteFileContext -> bool) (key : Struct) (ctx : DeleteFileContext) : bool :=
  P ctx && struct_eqb (ctx_partition ctx) key.

Definition entries_of (m : ByPartition) (key : Struct) : list DeleteFileContext :=
  default [] (partition_get m key).

Lemma entries_of_push m key key' ctx :
  entries_of (partition_push m key ctx) key'
  = if struct_eqb key key' then entries_of m key' ++ [ctx] else entries_of m key'.
Proof.
  unfold entries_of. rewrite partition_get_push. destruct (struct_eqb key key') eqn:E; [|done].
  cbn. do 2 f_equal. clear ctx. induction m as [|[k ctxs] m IH]; cbn; [done|].
  replace (struct_eqb k key') with (struct_eqb k key); [by destruct (struct_eqb k key)|].
  apply eq_true_iff_eq. split; intros H; [by apply (at_trans _ _ (struct_eqb_at k) _ _ H)|].
  apply (at_trans _ _ (struct_eqb_at k) _ _ H). by apply (at_sym _ _ (struct_eqb_at key)).
Qed.

Lemma index_files files : forall idx,
  Forall (fun ctx => ctx_content ctx <> Data) files ->
  exists idx', try_fold index_delete idx files = Ok idx'
    /\ global_equality_deletes idx' = global_equality_deletes idx ++ List.filter is_global files
    /\ forall key,
      entries_of (eq_deletes_by_partition idx') key
      = entries_of (eq_deletes_by_partition idx) key
        ++ List.filter (keyed is_partition_equality key) files
      /\ entries_of (pos_deletes_by_partition idx') key
         = entries_of (pos_deletes_by_partition idx) key ++ List.filter (keyed is_position key) files.
Proof.
  induction files as [|ctx files IH]; intros idx Hf.
  { exists idx. cbn. rewrite app_nil_r. split_and!; [done..|]. intros key. by rewrite !app_nil_r. }
  apply Forall_cons in Hf as [Hc Hf].
  assert (exists idx1, index_delete idx ctx = Ok idx1
    /\ global_equality_deletes idx1
       = global_equality_deletes idx ++ (if is_global ctx then [ctx] else [])
    /\ forall key,
      entries_of (eq_deletes_by_partition idx1) key
      = entries_of (eq_deletes_by_partition idx) key
        ++ (if keyed is_partition_equality key ctx then [ctx] else [])
      /\ entries_of (pos_deletes_by_partition idx1) key
         = entries_of (pos_deletes_by_partition idx) key
           ++ (if keyed is_position key ctx then [ctx] else []))
    as (idx1 & E & Hg & He).
  { unfold index_delete, keyed, is_partition_equality, is_position. fold (is_global ctx).
    destruct (is_global ctx) eqn:G.
    - assert (ctx_content ctx <> PositionDeletes).
      { intros E. unfold is_global in G. by rewrite E, andb_false_r in G. }
      eexists. split; [done|]. cbn. rewrite bool_decide_eq_false_2 by done. cbn.
      split; [done|]. intros key. by rewrite !app_nil_r.
    - destruct (ctx_content ctx); [done|..]; (eexists; split; [done|]);
        cbn -[entries_of partition_push struct_eqb]; (split; [by rewrite app_nil_r|]);
        intros key; rewrite entries_of_push;
        by destruct (struct_eqb _ key); rewrite ?app_nil_r. }
  destruct (IH idx1 Hf) as (idx' & E' & Hg' & He'). exists idx'. cbn [try_fold]. rewrite E.
  split; [done|]. rewrite Hg', Hg. cbn [List.filter]. split.
  { by destruct (is_global ctx); rewrite <- (assoc_L (++)). }
  intros key. destruct (He key) as [H1 H2], (He' key) as [H3 H4].
  rewrite H3, H4, H1, H2. cbn [List.filter].
  by destruct (keyed is_partition_equality key ctx), (keyed is_position key ctx);
    rewrite <- ?(assoc_L (++)).
Qed.

Lemma filter_filter {A} (P Q : A -> bool) l :
  List.filter P (List.filter Q l) = List.filter (fun a => Q a && P a) l.
Proof.
  induction l as [|a l IH]; cbn; [done|]. destruct (Q a); cbn; [|done].
  by destruct (P a); rewrite IH.
Qed.

(** Three disjoint classes that make up a fourth. *)
Lemma filter_classes {A} (P Q R S : A -> bool) l :
  Forall (fun a => match P a, Q a, R a with
                   | true, false, false | false, true, false | false, false, true => S a = true
                   | false, false, false => S a = false
                   | _, _, _ => False
                   end) l ->
  List.filter P l ++ List.filter Q l ++ List.filter R l ≡ₚ List.filter S l.
Proof.
  induction 1 as [|a l Ha _ IH]; [done|]. cbn.
  destruct (P a), (Q a), (R a); try done; rewrite Ha, <- ?IH; cbn; solve_Permutation.
Qed.

(** C37 The deletes that the index gives for a data file are those of the scoping rules that the
    index follows, each once, whatever order they were indexed in: position deletes of the
    partition and spec of the file that are not older than it; equality deletes that are newer,
    of its partition and spec or, if they were written without partition, of any.  The format's
    rule for deletes that name a data file is not among them ([referenced_file_is_ignored]). *)
Theorem deletes_for_data_file files file seq_num :
  Forall (fun ctx => ctx_content ctx <> Data) files ->
  exists idx, index_new files = Ok idx
    /\ get_deletes_for_data_file idx file seq_num
       ≡ₚ delete_file_of <$> List.filter (applies file seq_num) files.
Proof.
  intros Hf. destruct (index_files files (mkIndex [] [] []) Hf) as (idx & E & Hg & Hk).
  exists idx. split; [done|]. destruct (Hk (partition file)) as [He Hp]. cbn in Hg, He, Hp.
  unfold get_deletes_for_data_file. apply fmap_Permutation.
  assert (Hget : forall m f, match partition_get m (partition file) with
                             | Some deletes => List.filter f deletes | None => [] end
                 = List.filter f (entries_of m (partition file))).
  { intros m f. unfold entries_of. by destruct (partition_get m _). }
  rewrite !Hget, Hg, He, Hp, !filter_filter. apply filter_classes.
  eapply Forall_impl; [exact Hf|]. intros ctx Hc. cbn beta in Hc |- *.
  unfold keyed, is_partition_equality, is_position, is_global, applies, sequence_ok, later_than, not_earlier_than.
  destruct (ctx_content ctx); [done|..]; cbn -[struct_eqb];
    destruct (bool_decide_reflect (ctx_partition ctx = [])), seq_num as [data|],
      (entry_sequence_number (manifest_entry ctx)) as [delete|]; cbn -[struct_eqb];
    repeat match goal with |- context [?a <? ?b] => destruct (a <? b) | |- context [?a <=? ?b] => destruct (a <=? b) end;
    cbn -[struct_eqb]; destruct (struct_eqb (ctx_partition ctx) (partition file)),
      (partition_spec_id file =? ctx_partition_spec_id ctx); done.
Qed.
End index_theory.

(** ** Waiting for the index

    [DeleteFileIndex::new] spawns a task that collects the delete files, stores the
    populated index and then calls [notify_waiters]; any number of tasks call
    [get_deletes_for_data_file].  A step is what a task does between two points at which
    another thread can run.  [notify_waiters] wakes the [Notified] futures that exist when
    it is called and leaves nothing behind for later ones, as tokio documents. *)
Module Waiting.

Inductive Populator := Collecting | Stored | Finished.
Inductive Reader :=
| Started             (** about to take the read lock *)
| HoldsNotifier       (** saw [Populating], cloned the notifier, released the lock *)
| Awaiting            (** called [notified()] and awaits it *)
| Woken               (** about to take the read lock again *)
| Returned            (** has its answer *)
| ReachedUnreachable. (** the [unreachable!] after the wait *)

Record State := mkState {
  populated : bool;
  populator : Populator;
  readers : list Reader;
}.
Definition initial (n : nat) : State := mkState false Collecting (replicate n Started).

Definition after_lock (populated : bool) (not_yet : Reader) : Reader :=
  if populated then Returned else not_yet.
Definition wake (r : Reader) : Reader := match r with Awaiting => Woken | r => r end.

Inductive step : State -> State -> Prop :=
| step_store p rs : step (mkState p Collecting rs) (mkState true Stored rs)
| step_notify p rs : step (mkState p Stored rs) (mkState p Finished (wake <$> rs))
| step_check p b rs i :
    rs !! i = Some Started ->
    step (mkState p b rs) (mkState p b (<[i := after_lock p HoldsNotifier]> rs))
| step_register p b rs i :
    rs !! i = Some HoldsNotifier -> step (mkState p b rs) (mkState p b (<[i := Awaiting]> rs))
| step_resume p b rs i :
    rs !! i = Some Woken ->
    step (mkState p b rs) (mkState p b (<[i := after_lock p ReachedUnreachable]> rs)).

Definition reachable (n : nat) : State -> Prop := rtc step (initial n).

(** The index is stored when its populator says so; only then is a reader woken. *)
Record consistent (s : State) : Prop := {
  stored_populated : populator s <> Collecting -> populated s = true;
  woken_populated i : readers s !! i = Some Woken -> populated s = true;
  never_unreachable i : readers s !! i <> Some ReachedUnreachable;
}.

Lemma consistent_update p b rs i r :
  consistent (mkState p b rs) -> r <> ReachedUnreachable -> (r = Woken -> p = true) ->
  consistent (mkState p b (<[i := r]> rs)).
Proof.
  intros [H1 H2 H3] Hr Hw. split; cbn in *; [done|..].
  - intros j [(_ & E & _)|[_ Hj]]%list_lookup_insert_Some; eauto.
  - intros j [(_ & E & _)|[_ Hj]]%list_lookup_insert_Some; [done|by eapply H3].
Qed.

Lemma step_consistent s s' : step s s' -> consistent s -> consistent s'.
Proof.
  intros [] Hc; try (apply consistent_update; [done|..]); pose proof Hc as [H1 H2 H3]; cbn in *.
  - by split.
  - split; cbn; [by intros _; apply H1|..].
    + by intros _ _; apply H1.
    + intros i. rewrite list_lookup_fmap. intros (r & Hr & Hi)%fmap_Some.
      destruct r; try discriminate Hi. by apply (H3 i).
  - by destruct p.
  - by destruct p.
  - done.
  - done.
  - by rewrite (H2 i).
  - by destruct p.
Qed.

Lemma reachable_consistent n s : reachable n s -> consistent s.
Proof.
  intros Hr. assert (consistent (initial n)) as Hi.
  { split; cbn; [done|intros i [? ?]%lookup_replicate; done|intros i [? ?]%lookup_replicate; done]. }
  revert Hi. unfold reachable in Hr. induction Hr as [|s1 s2 s3 Hs _ IH]; [done|].
  intros Hc. by apply IH, (step_consistent s1).
Qed.

(** C40 No reader of the index gets past its wait before the index is populated, so the
    [unreachable!] is not reached; but a reader that looks before the index is stored and
    awaits the notification after it was given waits for ever, with nothing left to run. *)
Theorem wait_is_safe_but_can_hang :
  (forall n s i, reachable n s -> readers s !! i <> Some ReachedUnreachable)
  /\ exists s, reachable 1 s /\ populated s = true /\ readers s = [Awaiting]
       /\ forall s', ~ step s s'.
Proof.
  split; [intros n s i Hr; apply (reachable_consistent n s Hr)|].
  exists (mkState true Finished [Awaiting]). split_and!; [|done|done|].
  - eapply rtc_l; [by apply (step_check _ _ _ 0)|]. eapply rtc_l; [apply step_store|].
    eapply rtc_l; [apply step_notify|]. eapply rtc_l; [by apply (step_register _ _ _ 0)|]. apply rtc_refl.
  - intros s' Hs. inversion Hs as [| |? ? ? i Hi|? ? ? i Hi|? ? ? i Hi]; subst;
      by apply list_lookup_singleton_Some in Hi as [_ ?].
Qed.
End Waiting.

(** ** Witness *)

Definition ex_content (kind : DataContentType) (path : string) (part : Struct) (spec : Z) : DataFile :=
  mkDataFile kind path Parquet part 1 100 ∅ ∅ ∅ ∅ ∅ ∅ None None None None None spec None None None.
Definition ex_delete (kind : DataContentType) (path : string) (part : Struct) (seq : Z) :
    DeleteFileContext :=
  mkDeleteFileContext (mkManifestEntry Added None (Some seq) None (ex_content kind path part 1)) 1.
Definition ex_part (v : Z) : Struct := [Some (LPrimitive (PrimitiveLiteral.Long v))].
Definition ex_deletes : list DeleteFileContext :=
  [ex_delete EqualityDeletes "old" (ex_part 100) 4; ex_delete PositionDeletes "pos" (ex_part 100) 5;
   ex_delete EqualityDeletes "all" [] 6; ex_delete EqualityDeletes "other" (ex_part 7) 6;
   ex_delete EqualityDeletes "eq" (ex_part 100) 6].

(** A file of partition 100 written at 5: its position deletes of 5, and the later equality
    deletes of its partition and of no partition. *)
Lemma deletes_for_data_file_witness : let _ := concrete_values in exists idx,
  index_new ex_deletes = Ok idx
  /\ get_deletes_for_data_file idx (ex_content Data "d" (ex_part 100) 1) (Some 5)
     ≡ₚ delete_file_of <$> [ex_delete PositionDeletes "pos" (ex_part 100) 5;
                            ex_delete EqualityDeletes "all" [] 6;
                            ex_delete EqualityDeletes "eq" (ex_part 100) 6].
Proof.
  refine (deletes_for_data_file (V := concrete_values) ex_deletes (ex_content Data "d" (ex_part 100) 1) (Some 5) _).
  repeat constructor; discriminate.
Defined.

(** The format has a position delete that names a data file apply to that file only.  The index
    does not look at the name: a delete of "b" is given for "a", of the same partition. *)
Definition ex_referencing : DeleteFileContext :=
  mkDeleteFileContext (mkManifestEntry Added None (Some 5) None
    (mkDataFile PositionDeletes "pos" Parquet (ex_part 100) 1 100 ∅ ∅ ∅ ∅ ∅ ∅ None None None None None 1
       (Some "b") None None)) 1.
Theorem referenced_file_is_ignored :
  let _ := Concrete.concrete_values in
  (let? idx := index_new [ex_referencing] in
   Ok (get_deletes_for_data_file idx (ex_content Data "a" (ex_part 100) 1) (Some 5)))
  = Ok [delete_file_of ex_referencing].
Proof. vm_compute. reflexivity. Qed.
