(* ===== verification/TableMetadata.v ===== *)
(** * Table metadata (spec/table_metadata.rs, spec/snapshot.rs, spec/statistic_file.rs,
      spec/encrypted_key.rs)

    The metadata of a table with its lookups and the checks that [try_normalize] runs on
    metadata that was read or built. *)

From S2P Require Import Prelude Values Schema Transform PartitionSpecs SortOrders.

(** ** Snapshots and references *)

Inductive Operation := Append | Replace | Overwrite | Delete.
Record Summary := mkSummary {
  operation : Operation;
  additional_properties : gmap string string;
}.
Record SnapshotRowRange := mkRowRange { first_row_id : Z; added_rows : Z }.

Record Snapshot := mkSnapshot {
  snapshot_id : Z;
  parent_snapshot_id : option Z;
  snapshot_sequence_number : Z;
  timestamp_ms : Z;
  manifest_list : string;
  summary : Summary;
  snapshot_schema_id : option Z;
  encryption_key_id : option string;
  row_range : option SnapshotRowRange;
}.

Inductive SnapshotRetention :=
| Branch (min_snapshots_to_keep max_snapshot_age_ms max_ref_age_ms : option Z)
| Tag (max_ref_age_ms : option Z).
Record SnapshotReference := mkSnapshotReference {
  ref_snapshot_id : Z;
  retention : SnapshotRetention;
}.
#[global] Instance SnapshotRetention_eq_dec : EqDecision SnapshotRetention.
Proof. solve_decision. Defined.
#[global] Instance SnapshotReference_eq_dec : EqDecision SnapshotReference.
Proof. solve_decision. Defined.
Definition is_branch (self : SnapshotReference) : bool :=
  match retention self with Branch _ _ _ => true | Tag _ => false end.

Record SnapshotLog := mkSnapshotLog { log_snapshot_id : Z; log_timestamp_ms : Z }.
Record MetadataLog := mkMetadataLog { metadata_file : string; metadata_timestamp_ms : Z }.

(** ** Statistics and keys, which the metadata only carries *)

Record BlobMetadata := mkBlobMetadata {
  blob_type : string;
  blob_snapshot_id : Z;
  blob_sequence_number : Z;
  blob_fields : list Z;
  blob_properties : gmap string string;
}.
Record StatisticsFile := mkStatisticsFile {
  stats_snapshot_id : Z;
  statistics_path : string;
  stats_file_size_in_bytes : Z;
  file_footer_size_in_bytes : Z;
  stats_key_metadata : option string;
  blob_metadata : list BlobMetadata;
}.
Record PartitionStatisticsFile := mkPartitionStatisticsFile {
  part_stats_snapshot_id : Z;
  part_statistics_path : string;
  part_stats_file_size_in_bytes : Z;
}.
Record EncryptedKey := mkEncryptedKey {
  key_id : string;
  encrypted_key_metadata : list Z;
  encrypted_by_id : option string;
  key_properties : gmap string string;
}.

(** ** The metadata *)

Inductive FormatVersion := V1 | V2 | V3.
#[global] Instance FormatVersion_eq_dec : EqDecision FormatVersion.
Proof. solve_decision. Defined.
(** [Ord] compares the discriminants. *)
Definition version_u8 (v : FormatVersion) : Z := match v with V1 => 1 | V2 => 2 | V3 => 3 end.

Definition MAIN_BRANCH : string := "main".
Definition ONE_MINUTE_MS : Z := 60000.
Definition EMPTY_SNAPSHOT_ID : Z := -1.
Definition INITIAL_ROW_ID : Z := 0.
Definition MIN_FORMAT_VERSION_ROW_LINEAGE : FormatVersion := V3.

(** A [Uuid] is its 128-bit number. *)
Record TableMetadata := mkTableMetadata {
  format_version : FormatVersion;
  table_uuid : Z;
  location : string;
  last_sequence_number : Z;
  last_updated_ms : Z;
  last_column_id : Z;
  schemas : gmap Z Schema;
  current_schema_id : Z;
  partition_specs : gmap Z PartitionSpec;
  default_spec : PartitionSpec;
  default_partition_type : list NestedField;
  last_partition_id : Z;
  properties : gmap string string;
  current_snapshot_id : option Z;
  snapshots : gmap Z Snapshot;
  snapshot_log : list SnapshotLog;
  metadata_log : list MetadataLog;
  sort_orders : gmap Z SortOrder;
  default_sort_order_id : Z;
  refs : gmap string SnapshotReference;
  statistics : gmap Z StatisticsFile;
  partition_statistics : gmap Z PartitionStatisticsFile;
  encryption_keys : gmap string EncryptedKey;
  next_row_id : Z;
}.

#[global] Instance TableMetadata_updatable : Updatable TableMetadata := fun m =>
  mkTableMetadata (format_version m) (table_uuid m) (location m) (last_sequence_number m)
    (last_updated_ms m) (last_column_id m) (schemas m) (current_schema_id m) (partition_specs m)
    (default_spec m) (default_partition_type m) (last_partition_id m) (properties m)
    (current_snapshot_id m) (snapshots m) (snapshot_log m) (metadata_log m) (sort_orders m)
    (default_sort_order_id m) (refs m) (statistics m) (partition_statistics m) (encryption_keys m)
    (next_row_id m).

(** ** Lookups *)

Definition schema_by_id (self : TableMetadata) (id : Z) : option Schema := schemas self !! id.
Definition current_schema (self : TableMetadata) : result Schema :=
  unwrap (schema_by_id self (current_schema_id self)).
Definition partition_spec_by_id (self : TableMetadata) (id : Z) : option PartitionSpec :=
  partition_specs self !! id.
Definition snapshot_by_id (self : TableMetadata) (id : Z) : option Snapshot := snapshots self !! id.
Definition current_snapshot (self : TableMetadata) : result (option Snapshot) :=
  match current_snapshot_id self with
  | None => Ok None
  | Some s => Some <$> unwrap (snapshot_by_id self s)
  end.
Definition snapshot_for_ref (self : TableMetadata) (ref_name : string) : result (option Snapshot) :=
  match refs self !! ref_name with
  | None => Ok None
  | Some r => Some <$> unwrap (snapshot_by_id self (ref_snapshot_id r))
  end.
Definition sort_order_by_id (self : TableMetadata) (id : Z) : option SortOrder := sort_orders self !! id.
Definition default_sort_order (self : TableMetadata) : result SortOrder :=
  unwrap (sort_order_by_id self (default_sort_order_id self)).
Definition next_sequence_number (self : TableMetadata) : Z :=
  match format_version self with
  | V1 => 0
  | _ => wrapS 64 (last_sequence_number self + 1)
  end.

Definition partition_name_exists (self : TableMetadata) (name : string) : bool :=
  existsb (fun e => existsb (fun pf => bool_decide (partition_name pf = name)) (spec_fields (snd e)))
    (map_to_list (partition_specs self)).
Definition name_exists_in_any_schema (self : TableMetadata) (name : string) : bool :=
  existsb (fun e => bool_decide (is_Some (field_by_name (snd e) name))) (map_to_list (schemas self)).

(** [Snapshot::schema]. *)
Definition snapshot_schema (self : Snapshot) (table_metadata : TableMetadata) : result Schema :=
  match snapshot_schema_id self with
  | Some schema_id => ok_or (schema_by_id table_metadata schema_id) DataInvalid
  | None => current_schema table_metadata
  end.

(** ** Normalisation ([try_normalize]) *)

Definition validate_current_schema (self : TableMetadata) : result unit :=
  ensure (bool_decide (is_Some (schema_by_id self (current_schema_id self)))) DataInvalid.

Definition normalize_current_snapshot (self : TableMetadata) : result TableMetadata :=
  match current_snapshot_id self with
  | Some current =>
      if current =? EMPTY_SNAPSHOT_ID then Ok (self <| current_snapshot_id := None |>)
      else
        let? _ := ensure (bool_decide (is_Some (snapshot_by_id self current))) DataInvalid in
        Ok self
  | None => Ok self
  end.

Definition construct_refs (self : TableMetadata) : TableMetadata :=
  match current_snapshot_id self, refs self !! MAIN_BRANCH with
  | Some current, None =>
      self <| refs := <[MAIN_BRANCH := mkSnapshotReference current (Branch None None None)]>
                        (refs self) |>
  | _, _ => self
  end.

Definition validate_refs (self : TableMetadata) : result unit :=
  let? _ :=
    ensure (bool_decide (map_Forall (fun _ r => is_Some (snapshot_by_id self (ref_snapshot_id r)))
                           (refs self))) DataInvalid in
  match current_snapshot_id self, refs self !! MAIN_BRANCH with
  | Some current, Some main_ref => ensure (ref_snapshot_id main_ref =? current) DataInvalid
  | Some _, None => Ok tt
  | None, Some _ => Err (Error DataInvalid)
  | None, None => Ok tt
  end.

(** [b - a < -ONE_MINUTE_MS], with the wrap of [i64]. *)
Definition long_before (b a : Z) : bool := wrapS 64 (b - a) <? - ONE_MINUTE_MS.

(** The windows of two of a log, and its last entry against [last_updated_ms]. *)
Fixpoint windows_ok (times : list Z) : bool :=
  match times with
  | prev :: ((curr :: _) as rest) => negb (long_before curr prev) && windows_ok rest
  | _ => true
  end.
Definition validate_chronological (times : list Z) (last_updated_ms : Z) : result unit :=
  let? _ := ensure (windows_ok times) DataInvalid in
  match last times with
  | Some t => ensure (negb (long_before last_updated_ms t)) DataInvalid
  | None => Ok tt
  end.
Definition validate_chronological_snapshot_logs (self : TableMetadata) : result unit :=
  validate_chronological (log_timestamp_ms <$> snapshot_log self) (last_updated_ms self).
Definition validate_chronological_metadata_logs (self : TableMetadata) : result unit :=
  validate_chronological (metadata_timestamp_ms <$> metadata_log self) (last_updated_ms self).

(** [trim_end_matches('/')]. *)
Fixpoint trim_slashes (s : string) : string :=
  match s with
  | EmptyString => EmptyString
  | String c s =>
      match trim_slashes s with
      | EmptyString => if bool_decide (c = Ascii.ascii_of_nat 47) then EmptyString else String c EmptyString
      | t => String c t
      end
  end.

Definition validate_snapshot_sequence_number (self : TableMetadata) : result unit :=
  match format_version self with
  | V1 => ensure (last_sequence_number self =? 0) DataInvalid
  | _ =>
      ensure (bool_decide (map_Forall (fun _ s => snapshot_sequence_number s <= last_sequence_number self)
                             (snapshots self))) DataInvalid
  end.

Definition try_normalize_partition_spec (self : TableMetadata) : TableMetadata :=
  match partition_spec_by_id self (spec_id (default_spec self)) with
  | None =>
      self <| partition_specs :=
        <[spec_id (default_spec self) := default_spec self]> (partition_specs self) |>
  | Some _ => self
  end.

Definition try_normalize_sort_order (self : TableMetadata) : result TableMetadata :=
  let? _ :=
    match sort_order_by_id self UNSORTED_ORDER_ID with
    | Some sort_order => ensure (is_unsorted sort_order) Unexpected
    | None => Ok tt
    end in
  match sort_order_by_id self (default_sort_order_id self) with
  | Some _ => Ok self
  | None =>
      let? _ := ensure (default_sort_order_id self =? UNSORTED_ORDER_ID) DataInvalid in
      Ok (self <| sort_orders := <[UNSORTED_ORDER_ID := unsorted_order]> (sort_orders self) |>)
  end.

Definition try_normalize (self : TableMetadata) : result TableMetadata :=
  let? _ := validate_current_schema self in
  let? self := normalize_current_snapshot self in
  let self := construct_refs self in
  let? _ := validate_refs self in
  let? _ := validate_chronological_snapshot_logs self in
  let? _ := validate_chronological_metadata_logs self in
  let self := self <| location := trim_slashes (location self) |> in
  let? _ := validate_snapshot_sequence_number self in
  try_normalize_sort_order (try_normalize_partition_spec self).
