(* ===== verification/ScanTask.v ===== *)
(** * Tasks of a scan (scan/task.rs) *)

From S2P Require Import PartitionSpecs.
From S2P Require Import Prelude Values Schema Expr DataFile Projection DeleteIndex.

(** The name mapping of a table (spec/name_mapping/), which a task carries along. *)
Inductive MappedField :=
| mkMappedField (field_id : option Z) (names : list string) (fields : list MappedField).
Abbreviation NameMapping := (list MappedField).

Record FileScanTask := mkFileScanTask {
  task_file_size_in_bytes : Z;
  task_start : Z;
  task_length : Z;
  task_record_count : option Z;
  data_file_path : string;
  data_file_format : DataFileFormat;
  task_schema : Schema;
  project_field_ids : list Z;
  task_predicate : option BoundPredicate;
  deletes : list FileScanTaskDeleteFile;
  task_partition : option Struct;
  task_partition_spec : option PartitionSpec;
  name_mapping : option NameMapping;
  task_case_sensitive : bool;
}.
