(* ===== verification/PartitionSchema.v ===== *)
(** * The schema of partition tuples (scan/cache.rs)

    The cache of partition filters builds a schema from the partition type of a spec and
    binds to it.  For a struct of primitive fields, the name index, the id index and the
    accessors of the schema all lead to the field of that name. *)

From S2P Require Import Prelude Values Schema Expr.

(** ** The name index of a flat struct *)

Definition flat (fields : list NestedField) : Prop :=
  Forall (fun f => exists p, field_type f = TPrimitive p) fields.

Definition named (names : gmap string Z) : IndexByName := mkIndexByName names names [] [].

Lemma index_flat_field f m :
  (exists p, field_type f = TPrimitive p) ->
  visit_struct_field IndexByName_visitor f (named m)
  = match m !! field_name f with
    | Some _ => Err (Error DataInvalid)
    | None => Ok (tt, named (<[field_name f := field_id f]> m))
    end.
Proof.
  intros [p Hp]. unfold visit_struct_field, mbind, sr_bind. cbn. rewrite Hp. cbn.
  unfold add_field. cbn. by destruct (m !! field_name f).
Qed.

(** What has been indexed after the fields: the start and one entry for each. *)
Record indexes_names (fields : list NestedField) (m m' : gmap string Z) : Prop := {
  in_new f : f ∈ fields -> m !! field_name f = None /\ m' !! field_name f = Some (field_id f);
  in_origin n id : m' !! n = Some id ->
    m !! n = Some id \/ exists f, f ∈ fields /\ field_name f = n /\ field_id f = id;
  in_kept n id : m !! n = Some id -> m' !! n = Some id;
  in_distinct : NoDup (field_name <$> fields);
}.

Lemma index_flat fields : forall m ts s,
  flat fields -> mapSR (visit_struct_field IndexByName_visitor) fields (named m) = Ok (ts, s) ->
  exists m', s = named m' /\ indexes_names fields m m'.
Proof.
  induction fields as [|f fields IH]; intros m ts s Hf H.
  - injection H as <- <-. exists m. split; [done|].
    split; [by intros f ?%not_elem_of_nil|by left|done|constructor].
  - apply Forall_cons in Hf as [Hp Hf]. cbn [mapSR] in H.
    apply sr_bind_Ok in H as (t & s1 & H1 & H). rewrite index_flat_field in H1 by done.
    destruct (m !! field_name f) eqn:E; [done|]. injection H1 as <- <-.
    apply sr_bind_Ok in H as (ts' & s2 & H2 & H). injection H as <- <-.
    apply IH in H2 as (m' & -> & [H1 H2 H3 H4]); [|done]. exists m'. split; [done|].
    assert (Hf' : m' !! field_name f = Some (field_id f)) by apply H3, lookup_insert_eq.
    split.
    + intros g [->|Hg]%elem_of_cons; [done|]. destruct (H1 g Hg) as [Hn ?]. split; [|done].
      by apply lookup_insert_None in Hn as [? _].
    + intros n id [Hn|(g & Hg & ?)]%H2; [|right; exists g; by rewrite elem_of_cons; auto].
      apply lookup_insert_Some in Hn as [[<- <-]|[_ ?]]; [|by left].
      right. exists f. by rewrite elem_of_cons; auto.
    + intros n id Hn. apply H3. rewrite lookup_insert_ne; [done|]. intros <-. congruence.
    + cbn. apply NoDup_cons. split; [|done]. intros (g & Eg & Hg)%list_elem_of_fmap.
      destruct (H1 g Hg) as [Hn _]. rewrite <- Eg, lookup_insert_eq in Hn. done.
Qed.

Lemma foldl_insert_absent {K A} `{Countable K} (l : list (K * A)) (m : gmap K A) k :
  k ∉ l.*1 -> foldl (fun m '(k, a) => <[k := a]> m) m l !! k = m !! k.
Proof.
  revert m; induction l as [|[k' a] l IH]; intros m; [done|]. cbn. rewrite not_elem_of_cons.
  intros [Hk Hl]. rewrite IH by done. by rewrite lookup_insert_ne.
Qed.

Lemma index_by_name_flat fields names ids :
  flat fields -> index_by_name fields = Ok (names, ids) -> indexes_names fields ∅ names.
Proof.
  intros Hf. unfold index_by_name. intros H. apply fmap_Ok in H as ([t s] & H & E).
  unfold visit_struct in H. apply sr_bind_Ok in H as (ts & s1 & H1 & H). injection H as <- <-.
  apply (index_flat fields ∅) in H1 as (m & -> & [A1 A2 A3 A4]); [|done].
  unfold indexes in E. cbn in E. injection E as <- _.
  assert (Hl : forall n, foldl (fun m '(name, id) => <[name := id]> m) m (map_to_list m) !! n = m !! n).
  { intros n. destruct (m !! n) as [id|] eqn:E.
    - apply foldl_insert_lookup; [apply NoDup_fst_map_to_list|by apply elem_of_map_to_list].
    - rewrite foldl_insert_absent; [done|].
      intros ([k a] & -> & H)%list_elem_of_fmap. apply elem_of_map_to_list in H. cbn in E. congruence. }
  split; [intros f; rewrite Hl; apply A1|intros n id; rewrite Hl; apply A2|
          intros n id; rewrite Hl; apply A3|done].
Qed.

(** ** Binding to a flat schema *)

Lemma all_fields_flat fields : flat fields -> all_fields fields = fields.
Proof.
  unfold all_fields. cbn [nested_fields]. induction 1 as [|f fields [p Hp] _ IH]; [done|].
  cbn [flat_map]. rewrite Hp. cbn. by rewrite IH.
Qed.

Section flat_schema.
Context {LC : Lowercase} (schema : Schema) (b : SchemaBuilder).
Hypothesis built : build b = Ok schema.
Hypothesis as_given : b_reassign_field_ids_from b = None.
Hypothesis fields_flat : flat (b_fields b).

Lemma built_parts :
  as_struct schema = b_fields b
  /\ indexes_names (b_fields b) ∅ (name_to_id schema)
  /\ NoDup (field_id <$> b_fields b)
  /\ id_to_field schema = list_to_map ((fun f => (field_id f, f)) <$> b_fields b)
  /\ field_id_to_accessor schema = build_accessors (b_fields b).
Proof using built as_given fields_flat.
  pose proof (build_Ok b schema built) as (b' & H & Hb). rewrite as_given in Hb. subst b'.
  pose proof H as (Hs & Hi & Ha & _)%build_indexed_Ok. split; [done|]. split.
  - unfold build_indexed in H. apply bind_Ok in H as (m & _ & H).
    apply bind_Ok in H as ([] & _ & H). apply bind_Ok in H as ([n1 n2] & Hn & H).
    injection H as <-. cbn. by eapply index_by_name_flat.
  - rewrite index_by_id_inserts in Hi. apply try_inserts_Ok in Hi as (Hd & _ & Hm).
    rewrite (right_id_L ∅ (∪)) in Hm. by rewrite all_fields_flat in Hd, Hm.
Qed.

Lemma field_by_flat_name f :
  f ∈ b_fields b -> field_by_name schema (field_name f) = Some f.
Proof using built as_given fields_flat.
  intros Hf. destruct built_parts as (_ & Hn & Hd & Hi & _). unfold field_by_name, field_by_id.
  destruct (in_new _ _ _ Hn f Hf) as [_ ->]. cbn. rewrite Hi. apply elem_of_list_to_map_1.
  - by rewrite <- list_fmap_compose.
  - apply list_elem_of_fmap. eauto.
Qed.

(** Every name leads to its field, read at the field's position. *)
Lemma bind_flat_name i f p :
  b_fields b !! i = Some f -> field_type f = TPrimitive p ->
  bind_reference (mkReference (field_name f)) schema true
  = Ok (mkBoundReference (field_name f) f (accessor_new i p)).
Proof using built as_given fields_flat.
  intros Hi Hp. unfold bind_reference. cbn [ref_name].
  rewrite field_by_flat_name by (by eapply list_elem_of_lookup_2). cbn [ok_or mbind result_bind].
  unfold accessor_by_field_id. destruct built_parts as (_ & _ & Hd & _ & ->).
  unfold build_accessors. rewrite (foldl_insert_lookup _ _ _ (accessor_new i p)); [done|..].
  - eapply sublist_NoDup; [|apply build_accessors_nested_ids]. unfold field_ids, ids.
    change (nested_fields (TStruct (b_fields b))) with (all_fields (b_fields b)).
    by rewrite all_fields_flat.
  - eapply build_accessors_nested_elem; [done|]. rewrite Hp. by apply list_elem_of_singleton.
Qed.

Lemma bind_flat_inv r t :
  bind_reference r schema true = Ok t ->
  exists i f p, b_fields b !! i = Some f /\ field_type f = TPrimitive p
    /\ field_name f = ref_name r /\ t = mkBoundReference (field_name f) f (accessor_new i p).
Proof using built as_given fields_flat.
  intros Ht. pose proof Ht as (f & Hf & _)%bind_Ok.
  destruct built_parts as (_ & Hn & Hd & Hm & _). unfold field_by_name, field_by_id in Hf.
  destruct (name_to_id schema !! ref_name r) as [id|] eqn:E; [|done]. cbn in Hf.
  apply (in_origin _ _ _ Hn) in E as [E|(g & Hg & En & Eid)]; [by rewrite lookup_empty in E|].
  apply list_elem_of_lookup in Hg as [i Hi]. pose proof fields_flat as Hfl.
  unfold flat in Hfl. rewrite Forall_lookup in Hfl. destruct (Hfl i g Hi) as [p Hp].
  exists i, g, p. split_and!; [done..|]. pose proof (bind_flat_name i g p Hi Hp) as Hb.
  destruct r as [n]. cbn in En. subst n. congruence.
Qed.
End flat_schema.
