(* ===== verification/ScanPlan.v ===== *)
(** * Planning a scan (scan/mod.rs, scan/context.rs, scan/cache.rs, io/object_cache.rs)

    From a filter to file scan tasks: the scan builder, the caches of partition
    filters and evaluators, the pruning of manifests and of their entries. *)

From S2P Require Import PartitionSpecs.
From S2P Require Import Prelude Utf8 Values Schema Expr DataFile ExprEval Transform Project Projection.
From S2P Require Import InclusiveMetrics ManifestEval DeleteIndex TableMetadata ScanTask.

(** ** Metadata columns (metadata_columns.rs) *)

Definition RESERVED_FIELD_IDS : list (string * Z) :=
  [("_file", I32_MAX - 1); ("_pos", I32_MAX - 2); ("_deleted", I32_MAX - 3);
   ("_spec_id", I32_MAX - 4); ("_partition", I32_MAX - 5);
   ("file_path", I32_MAX - 101); ("pos", I32_MAX - 102);
   ("_change_type", I32_MAX - 104); ("_change_ordinal", I32_MAX - 105);
   ("_commit_snapshot_id", I32_MAX - 106); ("_row_id", I32_MAX - 107);
   ("_last_updated_sequence_number", I32_MAX - 108)]%string.

Definition get_metadata_field_id (column_name : string) : result Z :=
  match List.find (fun e => bool_decide (fst e = column_name)) RESERVED_FIELD_IDS with
  | Some e => Ok (snd e)
  | None => Err (Error Unexpected)
  end.
Definition is_metadata_column_name (column_name : string) : bool :=
  is_ok (get_metadata_field_id column_name).

(** ** The plan's context and caches *)

Record PlanContext := mkPlanContext {
  snapshot : Snapshot;
  table_metadata : TableMetadata;
  plan_schema : Schema;
  case_sensitive : bool;
  predicate : option Predicate;
  snapshot_bound_predicate : option BoundPredicate;
  field_ids : list Z;
}.

(** The three caches of a context, by partition spec id; no other thread holds their locks
    when they are read or written. *)
Record PlanCaches := mkPlanCaches {
  partition_filter_cache : gmap Z BoundPredicate;
  manifest_evaluator_cache : gmap Z ManifestEvaluator;
  expression_evaluator_cache : gmap Z ExpressionEvaluator;
}.
Definition empty_caches : PlanCaches := mkPlanCaches ∅ ∅ ∅.

Record BoundPredicates := mkBoundPredicates {
  partition_bound_predicate : BoundPredicate;
  bp_snapshot_bound_predicate : BoundPredicate;
}.
Record ManifestFileContext := mkManifestFileContext {
  mfc_manifest_file : ManifestFile;
  mfc_bound_predicates : option BoundPredicates;
}.
Record ManifestEntryContext := mkManifestEntryContext {
  mec_manifest_entry : ManifestEntry;
  mec_bound_predicates : option BoundPredicates;
  mec_partition_spec_id : Z;
}.

(** ** Building a scan ([TableScanBuilder]) *)

Record TableScanBuilder := mkTableScanBuilder {
  column_names : option (list string);
  builder_snapshot_id : option Z;
  builder_case_sensitive : bool;
  scan_filter : option Predicate;
}.
Definition scan_builder_new : TableScanBuilder := mkTableScanBuilder None None true None.
Definition with_case_sensitive (self : TableScanBuilder) (b : bool) : TableScanBuilder :=
  mkTableScanBuilder (column_names self) (builder_snapshot_id self) b (scan_filter self).
Definition with_filter (self : TableScanBuilder) (predicate : Predicate) : result TableScanBuilder :=
  let? predicate := rewrite_not predicate in
  Ok (mkTableScanBuilder (column_names self) (builder_snapshot_id self)
        (builder_case_sensitive self) (Some predicate)).
Definition select (self : TableScanBuilder) (names : list string) : TableScanBuilder :=
  mkTableScanBuilder (Some names) (builder_snapshot_id self) (builder_case_sensitive self) (scan_filter self).
Definition with_snapshot_id (self : TableScanBuilder) (id : Z) : TableScanBuilder :=
  mkTableScanBuilder (column_names self) (Some id) (builder_case_sensitive self) (scan_filter self).

Section plan.
Context {V : ValueLib} {TL : TransformLib} {LC : Lowercase}.

Definition field_id_by_name (self : Schema) (name : string) : option Z := name_to_id self !! name.
(** [StructType::field_by_id]: of two fields with one id the later. *)
Definition struct_field_by_id (fields : list NestedField) (id : Z) : option NestedField :=
  List.find (fun f => field_id f =? id) (rev fields).

(** One turn of the loop that collects the ids to project. *)
Definition column_field_id (schema : Schema) (column_name : string) : result Z :=
  if is_metadata_column_name column_name then get_metadata_field_id column_name
  else
    let? id := ok_or (field_id_by_name schema column_name) DataInvalid in
    let? _ := ok_or (struct_field_by_id (as_struct schema) id) FeatureUnsupported in
    Ok id.

(** [TableScanBuilder::build]: no context when the table has no snapshot.  The filter is
    bound case sensitively whatever the builder says. *)
Definition scan_build (metadata : TableMetadata) (self : TableScanBuilder) :
    result (option PlanContext) :=
  let? snapshot :=
    match builder_snapshot_id self with
    | Some snapshot_id => Some <$> ok_or (snapshot_by_id metadata snapshot_id) DataInvalid
    | None => current_snapshot metadata
    end in
  match snapshot with
  | None => Ok None
  | Some snapshot =>
      let? schema := snapshot_schema snapshot metadata in
      let? _ :=
        try_fold (fun _ column_name =>
            if is_metadata_column_name column_name then Ok tt
            else (fun _ => tt) <$> ok_or (field_by_name schema column_name) DataInvalid)
          tt (default [] (column_names self)) in
      let? field_ids :=
        mapR (column_field_id schema)
          (default (field_name <$> as_struct schema) (column_names self)) in
      let? bound :=
        match scan_filter self with
        | Some predicates => Some <$> bind predicates schema true
        | None => Ok None
        end in
      Ok (Some (mkPlanContext snapshot metadata schema (builder_case_sensitive self) (scan_filter self)
                  bound field_ids))
  end.

(** ** The caches (scan/cache.rs) *)

Definition partition_filter_get (spec_id : Z) (table_metadata : TableMetadata) (schema : Schema)
    (case_sensitive : bool) (filter : BoundPredicate) : SR PlanCaches BoundPredicate := fun caches =>
  match partition_filter_cache caches !! spec_id with
  | Some cached => Ok (cached, caches)
  | None =>
      let? partition_spec := ok_or (partition_spec_by_id table_metadata spec_id) Unexpected in
      let? partition_fields := partition_type partition_spec schema in
      let? partition_schema :=
        Schema.build (mkSchemaBuilder (PartitionSpecs.spec_id partition_spec) partition_fields [] ∅ None) in
      let? projected := inclusive_project partition_spec filter ∅ in
      let? rewritten := rewrite_not (fst projected) in
      let? partition_filter := bind rewritten partition_schema case_sensitive in
      Ok (partition_filter,
          mkPlanCaches (<[spec_id := partition_filter]> (partition_filter_cache caches))
            (manifest_evaluator_cache caches) (expression_evaluator_cache caches))
  end.

Definition manifest_evaluator_get (spec_id : Z) (partition_filter : BoundPredicate) :
    SR PlanCaches ManifestEvaluator := fun caches =>
  match manifest_evaluator_cache caches !! spec_id with
  | Some cached => Ok (cached, caches)
  | None =>
      let? evaluator := ManifestEval.build (ManifestEval.builder partition_filter) in
      Ok (evaluator,
          mkPlanCaches (partition_filter_cache caches)
            (<[spec_id := evaluator]> (manifest_evaluator_cache caches))
            (expression_evaluator_cache caches))
  end.

Definition expression_evaluator_get (spec_id : Z) (partition_filter : BoundPredicate) :
    SR PlanCaches ExpressionEvaluator := fun caches =>
  match expression_evaluator_cache caches !! spec_id with
  | Some cached => Ok (cached, caches)
  | None =>
      let evaluator := mkExpressionEvaluator partition_filter in
      Ok (evaluator,
          mkPlanCaches (partition_filter_cache caches) (manifest_evaluator_cache caches)
            (<[spec_id := evaluator]> (expression_evaluator_cache caches)))
  end.

(** ** Manifests *)

Definition get_partition_filter (self : PlanContext) (manifest_file : ManifestFile) :
    SR PlanCaches BoundPredicate :=
  let! predicate := sr_lift (ok_or (predicate self) Unexpected) in
  let! filter := sr_lift (bind predicate (plan_schema self) (case_sensitive self)) in
  partition_filter_get (manifest_partition_spec_id manifest_file) (table_metadata self)
    (plan_schema self) (case_sensitive self) filter.

Definition create_manifest_file_context (self : PlanContext) (manifest_file : ManifestFile)
    (partition_filter : option BoundPredicate) : ManifestFileContext :=
  mkManifestFileContext manifest_file
    (match partition_filter, snapshot_bound_predicate self with
     | Some p, Some s => Some (mkBoundPredicates p s)
     | _, _ => None
     end).

(** One turn of the loop of [build_manifest_file_contexts]; [None] for a skipped manifest. *)
Definition manifest_file_context (self : PlanContext) (manifest_file : ManifestFile) :
    SR PlanCaches (option ManifestFileContext) :=
  match predicate self with
  | Some _ =>
      let! partition_bound_predicate := get_partition_filter self manifest_file in
      let! evaluator :=
        manifest_evaluator_get (manifest_partition_spec_id manifest_file) partition_bound_predicate in
      let! matches := sr_lift (manifest_eval evaluator manifest_file) in
      mret (if (matches : bool)
            then Some (create_manifest_file_context self manifest_file
                         (Some partition_bound_predicate))
            else None)
  | None => mret (Some (create_manifest_file_context self manifest_file None))
  end.

Definition is_deletes (m : ManifestFile) : bool :=
  match manifest_content m with MDeletes => true | MData => false end.
(** [sort_by_key], which is stable, with delete manifests first. *)
Definition deletes_first (l : list ManifestFile) : list ManifestFile :=
  List.filter is_deletes l ++ List.filter (fun m => negb (is_deletes m)) l.

Definition build_manifest_file_contexts (self : PlanContext) (manifest_list : list ManifestFile) :
    SR PlanCaches (list ManifestFileContext) :=
  let! contexts := mapSR (manifest_file_context self) (deletes_first manifest_list) in
  mret (omap id contexts).

(** What storage holds: the manifests of a list and the entries of a manifest, as written. *)
Variables (load_manifest_list : string -> result (list ManifestFile))
          (load_entries : ManifestFile -> result (list ManifestEntry)).

(** [ObjectCache::get_manifest_list]: the key of the cache needs the schema id.  The files
    never change, so a cached answer is the loaded one. *)
Definition get_manifest_list (cache_disabled : bool) (self : PlanContext) :
    result (list ManifestFile) :=
  if cache_disabled then load_manifest_list (manifest_list (snapshot self))
  else
    let? _ := unwrap (snapshot_schema_id (snapshot self)) in
    load_manifest_list (manifest_list (snapshot self)).

(** [ManifestFile::load_manifest]. *)
Definition load_manifest (m : ManifestFile) : result (list ManifestEntry) :=
  let? entries := load_entries m in Ok ((fun e => inherit_data e m) <$> entries).

(** [fetch_manifest_and_stream_manifest_entries]. *)
Definition stream_manifest_entries (self : ManifestFileContext) :
    result (list ManifestEntryContext) :=
  let? entries := load_manifest (mfc_manifest_file self) in
  Ok ((fun e => mkManifestEntryContext e (mfc_bound_predicates self)
                  (manifest_partition_spec_id (mfc_manifest_file self))) <$> entries).

(** ** Entries *)

Definition into_file_scan_task (ctx : PlanContext) (self : ManifestEntryContext)
    (delete_file_index : PopulatedDeleteFileIndex) : FileScanTask :=
  let entry := mec_manifest_entry self in
  let file := data_file entry in
  mkFileScanTask (file_size_in_bytes file) 0 (file_size_in_bytes file)
    (Some (record_count file)) (file_path file) (file_format file) (plan_schema ctx)
    (field_ids ctx) (bp_snapshot_bound_predicate <$> mec_bound_predicates self)
    (get_deletes_for_data_file delete_file_index file (entry_sequence_number entry))
    (Some (partition file)) None None (case_sensitive ctx).

(** The test of the partition tuple that both kinds of entries take. *)
Definition partition_may_match (self : ManifestEntryContext) (bounds : BoundPredicates) :
    SR PlanCaches bool :=
  let! evaluator :=
    expression_evaluator_get (mec_partition_spec_id self) (partition_bound_predicate bounds) in
  sr_lift (expression_eval evaluator (data_file (mec_manifest_entry self))).

Definition process_data_manifest_entry (ctx : PlanContext)
    (delete_file_index : PopulatedDeleteFileIndex) (self : ManifestEntryContext) :
    SR PlanCaches (option FileScanTask) :=
  if negb (is_alive (mec_manifest_entry self)) then mret None
  else if negb (bool_decide (content_type (mec_manifest_entry self) = Data))
  then mthrow (Error FeatureUnsupported)
  else
    let task := Some (into_file_scan_task ctx self delete_file_index) in
    match mec_bound_predicates self with
    | None => mret task
    | Some bounds =>
        let! partition_matches := partition_may_match self bounds in
        if negb (partition_matches : bool) then mret None
        else
          let! metrics_match :=
            sr_lift (inclusive_eval (data_file (mec_manifest_entry self))
                       (bp_snapshot_bound_predicate bounds) false) in
          mret (if (metrics_match : bool) then task else None)
    end.

Definition process_delete_manifest_entry (self : ManifestEntryContext) :
    SR PlanCaches (option DeleteFileContext) :=
  if negb (is_alive (mec_manifest_entry self)) then mret None
  else if bool_decide (content_type (mec_manifest_entry self) = Data)
  then mthrow (Error FeatureUnsupported)
  else
    let found := Some (mkDeleteFileContext (mec_manifest_entry self) (mec_partition_spec_id self)) in
    match mec_bound_predicates self with
    | None => mret found
    | Some bounds =>
        let! partition_matches := partition_may_match self bounds in
        mret (if (partition_matches : bool) then found else None)
    end.

(** [TableScan::plan_files].  The entries of each kind are processed concurrently, in an order
    that [schedule] chooses; those of delete manifests before any data file is given its
    deletes.  An error of any part is an error of the plan. *)
Definition plan_files (cache_disabled : bool)
    (schedule : list ManifestEntryContext -> list ManifestEntryContext) (ctx : PlanContext) :
    SR PlanCaches (list FileScanTask) :=
  let! manifest_list := sr_lift (get_manifest_list cache_disabled ctx) in
  let! contexts := build_manifest_file_contexts ctx manifest_list in
  let of_kind deletes :=
    List.filter (fun c => eqb (is_deletes (mfc_manifest_file c)) deletes) contexts in
  let! delete_entries := sr_lift (mapR stream_manifest_entries (of_kind true)) in
  let! delete_files := mapSR process_delete_manifest_entry (schedule (concat delete_entries)) in
  let! delete_file_index := sr_lift (index_new (omap id delete_files)) in
  let! data_entries := sr_lift (mapR stream_manifest_entries (of_kind false)) in
  let! tasks :=
    mapSR (process_data_manifest_entry ctx delete_file_index) (schedule (concat data_entries)) in
  mret (omap id tasks).

End plan.

(** ** A column that a reserved name hides

    "pos" and "file_path" are reserved without an underscore, so a table column of one of these
    names cannot be projected: its name stands for the metadata column. *)
Section hidden.
#[local] Instance no_folding : Lowercase := fun s => s.
Definition hidden_schema : Schema :=
  match Schema.build (mkSchemaBuilder 0 [mkField 7 "pos" false (TPrimitive PrimitiveType.Int)] [] ∅ None) with
  | Ok s => s
  | Err _ => mkSchema [] 0 0 ∅ [] ∅ ∅ ∅ ∅ ∅
  end.

Lemma reserved_name_hides_column :
  field_id <$> field_by_name hidden_schema "pos" = Some 7
  /\ column_field_id hidden_schema "pos" = Ok (I32_MAX - 102).
Proof. split; vm_compute; reflexivity. Qed.
End hidden.
