(* ===== verification/ScanSpec.v ===== *)
(** * A scan loses no row

    The partition filter that a plan derives from the filter of a scan is true on the tuple
    of every row the filter is true on; so every file with such a row becomes a task. *)

From S2P Require Import PartitionSpecs.
From S2P Require Import Prelude Utf8 Values Schema Concrete DatumOrder Expr DataFile ExprEval Binding.
From S2P Require Import Transform ConcreteTime TransformSpec Project ProjectSpec Projection Metrics.
From S2P Require Import InclusiveMetrics ManifestEval LiteralEq DeleteIndex TableMetadata ScanTask.
From S2P Require Import PartitionSchema ScanPlan.

Section binding.
Context {V : ValueLib} {LC : Lowercase}.

(** ** Binding literals that already have the column's type *)

Definition fits (ty : Ty) (d : Datum) : Prop :=
  ty = TPrimitive (datum_type d) /\ compatible (datum_type d) (datum_literal d) = true.

Lemma datum_to_same ty d : fits ty d -> datum_to d ty = Ok d.
Proof.
  intros [-> Hc]. destruct d as [p l]. cbn in *. unfold datum_to.
  destruct p, l; try discriminate Hc; cbn; rewrite ?bool_decide_eq_true_2; done.
Qed.

Definition term_is {T} (t : T) (q : Pred T) : Prop := terms (fun u => u = t) q.

Lemma bind_binary_exact op t d b :
  PredicateOperator.is_binary op = true -> fits (field_type (ref_field t)) d ->
  bind_binary op t d = Ok b -> b = Binary op t d.
Proof.
  intros Ho Hf. unfold bind_binary. rewrite datum_to_same by done. cbn [mbind result_bind].
  destruct Hf as [_ Hc]. destruct d as [p l]. cbn in Hc |- *.
  destruct p, l; try discriminate Hc; by intros [= <-].
Qed.

Context {L : ValueLibLaws V}.

Lemma datum_eqb_at d : eqb_at datum_eqb d.
Proof.
  destruct (lit_eqb_at (datum_literal d)) as [H1 H2 H3]. unfold datum_eqb. split.
  - by rewrite bool_decide_eq_true_2, H1.
  - intros e [E%bool_decide_eq_true H%H2]%andb_true_iff. by rewrite bool_decide_eq_true_2, H.
  - intros e f [E%bool_decide_eq_true H]%andb_true_iff [E'%bool_decide_eq_true H']%andb_true_iff.
    rewrite bool_decide_eq_true_2 by congruence. by apply (H3 (datum_literal e)).
Qed.

Lemma set_contains_insert s d x :
  set_contains (set_insert s d) x = set_contains s x || datum_eqb x d.
Proof.
  unfold set_insert. destruct (set_contains s d) eqn:E.
  - destruct (datum_eqb x d) eqn:Ex; [|by rewrite orb_false_r]. rewrite orb_true_r.
    apply existsb_exists in E as (e & He & E). apply existsb_exists. exists e. split; [done|].
    by apply (at_trans _ _ (datum_eqb_at x) d).
  - unfold set_contains. rewrite existsb_app. cbn. by rewrite orb_false_r.
Qed.

Lemma set_contains_from_iter ds x : set_contains (set_from_iter ds) x = set_contains ds x.
Proof.
  unfold set_from_iter. assert (H : forall s,
    set_contains (fold_left set_insert ds s) x = set_contains s x || set_contains ds x).
  { induction ds as [|d ds IH]; intros s; cbn [fold_left]; [by rewrite orb_false_r|].
    rewrite IH, set_contains_insert. unfold set_contains at 3. cbn [existsb].
    by rewrite <- orb_assoc. }
  by rewrite H.
Qed.

(** What binding a leaf gives: a leaf on the same term with the same meaning. *)
Record bound_leaf (t : BoundReference) (meaning : option Datum -> option bool)
    (b : BoundPredicate) : Prop := {
  bl_meaning value : denote value b = meaning (value t);
  bl_well_formed : well_formed b = true;
  bl_not_free : not_free b = true;
  bl_term : term_is t b;
}.

Lemma bind_unary_exact op t b :
  field_required (ref_field t) = false -> bind_unary op t = Ok b ->
  bound_leaf t (holds_unary op) b.
Proof.
  intros Hr. unfold bind_unary. rewrite Hr. destruct op; try discriminate;
    try (destruct (is_floating_type _); [|discriminate]); intros [= <-]; done.
Qed.

Lemma mapR_datum_to ty ds : Forall (fits ty) ds -> mapR (fun l => datum_to l ty) ds = Ok ds.
Proof. induction 1 as [|d ds Hd _ IH]; [done|]. cbn. by rewrite datum_to_same, IH. Qed.

Lemma bind_set_exact op t ds b :
  PredicateOperator.is_set op = true -> Forall (fits (field_type (ref_field t))) ds ->
  bind_set op t ds = Ok b -> bound_leaf t (fun v => holds_set op v ds) b.
Proof.
  intros Ho Hf. unfold bind_set. rewrite mapR_datum_to by done. cbn [mbind result_bind].
  pose proof (set_contains_from_iter ds) as Hc. destruct op; try discriminate Ho;
    destruct (set_from_iter ds) as [|d [|e rest]]; intros [= <-]; split; try done;
    intros value; cbn; destruct (value t) as [x|]; rewrite <- ?Hc; try done; cbn;
    by rewrite orb_false_r.
Qed.

(** ** Binding a whole predicate to a schema its literals fit *)

Definition fits_schema (schema : Schema) (q : Predicate) : Prop :=
  match q with
  | Unary op r => PredicateOperator.is_unary op = true
      /\ forall t, bind_reference r schema true = Ok t -> field_required (ref_field t) = false
  | Binary op r d => PredicateOperator.is_binary op = true
      /\ forall t, bind_reference r schema true = Ok t -> fits (field_type (ref_field t)) d
  | SetP op r ds => PredicateOperator.is_set op = true
      /\ forall t, bind_reference r schema true = Ok t -> Forall (fits (field_type (ref_field t))) ds
  | _ => True
  end.

Record bound_exactly (schema : Schema) (pv : Reference -> option Datum) (p : Predicate)
    (b : BoundPredicate) : Prop := {
  be_meaning value :
    (forall r t, bind_reference r schema true = Ok t -> value t = pv r) ->
    denote value b = denote pv p;
  be_well_formed : well_formed b = true;
  be_not_free : not_free b = true;
  be_terms : terms (fun t => exists r, bind_reference r schema true = Ok t) b;
}.

Lemma bound_leaf_exactly schema pv p b r t meaning :
  bind_reference r schema true = Ok t -> denote pv p = meaning (pv r) -> bound_leaf t meaning b ->
  bound_exactly schema pv p b.
Proof.
  intros Ht Hp [H1 H2 H3 H4]. split; [|done..|].
  - intros value Hv. by rewrite H1, Hp, (Hv r t Ht).
  - unfold term_is, terms in *. eapply leaves_impl; [|exact H4].
    intros q Hq. destruct q; try done; subst; eauto.
Qed.

Lemma bind_connectives_closed (P : BoundPredicate -> Prop) l r :
  P AlwaysTrue -> P AlwaysFalse -> P l -> P r -> P (And l r) -> P (Or l r) ->
  P (bind_and l r) /\ P (bind_or l r).
Proof. destruct l, r; cbn; tauto. Qed.

Lemma bound_connectives schema pv l r bl br :
  bound_exactly schema pv l bl -> bound_exactly schema pv r br ->
  bound_exactly schema pv (And l r) (bind_and bl br)
  /\ bound_exactly schema pv (Or l r) (bind_or bl br).
Proof.
  intros [L1 L2 L3 L4] [R1 R2 R3 R4].
  destruct (bind_connectives_closed (fun b => well_formed b = true) bl br);
    cbn; rewrite ?andb_true_iff; try done.
  destruct (bind_connectives_closed (fun b => not_free b = true) bl br);
    cbn; rewrite ?andb_true_iff; try done.
  destruct (bind_connectives_closed
    (terms (fun t => exists r, bind_reference r schema true = Ok t)) bl br); try done.
  split; split; try done; intros value Hv.
  - by rewrite bind_and_denote, (L1 value Hv), (R1 value Hv).
  - by rewrite bind_or_denote, (L1 value Hv), (R1 value Hv).
Qed.

Lemma bind_exact schema pv p b :
  not_free p = true -> leaves (fits_schema schema) p -> bind p schema true = Ok b ->
  bound_exactly schema pv p b.
Proof.
  revert b; induction p as [| |l IHl r IHr|l IHl r IHr|p IH|op r|op r d|op r ds];
    intros b Hn Hf H; cbn [bind] in H; try discriminate Hn.
  - by injection H as <-.
  - by injection H as <-.
  - cbn in Hn, Hf. apply andb_true_iff in Hn as [Hnl Hnr]. destruct Hf as [Hfl Hfr].
    apply bind_Ok in H as (bl & Hl & H). apply bind_Ok in H as (br & Hr & [= <-]).
    by apply bound_connectives; [apply IHl|apply IHr].
  - cbn in Hn, Hf. apply andb_true_iff in Hn as [Hnl Hnr]. destruct Hf as [Hfl Hfr].
    apply bind_Ok in H as (bl & Hl & H). apply bind_Ok in H as (br & Hr & [= <-]).
    by apply bound_connectives; [apply IHl|apply IHr].
  - apply bind_Ok in H as (t & Ht & H). destruct Hf as [Ho Hf].
    eapply bound_leaf_exactly; [done| |by eapply bind_unary_exact; [apply Hf|]]. done.
  - apply bind_Ok in H as (t & Ht & H). destruct Hf as [Ho Hf].
    apply bind_binary_exact in H as ->; [|done|by apply Hf].
    eapply (bound_leaf_exactly _ _ _ _ r t (fun v => holds_binary op v d)); [done..|].
    split; try done.
  - apply bind_Ok in H as (t & Ht & H). destruct Hf as [Ho Hf].
    eapply bound_leaf_exactly; [done| |by eapply bind_set_exact; [|apply Hf|]]. done.
Qed.
End binding.

(** ** The literals of a projection *)

Section projection.
Context {V : ValueLib} {L : ValueLibLaws V} {TL : TransformLib} {TLL : TransformLibLaws TL}.

(** A comparison of the partition field [name] with literals of its type. *)
Definition on_partition (name : string) (ty : Ty) (p : Predicate) : Prop :=
  match p with
  | Unary op r => r = mkReference name /\ PredicateOperator.is_unary op = true
  | Binary op r d => r = mkReference name /\ PredicateOperator.is_binary op = true /\ fits ty d
  | SetP op r ds => r = mkReference name /\ PredicateOperator.is_set op = true /\ Forall (fits ty) ds
  | _ => False
  end.

(** No decimal is truncated. *)
Definition keeps_scale (T : Transform.t) (ty : PrimitiveType.t) : bool :=
  match T, ty with Transform.Truncate _, PrimitiveType.Decimal _ _ => false | _, _ => true end.

(** The literals of a leaf are of the column's type. *)
Definition literals_typed (ty : PrimitiveType.t) (q : BoundPredicate) : Prop :=
  match q with
  | Binary _ _ d => fits (TPrimitive ty) d
  | SetP _ _ ds => Forall (fits (TPrimitive ty)) ds
  | _ => True
  end.

Lemma fits_result T f ty rt d r :
  keeps_scale T ty = true -> fits (TPrimitive ty) d -> result_type T (TPrimitive ty) = Ok rt ->
  create_transform_function T = Ok f -> f d = Ok (Some r) -> fits rt r.
Proof.
  intros Hk [[= ->] Hc] Hrt Hf Hr.
  destruct (transform_result_compatible T f d r rt Hc Hrt Hf Hr) as [H|(w & p & s & -> & E)]; [done|].
  rewrite E in Hk. done.
Qed.

Lemma fits_moved ty delta lit b : fits ty lit -> moved delta lit b -> fits ty b.
Proof.
  intros [-> Hc] [->|[(v & E & ->)|(v & E & ->)]]; [done|..]; rewrite E in Hc; by split.
Qed.

Lemma fits_boundary ty op lit b :
  is_decimal (datum_type lit) = false -> fits ty lit -> adjust_boundary op lit = Ok (Some b) ->
  fits ty b.
Proof.
  intros Hd Hf Hb. destruct op; cbn in Hb; try discriminate Hb; inv_ok; simplify_eq; try done;
    by eapply fits_moved, shift_boundary_moved.
Qed.

Lemma fits_adjusted T f op lit rt d r adj :
  create_transform_function T = Ok f -> f d = Ok (Some r) -> fits rt r ->
  adjust_time_projection T op lit r = Some adj ->
  match adj with Single e => fits rt e | SetOf es => Forall (fits rt) es end.
Proof.
  intros Hf Hr Hfit Ha. pose proof (time_result_kind T f d r Hf Hr) as Hk.
  unfold adjust_time_projection in Ha.
  assert (forall n, match T with
                    | Transform.Day => r = datum_date n
                    | Transform.Year | Transform.Month => r = datum_int n
                    | _ => False
                    end ->
            fits rt (match T with Transform.Day => datum_date (wrapS 32 (n + 1))
                     | _ => datum_int (wrapS 32 (n + 1)) end)) as Hs.
  { destruct Hfit as [-> _]. intros n Hn. destruct T; try done; subst r; by split. }
  destruct T; try discriminate Ha; destruct Hk as [n ->]; cbn [datum_literal datum_int datum_date] in Ha;
    repeat (case_match; try discriminate Ha); injection Ha as <-; try (by apply Hs);
    apply set_from_iter_Forall, Forall_cons; (split; [done|]); apply Forall_singleton; by apply Hs.
Qed.

Lemma operator_kept op lit width op' :
  adjust_operator op lit width = Some op' ->
  PredicateOperator.is_binary op = true -> PredicateOperator.is_binary op' = true.
Proof. destruct op; cbn; repeat case_match; intros [= <-]; done. Qed.

Lemma project_set_fits T op f ty rt ds s :
  keeps_scale T ty = true -> create_transform_function T = Ok f ->
  result_type T (TPrimitive ty) = Ok rt -> Forall (fits (TPrimitive ty)) ds ->
  try_fold (project_set_step T op f) [] ds = Ok s -> Forall (fits rt) s.
Proof.
  intros Hk Hf Hrt Hds. assert (H0 : Forall (fits rt) []) by constructor. revert H0 s.
  generalize ([] : list Datum).
  induction Hds as [|d ds Hd _ IH]; intros acc Hacc s; cbn [try_fold]; [by intros [= <-]|].
  intros (acc' & Hs & H)%bind_Ok. apply (IH acc'); [|done].
  unfold project_set_step, transform_literal_result in Hs.
  apply bind_Ok in Hs as (r & (ro & Hr & ->%ok_or_Ok)%bind_Ok & [= <-]).
  pose proof (fits_result T f ty rt d r Hk Hd Hrt Hf Hr) as Hfr. apply set_insert_Forall; [|done].
  destruct (adjust_time_projection T op d r) as [[e|es]|] eqn:Ea; try done.
  apply set_insert_Forall; [done|]. by eapply (fits_adjusted T f op d rt d r (Single e)).
Qed.

Lemma project_leaf_fits T name ty rt q p :
  keeps_scale T ty = true -> literals_typed ty q -> well_formed q = true ->
  result_type T (TPrimitive ty) = Ok rt -> project T name q = Ok (Some p) ->
  on_partition name rt p.
Proof.
  intros Hk Hq Hw Hrt Hp. pose proof Hp as Hp0.
  unfold project in Hp. apply bind_Ok in Hp as (f & Hf & Hp).
  destruct (decide (T = Transform.Identity)) as [->|Hi].
  { cbn in Hrt. injection Hrt as <-. destruct q; try discriminate Hp; cbn in Hp; by injection Hp as <-. }
  destruct q as [| |l r|l r|q|op t|op t lit|op t ds]; try (by destruct T).
  - unfold project_unary in Hp. destruct T; try done; by injection Hp as <-.
  - cbn in Hq, Hw. apply (project_binary_cases T f) in Hp0 as [[Ho H]|(-> & r & Hr & ->)]; [..|done|done].
    + apply adjusted_binary_Ok in H as (Hcan & b & r & op' & Hb & Hr & Hop & ->).
      assert (Hd : is_decimal (datum_type lit) = false).
      { destruct Hq as [[= <-] _]. unfold can_transform, result_type in Hcan.
        destruct ty; try done; by destruct T. }
      pose proof (fits_boundary _ op lit b Hd Hq Hb) as Hfb.
      pose proof (fits_result T f ty rt b r Hk Hfb Hrt Hf Hr) as Hfr.
      pose proof (operator_kept _ _ _ _ Hop Hw) as Hw'.
      destruct (adjust_time_projection T op lit r) as [[e|es]|] eqn:Ea; [..|done].
      * split_and!; [done..|]. by eapply (fits_adjusted T f op lit rt b r (Single e)).
      * split_and!; [done..|]. by eapply (fits_adjusted T f op lit rt b r (SetOf es)).
    + split_and!; [done..|]. by eapply (fits_result T f ty rt lit r).
  - assert (project_set_expr T op ds PredicateOperator.In name f = Ok (Some p)) as Hs
      by (by destruct T).
    unfold project_set_expr in Hs. destruct (bool_decide_reflect (op = PredicateOperator.In)) as [->|];
      [|done]. cbn [negb orb] in Hs. destruct (existsb _ ds); [done|].
    apply bind_Ok in Hs as (s & Hs & [= <-]). split_and!; [done..|].
    by eapply (project_set_fits T _ f ty rt ds s).
Qed.
End projection.

(** ** The leaves of a projected filter *)

Section projected.
Context {V : ValueLib} {L : ValueLibLaws V} {TL : TransformLib} {TLL : TransformLibLaws TL}.
Context (fields : list NestedField).

Definition on_column (q : Predicate) : Prop :=
  exists f, f ∈ fields /\ field_required f = false /\ on_partition (field_name f) (field_type f) q.

Record comparisons (p : Predicate) : Prop := {
  co_well_formed : well_formed p = true;
  co_not_free : not_free p = true;
  co_leaves : leaves on_column p;
}.

Lemma comparisons_connectives l r :
  comparisons l -> comparisons r ->
  comparisons (predicate_and l r) /\ comparisons (predicate_or l r).
Proof.
  intros [L1 L2 L3] [R1 R2 R3]. apply predicate_and_or_closed; split; cbn;
    rewrite ?andb_true_iff; done.
Qed.

Lemma comparisons_leaf p :
  on_column p -> comparisons p.
Proof.
  intros Hp. pose proof Hp as (f & _ & _ & H).
  destruct p; try done; destruct H as (_ & H); [|destruct H as [H _]..]; by split.
Qed.

(** What a leaf of the filter needs, for the spec's fields on its column. *)
Definition leaf_projects (spec : PartitionSpec) (q : BoundPredicate) : Prop :=
  match q with
  | Unary _ t | Binary _ t _ | SetP _ t _ =>
      forall part, part ∈ spec_fields spec -> source_id part = field_id (ref_field t) ->
        exists f ty, f ∈ fields /\ field_name f = partition_name part /\ field_required f = false
          /\ field_type (ref_field t) = TPrimitive ty /\ literals_typed ty q
          /\ keeps_scale (partition_transform part) ty = true
          /\ result_type (partition_transform part) (TPrimitive ty) = Ok (field_type f)
  | _ => True
  end.

Lemma leaf_comparisons spec t q cached p cached' :
  on_term t q -> cache_ok spec cached -> well_formed q = true -> leaf_projects spec q ->
  inclusive_get_parts spec t q cached = Ok (p, cached') -> cache_ok spec cached' /\ comparisons p.
Proof using L TLL.
  intros Hq Hc Hw Hl (parts & c1 & H & Hf)%sr_bind_Ok.
  apply get_parts_for_field_id_Ok in H as [-> Hc1]; [|done].
  unfold sr_lift in Hf. destruct (try_fold _ _ _) as [p'|] eqn:Ef in Hf; [|done].
  injection Hf as -> ->. split; [done|].
  assert (forall part, part ∈ parts_of (spec_fields spec) (field_id (ref_field t)) ->
    forall p, project (partition_transform part) (partition_name part) q = Ok (Some p) -> comparisons p)
    as Hpart.
  { intros part [Hin Hs]%parts_of_elem p0 Hp. apply comparisons_leaf.
    assert (exists f ty, f ∈ fields /\ field_name f = partition_name part /\ field_required f = false
          /\ literals_typed ty q /\ keeps_scale (partition_transform part) ty = true
          /\ result_type (partition_transform part) (TPrimitive ty) = Ok (field_type f))
      as (f & ty & Hf & En & Hr & Ht & Hk & Hrt)
      by (destruct q; try done; cbn in Hq; subst;
          destruct (Hl part Hin Hs) as (f & ty & ? & ? & ? & _ & ? & ? & ?); by exists f, ty).
    exists f. rewrite En. split_and!; [done..|]. by eapply project_leaf_fits. }
  clear Hl Hc Hc1. assert (comparisons AlwaysTrue) as Ht by by split.
  revert Ht Ef. generalize (AlwaysTrue : Predicate). induction (parts_of _ _) as [|part ps IH];
    intros res Hres; cbn [try_fold]; [by intros [= <-]|].
  intros (res' & Hs & H)%bind_Ok. apply (IH ltac:(intros; eapply Hpart; [by apply list_elem_of_further|done]) res'); [|done].
  apply bind_Ok in Hs as (o & Ho & [= <-]). destruct o as [p0|]; [|done].
  apply Hpart in Ho; [|by apply list_elem_of_here]. destruct (is_always_true res); [done|].
  by apply comparisons_connectives.
Qed.

Lemma projected_comparisons spec q : forall cached p cached',
  cache_ok spec cached -> well_formed q = true -> leaves (leaf_projects spec) q ->
  inclusive_project spec q cached = Ok (p, cached') -> cache_ok spec cached' /\ comparisons p.
Proof using L TLL.
  unfold inclusive_project.
  induction q as [| |l IHl r IHr|l IHl r IHr|q IH|op t|op t d|op t ds];
    intros cached p cached' Hc Hw Hl Hv; cbn [visit] in Hv.
  - by injection Hv as <- <-.
  - by injection Hv as <- <-.
  - cbn in Hw, Hl. apply andb_true_iff in Hw as [Hwl Hwr]. destruct Hl as [Hll Hlr].
    apply sr_bind_Ok in Hv as (pl & c1 & Hvl & Hv). apply sr_bind_Ok in Hv as (pr & c2 & Hvr & Hv).
    injection Hv as <- <-. destruct (IHl _ _ _ Hc Hwl Hll Hvl) as [Hc1 ?].
    destruct (IHr _ _ _ Hc1 Hwr Hlr Hvr) as [Hc2 ?]. split; [done|]. by apply comparisons_connectives.
  - cbn in Hw, Hl. apply andb_true_iff in Hw as [Hwl Hwr]. destruct Hl as [Hll Hlr].
    apply sr_bind_Ok in Hv as (pl & c1 & Hvl & Hv). apply sr_bind_Ok in Hv as (pr & c2 & Hvr & Hv).
    injection Hv as <- <-. destruct (IHl _ _ _ Hc Hwl Hll Hvl) as [Hc1 ?].
    destruct (IHr _ _ _ Hc1 Hwr Hlr Hvr) as [Hc2 ?]. split; [done|]. by apply comparisons_connectives.
  - by apply sr_bind_Ok in Hv as (? & ? & _ & Hv).
  - apply (leaf_comparisons spec t (Unary op t) cached); try done. by destruct op.
  - apply (leaf_comparisons spec t (Binary op t d) cached); try done. by destruct op.
  - apply (leaf_comparisons spec t (SetP op t ds) cached); try done. by destruct op.
Qed.

(** Removing negations from a predicate without any keeps its leaves. *)
Lemma rewritten_comparisons p q : comparisons p -> rewrite_not p = Ok q -> comparisons q.
Proof.
  intros H. unfold rewrite_not. assert (exists q, visit RewriteNotVisitor p = Ok q /\ comparisons q)
    as (q' & -> & Hq) by
    (destruct H as [H1 H2 H3];
     induction p as [| |l IHl r IHr|l IHl r IHr|p IH|op t|op t d|op t ds]; cbn in *;
     rewrite ?andb_true_iff in *;
     try (destruct IHl as (l' & El & ?), IHr as (r' & Er & ?); try tauto; rewrite El, Er; cbn;
          eexists; split; [done|]; by apply comparisons_connectives);
     try done; try (by eexists; split; [done|]);
     try (by eexists; split; [by destruct op|]; apply comparisons_leaf)).
  by intros [= <-].
Qed.
End projected.

(** ** The partition filter of a spec *)

(** What a term reads in a row. *)
Definition row_value (row : Struct) (t : BoundReference) : option Datum :=
  match accessor_get (ref_accessor t) row with Ok v => v | Err _ => None end.
Definition row_has (row : Struct) : BoundPredicate -> Prop := reads row (row_value row).

Definition literals_compatible (q : BoundPredicate) : Prop :=
  match q with
  | Binary _ _ d => compatible (datum_type d) (datum_literal d) = true
  | SetP _ _ ds => Forall (fun d => compatible (datum_type d) (datum_literal d) = true) ds
  | _ => True
  end.

Section partition_filter.
Context {V : ValueLib} {L : ValueLibLaws V} {TL : TransformLib} {TLL : TransformLibLaws TL}.
Context {LC : Lowercase}.

(** A tuple of the spec's partition type. *)
Definition tuple_typed (spec : PartitionSpec) (schema : Schema) (tuple : Struct) : Prop :=
  forall i part, spec_fields spec !! i = Some part -> exists src ty p v,
    field_by_id schema (source_id part) = Some src /\ field_type src = TPrimitive ty
    /\ result_type (partition_transform part) (TPrimitive ty) = Ok (TPrimitive p)
    /\ transform_wf (partition_transform part) = true
    /\ tuple !! i = Some (LPrimitive <$> v).

(** At the position of each field on the column of a leaf the tuple of [row] has the
    transformed value, and the comparison is in the range in which projections are exact. *)
Definition leaf_in_tuple (spec : PartitionSpec) (row tuple : Struct) (q : BoundPredicate) : Prop :=
  match q with
  | Unary _ t | Binary _ t _ | SetP _ t _ =>
      forall i part ty p v,
        spec_fields spec !! i = Some part -> source_id part = field_id (ref_field t) ->
        field_type (ref_field t) = TPrimitive ty ->
        result_type (partition_transform part) (TPrimitive ty) = Ok (TPrimitive p) ->
        tuple !! i = Some (LPrimitive <$> v) ->
        keeps_scale (partition_transform part) ty = true
        /\ projectable (partition_transform part) (row_value row t) q
        /\ partition_value (partition_transform part) (row_value row t) (mkDatum p <$> v)
  | _ => True
  end.

Context (schema : Schema) (spec : PartitionSpec) (row tuple : Struct) (filter : BoundPredicate).
Context (fields : list NestedField) (pschema : Schema).
Hypothesis fields_of_spec : partition_type spec schema = Ok fields.
Hypothesis pschema_built :
  Schema.build (mkSchemaBuilder (PartitionSpecs.spec_id spec) fields [] ∅ None) = Ok pschema.
Hypothesis tuple_ok : tuple_typed spec schema tuple.
Hypothesis filter_typed : leaves (leaf_typed schema) filter.
Hypothesis filter_literals : leaves literals_compatible filter.
Hypothesis filter_in_tuple : leaves (leaf_in_tuple spec row tuple) filter.

Lemma field_of_part i part :
  spec_fields spec !! i = Some part -> forall src ty p,
  field_by_id schema (source_id part) = Some src -> field_type src = TPrimitive ty ->
  result_type (partition_transform part) (TPrimitive ty) = Ok (TPrimitive p) ->
  fields !! i = Some (mkField (partition_field_id part) (partition_name part) false (TPrimitive p)).
Proof using fields_of_spec.
  intros Hi src ty p Hs Ht Hr. apply mapR_Ok in fields_of_spec.
  destruct (Forall2_lookup_l _ _ _ _ _ fields_of_spec Hi) as (f & Hf & E).
  rewrite Hs in E. cbn in E. rewrite Ht, Hr in E. cbn in E. congruence.
Qed.

Lemma part_of_field i f :
  fields !! i = Some f -> exists part p v, spec_fields spec !! i = Some part
    /\ f = mkField (partition_field_id part) (partition_name part) false (TPrimitive p)
    /\ tuple !! i = Some (LPrimitive <$> v).
Proof using fields_of_spec tuple_ok.
  intros Hf. pose proof (proj1 (mapR_Ok _ _ _) fields_of_spec) as H2.
  destruct (Forall2_lookup_r _ _ _ _ _ H2 Hf) as (part & Hi & _).
  destruct (tuple_ok i part Hi) as (src & ty & p & v & Hs & Ht & Hr & _ & Htu).
  exists part, p, v. split_and!; [done| |done].
  pose proof (field_of_part i part Hi src ty p Hs Ht Hr). congruence.
Qed.

Lemma partition_fields_flat : flat fields.
Proof using fields_of_spec tuple_ok.
  apply Forall_lookup. intros i f (part & p & v & _ & -> & _)%part_of_field. by exists p.
Qed.

(** The value of a partition column in the tuple, by name. *)
Definition tuple_value (r : Reference) : option Datum :=
  match bind_reference r pschema true with Ok t => row_value tuple t | Err _ => None end.

Lemma tuple_value_at i part p v :
  spec_fields spec !! i = Some part ->
  fields !! i = Some (mkField (partition_field_id part) (partition_name part) false (TPrimitive p)) ->
  tuple !! i = Some (LPrimitive <$> v) ->
  tuple_value (mkReference (partition_name part)) = mkDatum p <$> v.
Proof using fields_of_spec pschema_built tuple_ok.
  intros Hi Hf Hv. unfold tuple_value.
  pose proof (bind_flat_name pschema _ pschema_built eq_refl partition_fields_flat i _ p Hf eq_refl) as E.
  cbn [field_name mkField] in E. rewrite E. unfold row_value. cbn. rewrite Hv. by destruct v.
Qed.

(** One leaf. *)
Lemma leaf_part t q part :
  on_term t q -> leaf_typed schema q -> literals_compatible q -> leaf_in_tuple spec row tuple q ->
  part ∈ spec_fields spec -> source_id part = field_id (ref_field t) ->
  (transform_wf (partition_transform part) = true
   /\ projectable (partition_transform part) (row_value row t) q
   /\ partition_value (partition_transform part) (row_value row t)
        (tuple_value (mkReference (partition_name part))))
  /\ exists f ty, f ∈ fields /\ field_name f = partition_name part /\ field_required f = false
       /\ field_type (ref_field t) = TPrimitive ty /\ literals_typed ty q
       /\ keeps_scale (partition_transform part) ty = true
       /\ result_type (partition_transform part) (TPrimitive ty) = Ok (field_type f).
Proof using fields_of_spec pschema_built tuple_ok.
  intros Hq Ht Hc Hl (i & Hi)%list_elem_of_lookup Hid.
  destruct (tuple_ok i part Hi) as (src & ty & p & v & Hs & Hty & Hr & Hw & Hv).
  assert (ref_field t = src) as Et.
  { rewrite Hid in Hs. destruct q; try done; cbn in Hq, Ht; subst;
      [destruct Ht as (f & ? & ? & _)|destruct Ht as [(f & ? & ? & _) _]..]; congruence. }
  assert (keeps_scale (partition_transform part) ty = true
    /\ projectable (partition_transform part) (row_value row t) q
    /\ partition_value (partition_transform part) (row_value row t) (mkDatum p <$> v)) as (Hk & Hpr & Hval)
    by (destruct q; try done; cbn in Hq; subst; by eapply Hl).
  pose proof (field_of_part i part Hi src ty p Hs Hty Hr) as Hf. split.
  { split_and!; [done..|]. by rewrite (tuple_value_at i part p v). }
  eexists _, ty. split; [by eapply list_elem_of_lookup_2|]. rewrite Et. split_and!; try done.
  destruct q as [| | | | |op u|op u d|op u ds]; try done; cbn in Hq, Ht, Hc |- *; subst u;
    destruct Ht as [_ Ht].
  - split; [|done]. congruence.
  - rewrite Forall_forall in Ht, Hc |- *. intros d Hd. split; [|by apply Hc].
    specialize (Ht d Hd). congruence.
Qed.

Lemma filter_partitioned :
  leaves (leaf_partitioned projectable spec (row_value row) tuple_value) filter
  /\ leaves (leaf_projects fields spec) filter.
Proof using All.
  pose proof (leaves_and _ _ _ (leaves_and _ _ _ filter_typed filter_literals) filter_in_tuple) as H.
  split; (eapply leaves_impl; [|exact H]); intros q [[Ht Hc] Hl];
    destruct q as [| | | | |op t|op t d|op t ds]; try done; intros part Hin Hid;
    eapply leaf_part in Hl as [H1 H2]; done.
Qed.

(** The projected filter compares columns of the tuple with literals of their types. *)
Lemma comparisons_fit p : leaves (on_column fields) p -> leaves (fits_schema pschema) p.
Proof using fields_of_spec pschema_built tuple_ok.
  apply leaves_impl. intros q (f & Hf & Hr & Hp).
  assert (forall t, bind_reference (mkReference (field_name f)) pschema true = Ok t -> ref_field t = f)
    as Hb.
  { intros t. apply list_elem_of_lookup in Hf as [i Hi].
    destruct (part_of_field i f Hi) as (part & p' & v & _ & -> & _).
    rewrite (bind_flat_name pschema _ pschema_built eq_refl partition_fields_flat i _ p' Hi eq_refl).
    by intros [= <-]. }
  destruct q; try done; cbn in Hp |- *; destruct Hp as (-> & Ho);
    [split; [done|]|destruct Ho as [? ?]; split; [done|]..]; intros t Ht%Hb; by rewrite Ht.
Qed.

(** Binding the projection gives a filter that is true on the tuple when the scan's filter is
    true on the row. *)
Lemma bound_projection_true projected rewritten pf :
  well_formed filter = true -> denote (row_value row) filter = Some true ->
  fst <$> inclusive_project spec filter ∅ = Ok projected ->
  rewrite_not projected = Ok rewritten -> bind rewritten pschema true = Ok pf ->
  eval_row pf tuple = Ok true.
Proof using All.
  intros Hw Hd ([p c] & Hp & <-)%fmap_Ok Hrw Hb. cbn in Hrw.
  destruct filter_partitioned as [Hpart Hproj].
  assert (cache_ok spec ∅) as Hc by apply map_Forall_empty.
  pose proof (inclusive_projection_implied spec ∅ filter p c (row_value row) tuple_value
                Hc Hw Hpart Hp Hd) as Htrue.
  destruct (projected_comparisons fields spec filter ∅ p c Hc Hw Hproj Hp) as [_ Hcomp].
  destruct (rewrite_spec p (co_well_formed _ _ Hcomp)) as (q & Hq & Hmean).
  rewrite Hrw in Hq. injection Hq as <-.
  destruct (rewritten_comparisons fields p rewritten Hcomp Hrw) as [Hw' Hn' Hl'].
  destruct (bind_exact pschema tuple_value rewritten pf Hn' (comparisons_fit _ Hl') Hb)
    as [Hden Hwf Hnf Hterms].
  rewrite (eval_row_denote tuple (row_value tuple)); [|done..|].
  - rewrite (Hden (row_value tuple)).
    + by rewrite (rw_denote _ _ Hmean), Htrue.
    + intros r t Ht. unfold tuple_value. by rewrite Ht.
  - unfold reads, terms in *. eapply leaves_impl; [|exact Hterms].
    assert (forall t, (exists r, bind_reference r pschema true = Ok t) ->
              accessor_get (ref_accessor t) tuple = Ok (row_value tuple t)) as Hread.
    { intros t [r Ht].
      destruct (bind_flat_inv pschema _ pschema_built eq_refl partition_fields_flat r t Ht)
        as (i & f & p' & Hi & _ & _ & ->).
      destruct (part_of_field i f Hi) as (part & p'' & v & _ & -> & Hv).
      unfold row_value. cbn. rewrite Hv. by destruct v. }
    intros u Hu. destruct u; try done; by apply Hread.
Qed.
End partition_filter.
