(* ===== verification/PlanSpec.v ===== *)
(** * A plan loses no row

    The steps of [plan_files] composed: the caches of partition filters and evaluators hold
    what would be computed, in whatever order entries are processed, and a data file with a
    row the filter is true on becomes a task. *)

From S2P Require Import PartitionSpecs.
From S2P Require Import Prelude Utf8 Values Schema Concrete DatumOrder Expr DataFile ExprEval Binding.
From S2P Require Import Transform ConcreteTime TransformSpec Project ProjectSpec Projection Metrics.
From S2P Require Import InclusiveMetrics ManifestEval DeleteIndex SortOrders TableMetadata ScanTask.
From S2P Require Import PartitionSchema ScanPlan ScanSpec.

(** ** Stateful maps *)

Lemma mapSR_invariant {S A B} (I : S -> Prop) (P : A -> Prop) (Q : A -> B -> Prop)
    (f : A -> SR S B) l s bs s' :
  (forall a s b s', P a -> I s -> f a s = Ok (b, s') -> I s' /\ Q a b) ->
  Forall P l -> I s -> mapSR f l s = Ok (bs, s') -> I s' /\ Forall2 Q l bs.
Proof.
  intros Hf Hl. revert s bs s'. induction Hl as [|a l Ha _ IH]; intros s bs s' Hs H; cbn [mapSR] in H.
  - injection H as <- <-. by split.
  - apply sr_bind_Ok in H as (b & s1 & H1 & H). apply sr_bind_Ok in H as (bs' & s2 & H2 & H).
    injection H as <- <-. destruct (Hf _ _ _ _ Ha Hs H1) as [Hs1 Hq].
    destruct (IH _ _ _ Hs1 H2) as [Hs2 Hqs]. split; [done|by constructor].
Qed.

Lemma sr_lift_Ok {S A} (r : result A) (s : S) a s' :
  sr_lift r s = Ok (a, s') <-> r = Ok a /\ s' = s.
Proof. unfold sr_lift. by destruct r; split; [intros [= <- <-]|intros [[= <-] ->]| |intros [? _]]. Qed.

Section plan.
Context {V : ValueLib} {L : ValueLibLaws V} {TL : TransformLib} {TLL : TransformLibLaws TL}.
Context {LC : Lowercase}.

(** ** Building the scan *)

Lemma bind_keeps_shape p schema cs b :
  well_formed p = true -> not_free p = true -> bind p schema cs = Ok b ->
  well_formed b = true /\ not_free b = true.
Proof.
  revert b; induction p as [| |l IHl r IHr|l IHl r IHr|p IH|op t|op t d|op t ds]; intros b Hw Hn;
    cbn [bind]; try discriminate Hn.
  - by intros [= <-].
  - by intros [= <-].
  - cbn in Hw, Hn. intros (bl & Hl & H)%bind_Ok. apply bind_Ok in H as (br & Hr & [= <-]). bool_to_prop.
    destruct (IHl bl), (IHr br); try done.
    split; [apply (bind_connectives_closed (fun b => well_formed b = true) bl br)|
            apply (bind_connectives_closed (fun b => not_free b = true) bl br)]; cbn;
      rewrite ?andb_true_iff; done.
  - cbn in Hw, Hn. intros (bl & Hl & H)%bind_Ok. apply bind_Ok in H as (br & Hr & [= <-]). bool_to_prop.
    destruct (IHl bl), (IHr br); try done.
    split; [apply (bind_connectives_closed (fun b => well_formed b = true) bl br)|
            apply (bind_connectives_closed (fun b => not_free b = true) bl br)]; cbn;
      rewrite ?andb_true_iff; done.
  - intros (u & _ & H)%bind_Ok. unfold bind_unary in H.
    destruct op, (field_required (ref_field u)), (is_floating_type (field_type (ref_field u))); inv_ok; done.
  - intros (u & _ & H)%bind_Ok. unfold bind_binary in H. apply bind_Ok in H as (d' & _ & H).
    cbn in Hw. destruct (datum_literal d'), op; inv_ok; done.
  - intros (u & _ & H)%bind_Ok. unfold bind_set in H. apply bind_Ok in H as (ds' & _ & H).
    destruct op; try done; destruct (set_from_iter ds') as [|? [|? ?]]; inv_ok; done.
Qed.

(** What the builder makes of a filter. *)
Record filtered_by (ctx : PlanContext) (p : Predicate) (filter : BoundPredicate) : Prop := {
  fb_predicate : predicate ctx = Some p;
  fb_bound : bind p (plan_schema ctx) true = Ok filter;
  fb_snapshot : snapshot_bound_predicate ctx = Some filter;
  fb_case : case_sensitive ctx = true;
  fb_well_formed : well_formed filter = true;
  fb_not_free : not_free filter = true;
  fb_typed : leaves (leaf_typed (plan_schema ctx)) filter;
}.

Lemma snapshot_schema_known metadata s schema :
  map_Forall (fun _ s => ids_consistent s) (schemas metadata) ->
  snapshot_schema s metadata = Ok schema -> ids_consistent schema.
Proof.
  intros H. unfold snapshot_schema, current_schema, schema_by_id.
  destruct (snapshot_schema_id s) as [id|]; [|set (id := current_schema_id metadata)];
    destruct (schemas metadata !! id) as [sc|] eqn:E; try done; intros [= <-]; by apply (H id).
Qed.

Lemma scan_build_filtered metadata builder p0 b ctx :
  map_Forall (fun _ s => ids_consistent s) (schemas metadata) ->
  well_formed p0 = true -> builder_case_sensitive builder = true ->
  with_filter builder p0 = Ok b -> scan_build metadata b = Ok (Some ctx) ->
  exists p filter, rewritten p0 p /\ filtered_by ctx p filter.
Proof.
  intros Hs Hw Hcs Hb H. destruct (rewrite_spec p0 Hw) as (p & Hp & Hr).
  unfold with_filter in Hb. rewrite Hp in Hb. injection Hb as <-. exists p.
  unfold scan_build in H. apply bind_Ok in H as ([s|] & _ & H); [|done].
  apply bind_Ok in H as (schema & Hschema & H). apply bind_Ok in H as (u & _ & H).
  apply bind_Ok in H as (ids & _ & H). cbn [scan_filter] in H.
  apply bind_Ok in H as (bound & Hbound & H). injection H as <-.
  apply fmap_Ok in Hbound as (filter & Hbind & <-). exists filter. split; [done|].
  destruct (bind_keeps_shape _ _ _ _ (rw_well_formed _ _ Hr) (rw_not_free _ _ Hr) Hbind).
  split; cbn; try done. eapply bind_leaves_typed; [|done]. by eapply snapshot_schema_known.
Qed.

(** ** The caches *)

Context (ctx : PlanContext) (p : Predicate) (filter : BoundPredicate).
Hypothesis filtered : filtered_by ctx p filter.

(** The partition filter of a spec, computed afresh. *)
Definition computed (spec_id : Z) (pf : BoundPredicate) : Prop :=
  exists c, partition_filter_get spec_id (table_metadata ctx) (plan_schema ctx) true filter empty_caches
            = Ok (pf, c).

Lemma computed_unique id pf pf' : computed id pf -> computed id pf' -> pf = pf'.
Proof. unfold computed. intros [c E] [c' E']. congruence. Qed.

Record caches_ok (c : PlanCaches) : Prop := {
  co_filter id pf : partition_filter_cache c !! id = Some pf -> computed id pf;
  co_manifest id ev : manifest_evaluator_cache c !! id = Some ev -> computed id (m_partition_filter ev);
  co_expression id ev : expression_evaluator_cache c !! id = Some ev -> computed id (partition_filter ev);
}.

Lemma empty_caches_ok : caches_ok empty_caches.
Proof. split; intros id x H; exfalso; by apply (lookup_empty_Some id x). Qed.

Lemma partition_filter_cached id c pf c' :
  caches_ok c ->
  partition_filter_get id (table_metadata ctx) (plan_schema ctx) true filter c = Ok (pf, c') ->
  caches_ok c' /\ computed id pf.
Proof.
  intros [H1 H2 H3]. unfold partition_filter_get at 1.
  destruct (partition_filter_cache c !! id) as [cached|] eqn:E.
  { intros [= <- <-]. split; [by split|by apply H1]. }
  intros H. assert (computed id pf) as Hc.
  { unfold computed, partition_filter_get. cbn [empty_caches partition_filter_cache].
    rewrite lookup_empty. inv_ok. simplify_eq. eexists.
    repeat match goal with E : _ = Ok _ |- _ => rewrite E; clear E; cbn [mbind result_bind] end.
    done. }
  split; [|done]. inv_ok. simplify_eq. split; cbn; [|done..].
  intros id' pf'. by intros [[<- <-]|[_ ?]]%lookup_insert_Some; [|apply H1].
Qed.

Lemma manifest_evaluator_cached id c pf ev c' :
  caches_ok c -> computed id pf -> manifest_evaluator_get id pf c = Ok (ev, c') ->
  caches_ok c' /\ ev = mkManifestEvaluator pf.
Proof.
  intros Hc Hpf. unfold manifest_evaluator_get.
  destruct (manifest_evaluator_cache c !! id) as [[pf']|] eqn:E; intros [= <- <-].
  - split; [done|]. f_equal. apply (computed_unique id); [by apply (co_manifest _ Hc) in E|done].
  - split; [|done]. destruct Hc as [H1 H2 H3]. split; cbn; [done| |done].
    intros id' ev. by intros [[<- <-]|[_ ?]]%lookup_insert_Some; [|apply H2].
Qed.

Lemma expression_evaluator_cached id c pf ev c' :
  caches_ok c -> computed id pf -> expression_evaluator_get id pf c = Ok (ev, c') ->
  caches_ok c' /\ ev = mkExpressionEvaluator pf.
Proof.
  intros Hc Hpf. unfold expression_evaluator_get.
  destruct (expression_evaluator_cache c !! id) as [[pf']|] eqn:E; intros [= <- <-].
  - split; [done|]. f_equal. apply (computed_unique id); [by apply (co_expression _ Hc) in E|done].
  - split; [|done]. destruct Hc as [H1 H2 H3]. split; cbn; [done|done|].
    intros id' ev. by intros [[<- <-]|[_ ?]]%lookup_insert_Some; [|apply H3].
Qed.

(** ** Manifests *)

(** What is known of a manifest's context that was kept. *)
Definition context_bound (mfc : ManifestFileContext) : Prop :=
  exists pf, computed (manifest_partition_spec_id (mfc_manifest_file mfc)) pf
    /\ mfc_bound_predicates mfc = Some (mkBoundPredicates pf filter).

Lemma manifest_context_step m c o c' :
  caches_ok c -> manifest_file_context ctx m c = Ok (o, c') ->
  caches_ok c' /\ exists pf, computed (manifest_partition_spec_id m) pf
    /\ let mfc := mkManifestFileContext m (Some (mkBoundPredicates pf filter)) in
       (o = None \/ o = Some mfc)
       /\ (manifest_eval (mkManifestEvaluator pf) m = Ok true -> o = Some mfc).
Proof using filtered.
  intros Hc. unfold manifest_file_context. rewrite (fb_predicate _ _ _ filtered).
  intros (pf & c1 & H1 & H)%sr_bind_Ok. unfold get_partition_filter in H1.
  rewrite (fb_predicate _ _ _ filtered), (fb_case _ _ _ filtered) in H1. cbn [ok_or] in H1.
  apply sr_bind_Ok in H1 as (p' & c2 & [[= <-] ->]%sr_lift_Ok & H1).
  apply sr_bind_Ok in H1 as (f' & c3 & [Hf ->]%sr_lift_Ok & H1).
  rewrite (fb_bound _ _ _ filtered) in Hf. injection Hf as <-.
  destruct (partition_filter_cached _ _ _ _ Hc H1) as [Hc1 Hpf].
  apply sr_bind_Ok in H as (ev & c4 & H2 & H).
  destruct (manifest_evaluator_cached _ _ _ _ _ Hc1 Hpf H2) as [Hc4 ->].
  apply sr_bind_Ok in H as (b & c5 & [Hb ->]%sr_lift_Ok & H). injection H as <- <-.
  split; [done|]. exists pf. split; [done|]. unfold create_manifest_file_context.
  rewrite (fb_snapshot _ _ _ filtered). split; [destruct b; auto|]. rewrite Hb. by intros [= ->].
Qed.

Lemma deletes_first_elem l m : m ∈ deletes_first l <-> m ∈ l.
Proof.
  unfold deletes_first. rewrite elem_of_app, !list_elem_of_In, !filter_In.
  destruct (is_deletes m); cbn; intuition congruence.
Qed.

Lemma manifest_contexts ms c mfcs c' :
  caches_ok c -> build_manifest_file_contexts ctx ms c = Ok (mfcs, c') ->
  caches_ok c' /\ Forall context_bound mfcs
  /\ forall m, m ∈ ms -> exists pf, computed (manifest_partition_spec_id m) pf
       /\ (manifest_eval (mkManifestEvaluator pf) m = Ok true ->
           mkManifestFileContext m (Some (mkBoundPredicates pf filter)) ∈ mfcs).
Proof using filtered.
  intros Hc (os & c1 & H & [= <- <-])%sr_bind_Ok.
  eapply (mapSR_invariant caches_ok (fun _ => True)) in H as [Hc1 H];
    [|intros m s b s' _; apply manifest_context_step|by apply Forall_true|done].
  split; [done|]. split.
  - apply Forall_forall. intros mfc (o & Ho & Hi)%list_elem_of_omap. cbn in Hi. subst o.
    apply list_elem_of_lookup in Ho as [i Hi].
    destruct (Forall2_lookup_r _ _ _ _ _ H Hi) as (m & _ & pf & Hpf & [|[= ->]] & _); [done|].
    by exists pf.
  - intros m Hm%deletes_first_elem. apply list_elem_of_lookup in Hm as [i Hi].
    destruct (Forall2_lookup_l _ _ _ _ _ H Hi) as (o & Ho & pf & Hpf & _ & Hk). exists pf.
    split; [done|]. intros ->%Hk. apply list_elem_of_omap. exists (Some (mkManifestFileContext m (Some (mkBoundPredicates pf filter)))).
    split; [by eapply list_elem_of_lookup_2|done].
Qed.

(** ** Entries *)

Definition entry_bound (mec : ManifestEntryContext) : Prop :=
  exists pf, computed (mec_partition_spec_id mec) pf
    /\ mec_bound_predicates mec = Some (mkBoundPredicates pf filter).

Lemma partition_match_step mec pf c b c' :
  caches_ok c -> computed (mec_partition_spec_id mec) pf ->
  partition_may_match mec (mkBoundPredicates pf filter) c = Ok (b, c') ->
  caches_ok c' /\ eval_row pf (partition (data_file (mec_manifest_entry mec))) = Ok b.
Proof.
  intros Hc Hpf (ev & c1 & H1 & [H ->]%sr_lift_Ok)%sr_bind_Ok.
  by destruct (expression_evaluator_cached _ _ _ _ _ Hc Hpf H1) as [? ->].
Qed.

Lemma delete_entry_step mec c o c' :
  entry_bound mec -> caches_ok c -> process_delete_manifest_entry mec c = Ok (o, c') ->
  caches_ok c' /\ True.
Proof.
  intros (pf & Hpf & Hb) Hc. unfold process_delete_manifest_entry. rewrite Hb.
  destruct (is_alive _); [|by intros [= <- <-]]. cbn [negb].
  destruct (bool_decide _); [done|]. intros (b & c1 & H & [= <- <-])%sr_bind_Ok.
  by destruct (partition_match_step _ _ _ _ _ Hc Hpf H).
Qed.

Lemma data_entry_step idx mec c o c' :
  entry_bound mec -> caches_ok c -> process_data_manifest_entry ctx idx mec c = Ok (o, c') ->
  caches_ok c' /\ forall pf, computed (mec_partition_spec_id mec) pf ->
    is_alive (mec_manifest_entry mec) = true ->
    eval_row pf (partition (data_file (mec_manifest_entry mec))) = Ok true ->
    inclusive_eval (data_file (mec_manifest_entry mec)) filter false = Ok true ->
    o = Some (into_file_scan_task ctx mec idx).
Proof.
  intros (pf & Hpf & Hb) Hc. unfold process_data_manifest_entry. rewrite Hb.
  destruct (is_alive _); [|by intros [= <- <-]]. cbn [negb].
  destruct (bool_decide _); [|done]. cbn [negb].
  intros (b & c1 & H1 & H)%sr_bind_Ok.
  destruct (partition_match_step _ _ _ _ _ Hc Hpf H1) as [Hc1 Hev].
  destruct b; cbn [negb] in H.
  - apply sr_bind_Ok in H as (b & c2 & [Hi ->]%sr_lift_Ok & H). injection H as <- <-.
    split; [done|]. cbn in Hi. intros pf' _ _ _ Ht. by replace b with true by congruence.
  - injection H as <- <-. split; [done|]. intros pf' Hpf' _ Ht _.
    rewrite (computed_unique _ _ _ Hpf' Hpf) in Ht. congruence.
Qed.

(** ** The plan *)

Context (load_manifest_list : string -> result (list ManifestFile))
        (load_entries : ManifestFile -> result (list ManifestEntry)).

Lemma streamed_entries mfcs ess :
  Forall context_bound mfcs -> mapR (stream_manifest_entries load_entries) mfcs = Ok ess ->
  Forall entry_bound (concat ess)
  /\ forall mfc entries e, mfc ∈ mfcs -> load_entries (mfc_manifest_file mfc) = Ok entries ->
       e ∈ entries ->
       mkManifestEntryContext (inherit_data e (mfc_manifest_file mfc)) (mfc_bound_predicates mfc)
         (manifest_partition_spec_id (mfc_manifest_file mfc)) ∈ concat ess.
Proof.
  intros Hb H%mapR_Ok. split.
  - apply Forall_concat, Forall_forall. intros es (i & Hi)%list_elem_of_lookup.
    destruct (Forall2_lookup_r _ _ _ _ _ H Hi) as (mfc & Hm & E).
    destruct (proj1 (Forall_lookup _ _) Hb _ _ Hm) as (pf & Hpf & Hbp).
    unfold stream_manifest_entries in E. inv_ok.
    apply Forall_fmap, Forall_true. intros e. by exists pf.
  - intros mfc entries e (i & Hi)%list_elem_of_lookup Hl He.
    destruct (Forall2_lookup_l _ _ _ _ _ H Hi) as (es & Hes & E).
    apply list_elem_of_In, in_concat. exists es.
    split; [by eapply list_elem_of_In, list_elem_of_lookup_2|].
    unfold stream_manifest_entries, load_manifest in E. rewrite Hl in E. cbn in E. injection E as <-.
    apply list_elem_of_In, list_elem_of_fmap. exists (inherit_data e (mfc_manifest_file mfc)).
    split; [done|]. apply list_elem_of_fmap. by exists e.
Qed.

Lemma plan_keeps_entry cache_disabled schedule tasks c' ms m entries e :
  (forall l, schedule l ≡ₚ l) ->
  plan_files load_manifest_list load_entries cache_disabled schedule ctx empty_caches
  = Ok (tasks, c') ->
  load_manifest_list (manifest_list (snapshot ctx)) = Ok ms -> m ∈ ms -> is_deletes m = false ->
  load_entries m = Ok entries -> e ∈ entries -> is_alive e = true ->
  (forall pf, computed (manifest_partition_spec_id m) pf ->
     manifest_eval (mkManifestEvaluator pf) m = Ok true
     /\ eval_row pf (partition (data_file e)) = Ok true) ->
  inclusive_eval (data_file e) filter false = Ok true ->
  exists task, task ∈ tasks /\ data_file_path task = file_path (data_file e)
    /\ task_predicate task = Some filter.
Proof using filtered.
  intros Hs H Hms Hm Hd He Hin Ha Hpf Hincl. unfold plan_files in H.
  apply sr_bind_Ok in H as (ms' & c0 & [Hl ->]%sr_lift_Ok & H).
  assert (ms' = ms) as ->.
  { unfold get_manifest_list in Hl. destruct cache_disabled; [congruence|].
    apply bind_Ok in Hl as (? & _ & ?). congruence. }
  apply sr_bind_Ok in H as (mfcs & c1 & H1 & H).
  destruct (manifest_contexts _ _ _ _ empty_caches_ok H1) as (Hc1 & Hb & Hk).
  apply sr_bind_Ok in H as (des & c2 & [Hdes ->]%sr_lift_Ok & H).
  assert (forall d, Forall context_bound
    (List.filter (fun c => eqb (is_deletes (mfc_manifest_file c)) d) mfcs)) as Hbd.
  { intros d. apply Forall_forall. intros x [Hx _]%list_elem_of_In%filter_In.
    by apply (proj1 (Forall_forall _ _) Hb), list_elem_of_In. }
  destruct (streamed_entries _ _ (Hbd true) Hdes) as [Hde _].
  apply sr_bind_Ok in H as (dfs & c3 & H3 & H).
  apply (mapSR_invariant caches_ok entry_bound (fun _ _ => True)) in H3 as [Hc3 _];
    [|intros; by eapply delete_entry_step|by rewrite Hs|done].
  apply sr_bind_Ok in H as (idx & c4 & [_ ->]%sr_lift_Ok & H).
  apply sr_bind_Ok in H as (es & c5 & [Hes ->]%sr_lift_Ok & H).
  destruct (streamed_entries _ _ (Hbd false) Hes) as [Hee Hall].
  apply sr_bind_Ok in H as (ts & c6 & H6 & H). injection H as <- <-.
  eapply (mapSR_invariant caches_ok entry_bound) in H6 as [_ H6];
    [|intros; by eapply data_entry_step|by rewrite Hs|done].
  destruct (Hk m Hm) as (pf & Hc & Hkept). destruct (Hpf pf Hc) as [Hme Hev].
  specialize (Hall (mkManifestFileContext m (Some (mkBoundPredicates pf filter))) entries e).
  cbn [mfc_manifest_file mfc_bound_predicates] in Hall.
  assert (mkManifestEntryContext (inherit_data e m) (Some (mkBoundPredicates pf filter))
            (manifest_partition_spec_id m) ∈ schedule (concat es)) as Hsch.
  { rewrite Hs. apply Hall; [|done..]. apply list_elem_of_In, filter_In. cbn. rewrite Hd.
    split; [by apply list_elem_of_In, Hkept|done]. }
  apply list_elem_of_lookup in Hsch as [i Hi].
  destruct (Forall2_lookup_l _ _ _ _ _ H6 Hi) as (o & Ho & Hq).
  rewrite (Hq pf Hc Ha Hev Hincl) in Ho. apply list_elem_of_lookup_2 in Ho.
  eexists. split; [apply list_elem_of_omap; by eexists|by split].
Qed.
End plan.

(** ** No row is lost *)

Section no_row_lost.
Context {V : ValueLib} {L : ValueLibLaws V} {TL : TransformLib} {TLL : TransformLibLaws TL}.
Context {LC : Lowercase}.

(** What a writer of the table promises of the data file of [e], one of the [entries] of
    manifest [m], that holds [rows], as far as the bound [filter] looks at it. *)
Record file_described (ctx : PlanContext) (filter : BoundPredicate) (m : ManifestFile)
    (entries : list ManifestEntry) (e : ManifestEntry) (rows : list Struct) (row : Struct) : Prop := {
  fd_count : record_count (data_file e) = Z.of_nat (length rows);
  fd_metrics : leaves (leaf_described (data_file e) rows) filter;
  fd_tuple : exists spec, partition_spec_by_id (table_metadata ctx) (manifest_partition_spec_id m) = Some spec
    /\ tuple_typed spec (plan_schema ctx) (partition (data_file e))
    /\ leaves (leaf_in_tuple spec row (partition (data_file e))) filter;
  fd_summaries pf summaries :
    computed ctx filter (manifest_partition_spec_id m) pf -> partitions m = Some summaries ->
    leaves (leaf_summarised summaries (partition <$> (data_file <$> entries))) pf;
}.

Lemma described_row_read f rows row q :
  row ∈ rows -> leaves (leaf_described f rows) q -> row_has row q /\ leaves literals_compatible q.
Proof.
  intros Hrow H. assert (forall ty d, literal_ok ty d -> compatible (datum_type d) (datum_literal d) = true)
    as Hlit by (by intros ty d ([[_ ?]%andb_true_iff _]%andb_true_iff & _)).
  assert (forall t ty values, describes f rows t ty values ->
            accessor_get (ref_accessor t) row = Ok (row_value row t)) as Hread.
  { intros t ty values [Hm _]. destruct (mapR_lookup _ _ _ _ Hm Hrow) as (v & Hv & _).
    unfold row_value. by rewrite Hv. }
  unfold row_has, reads, terms.
  split; (eapply leaves_impl; [|exact H]); intros [| | | | |op t|op t d|op t ds]; try done.
  - intros (ty & vs & ?); by eapply Hread.
  - intros (ty & vs & ? & _); by eapply Hread.
  - intros (ty & vs & ? & _); by eapply Hread.
  - intros (ty & vs & _ & Hd & _). by eapply Hlit.
  - intros (ty & vs & _ & Hds & _). eapply Forall_impl; [exact Hds|]. apply Hlit.
Qed.

(** The partition filter of the file's spec is true on its tuple. *)
Lemma computed_filter_true ctx p filter m entries e rows row pf :
  filtered_by ctx p filter -> file_described ctx filter m entries e rows row -> row ∈ rows ->
  eval_row filter row = Ok true -> computed ctx filter (manifest_partition_spec_id m) pf ->
  eval_row pf (partition (data_file e)) = Ok true.
Proof.
  intros F [_ Hm (spec & Hspec & Htyped & Hin) _] Hrow He [c Hpf].
  destruct (described_row_read _ _ _ _ Hrow Hm) as [Hread Hlit].
  rewrite (eval_row_denote row (row_value row)) in He;
    [|apply (fb_well_formed _ _ _ F)|apply (fb_not_free _ _ _ F)|done].
  assert (denote (row_value row) filter = Some true) as Hd
    by (destruct (denote (row_value row) filter) as [[]|]; cbn in He; congruence).
  unfold partition_filter_get in Hpf. rewrite Hspec in Hpf. cbn [empty_caches partition_filter_cache] in Hpf.
  rewrite lookup_empty in Hpf. cbn [ok_or mbind result_bind] in Hpf.
  apply bind_Ok in Hpf as (fields & Hfields & Hpf). apply bind_Ok in Hpf as (pschema & Hps & Hpf).
  apply bind_Ok in Hpf as ([pr c'] & Hpr & Hpf). apply bind_Ok in Hpf as (rw & Hrw & Hpf).
  apply bind_Ok in Hpf as (pf' & Hb & [= -> _]).
  apply (bound_projection_true (plan_schema ctx) spec row (partition (data_file e)) filter fields pschema
           Hfields Hps Htyped (fb_typed _ _ _ F) Hlit Hin pr rw pf (fb_well_formed _ _ _ F) Hd); try done.
  by rewrite Hpr.
Qed.

(** C1 A plan loses no row: when a table is scanned with a case-sensitive filter, a live data
    file with a row on which the bound filter is true becomes a task, whatever the other
    manifests and entries are, with the object cache or without, and in whatever order entries
    are processed.  The file and its manifest have to be described ([file_described]): the
    record count is the number of rows; the counts and bounds of each column of the filter are
    right for it; its columns hold no negative zero under a comparison and no NaN under an
    order, nor are bounds NaN; literals are of the types of the columns, and prefixes of text;
    the partition values are the transforms of the values of the row, in the range in which
    projections are exact (no truncated decimals, no timestamp whose day is skewed, no prefix
    of as many bytes as the width but fewer characters); and the partition summaries describe
    the tuples.  The field ids of each schema are consistent. *)
Theorem scan_loses_no_row metadata builder p0 b ctx filter load_manifest_list load_entries
    cache_disabled schedule tasks caches ms m entries e rows row :
  map_Forall (fun _ s => ids_consistent s) (schemas metadata) ->
  well_formed p0 = true -> builder_case_sensitive builder = true ->
  with_filter builder p0 = Ok b -> scan_build metadata b = Ok (Some ctx) ->
  snapshot_bound_predicate ctx = Some filter ->
  (forall l, schedule l ≡ₚ l) ->
  plan_files load_manifest_list load_entries cache_disabled schedule ctx empty_caches
  = Ok (tasks, caches) ->
  load_manifest_list (manifest_list (snapshot ctx)) = Ok ms -> m ∈ ms -> is_deletes m = false ->
  load_entries m = Ok entries -> e ∈ entries -> is_alive e = true ->
  file_described ctx filter m entries e rows row -> row ∈ rows -> eval_row filter row = Ok true ->
  exists task, task ∈ tasks /\ data_file_path task = file_path (data_file e)
    /\ task_predicate task = Some filter.
Proof.
  intros Hs Hw Hcs Hb Hctx Hfilter Hsch Hplan Hms Hm Hd He Hin Ha D Hrow Heval.
  destruct (scan_build_filtered _ _ _ _ _ Hs Hw Hcs Hb Hctx) as (p & f & _ & F).
  assert (f = filter) as -> by (pose proof (fb_snapshot _ _ _ F); congruence).
  eapply (plan_keeps_entry ctx p filter F load_manifest_list load_entries); try done.
  - intros pf Hpf. pose proof (computed_filter_true _ _ _ _ _ _ _ _ _ F D Hrow Heval Hpf) as Hpt.
    split; [|done]. apply (manifest_kept m (data_file <$> entries) (data_file e)); [|by intros; apply (fd_summaries _ _ _ _ _ _ _ D)|done].
    by apply list_elem_of_fmap_2.
  - apply (inclusive_keeps_file _ rows row); [apply D|done|apply D|done].
Qed.
End no_row_lost.

(** ** Witness

    A table of one [int] column "a" partitioned by [truncate\[10\]], with one file of the rows
    3 and 8, scanned with [NOT a >= 5]. *)

Section witness.
#[local] Existing Instance concrete_values.
#[local] Existing Instance concrete_time.
#[local] Existing Instance concrete_lowercase.

Definition ex_table_schema : Schema :=
  match Schema.build (mkSchemaBuilder 0 [mkField 1 "a" false (TPrimitive PrimitiveType.Int)] [] ∅ None) with
  | Ok s => s
  | Err _ => mkSchema [] 0 0 ∅ [] ∅ ∅ ∅ ∅ ∅
  end.
Definition ex_table_spec : PartitionSpec :=
  mkPartitionSpec 0 [mkPartitionField 1 1000 "a_trunc" (Transform.Truncate 10)].
Definition ex_snapshot : Snapshot :=
  mkSnapshot 1 None 1 0 "list.avro" (mkSummary Append ∅) (Some 0) None None.
Definition ex_table : TableMetadata :=
  mkTableMetadata V2 1 "s3://bucket/t" 1 1000 2 {[0 := ex_table_schema]} 0 {[0 := ex_table_spec]}
    ex_table_spec [] 1000 ∅ (Some 1) {[1 := ex_snapshot]} [] [] {[0 := unsorted_order]} 0 ∅ ∅ ∅ ∅ 0.

Definition ex_tuple : Struct := [Some (LPrimitive (PrimitiveLiteral.Int 0))].
Definition ex_entry : ManifestEntry := mkManifestEntry Added None None None (ex_file_in ex_tuple).
Definition ex_zero_summary : FieldSummary :=
  mkFieldSummary false None (Some [0; 0; 0; 0]) (Some [0; 0; 0; 0]).
Definition ex_data_manifest : ManifestFile :=
  mkManifestFile "m.avro" 10 0 MData 1 1 1 None None None None None None
    (Some [ex_zero_summary]) None None.

Definition ex_scan_filter : Predicate :=
  Not (ref_greater_than_or_equal_to (mkReference "a") (datum_int 5)).
Definition ex_scan : TableScanBuilder :=
  match with_filter scan_builder_new ex_scan_filter with Ok b => b | Err _ => scan_builder_new end.
Definition ex_context : PlanContext :=
  match scan_build ex_table ex_scan with
  | Ok (Some ctx) => ctx
  | _ => mkPlanContext ex_snapshot ex_table ex_table_schema true None None []
  end.
Definition ex_bound_filter : BoundPredicate := Binary PredicateOperator.LessThan ex_term (datum_int 5).
Definition ex_row : Struct := [Some (LPrimitive (PrimitiveLiteral.Int 3))].
Definition ex_lists (path : string) : result (list ManifestFile) := Ok [ex_data_manifest].
Definition ex_entries (m : ManifestFile) : result (list ManifestEntry) := Ok [ex_entry].
Definition ex_plan : result (list FileScanTask * PlanCaches) :=
  plan_files ex_lists ex_entries false id ex_context empty_caches.

Lemma ex_file_described :
  file_described ex_context ex_bound_filter ex_data_manifest [ex_entry] ex_entry ex_rows ex_row.
Proof.
  split.
  - done.
  - by apply ex_leaf_described.
  - exists ex_table_spec. split; [vm_compute; reflexivity|]. split.
    + intros [|i] part; [intros [= <-]|by intros ?]. exists (ref_field ex_term), PrimitiveType.Int, PrimitiveType.Int, (Some (PrimitiveLiteral.Int 0)).
      split_and!; vm_compute; reflexivity.
    + intros [|i] part ty p v; [intros [= <-]|by intros ?]. intros _ [= <-] [= <-] [= Hv].
      split; [done|]. split; [|destruct v as [v|]; [|done]; injection Hv as <-; by eexists].
      change (row_value ex_row ex_term) with (Some (datum_int 3)).
      repeat split; try done; intros b Hb; vm_compute in Hb; by simplify_eq.
  - intros pf ss [c Hc] [= <-]. vm_compute in Hc. injection Hc as <- _.
    exists PrimitiveType.Int, [Some (datum_int 0)]. split; [split; [done|]; split; [done|]|].
    + exists ex_zero_summary. split; [done|]. split.
      * intros x [[= ->]|[]%not_elem_of_nil]%elem_of_cons; done.
      * intros _ [?|[]%not_elem_of_nil]%elem_of_cons; done.
      * done.
      * exists (datum_int 0). do 3 (split; [done|]). split; [done|]. split; [done|]. right.
        intros x [[= ->]|[]%not_elem_of_nil]%elem_of_cons _; done.
      * exists (datum_int 0). do 3 (split; [done|]). split; [done|]. split; [done|]. right.
        intros x [[= ->]|[]%not_elem_of_nil]%elem_of_cons _; done.
    + split; [done|]. split; [|split; [intros _|done]];
        intros x [[= ->]|[]%not_elem_of_nil]%elem_of_cons; done.
Qed.

Lemma scan_loses_no_row_witness :
  exists tasks caches, ex_plan = Ok (tasks, caches)
    /\ exists task, task ∈ tasks /\ data_file_path task = "f.parquet"%string
         /\ task_predicate task = Some ex_bound_filter.
Proof.
  do 2 eexists. split; [vm_compute; reflexivity|].
  refine (scan_loses_no_row ex_table scan_builder_new ex_scan_filter ex_scan ex_context ex_bound_filter
            ex_lists ex_entries false id _ _ [ex_data_manifest] ex_data_manifest [ex_entry] ex_entry
            ex_rows ex_row _ eq_refl eq_refl _ _ _ _ _ eq_refl _ eq_refl eq_refl _ eq_refl ex_file_described _ _);
    [|vm_compute; reflexivity|vm_compute; reflexivity|vm_compute; reflexivity|done|vm_compute; reflexivity|by left|by left|by left|vm_compute; reflexivity].
  intros i s. cbn. intros [<- <-]%lookup_singleton_Some.
  apply (build_ids_consistent (mkSchemaBuilder 0 [mkField 1 "a" false (TPrimitive PrimitiveType.Int)] [] ∅ None)).
  reflexivity.
Defined.
End witness.
