(* ===== verification/Namespace.v ===== *)
(** * The namespaces of the memory catalog (catalog/mod.rs, catalog/memory/)

    The tree of namespaces that [MemoryCatalog] keeps behind its lock, every
    operation of the tree, and the catalog operations that only touch the tree.
    The specification is a flat map from namespace paths, which the tree refines.
    An operation that fails may still have changed the tree, so operations return
    the state with a failure too. *)

From S2P Require Import Prelude.

(** ** Identifiers *)

(** A [NamespaceIdent] is its vector of names. *)
Abbreviation NamespaceIdent := (list string).
Definition from_vec (names : list string) : result NamespaceIdent :=
  match names with [] => Err (Error DataInvalid) | _ => Ok names end.

Record TableIdent := mkTableIdent { table_namespace : NamespaceIdent; table_name : string }.

(** ** State *)

Inductive NamespaceState := mkNamespaceState {
  properties : gmap string string;
  namespaces : gmap string NamespaceState;
  table_metadata_locations : gmap string string;
}.
Definition default_state : NamespaceState := mkNamespaceState ∅ ∅ ∅.

(** Methods on [&mut self]: a result, and the state left behind in either case. *)
Definition ST (S A : Type) : Type := S -> result A * S.
#[global] Instance st_ret {S} : MRet (ST S) := fun A a s => (Ok a, s).
#[global] Instance st_bind {S} : MBind (ST S) := fun A B f m s =>
  match m s with (Ok a, s') => f a s' | (Err e, s') => (Err e, s') end.
#[global] Instance st_throw {S} : MThrow failure (ST S) := fun A e s => (Err e, s).
Definition st_lift {S A} (r : result A) : ST S A := fun s => (r, s).
Definition st_get {S} : ST S S := fun s => (Ok s, s).

Notation "'let*' x ':=' e 'in' k" := (mbind (M := ST _) (fun x => k) e)
  (at level 10, x name, e at level 100, k at level 200) : iceberg_scope.

(** ** Operations of the tree *)

Fixpoint get_namespace (self : NamespaceState) (namespace_ident : NamespaceIdent) :
    result NamespaceState :=
  match namespace_ident with
  | [] => Ok self
  | next_name :: rest =>
      match namespaces self !! next_name with
      | None => Err (Error NamespaceNotFound)
      | Some intermediate_namespace => get_namespace intermediate_namespace rest
      end
  end.

(** [f(self.get_mut_namespace(namespace_ident)?)]: run [f] on the nested state in place. *)
Fixpoint in_namespace {A} (namespace_ident : NamespaceIdent) (f : ST NamespaceState A) :
    ST NamespaceState A := fun self =>
  match namespace_ident with
  | [] => f self
  | next_name :: rest =>
      match namespaces self !! next_name with
      | None => (Err (Error NamespaceNotFound), self)
      | Some intermediate_namespace =>
          let '(r, s) := in_namespace rest f intermediate_namespace in
          (r, mkNamespaceState (properties self) (<[next_name := s]> (namespaces self))
                (table_metadata_locations self))
      end
  end.

(** [slice::split_last]. *)
Definition split_last {A} (l : list A) : option (A * list A) :=
  match rev l with [] => None | a :: r => Some (a, rev r) end.

(** [f(self.get_mut_parent_namespace_of(namespace_ident)?)], [f] being given the child's
    name. *)
Definition in_parent_namespace_of {A} (namespace_ident : NamespaceIdent)
    (f : string -> ST NamespaceState A) : ST NamespaceState A :=
  match split_last namespace_ident with
  | None => mthrow (Error DataInvalid)
  | Some (child_namespace_name, parent_name_parts) =>
      if bool_decide (parent_name_parts = []) then f child_namespace_name
      else
        let* parent_namespace_ident := st_lift (from_vec parent_name_parts) in
        in_namespace parent_namespace_ident (f child_namespace_name)
  end.

(** The keys of a map, in an unspecified order. *)
Definition keys {A} (m : gmap string A) : list string := (map_to_list m).*1.

Definition list_top_level_namespaces (self : NamespaceState) : list string :=
  keys (namespaces self).
Definition list_namespaces_under (self : NamespaceState) (namespace_ident : NamespaceIdent) :
    result (list string) :=
  let? n := get_namespace self namespace_ident in Ok (keys (namespaces n)).
Definition namespace_exists (self : NamespaceState) (namespace_ident : NamespaceIdent) : bool :=
  is_ok (get_namespace self namespace_ident).

Definition insert_new_namespace (namespace_ident : NamespaceIdent)
    (new_properties : gmap string string) : ST NamespaceState unit :=
  in_parent_namespace_of namespace_ident (fun child_namespace_name self =>
    match namespaces self !! child_namespace_name with
    | Some _ => (Err (Error NamespaceAlreadyExists), self)
    | None =>
        (Ok tt, mkNamespaceState (properties self)
                  (<[child_namespace_name := mkNamespaceState new_properties ∅ ∅]> (namespaces self))
                  (table_metadata_locations self))
    end).

Definition remove_existing_namespace (namespace_ident : NamespaceIdent) : ST NamespaceState unit :=
  in_parent_namespace_of namespace_ident (fun child_namespace_name self =>
    match namespaces self !! child_namespace_name with
    | None => (Err (Error NamespaceNotFound), self)
    | Some _ =>
        (Ok tt, mkNamespaceState (properties self) (delete child_namespace_name (namespaces self))
                  (table_metadata_locations self))
    end).

Definition get_properties (self : NamespaceState) (namespace_ident : NamespaceIdent) :
    result (gmap string string) :=
  let? n := get_namespace self namespace_ident in Ok (properties n).
Definition replace_properties (namespace_ident : NamespaceIdent)
    (new_properties : gmap string string) : ST NamespaceState unit :=
  in_namespace namespace_ident (fun self =>
    (Ok tt, mkNamespaceState new_properties (namespaces self) (table_metadata_locations self))).

Definition list_tables (self : NamespaceState) (namespace_ident : NamespaceIdent) :
    result (list string) :=
  let? n := get_namespace self namespace_ident in Ok (keys (table_metadata_locations n)).
Definition table_exists (self : NamespaceState) (table_ident : TableIdent) : result bool :=
  let? n := get_namespace self (table_namespace table_ident) in
  Ok (bool_decide (is_Some (table_metadata_locations n !! table_name table_ident))).
Definition get_existing_table_location (self : NamespaceState) (table_ident : TableIdent) :
    result string :=
  let? n := get_namespace self (table_namespace table_ident) in
  ok_or (table_metadata_locations n !! table_name table_ident) TableNotFound.

Definition with_tables (self : NamespaceState) (tables : gmap string string) : NamespaceState :=
  mkNamespaceState (properties self) (namespaces self) tables.

Definition insert_new_table (table_ident : TableIdent) (metadata_location : string) :
    ST NamespaceState unit :=
  in_namespace (table_namespace table_ident) (fun self =>
    match table_metadata_locations self !! table_name table_ident with
    | Some _ => (Err (Error TableAlreadyExists), self)
    | None =>
        (Ok tt, with_tables self
                  (<[table_name table_ident := metadata_location]> (table_metadata_locations self)))
    end).

Definition remove_existing_table (table_ident : TableIdent) : ST NamespaceState string :=
  in_namespace (table_namespace table_ident) (fun self =>
    match table_metadata_locations self !! table_name table_ident with
    | None => (Err (Error TableNotFound), self)
    | Some metadata_location =>
        (Ok metadata_location,
         with_tables self (delete (table_name table_ident) (table_metadata_locations self)))
    end).

(** The location is inserted before the table is known to exist.  A staged table is its
    identifier and its metadata location, which is an error when it has none. *)
Definition commit_table_update (table_ident : TableIdent) (metadata_location : option string) :
    ST NamespaceState unit :=
  in_namespace (table_namespace table_ident) (fun self =>
    match metadata_location with
    | None => (Err (Error DataInvalid), self)
    | Some location =>
        let old := table_metadata_locations self !! table_name table_ident in
        let self' := with_tables self
                       (<[table_name table_ident := location]> (table_metadata_locations self)) in
        match old with
        | Some _ => (Ok tt, self')
        | None => (Err (Error TableNotFound), self')
        end
    end).

(** ** The catalog's operations on the tree (MemoryCatalog)

    Each holds the lock for its whole duration, so operations do not interleave.  What the
    files hold is a parameter: [read_from] is the metadata at a location, [delete_file] the
    outcome of deleting it. *)

Section catalog.
Context {TableMetadata : Type}.
Variables (read_from : string -> result TableMetadata) (delete_file : string -> result unit).

Definition catalog_list_namespaces (self : NamespaceState) (maybe_parent : option NamespaceIdent) :
    result (list NamespaceIdent) :=
  match maybe_parent with
  | None => Ok ((fun name => [name]) <$> list_top_level_namespaces self)
  | Some parent =>
      let? names := list_namespaces_under self parent in
      mapR (fun name => from_vec (parent ++ [name])) names
  end.

Definition load_table_from_locked_state (self : NamespaceState) (table_ident : TableIdent) :
    result (TableMetadata * string) :=
  let? metadata_location := get_existing_table_location self table_ident in
  let? metadata := read_from metadata_location in
  Ok (metadata, metadata_location).

Definition drop_table (table_ident : TableIdent) : ST NamespaceState unit :=
  let* metadata_location := remove_existing_table table_ident in
  st_lift (delete_file metadata_location).

(** The changes are made on a clone, which replaces the state when all of them succeed. *)
Definition rename_table (src_table_ident dst_table_ident : TableIdent) : ST NamespaceState unit :=
  fun root_namespace_state =>
    let changed :=
      (let* metadata_location :=
         (fun s => (get_existing_table_location s src_table_ident, s)) in
       let* _removed := remove_existing_table src_table_ident in
       insert_new_table dst_table_ident metadata_location) root_namespace_state in
    match changed with
    | (Ok tt, new_root_namespace_state) => (Ok tt, new_root_namespace_state)
    | (Err e, _) => (Err e, root_namespace_state)
    end.

(** The table is inserted before its metadata is read. *)
Definition register_table (table_ident : TableIdent) (metadata_location : string) :
    ST NamespaceState (TableMetadata * string) :=
  let* _inserted := insert_new_table table_ident metadata_location in
  let* metadata := st_lift (read_from metadata_location) in
  mret (metadata, metadata_location).
End catalog.

(** ** Specification: a flat map from paths *)

(** What a namespace holds itself: its properties and the locations of its tables. *)
Abbreviation Entry := (gmap string string * gmap string string)%type.
Abbreviation Flat := (gmap (list string) Entry).

Inductive Op :=
| CreateNamespace (path : NamespaceIdent) (props : gmap string string)
| DropNamespace (path : NamespaceIdent)
| ReplaceProperties (path : NamespaceIdent) (props : gmap string string)
| InsertTable (t : TableIdent) (location : string)
| RemoveTable (t : TableIdent)
| RenameTable (src dst : TableIdent)
| CommitTable (t : TableIdent) (location : option string)
| GetProperties (path : NamespaceIdent)
| TableLocation (t : TableIdent).

Inductive Reply := Done | Location (location : string) | Properties (props : gmap string string).

(** The tree, one operation at a time. *)
Definition step (op : Op) : ST NamespaceState Reply :=
  match op with
  | CreateNamespace path props => let* _u := insert_new_namespace path props in mret Done
  | DropNamespace path => let* _u := remove_existing_namespace path in mret Done
  | ReplaceProperties path props => let* _u := replace_properties path props in mret Done
  | InsertTable t location => let* _u := insert_new_table t location in mret Done
  | RemoveTable t => let* location := remove_existing_table t in mret (Location location)
  | RenameTable src dst => let* _u := rename_table src dst in mret Done
  | CommitTable t location => let* _u := commit_table_update t location in mret Done
  | GetProperties path => fun s => (Properties <$> get_properties s path, s)
  | TableLocation t => fun s => (Location <$> get_existing_table_location s t, s)
  end.

(** The same on the flat map. *)
Definition spec_namespace {A} (path : NamespaceIdent) (f : Entry -> result A * Entry) :
    ST Flat A := fun m =>
  match m !! path with
  | None => (Err (Error NamespaceNotFound), m)
  | Some e => let '(r, e') := f e in (r, <[path := e']> m)
  end.

Definition spec_insert_table (name location : string) : Entry -> result Reply * Entry :=
  fun '(props, tables) =>
    match tables !! name with
    | Some _ => (Err (Error TableAlreadyExists), (props, tables))
    | None => (Ok Done, (props, <[name := location]> tables))
    end.
Definition spec_remove_table (name : string) : Entry -> result Reply * Entry :=
  fun '(props, tables) =>
    match tables !! name with
    | None => (Err (Error TableNotFound), (props, tables))
    | Some location => (Ok (Location location), (props, delete name tables))
    end.

Definition spec_step (op : Op) : ST Flat Reply := fun m =>
  match op with
  | CreateNamespace path props =>
      match split_last path with
      | None => (Err (Error DataInvalid), m)
      | Some (_, parent) =>
          match m !! parent, m !! path with
          | None, _ => (Err (Error NamespaceNotFound), m)
          | Some _, Some _ => (Err (Error NamespaceAlreadyExists), m)
          | Some _, None => (Ok Done, <[path := (props, ∅)]> m)
          end
      end
  | DropNamespace path =>
      match split_last path, m !! path with
      | None, _ => (Err (Error DataInvalid), m)
      | Some _, None => (Err (Error NamespaceNotFound), m)
      | Some _, Some _ => (Ok Done, filter (fun '(q, _) => ~ path `prefix_of` q) m)
      end
  | ReplaceProperties path props =>
      spec_namespace path (fun '(_, tables) => (Ok Done, (props, tables))) m
  | InsertTable t location =>
      spec_namespace (table_namespace t) (spec_insert_table (table_name t) location) m
  | RemoveTable t => spec_namespace (table_namespace t) (spec_remove_table (table_name t)) m
  | RenameTable src dst =>
      let moved :=
        (let* removed := spec_namespace (table_namespace src) (spec_remove_table (table_name src)) in
         match removed with
         | Location location =>
             spec_namespace (table_namespace dst) (spec_insert_table (table_name dst) location)
         | _ => mret Done
         end) m in
      match moved with (Ok r, m') => (Ok r, m') | (Err e, _) => (Err e, m) end
  | CommitTable t location =>
      spec_namespace (table_namespace t) (fun '(props, tables) =>
        match location with
        | None => (Err (Error DataInvalid), (props, tables))
        | Some l =>
            (match tables !! table_name t with
             | Some _ => Ok Done
             | None => Err (Error TableNotFound)
             end, (props, <[table_name t := l]> tables))
        end) m
  | GetProperties path => spec_namespace path (fun e => (Ok (Properties e.1), e)) m
  | TableLocation t =>
      spec_namespace (table_namespace t) (fun e =>
        (Location <$> ok_or (e.2 !! table_name t) TableNotFound, e)) m
  end.

Definition run {S} (exec : Op -> ST S Reply) : list Op -> S -> list (result Reply) * S :=
  fix run ops s :=
    match ops with
    | [] => ([], s)
    | op :: ops =>
        let '(r, s1) := exec op s in let '(rs, s2) := run ops s1 in (r :: rs, s2)
    end.

(** ** Theory *)

Definition entry (n : NamespaceState) : Entry := (properties n, table_metadata_locations n).

(** What the tree holds at a path. *)
Definition entry_at (s : NamespaceState) (path : list string) : option Entry :=
  match get_namespace s path with Ok n => Some (entry n) | Err _ => None end.

(** [m] is the tree, flattened. *)
Definition represents (s : NamespaceState) (m : Flat) : Prop :=
  forall path, m !! path = entry_at s path.

Lemma get_namespace_err s path e :
  get_namespace s path = Err e -> e = Error NamespaceNotFound.
Proof.
  revert s; induction path as [|a path IH]; intros s; cbn; [done|].
  destruct (namespaces s !! a); [apply IH|congruence].
Qed.

Lemma get_namespace_app s p q :
  get_namespace s (p ++ q) = let? n := get_namespace s p in get_namespace n q.
Proof.
  revert s; induction p as [|a p IH]; intros s; cbn; [done|].
  by destruct (namespaces s !! a).
Qed.

(** [in_namespace] runs [f] on the namespace at the path, and changes the tree below it
    only. *)
Lemma in_namespace_spec {A} path (f : ST NamespaceState A) s :
  match get_namespace s path with
  | Err e => in_namespace path f s = (Err e, s)
  | Ok n =>
      exists s', in_namespace path f s = ((f n).1, s')
        /\ (forall q, entry_at s' (path ++ q) = entry_at (f n).2 q)
        /\ (forall q, ~ path `prefix_of` q -> entry_at s' q = entry_at s q)
  end.
Proof.
  revert s; induction path as [|a path IH]; intros s; cbn [get_namespace in_namespace].
  - exists (f s).2. split; [by destruct (f s)|]. split; [done|].
    intros q Hq. destruct Hq. apply prefix_nil.
  - destruct (namespaces s !! a) as [n|] eqn:E; [|done]. specialize (IH n).
    destruct (get_namespace n path) as [m|e]; [|].
    + destruct IH as (s' & -> & Hin & Hout). eexists. split; [done|]. split.
      * intros q. unfold entry_at in *. cbn [app get_namespace namespaces].
        rewrite lookup_insert_eq. apply Hin.
      * intros [|b q] Hq; [done|]. unfold entry_at in *. cbn [get_namespace namespaces].
        destruct (decide (a = b)) as [->|Hne].
        -- rewrite lookup_insert_eq, E. apply Hout. intros H. apply Hq. by apply prefix_cons.
        -- by rewrite lookup_insert_ne.
    + rewrite IH. destruct s as [p ns t]. cbn in *. by rewrite insert_id.
Qed.

Lemma represents_lookup s m path :
  represents s m ->
  match get_namespace s path with
  | Ok n => m !! path = Some (entry n)
  | Err e => m !! path = None /\ e = Error NamespaceNotFound
  end.
Proof.
  intros H. rewrite (H path). unfold entry_at.
  destruct (get_namespace s path) eqn:E; [done|]. by apply get_namespace_err in E as ->.
Qed.

Lemma entry_at_app s path n q :
  get_namespace s path = Ok n -> entry_at s (path ++ q) = entry_at n q.
Proof. intros E. unfold entry_at. by rewrite get_namespace_app, E. Qed.

Lemma entry_at_child s a q :
  entry_at s (a :: q)
  = match namespaces s !! a with Some n => entry_at n q | None => None end.
Proof. unfold entry_at. cbn. by destruct (namespaces s !! a). Qed.

(** An update of one namespace that leaves its nested namespaces alone changes one entry. *)
Lemma update_entry {A} path (f : ST NamespaceState A) s n :
  get_namespace s path = Ok n -> namespaces (f n).2 = namespaces n ->
  exists s', in_namespace path f s = ((f n).1, s')
    /\ forall q, entry_at s' q = if decide (q = path) then Some (entry (f n).2) else entry_at s q.
Proof.
  intros E Hns. pose proof (in_namespace_spec path f s) as Hin. rewrite E in Hin.
  destruct Hin as (s' & -> & Hin & Hout). exists s'. split; [done|]. intros q.
  destruct (decide (q = path)) as [->|Hne].
  - rewrite <- (app_nil_r path). by rewrite Hin.
  - destruct (decide (path `prefix_of` q)) as [[[|a r] ->]|Hnp]; [..|by apply Hout].
    + by rewrite app_nil_r in Hne.
    + by rewrite Hin, (entry_at_app s path n), !entry_at_child, Hns.
Qed.

Lemma update_refines {A B} (conv : A -> B) path (f : ST NamespaceState A)
    (g : Entry -> result B * Entry) s m :
  represents s m ->
  (forall n, namespaces (f n).2 = namespaces n
     /\ g (entry n) = (conv <$> (f n).1, entry (f n).2)) ->
  let '(r, s') := in_namespace path f s in
  let '(r', m') := spec_namespace path g m in
  r' = conv <$> r /\ represents s' m'.
Proof.
  intros Hr Hfg. pose proof (represents_lookup s m path Hr) as Hl. unfold spec_namespace.
  destruct (get_namespace s path) as [n|e] eqn:E.
  - destruct (Hfg n) as [Hns Hg]. destruct (update_entry path f s n E Hns) as (s' & -> & Hs').
    rewrite Hl, Hg. split; [done|]. intros q. rewrite Hs'. destruct (decide (q = path)) as [->|Hne].
    + by rewrite lookup_insert_eq.
    + by rewrite lookup_insert_ne.
  - pose proof (in_namespace_spec path f s) as Hin. rewrite E in Hin. rewrite Hin.
    destruct Hl as [-> ->]. done.
Qed.

Lemma split_last_snoc {A} (l : list A) :
  match split_last l with None => l = [] | Some (a, parent) => l = parent ++ [a] end.
Proof.
  unfold split_last. destruct (rev l) as [|a r] eqn:E; apply (f_equal (@rev A)) in E;
    rewrite rev_involutive in E; [done|]. by rewrite E.
Qed.

Lemma in_parent_snoc {A} path a parent (f : string -> ST NamespaceState A) s :
  split_last path = Some (a, parent) ->
  in_parent_namespace_of path f s = in_namespace parent (f a) s.
Proof.
  intros E. unfold in_parent_namespace_of. rewrite E.
  destruct parent; by case_bool_decide.
Qed.

Lemma prefix_snoc_cases (p q : list string) a :
  p `prefix_of` q ->
  q = p \/ (exists b q', q = p ++ b :: q' /\ (b = a <-> (p ++ [a]) `prefix_of` q)).
Proof.
  intros [[|b q'] ->]; [left; by rewrite app_nil_r|]. right. exists b, q'. split; [done|].
  split.
  - intros ->. exists q'. by rewrite <- app_assoc.
  - intros [r E]. rewrite <- app_assoc in E. apply app_inv_head in E. by injection E.
Qed.

(** Changing one child of the namespace at [parent]: entries outside the child stay. *)
Lemma change_child_spec parent a (f : ST NamespaceState unit) s n c :
  get_namespace s parent = Ok n ->
  f n = (Ok tt, mkNamespaceState (properties n) (partial_alter (fun _ => c) a (namespaces n))
                  (table_metadata_locations n)) ->
  exists s', in_namespace parent f s = (Ok tt, s')
    /\ forall q, entry_at s' q
        = if decide ((parent ++ [a]) `prefix_of` q)
          then match c with Some n' => entry_at n' (drop (length (parent ++ [a])) q) | None => None end
          else entry_at s q.
Proof.
  intros E Hf. pose proof (in_namespace_spec parent f s) as Hin. rewrite E, Hf in Hin.
  destruct Hin as (s' & Es & Hin & Hout). exists s'. split; [done|]. intros q.
  destruct (decide (parent `prefix_of` q)) as [Hp|Hnp].
  - destruct (prefix_snoc_cases parent q a Hp) as [->|(b & q' & -> & Hb)].
    + rewrite decide_False.
      * rewrite <- (app_nil_r parent) at 1. rewrite Hin. unfold entry_at. by rewrite E.
      * intros [r Er%(f_equal length)]. rewrite !length_app in Er. cbn in Er. lia.
    + rewrite Hin, entry_at_child. cbn [snd namespaces].
      destruct (decide (b = a)) as [->|Hne].
      * rewrite decide_True by tauto. rewrite lookup_partial_alter_eq.
        rewrite length_app, cons_middle, (assoc_L (++)), <- length_app, drop_app_length. done.
      * rewrite decide_False by tauto. rewrite lookup_partial_alter_ne by done.
        unfold entry_at. rewrite get_namespace_app, E. cbn. by destruct (namespaces n !! b).
  - rewrite Hout by done. rewrite decide_False; [done|]. intros H. apply Hnp.
    eapply prefix_app_l. done.
Qed.

(** [r] and [s'], what an operation on the tree did, is what [spec] does on the map. *)
Definition agrees {A} (out : result A * NamespaceState) (spec : result A * Flat) : Prop :=
  out.1 = spec.1 /\ represents out.2 spec.2.

(** A failing update that does not change the namespace changes nothing. *)
Lemma unchanged_spec {A} path (f : ST NamespaceState A) s n e :
  get_namespace s path = Ok n -> f n = (Err e, n) ->
  exists s', in_namespace path f s = (Err e, s') /\ forall q, entry_at s' q = entry_at s q.
Proof.
  intros E Ef. destruct (update_entry path f s n E) as (s' & -> & Hs'); rewrite Ef in *; [done|].
  exists s'. split; [done|]. intros q. rewrite Hs'. destruct (decide (q = path)) as [->|]; [|done].
  unfold entry_at. by rewrite E.
Qed.

Lemma create_refines path props s m :
  represents s m -> agrees (step (CreateNamespace path props) s) (spec_step (CreateNamespace path props) m).
Proof.
  intros Hr. cbn [step spec_step]. unfold insert_new_namespace, mbind, st_bind.
  pose proof (split_last_snoc path) as Hsplit.
  destruct (split_last path) as [[a parent]|] eqn:Es; [|].
  - rewrite (in_parent_snoc _ a parent) by done.
    set (f := fun self => _).
    pose proof (represents_lookup s m parent Hr) as Hl.
    pose proof (in_namespace_spec parent f s) as Hin.
    destruct (get_namespace s parent) as [n|e] eqn:E.
    2: { rewrite Hin. by destruct Hl as [-> ->]. }
    clear Hin.
    rewrite Hl. assert (m !! path = match namespaces n !! a with Some c => Some (entry c) | None => None end) as ->.
    { rewrite (Hr path), Hsplit, (entry_at_app s parent n) by done. rewrite entry_at_child.
      by destruct (namespaces n !! a). }
    destruct (namespaces n !! a) as [c|] eqn:Ea.
    + destruct (unchanged_spec parent f s n (Error NamespaceAlreadyExists) E) as (s' & -> & Hs');
        [unfold f; by rewrite Ea|]. split; [done|]. intros q. cbn [snd]. by rewrite Hs'.
    + destruct (change_child_spec parent a f s n (Some (mkNamespaceState props ∅ ∅)) E) as (s' & -> & Hs').
      { unfold f. by rewrite Ea. }
      split; [done|]. intros q. cbn [snd]. rewrite Hs', <- Hsplit.
      destruct (decide (path `prefix_of` q)) as [[r ->]|Hnp].
      * rewrite drop_app_length. destruct r as [|b r].
        -- by rewrite app_nil_r, lookup_insert_eq.
        -- rewrite lookup_insert_ne
             by (intros Hq; apply (f_equal length) in Hq; rewrite length_app in Hq; cbn in Hq; lia).
           rewrite (Hr _), Hsplit, <- (assoc_L (++)), (entry_at_app s parent n) by done.
           cbn [app]. by rewrite entry_at_child, Ea.
      * rewrite lookup_insert_ne by (intros ->; by destruct Hnp). apply Hr.
  - unfold in_parent_namespace_of. rewrite Es. done.
Qed.

Lemma drop_refines path s m :
  represents s m -> agrees (step (DropNamespace path) s) (spec_step (DropNamespace path) m).
Proof.
  intros Hr. cbn [step spec_step]. unfold remove_existing_namespace, mbind, st_bind.
  pose proof (split_last_snoc path) as Hsplit.
  destruct (split_last path) as [[a parent]|] eqn:Es; [|].
  - rewrite (in_parent_snoc _ a parent) by done.
    set (f := fun self => _).
    pose proof (represents_lookup s m parent Hr) as Hl.
    pose proof (in_namespace_spec parent f s) as Hin.
    assert (m !! path = match get_namespace s parent with
              | Ok n => match namespaces n !! a with Some c => Some (entry c) | None => None end
              | Err _ => None end) as ->.
    { rewrite (Hr path), Hsplit. unfold entry_at. rewrite get_namespace_app.
      destruct (get_namespace s parent) as [n|]; [|done]. cbn. by destruct (namespaces n !! a). }
    destruct (get_namespace s parent) as [n|e] eqn:E.
    2: { rewrite Hin. by destruct Hl as [_ ->]. }
    destruct (namespaces n !! a) as [c|] eqn:Ea.
    + destruct (change_child_spec parent a f s n None E) as (s' & -> & Hs').
      { unfold f. by rewrite Ea. }
      split; [done|]. intros q. cbn [snd]. rewrite Hs', <- Hsplit.
      destruct (decide (path `prefix_of` q)) as [Hp|Hnp].
      * apply map_lookup_filter_None_2. right. intros e _ Hn. by apply Hn.
      * rewrite <- (Hr q). destruct (m !! q) as [e|] eqn:Eq.
        -- by apply map_lookup_filter_Some_2.
        -- apply map_lookup_filter_None_2. by left.
    + destruct (unchanged_spec parent f s n (Error NamespaceNotFound) E) as (s' & -> & Hs');
        [unfold f; by rewrite Ea|]. split; [done|]. intros q. cbn [snd]. by rewrite Hs'.
  - unfold in_parent_namespace_of. rewrite Es. done.
Qed.

(** An operation made of one update and a fixed conversion of its result. *)
Lemma step_update_refines {A} (conv : A -> Reply) path (f : ST NamespaceState A)
    (g : Entry -> result Reply * Entry) s m :
  represents s m ->
  (forall n, namespaces (f n).2 = namespaces n /\ g (entry n) = (conv <$> (f n).1, entry (f n).2)) ->
  agrees ((let* a := in_namespace path f in mret (conv a)) s) (spec_namespace path g m).
Proof.
  intros Hr Hfg. pose proof (update_refines conv path f g s m Hr Hfg) as H.
  unfold mbind, st_bind. destruct (in_namespace path f s) as [[a|e] s'], (spec_namespace path g m);
    destruct H as [-> H]; by split.
Qed.

Lemma query_refines {A} (conv : A -> Reply) path (query : NamespaceState -> result A)
    (g : Entry -> result A) s m :
  represents s m -> (forall n, query n = g (entry n)) ->
  agrees (conv <$> (let? n := get_namespace s path in query n), s)
    (spec_namespace path (fun e => (conv <$> g e, e)) m).
Proof.
  intros Hr Hq. pose proof (represents_lookup s m path Hr) as Hl. unfold spec_namespace.
  destruct (get_namespace s path) as [n|e]; cbn.
  - rewrite Hl, Hq. split; [done|]. cbn. by rewrite insert_id.
  - by destruct Hl as [-> ->].
Qed.

Lemma remove_table_refines t s m :
  represents s m ->
  agrees (step (RemoveTable t) s)
    (spec_namespace (table_namespace t) (spec_remove_table (table_name t)) m).
Proof.
  intros Hr. apply step_update_refines; [done|]. intros n. unfold spec_remove_table, entry.
  by destruct (table_metadata_locations n !! table_name t).
Qed.
Lemma insert_table_refines t location s m :
  represents s m ->
  agrees (step (InsertTable t location) s)
    (spec_namespace (table_namespace t) (spec_insert_table (table_name t) location) m).
Proof.
  intros Hr. apply (step_update_refines (fun _ => Done)); [done|]. intros n.
  unfold spec_insert_table, entry. by destruct (table_metadata_locations n !! table_name t).
Qed.

(** A location is read off the entry of its namespace. *)
Lemma location_entry s t :
  get_existing_table_location s t
  = match entry_at s (table_namespace t) with
    | Some e => ok_or (e.2 !! table_name t) TableNotFound
    | None => Err (Error NamespaceNotFound)
    end.
Proof.
  unfold get_existing_table_location, entry_at.
  destruct (get_namespace s (table_namespace t)) as [n|e] eqn:E; [done|].
  by apply get_namespace_err in E as ->.
Qed.

Lemma table_ident_eq (t u : TableIdent) :
  table_namespace u = table_namespace t -> table_name u = table_name t -> u = t.
Proof. destruct t, u; cbn; congruence. Qed.

#[global] Instance TableIdent_eq_dec : EqDecision TableIdent.
Proof. solve_decision. Defined.

(** What removing and inserting a table do to every location. *)
Lemma remove_location t s l s' :
  remove_existing_table t s = (Ok l, s') ->
  forall u, get_existing_table_location s' u
    = if decide (u = t) then Err (Error TableNotFound) else get_existing_table_location s u.
Proof.
  unfold remove_existing_table. set (f := fun self => _). intros H u. rewrite !location_entry.
  pose proof (in_namespace_spec (table_namespace t) f s) as Hin.
  destruct (get_namespace s (table_namespace t)) as [n|e] eqn:E; [|rewrite Hin in H; done].
  destruct (update_entry (table_namespace t) f s n E) as (s1 & E1 & Hs1);
    [unfold f; by destruct (table_metadata_locations n !! _)|].
  rewrite H in E1. injection E1 as E1 <-. rewrite Hs1. clear Hs1 Hin H.
  destruct (table_metadata_locations n !! table_name t) eqn:Et; unfold f in E1; rewrite Et in E1; [|done].
  unfold f. rewrite Et. cbn [snd].
  destruct (decide (u = t)) as [->|Hne].
  - rewrite decide_True by done. cbn. by rewrite lookup_delete_eq.
  - destruct (decide (table_namespace u = table_namespace t)) as [Hns|]; [|done].
    rewrite Hns. unfold entry_at. rewrite E. cbn.
    rewrite lookup_delete_ne; [done|]. intros Hn. apply Hne. by apply table_ident_eq.
Qed.

Lemma insert_location t l s s' :
  insert_new_table t l s = (Ok tt, s') ->
  forall u, get_existing_table_location s' u
    = if decide (u = t) then Ok l else get_existing_table_location s u.
Proof.
  unfold insert_new_table. set (f := fun self => _). intros H u. rewrite !location_entry.
  pose proof (in_namespace_spec (table_namespace t) f s) as Hin.
  destruct (get_namespace s (table_namespace t)) as [n|e] eqn:E; [|rewrite Hin in H; done].
  destruct (update_entry (table_namespace t) f s n E) as (s1 & E1 & Hs1);
    [unfold f; by destruct (table_metadata_locations n !! _)|].
  rewrite H in E1. injection E1 as E1 <-. rewrite Hs1. clear Hs1 Hin H.
  destruct (table_metadata_locations n !! table_name t) eqn:Et; unfold f in E1; rewrite Et in E1; [done|].
  unfold f. rewrite Et. cbn [snd].
  destruct (decide (u = t)) as [->|Hne].
  - rewrite decide_True by done. cbn. by rewrite lookup_insert_eq.
  - destruct (decide (table_namespace u = table_namespace t)) as [Hns|]; [|done].
    rewrite Hns. unfold entry_at. rewrite E. cbn.
    rewrite lookup_insert_ne; [done|]. intros Hn. apply Hne. by apply table_ident_eq.
Qed.

(** Committing to a table that exists succeeds, and moves its location only. *)
Lemma commit_location t l s old :
  get_existing_table_location s t = Ok old ->
  exists s', commit_table_update t (Some l) s = (Ok tt, s')
    /\ forall u, get_existing_table_location s' u
         = if decide (u = t) then Ok l else get_existing_table_location s u.
Proof.
  intros Hold. unfold commit_table_update.
  match goal with |- context [in_namespace _ ?g s] => set (f := g) end. rewrite location_entry in Hold.
  unfold entry_at in Hold.
  destruct (get_namespace s (table_namespace t)) as [n|e] eqn:E; [|done]. cbn in Hold.
  destruct (update_entry (table_namespace t) f s n E) as (s1 & -> & Hs1);
    [unfold f; by destruct (table_metadata_locations n !! _)|].
  destruct (table_metadata_locations n !! table_name t) eqn:Et; [|done].
  exists s1. unfold f in *. rewrite Et in *. split; [done|]. intros u. rewrite !location_entry, Hs1. cbn [snd].
  destruct (decide (u = t)) as [->|Hne].
  - rewrite decide_True by done. cbn. by rewrite lookup_insert_eq.
  - destruct (decide (table_namespace u = table_namespace t)) as [Hns|]; [|done].
    rewrite Hns. unfold entry_at. rewrite E. cbn.
    rewrite lookup_insert_ne; [done|]. intros Hn. apply Hne. by apply table_ident_eq.
Qed.

(** An insertion that fails changes nothing. *)
Lemma insert_fails t l s e s' :
  insert_new_table t l s = (Err e, s') -> forall path, entry_at s' path = entry_at s path.
Proof.
  unfold insert_new_table. set (f := fun self => _). intros H path.
  pose proof (in_namespace_spec (table_namespace t) f s) as Hin.
  destruct (get_namespace s (table_namespace t)) as [n|e'] eqn:E; [|rewrite H in Hin; by injection Hin as _ ->].
  destruct (update_entry (table_namespace t) f s n E) as (s1 & E1 & Hs1);
    [unfold f; by destruct (table_metadata_locations n !! _)|].
  rewrite H in E1. injection E1 as E1 <-. rewrite Hs1.
  destruct (table_metadata_locations n !! table_name t) eqn:Et; unfold f in *; rewrite Et in *; [|done].
  destruct (decide (path = table_namespace t)) as [->|]; [|done]. unfold entry_at. by rewrite E.
Qed.

(** Removing a table returns the location that looking it up returns. *)
Lemma remove_returns_location t s :
  (remove_existing_table t s).1 = get_existing_table_location s t.
Proof.
  unfold remove_existing_table, get_existing_table_location.
  match goal with |- (in_namespace ?p ?f s).1 = _ => pose proof (in_namespace_spec p f s) as H end.
  destruct (get_namespace s (table_namespace t)) as [n|e]; [|by rewrite H].
  destruct H as (s' & -> & _ & _). cbn.
  by destruct (table_metadata_locations n !! table_name t).
Qed.

Lemma rename_refines src dst s m :
  represents s m -> agrees (step (RenameTable src dst) s) (spec_step (RenameTable src dst) m).
Proof.
  intros Hr. pose proof (remove_table_refines src s m Hr) as [Hrem Hr1].
  pose proof (remove_returns_location src s) as Hloc.
  cbn [step spec_step] in *. unfold rename_table, mbind, st_bind in *.
  destruct (spec_namespace (table_namespace src) (spec_remove_table (table_name src)) m) as [r1 m1].
  destruct (remove_existing_table src s) as [[l|e] s1]; cbn in Hrem, Hr1, Hloc; subst r1;
    rewrite <- Hloc; [|done].
  pose proof (insert_table_refines dst l s1 m1 Hr1) as [Hins Hr2].
  cbn [step] in Hins, Hr2. unfold mbind, st_bind in Hins, Hr2.
  destruct (spec_namespace (table_namespace dst) _ m1) as [r2 m2].
  destruct (insert_new_table dst l s1) as [[[]|e] s2]; cbn in Hins, Hr2; by subst r2.
Qed.

Lemma step_refines op s m : represents s m -> agrees (step op s) (spec_step op m).
Proof.
  intros Hr. destruct op.
  - by apply create_refines.
  - by apply drop_refines.
  - apply (step_update_refines (fun _ => Done)); [done|]. by intros n.
  - by apply insert_table_refines.
  - by apply remove_table_refines.
  - by apply rename_refines.
  - apply (step_update_refines (fun _ => Done)); [done|]. intros n.
    destruct location as [l|]; [|done]. unfold entry.
    by destruct (table_metadata_locations n !! table_name t).
  - apply (query_refines Properties path (fun n => Ok (properties n)) (fun e => Ok e.1)); [done|].
    by intros n.
  - apply (query_refines Location (table_namespace t)
             (fun n => ok_or (table_metadata_locations n !! table_name t) TableNotFound)
             (fun e => ok_or (e.2 !! table_name t) TableNotFound)); [done|].
    by intros n.
Qed.

Lemma default_represents : represents default_state {[ [] := (∅, ∅) ]}.
Proof.
  intros [|a path]; [done|]. rewrite lookup_singleton_ne by done. by rewrite entry_at_child.
Qed.

(** ** Properties *)

(** C24 From the empty catalog, any sequence of operations on the namespace tree gives the
    replies, errors included, that it gives on a flat map from paths, and leaves a tree that
    holds what the map holds. *)
Theorem namespace_tree_refines_flat_map ops :
  let '(replies, s) := run step ops default_state in
  let '(spec_replies, m) := run spec_step ops {[ [] := (∅, ∅) ]} in
  replies = spec_replies /\ represents s m.
Proof.
  pose proof default_represents as Hr. revert Hr.
  generalize default_state ({[ [] := (∅, ∅) ]} : Flat).
  induction ops as [|op ops IH]; intros s m Hr; [done|]. cbn [run].
  destruct (step_refines op s m Hr) as [Hrep Hr1].
  destruct (step op s) as [r s1], (spec_step op m) as [r' m1]. cbn in Hrep, Hr1. subst r'.
  specialize (IH s1 m1 Hr1). fold (run step) (run spec_step) in *.
  destruct (run step ops s1), (run spec_step ops m1). destruct IH as [-> ?]. done.
Qed.

(** Renaming a table either moves its location to the new name, or fails and leaves the
    tree as it was. *)
Theorem rename_table_atomic src dst s :
  match rename_table src dst s with
  | (Ok tt, s') =>
      get_existing_table_location s' dst = get_existing_table_location s src
      /\ (src <> dst -> get_existing_table_location s' src = Err (Error TableNotFound))
  | (Err _, s') => s' = s
  end.
Proof.
  unfold rename_table, mbind, st_bind. pose proof (remove_returns_location src s) as Hloc.
  destruct (get_existing_table_location s src) as [l|e] eqn:El; [|done].
  destruct (remove_existing_table src s) as [[l'|e] s1] eqn:Erem; [|done].
  injection Hloc as ->. pose proof (remove_location _ _ _ _ Erem) as Hrem.
  destruct (insert_new_table dst l s1) as [[[]|e] s2] eqn:Eins; [|done].
  pose proof (insert_location _ _ _ _ Eins) as Hins. rewrite !Hins, decide_True by done.
  split; [done|]. intros Hne. rewrite decide_False by congruence. rewrite Hrem.
  by rewrite decide_True.
Qed.

(** Registering a table whose metadata cannot be read fails, and leaves the table in the
    catalog. *)
Theorem failed_registration_keeps_table {M} (read_from : string -> result M) t location s s1 e :
  insert_new_table t location s = (Ok tt, s1) -> read_from location = Err e ->
  register_table read_from t location s = (Err e, s1)
  /\ get_existing_table_location s1 t = Ok location.
Proof.
  intros Hins Hread. split.
  - unfold register_table, mbind, st_bind, st_lift. by rewrite Hins, Hread.
  - rewrite (insert_location _ _ _ _ Hins). by rewrite decide_True.
Qed.

(** Committing an update to a table that does not exist fails with [TableNotFound], and
    creates the table. *)
Theorem failed_commit_creates_table t location s n :
  get_namespace s (table_namespace t) = Ok n ->
  table_metadata_locations n !! table_name t = None ->
  exists s', commit_table_update t (Some location) s = (Err (Error TableNotFound), s')
    /\ get_existing_table_location s' t = Ok location.
Proof.
  intros E Et. unfold commit_table_update.
  match goal with |- context [in_namespace ?p ?f] =>
    destruct (update_entry p f s n E) as (s' & -> & Hs'); [by cbn; rewrite Et|] end.
  exists s'. cbn in *. rewrite Et in *. split; [done|].
  rewrite location_entry, Hs', decide_True by done. cbn. by rewrite lookup_insert_eq.
Qed.

Section witnesses.
Definition ex_tree : NamespaceState := mkNamespaceState ∅ {[ "a" := default_state ]} ∅.
Definition ex_table : TableIdent := mkTableIdent ["a"] "t".

Lemma failed_registration_keeps_table_witness :
  exists s1, register_table (fun _ => Err (Error DataInvalid) : result unit) ex_table "loc" ex_tree
             = (Err (Error DataInvalid), s1)
    /\ get_existing_table_location s1 ex_table = Ok "loc".
Proof.
  exists (insert_new_table ex_table "loc" ex_tree).2.
  refine (failed_registration_keeps_table (fun _ => Err (Error DataInvalid)) ex_table "loc" ex_tree
            _ _ _ _); reflexivity.
Defined.

Lemma failed_commit_creates_table_witness :
  exists s', commit_table_update ex_table (Some "loc") ex_tree = (Err (Error TableNotFound), s')
    /\ get_existing_table_location s' ex_table = Ok "loc".
Proof. refine (failed_commit_creates_table ex_table "loc" ex_tree default_state _ _); reflexivity. Defined.
End witnesses.
