(* ===== verification/MetadataLocation.v ===== *)
(** * Locations of table metadata files (catalog/metadata_location.rs)

    [<location>/metadata/<version>-<uuid>.metadata.json].  The text form of a UUID
    is the uuid crate's: [uuid_to_string] and [uuid_parse_str] are parameters. *)

From S2P Require Import Prelude Utf8 Numerals.

(** ** [str::split_once], [rsplit_once] and [strip_suffix], with one ASCII character or an
    ASCII suffix *)

Fixpoint split_once (c : Z) (s : str) : option (str * str) :=
  match s with
  | [] => None
  | d :: s =>
      if d =? c then Some ([], s)
      else match split_once c s with Some (a, b) => Some (d :: a, b) | None => None end
  end.
Definition rsplit_once (c : Z) (s : str) : option (str * str) :=
  match split_once c (rev s) with Some (a, b) => Some (rev b, rev a) | None => None end.
Definition strip_suffix (p s : str) : option str :=
  let n := (length s - length p)%nat in
  if bool_decide (drop n s = p) then Some (take n s) else None.

Record MetadataLocation := mkMetadataLocation {
  table_location : str;
  version : Z;
  id : Z;
}.

(** The uuid crate: an identifier is its 128-bit value. *)
Class UuidText := {
  uuid_to_string : Z -> str;
  uuid_parse_str : str -> option Z;
}.
(** It documents that the hyphenated form has hexadecimal digits and hyphens only and parses
    back. *)
Class UuidTextLaws (U : UuidText) := {
  uuid_chars u c : c ∈ uuid_to_string u -> c <> 47;
  uuid_roundtrip u : inU 128 u = true -> uuid_parse_str (uuid_to_string u) = Some u;
}.

Section location.
Context {U : UuidText}.

(** [new_v4] is the random identifier that [Uuid::new_v4] gives. *)
Definition new_with_table_location (location : str) (new_v4 : Z) : MetadataLocation :=
  mkMetadataLocation location 0 new_v4.
Definition with_next_version (self : MetadataLocation) (new_v4 : Z) : MetadataLocation :=
  mkMetadataLocation (table_location self) (wrapS 32 (version self + 1)) new_v4.

Definition parse_metadata_path_prefix (path : str) : result str :=
  ok_or (strip_suffix (lit "/metadata") path) Unexpected.

Definition parse_file_name (file_name : str) : result (Z * Z) :=
  let? stem := ok_or (strip_suffix (lit ".metadata.json") file_name) Unexpected in
  let? parts := ok_or (split_once 45 stem) Unexpected in
  let? v := ok_or (parse_signed 32 (fst parts)) Unexpected in
  let? u := ok_or (uuid_parse_str (snd parts)) DataInvalid in
  Ok (v, u).

(** [Display for MetadataLocation]. *)
Definition to_string (self : MetadataLocation) : str :=
  table_location self ++ lit "/metadata/" ++ pad_left 5 (to_string_i (version self))
    ++ lit "-" ++ uuid_to_string (id self) ++ lit ".metadata.json".

(** [FromStr for MetadataLocation]. *)
Definition from_str (s : str) : result MetadataLocation :=
  let? parts := ok_or (rsplit_once 47 s) Unexpected in
  let? prefix := parse_metadata_path_prefix (fst parts) in
  let? vi := parse_file_name (snd parts) in
  Ok (mkMetadataLocation prefix (fst vi) (snd vi)).

(** ** Theory *)

Lemma split_once_app c a b : c ∉ a -> split_once c (a ++ c :: b) = Some (a, b).
Proof.
  induction a as [|d a IH]; cbn; [by rewrite Z.eqb_refl|].
  rewrite not_elem_of_cons. intros [Hd Ha]. destruct (Z.eqb_spec d c); [congruence|].
  by rewrite IH.
Qed.

Lemma rsplit_once_app c a b : c ∉ b -> rsplit_once c (a ++ c :: b) = Some (a, b).
Proof.
  intros Hb. unfold rsplit_once. rewrite rev_app_distr. cbn [rev].
  rewrite <- (assoc_L (++)). cbn [app]. rewrite split_once_app.
  - by rewrite !rev_involutive.
  - intros H. apply Hb. by apply list_elem_of_In, in_rev, list_elem_of_In.
Qed.

Lemma strip_suffix_app s p : strip_suffix p (s ++ p) = Some s.
Proof.
  unfold strip_suffix. rewrite length_app, Nat.add_sub. rewrite drop_app_length, take_app_length.
  by rewrite bool_decide_eq_true_2.
Qed.

Lemma padded_version v :
  0 <= v -> inS 32 v = true ->
  forallb is_digit (pad_left 5 (to_string_i v)) = true
  /\ parse_signed 32 (pad_left 5 (to_string_i v)) = Some v.
Proof.
  intros Hv Hs. unfold to_string_i. destruct (Z.ltb_spec v 0); [lia|].
  destruct (to_string_u_spec v Hv) as (Hd & Hne & Hval). unfold pad_left.
  set (k := (5 - length (to_string_u v))%nat).
  assert (forallb is_digit (replicate k 48 ++ to_string_u v) = true
          /\ digits_value (replicate k 48 ++ to_string_u v) = v) as [H1 H2].
  { induction k as [|k [IH1 IH2]]; cbn [replicate app]; [done|]. split; [by cbn [forallb]|].
    rewrite digits_value_cons, IH2. lia. }
  split; [done|]. apply parse_signed_digits; [|done]. apply parse_digits_Some.
  split; [|done]. intros E%app_eq_nil. tauto.
Qed.

Lemma not_digit c s : ~ (48 <= c <= 57) -> forallb is_digit s = true -> c ∉ s.
Proof.
  intros Hc Hs Hin%list_elem_of_In. rewrite forallb_forall in Hs. apply Hs in Hin.
  unfold is_digit in Hin. bool_to_prop. lia.
Qed.

(** Parsing the text of a metadata location gives the location back, whatever the table
    location is, for versions from 0 to the greatest [i32]. *)
Theorem metadata_location_roundtrip {UL : UuidTextLaws U} m :
  0 <= version m -> inS 32 (version m) = true -> inU 128 (id m) = true ->
  from_str (to_string m) = Ok m.
Proof.
  intros Hv Hs Hu. destruct (padded_version _ Hv Hs) as [Hd Hp].
  unfold from_str, to_string. set (vs := pad_left 5 (to_string_i (version m))) in *.
  replace (table_location m ++ lit "/metadata/" ++ vs ++ lit "-" ++ uuid_to_string (id m)
             ++ lit ".metadata.json")
    with ((table_location m ++ lit "/metadata")
            ++ 47 :: (vs ++ 45 :: uuid_to_string (id m)) ++ lit ".metadata.json")
    by (rewrite <- !(assoc_L (++)); done).
  rewrite rsplit_once_app.
  - cbn [ok_or mbind result_bind fst snd]. unfold parse_metadata_path_prefix, parse_file_name.
    rewrite !strip_suffix_app. cbn [ok_or mbind result_bind].
    rewrite split_once_app by (apply not_digit; [lia|done]).
    cbn [ok_or mbind result_bind fst snd]. rewrite Hp, uuid_roundtrip by done. by destruct m.
  - rewrite !elem_of_app, elem_of_cons. intros [[H|[H|H]]|H].
    + by apply (not_digit 47) in H; [|lia|].
    + lia.
    + by apply uuid_chars in H.
    + rewrite list_elem_of_In in H. cbn in H. lia.
Qed.
End location.

(** ** Witness *)

(** A text form with the documented properties: the decimal numeral. *)
Definition numeral_uuid : UuidText :=
  {| uuid_to_string u := if inU 128 u then to_string_u u else [];
     uuid_parse_str := parse_unsigned 128 |}.
#[export] Instance numeral_uuid_laws : UuidTextLaws numeral_uuid.
Proof.
  split; cbn.
  - intros u c. destruct (inU 128 u) eqn:E; [|by intros ?%not_elem_of_nil].
    apply inU_spec in E. destruct (to_string_u_spec u) as (Hd & _); [lia|].
    intros Hc ->. by apply (not_digit 47) in Hc; [|lia|].
  - intros u Hu. rewrite Hu. by apply parse_unsigned_to_string.
Qed.

Lemma metadata_location_roundtrip_witness :
  from_str (U := numeral_uuid) (lit "s3://b/t/metadata/00012-7.metadata.json")
  = Ok (mkMetadataLocation (lit "s3://b/t") 12 7).
Proof.
  refine (metadata_location_roundtrip (U := numeral_uuid)
            (mkMetadataLocation (lit "s3://b/t") 12 7) _ _ _); [cbn; lia|reflexivity..].
Defined.
