(* ===== verification/FileGroups.v ===== *)
(** * Distributing scan tasks over partitions (iceberg-datafusion: physical_plan/file_groups.rs)

    The greedy assignment of file scan tasks to the partitions of a scan: nothing
    is lost, and the loads of the partitions are balanced. *)

From S2P Require Import Prelude Schema DataFile ScanTask.

Definition task_bytes (task : FileScanTask) : Z :=
  if 0 <? task_length task then task_length task else task_file_size_in_bytes task.

(** [iter.sum::<u64>()]. *)
Definition sum_u64 (l : list Z) : Z := fold_left (fun acc b => wrapU 64 (acc + b)) l 0.

(** [sort_by_key(|t| Reverse(task_bytes(t)))], a stable sort. *)
Fixpoint insert_task (t : FileScanTask) (l : list FileScanTask) : list FileScanTask :=
  match l with
  | [] => [t]
  | u :: l' => if task_bytes t <? task_bytes u then u :: insert_task t l' else t :: l
  end.
Fixpoint sort_tasks (l : list FileScanTask) : list FileScanTask :=
  match l with [] => [] | t :: l => insert_task t (sort_tasks l) end.

(** [iter().enumerate().min_by_key(..)]: the position of the first least element; 0 when
    there is none. *)
Fixpoint min_from (i best : nat) (least : Z) (l : list Z) : nat :=
  match l with
  | [] => best
  | b :: l => if b <? least then min_from (S i) i b l else min_from (S i) best least l
  end.
Definition min_index (l : list Z) : nat :=
  match l with [] => 0%nat | b :: l => min_from 1 0 b l end.

(** One turn of the loop: [group_bytes] and [groups]. *)
Definition assign_task (state : list Z * list (list FileScanTask)) (task : FileScanTask) :
    list Z * list (list FileScanTask) :=
  let '(group_bytes, groups) := state in
  let idx := min_index group_bytes in
  (alter (fun b => wrapU 64 (b + task_bytes task)) idx group_bytes,
   alter (fun g => g ++ [task]) idx groups).

Definition partition_file_scan_tasks (tasks : list FileScanTask) (target_partitions : nat)
    (min_file_size : Z) : list (list FileScanTask) :=
  let target_partitions := Nat.max target_partitions 1 in
  if bool_decide (tasks = []) then replicate target_partitions []
  else if (target_partitions =? 1)%nat then [tasks]
  else if sum_u64 (task_bytes <$> tasks) <? min_file_size
  then <[0%nat := tasks]> (replicate target_partitions [])
  else (fold_left assign_task (sort_tasks tasks)
          (replicate target_partitions 0, replicate target_partitions [])).2.

(** ** Theory *)

(** The bytes of a group, and of every group. *)
Fixpoint load (g : list FileScanTask) : Z :=
  match g with [] => 0 | t :: g => task_bytes t + load g end.
Definition loads (gs : list (list FileScanTask)) : list Z := load <$> gs.

(** The sizes are unsigned and the whole scan fits 64 bits. *)
Definition sizes_fit (tasks : list FileScanTask) : Prop :=
  Forall (fun t => 0 <= task_bytes t) tasks /\ load tasks < 2 ^ 64.

Lemma load_app g h : load (g ++ h) = load g + load h.
Proof. induction g as [|t g IH]; cbn [load app]; [done|]. rewrite IH. lia. Qed.

Lemma load_perm g h : g ≡ₚ h -> load g = load h.
Proof. induction 1; cbn [load]; lia. Qed.

Lemma load_nonneg g : Forall (fun t => 0 <= task_bytes t) g -> 0 <= load g.
Proof. induction 1; cbn [load]; lia. Qed.

Lemma insert_task_perm t l : insert_task t l ≡ₚ t :: l.
Proof.
  induction l as [|u l IH]; cbn; [done|]. destruct (task_bytes t <? task_bytes u); [|done].
  rewrite IH. apply Permutation_swap.
Qed.
Lemma sort_tasks_perm l : sort_tasks l ≡ₚ l.
Proof. induction l as [|t l IH]; cbn; [done|]. by rewrite insert_task_perm, IH. Qed.

Lemma concat_replicate_nil n : concat (replicate n (@nil FileScanTask)) = [].
Proof. induction n; cbn; done. Qed.

(** The first least element. *)
Lemma min_from_spec l : forall i best least pre,
  i = length pre -> pre !! best = Some least ->
  (forall j b, pre !! j = Some b -> least <= b) ->
  exists m, (pre ++ l) !! min_from i best least l = Some m
    /\ forall j b, (pre ++ l) !! j = Some b -> m <= b.
Proof.
  induction l as [|b l IH]; intros i best least pre Hi Hb Hmin; cbn [min_from].
  - rewrite app_nil_r. eauto.
  - rewrite cons_middle, (assoc_L (++)). destruct (Z.ltb_spec b least).
    + apply IH; rewrite ?length_app; cbn; subst; [lia|by apply list_lookup_middle|].
      intros j c [Hj|[_ Hj]]%lookup_app_Some; [apply Hmin in Hj; lia|].
      apply list_lookup_singleton_Some in Hj as [_ <-]. lia.
    + apply IH; rewrite ?length_app; cbn; subst; [lia|by apply lookup_app_l_Some|].
      intros j c [Hj|[_ Hj]]%lookup_app_Some; [by apply Hmin in Hj|].
      apply list_lookup_singleton_Some in Hj as [_ <-]. lia.
Qed.

Lemma min_index_spec l :
  l <> [] -> exists m, l !! min_index l = Some m /\ forall j b, l !! j = Some b -> m <= b.
Proof.
  destruct l as [|b l]; [done|]. intros _. apply (min_from_spec l 1 0 b [b]); [done..|].
  intros j c Hj. apply list_lookup_singleton_Some in Hj as [_ <-]. lia.
Qed.

Lemma sum_u64_from l : forall acc,
  Forall (fun t => 0 <= task_bytes t) l -> 0 <= acc -> acc + load l < 2 ^ 64 ->
  fold_left (fun acc b => wrapU 64 (acc + b)) (task_bytes <$> l) acc = acc + load l.
Proof.
  induction l as [|t l IH]; intros acc Hl Ha Hs; cbn in *; [lia|].
  apply Forall_cons in Hl as [Ht Hl]. pose proof (load_nonneg l Hl).
  rewrite wrapU_id by (apply inU_spec; lia). rewrite IH by (done || lia). lia.
Qed.
Lemma sum_u64_load l : sizes_fit l -> sum_u64 (task_bytes <$> l) = load l.
Proof. intros [H1 H2]. by apply sum_u64_from. Qed.

(** *** One turn *)

Lemma concat_alter_snoc gs k (t : FileScanTask) :
  (k < length gs)%nat -> concat (alter (fun g => g ++ [t]) k gs) ≡ₚ t :: concat gs.
Proof.
  revert k; induction gs as [|g gs IH]; intros [|k] Hk; cbn in *; try lia.
  - rewrite <- (assoc_L (++)). cbn. by rewrite Permutation_middle.
  - change (alter _ (S k) (g :: gs)) with (g :: alter (fun h => h ++ [t]) k gs). cbn.
    rewrite IH by lia. by rewrite Permutation_middle.
Qed.

(** What the loop keeps: the bytes it tracks are the loads when nothing wraps, and any two of them differ by at most the size of one task. *)
Record tracked (bound : Z) (state : list Z * list (list FileScanTask)) : Prop := {
  tracked_bytes : state.1 = loads state.2;
  tracked_balanced : forall i j a b,
    state.1 !! i = Some a -> state.1 !! j = Some b -> a <= b + bound;
}.

Lemma assign_task_groups state t :
  length state.1 = length state.2 -> (0 < length state.2)%nat ->
  length (assign_task state t).1 = length (assign_task state t).2
  /\ length (assign_task state t).2 = length state.2
  /\ concat (assign_task state t).2 ≡ₚ t :: concat state.2.
Proof.
  destruct state as [bs gs]; cbn. intros Hl Hn. rewrite !length_alter. split; [done|].
  split; [done|]. apply concat_alter_snoc. rewrite <- Hl.
  destruct (min_index_spec bs) as (m & Hm & _); [by destruct bs; cbn in *; [lia|]|].
  by eapply lookup_lt_Some.
Qed.

Lemma assign_all_groups l : forall state,
  length state.1 = length state.2 -> (0 < length state.2)%nat ->
  length (fold_left assign_task l state).2 = length state.2
  /\ concat (fold_left assign_task l state).2 ≡ₚ l ++ concat state.2.
Proof.
  induction l as [|t l IH]; intros state Hl Hn; cbn [fold_left]; [done|].
  destruct (assign_task_groups state t Hl Hn) as (H1 & H2 & H3).
  destruct (IH (assign_task state t)) as [H4 H5]; [done|lia|]. split; [lia|].
  rewrite H5, H3. cbn. by rewrite Permutation_middle.
Qed.

Lemma assign_task_tracked bound state t :
  tracked bound state -> (0 < length state.2)%nat -> 0 <= task_bytes t <= bound ->
  Forall (fun t => 0 <= task_bytes t) (concat state.2) ->
  load (concat state.2) + task_bytes t < 2 ^ 64 ->
  tracked bound (assign_task state t).
Proof.
  destruct state as [bs gs]; intros [Hb Hbal] Hn Ht Hpos Hfit; cbn in *.
  destruct (min_index_spec bs) as (m & Hm & Hmin).
  { subst bs. destruct gs; cbn in *; [lia|done]. }
  assert (Hle : 0 <= m <= load (concat gs)).
  { subst bs. unfold loads in Hm. rewrite list_lookup_fmap in Hm.
    destruct (gs !! _) as [g|] eqn:Hg; simplify_eq/=.
    apply list_elem_of_split_length in Hg as (l1 & l2 & -> & _).
    rewrite concat_app in *; cbn in *. rewrite !load_app.
    rewrite !Forall_app in Hpos. destruct Hpos as (H1 & H2 & H3).
    apply load_nonneg in H1, H2, H3. lia. }
  assert (Hw : wrapU 64 (m + task_bytes t) = m + task_bytes t)
    by (apply wrapU_id; apply inU_spec; lia).
  split; cbn.
  - subst bs. unfold loads in *. apply list_eq. intros i.
    rewrite list_lookup_fmap, !list_lookup_alter, list_lookup_fmap in *.
    case_decide as Hi; [|by rewrite list_lookup_fmap]. subst i.
    destruct (gs !! _) as [g|]; simplify_eq/=.
    rewrite Hw, load_app. cbn [load]. f_equal; lia.
  - intros i j a b. rewrite !list_lookup_alter.
    repeat case_decide; subst; rewrite ?Hm; cbn; intros; simplify_eq; rewrite ?Hw.
    + lia.
    + specialize (Hmin j b ltac:(done)). lia.
    + specialize (Hbal i _ a m ltac:(done) Hm). lia.
    + by eapply Hbal.
Qed.

(** *** The whole assignment *)

Lemma assign_all_tracked bound l : forall state,
  tracked bound state -> (0 < length state.2)%nat ->
  Forall (fun t => 0 <= task_bytes t <= bound) l ->
  Forall (fun t => 0 <= task_bytes t) (concat state.2) ->
  load (concat state.2) + load l < 2 ^ 64 ->
  tracked bound (fold_left assign_task l state).
Proof.
  induction l as [|t l IH]; intros state Ht Hn Hl Hpos Hfit; cbn [fold_left]; [done|].
  apply Forall_cons in Hl as [Hb Hl]. cbn [load] in Hfit.
  assert (0 <= load l) by (apply load_nonneg; eapply Forall_impl; [apply Hl|cbn; lia]).
  destruct (assign_task_groups state t) as (H1 & H2 & H3); [|done|].
  { destruct Ht as [-> _]. unfold loads. by rewrite length_fmap. }
  apply IH; [|lia|done| |].
  - by apply assign_task_tracked; [..|lia].
  - rewrite H3. constructor; [lia|done].
  - rewrite (load_perm _ _ H3). cbn [load]. lia.
Qed.

(** [partition_file_scan_tasks] returns max(1, target_partitions) groups that hold
    every task once. *)
Theorem partition_loses_no_task tasks target min_size :
  length (partition_file_scan_tasks tasks target min_size) = Nat.max target 1
  /\ concat (partition_file_scan_tasks tasks target min_size) ≡ₚ tasks.
Proof.
  unfold partition_file_scan_tasks. set (n := Nat.max target 1). assert (0 < n)%nat by lia.
  clearbody n. case_bool_decide as Ht.
  { subst. by rewrite length_replicate, concat_replicate_nil. }
  destruct (Nat.eqb_spec n 1) as [->|Hn]; [cbn; by rewrite app_nil_r|]. destruct (_ <? _).
  { rewrite length_insert, length_replicate. split; [done|]. destruct n; [lia|]. cbn.
    by rewrite concat_replicate_nil, app_nil_r. }
  destruct (assign_all_groups (sort_tasks tasks) (replicate n 0, replicate n [])) as [H1 H2];
    cbn; rewrite ?length_replicate; [done..|].
  rewrite H1, H2. cbn. by rewrite length_replicate, concat_replicate_nil, app_nil_r, sort_tasks_perm.
Qed.

(** When a scan is large enough to be divided, the bytes of any two partitions differ by
    at most the size of one task. *)
Theorem partition_balances_bytes tasks target min_size bound :
  sizes_fit tasks -> 0 <= bound -> Forall (fun t => task_bytes t <= bound) tasks ->
  min_size <= load tasks -> (2 <= target)%nat ->
  let groups := partition_file_scan_tasks tasks target min_size in
  forall i j g h, groups !! i = Some g -> groups !! j = Some h -> load g <= load h + bound.
Proof.
  intros [Hpos Hfit] Hbound Hb Hmin Ht. cbn zeta. unfold partition_file_scan_tasks.
  rewrite Nat.max_l by lia. case_bool_decide as He.
  { intros i j g h [-> _]%lookup_replicate [-> _]%lookup_replicate; cbn. lia. }
  rewrite (proj2 (Nat.eqb_neq target 1)), sum_u64_load by (done || lia).
  rewrite (proj2 (Z.ltb_ge _ _)) by done.
  destruct (assign_all_tracked bound (sort_tasks tasks) (replicate target 0, replicate target []))
    as [Hl Hbal]; cbn.
  - split; cbn; [by unfold loads; rewrite fmap_replicate|].
    intros i j a b [-> _]%lookup_replicate [-> _]%lookup_replicate. lia.
  - rewrite length_replicate. lia.
  - rewrite sort_tasks_perm. by apply Forall_and.
  - by rewrite concat_replicate_nil.
  - rewrite concat_replicate_nil, (load_perm _ _ (sort_tasks_perm tasks)). cbn. lia.
  - intros i j g h Hg Hh. apply (Hbal i j); rewrite Hl; unfold loads;
      by rewrite list_lookup_fmap, ?Hg, ?Hh.
Qed.

Definition ex_schema : Schema := mkSchema [] 0 0 ∅ [] ∅ ∅ ∅ ∅ ∅.
Definition ex_task (size start length : Z) (path : string) : FileScanTask :=
  mkFileScanTask size start length None path Parquet ex_schema [] None [] None None None true.

(** Four files of which one has only a length, over two partitions. *)
Lemma partition_balances_bytes_witness :
  let tasks := [ex_task 50 0 50 "a"; ex_task 20 0 0 "b";
                ex_task 90 10 40 "c"; ex_task 30 0 30 "d"] in
  sizes_fit tasks /\ 100 <= load tasks
  /\ partition_file_scan_tasks tasks 2 100
     = [[ex_task 50 0 50 "a"; ex_task 20 0 0 "b"];
        [ex_task 90 10 40 "c"; ex_task 30 0 30 "d"]]
  /\ forall i j g h, partition_file_scan_tasks tasks 2 100 !! i = Some g ->
       partition_file_scan_tasks tasks 2 100 !! j = Some h -> load g <= load h + 50.
Proof.
  split_and!.
  - split; [repeat constructor; cbn; lia|cbn; lia].
  - cbn; lia.
  - vm_compute; reflexivity.
  - apply (partition_balances_bytes _ 2 100 50);
      [split; [repeat constructor; cbn; lia|cbn; lia]|lia|repeat constructor; cbn; lia|cbn; lia|lia].
Defined.
