(* ===== verification/ManifestWriter.v ===== *)
(** * Writing manifests (spec/manifest/writer.rs)

    [ManifestWriter] with its counters and the summaries of its partitions.  The avro encoding
    of the entries and the storage are parameters. *)

From S2P Require Import Prelude Utf8 Values Schema Concrete DatumOrder Expr DataFile ExprEval Metrics ManifestEval.
From S2P Require Import Transform PartitionSpecs LiteralEq TableMetadata.

Definition UNASSIGNED_SEQUENCE_NUMBER : Z := -1.
Definition UNASSIGNED_SNAPSHOT_ID : Z := -1.

(** ** Summaries of one partition field *)

Record PartitionFieldStats := mkPartitionFieldStats {
  stats_type : PrimitiveType.t;
  stats_contains_null : bool;
  stats_contains_nan : option bool;
  stats_lower_bound : option Datum;
  stats_upper_bound : option Datum;
}.

Definition stats_new (partition_type : PrimitiveType.t) : PartitionFieldStats :=
  mkPartitionFieldStats partition_type false (Some false) None None.

Section writer.
Context {V : ValueLib}.

Definition stats_update (self : PartitionFieldStats) (value : option PrimitiveLiteral.t) :
    result PartitionFieldStats :=
  let 'mkPartitionFieldStats ty null nan lower upper := self in
  match value with
  | None => Ok (mkPartitionFieldStats ty true nan lower upper)
  | Some value =>
      let? _ := ensure (compatible ty value) DataInvalid in
      let value := mkDatum ty value in
      if Values.is_nan value then Ok (mkPartitionFieldStats ty null (Some true) lower upper)
      else
        let lower :=
          match lower with
          | Some original => if datum_lt value original then value else original
          | None => value
          end in
        let upper :=
          match upper with
          | Some original => if datum_gt value original then value else original
          | None => value
          end in
        Ok (mkPartitionFieldStats ty null nan (Some lower) (Some upper))
  end.

(** [bound.map(|v| v.to_bytes().unwrap())]. *)
Definition bound_bytes (bound : option Datum) : result (option (list Z)) :=
  match bound with
  | Some v => Some <$> expect (to_bytes v)
  | None => Ok None
  end.
(** The record is built in the order of its expression: the upper bound first. *)
Definition stats_finish (self : PartitionFieldStats) : result FieldSummary :=
  let? upper := bound_bytes (stats_upper_bound self) in
  let? lower := bound_bytes (stats_lower_bound self) in
  Ok (mkFieldSummary (stats_contains_null self) (stats_contains_nan self) lower upper).

(** [as_primitive_literal().unwrap()]. *)
Definition primitive_value (literal : option Literal) : result (option PrimitiveLiteral.t) :=
  match literal with
  | None => Ok None
  | Some (LPrimitive l) => Ok (Some l)
  | Some _ => Err Panic
  end.
(** [zip_eq] panics when one of the two ends before the other. *)
Fixpoint update_stats (stats : list PartitionFieldStats) (partition : Struct) :
    result (list PartitionFieldStats) :=
  match partition, stats with
  | [], [] => Ok []
  | literal :: partition, stat :: stats =>
      let? value := primitive_value literal in
      let? stat := stats_update stat value in
      let? stats := update_stats stats partition in
      Ok (stat :: stats)
  | _, _ => Err Panic
  end.

Definition construct_partition_summaries (partition_type : list NestedField)
    (entries : list ManifestEntry) : result (list FieldSummary) :=
  let? stats :=
    mapR (fun f => let? t := unwrap (as_primitive_type (field_type f)) in Ok (stats_new t))
      partition_type in
  let? stats := try_fold (fun stats e => update_stats stats (partition (data_file e))) stats entries in
  mapR stats_finish stats.

(** ** The writer *)

Record ManifestMetadata := mkManifestMetadata {
  manifest_schema : Schema;
  manifest_schema_id : Z;
  manifest_partition_spec : PartitionSpec;
  manifest_format_version : FormatVersion;
  metadata_content : ManifestContentType;
}.

Record ManifestWriter := mkManifestWriter {
  output : string;
  writer_snapshot_id : option Z;
  added_files : Z;
  added_rows : Z;
  existing_files : Z;
  existing_rows : Z;
  deleted_files : Z;
  deleted_rows : Z;
  writer_first_row_id : option Z;
  min_seq_num : option Z;
  writer_key_metadata : option (list Z);
  manifest_entries : list ManifestEntry;
  writer_metadata : ManifestMetadata;
}.
#[global] Instance ManifestWriter_updatable : Updatable ManifestWriter := fun w =>
  mkManifestWriter (output w) (writer_snapshot_id w) (added_files w) (added_rows w)
    (existing_files w) (existing_rows w) (deleted_files w) (deleted_rows w)
    (writer_first_row_id w) (min_seq_num w) (writer_key_metadata w) (manifest_entries w)
    (writer_metadata w).

Definition manifest_writer_new (output : string) (snapshot_id : option Z)
    (key_metadata : option (list Z)) (metadata : ManifestMetadata) (first_row_id : option Z) :
    ManifestWriter :=
  mkManifestWriter output snapshot_id 0 0 0 0 0 0 first_row_id None key_metadata [] metadata.

Record ManifestWriterBuilder := mkManifestWriterBuilder {
  builder_output : string;
  builder_snapshot_id : option Z;
  builder_key_metadata : option (list Z);
  builder_schema : Schema;
  builder_partition_spec : PartitionSpec;
}.
(** The five [build_*] methods differ in the version and the content only. *)
Definition build_writer (self : ManifestWriterBuilder) (version : FormatVersion)
    (content : ManifestContentType) : ManifestWriter :=
  manifest_writer_new (builder_output self) (builder_snapshot_id self) (builder_key_metadata self)
    (mkManifestMetadata (builder_schema self) (schema_id (builder_schema self))
       (builder_partition_spec self) version content) None.
Definition build_v1 (self : ManifestWriterBuilder) := build_writer self V1 MData.
Definition build_v2_data (self : ManifestWriterBuilder) := build_writer self V2 MData.
Definition build_v2_deletes (self : ManifestWriterBuilder) := build_writer self V2 MDeletes.
Definition build_v3_data (self : ManifestWriterBuilder) := build_writer self V3 MData.
Definition build_v3_deletes (self : ManifestWriterBuilder) := build_writer self V3 MDeletes.

Definition check_data_file (self : ManifestWriter) (file : DataFile) : result unit :=
  match metadata_content (writer_metadata self) with
  | MData => ensure (bool_decide (content file = Data)) DataInvalid
  | MDeletes =>
      ensure (bool_decide (content file = EqualityDeletes)
              || bool_decide (content file = PositionDeletes)) DataInvalid
  end.

(** The counters are [u32] and [u64] that wrap in a release build. *)
Definition add_entry_inner (self : ManifestWriter) (entry : ManifestEntry) : result ManifestWriter :=
  let? _ :=
    ensure (bool_decide (status entry = Added)
            || bool_decide (is_Some (entry_sequence_number entry))
               && bool_decide (is_Some (file_sequence_number entry))) DataInvalid in
  let rows := record_count (data_file entry) in
  let self :=
    match status entry with
    | Added => self <| added_files := wrapU 32 (added_files self + 1) |>
                    <| added_rows := wrapU 64 (added_rows self + rows) |>
    | Deleted => self <| deleted_files := wrapU 32 (deleted_files self + 1) |>
                      <| deleted_rows := wrapU 64 (deleted_rows self + rows) |>
    | Existing => self <| existing_files := wrapU 32 (existing_files self + 1) |>
                       <| existing_rows := wrapU 64 (existing_rows self + rows) |>
    end in
  let self :=
    match entry_sequence_number entry with
    | Some seq_num =>
        if is_alive entry
        then self <| min_seq_num := Some (match min_seq_num self with
                                          | Some v => Z.min v seq_num
                                          | None => seq_num
                                          end) |>
        else self
    | None => self
    end in
  Ok (self <| manifest_entries := manifest_entries self ++ [entry] |>).

(** A sequence number that is invalid counts as unassigned. *)
Definition valid_sequence_number (n : Z) : option Z := if 0 <=? n then Some n else None.

Definition add_entry (self : ManifestWriter) (entry : ManifestEntry) : result ManifestWriter :=
  let? _ := check_data_file self (data_file entry) in
  add_entry_inner self
    (mkManifestEntry Added (writer_snapshot_id self)
       (entry_sequence_number entry ≫= valid_sequence_number) None (data_file entry)).
Definition add_file (self : ManifestWriter) (file : DataFile) (seq : Z) : result ManifestWriter :=
  let? _ := check_data_file self file in
  add_entry_inner self
    (mkManifestEntry Added (writer_snapshot_id self) (valid_sequence_number seq) None file).
Definition add_delete_entry (self : ManifestWriter) (entry : ManifestEntry) : result ManifestWriter :=
  let? _ := check_data_file self (data_file entry) in
  add_entry_inner self
    (mkManifestEntry Deleted (writer_snapshot_id self) (entry_sequence_number entry)
       (file_sequence_number entry) (data_file entry)).
Definition add_delete_file (self : ManifestWriter) (file : DataFile) (seq : Z)
    (file_seq : option Z) : result ManifestWriter :=
  let? _ := check_data_file self file in
  add_entry_inner self (mkManifestEntry Deleted (writer_snapshot_id self) (Some seq) file_seq file).
Definition add_existing_entry (self : ManifestWriter) (entry : ManifestEntry) : result ManifestWriter :=
  let? _ := check_data_file self (data_file entry) in
  add_entry_inner self
    (mkManifestEntry Existing (entry_snapshot_id entry) (entry_sequence_number entry)
       (file_sequence_number entry) (data_file entry)).
Definition add_existing_file (self : ManifestWriter) (file : DataFile) (id seq : Z)
    (file_seq : option Z) : result ManifestWriter :=
  let? _ := check_data_file self file in
  add_entry_inner self (mkManifestEntry Existing (Some id) (Some seq) file_seq file).

(** [avro_header] makes the avro schema and the header of a manifest file, [avro_entries] the
    bytes of the file, and [write_ok] is the outcome of writing it. *)
Variables (avro_header : ManifestMetadata -> list NestedField -> result unit)
          (avro_entries : ManifestMetadata -> list NestedField -> list ManifestEntry -> result (list Z))
          (write_ok : string -> result unit).

Definition write_manifest_file (self : ManifestWriter) (files : gmap string (list Z)) :
    result (ManifestFile * gmap string (list Z)) :=
  let m := writer_metadata self in
  let? fields := partition_type (manifest_partition_spec m) (manifest_schema m) in
  let? _ := avro_header m fields in
  let? summary := construct_partition_summaries fields (manifest_entries self) in
  let? bytes := avro_entries m fields (manifest_entries self) in
  let? _ := write_ok (output self) in
  Ok (mkManifestFile (output self) (Z.of_nat (length bytes)) (spec_id (manifest_partition_spec m))
        (metadata_content m) UNASSIGNED_SEQUENCE_NUMBER
        (default UNASSIGNED_SEQUENCE_NUMBER (min_seq_num self))
        (default UNASSIGNED_SNAPSHOT_ID (writer_snapshot_id self))
        (Some (added_files self)) (Some (existing_files self)) (Some (deleted_files self))
        (Some (added_rows self)) (Some (existing_rows self)) (Some (deleted_rows self))
        (Some summary) (writer_key_metadata self) (writer_first_row_id self),
      <[output self := bytes]> files).
End writer.

(** ** Summaries describe their columns *)

Section summaries.
Context {V : ValueLib} {L : ValueLibLaws V}.

Definition value_ok (ty : PrimitiveType.t) (d : Datum) : Prop :=
  datum_wf d = true /\ datum_type d = ty /\ decimal_fits d = true.

(** A bound so far: it covers the values seen, and is absent while they are NaN or null. *)
Definition extreme_ok (covers : list Z -> list Z -> Prop) (ty : PrimitiveType.t)
    (values : column) (o : option Datum) : Prop :=
  match o with
  | Some b => value_ok ty b /\ Values.is_nan b = false
      /\ forall x, Some x ∈ values -> Values.is_nan x = false -> covers (key b) (key x)
  | None => forall x, Some x ∈ values -> Values.is_nan x = true
  end.

Lemma elem_of_snoc {A} (l : list A) (x y : A) : x ∈ l ++ [y] <-> x ∈ l \/ x = y.
Proof. by rewrite elem_of_app, list_elem_of_singleton. Qed.

Lemma extreme_skip covers ty values o v :
  (forall x, v = Some x -> Values.is_nan x = true) ->
  extreme_ok covers ty values o -> extreme_ok covers ty (values ++ [v]) o.
Proof.
  intros Hv. destruct o as [b|]; cbn.
  - intros (? & ? & Hc). do 2 (split; [done|]).
    intros x [Hx| <-]%elem_of_snoc Hn; [by apply Hc|]. by rewrite Hv in Hn.
  - intros Hn x [Hx| <-]%elem_of_snoc; auto.
Qed.

Lemma extreme_step covers (pick : Datum -> Datum -> bool) ty values o v :
  (forall a, covers a a) -> (forall a b c, covers a b -> covers b c -> covers a c) ->
  (forall a b, comparable a b ->
     if pick a b then covers (key a) (key b) else covers (key b) (key a)) ->
  value_ok ty v -> Values.is_nan v = false -> extreme_ok covers ty values o ->
  extreme_ok covers ty (values ++ [Some v])
    (Some (match o with Some original => if pick v original then v else original | None => v end)).
Proof.
  intros Hrefl Htrans Hpick Hv Hn Ho. destruct o as [b|]; cbn in *.
  - destruct Ho as (Hb & Hbn & Hc). specialize (Hpick v b).
    assert (comparable v b) as Hcmp by (unfold comparable, value_ok in *; intuition congruence).
    specialize (Hpick Hcmp). destruct (pick v b); (split; [done|]; split; [done|]).
    all: intros x [Hx|[= <-]]%elem_of_snoc Hxn; eauto.
  - do 2 (split; [done|]). intros x [Hx|[= <-]]%elem_of_snoc Hxn; [|done].
    apply Ho in Hx. congruence.
Qed.

Record stats_ok (s : PartitionFieldStats) (ty : PrimitiveType.t) (values : column) : Prop := {
  st_type : stats_type s = ty;
  st_null : stats_contains_null s = existsb null_value values;
  st_nan : stats_contains_nan s = Some (existsb nan_value values);
  st_lower : extreme_ok lex_le ty values (stats_lower_bound s);
  st_upper : extreme_ok (flip lex_le) ty values (stats_upper_bound s);
}.

Lemma stats_new_ok ty : stats_ok (stats_new ty) ty [].
Proof. split; try done; by intros x ?%not_elem_of_nil. Qed.

Lemma stats_update_ok s ty values l s' :
  stats_ok s ty values -> (forall v, l = Some v -> value_ok ty (mkDatum ty v)) ->
  stats_update s l = Ok s' -> stats_ok s' ty (values ++ [mkDatum ty <$> l]).
Proof.
  destruct s as [sty null nan lower upper]. intros [Ht Hnull Hnan Hl Hu] Hv. cbn in Ht, Hnull, Hnan, Hl, Hu |- *.
  subst. destruct l as [v|]; cbn [fmap option_fmap option_map].
  - destruct (compatible ty v); [|done]. cbn [ensure mbind result_bind].
    specialize (Hv v eq_refl). destruct (Values.is_nan _) eqn:En; intros [= <-]; split; cbn; try done.
    + by rewrite existsb_app, orb_false_r.
    + by rewrite existsb_app; cbn; rewrite En, !orb_true_r.
    + apply extreme_skip; [by intros x [= <-]|done].
    + apply extreme_skip; [by intros x [= <-]|done].
    + by rewrite existsb_app, orb_false_r.
    + by rewrite existsb_app; cbn; rewrite En, !orb_false_r.
    + apply (extreme_step lex_le datum_lt); eauto with lex.
      intros a b Hc. pose proof (datum_lt_key a b Hc) as E.
      destruct (datum_lt a b); [apply lex_lt_le, E; done|apply lex_not_lt; by rewrite <- E].
    + apply (extreme_step (flip lex_le) datum_gt); unfold flip; eauto with lex.
      intros a b Hc. pose proof (datum_gt_key a b Hc) as E.
      destruct (datum_gt a b); [apply lex_lt_le, E; done|apply lex_not_lt; by rewrite <- E].
  - intros [= <-]. split; cbn; try done.
    + by rewrite existsb_app, !orb_true_r.
    + by rewrite existsb_app, !orb_false_r.
    + by apply extreme_skip.
    + by apply extreme_skip.
Qed.

Lemma stats_update_type s l s' : stats_update s l = Ok s' -> stats_type s' = stats_type s.
Proof.
  destruct s, l as [v|]; cbn; [|by intros [= <-]]. destruct (compatible _ _); [|done]. cbn.
  destruct (Values.is_nan _); by intros [= <-].
Qed.

Lemma bound_bytes_ok covers ty values o bs :
  extreme_ok covers ty values o -> bound_bytes o = Ok bs -> summary_bound_ok covers ty values bs.
Proof.
  destruct o as [b|]; cbn; [|by intros ? [= <-]]. intros ((Hw & Ht & Hf) & Hn & Hc).
  intros (bytes & E & <-)%fmap_Ok. exists b. unfold bound_ok.
  destruct (to_bytes b) eqn:Eb; cbn in E; [injection E as ->|done]. by split_and!; eauto.
Qed.

Lemma stats_finish_ok s ty values sum :
  stats_ok s ty values -> column_typed ty values -> stats_finish s = Ok sum -> summary_ok sum ty values.
Proof.
  intros [Ht Hnull Hnan Hl Hu] Hv (up & Hup & (lo & Hlo & [= <-])%bind_Ok)%bind_Ok. split; cbn.
  - done.
  - rewrite Hnull. intros Hn Hin%list_elem_of_In.
    assert (existsb null_value values = true) as Hx by (apply existsb_exists; by eexists). congruence.
  - rewrite Hnan. intros [= Hn] x Hin%list_elem_of_In. apply not_true_iff_false. intros Hx.
    assert (existsb nan_value values = true) as E by (apply existsb_exists; by eexists). congruence.
  - by eapply bound_bytes_ok.
  - by eapply bound_bytes_ok.
Qed.

(** *** One position of the partition tuples *)

Lemma update_stats_at stats p stats' i s :
  update_stats stats p = Ok stats' -> stats !! i = Some s ->
  exists l s', accessor_get (accessor_new i (stats_type s)) p = Ok (mkDatum (stats_type s) <$> l)
    /\ stats_update s l = Ok s' /\ stats' !! i = Some s'.
Proof.
  revert stats stats' i. induction p as [|lit p IH]; intros [|t stats] stats' i; cbn [update_stats]; try done.
  intros (v & Hv & (t' & Ht & (rest & Hr & [= <-])%bind_Ok)%bind_Ok)%bind_Ok Hi.
  destruct i as [|i]; cbn in Hi |- *.
  - injection Hi as ->. exists v, t'. split; [|done].
    destruct lit as [[]|]; by simplify_eq/=.
  - destruct (IH _ _ _ Hr Hi) as (l & s' & Ha & Hu & Hs). by exists l, s'.
Qed.

Lemma fold_stats_at entries stats stats' i s ty :
  try_fold (fun stats e => update_stats stats (partition (data_file e))) stats entries = Ok stats' ->
  stats !! i = Some s -> stats_type s = ty ->
  exists more s', mapR (accessor_get (accessor_new i ty)) ((fun e => partition (data_file e)) <$> entries) = Ok more
    /\ stats' !! i = Some s'
    /\ forall values, stats_ok s ty values -> (forall x, Some x ∈ more -> value_ok ty x) ->
        stats_ok s' ty (values ++ more).
Proof.
  revert stats s. induction entries as [|e entries IH]; intros stats s; cbn [try_fold].
  - intros [= <-] Hi Hs. exists [], s. split_and!; [done..|]. intros values. by rewrite app_nil_r.
  - intros (mid & Hm & Hr)%bind_Ok Hi Hs.
    destruct (update_stats_at _ _ _ _ _ Hm Hi) as (l & s1 & Ha & Hu & Hi1).
    destruct (IH _ _ Hr Hi1) as (more & s' & Hmap & Hi' & Hok); [by rewrite (stats_update_type _ _ _ Hu)|].
    rewrite Hs in Ha. rewrite fmap_cons. cbn [mapR]. rewrite Ha. cbn [mbind result_bind].
    rewrite Hmap. cbn [mbind result_bind].
    exists ((mkDatum ty <$> l) :: more), s'. split_and!; [done..|]. intros values Hv Hx.
    rewrite cons_middle, app_assoc. apply Hok; [|intros x ?; apply Hx; by right].
    eapply stats_update_ok; [done| |done]. intros v ->. apply Hx. by left.
Qed.

(** The summary at a position describes the values that the partition tuples of the entries
    have there. *)
Lemma summaries_ok fields entries sums i f ty :
  construct_partition_summaries fields entries = Ok sums ->
  fields !! i = Some f -> field_type f = TPrimitive ty ->
  exists values s,
    mapR (accessor_get (accessor_new i ty)) ((fun e => partition (data_file e)) <$> entries) = Ok values
    /\ sums !! i = Some s
    /\ ((forall x, Some x ∈ values -> value_ok ty x) -> summary_ok s ty values).
Proof.
  unfold construct_partition_summaries.
  intros (stats & Hs & (stats' & Hf & Hm)%bind_Ok)%bind_Ok Hi Hty.
  apply mapR_Ok in Hs. destruct (Forall2_lookup_l _ _ _ _ _ Hs Hi) as (s & Hsi & Es).
  rewrite Hty in Es. injection Es as <-.
  destruct (fold_stats_at _ _ _ _ _ _ Hf Hsi eq_refl) as (values & s' & Hv & Hi' & Hok).
  apply mapR_Ok in Hm. destruct (Forall2_lookup_l _ _ _ _ _ Hm Hi') as (sum & Hsum & E).
  exists values, sum. split_and!; [done..|]. intros Hx.
  eapply stats_finish_ok; [by apply (Hok []), Hx; apply stats_new_ok| |done].
  intros x (? & ? & _)%Hx. done.
Qed.

(** A leaf of a partition filter on a column of the partition type, whose literals are values
    of the column's type; the side conditions are those of [leaf_summarised]. *)
Definition reads (fields : list NestedField) (rows : list Struct) (t : BoundReference)
    (ty : PrimitiveType.t) (values : column) : Prop :=
  field_type (ref_field t) = TPrimitive ty
  /\ (exists i f, ref_accessor t = accessor_new i ty /\ fields !! i = Some f
        /\ field_type f = TPrimitive ty)
  /\ mapR (accessor_get (ref_accessor t)) rows = Ok values
  /\ forall x, Some x ∈ values -> value_ok ty x.
Definition leaf_reads (fields : list NestedField) (rows : list Struct) (q : BoundPredicate) : Prop :=
  match q with
  | Unary _ t => exists ty values, reads fields rows t ty values
  | Binary op t d => exists ty values, reads fields rows t ty values
      /\ literal_ok ty d /\ column_regular values
      /\ (is_order op = true -> column_nan_free values)
      /\ (is_prefix op = true -> ty = PrimitiveType.String)
  | SetP op t ds => exists ty values, reads fields rows t ty values
      /\ Forall (literal_ok ty) ds /\ column_regular values
  | _ => True
  end.

Lemma reads_summarised fields entries sums t ty values :
  construct_partition_summaries fields entries = Ok sums ->
  reads fields ((fun e => partition (data_file e)) <$> entries) t ty values ->
  summarised sums ((fun e => partition (data_file e)) <$> entries) t ty values.
Proof.
  intros Hc (Ht & (i & f & Ha & Hf & Hty) & Hm & Hx).
  destruct (summaries_ok _ _ _ _ _ _ Hc Hf Hty) as (values' & s & Hm' & Hs & Hok).
  rewrite Ha in Hm. assert (values' = values) as -> by congruence.
  unfold summarised. rewrite Ha. split_and!; [done..|]. exists s. split; [done|]. by apply Hok.
Qed.
Lemma leaf_reads_summarised fields entries sums q :
  construct_partition_summaries fields entries = Ok sums ->
  leaf_reads fields ((fun e => partition (data_file e)) <$> entries) q ->
  leaf_summarised sums ((fun e => partition (data_file e)) <$> entries) q.
Proof.
  intros Hc. pose proof (fun t ty vs => reads_summarised _ _ _ t ty vs Hc).
  destruct q; cbn; try done; intros (ty & values & ?); exists ty, values; intuition auto.
Qed.
End summaries.

(** ** What a writer has recorded *)

Inductive WriterOp :=
| AddEntry (entry : ManifestEntry)
| AddFile (file : DataFile) (seq : Z)
| AddDeleteEntry (entry : ManifestEntry)
| AddDeleteFile (file : DataFile) (seq : Z) (file_seq : option Z)
| AddExistingEntry (entry : ManifestEntry)
| AddExistingFile (file : DataFile) (id seq : Z) (file_seq : option Z).
Definition run_writer_op (self : ManifestWriter) (op : WriterOp) : result ManifestWriter :=
  match op with
  | AddEntry entry => add_entry self entry
  | AddFile file seq => add_file self file seq
  | AddDeleteEntry entry => add_delete_entry self entry
  | AddDeleteFile file seq file_seq => add_delete_file self file seq file_seq
  | AddExistingEntry entry => add_existing_entry self entry
  | AddExistingFile file id seq file_seq => add_existing_file self file id seq file_seq
  end.

Definition with_status (s : ManifestStatus) (entries : list ManifestEntry) : list ManifestEntry :=
  List.filter (fun e => bool_decide (status e = s)) entries.
Definition count_of (s : ManifestStatus) (entries : list ManifestEntry) : Z :=
  Z.of_nat (length (with_status s entries)).
Definition rows_with (s : ManifestStatus) (entries : list ManifestEntry) : Z :=
  foldr Z.add 0 ((fun e => record_count (data_file e)) <$> with_status s entries).
(** The sequence numbers of the live entries that have one. *)
Definition live_sequence_numbers (entries : list ManifestEntry) : list Z :=
  omap (fun e => if is_alive e then entry_sequence_number e else None) entries.

(** An entry as the writer records it: an added one leaves its file sequence number to be
    inherited, the others carry both numbers. *)
Definition entry_recorded (w : ManifestWriter) (e : ManifestEntry) : Prop :=
  check_data_file w (data_file e) = Ok tt
  /\ match status e with
     | Added => entry_snapshot_id e = writer_snapshot_id w /\ file_sequence_number e = None
         /\ forall n, entry_sequence_number e = Some n -> 0 <= n
     | _ => is_Some (entry_sequence_number e) /\ is_Some (file_sequence_number e)
     end.

Record writer_ok (w : ManifestWriter) : Prop := {
  wo_added : added_files w = wrapU 32 (count_of Added (manifest_entries w));
  wo_existing : existing_files w = wrapU 32 (count_of Existing (manifest_entries w));
  wo_deleted : deleted_files w = wrapU 32 (count_of Deleted (manifest_entries w));
  wo_added_rows : added_rows w = wrapU 64 (rows_with Added (manifest_entries w));
  wo_existing_rows : existing_rows w = wrapU 64 (rows_with Existing (manifest_entries w));
  wo_deleted_rows : deleted_rows w = wrapU 64 (rows_with Deleted (manifest_entries w));
  wo_min : match min_seq_num w with
           | Some n => n ∈ live_sequence_numbers (manifest_entries w)
               /\ Forall (fun m => n <= m) (live_sequence_numbers (manifest_entries w))
           | None => live_sequence_numbers (manifest_entries w) = []
           end;
  wo_entries : Forall (entry_recorded w) (manifest_entries w);
}.

Lemma writer_new_ok output id key m row : writer_ok (manifest_writer_new output id key m row).
Proof. by split. Qed.

Lemma wrapU_add n a b : wrapU n (wrapU n a + b) = wrapU n (a + b).
Proof. unfold wrapU. by rewrite Zplus_mod_idemp_l. Qed.
Lemma with_status_snoc s entries e :
  with_status s (entries ++ [e]) = with_status s entries ++ (if bool_decide (status e = s) then [e] else []).
Proof. unfold with_status. rewrite List.filter_app. cbn. by destruct (bool_decide _). Qed.
Lemma count_of_snoc s entries e :
  count_of s (entries ++ [e]) = count_of s entries + (if bool_decide (status e = s) then 1 else 0).
Proof. unfold count_of. rewrite with_status_snoc, length_app. destruct (bool_decide _); cbn; lia. Qed.
Lemma rows_with_snoc s entries e :
  rows_with s (entries ++ [e])
  = rows_with s entries + (if bool_decide (status e = s) then record_count (data_file e) else 0).
Proof.
  unfold rows_with. rewrite with_status_snoc, fmap_app, foldr_app.
  assert (Hf : forall l a, foldr Z.add a l = foldr Z.add 0 l + a)
    by (induction l as [|x l IH]; intros a; cbn; [lia|]; rewrite IH; lia).
  rewrite Hf. destruct (bool_decide _); cbn; lia.
Qed.

Lemma live_snoc entries e :
  live_sequence_numbers (entries ++ [e])
  = live_sequence_numbers entries
    ++ match entry_sequence_number e with Some n => if is_alive e then [n] else [] | None => [] end.
Proof.
  unfold live_sequence_numbers. rewrite omap_app. cbn.
  by destruct (is_alive e), (entry_sequence_number e).
Qed.

Lemma min_snoc (o : option Z) l n :
  match o with Some m => m ∈ l /\ Forall (fun k => m <= k) l | None => l = [] end ->
  let m' := match o with Some m => Z.min m n | None => n end in
  m' ∈ l ++ [n] /\ Forall (fun k => m' <= k) (l ++ [n]).
Proof.
  destruct o as [m|]; cbn.
  - intros [Hin Hl]. split.
    + destruct (Z.min_spec m n) as [[_ ->]|[_ ->]]; apply elem_of_snoc; auto.
    + apply Forall_app. split; [|apply Forall_singleton; lia].
      eapply Forall_impl; [exact Hl|]. intros k ?. cbn in *. lia.
  - intros ->. split; [by left|]. by apply Forall_singleton.
Qed.

Lemma entry_recorded_same w w' e :
  writer_metadata w' = writer_metadata w -> writer_snapshot_id w' = writer_snapshot_id w ->
  entry_recorded w e -> entry_recorded w' e.
Proof. unfold entry_recorded, check_data_file. by intros -> ->. Qed.

(** What recording an entry does to each field. *)
Lemma add_entry_inner_fields w e w' :
  add_entry_inner w e = Ok w' ->
  let one s := if bool_decide (status e = s) then 1 else 0 in
  let rows s := if bool_decide (status e = s) then record_count (data_file e) else 0 in
  manifest_entries w' = manifest_entries w ++ [e]
  /\ writer_metadata w' = writer_metadata w /\ writer_snapshot_id w' = writer_snapshot_id w
  /\ (forall n, added_files w = wrapU 32 n -> added_files w' = wrapU 32 (n + one Added))
  /\ (forall n, existing_files w = wrapU 32 n -> existing_files w' = wrapU 32 (n + one Existing))
  /\ (forall n, deleted_files w = wrapU 32 n -> deleted_files w' = wrapU 32 (n + one Deleted))
  /\ (forall n, added_rows w = wrapU 64 n -> added_rows w' = wrapU 64 (n + rows Added))
  /\ (forall n, existing_rows w = wrapU 64 n -> existing_rows w' = wrapU 64 (n + rows Existing))
  /\ (forall n, deleted_rows w = wrapU 64 n -> deleted_rows w' = wrapU 64 (n + rows Deleted))
  /\ min_seq_num w' =
       match entry_sequence_number e with
       | Some n => if is_alive e then Some (match min_seq_num w with Some v => Z.min v n | None => n end)
                   else min_seq_num w
       | None => min_seq_num w
       end
  /\ (status e <> Added -> is_Some (entry_sequence_number e) /\ is_Some (file_sequence_number e)).
Proof.
  unfold add_entry_inner. intros ([] & Hc & E)%bind_Ok. cbv zeta in E |- *.
  assert (Hs : status e <> Added -> is_Some (entry_sequence_number e) /\ is_Some (file_sequence_number e)).
  { intros Hs. unfold ensure in Hc. rewrite (bool_decide_eq_false_2 _ Hs) in Hc. cbn in Hc.
    destruct (bool_decide_reflect (is_Some (entry_sequence_number e))),
      (bool_decide_reflect (is_Some (file_sequence_number e))); done. }
  clear Hc. unfold is_alive in *.
  destruct (status e), (entry_sequence_number e); injection E as <-; cbn;
    split_and!; try done; intros n Hn; rewrite ?Z.add_0_r, ?Hn, ?wrapU_add; done.
Qed.

Lemma add_entry_inner_ok w e w' :
  writer_ok w -> entry_recorded w e -> add_entry_inner w e = Ok w' -> writer_ok w'.
Proof.
  intros [] He E. apply add_entry_inner_fields in E
    as (Hent & Hm & Hsid & Ha & Hx & Hd & Har & Hxr & Hdr & Hmin & _).
  split; rewrite ?Hent, ?count_of_snoc, ?rows_with_snoc, ?live_snoc; auto.
  - rewrite Hmin. destruct (entry_sequence_number e) as [n|]; [|by rewrite app_nil_r].
    destruct (is_alive e); [|by rewrite app_nil_r]. by apply min_snoc.
  - apply Forall_app. split; [|apply Forall_singleton; by eapply entry_recorded_same].
    eapply Forall_impl; [exact wo_entries0|]. intros ?. by apply entry_recorded_same.
Qed.

Lemma valid_sequence_number_Some o n : o ≫= valid_sequence_number = Some n -> 0 <= n.
Proof. destruct o as [m|]; cbn; [|done]. unfold valid_sequence_number. destruct (0 <=? m) eqn:?; [|done]. intros [= <-]. lia. Qed.

(** Every operation checks the file and records one entry. *)
Lemma run_writer_op_records w op w' :
  run_writer_op w op = Ok w' -> exists e, entry_recorded w e /\ add_entry_inner w e = Ok w'.
Proof.
  destruct op; cbn [run_writer_op]; unfold add_entry, add_file, add_delete_entry, add_delete_file,
    add_existing_entry, add_existing_file; intros ([] & Hc & E)%bind_Ok; eexists;
    (split; [|exact E]); (split; [exact Hc|]); cbn [status entry_snapshot_id file_sequence_number
      entry_sequence_number data_file].
  all: try (apply add_entry_inner_fields in E as (_ & _ & _ & _ & _ & _ & _ & _ & _ & _ & Hs); cbn in Hs; by apply Hs).
  - split_and!; try done. apply valid_sequence_number_Some.
  - split_and!; try done. intros n Hn. by apply (valid_sequence_number_Some (Some seq)).
Qed.

(** ** Properties *)

(** However a manifest is written entry by entry, the counters are the numbers of entries and
    rows of each status (as [u32] and [u64]), the minimal sequence number is that of the live
    entries, the content of every file is that of the manifest, and every entry that is not
    new carries its sequence numbers. *)
Theorem writer_counts_entries builder version content ops w :
  try_fold run_writer_op (build_writer builder version content) ops = Ok w -> writer_ok w.
Proof.
  assert (writer_ok (build_writer builder version content)) as Hok by apply writer_new_ok.
  revert Hok. generalize (build_writer builder version content) as w0.
  induction ops as [|op ops IH]; intros w0 Hok; cbn [try_fold]; [by intros [= <-]|].
  intros (w1 & Hop & E)%bind_Ok. apply (IH w1); [|exact E].
  apply run_writer_op_records in Hop as (e & He & Hadd). by eapply add_entry_inner_ok.
Qed.

Lemma write_manifest_file_Ok {V : ValueLib} header encode write_ok w files m files' :
  write_manifest_file header encode write_ok w files = Ok (m, files') ->
  exists fields sums bytes,
    partition_type (manifest_partition_spec (writer_metadata w)) (manifest_schema (writer_metadata w)) = Ok fields
    /\ construct_partition_summaries fields (manifest_entries w) = Ok sums
    /\ encode (writer_metadata w) fields (manifest_entries w) = Ok bytes
    /\ partitions m = Some sums /\ files' = <[output w := bytes]> files.
Proof.
  unfold write_manifest_file. intros (fields & Hf & E)%bind_Ok.
  apply bind_Ok in E as ([] & _ & E). apply bind_Ok in E as (sums & Hs & E).
  apply bind_Ok in E as (bytes & Hb & E). apply bind_Ok in E as ([] & _ & [= <- <-]).
  by exists fields, sums, bytes.
Qed.

(** C18 A scan does not skip a manifest that the writer wrote and that has an entry whose
    partition tuple matches the partition filter, if the leaves of the filter compare columns
    of the partition type with literals of their types that are not NaN nor negative zero,
    prefixes with text, no partition value in a compared column is a negative zero, and none in
    an ordered column is NaN ([leaf_reads]). *)
Theorem written_manifest_kept {V : ValueLib} {L : ValueLibLaws V} header encode write_ok w files
    m files' fields filter e :
  write_manifest_file header encode write_ok w files = Ok (m, files') ->
  partition_type (manifest_partition_spec (writer_metadata w)) (manifest_schema (writer_metadata w)) = Ok fields ->
  leaves (leaf_reads fields ((fun e => partition (data_file e)) <$> manifest_entries w)) filter ->
  e ∈ manifest_entries w ->
  expression_eval (mkExpressionEvaluator filter) (data_file e) = Ok true ->
  manifest_eval (mkManifestEvaluator filter) m = Ok true.
Proof.
  intros Hw Hf Hl He Heval.
  apply write_manifest_file_Ok in Hw as (fields' & sums & bytes & Hf' & Hs & _ & Hp & _).
  assert (fields' = fields) as -> by congruence.
  eapply (manifest_kept m (data_file <$> manifest_entries w)); [by apply list_elem_of_fmap_2| |done].
  cbn. intros p Hp'. assert (p = sums) as -> by congruence. rewrite <- list_fmap_compose.
  clear Heval. induction filter; cbn [leaves] in *; try tauto; by eapply leaf_reads_summarised.
Qed.

(** ** Witness *)

Definition ex_writer_builder : ManifestWriterBuilder :=
  mkManifestWriterBuilder "s3://b/m.avro" (Some 7) None ex_partition_schema
    (mkPartitionSpec 0 [mkPartitionField 1 1000 "a" Transform.Identity]).
Definition ex_writer_ops : list WriterOp :=
  [AddFile ex_file 1; AddFile (ex_file_in [Some (LPrimitive (PrimitiveLiteral.Int 5))]) (-1);
   AddDeleteFile (ex_file_in [None]) 1 (Some 1)].
Definition ex_writer : ManifestWriter :=
  ok_value (build_v2_data ex_writer_builder)
    (try_fold run_writer_op (build_v2_data ex_writer_builder) ex_writer_ops).

Lemma ex_writer_Ok : try_fold run_writer_op (build_v2_data ex_writer_builder) ex_writer_ops = Ok ex_writer.
Proof. apply ok_value_Ok. vm_compute. reflexivity. Qed.

Lemma writer_counts_entries_witness :
  writer_ok ex_writer /\ added_files ex_writer = 2 /\ deleted_files ex_writer = 1
  /\ min_seq_num ex_writer = Some 1.
Proof.
  split; [|by vm_compute].
  apply (writer_counts_entries ex_writer_builder V2 MData ex_writer_ops), ex_writer_Ok.
Defined.

Definition ex_written : result (ManifestFile * gmap string (list Z)) :=
  write_manifest_file (V := concrete_values) (fun _ _ => Ok tt) (fun _ _ _ => Ok [0]) (fun _ => Ok tt)
    ex_writer ∅.
Lemma written_manifest_kept_witness :
  is_ok ex_written = true
  /\ manifest_eval (V := concrete_values) (mkManifestEvaluator ex_filter)
       (ok_value (ex_manifest, ∅) ex_written).1 = Ok true.
Proof.
  split; [vm_compute; reflexivity|].
  refine (written_manifest_kept (V := concrete_values) (fun _ _ => Ok tt) (fun _ _ _ => Ok [0])
            (fun _ => Ok tt) ex_writer ∅ _ (ok_value (ex_manifest, ∅) ex_written).2
            [mkField 1000 "a" false (TPrimitive PrimitiveType.Int)] ex_filter
            (mkManifestEntry Added (Some 7) (Some 1) None ex_file) _ _ _ _ _).
  - vm_compute; reflexivity.
  - vm_compute; reflexivity.
  - exists PrimitiveType.Int, [Some (datum_int 3); Some (datum_int 5); None]. split; [|split; [done|split; [|done]]].
    + split; [done|]. split; [by eexists 0%nat, _|]. split; [vm_compute; reflexivity|].
      intros x Hx. repeat (apply elem_of_cons in Hx as [Hx|Hx]; [by simplify_eq|]). by apply not_elem_of_nil in Hx.
    + intros x Hx. repeat (apply elem_of_cons in Hx as [Hx|Hx]; [by simplify_eq|]). by apply not_elem_of_nil in Hx.
  - vm_compute; left.
  - reflexivity.
Defined.
