(* ===== verification/ManifestList.v ===== *)
(** * Manifest lists (spec/manifest_list.rs)

    The forms of a manifest in a list of each format version, the conversions between them and
    [ManifestFile], and [ManifestListWriter], which assigns sequence numbers and row ids. *)

From S2P Require Import Prelude Utf8 Numerals Values DataFile PartitionSpecs LiteralEq TableMetadata.
From S2P Require Import ManifestWriter.

(** ** Forms of the three versions *)

Record ManifestFileV1 := mkManifestFileV1 {
  v1_manifest_path : string;
  v1_manifest_length : Z;
  v1_partition_spec_id : Z;
  v1_added_snapshot_id : Z;
  v1_added_data_files_count : option Z;
  v1_existing_data_files_count : option Z;
  v1_deleted_data_files_count : option Z;
  v1_added_rows_count : option Z;
  v1_existing_rows_count : option Z;
  v1_deleted_rows_count : option Z;
  v1_partitions : option (list FieldSummary);
  v1_key_metadata : option (list Z);
}.
Record ManifestFileV2 := mkManifestFileV2 {
  v2_manifest_path : string;
  v2_manifest_length : Z;
  v2_partition_spec_id : Z;
  v2_content : Z;
  v2_sequence_number : Z;
  v2_min_sequence_number : Z;
  v2_added_snapshot_id : Z;
  v2_added_files_count : Z;
  v2_existing_files_count : Z;
  v2_deleted_files_count : Z;
  v2_added_rows_count : Z;
  v2_existing_rows_count : Z;
  v2_deleted_rows_count : Z;
  v2_partitions : option (list FieldSummary);
  v2_key_metadata : option (list Z);
}.
(** The third version is the second with a first row id. *)
Record ManifestFileV3 := mkManifestFileV3 {
  v3_base : ManifestFileV2;
  v3_first_row_id : option Z;
}.

(** ** Conversions *)

Definition content_code (c : ManifestContentType) : Z := match c with MData => 0 | MDeletes => 1 end.
Definition content_of_code (value : Z) : result ManifestContentType :=
  if value =? 0 then Ok MData else if value =? 1 then Ok MDeletes else Err (Error DataInvalid).
Definition content_of_text (s : string) : result ManifestContentType :=
  if bool_decide (s = "data")%string then Ok MData
  else if bool_decide (s = "deletes")%string then Ok MDeletes else Err (Error DataInvalid).
Definition content_text (c : ManifestContentType) : string :=
  match c with MData => "data" | MDeletes => "deletes" end.

(** [TryInto] from an unsigned to the signed integer of [n] bits, and back. *)
Definition to_signed (n z : Z) : result Z := if z <? 2 ^ (n - 1) then Ok z else Err (Error DataInvalid).
Definition to_unsigned (z : Z) : result Z := if 0 <=? z then Ok z else Err (Error DataInvalid).

(** [map(TryInto::try_into).transpose()] and [ok_or_else(..)?.try_into()]. *)
Definition transpose {A B} (f : A -> result B) (o : option A) : result (option B) :=
  match o with Some a => Some <$> f a | None => Ok None end.
Definition required {A B} (f : A -> result B) (o : option A) : result B :=
  let? a := ok_or o DataInvalid in f a.

Definition convert_to_serde_key_metadata (key_metadata : option (list Z)) : option (list Z) :=
  match key_metadata with
  | Some (_ :: _) => key_metadata
  | _ => None
  end.

Definition to_v1 (m : ManifestFile) : result ManifestFileV1 :=
  let? a := transpose (to_signed 32) (added_files_count m) in
  let? e := transpose (to_signed 32) (existing_files_count m) in
  let? d := transpose (to_signed 32) (deleted_files_count m) in
  let? ar := transpose (to_signed 64) (added_rows_count m) in
  let? er := transpose (to_signed 64) (existing_rows_count m) in
  let? dr := transpose (to_signed 64) (deleted_rows_count m) in
  Ok (mkManifestFileV1 (manifest_path m) (manifest_length m) (manifest_partition_spec_id m)
        (added_snapshot_id m) a e d ar er dr (partitions m)
        (convert_to_serde_key_metadata (manifest_key_metadata m))).
Definition to_v2 (m : ManifestFile) : result ManifestFileV2 :=
  let? a := required (to_signed 32) (added_files_count m) in
  let? e := required (to_signed 32) (existing_files_count m) in
  let? d := required (to_signed 32) (deleted_files_count m) in
  let? ar := required (to_signed 64) (added_rows_count m) in
  let? er := required (to_signed 64) (existing_rows_count m) in
  let? dr := required (to_signed 64) (deleted_rows_count m) in
  Ok (mkManifestFileV2 (manifest_path m) (manifest_length m) (manifest_partition_spec_id m)
        (content_code (manifest_content m)) (sequence_number m) (min_sequence_number m)
        (added_snapshot_id m) a e d ar er dr (partitions m)
        (convert_to_serde_key_metadata (manifest_key_metadata m))).
Definition to_v3 (m : ManifestFile) : result ManifestFileV3 :=
  let? base := to_v2 m in Ok (mkManifestFileV3 base (manifest_first_row_id m)).

Definition from_v1 (m : ManifestFileV1) : result ManifestFile :=
  let? a := transpose to_unsigned (v1_added_data_files_count m) in
  let? e := transpose to_unsigned (v1_existing_data_files_count m) in
  let? d := transpose to_unsigned (v1_deleted_data_files_count m) in
  let? ar := transpose to_unsigned (v1_added_rows_count m) in
  let? er := transpose to_unsigned (v1_existing_rows_count m) in
  let? dr := transpose to_unsigned (v1_deleted_rows_count m) in
  Ok (mkManifestFile (v1_manifest_path m) (v1_manifest_length m) (v1_partition_spec_id m) MData 0 0
        (v1_added_snapshot_id m) a e d ar er dr (v1_partitions m) (v1_key_metadata m) None).
(** [ManifestFileV2::try_into], and that of version 3, which keeps the first row id. *)
Definition from_v2_with (first_row_id : option Z) (m : ManifestFileV2) : result ManifestFile :=
  let? c := content_of_code (v2_content m) in
  let? a := to_unsigned (v2_added_files_count m) in
  let? e := to_unsigned (v2_existing_files_count m) in
  let? d := to_unsigned (v2_deleted_files_count m) in
  let? ar := to_unsigned (v2_added_rows_count m) in
  let? er := to_unsigned (v2_existing_rows_count m) in
  let? dr := to_unsigned (v2_deleted_rows_count m) in
  Ok (mkManifestFile (v2_manifest_path m) (v2_manifest_length m) (v2_partition_spec_id m) c
        (v2_sequence_number m) (v2_min_sequence_number m) (v2_added_snapshot_id m)
        (Some a) (Some e) (Some d) (Some ar) (Some er) (Some dr)
        (v2_partitions m) (v2_key_metadata m) first_row_id).
Definition from_v2 (m : ManifestFileV2) : result ManifestFile := from_v2_with None m.
Definition from_v3 (m : ManifestFileV3) : result ManifestFile :=
  from_v2_with (v3_first_row_id m) (v3_base m).

(** ** The avro crate

    A file is what [into_inner] gives; a file read with the schema it was written with gives the
    records that were appended. *)
Class AvroLists := {
  avro_file : Type;
  avro_writer : Type;
  avro_writer_new : FormatVersion -> gmap string string -> avro_writer;
  append_v1 : avro_writer -> ManifestFileV1 -> result avro_writer;
  append_v2 : avro_writer -> ManifestFileV2 -> result avro_writer;
  append_v3 : avro_writer -> ManifestFileV3 -> result avro_writer;
  into_inner : avro_writer -> result avro_file;
  read_v1 : avro_file -> result (list ManifestFileV1);
  read_v2 : avro_file -> result (list ManifestFileV2);
  read_v3 : avro_file -> result (list ManifestFileV3);
}.
Class AvroListsLaws (A : AvroLists) := {
  read_back_v1 md rows w f :
    try_fold append_v1 (avro_writer_new V1 md) rows = Ok w -> into_inner w = Ok f -> read_v1 f = Ok rows;
  read_back_v2 md rows w f :
    try_fold append_v2 (avro_writer_new V2 md) rows = Ok w -> into_inner w = Ok f -> read_v2 f = Ok rows;
  read_back_v3 md rows w f :
    try_fold append_v3 (avro_writer_new V3 md) rows = Ok w -> into_inner w = Ok f -> read_v3 f = Ok rows;
}.

(** ** The writer *)

Section list_writer.
Context {A : AvroLists}.

(** [ManifestList::parse_with_version]: the entries of the list. *)
Definition parse_with_version (bs : avro_file) (version : FormatVersion) : result (list ManifestFile) :=
  match version with
  | V1 => let? values := read_v1 bs in mapR from_v1 values
  | V2 => let? values := read_v2 bs in mapR from_v2 values
  | V3 => let? values := read_v3 bs in mapR from_v3 values
  end.

Record ManifestListWriter := mkManifestListWriter {
  list_format_version : FormatVersion;
  list_output_file : string;
  list_avro_writer : avro_writer;
  list_sequence_number : Z;
  list_snapshot_id : Z;
  list_next_row_id : option Z;
}.

Definition list_writer_new (version : FormatVersion) (output : string) (md : gmap string string)
    (seq snapshot_id : Z) (first_row_id : option Z) : ManifestListWriter :=
  mkManifestListWriter version output (avro_writer_new version md) seq snapshot_id first_row_id.

Definition number_text (z : Z) : string := text (to_string_i z).
Definition or_null (z : option Z) : string :=
  match z with Some z => number_text z | None => "null" end.
Definition list_v1 (output : string) (snapshot_id : Z) (parent : option Z) : ManifestListWriter :=
  let md := {[ "snapshot-id" := number_text snapshot_id; "format-version" := "1" ]}%string in
  let md : gmap string string :=
    match parent with
    | Some parent => <["parent-snapshot-id"%string := number_text parent]> md
    | None => md
    end in
  list_writer_new V1 output md 0 snapshot_id None.
Definition list_v2 (output : string) (snapshot_id : Z) (parent : option Z) (seq : Z) : ManifestListWriter :=
  let md : gmap string string :=
    {[ "snapshot-id" := number_text snapshot_id; "sequence-number" := number_text seq;
       "format-version" := "2"; "parent-snapshot-id" := or_null parent ]}%string in
  list_writer_new V2 output md seq snapshot_id None.
Definition list_v3 (output : string) (snapshot_id : Z) (parent : option Z) (seq : Z)
    (first_row_id : option Z) : ManifestListWriter :=
  let md : gmap string string :=
    {[ "snapshot-id" := number_text snapshot_id; "sequence-number" := number_text seq;
       "format-version" := "3"; "parent-snapshot-id" := or_null parent;
       "first-row-id" := or_null first_row_id ]}%string in
  list_writer_new V3 output md seq snapshot_id first_row_id.

#[global] Instance ManifestFile_updatable : Updatable ManifestFile := fun m =>
  mkManifestFile (manifest_path m) (manifest_length m) (manifest_partition_spec_id m)
    (manifest_content m) (sequence_number m) (min_sequence_number m) (added_snapshot_id m)
    (added_files_count m) (existing_files_count m) (deleted_files_count m) (added_rows_count m)
    (existing_rows_count m) (deleted_rows_count m) (partitions m) (manifest_key_metadata m)
    (manifest_first_row_id m).

Definition assign_sequence_numbers (self : ManifestListWriter) (m : ManifestFile) : result ManifestFile :=
  let own := added_snapshot_id m =? list_snapshot_id self in
  let? m :=
    if sequence_number m =? UNASSIGNED_SEQUENCE_NUMBER then
      let? _ := ensure own DataInvalid in Ok (m <| sequence_number := list_sequence_number self |>)
    else Ok m in
  if min_sequence_number m =? UNASSIGNED_SEQUENCE_NUMBER then
    let? _ := ensure own DataInvalid in Ok (m <| min_sequence_number := list_sequence_number self |>)
  else Ok m.

Definition require_row_counts_in_manifest (m : ManifestFile) : result (Z * Z) :=
  let? existing := ok_or (existing_rows_count m) DataInvalid in
  let? added := ok_or (added_rows_count m) DataInvalid in
  Ok (existing, added).
(** [checked_add] of [u64]. *)
Definition checked_add (a b : Z) : result Z :=
  if a + b <? 2 ^ 64 then Ok (a + b) else Err (Error DataInvalid).

(** The manifest, and the next row id of the writer. *)
Definition assign_first_row_id (next_row_id : option Z) (m : ManifestFile) :
    result (ManifestFile * option Z) :=
  match manifest_content m with
  | MData =>
      match next_row_id, manifest_first_row_id m with
      | Some _, Some _ | None, None => Ok (m, next_row_id)
      | None, Some _ => Err (Error Unexpected)
      | Some next, None =>
          let? counts := require_row_counts_in_manifest m in
          let? sum := checked_add next counts.1 in
          let? sum := checked_add sum counts.2 in
          Ok (m <| manifest_first_row_id := Some next |>, Some sum)
      end
  | MDeletes => Ok (m <| manifest_first_row_id := None |>, next_row_id)
  end.

Definition with_appended (self : ManifestListWriter) (w : avro_writer) (next_row_id : option Z) :
    ManifestListWriter :=
  mkManifestListWriter (list_format_version self) (list_output_file self) w
    (list_sequence_number self) (list_snapshot_id self) next_row_id.
Definition add_manifest (self : ManifestListWriter) (m : ManifestFile) : result ManifestListWriter :=
  match list_format_version self with
  | V1 =>
      let? row := to_v1 m in
      let? w := append_v1 (list_avro_writer self) row in
      Ok (with_appended self w (list_next_row_id self))
  | V2 =>
      let? m := assign_sequence_numbers self m in
      let? row := to_v2 m in
      let? w := append_v2 (list_avro_writer self) row in
      Ok (with_appended self w (list_next_row_id self))
  | V3 =>
      let? m := assign_sequence_numbers self m in
      let? assigned := assign_first_row_id (list_next_row_id self) m in
      let? row := to_v3 assigned.1 in
      let? w := append_v3 (list_avro_writer self) row in
      Ok (with_appended self w assigned.2)
  end.
Definition add_manifests (self : ManifestListWriter) (manifests : list ManifestFile) :
    result ManifestListWriter := try_fold add_manifest self manifests.

(** [close], for storage that holds [files]. *)
Definition close (write_ok : string -> result unit) (self : ManifestListWriter)
    (files : gmap string avro_file) : result (gmap string avro_file) :=
  let? data := into_inner (list_avro_writer self) in
  let? _ := write_ok (list_output_file self) in
  Ok (<[list_output_file self := data]> files).
End list_writer.

(** ** What is read back *)

(** The counts of a manifest are unsigned. *)
Definition unsigned (o : option Z) : Prop := match o with Some z => 0 <= z | None => True end.
Definition counts_ok (m : ManifestFile) : Prop :=
  unsigned (added_files_count m) /\ unsigned (existing_files_count m)
  /\ unsigned (deleted_files_count m) /\ unsigned (added_rows_count m)
  /\ unsigned (existing_rows_count m) /\ unsigned (deleted_rows_count m).

(** A version 1 list has no content, sequence numbers or row ids; empty key metadata is not
    kept; a version 2 list has no row ids. *)
Definition as_read (version : FormatVersion) (m : ManifestFile) : ManifestFile :=
  let m := m <| manifest_key_metadata := convert_to_serde_key_metadata (manifest_key_metadata m) |> in
  match version with
  | V1 => m <| manifest_content := MData |> <| sequence_number := 0 |> <| min_sequence_number := 0 |>
            <| manifest_first_row_id := None |>
  | V2 => m <| manifest_first_row_id := None |>
  | V3 => m
  end.

Lemma to_signed_Ok n z z' : to_signed n z = Ok z' -> z' = z.
Proof. unfold to_signed. destruct (_ <? _); by intros [= <-]. Qed.
Lemma to_unsigned_Ok z : 0 <= z -> to_unsigned z = Ok z.
Proof. intros Hz. unfold to_unsigned. by rewrite (proj2 (Z.leb_le 0 z) Hz). Qed.
Lemma required_signed n o z :
  unsigned o -> required (to_signed n) o = Ok z -> o = Some z /\ to_unsigned z = Ok z.
Proof.
  destruct o as [x|]; cbn; [|done]. intros Hx ->%to_signed_Ok. split; [done|]. by apply to_unsigned_Ok.
Qed.
Lemma transpose_signed n o o' :
  unsigned o -> transpose (to_signed n) o = Ok o' -> o' = o /\ transpose to_unsigned o' = Ok o.
Proof.
  destruct o as [x|]; cbn; [|by intros _ [= <-]].
  intros Hx (z & ->%to_signed_Ok & <-)%fmap_Ok. split; [done|]. cbn. by rewrite to_unsigned_Ok.
Qed.
Lemma content_code_roundtrip c : content_of_code (content_code c) = Ok c.
Proof. by destruct c. Qed.

Lemma v1_roundtrip m row : counts_ok m -> to_v1 m = Ok row -> from_v1 row = Ok (as_read V1 m).
Proof.
  intros (Ha & He & Hd & Har & Her & Hdr). unfold to_v1.
  intros (a & Ea & E)%bind_Ok. apply bind_Ok in E as (e & Ee & E). apply bind_Ok in E as (d & Ed & E).
  apply bind_Ok in E as (ar & Ear & E). apply bind_Ok in E as (er & Eer & E).
  apply bind_Ok in E as (dr & Edr & [= <-]).
  apply transpose_signed in Ea as [-> Ea], Ee as [-> Ee], Ed as [-> Ed], Ear as [-> Ear],
    Eer as [-> Eer], Edr as [-> Edr]; try done.
  unfold from_v1. cbn [v1_added_data_files_count v1_existing_data_files_count v1_deleted_data_files_count
    v1_added_rows_count v1_existing_rows_count v1_deleted_rows_count].
  rewrite Ea, Ee, Ed, Ear, Eer, Edr. by destruct m.
Qed.

Lemma v2_roundtrip r m row :
  counts_ok m -> to_v2 m = Ok row ->
  from_v2_with r row = Ok (as_read V3 (m <| manifest_first_row_id := r |>)).
Proof.
  intros (Ha & He & Hd & Har & Her & Hdr). unfold to_v2.
  intros (a & Ea & E)%bind_Ok. apply bind_Ok in E as (e & Ee & E). apply bind_Ok in E as (d & Ed & E).
  apply bind_Ok in E as (ar & Ear & E). apply bind_Ok in E as (er & Eer & E).
  apply bind_Ok in E as (dr & Edr & [= <-]).
  apply required_signed in Ea as [Ha' Ea], Ee as [He' Ee], Ed as [Hd' Ed], Ear as [Har' Ear],
    Eer as [Her' Eer], Edr as [Hdr' Edr]; try done.
  unfold from_v2_with. cbn [v2_content v2_added_files_count v2_existing_files_count v2_deleted_files_count
    v2_added_rows_count v2_existing_rows_count v2_deleted_rows_count].
  rewrite content_code_roundtrip, Ea, Ee, Ed, Ear, Eer, Edr. cbn [mbind result_bind].
  destruct m; cbn in *. by subst.
Qed.

(** ** What is appended *)

Section listed.
Context {A : AvroLists}.

Definition or_number (seq n : Z) : Z := if n =? UNASSIGNED_SEQUENCE_NUMBER then seq else n.
Definition numbered (seq : Z) (m : ManifestFile) : ManifestFile :=
  m <| sequence_number := or_number seq (sequence_number m) |>
    <| min_sequence_number := or_number seq (min_sequence_number m) |>.

(** The rows of a manifest that are given ids when it is listed. *)
Definition new_rows (m : ManifestFile) : Z :=
  match manifest_content m, manifest_first_row_id m with
  | MData, None => default 0 (existing_rows_count m) + default 0 (added_rows_count m)
  | _, _ => 0
  end.
Definition row_id (next : option Z) (m : ManifestFile) : option Z :=
  match manifest_content m, manifest_first_row_id m with
  | MDeletes, _ => None
  | MData, Some first_row_id => Some first_row_id
  | MData, None => next
  end.
Definition rows_total (ms : list ManifestFile) : Z := foldr (fun m n => new_rows m + n) 0 ms.

(** A manifest, and manifests, as they are appended to a list whose next row id is [next]. *)
Definition listed_one (version : FormatVersion) (seq : Z) (next : option Z) (m : ManifestFile) :
    ManifestFile :=
  match version with
  | V1 => m
  | V2 => numbered seq m
  | V3 => numbered seq m <| manifest_first_row_id := row_id next m |>
  end.
Fixpoint listed (version : FormatVersion) (seq : Z) (next : option Z) (ms : list ManifestFile) :
    list ManifestFile :=
  match ms with
  | [] => []
  | m :: ms =>
      listed_one version seq next m :: listed version seq ((fun n => n + new_rows m) <$> next) ms
  end.

Lemma assign_sequence_numbers_Ok w m m' :
  assign_sequence_numbers w m = Ok m' -> m' = numbered (list_sequence_number w) m.
Proof.
  unfold assign_sequence_numbers, numbered, or_number. intros (m1 & E1 & E2)%bind_Ok. destruct m. cbn in *.
  destruct (_ =? _); [apply bind_Ok in E1 as ([] & _ & E1)|]; injection E1 as <-; cbn in E2;
    (destruct (_ =? _); [apply bind_Ok in E2 as ([] & _ & E2)|]); by injection E2 as <-.
Qed.

Lemma checked_add_Ok a b c : checked_add a b = Ok c -> c = a + b /\ c < 2 ^ 64.
Proof. unfold checked_add. destruct (Z.ltb_spec (a + b) (2 ^ 64)); by intros [= <-]. Qed.

Lemma assign_first_row_id_Ok next m m' next' :
  assign_first_row_id next m = Ok (m', next') ->
  m' = m <| manifest_first_row_id := row_id next m |>
  /\ next' = (fun n => n + new_rows m) <$> next
  /\ forall n, next' = Some n -> next = Some n \/ n < 2 ^ 64.
Proof.
  unfold assign_first_row_id, row_id, new_rows. destruct (manifest_content m) eqn:Ec.
  - destruct next as [n|], (manifest_first_row_id m) eqn:Er; try done.
    + intros [= <- <-]. cbn. rewrite Z.add_0_r. split_and!; [|done|auto]. destruct m; cbn in *; by subst.
    + unfold require_row_counts_in_manifest. intros (counts & Hc & E)%bind_Ok.
      apply bind_Ok in Hc as (e & He & (a & Ha & [= <-])%bind_Ok).
      apply bind_Ok in E as (s1 & [-> _]%checked_add_Ok & E).
      apply bind_Ok in E as (s2 & [-> Hlt]%checked_add_Ok & [= <- <-]). unfold ok_or in He, Ha.
      destruct m; cbn in *.
      destruct existing_rows_count; [injection He as ->|done].
      destruct added_rows_count; [injection Ha as ->|done]. cbn in *. split_and!; [done|by rewrite Z.add_assoc|]. intros k [= <-]. by right.
    + intros [= <- <-]. split_and!; [|done|done]. destruct m; cbn in *; by subst.
  - intros [= <- <-]. split_and!; [done| |auto]. destruct next; cbn; [by rewrite Z.add_0_r|done].
Qed.

(** The rows of a list of a version, as its form allows. *)
Definition row_of (version : FormatVersion) : Type :=
  match version with V1 => ManifestFileV1 | V2 => ManifestFileV2 | V3 => ManifestFileV3 end.
Definition to_row (version : FormatVersion) : ManifestFile -> result (row_of version) :=
  match version with V1 => to_v1 | V2 => to_v2 | V3 => to_v3 end.
Definition from_row (version : FormatVersion) : row_of version -> result ManifestFile :=
  match version with V1 => from_v1 | V2 => from_v2 | V3 => from_v3 end.
Definition append_row (version : FormatVersion) : avro_writer -> row_of version -> result avro_writer :=
  match version with V1 => append_v1 | V2 => append_v2 | V3 => append_v3 end.
Definition read_rows (version : FormatVersion) : avro_file -> result (list (row_of version)) :=
  match version with V1 => read_v1 | V2 => read_v2 | V3 => read_v3 end.

Lemma parse_rows bs version :
  parse_with_version bs version = (let? values := read_rows version bs in mapR (from_row version) values).
Proof. by destruct version. Qed.
Lemma row_roundtrip version m row :
  counts_ok m -> to_row version m = Ok row -> from_row version row = Ok (as_read version m).
Proof.
  intros Hc. destruct version; cbn.
  - by apply v1_roundtrip.
  - intros Hr. unfold from_v2. rewrite (v2_roundtrip None m row Hc Hr). by destruct m.
  - unfold to_v3, from_v3. intros (base & Hr & [= <-])%bind_Ok. cbn.
    rewrite (v2_roundtrip _ m base Hc Hr). by destruct m.
Qed.

Lemma add_manifest_Ok w m w' :
  add_manifest w m = Ok w' ->
  exists row,
    to_row (list_format_version w)
      (listed_one (list_format_version w) (list_sequence_number w) (list_next_row_id w) m) = Ok row
    /\ append_row (list_format_version w) (list_avro_writer w) row = Ok (list_avro_writer w')
    /\ w' = with_appended w (list_avro_writer w')
              (match list_format_version w with
               | V3 => (fun n => n + new_rows m) <$> list_next_row_id w
               | _ => list_next_row_id w
               end)
    /\ forall n, list_next_row_id w' = Some n -> list_next_row_id w = Some n \/ n < 2 ^ 64.
Proof.
  unfold add_manifest, listed_one. destruct (list_format_version w).
  - intros (row & Hr & (aw & Ha & [= <-])%bind_Ok)%bind_Ok. exists row. by split_and!; auto.
  - intros (m' & ->%assign_sequence_numbers_Ok & E)%bind_Ok.
    apply bind_Ok in E as (row & Hr & (aw & Ha & [= <-])%bind_Ok). exists row. by split_and!; auto.
  - intros (m' & ->%assign_sequence_numbers_Ok & E)%bind_Ok. apply bind_Ok in E as ([m1 next] & Ef & E).
    apply bind_Ok in E as (row & Hr & (aw & Ha & [= <-])%bind_Ok). cbn [fst snd] in *.
    apply assign_first_row_id_Ok in Ef as (-> & -> & Hn). exists row.
    assert (row_id (list_next_row_id w) (numbered (list_sequence_number w) m)
            = row_id (list_next_row_id w) m) as E by by destruct m.
    rewrite E in Hr. by split_and!.
Qed.

Lemma add_manifests_Ok w ms w' :
  add_manifests w ms = Ok w' ->
  exists rows,
    mapR (to_row (list_format_version w))
      (listed (list_format_version w) (list_sequence_number w) (list_next_row_id w) ms) = Ok rows
    /\ try_fold (append_row (list_format_version w)) (list_avro_writer w) rows = Ok (list_avro_writer w')
    /\ list_format_version w' = list_format_version w /\ list_output_file w' = list_output_file w
    /\ (list_format_version w = V3 ->
        list_next_row_id w' = (fun n => n + rows_total ms) <$> list_next_row_id w
        /\ forall n, list_next_row_id w' = Some n -> list_next_row_id w = Some n \/ n < 2 ^ 64).
Proof.
  unfold add_manifests. revert w. induction ms as [|m ms IH]; intros w; cbn [try_fold].
  - intros [= <-]. exists []. split_and!; try done. intros _. split; [|auto].
    cbn. by destruct (list_next_row_id w); cbn; [rewrite Z.add_0_r|].
  - intros (w1 & (row & Hr & Ha & E & Hb)%add_manifest_Ok & Hrec)%bind_Ok.
    specialize (IH _ Hrec).
    assert (list_format_version w1 = list_format_version w) as Ev by by rewrite E.
    assert (list_sequence_number w1 = list_sequence_number w) as Es by by rewrite E.
    assert (list_output_file w1 = list_output_file w) as Eo by by rewrite E.
    rewrite Ev, Es in IH. destruct IH as (rows & Hm & Hf & Hv & Ho & Hn). exists (row :: rows). cbn [listed try_fold mapR].
    rewrite Hr. cbn [mbind result_bind].
    assert (listed (list_format_version w) (list_sequence_number w)
              ((fun n => n + new_rows m) <$> list_next_row_id w) ms
            = listed (list_format_version w) (list_sequence_number w) (list_next_row_id w1) ms) as Elist.
    { rewrite E. destruct (list_format_version w); [..|done]; cbn; clear;
        generalize (list_next_row_id w) at 2; generalize ((fun n => n + new_rows m) <$> list_next_row_id w);
        induction ms as [|x ms IH]; intros o1 o2; cbn; [done| |done|]; by rewrite (IH _ ((fun n => n + new_rows x) <$> o2)). }
    rewrite Elist, Hm. cbn [mbind result_bind]. split; [done|]. split; [by rewrite Ha|].
    split_and!; [congruence..|]. intros V. specialize (Hn V) as [Hn Hlt]. rewrite V in E. split.
    + rewrite Hn, E. cbn. destruct (list_next_row_id w); cbn; [|done]. by rewrite Z.add_assoc.
    + intros n Hin. destruct (Hlt n Hin) as [H|]; [|by right]. by apply Hb.
Qed.
End listed.

(** ** Properties *)

Section properties.
Context {A : AvroLists}.

Lemma listed_counts_ok version seq next ms :
  Forall counts_ok ms -> Forall counts_ok (listed version seq next ms).
Proof.
  intros H. revert next. induction H as [|m ms Hm _ IH]; intros next; cbn; constructor; [|apply IH].
  destruct version; by destruct m.
Qed.

(** Only a version 3 list assigns row ids. *)
Lemma add_manifests_no_rows w ms w' :
  list_format_version w <> V3 -> add_manifests w ms = Ok w' -> list_next_row_id w' = list_next_row_id w.
Proof.
  unfold add_manifests. revert w. induction ms as [|m ms IH]; intros w Hv; cbn [try_fold]; [by intros [= <-]|].
  intros (w1 & (row & _ & _ & E & _)%add_manifest_Ok & Hrec)%bind_Ok.
  rewrite (IH w1); [|by rewrite E|done]. rewrite E. by destruct (list_format_version w).
Qed.
Lemma to_unsigned_nonneg z n : to_unsigned z = Ok n -> 0 <= n.
Proof. unfold to_unsigned. destruct (Z.leb_spec 0 z); by intros [= <-]. Qed.
Lemma transpose_nonneg o o' : transpose to_unsigned o = Ok o' -> unsigned o'.
Proof. destruct o; cbn; [intros (n & Hn%to_unsigned_nonneg & <-)%fmap_Ok; done|by intros [= <-]]. Qed.
(** The counters of manifests that were read from a list are not negative. *)
Lemma parsed_counts_ok bs version ms : parse_with_version bs version = Ok ms -> Forall counts_ok ms.
Proof.
  destruct version; cbn [parse_with_version]; intros (rows & _ & Hm%mapR_Ok)%bind_Ok;
    induction Hm as [|row m rows ms Hr _ IH]; constructor; try done; clear IH.
  - unfold from_v1 in Hr.
    repeat (apply bind_Ok in Hr as (? & ?%transpose_nonneg & Hr)). by injection Hr as <-.
  - unfold from_v2, from_v2_with in Hr. apply bind_Ok in Hr as (? & _ & Hr).
    repeat (apply bind_Ok in Hr as (? & ?%to_unsigned_nonneg & Hr)). by injection Hr as <-.
  - unfold from_v3, from_v2_with in Hr. apply bind_Ok in Hr as (? & _ & Hr).
    repeat (apply bind_Ok in Hr as (? & ?%to_unsigned_nonneg & Hr)). by injection Hr as <-.
Qed.

Lemma list_reads_back `{!AvroListsLaws A} version output md seq snapshot_id first ms w
    write_ok files files' :
  Forall counts_ok ms ->
  add_manifests (list_writer_new version output md seq snapshot_id first) ms = Ok w ->
  close write_ok w files = Ok files' ->
  exists bs, files' !! output = Some bs
    /\ parse_with_version bs version = Ok (as_read version <$> listed version seq first ms).
Proof.
  intros Hc Hadd Hclose. apply add_manifests_Ok in Hadd as (rows & Hm & Hf & _ & Ho & _).
  cbn [list_writer_new list_format_version list_sequence_number list_next_row_id list_avro_writer
    list_output_file] in *.
  unfold close in Hclose. apply bind_Ok in Hclose as (bs & Hb & ([] & _ & [= <-])%bind_Ok).
  exists bs. rewrite Ho. split; [apply lookup_insert_eq|]. rewrite parse_rows.
  assert (read_rows version bs = Ok rows) as ->.
  { destruct version; cbn in *; [by eapply read_back_v1|by eapply read_back_v2|by eapply read_back_v3]. }
  cbn [mbind result_bind]. apply mapR_Ok. apply mapR_Ok in Hm.
  apply (listed_counts_ok version seq first) in Hc.
  clear Hf. revert Hc. induction Hm as [|m row ms' rows' Hr _ IH]; intros Hc; [constructor|].
  apply Forall_cons in Hc as [Hm Hc]. rewrite fmap_cons.
  constructor; [by apply row_roundtrip|by apply IH].
Qed.

(** C26 A manifest list that was written and is parsed again with its version gives the manifests
    that were added, in their order, with the sequence numbers and row ids that the writer
    assigns, apart from what the form of the version does not hold. *)
Theorem manifest_list_roundtrip `{!AvroListsLaws A} version output md seq snapshot_id first ms w
    write_ok files files' :
  Forall counts_ok ms ->
  add_manifests (list_writer_new version output md seq snapshot_id first) ms = Ok w ->
  close write_ok w files = Ok files' ->
  exists bs, files' !! output = Some bs
    /\ parse_with_version bs version = Ok (as_read version <$> listed version seq first ms).
Proof. apply list_reads_back. Qed.

Lemma new_rows_nonneg m : counts_ok m -> 0 <= new_rows m.
Proof.
  intros (_ & _ & _ & Ha & He & _). unfold new_rows, unsigned in *.
  destruct (manifest_content m), (manifest_first_row_id m), (existing_rows_count m), (added_rows_count m); cbn; lia.
Qed.
Lemma rows_total_cons m ms : rows_total (m :: ms) = new_rows m + rows_total ms.
Proof. done. Qed.
Lemma rows_total_app ms ms' : rows_total (ms ++ ms') = rows_total ms + rows_total ms'.
Proof. unfold rows_total. induction ms as [|m ms IH]; cbn; [done|]. rewrite IH. lia. Qed.
Lemma rows_total_nonneg ms : Forall counts_ok ms -> 0 <= rows_total ms.
Proof. unfold rows_total. induction 1 as [|m ms Hm%new_rows_nonneg _ IH]; cbn; lia. Qed.

Lemma listed_row_id seq n ms i m m' :
  listed V3 seq (Some n) ms !! i = Some m' -> ms !! i = Some m ->
  manifest_first_row_id m' = row_id (Some (n + rows_total (take i ms))) m.
Proof.
  revert n i. induction ms as [|x ms IH]; intros n [|i]; cbn [listed lookup list_lookup take]; try done.
  - intros [= <-] [= ->]. cbn. by rewrite Z.add_0_r.
  - intros Hi Hm. rewrite (IH _ _ Hi Hm). cbn. by rewrite Z.add_assoc.
Qed.

(** A data manifest that has no row ids yet, at a position of a list. *)
Definition unassigned_at (ms : list ManifestFile) (i : nat) (m : ManifestFile) : Prop :=
  ms !! i = Some m /\ manifest_content m = MData /\ manifest_first_row_id m = None.

(** The data manifests of a version 3 list that had no row ids are given ranges that follow
    each other from the next row id of the list to the one it ends with, which fits a [u64]:
    the ranges are disjoint, and each holds the existing and the added rows of its manifest. *)
Theorem row_ids_assigned output snapshot_id parent seq n ms w :
  Forall counts_ok ms ->
  add_manifests (list_v3 output snapshot_id parent seq (Some n)) ms = Ok w ->
  list_next_row_id w = Some (n + rows_total ms)
  /\ (rows_total ms = 0 \/ n + rows_total ms < 2 ^ 64)
  /\ (forall i m m', unassigned_at ms i m -> listed V3 seq (Some n) ms !! i = Some m' ->
        exists k, manifest_first_row_id m' = Some k /\ n <= k /\ k + new_rows m <= n + rows_total ms)
  /\ (forall i j m1 m1' m2 m2' k1 k2, (i < j)%nat ->
        unassigned_at ms i m1 -> listed V3 seq (Some n) ms !! i = Some m1' ->
        unassigned_at ms j m2 -> listed V3 seq (Some n) ms !! j = Some m2' ->
        manifest_first_row_id m1' = Some k1 -> manifest_first_row_id m2' = Some k2 ->
        k1 + new_rows m1 <= k2).
Proof.
  intros Hc Hadd. apply add_manifests_Ok in Hadd as (_ & _ & _ & _ & _ & Hn).
  destruct (Hn eq_refl) as [Hnext Hlt]. cbn in Hnext, Hlt.
  assert (Hid : forall i m m', unassigned_at ms i m -> listed V3 seq (Some n) ms !! i = Some m' ->
            manifest_first_row_id m' = Some (n + rows_total (take i ms))).
  { intros i m m' (Hi & Hd & Hr) Hl. rewrite (listed_row_id _ _ _ _ _ _ Hl Hi). unfold row_id. by rewrite Hd, Hr. }
  assert (Hcut : forall i, 0 <= rows_total (take i ms)) by (intros; by apply rows_total_nonneg, Forall_take).
  assert (Hsum : forall i m, ms !! i = Some m ->
            rows_total ms = rows_total (take i ms) + new_rows m + rows_total (drop (S i) ms)).
  { intros i m Hi. rewrite <- (take_drop_middle ms i m Hi) at 1. rewrite rows_total_app, rows_total_cons. lia. }
  assert (Hrest : forall i, 0 <= rows_total (drop i ms)) by (intros; by apply rows_total_nonneg, Forall_drop).
  split; [done|]. split; [|split].
  - destruct (Hlt _ Hnext) as [[= E]|H]; [left; lia|by right].
  - intros i m m' Hu Hl. exists (n + rows_total (take i ms)). split; [by eapply Hid|].
    specialize (Hcut i). specialize (Hrest (S i)). rewrite (Hsum i m) by apply Hu. lia.
  - intros i j m1 m1' m2 m2' k1 k2 Hij H1 L1 H2 L2. rewrite (Hid _ _ _ H1 L1), (Hid _ _ _ H2 L2).
    intros [= <-] [= <-].
    assert (take j ms !! i = Some m1) as Hi by (rewrite lookup_take_lt by lia; apply H1).
    rewrite <- (take_drop_middle (take j ms) i m1 Hi), rows_total_app, rows_total_cons, take_take, Nat.min_l by lia.
    assert (0 <= rows_total (drop (S i) (take j ms)))
      by (apply rows_total_nonneg, Forall_drop, Forall_take, Hc). lia.
Qed.
End properties.

(** ** Witness: a file of records *)

Definition ex_records : Type := list ManifestFileV1 * list ManifestFileV2 * list ManifestFileV3.
#[global] Instance ex_avro : AvroLists := {|
  avro_file := ex_records;
  avro_writer := ex_records;
  avro_writer_new _ _ := ([], [], []);
  append_v1 w r := Ok (w.1.1 ++ [r], w.1.2, w.2);
  append_v2 w r := Ok (w.1.1, w.1.2 ++ [r], w.2);
  append_v3 w r := Ok (w.1.1, w.1.2, w.2 ++ [r]);
  into_inner w := Ok w;
  read_v1 f := Ok f.1.1;
  read_v2 f := Ok f.1.2;
  read_v3 f := Ok f.2;
|}.
Lemma fold_appends {W R} (app : W -> R -> result W) (get : W -> list R) w rows w' :
  (forall w r w', app w r = Ok w' -> get w' = get w ++ [r]) ->
  try_fold app w rows = Ok w' -> get w' = get w ++ rows.
Proof.
  intros Happ. revert w. induction rows as [|r rows IH]; intros w; cbn; [intros [= <-]; by rewrite app_nil_r|].
  intros (w1 & Hw & E)%bind_Ok. rewrite (IH _ E), (Happ _ _ _ Hw), <- app_assoc. done.
Qed.
#[global] Instance ex_avro_laws : AvroListsLaws ex_avro.
Proof.
  split; intros md rows w f Hf [= <-]; cbn; f_equal.
  - apply (fold_appends (append_v1 (AvroLists := ex_avro)) (fun w : ex_records => w.1.1)) in Hf; [done|by intros ??? [= <-]].
  - apply (fold_appends (append_v2 (AvroLists := ex_avro)) (fun w : ex_records => w.1.2)) in Hf; [done|by intros ??? [= <-]].
  - apply (fold_appends (append_v3 (AvroLists := ex_avro)) (fun w : ex_records => w.2)) in Hf; [done|by intros ??? [= <-]].
Qed.

(** A data manifest of this snapshot, one of an older snapshot, and one of deletes. *)
Definition ex_listed (path : string) (c : ManifestContentType) (seq added : Z) (first : option Z) : ManifestFile :=
  mkManifestFile path 10 0 c seq seq (if seq =? -1 then 7 else 3) (Some 1) (Some 0) (Some 0)
    (Some added) (Some 2) (Some 0) None (Some []) first.
Definition ex_list : list ManifestFile :=
  [ex_listed "a" MData (-1) 5 None; ex_listed "b" MDeletes 4 9 None; ex_listed "c" MData 4 3 (Some 0);
   ex_listed "d" MData 4 8 None]%string.
Definition ex_list_new : ManifestListWriter := list_v3 "s3://b/list.avro" 7 (Some 3) 5 (Some 100).
Definition ex_list_writer : ManifestListWriter := ok_value ex_list_new (add_manifests ex_list_new ex_list).
Lemma ex_list_Ok : add_manifests ex_list_new ex_list = Ok ex_list_writer.
Proof. apply ok_value_Ok. vm_compute. reflexivity. Qed.
Lemma ex_list_counts : Forall counts_ok ex_list.
Proof. repeat constructor; done. Qed.

Lemma manifest_list_roundtrip_witness : exists bs,
  parse_with_version bs V3 = Ok (as_read V3 <$> listed V3 5 (Some 100) ex_list)
  /\ manifest_first_row_id <$> listed V3 5 (Some 100) ex_list = [Some 100; None; Some 0; Some 107].
Proof.
  destruct (manifest_list_roundtrip V3 "s3://b/list.avro"
              {[ "snapshot-id" := number_text 7; "sequence-number" := number_text 5;
                 "format-version" := "3"; "parent-snapshot-id" := or_null (Some 3);
                 "first-row-id" := or_null (Some 100) ]}%string 5 7 (Some 100) ex_list
              ex_list_writer (fun _ => Ok tt) ∅ (<["s3://b/list.avro"%string := list_avro_writer ex_list_writer]> ∅))
    as (bs & _ & E); [apply ex_list_counts|apply ex_list_Ok|vm_compute; reflexivity|].
  exists bs. split; [exact E|vm_compute; reflexivity].
Defined.

Lemma row_ids_assigned_witness : list_next_row_id ex_list_writer = Some 117.
Proof.
  destruct (row_ids_assigned "s3://b/list.avro" 7 (Some 3) 5 100 ex_list ex_list_writer) as [E _];
    [apply ex_list_counts|apply ex_list_Ok|]. rewrite E. vm_compute. reflexivity.
Defined.
