(* ===== verification/MetadataBuilder.v ===== *)
(** * The builder of table metadata (spec/table_metadata_builder.rs)

    Every operation of [TableMetadataBuilder], as a function from a builder to the builder it
    returns, and [build].  The order in which a hash map is iterated is that of [HashOrder];
    clock readings and fresh UUIDs are arguments. *)

From S2P Require Import Prelude Utf8 Numerals Values Schema Transform.
From S2P Require Import PartitionSpecs SortOrders LiteralEq TableMetadata.

(** ** Iteration of hash maps *)

(** [hash_iter m] is the order in which [m] is iterated; [same_iteration] is whether two hash
    sets, each with its own seed, are iterated as the same sequence. *)
Class HashOrder := {
  hash_iter : forall {K} `{Countable K} {A}, gmap K A -> list (K * A);
  same_iteration : gset Z -> gset Z -> bool;
}.
Class HashOrderLaws (O : HashOrder) := {
  hash_iter_perm : forall {K} `{Countable K} {A} (m : gmap K A), hash_iter m ≡ₚ map_to_list m;
  same_iteration_eq : forall s t : gset Z, same_iteration s t = true -> s = t;
}.

(** ** Data *)

Inductive TableUpdate :=
| UpgradeFormatVersion (format_version : FormatVersion)
| AssignUuid (uuid : Z)
| AddSchema (schema : Schema)
| SetCurrentSchema (schema_id : Z)
| AddSpec (spec : UnboundPartitionSpec)
| SetDefaultSpec (spec_id : Z)
| AddSortOrder (sort_order : SortOrder)
| SetDefaultSortOrder (sort_order_id : Z)
| AddSnapshot (snapshot : Snapshot)
| SetSnapshotRef (ref_name : string) (reference : SnapshotReference)
| RemoveSnapshots (snapshot_ids : list Z)
| RemoveSnapshotRef (ref_name : string)
| SetLocation (location : string)
| SetProperties (updates : gmap string string)
| RemoveProperties (removals : list string)
| RemovePartitionSpecs (spec_ids : list Z)
| SetStatistics (statistics : StatisticsFile)
| RemoveStatistics (snapshot_id : Z)
| SetPartitionStatistics (partition_statistics : PartitionStatisticsFile)
| RemovePartitionStatistics (snapshot_id : Z)
| RemoveSchemas (schema_ids : list Z)
| AddEncryptionKey (encryption_key : EncryptedKey)
| RemoveEncryptionKey (key_id : string).

Record TableMetadataBuilder := mkTableMetadataBuilder {
  metadata : TableMetadata;
  changes : list TableUpdate;
  last_added_schema_id : option Z;
  last_added_spec_id : option Z;
  last_added_order_id : option Z;
  previous_history_entry : option MetadataLog;
  b_last_updated_ms : option Z;
}.
#[global] Instance TableMetadataBuilder_updatable : Updatable TableMetadataBuilder := fun b =>
  mkTableMetadataBuilder (metadata b) (changes b) (last_added_schema_id b) (last_added_spec_id b)
    (last_added_order_id b) (previous_history_entry b) (b_last_updated_ms b).

Record TableMetadataBuildResult := mkBuildResult {
  built_metadata : TableMetadata;
  built_changes : list TableUpdate;
  expired_metadata_logs : list MetadataLog;
}.

Definition LAST_ADDED : Z := -1.
Definition FIRST_FIELD_ID : Z := 1.
Definition DEFAULT_SCHEMA_ID : Z := 0.
Definition RESERVED_PROPERTIES : list string :=
  ["format-version"; "uuid"; "snapshot-count"; "current-snapshot-id"; "current-snapshot-summary";
   "current-snapshot-timestamp-ms"; "current-schema"; "default-partition-spec";
   "default-sort-order"]%string.
Definition PROPERTY_METADATA_PREVIOUS_VERSIONS_MAX : string := "write.metadata.previous-versions-max".
Definition PROPERTY_METADATA_PREVIOUS_VERSIONS_MAX_DEFAULT : Z := 100.

(** [self.changes.push], and assignment of the metadata. *)
Definition push_change (self : TableMetadataBuilder) (u : TableUpdate) : TableMetadataBuilder :=
  self <| changes := changes self ++ [u] |>.
Definition with_metadata (self : TableMetadataBuilder) (m : TableMetadata) : TableMetadataBuilder :=
  self <| metadata := m |>.

(** [TableMetadataBuilder::new_from_metadata]. *)
Definition new_from_metadata (previous : TableMetadata) (current_file_location : option string) :
    TableMetadataBuilder :=
  mkTableMetadataBuilder previous [] None None None
    ((fun l => mkMetadataLog l (last_updated_ms previous)) <$> current_file_location) None.

(** ** Fields without structure *)

Definition assign_uuid (self : TableMetadataBuilder) (uuid : Z) : TableMetadataBuilder :=
  if table_uuid (metadata self) =? uuid then self
  else push_change (with_metadata self (metadata self <| table_uuid := uuid |>)) (AssignUuid uuid).

Definition upgrade_format_version (self : TableMetadataBuilder) (v : FormatVersion) :
    result TableMetadataBuilder :=
  let? _ := ensure (version_u8 (format_version (metadata self)) <=? version_u8 v) DataInvalid in
  if bool_decide (v = format_version (metadata self)) then Ok self
  else
    let upgraded m := push_change (with_metadata self m) (UpgradeFormatVersion v) in
    Ok match v with
       | V1 => self
       | V2 => upgraded (metadata self <| format_version := V2 |>)
       | V3 => upgraded (metadata self <| format_version := V3 |> <| next_row_id := INITIAL_ROW_ID |>)
       end.

Definition is_reserved (key : string) : bool := bool_decide (key ∈ RESERVED_PROPERTIES).
Definition set_properties (self : TableMetadataBuilder) (new_properties : gmap string string) :
    result TableMetadataBuilder :=
  let? _ := ensure (negb (existsb is_reserved (map_to_list new_properties).*1)) DataInvalid in
  if bool_decide (new_properties = ∅) then Ok self
  else
    Ok (push_change
          (with_metadata self (metadata self <| properties := new_properties ∪ properties (metadata self) |>))
          (SetProperties new_properties)).

Definition set_location (self : TableMetadataBuilder) (new_location : string) : TableMetadataBuilder :=
  let new_location := trim_slashes new_location in
  if bool_decide (location (metadata self) = new_location) then self
  else with_metadata (push_change self (SetLocation new_location))
         (metadata self <| location := new_location |>).

Section builder.
Context {O : HashOrder}.

Definition remove_properties (self : TableMetadataBuilder) (names : list string) :
    result TableMetadataBuilder :=
  let names : gset string := list_to_set names in
  let? _ := ensure (negb (existsb is_reserved (elements names))) DataInvalid in
  let m := metadata self <| properties := set_fold delete (properties (metadata self)) names |> in
  Ok (if bool_decide (names = ∅) then with_metadata self m
      else push_change (with_metadata self m) (RemoveProperties (hash_iter (gset_to_gmap () names)).*1)).

(** ** Snapshots *)

(** The row range that a snapshot of a table with row lineage must have. *)
Definition check_row_range (m : TableMetadata) (s : Snapshot) : result (option Z) :=
  if version_u8 MIN_FORMAT_VERSION_ROW_LINEAGE <=? version_u8 (format_version m) then
    match row_range s with
    | Some r =>
        let? _ := ensure (next_row_id m <=? first_row_id r) DataInvalid in
        Ok (Some (added_rows r))
    | None => Err (Error DataInvalid)
    end
  else Ok None.

Definition add_snapshot (self : TableMetadataBuilder) (s : Snapshot) : result TableMetadataBuilder :=
  let m := metadata self in
  let? _ := ensure (bool_decide (snapshots m !! snapshot_id s = None)) DataInvalid in
  let? _ :=
    ensure (bool_decide (format_version m = V1)
            || (last_sequence_number m <? snapshot_sequence_number s)
            || bool_decide (parent_snapshot_id s = None)) DataInvalid in
  let? _ :=
    match last (snapshot_log m) with
    | Some l => ensure (negb (long_before (timestamp_ms s) (log_timestamp_ms l))) DataInvalid
    | None => Ok tt
    end in
  let max_last_updated := Z.max (default 0 (b_last_updated_ms self)) (last_updated_ms m) in
  let? _ := ensure (negb (long_before (timestamp_ms s) max_last_updated)) DataInvalid in
  let? rows := check_row_range m s in
  let? row_id :=
    match rows with
    | Some rows =>
        let? _ := ensure (next_row_id m + rows <? 2 ^ 64) DataInvalid in Ok (next_row_id m + rows)
    | None => Ok (next_row_id m)
    end in
  let m := m <| next_row_id := row_id |>
             <| last_sequence_number := snapshot_sequence_number s |>
             <| snapshots := <[snapshot_id s := s]> (snapshots m) |> in
  Ok (push_change (with_metadata self m) (AddSnapshot s) <| b_last_updated_ms := Some (timestamp_ms s) |>).

Definition adds_snapshot (id : Z) (u : TableUpdate) : bool :=
  match u with AddSnapshot s => snapshot_id s =? id | _ => false end.

(** [now] is read only when no operation has set the time of the update. *)
Definition set_ref (now : Z) (self : TableMetadataBuilder) (ref_name : string)
    (reference : SnapshotReference) : result TableMetadataBuilder :=
  if bool_decide (refs (metadata self) !! ref_name = Some reference) then Ok self
  else
    let? s := ok_or (snapshots (metadata self) !! ref_snapshot_id reference) DataInvalid in
    let self :=
      if existsb (adds_snapshot (snapshot_id s)) (changes self)
      then self <| b_last_updated_ms := Some (timestamp_ms s) |> else self in
    let self :=
      if bool_decide (ref_name = MAIN_BRANCH) then
        let ms := default now (b_last_updated_ms self) in
        with_metadata (self <| b_last_updated_ms := Some ms |>)
          (metadata self <| current_snapshot_id := Some (snapshot_id s) |>
             <| snapshot_log := snapshot_log (metadata self) ++ [mkSnapshotLog (snapshot_id s) ms] |>)
      else self in
    let self := push_change self (SetSnapshotRef ref_name reference) in
    Ok (with_metadata self (metadata self <| refs := <[ref_name := reference]> (refs (metadata self)) |>)).

Definition set_branch_snapshot (now : Z) (self : TableMetadataBuilder) (s : Snapshot)
    (branch : string) : result TableMetadataBuilder :=
  let? reference :=
    match refs (metadata self) !! branch with
    | Some reference =>
        let? _ := ensure (is_branch reference) DataInvalid in
        Ok (mkSnapshotReference (snapshot_id s) (retention reference))
    | None => Ok (mkSnapshotReference (snapshot_id s) (Branch None None None))
    end in
  let? self := add_snapshot self s in set_ref now self branch reference.

Definition listed (ids : list Z) (id : Z) : bool := bool_decide (id ∈ ids).

Definition remove_snapshots (self : TableMetadataBuilder) (snapshot_ids : list Z) :
    TableMetadataBuilder :=
  let m := metadata self in
  let removed := List.filter (listed snapshot_ids) (hash_iter (snapshots m)).*1 in
  let kept := filter (fun e => listed snapshot_ids e.1 = false) (snapshots m) in
  let m := m <| snapshots := kept |>
             <| refs := filter (fun e => is_Some (kept !! ref_snapshot_id e.2)) (refs m) |> in
  let self := with_metadata self m in
  match removed with [] => self | _ => push_change self (RemoveSnapshots removed) end.

Definition remove_ref (self : TableMetadataBuilder) (ref_name : string) : TableMetadataBuilder :=
  let m := metadata self in
  let is_main := bool_decide (ref_name = MAIN_BRANCH) in
  let m' := (if is_main then m <| current_snapshot_id := None |> else m)
              <| refs := delete ref_name (refs m) |> in
  let self := with_metadata self m' in
  if bool_decide (is_Some (refs m !! ref_name)) || is_main
  then push_change self (RemoveSnapshotRef ref_name) else self.

(** ** Statistics and encryption keys *)

Definition set_statistics (self : TableMetadataBuilder) (s : StatisticsFile) : TableMetadataBuilder :=
  push_change
    (with_metadata self
       (metadata self <| statistics := <[stats_snapshot_id s := s]> (statistics (metadata self)) |>))
    (SetStatistics s).
Definition remove_statistics (self : TableMetadataBuilder) (id : Z) : TableMetadataBuilder :=
  match statistics (metadata self) !! id with
  | Some _ =>
      push_change
        (with_metadata self (metadata self <| statistics := delete id (statistics (metadata self)) |>))
        (RemoveStatistics id)
  | None => self
  end.
Definition set_partition_statistics (self : TableMetadataBuilder) (s : PartitionStatisticsFile) :
    TableMetadataBuilder :=
  push_change
    (with_metadata self
       (metadata self
        <| partition_statistics := <[part_stats_snapshot_id s := s]> (partition_statistics (metadata self)) |>))
    (SetPartitionStatistics s).
Definition remove_partition_statistics (self : TableMetadataBuilder) (id : Z) : TableMetadataBuilder :=
  match partition_statistics (metadata self) !! id with
  | Some _ =>
      push_change
        (with_metadata self
           (metadata self <| partition_statistics := delete id (partition_statistics (metadata self)) |>))
        (RemovePartitionStatistics id)
  | None => self
  end.

Definition add_encryption_key (self : TableMetadataBuilder) (key : EncryptedKey) : TableMetadataBuilder :=
  match encryption_keys (metadata self) !! key_id key with
  | Some _ => self
  | None =>
      push_change
        (with_metadata self
           (metadata self <| encryption_keys := <[key_id key := key]> (encryption_keys (metadata self)) |>))
        (AddEncryptionKey key)
  end.
Definition remove_encryption_key (self : TableMetadataBuilder) (id : string) : TableMetadataBuilder :=
  match encryption_keys (metadata self) !! id with
  | Some _ =>
      push_change
        (with_metadata self
           (metadata self <| encryption_keys := delete id (encryption_keys (metadata self)) |>))
        (RemoveEncryptionKey id)
  | None => self
  end.

(** ** Schemas *)

Context {V : ValueLib} {LC : Lowercase}.

Definition schema_with_schema_id (self : Schema) (id : Z) : Schema :=
  mkSchema (as_struct self) id (Schema.highest_field_id self) (identifier_field_ids self)
    (alias_to_id self) (id_to_field self) (name_to_id self) (lowercase_name_to_id self)
    (id_to_name self) (field_id_to_accessor self).
(** [Schema::is_same_schema]: the identifier ids are compared in the order of their iteration. *)
Definition is_same_schema (self other : Schema) : bool :=
  struct_type_eqb (as_struct self) (as_struct other)
  && same_iteration (identifier_field_ids self) (identifier_field_ids other).

Definition get_highest_schema_id (m : TableMetadata) : Z :=
  default (current_schema_id m) (list_max (map_to_list (schemas m)).*1).
Definition reuse_or_create_new_schema_id (m : TableMetadata) (new_schema : Schema) : Z :=
  default (wrapS 32 (get_highest_schema_id m + 1))
    (head (omap (fun e => if is_same_schema new_schema (snd e) then Some (fst e) else None)
             (hash_iter (schemas m)))).
Definition get_current_schema (m : TableMetadata) : result Schema :=
  ok_or (schemas m !! current_schema_id m) DataInvalid.

Definition validate_schema_field_names (m : TableMetadata) (schema : Schema) : result unit :=
  if bool_decide (schemas m = ∅) then Ok tt
  else
    ensure (forallb (fun e => negb (partition_name_exists m (snd e))
                              || name_exists_in_any_schema m (snd e))
              (map_to_list (id_to_name schema))) DataInvalid.

Definition add_schema (self : TableMetadataBuilder) (schema : Schema) : result TableMetadataBuilder :=
  let m := metadata self in
  let? _ := validate_schema_field_names m schema in
  let new_id := reuse_or_create_new_schema_id m schema in
  match schemas m !! new_id with
  | Some _ =>
      Ok (if bool_decide (last_added_schema_id self = Some new_id) then self
          else push_change self (AddSchema schema) <| last_added_schema_id := Some new_id |>)
  | None =>
      let schema' := if new_id =? schema_id schema then schema
                     else schema_with_schema_id schema new_id in
      let m := m <| last_column_id := Z.max (last_column_id m) (Schema.highest_field_id schema) |>
                 <| schemas := <[new_id := schema']> (schemas m) |> in
      Ok (push_change (with_metadata self m) (AddSchema schema') <| last_added_schema_id := Some new_id |>)
  end.

(** The id that [LAST_ADDED] stands for. *)
Definition resolve_id (last_added : option Z) (id : Z) : result Z :=
  if id =? LAST_ADDED then ok_or last_added DataInvalid else Ok id.
(** [LAST_ADDED] again, when the change refers to the item added last. *)
Definition change_id (last_added : option Z) (id : Z) : Z :=
  if bool_decide (last_added = Some id) then LAST_ADDED else id.

Definition set_current_schema (self : TableMetadataBuilder) (id : Z) : result TableMetadataBuilder :=
  let m := metadata self in
  let? id := resolve_id (last_added_schema_id self) id in
  if id =? current_schema_id m then Ok self
  else
    let? _ := ok_or (schemas m !! id) DataInvalid in
    Ok (push_change (with_metadata self (m <| current_schema_id := id |>))
          (SetCurrentSchema (change_id (last_added_schema_id self) id))).
Definition add_current_schema (self : TableMetadataBuilder) (schema : Schema) :
    result TableMetadataBuilder :=
  let? self := add_schema self schema in set_current_schema self LAST_ADDED.

Definition remove_schemas (self : TableMetadataBuilder) (ids : list Z) : result TableMetadataBuilder :=
  let m := metadata self in
  let? _ := ensure (negb (listed ids (current_schema_id m))) DataInvalid in
  match ids with
  | [] => Ok self
  | _ =>
      Ok (push_change
            (with_metadata self
               (m <| schemas := filter (fun e => listed ids e.1 = false) (schemas m) |>))
            (RemoveSchemas (List.filter (listed ids) (hash_iter (schemas m)).*1)))
  end.

(** ** Partition specs *)

(** One turn of the loop of [validate_partition_field_names]. *)
Definition validate_partition_field_name (m : TableMetadata) (current : Schema)
    (f : UnboundPartitionField) : result unit :=
  if name_exists_in_any_schema m (u_name f) then
    match field_by_name current (u_name f) with
    | Some schema_field =>
        let? _ := ensure (bool_decide (u_transform f = Transform.Identity)) DataInvalid in
        ensure (field_id schema_field =? u_source_id f) DataInvalid
    | None => Ok tt
    end
  else Ok tt.
Definition validate_partition_field_names (m : TableMetadata) (spec : UnboundPartitionSpec) :
    result unit :=
  if bool_decide (schemas m = ∅) then Ok tt
  else
    let? current := get_current_schema m in
    try_fold (fun _ f => validate_partition_field_name m current f) tt (u_fields spec).

(** The id of an equal source and transform in some spec: of several the one iterated last. *)
Definition equivalent_field_id (m : TableMetadata) (source : Z) (transform : Transform.t) : option Z :=
  last (omap (fun f => if (source_id f =? source) && bool_decide (partition_transform f = transform)
                       then Some (partition_field_id f) else None)
          (concat ((fun e => spec_fields (snd e)) <$> hash_iter (partition_specs m)))).
Definition reuse_field_id (m : TableMetadata) (f : UnboundPartitionField) : UnboundPartitionField :=
  match u_field_id f with
  | Some _ => f
  | None =>
      mkUnboundField (u_source_id f) (equivalent_field_id m (u_source_id f) (u_transform f)) (u_name f)
        (u_transform f)
  end.
Definition reuse_partition_field_ids (m : TableMetadata) (spec : UnboundPartitionSpec) :
    UnboundPartitionSpec :=
  mkUnboundSpec (u_spec_id spec) (reuse_field_id m <$> u_fields spec).

Definition get_highest_spec_id (m : TableMetadata) : option Z :=
  list_max (map_to_list (partition_specs m)).*1.
Definition reuse_or_create_new_spec_id (m : TableMetadata) (new_spec : PartitionSpec) : Z :=
  default
    (match get_highest_spec_id m with
     | Some id => wrapS 32 (id + 1)
     | None => DEFAULT_PARTITION_SPEC_ID
     end)
    (head (omap (fun e => if is_compatible_with new_spec (snd e) then Some (fst e) else None)
             (hash_iter (partition_specs m)))).

Definition add_partition_spec (self : TableMetadataBuilder) (unbound : UnboundPartitionSpec) :
    result TableMetadataBuilder :=
  let m := metadata self in
  let? schema := get_current_schema m in
  let? _ := validate_partition_field_names m unbound in
  let unbound := reuse_partition_field_ids m unbound in
  let? b := new_from_unbound unbound schema in
  let? spec := spec_build (with_last_assigned_field_id b (last_partition_id m)) in
  let new_id := reuse_or_create_new_spec_id m spec in
  let spec := with_spec_id spec new_id in
  let unbound := unbound_with_spec_id unbound new_id in
  match partition_specs m !! new_id with
  | Some _ =>
      Ok (if bool_decide (last_added_spec_id self = Some new_id) then self
          else push_change self (AddSpec unbound) <| last_added_spec_id := Some new_id |>)
  | None =>
      let? _ := ensure (negb (bool_decide (format_version m = V1)) || has_sequential_ids spec)
                  DataInvalid in
      let highest := default UNPARTITIONED_LAST_ASSIGNED_ID (PartitionSpecs.highest_field_id spec) in
      let m := m <| partition_specs := <[new_id := spec]> (partition_specs m) |>
                 <| last_partition_id := Z.max (last_partition_id m) highest |> in
      Ok (push_change (with_metadata self m) (AddSpec unbound) <| last_added_spec_id := Some new_id |>)
  end.

Definition set_default_partition_spec (self : TableMetadataBuilder) (id : Z) :
    result TableMetadataBuilder :=
  let m := metadata self in
  let? id := resolve_id (last_added_spec_id self) id in
  if spec_id (default_spec m) =? id then Ok self
  else
    let? spec := ok_or (partition_specs m !! id) DataInvalid in
    let? schema := get_current_schema m in
    let? spec_type := partition_type spec schema in
    Ok (push_change
          (with_metadata self (m <| default_spec := spec |> <| default_partition_type := spec_type |>))
          (SetDefaultSpec (change_id (last_added_spec_id self) id))).
Definition add_default_partition_spec (self : TableMetadataBuilder) (unbound : UnboundPartitionSpec) :
    result TableMetadataBuilder :=
  let? self := add_partition_spec self unbound in set_default_partition_spec self LAST_ADDED.

(** The specs that are removed one by one, in the order of the request. *)
Fixpoint remove_spec_ids (specs : gmap Z PartitionSpec) (ids : list Z) :
    gmap Z PartitionSpec * list Z :=
  match ids with
  | [] => (specs, [])
  | id :: ids =>
      match specs !! id with
      | Some _ => let '(specs, removed) := remove_spec_ids (delete id specs) ids in (specs, id :: removed)
      | None => remove_spec_ids specs ids
      end
  end.
Definition remove_partition_specs (self : TableMetadataBuilder) (ids : list Z) :
    result TableMetadataBuilder :=
  let m := metadata self in
  let? _ := ensure (negb (listed ids (spec_id (default_spec m)))) DataInvalid in
  let '(specs, removed) := remove_spec_ids (partition_specs m) ids in
  let self := with_metadata self (m <| partition_specs := specs |>) in
  Ok match removed with [] => self | _ => push_change self (RemovePartitionSpecs removed) end.

(** ** Sort orders *)

Definition highest_sort_order_id (m : TableMetadata) : option Z :=
  list_max (map_to_list (sort_orders m)).*1.
Definition reuse_or_create_new_sort_id (m : TableMetadata) (new_order : SortOrder) : Z :=
  if is_unsorted new_order then UNSORTED_ORDER_ID
  else
    default (wrapS 64 (default UNSORTED_ORDER_ID (highest_sort_order_id m) + 1))
      (head (omap (fun e => if bool_decide (sort_fields (snd e) = sort_fields new_order)
                            then Some (fst e) else None)
               (hash_iter (sort_orders m)))).

Definition add_sort_order (self : TableMetadataBuilder) (order : SortOrder) :
    result TableMetadataBuilder :=
  let m := metadata self in
  let new_id := reuse_or_create_new_sort_id m order in
  match sort_orders m !! new_id with
  | Some _ =>
      Ok (if bool_decide (last_added_order_id self = Some new_id) then self
          else push_change self (AddSortOrder (with_order_id order new_id))
                 <| last_added_order_id := Some new_id |>)
  | None =>
      let? schema := get_current_schema m in
      match sort_build (sort_with_fields (sort_with_order_id sort_builder new_id) (sort_fields order))
              schema with
      | Ok order =>
          let m := m <| sort_orders := <[new_id := order]> (sort_orders m) |> in
          Ok (push_change (with_metadata self m) (AddSortOrder order)
                <| last_added_order_id := Some new_id |>)
      | Err Panic => Err Panic
      | Err (Error _) => Err (Error DataInvalid)
      end
  end.

Definition set_default_sort_order (self : TableMetadataBuilder) (id : Z) :
    result TableMetadataBuilder :=
  let m := metadata self in
  let? id := resolve_id (last_added_order_id self) id in
  if default_sort_order_id m =? id then Ok self
  else
    let? _ := ok_or (sort_orders m !! id) DataInvalid in
    Ok (push_change (with_metadata self (m <| default_sort_order_id := id |>))
          (SetDefaultSortOrder (change_id (last_added_order_id self) id))).
Definition add_default_sort_order (self : TableMetadataBuilder) (order : SortOrder) :
    result TableMetadataBuilder :=
  let? self := add_sort_order self order in set_default_sort_order self LAST_ADDED.

(** ** [build] *)

Definition get_default_sort_order (m : TableMetadata) : result SortOrder :=
  ok_or (sort_orders m !! default_sort_order_id m) DataInvalid.

Definition added_snapshot_ids (l : list TableUpdate) : list Z :=
  omap (fun u => match u with AddSnapshot s => Some (snapshot_id s) | _ => None end) l.
(** Snapshots that were made current by the update but are not at its end. *)
Definition get_intermediate_snapshots (self : TableMetadataBuilder) : list Z :=
  let current := default LAST_ADDED (current_snapshot_id (metadata self)) in
  omap (fun u =>
          match u with
          | SetSnapshotRef ref_name reference =>
              if listed (added_snapshot_ids (changes self)) (ref_snapshot_id reference)
                 && bool_decide (ref_name = MAIN_BRANCH)
                 && negb (ref_snapshot_id reference =? current)
              then Some (ref_snapshot_id reference) else None
          | _ => None
          end) (changes self).
Definition removes_snapshots (u : TableUpdate) : bool :=
  match u with RemoveSnapshots _ => true | _ => false end.

(** The loop over the snapshot log: a removed snapshot drops the history before it. *)
Definition rebuild_log (known : gmap Z Snapshot) (intermediate : list Z) (has_removed : bool)
    (log : list SnapshotLog) : list SnapshotLog :=
  foldl (fun new_log e =>
           if bool_decide (is_Some (known !! log_snapshot_id e)) then
             if listed intermediate (log_snapshot_id e) then new_log else new_log ++ [e]
           else if has_removed then [] else new_log) [] log.

Definition update_snapshot_log (self : TableMetadataBuilder) : result TableMetadataBuilder :=
  let m := metadata self in
  let intermediate := get_intermediate_snapshots self in
  let has_removed := existsb removes_snapshots (changes self) in
  if bool_decide (intermediate = []) && negb has_removed then Ok self
  else
    let new_log := rebuild_log (snapshots m) intermediate has_removed (snapshot_log m) in
    let? _ :=
      match current_snapshot_id m with
      | Some id => ensure (bool_decide (log_snapshot_id <$> last new_log = Some id)) DataInvalid
      | None => Ok tt
      end in
    Ok (with_metadata self (m <| snapshot_log := new_log |>)).

(** [max(1)] of the property, read as [usize]. *)
Definition metadata_log_size (m : TableMetadata) : nat :=
  Z.to_nat
    (Z.max 1 (default PROPERTY_METADATA_PREVIOUS_VERSIONS_MAX_DEFAULT
                (properties m !! PROPERTY_METADATA_PREVIOUS_VERSIONS_MAX
                 ≫= fun v => parse_unsigned 64 (lit v)))).
Definition expire_metadata_log (m : TableMetadata) : list MetadataLog * TableMetadata :=
  let expired := (length (metadata_log m) - metadata_log_size m)%nat in
  (take expired (metadata_log m), m <| metadata_log := drop expired (metadata_log m) |>).

Definition push_history (entry : option MetadataLog) (m : TableMetadata) : TableMetadata :=
  match entry with
  | Some hist_entry => m <| metadata_log := metadata_log m ++ [hist_entry] |>
  | None => m
  end.

Definition builder_build (now : Z) (self : TableMetadataBuilder) : result TableMetadataBuildResult :=
  let m := metadata self <| last_updated_ms := default now (b_last_updated_ms self) |> in
  let? schema := get_current_schema m in
  let? sort_order := get_default_sort_order m in
  let? spec := unbound_bind (into_unbound (default_spec m)) schema in
  let? spec_type := partition_type spec schema in
  let m := m <| default_spec := spec |> <| default_partition_type := spec_type |> in
  let? _ := sort_build (sort_with_fields sort_builder (sort_fields sort_order)) schema in
  let? self := update_snapshot_log (with_metadata self m) in
  let? m := try_normalize (metadata self) in
  let '(expired, m) := expire_metadata_log (push_history (previous_history_entry self) m) in
  Ok (mkBuildResult m (changes self) expired).

(** ** New tables *)

Definition reassign_spec_field (previous_id_to_name : gmap Z string) (b : PartitionSpecBuilder)
    (f : UnboundPartitionField) : result PartitionSpecBuilder :=
  let? source_field_name := ok_or (previous_id_to_name !! u_source_id f) DataInvalid in
  add_partition_field b source_field_name (u_name f) (u_transform f).
Definition reassign_sort_field (previous_id_to_name : gmap Z string) (fresh : Schema)
    (b : SortOrderBuilder) (f : SortField) : result SortOrderBuilder :=
  let? source_field_name := ok_or (previous_id_to_name !! sort_source_id f) DataInvalid in
  let? new_field := ok_or (field_by_name fresh source_field_name) Unexpected in
  Ok (with_sort_field b
        (mkSortField (field_id new_field) (sort_transform f) (direction f) (null_order f))).
Definition reassign_ids (schema : Schema) (spec : UnboundPartitionSpec) (order : SortOrder) :
    result (Schema * PartitionSpec * SortOrder) :=
  let previous_id_to_name := id_to_name schema in
  let? fresh :=
    Schema.build (mkSchemaBuilder DEFAULT_SCHEMA_ID (as_struct schema) (alias_to_id schema)
                    (identifier_field_ids schema) (Some FIRST_FIELD_ID)) in
  let? b := try_fold (reassign_spec_field previous_id_to_name) (spec_builder_new fresh) (u_fields spec) in
  let? fresh_spec := spec_build b in
  let? sb := try_fold (reassign_sort_field previous_id_to_name fresh) sort_builder (sort_fields order) in
  let? fresh_order := sort_build sb fresh in
  Ok (fresh, fresh_spec, fresh_order).

(** [TableMetadataBuilder::new]; [now_v7] is a fresh UUID. *)
Definition empty_metadata (v : FormatVersion) (now_v7 : Z) : TableMetadata :=
  mkTableMetadata v now_v7 "" 0 0 (-1) ∅ (-1) ∅ (with_spec_id unpartition_spec (-1)) []
    UNPARTITIONED_LAST_ASSIGNED_ID ∅ None ∅ [] [] ∅ (-1) ∅ ∅ ∅ ∅ INITIAL_ROW_ID.
Definition metadata_builder_new (now_v7 : Z) (schema : Schema) (spec : UnboundPartitionSpec)
    (order : SortOrder) (new_location : string) (v : FormatVersion)
    (new_properties : gmap string string) : result TableMetadataBuilder :=
  let? fresh := reassign_ids schema spec order in
  let '(fresh_schema, fresh_spec, fresh_order) := fresh in
  let self := mkTableMetadataBuilder (empty_metadata v now_v7) [] (Some (schema_id fresh_schema))
                None None None None in
  let? self := add_current_schema (set_location self new_location) fresh_schema in
  let? self := add_default_partition_spec self (into_unbound fresh_spec) in
  let? self := add_default_sort_order self fresh_order in
  set_properties self new_properties.

Record TableCreation := mkTableCreation {
  creation_name : string;
  creation_location : option string;
  creation_schema : Schema;
  creation_spec : option UnboundPartitionSpec;
  creation_order : option SortOrder;
  creation_properties : gmap string string;
  creation_format_version : FormatVersion;
}.
Definition from_table_creation (now_v7 : Z) (c : TableCreation) : result TableMetadataBuilder :=
  let? l := ok_or (creation_location c) DataInvalid in
  metadata_builder_new now_v7 (creation_schema c) (default (mkUnboundSpec None []) (creation_spec c))
    (default unsorted_order (creation_order c)) l (creation_format_version c) (creation_properties c).

(** ** Updates ([TableUpdate::apply], catalog/mod.rs) *)

Definition apply_update (now : Z) (self : TableUpdate) (builder : TableMetadataBuilder) :
    result TableMetadataBuilder :=
  match self with
  | AssignUuid uuid => Ok (assign_uuid builder uuid)
  | AddSchema schema => add_schema builder schema
  | SetCurrentSchema id => set_current_schema builder id
  | AddSpec spec => add_partition_spec builder spec
  | SetDefaultSpec id => set_default_partition_spec builder id
  | AddSortOrder order => add_sort_order builder order
  | SetDefaultSortOrder id => set_default_sort_order builder id
  | AddSnapshot s => add_snapshot builder s
  | SetSnapshotRef ref_name reference => set_ref now builder ref_name reference
  | RemoveSnapshots ids => Ok (remove_snapshots builder ids)
  | RemoveSnapshotRef ref_name => Ok (remove_ref builder ref_name)
  | SetLocation l => Ok (set_location builder l)
  | SetProperties updates => set_properties builder updates
  | RemoveProperties removals => remove_properties builder removals
  | UpgradeFormatVersion v => upgrade_format_version builder v
  | RemovePartitionSpecs ids => remove_partition_specs builder ids
  | SetStatistics s => Ok (set_statistics builder s)
  | RemoveStatistics id => Ok (remove_statistics builder id)
  | SetPartitionStatistics s => Ok (set_partition_statistics builder s)
  | RemovePartitionStatistics id => Ok (remove_partition_statistics builder id)
  | RemoveSchemas ids => remove_schemas builder ids
  | AddEncryptionKey key => Ok (add_encryption_key builder key)
  | RemoveEncryptionKey id => Ok (remove_encryption_key builder id)
  end.

(** The loop over the updates of a commit; [clock] gives the reading of each turn. *)
Fixpoint apply_updates (clock : nat -> Z) (updates : list TableUpdate) (builder : TableMetadataBuilder) :
    result TableMetadataBuilder :=
  match updates with
  | [] => Ok builder
  | update :: updates =>
      let? builder := apply_update (clock 0%nat) update builder in
      apply_updates (fun n => clock (S n)) updates builder
  end.

End builder.
