(* ===== verification/MetadataSpec.v ===== *)
(** * What the metadata builder guarantees

    The invariant of a metadata builder, preserved by every update; what [build] adds to
    it; and the invariant of every version of a table that commits can reach. *)

From S2P Require Import Prelude Utf8 Numerals Values Schema Transform.
From S2P Require Import PartitionSpecs SortOrders LiteralEq TableMetadata MetadataBuilder.

(** ** The invariant *)

(** Every item is stored under its own id. *)
Definition keyed {A} (key : A -> Z) (m : gmap Z A) : Prop := map_Forall (fun k a => key a = k) m.

(** What holds of the metadata of a builder between two operations. *)
Record builder_ok (m : TableMetadata) : Prop := {
  ok_schemas : keyed schema_id (schemas m);
  ok_specs : keyed spec_id (partition_specs m);
  ok_orders : keyed order_id (sort_orders m);
  ok_snapshots : keyed snapshot_id (snapshots m);
  ok_current_schema : is_Some (schemas m !! current_schema_id m);
  ok_default_spec : partition_specs m !! spec_id (default_spec m) = Some (default_spec m);
  ok_default_order : is_Some (sort_orders m !! default_sort_order_id m);
  ok_column_ids : map_Forall (fun _ s => Schema.highest_field_id s <= last_column_id m) (schemas m);
  ok_partition_ids :
    map_Forall (fun _ s => Forall (fun f => partition_field_id f <= last_partition_id m) (spec_fields s))
      (partition_specs m);
  ok_refs : map_Forall (fun _ r => is_Some (snapshots m !! ref_snapshot_id r)) (refs m);
  ok_main : forall r, refs m !! MAIN_BRANCH = Some r -> current_snapshot_id m = Some (ref_snapshot_id r);
  ok_log : forall id, current_snapshot_id m = Some id -> log_snapshot_id <$> last (snapshot_log m) = Some id;
}.

(** Every entry of the history is a snapshot that is still known. *)
Definition log_known (m : TableMetadata) : Prop :=
  Forall (fun e => is_Some (snapshots m !! log_snapshot_id e)) (snapshot_log m).

(** A version of a table. *)
Record metadata_ok (m : TableMetadata) : Prop := {
  ok_builder : builder_ok m;
  ok_current : current_snapshot_id m = ref_snapshot_id <$> refs m !! MAIN_BRANCH;
  ok_history : log_known m;
  ok_sequence_numbers :
    format_version m <> V1 ->
    map_Forall (fun _ s => snapshot_sequence_number s <= last_sequence_number m) (snapshots m);
  ok_unsorted : forall o, sort_orders m !! UNSORTED_ORDER_ID = Some o -> sort_fields o = [];
  ok_partition_type : exists s,
    schemas m !! current_schema_id m = Some s
    /\ partition_type (default_spec m) s = Ok (default_partition_type m);
  ok_default_order_fields : exists s o,
    schemas m !! current_schema_id m = Some s
    /\ sort_orders m !! default_sort_order_id m = Some o /\ Forall (sortable s) (sort_fields o);
  ok_log_size : (length (metadata_log m) <= metadata_log_size m)%nat;
}.

(** ** Theory: maps of items and their ids *)

Lemma keyed_insert {A} (key : A -> Z) (m : gmap Z A) k a :
  key a = k -> keyed key m -> keyed key (<[k := a]> m).
Proof. intros ? ?. by apply map_Forall_insert_2. Qed.
Lemma map_Forall_sub {K A} `{Countable K} (P : K -> A -> Prop) (m m' : gmap K A) :
  m' ⊆ m -> map_Forall P m -> map_Forall P m'.
Proof. intros Hs Hm k a Hk. apply Hm. by eapply lookup_weaken. Qed.
Lemma list_max_spec l z : z ∈ l -> exists m, list_max l = Some m /\ z <= m.
Proof.
  induction l as [|x l IH]; [by intros ?%elem_of_nil|].
  intros [->|Hz]%elem_of_cons; cbn [list_max].
  - destruct (list_max l); eexists; split; [done|lia|done|lia].
  - destruct (IH Hz) as (m & -> & ?). eexists. split; [done|lia].
Qed.

Create HintDb metadata.
Create HintDb preserves.
#[export] Hint Resolve keyed_insert : metadata.

(** The items kept when listed ids are removed. *)
Lemma kept_lookup {A} (ids : list Z) (m : gmap Z A) k :
  filter (fun e => listed ids e.1 = false) m !! k = if listed ids k then None else m !! k.
Proof.
  destruct (listed ids k) eqn:E.
  - apply map_lookup_filter_None_2. right. intros a _. cbn. by rewrite E.
  - destruct (m !! k) as [a|] eqn:Ek.
    + by apply map_lookup_filter_Some_2.
    + apply map_lookup_filter_None_2. by left.
Qed.
Lemma kept_sub {A} (ids : list Z) (m : gmap Z A) : filter (fun e => listed ids e.1 = false) m ⊆ m.
Proof. apply map_filter_subseteq. Qed.
#[export] Hint Resolve kept_sub map_Forall_sub : metadata.

Lemma remove_spec_ids_lookup ids : forall specs k,
  fst (remove_spec_ids specs ids) !! k = if listed ids k then None else specs !! k.
Proof.
  induction ids as [|id ids IH]; intros specs k; [done|]. cbn [remove_spec_ids]. unfold listed in *.
  assert (E : bool_decide (k ∈ id :: ids) = bool_decide (k = id) || bool_decide (k ∈ ids)).
  { rewrite <- bool_decide_or. apply bool_decide_ext, elem_of_cons. }
  rewrite E. clear E. destruct (specs !! id) as [s|] eqn:Es.
  - specialize (IH (delete id specs) k). destruct (remove_spec_ids _ ids) as [specs' removed].
    cbn in *. rewrite IH. destruct (decide (k = id)) as [->|Hk].
    + rewrite lookup_delete_eq, (bool_decide_eq_true_2 (id = id)) by done. by destruct (bool_decide _).
    + by rewrite lookup_delete_ne, (bool_decide_eq_false_2 (k = id)) by done.
  - rewrite IH. destruct (decide (k = id)) as [->|Hk].
    + rewrite Es, (bool_decide_eq_true_2 (id = id)) by done. by destruct (bool_decide _).
    + by rewrite (bool_decide_eq_false_2 (k = id)) by done.
Qed.

(** Run an operation that succeeded to its end, on every path. *)
Ltac run_op E :=
  repeat first
    [ progress inv_ok
    | match type of E with
      | (let '(_, _) := ?x in _) = Ok _ => destruct x eqn:?
      | (if ?x then _ else _) = Ok _ => destruct x eqn:?
      | match ?x with _ => _ end = Ok _ => destruct x eqn:?
      end
    | progress cbv beta zeta in E ].

(** ** Theory: every operation preserves the invariant *)

Section preservation.
Context {O : HashOrder} {V : ValueLib} {LC : Lowercase}.

(** The operations on fields the invariant does not mention. *)
Ltac same_core H := destruct H; constructor; simpl; assumption.

Lemma assign_uuid_ok b uuid : builder_ok (metadata b) -> builder_ok (metadata (assign_uuid b uuid)).
Proof. intros H. unfold assign_uuid. destruct (_ =? _); [done|same_core H]. Qed.
Lemma set_location_ok b l : builder_ok (metadata b) -> builder_ok (metadata (set_location b l)).
Proof. intros H. unfold set_location. case_bool_decide; [done|same_core H]. Qed.
Lemma upgrade_format_version_ok b v b' :
  builder_ok (metadata b) -> upgrade_format_version b v = Ok b' -> builder_ok (metadata b').
Proof.
  intros H. unfold upgrade_format_version. intros (_ & _ & E)%bind_Ok. cbv beta in E.
  case_bool_decide; inv_ok; [done|]. destruct v; inv_ok; [done|same_core H..].
Qed.
Lemma set_properties_ok b p b' :
  builder_ok (metadata b) -> set_properties b p = Ok b' -> builder_ok (metadata b').
Proof.
  intros H. unfold set_properties. intros (_ & _ & E)%bind_Ok. cbv beta in E.
  case_bool_decide; inv_ok; [done|same_core H].
Qed.
Lemma remove_properties_ok b p b' :
  builder_ok (metadata b) -> remove_properties b p = Ok b' -> builder_ok (metadata b').
Proof.
  intros H. unfold remove_properties. intros (_ & _ & E)%bind_Ok. cbv beta in E.
  case_bool_decide; inv_ok; same_core H.
Qed.
Lemma set_statistics_ok b s : builder_ok (metadata b) -> builder_ok (metadata (set_statistics b s)).
Proof. intros H. same_core H. Qed.
Lemma remove_statistics_ok b id : builder_ok (metadata b) -> builder_ok (metadata (remove_statistics b id)).
Proof. intros H. unfold remove_statistics. destruct (_ !! id); [same_core H|done]. Qed.
Lemma set_partition_statistics_ok b s :
  builder_ok (metadata b) -> builder_ok (metadata (set_partition_statistics b s)).
Proof. intros H. same_core H. Qed.
Lemma remove_partition_statistics_ok b id :
  builder_ok (metadata b) -> builder_ok (metadata (remove_partition_statistics b id)).
Proof. intros H. unfold remove_partition_statistics. destruct (_ !! id); [same_core H|done]. Qed.
Lemma add_encryption_key_ok b k :
  builder_ok (metadata b) -> builder_ok (metadata (add_encryption_key b k)).
Proof. intros H. unfold add_encryption_key. destruct (_ !! key_id k); [done|same_core H]. Qed.
Lemma remove_encryption_key_ok b id :
  builder_ok (metadata b) -> builder_ok (metadata (remove_encryption_key b id)).
Proof. intros H. unfold remove_encryption_key. destruct (_ !! id); [same_core H|done]. Qed.

(** Schemas. *)
Lemma add_schema_ok b s b' :
  builder_ok (metadata b) -> add_schema b s = Ok b' -> builder_ok (metadata b').
Proof.
  intros H. unfold add_schema. intros (_ & _ & E)%bind_Ok. cbv beta in E.
  set (new_id := reuse_or_create_new_schema_id _ s) in *.
  destruct (schemas (metadata b) !! new_id) eqn:En; inv_ok; [by case_bool_decide|].
  set (s' := if new_id =? schema_id s then s else schema_with_schema_id s new_id).
  assert (Hs : schema_id s' = new_id /\ Schema.highest_field_id s' = Schema.highest_field_id s).
  { unfold s'. by destruct (Z.eqb_spec new_id (schema_id s)). }
  destruct Hs as [Hs1 Hs2]. destruct H. constructor; simpl; auto with metadata.
  - rewrite lookup_insert_is_Some. destruct (decide (new_id = current_schema_id (metadata b))); auto.
  - apply map_Forall_insert_2; [rewrite Hs2; lia|].
    eapply map_Forall_impl; [done|]. cbn. lia.
Qed.
Lemma set_current_schema_ok b id b' :
  builder_ok (metadata b) -> set_current_schema b id = Ok b' -> builder_ok (metadata b').
Proof.
  intros H. unfold set_current_schema. intros (id' & _ & E)%bind_Ok. cbv beta in E.
  destruct (_ =? _); inv_ok; [done|].
  match goal with Hs : ok_or _ _ = Ok _ |- _ => unfold ok_or in Hs end.
  destruct (schemas (metadata b) !! id') eqn:Es; [|done].
  destruct H; constructor; simpl; try assumption. by rewrite Es.
Qed.
Lemma remove_schemas_ok b ids b' :
  builder_ok (metadata b) -> remove_schemas b ids = Ok b' -> builder_ok (metadata b').
Proof.
  intros H. unfold remove_schemas. intros ([] & Hc%ensure_Ok & E)%bind_Ok. cbv beta in E.
  apply negb_true_iff in Hc. destruct ids as [|id ids]; inv_ok; [done|].
  destruct H. constructor; simpl; try assumption; try (eapply map_Forall_sub; [apply kept_sub|done]).
  by rewrite kept_lookup, Hc.
Qed.

(** Partition specs. *)
Lemma add_partition_spec_ok b u b' :
  builder_ok (metadata b) -> add_partition_spec b u = Ok b' -> builder_ok (metadata b').
Proof.
  intros H. unfold add_partition_spec.
  intros (s & _ & (_ & _ & (pb & _ & (spec & _ & E)%bind_Ok)%bind_Ok)%bind_Ok)%bind_Ok.
  cbv beta zeta in E. set (new_id := reuse_or_create_new_spec_id _ spec) in *.
  destruct (partition_specs (metadata b) !! new_id) eqn:En; inv_ok; [by case_bool_decide|].
  destruct H. constructor; simpl; auto with metadata.
  - rewrite lookup_insert_ne; [done|]. intros ->. by rewrite En in ok_default_spec0.
  - apply map_Forall_insert_2.
    + cbn. apply Forall_forall. intros f Hf.
      destruct (list_max_spec (partition_field_id <$> spec_fields spec) (partition_field_id f))
        as (top & Ht & ?); [by apply list_elem_of_fmap_2|].
      unfold PartitionSpecs.highest_field_id. cbn. rewrite Ht. cbn. lia.
    + eapply map_Forall_impl; [done|]. cbn. intros _ sp Hsp.
      eapply Forall_impl; [done|]. cbn. lia.
Qed.
Lemma set_default_partition_spec_ok b id b' :
  builder_ok (metadata b) -> set_default_partition_spec b id = Ok b' -> builder_ok (metadata b').
Proof.
  intros H. unfold set_default_partition_spec. intros (id' & _ & E)%bind_Ok. cbv beta in E.
  destruct (_ =? _); inv_ok; [done|].
  destruct (partition_specs (metadata b) !! id') as [sp|] eqn:Es; [|done]. simpl in *. simplify_eq.
  destruct H. constructor; simpl; try assumption. by rewrite (ok_specs0 _ _ Es).
Qed.
Lemma remove_partition_specs_ok b ids b' :
  builder_ok (metadata b) -> remove_partition_specs b ids = Ok b' -> builder_ok (metadata b').
Proof.
  intros H. unfold remove_partition_specs. intros ([] & Hd%ensure_Ok & E)%bind_Ok. cbv beta in E.
  apply negb_true_iff in Hd. pose proof (remove_spec_ids_lookup ids (partition_specs (metadata b))) as Hl.
  destruct (remove_spec_ids _ ids) as [specs removed]. cbn in Hl. inv_ok.
  assert (Hsub : specs ⊆ partition_specs (metadata b)).
  { apply map_subseteq_spec. intros k sp Hk. rewrite Hl in Hk. by destruct (listed ids k). }
  destruct H. assert (builder_ok (metadata b <| partition_specs := specs |>)).
  { constructor; simpl; try assumption; try (by eapply map_Forall_sub). by rewrite Hl, Hd. }
  destruct removed; done.
Qed.

(** Sort orders. *)
Lemma add_sort_order_ok b o b' :
  builder_ok (metadata b) -> add_sort_order b o = Ok b' -> builder_ok (metadata b').
Proof.
  intros H. unfold add_sort_order. set (new_id := reuse_or_create_new_sort_id _ o) in *.
  destruct (sort_orders (metadata b) !! new_id) eqn:En; intros E; inv_ok; [by case_bool_decide|].
  destruct (sort_build _ _) as [o'|[]] eqn:Eb; inv_ok.
  apply sort_build_Ok in Eb as (Hok & _ & Hf & Hid). cbn in Hf, Hid.
  assert (Hkey : order_id o' = new_id).
  { destruct (decide (sort_fields o' = [])) as [He|He]; [|by apply Hid].
    rewrite (proj2 Hok He). unfold new_id, reuse_or_create_new_sort_id, is_unsorted.
    by rewrite <- Hf, He. }
  destruct H. constructor; simpl; auto with metadata.
  rewrite lookup_insert_is_Some. destruct (decide (new_id = default_sort_order_id (metadata b))); auto.
Qed.
Lemma set_default_sort_order_ok b id b' :
  builder_ok (metadata b) -> set_default_sort_order b id = Ok b' -> builder_ok (metadata b').
Proof.
  intros H. unfold set_default_sort_order. intros (id' & _ & E)%bind_Ok. cbv beta in E.
  destruct (_ =? _); inv_ok; [done|].
  destruct (sort_orders (metadata b) !! id') as [o|] eqn:Es; [|done].
  destruct H. constructor; simpl; try assumption. by rewrite Es.
Qed.

(** Snapshots. *)
Lemma add_snapshot_metadata b s b' :
  add_snapshot b s = Ok b' ->
  exists row_id, metadata b' = metadata b <| next_row_id := row_id |>
     <| last_sequence_number := snapshot_sequence_number s |>
     <| snapshots := <[snapshot_id s := s]> (snapshots (metadata b)) |>
    /\ snapshots (metadata b) !! snapshot_id s = None
    /\ exists rows, check_row_range (metadata b) s = Ok rows
         /\ row_id = next_row_id (metadata b) + default 0 rows /\ (rows <> None -> row_id < 2 ^ 64).
Proof.
  unfold add_snapshot. intros ([] & Hn & E)%bind_Ok. cbv beta in E.
  apply bind_Ok in E as (_ & _ & E). apply bind_Ok in E as (_ & _ & E). apply bind_Ok in E as (_ & _ & E).
  apply bind_Ok in E as (rows & Hrows & E). apply bind_Ok in E as (row_id & Hid & [= <-]).
  exists row_id. split; [done|]. split; [unfold ensure in Hn; by case_bool_decide|].
  exists rows. split; [done|]. destruct rows as [n|].
  - apply bind_Ok in Hid as ([] & Hlt%ensure_Ok & [= <-]). split; [done|]. intros _. by apply Z.ltb_lt.
  - injection Hid as <-. split; [cbn; lia|done].
Qed.
Lemma add_snapshot_ok b s b' :
  builder_ok (metadata b) -> add_snapshot b s = Ok b' -> builder_ok (metadata b').
Proof.
  intros H (row_id & -> & Hn & _)%add_snapshot_metadata. destruct H. constructor; simpl; auto with metadata.
  eapply map_Forall_impl; [done|]. cbn. intros _ r [s' Hr]. rewrite lookup_insert_ne; [by eexists|congruence].
Qed.

Lemma set_ref_metadata now b name r b' :
  keyed snapshot_id (snapshots (metadata b)) -> set_ref now b name r = Ok b' ->
  refs (metadata b) !! name = Some r /\ b' = b
  \/ is_Some (snapshots (metadata b) !! ref_snapshot_id r)
     /\ exists ms : Z, metadata b' =
          (if bool_decide (name = MAIN_BRANCH)
           then metadata b <| current_snapshot_id := Some (ref_snapshot_id r) |>
                  <| snapshot_log := snapshot_log (metadata b) ++ [mkSnapshotLog (ref_snapshot_id r) ms] |>
           else metadata b)
          <| refs := <[name := r]> (refs (metadata b)) |>.
Proof.
  intros Hk. unfold set_ref. case_bool_decide as Hr; [intros [= <-]; by left|].
  intros (s & Hs & E)%bind_Ok. right. unfold ok_or in Hs.
  destruct (snapshots (metadata b) !! ref_snapshot_id r) as [s'|] eqn:Es; [|done]. injection Hs as ->.
  split; [by eexists|]. rewrite (Hk _ _ Es) in E. injection E as <-.
  destruct (existsb _ _), (bool_decide (name = MAIN_BRANCH)); simpl; eexists; try reflexivity.
  all: exact 0.
Qed.
Lemma set_ref_ok now b name r b' :
  builder_ok (metadata b) -> set_ref now b name r = Ok b' -> builder_ok (metadata b').
Proof.
  intros H Hset. apply set_ref_metadata in Hset as [[_ ->]|(Hs & ms & ->)]; [done| |apply H].
  destruct H. case_bool_decide as Hm; constructor; simpl; auto with metadata; try by apply map_Forall_insert_2.
  - intros r'. by rewrite Hm, lookup_insert_eq; intros [= <-].
  - intros id [= <-]. by rewrite last_snoc.
  - intros r'. rewrite lookup_insert_ne by done. apply ok_main0.
Qed.
Lemma set_branch_snapshot_ok now b s branch b' :
  builder_ok (metadata b) -> set_branch_snapshot now b s branch = Ok b' -> builder_ok (metadata b').
Proof.
  unfold set_branch_snapshot. intros H (r & _ & (b1 & H1 & E)%bind_Ok)%bind_Ok. cbv beta in E.
  eapply set_ref_ok; [|done]. by eapply add_snapshot_ok.
Qed.
Lemma remove_snapshots_metadata b ids :
  metadata (remove_snapshots b ids) =
    metadata b <| snapshots := filter (fun e => listed ids e.1 = false) (snapshots (metadata b)) |>
      <| refs := filter (fun e => is_Some (filter (fun e => listed ids e.1 = false)
                                             (snapshots (metadata b)) !! ref_snapshot_id e.2))
                   (refs (metadata b)) |>.
Proof. unfold remove_snapshots. by destruct (List.filter _ _). Qed.
Lemma remove_snapshots_ok b ids :
  builder_ok (metadata b) -> builder_ok (metadata (remove_snapshots b ids)).
Proof.
  intros H. rewrite remove_snapshots_metadata. destruct H. constructor; simpl; try assumption.
  - by eapply map_Forall_sub; [apply kept_sub|].
  - intros k r Hr. apply map_lookup_filter_Some in Hr as [_ Hr]. exact Hr.
  - intros r Hr. apply map_lookup_filter_Some in Hr as [Hr _]. by apply ok_main0.
Qed.
Lemma remove_ref_ok b name : builder_ok (metadata b) -> builder_ok (metadata (remove_ref b name)).
Proof.
  intros H. unfold remove_ref.
  assert (Hm : builder_ok
    ((if bool_decide (name = MAIN_BRANCH) then metadata b <| current_snapshot_id := None |> else metadata b)
       <| refs := delete name (refs (metadata b)) |>)).
  { destruct H. assert (Hsub : delete name (refs (metadata b)) ⊆ refs (metadata b)) by apply delete_subseteq.
    case_bool_decide as Hn; constructor; simpl; try assumption; try (by eapply map_Forall_sub); try done.
    - intros r. by rewrite Hn, lookup_delete_eq.
    - intros r Hr. apply lookup_delete_Some in Hr as [_ Hr]. by apply ok_main0. }
  destruct (_ || _); exact Hm.
Qed.

#[local] Hint Resolve assign_uuid_ok set_location_ok upgrade_format_version_ok set_properties_ok
  remove_properties_ok set_statistics_ok remove_statistics_ok set_partition_statistics_ok
  remove_partition_statistics_ok add_encryption_key_ok remove_encryption_key_ok add_schema_ok
  set_current_schema_ok remove_schemas_ok add_partition_spec_ok set_default_partition_spec_ok
  remove_partition_specs_ok add_sort_order_ok set_default_sort_order_ok add_snapshot_ok set_ref_ok
  remove_snapshots_ok remove_ref_ok : preserves.

Lemma apply_update_ok now u b b' :
  builder_ok (metadata b) -> apply_update now u b = Ok b' -> builder_ok (metadata b').
Proof.
  intros H. destruct u; cbn [apply_update]; intros E; try (by eauto 2 with preserves);
    injection E as <-; auto with preserves.
Qed.

Lemma apply_updates_ok clock us : forall b b',
  builder_ok (metadata b) -> apply_updates clock us b = Ok b' -> builder_ok (metadata b').
Proof.
  revert clock; induction us as [|u us IH]; intros clock b b' H; cbn [apply_updates]; [by intros [= <-]|].
  intros (b1 & H1 & E)%bind_Ok. eapply IH; [|exact E]. by eapply apply_update_ok.
Qed.

(** ** Theory: the history *)

(** What an operation on anything but snapshots does to the history. *)
Record quiet (b b' : TableMetadataBuilder) : Prop := {
  q_snapshots : snapshots (metadata b') = snapshots (metadata b);
  q_log : snapshot_log (metadata b') = snapshot_log (metadata b);
  q_changes : changes b `prefix_of` changes b';
}.

(** The history is known, or the update removes snapshots, so that [build] corrects it. *)
Definition history_ok (b : TableMetadataBuilder) : Prop :=
  log_known (metadata b) \/ existsb removes_snapshots (changes b) = true.

Lemma prefix_removes l l' :
  l `prefix_of` l' -> existsb removes_snapshots l = true -> existsb removes_snapshots l' = true.
Proof. intros [k ->] H. by rewrite existsb_app, H. Qed.
Lemma quiet_history b b' : quiet b b' -> history_ok b -> history_ok b'.
Proof.
  intros [Hs Hl Hc] [H|H]; [left|right; by eapply prefix_removes].
  unfold log_known in *. by rewrite Hs, Hl.
Qed.

Ltac quiet_op :=
  repeat match goal with |- context [match ?x with _ => _ end] => destruct x end;
  constructor; simpl; try reflexivity; by (eexists; first [reflexivity|by rewrite app_nil_r]).

Lemma quiet_update now u b b' :
  match u with
  | AddSnapshot _ | SetSnapshotRef _ _ | RemoveSnapshots _ => True
  | _ => apply_update now u b = Ok b' -> quiet b b'
  end.
Proof.
  destruct u; try exact I; cbn [apply_update]; intros E;
    unfold upgrade_format_version, assign_uuid, add_schema, set_current_schema, add_partition_spec,
      set_default_partition_spec, add_sort_order, set_default_sort_order, remove_ref, set_location,
      set_properties, remove_properties, remove_partition_specs, set_statistics, remove_statistics,
      set_partition_statistics, remove_partition_statistics, remove_schemas, add_encryption_key,
      remove_encryption_key in E; run_op E; quiet_op.
Qed.

Lemma add_snapshot_history b s b' : add_snapshot b s = Ok b' -> history_ok b -> history_ok b'.
Proof.
  intros E. pose proof (add_snapshot_metadata _ _ _ E) as (row_id & Hm & Hn & _).
  assert (Hc : changes b' = changes b ++ [AddSnapshot s]).
  { unfold add_snapshot in E. run_op E; done. }
  intros [H|H]; [left|right; rewrite Hc; by rewrite existsb_app, H].
  unfold log_known in *. rewrite Hm. simpl. eapply Forall_impl; [exact H|]. cbn. intros e He.
  rewrite lookup_insert_is_Some. destruct (decide (snapshot_id s = log_snapshot_id e)); auto.
Qed.
Lemma set_ref_history now b name r b' :
  keyed snapshot_id (snapshots (metadata b)) -> set_ref now b name r = Ok b' -> history_ok b -> history_ok b'.
Proof.
  intros Hk E. pose proof (set_ref_metadata _ _ _ _ _ Hk E) as [[_ ->]|(Hs & ms & Hm)]; [done|].
  intros [H|H].
  - left. unfold log_known in *. rewrite Hm. case_bool_decide; simpl; [|exact H].
    apply Forall_app. split; [exact H|]. by apply Forall_singleton.
  - right. unfold set_ref in E. destruct (bool_decide (refs (metadata b) !! name = Some r)); inv_ok; [done|].
    simpl. rewrite existsb_app. destruct (existsb (adds_snapshot _) _), (bool_decide (name = MAIN_BRANCH));
      simpl; by rewrite H.
Qed.

Context {L : HashOrderLaws O}.

Lemma remove_snapshots_history b ids : history_ok b -> history_ok (remove_snapshots b ids).
Proof.
  intros [H|H]; unfold history_ok.
  - destruct (List.filter (listed ids) (hash_iter (snapshots (metadata b))).*1) as [|id removed] eqn:E.
    + left. rewrite remove_snapshots_metadata. unfold log_known in *. simpl.
      eapply Forall_impl; [exact H|]. cbn. intros e [s He]. rewrite kept_lookup.
      destruct (listed ids (log_snapshot_id e)) eqn:El; [|by eexists]. exfalso.
      assert (Hin : log_snapshot_id e ∈ List.filter (listed ids) (hash_iter (snapshots (metadata b))).*1).
      { rewrite list_elem_of_In, List.filter_In. split; [|done]. apply list_elem_of_In.
        rewrite hash_iter_perm. apply list_elem_of_fmap.
        exists (log_snapshot_id e, s). split; [done|by apply elem_of_map_to_list]. }
      rewrite E in Hin. by apply elem_of_nil in Hin.
    + right. unfold remove_snapshots. rewrite E. simpl. by rewrite existsb_app, orb_true_r.
  - right. unfold remove_snapshots. destruct (List.filter _ _); simpl; [done|].
    by rewrite existsb_app, H.
Qed.

Lemma apply_update_history now u b b' :
  builder_ok (metadata b) -> history_ok b -> apply_update now u b = Ok b' -> history_ok b'.
Proof.
  intros Hb H E. pose proof (quiet_update now u b b') as Hq.
  destruct u; try (by eapply quiet_history; [apply Hq|]); cbn [apply_update] in E; clear Hq.
  - by eapply add_snapshot_history.
  - eapply set_ref_history; [apply Hb|done..].
  - injection E as <-. by apply remove_snapshots_history.
Qed.
Lemma apply_updates_history clock us : forall b b',
  builder_ok (metadata b) -> history_ok b -> apply_updates clock us b = Ok b' -> history_ok b'.
Proof.
  revert clock; induction us as [|u us IH]; intros clock b b' Hb H; cbn [apply_updates]; [by intros [= <-]|].
  intros (b1 & H1 & E)%bind_Ok. eapply IH; [| |exact E]; [by eapply apply_update_ok|by eapply apply_update_history].
Qed.

(** ** Theory: [build] *)

Lemma rebuild_log_known known intermediate removed log :
  Forall (fun e => is_Some (known !! log_snapshot_id e)) (rebuild_log known intermediate removed log).
Proof.
  unfold rebuild_log.
  enough (forall acc, Forall (fun e => is_Some (known !! log_snapshot_id e)) acc ->
    Forall (fun e => is_Some (known !! log_snapshot_id e))
      (foldl (fun new_log e =>
                if bool_decide (is_Some (known !! log_snapshot_id e)) then
                  if listed intermediate (log_snapshot_id e) then new_log else new_log ++ [e]
                else if removed then [] else new_log) acc log)) as H by by apply H.
  induction log as [|e log IH]; intros acc Hacc; cbn [foldl]; [exact Hacc|].
  apply IH. case_bool_decide as Hk; [|by destruct removed].
  destruct (listed _ _); [done|]. apply Forall_app. split; [done|by apply Forall_singleton].
Qed.
Lemma update_snapshot_log_ok b b' :
  builder_ok (metadata b) -> history_ok b -> update_snapshot_log b = Ok b' ->
  exists log, b' = with_metadata b (metadata b <| snapshot_log := log |>)
    /\ builder_ok (metadata b') /\ log_known (metadata b').
Proof.
  intros Hb Hh. unfold update_snapshot_log.
  destruct (bool_decide (get_intermediate_snapshots b = []) && _) eqn:E.
  - intros [= <-]. exists (snapshot_log (metadata b)). split; [by destruct b as [[] ? ? ? ? ? ?]|]. split; [done|].
    destruct Hh as [H|H]; [done|]. by rewrite H, andb_false_r in E.
  - intros ([] & Hc & [= <-])%bind_Ok. eexists. split; [done|]. split.
    + destruct Hb. constructor; simpl; try assumption. intros id Hid. rewrite Hid in Hc.
      apply ensure_Ok in Hc. by apply bool_decide_eq_true in Hc.
    + unfold log_known. simpl. apply rebuild_log_known.
Qed.

(** Binding a bound spec again gives the same spec. *)
Lemma set_ids_given ids last fields :
  set_ids ids last (into_unbound_field <$> fields) = Ok fields.
Proof.
  revert last; induction fields as [|[s i n t] fields IH]; intros last; [done|].
  cbn. by rewrite IH.
Qed.
Lemma rebind_same spec schema spec' : unbound_bind (into_unbound spec) schema = Ok spec' -> spec' = spec.
Proof.
  unfold unbound_bind, new_from_unbound. intros (b & Hb & E)%bind_Ok.
  apply add_unbound_fields_Ok in Hb as [-> _]; [|apply valid_unbound_nil].
  unfold spec_build, set_field_ids in E. cbn in E. rewrite set_ids_given in E. cbn in E.
  by destruct spec; injection E as <-.
Qed.

Lemma normalize_current_Ok m m' :
  normalize_current_snapshot m = Ok m' ->
  exists c, m' = m <| current_snapshot_id := c |>
    /\ forall id, c = Some id ->
         current_snapshot_id m = Some id /\ is_Some (snapshots m !! id) /\ id <> EMPTY_SNAPSHOT_ID.
Proof.
  unfold normalize_current_snapshot. intros E.
  destruct (current_snapshot_id m) as [id|] eqn:Ec.
  - destruct (Z.eqb_spec id EMPTY_SNAPSHOT_ID).
    + injection E as <-. by exists None.
    + apply bind_Ok in E as ([] & Hs%ensure_Ok & [= <-]). apply bool_decide_eq_true in Hs.
      exists (Some id). split; [destruct m; simpl in *; by subst|]. by intros ? [= <-].
  - injection E as <-. exists None. split; [destruct m; simpl in *; by subst|done].
Qed.
Lemma construct_refs_cases m :
  construct_refs m = m
  \/ exists id, current_snapshot_id m = Some id /\ refs m !! MAIN_BRANCH = None
     /\ construct_refs m
        = m <| refs := <[MAIN_BRANCH := mkSnapshotReference id (Branch None None None)]> (refs m) |>.
Proof.
  unfold construct_refs. destruct (current_snapshot_id m) as [id|]; [|by left].
  destruct (refs m !! MAIN_BRANCH) eqn:E; [by left|]. right. by exists id.
Qed.
Lemma construct_refs_main m id :
  current_snapshot_id m = Some id -> is_Some (refs (construct_refs m) !! MAIN_BRANCH).
Proof.
  intros E. unfold construct_refs. rewrite E. destruct (refs m !! MAIN_BRANCH) eqn:Er; [by eexists|].
  simpl. rewrite lookup_insert_eq. by eexists.
Qed.
Lemma construct_refs_same m :
  (is_Some (current_snapshot_id m) -> is_Some (refs m !! MAIN_BRANCH)) -> construct_refs m = m.
Proof.
  unfold construct_refs. destruct (current_snapshot_id m); [|done]. by intros [r ->].
Qed.
Lemma validate_refs_Ok m :
  validate_refs m = Ok tt <->
  map_Forall (fun _ r => is_Some (snapshots m !! ref_snapshot_id r)) (refs m)
  /\ (current_snapshot_id m = ref_snapshot_id <$> refs m !! MAIN_BRANCH
      \/ is_Some (current_snapshot_id m) /\ refs m !! MAIN_BRANCH = None).
Proof.
  unfold validate_refs. rewrite bind_Ok. split.
  - intros ([] & Hf%ensure_Ok & E). apply bool_decide_eq_true in Hf. split; [done|].
    destruct (current_snapshot_id m), (refs m !! MAIN_BRANCH); cbn; try done; [|by right|by left].
    apply ensure_Ok, Z.eqb_eq in E. left. by subst.
  - intros [Hf H]. exists tt. rewrite ensure_Ok. split; [by apply bool_decide_eq_true|].
    destruct H as [->|[[c ->] ->]]; [|done]. destruct (refs m !! MAIN_BRANCH); cbn; [|done].
    by rewrite ensure_Ok, Z.eqb_refl.
Qed.

(** What [try_normalize] changes, and what it has checked. *)
Record normalised (m m' : TableMetadata) : Prop := {
  n_shape : exists c r, m' = m <| current_snapshot_id := c |> <| refs := r |>
                               <| location := trim_slashes (location m) |>;
  n_snapshots : snapshots m' = snapshots m;
  n_ok : builder_ok m';
  n_nonempty : current_snapshot_id m' <> Some EMPTY_SNAPSHOT_ID;
  n_current : current_snapshot_id m' = ref_snapshot_id <$> refs m' !! MAIN_BRANCH;
  n_same : current_snapshot_id m = ref_snapshot_id <$> refs m !! MAIN_BRANCH ->
    current_snapshot_id m' = current_snapshot_id m /\ refs m' = refs m;
  n_sequence : validate_snapshot_sequence_number m = Ok tt;
  n_unsorted : forall o, sort_orders m !! UNSORTED_ORDER_ID = Some o -> sort_fields o = [];
  n_snapshot_log : validate_chronological_snapshot_logs m = Ok tt;
  n_metadata_log : validate_chronological_metadata_logs m = Ok tt;
}.

Lemma try_normalize_sort_order_Ok m m' :
  is_Some (sort_orders m !! default_sort_order_id m) -> try_normalize_sort_order m = Ok m' ->
  m' = m /\ forall o, sort_orders m !! UNSORTED_ORDER_ID = Some o -> sort_fields o = [].
Proof.
  unfold try_normalize_sort_order, sort_order_by_id. intros [o Ho] ([] & Hu & E)%bind_Ok. rewrite Ho in E.
  injection E as <-. split; [done|]. intros o' Ho'. rewrite Ho' in Hu. apply ensure_Ok in Hu.
  unfold is_unsorted in Hu. by destruct (sort_fields o').
Qed.
Lemma try_normalize_Ok m m' : builder_ok m -> try_normalize m = Ok m' -> normalised m m'.
Proof.
  intros H. unfold try_normalize. intros ([] & _ & E)%bind_Ok. cbv beta in E.
  apply bind_Ok in E as (m1 & (c & -> & Hc)%normalize_current_Ok & E). cbv zeta in E.
  set (m1 := m <| current_snapshot_id := c |>) in E.
  apply bind_Ok in E as ([] & Hr & E). apply bind_Ok in E as ([] & Hl1 & E). apply bind_Ok in E as ([] & Hl2 & E).
  apply bind_Ok in E as ([] & Hq & E).
  assert (Hm2 : exists r, construct_refs m1 = m1 <| refs := r |>).
  { destruct (construct_refs_cases m1) as [->|(id & _ & _ & ->)]; [|by eexists].
    exists (refs m1). by destruct m. }
  apply validate_refs_Ok in Hr as [Hf Hr].
  assert (Hcur : current_snapshot_id m1 = ref_snapshot_id <$> refs (construct_refs m1) !! MAIN_BRANCH).
  { destruct Hr as [Hr|[[id Hr] Hn]]; destruct Hm2 as [r Er]; rewrite Er in *; [done|].
    destruct (construct_refs_main m1 id) as [x Hx]; [done|]. rewrite Er in Hx. congruence. }
  assert (Hsame : current_snapshot_id m = ref_snapshot_id <$> refs m !! MAIN_BRANCH ->
            c = current_snapshot_id m /\ refs (construct_refs m1) = refs m).
  { intros Hm. assert (construct_refs m1 = m1) as E1.
    { apply construct_refs_same. cbn. intros [id [Hid _]%Hc]. rewrite Hm in Hid.
      by destruct (refs m !! MAIN_BRANCH). }
    rewrite E1 in *. split; [|done]. by rewrite Hm. }
  destruct Hm2 as [r Er]. rewrite Er in *.
  unfold try_normalize_partition_spec, partition_spec_by_id in E. simpl in E.
  rewrite (ok_default_spec _ H) in E. apply try_normalize_sort_order_Ok in E as [-> Hu]; [|apply H].
  simpl in *. constructor; try done; [by exists c, r| |by intros [_ [_ ?]]%Hc].
  destruct H. constructor; simpl; try assumption.
  - intros r' Hr'. simpl in Hcur. by rewrite Hcur, Hr'.
  - intros id ->. by apply ok_log0, Hc.
Qed.

Definition full_metadata_log (b : TableMetadataBuilder) : list MetadataLog :=
  metadata_log (metadata b) ++ option_list (previous_history_entry b).

(** A successful [build]. *)
Record build_result (now : Z) (b : TableMetadataBuilder) (r : TableMetadataBuildResult) : Prop := {
  r_schema : exists s o t log m',
    schemas (metadata b) !! current_schema_id (metadata b) = Some s
    /\ sort_orders (metadata b) !! default_sort_order_id (metadata b) = Some o
    /\ Forall (sortable s) (sort_fields o)
    /\ partition_type (default_spec (metadata b)) s = Ok t
    /\ log_known (metadata b <| snapshot_log := log |>)
    /\ normalised (metadata b <| last_updated_ms := default now (b_last_updated_ms b) |>
                     <| default_partition_type := t |> <| snapshot_log := log |>) m'
    /\ exists kept, built_metadata r = m' <| metadata_log := kept |>
         /\ expired_metadata_logs r ++ kept = full_metadata_log b
         /\ length (expired_metadata_logs r)
            = (length (full_metadata_log b) - metadata_log_size (metadata b))%nat;
  r_changes : built_changes r = changes b;
}.

Lemma builder_build_Ok now b r :
  builder_ok (metadata b) -> history_ok b -> builder_build now b = Ok r -> build_result now b r.
Proof.
  intros Hb Hh. unfold builder_build. intros (s & Hs & E)%bind_Ok. cbv beta in E.
  apply bind_Ok in E as (o & Ho & E). apply bind_Ok in E as (spec & Hspec & E).
  apply rebind_same in Hspec as ->. cbv beta in E.
  apply bind_Ok in E as (t & Ht & E). apply bind_Ok in E as (o' & Ho' & E). cbv beta zeta in E.
  apply bind_Ok in E as (b' & Hl & E). apply bind_Ok in E as (m' & Hn & E). cbv zeta in E.
  apply update_snapshot_log_ok in Hl as (log & -> & Hok & Hk).
  2: { destruct Hb; constructor; simpl; assumption. }
  2: { exact Hh. }
  apply try_normalize_Ok in Hn; [|exact Hok].
  unfold get_current_schema, get_default_sort_order, ok_or in Hs, Ho. simpl in Hs, Ho, Ht, Hk, Hn.
  destruct (schemas (metadata b) !! _) as [s'|] eqn:Es; [|done].
  destruct (sort_orders (metadata b) !! _) as [o''|] eqn:Eo; [|done]. injection Hs as ->. injection Ho as ->.
  apply sort_build_Ok in Ho' as (_ & Hsort & Hf & _). cbn in Hf. rewrite Hf in Hsort.
  assert (Hm2 : push_history (previous_history_entry b) m' = m' <| metadata_log := full_metadata_log b |>).
  { destruct (n_shape _ _ Hn) as (c & r' & ->). unfold push_history, full_metadata_log. simpl.
    destruct (previous_history_entry b); simpl; [done|]. by rewrite app_nil_r. }
  assert (Hsize : metadata_log_size (m' <| metadata_log := full_metadata_log b |>)
                  = metadata_log_size (metadata b)).
  { by destruct (n_shape _ _ Hn) as (c & r' & ->). }
  simpl in E. rewrite Hm2 in E. unfold expire_metadata_log in E.
  rewrite Hsize in E. injection E as <-.
  split; [|done]. exists s, o, t, log, m'. split_and!; try done. eexists. simpl. split; [done|].
  split; [apply take_drop|]. rewrite length_take. lia.
Qed.

Lemma build_metadata_ok now b r :
  builder_ok (metadata b) -> history_ok b -> builder_build now b = Ok r -> metadata_ok (built_metadata r).
Proof.
  intros Hb Hh E. destruct (builder_build_Ok _ _ _ Hb Hh E) as [H _].
  destruct H as (s & o & t & log & m' & Hs & Ho & Hsort & Ht & Hk & Hn & kept & -> & Hkept & Hlen).
  destruct (n_shape _ _ Hn) as (c & rf & ->). pose proof (n_ok _ _ Hn) as Hok.
  constructor; simpl.
  - destruct Hok. constructor; simpl in *; assumption.
  - apply (n_current _ _ Hn).
  - exact Hk.
  - intros Hv. pose proof (n_sequence _ _ Hn) as Hq. unfold validate_snapshot_sequence_number in Hq.
    simpl in Hq. destruct (format_version (metadata b)); [done|..];
      apply ensure_Ok, bool_decide_eq_true in Hq; exact Hq.
  - apply (n_unsorted _ _ Hn).
  - by exists s.
  - by exists s, o.
  - apply (f_equal length) in Hkept. rewrite length_app in Hkept. unfold metadata_log_size in *. simpl. lia.
Qed.

(** ** Theory: a new table *)

Lemma hash_iter_empty {A} : hash_iter (∅ : gmap Z A) = [].
Proof. apply Permutation_nil. symmetry. rewrite <- (map_to_list_empty (M := gmap Z)). apply hash_iter_perm. Qed.

Lemma add_current_schema_new b s b' :
  schemas (metadata b) = ∅ -> current_schema_id (metadata b) = -1 -> add_current_schema b s = Ok b' ->
  exists s', schema_id s' = 0 /\ Schema.highest_field_id s' = Schema.highest_field_id s
    /\ metadata b' = metadata b
         <| last_column_id := Z.max (last_column_id (metadata b)) (Schema.highest_field_id s) |>
         <| schemas := {[0 := s']} |> <| current_schema_id := 0 |>.
Proof.
  intros He Hc. unfold add_current_schema, add_schema, reuse_or_create_new_schema_id, get_highest_schema_id.
  rewrite He, Hc, hash_iter_empty, map_to_list_empty, lookup_empty. cbn [omap list_omap head default fmap list_fmap list_max].
  change (wrapS 32 (-1 + 1)) with 0.
  intros (b1 & (u & _ & [= <-])%bind_Ok & E)%bind_Ok. unfold set_current_schema in E. simpl in E.
  rewrite Hc in E. simpl in E. rewrite insert_empty, lookup_singleton_eq in E. simpl in E. injection E as <-.
  eexists. split; [|split; [|reflexivity]];
    by destruct (schema_id s) eqn:?.
Qed.

Lemma spec_ids_below spec :
  Forall (fun f => partition_field_id f
                   <= default UNPARTITIONED_LAST_ASSIGNED_ID (PartitionSpecs.highest_field_id spec))
    (spec_fields spec).
Proof.
  apply Forall_forall. intros f Hf.
  destruct (list_max_spec (partition_field_id <$> spec_fields spec) (partition_field_id f))
    as (top & Ht & ?); [by apply list_elem_of_fmap_2|].
  unfold PartitionSpecs.highest_field_id. by rewrite Ht.
Qed.

Lemma add_default_partition_spec_new b u b' :
  partition_specs (metadata b) = ∅ -> spec_id (default_spec (metadata b)) = -1 ->
  add_default_partition_spec b u = Ok b' ->
  exists spec t, spec_id spec = 0
    /\ metadata b' = metadata b <| partition_specs := {[0 := spec]} |>
         <| last_partition_id :=
              Z.max (last_partition_id (metadata b))
                (default UNPARTITIONED_LAST_ASSIGNED_ID (PartitionSpecs.highest_field_id spec)) |>
         <| default_spec := spec |> <| default_partition_type := t |>.
Proof.
  intros He Hd. unfold add_default_partition_spec. intros (b1 & H1 & E)%bind_Ok. unfold add_partition_spec in H1.
  apply bind_Ok in H1 as (s & _ & H1). apply bind_Ok in H1 as (? & _ & H1).
  apply bind_Ok in H1 as (pb & _ & H1). apply bind_Ok in H1 as (spec & _ & H1). cbv zeta in H1.
  assert (Hid : reuse_or_create_new_spec_id (metadata b) spec = 0).
  { unfold reuse_or_create_new_spec_id, get_highest_spec_id. by rewrite He, hash_iter_empty, map_to_list_empty. }
  rewrite Hid, He, lookup_empty in H1. apply bind_Ok in H1 as (? & _ & [= <-]).
  unfold set_default_partition_spec in E. simpl in E. rewrite Hd in E. simpl in E.
  rewrite insert_empty, lookup_singleton_eq in E. simpl in E.
  apply bind_Ok in E as (s' & _ & E). apply bind_Ok in E as (t & _ & [= <-]).
  exists (with_spec_id spec 0), t. done.
Qed.

Lemma add_default_sort_order_new b o b' :
  sort_orders (metadata b) = ∅ -> default_sort_order_id (metadata b) = -1 ->
  add_default_sort_order b o = Ok b' ->
  exists o', metadata b' = metadata b <| sort_orders := {[order_id o' := o']} |>
               <| default_sort_order_id := order_id o' |>.
Proof.
  intros He Hd. unfold add_default_sort_order. intros (b1 & H1 & E)%bind_Ok. unfold add_sort_order in H1.
  set (new_id := reuse_or_create_new_sort_id (metadata b) o) in *.
  assert (Hid : new_id = if is_unsorted o then 0 else 1).
  { unfold new_id, reuse_or_create_new_sort_id, highest_sort_order_id. destruct (is_unsorted o); [done|].
    by rewrite He, hash_iter_empty, map_to_list_empty. }
  rewrite He, lookup_empty in H1. apply bind_Ok in H1 as (s & _ & H1).
  destruct (sort_build _ s) as [o'|[]] eqn:Eb; [|done..]. injection H1 as <-.
  apply sort_build_Ok in Eb as (Hok & _ & Hf & Hi). cbn in Hf, Hi.
  assert (Hkey : order_id o' = new_id).
  { destruct (decide (sort_fields o' = [])) as [He'|He']; [|by apply Hi].
    rewrite (proj2 Hok He'), Hid. unfold is_unsorted. by rewrite <- Hf, He'. }
  unfold set_default_sort_order, resolve_id in E. cbn in E. rewrite Hd in E.
  destruct (Z.eqb_spec (-1) new_id) as [Heq|_].
  { rewrite Hid in Heq. by destruct (is_unsorted o). }
  rewrite insert_empty, lookup_singleton_eq in E. cbn in E. injection E as <-.
  exists o'. by rewrite Hkey.
Qed.

Lemma metadata_builder_new_ok uuid schema spec order l v p b :
  metadata_builder_new uuid schema spec order l v p = Ok b -> builder_ok (metadata b) /\ history_ok b.
Proof.
  unfold metadata_builder_new. intros ([[fs fp] fo] & _ & E)%bind_Ok.
  apply bind_Ok in E as (b1 & H1 & E). apply bind_Ok in E as (b2 & H2 & E). apply bind_Ok in E as (b3 & H3 & E).
  apply add_current_schema_new in H1 as (s & Hs1 & Hs2 & H1);
    [|unfold set_location; simpl; by case_bool_decide..].
  assert (Hm1 : exists l', metadata b1
    = mkTableMetadata v uuid l' 0 0 (Z.max (-1) (Schema.highest_field_id fs)) {[0 := s]} 0 ∅
        (with_spec_id unpartition_spec (-1)) [] UNPARTITIONED_LAST_ASSIGNED_ID ∅ None ∅ [] [] ∅ (-1)
        ∅ ∅ ∅ ∅ INITIAL_ROW_ID).
  { rewrite H1. unfold set_location. case_bool_decide; by eexists. }
  destruct Hm1 as [l' Hm1]. clear H1.
  apply add_default_partition_spec_new in H2 as (sp & t & Hp & H2); [|by rewrite Hm1..].
  rewrite Hm1 in H2. simpl in H2. clear Hm1.
  apply add_default_sort_order_new in H3 as (o & H3); [|by rewrite H2..].
  rewrite H2 in H3. simpl in H3. clear H2. rename H3 into Hm.
  assert (Hok : builder_ok (metadata b3)).
  { rewrite Hm. constructor; simpl; try apply map_Forall_singleton; try done; try lia.
    - by rewrite Hp, lookup_singleton_eq.
    - by rewrite lookup_singleton_eq.
    - eapply Forall_impl; [apply spec_ids_below|]. cbn. lia. }
  split; [by eapply set_properties_ok|].
  assert (quiet b3 b) as Hq by (by apply (quiet_update 0 (SetProperties p))).
  eapply quiet_history; [exact Hq|]. left. unfold log_known. rewrite Hm. constructor.
Qed.

End preservation.
