(* ===== verification/Versions.v ===== *)
(** * The versions of a table

    Every version that creation and commits can reach satisfies the invariant of
    [MetadataSpec]; what is read back from a metadata file is what was written; the
    log of metadata files; the row ids of a table with row lineage. *)

From S2P Require Import Prelude Utf8 Numerals Values Schema Concrete Transform ConcreteTime.
From S2P Require Import PartitionSpecs SortOrders LiteralEq TableMetadata MetadataBuilder MetadataSpec.

Section versions.
Context {O : HashOrder} {L : HashOrderLaws O} {V : ValueLib} {LC : Lowercase}.

(** ** Reachable versions *)

Inductive version : TableMetadata -> Prop :=
| version_new uuid schema spec order l v p b now r :
    metadata_builder_new uuid schema spec order l v p = Ok b ->
    builder_build now b = Ok r -> version (built_metadata r)
| version_commit m current_file_location clock updates b now r :
    version m ->
    apply_updates clock updates (new_from_metadata m current_file_location) = Ok b ->
    builder_build now b = Ok r -> version (built_metadata r).

Lemma version_metadata_ok m : version m -> metadata_ok m.
Proof.
  induction 1 as [????????? r Hn%metadata_builder_new_ok Hb|m l clock us b now r _ IH Hu Hb].
  - eapply build_metadata_ok; [..|exact Hb]; apply Hn.
  - assert (builder_ok (metadata (new_from_metadata m l))) as Hm by apply IH.
    assert (history_ok (new_from_metadata m l)) as Hh by (left; apply IH).
    eapply build_metadata_ok; [..|exact Hb]; [by eapply apply_updates_ok|by eapply apply_updates_history].
Qed.

(** C3 Every version of a table, from its creation through any sequence of commits of any
    updates, is well formed: every schema, spec, sort order and snapshot is stored under its
    id; the current schema, default spec and default sort order exist and fit each other; the
    ids assigned last bound all field ids; references and the history name known snapshots;
    the current snapshot is that of the main branch and ends the history; sequence numbers are
    bounded by the last one; the log of metadata files is within its limit. *)
Theorem every_version_ok m : version m -> metadata_ok m.
Proof. apply version_metadata_ok. Qed.

(** ** Reading a version back *)

Lemma trim_slashes_idemp s : trim_slashes (trim_slashes s) = trim_slashes s.
Proof.
  induction s as [|c s IH]; [done|]. cbn [trim_slashes].
  destruct (trim_slashes s) as [|d t] eqn:E.
  - destruct (bool_decide (c = _)) eqn:Ec; [done|]. cbn [trim_slashes]. by rewrite Ec.
  - change (match trim_slashes (String d t) with
            | EmptyString => if bool_decide (c = Ascii.ascii_of_nat 47) then EmptyString else String c EmptyString
            | t' => String c t' end = String c (String d t)). by rewrite IH.
Qed.

Lemma windows_ok_drop n l : windows_ok l = true -> windows_ok (drop n l) = true.
Proof.
  revert n; induction l as [|a l IH]; intros [|n] H; try done. cbn [drop].
  apply IH. destruct l; [done|]. cbn [windows_ok] in H. by apply andb_true_iff in H as [_ ?].
Qed.
Lemma windows_ok_snoc l a :
  windows_ok (l ++ [a]) = windows_ok l && match last l with Some b => negb (long_before a b) | None => true end.
Proof.
  induction l as [|b l IH]; [done|]. destruct l as [|c l].
  - cbn. by rewrite andb_true_r.
  - change (negb (long_before c b) && windows_ok ((c :: l) ++ [a])
            = (negb (long_before c b) && windows_ok (c :: l))
              && match last (c :: l) with Some d => negb (long_before a d) | None => true end).
    by rewrite IH, andb_assoc.
Qed.
Lemma last_drop {A} n (l : list A) : (n < length l)%nat -> last (drop n l) = last l.
Proof.
  intros H. rewrite <- (take_drop n l) at 2. rewrite last_app.
  destruct (last (drop n l)) eqn:E; [done|]. apply last_None in E.
  apply (f_equal length) in E. rewrite length_drop in E. cbn in E. lia.
Qed.

Lemma validate_chronological_Ok times u :
  validate_chronological times u = Ok tt <->
  windows_ok times = true /\ match last times with Some t => long_before u t = false | None => True end.
Proof.
  unfold validate_chronological. rewrite bind_Ok. split.
  - intros ([] & ?%ensure_Ok & H). split; [done|]. destruct (last times); [|done].
    apply ensure_Ok in H. by apply negb_true_iff in H.
  - intros [H1 H2]. exists tt. rewrite ensure_Ok. split; [done|]. destruct (last times); [|done].
    apply ensure_Ok. by rewrite H2.
Qed.

(** Metadata that passes its own checks unchanged, as [read_from] makes them. *)
Definition readable (m : TableMetadata) : Prop := try_normalize m = Ok m.

Lemma readable_intro m :
  metadata_ok m -> current_snapshot_id m <> Some EMPTY_SNAPSHOT_ID ->
  location m = trim_slashes (location m) -> validate_snapshot_sequence_number m = Ok tt ->
  validate_chronological_snapshot_logs m = Ok tt -> validate_chronological_metadata_logs m = Ok tt ->
  readable m.
Proof.
  intros H Hc Hl Hq Hs Hm. unfold readable, try_normalize, validate_current_schema, schema_by_id.
  pose proof (ok_builder _ H) as Hb.
  rewrite bool_decide_eq_true_2 by apply Hb. cbn [ensure mbind result_bind].
  assert (Hn : normalize_current_snapshot m = Ok m).
  { unfold normalize_current_snapshot, snapshot_by_id. pose proof (ok_current _ H) as Hcur.
    destruct (current_snapshot_id m) as [id|] eqn:E; [|done].
    destruct (Z.eqb_spec id EMPTY_SNAPSHOT_ID); [by subst|].
    destruct (refs m !! MAIN_BRANCH) as [r|] eqn:Er; [|done]. injection Hcur as ->.
    rewrite bool_decide_eq_true_2; [done|]. by apply (ok_refs _ Hb _ _ Er). }
  rewrite Hn. cbn [mbind result_bind].
  assert (Hr : construct_refs m = m).
  { destruct (construct_refs_cases m) as [->|(id & E1 & E2 & _)]; [done|].
    pose proof (ok_current _ H) as Hcur. by rewrite E1, E2 in Hcur. }
  rewrite Hr, (proj2 (validate_refs_Ok m)); [|split; [apply Hb|left; apply H]].
  cbn [mbind result_bind]. rewrite Hs, Hm. cbn [mbind result_bind].
  replace (m <| location := trim_slashes (location m) |>) with m by (simpl; rewrite <- Hl; by destruct m).
  rewrite Hq. cbn [mbind result_bind].
  unfold try_normalize_partition_spec, partition_spec_by_id. rewrite (ok_default_spec _ Hb).
  unfold try_normalize_sort_order, sort_order_by_id.
  destruct (sort_orders m !! UNSORTED_ORDER_ID) as [o|] eqn:Eo.
  - unfold is_unsorted. rewrite (ok_unsorted _ H _ Eo). cbn [ensure mbind result_bind].
    destruct (ok_default_order _ Hb) as [o' ->]. done.
  - cbn [mbind result_bind]. destruct (ok_default_order _ Hb) as [o' ->]. done.
Qed.

(** No update touches the log of metadata files or the time of the previous version. *)
Record same_log (b b' : TableMetadataBuilder) : Prop := {
  sl_log : metadata_log (metadata b') = metadata_log (metadata b);
  sl_entry : previous_history_entry b' = previous_history_entry b;
}.
Lemma apply_update_log now u b b' : apply_update now u b = Ok b' -> same_log b b'.
Proof.
  destruct u; cbn [apply_update]; intros E;
    unfold upgrade_format_version, assign_uuid, add_schema, set_current_schema, add_partition_spec,
      set_default_partition_spec, add_sort_order, set_default_sort_order, remove_ref, set_location,
      set_properties, remove_properties, remove_partition_specs, set_statistics, remove_statistics,
      set_partition_statistics, remove_partition_statistics, remove_schemas, add_encryption_key,
      remove_encryption_key, add_snapshot, set_ref, remove_snapshots in E; run_op E;
    repeat match goal with |- context [match ?x with _ => _ end] => destruct x end; done.
Qed.
Lemma apply_updates_log clock us : forall b b', apply_updates clock us b = Ok b' -> same_log b b'.
Proof.
  revert clock; induction us as [|u us IH]; intros clock b b'; cbn [apply_updates]; [by intros [= <-]|].
  intros (b1 & [H1 H2]%apply_update_log & [H3 H4]%IH)%bind_Ok. split; congruence.
Qed.

Lemma readable_log m : readable m -> validate_chronological_metadata_logs m = Ok tt.
Proof.
  unfold readable, try_normalize. intros E. apply bind_Ok in E as (? & _ & E).
  apply bind_Ok in E as (m1 & H1 & E). cbv zeta in E.
  apply bind_Ok in E as (? & _ & E). apply bind_Ok in E as (? & _ & E). apply bind_Ok in E as ([] & H & _).
  apply normalize_current_Ok in H1 as (c & -> & _).
  destruct (construct_refs_cases (m <| current_snapshot_id := c |>)) as [Hr|(id & _ & _ & Hr)];
    rewrite Hr in H; exact H.
Qed.

(** The log of metadata files that [build] leaves. *)
Lemma metadata_log_size_pos m : (1 <= metadata_log_size m)%nat.
Proof. unfold metadata_log_size. lia. Qed.
Lemma kept_log b r kept :
  expired_metadata_logs r ++ kept = full_metadata_log b ->
  length (expired_metadata_logs r) = (length (full_metadata_log b) - metadata_log_size (metadata b))%nat ->
  kept = drop (length (expired_metadata_logs r)) (full_metadata_log b)
  /\ last kept = last (full_metadata_log b).
Proof.
  intros Hk Hl. assert (kept = drop (length (expired_metadata_logs r)) (full_metadata_log b)) as ->.
  { by rewrite <- Hk, drop_app_length. }
  split; [done|]. destruct (full_metadata_log b) as [|e l]; [by rewrite drop_nil|].
  apply last_drop. rewrite Hl. cbn [length]. pose proof (metadata_log_size_pos (metadata b)). lia.
Qed.
Lemma chronological_kept (ts : list Z) n u t :
  (n < length ts + 1)%nat -> validate_chronological ts t = Ok tt ->
  validate_chronological (drop n (ts ++ [t])) u = Ok tt <-> long_before u t = false.
Proof.
  intros Hn [Hw Hl]%validate_chronological_Ok. rewrite validate_chronological_Ok.
  rewrite last_drop by (rewrite length_app; cbn; lia). rewrite last_snoc.
  split; [by intros [_ ?]|]. intros Hu. split; [|done]. apply windows_ok_drop.
  rewrite windows_ok_snoc, Hw. destruct (last ts); [by rewrite Hl|done].
Qed.

(** A version that a commit writes can be read back, and is then the same, exactly when the
    clock of the commit is at most a minute behind the time of the version before it: the new
    entry of the log of metadata files is pushed after the log was checked. *)
Theorem commit_is_readable m location clock updates b now r :
  version m -> readable m ->
  apply_updates clock updates (new_from_metadata m (Some location)) = Ok b ->
  builder_build now b = Ok r ->
  (readable (built_metadata r)
   <-> long_before (last_updated_ms (built_metadata r)) (last_updated_ms m) = false).
Proof.
  intros Hv Hr Hu Hb.
  pose proof (version_metadata_ok _ (version_commit _ _ _ _ _ _ _ Hv Hu Hb)) as Hok.
  assert (builder_ok (metadata (new_from_metadata m (Some location)))) as Hm
    by (apply version_metadata_ok, Hv).
  assert (history_ok (new_from_metadata m (Some location))) as Hh by (left; apply version_metadata_ok, Hv).
  destruct (apply_updates_log _ _ _ _ Hu) as [Hl He].
  destruct (builder_build_Ok now b r) as [Hres _]; [by eapply apply_updates_ok|by eapply apply_updates_history|done|].
  destruct Hres as (s & o & t & log & m' & _ & _ & _ & _ & _ & Hn & kept & Hbuilt & Hk & Hlen).
  destruct (n_shape _ _ Hn) as (c & rf & Hm').
  destruct (kept_log _ _ _ Hk Hlen) as [Hdrop _].
  assert (Hfull : metadata_timestamp_ms <$> full_metadata_log b
                  = (metadata_timestamp_ms <$> metadata_log m) ++ [last_updated_ms m]).
  { unfold full_metadata_log. rewrite Hl, He, fmap_app. done. }
  assert (Hlog : validate_chronological_metadata_logs (built_metadata r) = Ok tt
                 <-> long_before (last_updated_ms (built_metadata r)) (last_updated_ms m) = false).
  { unfold validate_chronological_metadata_logs.
    assert (metadata_log (built_metadata r) = kept) as -> by (rewrite Hbuilt, Hm'; done).
    rewrite Hdrop, fmap_drop, Hfull. apply chronological_kept; [|by apply readable_log].
    rewrite Hlen. apply (f_equal length) in Hfull. rewrite length_app, !length_fmap in Hfull. cbn in Hfull.
    rewrite length_fmap. pose proof (metadata_log_size_pos (metadata b)). lia. }
  rewrite <- Hlog. split; [apply readable_log|]. intros Hlast.
  apply readable_intro; try done; rewrite Hbuilt.
  - apply (n_nonempty _ _ Hn).
  - rewrite Hm'. simpl. by rewrite trim_slashes_idemp.
  - rewrite Hm'. apply (n_sequence _ _ Hn).
  - rewrite Hm'. apply (n_snapshot_log _ _ Hn).
Qed.

(** ** Row lineage *)

(** The rows of a snapshot, as the half-open interval of their ids. *)
Definition rows_of (m : TableMetadata) (id : Z) (first_id end_id : Z) : Prop :=
  exists s r, snapshots m !! id = Some s /\ row_range s = Some r
    /\ first_id = first_row_id r /\ end_id = first_row_id r + added_rows r.

Record rows_ok (m : TableMetadata) : Prop := {
  rows_lineage : version_u8 (format_version m) < 3 -> forall id a e, ~ rows_of m id a e;
  rows_below : forall id a e, rows_of m id a e -> a <= e <= next_row_id m;
  rows_disjoint : forall id id' a e a' e', rows_of m id a e -> rows_of m id' a' e' -> id <> id' ->
    e <= a' \/ e' <= a;
}.

(** A snapshot takes the next row ids, as the producers of snapshots let it. *)
Definition takes_next_rows (m : TableMetadata) (u : TableUpdate) : Prop :=
  match u with
  | AddSnapshot s =>
      match row_range s with
      | Some r => version_u8 (format_version m) = 3 /\ first_row_id r = next_row_id m /\ 0 <= added_rows r
      | None => True
      end
  | _ => True
  end.

Lemma rows_ok_sub m m' :
  format_version m' = format_version m -> next_row_id m' = next_row_id m -> snapshots m' ⊆ snapshots m ->
  rows_ok m -> rows_ok m'.
Proof.
  intros Hf Hn Hs [H1 H2 H3].
  assert (Hsub : forall id a e, rows_of m' id a e -> rows_of m id a e).
  { intros id a e (s & r & Hid & Hr). exists s, r. split; [by eapply lookup_weaken|done]. }
  split; rewrite ?Hf, ?Hn; eauto. intros Hv id a e H. by eapply H1, Hsub.
Qed.

Lemma quiet_rows now u b b' :
  match u with
  | AddSnapshot _ | RemoveSnapshots _ | UpgradeFormatVersion _ => True
  | _ => apply_update now u b = Ok b' ->
         format_version (metadata b') = format_version (metadata b)
         /\ next_row_id (metadata b') = next_row_id (metadata b)
         /\ snapshots (metadata b') = snapshots (metadata b)
  end.
Proof.
  destruct u; try exact I; cbn [apply_update]; intros E;
    unfold assign_uuid, add_schema, set_current_schema, add_partition_spec, set_default_partition_spec,
      add_sort_order, set_default_sort_order, remove_ref, set_location, set_properties, remove_properties,
      remove_partition_specs, set_statistics, remove_statistics, set_partition_statistics,
      remove_partition_statistics, remove_schemas, add_encryption_key, remove_encryption_key, set_ref in E;
    run_op E; repeat match goal with |- context [match ?x with _ => _ end] => destruct x end; done.
Qed.

Lemma upgrade_rows b v b' :
  upgrade_format_version b v = Ok b' -> rows_ok (metadata b) -> rows_ok (metadata b').
Proof.
  intros E Hr. assert (Hup : metadata b' = metadata b
    \/ version_u8 (format_version (metadata b)) < 3 /\ snapshots (metadata b') = snapshots (metadata b)).
  { unfold upgrade_format_version in E.
    destruct (format_version (metadata b)) eqn:Ev, v; cbn in E; try discriminate E; case_bool_decide;
      simplify_eq/=; first [by left|right; split; [cbn; lia|done]]. }
  destruct Hup as [->|[Hv Hs]]; [done|].
  assert (Hno : forall id a e, ~ rows_of (metadata b') id a e).
  { intros id a e H. apply (rows_lineage _ Hr Hv id a e). unfold rows_of in *. by rewrite <- Hs. }
  split; [done|intros ??? ?%Hno; done|intros ?????? ?%Hno; done].
Qed.

Lemma add_snapshot_rows b s b' :
  rows_ok (metadata b) -> takes_next_rows (metadata b) (AddSnapshot s) -> add_snapshot b s = Ok b' ->
  rows_ok (metadata b').
Proof.
  intros Hr Ht E. destruct (add_snapshot_metadata _ _ _ E) as (row_id & -> & Hn & rows & Hrows & -> & Hlt).
  assert (Hnew : forall a e r, row_range s = Some r -> a = first_row_id r -> e = first_row_id r + added_rows r ->
    version_u8 (format_version (metadata b)) = 3 /\ a = next_row_id (metadata b)
    /\ e = next_row_id (metadata b) + default 0 rows /\ a <= e).
  { intros a e r Er -> ->. unfold takes_next_rows in Ht. rewrite Er in Ht. destruct Ht as (Hv & Hf & Ha).
    unfold check_row_range in Hrows. rewrite Hv, Er in Hrows. cbn in Hrows.
    apply bind_Ok in Hrows as (? & _ & [= <-]). cbn. lia. }
  assert (Hgrow : 0 <= default 0 rows).
  { unfold check_row_range in Hrows. destruct (_ <=? _); [|by injection Hrows as <-].
    destruct (row_range s) as [r|] eqn:Er; [|done]. destruct (Hnew _ _ r eq_refl eq_refl eq_refl). lia. }
  assert (Hcase : forall id a e,
    rows_of (metadata b <| next_row_id := next_row_id (metadata b) + default 0 rows |>
               <| last_sequence_number := snapshot_sequence_number s |>
               <| snapshots := <[snapshot_id s := s]> (snapshots (metadata b)) |>) id a e ->
    id = snapshot_id s /\ (exists r, row_range s = Some r /\ a = first_row_id r /\ e = first_row_id r + added_rows r)
    \/ rows_of (metadata b) id a e).
  { intros id a e (s' & r & Hid & Hs). simpl in Hid. apply lookup_insert_Some in Hid as [[<- <-]|[_ Hid]].
    - left. split; [done|]. by exists r.
    - right. by exists s', r. }
  split; simpl.
  - intros Hv id a e [[_ (r & Er & Ha & He)]|H]%Hcase; [|by eapply rows_lineage].
    destruct (Hnew a e r Er Ha He). lia.
  - intros id a e [[_ (r & Er & Ha & He)]|H]%Hcase; [destruct (Hnew a e r Er Ha He); lia|].
    pose proof (rows_below _ Hr _ _ _ H). lia.
  - intros id id' a e a' e' [[-> (r & Er & Ha & He)]|H]%Hcase [[-> (r' & Er' & Ha' & He')]|H']%Hcase Hne;
      [done| | |by eapply rows_disjoint].
    + destruct (Hnew a e r Er Ha He). pose proof (rows_below _ Hr _ _ _ H'). lia.
    + destruct (Hnew a' e' r' Er' Ha' He'). pose proof (rows_below _ Hr _ _ _ H). lia.
Qed.

(** C34 The rows of the snapshots of a table with row lineage have distinct ids below the next
    one, after any update whose snapshots start at the next row id. *)
Theorem row_ids_stay_disjoint now u b b' :
  rows_ok (metadata b) -> takes_next_rows (metadata b) u -> apply_update now u b = Ok b' ->
  rows_ok (metadata b').
Proof.
  intros Hr Ht E. pose proof (quiet_rows now u b b') as Hq.
  destruct u; try (specialize (Hq E) as (H1 & H2 & H3); by apply (rows_ok_sub (metadata b)); rewrite ?H3);
    cbn [apply_update] in E.
  - by eapply upgrade_rows.
  - by eapply add_snapshot_rows.
  - injection E as <-. rewrite remove_snapshots_metadata.
    eapply rows_ok_sub; [..|exact Hr]; simpl; [done..|apply kept_sub].
Qed.
End versions.

(** ** Witnesses

    A table with row lineage of one [int] column "a" partitioned by its buckets; a commit
    that adds a snapshot with five rows and makes it current; and one that only sets a
    property of the new table, by a machine whose clock is two minutes late. *)

#[global] Instance map_order : HashOrder := {
  hash_iter K _ _ A m := map_to_list m;
  same_iteration s t := bool_decide (s = t);
}.
#[global] Instance map_order_laws : HashOrderLaws map_order.
Proof. split; [done|]. cbn. intros s t. apply bool_decide_eq_true. Qed.

Section witness.
#[local] Existing Instance concrete_values.
#[local] Existing Instance concrete_lowercase.

Definition ex_new_schema : Schema :=
  ok_value (mkSchema [] 0 0 ∅ [] ∅ ∅ ∅ ∅ ∅)
    (Schema.build (mkSchemaBuilder 0 [mkField 5 "a" false (TPrimitive PrimitiveType.Int)] [] ∅ None)).
Definition ex_new_spec : UnboundPartitionSpec :=
  mkUnboundSpec None [mkUnboundField 5 None "a_bucket" (Transform.Bucket 4)].
Definition ex_no_builder : TableMetadataBuilder := new_from_metadata (empty_metadata V1 0) None.
Definition ex_no_result : TableMetadataBuildResult := mkBuildResult (empty_metadata V1 0) [] [].

Definition ex_creation : TableMetadataBuilder :=
  ok_value ex_no_builder
    (metadata_builder_new 7 ex_new_schema ex_new_spec unsorted_order "s3://b/t/" V3 ∅).
Definition ex_v0 : TableMetadata := built_metadata (ok_value ex_no_result (builder_build 1000000 ex_creation)).

Definition ex_new_snapshot (id seq first rows : Z) (parent : option Z) : Snapshot :=
  mkSnapshot id parent seq 1001000 "list.avro" (mkSummary Append ∅) (Some 0) None
    (Some (mkRowRange first rows)).
Definition ex_append : list TableUpdate :=
  [AddSnapshot (ex_new_snapshot 10 1 0 5 None);
   SetSnapshotRef MAIN_BRANCH (mkSnapshotReference 10 (Branch None None None))].
Definition ex_commit (m : TableMetadata) (updates : list TableUpdate) : TableMetadataBuilder :=
  ok_value ex_no_builder
    (apply_updates (fun _ => 1001000) updates (new_from_metadata m (Some "s3://b/t/metadata/v"%string))).
Definition ex_v1 : TableMetadata :=
  built_metadata (ok_value ex_no_result (builder_build 1001000 (ex_commit ex_v0 ex_append))).
Definition ex_property : list TableUpdate := [SetProperties {[ "owner" := "me" ]}]%string.
Definition ex_late : result TableMetadataBuildResult :=
  builder_build 881000 (ex_commit ex_v0 ex_property).

Lemma ex_v0_version : version ex_v0.
Proof.
  unfold ex_v0. eapply version_new with (b := ex_creation) (now := 1000000) (uuid := 7);
    by apply ok_value_Ok; vm_compute.
Qed.
Lemma ex_v1_version : version ex_v1.
Proof.
  unfold ex_v1. eapply version_commit with (clock := fun _ => 1001000) (m := ex_v0)
    (updates := ex_append) (current_file_location := Some "s3://b/t/metadata/v"%string) (now := 1001000)
    (b := ex_commit ex_v0 ex_append); [apply ex_v0_version|by apply ok_value_Ok; vm_compute..].
Qed.

Lemma every_version_ok_witness : version ex_v1 /\ metadata_ok ex_v1.
Proof. split; [apply ex_v1_version|apply every_version_ok, ex_v1_version]. Defined.

(** The late commit succeeds, and the table cannot be read any more. *)
Lemma commit_is_readable_witness :
  is_ok ex_late = true /\ readable ex_v0 /\ ~ readable (built_metadata (ok_value ex_no_result ex_late)).
Proof.
  assert (readable ex_v0) as Hr by (unfold readable; vm_compute; reflexivity).
  split; [vm_compute; reflexivity|]. split; [exact Hr|]. intros H.
  apply (commit_is_readable ex_v0 "s3://b/t/metadata/v" (fun _ => 1001000) ex_property
           (ex_commit ex_v0 ex_property) 881000) in H;
    [|apply ex_v0_version|exact Hr|apply ok_value_Ok; vm_compute; reflexivity
     |apply ok_value_Ok; vm_compute; reflexivity].
  vm_compute in H. discriminate H.
Defined.

Lemma rows_ok_empty m : snapshots m = ∅ -> 0 <= next_row_id m -> rows_ok m.
Proof.
  intros Hs Hn. assert (forall id a e, ~ rows_of m id a e) as Hno.
  { intros id a e (s & r & Hid & _). by rewrite Hs in Hid. }
  split; [done|by intros ??? ?%Hno|by intros ?????? ?%Hno].
Qed.
Lemma row_ids_stay_disjoint_witness :
  let b := new_from_metadata ex_v0 None in
  let u := AddSnapshot (ex_new_snapshot 10 1 0 5 None) in
  is_ok (apply_update 0 u b) = true /\ rows_ok (metadata (ok_value b (apply_update 0 u b))).
Proof.
  assert (E : is_ok (apply_update 0 (AddSnapshot (ex_new_snapshot 10 1 0 5 None)) (new_from_metadata ex_v0 None)) = true)
    by (vm_compute; reflexivity).
  split; [exact E|]. eapply row_ids_stay_disjoint with (now := 0) (u := AddSnapshot (ex_new_snapshot 10 1 0 5 None));
    [| |by apply ok_value_Ok].
  - apply rows_ok_empty; [vm_compute; reflexivity|vm_compute; discriminate].
  - split_and!; [vm_compute; reflexivity..|vm_compute; discriminate].
Defined.

(** A snapshot may start above the next row id, which then grows by the number of its rows
    only: a later snapshot that starts at the next row id shares rows with it. *)
Theorem row_ids_may_overlap :
  exists b, apply_updates (fun _ => 0)
    [AddSnapshot (ex_new_snapshot 10 1 8 5 None); AddSnapshot (ex_new_snapshot 11 2 5 9 (Some 10))]
    (new_from_metadata ex_v0 None) = Ok b
    /\ rows_of (metadata b) 10 8 13 /\ rows_of (metadata b) 11 5 14.
Proof.
  eexists. split; [by apply (ok_value_Ok ex_no_builder); vm_compute|].
  split; eexists _, _; (split; [vm_compute; reflexivity|done]).
Qed.
End witness.
