(* ===== verification/Commit.v ===== *)
(** * Commits to the memory catalog (catalog/mod.rs, catalog/memory/catalog.rs)

    Requirements and their checks, [TableCommit::apply], and the operations of
    [MemoryCatalog] that write metadata files: [create_table] and [update_table].  The
    catalog's lock is held for the whole of an operation. *)

From S2P Require Import Prelude Utf8 Numerals Values Schema Transform.
From S2P Require Import PartitionSpecs SortOrders TableMetadata MetadataBuilder MetadataSpec Versions.
From S2P Require Namespace.
From S2P Require Import MetadataLocation.

(** ** Requirements *)

Inductive TableRequirement :=
| NotExist
| UuidMatch (uuid : Z)
| RefSnapshotIdMatch (ref : string) (snapshot_id : option Z)
| LastAssignedFieldIdMatch (last_assigned_field_id : Z)
| CurrentSchemaIdMatch (current_schema_id : Z)
| LastAssignedPartitionIdMatch (last_assigned_partition_id : Z)
| DefaultSpecIdMatch (default_spec_id : Z)
| DefaultSortOrderIdMatch (default_sort_order_id : Z).

(** [TableRequirement::check]; only the kind of an error is kept, and the conflicts are the
    errors that a transaction retries. *)
Definition check_requirement (self : TableRequirement) (metadata : option TableMetadata) : result unit :=
  match metadata with
  | Some m =>
      match self with
      | NotExist => Err (Error CatalogCommitConflicts)
      | UuidMatch uuid => ensure (table_uuid m =? uuid) CatalogCommitConflicts
      | CurrentSchemaIdMatch id => ensure (current_schema_id m =? id) CatalogCommitConflicts
      | DefaultSortOrderIdMatch id =>
          let? order := default_sort_order m in
          ensure (order_id order =? id) CatalogCommitConflicts
      | RefSnapshotIdMatch ref expected =>
          let? found := snapshot_for_ref m ref in
          match expected with
          | Some id =>
              let? s := ok_or found CatalogCommitConflicts in
              ensure (snapshot_id s =? id) CatalogCommitConflicts
          | None => ensure (negb (bool_decide (is_Some found))) CatalogCommitConflicts
          end
      | DefaultSpecIdMatch id => ensure (spec_id (default_spec m) =? id) CatalogCommitConflicts
      | LastAssignedPartitionIdMatch id => ensure (last_partition_id m =? id) CatalogCommitConflicts
      | LastAssignedFieldIdMatch id => ensure (last_column_id m =? id) CatalogCommitConflicts
      end
  | None => match self with NotExist => Ok tt | _ => Err (Error TableNotFound) end
  end.

(** ** [TableCommit::apply] *)

(** Of a [Table] only what commits use. *)
Record Table := mkTable {
  table_metadata : TableMetadata;
  metadata_location : option string;
  table_identifier : Namespace.TableIdent;
}.
Definition metadata_location_result (self : Table) : result string :=
  ok_or (metadata_location self) DataInvalid.

Record TableCommit := mkTableCommit {
  commit_ident : Namespace.TableIdent;
  commit_requirements : list TableRequirement;
  commit_updates : list TableUpdate;
}.

Definition check_requirements (requirements : list TableRequirement) (m : TableMetadata) : result unit :=
  try_fold (fun _ requirement => check_requirement requirement (Some m)) tt requirements.

(** What an operation draws from its surroundings: the readings of the clock, for the updates
    and then for [build], and a random UUID. *)
Record Draws := mkDraws { clock : nat -> Z; build_time : Z; new_v4 : Z }.

Section commits.
Context {O : HashOrder} {V : ValueLib} {LC : Lowercase} {U : UuidText}.

(** [build] of a builder that some updates were applied to. *)
Definition update_metadata (d : Draws) (m : TableMetadata) (current_file_location : option string)
    (updates : list TableUpdate) : result TableMetadataBuildResult :=
  let? b := apply_updates (clock d) updates (new_from_metadata m current_file_location) in
  builder_build (build_time d) b.

Definition next_location (current : string) (v4 : Z) : result string :=
  let? location := MetadataLocation.from_str (lit current) in
  Ok (text (MetadataLocation.to_string (with_next_version location v4))).

(** The updates run before the location is parsed, and [build] after that. *)
Definition commit_apply (d : Draws) (self : TableCommit) (table : Table) : result Table :=
  let? _ := check_requirements (commit_requirements self) (table_metadata table) in
  let? current := metadata_location_result table in
  let? b := apply_updates (clock d) (commit_updates self)
              (new_from_metadata (table_metadata table) (Some current)) in
  let? location := next_location current (new_v4 d) in
  let? r := builder_build (build_time d) b in
  Ok (mkTable (built_metadata r) (Some location) (table_identifier table)).

(** ** [MemoryCatalog]

    The lock guards the tree; [files] is what storage holds.  The JSON form of metadata and the
    storage operator are parameters: [encode] and [decode] are [serde_json::to_vec] and
    [from_slice] with the normalisation that reading applies, [write_ok] the outcome of a
    write. *)
Record MemoryCatalog := mkMemoryCatalog {
  root_namespace_state : Namespace.NamespaceState;
  files : gmap string (list Z);
}.
Variables (encode : TableMetadata -> result (list Z)) (decode : list Z -> result TableMetadata)
          (write_ok : string -> result unit) (warehouse_location : string).

Definition read_from (fs : gmap string (list Z)) (location : string) : result TableMetadata :=
  let? bytes := ok_or (fs !! location) DataInvalid in decode bytes.
Definition write_to (m : TableMetadata) (location : string) (fs : gmap string (list Z)) :
    result (gmap string (list Z)) :=
  let? bytes := encode m in
  let? _ := write_ok location in
  Ok (<[location := bytes]> fs).

Abbreviation CatalogM := (Namespace.ST MemoryCatalog).

(** An operation on the tree, in the catalog. *)
Definition on_tree {A} (op : Namespace.ST Namespace.NamespaceState A) : CatalogM A := fun s =>
  let '(r, root) := op (root_namespace_state s) in (r, mkMemoryCatalog root (files s)).
Definition write_metadata (m : TableMetadata) (location : string) : CatalogM unit := fun s =>
  match write_to m location (files s) with
  | Ok fs => (Ok tt, mkMemoryCatalog (root_namespace_state s) fs)
  | Err e => (Err e, s)
  end.

Definition load_table (ident : Namespace.TableIdent) : CatalogM Table := fun s =>
  ((fun r => mkTable (fst r) (Some (snd r)) ident)
     <$> Namespace.load_table_from_locked_state (read_from (files s)) (root_namespace_state s) ident,
   s).

Definition LOCATION : string := "location".
(** The location of a new table that names none. *)
Definition default_location (s : MemoryCatalog) (namespace : Namespace.NamespaceIdent) (name : string) :
    result string :=
  let? props := Namespace.get_properties (root_namespace_state s) namespace in
  let prefix :=
    match props !! LOCATION with
    | Some l => l
    | None => (warehouse_location ++ "/" ++ join "/" namespace)%string
    end in
  Ok (prefix ++ "/" ++ name)%string.

Notation "'let*' x ':=' e 'in' k" := (mbind (M := Namespace.ST _) (fun x => k) e)
  (at level 10, x name, e at level 100, k at level 200) : iceberg_scope.

Definition create_table (d : Draws) (now_v7 : Z) (namespace : Namespace.NamespaceIdent)
    (c : TableCreation) : CatalogM Table := fun s =>
  (let ident := Namespace.mkTableIdent namespace (creation_name c) in
   let* location :=
     Namespace.st_lift
       (match creation_location c with
        | Some l => Ok l
        | None => default_location s namespace (creation_name c)
        end) in
   let* b :=
     Namespace.st_lift
       (from_table_creation now_v7
          (mkTableCreation (creation_name c) (Some location) (creation_schema c) (creation_spec c)
             (creation_order c) (creation_properties c) (creation_format_version c))) in
   let* r := Namespace.st_lift (builder_build (build_time d) b) in
   let metadata_location := text (MetadataLocation.to_string (new_with_table_location (lit location) (new_v4 d))) in
   let* _ := write_metadata (built_metadata r) metadata_location in
   let* _ := on_tree (Namespace.insert_new_table ident metadata_location) in
   mret (mkTable (built_metadata r) (Some metadata_location) ident)) s.

Definition update_table (d : Draws) (commit : TableCommit) : CatalogM Table :=
  let* current_table := load_table (commit_ident commit) in
  let* staged_table := Namespace.st_lift (commit_apply d commit current_table) in
  let* location := Namespace.st_lift (metadata_location_result staged_table) in
  let* _ := write_metadata (table_metadata staged_table) location in
  let* _ := on_tree (Namespace.commit_table_update (table_identifier staged_table)
                       (metadata_location staged_table)) in
  mret staged_table.

(** ** Theory *)

Lemma st_bind_run {S A B} (m : Namespace.ST S A) (f : A -> Namespace.ST S B) s :
  (m ≫= f) s = match m s with (Ok a, s') => f a s' | (Err e, s') => (Err e, s') end.
Proof. done. Qed.

(** The metadata at the location that the catalog has for a table. *)
Definition table_at (s : MemoryCatalog) (ident : Namespace.TableIdent) (location : string)
    (m : TableMetadata) : Prop :=
  Namespace.get_existing_table_location (root_namespace_state s) ident = Ok location
  /\ read_from (files s) location = Ok m.

Lemma load_table_run ident s :
  match load_table ident s with
  | (Ok t, s') => s' = s /\ exists location m, table_at s ident location m /\ t = mkTable m (Some location) ident
  | (Err _, s') => s' = s
  end.
Proof.
  unfold load_table, Namespace.load_table_from_locked_state, table_at.
  destruct (Namespace.get_existing_table_location _ ident) as [location|]; [|done].
  cbn [mbind result_bind]. destruct (read_from (files s) location) as [m|] eqn:E; [|done]. cbn.
  split; [done|]. by exists location, m.
Qed.

Lemma commit_apply_Ok d c t t' :
  commit_apply d c t = Ok t' <->
  exists location r location',
    check_requirements (commit_requirements c) (table_metadata t) = Ok tt
    /\ metadata_location t = Some location
    /\ update_metadata d (table_metadata t) (Some location) (commit_updates c) = Ok r
    /\ next_location location (new_v4 d) = Ok location'
    /\ t' = mkTable (built_metadata r) (Some location') (table_identifier t).
Proof.
  unfold commit_apply, update_metadata, metadata_location_result, ok_or. rewrite bind_Ok. split.
  - intros ([] & Hc & E). cbv beta in E. destruct (metadata_location t) as [location|]; [|done].
    cbn [mbind result_bind] in E. apply bind_Ok in E as (b & Hb & E). apply bind_Ok in E as (l' & Hl & E).
    apply bind_Ok in E as (r & Hr & [= <-]). exists location, r, l'. split_and!; try done.
    apply bind_Ok. by exists b.
  - intros (location & r & l' & Hc & -> & (b & Hb & Hr)%bind_Ok & Hl & ->).
    exists tt. split; [done|]. cbn [mbind result_bind].
    rewrite Hb. cbn [mbind result_bind]. rewrite Hl. cbn [mbind result_bind]. by rewrite Hr.
Qed.

Lemma write_metadata_run m location s :
  match write_metadata m location s with
  | (Ok _, s') => exists bytes, encode m = Ok bytes
      /\ s' = mkMemoryCatalog (root_namespace_state s) (<[location := bytes]> (files s))
  | (Err _, s') => s' = s
  end.
Proof.
  unfold write_metadata, write_to. destruct (encode m) as [bytes|]; [|done]. cbn [mbind result_bind].
  destruct (write_ok location); [|done]. by exists bytes.
Qed.

Lemma update_table_run d c s :
  match update_table d c s with
  | (Ok t, s') => exists location m r location' bytes,
      table_at s (commit_ident c) location m
      /\ check_requirements (commit_requirements c) m = Ok tt
      /\ update_metadata d m (Some location) (commit_updates c) = Ok r
      /\ next_location location (new_v4 d) = Ok location'
      /\ encode (built_metadata r) = Ok bytes
      /\ t = mkTable (built_metadata r) (Some location') (commit_ident c)
      /\ files s' = <[location' := bytes]> (files s)
      /\ forall ident, Namespace.get_existing_table_location (root_namespace_state s') ident
           = if decide (ident = commit_ident c) then Ok location'
             else Namespace.get_existing_table_location (root_namespace_state s) ident
  | (Err _, s') => root_namespace_state s' = root_namespace_state s
  end.
Proof.
  unfold update_table. rewrite st_bind_run. pose proof (load_table_run (commit_ident c) s) as Hload.
  destruct (load_table (commit_ident c) s) as [[t|e] s1]; [|by rewrite Hload].
  destruct Hload as (-> & location & m & Hat & ->). rewrite st_bind_run. unfold Namespace.st_lift at 1.
  destruct (commit_apply d c _) as [t'|e] eqn:Ha; [|done].
  apply commit_apply_Ok in Ha as (l & r & location' & Hc & [= <-] & Hr & Hl & ->). cbn [table_metadata] in *.
  cbn. rewrite st_bind_run. unfold Namespace.st_lift. cbn [table_metadata]. rewrite st_bind_run.
  pose proof (write_metadata_run (built_metadata r) location' s) as Hw.
  destruct (write_metadata (built_metadata r) location' s) as [[[]|e] s1]; [|by subst s1].
  destruct Hw as (bytes & He & ->). rewrite st_bind_run. unfold on_tree. cbn [root_namespace_state files].
  destruct (Namespace.commit_location (commit_ident c) location' (root_namespace_state s) location)
    as (root & -> & Hroot); [apply Hat|].
  cbn. exists location, m, r, location', bytes. done.
Qed.

(** C5 [update_table] is atomic: when it fails the tree of tables is what it was; when it succeeds
    every requirement held of the metadata the table had, the new metadata is that metadata
    with the updates applied, it was written to the next location, and the table, and no
    other, now points there. *)
Theorem update_table_atomic d c s :
  match update_table d c s with
  | (Ok t, s') => exists location m r location' bytes,
      table_at s (commit_ident c) location m
      /\ check_requirements (commit_requirements c) m = Ok tt
      /\ update_metadata d m (Some location) (commit_updates c) = Ok r
      /\ next_location location (new_v4 d) = Ok location'
      /\ encode (built_metadata r) = Ok bytes
      /\ t = mkTable (built_metadata r) (Some location') (commit_ident c)
      /\ files s' = <[location' := bytes]> (files s)
      /\ forall ident, Namespace.get_existing_table_location (root_namespace_state s') ident
           = if decide (ident = commit_ident c) then Ok location'
             else Namespace.get_existing_table_location (root_namespace_state s) ident
  | (Err _, s') => root_namespace_state s' = root_namespace_state s
  end.
Proof. apply update_table_run. Qed.
End commits.
