(* ===== verification/RawValues.v ===== *)
(** * The serialised form of values (spec/values/serde.rs)

    [RawLiteral], which literals are converted to before the avro crate writes them and back after
    it read them, on all types.  What becomes of a partition tuple on the way is in AvroSchema. *)

From S2P Require Import Prelude Utf8 Bytes Numerals Values Schema LiteralEq.

(** ** Raw literals ([RawLiteralEnum])

    The fields of a [Record] are named; one that was read has them all in [required]. *)
Module RawLiteral.
Inductive t :=
| Null
| Boolean (v : bool)
| Int (v : Z)
| Long (v : Z)
| Float (v : Z)
| Double (v : Z)
| String (v : str)
| Bytes (v : list Z)
| List (list : list (option t)) (required : bool)
| StringMap (raw : list (str * option t)) (required : bool)
| Record (required : list (string * t)) (optional : list (string * option t)).
End RawLiteral.

(** ** To raw literals ([RawLiteralEnum::try_from]) *)

Definition raw_of_primitive (prim : PrimitiveLiteral.t) : result RawLiteral.t :=
  match prim with
  | PrimitiveLiteral.Boolean v => Ok (RawLiteral.Boolean v)
  | PrimitiveLiteral.Int v => Ok (RawLiteral.Int v)
  | PrimitiveLiteral.Long v => Ok (RawLiteral.Long v)
  | PrimitiveLiteral.Float v => Ok (RawLiteral.Float v)
  | PrimitiveLiteral.Double v => Ok (RawLiteral.Double v)
  | PrimitiveLiteral.String v => Ok (RawLiteral.String v)
  | PrimitiveLiteral.UInt128 v => Ok (RawLiteral.Bytes (be_bytes 16 v))
  | PrimitiveLiteral.Binary v => Ok (RawLiteral.Bytes v)
  | PrimitiveLiteral.Int128 v => Ok (RawLiteral.Bytes (be_bytes 16 v))
  | PrimitiveLiteral.AboveMax | PrimitiveLiteral.BelowMin => Err (Error DataInvalid)
  end.
(** [value.map(f).transpose()?]. *)
Definition mapO {A B} (f : A -> result B) (value : option A) : result (option B) :=
  match value with Some a => Some <$> f a | None => Ok None end.

(** The loop over the fields of a struct. *)
Fixpoint raw_fields (convert : Literal -> Ty -> result RawLiteral.t) (values : list (option Literal)) (fields : list NestedField)
    (required : list (string * RawLiteral.t)) (optional : list (string * option RawLiteral.t)) : result RawLiteral.t :=
  match values, fields with
  | value :: values, field :: fields =>
      if field_required field then
        match value with
        | Some value =>
            let? raw := convert value (field_type field) in
            raw_fields convert values fields (required ++ [(field_name field, raw)]) optional
        | None => Err (Error DataInvalid)
        end
      else
        match value with
        | Some value =>
            let? raw := convert value (field_type field) in
            raw_fields convert values fields required (optional ++ [(field_name field, Some raw)])
        | None => raw_fields convert values fields required (optional ++ [(field_name field, None)])
        end
  | _, _ => Ok (RawLiteral.Record required optional)
  end.
Fixpoint raw_try_from (literal : Literal) (ty : Ty) : result RawLiteral.t :=
  match literal with
  | LPrimitive prim => raw_of_primitive prim
  | LStruct values =>
      match ty with
      | TStruct fields =>
          raw_fields raw_try_from values fields [] []
      | _ => Err (Error DataInvalid)
      end
  | LList values =>
      match ty with
      | TList element =>
          let? raw := mapR (mapO (fun v => raw_try_from v (field_type element))) values in
          Ok (RawLiteral.List raw (field_required element))
      | _ => Err (Error DataInvalid)
      end
  | LMap entries =>
      match ty with
      | TMap key value =>
          let raw_value v := mapO (fun v => raw_try_from v (field_type value)) v in
          if match field_type key with TPrimitive PrimitiveType.String => true | _ => false end then
            let? raw := mapR (fun e : Literal * option Literal =>
              match e with
              | (LPrimitive (PrimitiveLiteral.String k), v) => let? raw_v := raw_value v in Ok (k, raw_v)
              | _ => Err (Error DataInvalid)
              end) entries in
            Ok (RawLiteral.StringMap raw (field_required value))
          else
            let? list := mapR (fun e : Literal * option Literal =>
              match e with
              | (k, v) =>
                  let? raw_k := raw_try_from k (field_type key) in
                  let? raw_v := raw_value v in
                  if field_required value then
                    let? raw_v := ok_or raw_v DataInvalid in
                    Ok (Some (RawLiteral.Record [(MAP_KEY_FIELD_NAME, raw_k); (MAP_VALUE_FIELD_NAME, raw_v)] []))
                  else Ok (Some (RawLiteral.Record [(MAP_KEY_FIELD_NAME, raw_k)] [(MAP_VALUE_FIELD_NAME, raw_v)]))
              end) entries in
            Ok (RawLiteral.List list true)
      | _ => Err (Error DataInvalid)
      end
  end.

(** ** From raw literals ([RawLiteralEnum::try_into]) *)

(** [v / 2 ^ n], rounded to nearest, ties to even. *)
Definition round_shift (v n : Z) : Z :=
  let q := v / 2 ^ n in
  let rest := v mod 2 ^ n in
  if (2 * rest <? 2 ^ n) || ((2 * rest =? 2 ^ n) && Z.even q) then q else q + 1.
(** The significand of a finite [f64] and its binary exponent, both of the last place. *)
Definition f64_significand (b : Z) : Z :=
  if float_abs 64 b / 2 ^ 52 =? 0 then float_abs 64 b else 2 ^ 52 + float_abs 64 b mod 2 ^ 52.
Definition f64_exponent (b : Z) : Z := Z.max 1 (float_abs 64 b / 2 ^ 52).
(** How many bits of it an [f32] does not have. *)
Definition f32_drops (b : Z) : Z := if f64_exponent b <=? 896 then 29 + (897 - f64_exponent b) else 29.
(** The bit pattern of [v as f32]: rounded, infinite when it is too large, a NaN stays one. *)
Definition f64_to_f32_bits (b : Z) : Z :=
  let sign := if float_sign 64 b then 2 ^ 31 else 0 in
  if float_is_nan 64 b then sign + Z.lor (2 ^ 22) (255 * 2 ^ 23 + float_abs 64 b mod 2 ^ 52 / 2 ^ 29)
  else if float_abs 64 b =? float_inf 64 then sign + float_inf 32
  else
    let r := round_shift (f64_significand b) (f32_drops b) in
    let bits := if f64_exponent b <=? 896 then r else (f64_exponent b - 897) * 2 ^ 23 + r in
    sign + Z.min bits (float_inf 32).
Definition f32_is_finite (b : Z) : bool := float_abs 32 b <? float_inf 32.
(** [(v_64 - v).abs() > f32::EPSILON]: the difference is the rounding, which is exact. *)
Definition loses_precision (b : Z) : bool :=
  let lost := Z.abs (round_shift (f64_significand b) (f32_drops b) * 2 ^ f32_drops b - f64_significand b) in
  2 ^ 1100 <? lost * 2 ^ (f64_exponent b - 1075 + 23 + 1100).

(** The bytes of a list of numbers, [*v as u8]. *)
Definition byte_list (list : list (option RawLiteral.t)) : result (Datatypes.list Z) :=
  mapR (fun v => match v with Some (RawLiteral.Long v) => Ok (wrapU 8 v) | _ => Err (Error DataInvalid) end) list.
Definition decimal_of_bytes (precision : Z) (v : list Z) : result PrimitiveLiteral.t :=
  let? required_bytes := decimal_required_bytes precision in
  if Z.of_nat (length v) =? required_bytes then
    let negative := match v with b :: _ => negb (Z.land b 128 =? 0) | [] => false end in
    let padding := replicate (16 - length v) (if negative then 255 else 0) in
    Ok (PrimitiveLiteral.Int128 (of_be_signed (padding ++ v)))
  else Err (Error DataInvalid).
Definition literal_of_scalar (raw : RawLiteral.t) (ty : PrimitiveType.t) : result PrimitiveLiteral.t :=
  match raw, ty with
  | RawLiteral.Int v, PrimitiveType.Int => Ok (PrimitiveLiteral.Int v)
  | RawLiteral.Int v, PrimitiveType.Long => Ok (PrimitiveLiteral.Long v)
  | RawLiteral.Int v, PrimitiveType.Date => Ok (PrimitiveLiteral.Int v)
  | RawLiteral.Long v, PrimitiveType.Int => if inS 32 v then Ok (PrimitiveLiteral.Int v) else Err (Error DataInvalid)
  | RawLiteral.Long v, PrimitiveType.Date => if inS 32 v then Ok (PrimitiveLiteral.Int v) else Err (Error DataInvalid)
  | RawLiteral.Long v, PrimitiveType.Long => Ok (PrimitiveLiteral.Long v)
  | RawLiteral.Long v, PrimitiveType.Time => Ok (PrimitiveLiteral.Long v)
  | RawLiteral.Long v, PrimitiveType.Timestamp => Ok (PrimitiveLiteral.Long v)
  | RawLiteral.Long v, PrimitiveType.Timestamptz => Ok (PrimitiveLiteral.Long v)
  | RawLiteral.Float v, PrimitiveType.Float => Ok (PrimitiveLiteral.Float v)
  | RawLiteral.Float v, PrimitiveType.Double => Ok (PrimitiveLiteral.Double (f32_to_f64_bits v))
  | RawLiteral.Double v, PrimitiveType.Float =>
      let v_32 := f64_to_f32_bits v in
      if f32_is_finite v_32 && loses_precision v then Err (Error DataInvalid) else Ok (PrimitiveLiteral.Float v_32)
  | RawLiteral.Double v, PrimitiveType.Double => Ok (PrimitiveLiteral.Double v)
  | RawLiteral.String v, PrimitiveType.String => Ok (PrimitiveLiteral.String v)
  | RawLiteral.Bytes v, PrimitiveType.Binary => Ok (PrimitiveLiteral.Binary v)
  | RawLiteral.Bytes v, PrimitiveType.Fixed expected_len =>
      if Z.of_nat (length v) =? expected_len then Ok (PrimitiveLiteral.Binary v) else Err (Error DataInvalid)
  | RawLiteral.Bytes v, PrimitiveType.Uuid =>
      if (length v =? 16)%nat then Ok (PrimitiveLiteral.UInt128 (of_be v)) else Err (Error DataInvalid)
  | RawLiteral.Bytes v, PrimitiveType.Decimal precision _ => decimal_of_bytes precision v
  | _, _ => Err (Error DataInvalid)
  end.
(** A list read as a value that is not a list: the JSON form of bytes. *)
Definition literal_of_numbers (list : list (option RawLiteral.t)) (ty : PrimitiveType.t) : result PrimitiveLiteral.t :=
  match ty with
  | PrimitiveType.Uuid =>
      if (length list =? 16)%nat then (fun bs => PrimitiveLiteral.UInt128 (of_be bs)) <$> byte_list list
      else Err (Error DataInvalid)
  | PrimitiveType.Decimal _ _ =>
      if (length list =? 16)%nat then (fun bs => PrimitiveLiteral.Int128 (of_be_signed bs)) <$> byte_list list
      else Err (Error DataInvalid)
  | PrimitiveType.Binary => PrimitiveLiteral.Binary <$> byte_list list
  | PrimitiveType.Fixed size =>
      if Z.of_nat (length list) =? size then PrimitiveLiteral.Binary <$> byte_list list else Err (Error DataInvalid)
  | _ => Err (Error DataInvalid)
  end.
(** [StructType::field_by_name]: the last field of the name. *)
Definition struct_field_by_name (fields : list NestedField) (name : string) : option NestedField :=
  List.find (fun f => bool_decide (field_name f = name)) (rev fields).

Definition is_none {A} (o : option A) : bool := match o with None => true | Some _ => false end.
(** The key of a map as text; a [String] is valid UTF-8. *)
Definition text_of_name (name : string) : str := default [] (from_utf8 (lit name)).

Section from_raw.
Context {V : ValueLib}.

Fixpoint raw_try_into (raw : RawLiteral.t) (ty : Ty) : result (option Literal) :=
  match raw with
  | RawLiteral.Null => Ok None
  | RawLiteral.Boolean v => Ok (Some (LPrimitive (PrimitiveLiteral.Boolean v)))
  | RawLiteral.List list _ =>
      match ty with
      | TList element =>
          let? values := mapR (fun v : option RawLiteral.t =>
            match v with Some v => raw_try_into v (field_type element) | None => Ok None end) list in
          Ok (Some (LList values))
      | TMap key value =>
          let? entries := mapR (fun k_v : option RawLiteral.t =>
            match k_v with
            | Some (RawLiteral.Record [(n1, v1); (n2, v2)] _) =>
                let named name ty :=
                  if bool_decide (n2 = name) then Some (raw_try_into v2 ty)
                  else if bool_decide (n1 = name) then Some (raw_try_into v1 ty) else None in
                match named MAP_KEY_FIELD_NAME (field_type key), named MAP_VALUE_FIELD_NAME (field_type value) with
                | Some k, Some v =>
                    let? k := k in
                    let? k := ok_or k DataInvalid in
                    let? v := v in
                    if field_required value && is_none v then Err (Error DataInvalid) else Ok (k, v)
                | _, _ => Err (Error DataInvalid)
                end
            | _ => Err (Error DataInvalid)
            end) list in
          Ok (Some (LMap (foldl (fun map e => map_insert map (fst e) (snd e)) [] entries)))
      | TPrimitive p => let? l := literal_of_numbers list p in Ok (Some (LPrimitive l))
      | TStruct _ => Err (Error DataInvalid)
      end
  | RawLiteral.Record required _ =>
      match ty with
      | TStruct fields =>
          let? values := mapR (fun e : string * RawLiteral.t =>
            match e with
            | (field_name, value) =>
                let? field := ok_or (struct_field_by_name fields field_name) DataInvalid in
                raw_try_into value (field_type field)
            end) required in
          Ok (Some (LStruct values))
      | TMap key value =>
          if negb match field_type key with TPrimitive PrimitiveType.String => true | _ => false end
          then Err (Error DataInvalid)
          else
            let? entries := mapR (fun e : string * RawLiteral.t =>
              match e with
              | (k, v) =>
                  let? v := raw_try_into v (field_type value) in
                  if field_required value && is_none v then Err (Error DataInvalid)
                  else Ok (LPrimitive (PrimitiveLiteral.String (text_of_name k)), v)
              end) required in
            Ok (Some (LMap (foldl (fun map e => map_insert map (fst e) (snd e)) [] entries)))
      | _ => Err (Error DataInvalid)
      end
  | RawLiteral.StringMap _ _ => Err (Error DataInvalid)
  | _ =>
      match ty with
      | TPrimitive p => let? l := literal_of_scalar raw p in Ok (Some (LPrimitive l))
      | _ => Err (Error DataInvalid)
      end
  end.
End from_raw.
(** ** Equality of raw literals, for the instances of the witnesses *)

Fixpoint raw_eqb (x y : RawLiteral.t) : bool :=
  let opt (v w : option RawLiteral.t) : bool :=
    match v, w with Some v, Some w => raw_eqb v w | None, None => true | _, _ => false end in
  match x, y with
  | RawLiteral.Null, RawLiteral.Null => true
  | RawLiteral.Boolean v, RawLiteral.Boolean w => eqb v w
  | RawLiteral.Int v, RawLiteral.Int w | RawLiteral.Long v, RawLiteral.Long w
  | RawLiteral.Float v, RawLiteral.Float w | RawLiteral.Double v, RawLiteral.Double w => v =? w
  | RawLiteral.String v, RawLiteral.String w | RawLiteral.Bytes v, RawLiteral.Bytes w => bool_decide (v = w)
  | RawLiteral.List l1 b1, RawLiteral.List l2 b2 => eqb b1 b2 && list_eqb opt l1 l2
  | RawLiteral.StringMap l1 b1, RawLiteral.StringMap l2 b2 =>
      eqb b1 b2 && list_eqb (fun e f : str * option RawLiteral.t => bool_decide (fst e = fst f) && opt (snd e) (snd f)) l1 l2
  | RawLiteral.Record r1 o1, RawLiteral.Record r2 o2 =>
      list_eqb (fun e f : string * RawLiteral.t => bool_decide (fst e = fst f) && raw_eqb (snd e) (snd f)) r1 r2
      && list_eqb (fun e f : string * option RawLiteral.t => bool_decide (fst e = fst f) && opt (snd e) (snd f)) o1 o2
  | _, _ => false
  end.
Lemma list_eqb_iff {A} (f : A -> A -> bool) l m :
  (forall x, x ∈ l -> forall y, f x y = true <-> x = y) -> list_eqb f l m = true <-> l = m.
Proof.
  revert m. induction l as [|x l IH]; intros [|y m] H; cbn; try done. rewrite andb_true_iff, (H x) by apply list_elem_of_here.
  rewrite IH; [by split; [intros [-> ->]|intros [= -> ->]]|]. intros z Hz. apply H. by apply list_elem_of_further.
Qed.
Fixpoint raw_size (x : RawLiteral.t) : nat :=
  let opt (v : option RawLiteral.t) := match v with Some v => raw_size v | None => O end in
  match x with
  | RawLiteral.List l _ => S (list_sum (map opt l))
  | RawLiteral.StringMap l _ => S (list_sum (map (fun e : str * option RawLiteral.t => opt (snd e)) l))
  | RawLiteral.Record r o =>
      S (list_sum (map (fun e : string * RawLiteral.t => raw_size (snd e)) r)
         + list_sum (map (fun e : string * option RawLiteral.t => opt (snd e)) o))
  | _ => O
  end.
Lemma list_sum_in {A} (f : A -> nat) l x : x ∈ l -> (f x <= list_sum (map f l))%nat.
Proof.
  induction l as [|y l IH]; [by intros ?%elem_of_nil|]. intros [-> |Hx]%elem_of_cons; cbn [map list_sum fold_right].
  - change (f y <= f y + list_sum (map f l))%nat. lia.
  - change (f x <= f y + list_sum (map f l))%nat. specialize (IH Hx). lia.
Qed.
Lemma raw_eqb_iff_size n x y : (raw_size x < n)%nat -> raw_eqb x y = true <-> x = y.
Proof.
  revert x y. induction n as [|n IH]; intros x y Hn; [lia|].
  assert (forall v w : option RawLiteral.t, (match v with Some v => raw_size v | None => O end < n)%nat ->
    match v, w with Some v, Some w => raw_eqb v w | None, None => true | _, _ => false end = true <-> v = w) as Hopt.
  { intros [v|] [w|] Hv; try done. rewrite (IH v w Hv). split; [by intros ->|by intros [= ->]]. }
  destruct x, y; try done; cbn [raw_eqb raw_size] in *;
    rewrite ?andb_true_iff, ?eqb_true_iff, ?Z.eqb_eq, ?bool_decide_eq_true; try (by split; [intros ->|intros [= ->]]).
  - rewrite list_eqb_iff; [by split; [intros [-> ->]|intros [= -> ->]]|]. intros v Hv w. apply Hopt.
    pose proof (list_sum_in (fun v : option RawLiteral.t => match v with Some v => raw_size v | None => O end) _ _ Hv). lia.
  - rewrite list_eqb_iff; [by split; [intros [-> ->]|intros [= -> ->]]|]. intros [k v] Hv [k' w]. cbn [fst snd].
    rewrite andb_true_iff, bool_decide_eq_true, Hopt; [by split; [intros [-> ->]|intros [= -> ->]]|].
    pose proof (list_sum_in (fun e : str * option RawLiteral.t => match snd e with Some v => raw_size v | None => O end) _ _ Hv) as Hs.
    cbn [snd] in Hs. lia.
  - rewrite !list_eqb_iff; [by split; [intros [-> ->]|intros [= -> ->]]|..]; intros [k v] Hv [k' w]; cbn [fst snd].
    + rewrite andb_true_iff, bool_decide_eq_true, Hopt; [by split; [intros [-> ->]|intros [= -> ->]]|].
      pose proof (list_sum_in (fun e : string * option RawLiteral.t => match snd e with Some v => raw_size v | None => O end) _ _ Hv) as Hs.
      cbn [snd] in Hs. lia.
    + rewrite andb_true_iff, bool_decide_eq_true, IH; [by split; [intros [-> ->]|intros [= -> ->]]|].
      pose proof (list_sum_in (fun e : string * RawLiteral.t => raw_size (snd e)) _ _ Hv) as Hs. cbn [snd] in Hs. lia.
Qed.
#[global] Instance raw_eq_dec : EqDecision RawLiteral.t.
Proof.
  intros x y. destruct (raw_eqb x y) eqn:E; [left|right].
  - by apply (raw_eqb_iff_size (S (raw_size x))) in E; [|lia].
  - intros ->. assert (raw_eqb y y = true) as Ht by (apply (raw_eqb_iff_size (S (raw_size y))); [lia|done]). congruence.
Defined.
