(* ===== verification/LiteralJson.v ===== *)
(** * The JSON form of single values (spec/values/literal.rs, spec/values/temporal.rs)

    [Literal::try_into_json] and [Literal::try_from_json], and the conversions to calendar values
    they go through.  Text of dates, times and decimals is chrono's and fastnum's.  Correctness:
    what is read back of a value that was written; the values for which nothing is are below. *)

From S2P Require Import Prelude Utf8 Bytes Numerals Decimal Values Schema LiteralEq MetadataLocation RawValues.
From S2P Require Concrete.

(** ** JSON values (serde_json)

    A number is an integer of 64 bits, signed or not, or a finite [f64]. *)
Module Json.
Inductive number := Integer (v : Z) | Float (bits : Z).
Inductive t :=
| Null
| Bool (b : bool)
| Number (n : number)
| String (s : str)
| Array (elements : list t)
| Object (members : list (str * t)).
End Json.
(** The member of a key; of equal keys the last one counts. *)
Definition json_member (members : list (str * Json.t)) (key : str) : option Json.t :=
  snd <$> List.find (fun e => bool_decide (fst e = key)) (rev members).
Definition as_i64 (n : Json.number) : option Z :=
  match n with Json.Integer v => if inS 64 v then Some v else None | Json.Float _ => None end.
(** The bit pattern of [v as f64]. *)
Definition integer_to_f64_bits (v : Z) : Z :=
  let sign := if v <? 0 then 2 ^ 63 else 0 in
  let m := Z.abs v in
  if m =? 0 then 0
  else
    let k := Z.log2 m in
    let r := if k <=? 52 then m * 2 ^ (52 - k) else round_shift m (k - 52) in
    sign + (k + 1023) * 2 ^ 52 + (r - 2 ^ 52).
Definition as_f64 (n : Json.number) : Z := match n with Json.Integer v => integer_to_f64_bits v | Json.Float b => b end.
(** [Number::from_f64]: not of an infinity or NaN. *)
Definition from_f64 (bits : Z) : option Json.number :=
  if float_abs 64 bits <? float_inf 64 then Some (Json.Float bits) else None.

(** ** Text of calendar values and decimals (chrono, fastnum)

    A date is the number of its day since 1970 and a time the seconds and nanoseconds since
    midnight; [datetime_text] is the format of the code without its offset, and the parsers are
    those of its formats.  [date_text] is not defined of a date that chrono cannot represent, and
    [from_timestamp] is the range of its timestamps. *)
Class JsonText {V : ValueLib} := {
  date_text : Z -> option str;
  parse_date : str -> option Z;
  time_text : Z * Z -> str;
  parse_time : str -> option Z;
  datetime_text : Z * Z -> str;
  parse_datetime : str -> option Z;
  from_timestamp : Z -> Z -> bool;
  decimal_display : D128 -> str;
  decimal_from_str_exact : str -> option D128;
  decimal_rescale : D128 -> Z -> D128;
}.

Definition NANOS_IN_SECOND : Z := 1000000000.
Section json.
Context {V : ValueLib} {U : UuidText} {J : JsonText}.

(** *** temporal.rs

    Division truncates; a negative remainder becomes a large [u32]. *)
Definition microseconds_to_time (micros : Z) : result (Z * Z) :=
  let secs := wrapU 32 (Z.quot micros 1000000) in
  let nanos := wrapU 32 (wrapU 32 (Z.rem micros 1000000) * 1000) in
  if (secs <? 86400) && ((nanos <? NANOS_IN_SECOND) || ((nanos <? 2 * NANOS_IN_SECOND) && (secs mod 60 =? 59)))
  then Ok (secs, nanos) else Err Panic.
Definition microseconds_to_datetime (micros : Z) : result (Z * Z) :=
  let secs := micros / 1000000 in
  if from_timestamp secs (micros mod 1000000 * 1000) then Ok (secs, micros mod 1000000 * 1000) else Err Panic.
Definition nanoseconds_to_datetime (nanos : Z) : Z * Z := (nanos / NANOS_IN_SECOND, nanos mod NANOS_IN_SECOND).
(** [DateTime::from_timestamp(secs, nsecs).unwrap()]. *)
Definition unwrap_timestamp (secs nsecs : Z) : result (Z * Z) :=
  if ((nsecs <? NANOS_IN_SECOND) || ((nsecs <? 2 * NANOS_IN_SECOND) && (secs mod 60 =? 59))) && from_timestamp secs nsecs
  then Ok (secs, nsecs) else Err Panic.
Definition microseconds_to_datetimetz (micros : Z) : result (Z * Z) :=
  unwrap_timestamp (Z.quot micros 1000000) (wrapU 32 (wrapU 32 (Z.rem micros 1000000) * 1000)).
Definition nanoseconds_to_datetimetz (nanos : Z) : result (Z * Z) :=
  unwrap_timestamp (Z.quot nanos NANOS_IN_SECOND) (wrapU 32 (Z.rem nanos NANOS_IN_SECOND)).

(** *** literal.rs *)

Definition UTC_SUFFIX : str := lit "+00:00".
(** [format!("{x:x}")] of a byte: without leading zeros. *)
Definition hex_digit (d : Z) : Z := if d <? 10 then 48 + d else 87 + d.
Definition byte_hex (x : Z) : str := if x <? 16 then [hex_digit x] else [hex_digit (x / 16); hex_digit (x mod 16)].

Definition number_or_null (bits : Z) : Json.t :=
  match from_f64 bits with Some n => Json.Number n | None => Json.Null end.
Definition primitive_into_json (prim : PrimitiveLiteral.t) (prim_type : PrimitiveType.t) : result Json.t :=
  let datetime (t : result (Z * Z)) (suffix : str) := let? t := t in Ok (Json.String (datetime_text t ++ suffix)) in
  match prim_type, prim with
  | PrimitiveType.Boolean, PrimitiveLiteral.Boolean val => Ok (Json.Bool val)
  | PrimitiveType.Int, PrimitiveLiteral.Int val => Ok (Json.Number (Json.Integer val))
  | PrimitiveType.Long, PrimitiveLiteral.Long val => Ok (Json.Number (Json.Integer val))
  | PrimitiveType.Float, PrimitiveLiteral.Float val => Ok (number_or_null (f32_to_f64_bits val))
  | PrimitiveType.Double, PrimitiveLiteral.Double val => Ok (number_or_null val)
  | PrimitiveType.Date, PrimitiveLiteral.Int val => Json.String <$> unwrap (date_text val)
  | PrimitiveType.Time, PrimitiveLiteral.Long val =>
      let? t := microseconds_to_time val in Ok (Json.String (time_text t))
  | PrimitiveType.Timestamp, PrimitiveLiteral.Long val => datetime (microseconds_to_datetime val) []
  | PrimitiveType.Timestamptz, PrimitiveLiteral.Long val => datetime (microseconds_to_datetimetz val) UTC_SUFFIX
  | PrimitiveType.TimestampNs, PrimitiveLiteral.Long val => datetime (Ok (nanoseconds_to_datetime val)) []
  | PrimitiveType.TimestamptzNs, PrimitiveLiteral.Long val => datetime (nanoseconds_to_datetimetz val) UTC_SUFFIX
  | PrimitiveType.String, PrimitiveLiteral.String val => Ok (Json.String val)
  | _, PrimitiveLiteral.UInt128 val => Ok (Json.String (uuid_to_string val))
  | _, PrimitiveLiteral.Binary val => Ok (Json.String (concat (byte_hex <$> val)))
  | PrimitiveType.Decimal _ scale, PrimitiveLiteral.Int128 val =>
      Ok (Json.String (decimal_display (decimal_from_i128_with_scale val scale)))
  | _, _ => Err (Error DataInvalid)
  end.
Fixpoint try_into_json (self : Literal) (ty : Ty) : result Json.t :=
  let value_or_null (value : option Literal) (ty : Ty) :=
    match value with Some literal => try_into_json literal ty | None => Ok Json.Null end in
  match self, ty with
  | LPrimitive prim, TPrimitive prim_type => primitive_into_json prim prim_type
  | LStruct values, TStruct fields =>
      (fix convert (values : list (option Literal)) (fields : list NestedField) (id_and_value : list (str * Json.t)) :
           result Json.t :=
         match values, fields with
         | value :: values, field :: fields =>
             let? json := match value with Some val => try_into_json val (field_type field) | None => Ok Json.Null end in
             convert values fields (id_and_value ++ [(to_string_i (field_id field), json)])
         | _, _ => Ok (Json.Object id_and_value)
         end) values fields []
  | LList list, TList element =>
      Json.Array <$> mapR (fun opt : option Literal =>
        match opt with Some literal => try_into_json literal (field_type element) | None => Ok Json.Null end) list
  | LMap entries, TMap key value =>
      let? json := mapR (fun e : Literal * option Literal =>
        match e with
        | (k, v) =>
            let? json_key := try_into_json k (field_type key) in
            let? json_value :=
              match v with Some literal => try_into_json literal (field_type value) | None => Ok Json.Null end in
            Ok (json_key, json_value)
        end) entries in
      Ok (Json.Object [(lit "keys", Json.Array json.*1); (lit "values", Json.Array json.*2)])
  | _, _ => Err (Error DataInvalid)
  end.

Definition strip_suffix (s suffix : str) : option str :=
  if decide (drop (length s - length suffix) s = suffix) then Some (take (length s - length suffix) s) else None.
Definition primitive_from_json (value : Json.t) (primitive : PrimitiveType.t) : result (option PrimitiveLiteral.t) :=
  match primitive, value with
  | PrimitiveType.Boolean, Json.Bool b => Ok (Some (PrimitiveLiteral.Boolean b))
  | (PrimitiveType.Int | PrimitiveType.Date), Json.Number number =>
      let? v := ok_or (as_i64 number) DataInvalid in
      if inS 32 v then Ok (Some (PrimitiveLiteral.Int v)) else Err (Error DataInvalid)
  | PrimitiveType.Long, Json.Number number =>
      let? v := ok_or (as_i64 number) DataInvalid in Ok (Some (PrimitiveLiteral.Long v))
  | PrimitiveType.Float, Json.Number number => Ok (Some (PrimitiveLiteral.Float (f64_to_f32_bits (as_f64 number))))
  | PrimitiveType.Double, Json.Number number => Ok (Some (PrimitiveLiteral.Double (as_f64 number)))
  | PrimitiveType.Date, Json.String s =>
      let? days := ok_or (parse_date s) DataInvalid in Ok (Some (PrimitiveLiteral.Int (wrapS 32 days)))
  | PrimitiveType.Time, Json.String s =>
      let? micros := ok_or (parse_time s) DataInvalid in Ok (Some (PrimitiveLiteral.Long micros))
  | PrimitiveType.Timestamp, Json.String s =>
      let? micros := ok_or (parse_datetime s) DataInvalid in Ok (Some (PrimitiveLiteral.Long micros))
  | PrimitiveType.Timestamptz, Json.String s =>
      let? s := ok_or (strip_suffix s UTC_SUFFIX) DataInvalid in
      let? micros := ok_or (parse_datetime s) DataInvalid in Ok (Some (PrimitiveLiteral.Long micros))
  | PrimitiveType.String, Json.String s => Ok (Some (PrimitiveLiteral.String s))
  | PrimitiveType.Uuid, Json.String s =>
      let? u := ok_or (uuid_parse_str s) DataInvalid in Ok (Some (PrimitiveLiteral.UInt128 u))
  | PrimitiveType.Fixed _, Json.String _ => Err Panic
  | PrimitiveType.Binary, Json.String _ => Err Panic
  | PrimitiveType.Decimal _ scale, Json.String s =>
      let? decimal := ok_or (decimal_from_str_exact s) DataInvalid in
      Ok (Some (PrimitiveLiteral.Int128 (decimal_mantissa (decimal_rescale decimal scale))))
  | _, Json.Null => Ok None
  | _, _ => Err (Error DataInvalid)
  end.
Fixpoint try_from_json (value : Json.t) (data_type : Ty) {struct data_type} : result (option Literal) :=
  match data_type with
  | TPrimitive primitive =>
      let? l := primitive_from_json value primitive in Ok (LPrimitive <$> l)
  | TStruct fields =>
      match value with
      | Json.Object object =>
          (fix convert (fields : list NestedField) (values : list (option Literal)) : result (option Literal) :=
             match fields with
             | [] => Ok (Some (LStruct values))
             | field :: fields =>
                 match json_member object (to_string_i (field_id field)) with
                 | Some value =>
                     match try_from_json value (field_type field) with
                     | Ok value => convert fields (values ++ [value])
                     | Err Panic => Err Panic
                     | Err _ => convert fields (values ++ [None])
                     end
                 | None => convert fields (values ++ [None])
                 end
             end) fields []
      | _ => Err (Error DataInvalid)
      end
  | TList element =>
      match value with
      | Json.Array array =>
          let? values := mapR (fun value => try_from_json value (field_type element)) array in Ok (Some (LList values))
      | _ => Err (Error DataInvalid)
      end
  | TMap key_field value_field =>
      match value with
      | Json.Object object =>
          match json_member object (lit "keys"), json_member object (lit "values") with
          | Some (Json.Array keys), Some (Json.Array values) =>
              let? entries := mapR (fun e : Json.t * Json.t =>
                let? key := try_from_json (fst e) (field_type key_field) in
                let? key := ok_or key DataInvalid in
                let? value := try_from_json (snd e) (field_type value_field) in
                Ok (key, value)) (zip keys values) in
              Ok (Some (LMap (foldl (fun map e => map_insert map (fst e) (snd e)) [] entries)))
          | _, _ => Err (Error DataInvalid)
          end
      | _ => Err (Error DataInvalid)
      end
  end.
End json.

(** ** What is read back *)

(** The types whose values are written as they are read. *)
Definition json_exact (d : Datum) : bool :=
  match datum_type d, datum_literal d with
  | PrimitiveType.Boolean, PrimitiveLiteral.Boolean _ | PrimitiveType.String, PrimitiveLiteral.String _ => true
  | PrimitiveType.Int, PrimitiveLiteral.Int v => inS 32 v
  | PrimitiveType.Long, PrimitiveLiteral.Long v => inS 64 v
  | PrimitiveType.Double, PrimitiveLiteral.Double v => float_abs 64 v <? float_inf 64
  | PrimitiveType.Uuid, PrimitiveLiteral.UInt128 v => inU 128 v
  | _, _ => false
  end.

Section theory.
Context {V : ValueLib} {U : UuidText} {UL : UuidTextLaws U} {J : JsonText}.

Lemma integer_in_range n v : (n <= 64) -> 0 < n -> inS n v = true -> inS 64 v = true.
Proof.
  intros Hn H0 Hv%inS_spec. apply inS_spec. pose proof (Z.pow_le_mono_r 2 (n - 1) (64 - 1)). lia.
Qed.
(** A value of one of these types is read back from its JSON form. *)
Theorem primitive_json_roundtrip d json :
  json_exact d = true -> primitive_into_json (datum_literal d) (datum_type d) = Ok json ->
  primitive_from_json json (datum_type d) = Ok (Some (datum_literal d)).
Proof.
  destruct d as [ty l]. unfold json_exact. cbn [datum_type datum_literal]. intros He Hj.
  destruct ty, l; try discriminate He; cbn in Hj; injection Hj as <-; cbn; try done.
  - unfold as_i64. rewrite (integer_in_range 32) by done. cbn. by rewrite He.
  - unfold as_i64. by rewrite He.
  - unfold number_or_null, from_f64. by rewrite He.
  - by rewrite uuid_roundtrip.
Qed.

(** *** Where the code departs from its purpose *)

(** The time of an instant before 1970 that is not on a second has a negative remainder, which
    becomes a number of nanoseconds that no time has. *)
Theorem early_timestamptz_panics micros :
  inS 64 micros = true -> micros < 0 -> Z.rem micros 1000000 <> 0 ->
  primitive_into_json (PrimitiveLiteral.Long micros) PrimitiveType.Timestamptz = Err Panic.
Proof.
  intros _ Hneg Hrem. cbn. unfold microseconds_to_datetimetz, unwrap_timestamp.
  assert (- 1000000 < Z.rem micros 1000000 < 0) as Hr.
  { pose proof (Z.rem_bound_pos_neg micros 1000000). lia. }
  assert (wrapU 32 (wrapU 32 (Z.rem micros 1000000) * 1000) = 2 ^ 32 + Z.rem micros 1000000 * 1000) as ->.
  { unfold wrapU. rewrite Z.mul_mod_idemp_l by done. symmetry. apply (Z.mod_unique _ _ (-1)); lia. }
  replace (_ <? NANOS_IN_SECOND) with false by (symmetry; apply Z.ltb_ge; unfold NANOS_IN_SECOND; lia).
  by replace (_ <? 2 * NANOS_IN_SECOND) with false by (symmetry; apply Z.ltb_ge; unfold NANOS_IN_SECOND; lia).
Qed.
(** Bytes below 16 are written with one digit: different values have one text. *)
Theorem binary_text_is_ambiguous :
  primitive_into_json (PrimitiveLiteral.Binary [1; 35]) PrimitiveType.Binary
  = primitive_into_json (PrimitiveLiteral.Binary [18; 3]) PrimitiveType.Binary.
Proof. reflexivity. Qed.
(** What is written of binary and fixed values cannot be read: the code is not there. *)
Theorem binary_text_panics bytes ty :
  ty ∈ [PrimitiveType.Binary; PrimitiveType.Fixed (Z.of_nat (length bytes))] ->
  exists json, primitive_into_json (PrimitiveLiteral.Binary bytes) ty = Ok json /\ primitive_from_json json ty = Err Panic.
Proof. intros [->| ->%list_elem_of_singleton]%elem_of_cons; by eexists. Qed.
(** A member of a struct that cannot be read is null. *)
Theorem unreadable_member_is_null id name s :
  parse_date s = None ->
  try_from_json (Json.Object [(to_string_i id, Json.String s)])
    (TStruct [mkField id name true (TPrimitive PrimitiveType.Date)]) = Ok (Some (LStruct [None])).
Proof.
  intros Hs. assert (forall k v, json_member [(k, v)] k = Some v) as Hm.
  { intros k v. unfold json_member. cbn. by rewrite bool_decide_eq_true_2. }
  cbn -[json_member to_string_i]. rewrite Hm. cbn. by rewrite Hs.
Qed.
End theory.
