(* ===== verification/AvroSchema.v ===== *)
(** * Avro schemas (avro/schema.rs)

    The schema of an avro file from a schema of the table format, by the visitor
    [SchemaToAvroSchema]; and what a raw literal that is written under an avro schema is read
    as.  Correctness: partition tuples come back, of the types that have a way back. *)

From S2P Require Import Prelude Utf8 Bytes Numerals Decimal Values Schema DatumOrder LiteralEq MetadataLocation RawValues LiteralJson.

(** ** Schemas of the avro crate

    With the cases that the code makes.  An attribute of a schema is a number or a text. *)
Module Avro.
Inductive attribute := Number (v : Z) | Text (s : string).
Inductive t :=
| Null | Boolean | Int | Long | Float | Double | Bytes | String
| Date | TimeMicros | TimestampMicros | TimestampNanos | Uuid
| Fixed (name : string) (size : Z)
| Decimal (precision scale : Z) (name : string) (size : Z)
| Array (items : t) (attributes : list (string * attribute))
| Map (types : t) (attributes : list (string * attribute))
| Union (variants : list t)
| Record (name : string) (fields : list (string * t * option string * option Json.t * list (string * attribute))).
End Avro.
Abbreviation RecordField := (string * Avro.t * option string * option Json.t * list (string * Avro.attribute))%type.
Definition avro_name (f : RecordField) : string := let '(name, _, _, _, _) := f in name.
Definition avro_schema (f : RecordField) : Avro.t := let '(_, schema, _, _, _) := f in schema.

(** A name is checked by the crate; so is that a union has no union directly inside. *)
Class AvroNames := valid_name : string -> bool.

Definition ELEMENT_ID : string := "element-id".
Definition FIELD_ID_PROP : string := "field-id".
Definition KEY_ID : string := "key-id".
Definition VALUE_ID : string := "value-id".
Definition MAP_LOGICAL_TYPE : string := "map".
Definition LOGICAL_TYPE : string := "logicalType".

Section to_avro.
Context {V : ValueLib} {U : UuidText} {J : JsonText} {N : AvroNames}.

Definition avro_record_schema (name : string) (fields : list RecordField) : result Avro.t :=
  if valid_name name then Ok (Avro.Record name fields) else Err (Error DataInvalid).
Definition avro_fixed_schema (len : Z) : result Avro.t :=
  let name := ("fixed_" ++ text (to_string_u len))%string in
  if valid_name name then Ok (Avro.Fixed name len) else Err (Error DataInvalid).
Definition avro_decimal_schema (precision scale : Z) : result Avro.t :=
  let name := ("decimal_" ++ text (to_string_u precision) ++ "_" ++ text (to_string_u scale))%string in
  if negb (valid_name name) then Err Panic
  else let? size := decimal_required_bytes precision in Ok (Avro.Decimal precision scale name size).
Definition avro_optional (schema : Avro.t) : result Avro.t :=
  match schema with
  | Avro.Null | Avro.Union _ => Err (Error DataInvalid)
  | _ => Ok (Avro.Union [Avro.Null; schema])
  end.

(** [AvroSchemaOrField], and [unwrap_left] and [unwrap_right]. *)
Definition AvroSchemaOrField : Type := Avro.t + RecordField.
Definition unwrap_left (value : AvroSchemaOrField) : result Avro.t := match value with inl s => Ok s | inr _ => Err Panic end.
Definition unwrap_right (value : AvroSchemaOrField) : result RecordField :=
  match value with inr f => Ok f | inl _ => Err Panic end.

Definition record_id_name (id : Z) : string := ("r" ++ text (to_string_i id))%string.
(** [Name::from] panics for a name that is not valid. *)
Definition rename_record (schema : Avro.t) (name : string) : result Avro.t :=
  match schema with
  | Avro.Record _ fields => if valid_name name then Ok (Avro.Record name fields) else Err Panic
  | _ => Ok schema
  end.
Definition field_initial_default (f : NestedField) : option Literal :=
  match f with mkNestedField _ _ _ _ _ d _ => d end.
Definition avro_doc (f : NestedField) : option string := match f with mkNestedField _ _ _ _ d _ _ => d end.

(** [SchemaToAvroSchema]. *)
Definition avro_field (field : NestedField) (value : AvroSchemaOrField) : result AvroSchemaOrField :=
  let? field_schema := unwrap_left value in
  let? field_schema := rename_record field_schema (record_id_name (field_id field)) in
  let? field_schema := if field_required field then Ok field_schema else avro_optional field_schema in
  let? default :=
    match field_initial_default field with
    | Some literal => Some <$> try_into_json literal (field_type field)
    | None => Ok (if field_required field then None else Some Json.Null)
    end in
  Ok (inr (field_name field, field_schema, avro_doc field, default, [(FIELD_ID_PROP, Avro.Number (field_id field))])).
Definition avro_struct (results : list AvroSchemaOrField) : result AvroSchemaOrField :=
  let? avro_fields := mapR unwrap_right results in inl <$> avro_record_schema "null" avro_fields.
Definition avro_list (element : NestedField) (value : AvroSchemaOrField) : result AvroSchemaOrField :=
  let? field_schema := unwrap_left value in
  let? field_schema := rename_record field_schema (record_id_name (field_id element)) in
  let? field_schema := if field_required element then Ok field_schema else avro_optional field_schema in
  Ok (inl (Avro.Array field_schema [(ELEMENT_ID, Avro.Number (field_id element))])).
Definition avro_map (key value : NestedField) (key_value value_value : AvroSchemaOrField) : result AvroSchemaOrField :=
  let? key_schema := unwrap_left key_value in
  let? value_schema := unwrap_left value_value in
  let? value_schema := if field_required value then Ok value_schema else avro_optional value_schema in
  match key_schema with
  | Avro.String =>
      Ok (inl (Avro.Map value_schema
                 [(KEY_ID, Avro.Number (field_id key)); (VALUE_ID, Avro.Number (field_id value))]))
  | _ =>
      let record_field (f : NestedField) (schema : Avro.t) : RecordField :=
        (field_name f, schema, None, None, [(FIELD_ID_PROP, Avro.Number (field_id f))]) in
      let name := ("k" ++ text (to_string_i (field_id key)) ++ "_v" ++ text (to_string_i (field_id value)))%string in
      let? item := avro_record_schema name [record_field key key_schema; record_field value value_schema] in
      Ok (inl (Avro.Array item [(LOGICAL_TYPE, Avro.Text MAP_LOGICAL_TYPE)]))
  end.
Definition avro_primitive (p : PrimitiveType.t) : result Avro.t :=
  match p with
  | PrimitiveType.Boolean => Ok Avro.Boolean
  | PrimitiveType.Int => Ok Avro.Int
  | PrimitiveType.Long => Ok Avro.Long
  | PrimitiveType.Float => Ok Avro.Float
  | PrimitiveType.Double => Ok Avro.Double
  | PrimitiveType.Date => Ok Avro.Date
  | PrimitiveType.Time => Ok Avro.TimeMicros
  | PrimitiveType.Timestamp => Ok Avro.TimestampMicros
  | PrimitiveType.Timestamptz => Ok Avro.TimestampMicros
  | PrimitiveType.TimestampNs => Ok Avro.TimestampNanos
  | PrimitiveType.TimestamptzNs => Ok Avro.TimestampNanos
  | PrimitiveType.String => Ok Avro.String
  | PrimitiveType.Uuid => Ok Avro.Uuid
  | PrimitiveType.Fixed len => avro_fixed_schema len
  | PrimitiveType.Binary => Ok Avro.Bytes
  | PrimitiveType.Decimal precision scale => avro_decimal_schema precision scale
  end.
Definition SchemaToAvroSchema : SchemaVisitor unit AvroSchemaOrField :=
  {| before_struct_field := no_hook; after_struct_field := no_hook;
     before_list_element := no_hook; after_list_element := no_hook;
     before_map_key := no_hook; after_map_key := no_hook;
     before_map_value := no_hook; after_map_value := no_hook;
     v_field field value := sr_lift (avro_field field value);
     v_struct _ results := sr_lift (avro_struct results);
     v_list element value := sr_lift (avro_list element value);
     v_map key value key_value value_value := sr_lift (avro_map key value key_value value_value);
     v_primitive p := sr_lift (inl <$> avro_primitive p) |}.
Definition schema_to_avro_schema (name : string) (schema : Schema) : result Avro.t :=
  let? value := visit_struct SchemaToAvroSchema (as_struct schema) tt in
  let? avro_schema := unwrap_left (fst value) in
  match avro_schema with
  | Avro.Record _ _ => rename_record avro_schema name
  | _ => Err (Error Unexpected)
  end.
End to_avro.

(** ** What is stored of a raw literal

    A value is written under the schema it is resolved to, and read back as that schema's value:
    a decimal as the bytes of its width, a record with the fields of the schema in their order.
    Nothing is said of the form in which a UUID is read, nor of lists and maps. *)
Definition record_value (required : list (string * RawLiteral.t)) (optional : list (string * option RawLiteral.t))
    (name : string) : option RawLiteral.t :=
  match List.find (fun e => bool_decide (fst e = name)) required with
  | Some e => Some (snd e)
  | None =>
      (fun e => default RawLiteral.Null (snd e)) <$> List.find (fun e => bool_decide (fst e = name)) optional
  end.
Fixpoint store_fields (store : Avro.t -> RawLiteral.t -> option RawLiteral.t) (value : string -> option RawLiteral.t)
    (fields : list RecordField) : option (list (string * RawLiteral.t)) :=
  match fields with
  | [] => Some []
  | (name, schema, _, _, _) :: fields =>
      v ← value name; raw ← store schema v; rest ← store_fields store value fields; Some ((name, raw) :: rest)
  end.
Fixpoint store (schema : Avro.t) (raw : RawLiteral.t) : option RawLiteral.t :=
  match schema, raw with
  | Avro.Null, RawLiteral.Null => Some RawLiteral.Null
  | Avro.Boolean, RawLiteral.Boolean _ => Some raw
  | (Avro.Int | Avro.Date), RawLiteral.Int _ => Some raw
  | (Avro.Long | Avro.TimeMicros | Avro.TimestampMicros | Avro.TimestampNanos), RawLiteral.Long _ => Some raw
  | Avro.Float, RawLiteral.Float _ => Some raw
  | Avro.Double, RawLiteral.Double _ => Some raw
  | Avro.String, RawLiteral.String _ => Some raw
  | Avro.Bytes, RawLiteral.Bytes _ => Some raw
  | Avro.Fixed _ size, RawLiteral.Bytes bs => if Z.of_nat (length bs) =? size then Some raw else None
  | Avro.Decimal _ _ _ size, RawLiteral.Bytes bs =>
      let v := of_be_signed bs in
      if (0 <? size) && inS (8 * size) v then Some (RawLiteral.Bytes (be_bytes (Z.to_nat size) v)) else None
  | Avro.Union [Avro.Null; _], RawLiteral.Null => Some RawLiteral.Null
  | Avro.Union [Avro.Null; schema], _ => store schema raw
  | Avro.Record _ fields, RawLiteral.Record required optional =>
      (fun stored => RawLiteral.Record stored []) <$> store_fields store (record_value required optional) fields
  | _, _ => None
  end.

(** ** Partition tuples *)

(** A value of a type that has a way back: not a UUID, which the avro schema makes something
    else of, and not a timestamp of nanoseconds, which no raw literal is converted to. *)
Definition kept_value (ty : PrimitiveType.t) (l : PrimitiveLiteral.t) : bool :=
  datum_wf (mkDatum ty l) && decimal_fits (mkDatum ty l)
  && match ty, l with
     | (PrimitiveType.Uuid | PrimitiveType.TimestampNs | PrimitiveType.TimestamptzNs), _ => false
     | PrimitiveType.Fixed len, PrimitiveLiteral.Binary bs => Z.of_nat (length bs) =? len
     | _, _ => true
     end.
Definition tuple_field_fits (v : option Literal) (f : NestedField) : Prop :=
  exists ty, field_type f = TPrimitive ty /\ forall l, v = Some l -> exists x, l = LPrimitive x /\ kept_value ty x = true.
(** The columns of a partition type. *)
Record tuple_type (fields : list NestedField) : Prop := {
  tt_optional : Forall (fun f => field_required f = false /\ field_initial_default f = None) fields;
  tt_names : NoDup (field_name <$> fields);
}.
Definition tuple_fits (fields : list NestedField) (p : Struct) : Prop := Forall2 tuple_field_fits p fields.

Section theory.
Context {V : ValueLib} {U : UuidText} {J : JsonText} {N : AvroNames}.

Lemma decimal_of_bytes_ok precision n v :
  decimal_required_bytes precision = Ok n -> inS (8 * n) v = true ->
  decimal_of_bytes precision (be_bytes (Z.to_nat n) v) = Ok (PrimitiveLiteral.Int128 v).
Proof.
  intros Hp Hv. destruct (required_bytes_spec _ _ Hp) as (Hn & _). unfold decimal_of_bytes. rewrite Hp. cbn [mbind result_bind].
  rewrite length_be_bytes, Z2Nat.id, Z.eqb_refl by lia.
  assert (inS (8 * Z.of_nat (Z.to_nat n)) v = true) as Hv' by (by rewrite Z2Nat.id by lia).
  assert (match be_bytes (Z.to_nat n) v with b :: _ => negb (Z.land b 128 =? 0) | [] => false end = (v <? 0)) as ->.
  { pose proof (be_bytes_sign (Z.to_nat n) v ltac:(lia) Hv') as Hs. pose proof (length_be_bytes (Z.to_nat n) v) as Hl.
    destruct (be_bytes (Z.to_nat n) v) as [|b bs]; [cbn in Hl; lia|exact Hs]. }
  change (if v <? 0 then 255 else 0) with (sign_byte (v <? 0)).
  rewrite <- be_bytes_extend by (first [lia | done]). replace (_ + _)%nat with 16%nat by lia.
  do 2 f_equal. apply (of_be_signed_bytes 16); [lia|].
  apply inS_spec in Hv. apply inS_spec. pose proof (Z.pow_le_mono_r 2 (8 * n - 1) (8 * Z.of_nat 16 - 1)). lia.
Qed.
Lemma decimal_in_bytes precision n v :
  decimal_required_bytes precision = Ok n -> Z.abs v < 10 ^ precision -> inS (8 * n) v = true.
Proof. intros (Hn & Hp & _)%required_bytes_spec Hv. apply inS_spec. lia. Qed.

Lemma store_decimal precision scale name size bs :
  store (Avro.Decimal precision scale name size) (RawLiteral.Bytes bs)
  = if (0 <? size) && inS (8 * size) (of_be_signed bs)
    then Some (RawLiteral.Bytes (be_bytes (Z.to_nat size) (of_be_signed bs))) else None.
Proof. done. Qed.
Lemma scalar_kept ty l raw schema :
  kept_value ty l = true -> raw_of_primitive l = Ok raw -> avro_primitive ty = Ok schema ->
  exists raw', store schema raw = Some raw' /\ raw <> RawLiteral.Null
    /\ raw_try_into raw' (TPrimitive ty) = Ok (Some (LPrimitive l)).
Proof.
  unfold kept_value, datum_wf, decimal_fits. cbn [datum_type datum_literal].
  intros [[[[Ht Hc]%andb_true_iff Hl]%andb_true_iff Hd]%andb_true_iff Hk]%andb_true_iff Hr Hs.
  destruct ty, l; try discriminate Hc; try discriminate Hk; cbn -[be_bytes] in Hr; injection Hr as <-;
    try (cbn in Hs; injection Hs as <-; eexists; split; [reflexivity|done]).
  - cbn [avro_primitive] in Hs. unfold avro_decimal_schema in Hs. destruct (negb _); [done|].
    apply bind_Ok in Hs as (n & Hn & [= <-]). apply Z.ltb_lt in Hd. pose proof (decimal_in_bytes _ _ _ Hn Hd) as Hv.
    destruct (required_bytes_spec _ _ Hn) as (Hn' & _). rewrite store_decimal.
    assert (of_be_signed (be_bytes 16 v) = v) as ->.
    { apply (of_be_signed_bytes 16); [lia|]. apply inS_spec in Hv. apply inS_spec.
      pose proof (Z.pow_le_mono_r 2 (8 * n - 1) (8 * Z.of_nat 16 - 1)). lia. }
    rewrite Hv. replace (0 <? n) with true by (symmetry; apply Z.ltb_lt; lia). eexists. split; [reflexivity|]. split; [done|].
    cbn [raw_try_into literal_of_scalar]. by rewrite (decimal_of_bytes_ok _ _ _ Hn Hv).
  - cbn [avro_primitive] in Hs. unfold avro_fixed_schema in Hs. cbn zeta in Hs. destruct (valid_name _); [|done]. injection Hs as <-.
    cbn [store]. rewrite Hk. eexists. split; [reflexivity|]. split; [done|]. cbn [raw_try_into literal_of_scalar]. by rewrite Hk.
Qed.

(** *** A tuple *)

Lemma find_by_key {A} (key : A -> string) (l : list A) x :
  NoDup (key <$> l) -> x ∈ l -> List.find (fun e => bool_decide (key e = key x)) l = Some x.
Proof.
  induction l as [|y l IH]; intros Hnd Hx; [by apply elem_of_nil in Hx|]. cbn. apply NoDup_cons in Hnd as [Hy Hnd].
  apply elem_of_cons in Hx as [-> |Hx]; [by rewrite bool_decide_eq_true_2|].
  rewrite bool_decide_eq_false_2; [by apply IH|]. intros E. apply Hy. rewrite E. by apply list_elem_of_fmap_2.
Qed.
Lemma struct_field_found fields f :
  NoDup (field_name <$> fields) -> f ∈ fields -> struct_field_by_name fields (field_name f) = Some f.
Proof.
  intros Hnd Hf. unfold struct_field_by_name. apply find_by_key.
  - rewrite rev_alt. change (NoDup (field_name <$> reverse fields)). by rewrite fmap_reverse, reverse_Permutation.
  - apply list_elem_of_In, in_rev. rewrite rev_involutive. by apply list_elem_of_In.
Qed.

(** What the loop over the fields collects, of optional fields. *)
Definition optional_entry (vf : option Literal * NestedField) (o : string * option RawLiteral.t) : Prop :=
  fst o = field_name vf.2
  /\ match vf.1 with
     | Some l => exists r, snd o = Some r /\ raw_try_from l (field_type vf.2) = Ok r
     | None => snd o = None
     end.
Lemma raw_fields_optional p fields required optional raw :
  Forall (fun f => field_required f = false) fields -> length p = length fields ->
  raw_fields raw_try_from p fields required optional = Ok raw ->
  exists os, raw = RawLiteral.Record required (optional ++ os) /\ Forall2 optional_entry (zip p fields) os.
Proof.
  revert fields optional. induction p as [|v p IH]; intros [|f fields] optional Hopt Hl; try done.
  - cbn. intros [= <-]. exists []. by rewrite app_nil_r.
  - apply Forall_cons in Hopt as [Hf Hopt]. cbn [raw_fields]. rewrite Hf. cbn in Hl. injection Hl as Hl. destruct v as [l|].
    + intros (r & Hr & (os & -> & Hos)%IH)%bind_Ok; [|done..]. exists ((field_name f, Some r) :: os).
      rewrite <- app_assoc. split; [done|]. constructor; [|done]. split; [done|]. by exists r.
    + intros (os & -> & Hos)%IH; [|done..]. exists ((field_name f, None) :: os).
      rewrite <- app_assoc. split; [done|]. by constructor.
Qed.

(** The schema of a column of a tuple. *)
Definition column_schema (f : NestedField) (af : RecordField) : Prop :=
  avro_name af = field_name f
  /\ exists ty schema, field_type f = TPrimitive ty /\ avro_primitive ty = Ok schema
       /\ avro_schema af = Avro.Union [Avro.Null; schema].
Definition entry_found (value : string -> option RawLiteral.t) (named : string -> option NestedField)
    (vf : option Literal * NestedField) : Prop :=
  named (field_name vf.2) = Some vf.2
  /\ match vf.1 with
     | Some l => exists r, value (field_name vf.2) = Some r /\ raw_try_from l (field_type vf.2) = Ok r
     | None => value (field_name vf.2) = Some RawLiteral.Null
     end.
Lemma store_optional schema raw :
  raw <> RawLiteral.Null -> store (Avro.Union [Avro.Null; schema]) raw = store schema raw.
Proof. by destruct raw. Qed.
Lemma store_tuple value named p fields afs :
  tuple_fits fields p -> Forall2 column_schema fields afs -> Forall (entry_found value named) (zip p fields) ->
  exists stored, store_fields store value afs = Some stored
    /\ mapR (fun e : string * RawLiteral.t =>
              match e with
              | (field_name, value) =>
                  let? field := ok_or (named field_name) DataInvalid in
                  raw_try_into value (field_type field)
              end) stored = Ok p.
Proof.
  intros Hfits. revert afs. induction Hfits as [|v f p fields Hv Hp IH]; intros afs Hs He.
  - inversion Hs; subst. by exists [].
  - inversion Hs as [|? af ? afs' (Hn & ty & schema & Hty & Hschema & Haf) Hs']; subst.
    cbn [zip zip_with] in He. apply Forall_cons in He as [[Hnamed Hvalue] He]. cbn [fst snd] in *.
    destruct (IH _ Hs' He) as (stored & Hst & Hread).
    destruct af as [[[[name schema'] doc] default] attributes]. cbn [avro_name avro_schema] in *. subst name schema'.
    assert (exists r r', value (field_name f) = Some r /\ store (Avro.Union [Avro.Null; schema]) r = Some r'
              /\ raw_try_into r' (field_type f) = Ok v) as (r & r' & Hr & Hr' & Hv').
    { destruct v as [l|]; [|by eexists _, _].
      destruct Hvalue as (r & Hr & Hraw). destruct Hv as (ty' & Hty' & Hl). destruct (Hl l eq_refl) as (x & -> & Hx).
      assert (ty' = ty) as -> by congruence. rewrite Hty in *. cbn in Hraw.
      destruct (scalar_kept _ _ _ _ Hx Hraw Hschema) as (r' & Hr' & Hnn & Hback). exists r, r'. by rewrite store_optional. }
    exists ((field_name f, r') :: stored). cbn [store_fields mapR]. rewrite Hr. cbn [mbind option_bind].
    rewrite Hr'. cbn [mbind option_bind]. rewrite Hst. split; [done|]. rewrite Hnamed. cbn. rewrite Hv'. cbn. by rewrite Hread.
Qed.

Lemma entries_names vfs os : Forall2 optional_entry vfs os -> os.*1 = (fun vf => field_name vf.2) <$> vfs.
Proof. induction 1 as [|vf o vfs os [Hn _] _ IH]; [done|]. rewrite !fmap_cons. by f_equal. Qed.
Lemma entries_found vfs os fields :
  NoDup (field_name <$> fields) -> snd <$> vfs = fields -> Forall2 optional_entry vfs os ->
  Forall (entry_found (record_value [] os) (struct_field_by_name fields)) vfs.
Proof.
  intros Hnd Hfields Hos.
  assert (NoDup (os.*1)) as Hndo.
  { rewrite (entries_names _ _ Hos). rewrite <- Hfields, <- list_fmap_compose in Hnd. exact Hnd. }
  apply Forall_forall. intros vf Hvf. split.
  - apply struct_field_found; [done|]. rewrite <- Hfields. by apply list_elem_of_fmap_2.
  - apply list_elem_of_lookup in Hvf as [i Hi]. destruct (Forall2_lookup_l _ _ _ _ _ Hos Hi) as (o & Ho & Hn & He).
    assert (record_value [] os (field_name vf.2) = Some (default RawLiteral.Null (snd o))) as Hr.
    { unfold record_value. cbn [List.find]. rewrite <- Hn.
      by rewrite (find_by_key fst os o Hndo (list_elem_of_lookup_2 _ _ _ Ho)). }
    destruct vf.1 as [l|]; [|by rewrite Hr, He]. destruct He as (r & Ho' & Hraw). exists r. by rewrite Hr, Ho'.
Qed.
Lemma tuple_kept name fields afs p raw :
  tuple_type fields -> tuple_fits fields p -> Forall2 column_schema fields afs ->
  raw_try_from (LStruct p) (TStruct fields) = Ok raw ->
  exists raw', store (Avro.Record name afs) raw = Some raw' /\ raw_try_into raw' (TStruct fields) = Ok (Some (LStruct p)).
Proof.
  intros [Hopt Hnd] Hfits Hs Hraw. cbn [raw_try_from] in Hraw. pose proof (Forall2_length _ _ _ Hfits) as Hl.
  apply raw_fields_optional in Hraw as (os & -> & Hos); [|by eapply Forall_impl; [exact Hopt|intros ? []]|done].
  destruct (store_tuple (record_value [] os) (struct_field_by_name fields) p fields afs Hfits Hs) as (stored & Hst & Hread).
  { apply entries_found; [done|apply snd_zip; lia|done]. }
  exists (RawLiteral.Record stored []). split; [cbn [store app]; by rewrite Hst|].
  cbn [raw_try_into]. by rewrite Hread.
Qed.

(** The schema that the visitor gives a partition type. *)
Lemma primitive_is_plain ty schema :
  avro_primitive ty = Ok schema ->
  (forall name, rename_record schema name = Ok schema) /\ avro_optional schema = Ok (Avro.Union [Avro.Null; schema]).
Proof.
  intros Hp. destruct ty; try (cbn in Hp; injection Hp as <-; done); unfold avro_primitive in Hp.
  - unfold avro_decimal_schema in Hp. cbn zeta in Hp. destruct (negb _); [done|]. by apply bind_Ok in Hp as (n & _ & [= <-]).
  - unfold avro_fixed_schema in Hp. cbn zeta in Hp. destruct (valid_name _); [|done]. by injection Hp as <-.
Qed.
Lemma column_visited f r ty :
  field_required f = false -> field_initial_default f = None -> field_type f = TPrimitive ty ->
  visit_struct_field SchemaToAvroSchema f tt = Ok (r, tt) -> exists af, r = inr af /\ column_schema f af.
Proof.
  intros Hreq Hdef Hty. unfold visit_struct_field. rewrite Hty. unfold mbind, sr_bind.
  cbn [before_struct_field after_struct_field v_field v_primitive visit_type SchemaToAvroSchema no_hook mret sr_ret]. unfold sr_lift.
  destruct (avro_primitive ty) as [schema|] eqn:Hp; [|done]. cbn [fmap result_fmap].
  destruct (primitive_is_plain _ _ Hp) as (Hren & Ho). unfold avro_field. cbn [unwrap_left mbind result_bind].
  rewrite Hren. cbn [mbind result_bind]. rewrite Hreq, Hdef, Ho. cbn [mbind result_bind]. intros [= <-].
  eexists. split; [done|]. split; [done|]. by exists ty, schema.
Qed.
Lemma tuple_schema fields n value :
  Forall (fun f => field_required f = false /\ field_initial_default f = None /\ exists ty, field_type f = TPrimitive ty) fields ->
  Schema.visit_type SchemaToAvroSchema (TStruct fields) tt = Ok (value, n) ->
  exists afs, value = inl (Avro.Record "null" afs) /\ Forall2 column_schema fields afs.
Proof.
  intros Hf. rewrite visit_type_struct. unfold visit_struct, mbind, sr_bind.
  destruct (mapSR (visit_struct_field SchemaToAvroSchema) fields tt) as [[results []]|] eqn:Hm; [|done].
  cbn [v_struct SchemaToAvroSchema]. unfold sr_lift. destruct (avro_struct results) as [v|] eqn:Hv; [|done]. intros [= <- <-].
  assert (exists afs, results = inr <$> afs /\ Forall2 column_schema fields afs) as (afs & -> & Hafs).
  { clear Hv. revert results Hm. induction Hf as [|f fields (Hreq & Hdef & ty & Hty) _ IH]; intros results Hm.
    - cbn in Hm. injection Hm as <-. by exists [].
    - cbn [mapSR] in Hm. unfold mbind, sr_bind in Hm.
      destruct (visit_struct_field SchemaToAvroSchema f tt) as [[r []]|] eqn:Hr; [|done].
      destruct (column_visited f r ty Hreq Hdef Hty Hr) as (af & -> & Haf).
      destruct (mapSR _ fields tt) as [[rest []]|] eqn:Hrest; [|done]. injection Hm as <-.
      destruct (IH rest eq_refl) as (afs & -> & Hafs). exists (af :: afs). split; [done|]. by constructor. }
  exists afs. split; [|done]. unfold avro_struct in Hv.
  assert (mapR unwrap_right (inr <$> afs) = Ok afs) as Hu by (clear; induction afs as [|a afs IH]; [done|]; cbn; by rewrite IH).
  rewrite Hu in Hv. cbn in Hv. unfold avro_record_schema in Hv. destruct (valid_name "null"); [|done]. by injection Hv as <-.
Qed.
End theory.
