(* ===== verification/ManifestSerde.v ===== *)
(** * The stored form of manifests (spec/manifest/_serde.rs, spec/manifest/mod.rs)

    The avro schemas of manifests, the records of a manifest file, their conversions from and to
    entries, the header, and the parsing of a file.  The avro crate is a parameter, with the JSON
    form of schemas and partition fields.  Correctness: a manifest that was written is parsed as
    its header and its entries, but for what its schema does not have. *)

From S2P Require Import Prelude Utf8 Numerals Values Schema Concrete DatumOrder DataFile Transform.
From S2P Require Import PartitionSpecs LiteralEq TableMetadata MetadataBuilder MetadataLocation ManifestWriter ManifestList ScanPlan Versions Metrics.
From S2P Require Import RawValues LiteralJson AvroSchema.

(** ** Metadata columns (metadata_columns.rs) *)

Definition reserved_field (id : Z) (name : string) (ty : PrimitiveType.t) (doc : string) : Z * NestedField :=
  (id, mkNestedField id name true (TPrimitive ty) (Some doc) None None).
Definition METADATA_FIELDS : list (Z * NestedField) :=
  [reserved_field (I32_MAX - 1) "_file" PrimitiveType.String "Path of the file in which a row is stored";
   reserved_field (I32_MAX - 2) "_pos" PrimitiveType.Long "Ordinal position of a row in the source data file";
   reserved_field (I32_MAX - 3) "_deleted" PrimitiveType.Boolean "Whether the row has been deleted";
   reserved_field (I32_MAX - 4) "_spec_id" PrimitiveType.Int "Spec ID used to track the file containing a row";
   reserved_field (I32_MAX - 101) "file_path" PrimitiveType.String
     "Path of a file, used in position-based delete files";
   reserved_field (I32_MAX - 102) "pos" PrimitiveType.Long
     "Ordinal position of a row, used in position-based delete files";
   reserved_field (I32_MAX - 104) "_change_type" PrimitiveType.String
     "The record type in the changelog (INSERT, DELETE, UPDATE_BEFORE, or UPDATE_AFTER)";
   reserved_field (I32_MAX - 105) "_change_ordinal" PrimitiveType.Int "The order of the change";
   reserved_field (I32_MAX - 106) "_commit_snapshot_id" PrimitiveType.Long
     "The snapshot ID in which the change occurred";
   reserved_field (I32_MAX - 107) "_row_id" PrimitiveType.Long "A unique long assigned for row lineage";
   reserved_field (I32_MAX - 108) "_last_updated_sequence_number" PrimitiveType.Long
     "The sequence number which last updated this row"]%string.
Definition get_metadata_field (id : Z) : result NestedField :=
  match List.find (fun e => fst e =? id) METADATA_FIELDS with
  | Some e => Ok (snd e)
  | None => Err (Error Unexpected)
  end.

(** ** Codes and names *)

Definition status_code (s : ManifestStatus) : Z := match s with Existing => 0 | Added => 1 | Deleted => 2 end.
Definition status_of_code (v : Z) : result ManifestStatus :=
  if v =? 0 then Ok Existing else if v =? 1 then Ok Added else if v =? 2 then Ok Deleted
  else Err (Error DataInvalid).
Definition file_content_code (c : DataContentType) : Z :=
  match c with Data => 0 | PositionDeletes => 1 | EqualityDeletes => 2 end.
Definition file_content_of_code (v : Z) : result DataContentType :=
  if v =? 0 then Ok Data else if v =? 1 then Ok PositionDeletes else if v =? 2 then Ok EqualityDeletes
  else Err (Error DataInvalid).

(** [Display] and [FromStr] of [DataFileFormat]; [to_ascii_uppercase] of the standard library. *)
Definition format_text (f : DataFileFormat) : string :=
  match f with Avro => "avro" | Orc => "orc" | Parquet => "parquet" | Puffin => "puffin" end.
Definition format_of_text {LC : Lowercase} (s : string) : result DataFileFormat :=
  let s := to_lowercase s in
  if bool_decide (s = "avro")%string then Ok Avro
  else if bool_decide (s = "orc")%string then Ok Orc
  else if bool_decide (s = "parquet")%string then Ok Parquet
  else if bool_decide (s = "puffin")%string then Ok Puffin
  else Err (Error DataInvalid).
Definition ascii_upper (c : Ascii.ascii) : Ascii.ascii :=
  let n := Ascii.nat_of_ascii c in
  if ((97 <=? n) && (n <=? 122))%nat then Ascii.ascii_of_nat (n - 32) else c.
Fixpoint to_ascii_uppercase (s : string) : string :=
  match s with
  | EmptyString => EmptyString
  | String c s => String (ascii_upper c) (to_ascii_uppercase s)
  end.
(** [to_lowercase] changes ASCII text as [to_ascii_lowercase] does. *)
Class LowercaseLaws (LC : Lowercase) := {
  lowercase_format f : to_lowercase (to_ascii_uppercase (format_text f)) = format_text f;
}.

(** ** The avro schemas of manifests (spec/manifest/entry.rs) *)

Definition STATUS : NestedField := mkField 0 "status" true (TPrimitive PrimitiveType.Int).
Definition SNAPSHOT_ID_V1 : NestedField := mkField 1 "snapshot_id" true (TPrimitive PrimitiveType.Long).
Definition SNAPSHOT_ID_V2 : NestedField := mkField 1 "snapshot_id" false (TPrimitive PrimitiveType.Long).
Definition SEQUENCE_NUMBER : NestedField := mkField 3 "sequence_number" false (TPrimitive PrimitiveType.Long).
Definition FILE_SEQUENCE_NUMBER : NestedField := mkField 4 "file_sequence_number" false (TPrimitive PrimitiveType.Long).
Definition CONTENT : NestedField :=
  mkNestedField 134 "content" true (TPrimitive PrimitiveType.Int) None (Some (LPrimitive (PrimitiveLiteral.Int 0))) None.
Definition FILE_PATH : NestedField := mkField 100 "file_path" true (TPrimitive PrimitiveType.String).
Definition FILE_FORMAT : NestedField := mkField 101 "file_format" true (TPrimitive PrimitiveType.String).
Definition RECORD_COUNT : NestedField := mkField 103 "record_count" true (TPrimitive PrimitiveType.Long).
Definition FILE_SIZE_IN_BYTES : NestedField := mkField 104 "file_size_in_bytes" true (TPrimitive PrimitiveType.Long).
Definition BLOCK_SIZE_IN_BYTES : NestedField := mkField 105 "block_size_in_bytes" true (TPrimitive PrimitiveType.Long).
Definition metric_map (key value : Z) (ty : PrimitiveType.t) : Ty :=
  TMap (mkField key "key" true (TPrimitive PrimitiveType.Int)) (mkField value "value" true (TPrimitive ty)).
Definition COLUMN_SIZES : NestedField := mkField 108 "column_sizes" false (metric_map 117 118 PrimitiveType.Long).
Definition VALUE_COUNTS : NestedField := mkField 109 "value_counts" false (metric_map 119 120 PrimitiveType.Long).
Definition NULL_VALUE_COUNTS : NestedField := mkField 110 "null_value_counts" false (metric_map 121 122 PrimitiveType.Long).
Definition NAN_VALUE_COUNTS : NestedField := mkField 137 "nan_value_counts" false (metric_map 138 139 PrimitiveType.Long).
Definition LOWER_BOUNDS : NestedField := mkField 125 "lower_bounds" false (metric_map 126 127 PrimitiveType.Binary).
Definition UPPER_BOUNDS : NestedField := mkField 128 "upper_bounds" false (metric_map 129 130 PrimitiveType.Binary).
Definition KEY_METADATA : NestedField := mkField 131 "key_metadata" false (TPrimitive PrimitiveType.Binary).
Definition SPLIT_OFFSETS : NestedField :=
  mkField 132 "split_offsets" false (TList (mkField 133 "element" true (TPrimitive PrimitiveType.Long))).
Definition EQUALITY_IDS : NestedField :=
  mkField 135 "equality_ids" false (TList (mkField 136 "element" true (TPrimitive PrimitiveType.Int))).
Definition SORT_ORDER_ID : NestedField := mkField 140 "sort_order_id" false (TPrimitive PrimitiveType.Int).
Definition FIRST_ROW_ID : NestedField := mkField 142 "first_row_id" false (TPrimitive PrimitiveType.Long).
Definition REFERENCE_DATA_FILE : NestedField := mkField 143 "referenced_data_file" false (TPrimitive PrimitiveType.String).
Definition CONTENT_OFFSET : NestedField := mkField 144 "content_offset" false (TPrimitive PrimitiveType.Long).
Definition CONTENT_SIZE_IN_BYTES : NestedField := mkField 145 "content_size_in_bytes" false (TPrimitive PrimitiveType.Long).

Definition partition_field (partition_type : list NestedField) : NestedField :=
  mkField 102 "partition" true (TStruct partition_type).
Definition data_file_fields_v3 (partition_type : list NestedField) : list NestedField :=
  [CONTENT; FILE_PATH; FILE_FORMAT; partition_field partition_type; RECORD_COUNT; FILE_SIZE_IN_BYTES; COLUMN_SIZES;
   VALUE_COUNTS; NULL_VALUE_COUNTS; NAN_VALUE_COUNTS; LOWER_BOUNDS; UPPER_BOUNDS; KEY_METADATA; SPLIT_OFFSETS; EQUALITY_IDS;
   SORT_ORDER_ID; FIRST_ROW_ID; REFERENCE_DATA_FILE; CONTENT_OFFSET; CONTENT_SIZE_IN_BYTES].
Definition data_file_fields_v2 (partition_type : list NestedField) : list NestedField :=
  [CONTENT; FILE_PATH; FILE_FORMAT; partition_field partition_type; RECORD_COUNT; FILE_SIZE_IN_BYTES; COLUMN_SIZES;
   VALUE_COUNTS; NULL_VALUE_COUNTS; NAN_VALUE_COUNTS; LOWER_BOUNDS; UPPER_BOUNDS; KEY_METADATA; SPLIT_OFFSETS; EQUALITY_IDS;
   SORT_ORDER_ID; FIRST_ROW_ID; REFERENCE_DATA_FILE; CONTENT_OFFSET; CONTENT_SIZE_IN_BYTES].
Definition data_file_fields_v1 (partition_type : list NestedField) : list NestedField :=
  [FILE_PATH; FILE_FORMAT; partition_field partition_type; RECORD_COUNT; FILE_SIZE_IN_BYTES; BLOCK_SIZE_IN_BYTES; COLUMN_SIZES;
   VALUE_COUNTS; NULL_VALUE_COUNTS; NAN_VALUE_COUNTS; LOWER_BOUNDS; UPPER_BOUNDS; KEY_METADATA; SPLIT_OFFSETS; SORT_ORDER_ID].

Section schemas.
Context {LC : Lowercase} {V : ValueLib} {U : UuidText} {J : JsonText} {N : AvroNames}.
(** [Schema::builder().with_fields(fields).build()]. *)
Definition schema_of_fields (fields : list NestedField) : result Schema := build (mkSchemaBuilder 0 fields [] ∅ None).
Definition avro_schema_of (name : string) (fields : list NestedField) : result Avro.t :=
  let? schema := schema_of_fields fields in schema_to_avro_schema name schema.
Definition data_file_schema_v3 (partition_type : list NestedField) : result Avro.t :=
  avro_schema_of "data_file" (data_file_fields_v3 partition_type).
Definition data_file_schema_v2 (partition_type : list NestedField) : result Avro.t :=
  avro_schema_of "data_file" (data_file_fields_v2 partition_type).
Definition data_file_schema_v1 (partition_type : list NestedField) : result Avro.t :=
  avro_schema_of "data_file" (data_file_fields_v1 partition_type).
Definition manifest_schema_v2 (partition_type : list NestedField) : result Avro.t :=
  avro_schema_of "manifest_entry"
    [STATUS; SNAPSHOT_ID_V2; SEQUENCE_NUMBER; FILE_SEQUENCE_NUMBER;
     mkField 2 "data_file" true (TStruct (data_file_fields_v2 partition_type))].
Definition manifest_schema_v1 (partition_type : list NestedField) : result Avro.t :=
  avro_schema_of "manifest_entry"
    [STATUS; SNAPSHOT_ID_V1; mkField 2 "data_file" true (TStruct (data_file_fields_v1 partition_type))].
Definition manifest_avro_schema (version : FormatVersion) (partition_type : list NestedField) : result Avro.t :=
  match version with V1 => manifest_schema_v1 partition_type | V2 | V3 => manifest_schema_v2 partition_type end.
End schemas.

(** ** Records *)

Record DataFileSerde := mkDataFileSerde {
  s_content : Z;
  s_file_path : string;
  s_file_format : string;
  s_partition : RawLiteral.t;
  s_record_count : Z;
  s_file_size_in_bytes : Z;
  s_block_size_in_bytes : option Z;
  s_column_sizes : option (list (Z * Z));
  s_value_counts : option (list (Z * Z));
  s_null_value_counts : option (list (Z * Z));
  s_nan_value_counts : option (list (Z * Z));
  s_lower_bounds : option (list (Z * list Z));
  s_upper_bounds : option (list (Z * list Z));
  s_key_metadata : option (list Z);
  s_split_offsets : option (list Z);
  s_equality_ids : option (list Z);
  s_sort_order_id : option Z;
  s_first_row_id : option Z;
  s_referenced_data_file : option string;
  s_content_offset : option Z;
  s_content_size_in_bytes : option Z;
}.

Section serde.
Context {O : HashOrder} {V : ValueLib} {LC : Lowercase} {U : UuidText} {J : JsonText} {N : AvroNames}.

Definition to_i64_entry (entries : gmap Z Z) : result (list (Z * Z)) :=
  mapR (fun e => let? v := to_signed 64 (snd e) in Ok (fst e, v)) (hash_iter entries).
(** A negative value is left out. *)
Definition parse_i64_entry (v : list (Z * Z)) : gmap Z Z :=
  foldl (fun m e => if 0 <=? snd e then <[fst e := snd e]> m else m) ∅ v.
Definition to_bytes_entry (v : gmap Z Datum) : result (list (Z * list Z)) :=
  mapR (fun e => let? bs := to_bytes (snd e) in Ok (fst e, bs)) (hash_iter v).
(** The bound of a field that the schema does not have, and no metadata column is, is left out. *)
Definition parse_bytes_entry (v : list (Z * list Z)) (schema : Schema) : result (gmap Z Datum) :=
  try_fold (fun m e =>
              let field :=
                match field_by_id schema (fst e) with
                | Some f => Some f
                | None => match get_metadata_field (fst e) with Ok f => Some f | Err _ => None end
                end in
              match field with
              | Some f =>
                  let? data_type := ok_or (as_primitive_type (field_type f)) DataInvalid in
                  let? d := try_from_bytes (snd e) data_type in
                  Ok (<[fst e := d]> m)
              | None => Ok m
              end) ∅ v.

Definition serde_of_file (value : DataFile) (partition_type : list NestedField) (version : FormatVersion) :
    result DataFileSerde :=
  let block_size_in_bytes := if bool_decide (version = V1) then Some 0 else None in
  let? raw := raw_try_from (LStruct (partition value)) (TStruct partition_type) in
  let? rows := to_signed 64 (record_count value) in
  let? size := to_signed 64 (file_size_in_bytes value) in
  let? cs := to_i64_entry (column_sizes value) in
  let? vc := to_i64_entry (value_counts value) in
  let? nc := to_i64_entry (null_value_counts value) in
  let? nan := to_i64_entry (nan_value_counts value) in
  let? lo := to_bytes_entry (lower_bounds value) in
  let? up := to_bytes_entry (upper_bounds value) in
  Ok (mkDataFileSerde (file_content_code (content value)) (file_path value)
        (to_ascii_uppercase (format_text (file_format value))) raw rows size block_size_in_bytes
        (Some cs) (Some vc) (Some nc) (Some nan) (Some lo) (Some up) (key_metadata value)
        (split_offsets value) (equality_ids value) (sort_order_id value) (DataFile.first_row_id value)
        (referenced_data_file value) (content_offset value) (content_size_in_bytes value)).

Definition file_of_serde (self : DataFileSerde) (partition_spec_id : Z)
    (partition_type : list NestedField) (schema : Schema) : result DataFile :=
  let? partition := raw_try_into (s_partition self) (TStruct partition_type) in
  let? partition :=
    match partition with
    | Some (LStruct v) => Ok v
    | Some _ => Err (Error DataInvalid)
    | None => Ok []
    end in
  let? c := file_content_of_code (s_content self) in
  let? f := format_of_text (s_file_format self) in
  let? rows := to_unsigned (s_record_count self) in
  let? size := to_unsigned (s_file_size_in_bytes self) in
  let counts o := default ∅ (parse_i64_entry <$> o) in
  let? lo := default ∅ <$> transpose (fun v => parse_bytes_entry v schema) (s_lower_bounds self) in
  let? up := default ∅ <$> transpose (fun v => parse_bytes_entry v schema) (s_upper_bounds self) in
  Ok (mkDataFile c (s_file_path self) f partition rows size (counts (s_column_sizes self))
        (counts (s_value_counts self)) (counts (s_null_value_counts self)) (counts (s_nan_value_counts self))
        lo up (s_key_metadata self) (s_split_offsets self) (s_equality_ids self) (s_sort_order_id self)
        (s_first_row_id self) partition_spec_id (s_referenced_data_file self) (s_content_offset self)
        (s_content_size_in_bytes self)).

Record ManifestEntryV2 := mkManifestEntryV2 {
  e2_status : Z;
  e2_snapshot_id : option Z;
  e2_sequence_number : option Z;
  e2_file_sequence_number : option Z;
  e2_data_file : DataFileSerde;
}.
Record ManifestEntryV1 := mkManifestEntryV1 {
  e1_status : Z;
  e1_snapshot_id : Z;
  e1_data_file : DataFileSerde;
}.

Definition entry_to_v2 (value : ManifestEntry) (partition_type : list NestedField) : result ManifestEntryV2 :=
  let? file := serde_of_file (data_file value) partition_type V2 in
  Ok (mkManifestEntryV2 (status_code (status value)) (entry_snapshot_id value) (entry_sequence_number value)
        (file_sequence_number value) file).
Definition entry_of_v2 (self : ManifestEntryV2) (partition_spec_id : Z) (partition_type : list NestedField)
    (schema : Schema) : result ManifestEntry :=
  let? st := status_of_code (e2_status self) in
  let? file := file_of_serde (e2_data_file self) partition_spec_id partition_type schema in
  Ok (mkManifestEntry st (e2_snapshot_id self) (e2_sequence_number self) (e2_file_sequence_number self) file).
Definition entry_to_v1 (value : ManifestEntry) (partition_type : list NestedField) : result ManifestEntryV1 :=
  let? file := serde_of_file (data_file value) partition_type V1 in
  Ok (mkManifestEntryV1 (status_code (status value)) (default 0 (entry_snapshot_id value)) file).
Definition entry_of_v1 (self : ManifestEntryV1) (partition_spec_id : Z) (partition_type : list NestedField)
    (schema : Schema) : result ManifestEntry :=
  let? st := status_of_code (e1_status self) in
  let? file := file_of_serde (e1_data_file self) partition_spec_id partition_type schema in
  Ok (mkManifestEntry st (Some (e1_snapshot_id self)) (Some 0) (Some 0) file).

(** The records of a manifest of either form. *)
Inductive ManifestRows := RowsV1 (rows : list ManifestEntryV1) | RowsV2 (rows : list ManifestEntryV2).

Definition rows_of_entries (version : FormatVersion) (fields : list NestedField) (entries : list ManifestEntry) :
    result ManifestRows :=
  match version with
  | V1 => RowsV1 <$> mapR (fun e => entry_to_v1 e fields) entries
  | V2 | V3 => RowsV2 <$> mapR (fun e => entry_to_v2 e fields) entries
  end.
Definition entries_of_rows (md : ManifestMetadata) (fields : list NestedField) (rows : ManifestRows) :
    result (list ManifestEntry) :=
  let id := spec_id (manifest_partition_spec md) in
  match rows with
  | RowsV1 rows => mapR (fun e => entry_of_v1 e id fields (manifest_schema md)) rows
  | RowsV2 rows => mapR (fun e => entry_of_v2 e id fields (manifest_schema md)) rows
  end.

End serde.

(** ** The header ([ManifestMetadata]) *)

(** The JSON form of a schema and of partition fields. *)
Class ManifestJson := {
  schema_to_json : Schema -> result string;
  schema_from_json : string -> result Schema;
  fields_to_json : list PartitionField -> result string;
  fields_from_json : string -> result (list PartitionField);
}.
(** White space around a JSON value. *)
Definition json_space (c : Z) : bool := (c =? 32) || (c =? 9) || (c =? 10) || (c =? 13).
Fixpoint skip_space (s : str) : str := match s with c :: s' => if json_space c then skip_space s' else s | [] => [] end.
Definition json_trim (s : str) : str := rev (skip_space (rev (skip_space s))).
(** [FormatVersion] is a number in JSON. *)
Definition version_number (v : FormatVersion) : Z := match v with V1 => 1 | V2 => 2 | V3 => 3 end.
Definition version_from_json (s : string) : result FormatVersion :=
  let s := json_trim (lit s) in
  if bool_decide (s = lit "1") then Ok V1 else if bool_decide (s = lit "2") then Ok V2
  else if bool_decide (s = lit "3") then Ok V3 else Err (Error DataInvalid).

Section header.
Context {LC : Lowercase} {MJ : ManifestJson}.

(** The user metadata that [write_manifest_file] adds. *)
Definition header_entries (md : ManifestMetadata) (schema fields : string) : gmap string string :=
  list_to_map
    [("schema"%string, schema); ("schema-id"%string, text (to_string_i (schema_id (manifest_schema md))));
     ("partition-spec"%string, fields);
     ("partition-spec-id"%string, text (to_string_i (spec_id (manifest_partition_spec md))));
     ("format-version"%string, text (to_string_u (version_number (manifest_format_version md))))].
Definition user_metadata (md : ManifestMetadata) : result (gmap string string) :=
  let? schema := schema_to_json (manifest_schema md) in
  let? fields := fields_to_json (spec_fields (manifest_partition_spec md)) in
  Ok match manifest_format_version md with
     | V1 => header_entries md schema fields
     | V2 | V3 => <["content"%string := content_text (metadata_content md)]> (header_entries md schema fields)
     end.
(** [ManifestMetadata::parse]. *)
Definition metadata_parse (meta : gmap string string) : result ManifestMetadata :=
  let number (key : string) :=
    match meta !! key with
    | Some bs => ok_or (parse_signed 32 (lit bs)) DataInvalid
    | None => Ok 0
    end in
  let? bs := ok_or (meta !! "schema"%string) DataInvalid in
  let? schema := schema_from_json bs in
  let? schema_id := number "schema-id"%string in
  let? bs := ok_or (meta !! "partition-spec"%string) DataInvalid in
  let? fields := fields_from_json bs in
  let? spec_id := number "partition-spec-id"%string in
  let? builder := add_unbound_fields (builder_with_spec_id (spec_builder_new schema) spec_id) (into_unbound_field <$> fields) in
  let? partition_spec := spec_build builder in
  let? format_version :=
    match meta !! "format-version"%string with Some bs => version_from_json bs | None => Ok V1 end in
  let? content := match meta !! "content"%string with Some v => content_of_text v | None => Ok MData end in
  Ok (mkManifestMetadata schema schema_id partition_spec format_version content).
End header.

(** ** The avro crate

    A file of records under a schema, with its user metadata.  A record is resolved to the schema
    before it is written: a field that the schema does not have is left out, and read as what
    serde gives a missing field, [None] or the default of [content]. *)
Class AvroManifests := {
  avro_write : gmap string string -> Avro.t -> ManifestRows -> result (list Z);
  avro_user_metadata : list Z -> result (gmap string string);
  avro_read_v1 : Avro.t -> list Z -> result (list ManifestEntryV1);
  avro_read_v2 : Avro.t -> list Z -> result (list ManifestEntryV2);
  avro_write_files : Avro.t -> list DataFileSerde -> result (list Z);
  avro_read_files : Avro.t -> list Z -> result (list DataFileSerde);
}.

Definition schema_field (schema : Avro.t) (name : string) : option Avro.t :=
  match schema with
  | Avro.Record _ fields => avro_schema <$> List.find (fun f => bool_decide (avro_name f = name)) fields
  | _ => None
  end.
Definition has_field (schema : Avro.t) (name : string) : bool :=
  match schema_field schema name with Some _ => true | None => false end.
Definition kept_field {A} (schema : Avro.t) (name : string) (v missing : A) : A := if has_field schema name then v else missing.
Definition store_file (schema : Avro.t) (f : DataFileSerde) : option DataFileSerde :=
  partition_schema ← schema_field schema "partition"; raw ← store partition_schema (s_partition f);
  if forallb (has_field schema) ["file_path"; "file_format"; "record_count"; "file_size_in_bytes"]%string
  then Some (mkDataFileSerde (kept_field schema "content" (s_content f) 0) (s_file_path f) (s_file_format f) raw
    (s_record_count f) (s_file_size_in_bytes f) None
    (kept_field schema "column_sizes" (s_column_sizes f) None) (kept_field schema "value_counts" (s_value_counts f) None)
    (kept_field schema "null_value_counts" (s_null_value_counts f) None) (kept_field schema "nan_value_counts" (s_nan_value_counts f) None)
    (kept_field schema "lower_bounds" (s_lower_bounds f) None) (kept_field schema "upper_bounds" (s_upper_bounds f) None)
    (kept_field schema "key_metadata" (s_key_metadata f) None) (kept_field schema "split_offsets" (s_split_offsets f) None)
    (kept_field schema "equality_ids" (s_equality_ids f) None) (kept_field schema "sort_order_id" (s_sort_order_id f) None)
    (kept_field schema "first_row_id" (s_first_row_id f) None) (kept_field schema "referenced_data_file" (s_referenced_data_file f) None)
    (kept_field schema "content_offset" (s_content_offset f) None)
    (kept_field schema "content_size_in_bytes" (s_content_size_in_bytes f) None))
  else None.
Definition store_v1 (schema : Avro.t) (e : ManifestEntryV1) : option ManifestEntryV1 :=
  file_schema ← schema_field schema "data_file"; file ← store_file file_schema (e1_data_file e);
  if forallb (has_field schema) ["status"; "snapshot_id"]%string
  then Some (mkManifestEntryV1 (e1_status e) (e1_snapshot_id e) file) else None.
Definition store_v2 (schema : Avro.t) (e : ManifestEntryV2) : option ManifestEntryV2 :=
  file_schema ← schema_field schema "data_file"; file ← store_file file_schema (e2_data_file e);
  if has_field schema "status"
  then Some (mkManifestEntryV2 (e2_status e) (kept_field schema "snapshot_id" (e2_snapshot_id e) None)
               (kept_field schema "sequence_number" (e2_sequence_number e) None)
               (kept_field schema "file_sequence_number" (e2_file_sequence_number e) None) file)
  else None.
(** What is documented of it: the header and the records that were written are read. *)
Class AvroManifestsLaws (AM : AvroManifests) := {
  avro_write_metadata meta schema rows bs : avro_write meta schema rows = Ok bs -> avro_user_metadata bs = Ok meta;
  avro_read_v1_ok meta schema rows rows' bs :
    avro_write meta schema (RowsV1 rows) = Ok bs -> mapM (store_v1 schema) rows = Some rows' -> avro_read_v1 schema bs = Ok rows';
  avro_read_v2_ok meta schema rows rows' bs :
    avro_write meta schema (RowsV2 rows) = Ok bs -> mapM (store_v2 schema) rows = Some rows' -> avro_read_v2 schema bs = Ok rows';
  avro_read_files_ok schema rows rows' bs :
    avro_write_files schema rows = Ok bs -> mapM (store_file schema) rows = Some rows' -> avro_read_files schema bs = Ok rows';
}.

Section files.
Context {O : HashOrder} {V : ValueLib} {LC : Lowercase} {U : UuidText} {J : JsonText} {N : AvroNames} {MJ : ManifestJson} {AM : AvroManifests}.

(** What [write_manifest_file] writes, and [Manifest::try_from_avro_bytes]. *)
Definition encode_entries (md : ManifestMetadata) (fields : list NestedField) (entries : list ManifestEntry) :
    result (list Z) :=
  let? schema := manifest_avro_schema (manifest_format_version md) fields in
  let? meta := user_metadata md in
  let? rows := rows_of_entries (manifest_format_version md) fields entries in
  avro_write meta schema rows.
(** The schema and the header, which are made before the summaries of the partitions. *)
Definition encode_header (md : ManifestMetadata) (fields : list NestedField) : result unit :=
  let? _ := manifest_avro_schema (manifest_format_version md) fields in
  let? _ := user_metadata md in Ok tt.
Definition try_from_avro_bytes (bs : list Z) : result (ManifestMetadata * list ManifestEntry) :=
  let? meta := avro_user_metadata bs in
  let? metadata := metadata_parse meta in
  let? fields := partition_type (manifest_partition_spec metadata) (manifest_schema metadata) in
  let? rows :=
    match manifest_format_version metadata with
    | V1 => let? schema := manifest_schema_v1 fields in RowsV1 <$> avro_read_v1 schema bs
    | V2 | V3 => let? schema := manifest_schema_v2 fields in RowsV2 <$> avro_read_v2 schema bs
    end in
  let? entries := entries_of_rows metadata fields rows in
  Ok (metadata, entries).

(** Files on their own (spec/manifest/data_file.rs); the records are those of version 1. *)
Definition data_file_schema (version : FormatVersion) (partition_type : list NestedField) : result Avro.t :=
  match version with
  | V1 => data_file_schema_v1 partition_type
  | V2 => data_file_schema_v2 partition_type
  | V3 => data_file_schema_v3 partition_type
  end.
Definition unwrap_schema (schema : result Avro.t) : result Avro.t := match schema with Ok s => Ok s | Err _ => Err Panic end.
Definition write_data_files_to_avro (data_files : list DataFile) (partition_type : list NestedField) (version : FormatVersion) :
    result (list Z) :=
  let? avro_schema := unwrap_schema (data_file_schema version partition_type) in
  let? rows := mapR (fun f => serde_of_file f partition_type V1) data_files in
  avro_write_files avro_schema rows.
Definition read_data_files_from_avro (bs : list Z) (schema : Schema) (partition_spec_id : Z) (partition_type : list NestedField)
    (version : FormatVersion) : result (list DataFile) :=
  let? avro_schema := unwrap_schema (data_file_schema version partition_type) in
  let? rows := avro_read_files avro_schema bs in
  mapR (fun f => file_of_serde f partition_spec_id partition_type schema) rows.
End files.

(** ** The schemas of manifests *)

Section schema_theory.
Context {LC : Lowercase} {V : ValueLib} {U : UuidText} {J : JsonText} {N : AvroNames}.

(** What the visitor makes of a field: its name, and a record of a required struct. *)
Definition visited_field (f : NestedField) (af : RecordField) : Prop :=
  avro_name af = field_name f
  /\ forall inner, field_type f = TStruct inner -> field_required f = true ->
       exists afs, avro_schema af = Avro.Record (record_id_name (field_id f)) afs
         /\ Schema.visit_type SchemaToAvroSchema (TStruct inner) tt = Ok (inl (Avro.Record "null" afs), tt).

Lemma visited_struct fields v s :
  visit_struct SchemaToAvroSchema fields tt = Ok (v, s) ->
  exists afs, v = inl (Avro.Record "null" afs)
    /\ Forall2 (fun f af => exists r, visit_struct_field SchemaToAvroSchema f tt = Ok (r, tt) /\ r = inr af) fields afs.
Proof.
  unfold visit_struct, mbind, sr_bind.
  destruct (mapSR (visit_struct_field SchemaToAvroSchema) fields tt) as [[results []]|] eqn:Hm; [|done].
  cbn [v_struct SchemaToAvroSchema]. unfold sr_lift, avro_struct.
  destruct (mapR unwrap_right results) as [afs|] eqn:Hu; [|done]. cbn [mbind result_bind]. unfold avro_record_schema.
  destruct (valid_name "null"); [|done]. cbn. intros [= <- <-]. exists afs. split; [done|].
  apply mapR_Ok in Hu. revert results Hm Hu. clear. revert afs.
  induction fields as [|f fields IH]; intros afs results Hm Hu.
  - cbn in Hm. injection Hm as <-. inversion Hu. constructor.
  - cbn [mapSR] in Hm. unfold mbind, sr_bind in Hm. destruct (visit_struct_field _ f tt) as [[r []]|] eqn:Hr; [|done].
    destruct (mapSR _ fields tt) as [[rest []]|] eqn:Hrest; [|done]. injection Hm as <-.
    inversion Hu as [|? af ? afs' Haf Hafs]; subst. constructor; [|by eapply IH].
    exists r. split; [done|]. destruct r; [done|]. by injection Haf as ->.
Qed.
Lemma visit_field_visited f af :
  visit_struct_field SchemaToAvroSchema f tt = Ok (inr af, tt) -> visited_field f af.
Proof.
  unfold visit_struct_field, mbind, sr_bind. cbn [before_struct_field after_struct_field SchemaToAvroSchema no_hook mret sr_ret v_field].
  destruct (Schema.visit_type _ (field_type f) tt) as [[v []]|] eqn:Hv; [|done]. unfold sr_lift.
  destruct (avro_field f v) as [r|] eqn:Hr; [|done]. intros [= ->]. unfold avro_field in Hr.
  apply bind_Ok in Hr as (schema & Hs & Hr). apply bind_Ok in Hr as (schema' & Hren & Hr). apply bind_Ok in Hr as (schema'' & Hopt & Hr).
  apply bind_Ok in Hr as (d & _ & [= <-]). split; [done|]. intros inner Hty Hreq. rewrite Hreq in Hopt. injection Hopt as <-.
  rewrite Hty in Hv. pose proof Hv as Hv'. rewrite visit_type_struct in Hv. apply visited_struct in Hv as (afs & -> & _).
  injection Hs as <-. cbn [rename_record] in Hren. destruct (valid_name _); [|done]. injection Hren as <-. by exists afs.
Qed.
Lemma avro_schema_visited name fields schema :
  avro_schema_of name fields = Ok schema -> exists afs, schema = Avro.Record name afs /\ Forall2 visited_field fields afs.
Proof.
  unfold avro_schema_of, schema_of_fields, build. cbn [b_reassign_field_ids_from].
  intros (sch & (sch' & Hb & [= <-])%bind_Ok & Hs)%bind_Ok.
  assert (as_struct sch' = fields) as Has.
  { unfold build_indexed in Hb. cbn [b_fields] in Hb. apply bind_Ok in Hb as (? & _ & Hb). apply bind_Ok in Hb as (? & _ & Hb).
    apply bind_Ok in Hb as ([] & _ & [= <-]). done. }
  unfold schema_to_avro_schema in Hs. rewrite Has in Hs. apply bind_Ok in Hs as ([v []] & Hv & Hs).
  apply visited_struct in Hv as (afs & -> & Hafs). cbn in Hs. destruct (valid_name name); [|done]. injection Hs as <-.
  exists afs. split; [done|]. eapply Forall2_impl; [exact Hafs|]. intros f af (r & Hr & ->). by apply visit_field_visited.
Qed.
Lemma inner_schema_visited inner afs :
  Schema.visit_type SchemaToAvroSchema (TStruct inner) tt = Ok (inl (Avro.Record "null" afs), tt) -> Forall2 visited_field inner afs.
Proof.
  rewrite visit_type_struct. intros (afs' & [= <-] & Hafs)%visited_struct.
  eapply Forall2_impl; [exact Hafs|]. intros f af (r & Hr & ->). by apply visit_field_visited.
Qed.

Definition named_field (fields : list NestedField) (name : string) : option NestedField :=
  List.find (fun f => bool_decide (field_name f = name)) fields.
Lemma schema_field_visited record_name fields afs name :
  Forall2 visited_field fields afs ->
  match named_field fields name with
  | Some f => exists af, schema_field (Avro.Record record_name afs) name = Some (avro_schema af) /\ visited_field f af
  | None => schema_field (Avro.Record record_name afs) name = None
  end.
Proof.
  unfold named_field, schema_field. induction 1 as [|f af fields afs Hf _ IH]; [done|]. cbn [List.find].
  assert (avro_name af = field_name f) as -> by apply Hf.
  case_bool_decide; [by exists af|exact IH].
Qed.
Lemma has_field_visited record_name fields afs name :
  Forall2 visited_field fields afs ->
  has_field (Avro.Record record_name afs) name = match named_field fields name with Some _ => true | None => false end.
Proof.
  intros H. unfold has_field. pose proof (schema_field_visited record_name fields afs name H) as Hs.
  destruct (named_field fields name); [by destruct Hs as (af & -> & _)|by rewrite Hs].
Qed.
Lemma kept_visited {A} record_name fields afs name (v missing : A) :
  Forall2 visited_field fields afs ->
  kept_field (Avro.Record record_name afs) name v missing = match named_field fields name with Some _ => v | None => missing end.
Proof. intros H. unfold kept_field. rewrite (has_field_visited _ _ _ _ H). by destruct (named_field fields name). Qed.
End schema_theory.

(** ** What is read back *)

Section roundtrip.
Context {O : HashOrder} {HL : HashOrderLaws O} {V : ValueLib} {LC : Lowercase} {LL : LowercaseLaws LC}.
Context {U : UuidText} {J : JsonText} {N : AvroNames} {MJ : ManifestJson} {AM : AvroManifests} {AML : AvroManifestsLaws AM}.

Lemma foldl_insert_rev {K A} `{Countable K} (l : list (K * A)) (m : gmap K A) :
  foldl (fun m e => <[fst e := snd e]> m) m l = list_to_map (rev l) ∪ m.
Proof using Type.
  revert m. induction l as [|e l IH]; intros m; cbn [foldl rev]; [by rewrite list_to_map_nil, (left_id_L ∅ (∪))|].
  rewrite IH, list_to_map_app. cbn [list_to_map foldr]. rewrite <- (assoc_L (∪)). f_equal.
  by rewrite <- insert_union_l, (left_id_L ∅ (∪)).
Qed.
Lemma foldl_insert_iter {K A} `{Countable K} (m : gmap K A) :
  foldl (fun m e => <[fst e := snd e]> m) ∅ (hash_iter m) = m.
Proof using HL.
  rewrite foldl_insert_rev, (right_id_L ∅ (∪)). rewrite <- (list_to_map_to_list m) at 2.
  pose proof (hash_iter_perm m) as Hp. symmetry.
  apply list_to_map_proper; [apply NoDup_fst_map_to_list|]. by rewrite <- Permutation_rev, Hp.
Qed.

Lemma filter_decide {A} (P : A -> Prop) `{forall x, Decision (P x)} (l : list A) :
  List.filter (fun x => bool_decide (P x)) l = filter P l.
Proof using Type.
  induction l as [|x l IH]; cbn [List.filter]; [done|]. rewrite filter_cons, IH.
  by destruct (decide (P x)); [rewrite bool_decide_eq_true_2|rewrite bool_decide_eq_false_2].
Qed.
Lemma foldl_insert_filter {K A} `{Countable K} (P : K * A -> Prop) `{forall x, Decision (P x)} (m : gmap K A) :
  foldl (fun m e => <[fst e := snd e]> m) ∅ (List.filter (fun e => bool_decide (P e)) (hash_iter m)) = filter P m.
Proof using HL.
  rewrite foldl_insert_rev, (right_id_L ∅ (∪)), map_filter_alt, filter_decide.
  pose proof (hash_iter_perm m) as Hp.
  assert (NoDup (filter P (map_to_list m)).*1) as Hnd.
  { apply NoDup_fmap_fst; [|apply NoDup_filter, NoDup_map_to_list].
    intros k x y [_ Hx]%list_elem_of_filter [_ Hy]%list_elem_of_filter.
    apply elem_of_map_to_list in Hx, Hy. congruence. }
  symmetry. apply list_to_map_proper; [done|]. by rewrite <- Permutation_rev, Hp.
Qed.

Lemma counts_roundtrip m es :
  map_Forall (fun _ v => 0 <= v) m -> to_i64_entry m = Ok es -> parse_i64_entry es = m.
Proof using HL.
  intros Hv E. assert (es = hash_iter m) as ->.
  { unfold to_i64_entry in E. apply mapR_Ok in E. induction E as [|e e' l l' He _ IH]; [done|].
    apply bind_Ok in He as (v & ->%to_signed_Ok & [= <-]). by destruct e; cbn; rewrite IH. }
  rewrite <- (foldl_insert_iter m) at 2. unfold parse_i64_entry.
  assert (Forall (fun e => 0 <= snd e) (hash_iter m)) as Hl.
  { rewrite (hash_iter_perm m). apply Forall_forall. intros [k v] Hin%elem_of_map_to_list. by apply (Hv k). }
  clear E. generalize (∅ : gmap Z Z) as acc. induction Hl as [|e l He _ IH]; intros acc; cbn [foldl]; [done|].
  rewrite (proj2 (Z.leb_le _ _) He). apply IH.
Qed.

(** The field a bound belongs to, in the schema or among the metadata columns. *)
Definition bound_field (schema : Schema) (id : Z) : option NestedField :=
  match field_by_id schema id with
  | Some f => Some f
  | None => match get_metadata_field id with Ok f => Some f | Err _ => None end
  end.
Definition known_bounds (schema : Schema) (m : gmap Z Datum) : gmap Z Datum :=
  filter (fun e => is_Some (bound_field schema e.1)) m.
(** A bound of a known field is a value of its type. *)
Definition bounds_fit (schema : Schema) (m : gmap Z Datum) : Prop :=
  map_Forall (fun id d => forall f, bound_field schema id = Some f ->
                field_type f = TPrimitive (datum_type d) /\ datum_wf d = true /\ decimal_fits d = true) m.

Lemma bounds_roundtrip schema m es :
  bounds_fit schema m -> to_bytes_entry m = Ok es -> parse_bytes_entry es schema = Ok (known_bounds schema m).
Proof using HL.
  intros Hfit E. unfold to_bytes_entry in E. apply mapR_Ok in E.
  assert (Hl : Forall (fun e => forall f, bound_field schema e.1 = Some f ->
             field_type f = TPrimitive (datum_type e.2) /\ datum_wf e.2 = true /\ decimal_fits e.2 = true)
            (hash_iter m)).
  { rewrite (hash_iter_perm m). apply Forall_forall. intros [k d] Hin%elem_of_map_to_list. by apply (Hfit k). }
  assert (Hstep : forall acc : gmap Z Datum,
    try_fold (fun m e =>
              let field := bound_field schema (fst e) in
              match field with
              | Some f =>
                  let? data_type := ok_or (as_primitive_type (field_type f)) DataInvalid in
                  let? d := try_from_bytes (snd e) data_type in
                  Ok (<[fst e := d]> m)
              | None => Ok m
              end) acc es
    = Ok (foldl (fun (m : gmap Z Datum) e => <[fst e := snd e]> m) acc
            (List.filter (fun e => bool_decide (is_Some (bound_field schema (fst e)))) (hash_iter m)))).
  { revert Hl. induction E as [|e e' l l' He _ IH]; intros Hl acc; cbn [try_fold List.filter]; [done|].
    apply Forall_cons in Hl as [H1 Hl]. apply bind_Ok in He as (bs & Hbs & [= <-]). cbn [fst snd].
    destruct (bound_field schema e.1) as [f|] eqn:Ef; cbn [bool_decide].
    - rewrite bool_decide_eq_true_2 by by eexists. destruct (H1 f eq_refl) as (Ht & Hw & Hd).
      rewrite Ht. cbn [as_primitive_type ok_or mbind result_bind].
      destruct (datum_roundtrip e.2 Hw Hd) as (bs' & E1 & E2). rewrite Hbs in E1. injection E1 as <-.
      rewrite E2. cbn [mbind result_bind foldl]. by apply IH.
    - rewrite bool_decide_eq_false_2 by by intros []. by apply IH. }
  unfold parse_bytes_entry. etransitivity; [exact (Hstep ∅)|]. f_equal.
  apply (foldl_insert_filter (fun e => is_Some (bound_field schema e.1))).
Qed.

Record file_fits (schema : Schema) (fields : list NestedField) (f : DataFile) : Prop := {
  ff_partition : tuple_fits fields (partition f);
  ff_rows : 0 <= record_count f;
  ff_size : 0 <= file_size_in_bytes f;
  ff_sizes : map_Forall (fun _ v => 0 <= v) (column_sizes f);
  ff_values : map_Forall (fun _ v => 0 <= v) (value_counts f);
  ff_nulls : map_Forall (fun _ v => 0 <= v) (null_value_counts f);
  ff_nans : map_Forall (fun _ v => 0 <= v) (nan_value_counts f);
  ff_lower : bounds_fit schema (lower_bounds f);
  ff_upper : bounds_fit schema (upper_bounds f);
}.
(** The stored record of a file. *)
Definition manifest_file_fields (version : FormatVersion) (pt : list NestedField) : list NestedField :=
  match version with V1 => data_file_fields_v1 pt | V2 | V3 => data_file_fields_v2 pt end.
Definition only_later {A} (version : FormatVersion) (v missing : A) : A := match version with V1 => missing | V2 | V3 => v end.
Definition stored_record (version : FormatVersion) (raw : RawLiteral.t) (f : DataFileSerde) : DataFileSerde :=
  mkDataFileSerde (only_later version (s_content f) 0) (s_file_path f) (s_file_format f) raw (s_record_count f)
    (s_file_size_in_bytes f) None (s_column_sizes f) (s_value_counts f) (s_null_value_counts f)
    (s_nan_value_counts f) (s_lower_bounds f) (s_upper_bounds f) (s_key_metadata f) (s_split_offsets f)
    (only_later version (s_equality_ids f) None) (s_sort_order_id f) (only_later version (s_first_row_id f) None)
    (only_later version (s_referenced_data_file f) None) (only_later version (s_content_offset f) None)
    (only_later version (s_content_size_in_bytes f) None).
Lemma file_stored version pt n afs f raw schema :
  Forall2 visited_field (manifest_file_fields version pt) afs ->
  schema_field (Avro.Record n afs) "partition" = Some schema -> store schema (s_partition f) = Some raw ->
  store_file (Avro.Record n afs) f = Some (stored_record version raw f).
Proof using Type.
  intros H Hp Hraw. unfold store_file. rewrite Hp. cbn [mbind option_bind]. rewrite Hraw. cbn [mbind option_bind forallb].
  rewrite !(has_field_visited _ _ _ _ H), !(kept_visited _ _ _ _ _ _ H). by destruct version.
Qed.
Lemma partition_schema version pt n afs p :
  Forall2 visited_field (manifest_file_fields version pt) afs -> tuple_type pt -> tuple_fits pt p ->
  exists inner, schema_field (Avro.Record n afs) "partition" = Some (Avro.Record (record_id_name 102) inner)
    /\ Forall2 column_schema pt inner.
Proof using Type.
  intros H Ht Hp. pose proof (schema_field_visited n _ _ "partition" H) as Hs.
  assert (named_field (manifest_file_fields version pt) "partition" = Some (partition_field pt)) as E by (by destruct version).
  rewrite E in Hs. destruct Hs as (af & -> & _ & Haf). destruct (Haf pt eq_refl eq_refl) as (inner & -> & Hv).
  exists inner. split; [done|]. destruct (tuple_schema pt tt (inl (Avro.Record "null" inner))) as (inner' & [= <-] & Hc); [|exact Hv|done].
  pose proof (tt_optional _ Ht) as Ho. clear -Ho Hp. induction Hp as [|v f p pt (ty & Hty & _) _ IH]; [constructor|].
  apply Forall_cons in Ho as [[Hr Hd] Ho]. constructor; [|by apply IH]. split; [done|]. split; [done|]. by exists ty.
Qed.

(** A file as it is read: of the spec of its manifest, with the bounds of known fields; the
    first version has data files only, and nothing of deletes and row ids. *)
Definition stored_file (version : FormatVersion) (schema : Schema) (spec : Z) (f : DataFile) : DataFile :=
  mkDataFile (only_later version (content f) Data) (file_path f) (file_format f) (partition f) (record_count f)
    (file_size_in_bytes f) (column_sizes f) (value_counts f) (null_value_counts f) (nan_value_counts f)
    (known_bounds schema (lower_bounds f)) (known_bounds schema (upper_bounds f)) (key_metadata f)
    (split_offsets f) (only_later version (equality_ids f) None) (sort_order_id f)
    (only_later version (DataFile.first_row_id f) None) spec (only_later version (referenced_data_file f) None)
    (only_later version (content_offset f) None) (only_later version (content_size_in_bytes f) None).

Lemma file_format_roundtrip f : format_of_text (to_ascii_uppercase (format_text f)) = Ok f.
Proof using LL. unfold format_of_text. rewrite lowercase_format. by destruct f. Qed.
Lemma file_content_roundtrip c : file_content_of_code (file_content_code c) = Ok c.
Proof using Type. by destruct c. Qed.
Lemma status_roundtrip st : status_of_code (status_code st) = Ok st.
Proof using Type. by destruct st. Qed.

Lemma serde_stored f fields version schema_version written n afs schema spec :
  file_fits schema fields f -> tuple_type fields -> serde_of_file f fields version = Ok written ->
  Forall2 visited_field (manifest_file_fields schema_version fields) afs ->
  exists r, store_file (Avro.Record n afs) written = Some r
    /\ file_of_serde r spec fields schema = Ok (stored_file schema_version schema spec f).
Proof using HL LL.
  intros F Htt. unfold serde_of_file. intros (raw & Hraw & E)%bind_Ok Hafs.
  destruct (partition_schema _ _ n _ _ Hafs Htt (ff_partition _ _ _ F)) as (inner & Hp & Hcols).
  destruct (tuple_kept (record_id_name 102) _ _ _ _ Htt (ff_partition _ _ _ F) Hcols Hraw) as (raw' & Hstore & Hread).
  apply bind_Ok in E as (rows & ->%to_signed_Ok & E). apply bind_Ok in E as (size & ->%to_signed_Ok & E).
  apply bind_Ok in E as (cs & Hcs & E). apply bind_Ok in E as (vc & Hvc & E).
  apply bind_Ok in E as (nc & Hnc & E). apply bind_Ok in E as (nan & Hnan & E).
  apply bind_Ok in E as (lo & Hlo & E). apply bind_Ok in E as (up & Hup & [= <-]).
  eexists. split; [by eapply file_stored|]. unfold file_of_serde, stored_record. cbn [s_partition s_content s_file_format s_record_count
    s_file_size_in_bytes s_lower_bounds s_upper_bounds s_column_sizes s_value_counts s_null_value_counts s_nan_value_counts].
  rewrite Hread. cbn [mbind result_bind].
  assert (file_content_of_code (only_later schema_version (file_content_code (content f)) 0)
          = Ok (only_later schema_version (content f) Data)) as -> by (destruct schema_version; [done|apply file_content_roundtrip..]).
  rewrite file_format_roundtrip.
  rewrite (to_unsigned_Ok _ (ff_rows _ _ _ F)), (to_unsigned_Ok _ (ff_size _ _ _ F)).
  cbn [transpose mbind result_bind].
  rewrite (bounds_roundtrip _ _ _ (ff_lower _ _ _ F) Hlo), (bounds_roundtrip _ _ _ (ff_upper _ _ _ F) Hup).
  cbn [fmap result_fmap mbind result_bind option_fmap option_map default].
  by rewrite (counts_roundtrip _ _ (ff_sizes _ _ _ F) Hcs), (counts_roundtrip _ _ (ff_values _ _ _ F) Hvc),
    (counts_roundtrip _ _ (ff_nulls _ _ _ F) Hnc), (counts_roundtrip _ _ (ff_nans _ _ _ F) Hnan).
Qed.

(** An entry as it is read: the first version keeps no sequence numbers. *)
Definition stored_entry (md : ManifestMetadata) (e : ManifestEntry) : ManifestEntry :=
  let file := stored_file (manifest_format_version md) (manifest_schema md) (spec_id (manifest_partition_spec md)) (data_file e) in
  match manifest_format_version md with
  | V1 => mkManifestEntry (status e) (Some (default 0 (entry_snapshot_id e))) (Some 0) (Some 0) file
  | _ => mkManifestEntry (status e) (entry_snapshot_id e) (entry_sequence_number e) (file_sequence_number e) file
  end.

Definition manifest_fields (version : FormatVersion) (pt : list NestedField) : list NestedField :=
  let file := mkField 2 "data_file" true (TStruct (manifest_file_fields version pt)) in
  match version with
  | V1 => [STATUS; SNAPSHOT_ID_V1; file]
  | V2 | V3 => [STATUS; SNAPSHOT_ID_V2; SEQUENCE_NUMBER; FILE_SEQUENCE_NUMBER; file]
  end.
Lemma manifest_schema_visited version pt schema :
  manifest_avro_schema version pt = Ok schema ->
  exists n afs m fafs, schema = Avro.Record n afs /\ Forall2 visited_field (manifest_fields version pt) afs
    /\ schema_field schema "data_file" = Some (Avro.Record m fafs)
    /\ Forall2 visited_field (manifest_file_fields version pt) fafs.
Proof using Type.
  intros H. assert (avro_schema_of "manifest_entry" (manifest_fields version pt) = Ok schema) as H' by (by destruct version).
  apply avro_schema_visited in H' as (afs & -> & Hafs). exists "manifest_entry"%string, afs.
  pose proof (schema_field_visited "manifest_entry" _ _ "data_file" Hafs) as Hs.
  assert (named_field (manifest_fields version pt) "data_file"
          = Some (mkField 2 "data_file" true (TStruct (manifest_file_fields version pt)))) as E by (by destruct version).
  rewrite E in Hs. destruct Hs as (af & -> & _ & Haf). destruct (Haf _ eq_refl eq_refl) as (fafs & -> & Hv).
  exists (record_id_name 2), fafs. split; [done|]. split; [done|]. split; [done|]. by apply inner_schema_visited.
Qed.

Lemma entry_stored_v1 md fields schema e r :
  manifest_format_version md = V1 -> manifest_avro_schema V1 fields = Ok schema -> tuple_type fields ->
  file_fits (manifest_schema md) fields (data_file e) -> entry_to_v1 e fields = Ok r ->
  exists r', store_v1 schema r = Some r'
    /\ entry_of_v1 r' (spec_id (manifest_partition_spec md)) fields (manifest_schema md) = Ok (stored_entry md e).
Proof using HL LL.
  intros Hv Hs Ht Hf (file & Hfile & [= <-])%bind_Ok.
  destruct (manifest_schema_visited _ _ _ Hs) as (n & afs & m & fafs & -> & Hafs & Hdf & Hfafs).
  destruct (serde_stored _ _ _ V1 _ m _ _ (spec_id (manifest_partition_spec md)) Hf Ht Hfile Hfafs) as (r' & Hr & Hread).
  eexists. unfold store_v1. rewrite Hdf. cbn [mbind option_bind e1_data_file]. rewrite Hr. cbn [mbind option_bind forallb].
  rewrite !(has_field_visited _ _ _ _ Hafs). split; [done|]. unfold entry_of_v1, stored_entry. cbn [e1_status e1_snapshot_id e1_data_file].
  rewrite Hv, status_roundtrip, Hread. done.
Qed.
Lemma entry_stored_v2 md fields schema e r :
  manifest_format_version md <> V1 -> manifest_avro_schema (manifest_format_version md) fields = Ok schema -> tuple_type fields ->
  file_fits (manifest_schema md) fields (data_file e) -> entry_to_v2 e fields = Ok r ->
  exists r', store_v2 schema r = Some r'
    /\ entry_of_v2 r' (spec_id (manifest_partition_spec md)) fields (manifest_schema md) = Ok (stored_entry md e).
Proof using HL LL.
  intros Hv Hs Ht Hf (file & Hfile & [= <-])%bind_Ok.
  destruct (manifest_schema_visited _ _ _ Hs) as (n & afs & m & fafs & -> & Hafs & Hdf & Hfafs).
  destruct (serde_stored _ _ _ _ _ m _ _ (spec_id (manifest_partition_spec md)) Hf Ht Hfile Hfafs) as (r' & Hr & Hread).
  eexists. unfold store_v2. rewrite Hdf. cbn [mbind option_bind e2_data_file]. rewrite Hr. cbn [mbind option_bind].
  rewrite !(has_field_visited _ _ _ _ Hafs), !(kept_visited _ _ _ _ _ _ Hafs). unfold stored_entry.
  destruct (manifest_format_version md) eqn:Ev; [done|..]; (split; [done|]); unfold entry_of_v2;
    cbn [e2_status e2_snapshot_id e2_sequence_number e2_file_sequence_number e2_data_file named_field]; by rewrite status_roundtrip, Hread.
Qed.
Lemma all_stored {A B C} (convert : A -> result B) (stores : B -> option B) (back : B -> result C) (want : A -> C) (l : list A) rows :
  Forall (fun e => forall r, convert e = Ok r -> exists r', stores r = Some r' /\ back r' = Ok (want e)) l ->
  mapR convert l = Ok rows -> exists rows', mapM stores rows = Some rows' /\ mapR back rows' = Ok (want <$> l).
Proof using Type.
  intros Hl H%mapR_Ok. induction H as [|e r l rows He _ IH]; [by exists []|].
  apply Forall_cons in Hl as [H1 Hl]. destruct (H1 r He) as (r' & Hr & Hb). destruct (IH Hl) as (rows' & Hrows & Hback).
  exists (r' :: rows'). cbn. rewrite Hr. cbn. rewrite Hrows, Hb. cbn. by rewrite Hback.
Qed.

(** *** The header *)

(** What a header needs to be read back: the JSON forms of its schema and fields are, its spec
    binds to its schema, and what is not written is what a reader assumes. *)
Record header_kept (md : ManifestMetadata) : Prop := {
  hk_schema j : schema_to_json (manifest_schema md) = Ok j -> schema_from_json j = Ok (manifest_schema md);
  hk_fields j : fields_to_json (spec_fields (manifest_partition_spec md)) = Ok j ->
    fields_from_json j = Ok (spec_fields (manifest_partition_spec md));
  hk_binds : exists spec, unbound_bind (into_unbound (manifest_partition_spec md)) (manifest_schema md) = Ok spec;
  hk_field_ids : Forall (fun f => partition_field_id f <= I32_MAX) (spec_fields (manifest_partition_spec md));
  hk_schema_id : manifest_schema_id md = schema_id (manifest_schema md) /\ inS 32 (manifest_schema_id md) = true;
  hk_spec_id : inS 32 (spec_id (manifest_partition_spec md)) = true;
  hk_content : manifest_format_version md = V1 -> metadata_content md = MData;
}.

Lemma rebound spec schema spec' :
  Forall (fun f => partition_field_id f <= I32_MAX) (spec_fields spec) ->
  unbound_bind (into_unbound spec) schema = Ok spec' -> spec' = spec /\ valid_unbound schema (u_fields (into_unbound spec)).
Proof using Type.
  intros Hids Hb. pose proof (bind_validates (into_unbound spec) schema) as H. rewrite Hb in H.
  destruct H as (Hv & Hid & Hfields & _).
  { intros u id Hu Hid. cbn in Hu. apply list_elem_of_fmap in Hu as (f & -> & Hf). cbn in Hid. injection Hid as <-.
    rewrite Forall_forall in Hids. by apply Hids. }
  split; [|done]. cbn in Hid. destruct spec as [id fields], spec' as [id' fields']. cbn in *. subst id'. f_equal.
  clear Hv Hb Hids. revert fields' Hfields. unfold assigned_ids.
  generalize (list_to_set (omap u_field_id (into_unbound_field <$> fields)) : gset Z) as ids. intros ids.
  induction fields as [|f fields IH]; intros fields' H; inversion H as [|? f' ? ? [Hs Hn Ht Hi] Hrest]; subst; [done|].
  f_equal; [|by apply IH]. destruct f, f'. cbn in *. congruence.
Qed.
Lemma header_roundtrip md meta :
  header_kept md -> user_metadata md = Ok meta -> metadata_parse meta = Ok md.
Proof using Type.
  intros [Hsj Hfj (spec & Hb) Hids [Hsid Hsid32] Hspid Hc] H. unfold user_metadata in H.
  apply bind_Ok in H as (sj & Es & H). apply bind_Ok in H as (fj & Ef & [= <-]).
  destruct (rebound _ _ _ Hids Hb) as [-> _].
  set (m := header_entries md sj fj).
  assert (forall k v, k <> "content"%string -> m !! k = v ->
            (match manifest_format_version md with V1 => m | V2 | V3 => <["content"%string := content_text (metadata_content md)]> m end)
            !! k = v) as Hl.
  { intros k v Hk Hm. destruct (manifest_format_version md); [done|rewrite lookup_insert_ne; done..]. }
  unfold metadata_parse.
  rewrite (Hl "schema"%string (Some sj)), (Hl "schema-id"%string (Some (text (to_string_i (schema_id (manifest_schema md)))))) by done.
  rewrite (Hl "partition-spec"%string (Some fj)) by done.
  rewrite (Hl "partition-spec-id"%string (Some (text (to_string_i (spec_id (manifest_partition_spec md)))))) by done.
  rewrite (Hl "format-version"%string (Some (text (to_string_u (version_number (manifest_format_version md)))))) by done.
  cbn [ok_or mbind result_bind]. rewrite (Hsj _ Es), (Hfj _ Ef). cbn [mbind result_bind].
  rewrite !parse_signed_text by congruence. cbn [ok_or mbind result_bind].
  unfold unbound_bind, new_from_unbound in Hb. cbn [into_unbound u_spec_id u_fields default] in Hb.
  apply bind_Ok in Hb as (b & Hb1 & Hb2). cbn in Hb1. rewrite Hb1. cbn [mbind result_bind]. rewrite Hb2. cbn [mbind result_bind].
  assert (version_from_json (text (to_string_u (version_number (manifest_format_version md)))) = Ok (manifest_format_version md)) as ->
    by (by destruct (manifest_format_version md)).
  cbn [mbind result_bind].
  destruct md as [schema sid spec v content]. cbn in *. subst sid. destruct v; cbn.
  - by rewrite Hc.
  - rewrite lookup_insert_eq. by destruct content.
  - rewrite lookup_insert_eq. by destruct content.
Qed.
Lemma partition_tuple_type spec schema fields :
  NoDup (partition_name <$> spec_fields spec) -> partition_type spec schema = Ok fields -> tuple_type fields.
Proof using Type.
  unfold partition_type. intros Hnd H%mapR_Ok.
  assert (field_name <$> fields = partition_name <$> spec_fields spec) as E.
  { clear Hnd. induction H as [|p f ps fs Hp _ IH]; [done|]. cbn. f_equal; [|exact IH].
    apply bind_Ok in Hp as (? & _ & Hp). by apply bind_Ok in Hp as (? & _ & [= <-]). }
  split; [|by rewrite E]. clear E Hnd. induction H as [|p f ps fs Hp _ IH]; constructor; [|done].
  apply bind_Ok in Hp as (? & _ & Hp). by apply bind_Ok in Hp as (? & _ & [= <-]).
Qed.
Lemma header_tuple_type md fields :
  header_kept md -> partition_type (manifest_partition_spec md) (manifest_schema md) = Ok fields -> tuple_type fields.
Proof using Type.
  intros H Hf. destruct (hk_binds _ H) as (spec & Hb). destruct (rebound _ _ _ (hk_field_ids _ H) Hb) as [-> Hv].
  eapply partition_tuple_type; [|exact Hf]. pose proof (vu_names _ _ Hv) as Hn. cbn in Hn.
  by rewrite <- list_fmap_compose in Hn.
Qed.

Lemma entries_read_back md fields entries bs :
  header_kept md -> partition_type (manifest_partition_spec md) (manifest_schema md) = Ok fields ->
  Forall (fun e => file_fits (manifest_schema md) fields (data_file e)) entries ->
  encode_entries md fields entries = Ok bs ->
  try_from_avro_bytes bs = Ok (md, stored_entry md <$> entries).
Proof using HL LL AML.
  intros Hh Hfields Hf E. pose proof (header_tuple_type _ _ Hh Hfields) as Ht. unfold encode_entries in E.
  apply bind_Ok in E as (schema & Hs & E). apply bind_Ok in E as (meta & Hm & E). apply bind_Ok in E as (rows & Hr & Hw).
  unfold try_from_avro_bytes. rewrite (avro_write_metadata _ _ _ _ Hw). cbn [mbind result_bind].
  rewrite (header_roundtrip _ _ Hh Hm). cbn [mbind result_bind]. rewrite Hfields. cbn [mbind result_bind].
  unfold rows_of_entries in Hr. destruct (manifest_format_version md) eqn:Ev.
  - apply fmap_Ok in Hr as (l & Hl & <-).
    destruct (all_stored (fun e => entry_to_v1 e fields) (store_v1 schema) (fun r => entry_of_v1 r (spec_id (manifest_partition_spec md)) fields (manifest_schema md))
                (stored_entry md) entries l) as (l' & Hst & Hback); [|exact Hl|].
    { eapply Forall_impl; [exact Hf|]. intros e He r Hr. by eapply entry_stored_v1. }
    cbn [manifest_avro_schema] in Hs. rewrite Hs. cbn [mbind result_bind]. rewrite (avro_read_v1_ok _ _ _ _ _ Hw Hst). cbn. by rewrite Hback.
  - apply fmap_Ok in Hr as (l & Hl & <-).
    destruct (all_stored (fun e => entry_to_v2 e fields) (store_v2 schema) (fun r => entry_of_v2 r (spec_id (manifest_partition_spec md)) fields (manifest_schema md))
                (stored_entry md) entries l) as (l' & Hst & Hback); [|exact Hl|].
    { eapply Forall_impl; [exact Hf|]. intros e He r Hr. eapply entry_stored_v2; try done; by rewrite Ev. }
    cbn [manifest_avro_schema] in Hs. rewrite Hs. cbn [mbind result_bind]. rewrite (avro_read_v2_ok _ _ _ _ _ Hw Hst). cbn. by rewrite Hback.
  - apply fmap_Ok in Hr as (l & Hl & <-).
    destruct (all_stored (fun e => entry_to_v2 e fields) (store_v2 schema) (fun r => entry_of_v2 r (spec_id (manifest_partition_spec md)) fields (manifest_schema md))
                (stored_entry md) entries l) as (l' & Hst & Hback); [|exact Hl|].
    { eapply Forall_impl; [exact Hf|]. intros e He r Hr. eapply entry_stored_v2; try done; by rewrite Ev. }
    cbn [manifest_avro_schema] in Hs. rewrite Hs. cbn [mbind result_bind]. rewrite (avro_read_v2_ok _ _ _ _ _ Hw Hst). cbn. by rewrite Hback.
Qed.

(** C27 A manifest that was written is parsed as its header and its entries as they are stored.
    In versions 2 and 3 that is all of an entry but the bounds of columns that the schema does
    not have, which are left out; version 1 also keeps no sequence numbers, content type,
    equality ids, row ids, references to data files nor offsets of content.  The files are
    well formed, with bounds of the types of their columns, and their partition values are of
    types other than UUID and timestamps of nanoseconds; the partition spec of the header
    binds to its schema, and the JSON forms of both, which are not modelled, are read back. *)
Theorem manifest_roundtrip md fields entries bs :
  header_kept md -> partition_type (manifest_partition_spec md) (manifest_schema md) = Ok fields ->
  Forall (fun e => file_fits (manifest_schema md) fields (data_file e)) entries ->
  encode_entries md fields entries = Ok bs ->
  try_from_avro_bytes bs = Ok (md, stored_entry md <$> entries).
Proof using HL LL AML. apply entries_read_back. Qed.

(** Files that are written on their own are read as a manifest of the version reads them, of the
    spec that the reader gives. *)
Theorem data_files_roundtrip version pt schema spec files bs :
  tuple_type pt -> Forall (file_fits schema pt) files -> write_data_files_to_avro files pt version = Ok bs ->
  read_data_files_from_avro bs schema spec pt version = Ok (stored_file version schema spec <$> files).
Proof using HL LL AML.
  intros Ht Hf E. unfold write_data_files_to_avro in E. unfold read_data_files_from_avro.
  destruct (data_file_schema version pt) as [avro|] eqn:Es; [|done]. cbn [unwrap_schema mbind result_bind] in *.
  apply bind_Ok in E as (rows & Hrows & Hw).
  assert (avro_schema_of "data_file" (manifest_file_fields version pt) = Ok avro) as Es' by (by destruct version).
  apply avro_schema_visited in Es' as (afs & -> & Hafs).
  destruct (all_stored (fun f => serde_of_file f pt V1) (store_file (Avro.Record "data_file" afs))
              (fun r => file_of_serde r spec pt schema) (stored_file version schema spec) files rows) as (rows' & Hst & Hback); [|done|].
  - eapply Forall_impl; [exact Hf|]. intros f Hff r Hr. by eapply serde_stored.
  - rewrite (avro_read_files_ok _ _ _ _ Hw Hst). exact Hback.
Qed.
End roundtrip.

(** *** Where the code departs from its purpose

    A partition value that is a timestamp of nanoseconds is written, and no file with it can be
    read: no raw literal is converted to the type. *)
Theorem nanosecond_partition_unreadable {V : ValueLib} {J : JsonText} {N : AvroNames} v ty :
  ty ∈ [PrimitiveType.TimestampNs; PrimitiveType.TimestamptzNs] ->
  exists raw, raw_of_primitive (PrimitiveLiteral.Long v) = Ok raw /\ avro_primitive ty = Ok Avro.TimestampNanos
    /\ store Avro.TimestampNanos raw = Some raw /\ raw_try_into raw (TPrimitive ty) = Err (Error DataInvalid).
Proof. intros [->| ->%list_elem_of_singleton]%elem_of_cons; by eexists. Qed.

(** ** Witness

    The manifest of the writer's example; an avro file is the place of its content in a table, and
    the JSON forms are those of one schema and spec. *)

#[global] Instance DataFileSerde_eq_dec : EqDecision DataFileSerde.
Proof. solve_decision. Defined.
#[global] Instance ManifestEntryV1_eq_dec : EqDecision ManifestEntryV1.
Proof. solve_decision. Defined.
#[global] Instance ManifestEntryV2_eq_dec : EqDecision ManifestEntryV2.
Proof. solve_decision. Defined.
#[global] Instance ManifestRows_eq_dec : EqDecision ManifestRows.
Proof. solve_decision. Defined.

Definition in_table {A} (table : list A) (bs : list Z) : option A :=
  match bs with [i] => table !! Z.to_nat i | _ => None end.
Definition place {A} `{EqDecision A} (table : list A) (a : A) : result (list Z) :=
  match list_find (eq a) table with Some (i, _) => Ok [Z.of_nat i] | None => Err (Error Unexpected) end.
Lemma place_in {A} `{EqDecision A} (table : list A) a bs : place table a = Ok bs -> in_table table bs = Some a.
Proof.
  unfold place. destruct (list_find _ table) as [[i b]|] eqn:E; [|done]. intros [= <-].
  apply list_find_Some in E as (Hi & -> & _). cbn. by rewrite Nat2Z.id.
Qed.
Definition read_stored {A B} (stores : A -> option B) (rows : list A) : result (list B) := ok_or (mapM stores rows) DataInvalid.
Definition table_avro (table : list (gmap string string * ManifestRows)) (files : list (list DataFileSerde)) : AvroManifests := {|
  avro_write meta _ rows := place table (meta, rows);
  avro_user_metadata bs := fst <$> ok_or (in_table table bs) DataInvalid;
  avro_read_v1 schema bs :=
    match in_table table bs with Some (_, RowsV1 rows) => read_stored (store_v1 schema) rows | _ => Err (Error DataInvalid) end;
  avro_read_v2 schema bs :=
    match in_table table bs with Some (_, RowsV2 rows) => read_stored (store_v2 schema) rows | _ => Err (Error DataInvalid) end;
  avro_write_files _ rows := place files rows;
  avro_read_files schema bs :=
    match in_table files bs with Some rows => read_stored (store_file schema) rows | _ => Err (Error DataInvalid) end;
|}.
#[global] Instance table_avro_laws table files : AvroManifestsLaws (table_avro table files).
Proof.
  split; cbn.
  - by intros meta _ rows bs ->%place_in.
  - intros meta schema rows rows' bs ->%place_in H. unfold read_stored. by rewrite H.
  - intros meta schema rows rows' bs ->%place_in H. unfold read_stored. by rewrite H.
  - intros schema rows rows' bs ->%place_in H. unfold read_stored. by rewrite H.
Qed.
Definition plain_json_text {V : ValueLib} : JsonText := {|
  date_text _ := None; parse_date _ := None; time_text _ := []; parse_time _ := None; datetime_text _ := [];
  parse_datetime _ := None; from_timestamp _ _ := true; decimal_display _ := []; decimal_from_str_exact _ := None;
  decimal_rescale d _ := d;
|}.
Definition any_name : AvroNames := fun _ => true.
Definition one_json (schema : Schema) (fields : list PartitionField) : ManifestJson := {|
  schema_to_json _ := Ok "schema"%string; schema_from_json _ := Ok schema;
  fields_to_json _ := Ok "fields"%string; fields_from_json _ := Ok fields;
|}.
#[global] Instance concrete_lowercase_laws : LowercaseLaws concrete_lowercase.
Proof. split. by intros []. Qed.

Section witness.
#[local] Existing Instance concrete_values.
#[local] Existing Instance concrete_lowercase.
#[local] Existing Instance numeral_uuid.
#[local] Existing Instance plain_json_text.
#[local] Existing Instance any_name.
#[local] Instance ex_json : ManifestJson :=
  one_json (manifest_schema (writer_metadata ex_writer)) (spec_fields (manifest_partition_spec (writer_metadata ex_writer))).

Definition ex_stored_fields : list NestedField := [mkField 1000 "a" false (TPrimitive PrimitiveType.Int)].
Definition ex_stored_rows : ManifestRows :=
  ok_value (RowsV1 []) (rows_of_entries V2 ex_stored_fields (manifest_entries ex_writer)).
Definition ex_meta : gmap string string := ok_value ∅ (user_metadata (writer_metadata ex_writer)).
#[local] Instance ex_avro : AvroManifests := table_avro [(ex_meta, ex_stored_rows)] [].

Lemma ex_header_kept : header_kept (writer_metadata ex_writer).
Proof.
  split; try done.
  - eexists. vm_compute. reflexivity.
  - by repeat constructor.
Qed.

Lemma ex_file_fits tuple :
  tuple_fits ex_stored_fields tuple ->
  file_fits (manifest_schema (writer_metadata ex_writer)) ex_stored_fields (ex_file_in tuple).
Proof.
  intros Hp. split; [done|..]; cbn [ex_file_in record_count file_size_in_bytes column_sizes value_counts
    null_value_counts nan_value_counts lower_bounds upper_bounds];
    try done; try apply map_Forall_empty; try (by apply map_Forall_singleton).
  all: apply map_Forall_singleton; intros f Hf; vm_compute in Hf; injection Hf as <-; by vm_compute.
Qed.
Lemma ex_tuple_fits (o : option Z) :
  match o with Some n => datum_wf (datum_int n) = true | None => True end ->
  tuple_fits ex_stored_fields [(fun n => LPrimitive (PrimitiveLiteral.Int n)) <$> o].
Proof.
  intros Hw. repeat constructor. exists PrimitiveType.Int. split; [done|].
  destruct o as [n|]; [|done]. intros l [= <-]. exists (PrimitiveLiteral.Int n). split; [done|].
  unfold kept_value. unfold datum_int in Hw. by rewrite Hw.
Qed.
Lemma ex_written_files : data_file <$> manifest_entries ex_writer = [ex_file_in [Some (LPrimitive (PrimitiveLiteral.Int 3))];
  ex_file_in [Some (LPrimitive (PrimitiveLiteral.Int 5))]; ex_file_in [None]].
Proof. vm_compute. reflexivity. Qed.
Lemma ex_entries_fit :
  Forall (fun e => file_fits (manifest_schema (writer_metadata ex_writer)) ex_stored_fields (data_file e))
    (manifest_entries ex_writer).
Proof.
  apply (Forall_fmap _ _ _). rewrite ex_written_files.
  repeat (apply Forall_cons_2; [apply ex_file_fits|]); [..|by apply Forall_nil_2].
  - by apply (ex_tuple_fits (Some 3)).
  - by apply (ex_tuple_fits (Some 5)).
  - by apply (ex_tuple_fits None).
Qed.
Lemma ex_stored_type :
  partition_type (manifest_partition_spec (writer_metadata ex_writer)) (manifest_schema (writer_metadata ex_writer))
  = Ok ex_stored_fields.
Proof. vm_compute. reflexivity. Qed.
Lemma ex_encode_Ok : encode_entries (writer_metadata ex_writer) ex_stored_fields (manifest_entries ex_writer) = Ok [0].
Proof. vm_compute. reflexivity. Qed.

Lemma manifest_roundtrip_witness :
  try_from_avro_bytes [0]
  = Ok (writer_metadata ex_writer, stored_entry (writer_metadata ex_writer) <$> manifest_entries ex_writer).
Proof.
  exact (manifest_roundtrip (writer_metadata ex_writer) ex_stored_fields (manifest_entries ex_writer) [0]
           ex_header_kept ex_stored_type ex_entries_fit ex_encode_Ok).
Defined.
End witness.
