(* ===== verification/RecordBatchTransformer.v ===== *)
(** * Batches of a data file in the schema of the snapshot (arrow/record_batch_transformer.rs)

    How the columns that are read from a file become the columns of the projection:
    passed through, promoted, or added with a constant, a default value or nulls.
    Correctness: the columns of a transformed batch are those of the projected fields, each
    resolved by field id; which batches are only renamed, by position, is stated at the
    end. *)

From S2P Require Import Prelude Utf8 Numerals Values Schema Transform PartitionSpecs.
From S2P Require Import ArrowSchema ArrowValues.
From S2P Require ManifestSerde.

(** ** Record batches *)

(** [arrow_array::RecordBatch]. *)
Record RecordBatch := mkRecordBatch {
  batch_schema : ArrowFields;
  batch_columns : list ArrayRef;
  batch_num_rows : nat;
}.

(** What the code calls of the Arrow crates: [DataType::equals_datatype], the [cast]
    kernel, [Array::len], the check of [RecordBatch::try_new_with_options], and that of
    [RunArray::try_new]. *)
Class ArrowBatches := {
  equals_datatype : DataType -> DataType -> bool;
  cast : ArrayRef -> DataType -> result ArrayRef;
  array_len : ArrayRef -> nat;
  batch_valid : ArrowFields -> list ArrayRef -> nat -> bool;
  run_array_valid : list Z -> ArrayRef -> bool;
}.

Section transformer.
Context {AT : ArrowTypes} {AB : ArrowBatches}.

Definition try_new_with_options (schema : ArrowFields) (columns : list ArrayRef) (row_count : nat) :
    result RecordBatch :=
  if batch_valid schema columns row_count then Ok (mkRecordBatch schema columns row_count)
  else Err (Error Unexpected).

(** ** Constants of a partition *)

(** The body of the loop of [constants_map], for the field at [pos]. *)
Definition partition_constant (schema : Schema) (partition_data : Struct) (pos : nat)
    (field : PartitionField) : result (option (Z * Datum)) :=
  match partition_transform field with
  | Transform.Identity =>
      let? iceberg_field := ok_or (field_by_id schema (source_id field)) Unexpected in
      match field_type iceberg_field with
      | TPrimitive prim_type =>
          let? value := unwrap (partition_data !! pos) in
          match value with
          | None => Ok None
          | Some (LPrimitive value) => Ok (Some (source_id field, mkDatum prim_type value))
          | Some _ => Err (Error Unexpected)
          end
      | _ => Err (Error Unexpected)
      end
  | _ => Ok None
  end.
Definition constants_map (partition_spec : PartitionSpec) (partition_data : Struct) (schema : Schema) :
    result (gmap Z Datum) :=
  try_fold (fun constants '(pos, field) =>
    let? constant := partition_constant schema partition_data pos field in
    Ok (match constant with Some (id, datum) => <[id := datum]> constants | None => constants end))
    ∅ (zip (seq 0 (length (spec_fields partition_spec))) (spec_fields partition_spec)).

(** ** The transformer *)

Inductive ColumnSource :=
| PassThroughColumn (source_index : nat)
| Promote (target_type : DataType) (source_index : nat)
| Add (target_type : DataType) (value : option PrimitiveLiteral.t).

Inductive BatchTransform :=
| PassThrough
| Modify (target_schema : ArrowFields) (operations : list ColumnSource)
| ModifySchema (target_schema : ArrowFields).

Inductive SchemaComparison := Equivalent | NameChangesOnly | Different.

Record RecordBatchTransformer := mkTransformer {
  snapshot_schema : Schema;
  projected_iceberg_field_ids : list Z;
  constant_fields : gmap Z Datum;
  batch_transform : option BatchTransform;
}.

(** [RecordBatchTransformerBuilder]. *)
Definition builder_new (snapshot_schema : Schema) (projected : list Z) : RecordBatchTransformer :=
  mkTransformer snapshot_schema projected ∅ None.
Definition with_constant (self : RecordBatchTransformer) (field_id : Z) (datum : Datum) :
    RecordBatchTransformer :=
  mkTransformer (snapshot_schema self) (projected_iceberg_field_ids self)
    (<[field_id := datum]> (constant_fields self)) (batch_transform self).
Definition with_partition (self : RecordBatchTransformer) (partition_spec : PartitionSpec)
    (partition_data : Struct) : result RecordBatchTransformer :=
  let? partition_constants := constants_map partition_spec partition_data (snapshot_schema self) in
  Ok (mkTransformer (snapshot_schema self) (projected_iceberg_field_ids self)
        (partition_constants ∪ constant_fields self) (batch_transform self)).

(** [build_field_id_to_arrow_schema_map], from the field at [idx] on. *)
Fixpoint field_id_map_from (idx : nat) (source_schema : ArrowFields)
    (map : gmap Z (Arrow.Field * nat)) : result (gmap Z (Arrow.Field * nat)) :=
  match source_schema with
  | [] => Ok map
  | source_field :: source_schema =>
      let? map :=
        match Arrow.metadata source_field !! PARQUET_FIELD_ID_META_KEY with
        | Some field_id_str =>
            let? this_field_id := ok_or (parse_signed 32 (lit field_id_str)) DataInvalid in
            Ok (<[this_field_id := (source_field, idx)]> map)
        | None => Ok map
        end in
      field_id_map_from (S idx) source_schema map
  end.
Definition build_field_id_to_arrow_schema_map (source_schema : ArrowFields) :
    result (gmap Z (Arrow.Field * nat)) :=
  field_id_map_from 0 source_schema ∅.

(** The field of the target schema for a projected field id. *)
Definition target_field (mapped : gmap Z (Arrow.Field * nat)) (constant_fields : gmap Z Datum)
    (field_id : Z) : result Arrow.Field :=
  match constant_fields !! field_id with
  | Some datum =>
      let arrow_type := datum_to_arrow_type_with_ree datum in
      match ManifestSerde.get_metadata_field field_id with
      | Ok iceberg_field =>
          Ok (Arrow.with_metadata
                (Arrow.new (field_name iceberg_field) arrow_type (negb (field_required iceberg_field)))
                {[PARQUET_FIELD_ID_META_KEY := text (to_string_i (Values.field_id iceberg_field))]})
      | Err _ =>
          let? field := ok_or (mapped !! field_id) Unexpected in
          Ok (Arrow.with_metadata
                (Arrow.new (Arrow.name (fst field)) arrow_type (Arrow.is_nullable (fst field)))
                (Arrow.metadata (fst field)))
      end
  | None =>
      let? field := ok_or (mapped !! field_id) Unexpected in
      Ok (fst field)
  end.

(** The loop of [compare_schemas]. *)
Fixpoint compare_fields (source target : ArrowFields) (names_changed : bool) : SchemaComparison :=
  match source, target with
  | source_field :: source, target_field :: target =>
      if negb (bool_decide (Arrow.data_type source_field = Arrow.data_type target_field))
         || negb (Bool.eqb (Arrow.is_nullable source_field) (Arrow.is_nullable target_field))
      then Different
      else compare_fields source target
             (names_changed || negb (bool_decide (Arrow.name source_field = Arrow.name target_field)))
  | _, _ => if names_changed then NameChangesOnly else Equivalent
  end.
Definition compare_schemas (source_schema target_schema : ArrowFields) : SchemaComparison :=
  if negb (length source_schema =? length target_schema)%nat then Different
  else compare_fields source_schema target_schema false.

(** The closure of [generate_transform_operations]. *)
Definition transform_operation (source_map mapped : gmap Z (Arrow.Field * nat))
    (snapshot_schema : Schema) (constant_fields : gmap Z Datum) (field_id : Z) : result ColumnSource :=
  match constant_fields !! field_id with
  | Some datum => Ok (Add (datum_to_arrow_type_with_ree datum) (Some (datum_literal datum)))
  | None =>
      let? target_field := ok_or (mapped !! field_id) Unexpected in
      let target_type := Arrow.data_type (fst target_field) in
      let? iceberg_field := ok_or (field_by_id snapshot_schema field_id) Unexpected in
      match source_map !! field_id with
      | Some (source_field, source_index) =>
          Ok (if equals_datatype (Arrow.data_type source_field) target_type
              then PassThroughColumn source_index else Promote target_type source_index)
      | None =>
          let default_value :=
            match iceberg_field with
            | mkNestedField _ _ _ _ _ (Some (LPrimitive prim)) _ => Some prim
            | _ => None
            end in
          Ok (Add target_type default_value)
      end
  end.
Definition generate_transform_operations (source_schema : ArrowFields) (snapshot_schema : Schema)
    (projected : list Z) (mapped : gmap Z (Arrow.Field * nat)) (constant_fields : gmap Z Datum) :
    result (list ColumnSource) :=
  let? source_map := build_field_id_to_arrow_schema_map source_schema in
  mapR (transform_operation source_map mapped snapshot_schema constant_fields) projected.

Definition generate_batch_transform (source_schema : ArrowFields) (snapshot_schema : Schema)
    (projected : list Z) (constant_fields : gmap Z Datum) : result BatchTransform :=
  let? mapped_unprojected_arrow_schema := schema_to_arrow_schema snapshot_schema in
  let? mapped := build_field_id_to_arrow_schema_map mapped_unprojected_arrow_schema in
  let? target_schema := mapR (target_field mapped constant_fields) projected in
  match compare_schemas source_schema target_schema with
  | Equivalent => Ok PassThrough
  | NameChangesOnly => Ok (ModifySchema target_schema)
  | Different =>
      let? operations :=
        generate_transform_operations source_schema snapshot_schema projected mapped constant_fields in
      Ok (Modify target_schema operations)
  end.

(** [create_column]. *)
Definition create_column (target_type : DataType) (prim_lit : option PrimitiveLiteral.t)
    (num_rows : nat) : result ArrayRef :=
  match target_type with
  | Arrow.RunEndEncoded _ values_field =>
      let? values_array := create_primitive_array_single_element (Arrow.data_type values_field) prim_lit in
      let run_ends := if (num_rows =? 0)%nat then [] else [wrapS 32 (Z.of_nat num_rows)] in
      if run_array_valid run_ends values_array then Ok (RunArray run_ends values_array)
      else Err (Error Unexpected)
  | _ => create_primitive_array_repeated target_type prim_lit num_rows
  end.

Definition transform_column (columns : list ArrayRef) (num_rows : nat) (op : ColumnSource) :
    result ArrayRef :=
  match op with
  | PassThroughColumn source_index => unwrap (columns !! source_index)
  | Promote target_type source_index =>
      let? column := unwrap (columns !! source_index) in
      cast column target_type
  | Add target_type value => create_column target_type value num_rows
  end.
Definition transform_columns (columns : list ArrayRef) (operations : list ColumnSource) :
    result (list ArrayRef) :=
  match columns with
  | [] => Ok []
  | first :: _ => mapR (transform_column columns (array_len first)) operations
  end.

Definition apply_transform (transform : BatchTransform) (record_batch : RecordBatch) : result RecordBatch :=
  match transform with
  | PassThrough => Ok record_batch
  | Modify target_schema operations =>
      let? columns := transform_columns (batch_columns record_batch) operations in
      try_new_with_options target_schema columns (batch_num_rows record_batch)
  | ModifySchema target_schema =>
      try_new_with_options target_schema (batch_columns record_batch) (batch_num_rows record_batch)
  end.

(** [process_record_batch]: the first batch fixes the transform. *)
Definition process_record_batch (record_batch : RecordBatch) : SR RecordBatchTransformer RecordBatch :=
  fun self =>
    let? transform :=
      match batch_transform self with
      | Some transform => Ok transform
      | None =>
          generate_batch_transform (batch_schema record_batch) (snapshot_schema self)
            (projected_iceberg_field_ids self) (constant_fields self)
      end in
    let self := mkTransformer (snapshot_schema self) (projected_iceberg_field_ids self)
                  (constant_fields self) (Some transform) in
    let? batch := apply_transform transform record_batch in
    Ok (batch, self).
End transformer.

(** ** Theory *)

Section theory.
Context {AT : ArrowTypes} {AB : ArrowBatches}.

(** The field ids of a schema, in order. *)
Definition has_ids (schema : ArrowFields) (ids : list Z) : Prop :=
  Forall2 (fun f id => get_field_id_from_metadata f = Ok id) schema ids.

Lemma field_id_map_ids source ids :
  has_ids source ids -> NoDup ids -> forall idx m,
  exists m', field_id_map_from idx source m = Ok m'
    /\ (forall i id f, ids !! i = Some id -> source !! i = Some f -> m' !! id = Some (f, idx + i)%nat)
    /\ (forall id, id ∉ ids -> m' !! id = m !! id).
Proof.
  induction 1 as [|f id source ids Hf _ IH]; intros Hnd idx m.
  - exists m. by split_and!.
  - apply NoDup_cons in Hnd as [Hnin Hnd].
    destruct (IH Hnd (S idx) (<[id := (f, idx)]> m)) as (m' & Hm' & Hin & Hout). exists m'.
    assert (field_id_map_from idx (f :: source) m = Ok m') as ->.
    { cbn [field_id_map_from]. unfold get_field_id_from_metadata in Hf.
      destruct (Arrow.metadata f !! PARQUET_FIELD_ID_META_KEY) as [s|]; [|done].
      rewrite Hf. exact Hm'. }
    split; [done|]. split.
    + intros [|i] id' f' Hi Hs; cbn in Hi, Hs; simplify_eq.
      * rewrite (Hout _ Hnin), lookup_insert_eq. by rewrite Nat.add_0_r.
      * rewrite (Hin i id' f' Hi Hs). do 2 f_equal. lia.
    + intros id' [Hne Hnin']%not_elem_of_cons. rewrite (Hout _ Hnin'). by apply lookup_insert_ne.
Qed.

(** The default value of an added column. *)
Definition default_value (f : NestedField) : option PrimitiveLiteral.t :=
  match f with
  | mkNestedField _ _ _ _ _ (Some (LPrimitive prim)) _ => Some prim
  | _ => None
  end.

(** A column resolved by field id: the constant of the field; the column of the file with
    that id, perhaps promoted; or a new column with the field's default value, or nulls. *)
Definition resolved (schema : Schema) (mapped : gmap Z (Arrow.Field * nat)) (constants : gmap Z Datum)
    (source_ids : list Z) (columns : list ArrayRef) (num_rows : nat) (id : Z) (column : ArrayRef) : Prop :=
  match constants !! id with
  | Some datum =>
      create_column (datum_to_arrow_type_with_ree datum) (Some (datum_literal datum)) num_rows = Ok column
  | None =>
      (exists i c, source_ids !! i = Some id /\ columns !! i = Some c
         /\ (column = c \/ (exists f n, mapped !! id = Some (f, n) /\ cast c (Arrow.data_type f) = Ok column)))
      \/ ((id ∉ source_ids) /\ (exists field f n, field_by_id schema id = Some field
            /\ mapped !! id = Some (f, n)
            /\ create_column (Arrow.data_type f) (default_value field) num_rows = Ok column))
  end.

(** An operation resolves the column of its field. *)
Lemma operation_resolves source ids source_map mapped schema constants columns n id op column :
  has_ids source ids -> length columns = length source ->
  (forall i id f, ids !! i = Some id -> source !! i = Some f -> source_map !! id = Some (f, i)) ->
  (forall id, id ∉ ids -> source_map !! id = None) ->
  transform_operation source_map mapped schema constants id = Ok op ->
  transform_column columns n op = Ok column ->
  resolved schema mapped constants ids columns n id column.
Proof.
  intros Hids Hlen Hin Hout Hop Hcol. unfold transform_operation in Hop. unfold resolved.
  destruct (constants !! id) as [datum|]; [by injection Hop as <-|].
  apply bind_Ok in Hop as ([f k] & Hm & Hop). apply bind_Ok in Hop as (field & Hfield & Hop).
  destruct (mapped !! id) as [[f' k']|]; [|done]. injection Hm as -> ->.
  destruct (field_by_id schema id) as [field'|]; [|done]. injection Hfield as ->. cbn [fst] in Hop.
  destruct (decide (id ∈ ids)) as [Hi|Hi].
  - apply list_elem_of_lookup in Hi as [i Hi].
    destruct (Forall2_lookup_r _ _ _ _ _ Hids Hi) as (sf & Hs & _).
    rewrite (Hin i id sf Hi Hs) in Hop. injection Hop as <-. left.
    destruct (lookup_lt_is_Some_2 columns i) as [c Hc].
    { rewrite Hlen. by apply lookup_lt_Some in Hs. }
    exists i, c. split; [done|]. split; [done|].
    destruct (equals_datatype _ _); cbn in Hcol; rewrite Hc in Hcol; cbn in Hcol;
      [left; congruence|right; by eexists _, _].
  - rewrite (Hout id Hi) in Hop. injection Hop as <-. right. split; [done|]. by eexists _, _, _.
Qed.
End theory.

(** ** Properties *)

(** A batch that is transformed has the columns of the projected fields, in the order of the
    projection, each resolved by field id.  Where the batch is passed on with at most a
    change of names, that needs the columns of the file to be the projected ones, in order. *)
Theorem transform_resolves {AT : ArrowTypes} {AB : ArrowBatches} schema arrow mapped constants projected
    source_ids batch transform out :
  schema_to_arrow_schema schema = Ok arrow -> build_field_id_to_arrow_schema_map arrow = Ok mapped ->
  has_ids (batch_schema batch) source_ids -> NoDup source_ids ->
  length (batch_columns batch) = length (batch_schema batch) -> batch_columns batch <> [] ->
  generate_batch_transform (batch_schema batch) schema projected constants = Ok transform ->
  match transform with
  | Modify _ _ => True
  | _ => source_ids = projected /\ forall id, id ∈ projected -> constants !! id = None
  end ->
  apply_transform transform batch = Ok out ->
  Forall2 (resolved schema mapped constants source_ids (batch_columns batch)
             (match batch_columns batch with c :: _ => array_len c | [] => 0%nat end))
    projected (batch_columns out).
Proof.
  intros Harrow Hmapped Hids Hnd Hlen Hne Hgen Horder Happly.
  assert (forall out', batch_columns out' = batch_columns batch -> source_ids = projected ->
    (forall id, id ∈ projected -> constants !! id = None) ->
    Forall2 (resolved schema mapped constants source_ids (batch_columns batch)
               (match batch_columns batch with c :: _ => array_len c | [] => 0%nat end))
      projected (batch_columns out')) as Hsame.
  { intros out' -> <- Hconst. apply Forall2_same_length_lookup_2.
    { by rewrite Hlen, (Forall2_length _ _ _ Hids). }
    intros i id c Hi Hc. unfold resolved. rewrite Hconst by (by eapply list_elem_of_lookup_2).
    left. exists i, c. auto. }
  unfold generate_batch_transform in Hgen. rewrite Harrow in Hgen. cbn in Hgen. rewrite Hmapped in Hgen.
  cbn in Hgen. apply bind_Ok in Hgen as (target & Ht & Hgen).
  destruct (compare_schemas (batch_schema batch) target).
  - injection Hgen as <-. injection Happly as <-.
    destruct Horder as [Ho Hc]. by apply Hsame.
  - injection Hgen as <-. destruct Horder as [Ho Hc].
    cbn in Happly. unfold try_new_with_options in Happly. destruct (batch_valid _ _ _); [|done].
    injection Happly as <-. by apply Hsame.
  - apply bind_Ok in Hgen as (operations & Hops & Hgen). injection Hgen as <-.
    cbn in Happly. apply bind_Ok in Happly as (columns & Hcols & Happly).
    unfold try_new_with_options in Happly. destruct (batch_valid _ _ _); [|done]. injection Happly as <-.
    unfold generate_transform_operations in Hops. apply bind_Ok in Hops as (source_map & Hsm & Hops).
    destruct (field_id_map_ids (batch_schema batch) source_ids Hids Hnd 0 ∅) as (m' & Hm' & Hin & Hout).
    unfold build_field_id_to_arrow_schema_map in Hsm. rewrite Hm' in Hsm. injection Hsm as <-.
    apply mapR_Ok in Hops. unfold transform_columns in Hcols.
    destruct (batch_columns batch) as [|c0 cs] eqn:Ecols; [done|]. apply mapR_Ok in Hcols. rewrite <- Ecols in *.
    cbn [batch_columns]. eapply Forall2_trans; [|exact Hops|exact Hcols].
    intros id op column Hop Hcol.
    apply (operation_resolves (batch_schema batch) source_ids m' mapped schema constants _ _ _ op); try done.
Qed.

(** ** An instance, and examples *)

Section witnesses.
#[local] Existing Instance concrete_arrow_types.
#[local] Existing Instance Concrete.concrete_lowercase.

Definition int_len (array : ArrayRef) : nat :=
  match array with
  | Int32Array vs | Int64Array vs => length vs
  | RunArray run_ends _ => match last run_ends with Some n => Z.to_nat n | None => 0%nat end
  | _ => 0%nat
  end.
#[local] Instance concrete_batches : ArrowBatches := {
  equals_datatype a b := bool_decide (a = b);
  cast array ty :=
    match array, ty with
    | Int32Array vs, Arrow.Int64 => Ok (Int64Array vs)
    | _, _ => Err (Error Unexpected)
    end;
  array_len := int_len;
  batch_valid schema columns row_count :=
    (length schema =? length columns)%nat && forallb (fun c => int_len c =? row_count)%nat columns;
  run_array_valid run_ends values := (length run_ends =? int_len values)%nat;
}.

Definition int_field (id : Z) (name : string) (ty : PrimitiveType.t) (default : option Literal) : NestedField :=
  mkNestedField id name false (TPrimitive ty) None default None.
Definition ex_builder (fields : list NestedField) : SchemaBuilder := mkSchemaBuilder 0 fields [] ∅ None.
Definition empty_schema : Schema := mkSchema [] 0 0 ∅ [] ∅ ∅ ∅ ∅ ∅.
(** A table whose column [b] is now a [long], and [c] is new with the default value 7. *)
Definition ex_table_schema : Schema :=
  ok_value empty_schema (build (ex_builder
    [int_field 1 "a" PrimitiveType.Int None; int_field 2 "b" PrimitiveType.Long None;
     int_field 3 "c" PrimitiveType.Int (Some (LPrimitive (PrimitiveLiteral.Int 7)))])).
Definition int_batch : RecordBatch :=
  mkRecordBatch [arrow_column "a" "1" Arrow.Int32; arrow_column "b" "2" Arrow.Int32]
    [Int32Array [Some 1; Some 2]; Int32Array [Some 3; None]] 2.
Definition columns_of (r : result (RecordBatch * RecordBatchTransformer)) :
    result (list string * list ArrayRef) :=
  (fun br : RecordBatch * RecordBatchTransformer =>
     (Arrow.name <$> batch_schema (fst br), batch_columns (fst br))) <$> r.

Definition ex_projected : list Z := [3; 2; 1].
Definition ex_arrow : ArrowFields := ok_value [] (schema_to_arrow_schema ex_table_schema).
Definition ex_mapped : gmap Z (Arrow.Field * nat) := ok_value ∅ (build_field_id_to_arrow_schema_map ex_arrow).
Definition ex_transform : BatchTransform :=
  ok_value PassThrough
    (generate_batch_transform (batch_schema int_batch) ex_table_schema ex_projected ∅).
Definition ex_out : RecordBatch := ok_value int_batch (apply_transform ex_transform int_batch).

Lemma transform_resolves_witness :
  batch_columns ex_out
  = [Int32Array [Some 7; Some 7]; Int64Array [Some 3; None]; Int32Array [Some 1; Some 2]]
  /\ Forall2 (resolved ex_table_schema ex_mapped ∅ [1; 2] (batch_columns int_batch) 2)
       ex_projected (batch_columns ex_out).
Proof.
  split; [by vm_compute|].
  apply (transform_resolves (AB := concrete_batches) ex_table_schema ex_arrow ex_mapped ∅ ex_projected [1; 2] int_batch
           ex_transform ex_out).
  - apply (ok_value_Ok []). by vm_compute.
  - apply (ok_value_Ok ∅). by vm_compute.
  - apply Forall2_cons_2; [by vm_compute|]. apply Forall2_cons_2; [by vm_compute|constructor].
  - apply NoDup_cons_2; [by intros ?%list_elem_of_singleton|apply NoDup_singleton].
  - done.
  - done.
  - apply (ok_value_Ok PassThrough). by vm_compute.
  - by vm_compute.
  - apply (ok_value_Ok int_batch). by vm_compute.
Defined.

(** *** Deviations *)

(** Two columns of one type in the other order than in the file: their names are swapped,
    their data are not. *)
Definition ex_ints : Schema :=
  ok_value empty_schema (build (ex_builder
    [int_field 1 "a" PrimitiveType.Int None; int_field 2 "b" PrimitiveType.Int None])).
Theorem reordered_columns_swap :
  columns_of (process_record_batch int_batch (builder_new ex_ints [2; 1]))
  = Ok (["b"; "a"]%string, [Int32Array [Some 1; Some 2]; Int32Array [Some 3; None]]).
Proof. by vm_compute. Qed.

(** A column that was added to the table, when the file has one column of its type: it gets
    the data of that column. *)
Theorem added_column_takes_data :
  columns_of (process_record_batch
    (mkRecordBatch [arrow_column "a" "1" Arrow.Int32] [Int32Array [Some 1; Some 2]] 2)
    (builder_new ex_ints [2]))
  = Ok (["b"]%string, [Int32Array [Some 1; Some 2]]).
Proof. by vm_compute. Qed.

(** A constant column cannot be added to a batch without rows. *)
Theorem constants_refuse_empty_batches :
  columns_of (process_record_batch
    (mkRecordBatch [arrow_column "a" "1" Arrow.Int32] [Int32Array []] 0)
    (with_constant (builder_new ex_ints [1; 2]) 2 (datum_int 5)))
  = Err (Error Unexpected).
Proof. by vm_compute. Qed.
End witnesses.
