(* ===== verification/Int96.v ===== *)
(** * INT96 timestamps (arrow/int96.rs)

    The coercion of the nanosecond timestamps of an Arrow schema to the unit that the schema
    of the table asks for, as a visitor of the Arrow schema.  Correctness: the visit gives
    exactly the schema in which each such field has its unit, at any depth, and gives none
    when nothing changes or a type is not known to the visitor. *)

From S2P Require Import Prelude Utf8 Numerals Values Schema ArrowSchema.
From S2P Require Concrete RecordBatchTransformer.

(** ** The visitor *)

(** The mutable fields of [Int96CoercionVisitor]: the stack, its top first. *)
Record Int96State := mkInt96State { field_stack : list Arrow.Field; changed : bool }.

Section int96.
Context {AT : ArrowTypes} (iceberg_schema : Schema).

Definition is_nanoseconds (ty : DataType) : bool :=
  match ty with Arrow.Timestamp Nanosecond _ => true | _ => false end.
Definition unit_of_type (ty : Ty) : option TimeUnit :=
  match ty with
  | TPrimitive PrimitiveType.Timestamp | TPrimitive PrimitiveType.Timestamptz => Some Microsecond
  | TPrimitive PrimitiveType.TimestampNs | TPrimitive PrimitiveType.TimestamptzNs => Some Nanosecond
  | _ => None
  end.
Definition target_unit (field : Arrow.Field) : option TimeUnit :=
  if negb (is_nanoseconds (Arrow.data_type field)) then None
  else
    let target :=
      default Microsecond
        (id_str ← Arrow.metadata field !! PARQUET_FIELD_ID_META_KEY;
         field_id ← parse_signed 32 (lit id_str);
         f ← field_by_id iceberg_schema field_id;
         unit_of_type (field_type f)) in
    if bool_decide (target = Nanosecond) then None else Some target.

Definition push (field : Arrow.Field) : SR Int96State unit :=
  sr_modify (fun s => mkInt96State (field :: field_stack s) (changed s)).
Definition pop (_ : Arrow.Field) : SR Int96State unit :=
  sr_modify (fun s => mkInt96State (tail (field_stack s)) (changed s)).
Definition field_info : SR Int96State Arrow.Field :=
  let! s := sr_get in
  match field_stack s with
  | field :: _ => mret field
  | [] => mthrow (Error Unexpected)
  end.
(** [Field::new] with the name, nullability and metadata of [field_info]. *)
Definition retyped (field_info : Arrow.Field) (ty : DataType) : Arrow.Field :=
  Arrow.with_metadata (Arrow.new (Arrow.name field_info) ty (Arrow.is_nullable field_info))
    (Arrow.metadata field_info).
Definition timestamp_zone (ty : DataType) : option string :=
  match ty with Arrow.Timestamp _ tz => tz | _ => None end.
Definition entries_field (key_value value : Arrow.Field) : Arrow.Field :=
  Arrow.new DEFAULT_MAP_FIELD_NAME (Arrow.Struct [key_value; value]) false.

Definition Int96CoercionVisitor : ArrowSchemaVisitor Int96State Arrow.Field ArrowFields :=
  {| before_field := push; after_field := pop;
     before_list_element := push; after_list_element := pop;
     before_map_key := push; after_map_key := pop;
     before_map_value := push; after_map_value := pop;
     a_schema _ values := mret values;
     a_struct _ results :=
       let! info := field_info in
       mret (retyped info (Arrow.Struct results));
     a_list list value :=
       let! info := field_info in
       let! list_type :=
         match list with
         | Arrow.List _ => mret (Arrow.List value)
         | Arrow.LargeList _ => mret (Arrow.LargeList value)
         | Arrow.FixedSizeList _ size => mret (Arrow.FixedSizeList value size)
         | _ => mthrow (Error Unexpected)
         end in
       mret (retyped info list_type);
     a_map map key_value value :=
       let! info := field_info in
       let! sorted :=
         match map with
         | Arrow.Map _ sorted => mret sorted
         | _ => mthrow (Error Unexpected)
         end in
       mret (retyped info (Arrow.Map (entries_field key_value value) sorted));
     a_primitive p :=
       let! info := field_info in
       match target_unit info with
       | Some unit =>
           let! _ := sr_modify (fun s => mkInt96State (field_stack s) true) in
           mret (retyped info (Arrow.Timestamp unit (timestamp_zone (Arrow.data_type info))))
       | None => mret (retyped info p)
       end |}.

Definition coerce_int96_timestamps (arrow_schema : ArrowFields) : option ArrowFields :=
  match visit_arrow_schema arrow_schema Int96CoercionVisitor (mkInt96State [] false) with
  | Ok (coerced, visitor) => if changed visitor then Some coerced else None
  | Err _ => None
  end.

(** ** The reference

    A type below the field [g] whose visit it belongs to. *)

(** The visitor knows the type. *)
Fixpoint visitable (ty : DataType) : bool :=
  visited_as_primitive ty
  || match ty with
     | Arrow.List (Arrow.mkField _ ty _ _) | Arrow.LargeList (Arrow.mkField _ ty _ _)
     | Arrow.FixedSizeList (Arrow.mkField _ ty _ _) _ => visitable ty
     | Arrow.Map (Arrow.mkField _ (Arrow.Struct fields) _ _) _ =>
         match fields with
         | [Arrow.mkField _ kty _ _; Arrow.mkField _ vty _ _] => visitable kty && visitable vty
         | _ => false
         end
     | Arrow.Struct fields =>
         (fix go (fields : list Arrow.Field) : bool :=
            match fields with
            | [] => true
            | Arrow.mkField _ ty _ _ :: fields => visitable ty && go fields
            end) fields
     | Arrow.Dictionary _ ty => visitable ty
     | _ => false
     end.

(** The type with the unit of each timestamp; and whether one changes. *)
Fixpoint coerced (g : Arrow.Field) (ty : DataType) : DataType :=
  match ty with
  | Arrow.List (Arrow.mkField _ ty _ _ as e) => Arrow.List (retyped e (coerced e ty))
  | Arrow.LargeList (Arrow.mkField _ ty _ _ as e) => Arrow.LargeList (retyped e (coerced e ty))
  | Arrow.FixedSizeList (Arrow.mkField _ ty _ _ as e) n => Arrow.FixedSizeList (retyped e (coerced e ty)) n
  | Arrow.Map (Arrow.mkField _ (Arrow.Struct fields) _ _) sorted =>
      match fields with
      | [Arrow.mkField _ kty _ _ as k; Arrow.mkField _ vty _ _ as v] =>
          Arrow.Map (entries_field (retyped k (coerced k kty)) (retyped v (coerced v vty))) sorted
      | _ => ty
      end
  | Arrow.Struct fields =>
      Arrow.Struct
        ((fix go (fields : list Arrow.Field) : list Arrow.Field :=
            match fields with
            | [] => []
            | (Arrow.mkField _ ty _ _ as f) :: fields => retyped f (coerced f ty) :: go fields
            end) fields)
  | Arrow.Dictionary _ ty => coerced g ty
  | ty =>
      match target_unit g with
      | Some unit => Arrow.Timestamp unit (timestamp_zone (Arrow.data_type g))
      | None => ty
      end
  end.
Fixpoint changes (g : Arrow.Field) (ty : DataType) : bool :=
  match ty with
  | Arrow.List (Arrow.mkField _ ty _ _ as e) | Arrow.LargeList (Arrow.mkField _ ty _ _ as e)
  | Arrow.FixedSizeList (Arrow.mkField _ ty _ _ as e) _ => changes e ty
  | Arrow.Map (Arrow.mkField _ (Arrow.Struct fields) _ _) _ =>
      match fields with
      | [Arrow.mkField _ kty _ _ as k; Arrow.mkField _ vty _ _ as v] => changes k kty || changes v vty
      | _ => false
      end
  | Arrow.Struct fields =>
      (fix go (fields : list Arrow.Field) : bool :=
         match fields with
         | [] => false
         | (Arrow.mkField _ ty _ _ as f) :: fields => changes f ty || go fields
         end) fields
  | Arrow.Dictionary _ ty => changes g ty
  | _ => match target_unit g with Some _ => true | None => false end
  end.
Definition coerced_field (f : Arrow.Field) : Arrow.Field := retyped f (coerced f (Arrow.data_type f)).
Definition changes_field (f : Arrow.Field) : bool := changes f (Arrow.data_type f).
End int96.

(** ** The visit *)

Section visit.
Context {AT : ArrowTypes} {AL : ArrowTypesLaws AT} (iceberg_schema : Schema).
Abbreviation V := (Int96CoercionVisitor iceberg_schema).
Abbreviation coerced := (coerced iceberg_schema).
Abbreviation changes := (changes iceberg_schema).

(** The hooks. *)
Lemma run_push {A} f (k : unit -> SR Int96State A) stack ch :
  (let! u := push f in k u) (mkInt96State stack ch) = k tt (mkInt96State (f :: stack) ch).
Proof. done. Qed.
Lemma run_pop {A} g f (k : unit -> SR Int96State A) stack ch :
  (let! u := pop g in k u) (mkInt96State (f :: stack) ch) = k tt (mkInt96State stack ch).
Proof. done. Qed.

Definition visited (g : Arrow.Field) (ty : DataType) (stack : list Arrow.Field) (ch : bool) :
    result (Arrow.Field * Int96State) :=
  if visitable ty
  then Ok (retyped g (coerced g ty), mkInt96State (g :: stack) (ch || changes g ty))
  else Err (Error DataInvalid).
Definition visits (ty : DataType) : Prop :=
  forall g stack ch, visit_type V ty (mkInt96State (g :: stack) ch) = visited g ty stack ch.

Lemma nested_not_primitive ty : nested ty = true -> visited_as_primitive ty = false.
Proof using AL. intros H. unfold visited_as_primitive. by rewrite (is_primitive_named _ false) by (by destruct ty); destruct ty. Qed.

(** A field of the schema or of a struct; the other hooks are the same two. *)
Definition visited_field (f : Arrow.Field) (s : Int96State) : result (Arrow.Field * Int96State) :=
  if visitable (Arrow.data_type f)
  then Ok (coerced_field iceberg_schema f,
           mkInt96State (field_stack s) (changed s || changes_field iceberg_schema f))
  else Err (Error DataInvalid).
Lemma visit_field_spec f s :
  visits (Arrow.data_type f) -> visit_field V f s = visited_field f s.
Proof.
  intros Hv. unfold visit_field. destruct s as [stack ch].
  cbn [before_field after_field Int96CoercionVisitor]. rewrite run_push.
  specialize (Hv f stack ch). unfold visited, visited_field in *.
  destruct (visitable (Arrow.data_type f)).
  - by rewrite (run_bind _ _ _ _ _ Hv).
  - unfold mbind, sr_bind. by rewrite Hv.
Qed.

Lemma visit_fields_spec fields s :
  Forall (fun f => visits (Arrow.data_type f)) fields ->
  mapSR (visit_field V) fields s =
  if forallb (fun f => visitable (Arrow.data_type f)) fields
  then Ok (coerced_field iceberg_schema <$> fields,
           mkInt96State (field_stack s) (changed s || existsb (changes_field iceberg_schema) fields))
  else Err (Error DataInvalid).
Proof.
  intros H. revert s. induction H as [|f fields Hf _ IH]; intros s.
  - destruct s as [stack ch]. cbn. by rewrite orb_false_r.
  - pose proof (visit_field_spec f s Hf) as E. unfold visited_field in E. cbn [mapSR forallb existsb].
    destruct (visitable (Arrow.data_type f)); cbn [andb].
    + rewrite (run_bind _ _ _ _ _ E). specialize (IH (mkInt96State (field_stack s)
        (changed s || changes_field iceberg_schema f))). cbn in IH.
      destruct (forallb _ fields).
      * rewrite (run_bind _ _ _ _ _ IH). cbn. by rewrite orb_assoc.
      * unfold mbind, sr_bind. by rewrite IH.
    + unfold mbind, sr_bind. by rewrite E.
Qed.

Lemma visitable_struct fields :
  visitable (Arrow.Struct fields) = forallb (fun f => visitable (Arrow.data_type f)) fields.
Proof using AL.
  cbn [visitable]. rewrite nested_not_primitive by done. cbn [orb].
  induction fields as [|[n t b m] fields IH]; [done|]. cbn. by rewrite IH.
Qed.
Lemma coerced_struct g fields : coerced g (Arrow.Struct fields) = Arrow.Struct (coerced_field iceberg_schema <$> fields).
Proof. cbn. f_equal. induction fields as [|[n t b m] fields IH]; [done|]. cbn. by rewrite IH. Qed.
Lemma changes_struct g fields : changes g (Arrow.Struct fields) = existsb (changes_field iceberg_schema) fields.
Proof. cbn. induction fields as [|[n t b m] fields IH]; [done|]. cbn. by rewrite IH. Qed.

(** A list, of any kind. *)
Lemma visit_list_spec list n ty b m g stack ch (mk : Arrow.Field -> DataType) :
  visits ty ->
  (forall value s, a_list V list value s = (let! info := field_info in mret (retyped info (mk value))) s) ->
  (let e := Arrow.mkField n ty b m in
   let! _ := before_list_element V e in
   let! value := visit_type V ty in
   let! _ := after_list_element V e in
   a_list V list value) (mkInt96State (g :: stack) ch)
  = if visitable ty
    then Ok (retyped g (mk (retyped (Arrow.mkField n ty b m) (coerced (Arrow.mkField n ty b m) ty))),
             mkInt96State (g :: stack) (ch || changes (Arrow.mkField n ty b m) ty))
    else Err (Error DataInvalid).
Proof.
  intros Hv Hl. cbn zeta. set (e := Arrow.mkField n ty b m).
  cbn [before_list_element after_list_element Int96CoercionVisitor]. rewrite run_push.
  specialize (Hv e (g :: stack) ch). unfold visited in Hv. destruct (visitable ty).
  - rewrite (run_bind _ _ _ _ _ Hv).
    rewrite run_pop. by rewrite Hl.
  - unfold mbind, sr_bind. by rewrite Hv.
Qed.

Lemma visit_spec ty : visits ty.
Proof using AL.
  revert ty. apply arrow_nested_ind;
    [intros ty Hn|intros [n ty b m] IH|intros n ty b m sorted IH|intros fields IH|intros k v IH].
  - intros g stack ch. unfold visited. destruct (visited_as_primitive ty) eqn:E.
    + rewrite visit_arrow_primitive by done.
      assert (visitable ty = true) as -> by (destruct ty; cbn [visitable]; by rewrite E).
      assert (coerced g ty = match target_unit iceberg_schema g with
                             | Some unit => Arrow.Timestamp unit (timestamp_zone (Arrow.data_type g))
                             | None => ty
                             end) as -> by (by destruct ty).
      assert (changes g ty = match target_unit iceberg_schema g with Some _ => true | None => false end) as ->
        by (by destruct ty).
      cbn [a_primitive Int96CoercionVisitor].
      rewrite (run_bind field_info _ _ g (mkInt96State (g :: stack) ch)) by done.
      destruct (target_unit iceberg_schema g); [by rewrite orb_true_r|by rewrite orb_false_r].
    + assert (visitable ty = false) as -> by (destruct ty; try discriminate Hn; cbn [visitable]; by rewrite E).
      destruct ty; try discriminate Hn; cbn [visit_type]; by rewrite E.
  - split; [|split; [|intros size]]; intros g stack ch; unfold visited; cbn [visit_type visitable];
      rewrite nested_not_primitive by done; cbn [orb].
    + by apply (visit_list_spec _ n ty b m g stack ch Arrow.List).
    + by apply (visit_list_spec _ n ty b m g stack ch Arrow.LargeList).
    + by apply (visit_list_spec _ n ty b m g stack ch (fun value => Arrow.FixedSizeList value size)).
  - intros g stack ch. unfold visited. cbn [visit_type visitable]. rewrite nested_not_primitive by done.
    cbn [orb]. destruct ty as [| | | | | | | | | | | | | | | | | | | | | | | | | | |fields| | |]; try done.
    specialize (IH fields eq_refl).
    destruct fields as [|[kn kt kb km] [|[vn vt vb vm] [|]]]; try done.
    apply Forall_cons_1 in IH as [IHk [IHv _]%Forall_cons_1]. cbn [Arrow.data_type] in IHk, IHv.
    set (kf := Arrow.mkField kn kt kb km) in *. set (vf := Arrow.mkField vn vt vb vm) in *.
    cbn [before_map_key after_map_key before_map_value after_map_value Int96CoercionVisitor].
    rewrite run_push.
    specialize (IHk kf (g :: stack) ch). unfold visited in IHk. destruct (visitable kt); cbn [andb].
    2: { unfold mbind, sr_bind. by rewrite IHk. }
    rewrite (run_bind _ _ _ _ _ IHk).
    rewrite run_pop, run_push.
    specialize (IHv vf (g :: stack) (ch || changes kf kt)). unfold visited in IHv.
    destruct (visitable vt).
    2: { unfold mbind, sr_bind. by rewrite IHv. }
    rewrite (run_bind _ _ _ _ _ IHv).
    rewrite run_pop.
    cbn. by rewrite orb_assoc.
  - intros g stack ch. rewrite visit_arrow_struct. unfold visited. rewrite visitable_struct.
    pose proof (visit_fields_spec fields (mkInt96State (g :: stack) ch) IH) as E.
    rewrite coerced_struct, changes_struct. destruct (forallb _ fields).
    + by rewrite (run_bind _ _ _ _ _ E).
    + unfold mbind, sr_bind. by rewrite E.
  - intros g stack ch. unfold visited. cbn [visit_type visitable]. rewrite nested_not_primitive by done.
    cbn [orb]. apply IH.
Qed.
End visit.

(** ** Properties *)

(** The coercion of a schema, with every type it may have: none if a type is not known to the
    visitor or nothing changes; otherwise the schema in which every nanosecond timestamp has
    the unit of its field in the table, microseconds if it has none there. *)
Theorem coerce_int96_exact {AT : ArrowTypes} {AL : ArrowTypesLaws AT} iceberg_schema schema :
  coerce_int96_timestamps iceberg_schema schema =
  if forallb (fun f => visitable (Arrow.data_type f)) schema
     && existsb (changes_field iceberg_schema) schema
  then Some (coerced_field iceberg_schema <$> schema) else None.
Proof.
  unfold coerce_int96_timestamps, visit_arrow_schema.
  pose proof (visit_fields_spec iceberg_schema schema (mkInt96State [] false)
    ltac:(apply Forall_forall; intros ? _; apply visit_spec)) as E.
  destruct (forallb _ schema); cbn [andb].
  - rewrite (run_bind _ _ _ _ _ E). cbn. by destruct (existsb _ schema).
  - unfold mbind, sr_bind. by rewrite E.
Qed.

(** What a field of the table says of its timestamps. *)
Theorem coerced_timestamp {AT : ArrowTypes} iceberg_schema f zone id field :
  Arrow.data_type f = Arrow.Timestamp Nanosecond zone ->
  get_field_id_from_metadata f = Ok id -> field_by_id iceberg_schema id = Some field ->
  Arrow.data_type (coerced_field iceberg_schema f)
  = Arrow.Timestamp (default Microsecond (unit_of_type (field_type field))) zone.
Proof.
  intros Ht Hid Hf. unfold get_field_id_from_metadata in Hid. destruct f as [n t b m].
  cbn [Arrow.data_type Arrow.metadata] in *. subst t.
  set (f := Arrow.mkField n (Arrow.Timestamp Nanosecond zone) b m).
  set (unit := default Microsecond (unit_of_type (field_type field))).
  assert (target_unit iceberg_schema f = if bool_decide (unit = Nanosecond) then None else Some unit) as E.
  { unfold target_unit. cbn. destruct (m !! PARQUET_FIELD_ID_META_KEY) as [s|]; [|done]. cbn.
    destruct (parse_signed 32 (lit s)) as [z|]; [|done]. injection Hid as ->. cbn. by rewrite Hf. }
  change (Arrow.data_type (coerced_field iceberg_schema f))
    with (match target_unit iceberg_schema f with
          | Some unit => Arrow.Timestamp unit zone
          | None => Arrow.Timestamp Nanosecond zone
          end).
  rewrite E. destruct (bool_decide_reflect (unit = Nanosecond)) as [H|]; [by rewrite H|done].
Qed.

(** ** Examples *)

Section witnesses.
#[local] Existing Instance concrete_arrow_types.
#[local] Existing Instance Concrete.concrete_lowercase.

Definition id_field (name id : string) (ty : DataType) : Arrow.Field :=
  Arrow.with_metadata (Arrow.new name ty true) {["PARQUET:field_id" := id]}.
Definition ns : DataType := Arrow.Timestamp Nanosecond None.
(** A table with timestamps in either unit. *)
Definition ex_table : Schema :=
  ok_value RecordBatchTransformer.empty_schema (build (RecordBatchTransformer.ex_builder
    [mkField 1 "t" false (TPrimitive PrimitiveType.Timestamp);
     mkField 2 "n" false (TPrimitive PrimitiveType.TimestampNs)])).

Lemma coerced_timestamp_witness :
  Arrow.data_type (coerced_field ex_table (id_field "t" "1" ns)) = Arrow.Timestamp Microsecond None.
Proof.
  apply (coerced_timestamp ex_table _ None 1 (mkField 1 "t" false (TPrimitive PrimitiveType.Timestamp)));
    by vm_compute.
Defined.

(** The unit of the elements of a list; a field without an id. *)
Example int96_nested :
  coerce_int96_timestamps ex_table
    [id_field "n" "2" ns; Arrow.new "l" (Arrow.List (id_field "element" "1" ns)) true; Arrow.new "x" ns true]
  = Some [id_field "n" "2" ns;
          Arrow.new "l" (Arrow.List (id_field "element" "1" (Arrow.Timestamp Microsecond None))) true;
          Arrow.new "x" (Arrow.Timestamp Microsecond None) true].
Proof. by vm_compute. Qed.

(** *** Deviations *)

(** A column that the visitor does not know leaves every INT96 column of the file at
    nanoseconds; and a schema that changes anywhere has its map entries renamed, without
    their metadata. *)
Theorem unknown_column_stops_coercion :
  coerce_int96_timestamps ex_table [id_field "t" "1" ns; Arrow.new "x" (Arrow.Other 0) true] = None
  /\ (let entries := Arrow.new "entries" (Arrow.Struct [Arrow.new "key" Arrow.Utf8 false;
                                                        Arrow.new "value" Arrow.Int32 true]) false in
      coerce_int96_timestamps ex_table
        [id_field "t" "1" ns; Arrow.new "m" (Arrow.Map entries false) true]
      = Some [id_field "t" "1" (Arrow.Timestamp Microsecond None);
              Arrow.new "m" (Arrow.Map (Arrow.new "key_value" (Arrow.data_type entries) false) false) true]).
Proof. by vm_compute. Qed.
End witnesses.
