(* ===== verification/FileColumns.v ===== *)
(** * Which columns of a file are which (arrow/reader.rs)

    Field ids of the columns of a parquet file: those it has, those of a name mapping, or
    positions; the map from field ids to leaf columns for filters, and the projection mask.
    Correctness: positional ids mean the same columns to both, and the mask has the columns of
    the requested fields; where a name mapping or a type stands between, they do not. *)

From S2P Require Import Prelude Utf8 Numerals Values Schema ArrowSchema ArrowValues ScanTask.
From S2P Require Concrete ScanPlan ArrowValues RecordBatchTransformer Int96.

(** Derived equality of fields. *)
#[local] Instance Field_eq_decision : EqDecision Arrow.Field := field_eq_dec.

(** ** Parquet schemas

    [parquet::schema::types::Type] as the code looks at it: whether it is primitive, the id
    it has, its fields.  A [SchemaDescriptor] is the fields of its root; its columns are the
    leaves, depth first. *)
Module Parquet.
#[warnings="-register-all"]
Inductive Type_ := PrimitiveType (id : option Z) | GroupType (fields : list Type_).
Fixpoint leaves (ty : Type_) : list Type_ :=
  match ty with PrimitiveType _ => [ty] | GroupType fields => concat (leaves <$> fields) end.
Definition columns (root : list Type_) : list Type_ := concat (leaves <$> root).
Definition is_primitive (ty : Type_) : bool :=
  match ty with PrimitiveType _ => true | GroupType _ => false end.
End Parquet.
Abbreviation SchemaDescriptor := (list Parquet.Type_).

Inductive ProjectionMask := All | Leaves (indices : list nat) | Roots (indices : list nat).

(** ** Field ids and leaf columns *)

(** The loop of [build_field_id_map], from the column [idx] on. *)
Fixpoint field_id_map_from (idx : nat) (columns : list Parquet.Type_) (column_map : gmap Z nat) :
    result (option (gmap Z nat)) :=
  match columns with
  | [] => Ok (Some column_map)
  | Parquet.PrimitiveType None :: _ => Ok None
  | Parquet.PrimitiveType (Some id) :: columns => field_id_map_from (S idx) columns (<[id := idx]> column_map)
  | Parquet.GroupType _ :: _ => Err (Error DataInvalid)
  end.
Definition build_field_id_map (parquet_schema : SchemaDescriptor) : result (option (gmap Z nat)) :=
  field_id_map_from 0 (Parquet.columns parquet_schema) ∅.

Fixpoint leaf_count (ty : Parquet.Type_) : nat :=
  match ty with
  | Parquet.PrimitiveType _ => 1
  | Parquet.GroupType fields => sum_list (leaf_count <$> fields)
  end.
(** The loop of [build_fallback_field_id_map]. *)
Fixpoint fallback_map_from (top_pos leaf_idx : nat) (fields : list Parquet.Type_) (column_map : gmap Z nat) :
    gmap Z nat :=
  match fields with
  | [] => column_map
  | field :: fields =>
      let field_id := wrapS 32 (Z.of_nat top_pos + 1) in
      fallback_map_from (S top_pos) (leaf_idx + leaf_count field) fields
        (if Parquet.is_primitive field then <[field_id := leaf_idx]> column_map else column_map)
  end.
Definition build_fallback_field_id_map (parquet_schema : SchemaDescriptor) : gmap Z nat :=
  fallback_map_from 0 0 parquet_schema ∅.
(** The map of [build_field_id_set_and_map]. *)
Definition field_id_map (parquet_schema : SchemaDescriptor) : result (gmap Z nat) :=
  let? map := build_field_id_map parquet_schema in
  Ok (match map with Some map => map | None => build_fallback_field_id_map parquet_schema end).

Section arrow.
Context {AT : ArrowTypes}.

(** ** Ids for the columns of a file without them *)

Definition mapped_id (f : MappedField) : option Z := match f with mkMappedField id _ _ => id end.
Definition mapped_names (f : MappedField) : list string := match f with mkMappedField _ names _ => names end.
(** [Field::new] with the name, type and nullability of [field]. *)
Definition remade (field : Arrow.Field) (metadata : gmap string string) : Arrow.Field :=
  Arrow.with_metadata (Arrow.new (Arrow.name field) (Arrow.data_type field) (Arrow.is_nullable field)) metadata.
Definition mapped_field (name_mapping : NameMapping) (field : Arrow.Field) : Arrow.Field :=
  let mapped_field_opt := list_find (fun f => Arrow.name field ∈ mapped_names f) name_mapping in
  remade field
    (match mapped_field_opt with
     | Some (_, mkMappedField (Some field_id) _ _) =>
         <[PARQUET_FIELD_ID_META_KEY := text (to_string_i field_id)]> (Arrow.metadata field)
     | _ => Arrow.metadata field
     end).
Definition apply_name_mapping_to_arrow_schema (arrow_schema : ArrowFields) (name_mapping : NameMapping) :
    ArrowFields :=
  mapped_field name_mapping <$> arrow_schema.
Definition add_fallback_field_ids_to_arrow_schema (arrow_schema : ArrowFields) : ArrowFields :=
  imap (fun pos field =>
    let field_id := wrapS 32 (Z.of_nat pos + 1) in
    remade field (<[PARQUET_FIELD_ID_META_KEY := text (to_string_i field_id)]> (Arrow.metadata field)))
    arrow_schema.

(** The part of [process_file_scan_task] that resolves the Arrow schema of a file: whether it
    lacks ids, and the schema to read it with. *)
Definition missing_field_ids (arrow_schema : ArrowFields) : bool :=
  match arrow_schema with
  | f :: _ => negb (bool_decide (is_Some (Arrow.metadata f !! PARQUET_FIELD_ID_META_KEY)))
  | [] => false
  end.
Definition resolve_arrow_schema (arrow_schema : ArrowFields) (name_mapping : option NameMapping)
    (task_schema : Schema) : ArrowFields :=
  let arrow_schema :=
    if missing_field_ids arrow_schema then
      match name_mapping with
      | Some name_mapping => apply_name_mapping_to_arrow_schema arrow_schema name_mapping
      | None => add_fallback_field_ids_to_arrow_schema arrow_schema
      end
    else arrow_schema in
  default arrow_schema (Int96.coerce_int96_timestamps task_schema arrow_schema).

(** ** Projection *)

Fixpoint include_leaf_field_id (field : NestedField) : list Z :=
  match field with
  | mkNestedField id _ _ field_type _ _ _ =>
      match field_type with
      | TPrimitive _ => [id]
      | TStruct fields => concat (include_leaf_field_id <$> fields)
      | TList element => include_leaf_field_id element
      | TMap key value => include_leaf_field_id key ++ include_leaf_field_id value
      end
  end.
Definition type_promotion_is_valid (file_type projected_type : option PrimitiveType.t) : bool :=
  match file_type, projected_type with
  | Some lhs, Some rhs =>
      bool_decide (lhs = rhs)
      || match lhs, rhs with
         | PrimitiveType.Int, PrimitiveType.Long => true
         | PrimitiveType.Float, PrimitiveType.Double => true
         | PrimitiveType.Decimal file_precision file_scale,
           PrimitiveType.Decimal requested_precision requested_scale =>
             (file_precision <=? requested_precision) && (file_scale =? requested_scale)
         | PrimitiveType.Fixed 16, PrimitiveType.Uuid => true
         | _, _ => false
         end
  | _, _ => false
  end.

(** [Fields::filter_leaves] of the Arrow crate: the leaves it visits, in order, and the fields
    that are left of those whose filter is true, given the position of a leaf. *)
Class ArrowLeaves := {
  leaves : ArrowFields -> list Arrow.Field;
  filter_leaves : (nat -> Arrow.Field -> bool) -> ArrowFields -> ArrowFields;
}.

Section projection.
Context {AL : ArrowLeaves} {LC : Lowercase}.

(** [i32::from_str] of the id in the metadata. *)
Definition leaf_id (f : Arrow.Field) : option Z :=
  id ← Arrow.metadata f !! PARQUET_FIELD_ID_META_KEY; parse_signed 32 (lit id).

(** [column_map]: the columns of the file that have a field in both schemas, of types that
    promote.  Fields with equal metadata have equal ids, so [projected_fields] is a function. *)
Definition projected_fields (fields : ArrowFields) : list (Arrow.Field * Z) :=
  omap (fun f => (fun id => (f, id)) <$> leaf_id f) (leaves fields).
Definition column_kept (fields : ArrowFields) (iceberg_schema_of_task iceberg_schema : Schema)
    (field : Arrow.Field) : option Z :=
  '(_, (_, field_id)) ← list_find (fun p : Arrow.Field * Z => fst p = field) (projected_fields fields);
  iceberg_field ← field_by_id iceberg_schema_of_task field_id;
  parquet_iceberg_field ← field_by_id iceberg_schema field_id;
  if type_promotion_is_valid (as_primitive_type (field_type parquet_iceberg_field))
       (as_primitive_type (field_type iceberg_field))
  then Some field_id else None.
Fixpoint column_map_from (kept : Arrow.Field -> option Z) (idx : nat) (leaves : list Arrow.Field)
    (column_map : gmap Z nat) : gmap Z nat :=
  match leaves with
  | [] => column_map
  | field :: leaves =>
      column_map_from kept (S idx) leaves
        (match kept field with Some field_id => <[field_id := idx]> column_map | None => column_map end)
  end.

Definition get_arrow_projection_mask_with_field_ids (leaf_field_ids : list Z)
    (iceberg_schema_of_task : Schema) (arrow_schema : ArrowFields) : result ProjectionMask :=
  let projected_arrow_schema :=
    filter_leaves (fun _ f =>
      match leaf_id f with Some field_id => bool_decide (field_id ∈ leaf_field_ids) | None => false end)
      arrow_schema in
  let? iceberg_schema := arrow_schema_to_schema projected_arrow_schema in
  let column_map :=
    column_map_from (column_kept arrow_schema iceberg_schema_of_task iceberg_schema) 0 (leaves arrow_schema) ∅ in
  let indices := omap (fun field_id => column_map !! field_id) leaf_field_ids in
  Ok (match indices with [] => All | _ => Leaves indices end).

Definition get_arrow_projection_mask_fallback (field_ids : list Z) (parquet_schema : SchemaDescriptor) :
    result ProjectionMask :=
  let root_indices :=
    omap (fun field_id =>
      let parquet_pos := wrapU 64 (wrapS 32 (field_id - 1)) in
      if parquet_pos <? Z.of_nat (length parquet_schema) then Some (Z.to_nat parquet_pos) else None) field_ids in
  Ok (match root_indices with [] => All | _ => Roots root_indices end).

Definition get_arrow_projection_mask (field_ids : list Z) (iceberg_schema_of_task : Schema)
    (parquet_schema : SchemaDescriptor) (arrow_schema : ArrowFields) (use_fallback : bool) :
    result ProjectionMask :=
  match field_ids with
  | [] => Ok All
  | _ =>
      if use_fallback then get_arrow_projection_mask_fallback field_ids parquet_schema
      else
        let leaf_field_ids :=
          concat ((fun field_id =>
                     match field_by_id iceberg_schema_of_task field_id with
                     | Some field => include_leaf_field_id field
                     | None => []
                     end) <$> field_ids) in
        get_arrow_projection_mask_with_field_ids leaf_field_ids iceberg_schema_of_task arrow_schema
  end.

(** The mask that [process_file_scan_task] reads a file with. *)
Definition is_metadata_field (field_id : Z) : bool :=
  bool_decide (field_id ∈ snd <$> ScanPlan.RESERVED_FIELD_IDS).
Definition task_projection_mask (file_schema : ArrowFields) (parquet_schema : SchemaDescriptor)
    (name_mapping : option NameMapping) (task_schema : Schema) (project_field_ids : list Z) :
    result ProjectionMask :=
  get_arrow_projection_mask
    (filter (fun id => negb (is_metadata_field id) = true) project_field_ids) task_schema parquet_schema
    (resolve_arrow_schema file_schema name_mapping task_schema) (missing_field_ids file_schema).
End projection.
End arrow.

(** ** Theory *)

(** The leaves are the columns, and are counted. *)
Lemma parquet_nested_ind (P : Parquet.Type_ -> Prop) :
  (forall id, P (Parquet.PrimitiveType id)) ->
  (forall fields, Forall P fields -> P (Parquet.GroupType fields)) -> forall ty, P ty.
Proof.
  intros Hp Hg. fix IH 1. intros [id|fields]; [apply Hp|]. apply Hg.
  induction fields as [|f fields IHf]; constructor; [apply IH|exact IHf].
Qed.
Lemma leaf_count_leaves ty : leaf_count ty = length (Parquet.leaves ty).
Proof.
  induction ty as [id|fields IH] using parquet_nested_ind; [done|]. cbn.
  induction IH as [|f fields Hf _ IH]; [done|]. cbn. rewrite length_app. cbn in IH. by rewrite IH, Hf.
Qed.
Lemma leaves_primitive ty : Forall (fun leaf => Parquet.is_primitive leaf = true) (Parquet.leaves ty).
Proof.
  induction ty as [id|fields IH] using parquet_nested_ind; [by repeat constructor|]. cbn.
  induction IH as [|f fields Hf _ IH]; [constructor|]. by apply Forall_app.
Qed.
Lemma columns_app a b : Parquet.columns (a ++ b) = Parquet.columns a ++ Parquet.columns b.
Proof. unfold Parquet.columns. by rewrite fmap_app, concat_app. Qed.
Lemma column_of_root root pos id :
  root !! pos = Some (Parquet.PrimitiveType id) ->
  Parquet.columns root !! length (Parquet.columns (take pos root)) = Some (Parquet.PrimitiveType id).
Proof.
  intros H. pose proof (columns_app (take pos root) (Parquet.PrimitiveType id :: drop (S pos) root)) as E.
  rewrite (take_drop_middle root pos _ H) in E. rewrite E. by rewrite lookup_app_r, Nat.sub_diag by lia.
Qed.

(** The map of positional ids. *)
Lemma fallback_map_spec fields : forall top_pos leaf_idx m,
  Z.of_nat (top_pos + length fields) < 2 ^ 31 ->
  (forall id, is_Some (m !! id) -> id <= Z.of_nat top_pos) ->
  (forall pos ty, fields !! pos = Some ty ->
     fallback_map_from top_pos leaf_idx fields m !! (Z.of_nat (top_pos + pos) + 1)
     = if Parquet.is_primitive ty then Some (leaf_idx + length (Parquet.columns (take pos fields)))%nat else None)
  /\ (forall id, id <= Z.of_nat top_pos \/ Z.of_nat (top_pos + length fields) < id ->
       fallback_map_from top_pos leaf_idx fields m !! id = m !! id).
Proof.
  induction fields as [|field fields IH]; intros top_pos leaf_idx m Hlen Hm; [done|].
  cbn [length] in Hlen. cbn [fallback_map_from]. rewrite wrapS_id by (first [lia|apply inS_spec; lia]).
  set (m' := if Parquet.is_primitive field then _ else m).
  assert (forall id, id <> Z.of_nat top_pos + 1 -> m' !! id = m !! id) as Hne.
  { intros id Hid. unfold m'. destruct (Parquet.is_primitive field); [|done]. by rewrite lookup_insert_ne. }
  destruct (IH (S top_pos) (leaf_idx + leaf_count field)%nat m') as [Hin Hout].
  { lia. }
  { intros id Hs. destruct (decide (id = Z.of_nat top_pos + 1)); [lia|]. rewrite Hne in Hs by done.
    apply Hm in Hs. lia. }
  split.
  - intros [|pos] ty Hty; cbn in Hty.
    + injection Hty as ->. rewrite Hout by lia. rewrite Nat.add_0_r. unfold m'. cbn [take Parquet.columns].
      destruct (Parquet.is_primitive ty).
      * rewrite lookup_insert_eq. cbn. by rewrite Nat.add_0_r.
      * apply eq_None_not_Some. intros Hs. apply Hm in Hs. lia.
    + specialize (Hin pos ty Hty). replace (top_pos + S pos)%nat with (S top_pos + pos)%nat by lia.
      rewrite Hin. destruct (Parquet.is_primitive ty); [|done]. f_equal.
      rewrite leaf_count_leaves. cbn [take]. unfold Parquet.columns. cbn. rewrite length_app. lia.
  - intros id Hid. cbn [length] in Hid. rewrite Hout by lia. apply Hne. lia.
Qed.

(** Ids that are read back. *)
Section theory.
Context {AT : ArrowTypes} {TL : ArrowTypesLaws AT}.

Lemma id_inserted field id :
  inS 32 id = true ->
  get_field_id_from_metadata
    (remade field (<[PARQUET_FIELD_ID_META_KEY := text (to_string_i id)]> (Arrow.metadata field))) = Ok id.
Proof using TL.
  intros Hid. unfold get_field_id_from_metadata, remade. destruct field as [n t b m]. cbn.
  rewrite lookup_insert_eq. by rewrite parse_signed_text.
Qed.
Lemma leaf_id_metadata f id : leaf_id f = Some id <-> get_field_id_from_metadata f = Ok id.
Proof.
  unfold leaf_id, get_field_id_from_metadata. destruct (Arrow.metadata f !! PARQUET_FIELD_ID_META_KEY); [|done].
  cbn. destruct (parse_signed 32 _); cbn; split; by intros [= ->].
Qed.

Context {LC : Lowercase}.

(** The schema of flat fields. *)
Definition nested_of (f : Arrow.Field) (id : Z) (ty : Ty) : NestedField :=
  mkNestedField id (Arrow.name f) (negb (Arrow.is_nullable f)) ty (get_field_doc f) None None.
Definition flat_fields (fields : ArrowFields) : Prop :=
  Forall (fun f => visited_as_primitive (Arrow.data_type f) = true) fields.

Lemma convert_primitive_primitive dt ty : convert_primitive dt = Ok ty -> exists p, ty = TPrimitive p.
Proof.
  destruct dt as [| | | | | | | | | | | | | | [] | [] []| | | | | | | | | | | | | | |]; cbn; intros H; try done; repeat case_match; try done;
    injection H as <-; eauto.
Qed.

Lemma visit_flat_field f :
  visited_as_primitive (Arrow.data_type f) = true ->
  visit_field (ArrowSchemaConverter None) f 0 = (fun ty => (ty, 0)) <$> convert_primitive (Arrow.data_type f).
Proof.
  intros Hp. unfold visit_field.
  change (visit_type (ArrowSchemaConverter None) (Arrow.data_type f))
    with (visit_type (ArrowSchemaConverter None) (Arrow.data_type f)).
  unfold mbind, sr_bind. cbn [before_field after_field ArrowSchemaConverter no_hook]. cbn.
  rewrite visit_arrow_primitive by done. cbn. unfold sr_lift. by destruct (convert_primitive _).
Qed.
Lemma visit_flat_fields fields :
  flat_fields fields ->
  mapSR (visit_field (ArrowSchemaConverter None)) fields 0
  = (fun tys => (tys, 0)) <$> mapR (fun f => convert_primitive (Arrow.data_type f)) fields.
Proof.
  induction 1 as [|f fields Hf _ IH]; [done|]. cbn [mapSR mapR]. unfold mbind at 1, sr_bind at 1.
  rewrite (visit_flat_field f Hf). destruct (convert_primitive _) as [ty|]; [|done]. cbn.
  unfold mbind, sr_bind. rewrite IH. by destruct (mapR _ fields).
Qed.
Lemma convert_flat_fields fields ids :
  RecordBatchTransformer.has_ids fields ids -> forall tys, length tys = length fields ->
  convert_fields None fields tys 0
  = Ok (zip_with (fun '(f, id) ty => nested_of f id ty) (zip fields ids) tys, 0).
Proof.
  induction 1 as [|f id fields ids Hf _ IH]; intros [|ty tys] Hlen; try done. cbn [convert_fields].
  unfold mbind, sr_bind. cbn [get_field_id]. unfold sr_lift. rewrite Hf. cbn.
  rewrite IH by (cbn in Hlen; lia). done.
Qed.

Lemma flat_schema fields ids :
  flat_fields fields -> RecordBatchTransformer.has_ids fields ids ->
  arrow_schema_to_schema fields
  = let? tys := mapR (fun f => convert_primitive (Arrow.data_type f)) fields in
    build (mkSchemaBuilder 0 (zip_with (fun '(f, id) ty => nested_of f id ty) (zip fields ids) tys) [] ∅ None).
Proof.
  intros Hf Hids. unfold arrow_schema_to_schema, visit_arrow_schema. unfold mbind at 1, sr_bind at 1.
  rewrite (visit_flat_fields fields Hf). destruct (mapR _ fields) as [tys|e] eqn:E; [|done].
  cbn [fmap result_fmap]. unfold a_schema, ArrowSchemaConverter, convert_schema, mbind at 1, sr_bind at 1.
  apply mapR_Ok, Forall2_length in E.
  rewrite (convert_flat_fields fields ids Hids tys) by done. unfold sr_lift. cbn. by repeat case_match.
Qed.

Lemma all_fields_primitive fields :
  Forall (fun f => exists p, field_type f = TPrimitive p) fields -> all_fields fields = fields.
Proof.
  intros H. unfold all_fields. cbn. induction H as [|f fields [p Hp] _ IH]; [done|].
  destruct f as [id name required ty doc i w]. cbn in Hp. subst ty. cbn. by rewrite IH.
Qed.

Lemma flat_schema_fields fields ids schema :
  flat_fields fields -> RecordBatchTransformer.has_ids fields ids ->
  arrow_schema_to_schema fields = Ok schema ->
  (forall i f id, fields !! i = Some f -> ids !! i = Some id ->
     exists ty, convert_primitive (Arrow.data_type f) = Ok ty /\ field_by_id schema id = Some (nested_of f id ty))
  /\ (forall id, id ∉ ids -> field_by_id schema id = None).
Proof.
  intros Hf Hids Hs. rewrite (flat_schema fields ids Hf Hids) in Hs. apply bind_Ok in Hs as (tys & Htys & Hs).
  apply mapR_Ok in Htys. apply build_Ok in Hs as (b & Hb & ->). apply build_indexed_Ok in Hb as (_ & Hi & _).
  cbn [b_fields] in Hi. set (nfs := zip_with _ _ _) in Hi.
  assert (forall i f id ty, fields !! i = Some f -> ids !! i = Some id -> tys !! i = Some ty ->
            nfs !! i = Some (nested_of f id ty)) as Hnfs.
  { intros i f id ty H1 H2 H3. unfold nfs. rewrite lookup_zip_with, lookup_zip_with. by rewrite H1, H2, H3. }
  assert (field_id <$> nfs = ids) as Hfid.
  { unfold nfs. clear -Hids Htys. revert tys Htys. induction Hids as [|f id fields ids _ _ IH]; intros tys Htys; [done|].
    apply Forall2_cons_inv_l in Htys as (ty & tys' & _ & Ht & ->). cbn. f_equal. by apply IH. }
  assert (Forall (fun f => exists p, field_type f = TPrimitive p) nfs) as Hprim.
  { apply Forall_forall. intros nf (i & Hnf)%list_elem_of_lookup. unfold nfs in Hnf.
    rewrite lookup_zip_with in Hnf. destruct (zip fields ids !! i) as [[f id]|]; [|done].
    destruct (tys !! i) as [ty|] eqn:Et; [|done]. injection Hnf as <-.
    destruct (Forall2_lookup_r _ _ _ _ _ Htys Et) as (f' & _ & Hc). by eapply convert_primitive_primitive. }
  apply index_by_id_spec in Hi as [Hnd Hm]. rewrite all_fields_primitive in Hnd, Hm by done.
  unfold field_by_id. rewrite Hm. split.
  - intros i f id Hfi Hidi. destruct (Forall2_lookup_l _ _ _ _ _ Htys Hfi) as (ty & Hty & Hc).
    exists ty. split; [done|]. apply elem_of_list_to_map_1.
    + rewrite <- list_fmap_compose. by erewrite list_fmap_ext by done.
    + apply list_elem_of_fmap. exists (nested_of f id ty). split; [done|].
      apply list_elem_of_lookup. exists i. by apply Hnfs.
  - intros id Hid. apply not_elem_of_list_to_map_1. rewrite <- list_fmap_compose.
    change (fst ∘ (fun f => (field_id f, f))) with field_id. by rewrite Hfid.
Qed.
End theory.

(** A flat schema is its leaves. *)
Class ArrowLeavesLaws {AT : ArrowTypes} (AL : ArrowLeaves) := {
  leaves_flat fields : flat_fields fields -> leaves fields = fields;
  filter_leaves_flat keep fields :
    flat_fields fields -> filter_leaves (fun _ => keep) fields = filter (fun f => keep f = true) fields;
}.

Section projection_theory.
Context {AT : ArrowTypes} {TL : ArrowTypesLaws AT} {AL : ArrowLeaves} {LL : ArrowLeavesLaws AL} {LC : Lowercase}.
Context (table : Schema) (fields : ArrowFields) (ids : list Z).
Context (Hflat : flat_fields fields) (Hids : RecordBatchTransformer.has_ids fields ids) (Hnd : NoDup ids).

(** The type of the column in the file promotes to that of the field in the table. *)
Definition promotes (f : Arrow.Field) (id : Z) : bool :=
  match field_by_id table id with
  | Some field =>
      type_promotion_is_valid (ok_value None (as_primitive_type <$> convert_primitive (Arrow.data_type f)))
        (as_primitive_type (field_type field))
  | None => false
  end.
(** The column that the file has for a field id. *)
Definition column_of (id : Z) : option nat :=
  '(i, _) ← list_find (fun id' => id' = id) ids;
  f ← fields !! i;
  if promotes f id then Some i else None.

Lemma column_of_at i f id :
  ids !! i = Some id -> fields !! i = Some f -> column_of id = if promotes f id then Some i else None.
Proof using Hnd.
  intros Hi Hf. unfold column_of.
  assert (list_find (fun id' => id' = id) ids = Some (i, id)) as ->.
  { apply list_find_Some. split; [done|]. split; [done|]. intros j y Hj Hlt ->.
    pose proof (NoDup_lookup _ _ _ _ Hnd Hi Hj). lia. }
  cbn. by rewrite Hf.
Qed.
Lemma column_of_absent id : id ∉ ids -> column_of id = None.
Proof.
  intros H. unfold column_of. assert (list_find (fun id' => id' = id) ids = None) as ->; [|done].
  apply list_find_None, Forall_forall. by intros x Hx ->.
Qed.

(** The columns that are asked for. *)
Definition requested_fields (requested : list Z) : ArrowFields :=
  filter (fun f => match leaf_id f with Some id => bool_decide (id ∈ requested) | None => false end = true) fields.
Lemma requested_ids requested :
  RecordBatchTransformer.has_ids (requested_fields requested) (filter (fun id => id ∈ requested) ids)
  /\ flat_fields (requested_fields requested).
Proof using Hflat Hids.
  unfold requested_fields, flat_fields. revert Hflat. pose proof Hids as H.
  clear Hids Hnd. induction H as [|f id fs ids' Hf _ IH]; intros Hflat; [by split; constructor|].
  apply Forall_cons_1 in Hflat as [Hp Hflat]. destruct (IH Hflat) as [H1 H2].
  apply leaf_id_metadata in Hf as Hl. destruct (decide (id ∈ requested)) as [Hin|Hin].
  - rewrite !filter_cons_True by (rewrite ?Hl; by try apply bool_decide_eq_true_2). by split; constructor.
  - rewrite (filter_cons_False _ f), (filter_cons_False _ id); [done|done|].
    rewrite Hl, bool_decide_eq_true. done.
Qed.

Lemma projected_fields_at i f id :
  fields !! i = Some f -> ids !! i = Some id ->
  exists j, list_find (fun p : Arrow.Field * Z => fst p = f) (projected_fields fields) = Some (j, (f, id)).
Proof using Hflat Hids LL.
  intros Hf Hid. assert (leaf_id f = Some id) as Hl.
  { apply leaf_id_metadata. destruct (Forall2_lookup_lr _ _ _ _ _ _ Hids Hf Hid). done. }
  unfold projected_fields. rewrite leaves_flat by done.
  assert ((f, id) ∈ omap (fun f => (fun id => (f, id)) <$> leaf_id f) fields) as Hin.
  { apply list_elem_of_omap. exists f. split; [by eapply list_elem_of_lookup_2|]. by rewrite Hl. }
  destruct (list_find_elem_of (fun p : Arrow.Field * Z => fst p = f) _ _ Hin eq_refl) as [[j [f' id']] Hj].
  exists j. rewrite Hj. apply list_find_Some in Hj as (Hj & Hff & _). cbn in Hff. subst f'.
  apply list_elem_of_lookup_2, list_elem_of_omap in Hj as (f' & _ & Hf').
  apply fmap_Some in Hf' as (id'' & E' & [= <- ->]). rewrite Hl in E'. by injection E' as ->.
Qed.

Lemma column_map_lookup (kept : Arrow.Field -> option Z) id : forall fs ids' start m,
  length fs = length ids' -> NoDup ids' ->
  (forall i f id', fs !! i = Some f -> ids' !! i = Some id' -> kept f = None \/ kept f = Some id') ->
  column_map_from kept start fs m !! id
  = match list_find (fun id' => id' = id) ids' with
    | Some (i, _) => match fs !! i ≫= kept with Some _ => Some (start + i)%nat | None => m !! id end
    | None => m !! id
    end.
Proof.
  induction fs as [|f fs IH]; intros [|id' ids'] start m Hlen Hn Hk; try done.
  apply NoDup_cons in Hn as [Hnin Hn]. cbn [column_map_from].
  rewrite (IH ids'); [|by injection Hlen|done|intros i; apply (Hk (S i))].
  cbn [list_find]. destruct (decide (id' = id)) as [->|Hne].
  - assert (list_find (fun id' => id' = id) ids' = None) as ->.
    { apply list_find_None, Forall_forall. by intros x Hx ->. }
    cbn. destruct (Hk 0%nat f id eq_refl eq_refl) as [->| ->]; [done|].
    rewrite lookup_insert_eq. by rewrite Nat.add_0_r.
  - assert ((match kept f with Some field_id => <[field_id := start]> m | None => m end) !! id = m !! id) as ->.
    { destruct (Hk 0%nat f id' eq_refl eq_refl) as [->| ->]; [done|]. by rewrite lookup_insert_ne. }
    destruct (list_find _ ids') as [[i x]|]; [|done]. cbn. by rewrite Nat.add_succ_r.
Qed.

Lemma column_kept_at requested schema i f id :
  arrow_schema_to_schema (requested_fields requested) = Ok schema ->
  fields !! i = Some f -> ids !! i = Some id ->
  column_kept fields table schema f = if bool_decide (id ∈ requested) && promotes f id then Some id else None.
Proof using Hflat Hids Hnd LL.
  intros Hs Hf Hid. unfold column_kept. destruct (projected_fields_at i f id Hf Hid) as [j ->]. cbn.
  destruct (requested_ids requested) as [Hrids Hrflat].
  destruct (flat_schema_fields _ _ schema Hrflat Hrids Hs) as [Hin Hout].
  unfold promotes. destruct (field_by_id table id) as [field|]; [|by rewrite andb_false_r]. cbn.
  destruct (bool_decide_reflect (id ∈ requested)) as [Hr|Hr]; cbn [andb].
  - assert (id ∈ filter (fun id => id ∈ requested) ids) as Hk.
    { apply list_elem_of_filter. split; [done|by eapply list_elem_of_lookup_2]. }
    apply list_elem_of_lookup in Hk as [k Hk].
    destruct (Forall2_lookup_r _ _ _ _ _ Hrids Hk) as (f' & Hf' & Hid').
    destruct (Hin k f' id Hf' Hk) as (ty & Hty & ->). cbn.
    assert (f' = f) as ->.
    { apply list_elem_of_lookup_2 in Hf'. unfold requested_fields in Hf'. apply list_elem_of_filter in Hf' as [_ Hf'].
      apply list_elem_of_lookup in Hf' as [i' Hi'].
      destruct (Forall2_lookup_l _ _ _ _ _ Hids Hi') as (id'' & Hi'' & Hid''). rewrite Hid' in Hid''.
      injection Hid'' as <-. pose proof (NoDup_lookup _ _ _ _ Hnd Hid Hi'') as <-. congruence. }
    by rewrite Hty.
  - rewrite Hout; [done|]. intros H. by apply list_elem_of_filter in H as [? _].
Qed.

(** The mask, if the requested columns have a schema. *)
Lemma mask_selects requested :
  get_arrow_projection_mask_with_field_ids requested table fields
  = (fun _ => match omap column_of requested with [] => All | indices => Leaves indices end)
    <$> arrow_schema_to_schema (requested_fields requested).
Proof using Hflat Hids Hnd LL.
  unfold get_arrow_projection_mask_with_field_ids. rewrite filter_leaves_flat by done.
  fold (requested_fields requested). destruct (arrow_schema_to_schema _) as [schema|e] eqn:Hs; [|done].
  cbn [mbind result_bind fmap result_fmap]. f_equal.
  match goal with |- context [omap ?f requested] => assert (omap f requested = omap column_of requested) as -> end;
    [|by destruct (omap column_of requested)].
  apply list_omap_ext, Forall2_same_length_lookup_2; [done|]. intros k id id' Hk Hk'. simplify_eq.
  apply list_elem_of_lookup_2 in Hk. rewrite leaves_flat by done.
  rewrite (column_map_lookup _ _ fields ids).
  - destruct (list_find (fun id' => id' = id) ids) as [[i x]|] eqn:E.
    + apply list_find_Some in E as (Hi & -> & _).
      destruct (Forall2_lookup_r _ _ _ _ _ Hids Hi) as (f & Hf & _).
      rewrite Hf. cbn. rewrite (column_kept_at requested schema i f id Hs Hf Hi), bool_decide_true by done. cbn.
      rewrite (column_of_at i f id Hi Hf). by destruct (promotes f id).
    + rewrite column_of_absent; [by rewrite lookup_empty|]. intros Hin.
      apply list_find_None in E. rewrite Forall_forall in E. by apply (E id Hin).
  - by apply Forall2_length in Hids.
  - done.
  - intros i f id' Hf Hid. rewrite (column_kept_at requested schema i f id' Hs Hf Hid).
    destruct (bool_decide _ && _); auto.
Qed.
End projection_theory.

(** ** Properties *)

(** The map of the ids that a file has. *)
Lemma field_id_map_from_spec ids : forall columns idx m,
  Forall2 (fun c id => c = Parquet.PrimitiveType (Some id)) columns ids -> NoDup ids ->
  exists m', field_id_map_from idx columns m = Ok (Some m') /\
    (forall i id, ids !! i = Some id -> m' !! id = Some (idx + i)%nat) /\ (forall id, id ∉ ids -> m' !! id = m !! id).
Proof.
  induction ids as [|id ids IH]; intros columns idx m H Hnd.
  - apply Forall2_nil_inv_r in H as ->. by exists m.
  - apply Forall2_cons_inv_r in H as (c & columns' & -> & H & ->). apply NoDup_cons in Hnd as [Hnin Hnd].
    cbn [field_id_map_from]. destruct (IH columns' (S idx) (<[id := idx]> m) H Hnd) as (m' & -> & Hin & Hout).
    exists m'. split; [done|]. split.
    + intros [|i] id' Hi; cbn in Hi.
      * injection Hi as <-. rewrite Hout by done. by rewrite lookup_insert_eq, Nat.add_0_r.
      * rewrite (Hin i id' Hi). f_equal. lia.
    + intros id' Hid. rewrite Hout by set_solver. apply lookup_insert_ne. set_solver.
Qed.

(** In a file that has field ids, filters read the column that has the id, wherever it is
    nested; a file with no ids in its first column is read by positions. *)
Theorem filter_columns_exact columns root ids :
  Parquet.columns root = columns ->
  (Forall2 (fun c id => c = Parquet.PrimitiveType (Some id)) columns ids -> NoDup ids ->
   exists m, field_id_map root = Ok m /\
     forall id i, m !! id = Some i <-> ids !! i = Some id)
  /\ (head columns = Some (Parquet.PrimitiveType None) ->
      field_id_map root = Ok (build_fallback_field_id_map root)).
Proof.
  intros <-. split.
  - intros H Hnd. destruct (field_id_map_from_spec ids _ 0%nat ∅ H Hnd) as (m & Hm & Hin & Hout).
    exists m. split; [by unfold field_id_map, build_field_id_map; rewrite Hm|]. intros id i. split.
    + intros Hid. destruct (decide (id ∈ ids)) as [Hi|Hi]; [|by rewrite Hout in Hid].
      apply list_elem_of_lookup in Hi as [j Hj]. rewrite (Hin j id Hj) in Hid. by injection Hid as <-.
    + apply Hin.
  - unfold field_id_map, build_field_id_map. destruct (Parquet.columns root) as [|c columns]; [done|].
    cbn. by intros [= ->].
Qed.

(** For a file without field ids and without a name mapping, the three positional
    computations agree: the id that the schema gives to a column is the one for which the
    projection reads that column and for which a filter reads its leaf. *)
Theorem fallback_columns_agree {AT : ArrowTypes} {TL : ArrowTypesLaws AT} {LC : Lowercase} root fields pos ty f :
  length fields = length root -> Z.of_nat (length root) < 2 ^ 31 ->
  root !! pos = Some ty -> fields !! pos = Some f ->
  let id := Z.of_nat pos + 1 in
  (exists f', add_fallback_field_ids_to_arrow_schema fields !! pos = Some f'
     /\ leaf_id f' = Some id /\ Arrow.name f' = Arrow.name f /\ Arrow.data_type f' = Arrow.data_type f)
  /\ get_arrow_projection_mask_fallback [id] root = Ok (Roots [pos])
  /\ (build_fallback_field_id_map root !! id
      = if Parquet.is_primitive ty then Some (length (Parquet.columns (take pos root))) else None)
  /\ (forall leaf, build_fallback_field_id_map root !! id = Some leaf ->
      Parquet.columns root !! leaf = Some ty).
Proof.
  intros Hlen Hbound Hty Hf id. assert (pos < length root)%nat as Hpos by by eapply lookup_lt_Some.
  assert (build_fallback_field_id_map root !! id
      = if Parquet.is_primitive ty then Some (length (Parquet.columns (take pos root))) else None) as Hmap.
  { unfold build_fallback_field_id_map, id. pose proof (fallback_map_spec root 0 0 ∅) as H.
    destruct H as [H _]; [cbn; lia|intros ? [? ?]; done|]. rewrite <- (Nat.add_0_l pos) at 1. by rewrite (H pos ty Hty). }
  split; [|split; [|split]].
  - unfold add_fallback_field_ids_to_arrow_schema. rewrite list_lookup_imap, Hf. cbn. eexists. split; [done|].
    rewrite wrapS_id by (first [lia|apply inS_spec; lia]). split; [|by destruct f].
    apply leaf_id_metadata, id_inserted, inS_spec. lia.
  - unfold get_arrow_projection_mask_fallback, id. cbn.
    replace (Z.of_nat pos + 1 - 1) with (Z.of_nat pos) by lia.
    rewrite wrapS_id by (first [lia|apply inS_spec; lia]). rewrite wrapU_id by (first [lia|apply inU_spec; lia]).
    destruct (Z.ltb_spec (Z.of_nat pos) (Z.of_nat (length root))); [|lia]. by rewrite Nat2Z.id.
  - done.
  - intros leaf Hleaf. rewrite Hmap in Hleaf. destruct ty as [i|]; [|done]. cbn in Hleaf. injection Hleaf as <-.
    by apply column_of_root.
Qed.

(** The ids of the leaves of the requested fields of the table. *)
Definition requested_leaves (table : Schema) (field_ids : list Z) : list Z :=
  concat ((fun field_id =>
             match field_by_id table field_id with
             | Some field => include_leaf_field_id field
             | None => []
             end) <$> field_ids).

Lemma column_of_spec {AT : ArrowTypes} table fields ids id i :
  RecordBatchTransformer.has_ids fields ids -> NoDup ids ->
  column_of table fields ids id = Some i
  <-> exists f, ids !! i = Some id /\ fields !! i = Some f /\ promotes table f id = true.
Proof.
  intros Hids Hnd. split.
  - unfold column_of. intros H. apply bind_Some in H as ([j x] & Hj & H).
    apply list_find_Some in Hj as (Hj & -> & _). apply bind_Some in H as (f & Hf & H).
    destruct (promotes table f id) eqn:E; [|done]. injection H as ->. by exists f.
  - intros (f & Hi & Hf & Hp). by rewrite (column_of_at table fields ids Hnd i f id Hi Hf), Hp.
Qed.

(** In a flat file with field ids, the projection mask has exactly the columns whose id is
    that of a leaf of a requested field and whose type promotes to the type of the table; it
    has every column if there is none, and fails only when a requested column has a type that
    the format does not have. *)
Theorem projection_selects {AT : ArrowTypes} {TL : ArrowTypesLaws AT} {AL : ArrowLeaves} {LL : ArrowLeavesLaws AL}
    {LC : Lowercase} table fields ids root field_ids :
  flat_fields fields -> RecordBatchTransformer.has_ids fields ids -> NoDup ids -> field_ids <> [] ->
  let selected i := exists f id, id ∈ requested_leaves table field_ids /\ ids !! i = Some id
    /\ fields !! i = Some f /\ promotes table f id = true in
  match get_arrow_projection_mask field_ids table root fields false with
  | Ok All => forall i, ~ selected i
  | Ok (Leaves indices) => indices <> [] /\ forall i, i ∈ indices <-> selected i
  | Ok (Roots _) => False
  | Err _ => is_ok (arrow_schema_to_schema (requested_fields fields (requested_leaves table field_ids))) = false
  end.
Proof.
  intros Hflat Hids Hnd Hne selected. unfold get_arrow_projection_mask. destruct field_ids as [|id0 field_ids]; [done|].
  fold (requested_leaves table (id0 :: field_ids)). rewrite (mask_selects table fields ids Hflat Hids Hnd).
  destruct (arrow_schema_to_schema _) as [schema|e]; [|done]. cbn [fmap result_fmap].
  assert (forall i, i ∈ omap (column_of table fields ids) (requested_leaves table (id0 :: field_ids)) <-> selected i)
    as Hsel.
  { intros i. rewrite list_elem_of_omap. split.
    - intros (id & Hid & Hi). apply (column_of_spec table fields ids id i Hids Hnd) in Hi as (f & ? & ? & ?).
      by exists f, id.
    - intros (f & id & Hid & Hi). exists id. split; [done|].
      apply (column_of_spec table fields ids id i Hids Hnd). by exists f. }
  destruct (omap _ _) as [|i js].
  - intros i Hi. apply Hsel in Hi. by apply not_elem_of_nil in Hi.
  - by split.
Qed.

(** With a name mapping, every column gets the id of the first mapped field that has its
    name, and the columns that none has keep having no id. *)
Theorem name_mapping_ids {AT : ArrowTypes} {TL : ArrowTypesLaws AT} fields mapping i f :
  fields !! i = Some f ->
  exists f', apply_name_mapping_to_arrow_schema fields mapping !! i = Some f'
    /\ Arrow.name f' = Arrow.name f /\ Arrow.data_type f' = Arrow.data_type f
    /\ forall j m, list_find (fun m => Arrow.name f ∈ mapped_names m) mapping = Some (j, m) ->
         match mapped_id m with
         | Some id => inS 32 id = true -> leaf_id f' = Some id
         | None => leaf_id f' = leaf_id f
         end.
Proof.
  intros Hf. unfold apply_name_mapping_to_arrow_schema. exists (mapped_field mapping f).
  rewrite list_lookup_fmap, Hf. split; [done|]. split; [by destruct f|]. split; [by destruct f|].
  intros j m Hm. unfold mapped_field. rewrite Hm. destruct m as [[id|] names nested]; cbn.
  - intros Hid. by apply leaf_id_metadata, id_inserted.
  - by destruct f.
Qed.

(** ** Reading and transforming

    The columns of a flat file that a mask leaves, in the order of the file. *)
Fixpoint masked_from {A} (indices : list nat) (idx : nat) (l : list A) : list A :=
  match l with
  | [] => []
  | x :: l => (if bool_decide (idx ∈ indices) then [x] else []) ++ masked_from indices (S idx) l
  end.
Definition masked {A} (mask : ProjectionMask) (l : list A) : list A :=
  match mask with All => l | Leaves indices | Roots indices => masked_from indices 0 l end.

Lemma masked_Forall2 {A B} (P : A -> B -> Prop) mask l k :
  Forall2 P l k -> Forall2 P (masked mask l) (masked mask k).
Proof.
  intros H. destruct mask as [|indices|indices]; [done| |]; cbn [masked]; generalize 0%nat;
    induction H; intros n; cbn; try case_bool_decide; cbn; auto.
Qed.
Lemma masked_sublist {A} mask (l : list A) : sublist (masked mask l) l.
Proof.
  destruct mask as [|indices|indices]; [done| |]; cbn [masked]; generalize 0%nat;
    induction l as [|x l IH]; intros n; cbn; try case_bool_decide; cbn; by constructor.
Qed.
Lemma masked_from_elem {A} indices idx (l : list A) i x :
  l !! i = Some x -> (idx + i)%nat ∈ indices -> x ∈ masked_from indices idx l.
Proof.
  revert idx i. induction l as [|y l IH]; intros idx [|i] Hi Hin; try done; cbn in *; apply elem_of_app.
  - injection Hi as <-. left. rewrite Nat.add_0_r in Hin. rewrite bool_decide_true by done. constructor.
  - right. apply (IH (S idx) i Hi). by rewrite Nat.add_succ_r in Hin.
Qed.

(** A column resolved among those that are left of a file is resolved in the file. *)
Lemma resolved_unmasked {AT : ArrowTypes} {AB : RecordBatchTransformer.ArrowBatches} schema mapped constants ids
    columns mask n id column :
  length columns = length ids -> (id ∈ ids -> id ∈ masked mask ids) ->
  RecordBatchTransformer.resolved schema mapped constants (masked mask ids) (masked mask columns) n id column ->
  RecordBatchTransformer.resolved schema mapped constants ids columns n id column.
Proof.
  intros Hlen Hin. unfold RecordBatchTransformer.resolved. destruct (constants !! id); [done|].
  intros [(i & c & Hi & Hc & Hcol)|[Hnin Hcol]]; [left|right; split; [by auto|done]].
  assert (Forall2 (fun x y => exists i, ids !! i = Some x /\ columns !! i = Some y) ids columns) as H.
  { apply Forall2_same_length_lookup_2; [done|]. intros j x y Hx Hy. by exists j. }
  apply (masked_Forall2 _ mask) in H. destruct (Forall2_lookup_lr _ _ _ _ _ _ H Hi Hc) as (j & Hj & Hcj).
  by exists j, c.
Qed.

(** The columns that are asked for are not lost by the mask. *)
Lemma mask_keeps {AT : ArrowTypes} {TL : ArrowTypesLaws AT} {AL : ArrowLeaves} {LL : ArrowLeavesLaws AL}
    {LC : Lowercase} table fields ids root field_ids mask id :
  flat_fields fields -> RecordBatchTransformer.has_ids fields ids -> NoDup ids ->
  get_arrow_projection_mask field_ids table root fields false = Ok mask ->
  id ∈ requested_leaves table field_ids ->
  (forall i f, ids !! i = Some id -> fields !! i = Some f -> promotes table f id = true) ->
  id ∈ ids -> id ∈ masked mask ids.
Proof.
  intros Hflat Hids Hnd Hmask Hreq Hp Hin. apply list_elem_of_lookup in Hin as [i Hi].
  destruct (Forall2_lookup_r _ _ _ _ _ Hids Hi) as (f & Hf & _).
  unfold get_arrow_projection_mask in Hmask. destruct field_ids as [|id0 field_ids].
  { injection Hmask as <-. by eapply list_elem_of_lookup_2. }
  fold (requested_leaves table (id0 :: field_ids)) in Hmask.
  rewrite (mask_selects table fields ids Hflat Hids Hnd) in Hmask.
  destruct (arrow_schema_to_schema _) as [schema|e]; [|done]. injection Hmask as <-.
  assert (i ∈ omap (column_of table fields ids) (requested_leaves table (id0 :: field_ids))) as Hsel.
  { apply list_elem_of_omap. exists id. split; [done|]. rewrite (column_of_at table fields ids Hnd i f id Hi Hf).
    by rewrite (Hp i f Hi Hf). }
  destruct (omap _ _) as [|j js]; [by apply not_elem_of_nil in Hsel|]. cbn [masked].
  by apply (masked_from_elem _ 0 ids i).
Qed.

(** C10 What a scan makes of a flat file with field ids: its batch, which has the columns of the
    projection mask, is transformed to columns that are, for each projected field in order, the
    constant of the field, else the column of the whole file that has the field's id, perhaps
    promoted, else a new column of its default value or nulls.  The projected fields are leaves
    of the table whose types in the file promote to those of the table, and some column is
    read.  When the schemas are found equal but for names, and batches are passed on rather
    than modified, the file must have exactly the projected columns, in their order, and no
    constants: the comparison does not look at ids, and without that condition columns are
    swapped ([reordered_columns_swap]) or mistaken for new ones ([added_column_takes_data]). *)
Theorem file_read_resolves {AT : ArrowTypes} {TL : ArrowTypesLaws AT} {AL : ArrowLeaves} {LL : ArrowLeavesLaws AL}
    {AB : RecordBatchTransformer.ArrowBatches} {LC : Lowercase} table arrow mapped constants projected fields ids
    columns root mask batch transform out :
  flat_fields fields -> RecordBatchTransformer.has_ids fields ids -> NoDup ids -> length columns = length ids ->
  (forall id, id ∈ projected -> id ∈ requested_leaves table projected) ->
  (forall i id f, id ∈ projected -> ids !! i = Some id -> fields !! i = Some f -> promotes table f id = true) ->
  schema_to_arrow_schema table = Ok arrow ->
  RecordBatchTransformer.build_field_id_to_arrow_schema_map arrow = Ok mapped ->
  get_arrow_projection_mask projected table root fields false = Ok mask ->
  RecordBatchTransformer.batch_schema batch = masked mask fields ->
  RecordBatchTransformer.batch_columns batch = masked mask columns -> masked mask columns <> [] ->
  RecordBatchTransformer.generate_batch_transform (masked mask fields) table projected constants = Ok transform ->
  match transform with
  | RecordBatchTransformer.Modify _ _ => True
  | _ => masked mask ids = projected /\ forall id, id ∈ projected -> constants !! id = None
  end ->
  RecordBatchTransformer.apply_transform transform batch = Ok out ->
  Forall2 (RecordBatchTransformer.resolved table mapped constants ids columns
             (match RecordBatchTransformer.batch_columns batch with
              | c :: _ => RecordBatchTransformer.array_len c | [] => 0%nat end))
    projected (RecordBatchTransformer.batch_columns out).
Proof.
  intros Hflat Hids Hnd Hlen Hreq Hp Harrow Hmapped Hmask Hbs Hbc Hne Hgen Horder Happly.
  assert (Forall2 (RecordBatchTransformer.resolved table mapped constants (masked mask ids) (masked mask columns)
             (match RecordBatchTransformer.batch_columns batch with
              | c :: _ => RecordBatchTransformer.array_len c | [] => 0%nat end))
    projected (RecordBatchTransformer.batch_columns out)) as H.
  { rewrite <- Hbc. rewrite <- Hbs in Hgen.
    apply (RecordBatchTransformer.transform_resolves table arrow mapped constants projected (masked mask ids) batch
             transform out); try done.
    - rewrite Hbs. by apply masked_Forall2.
    - by eapply sublist_NoDup, masked_sublist.
    - rewrite Hbs, Hbc. apply (Forall2_length (fun _ _ => True)), masked_Forall2, Forall2_same_length_lookup_2; [|done].
      by rewrite Hlen, (Forall2_length _ _ _ Hids).
    - by rewrite Hbc. }
  apply Forall2_same_length_lookup_2; [by apply Forall2_length in H|]. intros k id c Hk Hc.
  pose proof (Forall2_lookup_lr _ _ _ _ _ _ H Hk Hc) as Hr. apply list_elem_of_lookup_2 in Hk.
  eapply resolved_unmasked, Hr; [done|].
  eapply (mask_keeps table fields ids root projected mask id); eauto.
Qed.

(** *** Witnesses and deviations *)

Section witnesses.
#[local] Existing Instance concrete_arrow_types.
#[local] Existing Instance concrete_arrow_types_laws.
#[local] Existing Instance Concrete.concrete_lowercase.

(** Flat schemas: the leaves are the fields. *)
#[local] Instance flat_leaves : ArrowLeaves := {
  leaves fields := fields;
  filter_leaves keep fields := fst <$> filter (fun p => keep (snd p) (fst p) = true) (imap (fun i f => (f, i)) fields);
}.
#[local] Instance flat_leaves_laws : ArrowLeavesLaws flat_leaves.
Proof.
  split; [done|]. intros keep fields _. cbn. generalize 0%nat as start. clear. intros _.
  assert (forall (g : nat -> nat), fst <$> filter (fun p => keep (fst p) = true) (imap (fun i f => (f, g i)) fields)
            = filter (fun f => keep f = true) fields) as H; [|exact (H id)].
  induction fields as [|f fields IH]; intros g; [done|]. cbn [imap]. rewrite !filter_cons. cbn.
  destruct (decide (keep f = true)); cbn; [f_equal|]; apply (IH (g ∘ S)).
Qed.

Definition ex_root : SchemaDescriptor :=
  [Parquet.PrimitiveType None; Parquet.GroupType [Parquet.PrimitiveType None; Parquet.PrimitiveType None];
   Parquet.PrimitiveType None].
Definition bare (name : string) (ty : DataType) : Arrow.Field := Arrow.new name ty true.
Definition ex_fields : ArrowFields :=
  [bare "a" Arrow.Int32; bare "s" (Arrow.Struct [bare "x" Arrow.Int32; bare "y" Arrow.Int32]); bare "b" Arrow.Int32].

Lemma fallback_columns_agree_witness :
  Z.of_nat (length ex_root) < 2 ^ 31 /\ build_fallback_field_id_map ex_root !! 3 = Some 3%nat.
Proof.
  split; [done|].
  destruct (fallback_columns_agree ex_root ex_fields 2 (Parquet.PrimitiveType None) (bare "b" Arrow.Int32)
              eq_refl eq_refl eq_refl eq_refl) as (_ & _ & H & _).
  exact H.
Defined.

Definition ex_file : ArrowFields :=
  [ArrowValues.arrow_column "b" "2" Arrow.Int32; ArrowValues.arrow_column "a" "1" Arrow.Int32].
Definition ex_ids : list Z := [2; 1].
Lemma ex_file_has_ids : RecordBatchTransformer.has_ids ex_file ex_ids /\ flat_fields ex_file /\ NoDup ex_ids.
Proof.
  split; [|split].
  - apply Forall2_cons_2; [by vm_compute|]. apply Forall2_cons_2; [by vm_compute|constructor].
  - by repeat constructor.
  - by apply (bool_decide_eq_true_1 (NoDup ex_ids)).
Qed.
Definition ex_table : Schema := RecordBatchTransformer.ex_table_schema.

Lemma projection_selects_witness :
  get_arrow_projection_mask [2; 3] ex_table [] ex_file false = Ok (Leaves [0%nat])
  /\ exists f id, id ∈ requested_leaves ex_table [2; 3] /\ ex_ids !! 0%nat = Some id
       /\ ex_file !! 0%nat = Some f /\ promotes ex_table f id = true.
Proof.
  assert (get_arrow_projection_mask [2; 3] ex_table [] ex_file false = Ok (Leaves [0%nat])) as E by by vm_compute.
  split; [exact E|]. destruct ex_file_has_ids as (H1 & H2 & H3).
  pose proof (projection_selects ex_table ex_file ex_ids [] [2; 3] H2 H1 H3 ltac:(done)) as H.
  rewrite E in H. destruct H as [_ H]. apply (H 0%nat). by apply list_elem_of_singleton.
Defined.

Lemma filter_columns_exact_witness :
  Parquet.columns [Parquet.PrimitiveType (Some 7)] = [Parquet.PrimitiveType (Some 7)]
  /\ exists m, field_id_map [Parquet.PrimitiveType (Some 7)] = Ok m
       /\ forall id i, m !! id = Some i <-> [7] !! i = Some id.
Proof.
  split; [done|].
  apply (proj1 (filter_columns_exact _ [Parquet.PrimitiveType (Some 7)] [7] eq_refl)).
  - by repeat constructor.
  - apply NoDup_singleton.
Defined.

Lemma name_mapping_ids_witness :
  exists f', apply_name_mapping_to_arrow_schema [bare "b" Arrow.Int32] [mkMappedField (Some 2) ["b"%string] []] !! 0%nat
    = Some f' /\ leaf_id f' = Some 2.
Proof.
  destruct (name_mapping_ids [bare "b" Arrow.Int32] [mkMappedField (Some 2) ["b"%string] []] 0 (bare "b" Arrow.Int32)
              eq_refl) as (f' & H & _ & _ & Hid).
  exists f'. split; [exact H|]. apply (Hid 0%nat (mkMappedField (Some 2) ["b"%string] [])); by vm_compute.
Defined.

#[local] Existing Instance RecordBatchTransformer.concrete_batches.
(** Its batch has the column [b], which is promoted; [c] has its default value. *)
Definition ex_columns : list ArrayRef := [Int32Array [Some 3; None]; Int32Array [Some 1; Some 2]].
Definition ex_batch : RecordBatchTransformer.RecordBatch :=
  RecordBatchTransformer.mkRecordBatch (masked (Leaves [0%nat]) ex_file) (masked (Leaves [0%nat]) ex_columns) 2.
Definition ex_read : RecordBatchTransformer.BatchTransform :=
  ok_value RecordBatchTransformer.PassThrough
    (RecordBatchTransformer.generate_batch_transform (masked (Leaves [0%nat]) ex_file) ex_table [2; 3] ∅).
Definition ex_result : RecordBatchTransformer.RecordBatch :=
  ok_value ex_batch
    (RecordBatchTransformer.apply_transform ex_read ex_batch).
Definition ex_rows : nat :=
  match RecordBatchTransformer.batch_columns ex_batch with
  | c :: _ => RecordBatchTransformer.array_len c
  | [] => 0%nat
  end.
Lemma file_read_resolves_witness :
  RecordBatchTransformer.batch_columns ex_result = [Int64Array [Some 3; None]; Int32Array [Some 7; Some 7]]
  /\ Forall2 (RecordBatchTransformer.resolved ex_table
               RecordBatchTransformer.ex_mapped ∅ ex_ids ex_columns ex_rows)
      [2; 3] (RecordBatchTransformer.batch_columns ex_result).
Proof.
  split; [by vm_compute|]. destruct ex_file_has_ids as (H1 & H2 & H3).
  apply (file_read_resolves ex_table RecordBatchTransformer.ex_arrow
           RecordBatchTransformer.ex_mapped ∅ [2; 3] ex_file ex_ids ex_columns [] (Leaves [0%nat]) ex_batch ex_read
           ex_result H2 H1 H3 eq_refl).
  - intros id Hid. apply (bool_decide_eq_true_1 (id ∈ _)). revert id Hid. apply Forall_forall. by repeat constructor.
  - intros [|[|i]] id f _ Hi Hf; cbn in Hi, Hf; simplify_eq; by vm_compute.
  - apply (ok_value_Ok []). by vm_compute.
  - apply (ok_value_Ok ∅). by vm_compute.
  - by vm_compute.
  - done.
  - done.
  - done.
  - apply (ok_value_Ok RecordBatchTransformer.PassThrough). by vm_compute.
  - by vm_compute.
  - apply (ok_value_Ok ex_batch). by vm_compute.
Defined.

(** A file without ids whose columns are [b] and [a], with the mapping of their names.  Field
    1, the column [a], is at position 1; the mask and the filters use position 0. *)
Definition ex_mapping : NameMapping :=
  [mkMappedField (Some 1) ["a"%string] []; mkMappedField (Some 2) ["b"%string] []].
Definition ex_bare_file : ArrowFields := [bare "b" Arrow.Int32; bare "a" Arrow.Int32].
Definition ex_bare_root : SchemaDescriptor := [Parquet.PrimitiveType None; Parquet.PrimitiveType None].
Theorem name_mapping_read_by_position :
  omap leaf_id (resolve_arrow_schema ex_bare_file (Some ex_mapping) ex_table) = [2; 1]
  /\ task_projection_mask ex_bare_file ex_bare_root (Some ex_mapping) ex_table [1] = Ok (Roots [0%nat])
  /\ (fun m : gmap Z nat => m !! 1) <$> field_id_map ex_bare_root = Ok (Some 0%nat).
Proof. split; [|split]; by vm_compute. Qed.

(** A column of dates of a table whose field is now a timestamp is not in the mask: the
    transformer, which has no such column, gives nulls. *)
Definition ex_evolved : Schema :=
  ok_value RecordBatchTransformer.empty_schema (build (RecordBatchTransformer.ex_builder
    [RecordBatchTransformer.int_field 1 "a" PrimitiveType.Int None;
     RecordBatchTransformer.int_field 2 "b" PrimitiveType.Timestamp None])).
Theorem unpromoted_column_is_dropped :
  get_arrow_projection_mask [1; 2] ex_evolved []
    [ArrowValues.arrow_column "a" "1" Arrow.Int32; ArrowValues.arrow_column "b" "2" Arrow.Date32]
    false
  = Ok (Leaves [0%nat]).
Proof. by vm_compute. Qed.
End witnesses.
