(* ===== verification/EqualityDeletes.v ===== *)
(** * Equality deletes (arrow/caching_delete_file_loader.rs)

    How the rows of an equality delete file become a predicate on the rows that are left,
    and how the predicates of the delete files of a task are combined
    (arrow/delete_filter.rs).  Correctness: the predicate is true of exactly the rows that
    no row of the delete file equals in its columns, null being equal to null; the balanced
    tree of conjunctions changes the shape and not the meaning. *)

From S2P Require Import Prelude Utf8 Numerals Values Schema Expr ExprEval.
From S2P Require Import ArrowSchema ArrowValues.
From S2P Require Import RecordBatchTransformer.
From S2P Require RowFilter.

(** ** Collecting the columns ([EqDelColumnProcessor]) *)

(** [collected_columns]. *)
Definition Collected : Type := list (ArrayRef * string * Ty).

Definition EqDelColumnProcessor (equality_ids : gset Z) : SchemaWithPartnerVisitor ArrayRef Collected unit :=
  {| p_before_struct_field := no_partner_hook; p_after_struct_field := no_partner_hook;
     p_before_list_element := no_partner_hook; p_after_list_element := no_partner_hook;
     p_before_map_key := no_partner_hook; p_after_map_key := no_partner_hook;
     p_before_map_value := no_partner_hook; p_after_map_value := no_partner_hook;
     p_schema _ _ _ := mret tt;
     p_field field partner _ := sr_modify (fun collected =>
       if bool_decide (field_id field ∈ equality_ids)
          && bool_decide (is_Some (as_primitive_type (field_type field)))
       then collected ++ [(partner, field_name field, field_type field)] else collected);
     p_struct _ _ _ := mret tt;
     p_list _ _ _ := mret tt;
     p_map _ _ _ _ _ := mret tt;
     p_primitive _ _ := mret tt |}.

(** [EqDelRecordBatchPartnerAccessor]. *)
Definition EqDelRecordBatchPartnerAccessor : PartnerAccessor ArrayRef :=
  {| struct_partner schema_partner := Ok schema_partner;
     field_partner struct_partner field :=
       match struct_partner with
       | StructArray columns _ =>
           match list_find (fun c => Arrow.name (fst c) = field_name field) columns with
           | Some (_, c) => Ok (snd c)
           | None => Err (Error Unexpected)
           end
       | _ => Err (Error Unexpected)
       end;
     list_element_partner _ := Err (Error FeatureUnsupported);
     map_key_partner _ := Err (Error FeatureUnsupported);
     map_value_partner _ := Err (Error FeatureUnsupported) |}.

Section equality_deletes.
Context {V : ValueLib} {AT : ArrowTypes} {LC : Lowercase}.

(** An iterator over the datums of a column, and the name of its field. *)
Definition DatumColumn : Type := list (result (option Datum)) * string.

(** [EqDelColumnProcessor::finish], for a column. *)
Definition finish_column (collected : ArrayRef * string * Ty) : result DatumColumn :=
  let '(array, field_name, field_type) := collected in
  let? primitive_type := ok_or (as_primitive_type field_type) Unexpected in
  let? lit_vec := arrow_primitive_to_literal array field_type in
  Ok ((fun c : option Literal =>
         match c with
         | None => Ok None
         | Some (LPrimitive primitive_literal) => Ok (Some (mkDatum primitive_type primitive_literal))
         | Some _ => Err (Error Unexpected)
         end) <$> lit_vec, field_name).

Definition datum_columns (schema : Schema) (equality_ids : gset Z) (record_batch : RecordBatch) :
    result (list DatumColumn) :=
  let root_array :=
    StructArray (zip (batch_schema record_batch) (batch_columns record_batch))
      (replicate (batch_num_rows record_batch) false) in
  let? processed :=
    visit_schema_with_partner (EqDelColumnProcessor equality_ids) EqDelRecordBatchPartnerAccessor schema
      root_array [] in
  mapR finish_column (snd processed).

(** ** The predicate of the rows *)

Definition cell_predicate (field_name : string) (item : option Datum) : Predicate :=
  match item with
  | Some datum => ref_equal_to (mkReference field_name) datum
  | None => ref_is_null (mkReference field_name)
  end.

(** The [for] over the columns: the predicate of the row [i], the iterators having yielded
    [i] items. *)
Fixpoint row_predicate_from (columns : list DatumColumn) (i : nat) (row_predicate : Predicate) :
    result Predicate :=
  match columns with
  | [] => Ok row_predicate
  | (column, field_name) :: columns =>
      match column !! i with
      | Some item =>
          let? item := item in
          row_predicate_from columns i (predicate_and row_predicate (cell_predicate field_name item))
      | None => row_predicate_from columns i row_predicate
      end
  end.
(** The [while] over the rows of the first column. *)
Definition batch_predicates (columns : list DatumColumn) : result (list Predicate) :=
  match columns with
  | [] => Ok []
  | first :: _ =>
      mapR (fun i =>
        let? row_predicate := row_predicate_from columns i AlwaysTrue in
        rewrite_not (Not row_predicate)) (seq 0 (length (fst first)))
  end.

(** The loop over the stream; [batch_schema_iceberg] is the schema of the first batch.
    [inl] is the early return of [AlwaysTrue]. *)
Fixpoint stream_predicates (equality_ids : gset Z) (stream : list (result RecordBatch))
    (batch_schema_iceberg : option Schema) (row_predicates : list Predicate) :
    result (Predicate + list Predicate) :=
  match stream with
  | [] => Ok (inr row_predicates)
  | record_batch :: stream =>
      let? record_batch := record_batch in
      match batch_schema record_batch with
      | [] => Ok (inl AlwaysTrue)
      | _ =>
          let? schema :=
            match batch_schema_iceberg with
            | Some schema => Ok schema
            | None => arrow_schema_to_schema (batch_schema record_batch)
            end in
          let? columns := datum_columns schema equality_ids record_batch in
          let? predicates := batch_predicates columns in
          stream_predicates equality_ids stream (Some schema) (row_predicates ++ predicates)
      end
  end.

(** The inner [while let]: pairs are joined. *)
Fixpoint next_level (row_predicates : list Predicate) : list Predicate :=
  match row_predicates with
  | p1 :: rest =>
      match rest with
      | p2 :: rest => predicate_and p1 p2 :: next_level rest
      | [] => [p1]
      end
  | [] => []
  end.
(** The outer [while]; each level is shorter, so the length is fuel enough. *)
Fixpoint balanced (fuel : nat) (row_predicates : list Predicate) : option (list Predicate) :=
  if (1 <? length row_predicates)%nat then
    match fuel with
    | O => None
    | S fuel => balanced fuel (next_level row_predicates)
    end
  else Some row_predicates.
Definition combine_rows (row_predicates : list Predicate) : option Predicate :=
  row_predicates' ← balanced (length row_predicates) row_predicates;
  Some (match last row_predicates' with Some p => p | None => AlwaysTrue end).

(** [parse_equality_deletes_record_batch_stream]; [None] is a loop that does not end. *)
Definition parse_equality_deletes (equality_ids : gset Z) (stream : list (result RecordBatch)) :
    option (result Predicate) :=
  match stream_predicates equality_ids stream None [] with
  | Err e => Some (Err e)
  | Ok (inl p) => Some (Ok p)
  | Ok (inr row_predicates) => Ok <$> combine_rows row_predicates
  end.

(** [evolve_schema] (arrow/delete_file_loader.rs); what would follow an error is not asked
    for. *)
Fixpoint evolve_from {AB : ArrowBatches} (transformer : RecordBatchTransformer)
    (stream : list (result RecordBatch)) : list (result RecordBatch) :=
  match stream with
  | [] => []
  | Ok record_batch :: stream =>
      match process_record_batch record_batch transformer with
      | Ok (record_batch, transformer) => Ok record_batch :: evolve_from transformer stream
      | Err e => [Err e]
      end
  | Err e :: stream => [Err e]
  end.
Definition evolve_schema {AB : ArrowBatches} (record_batch_stream : list (result RecordBatch))
    (target_schema : Schema) (equality_ids : list Z) : list (result RecordBatch) :=
  evolve_from (builder_new target_schema equality_ids) record_batch_stream.

(** An equality delete file of a task: [load_file_for_task] and
    [parse_file_content_for_task], from the stream of the file to the predicate. *)
Definition load_equality_deletes {AB : ArrowBatches} (schema : Schema) (equality_ids : list Z)
    (stream : list (result RecordBatch)) : option (result Predicate) :=
  parse_equality_deletes (list_to_set equality_ids) (evolve_schema stream schema equality_ids).
End equality_deletes.

(** ** Theory *)

(** A row of a delete file: its columns, by name. *)
Definition DeleteRow : Type := list (string * option Datum).
(** The row [i] of the columns. *)
Definition delete_row (columns : list (list (option Datum) * string)) (i : nat) : DeleteRow :=
  (fun c : list (option Datum) * string => (c.2, mjoin (c.1 !! i))) <$> columns.

Section theory.
Context {V : ValueLib}.

(** A row that is read equals a row of a delete file. *)
Definition cell_equals (value : Reference -> option Datum) (cell : string * option Datum) : bool :=
  match value (mkReference cell.1), cell.2 with
  | Some x, Some d => datum_eqb x d
  | None, None => true
  | _, _ => false
  end.
Definition row_equals (value : Reference -> option Datum) (row : DeleteRow) : bool :=
  forallb (cell_equals value) row.

(** A well-formed predicate that decides a property of the values. *)
Definition decides (p : Predicate) (f : (Reference -> option Datum) -> bool) : Prop :=
  well_formed p = true /\ forall value, denote value p = Some (f value).

Lemma decides_and p q f g :
  decides p f -> decides q g -> decides (predicate_and p q) (fun value => f value && g value).
Proof.
  intros [Hp Df] [Hq Dg]. split.
  - apply (predicate_and_or_closed (fun p => well_formed p = true)); try done; cbn; by rewrite Hp, Hq.
  - intros value. rewrite predicate_and_denote, Df, Dg. by destruct (f value), (g value).
Qed.
Lemma decides_ext p f g : (forall value, f value = g value) -> decides p f -> decides p g.
Proof. intros H [Hw D]. split; [done|]. intros value. by rewrite D, H. Qed.

Lemma decides_cell cell :
  decides (cell_predicate cell.1 cell.2) (fun value => cell_equals value cell).
Proof.
  destruct cell as [name [d|]]; split; try done; intros value; cbn; unfold cell_equals; cbn;
    by destruct (value (mkReference name)).
Qed.

Definition ok_columns (columns : list (list (option Datum) * string)) : list DatumColumn :=
  (fun c : list (option Datum) * string => (Ok <$> c.1, c.2)) <$> columns.

(** The conjunction for a row is true of the rows that equal it. *)
Lemma row_predicate_decides columns n i p f :
  Forall (fun c => length c.1 = n) columns -> (i < n)%nat -> decides p f ->
  exists q, row_predicate_from (ok_columns columns) i p = Ok q
    /\ decides q (fun value => f value && row_equals value (delete_row columns i)).
Proof.
  intros Hlen Hi. revert p f. induction Hlen as [|[column name] columns Hc _ IH]; intros p f Hp.
  - exists p. split; [done|]. eapply decides_ext; [|exact Hp]. intros value. cbn. by rewrite andb_true_r.
  - cbn in Hc. destruct (lookup_lt_is_Some_2 column i) as [item Hitem]; [lia|].
    destruct (IH _ _ (decides_and _ _ _ _ Hp (decides_cell (name, item)))) as (q & Hq & Hd). exists q. split.
    + cbn. rewrite list_lookup_fmap, Hitem. exact Hq.
    + eapply decides_ext; [|exact Hd]. intros value. cbn. rewrite Hitem. cbn. by rewrite andb_assoc.
Qed.

Lemma negated_decides p f :
  decides p f -> exists q, rewrite_not (Not p) = Ok q /\ decides q (fun value => negb (f value)).
Proof.
  intros [Hw Hd]. destruct (rewrite_spec (Not p)) as (q & Hq & [Hqw _ Hqd _]); [done|].
  exists q. split; [done|]. split; [done|]. intros value. rewrite Hqd. cbn. by rewrite Hd.
Qed.

(** The predicates of a batch: each is true of the rows that differ from its row. *)
Lemma batch_predicates_decide columns n :
  Forall (fun c => length c.1 = n) columns ->
  exists ps, batch_predicates (ok_columns columns) = Ok ps
    /\ Forall2 (fun p row => decides p (fun value => negb (row_equals value row))) ps
         (if columns is [] then [] else delete_row columns <$> seq 0 n).
Proof.
  intros Hlen. destruct columns as [|[column name] columns]; [by exists []|].
  set (all := (column, name) :: columns) in *.
  assert (length column = n) as Hn by (by apply Forall_cons_1 in Hlen as [? _]).
  assert (forall i, (i < n)%nat -> exists q,
    (let? row_predicate := row_predicate_from (ok_columns all) i AlwaysTrue in rewrite_not (Not row_predicate)) = Ok q
    /\ decides q (fun value => negb (row_equals value (delete_row all i)))) as Hrow.
  { intros i Hi. destruct (row_predicate_decides all n i AlwaysTrue (fun _ => true) Hlen Hi) as (p & Hp & Hd);
      [by split|]. rewrite Hp. cbn. by apply negated_decides. }
  unfold batch_predicates. change (ok_columns all) with ((Ok <$> column, name) :: ok_columns columns) at 1.
  cbn [fst]. rewrite length_fmap, Hn. clear Hn Hlen.
  assert (forall k, (k <= n)%nat -> exists ps, mapR (fun i =>
        let? row_predicate := row_predicate_from (ok_columns all) i AlwaysTrue in
        rewrite_not (Not row_predicate)) (seq (n - k) k) = Ok ps
    /\ Forall2 (fun p row => decides p (fun value => negb (row_equals value row))) ps
         (delete_row all <$> seq (n - k) k)) as Hk.
  { induction k as [|k IH]; intros Hle; [by exists []|].
    destruct (IH ltac:(lia)) as (ps & Hps & HF). destruct (Hrow (n - S k)%nat ltac:(lia)) as (q & Hq & Hd).
    replace (n - k)%nat with (S (n - S k)) in * by lia. exists (q :: ps). cbn [seq mapR].
    change (mapR ?f (seq ?a k)) with (mapR f (seq a k)). cbn beta. rewrite Hq. cbn [mbind result_bind].
    rewrite Hps. split; [done|]. by constructor. }
  destruct (Hk n ltac:(lia)) as (ps & Hps & HF). rewrite Nat.sub_diag in *. eauto.
Qed.

(** Predicates that decide a list of properties, and their conjunction. *)
Definition all_decide (ps : list Predicate) (fs : list ((Reference -> option Datum) -> bool)) : Prop :=
  Forall2 decides ps fs.
Definition all_of (fs : list ((Reference -> option Datum) -> bool)) (value : Reference -> option Datum) :
    bool :=
  forallb (fun f => f value) fs.

Lemma pair_induction {T} (P : list T -> Prop) :
  P [] -> (forall x, P [x]) -> (forall x y l, P l -> P (x :: y :: l)) -> forall l, P l.
Proof.
  intros H0 H1 H2. fix IH 1. intros [|x [|y l]]; [exact H0|apply H1|apply H2, IH].
Qed.

(** A level has half the predicates, and the same conjunction. *)
Lemma next_level_decide ps : forall fs,
  all_decide ps fs ->
  exists gs, all_decide (next_level ps) gs /\ (forall value, all_of gs value = all_of fs value)
    /\ (length gs <= length ps)%nat /\ (1 < length ps -> length gs < length ps)%nat.
Proof.
  induction ps as [|p|p q ps IH] using pair_induction; intros fs H.
  - exists []. inversion H; subst. split_and!; [constructor|done|cbn; lia|cbn; lia].
  - exists fs. pose proof (Forall2_length _ _ _ H) as Hl. cbn in *. split_and!; [done|done|lia|lia].
  - apply Forall2_cons_inv_l in H as (f & fs1 & Hf & H & ->).
    apply Forall2_cons_inv_l in H as (g & fs' & Hg & H & ->).
    destruct (IH fs' H) as (gs & Hgs & Hall & Hlen & _).
    exists ((fun value => f value && g value) :: gs). split_and!.
    + constructor; [by apply decides_and|done].
    + intros value. unfold all_of in *. cbn. rewrite Hall. by rewrite andb_assoc.
    + cbn. lia.
    + cbn. lia.
Qed.

Lemma balanced_decides fuel ps fs :
  (length ps <= fuel)%nat -> all_decide ps fs ->
  exists ps' gs, balanced fuel ps = Some ps' /\ (length ps' <= 1)%nat /\ all_decide ps' gs
    /\ forall value, all_of gs value = all_of fs value.
Proof.
  revert ps fs. induction fuel as [|fuel IH]; intros ps fs Hlen H; cbn [balanced].
  - destruct ps; [|cbn in Hlen; lia]. exists [], fs. split_and!; [done|cbn; lia|done|done].
  - destruct (Nat.ltb_spec 1 (length ps)) as [Hl|Hl]; [|exists ps, fs; split_and!; [done|lia|done|done]].
    destruct (next_level_decide ps fs H) as (gs & Hgs & Hall & _ & Hlt). specialize (Hlt Hl).
    rewrite <- (Forall2_length _ _ _ Hgs) in Hlt.
    destruct (IH (next_level ps) gs ltac:(lia) Hgs) as (ps' & hs & Hb & Hp & Hd & Heq).
    exists ps', hs. split_and!; [done..|]. intros value. by rewrite Heq.
Qed.

(** The loops end, with a predicate that decides the conjunction. *)
Lemma combine_rows_decides ps fs :
  all_decide ps fs -> exists p, combine_rows ps = Some p /\ decides p (all_of fs).
Proof.
  intros H. destruct (balanced_decides (length ps) ps fs ltac:(lia) H) as (ps' & gs & Hb & Hl & Hd & Heq).
  unfold combine_rows. rewrite Hb. cbn. eexists. split; [reflexivity|].
  destruct ps' as [|p [|]]; [| |cbn in Hl; lia].
  - inversion Hd; subst. split; [done|]. intros value. by rewrite <- Heq.
  - apply Forall2_cons_inv_l in Hd as (f & gs' & Hf & Hd & ->). inversion Hd; subst. cbn.
    eapply decides_ext; [|exact Hf]. intros value. rewrite <- Heq. unfold all_of. cbn. by rewrite andb_true_r.
Qed.
End theory.

(** A stream of batches, each with its columns in datums. *)
Section stream.
Context {V : ValueLib} {AT : ArrowTypes} {LC : Lowercase}.

(** The column of a field in a batch: the first one of its name, of primitive type. *)
Inductive field_holds (batch : RecordBatch) (f : NestedField) : list (option Datum) -> Prop :=
| field_held p i arrow_field array (values : list (option PrimitiveLiteral.t)) :
    field_type f = TPrimitive p ->
    list_find (fun c => Arrow.name (fst c) = field_name f) (zip (batch_schema batch) (batch_columns batch))
      = Some (i, (arrow_field, array)) ->
    primitive_holds p array ((fun v : option PrimitiveLiteral.t => LPrimitive <$> v) <$> values) ->
    field_holds batch f ((fun v : option PrimitiveLiteral.t => mkDatum p <$> v) <$> values).

(** The columns with an equality id, and their rows. *)
Definition equality_columns (equality_ids : gset Z) (fields : list NestedField)
    (columns : list (list (option Datum))) : list (list (option Datum) * string) :=
  (fun fc : NestedField * list (option Datum) => (fc.2, field_name fc.1))
    <$> filter (fun fc => field_id fc.1 ∈ equality_ids) (zip fields columns).
Definition batch_rows (columns : list (list (option Datum) * string)) (n : nat) : list DeleteRow :=
  match columns with [] => [] | _ => delete_row columns <$> seq 0 n end.

Lemma finish_held p array name (values : list (option PrimitiveLiteral.t)) :
  primitive_holds p array ((fun v : option PrimitiveLiteral.t => LPrimitive <$> v) <$> values) ->
  finish_column (array, name, TPrimitive p)
  = Ok (Ok <$> ((fun v : option PrimitiveLiteral.t => mkDatum p <$> v) <$> values), name).
Proof.
  intros H. apply primitive_read in H. unfold finish_column, arrow_primitive_to_literal. cbn. rewrite H.
  cbn. f_equal. f_equal. rewrite <- !list_fmap_compose. apply list_fmap_ext. by intros ? [].
Qed.
Lemma columns_collected equality_ids batch n fields columns :
  Forall2 (field_holds batch) fields columns -> exists collected,
    (forall before, mapSR (visit_partner_field (EqDelColumnProcessor equality_ids)
              EqDelRecordBatchPartnerAccessor
              (StructArray (zip (batch_schema batch) (batch_columns batch)) n)) fields before
       = Ok ((fun _ => tt) <$> fields, before ++ collected))
    /\ mapR finish_column collected = Ok (ok_columns (equality_columns equality_ids fields columns)).
Proof.
  induction 1 as [|f column fields columns Hf _ (collected & IH & Hfin)].
  - exists []. split; [|done]. intros before. by rewrite app_nil_r.
  - destruct Hf as [p i af array values Ht Hfind Hh].
    assert (forall before, visit_partner_field (EqDelColumnProcessor equality_ids)
              EqDelRecordBatchPartnerAccessor
              (StructArray (zip (batch_schema batch) (batch_columns batch)) n) f before
            = Ok (tt, before ++ (if bool_decide (field_id f ∈ equality_ids)
                                 then [(array, field_name f, TPrimitive p)] else []))) as Hv.
    { intros before. unfold visit_partner_field. cbn [field_partner EqDelRecordBatchPartnerAccessor].
      rewrite Hfind, Ht. cbn. destruct (bool_decide _); cbn; [|by rewrite app_nil_r].
      rewrite Ht. done. }
    exists ((if bool_decide (field_id f ∈ equality_ids) then [(array, field_name f, TPrimitive p)] else [])
            ++ collected). split.
    + intros before. cbn [mapSR]. rewrite (run_bind _ _ _ _ _ (Hv before)), (run_bind _ _ _ _ _ (IH _)).
      cbn. by rewrite app_assoc.
    + unfold equality_columns. cbn [zip zip_with].
      destruct (decide (field_id f ∈ equality_ids)) as [Hin|Hin].
      * rewrite bool_decide_true, filter_cons_True by done. cbn [app].
        change (mapR finish_column (?x :: collected))
          with (let? b := finish_column x in let? bs := mapR finish_column collected in Ok (b :: bs)).
        by rewrite (finish_held _ _ _ _ Hh), Hfin.
      * by rewrite bool_decide_false, filter_cons_False by done.
Qed.

Lemma datum_columns_held equality_ids schema batch columns :
  Forall2 (field_holds batch) (as_struct schema) columns ->
  datum_columns schema equality_ids batch
  = Ok (ok_columns (equality_columns equality_ids (as_struct schema) columns)).
Proof.
  intros H. destruct (columns_collected equality_ids batch (replicate (batch_num_rows batch) false) _ _ H)
    as (collected & Hv & Hf).
  unfold datum_columns, visit_schema_with_partner, visit_struct_with_partner.
  cbn [struct_partner EqDelRecordBatchPartnerAccessor]. 
  enough (visit_type_with_partner (EqDelColumnProcessor equality_ids) EqDelRecordBatchPartnerAccessor
    (TStruct (as_struct schema)) (StructArray (zip (batch_schema batch) (batch_columns batch))
       (replicate (batch_num_rows batch) false)) [] = Ok (tt, collected)) as E.
  { unfold mbind at 1, result_bind, mbind, sr_bind, sr_lift. by rewrite E. }
  rewrite visit_partner_struct. by rewrite (run_bind _ _ _ _ _ (Hv [])).
Qed.

(** What a stream holds: the columns of each batch are those of the schema, the schema of the
    first batch, and together their equality columns have the rows [rows]. *)
Inductive stream_holds (equality_ids : gset Z) (schema : Schema) :
    list (result RecordBatch) -> list DeleteRow -> Prop :=
| stream_done : stream_holds equality_ids schema [] []
| stream_batch batch stream columns n rows :
    batch_schema batch <> [] ->
    Forall2 (field_holds batch) (as_struct schema) columns ->
    Forall (fun column => length column = n) columns ->
    stream_holds equality_ids schema stream rows ->
    stream_holds equality_ids schema (Ok batch :: stream)
      (batch_rows (equality_columns equality_ids (as_struct schema) columns) n ++ rows).

Lemma equality_columns_length equality_ids fields columns n :
  Forall (fun column => length column = n) columns ->
  Forall (fun c => length c.1 = n) (equality_columns equality_ids fields columns).
Proof.
  intros H. apply Forall_fmap, Forall_forall. intros [f c] Hin. apply list_elem_of_filter in Hin as [_ Hin].
  rewrite Forall_forall in H. apply H. by apply elem_of_zip_r in Hin.
Qed.

Definition differs (row : DeleteRow) (value : Reference -> option Datum) : bool := negb (row_equals value row).

Lemma stream_predicates_decide equality_ids schema stream rows :
  stream_holds equality_ids schema stream rows -> forall first ps fs,
  (first = Some schema \/ first = None /\ forall batch stream', stream = Ok batch :: stream' ->
     arrow_schema_to_schema (batch_schema batch) = Ok schema) ->
  all_decide ps fs ->
  exists ps', stream_predicates equality_ids stream first ps = Ok (inr ps')
    /\ all_decide ps' (fs ++ (differs <$> rows)).
Proof.
  induction 1 as [|batch stream cs n rows Hne Hcs Hlens Hst IH]; intros first ps fs Hfirst Hps.
  - exists ps. cbn. by rewrite app_nil_r.
  - cbn [stream_predicates]. apply (datum_columns_held equality_ids) in Hcs as Hcols.
    apply (equality_columns_length equality_ids (as_struct schema)) in Hlens as Hlen.
    set (columns := equality_columns equality_ids (as_struct schema) cs) in *.
    assert (match first with Some schema => Ok schema | None => arrow_schema_to_schema (batch_schema batch) end
            = Ok schema) as Hs.
    { destruct Hfirst as [->|[-> Hf]]; [done|by eapply Hf]. }
    destruct (batch_predicates_decide columns n Hlen) as (qs & Hqs & HF).
    destruct (IH (Some schema) (ps ++ qs) (fs ++ (differs <$> batch_rows columns n))) as (ps' & Hps' & Hall).
    { by left. }
    { apply Forall2_app; [done|]. apply Forall2_fmap_r.
      replace (batch_rows columns n) with (if columns is [] then [] else delete_row columns <$> seq 0 n)
        by (by destruct columns).
      eapply Forall2_impl; [exact HF|]. done. }
    exists ps'. split; [|by rewrite fmap_app, app_assoc].
    change (mbind (M := result) ?f (Ok batch)) with (f batch). cbn beta.
    destruct (batch_schema batch) as [|f0 fs0] eqn:E; [done|]. rewrite Hs. cbn. rewrite Hcols. cbn.
    by rewrite Hqs.
Qed.

(** The predicate of a delete file is true of the rows that differ from all of its rows. *)
Lemma equality_deletes_decide equality_ids schema stream rows :
  stream_holds equality_ids schema stream rows ->
  (forall batch stream', stream = Ok batch :: stream' ->
     arrow_schema_to_schema (batch_schema batch) = Ok schema) ->
  exists p, parse_equality_deletes equality_ids stream = Some (Ok p)
    /\ decides p (fun value => negb (existsb (row_equals value) rows)).
Proof.
  intros Hst Hfirst.
  destruct (stream_predicates_decide _ _ _ _ Hst None [] [] ltac:(right; by split) ltac:(constructor))
    as (ps & Hps & Hall).
  destruct (combine_rows_decides ps _ Hall) as (p & Hp & Hd). exists p.
  unfold parse_equality_deletes. rewrite Hps, Hp. split; [done|].
  eapply decides_ext; [|exact Hd]. intros value. unfold all_of. cbn [app].
  clear. induction rows as [|row rows IH]; [done|]. cbn. unfold differs at 1. by rewrite negb_orb, IH.
Qed.
End stream.

(** ** Properties *)

(** C6 The predicate of a flat equality delete file: when each batch of the file has columns of
    primitive types only, one for each field of the schema of its first batch and in the order
    of the fields, the loops end, and the predicate is true of exactly the rows that differ, in
    the equality columns, from every row of the file; two nulls do not differ.  Nested columns
    are not covered, and batches in another order give another predicate
    ([equality_deletes_swapped]). *)
Theorem equality_deletes_exact {V : ValueLib} {AT : ArrowTypes} {LC : Lowercase} equality_ids schema stream rows :
  stream_holds equality_ids schema stream rows ->
  (forall batch stream', stream = Ok batch :: stream' ->
     arrow_schema_to_schema (batch_schema batch) = Ok schema) ->
  exists p, parse_equality_deletes equality_ids stream = Some (Ok p) /\ well_formed p = true
    /\ forall value, denote value p = Some (negb (existsb (row_equals value) rows)).
Proof.
  intros Hst Hf. destruct (equality_deletes_decide equality_ids schema stream rows Hst Hf) as (p & Hp & Hw & Hd).
  by exists p.
Qed.

Section witnesses.
#[local] Existing Instance concrete_arrow_types.
#[local] Existing Instance Concrete.concrete_lowercase.
#[local] Existing Instance Concrete.concrete_values.
#[local] Existing Instance concrete_batches.

(** Two batches of a delete file, equality on [a] and [s]; [b] is one more column. *)
Definition ex_delete_schema : ArrowFields :=
  [arrow_column "a" "1" Arrow.Int32; arrow_column "b" "2" Arrow.Int32; arrow_column "s" "3" Arrow.Utf8].
Definition ex_delete_batches : list RecordBatch :=
  [mkRecordBatch ex_delete_schema
     [Int32Array [Some 5; Some 7]; Int32Array [Some 0; None]; StringArray [Some [120]; None]] 2;
   mkRecordBatch ex_delete_schema [Int32Array [None]; Int32Array [None]; StringArray [Some [121]]] 1].
Definition ex_delete_rows : list DeleteRow :=
  let text c := mkDatum PrimitiveType.String (PrimitiveLiteral.String [c]) in
  [[("a", Some (datum_int 5)); ("s", Some (text 120))]; [("a", Some (datum_int 7)); ("s", None)];
   [("a", None); ("s", Some (text 121))]].
Definition ex_schema : Schema := ok_value empty_schema (arrow_schema_to_schema ex_delete_schema).

(** Their columns, in datums. *)
Definition ints (vs : list (option Z)) : list (option Datum) :=
  (fun v : option Z => datum_int <$> v) <$> vs.
Definition texts (vs : list (option (list Z))) : list (option Datum) :=
  (fun v : option (list Z) => (fun t => mkDatum PrimitiveType.String (PrimitiveLiteral.String t)) <$> v) <$> vs.
Lemma ints_hold batch f i af vs :
  field_type f = TPrimitive PrimitiveType.Int ->
  list_find (fun c => Arrow.name (fst c) = field_name f) (zip (batch_schema batch) (batch_columns batch))
    = Some (i, (af, Int32Array vs)) ->
  field_holds batch f (ints vs).
Proof.
  intros Ht Hf. replace (ints vs) with ((fun v : option PrimitiveLiteral.t => mkDatum PrimitiveType.Int <$> v)
    <$> ((fun v : option Z => PrimitiveLiteral.Int <$> v) <$> vs)).
  - eapply field_held; [done|exact Hf|]. rewrite <- list_fmap_compose.
    replace (_ <$> vs) with (lits PrimitiveLiteral.Int vs); [constructor|].
    apply list_fmap_ext. by intros ? [].
  - rewrite <- list_fmap_compose. apply list_fmap_ext. by intros ? [].
Qed.
Lemma texts_hold batch f i af vs :
  field_type f = TPrimitive PrimitiveType.String ->
  list_find (fun c => Arrow.name (fst c) = field_name f) (zip (batch_schema batch) (batch_columns batch))
    = Some (i, (af, StringArray vs)) ->
  field_holds batch f (texts vs).
Proof.
  intros Ht Hf. replace (texts vs) with ((fun v : option PrimitiveLiteral.t => mkDatum PrimitiveType.String <$> v)
    <$> ((fun v : option (list Z) => PrimitiveLiteral.String <$> v) <$> vs)).
  - eapply field_held; [done|exact Hf|]. rewrite <- list_fmap_compose.
    replace (_ <$> vs) with (lits PrimitiveLiteral.String vs); [constructor; left|].
    apply list_fmap_ext. by intros ? [].
  - rewrite <- list_fmap_compose. apply list_fmap_ext. by intros ? [].
Qed.

Lemma ex_delete_fields : as_struct ex_schema =
  [mkField 1 "a" false (TPrimitive PrimitiveType.Int); mkField 2 "b" false (TPrimitive PrimitiveType.Int);
   mkField 3 "s" false (TPrimitive PrimitiveType.String)].
Proof. by vm_compute. Qed.

Lemma ex_batch_holds a b s n :
  Forall2 (field_holds (mkRecordBatch ex_delete_schema [Int32Array a; Int32Array b; StringArray s] n))
    (as_struct ex_schema) [ints a; ints b; texts s].
Proof.
  rewrite ex_delete_fields. apply Forall2_cons_2; [|apply Forall2_cons_2; [|apply Forall2_cons_2; [|constructor]]].
  - by eapply ints_hold.
  - by eapply ints_hold.
  - by eapply texts_hold.
Qed.

Lemma ex_stream_holds : stream_holds {[1; 3]} ex_schema (Ok <$> ex_delete_batches) ex_delete_rows.
Proof.
  replace ex_delete_rows with
    (batch_rows (equality_columns {[1; 3]} (as_struct ex_schema)
       [ints [Some 5; Some 7]; ints [Some 0; None]; texts [Some [120]; None]]) 2
     ++ batch_rows (equality_columns {[1; 3]} (as_struct ex_schema) [ints [None]; ints [None]; texts [Some [121]]]) 1
     ++ []) by (rewrite ex_delete_fields; by vm_compute).
  apply stream_batch; [done|apply ex_batch_holds|by repeat constructor|].
  apply stream_batch; [done|apply ex_batch_holds|by repeat constructor|]. apply stream_done.
Qed.

Lemma equality_deletes_exact_witness :
  exists p, parse_equality_deletes {[1; 3]} (Ok <$> ex_delete_batches) = Some (Ok p) /\ well_formed p = true
    /\ forall value, denote value p = Some (negb (existsb (row_equals value) ex_delete_rows)).
Proof.
  apply (equality_deletes_exact {[1; 3]} ex_schema); [exact ex_stream_holds|].
  intros batch stream' [= <- _]. apply (ok_value_Ok empty_schema). by vm_compute.
Defined.

(** *** Deviations *)

(** A delete file whose columns are in another order than the equality ids, and of one type:
    [evolve_schema] swaps their names, and the predicate looks for the values in the other
    columns. *)
Definition swapped_batch : RecordBatch :=
  mkRecordBatch [arrow_column "b" "2" Arrow.Int32; arrow_column "a" "1" Arrow.Int32]
    [Int32Array [Some 5]; Int32Array [Some 7]] 1.
Theorem equality_deletes_swapped :
  load_equality_deletes ex_ints [1; 2] [Ok swapped_batch]
  = Some (Ok (Or (Binary PredicateOperator.NotEq (mkReference "a") (datum_int 5))
                 (Binary PredicateOperator.NotEq (mkReference "b") (datum_int 7)))).
Proof. by vm_compute. Qed.

(** The delete of [a = 5]: its predicate is true of a row whose [a] is null, but the row
    filter that it is compiled to does not keep that row. *)
Definition delete_five : RecordBatch :=
  mkRecordBatch [arrow_column "a" "1" Arrow.Int32] [Int32Array [Some 5]] 1.
Theorem equality_deletes_drop_nulls :
  exists p, load_equality_deletes ex_ints [1] [Ok delete_five] = Some (Ok p)
    /\ denote (fun _ => None) p = Some true
    /\ (let? bound := Expr.bind p ex_ints true in
        RowFilter.run_filter bound (RowFilter.int_batch [None; Some 5; Some 6]))
       = Ok [None; Some false; Some true].
Proof.
  exists (Binary PredicateOperator.NotEq (mkReference "a") (datum_int 5)).
  split; [by vm_compute|]. split; [done|by vm_compute].
Qed.
End witnesses.
