(* ===== verification/DeleteFilter.v ===== *)
(** * The shared state of delete files (arrow/delete_filter.rs, caching_delete_file_loader.rs)

    Positional deletes as delete vectors by data file, equality deletes as predicates by
    delete file, and who loads what: the operations of [DeleteFilter] on its locked state,
    and the tasks that interleave between them.  Correctness: a task that goes on finds the
    positions of its delete files merged, nothing else, and no file is loaded twice; which
    interleavings make a task wait for ever is stated at the end. *)

From S2P Require Import Prelude Utf8 Values Schema Expr DataFile DeleteIndex ScanTask.
From S2P Require Import ParquetStatistics PageIndex DeleteVector.
From S2P Require Import ExprEval EqualityDeletes.
From S2P Require Concrete ArrowSchema RecordBatchTransformer.

(** [Arc<Notify>]: its identity. *)
Definition Notify : Type := nat.

Inductive EqDelState := EqLoading (notify : Notify) | EqLoaded (predicate : Predicate).
Inductive PosDelState := PosLoading (notify : Notify) | PosLoaded.
Inductive PosDelLoadAction := Load | AlreadyLoaded | WaitFor (notify : Notify).

Section delete_filter.
Context {R : Roaring} {RO : RoaringOps R}.

(** ** Positional deletes of a file *)

(** [parse_positional_deletes_record_batch_stream]: each batch as its columns of paths and
    positions, [None] where a column has another type; [result] from the batches before. *)
Definition insert_position (result : gmap string DeleteVector) (row : option string * option Z) :
    Prelude.result (gmap string DeleteVector) :=
  match row with
  | (Some file_path, Some pos) =>
      let vector := default treemap_default (result !! file_path) in
      Ok (<[file_path := snd (delete_vector_insert vector (wrapU 64 pos))]> result)
  | _ => Err (Error DataInvalid)
  end.
Fixpoint parse_positional_deletes
    (stream : list (result (option (list (option string)) * option (list (option Z)))))
    (result : gmap string DeleteVector) : Prelude.result (gmap string DeleteVector) :=
  match stream with
  | [] => Ok result
  | batch :: stream =>
      let? columns := batch in
      let? file_paths := ok_or (fst columns) DataInvalid in
      let? positions := ok_or (snd columns) DataInvalid in
      let? result := try_fold insert_position result (zip file_paths positions) in
      parse_positional_deletes stream result
  end.

(** ** The state *)

Record DeleteFileFilterState := mkFilterState {
  delete_vectors : gmap string DeleteVector;
  equality_deletes : gmap string EqDelState;
  positional_deletes : gmap string PosDelState;
}.

Definition get_delete_vector_for_path (st : DeleteFileFilterState) (data_file_path : string) :
    option DeleteVector :=
  delete_vectors st !! data_file_path.

(** [notifier] is the [Notify::new()] of the call. *)
Definition try_start_eq_del_load (st : DeleteFileFilterState) (notifier : Notify) (file_path : string) :
    option Notify * DeleteFileFilterState :=
  match equality_deletes st !! file_path with
  | Some _ => (None, st)
  | None =>
      (Some notifier,
       mkFilterState (delete_vectors st) (<[file_path := EqLoading notifier]> (equality_deletes st))
         (positional_deletes st))
  end.
Definition try_start_pos_del_load (st : DeleteFileFilterState) (notifier : Notify) (file_path : string) :
    PosDelLoadAction * DeleteFileFilterState :=
  match positional_deletes st !! file_path with
  | Some PosLoaded => (AlreadyLoaded, st)
  | Some (PosLoading notify) => (WaitFor notify, st)
  | None =>
      (Load,
       mkFilterState (delete_vectors st) (equality_deletes st)
         (<[file_path := PosLoading notifier]> (positional_deletes st)))
  end.
(** The [Notify] whose waiters are notified. *)
Definition finish_pos_del_load (st : DeleteFileFilterState) (file_path : string) :
    option Notify * DeleteFileFilterState :=
  (match positional_deletes st !! file_path with
   | Some (PosLoading notify) => Some notify
   | _ => None
   end,
   mkFilterState (delete_vectors st) (equality_deletes st)
     (<[file_path := PosLoaded]> (positional_deletes st))).
Definition upsert_delete_vector (st : DeleteFileFilterState) (data_file_path : string)
    (delete_vector : DeleteVector) : DeleteFileFilterState :=
  let entry :=
    match delete_vectors st !! data_file_path with
    | None => delete_vector
    | Some entry => bitor_assign entry delete_vector
    end in
  mkFilterState (<[data_file_path := entry]> (delete_vectors st)) (equality_deletes st)
    (positional_deletes st).
(** [insert_equality_delete], and what the task that it spawns does once the predicate is
    there. *)
Definition insert_equality_delete (st : DeleteFileFilterState) (notify : Notify)
    (delete_file_path : string) : DeleteFileFilterState :=
  mkFilterState (delete_vectors st) (<[delete_file_path := EqLoading notify]> (equality_deletes st))
    (positional_deletes st).
Definition store_equality_delete (st : DeleteFileFilterState) (delete_file_path : string)
    (eq_del : Predicate) : DeleteFileFilterState :=
  mkFilterState (delete_vectors st) (<[delete_file_path := EqLoaded eq_del]> (equality_deletes st))
    (positional_deletes st).

(** ** The predicate of a task *)

Definition is_equality_delete (f : FileScanTaskDeleteFile) : bool :=
  match delete_file_type f with EqualityDeletes => true | _ => false end.

(** [build_equality_delete_predicate], given what
    [get_equality_delete_predicate_for_delete_file_path] answers for each path. *)
Definition combine_equality_deletes (get_predicate : string -> option Predicate)
    (deletes : list FileScanTaskDeleteFile) : result Predicate :=
  try_fold (fun combined_predicate delete =>
    if negb (is_equality_delete delete) then Ok combined_predicate
    else
      let? predicate := ok_or (get_predicate (delete_file_path delete)) Unexpected in
      Ok (predicate_and combined_predicate predicate)) AlwaysTrue deletes.
Definition build_equality_delete_predicate {V : ValueLib} {LC : Lowercase}
    (get_predicate : string -> option Predicate) (task : FileScanTask) : result (option BoundPredicate) :=
  let? combined_predicate := combine_equality_deletes get_predicate (deletes task) in
  match combined_predicate with
  | AlwaysTrue => Ok None
  | _ =>
      let? bound_predicate := bind combined_predicate (task_schema task) (task_case_sensitive task) in
      Ok (Some bound_predicate)
  end.

(** ** Tasks

    Where a task is, between two accesses to the shared state: loading a positional delete
    file ([load_file_for_task] to the end of its part of [load_deletes]), loading an equality
    delete file, or asking for the predicate of one. *)
Inductive Pc :=
| PosStart (f : string)
| PosGot (f : string) (notify : Notify)
| PosWait (f : string) (notify : Notify)
| PosLoad (f : string)
| PosMerge (f : string) (results : list (string * DeleteVector))
| PosDone (f : string)
| PosFailed (f : string)
| EqStart (f : string)
| EqInsert (f : string)
| EqLoad (f : string) (notify : Notify)
| EqDone (f : string)
| EqFailed (f : string)
| Query (f : string)
| QueryGot (f : string) (notify : Notify)
| QueryWait (f : string) (notify : Notify)
| QueryWoken (f : string)
| QueryDone (f : string) (predicate : option Predicate)
| QueryPanic (f : string).

Record System := mkSystem {
  filter_state : DeleteFileFilterState;
  next_notify : Notify;
  tasks : gmap nat Pc;
}.

(** [notify_waiters]: tasks whose [Notified] exists go on; one that is created later does not
    see the notification. *)
Definition wake (notify : Notify) (pc : Pc) : Pc :=
  match pc with
  | PosWait f n => if (n =? notify)%nat then PosDone f else pc
  | QueryWait f n => if (n =? notify)%nat then QueryWoken f else pc
  | _ => pc
  end.
Definition wake_all (notify : option Notify) (tasks : gmap nat Pc) : gmap nat Pc :=
  match notify with Some n => wake n <$> tasks | None => tasks end.

(** What is stored: the delete vectors of each positional delete file, in the order of the
    map that the parser returns, and the predicate of each equality delete file; [None] where
    loading fails. *)
Context (contents : string -> option (list (string * DeleteVector))).
Context (eq_contents : string -> option Predicate).

(** A step of the task [tid]: its next place, the state, and the [Notify] it notifies. *)
Definition run (st : DeleteFileFilterState) (n : Notify) (pc : Pc) :
    option (Pc * DeleteFileFilterState * option Notify) :=
  match pc with
  | PosStart f =>
      let '(action, st) := try_start_pos_del_load st n f in
      Some (match action with
            | Load => PosLoad f
            | AlreadyLoaded => PosDone f
            | WaitFor notify => PosGot f notify
            end, st, None)
  | PosGot f notify => Some (PosWait f notify, st, None)
  | PosLoad f =>
      Some (match contents f with Some results => PosMerge f results | None => PosFailed f end, st, None)
  | PosMerge f ((data_file_path, delete_vector) :: results) =>
      Some (PosMerge f results, upsert_delete_vector st data_file_path delete_vector, None)
  | PosMerge f [] =>
      let '(notify, st) := finish_pos_del_load st f in
      Some (PosDone f, st, notify)
  | EqStart f =>
      let '(notify, st) := try_start_eq_del_load st n f in
      Some (match notify with Some _ => EqInsert f | None => EqDone f end, st, None)
  | EqInsert f => Some (EqLoad f n, insert_equality_delete st n f, None)
  | EqLoad f notify =>
      Some (match eq_contents f with
            | Some p => (EqDone f, store_equality_delete st f p, Some notify)
            | None => (EqFailed f, st, None)
            end)
  | Query f =>
      Some (match equality_deletes st !! f with
            | None => QueryDone f None
            | Some (EqLoading notify) => QueryGot f notify
            | Some (EqLoaded p) => QueryDone f (Some p)
            end, st, None)
  | QueryGot f notify => Some (QueryWait f notify, st, None)
  | QueryWoken f =>
      Some (match equality_deletes st !! f with
            | Some (EqLoaded p) => QueryDone f (Some p)
            | _ => QueryPanic f
            end, st, None)
  | _ => None
  end.

(** A task that is dropped at an [await], because another file of its [load_deletes] failed. *)
Definition dropped (pc : Pc) : option Pc :=
  match pc with
  | PosStart f | PosGot f _ | PosWait f _ | PosLoad f => Some (PosFailed f)
  | EqStart f | EqInsert f | EqLoad f _ => Some (EqFailed f)
  | _ => None
  end.

Inductive step : System -> System -> Prop :=
| step_drop s tid pc pc' :
    tasks s !! tid = Some pc -> dropped pc = Some pc' ->
    step s (mkSystem (filter_state s) (S (next_notify s)) (<[tid := pc']> (tasks s)))
| step_task s tid pc pc' st' notify :
    tasks s !! tid = Some pc ->
    run (filter_state s) (next_notify s) pc = Some (pc', st', notify) ->
    step s (mkSystem st' (S (next_notify s)) (wake_all notify (<[tid := pc']> (tasks s)))).

(** A loader with tasks that have not begun. *)
Definition fresh (pc : Pc) : Prop := match pc with PosStart _ | EqStart _ | Query _ => True | _ => False end.
Definition initial (s : System) : Prop :=
  filter_state s = mkFilterState ∅ ∅ ∅ /\ map_Forall (fun _ => fresh) (tasks s).
Definition reachable (s : System) : Prop := exists s0, initial s0 /\ rtc step s0 s.
End delete_filter.

(** ** The invariant *)

Section invariant.
Context {R : Roaring} {RO : RoaringOps R} {RL : RoaringLaws R} {OL : RoaringOpsLaws R RO RL}.
Context (contents : string -> option (list (string * DeleteVector))).
Context (eq_contents : string -> option Predicate).

(** A row is deleted, according to the state; all the positions of some results are there. *)
Definition deleted_in (st : DeleteFileFilterState) (df : string) (pos : Z) : Prop :=
  exists dv, get_delete_vector_for_path st df = Some dv /\ pos ∈ positions dv.
Definition merged (st : DeleteFileFilterState) (results : list (string * DeleteVector)) : Prop :=
  forall df v pos, (df, v) ∈ results -> pos ∈ positions v -> deleted_in st df pos.

(** The file whose loading a [Notify] stands for: a positional or an equality delete file. *)
Abbreviation Owners := (gmap nat (string + string)).

Definition task_ok (st : DeleteFileFilterState) (owner : Owners) (pc : Pc) : Prop :=
  match pc with
  | PosGot f n | PosWait f n =>
      owner !! n = Some (inl f)
      /\ (positional_deletes st !! f = Some PosLoaded \/ positional_deletes st !! f = Some (PosLoading n))
  | PosLoad f => exists n, positional_deletes st !! f = Some (PosLoading n)
  | PosMerge f rest =>
      (exists n, positional_deletes st !! f = Some (PosLoading n))
      /\ exists before, contents f = Some (before ++ rest) /\ merged st before
  | PosDone f => positional_deletes st !! f = Some PosLoaded
  | EqInsert f => exists n, equality_deletes st !! f = Some (EqLoading n)
  | EqLoad f n => owner !! n = Some (inr f) /\ equality_deletes st !! f = Some (EqLoading n)
  | QueryGot f n | QueryWait f n => owner !! n = Some (inr f)
  | QueryWoken f => exists p, equality_deletes st !! f = Some (EqLoaded p)
  | QueryDone f (Some p) => eq_contents f = Some p
  | QueryPanic _ => False
  | _ => True
  end.

Record state_ok (st : DeleteFileFilterState) (owner : Owners) (next : Notify) : Prop := {
  ok_loaded f : positional_deletes st !! f = Some PosLoaded ->
    exists results, contents f = Some results /\ merged st results;
  ok_pos_owner f n : positional_deletes st !! f = Some (PosLoading n) -> owner !! n = Some (inl f);
  ok_eq_owner f n : equality_deletes st !! f = Some (EqLoading n) -> owner !! n = Some (inr f);
  ok_eq_loaded f p : equality_deletes st !! f = Some (EqLoaded p) -> eq_contents f = Some p;
  ok_exact df pos : deleted_in st df pos ->
    exists f results v, contents f = Some results /\ (df, v) ∈ results /\ pos ∈ positions v;
  ok_next n : is_Some (owner !! n) -> (n < next)%nat;
}.

(** The file that a task is loading. *)
Definition claims (pc : Pc) : option (string + string) :=
  match pc with
  | PosLoad f | PosMerge f _ => Some (inl f)
  | EqInsert f | EqLoad f _ => Some (inr f)
  | _ => None
  end.
Definition no_shared_claim (tasks : gmap nat Pc) : Prop :=
  forall t1 t2 pc1 pc2 k, tasks !! t1 = Some pc1 -> tasks !! t2 = Some pc2 ->
    claims pc1 = Some k -> claims pc2 = Some k -> t1 = t2.

Definition inv (s : System) : Prop :=
  exists owner, state_ok (filter_state s) owner (next_notify s)
    /\ map_Forall (fun _ => task_ok (filter_state s) owner) (tasks s) /\ no_shared_claim (tasks s).

Lemma claims_state st owner pc k :
  task_ok st owner pc -> claims pc = Some k ->
  match k with
  | inl f => exists n, positional_deletes st !! f = Some (PosLoading n)
  | inr f => exists n, equality_deletes st !! f = Some (EqLoading n)
  end.
Proof. destruct pc; cbn; intros H; try done; intros [= <-]; try done; destruct H; eauto. Qed.

Lemma claims_wake n pc : claims (wake n pc) = claims pc.
Proof. destruct pc; try done; cbn; by destruct (_ =? n)%nat. Qed.

(** What a step may do to the files that other tasks look at. *)
Definition other_change (st st' : DeleteFileFilterState) (claimed : option (string + string)) : Prop :=
  (forall f, positional_deletes st' !! f = positional_deletes st !! f \/ positional_deletes st !! f = None
     \/ positional_deletes st' !! f = Some PosLoaded /\ claimed = Some (inl f))
  /\ (forall f, equality_deletes st' !! f = equality_deletes st !! f \/ equality_deletes st !! f = None
     \/ (forall p, equality_deletes st !! f <> Some (EqLoaded p)) /\ claimed = Some (inr f))
  /\ (forall df pos, deleted_in st df pos -> deleted_in st' df pos).

Lemma other_ok st st' owner owner' claimed pc :
  other_change st st' claimed -> owner ⊆ owner' ->
  (forall k, claimed = Some k -> claims pc <> Some k) ->
  task_ok st owner pc -> task_ok st' owner' pc.
Proof.
  intros (Hp & He & Hd) Ho Hc. destruct pc as [f|f n|f n|f|f rest|f|f|f|f|f n|f|f|f|f n|f n|f|f p|f]; try done.
  - intros [Hn H]. split; [by eapply lookup_weaken|].
    destruct (Hp f) as [->|[E|[-> _]]]; [done|rewrite E in H; by destruct H|by left].
  - intros [Hn H]. split; [by eapply lookup_weaken|].
    destruct (Hp f) as [->|[E|[-> _]]]; [done|rewrite E in H; by destruct H|by left].
  - intros [n H]. destruct (Hp f) as [E|[E|[_ E]]]; [exists n; by rewrite E|by rewrite E in H|by apply Hc in E].
  - intros ([n H] & before & Hb & Hm). split.
    + destruct (Hp f) as [E|[E|[_ E]]]; [exists n; by rewrite E|by rewrite E in H|by apply Hc in E].
    + exists before. split; [done|]. intros df v pos Hin Hpos. apply Hd. by eapply Hm.
  - intros H. cbn in *. destruct (Hp f) as [->|[E|[-> _]]]; [done|by rewrite E in H|done].
  - intros [n H]. destruct (He f) as [E|[E|[_ E]]]; [exists n; by rewrite E|by rewrite E in H|by apply Hc in E].
  - intros [Hn H]. split; [by eapply lookup_weaken|].
    destruct (He f) as [E|[E|[_ E]]]; [by rewrite E|by rewrite E in H|by apply Hc in E].
  - intros H. by eapply lookup_weaken.
  - intros H. by eapply lookup_weaken.
  - intros [p H]. destruct (He f) as [E|[E|[E _]]]; [exists p; by rewrite E|by rewrite E in H|by apply E in H].
Qed.

(** Waking the tasks that wait for a file that is loaded. *)
Lemma wake_ok st owner n k pc :
  owner !! n = Some k ->
  match k with
  | inl f => positional_deletes st !! f = Some PosLoaded
  | inr f => exists p, equality_deletes st !! f = Some (EqLoaded p)
  end ->
  task_ok st owner pc -> task_ok st owner (wake n pc).
Proof.
  intros Hn Hk H. destruct pc as [f|f m|f m|f|f rest|f|f|f|f|f m|f|f|f|f m|f m|f|f p|f]; try done; cbn.
  - destruct (Nat.eqb_spec m n) as [->|]; [|done]. destruct H as [Ho _]. rewrite Hn in Ho. by injection Ho as ->.
  - destruct (Nat.eqb_spec m n) as [->|]; [|done]. cbn in H. rewrite Hn in H. by injection H as ->.
Qed.

(** The file of a claim is not being loaded. *)
Definition unclaimed (st : DeleteFileFilterState) (k : string + string) : Prop :=
  match k with
  | inl f => positional_deletes st !! f = None
  | inr f => equality_deletes st !! f = None
  end.

Lemma wake_all_lookup notify tasks t :
  wake_all notify tasks !! t
  = (fun pc => match notify with Some n => wake n pc | None => pc end) <$> (tasks !! t : option Pc).
Proof. destruct notify; cbn; [apply lookup_fmap|by destruct (tasks !! t)]. Qed.

Lemma inv_update s tid pc pc' st' notify owner owner' :
  tasks s !! tid = Some pc ->
  state_ok (filter_state s) owner (next_notify s) ->
  map_Forall (fun _ => task_ok (filter_state s) owner) (tasks s) -> no_shared_claim (tasks s) ->
  other_change (filter_state s) st' (claims pc) -> owner ⊆ owner' ->
  state_ok st' owner' (S (next_notify s)) -> task_ok st' owner' pc' ->
  (forall k, claims pc' = Some k -> claims pc = Some k \/ unclaimed (filter_state s) k) ->
  (forall n, notify = Some n -> exists k, owner' !! n = Some k /\
     match k with
     | inl f => positional_deletes st' !! f = Some PosLoaded
     | inr f => exists p, equality_deletes st' !! f = Some (EqLoaded p)
     end) ->
  inv (mkSystem st' (S (next_notify s)) (wake_all notify (<[tid := pc']> (tasks s)))).
Proof.
  intros Hpc Hst Htasks Hunique Hother Ho Hst' Hpc' Hclaim Hnotify. exists owner'. cbn.
  split; [done|]. split.
  - intros t pct. rewrite wake_all_lookup. intros Ht. apply fmap_Some in Ht as (pc0 & Ht & ->).
    assert (task_ok st' owner' pc0) as H0.
    { apply lookup_insert_Some in Ht as [[<- <-]|[Hne Ht]]; [done|].
      eapply other_ok; [exact Hother|done| |by eapply Htasks]. intros k Hk Hk'.
      apply Hne. eapply (Hunique tid t); eauto. }
    destruct notify as [n|]; [|done]. destruct (Hnotify n eq_refl) as (k & Hk & Hl). by eapply wake_ok.
  - intros t1 t2 p1 p2 k. rewrite !wake_all_lookup.
    intros (q1 & H1 & ->)%fmap_Some (q2 & H2 & ->)%fmap_Some Hc1 Hc2.
    assert (claims q1 = Some k) as Hq1 by (destruct notify; [by rewrite claims_wake in Hc1|done]).
    assert (claims q2 = Some k) as Hq2 by (destruct notify; [by rewrite claims_wake in Hc2|done]).
    assert (forall t q, tasks s !! t = Some q -> claims q = Some k -> claims pc' = Some k -> t = tid) as Hnew.
    { intros t q Ht Hq Hk. destruct (Hclaim k Hk) as [Hpck|Hun].
      - by eapply (Hunique t tid).
      - pose proof (claims_state _ _ _ k (Htasks t q Ht) Hq) as Hs. destruct k; destruct Hs as [n Hs];
          unfold unclaimed in Hun; congruence. }
    apply lookup_insert_Some in H1 as [[<- <-]|[Hne1 H1]], H2 as [[<- <-]|[Hne2 H2]]; [done| | |].
    + symmetry. by eapply Hnew.
    + by eapply Hnew.
    + by eapply Hunique.
Qed.

(** A step that leaves the state alone. *)
Lemma same_change st k : other_change st st k.
Proof. split_and!; auto. Qed.
Lemma state_ok_next st owner n : state_ok st owner n -> state_ok st owner (S n).
Proof. intros [H1 H2 H3 H4 H5 H6]. split; auto. intros m Hm. apply H6 in Hm. lia. Qed.

Lemma owner_fresh st owner n k : state_ok st owner n -> owner !! n = None /\ owner ⊆ <[n := k]> owner.
Proof.
  intros H. assert (owner !! n = None) as E.
  { destruct (owner !! n) eqn:E; [|done]. pose proof (ok_next _ _ _ H n ltac:(eauto)). lia. }
  split; [done|]. by apply insert_subseteq.
Qed.
Lemma owner_next (owner : Owners) n k :
  (forall m, is_Some (owner !! m) -> (m < n)%nat) ->
  forall m, is_Some ((<[n := k]> owner : Owners) !! m) -> (m < S n)%nat.
Proof.
  intros H m. destruct (decide (m = n)) as [->|Hne]; [lia|]. rewrite lookup_insert_ne by done.
  intros Hm%H. lia.
Qed.

(** The positions after a delete vector is merged. *)
Lemma upsert_deleted st df v df' pos :
  deleted_in (upsert_delete_vector st df v) df' pos
  <-> deleted_in st df' pos \/ df' = df /\ pos ∈ positions v.
Proof using OL.
  unfold deleted_in, get_delete_vector_for_path, upsert_delete_vector. cbn [delete_vectors].
  destruct (decide (df' = df)) as [->|Hne].
  - rewrite lookup_insert_eq. destruct (delete_vectors st !! df) as [dv|].
    + split.
      * intros (d & [= <-] & H). unfold bitor_assign in H. apply treemap_or_positions in H as [H|H]; eauto.
      * intros [(d & [= <-] & H)|[_ H]]; (eexists; split; [done|]); apply treemap_or_positions; auto.
    + split; [intros (d & [= <-] & H); auto|]. intros [(d & [=] & _)|[_ H]]. eauto.
  - rewrite lookup_insert_ne by done. split; [auto|]. intros [H|[H _]]; [done|congruence].
Qed.

(** The states after a file is being loaded, or is loaded. *)
Lemma state_ok_pos_loading st owner n f :
  state_ok st owner n ->
  state_ok (mkFilterState (delete_vectors st) (equality_deletes st)
              (<[f := PosLoading n]> (positional_deletes st))) (<[n := inl f]> owner) (S n).
Proof.
  intros Hst. pose proof (owner_fresh _ _ _ (inl f) Hst) as [Hfresh _].
  destruct Hst as [H1 H2 H3 H4 H5 H6]. split; cbn.
  - intros g. rewrite lookup_insert_Some. intros [[_ [=]]|[_ Hg]]. by apply H1.
  - intros g m. rewrite lookup_insert_Some. intros [[<- [= <-]]|[_ Hg%H2]]; [apply lookup_insert_eq|].
    rewrite lookup_insert_ne; [done|]. congruence.
  - intros g m Hg%H3. rewrite lookup_insert_ne; [done|]. congruence.
  - done.
  - exact H5.
  - by apply owner_next.
Qed.
Lemma state_ok_eq_loading st owner n f :
  state_ok st owner n ->
  state_ok (mkFilterState (delete_vectors st) (<[f := EqLoading n]> (equality_deletes st))
              (positional_deletes st)) (<[n := inr f]> owner) (S n).
Proof.
  intros Hst. pose proof (owner_fresh _ _ _ (inr f) Hst) as [Hfresh _].
  destruct Hst as [H1 H2 H3 H4 H5 H6]. split; cbn; [done| | | |exact H5|by apply owner_next].
  - intros g m Hg%H2. rewrite lookup_insert_ne; [done|]. congruence.
  - intros g m. rewrite lookup_insert_Some. intros [[<- [= <-]]|[_ Hg%H3]]; [apply lookup_insert_eq|].
    rewrite lookup_insert_ne; [done|]. congruence.
  - intros g p. rewrite lookup_insert_Some. intros [[_ [=]]|[_ Hg]]. by apply H4.
Qed.
Lemma state_ok_pos_loaded st owner n f results :
  state_ok st owner n -> contents f = Some results -> merged st results ->
  state_ok (mkFilterState (delete_vectors st) (equality_deletes st)
              (<[f := PosLoaded]> (positional_deletes st))) owner (S n).
Proof.
  intros Hst Hc Hm. apply state_ok_next in Hst. destruct Hst as [H1 H2 H3 H4 H5 H6]. split; cbn; try done.
  - intros g. rewrite lookup_insert_Some. intros [[<- _]|[_ Hg]]; [by exists results|by apply H1].
  - intros g m. rewrite lookup_insert_Some. intros [[_ [=]]|[_ Hg]]. by apply H2.
Qed.
Lemma state_ok_eq_loaded st owner n f p :
  state_ok st owner n -> eq_contents f = Some p ->
  state_ok (store_equality_delete st f p) owner (S n).
Proof.
  intros Hst Hp. apply state_ok_next in Hst. destruct Hst as [H1 H2 H3 H4 H5 H6]. split; cbn; try done.
  - intros g m. rewrite lookup_insert_Some. intros [[_ [=]]|[_ Hg]]. by apply H3.
  - intros g q. rewrite lookup_insert_Some. intros [[<- [= <-]]|[_ Hg]]; [done|by apply H4].
Qed.
Lemma state_ok_upsert st owner n f before df v rest :
  state_ok st owner n -> contents f = Some (before ++ (df, v) :: rest) ->
  state_ok (upsert_delete_vector st df v) owner (S n).
Proof using OL.
  intros Hst Hc. apply state_ok_next in Hst. destruct Hst as [H1 H2 H3 H4 H5 H6]. split; cbn; try done.
  - intros g Hg. destruct (H1 g Hg) as (results & Hr & Hmr). exists results. split; [done|].
    intros df' v' pos Hin Hpos. apply upsert_deleted. left. by eapply Hmr.
  - intros df' pos [H|[-> H]]%upsert_deleted; [by apply H5|].
    exists f, (before ++ (df, v) :: rest), v. split; [done|]. split; [|done].
    apply elem_of_app. right. left.
Qed.

Lemma pos_change st f p k :
  positional_deletes st !! f = None \/ p = PosLoaded /\ k = Some (inl f) ->
  other_change st (mkFilterState (delete_vectors st) (equality_deletes st)
                     (<[f := p]> (positional_deletes st))) k.
Proof.
  intros H. split; [|by split; auto]. intros g. cbn. destruct (decide (g = f)) as [->|Hne].
  - right. destruct H as [H|[-> H]]; [by left|right]. by rewrite lookup_insert_eq.
  - left. by apply lookup_insert_ne.
Qed.
Lemma eq_change st f e k :
  equality_deletes st !! f = None
  \/ (forall p, equality_deletes st !! f <> Some (EqLoaded p)) /\ k = Some (inr f) ->
  other_change st (mkFilterState (delete_vectors st) (<[f := e]> (equality_deletes st))
                     (positional_deletes st)) k.
Proof.
  intros H. split; [auto|]. split; [|auto]. intros g. cbn. destruct (decide (g = f)) as [->|Hne]; [auto|].
  left. by apply lookup_insert_ne.
Qed.

Section step.
Context (s : System) (tid : nat) (owner : Owners).
Context (Hst : state_ok (filter_state s) owner (next_notify s)).
Context (Htasks : map_Forall (fun _ => task_ok (filter_state s) owner) (tasks s)).
Context (Hu : no_shared_claim (tasks s)).

(** Steps of the loader of a positional delete file. *)
Lemma inv_pos_start f :
  tasks s !! tid = Some (PosStart f) -> positional_deletes (filter_state s) !! f = None ->
  inv (mkSystem (mkFilterState (delete_vectors (filter_state s)) (equality_deletes (filter_state s))
         (<[f := PosLoading (next_notify s)]> (positional_deletes (filter_state s))))
       (S (next_notify s)) (wake_all None (<[tid := PosLoad f]> (tasks s)))).
Proof using Hst Htasks Hu.
  intros Hpc Hf.
  apply (inv_update s tid (PosStart f) _ _ None owner (<[next_notify s := inl f]> owner)); try done.
  - apply pos_change. by left.
  - apply (owner_fresh _ _ _ (inl f) Hst).
  - by apply state_ok_pos_loading.
  - exists (next_notify s). cbn. apply lookup_insert_eq.
  - intros k [= <-]. by right.
Qed.
Lemma inv_pos_merge f df v rest :
  tasks s !! tid = Some (PosMerge f ((df, v) :: rest)) ->
  inv (mkSystem (upsert_delete_vector (filter_state s) df v) (S (next_notify s))
         (wake_all None (<[tid := PosMerge f rest]> (tasks s)))).
Proof using OL Hst Htasks Hu.
  intros Hpc. destruct (Htasks tid _ Hpc) as ([n Hn] & before & Hc & Hm).
  apply (inv_update s tid (PosMerge f ((df, v) :: rest)) _ _ None owner owner); try done.
  - split; [auto|split; [auto|]]. intros df' pos H. apply upsert_deleted. by left.
  - by eapply state_ok_upsert.
  - cbn. split; [by exists n|]. exists (before ++ [(df, v)]). rewrite <- app_assoc. split; [done|].
    intros df' v' pos Hin Hpos. apply upsert_deleted.
    apply elem_of_app in Hin as [Hin|Hin]; [left; by eapply Hm|].
    apply list_elem_of_singleton in Hin as [= -> ->]. by right.
  - intros k Hk. by left.
Qed.
Lemma inv_pos_finish f :
  tasks s !! tid = Some (PosMerge f []) ->
  inv (mkSystem (snd (finish_pos_del_load (filter_state s) f)) (S (next_notify s))
         (wake_all (fst (finish_pos_del_load (filter_state s) f)) (<[tid := PosDone f]> (tasks s)))).
Proof using Hst Htasks Hu.
  intros Hpc. destruct (Htasks tid _ Hpc) as ([n Hn] & before & Hc & Hm). rewrite app_nil_r in Hc.
  unfold finish_pos_del_load. rewrite Hn. cbn [fst snd].
  apply (inv_update s tid (PosMerge f []) _ _ (Some n) owner owner); try done.
  - apply pos_change. by right.
  - by eapply state_ok_pos_loaded.
  - cbn. apply lookup_insert_eq.
  - intros m [= <-]. exists (inl f). split; [by apply (ok_pos_owner _ _ _ Hst)|]. cbn. apply lookup_insert_eq.
Qed.

(** Steps of the loader of an equality delete file. *)
Lemma inv_eq_start f :
  tasks s !! tid = Some (EqStart f) -> equality_deletes (filter_state s) !! f = None ->
  inv (mkSystem (insert_equality_delete (filter_state s) (next_notify s) f)
       (S (next_notify s)) (wake_all None (<[tid := EqInsert f]> (tasks s)))).
Proof using Hst Htasks Hu.
  intros Hpc Hf.
  apply (inv_update s tid (EqStart f) _ _ None owner (<[next_notify s := inr f]> owner)); try done.
  - apply eq_change. by left.
  - apply (owner_fresh _ _ _ (inr f) Hst).
  - by apply state_ok_eq_loading.
  - exists (next_notify s). cbn. apply lookup_insert_eq.
  - intros k [= <-]. by right.
Qed.
Lemma inv_eq_insert f :
  tasks s !! tid = Some (EqInsert f) ->
  inv (mkSystem (insert_equality_delete (filter_state s) (next_notify s) f)
       (S (next_notify s)) (wake_all None (<[tid := EqLoad f (next_notify s)]> (tasks s)))).
Proof using Hst Htasks Hu.
  intros Hpc. destruct (Htasks tid _ Hpc) as [n Hn].
  apply (inv_update s tid (EqInsert f) _ _ None owner (<[next_notify s := inr f]> owner)); try done.
  - apply eq_change. right. split; [|done]. intros p. by rewrite Hn.
  - apply (owner_fresh _ _ _ (inr f) Hst).
  - by apply state_ok_eq_loading.
  - cbn. split; [apply lookup_insert_eq|apply lookup_insert_eq].
  - intros k Hk. by left.
Qed.
Lemma inv_eq_store f n p :
  tasks s !! tid = Some (EqLoad f n) -> eq_contents f = Some p ->
  inv (mkSystem (store_equality_delete (filter_state s) f p)
       (S (next_notify s)) (wake_all (Some n) (<[tid := EqDone f]> (tasks s)))).
Proof using Hst Htasks Hu.
  intros Hpc Hp. destruct (Htasks tid _ Hpc) as [Ho Hn].
  apply (inv_update s tid (EqLoad f n) _ _ (Some n) owner owner); try done.
  - apply eq_change. right. split; [|done]. intros q. by rewrite Hn.
  - by apply state_ok_eq_loaded.
  - intros m [= <-]. exists (inr f). split; [done|]. exists p. cbn. apply lookup_insert_eq.
Qed.

(** Steps that leave the state alone. *)
Lemma inv_same pc pc' :
  tasks s !! tid = Some pc -> (forall k, claims pc' = Some k -> claims pc = Some k) ->
  task_ok (filter_state s) owner pc' ->
  inv (mkSystem (filter_state s) (S (next_notify s)) (wake_all None (<[tid := pc']> (tasks s)))).
Proof using Hst Htasks Hu.
  intros Hpc Hc H. apply (inv_update s tid pc pc' (filter_state s) None owner owner); try done.
  - apply same_change.
  - by apply state_ok_next.
  - intros k Hk. left. by apply Hc.
Qed.
End step.

(** The invariant is kept by every step. *)
Lemma inv_step s s' : inv s -> step contents eq_contents s s' -> inv s'.
Proof using OL.
  intros (owner & Hst & Htasks & Hu) Hstep.
  destruct Hstep as [s tid pc pc' Hpc Hd|s tid pc pc' st' notify Hpc Hrun].
  { apply (inv_same s tid owner Hst Htasks Hu pc pc' Hpc); destruct pc; try done; by injection Hd as <-. }
  pose proof (Htasks tid pc Hpc) as Hok.
  pose proof (inv_same s tid owner Hst Htasks Hu pc) as Hsame.
  destruct pc as [f|f n|f n|f|f rest|f|f|f|f|f n|f|f|f|f n|f n|f|f p|f]; cbn [run] in Hrun; try done.
  - unfold try_start_pos_del_load in Hrun.
    destruct (positional_deletes (filter_state s) !! f) as [[n|]|] eqn:E; injection Hrun as <- <- <-.
    + apply Hsame; [done..|]. cbn. split; [by apply (ok_pos_owner _ _ _ Hst)|by right].
    + by apply Hsame.
    + by eapply inv_pos_start.
  - injection Hrun as <- <- <-. by apply Hsame.
  - injection Hrun as <- <- <-. destruct (contents f) as [results|] eqn:E; apply Hsame; try done.
    cbn. split; [done|]. exists []. split; [done|]. intros ? ? ? []%not_elem_of_nil.
  - destruct rest as [|[df v] rest]; injection Hrun as <- <- <-;
      [by eapply inv_pos_finish|by eapply inv_pos_merge].
  - unfold try_start_eq_del_load in Hrun.
    destruct (equality_deletes (filter_state s) !! f) as [e|] eqn:E; injection Hrun as <- <- <-;
      [by apply Hsame|by eapply inv_eq_start].
  - injection Hrun as <- <- <-. by eapply inv_eq_insert.
  - destruct (eq_contents f) as [p|] eqn:E; injection Hrun as <- <- <-;
      [by eapply inv_eq_store|by apply Hsame].
  - injection Hrun as <- <- <-. apply Hsame; [done| |].
    + by destruct (_ !! f) as [[]|].
    + destruct (equality_deletes (filter_state s) !! f) as [[n|p]|] eqn:E; [|by apply (ok_eq_loaded _ _ _ Hst)|done].
      by apply (ok_eq_owner _ _ _ Hst).
  - injection Hrun as <- <- <-. by apply Hsame.
  - injection Hrun as <- <- <-. destruct Hok as [p Hp]. rewrite Hp. apply Hsame; [done..|]. cbn.
    by apply (ok_eq_loaded _ _ _ Hst).
Qed.

Lemma inv_initial s : initial s -> inv s.
Proof.
  intros [Hst Ht]. exists ∅. rewrite Hst. split; [|split].
  - split; cbn; try (intros *; by rewrite ?lookup_empty).
    intros df pos (dv & H & _). unfold get_delete_vector_for_path in H. cbn in H. by rewrite lookup_empty in H.
  - intros t pc Hpc. specialize (Ht t pc Hpc). by destruct pc.
  - intros t1 t2 pc1 pc2 k H1 _ Hc _. specialize (Ht t1 pc1 H1). by destruct pc1.
Qed.
Lemma inv_reachable s : reachable contents eq_contents s -> inv s.
Proof using OL.
  intros (s0 & H0 & Hs). apply inv_initial in H0. induction Hs as [|s1 s2 s3 Hstep _ IH]; [done|].
  apply IH. by eapply inv_step.
Qed.
End invariant.

(** ** Properties *)

(** The rows of the equality delete files of a task. *)
Definition equality_rows (rows_of : string -> list DeleteRow) (deletes : list FileScanTaskDeleteFile) :
    list DeleteRow :=
  concat ((fun d => if is_equality_delete d then rows_of (delete_file_path d) else []) <$> deletes).

(** The predicate of a task is true of exactly the rows that differ from every row of all its
    equality delete files, given that this holds file by file. *)
Theorem task_deletes_exact {V : ValueLib} get_predicate rows_of deletes :
  Forall (fun d => is_equality_delete d = true -> exists p, get_predicate (delete_file_path d) = Some p
    /\ decides p (fun value => negb (existsb (row_equals value) (rows_of (delete_file_path d))))) deletes ->
  exists p, combine_equality_deletes get_predicate deletes = Ok p
    /\ decides p (fun value => negb (existsb (row_equals value) (equality_rows rows_of deletes))).
Proof.
  intros H. unfold combine_equality_deletes.
  enough (forall p f, decides p f -> exists q,
    try_fold (fun combined_predicate delete =>
      if negb (is_equality_delete delete) then Ok combined_predicate
      else
        let? predicate := ok_or (get_predicate (delete_file_path delete)) Unexpected in
        Ok (predicate_and combined_predicate predicate)) p deletes = Ok q
    /\ decides q (fun value => f value && negb (existsb (row_equals value) (equality_rows rows_of deletes)))) as Hall.
  { by apply (Hall AlwaysTrue (fun _ => true)). }
  induction H as [|d deletes Hd _ IH]; intros p f Hp.
  - exists p. split; [done|]. eapply decides_ext; [|exact Hp]. intros value. by rewrite andb_true_r.
  - cbn [try_fold]. unfold equality_rows. cbn [fmap list_fmap concat]. fold (equality_rows rows_of deletes).
    destruct (is_equality_delete d); cbn [negb].
    + destruct (Hd eq_refl) as (q & Hq & Dq). rewrite Hq.
      destruct (IH _ _ (decides_and _ _ _ _ Hp Dq)) as (r & Hr & Dr). exists r. split; [exact Hr|].
      eapply decides_ext; [|exact Dr]. intros value. cbn beta.
      by rewrite existsb_app, negb_orb, andb_assoc.
    + by apply IH.
Qed.
(** A file whose loading has not begun is an error. *)
Theorem task_deletes_missing get_predicate before d after p :
  combine_equality_deletes get_predicate before = Ok p ->
  is_equality_delete d = true -> get_predicate (delete_file_path d) = None ->
  combine_equality_deletes get_predicate (before ++ d :: after) = Err (Error Unexpected).
Proof.
  unfold combine_equality_deletes. rewrite try_fold_app. intros -> Hd Hn. cbn. by rewrite Hd, Hn.
Qed.

Section properties.
Context {R : Roaring} {RO : RoaringOps R} {RL : RoaringLaws R} {OL : RoaringOpsLaws R RO RL}.

(** Parsing a positional delete file: the delete vector of each data file has exactly the
    positions that the rows give for it. *)
Definition batch_of (rows : list (string * Z)) :
    result (option (list (option string)) * option (list (option Z))) :=
  Ok (Some (Some <$> rows.*1), Some (Some <$> rows.*2)).
Definition has_position (result : gmap string DeleteVector) (file_path : string) (pos : Z) : Prop :=
  exists v, result !! file_path = Some v /\ pos ∈ positions v.

Lemma insert_position_has result f pos :
  inU 64 pos = true ->
  exists result', insert_position result (Some f, Some pos) = Ok result'
    /\ forall f' pos', has_position result' f' pos' <-> has_position result f' pos' \/ (f', pos') = (f, pos).
Proof using OL.
  intros Hpos. cbn. rewrite wrapU_id by done. eexists. split; [reflexivity|]. intros f' pos'.
  unfold has_position. destruct (decide (f' = f)) as [->|Hne].
  - rewrite lookup_insert_eq. split.
    + intros (v & [= <-] & H). apply treemap_insert_positions in H as [->|H]; [by right|..]; [|done].
      destruct (result !! f) as [v|]; cbn in H; [left; eauto|].
      rewrite treemap_default_positions in H. by apply not_elem_of_nil in H.
    + intros H. eexists. split; [done|]. apply treemap_insert_positions; [done|].
      destruct H as [(v & -> & H)|[= ->]]; auto.
  - rewrite lookup_insert_ne by done. split; [auto|]. intros [H|[= ]]; [done|congruence].
Qed.

Theorem parse_positional_deletes_exact batches :
  (forall rows f pos, rows ∈ batches -> (f, pos) ∈ rows -> inU 64 pos = true) ->
  exists result, parse_positional_deletes (batch_of <$> batches) ∅ = Ok result
    /\ forall f pos, has_position result f pos <-> exists rows, rows ∈ batches /\ (f, pos) ∈ rows.
Proof using OL.
  intros Hpos.
  assert (forall rows (result : gmap string DeleteVector),
    (forall f pos, (f, pos) ∈ rows -> inU 64 pos = true) ->
    exists result', try_fold insert_position result (zip (Some <$> rows.*1) (Some <$> rows.*2)) = Ok result'
      /\ forall f pos, has_position result' f pos <-> has_position result f pos \/ (f, pos) ∈ rows) as Hrows.
  { induction rows as [|[f pos] rows IH]; intros result H.
    - exists result. split; [done|]. intros f pos. rewrite elem_of_nil. tauto.
    - destruct (insert_position_has result f pos) as (r1 & E1 & H1); [apply (H f pos); left|].
      destruct (IH r1) as (r2 & E2 & H2); [intros f' p' Hin; apply (H f' p'); by right|].
      exists r2. split.
      + change (try_fold insert_position result (zip (Some <$> ((f, pos) :: rows).*1) (Some <$> ((f, pos) :: rows).*2)))
          with (let? acc := insert_position result (Some f, Some pos) in
                try_fold insert_position acc (zip (Some <$> rows.*1) (Some <$> rows.*2))).
        by rewrite E1.
      + intros f' p'. rewrite H2, H1, elem_of_cons. tauto. }
  assert (forall (result : gmap string DeleteVector), exists result',
    parse_positional_deletes (batch_of <$> batches) result = Ok result'
      /\ forall f pos, has_position result' f pos
           <-> has_position result f pos \/ exists rows, rows ∈ batches /\ (f, pos) ∈ rows) as Hall.
  { clear -Hpos Hrows. induction batches as [|rows batches IH]; intros result.
    - exists result. split; [done|]. intros f pos. split; [auto|].
      intros [H|(rows & []%not_elem_of_nil & _)]; done.
    - destruct (Hrows rows result) as (r1 & E1 & H1); [intros f pos; apply (Hpos rows); left|].
      destruct (IH ltac:(intros rows' f pos Hin; apply (Hpos rows'); by right) r1) as (r2 & E2 & H2).
      exists r2. split; [cbn; by rewrite E1|]. intros f pos. rewrite H2, H1. split.
      + intros [[H|H]|(rows' & Hin & H)]; [by left|right; exists rows; split; [left|done]|].
        right. exists rows'. split; [by right|done].
      + intros [H|(rows' & [->|Hin]%elem_of_cons & H)]; eauto. }
  destruct (Hall ∅) as (result & E & H). exists result. split; [done|]. intros f pos. rewrite H.
  split; [|auto]. intros [(v & Hv & _)|Hr]; [by rewrite lookup_empty in Hv|done].
Qed.

(** C7 A task that goes on after a positional delete file finds all its positions merged, however
    the tasks interleave, and whether it loaded the file itself or another task did. *)
Theorem positional_deletes_loaded contents eq_contents s tid f :
  reachable contents eq_contents s -> tasks s !! tid = Some (PosDone f) ->
  exists results, contents f = Some results /\ merged (filter_state s) results.
Proof using OL.
  intros (owner & Hst & Ht & _)%inv_reachable Hpc. apply (ok_loaded _ _ _ _ _ Hst). apply (Ht tid _ Hpc).
Qed.

(** No row is deleted that no positional delete file deletes. *)
Theorem delete_vectors_exact contents eq_contents s df pos :
  reachable contents eq_contents s -> deleted_in (filter_state s) df pos ->
  exists f results v, contents f = Some results /\ (df, v) ∈ results /\ pos ∈ positions v.
Proof using OL. intros (owner & Hst & _)%inv_reachable. apply (ok_exact _ _ _ _ _ Hst). Qed.

(** A file is loaded by at most one task; an answered query has the predicate of its file,
    and the [unreachable!] of the query is not reached. *)
Theorem loads_and_answers contents eq_contents s :
  reachable contents eq_contents s ->
  no_shared_claim (tasks s)
  /\ (forall tid f p, tasks s !! tid = Some (QueryDone f (Some p)) -> eq_contents f = Some p)
  /\ (forall tid f, tasks s !! tid <> Some (QueryPanic f)).
Proof using OL.
  intros (owner & Hst & Ht & Hu)%inv_reachable. split; [done|]. split.
  - intros tid f p Hpc. apply (Ht tid _ Hpc).
  - intros tid f Hpc. apply (Ht tid _ Hpc).
Qed.
End properties.

(** ** Schedules, and examples *)

Section schedules.
Context {R : Roaring} {RO : RoaringOps R}.
Context (contents : string -> option (list (string * DeleteVector))) (eq_contents : string -> option Predicate).

(** The next step of a task, and of a list of tasks in turn. *)
Definition exec (s : System) (tid : nat) : option System :=
  pc ← tasks s !! tid;
  '(pc', st', notify) ← run contents eq_contents (filter_state s) (next_notify s) pc;
  Some (mkSystem st' (S (next_notify s)) (wake_all notify (<[tid := pc']> (tasks s)))).
Definition schedule (s : System) (tids : list nat) : option System :=
  foldl (fun s tid => s ≫= fun s => exec s tid) (Some s) tids.
Definition starting (pcs : list Pc) : System :=
  mkSystem (mkFilterState ∅ ∅ ∅) 0%nat (list_to_map (zip (seq 0%nat (length pcs)) pcs)).

Lemma exec_step s tid s' : exec s tid = Some s' -> step contents eq_contents s s'.
Proof.
  unfold exec. destruct (tasks s !! tid) as [pc|] eqn:E; [|done]. cbn.
  destruct (run _ _ _ _ pc) as [[[pc' st'] notify]|] eqn:Er; [|done]. cbn. intros [= <-].
  by eapply step_task.
Qed.
Lemma schedule_reachable s tids s' :
  initial s -> schedule s tids = Some s' -> reachable contents eq_contents s'.
Proof.
  intros Hi Hs. exists s. split; [done|]. clear Hi. revert s Hs. induction tids as [|tid tids IH]; intros s Hs.
  - injection Hs as <-. apply rtc_refl.
  - unfold schedule in Hs. cbn in Hs. destruct (exec s tid) as [s1|] eqn:E.
    + eapply rtc_l; [by eapply exec_step|]. by apply IH.
    + exfalso. clear -Hs. induction tids; [done|]. by apply IHtids.
Qed.

(** No task can go on. *)
Definition stuck (s : System) : Prop := forall tid, exec s tid = None.
Definition stuckb (s : System) : bool :=
  forallb (fun t => match exec s (fst t) with None => true | Some _ => false end) (map_to_list (tasks s)).
Lemma stuckb_stuck s : stuckb s = true -> stuck s.
Proof.
  unfold stuckb, stuck. rewrite forallb_forall. intros H tid.
  destruct (tasks s !! tid) as [pc|] eqn:E; [|by unfold exec; rewrite E].
  specialize (H (tid, pc)). cbn in H. destruct (exec s tid); [|done].
  by discriminate H; apply list_elem_of_In, elem_of_map_to_list.
Qed.

Lemma starting_initial pcs : Forall fresh pcs -> initial (starting pcs).
Proof.
  intros H. split; [done|]. intros tid pc Hpc. apply elem_of_list_to_map_2 in Hpc.
  rewrite Forall_forall in H. apply H. apply list_elem_of_In, in_combine_r in Hpc. by apply list_elem_of_In.
Qed.
(** What a schedule of fresh tasks leads to. *)
Lemma scheduled (test : System -> bool) pcs tids :
  Forall fresh pcs ->
  match schedule (starting pcs) tids with Some s => test s | None => false end = true ->
  exists s, reachable contents eq_contents s /\ test s = true.
Proof.
  intros Hp Hs. destruct (schedule (starting pcs) tids) as [s|] eqn:E; [|done].
  exists s. split; [|done]. eapply schedule_reachable; [by apply starting_initial|exact E].
Qed.
End schedules.

Section witnesses.
#[local] Existing Instance concrete_roaring.
#[local] Existing Instance concrete_roaring_laws.
#[local] Existing Instance concrete_roaring_ops.
#[local] Existing Instance concrete_roaring_ops_laws.

(** A delete file for the data files a and b; nothing else can be loaded. *)
Definition ex_contents (f : string) : option (list (string * DeleteVector)) :=
  if decide (f = "d") then Some [("a", of_positions [1; 4]); ("b", of_positions [2])] else None.
Definition ex_eq_contents (f : string) : option Predicate :=
  if decide (f = "e") then Some AlwaysFalse else None.

Lemma parse_positional_deletes_exact_witness :
  exists result,
    parse_positional_deletes (batch_of <$> [[("a", 1); ("b", 2)]; [("a", 4)]]) ∅ = Ok result
    /\ forall f pos, has_position result f pos
         <-> exists rows, rows ∈ [[("a", 1); ("b", 2)]; [("a", 4)]] /\ (f, pos) ∈ rows.
Proof.
  apply parse_positional_deletes_exact. intros rows f pos Hr Hp.
  enough (Forall (Forall (fun row => inU 64 (snd row) = true)) [[("a", 1); ("b", 2)]; [("a", 4)]]) as H.
  { rewrite Forall_forall in H. specialize (H _ Hr). rewrite Forall_forall in H. apply (H _ Hp). }
  by repeat constructor.
Defined.

(** What a task is waiting for, or has. *)
Definition pos_done (s : System) (tid : nat) (f : string) : bool :=
  match tasks s !! tid with Some (PosDone g) => bool_decide (g = f) | _ => false end.
Definition pos_waits (s : System) (tid : nat) (f : string) : bool :=
  match tasks s !! tid with Some (PosWait g _) => bool_decide (g = f) | _ => false end.
Definition query_waits (s : System) (tid : nat) (f : string) : bool :=
  match tasks s !! tid with Some (QueryWait g _) => bool_decide (g = f) | _ => false end.
Definition query_answered (s : System) (tid : nat) (f : string) : bool :=
  match tasks s !! tid with Some (QueryDone g (Some AlwaysFalse)) => bool_decide (g = f) | _ => false end.
Definition pos_loaded (s : System) (f : string) : bool :=
  match positional_deletes (filter_state s) !! f with Some PosLoaded => true | _ => false end.
Definition eq_loaded (s : System) (f : string) : bool :=
  match equality_deletes (filter_state s) !! f with Some (EqLoaded _) => true | _ => false end.

(** The second task waits for the first one, which loads and merges. *)
Lemma positional_deletes_loaded_witness :
  exists s results, reachable ex_contents ex_eq_contents s /\ tasks s !! 1%nat = Some (PosDone "d")
    /\ ex_contents "d" = Some results /\ merged (filter_state s) results.
Proof.
  destruct (scheduled ex_contents ex_eq_contents (fun s => pos_done s 1 "d")
              [PosStart "d"; PosStart "d"] [0; 1; 1; 0; 0; 0; 0]%nat) as (s & Hr & Ht).
  { by repeat constructor. }
  { by vm_compute. }
  assert (tasks s !! 1%nat = Some (PosDone "d")) as Hpc.
  { unfold pos_done in Ht. destruct (tasks s !! 1%nat) as [[]|]; try done.
    by apply bool_decide_eq_true_1 in Ht as ->. }
  destruct (positional_deletes_loaded ex_contents ex_eq_contents s 1 "d" Hr Hpc) as (results & Hc & Hm).
  by exists s, results.
Defined.

Lemma loads_and_answers_witness :
  exists s, reachable ex_contents ex_eq_contents s /\ query_answered s 1 "e" = true
    /\ forall f p, tasks s !! 1%nat = Some (QueryDone f (Some p)) -> ex_eq_contents f = Some p.
Proof.
  destruct (scheduled ex_contents ex_eq_contents (fun s => query_answered s 1 "e")
              [EqStart "e"; Query "e"] [0; 0; 1; 1; 0; 1]%nat) as (s & Hr & Hq).
  { by repeat constructor. }
  { by vm_compute. }
  exists s. split; [done|]. split; [done|].
  apply (proj1 (proj2 (loads_and_answers ex_contents ex_eq_contents s Hr)) 1%nat).
Defined.

(** A task with a positional and an equality delete file. *)
Definition ex_delete (f : string) (ty : DataContentType) : FileScanTaskDeleteFile :=
  mkFileScanTaskDeleteFile f 1 ty 0 None.
Definition ex_rows_of (f : string) : list DeleteRow := if decide (f = "e") then ex_delete_rows else [].
Lemma task_deletes_exact_witness :
  exists q, parse_equality_deletes (V := Concrete.concrete_values) (AT := ArrowSchema.concrete_arrow_types) (LC := Concrete.concrete_lowercase) {[1; 3]}
      (Ok <$> ex_delete_batches) = Some (Ok q)
    /\ exists p, combine_equality_deletes (fun f => if decide (f = "e") then Some q else None)
         [ex_delete "d" PositionDeletes; ex_delete "e" EqualityDeletes] = Ok p
    /\ decides (V := Concrete.concrete_values) p (fun value => negb (existsb (row_equals (V := Concrete.concrete_values) value)
         (equality_rows ex_rows_of [ex_delete "d" PositionDeletes; ex_delete "e" EqualityDeletes]))).
Proof.
  destruct (equality_deletes_decide (V := Concrete.concrete_values) (AT := ArrowSchema.concrete_arrow_types)
    (LC := Concrete.concrete_lowercase) {[1; 3]} ex_schema _ _ ex_stream_holds) as (q & Hq & Hd).
  { intros batch stream' [= <- _]. apply (ok_value_Ok RecordBatchTransformer.empty_schema). by vm_compute. }
  exists q. split; [exact Hq|]. apply task_deletes_exact.
  apply Forall_cons_2; [done|]. apply Forall_cons_2; [|constructor]. intros _. exists q. by split.
Defined.

(** *** Deviations *)

(** The first task finishes between the second one's look at the state and its waiting: the
    notification is lost, and the second waits for ever although the file is loaded. *)
Theorem lost_wakeup :
  exists s, reachable ex_contents ex_eq_contents s /\ stuck ex_contents ex_eq_contents s
    /\ pos_loaded s "d" = true /\ pos_waits s 1 "d" = true.
Proof.
  destruct (scheduled ex_contents ex_eq_contents
              (fun s => stuckb ex_contents ex_eq_contents s && pos_loaded s "d" && pos_waits s 1 "d")
              [PosStart "d"; PosStart "d"] [0; 1; 0; 0; 0; 0; 1]%nat) as (s & Hr & Ht).
  { by repeat constructor. }
  { by vm_compute. }
  apply andb_true_iff in Ht as [[Hs Hl]%andb_true_iff Hw]. apply stuckb_stuck in Hs. by exists s.
Qed.

(** A file that cannot be loaded leaves the tasks that wait for it waiting. *)
Theorem failed_load_hangs :
  exists s, reachable ex_contents ex_eq_contents s /\ stuck ex_contents ex_eq_contents s
    /\ pos_loaded s "x" = false /\ pos_waits s 1 "x" = true.
Proof.
  destruct (scheduled ex_contents ex_eq_contents
              (fun s => stuckb ex_contents ex_eq_contents s && negb (pos_loaded s "x") && pos_waits s 1 "x")
              [PosStart "x"; PosStart "x"] [0; 1; 1; 0]%nat) as (s & Hr & Ht).
  { by repeat constructor. }
  { by vm_compute. }
  apply andb_true_iff in Ht as [[Hs Hl%negb_true_iff]%andb_true_iff Hw]. apply stuckb_stuck in Hs. by exists s.
Qed.

(** [insert_equality_delete] replaces the [Notify] of [try_start_eq_del_load]: a query that
    has the first one waits for ever although the predicate is there. *)
Theorem replaced_notifier_hangs :
  exists s, reachable ex_contents ex_eq_contents s /\ stuck ex_contents ex_eq_contents s
    /\ eq_loaded s "e" = true /\ query_waits s 1 "e" = true.
Proof.
  destruct (scheduled ex_contents ex_eq_contents
              (fun s => stuckb ex_contents ex_eq_contents s && eq_loaded s "e" && query_waits s 1 "e")
              [EqStart "e"; Query "e"] [0; 1; 1; 0; 0]%nat) as (s & Hr & Ht).
  { by repeat constructor. }
  { by vm_compute. }
  apply andb_true_iff in Ht as [[Hs Hl]%andb_true_iff Hw]. apply stuckb_stuck in Hs. by exists s.
Qed.
End witnesses.
