(* ===== verification/SnapshotSummary.v ===== *)
(** * Snapshot summaries (spec/snapshot_summary.rs)

    The counters of a snapshot, per table and per partition, and the running totals. *)

From S2P Require Import Prelude Utf8 Numerals Values Schema Expr Transform DataFile PartitionSpecs LiteralEq TableMetadata.
From S2P Require Import MetadataBuilder ManifestWriter ManifestList Versions.

Definition ADDED_DATA_FILES : string := "added-data-files".
Definition ADDED_DELETE_FILES : string := "added-delete-files".
Definition ADDED_EQUALITY_DELETES : string := "added-equality-deletes".
Definition ADDED_FILE_SIZE : string := "added-files-size".
Definition ADDED_POSITION_DELETES : string := "added-position-deletes".
Definition ADDED_POSITION_DELETE_FILES : string := "added-position-delete-files".
Definition ADDED_RECORDS : string := "added-records".
Definition DELETED_DATA_FILES : string := "deleted-data-files".
Definition DELETED_RECORDS : string := "deleted-records".
Definition ADDED_EQUALITY_DELETE_FILES : string := "added-equality-delete-files".
Definition REMOVED_DELETE_FILES : string := "removed-delete-files".
Definition REMOVED_EQUALITY_DELETES : string := "removed-equality-deletes".
Definition REMOVED_EQUALITY_DELETE_FILES : string := "removed-equality-delete-files".
Definition REMOVED_FILE_SIZE : string := "removed-files-size".
Definition REMOVED_POSITION_DELETES : string := "removed-position-deletes".
Definition REMOVED_POSITION_DELETE_FILES : string := "removed-position-delete-files".
Definition TOTAL_EQUALITY_DELETES : string := "total-equality-deletes".
Definition TOTAL_POSITION_DELETES : string := "total-position-deletes".
Definition TOTAL_DATA_FILES : string := "total-data-files".
Definition TOTAL_DELETE_FILES : string := "total-delete-files".
Definition TOTAL_RECORDS : string := "total-records".
Definition TOTAL_FILE_SIZE : string := "total-files-size".
Definition CHANGED_PARTITION_COUNT_PROP : string := "changed-partition-count".
Definition CHANGED_PARTITION_PREFIX : string := "partitions.".

(** ** Counters

    The counters of files are [u32] where the code has them so, the others [u64]. *)
Record UpdateMetrics := mkUpdateMetrics {
  added_file_size : Z;
  removed_file_size : Z;
  added_data_files : Z;
  removed_data_files : Z;
  added_eq_delete_files : Z;
  removed_eq_delete_files : Z;
  added_pos_delete_files : Z;
  removed_pos_delete_files : Z;
  added_delete_files : Z;
  removed_delete_files : Z;
  added_records : Z;
  deleted_records : Z;
  added_pos_deletes : Z;
  removed_pos_deletes : Z;
  added_eq_deletes : Z;
  removed_eq_deletes : Z;
}.
#[global] Instance UpdateMetrics_updatable : Updatable UpdateMetrics := fun m =>
  mkUpdateMetrics (added_file_size m) (removed_file_size m) (added_data_files m)
    (removed_data_files m) (added_eq_delete_files m) (removed_eq_delete_files m)
    (added_pos_delete_files m) (removed_pos_delete_files m) (added_delete_files m)
    (removed_delete_files m) (added_records m) (deleted_records m) (added_pos_deletes m)
    (removed_pos_deletes m) (added_eq_deletes m) (removed_eq_deletes m).

Definition default_metrics : UpdateMetrics := mkUpdateMetrics 0 0 0 0 0 0 0 0 0 0 0 0 0 0 0 0.

(** [+=] of a release build. *)
Definition add32 (a b : Z) : Z := wrapU 32 (a + b).
Definition add64 (a b : Z) : Z := wrapU 64 (a + b).

Definition metrics_add_file (self : UpdateMetrics) (file : DataFile) : UpdateMetrics :=
  let self := self <| added_file_size := add64 (added_file_size self) (file_size_in_bytes file) |> in
  match content file with
  | Data =>
      self <| added_data_files := add32 (added_data_files self) 1 |>
           <| added_records := add64 (added_records self) (record_count file) |>
  | PositionDeletes =>
      self <| added_delete_files := add32 (added_delete_files self) 1 |>
           <| added_pos_delete_files := add64 (added_pos_delete_files self) 1 |>
           <| added_pos_deletes := add64 (added_pos_deletes self) (record_count file) |>
  | EqualityDeletes =>
      self <| added_delete_files := add32 (added_delete_files self) 1 |>
           <| added_eq_delete_files := add64 (added_eq_delete_files self) 1 |>
           <| added_eq_deletes := add64 (added_eq_deletes self) (record_count file) |>
  end.
Definition metrics_remove_file (self : UpdateMetrics) (file : DataFile) : UpdateMetrics :=
  let self := self <| removed_file_size := add64 (removed_file_size self) (file_size_in_bytes file) |> in
  match content file with
  | Data =>
      self <| removed_data_files := add32 (removed_data_files self) 1 |>
           <| deleted_records := add64 (deleted_records self) (record_count file) |>
  | PositionDeletes =>
      self <| removed_delete_files := add32 (removed_delete_files self) 1 |>
           <| removed_pos_delete_files := add64 (removed_pos_delete_files self) 1 |>
           <| removed_pos_deletes := add64 (removed_pos_deletes self) (record_count file) |>
  | EqualityDeletes =>
      self <| removed_delete_files := add32 (removed_delete_files self) 1 |>
           <| removed_eq_delete_files := add64 (removed_eq_delete_files self) 1 |>
           <| removed_eq_deletes := add64 (removed_eq_deletes self) (record_count file) |>
  end.
Definition metrics_add_manifest (self : UpdateMetrics) (m : ManifestFile) : UpdateMetrics :=
  match manifest_content m with
  | MData =>
      self <| added_data_files := add32 (added_data_files self) (default 0 (added_files_count m)) |>
           <| added_records := add64 (added_records self) (default 0 (added_rows_count m)) |>
           <| removed_data_files := add32 (removed_data_files self) (default 0 (deleted_files_count m)) |>
           <| deleted_records := add64 (deleted_records self) (default 0 (deleted_rows_count m)) |>
  | MDeletes =>
      self <| added_delete_files := add32 (added_delete_files self) (default 0 (added_files_count m)) |>
           <| removed_delete_files := add32 (removed_delete_files self) (default 0 (deleted_files_count m)) |>
  end.

Definition metrics_merge (self other : UpdateMetrics) : UpdateMetrics :=
  let sum64 f := add64 (f self) (f other) in
  let sum32 f := add32 (f self) (f other) in
  mkUpdateMetrics (sum64 added_file_size) (sum64 removed_file_size) (sum32 added_data_files)
    (sum32 removed_data_files) (sum64 added_eq_delete_files) (sum64 removed_eq_delete_files)
    (sum64 added_pos_delete_files) (sum64 removed_pos_delete_files) (sum32 added_delete_files)
    (sum32 removed_delete_files) (sum64 added_records) (sum64 deleted_records)
    (sum64 added_pos_deletes) (sum64 removed_pos_deletes) (sum64 added_eq_deletes)
    (sum64 removed_eq_deletes).

Definition set_if_positive (properties : gmap string string) (value : Z) (property_name : string) :
    gmap string string :=
  if 0 <? value then <[property_name := text (to_string_u value)]> properties else properties.

Definition to_map (self : UpdateMetrics) : gmap string string :=
  foldl (fun properties '(value, name) => set_if_positive properties value name) ∅
    [(added_file_size self, ADDED_FILE_SIZE); (removed_file_size self, REMOVED_FILE_SIZE);
     (added_data_files self, ADDED_DATA_FILES); (removed_data_files self, DELETED_DATA_FILES);
     (added_eq_delete_files self, ADDED_EQUALITY_DELETE_FILES);
     (removed_eq_delete_files self, REMOVED_EQUALITY_DELETE_FILES);
     (added_pos_delete_files self, ADDED_POSITION_DELETE_FILES);
     (removed_pos_delete_files self, REMOVED_POSITION_DELETE_FILES);
     (added_delete_files self, ADDED_DELETE_FILES); (removed_delete_files self, REMOVED_DELETE_FILES);
     (added_records self, ADDED_RECORDS); (deleted_records self, DELETED_RECORDS);
     (added_pos_deletes self, ADDED_POSITION_DELETES); (removed_pos_deletes self, REMOVED_POSITION_DELETES);
     (added_eq_deletes self, ADDED_EQUALITY_DELETES); (removed_eq_deletes self, REMOVED_EQUALITY_DELETES)].

(** ** The path of a partition

    [human] is the text of a value ([Datum::to_human_string]). *)
Section collector.
Context {O : HashOrder} (human : Datum -> string).

Definition to_human_string (self : Transform.t) (ty : Ty) (value : option Literal) : result string :=
  match value with
  | Some (LPrimitive value) =>
      let? p := unwrap (as_primitive_type ty) in
      Ok match self with
         | Transform.Void => "null"%string
         | _ => human (mkDatum p value)
         end
  | _ => Ok "null"%string
  end.

(** [unwrap] of the partition type, and indexing, panic. *)
Definition partition_to_path (self : PartitionSpec) (data : Struct) (schema : Schema) : result string :=
  let? field_types := expect (partition_type self schema) in
  let? parts :=
    mapR (fun e =>
            let? value := unwrap (data !! fst e) in
            let? ty := unwrap (field_types !! fst e) in
            let? shown := to_human_string (partition_transform (snd e)) (field_type ty) value in
            Ok (partition_name (snd e) ++ "=" ++ shown)%string)
      (imap pair (spec_fields self)) in
  Ok (join "/" parts).

(** ** The collector *)

Record SnapshotSummaryCollector := mkCollector {
  metrics : UpdateMetrics;
  partition_metrics : gmap string UpdateMetrics;
  max_changed_partitions_for_summaries : Z;
  collector_properties : gmap string string;
  trust_partition_metrics : bool;
}.
(** The derived [Default]. *)
Definition collector_new : SnapshotSummaryCollector := mkCollector default_metrics ∅ 0 ∅ false.

Definition set_partition_summary_limit (self : SnapshotSummaryCollector) (limit : Z) :
    SnapshotSummaryCollector :=
  mkCollector (metrics self) (partition_metrics self) limit (collector_properties self)
    (trust_partition_metrics self).
Definition set_property (self : SnapshotSummaryCollector) (key value : string) :
    SnapshotSummaryCollector :=
  mkCollector (metrics self) (partition_metrics self) (max_changed_partitions_for_summaries self)
    (<[key := value]> (collector_properties self)) (trust_partition_metrics self).

Definition update_partition_metrics (self : SnapshotSummaryCollector) (schema : Schema)
    (spec : PartitionSpec) (file : DataFile) (is_add_file : bool) : result SnapshotSummaryCollector :=
  let? path := partition_to_path spec (partition file) schema in
  let old := default default_metrics (partition_metrics self !! path) in
  let new := if is_add_file then metrics_add_file old file else metrics_remove_file old file in
  Ok (mkCollector (metrics self) (<[path := new]> (partition_metrics self))
        (max_changed_partitions_for_summaries self) (collector_properties self)
        (trust_partition_metrics self)).

Definition with_metrics (self : SnapshotSummaryCollector) (m : UpdateMetrics) : SnapshotSummaryCollector :=
  mkCollector m (partition_metrics self) (max_changed_partitions_for_summaries self)
    (collector_properties self) (trust_partition_metrics self).
Definition collector_add_file (self : SnapshotSummaryCollector) (schema : Schema)
    (spec : PartitionSpec) (file : DataFile) : result SnapshotSummaryCollector :=
  let self := with_metrics self (metrics_add_file (metrics self) file) in
  match partition file with
  | [] => Ok self
  | _ => update_partition_metrics self schema spec file true
  end.
Definition collector_remove_file (self : SnapshotSummaryCollector) (schema : Schema)
    (spec : PartitionSpec) (file : DataFile) : result SnapshotSummaryCollector :=
  let self := with_metrics self (metrics_remove_file (metrics self) file) in
  match partition file with
  | [] => Ok self
  | _ => update_partition_metrics self schema spec file false
  end.
Definition collector_add_manifest (self : SnapshotSummaryCollector) (m : ManifestFile) :
    SnapshotSummaryCollector :=
  mkCollector (metrics_add_manifest (metrics self) m) ∅ (max_changed_partitions_for_summaries self)
    (collector_properties self) false.

Definition collector_merge (self summary : SnapshotSummaryCollector) : SnapshotSummaryCollector :=
  let trusted := trust_partition_metrics self && trust_partition_metrics summary in
  mkCollector (metrics_merge (metrics self) (metrics summary))
    (if trusted
     then foldl (fun m e => <[fst e := metrics_merge (default default_metrics (m !! fst e)) (snd e)]> m)
            (partition_metrics self) (hash_iter (partition_metrics summary))
     else ∅)
    (max_changed_partitions_for_summaries self)
    (collector_properties summary ∪ collector_properties self)
    (if trusted then trust_partition_metrics self else false).

(** [",".join] of the properties in the order of their iteration. *)
Definition partition_summary (m : UpdateMetrics) : string :=
  join "," ((fun e => fst e ++ "=" ++ snd e)%string <$> hash_iter (to_map m)).
Definition collector_build (self : SnapshotSummaryCollector) : gmap string string :=
  let count := Z.of_nat (size (partition_metrics self)) in
  let properties := set_if_positive (to_map (metrics self)) count CHANGED_PARTITION_COUNT_PROP in
  if count <=? max_changed_partitions_for_summaries self then
    foldl (fun properties e =>
             let shown := partition_summary (snd e) in
             if bool_decide (shown = ""%string) then properties
             else <[(CHANGED_PARTITION_PREFIX ++ fst e)%string := shown]> properties)
      properties (hash_iter (partition_metrics self))
  else properties.
End collector.

(** ** Totals *)

Definition with_summary_property (self : Summary) (key value : string) : Summary :=
  mkSummary (operation self) (<[key := value]> (additional_properties self)).

(** [value.parse::<u64>().unwrap()] of a property, if it is there. *)
Definition parse_count (properties : gmap string string) (key : string) : result (option Z) :=
  match properties !! key with
  | Some value => Some <$> unwrap (parse_unsigned 64 (lit value))
  | None => Ok None
  end.
Definition update_totals (previous_summary : option Summary) (summary : Summary)
    (total_property added_property removed_property : string) : result Summary :=
  let? previous_total :=
    match previous_summary with
    | Some previous => default 0 <$> parse_count (additional_properties previous) total_property
    | None => Ok 0
    end in
  let? added := parse_count (additional_properties summary) added_property in
  let? removed := parse_count (additional_properties summary) removed_property in
  let new_total := add64 previous_total (default 0 added) in
  let new_total := wrapU 64 (new_total - default 0 removed) in
  Ok (with_summary_property summary total_property (text (to_string_u new_total))).

Definition get_prop (previous_summary : Summary) (prop : string) : result Z :=
  ok_or (parse_signed 32 (lit (default "0"%string (additional_properties previous_summary !! prop))))
    Unexpected.
Definition TOTALS : list (string * string * string) :=
  [(TOTAL_DATA_FILES, ADDED_DATA_FILES, DELETED_DATA_FILES);
   (TOTAL_DELETE_FILES, ADDED_DELETE_FILES, REMOVED_DELETE_FILES);
   (TOTAL_RECORDS, ADDED_RECORDS, DELETED_RECORDS);
   (TOTAL_FILE_SIZE, ADDED_FILE_SIZE, REMOVED_FILE_SIZE);
   (TOTAL_POSITION_DELETES, ADDED_POSITION_DELETES, REMOVED_POSITION_DELETES);
   (TOTAL_EQUALITY_DELETES, ADDED_EQUALITY_DELETES, REMOVED_EQUALITY_DELETES)].
Definition truncate_table_summary (summary previous_summary : Summary) : result Summary :=
  let summary := foldl (fun s p => with_summary_property s p.1.1 "0") summary TOTALS in
  try_fold (fun s p =>
              let? value := get_prop previous_summary p.1.1 in
              Ok (if value =? 0 then s else with_summary_property s p.2 (text (to_string_i value))))
    summary TOTALS.

Definition update_snapshot_summaries (summary : Summary) (previous_summary : option Summary)
    (truncate_full_table : bool) : result Summary :=
  let? _ :=
    ensure match operation summary with Append | Overwrite | Delete => true | Replace => false end
      DataInvalid in
  let? summary :=
    match previous_summary, operation summary with
    | Some previous, Overwrite =>
        if truncate_full_table then expect (truncate_table_summary summary previous) else Ok summary
    | _, _ => Ok summary
    end in
  try_fold (fun s p => update_totals previous_summary s p.1.1 p.1.2 p.2) summary TOTALS.

(** ** Theory *)

Lemma parse_count_insert_ne properties key key' value :
  key <> key' -> parse_count (<[key' := value]> properties) key = parse_count properties key.
Proof. intros H. unfold parse_count. by rewrite lookup_insert_ne. Qed.
Lemma parse_count_same (p q : gmap string string) key :
  p !! key = q !! key -> parse_count p key = parse_count q key.
Proof. unfold parse_count. by intros ->. Qed.
Lemma parse_count_text properties key n :
  inU 64 n = true -> parse_count (<[key := text (to_string_u n)]> properties) key = Ok (Some n).
Proof. intros Hn. unfold parse_count. by rewrite lookup_insert_eq, parse_unsigned_text. Qed.

(** The total that a summary has, counted from 0 when there is none. *)
Definition total_of (previous : option Summary) (key : string) : result Z :=
  match previous with
  | Some previous => default 0 <$> parse_count (additional_properties previous) key
  | None => Ok 0
  end.

(** The three keys of a total, and the new total. *)
Record totalled (previous : option Summary) (before after : gmap string string)
    (p : string * string * string) : Prop := {
  td_ok : exists t a r, total_of previous p.1.1 = Ok t
    /\ parse_count before p.1.2 = Ok a /\ parse_count before p.2 = Ok r
    /\ parse_count after p.1.1 = Ok (Some (wrapU 64 (t + default 0 a - default 0 r)));
}.

Lemma update_totals_run previous s total added removed s' :
  update_totals previous s total added removed = Ok s' ->
  totalled previous (additional_properties s) (additional_properties s') (total, added, removed)
  /\ operation s' = operation s
  /\ forall key, key <> total -> additional_properties s' !! key = additional_properties s !! key.
Proof.
  unfold update_totals. intros (t & Ht & E)%bind_Ok. apply bind_Ok in E as (a & Ha & E).
  apply bind_Ok in E as (r & Hr & [= <-]).
  cbn [with_summary_property additional_properties operation]. split; [|split; [done|]].
  - constructor. exists t, a, r. split_and!; [done..|]. cbn [fst]. rewrite parse_count_text.
    + unfold add64, wrapU. by rewrite Zminus_mod_idemp_l.
    + apply inU_spec, Z.mod_pos_bound. lia.
  - intros key Hk. by rewrite lookup_insert_ne.
Qed.

Lemma totals_fold previous ps s s' :
  NoDup (ps.*1.*1) -> (forall p q, p ∈ ps -> q ∈ ps -> p.1.1 <> q.1.2 /\ p.1.1 <> q.2) ->
  try_fold (fun s p => update_totals previous s p.1.1 p.1.2 p.2) s ps = Ok s' ->
  Forall (totalled previous (additional_properties s) (additional_properties s')) ps
  /\ operation s' = operation s
  /\ forall key, key ∉ ps.*1.*1 -> additional_properties s' !! key = additional_properties s !! key.
Proof.
  revert s. induction ps as [|[[t a] r] ps IH]; intros s Hnd Hne; cbn [try_fold]; [by intros [= <-]|].
  intros (s1 & (Htd & Hop & Hkeep)%update_totals_run & E)%bind_Ok.
  rewrite !fmap_cons in *. cbn [fst] in *. apply NoDup_cons in Hnd as [Hnin Hnd].
  destruct (IH s1 Hnd) as (Hall & Hop' & Hkeep'); [|exact E|].
  { intros p q Hp Hq. apply Hne; by right. }
  split; [|split; [congruence|]].
  - constructor.
    + destruct Htd as [(tv & av & rv & ? & ? & ? & Hp)]. constructor. exists tv, av, rv.
      split_and!; [done..|]. cbn in Hp |- *. by rewrite (parse_count_same _ (additional_properties s1)) by by apply Hkeep'.
    + apply Forall_forall. intros p Hp. rewrite Forall_forall in Hall.
      destruct (Hall p Hp) as [(tv & av & rv & ? & Hav & Hrv & ?)]. constructor. exists tv, av, rv.
      assert ((t, a, r) ∈ (t, a, r) :: ps) as Hin by left.
      destruct (Hne (t, a, r) p Hin) as [Ha Hr]; [by right|]. cbn in Ha, Hr.
      rewrite <- (parse_count_same _ _ _ (Hkeep p.1.2 (not_eq_sym Ha))).
      by rewrite <- (parse_count_same _ _ _ (Hkeep p.2 (not_eq_sym Hr))).
  - intros key [Hk1 Hk2]%not_elem_of_cons. rewrite Hkeep' by done. by apply Hkeep.
Qed.

Lemma totals_distinct :
  NoDup (TOTALS.*1.*1) /\ forall p q, p ∈ TOTALS -> q ∈ TOTALS -> p.1.1 <> q.1.2 /\ p.1.1 <> q.2.
Proof.
  split; [by apply (bool_decide_unpack _); vm_compute|].
  assert (Forall (fun p => Forall (fun q : string * string * string => p.1.1 <> q.1.2 /\ p.1.1 <> q.2) TOTALS) TOTALS) as H
    by (apply (bool_decide_unpack _); vm_compute; done).
  intros p q Hp Hq. rewrite Forall_forall in H. specialize (H p Hp). rewrite Forall_forall in H. by apply H.
Qed.

Lemma update_snapshot_summaries_Ok s previous s' :
  update_snapshot_summaries s previous false = Ok s' ->
  Forall (totalled previous (additional_properties s) (additional_properties s')) TOTALS
  /\ operation s' = operation s
  /\ forall key, key ∉ TOTALS.*1.*1 -> additional_properties s' !! key = additional_properties s !! key.
Proof.
  unfold update_snapshot_summaries. intros ([] & _ & E)%bind_Ok. apply bind_Ok in E as (s1 & Hs & E).
  assert (s1 = s) as -> by (destruct previous, (operation s); by injection Hs).
  apply totals_fold in E; [done|apply totals_distinct..].
Qed.

(** *** What the counters of added files show *)

Section counts.
Context {O : HashOrder} {L : HashOrderLaws O}.

Lemma lookup_set_ne properties value name key :
  key <> name -> set_if_positive properties value name !! key = properties !! key.
Proof. intros H. unfold set_if_positive. destruct (0 <? value); [|done]. by rewrite lookup_insert_ne. Qed.
Lemma parse_set_ne properties value name key :
  key <> name -> parse_count (set_if_positive properties value name) key = parse_count properties key.
Proof. intros H. by apply parse_count_same, lookup_set_ne. Qed.
Lemma parse_set_eq properties value name :
  properties !! name = None -> inU 64 value = true ->
  default 0 <$> parse_count (set_if_positive properties value name) name = Ok value.
Proof.
  intros Hn Hv. unfold set_if_positive. apply inU_spec in Hv as Hr. destruct (Z.ltb_spec 0 value).
  - by rewrite parse_count_text.
  - unfold parse_count. rewrite Hn. cbn. f_equal. lia.
Qed.

(** The value under a key of [to_map] is the counter. *)
Ltac read_count :=
  intros Hv; unfold to_map; cbn [foldl];
  repeat (rewrite parse_set_ne by done); apply parse_set_eq; [|exact Hv];
  repeat (rewrite lookup_set_ne by done); apply lookup_empty.
Lemma to_map_data_files m :
  inU 64 (added_data_files m) = true -> default 0 <$> parse_count (to_map m) ADDED_DATA_FILES = Ok (added_data_files m).
Proof. read_count. Qed.
Lemma to_map_records m :
  inU 64 (added_records m) = true -> default 0 <$> parse_count (to_map m) ADDED_RECORDS = Ok (added_records m).
Proof. read_count. Qed.
Lemma to_map_file_size m :
  inU 64 (added_file_size m) = true -> default 0 <$> parse_count (to_map m) ADDED_FILE_SIZE = Ok (added_file_size m).
Proof. read_count. Qed.
Lemma to_map_deleted_files m :
  inU 64 (removed_data_files m) = true ->
  default 0 <$> parse_count (to_map m) DELETED_DATA_FILES = Ok (removed_data_files m).
Proof. read_count. Qed.
Lemma to_map_deleted_records m :
  inU 64 (deleted_records m) = true ->
  default 0 <$> parse_count (to_map m) DELETED_RECORDS = Ok (deleted_records m).
Proof. read_count. Qed.
Lemma to_map_removed_size m :
  inU 64 (removed_file_size m) = true ->
  default 0 <$> parse_count (to_map m) REMOVED_FILE_SIZE = Ok (removed_file_size m).
Proof. read_count. Qed.

(** Keys that are neither the count of partitions nor those of a partition. *)
Definition count_key (key : string) : Prop :=
  key <> CHANGED_PARTITION_COUNT_PROP
  /\ forall path, key <> (CHANGED_PARTITION_PREFIX ++ path)%string.

Lemma collector_build_count c key :
  count_key key -> parse_count (collector_build c) key = parse_count (to_map (metrics c)) key.
Proof.
  intros [Hc Hp]. unfold collector_build.
  etransitivity; [|apply (parse_set_ne _ (Z.of_nat (size (partition_metrics c))) _ key Hc)].
  destruct (_ <=? _); [|done].
  generalize (set_if_positive (to_map (metrics c)) (Z.of_nat (size (partition_metrics c))) CHANGED_PARTITION_COUNT_PROP) as m.
  induction (hash_iter (partition_metrics c)) as [|[path x] l IH]; intros m; cbn [foldl]; [done|].
  rewrite IH. cbn [fst snd]. destruct (bool_decide _); [done|]. by apply parse_count_insert_ne.
Qed.

Lemma collector_fold human schema spec files c c' :
  try_fold (fun c f => collector_add_file human c schema spec f) c files = Ok c' ->
  metrics c' = foldl metrics_add_file (metrics c) files.
Proof.
  revert c. induction files as [|f files IH]; intros c; cbn [try_fold foldl]; [by intros [= <-]|].
  intros (c1 & Hc & E)%bind_Ok. rewrite (IH _ E). f_equal. unfold collector_add_file in Hc.
  destruct (partition f); [by injection Hc as <-|].
  unfold update_partition_metrics in Hc. by apply bind_Ok in Hc as (path & _ & [= <-]).
Qed.

Definition sum_of (f : DataFile -> Z) (files : list DataFile) : Z := foldr (fun x n => f x + n) 0 files.

(** The counters after data files were added. *)
Lemma data_files_counted m files :
  Forall (fun f => content f = Data) files ->
  let m' := foldl metrics_add_file m files in
  (forall n, added_data_files m = wrapU 32 n -> added_data_files m' = wrapU 32 (n + Z.of_nat (length files)))
  /\ (forall n, added_records m = wrapU 64 n -> added_records m' = wrapU 64 (n + sum_of record_count files))
  /\ (forall n, added_file_size m = wrapU 64 n ->
       added_file_size m' = wrapU 64 (n + sum_of file_size_in_bytes files))
  /\ removed_data_files m' = removed_data_files m /\ deleted_records m' = deleted_records m
  /\ removed_file_size m' = removed_file_size m.
Proof.
  intros Hf. revert m. induction Hf as [|f files Hf _ IH]; intros m; cbn [foldl length sum_of foldr].
  - split_and!; try done; intros n ->; f_equal; lia.
  - specialize (IH (metrics_add_file m f)). cbv zeta in IH |- *.
    destruct IH as (H1 & H2 & H3 & H4 & H5 & H6). unfold metrics_add_file in *. rewrite Hf in *. cbn in *.
    split_and!; [..|done|done|done]; intros n Hn; [rewrite (H1 (n + 1))|rewrite (H2 (n + record_count f))|
      rewrite (H3 (n + file_size_in_bytes f))]; try (f_equal; unfold sum_of; lia);
      rewrite Hn; unfold add32, add64; apply wrapU_add.
Qed.
End counts.

(** ** Properties *)

Definition COUNTS : list string :=
  [ADDED_DATA_FILES; DELETED_DATA_FILES; ADDED_RECORDS; DELETED_RECORDS; ADDED_FILE_SIZE; REMOVED_FILE_SIZE].

Lemma counts_are_count_keys key : key ∈ COUNTS -> count_key key.
Proof.
  intros Hk. unfold COUNTS in Hk. rewrite !elem_of_cons in Hk. unfold count_key.
  destruct Hk as [->|[->|[->|[->|[->|[->|[]%not_elem_of_nil]]]]]]; by split.
Qed.

Section totals.
Context {O : HashOrder} {L : HashOrderLaws O}.

(** The properties of the summary of an append: those of the collector, under those of the user. *)
Definition append_properties (user : gmap string string) (c : SnapshotSummaryCollector) : gmap string string :=
  user ∪ collector_build c.
Lemma append_count user c key :
  user !! key = None -> key ∈ COUNTS ->
  parse_count (append_properties user c) key = parse_count (to_map (metrics c)) key.
Proof.
  intros Hu Hk. rewrite <- (collector_build_count c key) by by apply counts_are_count_keys.
  apply parse_count_same. unfold append_properties. by rewrite lookup_union_r.
Qed.

Lemma append_totals human schema spec limit files c user previous s' :
  try_fold (fun c f => collector_add_file human c schema spec f)
    (set_partition_summary_limit collector_new limit) files = Ok c ->
  Forall (fun f => content f = Data) files ->
  (forall key, key ∈ COUNTS -> user !! key = None) ->
  update_snapshot_summaries (mkSummary Append (append_properties user c)) previous false = Ok s' ->
  exists n r b, total_of previous TOTAL_DATA_FILES = Ok n /\ total_of previous TOTAL_RECORDS = Ok r
    /\ total_of previous TOTAL_FILE_SIZE = Ok b
    /\ parse_count (additional_properties s') TOTAL_DATA_FILES
       = Ok (Some (wrapU 64 (n + wrapU 32 (Z.of_nat (length files)))))
    /\ parse_count (additional_properties s') TOTAL_RECORDS
       = Ok (Some (wrapU 64 (r + sum_of record_count files)))
    /\ parse_count (additional_properties s') TOTAL_FILE_SIZE
       = Ok (Some (wrapU 64 (b + sum_of file_size_in_bytes files))).
Proof.
  intros Hc Hf Hu Hs. apply collector_fold in Hc. cbn [set_partition_summary_limit metrics collector_new] in Hc.
  destruct (data_files_counted default_metrics files Hf) as (H1 & H2 & H3 & H4 & H5 & H6). rewrite <- Hc in *.
  specialize (H1 0 eq_refl). specialize (H2 0 eq_refl). specialize (H3 0 eq_refl).
  rewrite Z.add_0_l in *. cbn in H4, H5, H6.
  apply update_snapshot_summaries_Ok in Hs as (Hall & _ & _). rewrite Forall_forall in Hall.
  assert (Hrange : forall n k z, 0 <= n <= 64 -> k = wrapU n z -> inU 64 k = true).
  { intros n k z Hn ->. apply inU_spec. unfold wrapU. pose proof (Z.mod_pos_bound z (2 ^ n)).
    assert (2 ^ n <= 2 ^ 64) by (apply Z.pow_le_mono_r; lia). lia. }
  assert (Hread : forall t a d k, (t, a, d) ∈ TOTALS -> a ∈ COUNTS -> d ∈ COUNTS ->
            default 0 <$> parse_count (to_map (metrics c)) a = Ok k ->
            default 0 <$> parse_count (to_map (metrics c)) d = Ok 0 ->
            exists n, total_of previous t = Ok n
              /\ parse_count (additional_properties s') t = Ok (Some (wrapU 64 (n + k)))).
  { intros t a d k Ht Ha Hd Ka Kd. destruct (Hall _ Ht) as [(n & ka & kd & Hn & Hka & Hkd & Hp)].
    cbn [fst snd additional_properties] in *. rewrite append_count in Hka, Hkd by auto.
    rewrite Hka in Ka. rewrite Hkd in Kd. injection Ka as <-. injection Kd as Kd.
    exists n. by rewrite Hp, Kd, Z.sub_0_r. }
  destruct (Hread TOTAL_DATA_FILES ADDED_DATA_FILES DELETED_DATA_FILES (added_data_files (metrics c)))
    as (n & Hn & Hn'); [by repeat constructor|by repeat constructor|by repeat constructor|
      apply to_map_data_files, (Hrange 32 _ _ ltac:(lia) H1)|by rewrite to_map_deleted_files; rewrite H4|].
  destruct (Hread TOTAL_RECORDS ADDED_RECORDS DELETED_RECORDS (added_records (metrics c)))
    as (r & Hr & Hr'); [by repeat constructor|by repeat constructor|by repeat constructor|
      apply to_map_records, (Hrange 64 _ _ ltac:(lia) H2)|by rewrite to_map_deleted_records; rewrite H5|].
  destruct (Hread TOTAL_FILE_SIZE ADDED_FILE_SIZE REMOVED_FILE_SIZE (added_file_size (metrics c)))
    as (b & Hb & Hb'); [by repeat constructor|by repeat constructor|by repeat constructor|
      apply to_map_file_size, (Hrange 64 _ _ ltac:(lia) H3)|by rewrite to_map_removed_size; rewrite H6|].
  exists n, r, b. split_and!; [done|done|done|by rewrite Hn', H1| |].
  - rewrite Hr', H2. unfold wrapU. by rewrite Zplus_mod_idemp_r.
  - rewrite Hb', H3. unfold wrapU. by rewrite Zplus_mod_idemp_r.
Qed.

(** The summary of a snapshot that appends data files has the totals of the snapshot it was
    given as the previous one plus the number, the rows and the sizes of the files, as long as
    the user's own properties do not name a counter. *)
Theorem append_adds_to_totals human schema spec limit files c user previous s' :
  try_fold (fun c f => collector_add_file human c schema spec f)
    (set_partition_summary_limit collector_new limit) files = Ok c ->
  Forall (fun f => content f = Data) files ->
  (forall key, key ∈ COUNTS -> user !! key = None) ->
  update_snapshot_summaries (mkSummary Append (append_properties user c)) previous false = Ok s' ->
  exists n r b, total_of previous TOTAL_DATA_FILES = Ok n /\ total_of previous TOTAL_RECORDS = Ok r
    /\ total_of previous TOTAL_FILE_SIZE = Ok b
    /\ parse_count (additional_properties s') TOTAL_DATA_FILES
       = Ok (Some (wrapU 64 (n + wrapU 32 (Z.of_nat (length files)))))
    /\ parse_count (additional_properties s') TOTAL_RECORDS
       = Ok (Some (wrapU 64 (r + sum_of record_count files)))
    /\ parse_count (additional_properties s') TOTAL_FILE_SIZE
       = Ok (Some (wrapU 64 (b + sum_of file_size_in_bytes files))).
Proof. apply append_totals. Qed.
End totals.

(** ** Witness *)

Section witness.
Definition ex_appended (rows bytes : Z) : DataFile :=
  mkDataFile Data "f.parquet" Parquet [] rows bytes ∅ ∅ ∅ ∅ ∅ ∅ None None None None None 0 None None None.
Definition ex_appended_files : list DataFile := [ex_appended 5 100; ex_appended 7 80].
Definition ex_summary_schema : Schema := mkSchema [] 0 0 ∅ [] ∅ ∅ ∅ ∅ ∅.
Definition ex_collector : SnapshotSummaryCollector :=
  ok_value collector_new
    (try_fold (fun c f => collector_add_file (fun _ => ""%string) c ex_summary_schema (mkPartitionSpec 0 []) f)
       (set_partition_summary_limit collector_new 0) ex_appended_files).
Definition ex_previous : Summary :=
  mkSummary Append {[ TOTAL_RECORDS := "30"; TOTAL_DATA_FILES := "3"; "owner" := "me" ]}%string.
Definition ex_appended_summary (user : gmap string string) : result Summary :=
  update_snapshot_summaries (mkSummary Append (append_properties user ex_collector)) (Some ex_previous) false.

Lemma append_adds_to_totals_witness : exists s',
  ex_appended_summary {[ "owner" := "you" ]}%string = Ok s'
  /\ parse_count (additional_properties s') TOTAL_RECORDS = Ok (Some 42).
Proof.
  eexists. split; [apply (ok_value_Ok ex_previous); vm_compute; reflexivity|].
  destruct (append_adds_to_totals (fun _ => ""%string) ex_summary_schema (mkPartitionSpec 0 []) 0
              ex_appended_files ex_collector {[ "owner" := "you" ]}%string (Some ex_previous)
              (ok_value ex_previous (ex_appended_summary {[ "owner" := "you" ]}%string)))
    as (n & r & b & Hn & Hr & Hb & _ & E & _).
  - apply (ok_value_Ok collector_new). vm_compute. reflexivity.
  - repeat constructor.
  - intros key Hk. unfold COUNTS in Hk. rewrite !elem_of_cons in Hk.
    destruct Hk as [->|[->|[->|[->|[->|[->|[]%not_elem_of_nil]]]]]]; reflexivity.
  - apply (ok_value_Ok ex_previous). vm_compute. reflexivity.
  - rewrite E. vm_compute in Hr. injection Hr as <-. vm_compute. reflexivity.
Defined.

(** A property of the user that names a counter and is not a number panics. *)
Lemma counter_property_panics :
  ex_appended_summary (<[ADDED_RECORDS := "many"%string]> ∅) = Err Panic.
Proof. vm_compute. reflexivity. Qed.
End witness.
