(* ===== verification/Writers.v ===== *)
(** * Writers of data files (writer/file_writer, writer/base_writer)

    location_generator.rs, rolling_writer.rs and data_file_writer.rs, over the interface of a
    writer of one file: names and locations of files, the writer that goes on to a new file
    when one is large enough, and the writer of the data files of one partition.
    Correctness: the files that a writer gives hold the rows it was given, in order, each file
    at a location of its own. *)

From S2P Require Import Prelude Utf8 Numerals Values Schema LiteralEq Transform PartitionSpecs DataFile.
From S2P Require TableMetadata SnapshotSummary Concrete.

(** ** Partition keys (spec/partition.rs) *)

Record PartitionKey := mkPartitionKey { key_spec : PartitionSpec; key_schema : Schema; key_data : Struct }.
Definition is_effectively_none (partition_key : option PartitionKey) : bool :=
  match partition_key with None => true | Some pk => is_unpartitioned (key_spec pk) end.

(** ** Names and locations (location_generator.rs) *)

Definition WRITE_DATA_LOCATION : string := "write.data.path".
Definition WRITE_FOLDER_STORAGE_LOCATION : string := "write.folder-storage.path".
Definition DEFAULT_DATA_DIR : string := "/data".
Record DefaultLocationGenerator := mkLocations { data_location : string }.
Definition location_generator_new (table_metadata : TableMetadata.TableMetadata) : DefaultLocationGenerator :=
  let prop := TableMetadata.properties table_metadata in
  let configured_data_location :=
    match prop !! WRITE_DATA_LOCATION with Some l => Some l | None => prop !! WRITE_FOLDER_STORAGE_LOCATION end in
  mkLocations match configured_data_location with
              | Some data_location => data_location
              | None => TableMetadata.location table_metadata ++ DEFAULT_DATA_DIR
              end%string.

Definition format_name (format : DataFileFormat) : string :=
  match format with Avro => "avro" | Orc => "orc" | Parquet => "parquet" | Puffin => "puffin" end.
(** The counter of the generator, which its clones share, is the state of the writers: the number
    of names that were taken; the code holds it modulo 2^64. *)
Record DefaultFileNameGenerator := mkNames { name_prefix : string; name_suffix : string; name_format : string }.
Definition name_generator_new (prefix : string) (suffix : option string) (format : DataFileFormat) :
    DefaultFileNameGenerator :=
  mkNames prefix match suffix with Some suffix => "-" ++ suffix | None => "" end%string (format_name format).
(** [{:05}]. *)
Definition padded (n : Z) : str :=
  let digits := to_string_u n in replicate (5 - length digits) 48 ++ digits.
Definition file_name (self : DefaultFileNameGenerator) (file_id : Z) : string :=
  (name_prefix self ++ "-" ++ text (padded file_id) ++ name_suffix self ++ "." ++ name_format self)%string.
Definition generate_file_name (self : DefaultFileNameGenerator) : SR nat string := fun file_count =>
  Ok (file_name self (wrapU 64 (Z.of_nat file_count)), S file_count).

Section writers.
Context (human : Datum -> string).
Definition to_path (self : PartitionKey) : result string :=
  SnapshotSummary.partition_to_path human (key_spec self) (key_data self) (key_schema self).
Definition generate_location (self : DefaultLocationGenerator) (partition_key : option PartitionKey) (file_name : string) :
    result string :=
  if is_effectively_none partition_key then Ok (data_location self ++ "/" ++ file_name)%string
  else
    let? key := unwrap partition_key in
    let? path := to_path key in
    Ok (data_location self ++ "/" ++ path ++ "/" ++ file_name)%string.

(** ** Builders of data files (spec/manifest/data_file.rs)

    [build] fails if one of the fields without a default, which are optional here, is not set. *)
Record DataFileBuilder := mkDataFileBuilder {
  b_content : option DataContentType;
  b_file_path : option string;
  b_file_format : option DataFileFormat;
  b_partition : Struct;
  b_record_count : option Z;
  b_file_size_in_bytes : option Z;
  b_column_sizes : gmap Z Z;
  b_value_counts : gmap Z Z;
  b_null_value_counts : gmap Z Z;
  b_nan_value_counts : gmap Z Z;
  b_lower_bounds : gmap Z Datum;
  b_upper_bounds : gmap Z Datum;
  b_split_offsets : option (list Z);
  b_partition_spec_id : Z;
}.
Definition DEFAULT_PARTITION_SPEC_ID : Z := 0.
Definition with_data_content (b : DataFileBuilder) : DataFileBuilder :=
  mkDataFileBuilder (Some Data) (b_file_path b) (b_file_format b) (b_partition b) (b_record_count b)
    (b_file_size_in_bytes b) (b_column_sizes b) (b_value_counts b) (b_null_value_counts b) (b_nan_value_counts b)
    (b_lower_bounds b) (b_upper_bounds b) (b_split_offsets b) (b_partition_spec_id b).
Definition with_partition_key (b : DataFileBuilder) (pk : PartitionKey) : DataFileBuilder :=
  mkDataFileBuilder (b_content b) (b_file_path b) (b_file_format b) (key_data pk) (b_record_count b)
    (b_file_size_in_bytes b) (b_column_sizes b) (b_value_counts b) (b_null_value_counts b) (b_nan_value_counts b)
    (b_lower_bounds b) (b_upper_bounds b) (b_split_offsets b) (spec_id (key_spec pk)).
Definition build_data_file (b : DataFileBuilder) : option DataFile :=
  content ← b_content b;
  file_path ← b_file_path b;
  file_format ← b_file_format b;
  record_count ← b_record_count b;
  file_size_in_bytes ← b_file_size_in_bytes b;
  Some (mkDataFile content file_path file_format (b_partition b) record_count file_size_in_bytes (b_column_sizes b)
          (b_value_counts b) (b_null_value_counts b) (b_nan_value_counts b) (b_lower_bounds b) (b_upper_bounds b) None
          (b_split_offsets b) None None None (b_partition_spec_id b) None None None).

(** ** A writer of one file ([FileWriterBuilder], [FileWriter], [CurrentFileStatus])

    [fw_build] takes the location of the output file. *)
Class FileWriter (R Batch : Type) := {
  fw_build : string -> result R;
  fw_write : R -> Batch -> result R;
  fw_close : R -> result (list DataFileBuilder);
  fw_written_size : R -> Z;
}.
(** What it promises: it gives one file at its location with the rows that were written, or none
    if there were none, provided that the batches conform to its schema.  [describes] relates the
    record of a file to the rows in it. *)
Class FileWriterLaws {R Batch Row : Type} (F : FileWriter R Batch) (conforms : Batch -> Prop)
    (batch_rows : Batch -> list Row) (describes : DataFileBuilder -> list Row -> Prop) := {
  fw_holds : R -> string -> list Row -> Prop;
  fw_build_ok path r : fw_build path = Ok r -> fw_holds r path [];
  fw_write_ok r path rows batch r' : conforms batch -> fw_holds r path rows -> fw_write r batch = Ok r' ->
    fw_holds r' path (rows ++ batch_rows batch);
  fw_close_ok r path rows bs : fw_holds r path rows -> fw_close r = Ok bs ->
    match rows with
    | [] => bs = []
    | _ => exists b, bs = [b] /\ b_file_path b = Some path /\ b_record_count b = Some (Z.of_nat (length rows))
                     /\ describes b rows
    end;
}.

(** ** The rolling writer (rolling_writer.rs) *)

Section rolling.
Context {R Batch : Type} {F : FileWriter R Batch}.

Record RollingFileWriterBuilder := mkRollingBuilder {
  target_file_size : Z;
  location_generator : DefaultLocationGenerator;
  file_name_generator : DefaultFileNameGenerator;
}.
Record RollingFileWriter := mkRolling {
  rolling_inner : option R;
  data_file_builders : list DataFileBuilder;
  rolling_config : RollingFileWriterBuilder;
}.
Definition rolling_build (self : RollingFileWriterBuilder) : RollingFileWriter := mkRolling None [] self.

(** [inner_builder.build(new_output_file(partition_key)?)]. *)
Definition open_file (self : RollingFileWriterBuilder) (partition_key : option PartitionKey) : SR nat R :=
  let! name := generate_file_name (file_name_generator self) in
  let! location := sr_lift (generate_location (location_generator self) partition_key name) in
  sr_lift (fw_build location).
Definition rolling_write (self : RollingFileWriter) (partition_key : option PartitionKey) (input : Batch) :
    SR nat RollingFileWriter :=
  let config := rolling_config self in
  let! inner := match rolling_inner self with Some inner => mret inner | None => open_file config partition_key end in
  if target_file_size config <? fw_written_size inner then
    let! closed := sr_lift (fw_close inner) in
    let! inner := open_file config partition_key in
    let! inner := sr_lift (fw_write inner input) in
    mret (mkRolling (Some inner) (data_file_builders self ++ closed) config)
  else
    let! inner := sr_lift (fw_write inner input) in
    mret (mkRolling (Some inner) (data_file_builders self) config).
Definition rolling_close (self : RollingFileWriter) : result (list DataFileBuilder) :=
  match rolling_inner self with
  | Some current_writer =>
      let? closed := fw_close current_writer in
      Ok (data_file_builders self ++ closed)
  | None => Ok (data_file_builders self)
  end.

(** ** The writer of data files (data_file_writer.rs) *)

Record DataFileWriter := mkDataFileWriter {
  data_inner : option RollingFileWriter;
  data_partition_key : option PartitionKey;
}.
Definition data_build (self : RollingFileWriterBuilder) (partition_key : option PartitionKey) : DataFileWriter :=
  mkDataFileWriter (Some (rolling_build self)) partition_key.
Definition data_write (self : DataFileWriter) (batch : Batch) : SR nat DataFileWriter :=
  match data_inner self with
  | Some writer =>
      let! writer := rolling_write writer (data_partition_key self) batch in
      mret (mkDataFileWriter (Some writer) (data_partition_key self))
  | None => mthrow (Error Unexpected)
  end.
Definition finish_builder (partition_key : option PartitionKey) (res : DataFileBuilder) : result DataFile :=
  let res := with_data_content res in
  let res := match partition_key with Some pk => with_partition_key res pk | None => res end in
  ok_or (build_data_file res) DataInvalid.
Definition data_close (self : DataFileWriter) : result (DataFileWriter * list DataFile) :=
  match data_inner self with
  | Some writer =>
      let? builders := rolling_close writer in
      let? files := mapR (finish_builder (data_partition_key self)) builders in
      Ok (mkDataFileWriter None (data_partition_key self), files)
  | None => Err (Error Unexpected)
  end.
End rolling.

(** ** Writers of the data files of a partition ([IcebergWriterBuilder], [IcebergWriter]) *)

Class IcebergWriter (W Batch : Type) := {
  iw_build : option PartitionKey -> SR nat W;
  iw_write : W -> Batch -> SR nat W;
  iw_close : W -> SR nat (W * list DataFile);
}.
#[global] Instance data_file_writer {R Batch} {F : FileWriter R Batch} (self : RollingFileWriterBuilder) :
    IcebergWriter DataFileWriter Batch := {
  iw_build partition_key := mret (data_build self partition_key);
  iw_write := data_write;
  iw_close w := sr_lift (data_close w);
}.

(** The names that were taken between two states. *)
Definition names (n n' : nat) : list nat := seq n (n' - n).
Lemma names_app a b c : (a <= b)%nat -> (b <= c)%nat -> names a b ++ names b c = names a c.
Proof.
  intros H1 H2. unfold names. replace (c - a)%nat with ((b - a) + (c - b))%nat by lia. rewrite seq_app.
  by replace (a + (b - a))%nat with b by lia.
Qed.
Lemma names_nil a : names a a = [].
Proof. unfold names. by rewrite Nat.sub_diag. Qed.
Lemma names_one a : names a (S a) = [a].
Proof. unfold names. by replace (S a - a)%nat with 1%nat by lia. Qed.

(** What a writer promises: the files that it gives were each written under a name that it took
    itself, and hold its rows in order.  [file_written] relates a file to the key, the name and
    the rows it was written with. *)
Section files.
Context {Row : Type} (file_written : DataFile -> option PartitionKey -> nat -> list Row -> Prop).
Definition files_written (files : list DataFile) (key : option PartitionKey) (taken : list nat) (rows : list Row) : Prop :=
  exists parts : list (nat * list Row),
    Forall2 (fun file part => file_written file key part.1 part.2) files parts
    /\ concat (snd <$> parts) = rows /\ (fst <$> parts) `sublist_of` taken.
End files.
Class IcebergWriterLaws {W Batch Row : Type} (I : IcebergWriter W Batch) (conforms : Batch -> Prop)
    (batch_rows : Batch -> list Row)
    (file_written : DataFile -> option PartitionKey -> nat -> list Row -> Prop) := {
  iw_holds : W -> option PartitionKey -> list nat -> list Row -> Prop;
  iw_build_ok key n w n' : iw_build key n = Ok (w, n') -> (n <= n')%nat /\ iw_holds w key (names n n') [];
  iw_write_ok w key taken rows batch n w' n' : conforms batch -> iw_holds w key taken rows -> iw_write w batch n = Ok (w', n') ->
    (n <= n')%nat /\ iw_holds w' key (taken ++ names n n') (rows ++ batch_rows batch);
  iw_close_ok w key taken rows n w' files n' : iw_holds w key taken rows -> iw_close w n = Ok ((w', files), n') ->
    (n <= n')%nat /\ files_written file_written files key (taken ++ names n n') rows;
}.

(** And that it does not fail, on the keys that can be used. *)
Class IcebergWriterTotal {W Batch : Type} (I : IcebergWriter W Batch) (usable : option PartitionKey -> Prop) := {
  iw_usable : W -> Prop;
  iw_build_total key n : usable key -> exists w n', iw_build key n = Ok (w, n') /\ iw_usable w;
  iw_write_total w batch n : iw_usable w -> exists w' n', iw_write w batch n = Ok (w', n') /\ iw_usable w';
  iw_close_total w n : iw_usable w -> exists w' files n', iw_close w n = Ok ((w', files), n');
}.

(** *** Locations *)

Lemma append_assoc (a b c : string) : ((a ++ b) ++ c = a ++ b ++ c)%string.
Proof. induction a as [|x a IH]; [done|]. exact (f_equal (String x) IH). Qed.
Lemma lit_append a b : lit (a ++ b)%string = lit a ++ lit b.
Proof. induction a as [|c a IH]; [done|]. exact (f_equal (cons _) IH). Qed.
Lemma padded_digits n : 0 <= n -> forallb is_digit (padded n) = true /\ digits_value (padded n) = n.
Proof.
  intros Hn. destruct (to_string_u_spec n Hn) as (Hd & _ & Hv). unfold padded.
  generalize (5 - length (to_string_u n))%nat. intros k. split.
  - rewrite forallb_app, Hd, andb_true_r. by induction k.
  - rewrite digits_value_app, Hv. assert (digits_value (replicate k 48) = 0) as ->; [|lia].
    induction k as [|k IH]; [done|]. cbn [replicate]. rewrite digits_value_cons, IH. lia.
Qed.
(** The digits at the end of a list, after something that is not one. *)
Lemma digits_tail a b d e :
  forallb is_digit d = true -> forallb is_digit e = true -> a ++ 45 :: d = b ++ 45 :: e -> d = e.
Proof.
  revert b e. induction d as [|x d IH] using rev_ind; intros b e Hd He H; induction e as [|y e _] using rev_ind.
  - done.
  - rewrite app_comm_cons, app_assoc in H. apply app_inj_tail in H as [_ <-].
    rewrite forallb_app in He. by apply andb_true_iff in He as [_ He].
  - rewrite app_comm_cons, app_assoc in H. apply app_inj_tail in H as [_ ->].
    rewrite forallb_app in Hd. by apply andb_true_iff in Hd as [_ Hd].
  - rewrite !app_comm_cons, !app_assoc in H. apply app_inj_tail in H as [H ->].
    rewrite forallb_app in Hd, He. apply andb_true_iff in Hd as [Hd _], He as [He _]. by rewrite (IH b e).
Qed.
Lemma location_ends locations generator key id path :
  generate_location locations key (file_name generator id) = Ok path -> 0 <= id ->
  exists before, lit path = (before ++ 45 :: padded id) ++ lit (name_suffix generator ++ "." ++ name_format generator)%string.
Proof.
  intros H Hid.
  assert (exists dir, path = dir ++ file_name generator id)%string as [dir ->].
  { unfold generate_location in H. destruct (is_effectively_none key).
    - injection H as <-. exists (data_location locations ++ "/")%string. by rewrite !append_assoc.
    - apply bind_Ok in H as (k & _ & (p & _ & [= <-])%bind_Ok).
      exists (data_location locations ++ "/" ++ p ++ "/")%string. by rewrite !append_assoc. }
  exists (lit dir ++ lit (name_prefix generator)). unfold file_name. rewrite !lit_append.
  rewrite lit_text_digits by (by apply padded_digits). change (lit "-") with [45].
  rewrite <- !app_assoc. done.
Qed.
(** Two files have one location only if they have one number. *)
Lemma location_inj locations generator key key' id id' path :
  generate_location locations key (file_name generator id) = Ok path ->
  generate_location locations key' (file_name generator id') = Ok path ->
  0 <= id -> 0 <= id' -> id = id'.
Proof.
  intros H H' Hid Hid'. destruct (location_ends _ _ _ _ _ H Hid) as (a & Ha), (location_ends _ _ _ _ _ H' Hid') as (b & Hb).
  rewrite Ha in Hb. apply app_inv_tail in Hb. destruct (padded_digits id Hid) as [Hd Hv], (padded_digits id' Hid') as [Hd' Hv'].
  apply digits_tail in Hb; [|done..]. congruence.
Qed.

(** *** Theory *)

Section theory.
Context {R Batch Row : Type} {F : FileWriter R Batch} (conforms : Batch -> Prop) (batch_rows : Batch -> list Row)
  (describes : DataFileBuilder -> list Row -> Prop) {FL : FileWriterLaws F conforms batch_rows describes}.
Context (config : RollingFileWriterBuilder).

Definition location_of (key : option PartitionKey) (name : nat) : result string :=
  generate_location (location_generator config) key (file_name (file_name_generator config) (wrapU 64 (Z.of_nat name))).
Record builder_written (key : option PartitionKey) (b : DataFileBuilder) (part : nat * list Row) : Prop := {
  bw_location : exists path, b_file_path b = Some path /\ location_of key part.1 = Ok path;
  bw_count : b_record_count b = Some (Z.of_nat (length part.2));
  bw_rows : part.2 <> [];
  bw_describes : describes b part.2;
}.
(** The writer of a file that is open under a name that was taken. *)
Definition opened (r : R) (key : option PartitionKey) (name : nat) (rows : list Row) : Prop :=
  exists path, location_of key name = Ok path /\ fw_holds (FileWriterLaws := FL) r path rows.

Lemma open_file_ok key n r n' : open_file config key n = Ok (r, n') -> n' = S n /\ opened r key n [].
Proof.
  intros (name & s & [= <- <-] & H)%sr_bind_Ok. apply sr_bind_Ok in H as (path & s & Hp & H).
  unfold sr_lift in Hp, H. destruct (generate_location _ _ _) as [p|] eqn:Ep; [|done]. injection Hp as <- <-.
  destruct (fw_build p) as [r'|] eqn:Er; [|done]. injection H as <- <-. split; [done|].
  exists p. split; [exact Ep|]. by apply (fw_build_ok (FileWriterLaws := FL)).
Qed.
Lemma opened_write r key name rows batch r' :
  conforms batch -> opened r key name rows -> fw_write r batch = Ok r' -> opened r' key name (rows ++ batch_rows batch).
Proof. intros Hc (path & Hp & Hr) H. exists path. split; [done|]. by apply (fw_write_ok r). Qed.
Lemma opened_close r key name rows bs :
  opened r key name rows -> fw_close r = Ok bs ->
  exists parts, Forall2 (builder_written key) bs parts /\ concat (snd <$> parts) = rows
    /\ (fst <$> parts) `sublist_of` [name].
Proof.
  intros (path & Hp & Hr) H. pose proof (fw_close_ok r path rows bs Hr H) as Hc. destruct rows as [|row rows].
  - subst bs. exists []. split; [constructor|]. split; [done|]. constructor. constructor.
  - destruct Hc as (b & -> & Hpath & Hcount & Hd). exists [(name, row :: rows)]. split; [|split].
    + constructor; [|constructor]. split; eauto; done.
    + cbn. by rewrite app_nil_r.
    + done.
Qed.

(** The files that are finished, and the one that is open. *)
Definition rolling_holds (self : RollingFileWriter) (key : option PartitionKey) (taken : list nat) (rows : list Row) : Prop :=
  rolling_config self = config /\
  exists (parts : list (nat * list Row)) (current : list Row) (open_name : list nat),
    Forall2 (builder_written key) (data_file_builders self) parts
    /\ rows = concat (snd <$> parts) ++ current /\ ((fst <$> parts) ++ open_name) `sublist_of` taken
    /\ match rolling_inner self with
       | Some r => exists name, open_name = [name] /\ opened r key name current
       | None => current = []
       end.

Lemma rolling_write_ok self key taken rows batch n self' n' :
  conforms batch -> rolling_holds self key taken rows -> rolling_write self key batch n = Ok (self', n') ->
  (n <= n')%nat /\ rolling_holds self' key (taken ++ names n n') (rows ++ batch_rows batch).
Proof.
  intros Hbatch (Hconf & parts & current & open_name & Hparts & -> & Hsub & Hinner) H.
  unfold rolling_write in H. rewrite Hconf in H. apply sr_bind_Ok in H as (inner & n1 & Hopen & H).
  assert (exists name, (n <= n1)%nat /\ ((fst <$> parts) ++ [name]) `sublist_of` taken ++ names n n1
            /\ opened inner key name current) as (name & Hn1 & Hsub1 & Hopened).
  { destruct (rolling_inner self) as [r|].
    - injection Hopen as <- <-. destruct Hinner as (name & -> & Ho). exists name. rewrite names_nil, app_nil_r. by split_and!; [lia| |].
    - apply open_file_ok in Hopen as [-> Ho]. exists n. rewrite names_one. subst current. split; [lia|]. split; [|done].
      apply sublist_app; [|done]. etrans; [|exact Hsub]. by apply sublist_inserts_r. }
  clear Hsub Hopen Hinner. destruct (target_file_size config <? fw_written_size inner).
  - apply sr_bind_Ok in H as (closed & n2 & Hclose & H). unfold sr_lift in Hclose.
    destruct (fw_close inner) as [bs|] eqn:Ec; [|done]. injection Hclose as <- <-.
    apply sr_bind_Ok in H as (inner2 & n2 & Ho2 & H). apply open_file_ok in Ho2 as [-> Ho2].
    apply sr_bind_Ok in H as (inner3 & n3 & Hw & [= <- <-]). unfold sr_lift in Hw.
    destruct (fw_write inner2 batch) as [r3|] eqn:Ew; [|done]. injection Hw as <- <-.
    destruct (opened_close _ _ _ _ _ Hopened Ec) as (parts' & Hparts' & <- & Hsub').
    split; [lia|]. split; [done|]. exists (parts ++ parts'), ([] ++ batch_rows batch), [n1].
    split; [by apply Forall2_app|]. split; [by rewrite fmap_app, concat_app|]. split.
    + rewrite fmap_app, <- (names_app n n1 (S n1)) by lia. rewrite names_one, app_assoc.
      apply sublist_app; [|done]. etrans; [|exact Hsub1]. by apply sublist_app.
    + exists n1. split; [done|]. by apply (opened_write inner2).
  - apply sr_bind_Ok in H as (inner3 & n3 & Hw & [= <- <-]). unfold sr_lift in Hw.
    destruct (fw_write inner batch) as [r3|] eqn:Ew; [|done]. injection Hw as <- <-.
    split; [lia|]. split; [done|]. exists parts, (current ++ batch_rows batch), [name].
    split; [done|]. split; [by rewrite app_assoc|]. split; [done|]. exists name. split; [done|].
    by apply (opened_write inner).
Qed.
Lemma rolling_close_ok self key taken rows bs :
  rolling_holds self key taken rows -> rolling_close self = Ok bs ->
  exists parts, Forall2 (builder_written key) bs parts /\ concat (snd <$> parts) = rows
    /\ (fst <$> parts) `sublist_of` taken.
Proof.
  intros (Hconf & parts & current & open_name & Hparts & -> & Hsub & Hinner) H. unfold rolling_close in H.
  destruct (rolling_inner self) as [r|].
  - destruct Hinner as (name & -> & Ho). apply bind_Ok in H as (closed & Hc & [= <-]).
    destruct (opened_close _ _ _ _ _ Ho Hc) as (parts' & Hparts' & <- & Hsub').
    exists (parts ++ parts'). split; [by apply Forall2_app|]. rewrite !fmap_app, concat_app. split; [done|].
    etrans; [|exact Hsub]. by apply sublist_app.
  - injection H as <-. subst current. exists parts. split; [done|]. split; [by rewrite app_nil_r|].
    etrans; [|exact Hsub]. by apply sublist_inserts_r.
Qed.

(** A data file: what its builder says, with the partition of the writer. *)
Record data_file_written (file : DataFile) (key : option PartitionKey) (name : nat) (rows : list Row) : Prop := {
  df_location : location_of key name = Ok (file_path file);
  df_content : content file = Data;
  df_count : record_count file = Z.of_nat (length rows);
  df_rows : rows <> [];
  df_partition : forall pk, key = Some pk -> partition file = key_data pk /\ partition_spec_id file = spec_id (key_spec pk);
  df_describes : exists b, describes b rows /\ finish_builder key b = Ok file;
}.
Lemma finish_written key b part file :
  builder_written key b part -> finish_builder key b = Ok file -> data_file_written file key part.1 part.2.
Proof.
  intros [(path & Hp & Hl) Hc Hr Hd] H. unfold finish_builder in H.
  destruct (build_data_file _) as [f|] eqn:Ef in H; [|done]. injection H as <-.
  pose proof Ef as E. unfold build_data_file in E. destruct key as [pk|]; cbn in E; rewrite Hp in E; cbn in E;
    destruct (b_file_format b); cbn in E; try done; rewrite Hc in E; cbn in E;
    destruct (b_file_size_in_bytes b); cbn in E; try done; injection E as <-;
    (split; [exact Hl|done|done|done| |exists b; split; [done|]; unfold finish_builder; by rewrite Ef]).
  - by intros pk' [= ->].
  - done.
Qed.

Definition data_holds (w : DataFileWriter) (key : option PartitionKey) (taken : list nat) (rows : list Row) : Prop :=
  data_partition_key w = key /\ exists rolling, data_inner w = Some rolling /\ rolling_holds rolling key taken rows.
#[export] Instance data_file_writer_laws : IcebergWriterLaws (data_file_writer config) conforms batch_rows data_file_written.
Proof.
  refine {| iw_holds := data_holds |}.
  - intros key n w n' [= <- <-]. split; [done|]. split; [done|]. exists (rolling_build config). split; [done|].
    split; [done|]. exists [], [], []. rewrite names_nil. repeat split; constructor.
  - intros w key taken rows batch n w' n' Hbatch (Hk & rolling & Hr & Hh) H. cbn in H. unfold data_write in H. rewrite Hr, Hk in H.
    apply sr_bind_Ok in H as (rolling' & n1 & Hw & [= <- <-]).
    destruct (rolling_write_ok _ _ _ _ _ _ _ _ Hbatch Hh Hw) as [Hn Hh']. split; [done|]. split; [done|]. by exists rolling'.
  - intros w key taken rows n w' files n' (Hk & rolling & Hr & Hh) H. cbn in H. unfold sr_lift, data_close in H.
    rewrite Hr, Hk in H. destruct (rolling_close rolling) as [bs|] eqn:Ec; [|done]. cbn in H.
    destruct (mapR (finish_builder key) bs) as [fs|] eqn:Ef; [|done]. cbn in H. injection H as <- <- <-. split; [done|].
    destruct (rolling_close_ok _ _ _ _ _ Hh Ec) as (parts & Hparts & Hrows & Hsub). rewrite names_nil, app_nil_r.
    exists parts. split; [|done]. apply mapR_Ok in Ef. clear -Hparts Ef. revert fs Ef.
    induction Hparts as [|b part bs parts Hb _ IH]; intros fs Hf; inversion Hf; subst; [constructor|].
    constructor; [by eapply finish_written|by apply IH].
Defined.

(** Files that were written under different names have different locations. *)
Lemma written_locations files (parts : list (option PartitionKey * nat * list Row)) :
  Forall2 (fun file part => data_file_written file part.1.1 part.1.2 part.2) files parts ->
  NoDup ((fun part => part.1.2) <$> parts) -> Forall (fun part => Z.of_nat part.1.2 < 2 ^ 64) parts ->
  NoDup (file_path <$> files).
Proof.
  intros Hf Hnp Hbp. induction Hf as [|file part files parts Hfile Hf IH]; [constructor|].
  apply NoDup_cons in Hnp as [Hnot Hnp]. apply Forall_cons_1 in Hbp as [Hb Hbp].
  constructor; [|by apply IH]. intros (file' & Hp & Hin)%list_elem_of_fmap. apply Hnot.
  apply list_elem_of_lookup in Hin as (i & Hi). destruct (Forall2_lookup_l _ _ _ _ _ Hf Hi) as (part' & Hi' & Hfile').
  apply list_elem_of_fmap. exists part'. split; [|by eapply list_elem_of_lookup_2].
  pose proof (df_location _ _ _ _ Hfile) as H1. pose proof (df_location _ _ _ _ Hfile') as H2. rewrite <- Hp in H2.
  apply Forall_lookup_1 with (1 := Hbp) in Hi'.
  unfold location_of in H1, H2. pose proof (location_inj _ _ _ _ _ _ _ H1 H2) as E.
  rewrite !wrapU_id in E by (apply inU_spec; lia). lia.
Qed.

(** *** Writing does not fail

    If the writer of one file does not, and the locations of the keys can be made. *)
Definition complete (b : DataFileBuilder) : Prop :=
  is_Some (b_file_path b) /\ is_Some (b_file_format b) /\ is_Some (b_record_count b) /\ is_Some (b_file_size_in_bytes b).
Record file_writer_total : Prop := {
  total_build path : exists r, fw_build path = Ok r;
  total_write r batch : exists r', fw_write r batch = Ok r';
  total_close r : exists bs, fw_close r = Ok bs /\ Forall complete bs;
}.
Context (usable : option PartitionKey -> Prop).
Definition located : Prop := forall key name, usable key -> exists path, generate_location (location_generator config) key name = Ok path.
Definition data_usable (w : DataFileWriter (R := R)) : Prop :=
  usable (data_partition_key w) /\ exists rolling, data_inner w = Some rolling /\ rolling_config rolling = config
    /\ Forall complete (data_file_builders rolling).

Lemma open_file_total key n : file_writer_total -> located -> usable key -> exists r, open_file config key n = Ok (r, S n).
Proof.
  intros HF Hl Hk. unfold open_file. rewrite (run_bind _ _ n _ (S n) eq_refl).
  destruct (Hl key (file_name (file_name_generator config) (wrapU 64 (Z.of_nat n))) Hk) as (path & Hp).
  rewrite (run_bind _ _ (S n) path (S n)) by (unfold sr_lift; by rewrite Hp).
  destruct (total_build HF path) as (r & Hr). exists r. unfold sr_lift. by rewrite Hr.
Qed.
Lemma data_write_total w batch n :
  file_writer_total -> located -> data_usable w -> exists w' n', data_write w batch n = Ok (w', n') /\ data_usable w'.
Proof.
  intros HF Hl (Hk & rolling & Hr & Hc & Hb). unfold data_write. rewrite Hr.
  enough (exists rolling' n', rolling_write rolling (data_partition_key w) batch n = Ok (rolling', n')
    /\ rolling_config rolling' = config /\ Forall complete (data_file_builders rolling')) as (rolling' & n' & Hw & Hc' & Hb').
  { eexists _, n'. rewrite (run_bind _ _ _ _ _ Hw). split; [done|]. split; [done|]. by exists rolling'. }
  unfold rolling_write. rewrite Hc.
  assert (exists inner n1, match rolling_inner rolling with Some inner => mret inner | None => open_file config (data_partition_key w) end n
    = Ok (inner, n1)) as (inner & n1 & Hi).
  { destruct (rolling_inner rolling) as [r|]; [by exists r, n|]. destruct (open_file_total _ n HF Hl Hk) as (r & Ho). eauto. }
  rewrite (run_bind _ _ _ _ _ Hi). destruct (_ <? _).
  - destruct (total_close HF inner) as (bs & Hclose & Hbs).
    rewrite (run_bind _ _ n1 bs n1) by (unfold sr_lift; by rewrite Hclose).
    destruct (open_file_total _ n1 HF Hl Hk) as (r & Ho). rewrite (run_bind _ _ _ _ _ Ho).
    destruct (total_write HF r batch) as (r' & Hw). rewrite (run_bind _ _ (S n1) r' (S n1)) by (unfold sr_lift; by rewrite Hw).
    eexists _, _. split; [done|]. split; [done|]. by apply Forall_app.
  - destruct (total_write HF inner batch) as (r' & Hw). rewrite (run_bind _ _ n1 r' n1) by (unfold sr_lift; by rewrite Hw).
    eexists _, _. by split.
Qed.
Lemma finish_total key b : complete b -> exists file, finish_builder key b = Ok file.
Proof.
  intros ([path Hp] & [format Hf] & [count Hc] & [size Hs]). unfold finish_builder, build_data_file.
  destruct key as [pk|]; cbn; rewrite Hp, Hf, Hc, Hs; cbn; eauto.
Qed.
Lemma data_close_total w : file_writer_total -> data_usable w -> exists w' files, data_close w = Ok (w', files).
Proof.
  intros HF (Hk & rolling & Hr & Hc & Hb). unfold data_close. rewrite Hr.
  assert (exists bs, rolling_close rolling = Ok bs /\ Forall complete bs) as (bs & Hbs & Hcomp).
  { unfold rolling_close. destruct (rolling_inner rolling) as [r|]; [|by eexists].
    destruct (total_close HF r) as (closed & -> & Hcl). eexists. split; [done|]. by apply Forall_app. }
  rewrite Hbs. cbn. destruct (mapR_total (finish_builder (data_partition_key w)) bs) as (files & ->); [|by eexists _, _].
  eapply Forall_impl; [exact Hcomp|]. intros b. apply finish_total.
Qed.
#[export] Instance data_file_writer_total (HF : file_writer_total) (Hl : located) : IcebergWriterTotal (data_file_writer config) usable.
Proof.
  refine {| iw_usable := data_usable |}.
  - intros key n Hk. eexists _, n. split; [done|]. split; [done|]. by eexists.
  - intros w batch n Hw. by apply data_write_total.
  - intros w n Hw. destruct (data_close_total w HF Hw) as (w' & files & H). exists w', files, n.
    cbn. unfold sr_lift. by rewrite H.
Defined.
End theory.
End writers.
