(* ===== verification/PartitionWriters.v ===== *)
(** * Writers of partitioned tables (writer/partitioning, arrow, iceberg-datafusion)

    fanout_writer.rs, clustered_writer.rs, unpartitioned_writer.rs, the splitter of batches by
    their partition column (record_batch_partition_splitter.rs) and the writer of an insert
    (task_writer.rs).  Correctness: the files that are written hold, for each partition, its rows
    in the order they came; what the writer of clustered data makes of the splitter's order is
    stated at the end. *)

From S2P Require Import Prelude Utf8 Numerals Values Schema LiteralEq Transform PartitionSpecs DataFile.
From S2P Require Import ArrowSchema ArrowValues RecordBatchTransformer Writers.
From S2P Require Concrete.

#[local] Arguments struct_eqb : simpl never.

(** ** Maps by partition

    A [HashMap] or [HashSet] of tuples, which are compared by their [PartialEq].  The order of
    iteration is a parameter. *)
Class StructOrder := struct_iter : forall {A}, list (Struct * A) -> list (Struct * A).
Class StructOrderLaws (O : StructOrder) := struct_iter_perm : forall {A} (m : list (Struct * A)), struct_iter m ≡ₚ m.

Section struct_map.
Context {V : ValueLib} {A : Type}.
Fixpoint struct_get (m : list (Struct * A)) (key : Struct) : option A :=
  match m with
  | [] => None
  | (k, a) :: m => if struct_eqb k key then Some a else struct_get m key
  end.
(** The value of the key, or a new entry. *)
Fixpoint struct_put (m : list (Struct * A)) (key : Struct) (a : A) : list (Struct * A) :=
  match m with
  | [] => [(key, a)]
  | (k, b) :: m => if struct_eqb k key then (k, a) :: m else (k, b) :: struct_put m key a
  end.
End struct_map.
Definition struct_in {V : ValueLib} (set : list Struct) (key : Struct) : bool := existsb (fun k => struct_eqb k key) set.
Definition struct_add {V : ValueLib} (set : list Struct) (key : Struct) : list Struct :=
  if struct_in set key then set else set ++ [key].

(** ** The interface ([PartitioningWriter]) and its writers *)

Class PartitioningWriter (T Batch : Type) := {
  pw_write : T -> PartitionKey -> Batch -> SR nat T;
  pw_close : T -> SR nat (list DataFile);
}.

Section partitioning.
Context {V : ValueLib} {O : StructOrder} {W Batch : Type} {I : IcebergWriter W Batch}.

(** *** fanout_writer.rs *)

Record FanoutWriter := mkFanout { partition_writers : list (Struct * W); fanout_output : list DataFile }.
Definition fanout_new : FanoutWriter := mkFanout [] [].
Definition get_or_create_writer (self : FanoutWriter) (partition_key : PartitionKey) : SR nat W :=
  match struct_get (partition_writers self) (key_data partition_key) with
  | Some writer => mret writer
  | None => iw_build (Some partition_key)
  end.
Definition fanout_write (self : FanoutWriter) (partition_key : PartitionKey) (input : Batch) : SR nat FanoutWriter :=
  let! writer := get_or_create_writer self partition_key in
  let! writer := iw_write writer input in
  mret (mkFanout (struct_put (partition_writers self) (key_data partition_key) writer) (fanout_output self)).
Fixpoint close_writers (writers : list (Struct * W)) (output : list DataFile) : SR nat (list DataFile) :=
  match writers with
  | [] => mret output
  | (_, writer) :: writers =>
      let! closed := iw_close writer in
      close_writers writers (output ++ snd closed)
  end.
Definition fanout_close (self : FanoutWriter) : SR nat (list DataFile) :=
  close_writers (struct_iter (partition_writers self)) (fanout_output self).
#[export] Instance fanout_writer : PartitioningWriter FanoutWriter Batch := {
  pw_write := fanout_write; pw_close := fanout_close;
}.

(** *** clustered_writer.rs *)

Record ClusteredWriter := mkClustered {
  current_writer : option W;
  current_partition : option Struct;
  closed_partitions : list Struct;
  clustered_output : list DataFile;
}.
Definition clustered_new : ClusteredWriter := mkClustered None None [] [].
Definition close_current_writer (self : ClusteredWriter) : SR nat ClusteredWriter :=
  match current_writer self with
  | Some writer =>
      let! closed := iw_close writer in
      mret (mkClustered None None
              match current_partition self with
              | Some current => struct_add (closed_partitions self) current
              | None => closed_partitions self
              end (clustered_output self ++ snd closed))
  | None => mret self
  end.
Definition clustered_write (self : ClusteredWriter) (partition_key : PartitionKey) (input : Batch) :
    SR nat ClusteredWriter :=
  let partition_value := key_data partition_key in
  if struct_in (closed_partitions self) partition_value then mthrow (Error Unexpected)
  else
    let need_new_writer :=
      match current_partition self with Some current => negb (struct_eqb current partition_value) | None => true end in
    let! self :=
      if need_new_writer then
        let! self := close_current_writer self in
        let! writer := iw_build (Some partition_key) in
        mret (mkClustered (Some writer) (Some partition_value) (closed_partitions self) (clustered_output self))
      else mret self in
    let! writer := sr_lift (unwrap (current_writer self)) in
    let! writer := iw_write writer input in
    mret (mkClustered (Some writer) (current_partition self) (closed_partitions self) (clustered_output self)).
Definition clustered_close (self : ClusteredWriter) : SR nat (list DataFile) :=
  let! self := close_current_writer self in
  mret (clustered_output self).
#[export] Instance clustered_writer : PartitioningWriter ClusteredWriter Batch := {
  pw_write := clustered_write; pw_close := clustered_close;
}.

(** *** unpartitioned_writer.rs *)

Record UnpartitionedWriter := mkUnpartitioned { single_writer : option W; single_output : list DataFile }.
Definition unpartitioned_new : UnpartitionedWriter := mkUnpartitioned None [].
Definition unpartitioned_write (self : UnpartitionedWriter) (input : Batch) : SR nat UnpartitionedWriter :=
  let! writer := match single_writer self with Some writer => mret writer | None => iw_build None end in
  let! writer := iw_write writer input in
  mret (mkUnpartitioned (Some writer) (single_output self)).
Definition unpartitioned_close (self : UnpartitionedWriter) : SR nat (list DataFile) :=
  match single_writer self with
  | Some writer =>
      let! closed := iw_close writer in
      mret (single_output self ++ snd closed)
  | None => mret (single_output self)
  end.
End partitioning.

(** ** Splitting batches by partition (record_batch_partition_splitter.rs)

    With the values of the partition column; [filter_record_batch] and the lookup of a column are
    Arrow's. *)

Definition PROJECTED_PARTITION_VALUE_COLUMN : string := "_partition".
(** [RecordBatch::column_by_name]. *)
Class ArrowColumns := column_by_name : RecordBatch -> string -> option ArrayRef.

Section splitter.
Context {V : ValueLib} {AT : ArrowTypes} {AC : ArrowColumns} {O : StructOrder} (filter_record_batch : RecordBatch -> list bool -> result RecordBatch).

Record RecordBatchPartitionSplitter := mkSplitter {
  splitter_schema : Schema;
  splitter_spec : PartitionSpec;
  splitter_type : list NestedField;
}.
Definition try_new_with_precomputed_values (iceberg_schema : Schema) (partition_spec : PartitionSpec) :
    result RecordBatchPartitionSplitter :=
  let? partition_type := partition_type partition_spec iceberg_schema in
  Ok (mkSplitter iceberg_schema partition_spec partition_type).

Definition struct_value (s : option Literal) : result Struct :=
  match s with Some (LStruct s) => Ok s | _ => Err (Error DataInvalid) end.
Definition partition_structs (self : RecordBatchPartitionSplitter) (batch : RecordBatch) : result (list Struct) :=
  let? partition_column := ok_or (column_by_name batch PROJECTED_PARTITION_VALUE_COLUMN) DataInvalid in
  match partition_column with
  | StructArray _ _ =>
      let? struct_array := arrow_struct_to_literal partition_column (splitter_type self) in
      mapR struct_value struct_array
  | _ => Err (Error DataInvalid)
  end.
(** [group_ids.entry(row).or_insert(vec![]).push(row_id)] for each row. *)
Definition push_row (group_ids : list (Struct * list nat)) (entry : nat * Struct) : list (Struct * list nat) :=
  struct_put group_ids (snd entry) (default [] (struct_get group_ids (snd entry)) ++ [fst entry]).
Definition group_rows (partition_structs : list Struct) : list (Struct * list nat) :=
  foldl push_row [] (imap pair partition_structs).
(** [filter[row_id] = true] for each row of the group. *)
Fixpoint set_rows (filter : list bool) (row_ids : list nat) : result (list bool) :=
  match row_ids with
  | [] => Ok filter
  | row_id :: row_ids =>
      if (row_id <? length filter)%nat then set_rows (<[row_id := true]> filter) row_ids else Err Panic
  end.
Definition split (self : RecordBatchPartitionSplitter) (batch : RecordBatch) : result (list (PartitionKey * RecordBatch)) :=
  let? partition_structs := partition_structs self batch in
  mapR (fun group =>
          let? filter_array := set_rows (replicate (batch_num_rows batch) false) (snd group) in
          let? partition_batch := filter_record_batch batch filter_array in
          Ok (mkPartitionKey (splitter_spec self) (splitter_schema self) (fst group), partition_batch))
       (struct_iter (group_rows partition_structs)).

(** ** The writer of an insert (task_writer.rs) *)

Context {W : Type} {I : IcebergWriter W RecordBatch}.
Inductive SupportedWriter :=
  | Unpartitioned (writer : UnpartitionedWriter (W := W))
  | Fanout (writer : FanoutWriter (W := W))
  | Clustered (writer : ClusteredWriter (W := W)).
Record TaskWriter := mkTaskWriter {
  task_writer : SupportedWriter;
  partition_splitter : option RecordBatchPartitionSplitter;
}.
Definition task_try_new (fanout_enabled : bool) (schema : Schema) (partition_spec : PartitionSpec) : result TaskWriter :=
  let writer :=
    if is_unpartitioned partition_spec then Unpartitioned unpartitioned_new
    else if fanout_enabled then Fanout fanout_new
    else Clustered clustered_new in
  if negb (is_unpartitioned partition_spec) then
    let? splitter := try_new_with_precomputed_values schema partition_spec in
    Ok (mkTaskWriter writer (Some splitter))
  else Ok (mkTaskWriter writer None).
Fixpoint write_batches {T} {P : PartitioningWriter T RecordBatch} (writer : T) (batches : list (PartitionKey * RecordBatch)) :
    SR nat T :=
  match batches with
  | [] => mret writer
  | (partition_key, partition_batch) :: batches =>
      let! writer := pw_write writer partition_key partition_batch in
      write_batches writer batches
  end.
Definition write_partitioned_batches {T} {P : PartitioningWriter T RecordBatch} (writer : T)
    (partition_splitter : option RecordBatchPartitionSplitter) (batch : RecordBatch) : SR nat T :=
  let! splitter := sr_lift (unwrap partition_splitter) in
  let! partitioned_batches := sr_lift (split splitter batch) in
  write_batches writer partitioned_batches.
Definition task_write (self : TaskWriter) (batch : RecordBatch) : SR nat TaskWriter :=
  let splitter := partition_splitter self in
  match task_writer self with
  | Unpartitioned writer =>
      let! writer := unpartitioned_write writer batch in
      mret (mkTaskWriter (Unpartitioned writer) splitter)
  | Fanout writer =>
      let! writer := write_partitioned_batches writer splitter batch in
      mret (mkTaskWriter (Fanout writer) splitter)
  | Clustered writer =>
      let! writer := write_partitioned_batches writer splitter batch in
      mret (mkTaskWriter (Clustered writer) splitter)
  end.
Definition task_close (self : TaskWriter) : SR nat (list DataFile) :=
  match task_writer self with
  | Unpartitioned writer => unpartitioned_close writer
  | Fanout writer => pw_close writer
  | Clustered writer => pw_close writer
  end.
(** The loop of [IcebergWriteExec::execute] (write.rs) over the batches of its input. *)
Fixpoint write_all (self : TaskWriter) (batches : list RecordBatch) : SR nat TaskWriter :=
  match batches with
  | [] => mret self
  | batch :: batches =>
      let! self := task_write self batch in
      write_all self batches
  end.
Definition write_data_files (fanout_enabled : bool) (schema : Schema) (partition_spec : PartitionSpec)
    (batches : list RecordBatch) : SR nat (list DataFile) :=
  let! task_writer := sr_lift (task_try_new fanout_enabled schema partition_spec) in
  let! task_writer := write_all task_writer batches in
  task_close task_writer.
End splitter.

(** ** What is promised *)

Section promise.
Context {V : ValueLib} {Row : Type} (file_written : DataFile -> option PartitionKey -> nat -> list Row -> Prop).

(** The rows of a partition among what was written: by the tuples that equal it. *)
Abbreviation Log := (list (PartitionKey * list Row)).
Definition rows_of (p : Struct) (log : Log) : list Row :=
  concat (snd <$> filter (fun e => struct_eqb (key_data e.1) p = true) log).
(** A file, with the key, the name and the rows it was written with. *)
Abbreviation Part := (PartitionKey * nat * list Row)%type.
Definition part_log (parts : list Part) : Log := (fun part => (part.1.1, part.2)) <$> parts.
Definition part_written (file : DataFile) (part : Part) : Prop := file_written file (Some part.1.1) part.1.2 part.2.
Definition partitioned_files (files : list DataFile) (log : Log) (taken : list nat) : Prop :=
  exists parts : list Part,
    Forall2 part_written files parts /\ ((fun part => part.1.2) <$> parts) ⊆+ taken
    /\ Forall (fun part => part.1.1 ∈ log.*1) parts /\ forall p, rows_of p (part_log parts) = rows_of p log.
End promise.
Class PartitioningWriterLaws {V : ValueLib} {T Batch Row : Type} (P : PartitioningWriter T Batch)
    (conforms : Batch -> Prop) (batch_rows : Batch -> list Row) (file_written : DataFile -> option PartitionKey -> nat -> list Row -> Prop) := {
  pw_holds : T -> list (PartitionKey * list Row) -> list nat -> Prop;
  pw_write_ok t log taken key batch n t' n' : conforms batch -> pw_holds t log taken -> pw_write t key batch n = Ok (t', n') ->
    (n <= n')%nat /\ pw_holds t' (log ++ [(key, batch_rows batch)]) (taken ++ names n n');
  pw_close_ok t log taken n files n' : pw_holds t log taken -> pw_close t n = Ok (files, n') ->
    (n <= n')%nat /\ partitioned_files file_written files log (taken ++ names n n');
}.

(** ** Theory *)

Section rows.
Context {V : ValueLib} {VL : ValueLibLaws V} {Row : Type}.
Implicit Types (log : list (PartitionKey * list Row)).

Lemma struct_eqb_comm a b : struct_eqb a b = struct_eqb b a.
Proof using VL. apply eq_true_iff_eq. split; apply (at_sym _ _ (struct_eqb_at _)). Qed.
Lemma struct_eqb_same a b p : struct_eqb a b = true -> struct_eqb a p = struct_eqb b p.
Proof using VL.
  intros H. apply eq_true_iff_eq. split; intros Hp.
  - apply (at_trans _ _ (struct_eqb_at b) a p); [by rewrite struct_eqb_comm|done].
  - by apply (at_trans _ _ (struct_eqb_at a) b p).
Qed.
Lemma rows_of_app p log log' : rows_of p (log ++ log') = rows_of p log ++ rows_of p log'.
Proof. unfold rows_of. by rewrite filter_app, fmap_app, concat_app. Qed.
Lemma rows_of_cons p e log :
  rows_of p (e :: log) = (if struct_eqb (key_data e.1) p then e.2 else []) ++ rows_of p log.
Proof. unfold rows_of. rewrite filter_cons. by destruct (struct_eqb (key_data e.1) p). Qed.
Lemma rows_of_one p key (rows : list Row) : rows_of p [(key, rows)] = if struct_eqb (key_data key) p then rows else [].
Proof. rewrite rows_of_cons. unfold rows_of. cbn. by rewrite app_nil_r. Qed.
Lemma rows_of_none p log : Forall (fun e => struct_eqb (key_data e.1) p = false) log -> rows_of p log = [].
Proof. induction 1 as [|e log He _ IH]; [done|]. by rewrite rows_of_cons, He, IH. Qed.

(** Logs of distinct partitions. *)
Fixpoint distinct (keys : list Struct) : Prop :=
  match keys with [] => True | k :: keys => Forall (fun k' => struct_eqb k k' = false) keys /\ distinct keys end.
Lemma distinct_perm ks ks' : ks ≡ₚ ks' -> distinct ks -> distinct ks'.
Proof using VL.
  induction 1 as [|k ks ks' Hp IH|a b ks|ks ks1 ks2 _ IH1 _ IH2]; cbn; [done| | |auto].
  - intros [H1 H2]. split; [by rewrite <- Hp|auto].
  - intros [Hb [Ha Hd]]. apply Forall_cons_1 in Hb as [Hba Hb]. split; [|done].
    constructor; [by rewrite struct_eqb_comm|done].
Qed.
Lemma rows_of_perm p log log' :
  log ≡ₚ log' -> distinct ((fun e => key_data e.1) <$> log) -> rows_of p log = rows_of p log'.
Proof using VL.
  induction 1 as [|e log log' Hp IH|a b log|log log1 log2 H1 IH1 _ IH2]; intros Hd; [done| | |].
  - destruct Hd as [_ Hd]. by rewrite !rows_of_cons, (IH Hd).
  - destruct Hd as [Hb _]. apply Forall_cons_1 in Hb as [Hba _]. rewrite !rows_of_cons.
    destruct (struct_eqb (key_data b.1) p) eqn:Eb, (struct_eqb (key_data a.1) p) eqn:Ea; try done.
    rewrite (at_trans _ _ (struct_eqb_at (key_data b.1)) p (key_data a.1)) in Hba; [done|done|].
    by rewrite struct_eqb_comm.
  - rewrite IH1 by done. apply IH2. eapply distinct_perm; [|done]. by apply fmap_Permutation.
Qed.
End rows.

Section map_theory.
Context {V : ValueLib} {VL : ValueLibLaws V} {A : Type}.
Implicit Types m : list (Struct * A).

Lemma struct_get_Some m key a :
  struct_get m key = Some a ->
  exists pre k post, m = pre ++ (k, a) :: post /\ struct_eqb k key = true
    /\ forall b, struct_put m key b = pre ++ (k, b) :: post.
Proof.
  induction m as [|[k c] m IH]; [done|]. cbn [struct_get struct_put]. destruct (struct_eqb k key) eqn:E.
  - intros [= ->]. by exists [], k, m.
  - intros H. destruct (IH H) as (pre & k' & post & -> & Hk & Hput). exists ((k, c) :: pre), k', post.
    split; [done|]. split; [done|]. intros b. by rewrite Hput.
Qed.
Lemma struct_get_None m key a :
  struct_get m key = None -> struct_put m key a = m ++ [(key, a)] /\ Forall (fun k => struct_eqb k key = false) m.*1.
Proof.
  induction m as [|[k c] m IH]; [done|]. cbn [struct_get struct_put]. destruct (struct_eqb k key) eqn:E; [done|].
  intros H. destruct (IH H) as [-> Hf]. split; [done|]. by constructor.
Qed.
Lemma distinct_app ks ls :
  distinct (ks ++ ls) <-> distinct ks /\ distinct ls /\ Forall (fun k => Forall (fun l => struct_eqb k l = false) ls) ks.
Proof.
  induction ks as [|k ks IH]; cbn; [by split; [|intros (_ & ? & _)]|]. rewrite IH, Forall_app, Forall_cons. tauto.
Qed.
End map_theory.

Section writers_theory.
Context {V : ValueLib} {VL : ValueLibLaws V} {O : StructOrder} {OL : StructOrderLaws O}.
Context {W Batch Row : Type} {I : IcebergWriter W Batch} (conforms : Batch -> Prop) (batch_rows : Batch -> list Row)
  (file_written : DataFile -> option PartitionKey -> nat -> list Row -> Prop)
  {IL : IcebergWriterLaws I conforms batch_rows file_written}.

(** A writer that is open: its key, the names it took and its rows. *)
Abbreviation Open := (PartitionKey * list nat * list Row)%type.
Definition open_log (gs : list Open) : list (PartitionKey * list Row) := (fun g => (g.1.1, g.2)) <$> gs.
Definition open_as (w : Struct * W) (g : Open) : Prop :=
  w.1 = key_data g.1.1 /\ iw_holds (IcebergWriterLaws := IL) w.2 (Some g.1.1) g.1.2 g.2.

Lemma files_parts files key taken rows :
  files_written file_written files (Some key) taken rows ->
  exists parts, Forall2 (part_written file_written) files parts /\ ((fun part => part.1.2) <$> parts) `sublist_of` taken
    /\ Forall (fun part => part.1.1 = key) parts
    /\ forall p, rows_of p (part_log parts) = if struct_eqb (key_data key) p then rows else [].
Proof.
  intros (parts & Hf & <- & Hsub). exists ((fun part => (key, part.1, part.2)) <$> parts).
  split; [by apply Forall2_fmap_r|]. rewrite <- list_fmap_compose. split; [done|].
  split; [apply Forall_fmap, Forall_forall; done|]. intros p. unfold part_log. rewrite <- list_fmap_compose. cbn.
  clear Hf Hsub. induction parts as [|part parts IH]; [by destruct (struct_eqb _ _)|].
  rewrite !fmap_cons, rows_of_cons, IH. cbn. by destruct (struct_eqb _ _).
Qed.
Lemma part_log_app (a b : list (PartitionKey * nat * list Row)) : part_log (a ++ b) = part_log a ++ part_log b.
Proof. apply fmap_app. Qed.

(** The loop that closes the writers of a map. *)
Lemma close_writers_ok ws gs : forall output n files n',
  Forall2 open_as ws gs -> close_writers ws output n = Ok (files, n') ->
  (n <= n')%nat /\ exists fs parts,
    files = output ++ fs /\ Forall2 (part_written file_written) fs parts
    /\ ((fun part => part.1.2) <$> parts) ⊆+ concat ((fun g => g.1.2) <$> gs) ++ names n n'
    /\ Forall (fun part => part.1.1 ∈ (open_log gs).*1) parts
    /\ forall p, rows_of p (part_log parts) = rows_of p (open_log gs).
Proof.
  intros output n files n' Hws. revert output n. induction Hws as [|[k w] [[key taken] rows] ws gs [Hk Hh] Hws IH]; intros output n H.
  - injection H as <- <-. split; [done|]. exists [], []. rewrite app_nil_r. repeat split; try constructor. apply submseteq_nil_l.
  - apply sr_bind_Ok in H as ([w' closed] & n1 & Hc & H). cbn in Hh.
    destruct (iw_close_ok (IcebergWriterLaws := IL) _ _ _ _ _ _ _ _ Hh Hc) as [Hn1 Hf].
    destruct (files_parts _ _ _ _ Hf) as (parts1 & Hf1 & Hsub1 & Hkeys1 & Hrows1).
    destruct (IH _ _ H) as (Hn' & fs & parts & -> & Hfs & Hsub & Hkeys & Hrows). split; [lia|].
    exists (closed ++ fs), (parts1 ++ parts). split; [by rewrite app_assoc|]. split; [by apply Forall2_app|]. split; [|split].
    + rewrite fmap_app, fmap_cons, <- (names_app n n1 n') by done. cbn [concat fst snd].
      etrans; [apply submseteq_app; [by apply sublist_submseteq|exact Hsub]|]. cbn.
      apply Permutation_submseteq. solve_Permutation.
    + apply Forall_app. split; [eapply Forall_impl; [exact Hkeys1|]; intros part ->; constructor|].
      eapply Forall_impl; [exact Hkeys|]. intros part Hp. by constructor.
    + intros p. unfold part_log in *. rewrite fmap_app, rows_of_app, Hrows1, Hrows.
      unfold open_log. by rewrite fmap_cons, rows_of_cons.
Qed.

(** *** The fanout writer *)
Definition fanout_holds (t : FanoutWriter) (log : list (PartitionKey * list Row)) (taken : list nat) : Prop :=
  fanout_output t = [] /\ exists gs : list Open,
    Forall2 open_as (partition_writers t) gs /\ distinct (partition_writers t).*1
    /\ Forall (fun g => g.1.1 ∈ log.*1) gs /\ concat ((fun g => g.1.2) <$> gs) ≡ₚ taken
    /\ forall p, rows_of p (open_log gs) = rows_of p log.
Lemma open_keys ws gs : Forall2 open_as ws gs -> ws.*1 = (fun e => key_data e.1) <$> open_log gs.
Proof. induction 1 as [|w g ws gs [Hk _] _ IH]; [done|]. unfold open_log in *. by rewrite !fmap_cons, IH, Hk. Qed.

Lemma fanout_write_ok t log taken key batch n t' n' :
  conforms batch -> fanout_holds t log taken -> fanout_write t key batch n = Ok (t', n') ->
  (n <= n')%nat /\ fanout_holds t' (log ++ [(key, batch_rows batch)]) (taken ++ names n n').
Proof using VL.
  intros Hbatch (Hout & gs & Hgs & Hd & Hkeys & Htaken & Hrows) H.
  apply sr_bind_Ok in H as (w & n1 & Hget & (w' & n2 & Hw & [= <- <-])%sr_bind_Ok). unfold get_or_create_writer in Hget.
  assert (Forall (fun g => g.1.1 ∈ (log ++ [(key, batch_rows batch)]).*1) gs) as Hkeys'.
  { eapply Forall_impl; [exact Hkeys|]. intros g Hg. rewrite fmap_app. apply elem_of_app. by left. }
  destruct (struct_get (partition_writers t) (key_data key)) as [w0|] eqn:Eg.
  - injection Hget as <- <-. destruct (struct_get_Some _ _ _ Eg) as (pre & k & post & Hm & Hk & Hput).
    rewrite Hm in Hgs, Hd. apply Forall2_app_inv_l in Hgs as (gpre & gs' & Hpre & Hgs & ->).
    inversion Hgs as [|? g ? gpost [Hgk Hgh] Hpost]; subst gs'. destruct g as [[gkey gtaken] grows]. cbn in Hgk, Hgh.
    destruct (iw_write_ok (IcebergWriterLaws := IL) _ _ _ _ _ _ _ _ Hbatch Hgh Hw) as [Hn Hgh']. split; [done|]. split; [done|].
    exists (gpre ++ (gkey, gtaken ++ names n n2, grows ++ batch_rows batch) :: gpost). cbn [partition_writers]. rewrite Hput.
    split; [by apply Forall2_app; [|constructor]|].
    split; [rewrite fmap_app in Hd |- *; exact Hd|].
    split; [|split].
    + apply Forall_app in Hkeys' as [H1 H2]. apply Forall_cons_1 in H2 as [H2 H3]. by apply Forall_app; split; [|constructor].
    + rewrite <- Htaken, !fmap_app, !concat_app. cbn [fmap list_fmap concat fst snd]. solve_Permutation.
    + intros p. rewrite rows_of_app, <- Hrows, rows_of_one. unfold open_log. rewrite !fmap_app, !fmap_cons, !rows_of_app, !rows_of_cons.
      cbn [fst snd]. subst k. rewrite (struct_eqb_same _ _ p Hk). destruct (struct_eqb (key_data key) p) eqn:Ep; [|by rewrite !app_nil_r].
      rewrite (rows_of_none p ((fun g => (g.1.1, g.2)) <$> gpost)); [by rewrite !app_nil_r, app_assoc|].
      rewrite fmap_app, fmap_cons in Hd. apply distinct_app in Hd as (_ & [Hd _] & _).
      rewrite (open_keys _ _ Hpost) in Hd. apply Forall_fmap in Hd. eapply Forall_impl; [exact Hd|].
      intros e He. cbn in He. rewrite <- (struct_eqb_same _ _ p Hk) in Ep.
      rewrite struct_eqb_comm, <- (struct_eqb_same _ _ _ Ep). exact He.
  - destruct (iw_build_ok (IcebergWriterLaws := IL) _ _ _ _ Hget) as [Hn1 Hh].
    destruct (iw_write_ok (IcebergWriterLaws := IL) _ _ _ _ _ _ _ _ Hbatch Hh Hw) as [Hn2 Hh']. split; [lia|]. split; [done|].
    destruct (struct_get_None _ _ w' Eg) as [Hput Hnew]. cbn [partition_writers]. rewrite Hput.
    exists (gs ++ [(key, names n n1 ++ names n1 n2, [] ++ batch_rows batch)]).
    split; [by apply Forall2_app; [|constructor; [|constructor]]|].
    split; [rewrite fmap_app; apply distinct_app; repeat split; [done|constructor|]|].
    { eapply Forall_impl; [exact Hnew|]. intros k Hk. by constructor. }
    split; [|split].
    + apply Forall_app. split; [done|]. constructor; [|constructor]. rewrite fmap_app. apply elem_of_app. right. constructor.
    + rewrite <- Htaken, fmap_app, concat_app. cbn [fmap list_fmap concat fst snd]. by rewrite names_app, app_nil_r by lia.
    + intros p. unfold open_log in *. by rewrite fmap_app, !rows_of_app, Hrows.
Qed.
Lemma fanout_close_ok t log taken n files n' :
  fanout_holds t log taken -> fanout_close t n = Ok (files, n') ->
  (n <= n')%nat /\ partitioned_files file_written files log (taken ++ names n n').
Proof using VL OL.
  intros (Hout & gs & Hgs & Hd & Hkeys & Htaken & Hrows) H. unfold fanout_close in H. rewrite Hout in H.
  destruct (Permutation_Forall2 (symmetry (struct_iter_perm (partition_writers t))) Hgs) as (gs' & Hp & Hgs').
  destruct (close_writers_ok _ _ _ _ _ _ Hgs' H) as (Hn & fs & parts & -> & Hfs & Hsub & Hpk & Hpr). split; [done|].
  exists parts. split; [done|]. split; [|split].
  - etrans; [exact Hsub|]. by rewrite <- Hp, Htaken.
  - eapply Forall_impl; [exact Hpk|]. intros part Hin. apply list_elem_of_fmap in Hin as (e & -> & He).
    unfold open_log in He. apply list_elem_of_fmap in He as (g & -> & Hg). rewrite <- Hp in Hg.
    rewrite Forall_forall in Hkeys. by apply Hkeys.
  - intros p. rewrite Hpr, <- Hrows. symmetry. apply rows_of_perm; [by apply fmap_Permutation|].
    by rewrite <- (open_keys _ _ Hgs).
Qed.
#[export] Instance fanout_laws : PartitioningWriterLaws fanout_writer conforms batch_rows file_written := {|
  pw_holds := fanout_holds; pw_write_ok := fanout_write_ok; pw_close_ok := fanout_close_ok;
|}.

(** *** The writer of clustered data *)
Definition clustered_holds (t : ClusteredWriter) (log : list (PartitionKey * list Row)) (taken : list nat) : Prop :=
  exists parts finished,
    Forall2 (part_written file_written) (clustered_output t) parts
    /\ Forall (fun part => part.1.1 ∈ log.*1) parts /\ (forall p, rows_of p (part_log parts) = rows_of p finished)
    /\ match current_writer t, current_partition t with
       | Some w, Some k => exists key mine rows,
           open_as (k, w) (key, mine, rows) /\ key ∈ log.*1 /\ ((fun part => part.1.2) <$> parts) ++ mine ⊆+ taken
           /\ forall p, rows_of p (finished ++ [(key, rows)]) = rows_of p log
       | None, None => ((fun part => part.1.2) <$> parts) ⊆+ taken /\ forall p, rows_of p finished = rows_of p log
       | _, _ => False
       end.
Lemma close_current_ok t log taken n t' n' :
  clustered_holds t log taken -> close_current_writer t n = Ok (t', n') ->
  (n <= n')%nat /\ clustered_holds t' log (taken ++ names n n') /\ current_writer t' = None /\ current_partition t' = None.
Proof.
  intros (parts & finished & Hparts & Hkeys & Hrows & Hcur) H. unfold close_current_writer in H.
  destruct (current_writer t) as [w|] eqn:Ew, (current_partition t) as [k|] eqn:Ek; try done.
  - destruct Hcur as (key & mine & rows & [Hk Hh] & Hin & Hsub & Hlog). cbn in Hk, Hh.
    apply sr_bind_Ok in H as ([w' closed] & n1 & Hc & [= <- <-]).
    destruct (iw_close_ok (IcebergWriterLaws := IL) _ _ _ _ _ _ _ _ Hh Hc) as [Hn Hf].
    destruct (files_parts _ _ _ _ Hf) as (parts' & Hf' & Hsub' & Hkeys' & Hrows'). split; [done|]. split; [|done].
    exists (parts ++ parts'), (finished ++ [(key, rows)]). cbn. split; [by apply Forall2_app|]. split; [|split; [|split; [|done]]].
    + apply Forall_app. split; [done|]. eapply Forall_impl; [exact Hkeys'|]. by intros part ->.
    + intros p. rewrite part_log_app, !rows_of_app, Hrows, Hrows'. by rewrite rows_of_one.
    + rewrite fmap_app. etrans; [apply submseteq_app; [done|by apply sublist_submseteq]|].
      rewrite app_assoc. by apply submseteq_app.
  - injection H as <- <-. rewrite names_nil, app_nil_r. repeat split; [done| |done|done].
    exists parts, finished. rewrite Ew, Ek. done.
Qed.
Lemma clustered_write_ok t log taken key batch n t' n' :
  conforms batch -> clustered_holds t log taken -> clustered_write t key batch n = Ok (t', n') ->
  (n <= n')%nat /\ clustered_holds t' (log ++ [(key, batch_rows batch)]) (taken ++ names n n').
Proof using VL.
  intros Hbatch Hh H. unfold clustered_write in H. destruct (struct_in _ _); [done|].
  assert (forall e, e ∈ log.*1 -> e ∈ (log ++ [(key, batch_rows batch)]).*1) as Hmono.
  { intros e He. rewrite fmap_app. apply elem_of_app. by left. }
  apply sr_bind_Ok in H as (t1 & n1 & Hnew & H). apply sr_bind_Ok in H as (w & n1' & Hw & H).
  apply sr_bind_Ok in H as (w' & n2 & Hwrite & [= <- <-]).
  (* the writer after the first step has no rows yet, or is that of the partition *)
  assert ((n <= n1)%nat /\ exists parts finished mine rows key',
    Forall2 (part_written file_written) (clustered_output t1) parts
    /\ Forall (fun part => part.1.1 ∈ log.*1) parts /\ (forall p, rows_of p (part_log parts) = rows_of p finished)
    /\ exists w k, current_writer t1 = Some w /\ current_partition t1 = Some k /\ open_as (k, w) (key', mine, rows)
    /\ struct_eqb (key_data key') (key_data key) = true
    /\ (key' ∈ log.*1 \/ key' = key) /\ ((fun part => part.1.2) <$> parts) ++ mine ⊆+ taken ++ names n n1
    /\ forall p, rows_of p (finished ++ [(key', rows)]) = rows_of p log) as [Hn1 Hmid].
  { destruct (match current_partition t with Some current => negb (struct_eqb current (key_data key)) | None => true end) eqn:Enew.
    - apply sr_bind_Ok in Hnew as (t2 & n2' & Hclose & Hnew). apply sr_bind_Ok in Hnew as (w2 & n3 & Hbuild & [= <- <-]).
      destruct (close_current_ok _ _ _ _ _ _ Hh Hclose) as (Hn2 & (parts & finished & Hparts & Hkeys & Hrows & Hcur) & Ew & Ek).
      rewrite Ew, Ek in Hcur. destruct Hcur as [Hsub Hlog].
      destruct (iw_build_ok (IcebergWriterLaws := IL) _ _ _ _ Hbuild) as [Hn3 Hhold]. split; [lia|].
      exists parts, finished, (names n2' n3), [], key. cbn. repeat split; try done.
      exists w2, (key_data key). repeat split; try done.
      + by apply (at_refl _ _ (struct_eqb_at _)).
      + by right.
      + rewrite <- (names_app n n2' n3), app_assoc by lia. by apply submseteq_app.
      + intros p. rewrite rows_of_app, Hlog, rows_of_one. by destruct (struct_eqb _ _); rewrite app_nil_r.
    - injection Hnew as <- <-. split; [lia|]. destruct Hh as (parts & finished & Hparts & Hkeys & Hrows & Hcur).
      destruct (current_partition t) as [k|]; [|done]. destruct (current_writer t) as [w0|] eqn:Ew; [|done].
      destruct Hcur as (key' & mine & rows & [Hk Hhold] & Hin & Hsub & Hlog). cbn in Hk. subst k.
      apply negb_false_iff in Enew. exists parts, finished, mine, rows, key'. repeat split; try done.
      exists w0, (key_data key'). rewrite names_nil, app_nil_r. repeat split; try done. by left. }
  destruct Hmid as (parts & finished & mine & rows & key' & Hparts & Hkeys & Hrows & w0 & k & Ew & Ek & [Hk Hhold] & Heq & Hin & Hsub & Hlog).
  cbn in Hk, Hhold. unfold sr_lift in Hw. rewrite Ew in Hw. injection Hw as <- <-.
  destruct (iw_write_ok (IcebergWriterLaws := IL) _ _ _ _ _ _ _ _ Hbatch Hhold Hwrite) as [Hn2 Hhold']. split; [lia|].
  exists parts, finished. cbn. split; [done|]. split; [by eapply Forall_impl; [exact Hkeys|]; intros part Hp; apply Hmono|].
  split; [done|]. rewrite Ek. exists key', (mine ++ names n1 n2), (rows ++ batch_rows batch).
  split; [done|]. split; [|split].
  - destruct Hin as [Hin| ->]; [by apply Hmono|]. rewrite fmap_app. apply elem_of_app. right. constructor.
  - rewrite app_assoc, <- (names_app n n1 n2), (app_assoc taken) by lia. by apply submseteq_app.
  - intros p. rewrite !rows_of_app, <- Hlog, !rows_of_app, !rows_of_one, (struct_eqb_same _ _ p Heq).
    by destruct (struct_eqb (key_data key) p); rewrite <- ?app_assoc, ?app_nil_r.
Qed.
Lemma clustered_close_ok t log taken n files n' :
  clustered_holds t log taken -> clustered_close t n = Ok (files, n') ->
  (n <= n')%nat /\ partitioned_files file_written files log (taken ++ names n n').
Proof.
  intros Hh (t1 & n1 & Hc & [= <- <-])%sr_bind_Ok.
  destruct (close_current_ok _ _ _ _ _ _ Hh Hc) as (Hn & (parts & finished & Hparts & Hkeys & Hrows & Hcur) & Ew & Ek).
  rewrite Ew, Ek in Hcur. destruct Hcur as [Hsub Hlog]. split; [done|]. exists parts. repeat split; try done.
  intros p. by rewrite Hrows.
Qed.
#[export] Instance clustered_laws : PartitioningWriterLaws clustered_writer conforms batch_rows file_written := {|
  pw_holds := clustered_holds; pw_write_ok := clustered_write_ok; pw_close_ok := clustered_close_ok;
|}.
End writers_theory.

(** *** Splitting *)

Section split_theory.
Context {V : ValueLib} {VL : ValueLibLaws V} {AT : ArrowTypes} {AC : ArrowColumns} {O : StructOrder} {OL : StructOrderLaws O}.
Context {Row : Type} (conforms : RecordBatch -> Prop) (batch_rows : RecordBatch -> list Row) (filter_record_batch : RecordBatch -> list bool -> result RecordBatch).

Definition kept {A} (filter : list bool) (l : list A) : list A := snd <$> base.filter (fun e => e.1 = true) (zip filter l).
(** What [filter_record_batch] does to the rows of a batch that conforms to the schema. *)
Definition filters_rows : Prop := forall batch f batch',
  conforms batch -> filter_record_batch batch f = Ok batch' -> conforms batch' /\ batch_rows batch' = kept f (batch_rows batch).
(** The rows of a partition, by the values of the partition column. *)
Definition rows_with (p : Struct) (structs : list Struct) (rows : list Row) : list Row :=
  kept ((fun s => struct_eqb s p) <$> structs) rows.
Definition positions (p : Struct) (from : nat) (structs : list Struct) : list nat :=
  kept ((fun s => struct_eqb s p) <$> structs) (seq from (length structs)).

Lemma kept_cons {A} b f (a : A) l : kept (b :: f) (a :: l) = if b then a :: kept f l else kept f l.
Proof. unfold kept. cbn [zip zip_with]. rewrite filter_cons. by destruct b. Qed.
Lemma kept_none {A} f (l : list A) : Forall (fun b => b = false) f -> kept f l = [].
Proof.
  intros H. revert l. induction H as [|b f -> _ IH]; intros l; [done|]. destruct l as [|a l]; [done|]. by rewrite kept_cons.
Qed.

Context (spec : PartitionSpec) (schema : Schema).
Definition group_log {A} (groups : list (Struct * A)) : list (PartitionKey * A) :=
  (fun g => (mkPartitionKey spec schema g.1, g.2)) <$> groups.
Lemma group_keys {A} (groups : list (Struct * A)) : (fun e => key_data e.1) <$> group_log groups = groups.*1.
Proof. unfold group_log. rewrite <- list_fmap_compose. by apply list_fmap_ext. Qed.

Lemma push_row_ok groups i s :
  distinct groups.*1 ->
  distinct (push_row groups (i, s)).*1
  /\ forall p, rows_of p (group_log (push_row groups (i, s))) = rows_of p (group_log groups) ++ (if struct_eqb s p then [i] else []).
Proof using VL.
  intros Hd. unfold push_row. cbn [fst snd]. destruct (struct_get groups s) as [ids|] eqn:Eg.
  - destruct (struct_get_Some _ _ _ Eg) as (pre & k & post & -> & Hk & Hput). rewrite Hput. cbn [default].
    rewrite !fmap_app, !fmap_cons in Hd |- *. split; [done|]. intros p. unfold group_log. rewrite !fmap_app, !fmap_cons, !rows_of_app, !rows_of_cons.
    cbn [fst snd key_data]. rewrite (struct_eqb_same _ _ p Hk). destruct (struct_eqb s p) eqn:Ep; [|by rewrite !app_nil_r].
    rewrite (rows_of_none p (_ <$> post)); [by rewrite !app_nil_r, app_assoc|].
    apply distinct_app in Hd as (_ & [Hd _] & _). apply Forall_fmap in Hd; apply Forall_fmap. eapply Forall_impl; [exact Hd|].
    intros e He. unfold compose in He |- *. cbn in He |- *. rewrite <- (struct_eqb_same _ _ p Hk) in Ep.
    rewrite struct_eqb_comm, <- (struct_eqb_same _ _ _ Ep). exact He.
  - destruct (struct_get_None _ _ (default [] None ++ [i]) Eg) as [-> Hnew]. split.
    + rewrite fmap_app. apply distinct_app. repeat split; [done|constructor|]. eapply Forall_impl; [exact Hnew|].
      intros k Hk. by constructor.
    + intros p. unfold group_log. rewrite fmap_app, rows_of_app. f_equal. apply rows_of_one.
Qed.
Lemma group_rows_from structs : forall from groups,
  distinct groups.*1 ->
  distinct (foldl push_row groups (imap (fun i s => ((from + i)%nat, s)) structs)).*1
  /\ forall p, rows_of p (group_log (foldl push_row groups (imap (fun i s => ((from + i)%nat, s)) structs)))
     = rows_of p (group_log groups) ++ positions p from structs.
Proof using VL.
  induction structs as [|s structs IH]; intros from groups Hd; [by split; [|intros p; rewrite app_nil_r]|].
  rewrite imap_cons. cbn [foldl]. rewrite Nat.add_0_r. destruct (push_row_ok groups from s Hd) as [Hd1 Hrows1].
  assert (imap ((fun i s => ((from + i)%nat, s)) ∘ S) structs = imap (fun i s => ((S from + i)%nat, s)) structs) as ->.
  { apply imap_ext. intros i x _. cbn. f_equal. lia. }
  destruct (IH (S from) _ Hd1) as [Hd2 Hrows2]. split; [done|]. intros p. rewrite Hrows2, Hrows1, <- app_assoc. f_equal.
  unfold positions. cbn [length seq fmap list_fmap]. rewrite kept_cons. by destruct (struct_eqb s p).
Qed.
Lemma group_rows_ok structs :
  distinct (group_rows structs).*1 /\ forall p, rows_of p (group_log (group_rows structs)) = positions p 0 structs.
Proof using VL.
  unfold group_rows. destruct (group_rows_from structs 0 []) as [Hd Hr]; [done|]. cbn in Hd, Hr. split; [done|exact Hr].
Qed.

(** The rows of a group are those of its tuple. *)
Lemma rows_of_elem {A} (log : list (PartitionKey * list A)) e :
  distinct ((fun e => key_data e.1) <$> log) -> e ∈ log -> rows_of (key_data e.1) log = e.2.
Proof using VL.
  intros Hd (l1 & l2 & ->)%list_elem_of_split. rewrite fmap_app, fmap_cons in Hd. apply distinct_app in Hd as (_ & [H2 _] & H1).
  rewrite rows_of_app, rows_of_cons, (at_refl _ _ (struct_eqb_at _)).
  rewrite (rows_of_none _ l1), (rows_of_none _ l2); [by rewrite app_nil_r| |].
  - apply Forall_fmap in H2. eapply Forall_impl; [exact H2|]. intros x Hx. cbn in Hx. by rewrite struct_eqb_comm.
  - apply Forall_fmap in H1. eapply Forall_impl; [exact H1|]. intros x Hx. cbn in Hx. by apply Forall_cons_1 in Hx as [Hx _].
Qed.
Lemma set_rows_ok ids : forall filter f,
  set_rows filter ids = Ok f ->
  length f = length filter /\ forall i, f !! i = (fun b => b || bool_decide (i ∈ ids)) <$> filter !! i.
Proof.
  induction ids as [|id ids IH]; intros filter f H; cbn [set_rows] in H.
  - injection H as <-. split; [done|]. intros i. destruct (filter !! i) as [b|]; [|done]. cbn. by rewrite orb_false_r.
  - destruct (Nat.ltb_spec id (length filter)) as [Hid|]; [|done]. apply IH in H as [Hl Hf]. rewrite length_insert in Hl.
    split; [done|]. intros i. rewrite Hf. destruct (decide (i = id)) as [->|Hi].
    + rewrite list_lookup_insert_eq by done. destruct (lookup_lt_is_Some_2 filter id Hid) as [b ->]. cbn.
      rewrite (bool_decide_eq_true_2 (id ∈ id :: ids)) by constructor. by rewrite orb_true_r.
    + rewrite list_lookup_insert_ne by done. destruct (filter !! i) as [b|]; [|done]. cbn. do 2 f_equal.
      apply bool_decide_ext. rewrite elem_of_cons. split; [by right|by intros [|]].
Qed.
Lemma elem_of_positions p structs : forall from i,
  (from + i)%nat ∈ positions p from structs <-> exists s, structs !! i = Some s /\ struct_eqb s p = true.
Proof.
  induction structs as [|s structs IH]; intros from i.
  { split; [by intros ?%not_elem_of_nil|by intros (s & ? & _)]. }
  unfold positions. cbn [length seq fmap list_fmap]. rewrite kept_cons. fold (positions p (S from) structs).
  assert (forall j, j ∈ positions p (S from) structs -> (from < j)%nat) as Hlt.
  { intros j Hj. unfold positions, kept in Hj. apply list_elem_of_fmap in Hj as ([b k] & -> & Hj).
    apply list_elem_of_filter in Hj as [_ Hj]. apply elem_of_zip_r in Hj. apply elem_of_seq in Hj. cbn. lia. }
  destruct i as [|i].
  - rewrite Nat.add_0_r. cbn. split.
    + intros H. exists s. split; [done|]. destruct (struct_eqb s p); [done|]. apply Hlt in H. lia.
    + intros (s' & [= <-] & ->). constructor.
  - cbn. rewrite <- (IH (S from) i). replace (S from + i)%nat with (from + S i)%nat by lia.
    destruct (struct_eqb s p); [|done]. rewrite elem_of_cons. split; [intros [H|H]; [lia|done]|auto].
Qed.
Lemma group_filter structs g f :
  g ∈ group_rows structs -> set_rows (replicate (length structs) false) g.2 = Ok f ->
  f = (fun s => struct_eqb s g.1) <$> structs.
Proof using VL spec schema.
  intros Hg Hf. destruct (group_rows_ok structs) as [Hd Hrows]. rewrite <- group_keys in Hd.
  assert ((mkPartitionKey spec schema g.1, g.2) ∈ group_log (group_rows structs)) as Hin.
  { apply list_elem_of_fmap. by exists g. }
  pose proof (rows_of_elem _ _ Hd Hin) as Hids. cbn in Hids. rewrite Hrows in Hids.
  apply set_rows_ok in Hf as [Hl Hf]. rewrite length_replicate in Hl. apply list_eq. intros i. rewrite Hf, list_lookup_fmap.
  destruct (structs !! i) as [s|] eqn:Es.
  - rewrite lookup_replicate_2 by (by eapply lookup_lt_Some). cbn. f_equal. rewrite <- Hids.
    destruct (struct_eqb s g.1) eqn:E.
    + apply bool_decide_eq_true. apply (elem_of_positions g.1 structs 0 i). eauto.
    + apply bool_decide_eq_false. intros (s' & Hs' & E')%(elem_of_positions g.1 structs 0 i). congruence.
  - apply lookup_ge_None in Es. by rewrite lookup_ge_None_2 by (by rewrite length_replicate).
Qed.

Lemma rows_of_function {A} (f : Struct -> list A) p (groups : list Struct) :
  distinct groups -> (forall k, struct_eqb k p = true -> f k = f p) ->
  (Forall (fun k => struct_eqb k p = false) groups -> f p = []) ->
  rows_of p ((fun k => (mkPartitionKey spec schema k, f k)) <$> groups) = f p.
Proof using VL.
  intros Hd Hf Hn. destruct (decide (Exists (fun k => struct_eqb k p = true) groups)) as [He|He].
  - apply Exists_exists in He as (k & Hk & E). rewrite <- (Hf k E). apply list_elem_of_split in Hk as (l1 & l2 & ->).
    apply distinct_app in Hd as (_ & [H2 _] & H1). rewrite fmap_app, fmap_cons, rows_of_app, rows_of_cons. cbn [fst snd key_data].
    rewrite E, !rows_of_none; [by rewrite app_nil_r| |]; apply Forall_fmap; (eapply Forall_impl; [eassumption|]); intros x Hx;
      unfold compose; cbn in Hx |- *.
    + rewrite struct_eqb_comm, <- (struct_eqb_same _ _ _ E). exact Hx.
    + apply Forall_cons_1 in Hx as [Hx _]. rewrite struct_eqb_comm, <- (struct_eqb_same _ _ _ E), struct_eqb_comm. exact Hx.
  - assert (Forall (fun k => struct_eqb k p = false) groups) as H.
    { apply Forall_Exists_neg in He. eapply Forall_impl; [exact He|]. intros k Hk. by apply not_true_is_false. }
    rewrite Hn by done. apply rows_of_none, Forall_fmap. exact H.
Qed.
Lemma rows_with_same k p structs rows : struct_eqb k p = true -> rows_with k structs rows = rows_with p structs rows.
Proof using VL.
  intros H. unfold rows_with. f_equal. apply list_fmap_ext. intros _ s _.
  by rewrite (struct_eqb_comm s k), (struct_eqb_comm s p), (struct_eqb_same _ _ s H).
Qed.
Lemma rows_with_none p structs rows :
  Forall (fun k => struct_eqb k p = false) (group_rows structs).*1 -> rows_with p structs rows = [].
Proof using VL spec schema.
  intros H. unfold rows_with. apply kept_none, Forall_fmap, Forall_forall. intros s Hs. unfold compose.
  destruct (struct_eqb s p) eqn:E; [|done]. exfalso. apply list_elem_of_lookup in Hs as [i Hi].
  assert ((0 + i)%nat ∈ positions p 0 structs) as Hin by (apply elem_of_positions; eauto).
  destruct (group_rows_ok structs) as [_ Hrows]. rewrite <- Hrows, rows_of_none in Hin; [by apply not_elem_of_nil in Hin|].
  apply Forall_fmap. apply Forall_fmap in H. exact H.
Qed.
End split_theory.

(** Splitting a batch gives each of its rows to the group of its partition. *)
Section split_ok.
Context {V : ValueLib} {VL : ValueLibLaws V} {AT : ArrowTypes} {AC : ArrowColumns} {O : StructOrder} {OL : StructOrderLaws O}.
Context {Row : Type} (conforms : RecordBatch -> Prop) (batch_rows : RecordBatch -> list Row) (filter_record_batch : RecordBatch -> list bool -> result RecordBatch).
Context (Hfilter : filters_rows conforms batch_rows filter_record_batch).

(** The partition column has a value for each row. *)
Definition batch_ok (splitter : RecordBatchPartitionSplitter) (batch : RecordBatch) : Prop :=
  forall structs, partition_structs splitter batch = Ok structs -> length structs = batch_num_rows batch.
Definition batch_partition (splitter : RecordBatchPartitionSplitter) (p : Struct) (batch : RecordBatch) : list Row :=
  rows_with p (ok_value [] (partition_structs splitter batch)) (batch_rows batch).
Lemma split_ok splitter batch groups :
  batch_ok splitter batch -> conforms batch -> split filter_record_batch splitter batch = Ok groups ->
  Forall (fun g => conforms g.2) groups
  /\ Forall (fun g => key_spec g.1 = splitter_spec splitter /\ key_schema g.1 = splitter_schema splitter) groups
  /\ forall p, rows_of p ((fun g => (g.1, batch_rows g.2)) <$> groups) = batch_partition splitter p batch.
Proof using VL OL Hfilter.
  intros Hb Hbatch (structs & Hs & H)%bind_Ok. apply mapR_Ok in H. unfold batch_partition. rewrite Hs. cbn [ok_value].
  pose proof (Hb structs Hs) as Hlen. clear Hb Hs.
  set (spec := splitter_spec splitter) in *. set (schema := splitter_schema splitter) in *.
  assert (Forall2 (fun g kb => conforms kb.2 /\ kb.1 = mkPartitionKey spec schema g.1 /\ batch_rows kb.2 = rows_with g.1 structs (batch_rows batch))
            (struct_iter (group_rows structs)) groups) as H'.
  { assert (Forall (fun g => g ∈ group_rows structs) (struct_iter (group_rows structs))) as Hin.
    { apply Forall_forall. intros g Hg. by rewrite struct_iter_perm in Hg. }
    clear -VL Hfilter Hbatch H Hin Hlen. induction H as [|g kb gs groups Hg _ IH]; [constructor|].
    apply Forall_cons_1 in Hin as [Hgin Hin]. constructor; [|by apply IH].
    apply bind_Ok in Hg as (f & Hf & (b & Hfb & [= <-])%bind_Ok).
    destruct (Hfilter _ _ _ Hbatch Hfb) as [Hb Hr]. split; [done|]. split; [done|].
    rewrite <- Hlen in Hf. cbn [snd fst]. rewrite Hr. by rewrite (group_filter spec schema structs g f Hgin Hf). }
  split; [clear -H'; by induction H' as [|g kb gs groups [Hc _] _ IH]; constructor|].
  split; [clear -H'; induction H' as [|g kb gs groups (_ & Hk & _) _ IH]; constructor; [by rewrite Hk|done]|].
  intros p. destruct (group_rows_ok spec schema structs) as [Hd _].
  assert ((fun g => (g.1, batch_rows g.2)) <$> groups
          = (fun k => (mkPartitionKey spec schema k, rows_with k structs (batch_rows batch))) <$> (struct_iter (group_rows structs)).*1) as ->.
  { clear -H'. induction H' as [|g kb gs groups (_ & Hk & Hr) _ IH]; [done|]. by rewrite !fmap_cons, IH, Hk, Hr. }
  assert ((struct_iter (group_rows structs)).*1 ≡ₚ (group_rows structs).*1) as Hp by (by apply fmap_Permutation, struct_iter_perm).
  apply rows_of_function with (f := fun k => rows_with k structs (batch_rows batch)).
  - eapply distinct_perm; [symmetry; exact Hp|done].
  - intros k. apply rows_with_same.
  - intros Hn. apply (rows_with_none spec schema). by rewrite <- Hp.
Qed.
End split_ok.

(** *** The files of an insert *)

Section task.
Context {V : ValueLib} {VL : ValueLibLaws V} {AT : ArrowTypes} {AC : ArrowColumns} {O : StructOrder} {OL : StructOrderLaws O}.
Context {W Row : Type} {I : IcebergWriter W RecordBatch} (conforms : RecordBatch -> Prop) (batch_rows : RecordBatch -> list Row)
  (file_written : DataFile -> option PartitionKey -> nat -> list Row -> Prop)
  {IL : IcebergWriterLaws I conforms batch_rows file_written}.
Context (filter_record_batch : RecordBatch -> list bool -> result RecordBatch)
  (Hfilter : filters_rows conforms batch_rows filter_record_batch).

Lemma write_batches_ok {T} {P : PartitioningWriter T RecordBatch} {PL : PartitioningWriterLaws P conforms batch_rows file_written} groups :
  forall t log taken n t' n', Forall (fun g => conforms g.2) groups -> pw_holds t log taken -> write_batches t groups n = Ok (t', n') ->
  (n <= n')%nat /\ pw_holds t' (log ++ ((fun g => (g.1, batch_rows g.2)) <$> groups)) (taken ++ names n n').
Proof.
  induction groups as [|[key b] groups IH]; intros t log taken n t' n' Hc Hh H.
  - injection H as <- <-. by rewrite names_nil, !app_nil_r.
  - apply sr_bind_Ok in H as (t1 & n1 & Hw & H). apply Forall_cons_1 in Hc as [Hb Hc].
    destruct (pw_write_ok _ _ _ _ _ _ _ _ Hb Hh Hw) as [Hn1 Hh1].
    destruct (IH _ _ _ _ _ _ Hc Hh1 H) as [Hn' Hh']. split; [lia|].
    rewrite <- (names_app n n1 n') by done. rewrite fmap_cons. by rewrite <- !app_assoc in Hh'.
Qed.

Definition of_splitter (splitter : RecordBatchPartitionSplitter) (key : PartitionKey) : Prop :=
  key_spec key = splitter_spec splitter /\ key_schema key = splitter_schema splitter.
Definition partitions_hold {T} {P : PartitioningWriter T RecordBatch} {PL : PartitioningWriterLaws P conforms batch_rows file_written}
    (splitter : RecordBatchPartitionSplitter) (t : T) (batches : list RecordBatch) (taken : list nat) : Prop :=
  exists log, pw_holds t log taken /\ Forall (fun e => of_splitter splitter e.1) log
    /\ forall p, rows_of p log = concat (batch_partition batch_rows splitter p <$> batches).
Lemma write_partitioned_ok {T} {P : PartitioningWriter T RecordBatch} {PL : PartitioningWriterLaws P conforms batch_rows file_written}
    splitter (t : T) batches taken batch n t' n' :
  batch_ok splitter batch -> conforms batch -> partitions_hold splitter t batches taken ->
  write_partitioned_batches filter_record_batch t (Some splitter) batch n = Ok (t', n') ->
  (n <= n')%nat /\ partitions_hold splitter t' (batches ++ [batch]) (taken ++ names n n').
Proof using VL OL IL Hfilter.
  intros Hb Hbatch (log & Hh & Hkeys & Hrows) H. apply sr_bind_Ok in H as (s & n0 & [= <- <-] & H).
  apply sr_bind_Ok in H as (groups & n1 & Hs & H). unfold sr_lift in Hs.
  destruct (split filter_record_batch splitter batch) as [gs|] eqn:Es; [|done]. injection Hs as <- <-.
  destruct (split_ok conforms batch_rows filter_record_batch Hfilter _ _ _ Hb Hbatch Es) as (Hc & Hk & Hr).
  destruct (write_batches_ok _ _ _ _ _ _ _ Hc Hh H) as [Hn Hh']. split; [done|]. eexists. split; [exact Hh'|]. split.
  - apply Forall_app. split; [done|]. apply Forall_fmap. exact Hk.
  - intros p. rewrite rows_of_app, Hrows, Hr, fmap_app, concat_app. cbn. by rewrite app_nil_r.
Qed.

Definition task_holds (self : TaskWriter) (batches : list RecordBatch) (taken : list nat) : Prop :=
  match task_writer self, partition_splitter self with
  | Unpartitioned w, None =>
      single_output w = []
      /\ match single_writer w with
         | Some w => exists mine, iw_holds (IcebergWriterLaws := IL) w None mine (concat (batch_rows <$> batches)) /\ mine ⊆+ taken
         | None => batches = []
         end
  | Fanout w, Some splitter => partitions_hold splitter w batches taken
  | Clustered w, Some splitter => partitions_hold splitter w batches taken
  | _, _ => False
  end.
Lemma task_write_ok self batches taken batch n self' n' :
  (forall splitter, partition_splitter self = Some splitter -> batch_ok splitter batch) -> conforms batch ->
  task_holds self batches taken -> task_write filter_record_batch self batch n = Ok (self', n') ->
  (n <= n')%nat /\ task_holds self' (batches ++ [batch]) (taken ++ names n n')
  /\ partition_splitter self' = partition_splitter self.
Proof using VL OL IL Hfilter.
  intros Hb Hbatch Hh H. unfold task_holds in Hh. unfold task_write in H.
  destruct (task_writer self) as [w|w|w], (partition_splitter self) as [splitter|]; try done;
    apply sr_bind_Ok in H as (w' & n1 & Hw & [= <- <-]).
  - destruct Hh as [Hout Hh]. apply sr_bind_Ok in Hw as (w1 & n2 & Hget & (w2 & n3 & Hwrite & [= <- <-])%sr_bind_Ok).
    assert ((n <= n2)%nat /\ exists mine, iw_holds (IcebergWriterLaws := IL) w1 None mine (concat (batch_rows <$> batches))
              /\ mine ⊆+ taken ++ names n n2) as [Hn2 (mine & Hm & Hsub)].
    { destruct (single_writer w) as [w0|].
      - injection Hget as <- <-. rewrite names_nil, app_nil_r. by split.
      - subst batches. destruct (iw_build_ok (IcebergWriterLaws := IL) _ _ _ _ Hget) as [Hn Hh2]. split; [done|].
        exists (names n n2). split; [done|]. by apply submseteq_inserts_l. }
    destruct (iw_write_ok (IcebergWriterLaws := IL) _ _ _ _ _ _ _ _ Hbatch Hm Hwrite) as [Hn3 Hm']. split; [lia|]. split; [|done].
    cbn. split; [done|]. exists (mine ++ names n2 n3). rewrite fmap_app, concat_app. cbn. rewrite app_nil_r. split; [done|].
    rewrite <- (names_app n n2 n3), app_assoc by lia. by apply submseteq_app.
  - destruct (write_partitioned_ok _ _ _ _ _ _ _ _ (Hb _ eq_refl) Hbatch Hh Hw) as [Hn Hh']. done.
  - destruct (write_partitioned_ok _ _ _ _ _ _ _ _ (Hb _ eq_refl) Hbatch Hh Hw) as [Hn Hh']. done.
Qed.
Lemma write_all_ok more : forall self batches taken n self' n',
  (forall splitter, partition_splitter self = Some splitter -> Forall (batch_ok splitter) more) -> Forall conforms more ->
  task_holds self batches taken -> write_all filter_record_batch self more n = Ok (self', n') ->
  (n <= n')%nat /\ task_holds self' (batches ++ more) (taken ++ names n n')
  /\ partition_splitter self' = partition_splitter self.
Proof using VL OL IL Hfilter.
  induction more as [|batch more IH]; intros self batches taken n self' n' Hb Hc Hh H.
  - injection H as <- <-. by rewrite names_nil, !app_nil_r.
  - apply sr_bind_Ok in H as (self1 & n1 & Hw & H). apply Forall_cons_1 in Hc as [Hc1 Hc].
    destruct (task_write_ok self batches taken batch n self1 n1) as (Hn1 & Hh1 & Hs1); [|done..|].
    { intros splitter Hs. apply Hb in Hs. by apply Forall_cons_1 in Hs as [Hs _]. }
    destruct (IH self1 (batches ++ [batch]) (taken ++ names n n1) n1 self' n') as (Hn' & Hh' & Hs'); [|done..|].
    { intros splitter Hs. rewrite Hs1 in Hs. apply Hb in Hs. by apply Forall_cons_1 in Hs as [_ Hs]. }
    split; [lia|]. rewrite <- (names_app n n1 n') by done. rewrite <- !app_assoc in Hh'. split; [exact Hh'|congruence].
Qed.

(** Where the rows of the batches are: in order in the files of a table without partitions, and
    in order in the files of each partition. *)
Definition rows_placed (schema : Schema) (spec : PartitionSpec) (batches : list RecordBatch)
    (parts : list (option PartitionKey * nat * list Row)) : Prop :=
  if is_unpartitioned spec then
    Forall (fun part => part.1.1 = None) parts /\ concat (snd <$> parts) = concat (batch_rows <$> batches)
  else
    exists splitter keyed, try_new_with_precomputed_values schema spec = Ok splitter
      /\ parts = (fun part => (Some part.1.1, part.1.2, part.2)) <$> keyed
      /\ Forall (fun part => key_spec part.1.1 = spec /\ key_schema part.1.1 = schema) keyed
      /\ forall p, rows_of p (part_log keyed) = concat (batch_partition batch_rows splitter p <$> batches).
Lemma partitions_close {T} {P : PartitioningWriter T RecordBatch} {PL : PartitioningWriterLaws P conforms batch_rows file_written}
    splitter (t : T) batches taken n files n' :
  partitions_hold splitter t batches taken -> pw_close t n = Ok (files, n') ->
  (n <= n')%nat /\ exists keyed, Forall2 (part_written file_written) files keyed
    /\ ((fun part => part.1.2) <$> keyed) ⊆+ taken ++ names n n' /\ Forall (fun part => of_splitter splitter part.1.1) keyed
    /\ forall p, rows_of p (part_log keyed) = concat (batch_partition batch_rows splitter p <$> batches).
Proof.
  intros (log & Hh & Hkeys & Hrows) H. destruct (pw_close_ok _ _ _ _ _ _ Hh H) as (Hn & keyed & Hf & Hsub & Hk & Hr).
  split; [done|]. exists keyed. split; [done|]. split; [done|]. split; [|intros p; by rewrite Hr].
  eapply Forall_impl; [exact Hk|]. intros part (e & -> & He)%list_elem_of_fmap. rewrite Forall_forall in Hkeys. by apply Hkeys.
Qed.
Lemma write_data_files_ok fanout_enabled schema spec batches n files n' :
  (forall splitter, try_new_with_precomputed_values schema spec = Ok splitter -> Forall (batch_ok splitter) batches) ->
  Forall conforms batches ->
  write_data_files filter_record_batch fanout_enabled schema spec batches n = Ok (files, n') ->
  (n <= n')%nat /\ exists parts, Forall2 (fun file part => file_written file part.1.1 part.1.2 part.2) files parts
    /\ ((fun part => part.1.2) <$> parts) ⊆+ names n n' /\ rows_placed schema spec batches parts.
Proof using VL OL IL Hfilter.
  intros Hb Hconf H. apply sr_bind_Ok in H as (t & n0 & Hnew & (t1 & n1 & Hwrite & Hclose)%sr_bind_Ok).
  unfold sr_lift in Hnew. destruct (task_try_new fanout_enabled schema spec) as [t0|] eqn:Et; [|done].
  injection Hnew as -> <-.
  assert (task_holds t [] [] /\ (if is_unpartitioned spec then partition_splitter t = None
    else exists splitter, partition_splitter t = Some splitter /\ try_new_with_precomputed_values schema spec = Ok splitter))
    as [Hh0 Hs0].
  { unfold task_try_new in Et. destruct (is_unpartitioned spec) eqn:Eu; cbn [negb] in Et.
    - injection Et as <-. done.
    - apply bind_Ok in Et as (splitter & Es & [= <-]). split; [|by exists splitter].
      unfold task_holds. cbn. destruct fanout_enabled; exists []; (split; [|split; [constructor|done]]).
      + split; [done|]. exists []. repeat split; constructor.
      + exists [], []. cbn. repeat split; constructor. }
  destruct (write_all_ok batches t [] [] n t1 n1) as (Hn1 & Hh1 & Hs1); [|done..|].
  { intros splitter Hs. destruct (is_unpartitioned spec); [congruence|]. destruct Hs0 as (s & Hs0 & Htry).
    rewrite Hs in Hs0. injection Hs0 as <-. by apply Hb. }
  cbn in Hh1. unfold task_close in Hclose. unfold task_holds in Hh1. unfold rows_placed.
  destruct (is_unpartitioned spec) eqn:Eu.
  - rewrite Hs1, Hs0 in Hh1. destruct (task_writer t1) as [w|w|w]; try done. destruct Hh1 as [Hout Hh1].
    unfold unpartitioned_close in Hclose. destruct (single_writer w) as [w0|].
    + apply sr_bind_Ok in Hclose as ([w0' closed] & n2 & Hc & [= <- <-]). destruct Hh1 as (mine & Hm & Hsub).
      destruct (iw_close_ok (IcebergWriterLaws := IL) _ _ _ _ _ _ _ _ Hm Hc) as (Hn2 & parts & Hf & Hr & Hsub'). split; [lia|].
      rewrite Hout. exists ((fun part => (None, part.1, part.2)) <$> parts). rewrite <- !list_fmap_compose. cbn.
      split; [by apply Forall2_fmap_r|]. split; [|split; [by apply Forall_fmap, Forall_forall|exact Hr]].
      etrans; [by apply sublist_submseteq, Hsub'|]. rewrite <- (names_app n n1 n2) by lia. by apply submseteq_app.
    + injection Hclose as <- <-. subst batches. split; [done|]. rewrite Hout. exists []. repeat split; try constructor.
      apply submseteq_nil_l.
  - destruct Hs0 as (splitter & Hs0 & Htry). rewrite Hs1, Hs0 in Hh1.
    assert (exists keyed, (n1 <= n')%nat /\ Forall2 (part_written file_written) files keyed
      /\ ((fun part => part.1.2) <$> keyed) ⊆+ names n n1 ++ names n1 n' /\ Forall (fun part => of_splitter splitter part.1.1) keyed
      /\ forall p, rows_of p (part_log keyed) = concat (batch_partition batch_rows splitter p <$> batches))
      as (keyed & Hn' & Hf & Hsub & Hk & Hr).
    { destruct (task_writer t1) as [w|w|w]; try done;
        destruct (partitions_close _ _ _ _ _ _ _ Hh1 Hclose) as (? & keyed & ?); by exists keyed. }
    rewrite names_app in Hsub by done. split; [lia|]. exists ((fun part => (Some part.1.1, part.1.2, part.2)) <$> keyed).
    split; [by apply Forall2_fmap_r|]. split; [by rewrite <- list_fmap_compose|]. exists splitter, keyed.
    split; [done|]. split; [done|]. split; [|done]. eapply Forall_impl; [exact Hk|]. intros part [H1 H2].
    apply bind_Ok in Htry as (ty & _ & [= <-]). done.
Qed.
End task.

(** C14 The data files of an insert hold its rows.  However a file is filled and rolled over, and
    whichever writer the table has, the files of a table without partitions hold the rows of
    the batches in order, and those of each partition the rows of that partition in order; each
    file is recorded with its partition and number of rows, and no two files have one path. *)
Theorem data_files_hold_rows {V : ValueLib} {VL : ValueLibLaws V} {AT : ArrowTypes} {AC : ArrowColumns} {O : StructOrder} {OL : StructOrderLaws O}
    {R Row} {F : FileWriter R RecordBatch} conforms batch_rows describes {FL : FileWriterLaws (Row := Row) F conforms batch_rows describes}
    human config filter_record_batch fanout_enabled schema spec batches n files n' :
  filters_rows conforms batch_rows filter_record_batch ->
  (forall splitter, try_new_with_precomputed_values schema spec = Ok splitter -> Forall (batch_ok splitter) batches) ->
  Forall conforms batches ->
  Z.of_nat n' <= 2 ^ 64 ->
  write_data_files (I := data_file_writer human config) filter_record_batch fanout_enabled schema spec batches n = Ok (files, n') ->
  NoDup (file_path <$> files) /\
  exists parts, Forall2 (fun file part => data_file_written human describes config file part.1.1 part.1.2 part.2) files parts
    /\ rows_placed batch_rows schema spec batches parts.
Proof.
  intros Hfilter Hb Hc Hn H.
  destruct (write_data_files_ok (IL := data_file_writer_laws human conforms batch_rows describes config) conforms batch_rows _ _ Hfilter _ _ _ _ _ _ _ Hb Hc H)
    as (Hle & parts & Hf & Hsub & Hp).
  split; [|by exists parts]. apply (written_locations human describes config files parts); [done| |].
  - apply submseteq_Permutation in Hsub as [rest Hperm]. pose proof (NoDup_seq n (n' - n)) as Hnd.
    fold (names n n') in Hnd. rewrite Hperm in Hnd. by apply NoDup_app in Hnd as (Hnd & _ & _).
  - apply Forall_fmap with (f := fun part => part.1.2) (P := fun name => Z.of_nat name < 2 ^ 64).
    apply Forall_forall. intros name Hin. apply (elem_of_submseteq _ _ _ Hin) in Hsub. apply elem_of_seq in Hsub. lia.
Qed.

(** ** When writing succeeds *)

Section total.
Context {V : ValueLib} {VL : ValueLibLaws V} {AT : ArrowTypes} {AC : ArrowColumns} {O : StructOrder} {OL : StructOrderLaws O}.
Context {W : Type} {I : IcebergWriter W RecordBatch} (usable : option PartitionKey -> Prop) {IT : IcebergWriterTotal I usable}.
Context (filter_record_batch : RecordBatch -> list bool -> result RecordBatch)
  (Hfilter : forall batch f, exists batch', filter_record_batch batch f = Ok batch').

Lemma Forall_put {A} (P : A -> Prop) (m : list (Struct * A)) key a :
  Forall (fun e => P e.2) m -> P a -> Forall (fun e => P e.2) (struct_put m key a).
Proof.
  intros Hm Ha. induction Hm as [|[k b] m Hb Hm IH]; cbn; [by constructor|]. destruct (struct_eqb k key); by constructor.
Qed.
Lemma struct_get_in {A} (m : list (Struct * A)) key a : struct_get m key = Some a -> exists k, (k, a) ∈ m.
Proof.
  intros H. induction m as [|[k b] m IH]; [done|]. cbn in H. destruct (struct_eqb k key).
  - injection H as ->. exists k. constructor.
  - destruct (IH H) as [k' Hk]. exists k'. by constructor.
Qed.
Definition fanout_usable (w : FanoutWriter) : Prop := Forall (fun e => iw_usable (IcebergWriterTotal := IT) e.2) (partition_writers w).
Lemma fanout_write_total w key batch n :
  usable (Some key) -> fanout_usable w -> exists w' n', fanout_write w key batch n = Ok (w', n') /\ fanout_usable w'.
Proof.
  intros Hk Hw. unfold fanout_write, get_or_create_writer.
  assert (exists w1 n1, match struct_get (partition_writers w) (key_data key) with
            | Some writer => mret writer | None => iw_build (Some key) end n = Ok (w1, n1) /\ iw_usable (IcebergWriterTotal := IT) w1)
    as (w1 & n1 & H1 & Hw1).
  { destruct (struct_get _ _) as [w0|] eqn:Eg; [|by apply (iw_build_total (IcebergWriterTotal := IT))].
    exists w0, n. split; [done|]. apply struct_get_in in Eg as [k Hin]. unfold fanout_usable in Hw. rewrite Forall_forall in Hw.
    by apply (Hw _ Hin). }
  rewrite (run_bind _ _ _ _ _ H1). destruct (iw_write_total (IcebergWriterTotal := IT) w1 batch n1 Hw1) as (w2 & n2 & H2 & Hw2).
  rewrite (run_bind _ _ _ _ _ H2). eexists _, _. split; [done|]. by apply Forall_put.
Qed.
Lemma close_writers_total ws : forall output n,
  Forall (fun e => iw_usable (IcebergWriterTotal := IT) e.2) ws -> exists files n', close_writers ws output n = Ok (files, n').
Proof.
  induction ws as [|[k w] ws IH]; intros output n Hws; [by eexists _, _|]. apply Forall_cons_1 in Hws as [Hw Hws].
  destruct (iw_close_total (IcebergWriterTotal := IT) w n Hw) as (w' & files & n1 & Hc). cbn [close_writers].
  rewrite (run_bind _ _ _ _ _ Hc). by apply IH.
Qed.

Lemma set_rows_total ids : forall filter, Forall (fun i => (i < length filter)%nat) ids -> exists f, set_rows filter ids = Ok f.
Proof.
  induction ids as [|i ids IH]; intros filter H; [by eexists|]. apply Forall_cons_1 in H as [Hi H]. cbn [set_rows].
  destruct (Nat.ltb_spec i (length filter)) as [_|]; [|lia]. apply IH. by rewrite length_insert.
Qed.
Lemma group_tuples structs g : g ∈ group_rows structs -> g.1 ∈ structs /\ Forall (fun i => (i < length structs)%nat) g.2.
Proof using VL.
  unfold group_rows. set (P := fun g : Struct * list nat => g.1 ∈ structs /\ Forall (fun i => (i < length structs)%nat) g.2).
  assert (forall rows groups, Forall (fun e => e.2 ∈ structs /\ (e.1 < length structs)%nat) rows -> Forall P groups ->
    Forall P (foldl push_row groups rows)) as H.
  { induction rows as [|[i s] rows IH]; intros groups Hr Hg; [done|]. apply Forall_cons_1 in Hr as [[Hs Hi] Hr]. cbn in Hs, Hi.
    cbn [foldl]. apply IH; [done|]. unfold push_row. cbn [fst snd]. destruct (struct_get groups s) as [ids|] eqn:Eg.
    - destruct (struct_get_Some _ _ _ Eg) as (pre & k & post & -> & Hk & ->). apply Forall_app in Hg as [H1 H2].
      apply Forall_cons_1 in H2 as [[H2 H2'] H3]. apply Forall_app. split; [done|]. constructor; [|done]. split; [done|].
      cbn. apply Forall_app. split; [done|]. by constructor.
    - destruct (struct_get_None _ _ (default [] None ++ [i]) Eg) as [-> _]. apply Forall_app. split; [done|].
      constructor; [|constructor]. split; [done|]. by constructor. }
  intros Hg. assert (Forall P (foldl push_row [] (imap pair structs))) as HP; [|rewrite Forall_forall in HP; by apply HP].
  apply H; [|constructor]. apply Forall_forall. intros e (i & s & -> & Hs)%elem_of_lookup_imap. cbn.
  split; [by eapply list_elem_of_lookup_2|by eapply lookup_lt_Some].
Qed.
Lemma split_total splitter batch structs :
  partition_structs splitter batch = Ok structs -> length structs = batch_num_rows batch ->
  exists groups, split filter_record_batch splitter batch = Ok groups
    /\ Forall (fun g => exists s, s ∈ structs /\ g.1 = mkPartitionKey (splitter_spec splitter) (splitter_schema splitter) s) groups.
Proof using VL OL IT Hfilter.
  intros Hs Hlen. unfold split. rewrite Hs. cbn [mbind result_bind].
  assert (Forall (fun g => g ∈ group_rows structs) (struct_iter (group_rows structs))) as Hin.
  { apply Forall_forall. intros g Hg. by rewrite struct_iter_perm in Hg. }
  induction Hin as [|g gs Hg Hgs IH]; [by exists []|]. destruct IH as (groups & Hm & Hk).
  destruct (group_tuples structs g Hg) as [Hs' Hids].
  destruct (set_rows_total g.2 (replicate (batch_num_rows batch) false)) as (f & Hf).
  { rewrite length_replicate, <- Hlen. done. }
  destruct (Hfilter batch f) as (b & Hb). eexists. cbn [mapR]. rewrite Hf. cbn [mbind result_bind]. rewrite Hb, Hm. cbn.
  split; [done|]. constructor; [by exists g.1|done].
Qed.

Definition rows_usable (splitter : RecordBatchPartitionSplitter) (batch : RecordBatch) : Prop :=
  exists structs, partition_structs splitter batch = Ok structs /\ length structs = batch_num_rows batch
    /\ Forall (fun s => usable (Some (mkPartitionKey (splitter_spec splitter) (splitter_schema splitter) s))) structs.
Lemma fanout_batch_total splitter w batch n :
  rows_usable splitter batch -> fanout_usable w ->
  exists w' n', write_partitioned_batches filter_record_batch w (Some splitter) batch n = Ok (w', n') /\ fanout_usable w'.
Proof using VL OL IT Hfilter.
  intros (structs & Hs & Hlen & Hu) Hw. destruct (split_total splitter batch structs Hs Hlen) as (groups & Hg & Hk).
  unfold write_partitioned_batches. rewrite (run_bind _ _ n splitter n) by done.
  rewrite (run_bind _ _ n groups n) by (unfold sr_lift; by rewrite Hg). clear Hg. revert w n Hw.
  induction Hk as [|[key b] groups (s & Hs' & Hkey) _ IH]; intros w n Hw; [by exists w, n|]. cbn in Hkey. subst key.
  rewrite Forall_forall in Hu. destruct (fanout_write_total w _ b n (Hu s Hs') Hw) as (w1 & n1 & H1 & Hw1).
  cbn [write_batches]. change (pw_write w ?k b) with (fanout_write w k b). rewrite (run_bind _ _ _ _ _ H1).
  apply IH; done.
Qed.

Lemma fanout_all_total splitter batches : forall w n,
  Forall (rows_usable splitter) batches -> fanout_usable w ->
  exists w' n', write_all filter_record_batch (mkTaskWriter (Fanout w) (Some splitter)) batches n
    = Ok (mkTaskWriter (Fanout w') (Some splitter), n') /\ fanout_usable w'.
Proof using VL OL IT Hfilter.
  induction batches as [|batch batches IH]; intros w n Hb Hw; [by exists w, n|]. apply Forall_cons_1 in Hb as [Hb1 Hb].
  destruct (fanout_batch_total splitter w batch n Hb1 Hw) as (w1 & n1 & H1 & Hw1).
  cbn [write_all]. unfold task_write. cbn [task_writer partition_splitter].
  assert ((let! writer := write_partitioned_batches filter_record_batch w (Some splitter) batch in
           mret (mkTaskWriter (Fanout writer) (Some splitter))) n = Ok (mkTaskWriter (Fanout w1) (Some splitter), n1)) as E.
  { by rewrite (run_bind _ _ _ _ _ H1). }
  rewrite (run_bind _ _ _ _ _ E). by apply IH.
Qed.
Lemma single_all_total batches : forall w n,
  usable None -> (forall w0, single_writer w = Some w0 -> iw_usable (IcebergWriterTotal := IT) w0) ->
  exists w' n', write_all filter_record_batch (mkTaskWriter (Unpartitioned w) None) batches n
    = Ok (mkTaskWriter (Unpartitioned w') None, n')
    /\ forall w0, single_writer w' = Some w0 -> iw_usable (IcebergWriterTotal := IT) w0.
Proof.
  induction batches as [|batch batches IH]; intros w n Hu Hw; [by exists w, n|].
  assert (exists w1 n1, match single_writer w with Some writer => mret writer | None => iw_build None end n = Ok (w1, n1)
            /\ iw_usable (IcebergWriterTotal := IT) w1) as (w1 & n1 & H1 & Hw1).
  { destruct (single_writer w) as [w0|]; [exists w0, n; auto|]. by apply (iw_build_total (IcebergWriterTotal := IT)). }
  destruct (iw_write_total (IcebergWriterTotal := IT) w1 batch n1 Hw1) as (w2 & n2 & H2 & Hw2).
  cbn [write_all]. unfold task_write. cbn [task_writer partition_splitter].
  assert (unpartitioned_write w batch n = Ok (mkUnpartitioned (Some w2) (single_output w), n2)) as E0.
  { unfold unpartitioned_write. by rewrite (run_bind _ _ _ _ _ H1), (run_bind _ _ _ _ _ H2). }
  assert ((let! writer := unpartitioned_write w batch in mret (mkTaskWriter (Unpartitioned writer) None)) n
          = Ok (mkTaskWriter (Unpartitioned (mkUnpartitioned (Some w2) (single_output w))) None, n2)) as E.
  { by rewrite (run_bind _ _ _ _ _ E0). }
  rewrite (run_bind _ _ _ _ _ E). apply IH; [done|]. by intros w0 [= <-].
Qed.

(** What an insert needs of its table and its batches. *)
Definition insert_usable (schema : Schema) (spec : PartitionSpec) (batches : list RecordBatch) : Prop :=
  if is_unpartitioned spec then usable None
  else exists splitter, try_new_with_precomputed_values schema spec = Ok splitter /\ Forall (rows_usable splitter) batches.
Lemma write_data_files_total fanout_enabled schema spec batches n :
  is_unpartitioned spec = true \/ fanout_enabled = true -> insert_usable schema spec batches ->
  exists files n', write_data_files filter_record_batch fanout_enabled schema spec batches n = Ok (files, n').
Proof using VL OL IT Hfilter.
  intros Hmode Hu. unfold insert_usable in Hu. unfold write_data_files, task_try_new. destruct (is_unpartitioned spec).
  - rewrite (run_bind _ _ n (mkTaskWriter (Unpartitioned unpartitioned_new) None) n) by done.
    destruct (single_all_total batches unpartitioned_new n Hu ltac:(done)) as (w & n1 & H1 & Hw).
    rewrite (run_bind _ _ _ _ _ H1). cbn. unfold unpartitioned_close.
    destruct (single_writer w) as [w0|] eqn:Ew; [|by eexists _, _].
    destruct (iw_close_total (IcebergWriterTotal := IT) w0 n1 (Hw w0 eq_refl)) as (w' & files & n2 & Hc).
    rewrite (run_bind _ _ _ _ _ Hc). by eexists _, _.
  - destruct Hmode as [| ->]; [done|]. destruct Hu as (splitter & Hs & Hb).
    rewrite (run_bind _ _ n (mkTaskWriter (Fanout fanout_new) (Some splitter)) n) by (unfold sr_lift; cbn [negb]; by rewrite Hs).
    destruct (fanout_all_total splitter batches fanout_new n Hb ltac:(constructor)) as (w & n1 & H1 & Hw).
    rewrite (run_bind _ _ _ _ _ H1). cbn. unfold fanout_close. apply close_writers_total.
    apply Forall_forall. intros e He. rewrite struct_iter_perm in He. unfold fanout_usable in Hw. rewrite Forall_forall in Hw.
    by apply Hw.
Qed.
End total.

(** C32 An insert with fanout, or into a table without partitions, does not fail: if the writer
    of one file does not, each batch has a tuple for every row, and the tuples have paths, the
    data files are written and given. *)
Theorem insert_succeeds {V : ValueLib} {VL : ValueLibLaws V} {AT : ArrowTypes} {AC : ArrowColumns} {O : StructOrder} {OL : StructOrderLaws O}
    {R} {F : FileWriter R RecordBatch} human config usable filter_record_batch fanout_enabled schema spec batches n :
  file_writer_total -> located human config usable ->
  (forall batch f, exists batch', filter_record_batch batch f = Ok batch') ->
  is_unpartitioned spec = true \/ fanout_enabled = true -> insert_usable usable schema spec batches ->
  exists files n', write_data_files (I := data_file_writer human config) filter_record_batch fanout_enabled schema spec batches n
    = Ok (files, n').
Proof.
  intros HF Hl Hfilter Hmode Hu.
  by apply (write_data_files_total usable (IT := data_file_writer_total human config usable HF Hl) filter_record_batch Hfilter).
Qed.

(** The writer of clustered data fails on a partition that it has closed, and says so. *)
Theorem closed_partition_refused {V : ValueLib} {W Batch} {I : IcebergWriter W Batch} (self : ClusteredWriter) key batch n :
  struct_in (closed_partitions self) (key_data key) = true -> clustered_write self key batch n = Err (Error Unexpected).
Proof. intros H. unfold clustered_write. by rewrite H. Qed.

(** ** Examples *)

Section examples.
#[local] Existing Instance Concrete.concrete_values.
#[local] Existing Instance Concrete.concrete_values_laws.
#[local] Existing Instance concrete_arrow_types.
#[local] Existing Instance Concrete.concrete_lowercase.

(** A writer of files that keeps the values of the first column, four bytes each. *)
Definition ex_batch_rows (batch : RecordBatch) : list Z :=
  match batch_columns batch with Int32Array vs :: _ => default 0 <$> vs | _ => [] end.
Definition ex_describes (b : DataFileBuilder) (rows : list Z) : Prop := b_file_size_in_bytes b = Some (4 * Z.of_nat (length rows)).
#[local] Instance ex_file_writer : FileWriter (string * list Z) RecordBatch := {
  fw_build path := Ok (path, []);
  fw_write r batch := Ok (fst r, snd r ++ ex_batch_rows batch);
  fw_close r :=
    Ok match snd r with
       | [] => []
       | rows =>
           let n := Z.of_nat (length rows) in
           [mkDataFileBuilder None (Some (fst r)) (Some Parquet) [] (Some n) (Some (4 * n)) ∅ ∅ ∅ ∅ ∅ ∅ None
              DEFAULT_PARTITION_SPEC_ID]
       end;
  fw_written_size r := 4 * Z.of_nat (length (snd r));
}.
#[local] Instance ex_file_writer_laws : FileWriterLaws ex_file_writer (fun _ => True) ex_batch_rows ex_describes.
Proof.
  refine {| fw_holds r path rows := r = (path, rows) |}.
  - by intros path r [= <-].
  - by intros r path rows batch r' _ -> [= <-].
  - intros r path rows bs -> [= <-]. cbn. destruct rows as [|row rows]; [done|]. eexists. split; [done|]. done.
Defined.
Lemma ex_file_writer_total : file_writer_total (F := ex_file_writer).
Proof.
  split; [by eexists|by eexists|]. intros [path rows]. eexists. split; [done|]. destruct rows; [constructor|].
  constructor; [|constructor]. repeat split; by eexists.
Qed.

Definition filter_column (f : list bool) (column : ArrayRef) : ArrayRef :=
  match column with
  | Int32Array vs => Int32Array (kept f vs)
  | StructArray columns nulls =>
      StructArray ((fun c => (c.1, match c.2 with Int32Array vs => Int32Array (kept f vs) | a => a end)) <$> columns) (kept f nulls)
  | a => a
  end.
Definition ex_filter (batch : RecordBatch) (f : list bool) : result RecordBatch :=
  Ok (mkRecordBatch (batch_schema batch) (filter_column f <$> batch_columns batch) (length (kept f (seq 0 (batch_num_rows batch))))).
Lemma kept_fmap {A B} (g : A -> B) f l : kept f (g <$> l) = g <$> kept f l.
Proof.
  revert l. induction f as [|b f IH]; intros [|a l]; try done. rewrite fmap_cons, !kept_cons, IH. by destruct b.
Qed.
Lemma ex_filters_rows : filters_rows (fun _ => True) ex_batch_rows ex_filter.
Proof.
  intros batch f batch' _ [= <-]. split; [done|]. unfold ex_batch_rows. cbn. destruct (batch_columns batch) as [|[] columns]; cbn;
    try (by destruct f as [|[]]).
  by rewrite kept_fmap.
Qed.

#[local] Instance ex_columns : ArrowColumns := fun batch name =>
  '(i, _) ← list_find (fun f => Arrow.name f = name) (batch_schema batch);
  batch_columns batch !! i.
Definition ex_schema : Schema :=
  ok_value (mkSchema [] 0 0 ∅ [] ∅ ∅ ∅ ∅ ∅) (Schema.build (mkSchemaBuilder 0
    [mkField 1 "v" false (TPrimitive PrimitiveType.Int); mkField 2 "k" false (TPrimitive PrimitiveType.Int)] [] ∅ None)).
Definition ex_spec : PartitionSpec := mkPartitionSpec 3 [mkPartitionField 2 1000 "k" Transform.Identity].
Definition ex_batch (vs ks : list Z) : RecordBatch :=
  let column name id := Arrow.with_metadata (Arrow.new name Arrow.Int32 true) {["PARQUET:field_id"%string := id]} in
  mkRecordBatch [column "v" "1"; column "k" "2"; Arrow.new PROJECTED_PARTITION_VALUE_COLUMN Arrow.Int32 true]%string
    [Int32Array (Some <$> vs); Int32Array (Some <$> ks);
     StructArray [(column "k" "1000", Int32Array (Some <$> ks))]%string (replicate (length ks) false)] (length ks).
Definition ex_batches : list RecordBatch := [ex_batch [10; 20; 11] [1; 2; 1]; ex_batch [12; 21] [1; 2]; ex_batch [13; 22] [1; 2]].
Definition ex_config : RollingFileWriterBuilder :=
  mkRollingBuilder 8 (mkLocations "s3://bucket/t/data") (name_generator_new "insert" None Parquet).
Definition ex_human (d : Datum) : string := match datum_literal d with PrimitiveLiteral.Int n => text (to_string_i n) | _ => "" end.
#[local] Instance last_first : StructOrder := fun A m => rev m.
#[local] Instance last_first_laws : StructOrderLaws last_first.
Proof. intros A m. symmetry. apply Permutation_rev. Qed.

Definition ex_write {O : StructOrder} (fanout_enabled : bool) (batches : list RecordBatch) : result (list DataFile * nat) :=
  write_data_files (I := data_file_writer ex_human ex_config) ex_filter fanout_enabled ex_schema ex_spec batches 0%nat.
Definition ex_shown (r : result (list DataFile * nat)) : list (string * Z) :=
  (fun f => (file_path f, record_count f)) <$> (ok_value ([], 0%nat) r).1.
Lemma ex_batch_ok splitter : try_new_with_precomputed_values ex_schema ex_spec = Ok splitter -> Forall (batch_ok splitter) ex_batches.
Proof.
  intros H. repeat apply Forall_cons_2; try constructor; intros structs Hs;
    apply bind_Ok in H as (ty & Ht & [= <-]); vm_compute in Ht; injection Ht as <-; vm_compute in Hs; injection Hs as <-; done.
Qed.
(** Three rows of the first partition fill a file of eight bytes, so its last row is in another. *)
Lemma data_files_hold_rows_witness :
  ex_shown (ex_write true ex_batches)
  = [("s3://bucket/t/data/k=1/insert-00001.parquet", 3); ("s3://bucket/t/data/k=1/insert-00002.parquet", 1);
     ("s3://bucket/t/data/k=2/insert-00000.parquet", 3)]%string
  /\ exists files parts, (ex_write true ex_batches) = Ok (files, 3%nat) /\ NoDup (file_path <$> files)
     /\ rows_placed ex_batch_rows ex_schema ex_spec ex_batches parts.
Proof.
  split; [by vm_compute|].
  assert (is_ok (ex_write true ex_batches) = true) as Hok by (by vm_compute).
  assert ((ok_value ([], 0%nat) (ex_write true ex_batches)).2 = 3%nat) as Hn by (by vm_compute).
  destruct (ex_write true ex_batches) as [[files n']|] eqn:E; [|done]. cbn in Hn. subst n'. exists files.
  destruct (data_files_hold_rows (fun _ => True) ex_batch_rows ex_describes ex_human ex_config ex_filter true ex_schema ex_spec ex_batches 0 files 3)
    as (Hnd & parts & _ & Hp).
  - exact ex_filters_rows.
  - exact ex_batch_ok.
  - by apply Forall_true.
  - done.
  - exact E.
  - by exists parts.
Defined.

Definition ex_usable (key : option PartitionKey) : Prop :=
  key ∈ [Some (mkPartitionKey ex_spec ex_schema [Some (LPrimitive (PrimitiveLiteral.Int 1))]);
         Some (mkPartitionKey ex_spec ex_schema [Some (LPrimitive (PrimitiveLiteral.Int 2))])].
Lemma ex_located : located ex_human ex_config ex_usable.
Proof.
  intros key name Hk. unfold generate_location.
  assert (exists path, to_path ex_human (mkPartitionKey ex_spec ex_schema [Some (LPrimitive (PrimitiveLiteral.Int 1))]) = Ok path) as [p1 H1]
    by (eexists; by vm_compute).
  assert (exists path, to_path ex_human (mkPartitionKey ex_spec ex_schema [Some (LPrimitive (PrimitiveLiteral.Int 2))]) = Ok path) as [p2 H2]
    by (eexists; by vm_compute).
  apply elem_of_cons in Hk as [->|Hk]; [|apply list_elem_of_singleton in Hk as ->].
  - change (is_effectively_none _) with false. cbn [unwrap mbind result_bind]. rewrite H1. by eexists.
  - change (is_effectively_none _) with false. cbn [unwrap mbind result_bind]. rewrite H2. by eexists.
Qed.
Lemma insert_succeeds_witness : exists files n', ex_write true ex_batches = Ok (files, n').
Proof.
  apply (insert_succeeds ex_human ex_config ex_usable ex_filter true ex_schema ex_spec ex_batches 0).
  - exact ex_file_writer_total.
  - exact ex_located.
  - intros batch f. by eexists.
  - by right.
  - unfold insert_usable. change (is_unpartitioned ex_spec) with false. cbv iota.
    assert (exists ty, partition_type ex_spec ex_schema = Ok ty) as [ty Ht] by (eexists; by vm_compute).
    exists (mkSplitter ex_schema ex_spec ty). split; [unfold try_new_with_precomputed_values; by rewrite Ht|].
    vm_compute in Ht. injection Ht as <-.
    repeat apply Forall_cons_2; try apply Forall_nil_2; (eexists; split; [by vm_compute|]; split; [done|]);
      repeat apply Forall_cons_2; try apply Forall_nil_2; apply elem_of_cons;
      first [by left | right; by apply list_elem_of_singleton].
Defined.

(** The splitter gives the groups of a batch in the order of a hash map.  A batch of partitions 1
    and 2 that is written 2 first leaves partition 2 closed, so the next batch of sorted input,
    which goes on with it, is refused; in the order of the rows it would not be. *)
Definition ex_sorted : list RecordBatch := [ex_batch [1; 2] [1; 2]; ex_batch [3; 4] [2; 3]].
Theorem sorted_input_refused :
  ex_write false ex_sorted = Err (Error Unexpected)
  /\ is_ok (ex_write (O := fun A (m : list (Struct * A)) => m) false ex_sorted) = true.
Proof. split; by vm_compute. Qed.
End examples.
