(* ===== verification/FileMetrics.v ===== *)
(** * The metrics of a written file (writer/file_writer/parquet_writer.rs)

    How the footer of a parquet file becomes the record of a data file: the columns found by
    their paths, the counts added up, the bounds aggregated over the row groups.
    Correctness: if the statistics of each column chunk describe its values, the metrics of the
    file describe the values of the file, which is what the metrics evaluators rely on; a chunk
    without exact statistics is passed over, and then they do not. *)

From S2P Require Import Prelude Utf8 Values Concrete DatumOrder Schema SchemaCheck Expr Transform PartitionSpecs.
From S2P Require Import DataFile ExprEval Metrics ParquetStatistics.
From S2P Require ArrowSchema TableMetadata Writers InclusiveMetrics.

(** ** The footer of a file

    The data that the parquet crate hands over: the parts of [Statistics], [ColumnChunkMetaData],
    [RowGroupMetaData] and [ParquetMetaData] that the code reads. *)
Record ColumnStatistics := mkColumnStatistics {
  stat_values : Statistics.t;
  min_is_exact : bool;
  max_is_exact : bool;
}.
Record ColumnChunkMetaData := mkColumnChunk {
  column_path : string;
  compressed_size : Z;
  num_values : Z;
  statistics : option ColumnStatistics;
}.
Record RowGroupMetaData := mkRowGroup {
  columns : list ColumnChunkMetaData;
  file_offset : option Z;
}.
Record ParquetMetaData := mkParquetMetaData {
  row_groups : list RowGroupMetaData;
  num_rows : Z;
}.

(** ** Columns by their paths ([IndexByParquetPathName]) *)

Record IndexByParquetPathName := mkPathIndex {
  name_to_id : gmap string Z;
  field_names : list string;
  path_field_id : Z;
}.
Definition path_index_new : IndexByParquetPathName := mkPathIndex ∅ [] 0.
Definition path_get (self : IndexByParquetPathName) (name : string) : option Z := name_to_id self !! name.

Definition push_name (name : NestedField -> string) (field : NestedField) : SR IndexByParquetPathName unit :=
  sr_modify (fun self => mkPathIndex (name_to_id self) (field_names self ++ [name field]) (field_id field)).
Definition pop_name (_ : NestedField) : SR IndexByParquetPathName unit :=
  sr_modify (fun self => mkPathIndex (name_to_id self) (removelast (field_names self)) (path_field_id self)).
Definition element_name (field : NestedField) : string := ("list." ++ field_name field)%string.
Definition key_name (_ : NestedField) : string := (ArrowSchema.DEFAULT_MAP_FIELD_NAME ++ ".key")%string.
Definition value_name (_ : NestedField) : string := (ArrowSchema.DEFAULT_MAP_FIELD_NAME ++ ".value")%string.
(** [primitive]. *)
Definition index_primitive : SR IndexByParquetPathName unit := fun self =>
  let full_name := join "." (field_names self) in
  let field_id := path_field_id self in
  match name_to_id self !! full_name with
  | Some _ => Err (Error DataInvalid)
  | None => Ok (tt, mkPathIndex (<[full_name := field_id]> (name_to_id self)) (field_names self) field_id)
  end.
Definition PathNameVisitor : SchemaVisitor IndexByParquetPathName unit :=
  {| before_struct_field := push_name field_name; after_struct_field := pop_name;
     before_list_element := push_name element_name; after_list_element := pop_name;
     before_map_key := push_name key_name; after_map_key := pop_name;
     before_map_value := push_name value_name; after_map_value := pop_name;
     v_field _ _ := mret tt; v_struct _ _ := mret tt; v_list _ _ := mret tt;
     v_map _ _ _ _ := mret tt; v_primitive _ := index_primitive |}.
(** [visit_schema(&schema, &mut visitor)?] with a new visitor. *)
Definition index_by_parquet_path (schema : Schema) : result IndexByParquetPathName :=
  snd <$> visit_struct PathNameVisitor (as_struct schema) path_index_new.

(** ** Aggregation of bounds ([MinMaxColAggregator]) *)

Record MinMaxColAggregator := mkMinMax {
  agg_lower_bounds : gmap Z Datum;
  agg_upper_bounds : gmap Z Datum;
  agg_schema : Schema;
}.
Definition min_max_new (schema : Schema) : MinMaxColAggregator := mkMinMax ∅ ∅ schema.

Section aggregation.
Context {V : ValueLib}.

Definition update_state_min (self : MinMaxColAggregator) (field_id : Z) (datum : Datum) : MinMaxColAggregator :=
  let e := match agg_lower_bounds self !! field_id with
           | Some e => if datum_gt e datum then datum else e
           | None => datum
           end in
  mkMinMax (<[field_id := e]> (agg_lower_bounds self)) (agg_upper_bounds self) (agg_schema self).
Definition update_state_max (self : MinMaxColAggregator) (field_id : Z) (datum : Datum) : MinMaxColAggregator :=
  let e := match agg_upper_bounds self !! field_id with
           | Some e => if datum_lt e datum then datum else e
           | None => datum
           end in
  mkMinMax (agg_lower_bounds self) (<[field_id := e]> (agg_upper_bounds self)) (agg_schema self).

Definition update (self : MinMaxColAggregator) (field_id : Z) (value : ColumnStatistics) : result MinMaxColAggregator :=
  match field_by_id (agg_schema self) field_id with
  | None => Ok self
  | Some field =>
      match field_type field with
      | TPrimitive ty =>
          let? self :=
            if min_is_exact value then
              let? min_datum := get_parquet_stat_min_as_datum ty (stat_values value) in
              let? min_datum := ok_or min_datum Unexpected in
              Ok (update_state_min self field_id min_datum)
            else Ok self in
          if max_is_exact value then
            let? max_datum := get_parquet_stat_max_as_datum ty (stat_values value) in
            let? max_datum := ok_or max_datum Unexpected in
            Ok (update_state_max self field_id max_datum)
          else Ok self
      | _ => Err (Error Unexpected)
      end
  end.
Definition produce (self : MinMaxColAggregator) : gmap Z Datum * gmap Z Datum :=
  (agg_lower_bounds self, agg_upper_bounds self).

(** ** From the footer to the record ([ParquetWriter::parquet_to_data_file_builder]) *)

(** The local variables of the loop over the column chunks. *)
Record ColumnTotals := mkTotals {
  per_col_size : gmap Z Z;
  per_col_val_num : gmap Z Z;
  per_col_null_val_num : gmap Z Z;
  min_max_agg : MinMaxColAggregator;
}.
(** [*map.entry(id).or_insert(0) += n] in [u64]. *)
Definition entry_add (totals : gmap Z Z) (id n : Z) : gmap Z Z := <[id := wrapU 64 (default 0 (totals !! id) + n)]> totals.

Definition add_column_chunk (index : IndexByParquetPathName) (self : ColumnTotals) (chunk : ColumnChunkMetaData) :
    result ColumnTotals :=
  match path_get index (column_path chunk) with
  | None => Ok self
  | Some field_id =>
      let sizes := entry_add (per_col_size self) field_id (wrapU 64 (compressed_size chunk)) in
      let values := entry_add (per_col_val_num self) field_id (wrapU 64 (num_values chunk)) in
      match statistics chunk with
      | None => Ok (mkTotals sizes values (per_col_null_val_num self) (min_max_agg self))
      | Some stats =>
          let nulls := match Statistics.null_count (stat_values stats) with
                       | Some null_count => entry_add (per_col_null_val_num self) field_id null_count
                       | None => per_col_null_val_num self
                       end in
          let? agg := update (min_max_agg self) field_id stats in
          Ok (mkTotals sizes values nulls agg)
      end
  end.
Definition add_row_group (index : IndexByParquetPathName) (self : ColumnTotals) (row_group : RowGroupMetaData) :
    result ColumnTotals :=
  try_fold (add_column_chunk index) self (columns row_group).

Definition parquet_to_data_file_builder (schema : Schema) (metadata : ParquetMetaData) (written_size : Z)
    (file_path : string) (nan_value_counts : gmap Z Z) : result Writers.DataFileBuilder :=
  let? index_by_parquet_path := index_by_parquet_path schema in
  let? totals := try_fold (add_row_group index_by_parquet_path) (mkTotals ∅ ∅ ∅ (min_max_new schema)) (row_groups metadata) in
  let '(lower_bounds, upper_bounds) := produce (min_max_agg totals) in
  Ok (Writers.mkDataFileBuilder (Some Data) (Some file_path) (Some Parquet) [] (Some (wrapU 64 (num_rows metadata)))
        (Some (wrapU 64 written_size)) (per_col_size totals) (per_col_val_num totals) (per_col_null_val_num totals)
        nan_value_counts lower_bounds upper_bounds (Some (omap file_offset (row_groups metadata)))
        Writers.DEFAULT_PARTITION_SPEC_ID).

(** [parquet_files_to_data_files]: [read_footer] gives the size of a file and its footer. *)
Definition with_partition_spec_id (b : Writers.DataFileBuilder) (id : Z) : Writers.DataFileBuilder :=
  Writers.mkDataFileBuilder (Writers.b_content b) (Writers.b_file_path b) (Writers.b_file_format b) (Writers.b_partition b)
    (Writers.b_record_count b) (Writers.b_file_size_in_bytes b) (Writers.b_column_sizes b) (Writers.b_value_counts b)
    (Writers.b_null_value_counts b) (Writers.b_nan_value_counts b) (Writers.b_lower_bounds b) (Writers.b_upper_bounds b)
    (Writers.b_split_offsets b) id.
Definition parquet_file_to_data_file (read_footer : string -> result (Z * ParquetMetaData))
    (table_metadata : TableMetadata.TableMetadata) (file_path : string) : result DataFile :=
  let? file := read_footer file_path in
  let? schema := TableMetadata.current_schema table_metadata in
  let? builder := parquet_to_data_file_builder schema (snd file) (fst file) file_path ∅ in
  unwrap (Writers.build_data_file
            (with_partition_spec_id builder (spec_id (TableMetadata.default_spec table_metadata)))).
Definition parquet_files_to_data_files (read_footer : string -> result (Z * ParquetMetaData)) (file_paths : list string)
    (table_metadata : TableMetadata.TableMetadata) : result (list DataFile) :=
  mapR (parquet_file_to_data_file read_footer table_metadata) file_paths.

(** ** The partition of a file from its bounds ([partition_value_from_bounds]) *)

Context {TL : TransformLib}.
Definition partition_value (lower_bounds upper_bounds : gmap Z Datum) (field : PartitionField) :
    result (option Literal) :=
  match lower_bounds !! source_id field, upper_bounds !! source_id field with
  | Some lower, Some upper =>
      if negb (preserves_order (partition_transform field)) then Err (Error DataInvalid)
      else if negb (datum_eqb lower upper) then Err (Error DataInvalid)
      else
        let? transform_fn := create_transform_function (partition_transform field) in
        let? transformed := transform_literal_result transform_fn lower in
        Ok (Some (LPrimitive (datum_literal transformed)))
  | _, _ => Ok None
  end.
Definition partition_value_from_bounds (table_spec : PartitionSpec) (lower_bounds upper_bounds : gmap Z Datum) :
    result Struct :=
  mapR (partition_value lower_bounds upper_bounds) (spec_fields table_spec).
End aggregation.

(** ** Theory: the paths of a schema

    The primitive types that a type reaches, with their paths and the ids of their fields. *)
Definition Leaf : Type := string * Z * PrimitiveType.t.
Definition leaf_path (l : Leaf) : string := l.1.1.
Definition leaf_id (l : Leaf) : Z := l.1.2.
Definition leaf_type (l : Leaf) : PrimitiveType.t := l.2.
Fixpoint leaves_of (names : list string) (id : Z) (ty : Ty) : list Leaf :=
  match ty with
  | TPrimitive p => [(join "." names, id, p)]
  | TStruct fields => flat_map (fun f => leaves_of (names ++ [field_name f]) (field_id f) (field_type f)) fields
  | TList e => leaves_of (names ++ [element_name e]) (field_id e) (field_type e)
  | TMap k v =>
      leaves_of (names ++ [key_name k]) (field_id k) (field_type k)
      ++ leaves_of (names ++ [value_name v]) (field_id v) (field_type v)
  end.
Definition schema_leaves (schema : Schema) : list Leaf := leaves_of [] 0 (TStruct (as_struct schema)).

Definition insert_name (m : gmap string Z) (l : Leaf) : result (gmap string Z) :=
  match m !! leaf_path l with Some _ => Err (Error DataInvalid) | None => Ok (<[leaf_path l := leaf_id l]> m) end.
Lemma insert_names_Ok m l m' :
  try_fold insert_name m l = Ok m' <->
  NoDup (leaf_path <$> l) /\ (forall x, x ∈ l -> m !! leaf_path x = None)
  /\ m' = list_to_map ((fun x => (leaf_path x, leaf_id x)) <$> l) ∪ m.
Proof.
  revert m. induction l as [|x l IH]; intros m; cbn [try_fold].
  - cbn. rewrite (left_id_L ∅ (∪)). split; [intros [= <-]|intros (_ & _ & ->)]; [|done].
    split; [constructor|]. split; [|done]. by intros f ?%not_elem_of_nil.
  - rewrite bind_Ok. setoid_rewrite IH. unfold insert_name. rewrite !fmap_cons, NoDup_cons. split.
    + intros (m1 & Hm1 & Hn & Hx & ->). destruct (m !! leaf_path x) eqn:E; [done|]. injection Hm1 as <-.
      assert (leaf_path x ∉ leaf_path <$> l) as Hnot.
      { intros (y & Ey & Hy)%list_elem_of_fmap. specialize (Hx y Hy). by rewrite Ey, lookup_insert_eq in Hx. }
      split; [done|]. split.
      * intros y [->|Hy]%elem_of_cons; [done|]. specialize (Hx y Hy). by apply lookup_insert_None in Hx as [? _].
      * cbn. rewrite <- insert_union_r; [by rewrite insert_union_l|].
        apply not_elem_of_list_to_map_1. by rewrite <- list_fmap_compose.
    + intros ((Hnot & Hn) & Hx & ->). rewrite (Hx x) by apply list_elem_of_here. eexists. split; [done|].
      split; [done|]. split.
      * intros y Hy. apply lookup_insert_None. split; [apply Hx; by apply list_elem_of_further|].
        intros E. apply Hnot. rewrite E. by apply list_elem_of_fmap_2.
      * cbn. rewrite <- insert_union_r; [by rewrite insert_union_l|].
        apply not_elem_of_list_to_map_1. by rewrite <- list_fmap_compose.
Qed.

(** A visit inserts the paths of the leaves, and leaves the open names as they were. *)
Definition visited (s : IndexByParquetPathName) (l : list Leaf) (r : result (unit * IndexByParquetPathName)) : Prop :=
  match try_fold insert_name (name_to_id s) l with
  | Ok m => exists id, r = Ok (tt, mkPathIndex m (field_names s) id)
  | Err e => r = Err e
  end.
Lemma visited_nil s : visited s [] (Ok (tt, s)).
Proof. destruct s. by eexists. Qed.
Lemma visited_field name field s (k : IndexByParquetPathName -> result (unit * IndexByParquetPathName)) rest :
  (forall s, visited s (leaves_of (field_names s) (path_field_id s) (field_type field)) (visit_type PathNameVisitor (field_type field) s)) ->
  (forall s', field_names s' = field_names s -> visited s' rest (k s')) ->
  visited s (leaves_of (field_names s ++ [name field]) (field_id field) (field_type field) ++ rest)
    ((let! _ := push_name name field in
      let! _ := visit_type PathNameVisitor (field_type field) in
      let! _ := pop_name field in k) s).
Proof.
  intros Hv Hk. unfold visited at 1. rewrite try_fold_app.
  specialize (Hv (mkPathIndex (name_to_id s) (field_names s ++ [name field]) (field_id field))). unfold visited in Hv.
  cbn [name_to_id field_names path_field_id] in Hv. unfold mbind at 2, sr_bind, push_name, sr_modify.
  destruct (try_fold insert_name (name_to_id s) _) as [m|e] eqn:E; cbn [mbind result_bind].
  - destruct Hv as [id Hv]. unfold mbind, sr_bind. rewrite Hv. cbn. rewrite removelast_last.
    specialize (Hk (mkPathIndex m (field_names s) id) eq_refl). exact Hk.
  - unfold mbind, sr_bind. by rewrite Hv.
Qed.
Lemma visit_paths ty : forall s,
  visited s (leaves_of (field_names s) (path_field_id s) ty) (visit_type PathNameVisitor ty s).
Proof.
  induction ty as [p|fields IH|e IH|k v IHk IHv] using Ty_nested_ind; intros s.
  - unfold visited. cbn. unfold index_primitive, insert_name. cbn.
    destruct (name_to_id s !! join "." (field_names s)); cbn; [done|]. by eexists.
  - rewrite visit_type_struct. unfold visit_struct. cbn [leaves_of].
    enough (forall s', field_names s' = field_names s ->
      visited s' (flat_map (fun f => leaves_of (field_names s ++ [field_name f]) (field_id f) (field_type f)) fields)
        ((let! _ := mapSR (visit_struct_field PathNameVisitor) fields in mret tt) s')) as H by (by apply H).
    induction IH as [|f fields Hf _ IHf]; intros s' Hs'; [by apply visited_nil|].
    cbn [flat_map mapSR]. rewrite <- Hs'. unfold visit_struct_field.
    pose proof (visited_field field_name f s'
      (let! _ := mapSR (visit_struct_field PathNameVisitor) fields in mret tt)
      (flat_map (fun f => leaves_of (field_names s ++ [field_name f]) (field_id f) (field_type f)) fields) Hf) as H.
    rewrite <- Hs' in H. specialize (H ltac:(intros s'' E; rewrite Hs'; apply IHf; congruence)).
    match goal with |- visited _ _ ?a => match type of H with visited _ _ ?b => replace a with b; [exact H|] end end.
    unfold mbind, sr_bind. cbn. destruct (visit_type PathNameVisitor (field_type f) _) as [[[] s1]|e]; [|done]. cbn.
    by destruct (mapSR _ fields _) as [[? ?]|].
  - cbn [leaves_of visit_type]. rewrite <- (app_nil_r (leaves_of _ _ _)).
    pose proof (visited_field element_name e s (sr_ret unit tt) [] IH) as H. apply H. intros s' _. apply visited_nil.
  - cbn [leaves_of visit_type].
    pose proof (visited_field key_name k s
      (let! _ := push_name value_name v in let! _ := visit_type PathNameVisitor (field_type v) in let! _ := pop_name v in mret tt)
      (leaves_of (field_names s ++ [value_name v]) (field_id v) (field_type v)) IHk) as H. apply H.
    intros s' Hs'. rewrite <- Hs', <- (app_nil_r (leaves_of _ _ (field_type v))).
    apply (visited_field value_name v s' (sr_ret unit tt) [] IHv). intros s'' _. apply visited_nil.
Qed.

(** The index is built exactly if no two leaves have one path, and then it is the map of the
    paths to the ids. *)
Lemma index_paths schema index :
  index_by_parquet_path schema = Ok index ->
  NoDup (leaf_path <$> schema_leaves schema)
  /\ forall path id, path_get index path = Some id <-> exists l, l ∈ schema_leaves schema /\ leaf_path l = path /\ leaf_id l = id.
Proof.
  unfold index_by_parquet_path. rewrite <- visit_type_struct. intros (r & H & <-)%fmap_Ok.
  pose proof (visit_paths (TStruct (as_struct schema)) path_index_new) as Hv. unfold visited in Hv. cbn [path_index_new name_to_id field_names path_field_id] in Hv.
  change (leaves_of [] 0 (TStruct (as_struct schema))) with (schema_leaves schema) in Hv.
  destruct (try_fold _ _ _) as [m|e] eqn:E; [|congruence]. destruct Hv as [id Hv]. rewrite Hv in H. injection H as <-.
  apply insert_names_Ok in E as (Hn & _ & ->). split; [done|]. intros path i. unfold path_get. cbn.
  rewrite (right_id_L ∅ (∪)). rewrite <- elem_of_list_to_map.
  - rewrite list_elem_of_fmap. split; intros (l & E & H); exists l; naive_solver.
  - by rewrite <- list_fmap_compose.
Qed.
Lemma index_paths_total schema :
  NoDup (leaf_path <$> schema_leaves schema) -> exists index, index_by_parquet_path schema = Ok index.
Proof.
  intros Hn. unfold index_by_parquet_path. rewrite <- visit_type_struct.
  pose proof (visit_paths (TStruct (as_struct schema)) path_index_new) as Hv. unfold visited in Hv. cbn [path_index_new name_to_id field_names path_field_id] in Hv.
  change (leaves_of [] 0 (TStruct (as_struct schema))) with (schema_leaves schema) in Hv.
  destruct (try_fold _ _ _) as [m|e] eqn:E.
  - destruct Hv as [id ->]. by eexists.
  - exfalso. assert (try_fold insert_name ∅ (schema_leaves schema)
      = Ok (list_to_map ((fun x => (leaf_path x, leaf_id x)) <$> schema_leaves schema) ∪ ∅)) as E'.
    { apply insert_names_Ok. split; [done|]. split; [|done]. intros x _. apply lookup_empty. }
    congruence.
Qed.

(** Each leaf is a field of the schema, and the ids of the leaves are distinct. *)
Lemma leaf_field ty : forall names id l, l ∈ leaves_of names id ty ->
  l = (join "." names, id, leaf_type l) /\ ty = TPrimitive (leaf_type l)
  \/ exists f, f ∈ nested_fields ty /\ field_id f = leaf_id l /\ field_type f = TPrimitive (leaf_type l).
Proof.
  assert (forall f (names : list string) l, (forall names id l, l ∈ leaves_of names id (field_type f) ->
    l = (join "." names, id, leaf_type l) /\ field_type f = TPrimitive (leaf_type l)
    \/ exists g, g ∈ nested_fields (field_type f) /\ field_id g = leaf_id l /\ field_type g = TPrimitive (leaf_type l)) ->
    l ∈ leaves_of names (field_id f) (field_type f) ->
    exists g, (g ∈ nested_fields (field_type f) \/ g = f) /\ field_id g = leaf_id l /\ field_type g = TPrimitive (leaf_type l)) as Hf.
  { intros f names l IH [[El Ht]|(g & Hg & ?)]%IH.
    - exists f. split; [by right|]. split; [|done]. rewrite El. done.
    - exists g. split; [by left|done]. }
  induction ty as [p|fields IH|e IH|k v IHk IHv] using Ty_nested_ind; intros names id l Hl.
  - left. apply list_elem_of_singleton in Hl as ->. done.
  - right. cbn [leaves_of nested_fields] in *. apply list_elem_of_In, in_flat_map in Hl as (f & Hin & Hl).
    apply list_elem_of_In in Hl. rewrite Forall_forall in IH. apply list_elem_of_In in Hin.
    destruct (Hf f _ l (IH f Hin) Hl) as (g & Hg & H). exists g. split; [|done].
    apply list_elem_of_In, in_flat_map. exists f. split; [by apply list_elem_of_In|]. apply list_elem_of_In, elem_of_app.
    destruct Hg as [Hg| ->]; [by left|right; by apply list_elem_of_singleton].
  - right. destruct (Hf e _ l IH Hl) as (g & Hg & H). exists g. split; [|done].
    cbn. apply elem_of_app. destruct Hg as [Hg| ->]; [by left|right; by apply list_elem_of_singleton].
  - right. cbn [leaves_of nested_fields] in *. apply elem_of_app in Hl as [Hl|Hl].
    + destruct (Hf k _ l IHk Hl) as (g & Hg & H). exists g. split; [|done]. rewrite !elem_of_app, elem_of_cons. naive_solver.
    + destruct (Hf v _ l IHv Hl) as (g & Hg & H). exists g. split; [|done].
      rewrite !elem_of_app, !elem_of_cons. naive_solver.
Qed.

Lemma submseteq_rotate {A} (a : A) l k : l ⊆+ a :: k -> l ⊆+ k ++ [a].
Proof. intros H. by rewrite <- Permutation_cons_append. Qed.
Lemma leaf_ids ty : forall names id, leaf_id <$> leaves_of names id ty ⊆+ id :: (field_id <$> nested_fields ty).
Proof.
  induction ty as [p|fields IH|e IH|k v IHk IHv] using Ty_nested_ind; intros names id.
  - done.
  - apply submseteq_cons. cbn [leaves_of nested_fields]. induction IH as [|f fields Hf _ IHf]; [done|].
    cbn [flat_map]. rewrite !fmap_app. apply submseteq_app; [|done]. apply submseteq_rotate, Hf.
  - apply submseteq_cons. cbn [leaves_of nested_fields]. rewrite fmap_app. apply submseteq_rotate, IH.
  - apply submseteq_cons. cbn [leaves_of nested_fields]. rewrite !fmap_app. cbn.
    etrans; [apply submseteq_app; [apply IHk|apply IHv]|]. cbn.
    apply Permutation_submseteq. rewrite <- Permutation_middle, app_assoc, (Permutation_app_comm _ [field_id k; field_id v]).
    done.
Qed.

Definition schema_indexed (schema : Schema) : Prop := index_by_id (as_struct schema) = Ok (id_to_field schema).
Lemma build_schema_indexed {LC : Lowercase} b s : Schema.build b = Ok s -> schema_indexed s.
Proof. intros (b' & H & _)%build_Ok. apply build_indexed_Ok in H as (E & H & _). unfold schema_indexed. by rewrite E. Qed.

Lemma leaf_ids_distinct schema : schema_indexed schema -> NoDup (leaf_id <$> schema_leaves schema).
Proof.
  intros [Hn _]%index_by_id_indexed.
  assert (leaf_id <$> schema_leaves schema ⊆+ field_id <$> all_fields (as_struct schema)) as Hsub.
  { unfold schema_leaves, all_fields. cbn [leaves_of nested_fields]. induction (as_struct schema) as [|f fields IH]; [done|].
    cbn [flat_map]. rewrite !fmap_app. apply submseteq_app; [|apply IH].
    - apply submseteq_rotate, leaf_ids.
    - unfold all_fields in Hn. cbn [nested_fields flat_map] in Hn. rewrite fmap_app in Hn. by apply NoDup_app in Hn as (_ & _ & ?). }
  apply submseteq_Permutation in Hsub as [rest Hperm]. rewrite Hperm in Hn. by apply NoDup_app in Hn as (? & _ & _).
Qed.
Lemma leaf_field_by_id schema l :
  schema_indexed schema -> l ∈ schema_leaves schema ->
  exists f, field_by_id schema (leaf_id l) = Some f /\ field_type f = TPrimitive (leaf_type l).
Proof.
  intros [Hn Hm]%index_by_id_indexed [[_ ?]|(f & Hf & <- & Ht)]%leaf_field; [done|]. exists f. split; [|done].
  unfold field_by_id. rewrite Hm. by apply indexed_lookup.
Qed.
Lemma leaf_inj schema l l' :
  schema_indexed schema -> l ∈ schema_leaves schema -> l' ∈ schema_leaves schema -> leaf_id l = leaf_id l' -> l = l'.
Proof.
  intros Hs%leaf_ids_distinct (i & Hi)%list_elem_of_lookup (j & Hj)%list_elem_of_lookup E.
  assert (i = j) as <-; [|congruence].
  eapply NoDup_lookup; [exact Hs|by rewrite list_lookup_fmap, Hi|rewrite list_lookup_fmap, Hj; cbn; by f_equal].
Qed.

(** ** Theory: the totals

    What the parquet writer promises of a column chunk that holds [values]: their number, the
    number of nulls, and exact bounds that are not NaN and cover them unless all are null or NaN. *)
Definition bound_held (covers : list Z -> list Z -> Prop) (ty : PrimitiveType.t) (values : column) (bound : option Datum) : Prop :=
  match bound with
  | Some b => bound_ok covers ty values b /\ Values.is_nan b = false
  | None => forall x, Some x ∈ values -> Values.is_nan x = true
  end.
Definition side_ok (opt : forall T, ValueStatistics T -> option T) (covers : list Z -> list Z -> Prop) (ty : PrimitiveType.t)
    (values : column) (is_exact : bool) (stats : Statistics.t) : Prop :=
  exists bound, bound_held covers ty values bound /\ is_exact = bool_decide (is_Some bound)
    /\ (is_exact = true -> stat_as_datum opt ty stats = Ok bound).
Record chunk_ok (ty : PrimitiveType.t) (values : column) (chunk : ColumnChunkMetaData) : Prop := {
  ck_typed : column_typed ty values;
  ck_values : num_values chunk = Z.of_nat (length values);
  ck_stats : exists stats, statistics chunk = Some stats
    /\ Statistics.null_count (stat_values stats) = Some (count null_value values)
    /\ side_ok (@min_opt) lex_le ty values (min_is_exact stats) (stat_values stats)
    /\ side_ok (@max_opt) (flip lex_le) ty values (max_is_exact stats) (stat_values stats);
}.
(** A row group has one chunk for each leaf of the schema, which describes its values. *)
Definition group_ok (leaves : list Leaf) (content : Z -> column) (group : RowGroupMetaData) : Prop :=
  NoDup (column_path <$> columns group)
  /\ forall l, l ∈ leaves -> exists chunk, chunk ∈ columns group /\ column_path chunk = leaf_path l
                             /\ chunk_ok (leaf_type l) (content (leaf_id l)) chunk.

(** What the totals say of the values of a leaf so far. *)
Record totals_hold (id : Z) (ty : PrimitiveType.t) (values : column) (s : ColumnTotals) : Prop := {
  th_typed : column_typed ty values;
  th_values : default 0 (per_col_val_num s !! id) = Z.of_nat (length values);
  th_nulls : default 0 (per_col_null_val_num s !! id) = count null_value values;
  th_lower : bound_held lex_le ty values (agg_lower_bounds (min_max_agg s) !! id);
  th_upper : bound_held (flip lex_le) ty values (agg_upper_bounds (min_max_agg s) !! id);
}.

Lemma count_app P (a b : column) : count P (a ++ b) = count P a + count P b.
Proof. unfold count. rewrite List.filter_app, length_app. lia. Qed.
Lemma count_le P (a : column) : 0 <= count P a <= Z.of_nat (length a).
Proof. unfold count. pose proof (List.filter_length_le P a). lia. Qed.
Lemma typed_app ty a b : column_typed ty a -> column_typed ty b -> column_typed ty (a ++ b).
Proof. intros Ha Hb x [?|?]%elem_of_app; auto. Qed.
Lemma entry_add_same m id n : default 0 (entry_add m id n !! id) = wrapU 64 (default 0 (m !! id) + n).
Proof. unfold entry_add. by rewrite lookup_insert_eq. Qed.
Lemma entry_add_other m id n i : i <> id -> entry_add m id n !! i = m !! i.
Proof. intros H. unfold entry_add. by rewrite lookup_insert_ne. Qed.

Section totals.
Context {V : ValueLib} {VL : ValueLibLaws V}.

(** Bounds of two parts of a column, one of which is the bound of both. *)
Lemma bound_held_app covers ty a b x y (pick : Datum) :
  (forall u v w, covers u v -> covers v w -> covers u w) ->
  bound_held covers ty a (Some x) -> bound_held covers ty b (Some y) ->
  pick = x \/ pick = y -> covers (key pick) (key x) -> covers (key pick) (key y) ->
  bound_held covers ty (a ++ b) (Some pick).
Proof.
  intros Htrans [(Hwx & Htx & Hx) Nx] [(Hwy & Hty & Hy) Ny] Hp Cx Cy.
  destruct Hx as [?|Hx]; [congruence|]. destruct Hy as [?|Hy]; [congruence|].
  assert (datum_wf pick = true /\ datum_type pick = ty /\ Values.is_nan pick = false) as (? & ? & ?) by (by destruct Hp as [->| ->]).
  split; [|done]. split; [done|]. split; [done|]. right. intros z [Hz|Hz]%elem_of_app Hnan; eauto.
Qed.
Lemma bound_held_none_l covers ty a b bound :
  bound_held covers ty a None -> bound_held covers ty b bound -> bound_held covers ty (a ++ b) bound.
Proof.
  intros Ha Hb. destruct bound as [y|].
  - destruct Hb as [(? & ? & [?|Hb]) N]; [congruence|]. split; [|done]. split; [done|]. split; [done|]. right.
    intros z [Hz|Hz]%elem_of_app Hn; [|by apply Hb]. by rewrite (Ha z Hz) in Hn.
  - intros z [?|?]%elem_of_app; auto.
Qed.
Lemma bound_held_none_r covers ty a b bound :
  bound_held covers ty a bound -> bound_held covers ty b None -> bound_held covers ty (a ++ b) bound.
Proof.
  intros Ha Hb. destruct bound as [y|].
  - destruct Ha as [(? & ? & [?|Ha]) N]; [congruence|]. split; [|done]. split; [done|]. split; [done|]. right.
    intros z [Hz|Hz]%elem_of_app Hn; [by apply Ha|]. by rewrite (Hb z Hz) in Hn.
  - intros z [?|?]%elem_of_app; auto.
Qed.

Definition keep_min (bound : option Datum) (datum : Datum) : Datum :=
  match bound with Some e => if datum_gt e datum then datum else e | None => datum end.
Definition keep_max (bound : option Datum) (datum : Datum) : Datum :=
  match bound with Some e => if datum_lt e datum then datum else e | None => datum end.
Lemma held_comparable covers covers' ty a b x y :
  bound_held covers ty a (Some x) -> bound_held covers' ty b (Some y) -> comparable x y.
Proof. intros [(? & ? & _) _] [(? & ? & _) _]. unfold comparable. by split_and!; [..|congruence]. Qed.
Lemma keep_min_held ty a b bound y :
  bound_held lex_le ty a bound -> bound_held lex_le ty b (Some y) -> bound_held lex_le ty (a ++ b) (Some (keep_min bound y)).
Proof.
  intros Ha Hb. destruct bound as [x|]; [|by apply bound_held_none_l]. cbn [keep_min].
  pose proof (held_comparable _ _ _ _ _ _ _ Ha Hb) as Hc. destruct (datum_gt x y) eqn:E.
  - apply datum_gt_key in E; [|done]. apply (bound_held_app _ _ _ _ x y); eauto with lex.
  - assert (lex_le (key x) (key y)) as Hle.
    { apply lex_not_lt. intros H%datum_gt_key; [congruence|done]. }
    apply (bound_held_app _ _ _ _ x y); eauto with lex.
Qed.
Lemma keep_max_held ty a b bound y :
  bound_held (flip lex_le) ty a bound -> bound_held (flip lex_le) ty b (Some y) ->
  bound_held (flip lex_le) ty (a ++ b) (Some (keep_max bound y)).
Proof.
  intros Ha Hb. destruct bound as [x|]; [|by apply bound_held_none_l]. cbn [keep_max].
  pose proof (held_comparable _ _ _ _ _ _ _ Ha Hb) as Hc. destruct (datum_lt x y) eqn:E.
  - apply datum_lt_key in E; [|done]. apply (bound_held_app _ _ _ _ x y); unfold flip; eauto with lex.
  - assert (lex_le (key y) (key x)) as Hle.
    { apply lex_not_lt. intros H%datum_lt_key; [congruence|done]. }
    apply (bound_held_app _ _ _ _ x y); unfold flip; eauto with lex.
Qed.

(** The aggregator takes in the statistics of a chunk. *)
Lemma update_ok schema agg field id ty values stats :
  agg_schema agg = schema -> field_by_id schema id = Some field -> field_type field = TPrimitive ty ->
  side_ok (@min_opt) lex_le ty values (min_is_exact stats) (stat_values stats) ->
  side_ok (@max_opt) (flip lex_le) ty values (max_is_exact stats) (stat_values stats) ->
  exists agg', update agg id stats = Ok agg' /\ agg_schema agg' = schema
    /\ (forall i, i <> id -> agg_lower_bounds agg' !! i = agg_lower_bounds agg !! i
                             /\ agg_upper_bounds agg' !! i = agg_upper_bounds agg !! i)
    /\ (forall before, bound_held lex_le ty before (agg_lower_bounds agg !! id) ->
          bound_held lex_le ty (before ++ values) (agg_lower_bounds agg' !! id))
    /\ (forall before, bound_held (flip lex_le) ty before (agg_upper_bounds agg !! id) ->
          bound_held (flip lex_le) ty (before ++ values) (agg_upper_bounds agg' !! id)).
Proof.
  intros Hs Hf Ht (lo & Hlo & Elo & Slo) (hi & Hhi & Ehi & Shi). unfold update. rewrite Hs, Hf, Ht, Elo, Ehi.
  assert (exists agg1, (if bool_decide (is_Some lo) then
             let? min_datum := get_parquet_stat_min_as_datum ty (stat_values stats) in
             let? min_datum := ok_or min_datum Unexpected in Ok (update_state_min agg id min_datum)
           else Ok agg) = Ok agg1 /\ agg_schema agg1 = schema
    /\ agg_upper_bounds agg1 = agg_upper_bounds agg
    /\ (forall i, i <> id -> agg_lower_bounds agg1 !! i = agg_lower_bounds agg !! i)
    /\ (forall before, bound_held lex_le ty before (agg_lower_bounds agg !! id) ->
          bound_held lex_le ty (before ++ values) (agg_lower_bounds agg1 !! id))) as (agg1 & -> & Hs1 & Hu1 & Hi1 & Hb1).
  { destruct lo as [d|]; cbn [bool_decide decide_rel].
    - rewrite bool_decide_eq_true_2 by (by eexists). unfold get_parquet_stat_min_as_datum.
      rewrite Slo by (by rewrite Elo, bool_decide_eq_true_2; [|by eexists]). cbn.
      eexists. split; [done|]. split; [done|]. split; [done|]. cbn. split.
      + intros i Hi. by rewrite lookup_insert_ne.
      + intros before Hbefore. rewrite lookup_insert_eq. by apply keep_min_held.
    - rewrite bool_decide_eq_false_2 by (by intros []). exists agg. split_and!; [done..|].
      intros before Hbefore. by apply bound_held_none_r. }
  cbn [mbind result_bind]. destruct hi as [d|].
  - rewrite bool_decide_eq_true_2 by (by eexists). unfold get_parquet_stat_max_as_datum.
    rewrite Shi by (by rewrite Ehi, bool_decide_eq_true_2; [|by eexists]). cbn.
    eexists. split; [done|]. cbn. split; [done|]. rewrite Hu1. split_and!; [|done|].
    + intros i Hi. by rewrite lookup_insert_ne, Hi1.
    + intros before Hbefore. rewrite lookup_insert_eq. by apply keep_max_held.
  - rewrite bool_decide_eq_false_2 by (by intros []). exists agg1. rewrite Hu1. split_and!; [done|done|by auto|done|].
    intros before Hbefore. by apply bound_held_none_r.
Qed.

(** *** From a chunk to the file *)

Context (schema : Schema) (index : IndexByParquetPathName) (Hschema : schema_indexed schema)
  (Hindex : index_by_parquet_path schema = Ok index).

Lemma leaf_at_path l : l ∈ schema_leaves schema -> path_get index (leaf_path l) = Some (leaf_id l).
Proof using Hindex. intros Hl. apply (index_paths _ _ Hindex). by exists l. Qed.
Lemma path_at_leaf path id :
  path_get index path = Some id -> exists l, l ∈ schema_leaves schema /\ leaf_path l = path /\ leaf_id l = id.
Proof using Hindex. by intros H%(index_paths _ _ Hindex). Qed.
Lemma leaf_path_inj l l' :
  l ∈ schema_leaves schema -> l' ∈ schema_leaves schema -> leaf_path l = leaf_path l' -> l = l'.
Proof using Hindex Hschema.
  intros Hl Hl' E. apply (leaf_inj schema); [done..|]. apply leaf_at_path in Hl, Hl'. congruence.
Qed.

(** The values that a step adds to a leaf. *)
Definition step_ok (added : Leaf -> column) (s : ColumnTotals) (r : result ColumnTotals) : Prop :=
  exists s', r = Ok s' /\ agg_schema (min_max_agg s') = schema
  /\ forall l values, l ∈ schema_leaves schema -> totals_hold (leaf_id l) (leaf_type l) values s ->
       Z.of_nat (length (values ++ added l)) < 2 ^ 64 -> totals_hold (leaf_id l) (leaf_type l) (values ++ added l) s'.

Lemma add_chunk_leaf s chunk l vs :
  agg_schema (min_max_agg s) = schema -> l ∈ schema_leaves schema -> column_path chunk = leaf_path l ->
  chunk_ok (leaf_type l) vs chunk ->
  step_ok (fun l' => if decide (leaf_id l' = leaf_id l) then vs else []) s (add_column_chunk index s chunk).
Proof using Hindex Hschema VL.
  intros Hs Hl Hp [Htyped Hnum (stats & Hstats & Hnull & Hmin & Hmax)].
  destruct (leaf_field_by_id schema l Hschema Hl) as (field & Hf & Ht).
  destruct (update_ok schema (min_max_agg s) field (leaf_id l) (leaf_type l) vs stats Hs Hf Ht Hmin Hmax)
    as (agg & Hu & Hagg & Hother & Hlo & Hhi).
  unfold add_column_chunk. rewrite Hp, (leaf_at_path l Hl), Hstats, Hnull, Hu. cbn.
  eexists. split; [done|]. split; [done|]. intros l' values Hl' [Ty Va Nu Lo Hi] Hlen. destruct (decide (leaf_id l' = leaf_id l)) as [E|E].
  - assert (l' = l) as -> by (by apply (leaf_inj schema)). rewrite length_app in Hlen. split; cbn.
    + by apply typed_app.
    + rewrite entry_add_same, Va, Hnum, length_app. pose proof (wrapU_id 64 (Z.of_nat (length vs))) as E1.
      rewrite E1 by (apply inU_spec; lia). rewrite wrapU_id by (apply inU_spec; lia). lia.
    + pose proof (count_le null_value (values ++ vs)) as Hc. rewrite length_app, count_app in Hc.
      rewrite entry_add_same, Nu, count_app. apply wrapU_id, inU_spec. lia.
    + by apply Hlo.
    + by apply Hhi.
  - rewrite app_nil_r. destruct (Hother (leaf_id l') E) as [E1 E2]. split; cbn.
    + done.
    + by rewrite entry_add_other.
    + by rewrite entry_add_other.
    + by rewrite E1.
    + by rewrite E2.
Qed.

Lemma step_skip s : agg_schema (min_max_agg s) = schema -> step_ok (fun _ => []) s (Ok s).
Proof using Type. intros Hs. exists s. split; [done|]. split; [done|]. intros l values _ H _. by rewrite app_nil_r. Qed.
Lemma step_trans added1 added2 s m (f : ColumnTotals -> result ColumnTotals) :
  step_ok added1 s m -> (forall s1, agg_schema (min_max_agg s1) = schema -> step_ok added2 s1 (f s1)) ->
  step_ok (fun l => added1 l ++ added2 l) s (m ≫= f).
Proof using Type.
  intros (s1 & -> & Hs1 & H1) H2. destruct (H2 s1 Hs1) as (s2 & Hf & Hs2 & H2'). exists s2. cbn. split; [done|]. split; [done|].
  intros l values Hl Hv Hlen. rewrite app_assoc in Hlen. rewrite app_assoc. apply H2'; [done| |done]. apply H1; [done..|].
  rewrite length_app in Hlen. lia.
Qed.
Lemma step_ext added added' s r :
  (forall l, l ∈ schema_leaves schema -> added l = added' l) -> step_ok added s r -> step_ok added' s r.
Proof using Type.
  intros E (s' & -> & Hs & H). exists s'. split; [done|]. split; [done|]. intros l values Hl. rewrite <- (E l Hl). by apply H.
Qed.

Lemma add_chunks_ok content chunks : forall s,
  agg_schema (min_max_agg s) = schema -> NoDup (column_path <$> chunks) ->
  (forall l chunk, l ∈ schema_leaves schema -> chunk ∈ chunks -> column_path chunk = leaf_path l ->
     chunk_ok (leaf_type l) (content (leaf_id l)) chunk) ->
  step_ok (fun l => if decide (leaf_path l ∈ column_path <$> chunks) then content (leaf_id l) else []) s
    (try_fold (add_column_chunk index) s chunks).
Proof using Hindex Hschema VL.
  induction chunks as [|chunk chunks IH]; intros s Hs Hn Hc.
  - eapply step_ext, step_skip; [|done]. intros l _. cbn. by rewrite decide_False by apply not_elem_of_nil.
  - rewrite fmap_cons in Hn. apply NoDup_cons in Hn as [Hnot Hn]. cbn [try_fold].
    assert (step_ok (fun l => if decide (leaf_path l = column_path chunk) then content (leaf_id l) else []) s
              (add_column_chunk index s chunk)) as H1.
    { destruct (path_get index (column_path chunk)) as [id|] eqn:E.
      - apply path_at_leaf in E as (l & Hl & Hp & _).
        eapply step_ext, (add_chunk_leaf s chunk l (content (leaf_id l))); [|done..|by apply Hc; [|apply list_elem_of_here|]].
        intros l' Hl'. cbn. destruct (decide (leaf_path l' = column_path chunk)) as [E'|E'].
        + assert (l' = l) as -> by (apply leaf_path_inj; [done..|congruence]). by rewrite decide_True.
        + rewrite decide_False; [done|]. intros Ei. apply E'. assert (l' = l) as -> by (by apply (leaf_inj schema)). done.
      - unfold add_column_chunk. rewrite E. eapply step_ext, step_skip; [|done]. intros l Hl. cbn.
        rewrite decide_False; [done|]. intros El. rewrite <- El, (leaf_at_path l Hl) in E. done. }
    pose proof (step_trans _ _ _ _ (fun s1 => try_fold (add_column_chunk index) s1 chunks) H1
                  (fun s1 Hs1 => IH s1 Hs1 Hn (fun l c Hl Hin => Hc l c Hl (list_elem_of_further _ _ _ Hin)))) as H2.
    eapply step_ext, H2. intros l Hl. cbn. destruct (decide (leaf_path l = column_path chunk)) as [E|E].
    + rewrite E, (decide_False (P := column_path chunk ∈ _)) by done.
      rewrite app_nil_r, decide_True; [done|]. apply list_elem_of_here.
    + cbn. destruct (decide (leaf_path l ∈ column_path <$> chunks)) as [Hin|Hin].
      * rewrite decide_True; [done|]. by apply list_elem_of_further.
      * rewrite decide_False; [done|]. by intros [?|?]%elem_of_cons.
Qed.
Lemma add_group_ok content group s :
  agg_schema (min_max_agg s) = schema -> group_ok (schema_leaves schema) content group ->
  step_ok (fun l => content (leaf_id l)) s (add_row_group index s group).
Proof using Hindex Hschema VL.
  intros Hs [Hn Hg]. unfold add_row_group. eapply step_ext, (add_chunks_ok content); [|done..|].
  - intros l Hl. cbn. destruct (Hg l Hl) as (chunk & Hin & Hp & _). rewrite decide_True; [done|].
    rewrite <- Hp. by apply list_elem_of_fmap_2.
  - intros l chunk Hl Hin Hp. destruct (Hg l Hl) as (chunk' & Hin' & Hp' & Hc).
    assert (chunk' = chunk) as <-; [|done].
    apply list_elem_of_lookup in Hin as [i Hi], Hin' as [j Hj].
    assert (i = j) as <-; [|congruence].
    eapply NoDup_lookup; [exact Hn|by rewrite list_lookup_fmap, Hi|rewrite list_lookup_fmap, Hj; cbn; congruence].
Qed.
Lemma add_groups_ok contents groups s :
  agg_schema (min_max_agg s) = schema -> Forall2 (group_ok (schema_leaves schema)) contents groups ->
  step_ok (fun l => concat ((fun content => content (leaf_id l)) <$> contents)) s (try_fold (add_row_group index) s groups).
Proof using Hindex Hschema VL.
  revert groups s. induction contents as [|content contents IH]; intros groups s Hs Hg; inversion Hg as [|? group ? groups' Hg1 Hg2]; subst; [by apply step_skip|].
  cbn [try_fold]. pose proof (step_trans _ _ _ _ (fun s1 => try_fold (add_row_group index) s1 groups')
    (add_group_ok content group s Hs Hg1) (fun s1 Hs1 => IH groups' s1 Hs1 Hg2)) as H. exact H.
Qed.
End totals.

Definition leaf_values (contents : list (Z -> column)) (l : Leaf) : column := concat ((fun content => content (leaf_id l)) <$> contents).
Lemma footer_metrics {V : ValueLib} {VL : ValueLibLaws V} schema metadata contents written_size path nans :
  schema_indexed schema -> NoDup (leaf_path <$> schema_leaves schema) ->
  Forall2 (group_ok (schema_leaves schema)) contents (row_groups metadata) ->
  (forall l, l ∈ schema_leaves schema -> Z.of_nat (length (leaf_values contents l)) < 2 ^ 64) ->
  exists b, parquet_to_data_file_builder schema metadata written_size path nans = Ok b
    /\ Writers.b_file_path b = Some path /\ Writers.b_record_count b = Some (wrapU 64 (num_rows metadata))
    /\ forall l key file, l ∈ schema_leaves schema -> Writers.finish_builder key b = Ok file ->
         (forall n, nans !! leaf_id l = Some n -> n = count nan_value (leaf_values contents l)) ->
         column_metrics file (leaf_id l) (leaf_type l) (leaf_values contents l) /\ bounds_not_nan file (leaf_id l).
Proof.
  intros Hs Hn Hg Hlen. destruct (index_paths_total schema Hn) as [index Hi].
  destruct (add_groups_ok schema index Hs Hi contents (row_groups metadata) (mkTotals ∅ ∅ ∅ (min_max_new schema)) eq_refl Hg)
    as (s & Hfold & _ & H).
  unfold parquet_to_data_file_builder. rewrite Hi. cbn [mbind result_bind]. rewrite Hfold. cbn.
  eexists. split; [done|]. split; [done|]. split; [done|]. intros l key file Hl Hfile Hnan.
  destruct (H l [] Hl) as [Ty Va Nu Lo Up]; [split; cbn; rewrite ?lookup_empty; try done; by intros x ?%not_elem_of_nil|by apply Hlen|].
  cbn [app] in *. assert (value_counts file = per_col_val_num s /\ null_value_counts file = per_col_null_val_num s
    /\ nan_value_counts file = nans /\ lower_bounds file = agg_lower_bounds (min_max_agg s)
    /\ upper_bounds file = agg_upper_bounds (min_max_agg s)) as (E1 & E2 & E3 & E4 & E5).
  { unfold Writers.finish_builder in Hfile. by destruct key; injection Hfile as <-. }
  fold (leaf_values contents l) in *. split; [split|split].
  - done.
  - intros n. unfold value_count. rewrite E1. intros E. by rewrite E in Va.
  - intros n. unfold null_count. rewrite E2. intros E. by rewrite E in Nu.
  - intros n. unfold nan_count. rewrite E3. apply Hnan.
  - intros b. unfold lower_bound_of. rewrite E4. intros E. rewrite E in Lo. by destruct Lo.
  - intros b. unfold upper_bound_of. rewrite E5. intros E. rewrite E in Up. by destruct Up.
  - intros b. unfold lower_bound_of. rewrite E4. intros E. rewrite E in Lo. by destruct Lo.
  - intros b. unfold upper_bound_of. rewrite E5. intros E. rewrite E in Up. by destruct Up.
Qed.

(** ** The rows of a file

    A footer describes the rows of a file: those of each row group are the contents that its
    chunks describe, at the leaves that an accessor reads. *)
Definition leaf_content (schema : Schema) (rows : list Struct) (content : Z -> column) : Prop :=
  forall l a, l ∈ schema_leaves schema -> accessor_by_field_id schema (leaf_id l) = Some a ->
  mapR (accessor_get a) rows = Ok (content (leaf_id l)).
Record footer_describes (schema : Schema) (rows : list Struct) (metadata : ParquetMetaData) : Prop := {
  fd_rows : num_rows metadata = Z.of_nat (length rows) /\ num_rows metadata < 2 ^ 63;
  fd_groups : exists rowss contents,
    rows = concat rowss /\ Forall2 (leaf_content schema) rowss contents
    /\ Forall2 (group_ok (schema_leaves schema)) contents (row_groups metadata)
    /\ forall l, l ∈ schema_leaves schema -> Z.of_nat (length (leaf_values contents l)) < 2 ^ 64;
}.
(** A term that reads a leaf of the schema, as binding makes it. *)
Definition reads_leaf (schema : Schema) (t : BoundReference) (l : Leaf) : Prop :=
  l ∈ schema_leaves schema /\ field_id (ref_field t) = leaf_id l
  /\ accessor_by_field_id schema (leaf_id l) = Some (ref_accessor t).
(** The NaN counts that were taken of the rows. *)
Definition nans_counted (schema : Schema) (rows : list Struct) (nans : gmap Z Z) : Prop :=
  forall l a values n, l ∈ schema_leaves schema -> accessor_by_field_id schema (leaf_id l) = Some a ->
  mapR (accessor_get a) rows = Ok values -> nans !! leaf_id l = Some n -> n = count nan_value values.
(** The record of a file describes its rows. *)
Definition record_describes (schema : Schema) (rows : list Struct) (file : DataFile) : Prop :=
  record_count file = Z.of_nat (length rows) /\
  forall t l, reads_leaf schema t l -> exists values, describes file rows t (leaf_type l) values
                                       /\ bounds_not_nan file (field_id (ref_field t)).

Lemma mapR_concat {A B} (f : A -> result B) ass bss :
  Forall2 (fun l l' => mapR f l = Ok l') ass bss -> mapR f (concat ass) = Ok (concat bss).
Proof.
  induction 1 as [|l l' ass bss H _ IH]; [done|]. cbn. apply mapR_Ok. apply Forall2_app; by apply mapR_Ok.
Qed.
Lemma footer_record {V : ValueLib} {VL : ValueLibLaws V} schema rows metadata written_size path nans :
  schema_indexed schema -> NoDup (leaf_path <$> schema_leaves schema) ->
  footer_describes schema rows metadata -> nans_counted schema rows nans ->
  exists b, parquet_to_data_file_builder schema metadata written_size path nans = Ok b
    /\ Writers.b_file_path b = Some path /\ Writers.b_record_count b = Some (Z.of_nat (length rows))
    /\ forall key file, Writers.finish_builder key b = Ok file -> record_describes schema rows file.
Proof.
  intros Hs Hn [[Hnum Hsmall] (rowss & contents & -> & Hcont & Hg & Hlen)] Hnan.
  destruct (footer_metrics schema metadata contents written_size path nans Hs Hn Hg Hlen) as (b & Hb & Hp & Hc & Hm).
  rewrite wrapU_id in Hc by (apply inU_spec; lia). rewrite Hnum in Hc.
  exists b. split; [done|]. split; [done|]. split; [done|]. intros key file Hfile. split.
  { unfold Writers.finish_builder, Writers.build_data_file in Hfile.
    destruct key as [pk|]; cbn in Hfile; rewrite Hp, Hc in Hfile; cbn in Hfile;
      destruct (Writers.b_file_format b); cbn in Hfile; try done;
      destruct (Writers.b_file_size_in_bytes b); cbn in Hfile; try done; by injection Hfile as <-. }
  intros t l (Hl & Ht & Ha).
  assert (mapR (accessor_get (ref_accessor t)) (concat rowss) = Ok (leaf_values contents l)) as Hread.
  { apply mapR_concat. apply Forall2_fmap_r. eapply Forall2_impl; [exact Hcont|]. cbn. intros rows content H. by apply H. }
  exists (leaf_values contents l). unfold describes. rewrite Ht.
  destruct (Hm l key file Hl Hfile) as [H1 H2]; [|done]. intros n Hin. by eapply Hnan.
Qed.

(** C16 The record of a written file describes its rows.  If the statistics of every column chunk
    of the footer are exact for the rows of its row group, building the record does not fail, and
    its counts and bounds are what the metrics evaluators need to know of all rows of the file. *)
Theorem written_metrics_describe {V : ValueLib} {VL : ValueLibLaws V} schema rows metadata written_size path nans :
  schema_indexed schema -> NoDup (leaf_path <$> schema_leaves schema) ->
  footer_describes schema rows metadata -> nans_counted schema rows nans ->
  exists b, parquet_to_data_file_builder schema metadata written_size path nans = Ok b
    /\ forall key file, Writers.finish_builder key b = Ok file -> record_describes schema rows file.
Proof.
  intros Hs Hn Hf Hnan. destruct (footer_record schema rows metadata written_size path nans Hs Hn Hf Hnan) as (b & ? & _ & _ & ?).
  by exists b.
Qed.

(** ** Examples *)

Section examples.
#[local] Existing Instance Concrete.concrete_values.
#[local] Existing Instance Concrete.concrete_values_laws.
#[local] Existing Instance Concrete.concrete_lowercase.

Definition ex_builder (ty : PrimitiveType.t) : SchemaBuilder :=
  mkSchemaBuilder 0 [mkField 1 "a" false (TPrimitive ty)] [] ∅ None.
Definition ex_schema (ty : PrimitiveType.t) : Schema :=
  ok_value (mkSchema [] 0 0 ∅ [] ∅ ∅ ∅ ∅ ∅) (Schema.build (ex_builder ty)).
Definition ex_chunk (num : Z) (stats : Statistics.t) (min_exact max_exact : bool) : RowGroupMetaData :=
  mkRowGroup [mkColumnChunk "a" 40 num (Some (mkColumnStatistics stats min_exact max_exact))] None.
(** Two row groups: one with 3 and a null, and one with 8. *)
Definition ex_footer : ParquetMetaData :=
  mkParquetMetaData
    [ex_chunk 2 (Statistics.Int32 (mkValueStatistics (Some 3) (Some 3) (Some 1))) true true;
     ex_chunk 1 (Statistics.Int32 (mkValueStatistics (Some 8) (Some 8) (Some 0))) true true] 3.
Definition ex_groups : list (list Struct) :=
  [[[Some (LPrimitive (PrimitiveLiteral.Int 3))]; [None]]; [[Some (LPrimitive (PrimitiveLiteral.Int 8))]]].
Lemma ex_schema_indexed ty : is_ok (Schema.build (ex_builder ty)) = true -> schema_indexed (ex_schema ty).
Proof.
  intros H%is_ok_true. destruct H as [s Hs]. unfold ex_schema. rewrite Hs. by apply (build_schema_indexed _ _ Hs).
Qed.
Lemma ex_int_bound (covers : list Z -> list Z -> Prop) values n :
  inS 32 n = true -> (forall x, Some x ∈ values -> covers (key (datum_int n)) (key x)) ->
  bound_held covers PrimitiveType.Int values (Some (datum_int n)).
Proof.
  intros Hn H. split; [|done]. split; [|split; [done|]]; [|right; intros x Hx _; by apply H].
  unfold datum_wf. cbn. by rewrite Hn.
Qed.
Lemma ex_chunk_ok values n nulls :
  (forall x, Some x ∈ values -> x = datum_int n) -> inS 32 n = true -> count null_value values = nulls ->
  chunk_ok PrimitiveType.Int values
    (mkColumnChunk "a" 40 (Z.of_nat (length values))
       (Some (mkColumnStatistics (Statistics.Int32 (mkValueStatistics (Some n) (Some n) (Some nulls))) true true))).
Proof.
  intros Hv Hn Hc. split; [|done|].
  - intros x ->%Hv. unfold datum_wf. cbn. by rewrite Hn.
  - eexists. split; [done|]. split; [by rewrite Hc|]. split; exists (Some (datum_int n)); (split; [|done]);
      apply ex_int_bound; [done|intros x ->%Hv; apply lex_le_refl|done|intros x ->%Hv; apply lex_le_refl].
Qed.
Lemma ex_footer_describes : footer_describes (ex_schema PrimitiveType.Int) (concat ex_groups) ex_footer.
Proof.
  split; [done|].
  assert (schema_leaves (ex_schema PrimitiveType.Int) = [("a"%string, 1, PrimitiveType.Int)]) as Hleaves by (by vm_compute).
  exists ex_groups, [(fun _ => [Some (datum_int 3); None]); (fun _ => [Some (datum_int 8)])]. rewrite Hleaves.
  split; [done|]. split; [|split].
  - assert (accessor_by_field_id (ex_schema PrimitiveType.Int) 1 = Some (accessor_new 0 PrimitiveType.Int)) as Ha by (by vm_compute).
    repeat constructor; intros l a Hl; rewrite Hleaves in Hl; apply list_elem_of_singleton in Hl as ->;
      cbn [leaf_id fst snd]; rewrite Ha; intros [= <-]; done.
  - constructor; [|constructor; [|constructor]]; (split; [repeat constructor; by intros ?%not_elem_of_nil|]);
      intros l ->%list_elem_of_singleton; eexists; (split; [apply list_elem_of_here|]); (split; [done|]).
    + apply (ex_chunk_ok [Some (datum_int 3); None] 3 1); [|done..].
      intros x [[= ->]|[?|[]%not_elem_of_nil]%elem_of_cons]%elem_of_cons; done.
    + apply (ex_chunk_ok [Some (datum_int 8)] 8 0); [|done..]. by intros x [= ->]%list_elem_of_singleton.
  - intros l ->%list_elem_of_singleton. done.
Qed.
Lemma written_metrics_describe_witness :
  exists b, parquet_to_data_file_builder (ex_schema PrimitiveType.Int) ex_footer 100 "f.parquet" {[1 := 0]} = Ok b
    /\ forall key file, Writers.finish_builder key b = Ok file -> record_describes (ex_schema PrimitiveType.Int) (concat ex_groups) file.
Proof.
  apply written_metrics_describe.
  - apply ex_schema_indexed. by vm_compute.
  - replace (leaf_path <$> schema_leaves (ex_schema PrimitiveType.Int)) with ["a"%string] by (by vm_compute).
    repeat constructor. by intros ?%not_elem_of_nil.
  - exact ex_footer_describes.
  - assert (schema_leaves (ex_schema PrimitiveType.Int) = [("a"%string, 1, PrimitiveType.Int)]) as Hleaves by (by vm_compute).
    assert (accessor_by_field_id (ex_schema PrimitiveType.Int) 1 = Some (accessor_new 0 PrimitiveType.Int)) as Ha by (by vm_compute).
    intros l a values n Hl. rewrite Hleaves in Hl. apply list_elem_of_singleton in Hl as ->. cbn [leaf_id fst snd]. rewrite Ha.
    intros [= <-] [= <-]. rewrite lookup_singleton_eq. by intros [= <-].
Defined.

(** The writer truncates the bounds of a chunk of long strings, so they are not exact, and the
    aggregator passes them over: a file with [b] in one row group and a long string of [a] in the
    other has [b] as its lower bound, and a scan for strings up to [b] skips it. *)
Definition long_string : str := replicate 70 97.
Definition string_footer : ParquetMetaData :=
  mkParquetMetaData
    [ex_chunk 1 (Statistics.ByteArray (mkValueStatistics (Some [98]) (Some [98]) (Some 0))) true true;
     ex_chunk 1 (Statistics.ByteArray (mkValueStatistics (Some (replicate 64 97)) (Some (replicate 63 97 ++ [98])) (Some 0))) false false] 2.
Definition string_term : BoundReference :=
  mkBoundReference "a" (mkField 1 "a" false (TPrimitive PrimitiveType.String)) (accessor_new 0 PrimitiveType.String).
Definition string_filter : BoundPredicate := Binary PredicateOperator.LessThan string_term (datum_string [98]).
Definition string_file : option DataFile :=
  match parquet_to_data_file_builder (ex_schema PrimitiveType.String) string_footer 100 "f.parquet" ∅ with
  | Ok b => match Writers.finish_builder None b with Ok file => Some file | _ => None end
  | _ => None
  end.
Theorem inexact_bounds_are_dropped :
  (fun file => lower_bound_of file 1) <$> string_file = Some (Some (datum_string [98]))
  /\ (fun file => InclusiveMetrics.inclusive_eval file string_filter false) <$> string_file = Some (Ok false)
  /\ eval_row string_filter [Some (LPrimitive (PrimitiveLiteral.String long_string))] = Ok true.
Proof. split_and!; by vm_compute. Qed.

(** A chunk without a null count adds nothing to the nulls of the file: a file of which one chunk
    tells its nulls and another does not has too few, here none. *)
Definition uncounted_footer : ParquetMetaData :=
  mkParquetMetaData
    [ex_chunk 1 (Statistics.Int32 (mkValueStatistics (Some 3) (Some 3) (Some 0))) true true;
     ex_chunk 1 (Statistics.Int32 (mkValueStatistics None None None)) false false] 2.
Definition uncounted_file : option DataFile :=
  match parquet_to_data_file_builder (ex_schema PrimitiveType.Int) uncounted_footer 100 "f.parquet" ∅ with
  | Ok b => match Writers.finish_builder None b with Ok file => Some file | _ => None end
  | _ => None
  end.
Theorem uncounted_nulls_are_dropped :
  (fun file => (null_count file 1, value_count file 1)) <$> uncounted_file = Some (Some 0, Some 2)
  /\ (fun file => InclusiveMetrics.inclusive_eval file (Unary PredicateOperator.IsNull ex_term) false) <$> uncounted_file
     = Some (Ok false).
Proof. split; by vm_compute. Qed.
End examples.
