(* ===== verification/ParquetWriter.v ===== *)
(** * The writer of a parquet file (writer/file_writer/parquet_writer.rs, arrow/nan_val_cnt_visitor.rs)

    [ParquetWriter] counts the NaNs of each batch, hands the batch to the writer of the parquet
    crate, and turns the footer into the record of a data file.  Correctness: it is a writer of
    one file as Writers needs it, and the record describes the rows; so a scan does not skip a
    file of an insert that has a matching row. *)

From S2P Require Import Prelude Utf8 Values Concrete DatumOrder Schema SchemaCheck Expr PartitionSpecs LiteralEq.
From S2P Require Import DataFile ExprEval Metrics ParquetStatistics ArrowSchema ArrowValues RecordBatchTransformer Writers FileMetrics.
From S2P Require InclusiveMetrics PartitionWriters.

(** ** NaN counts (nan_val_cnt_visitor.rs) *)

Definition count_nans (is_nan : Z -> bool) (values : list (option Z)) : Z :=
  Z.of_nat (length (List.filter (fun value => match value with Some v => is_nan v | None => false end) values)).
(** The macros [count_float_nans] and [cast_and_update_cnt_map]. *)
Definition float_nans (col : ArrayRef) : option Z :=
  match col with
  | Float32Array values => Some (count_nans (float_is_nan 32) values)
  | Float64Array values => Some (count_nans (float_is_nan 64) values)
  | _ => None
  end.
Definition count_float_nans (field : NestedField) (partner : ArrayRef) : SR (gmap Z Z) unit :=
  sr_modify (fun nan_value_counts =>
    match float_nans partner with
    | Some nan_val_cnt => entry_add nan_value_counts (field_id field) nan_val_cnt
    | None => nan_value_counts
    end).
(** [NanValueCountVisitor]: its state is [nan_value_counts]. *)
Definition NanValueCountVisitor : SchemaWithPartnerVisitor ArrayRef (gmap Z Z) unit :=
  {| p_before_struct_field := no_partner_hook; p_after_struct_field := count_float_nans;
     p_before_list_element := no_partner_hook; p_after_list_element := count_float_nans;
     p_before_map_key := no_partner_hook; p_after_map_key := count_float_nans;
     p_before_map_value := no_partner_hook; p_after_map_value := count_float_nans;
     p_schema _ _ _ := mret tt; p_field _ _ _ := mret tt; p_struct _ _ _ := mret tt; p_list _ _ _ := mret tt;
     p_map _ _ _ _ _ := mret tt; p_primitive _ _ := mret tt |}.
(** [StructArray::from(batch)]. *)
Definition batch_struct (batch : RecordBatch) : ArrayRef :=
  StructArray (zip (batch_schema batch) (batch_columns batch)) (replicate (batch_num_rows batch) false).
Definition nan_compute {AT : ArrowTypes} (match_mode : FieldMatchMode) (schema : Schema) (batch : RecordBatch) : SR (gmap Z Z) unit :=
  visit_struct_with_partner NanValueCountVisitor (ArrowArrayAccessor match_mode) (as_struct schema) (batch_struct batch).

(** ** The writer *)

(** What it calls: [OutputFile::writer] with [AsyncArrowWriter::try_new], the methods of
    [AsyncArrowWriter], and [OutputFile::delete]. *)
Class ArrowWriter (W : Type) := {
  aw_open : string -> ArrowFields -> result W;
  aw_write : W -> RecordBatch -> option W;
  aw_finish : W -> option (ParquetMetaData * W);
  aw_bytes_written : W -> Z;
  aw_in_progress_size : W -> Z;
  delete_file : string -> option unit;
}.
Record ParquetWriterBuilder := mkParquetWriterBuilder {
  builder_schema : Schema;
  builder_match_mode : FieldMatchMode;
}.
Definition new_with_match_mode (schema : Schema) (match_mode : FieldMatchMode) : ParquetWriterBuilder :=
  mkParquetWriterBuilder schema match_mode.
Record ParquetWriter (W : Type) := mkParquetWriter {
  writer_schema : Schema;
  output_file : string;
  inner_writer : option W;
  current_row_num : Z;
  nan_value_counts : gmap Z Z;
  nan_match_mode : FieldMatchMode;
}.
Arguments mkParquetWriter {W}. Arguments writer_schema {W}. Arguments output_file {W}. Arguments inner_writer {W}.
Arguments current_row_num {W}. Arguments nan_value_counts {W}. Arguments nan_match_mode {W}.

Section writer.
Context {V : ValueLib} {AT : ArrowTypes} {W : Type} {AW : ArrowWriter W}.

Definition parquet_build (self : ParquetWriterBuilder) (output_file : string) : result (ParquetWriter W) :=
  Ok (mkParquetWriter (builder_schema self) output_file None 0 ∅ (builder_match_mode self)).

Definition parquet_write (self : ParquetWriter W) (batch : RecordBatch) : result (ParquetWriter W) :=
  if (batch_num_rows batch =? 0)%nat then Ok self
  else
    let row_num := wrapU 64 (current_row_num self + Z.of_nat (batch_num_rows batch)) in
    let? counted := nan_compute (nan_match_mode self) (writer_schema self) batch (nan_value_counts self) in
    let? writer :=
      match inner_writer self with
      | Some writer => Ok writer
      | None =>
          let? arrow_schema := schema_to_arrow_schema (writer_schema self) in
          aw_open (output_file self) arrow_schema
      end in
    let? writer := ok_or (aw_write writer batch) Unexpected in
    Ok (mkParquetWriter (writer_schema self) (output_file self) (Some writer) row_num (snd counted) (nan_match_mode self)).

Definition parquet_close (self : ParquetWriter W) : result (list DataFileBuilder) :=
  match inner_writer self with
  | None => Ok []
  | Some writer =>
      let? finished := ok_or (aw_finish writer) Unexpected in
      let '(metadata, writer) := finished in
      let written_size := aw_bytes_written writer in
      if current_row_num self =? 0 then
        let? _ := ok_or (delete_file (output_file self)) Unexpected in
        Ok []
      else
        let? builder := parquet_to_data_file_builder (writer_schema self) metadata written_size (output_file self)
                          (nan_value_counts self) in
        Ok [builder]
  end.
(** [CurrentFileStatus]. *)
Definition current_written_size (self : ParquetWriter W) : Z :=
  match inner_writer self with
  | Some inner => wrapU 64 (aw_bytes_written inner + aw_in_progress_size inner)
  | None => 0
  end.
End writer.
#[global] Instance parquet_writer {V : ValueLib} {AT : ArrowTypes} {W} {AW : ArrowWriter W} (self : ParquetWriterBuilder) :
    FileWriter (ParquetWriter W) RecordBatch := {
  fw_build := parquet_build self;
  fw_write := parquet_write;
  fw_close := parquet_close;
  fw_written_size := current_written_size;
}.

(** ** The rows of a batch

    What the code reads of it with [arrow_struct_to_literal], in the match mode of the writer;
    a batch without rows is skipped. *)
Definition read_batch {V : ValueLib} {AT : ArrowTypes} (mode : FieldMatchMode) (schema : Schema) (batch : RecordBatch) : result Column :=
  fst <$> visit_struct_with_partner ArrowArrayToIcebergStructConverter (ArrowArrayAccessor mode) (as_struct schema)
            (batch_struct batch) tt.
Definition row_of (l : option Literal) : Struct := match l with Some (LStruct row) => row | _ => [] end.
Definition batch_rows_of {V : ValueLib} {AT : ArrowTypes} (mode : FieldMatchMode) (schema : Schema) (batch : RecordBatch) : list Struct :=
  if (batch_num_rows batch =? 0)%nat then [] else row_of <$> ok_value [] (read_batch mode schema batch).

(** Text and bytes of which the statistics are not truncated: the parquet crate keeps 64 bytes of
    a bound, and marks a longer one as inexact. *)
Definition STATISTICS_TRUNCATE_LENGTH : nat := 64.
Fixpoint short_literal (l : Literal) : bool :=
  let short v := match v with Some l => short_literal l | None => true end in
  match l with
  | LPrimitive (PrimitiveLiteral.String s) => (str_len s <=? STATISTICS_TRUNCATE_LENGTH)%nat
  | LPrimitive (PrimitiveLiteral.Binary bs) => (length bs <=? STATISTICS_TRUNCATE_LENGTH)%nat
  | LPrimitive _ => true
  | LStruct vs | LList vs => forallb short vs
  | LMap entries => forallb (fun e => match e with (k, v) => short_literal k && short v end) entries
  end.
(** A batch that conforms to a schema: its rows can be read, their text and bytes are short, and
    its columns are in the order of the schema, which is how the writer of the parquet crate
    takes them. *)
Record batch_conforms {V : ValueLib} {AT : ArrowTypes} (mode : FieldMatchMode) (schema : Schema) (batch : RecordBatch) : Prop := {
  bc_read : is_ok (read_batch mode schema batch) = true;
  bc_rows : length (batch_rows_of mode schema batch) = batch_num_rows batch;
  bc_short : Forall (fun row => short_literal (LStruct row) = true) (batch_rows_of mode schema batch);
  bc_order pos f : as_struct schema !! pos = Some f -> exists array, batch_columns batch !! pos = Some array
    /\ field_partner (ArrowArrayAccessor mode) (batch_struct batch) f = Ok array;
}.
(** What that writer promises for a schema: the footer that it gives describes the rows of the
    batches that it was given, with exact statistics as their values are short. *)
Class ArrowWriterLaws {V : ValueLib} {AT : ArrowTypes} {W : Type} (AW : ArrowWriter W) (mode : FieldMatchMode) (schema : Schema) := {
  aw_holds : W -> list Struct -> Prop;
  aw_open_ok path fields w : aw_open path fields = Ok w -> aw_holds w [];
  aw_write_ok w rows batch w' : batch_conforms mode schema batch -> aw_holds w rows -> aw_write w batch = Some w' ->
    aw_holds w' (rows ++ batch_rows_of mode schema batch);
  aw_finish_ok w rows metadata w' : aw_holds w rows -> aw_finish w = Some (metadata, w') ->
    footer_describes schema rows metadata;
}.

(** ** Theory: reading a column of a batch *)

Definition primitive_literal (v : option Literal) : bool :=
  match v with None | Some (LPrimitive _) => true | _ => false end.
(** The values of a column, as an accessor gives them. *)
Definition datums (p : PrimitiveType.t) (col : Column) : column :=
  (fun v => match v with Some (LPrimitive l) => Some (mkDatum p l) | _ => None end) <$> col.

Lemma lits_nans {T} (f : T -> PrimitiveLiteral.t) p (is_nan : T -> bool) vs :
  (forall v, lit_is_nan (f v) = is_nan v) ->
  count nan_value (datums p (lits f vs))
  = Z.of_nat (length (List.filter (fun value => match value with Some v => is_nan v | None => false end) vs)).
Proof.
  intros H. unfold count, datums, lits. f_equal. induction vs as [|[v|] vs IH]; [done| |exact IH].
  cbn. unfold Values.is_nan. cbn. rewrite H. destruct (is_nan v); cbn; by rewrite IH.
Qed.
Lemma filter_none {A} (vs : list (option A)) :
  List.filter (fun value => match value with Some _ => false | None => false end) vs = [].
Proof. by induction vs as [|[v|] vs IH]. Qed.
Lemma lits_primitive {T} (f : T -> PrimitiveLiteral.t) vs : forallb primitive_literal (lits f vs) = true.
Proof. by induction vs as [|[v|] vs IH]. Qed.
Lemma c_primitive_column p array col :
  c_primitive p array = Ok col ->
  forallb primitive_literal col = true /\ count nan_value (datums p col) = default 0 (float_nans array).
Proof.
  intros H.
  assert ((exists T (f : T -> PrimitiveLiteral.t) vs, col = lits f vs /\ (forall v, lit_is_nan (f v) = false) /\ float_nans array = None)
    \/ (exists vs, col = lits PrimitiveLiteral.Float vs /\ array = Float32Array vs)
    \/ (exists vs, col = lits PrimitiveLiteral.Double vs /\ array = Float64Array vs)
    \/ (forall v, v ∈ col -> exists w, v = w /\ forall l, w = Some l -> exists n, l = LPrimitive (PrimitiveLiteral.UInt128 n))
       /\ float_nans array = None) as Hcases.
  { destruct p, array; cbn [c_primitive] in H; try discriminate H;
      try (injection H as <-; first
        [right; left; eexists; split; reflexivity | right; right; left; eexists; split; reflexivity
        |left; eexists _, _, _; split; [reflexivity|]; split; [by intros v|reflexivity]]).
    - destruct (_ || _); [done|]. injection H as <-. left. eexists _, _, _. split; [reflexivity|]. by split.
    - destruct (negb _); [done|]. right. right. right. split; [|done]. apply mapR_Ok in H. intros v Hv.
      apply list_elem_of_lookup in Hv as [i Hi]. destruct (Forall2_lookup_r _ _ _ _ _ H Hi) as (w & _ & E).
      exists v. split; [done|]. intros l ->. destruct w as [w|]; [|done].
      destruct (length w =? 16)%nat; [|done]. injection E as <-. by eexists.
    - destruct (negb _); [done|]. injection H as <-. left. eexists _, _, _. split; [reflexivity|]. by split. }
  destruct Hcases as [(T & f & vs & -> & Hf & ->)|[(vs & -> & ->)|[(vs & -> & ->)|[Hv ->]]]].
  - split; [apply lits_primitive|]. rewrite (lits_nans f p (fun _ => false)) by done. by rewrite filter_none.
  - split; [apply lits_primitive|]. by apply lits_nans.
  - split; [apply lits_primitive|]. by apply lits_nans.
  - assert (forallb primitive_literal col = true /\ List.filter nan_value (datums p col) = []) as [H1 H2].
    { clear H. induction col as [|v col IH]; [done|]. destruct IH as [IH1 IH2].
      { intros w Hw. apply Hv. by apply list_elem_of_further. }
      destruct (Hv v (list_elem_of_here _ _)) as (w & <- & Hl). destruct v as [l|]; [|by split].
      destruct (Hl l eq_refl) as [n ->]. by split. }
    split; [done|]. unfold count. by rewrite H2.
Qed.

Lemma batch_not_null batch i : is_null (batch_struct batch) i = false.
Proof.
  cbn. generalize (batch_num_rows batch). intros n. revert i. induction n as [|n IH]; intros [|i]; try done. apply IH.
Qed.

Section batch.
Context {V : ValueLib} {AT : ArrowTypes} (mode : FieldMatchMode).
Abbreviation read_field := (visit_partner_field ArrowArrayToIcebergStructConverter (ArrowArrayAccessor mode)).
Abbreviation count_field := (visit_partner_field NanValueCountVisitor (ArrowArrayAccessor mode)).

Lemma read_field_column partner f p s col s' :
  field_type f = TPrimitive p -> read_field partner f s = Ok (col, s') ->
  exists array, field_partner (ArrowArrayAccessor mode) partner f = Ok array /\ c_primitive p array = Ok col.
Proof.
  intros Hp H. unfold visit_partner_field in H. apply sr_bind_Ok in H as (array & s1 & Hpartner & H).
  unfold sr_lift in Hpartner. destruct (field_partner _ _ _) as [a|] eqn:E; [|done]. injection Hpartner as <- <-.
  exists a. split; [done|]. rewrite Hp in H. apply sr_bind_Ok in H as ([] & s1 & [= <-] & H).
  apply sr_bind_Ok in H as (c & s1 & Hc & H). apply sr_bind_Ok in H as ([] & s2 & [= <-] & H).
  cbn in Hc, H. unfold sr_lift in Hc, H. destruct (c_primitive p a) as [c'|]; [|done]. injection Hc as <- <-.
  unfold c_field in H. destruct (_ && _); [done|]. by injection H as <- <-.
Qed.
Lemma mapSR_lookup {S A B} (f : A -> SR S B) l i a : forall s r s',
  mapSR f l s = Ok (r, s') -> l !! i = Some a -> exists b s1 s2, f a s1 = Ok (b, s2) /\ r !! i = Some b.
Proof.
  revert i. induction l as [|a' l IH]; intros i s r s' H Hi; [done|]. cbn in H.
  apply sr_bind_Ok in H as (b & s1 & Hb & H). apply sr_bind_Ok in H as (bs & s2 & Hbs & [= <- <-]).
  destruct i as [|i]; [injection Hi as ->; by exists b, s, s1|]. cbn in Hi. by destruct (IH i _ _ _ Hbs Hi) as (? & ? & ? & ? & ?); eauto.
Qed.

(** What an accessor of a column at the top reads in the rows of a batch. *)
Lemma batch_column schema batch pos f p :
  batch_num_rows batch <> 0%nat -> is_ok (read_batch mode schema batch) = true ->
  as_struct schema !! pos = Some f -> field_type f = TPrimitive p ->
  exists array, field_partner (ArrowArrayAccessor mode) (batch_struct batch) f = Ok array
    /\ exists values, mapR (accessor_get (accessor_new pos p)) (batch_rows_of mode schema batch) = Ok values
    /\ count nan_value values = default 0 (float_nans array).
Proof.
  intros Hne Hok Hpos Hp. unfold batch_rows_of. rewrite (proj2 (Nat.eqb_neq _ _) Hne). apply is_ok_true in Hok as [column Hread]. rewrite Hread. cbn [ok_value].
  unfold read_batch in Hread. apply fmap_Ok in Hread as ([column' []] & Hread & <-). cbn [fst].
  unfold visit_struct_with_partner in Hread. rewrite visit_partner_struct in Hread.
  apply sr_bind_Ok in Hread as (columns & [] & Hcolumns & Hread).
  destruct (mapSR_lookup _ _ _ _ _ _ _ Hcolumns Hpos) as (col & s1 & s2 & Hcol & Hlook).
  destruct (read_field_column _ _ _ _ _ _ Hp Hcol) as (array & Ha & Hc). exists array. split; [done|].
  destruct (c_primitive_column _ _ _ Hc) as [Hprim Hnan]. exists (datums p col). split; [|done].
  cbn in Hread. unfold sr_lift, c_struct in Hread. set (row_len := match columns with c :: _ => length c | [] => 0%nat end) in Hread.
  destruct (existsb _ columns) eqn:Elen; [done|].
  assert (length col = row_len) as Hlen.
  { apply Nat.eqb_eq, negb_false_iff. apply not_true_iff_false. intros E. apply not_true_iff_false in Elen. apply Elen.
    apply existsb_exists. exists col. split; [|done]. by apply list_elem_of_In, list_elem_of_lookup_2 with pos. }
  destruct (mapR _ (seq 0 row_len)) as [rows|] eqn:Erows; [|done]. injection Hread as ->.
  apply mapR_Ok in Erows. apply mapR_Ok. apply Forall2_same_length_lookup. split.
  { unfold datums. rewrite !length_fmap, Hlen, <- (Forall2_length _ _ _ Erows). apply length_seq. }
  intros i row d Hrow Hd. unfold datums in Hd. rewrite list_lookup_fmap in Hd.
  apply list_lookup_fmap_Some in Hrow as (r & -> & Er).
  destruct (col !! i) as [v|] eqn:Ev; [|done]. injection Hd as <-.
  destruct (Forall2_lookup_r _ _ _ _ _ Erows Er) as (j & Hj & Hr). apply lookup_seq in Hj as [-> _]. cbv beta in Hr. rewrite Nat.add_0_l in Hr.
  apply bind_Ok in Hr as (literals & Hlits & Hr). rewrite batch_not_null in Hr. injection Hr as <-. cbn [row_of].
  apply mapR_Ok in Hlits. destruct (Forall2_lookup_l _ _ _ _ _ Hlits Hlook) as (w & Hw & Ew). rewrite Ev in Ew. injection Ew as <-.
  cbn. rewrite Hw. cbn. rewrite forallb_forall in Hprim. specialize (Hprim v). destruct v as [[]|]; try done;
    by specialize (Hprim ltac:(apply list_elem_of_In, list_elem_of_lookup_2 with i; done)).
Qed.
End batch.

(** ** Theory: the NaN counts *)

Section nans.
Context {AT : ArrowTypes} (mode : FieldMatchMode).
Abbreviation accessor := (ArrowArrayAccessor mode).
Abbreviation count_type := (visit_type_with_partner NanValueCountVisitor accessor).
Abbreviation count_field := (visit_partner_field NanValueCountVisitor accessor).

Definition add_nans (m : gmap Z Z) (id : Z) (array : ArrayRef) : gmap Z Z :=
  match float_nans array with Some n => entry_add m id n | None => m end.
Lemma add_nans_other m id array i : i <> id -> add_nans m id array !! i = m !! i.
Proof. intros H. unfold add_nans. destruct (float_nans array); [by apply entry_add_other|done]. Qed.

(** Counting touches only the ids of the fields that are visited. *)
Lemma count_field_parts partner f m r m' :
  count_field partner f m = Ok (r, m') ->
  exists array m1, field_partner accessor partner f = Ok array /\ count_type (field_type f) array m = Ok (tt, m1)
    /\ m' = add_nans m1 (field_id f) array.
Proof.
  intros H. unfold visit_partner_field in H. apply sr_bind_Ok in H as (array & s1 & Hp & H).
  unfold sr_lift in Hp. destruct (field_partner _ _ _) as [a|] eqn:E; [|done]. injection Hp as <- <-.
  apply sr_bind_Ok in H as ([] & s1 & [= <-] & H). apply sr_bind_Ok in H as ([] & m1 & Ht & H).
  apply sr_bind_Ok in H as ([] & s1 & [= <-] & [= _ <-]). by exists a, m1.
Qed.
Lemma count_type_other ty : forall partner m m' i,
  count_type ty partner m = Ok (tt, m') -> i ∉ field_id <$> nested_fields ty -> m' !! i = m !! i.
Proof.
  induction ty as [p|fields IH|e IH|k v IHk IHv] using Ty_nested_ind; intros partner m m' i H Hi.
  - by injection H as <-.
  - rewrite visit_partner_struct in H. apply sr_bind_Ok in H as (rs & m1 & H & [= <-]).
    revert rs m m1 H. cbn [nested_fields] in Hi. induction IH as [|f fields Hf _ IHf]; intros rs m m1 H; [by injection H as <- <-|].
    cbn [mapSR] in H. apply sr_bind_Ok in H as (r & m2 & H1 & H). apply sr_bind_Ok in H as (rs' & m3 & H2 & [= <- <-]).
    apply count_field_parts in H1 as (array & m4 & _ & H1 & ->).
    cbn [flat_map] in Hi. rewrite !fmap_app, !not_elem_of_app in Hi. destruct Hi as [[Hi1 Hi2] Hi3].
    rewrite (IHf Hi3 _ _ _ H2). rewrite add_nans_other by (intros ->; apply Hi2; apply list_elem_of_here). by apply (Hf _ _ _ _ H1).
  - cbn [visit_type_with_partner nested_fields] in *. rewrite fmap_app, not_elem_of_app in Hi. destruct Hi as [Hi1 Hi2].
    apply sr_bind_Ok in H as (a & m1 & Hp & H). unfold sr_lift in Hp. destruct (list_element_partner _ _) as [a'|]; [|done].
    injection Hp as <- <-. apply sr_bind_Ok in H as ([] & m1 & [= <-] & H). apply sr_bind_Ok in H as ([] & m1 & H1 & H).
    apply sr_bind_Ok in H as ([] & m2 & [= <-] & [= <-]). fold (add_nans m1 (field_id e) a').
    rewrite add_nans_other by (intros ->; apply Hi2, list_elem_of_here). by apply (IH _ _ _ _ H1).
  - cbn [visit_type_with_partner nested_fields] in *. rewrite !fmap_app, !not_elem_of_app in Hi. destruct Hi as [Hi1 [Hi2 Hi3]].
    apply sr_bind_Ok in H as (a & m1 & Hp & H). unfold sr_lift in Hp. destruct (map_key_partner _ _) as [a'|]; [|done].
    injection Hp as <- <-. apply sr_bind_Ok in H as ([] & m1 & [= <-] & H). apply sr_bind_Ok in H as ([] & m1 & H1 & H).
    apply sr_bind_Ok in H as ([] & m2 & [= <-] & H). fold (add_nans m1 (field_id k) a') in H.
    apply sr_bind_Ok in H as (b & m2 & Hp & H). unfold sr_lift in Hp. destruct (map_value_partner _ _) as [b'|]; [|done].
    injection Hp as <- <-. apply sr_bind_Ok in H as ([] & m2 & [= <-] & H). apply sr_bind_Ok in H as ([] & m2 & H2 & H).
    apply sr_bind_Ok in H as ([] & m3 & [= <-] & [= <-]). fold (add_nans m2 (field_id v) b').
    rewrite add_nans_other by (intros ->; apply Hi3; apply list_elem_of_further, list_elem_of_here).
    rewrite (IHv _ _ _ _ H2 Hi2). rewrite add_nans_other by (intros ->; apply Hi3, list_elem_of_here). by apply (IHk _ _ _ _ H1).
Qed.

(** A column at the top gets the NaNs of its array. *)
Lemma count_fields_column partner fields : forall pos f p m rs m',
  NoDup (field_id <$> all_fields fields) -> fields !! pos = Some f -> field_type f = TPrimitive p ->
  mapSR (count_field partner) fields m = Ok (rs, m') ->
  exists array, field_partner accessor partner f = Ok array
    /\ m' !! field_id f = add_nans m (field_id f) array !! field_id f.
Proof.
  induction fields as [|g fields IH]; intros pos f p m rs m' Hn Hpos Hp H; [done|].
  cbn [mapSR] in H. apply sr_bind_Ok in H as (r & m1 & H1 & H). apply sr_bind_Ok in H as (rs' & m2 & H2 & [= <- <-]).
  apply count_field_parts in H1 as (array & m3 & Ha & H1 & ->).
  unfold all_fields in Hn. cbn [nested_fields flat_map] in Hn. rewrite fmap_app in Hn. apply NoDup_app in Hn as (Hn1 & Hdis & Hn2).
  change (NoDup (field_id <$> all_fields fields)) in Hn2. destruct pos as [|pos].
  - injection Hpos as ->. exists array. split; [done|]. rewrite Hp in H1. injection H1 as <-.
    assert (count_type (TStruct fields) partner (add_nans m (field_id f) array) = Ok (tt, m2)) as H3.
    { rewrite visit_partner_struct. by rewrite (run_bind _ _ _ _ _ H2). }
    apply (count_type_other _ _ _ _ _ H3). apply Hdis. rewrite fmap_app, elem_of_app. right. apply list_elem_of_here.
  - destruct (IH pos f p _ _ _ Hn2 Hpos Hp H2) as (array' & Ha' & E). exists array'. split; [done|]. rewrite E.
    assert (field_id f ∉ field_id <$> nested_fields (field_type g) ++ [g]) as Hf.
    { intros Hin. apply (Hdis _ Hin). apply list_elem_of_fmap_2. cbn in Hpos. clear -Hpos. revert pos Hpos.
      induction fields as [|h fields IH]; intros [|pos] Hpos; [done..| |].
      - injection Hpos as ->. cbn. rewrite !elem_of_app. left. right. apply list_elem_of_here.
      - cbn. rewrite elem_of_app. right. by apply (IH pos). }
    rewrite fmap_app, not_elem_of_app in Hf. destruct Hf as [Hf1 Hf2].
    assert (add_nans m3 (field_id g) array !! field_id f = m !! field_id f) as E'.
    { rewrite add_nans_other by (intros E'; apply Hf2; rewrite E'; apply list_elem_of_here). by apply (count_type_other _ _ _ _ _ H1). }
    unfold add_nans at 1 3. destruct (float_nans array') as [n|]; [|done]. unfold entry_add. by rewrite !lookup_insert_eq, E'.
Qed.
End nans.

(** ** Theory: the writer of a file

    For schemas without structs: an accessor reads a column at the top.  (In a struct that is null
    the arrays below may hold anything, and the visitor counts their NaNs.) *)
Definition top_level (schema : Schema) : Prop :=
  forall id a, accessor_by_field_id schema id = Some a ->
  exists pos f p, as_struct schema !! pos = Some f /\ field_id f = id /\ field_type f = TPrimitive p /\ a = accessor_new pos p.
Lemma foldl_insert_inv {K A} `{Countable K} (l : list (K * A)) (m : gmap K A) k a :
  foldl (fun m '(k, a) => <[k := a]> m) m l !! k = Some a -> (k, a) ∈ l \/ m !! k = Some a.
Proof.
  revert m. induction l as [|[k' a'] l IH]; intros m Hm; [by right|]. cbn in Hm.
  destruct (IH _ Hm) as [?|Hk]; [left; by apply list_elem_of_further|].
  apply lookup_insert_Some in Hk as [[-> ->]|[_ ?]]; [left; apply list_elem_of_here|by right].
Qed.
Lemma build_top_level {LC : Lowercase} b s :
  Schema.build b = Ok s -> Forall (fun f => is_struct (field_type f) = false) (as_struct s) -> top_level s.
Proof.
  intros (b' & H & _)%build_Ok Hflat id a Ha. apply build_indexed_Ok in H as (Es & _ & Hacc & _).
  unfold accessor_by_field_id in Ha. rewrite Hacc, <- Es in Ha. unfold build_accessors in Ha.
  apply foldl_insert_inv in Ha as [Ha|Ha]; [|by rewrite lookup_empty in Ha].
  enough (forall pos, (id, a) ∈ build_accessors_nested pos (as_struct s) ->
    exists i f p, as_struct s !! i = Some f /\ field_id f = id /\ field_type f = TPrimitive p /\ a = accessor_new (pos + i) p) as Hpos.
  { destruct (Hpos 0%nat Ha) as (i & f & p & ? & ? & ? & ->). by exists i, f, p. }
  clear Ha Hacc Es. induction Hflat as [|f fields Hf _ IH]; intros pos Ha; [by apply not_elem_of_nil in Ha|].
  cbn [build_accessors_nested] in Ha. apply elem_of_app in Ha as [Ha|Ha].
  - destruct (field_type f) as [p|?|?|? ?] eqn:Et; try done; cbn in Ha; [|by apply not_elem_of_nil in Ha..].
    apply list_elem_of_singleton in Ha as [= -> ->]. exists 0%nat, f, p. by rewrite Nat.add_0_r.
  - destruct (IH (S pos) Ha) as (i & g & p & ? & ? & ? & ->). exists (S i), g, p. split_and!; [done..|]. by rewrite Nat.add_succ_r.
Qed.

Section laws.
Context {V : ValueLib} {VL : ValueLibLaws V} {AT : ArrowTypes} {W : Type} {AW : ArrowWriter W} (mode : FieldMatchMode) (schema : Schema)
  {AWL : ArrowWriterLaws AW mode schema}.
Context (Hindexed : schema_indexed schema) (Hpaths : NoDup (leaf_path <$> schema_leaves schema)) (Htop : top_level schema).

(** The counts so far, modulo [2^64]. *)
Definition nans_so_far (rows : list Struct) (nans : gmap Z Z) : Prop :=
  forall pos f p, as_struct schema !! pos = Some f -> field_type f = TPrimitive p ->
  exists values, mapR (accessor_get (accessor_new pos p)) rows = Ok values
    /\ default 0 (nans !! field_id f) = wrapU 64 (count nan_value values).
Lemma nans_so_far_nil : nans_so_far [] ∅.
Proof using Type. intros pos f p _ _. exists []. by rewrite lookup_empty. Qed.
Lemma nans_so_far_batch rows nans batch r nans' :
  nans_so_far rows nans -> batch_num_rows batch <> 0%nat -> is_ok (read_batch mode schema batch) = true ->
  nan_compute mode schema batch nans = Ok (r, nans') -> nans_so_far (rows ++ batch_rows_of mode schema batch) nans'.
Proof using Hindexed.
  intros Hn Hne Hok Hc pos f p Hpos Hp. destruct (Hn pos f p Hpos Hp) as (values & Hv & E).
  destruct (batch_column mode schema batch pos f p Hne Hok Hpos Hp) as (array & Ha & values' & Hv' & E').
  exists (values ++ values'). split.
  { apply mapR_Ok. apply Forall2_app; by apply mapR_Ok. }
  unfold nan_compute, visit_struct_with_partner in Hc. rewrite visit_partner_struct in Hc.
  apply sr_bind_Ok in Hc as (rs & m & Hc & [= _ <-]).
  destruct (index_by_id_indexed _ _ Hindexed) as [Hd _].
  destruct (count_fields_column mode _ _ pos f p _ _ _ Hd Hpos Hp Hc) as (array' & Ha' & ->).
  rewrite Ha in Ha'. injection Ha' as <-. rewrite count_app, E'. unfold add_nans. destruct (float_nans array) as [n|]; cbn [default].
  - rewrite entry_add_same, E. unfold wrapU. by rewrite Zplus_mod_idemp_l.
  - by rewrite E, Z.add_0_r.
Qed.
Lemma nans_so_far_counted rows nans :
  nans_so_far rows nans -> Z.of_nat (length rows) < 2 ^ 63 -> nans_counted schema rows nans.
Proof using Htop.
  intros Hn Hlen l a values n _ Ha Hv Hin. destruct (Htop _ _ Ha) as (pos & f & p & Hpos & Hid & Hp & ->).
  destruct (Hn pos f p Hpos Hp) as (values' & Hv' & E). rewrite Hv in Hv'. injection Hv' as <-.
  rewrite Hid, Hin in E. cbn in E. rewrite E. apply wrapU_id, inU_spec.
  pose proof (count_le nan_value values). apply mapR_Ok, Forall2_length in Hv. lia.
Qed.

(** What the record says of the rows of its file. *)
Definition builder_describes (b : DataFileBuilder) (rows : list Struct) : Prop :=
  forall key file, finish_builder key b = Ok file -> record_describes schema rows file.
Definition parquet_holds (r : ParquetWriter W) (path : string) (rows : list Struct) : Prop :=
  writer_schema r = schema /\ output_file r = path /\ nan_match_mode r = mode /\ nans_so_far rows (nan_value_counts r)
  /\ current_row_num r = wrapU 64 (Z.of_nat (length rows))
  /\ match inner_writer r with
     | Some w => aw_holds (ArrowWriterLaws := AWL) w rows /\ rows <> []
     | None => rows = []
     end.
#[export] Instance parquet_writer_laws :
  FileWriterLaws (parquet_writer (new_with_match_mode schema mode)) (batch_conforms mode schema) (batch_rows_of mode schema) builder_describes.
Proof using Type*.
  refine {| fw_holds := parquet_holds |}.
  - intros path r [= <-]. repeat split. apply nans_so_far_nil.
  - intros r path rows batch r' Hconf (Hs & Hp & Hm & Hn & Hrows & Hw) H. cbn in H. unfold parquet_write in H.
    destruct (Nat.eqb_spec (batch_num_rows batch) 0) as [E0|E0].
    + injection H as <-. unfold batch_rows_of. rewrite E0, app_nil_r. by repeat split.
    + rewrite Hs, Hm in H. apply bind_Ok in H as ([u nans] & Hnan & H).
      apply bind_Ok in H as (w & Hopen & H). apply bind_Ok in H as (w' & Hwrite & [= <-]).
      assert (aw_holds (ArrowWriterLaws := AWL) w rows) as Hholds.
      { destruct (inner_writer r) as [w0|]; [injection Hopen as <-; by destruct Hw|]. subst rows.
        apply bind_Ok in Hopen as (fields & _ & Hopen). by apply (aw_open_ok _ _ _ Hopen). }
      destruct (aw_write w batch) as [w1|] eqn:Ew; [|done]. injection Hwrite as ->.
      pose proof (aw_write_ok _ _ _ _ Hconf Hholds Ew) as Hholds'. destruct Hconf as [Hok Hlen _].
      split; [done|]. split; [done|]. split; [done|]. split; [by eapply nans_so_far_batch|]. cbn. split.
      * rewrite Hrows, length_app, Hlen, Nat2Z.inj_add. unfold wrapU. by rewrite Zplus_mod_idemp_l.
      * split; [done|]. intros [_ E]%app_nil. rewrite E in Hlen. by apply E0.
  - intros r path rows bs (Hs & Hp & Hm & Hn & Hrows & Hw) H. cbn in H. unfold parquet_close in H. rewrite Hs, Hp, Hrows in H.
    destruct (inner_writer r) as [w|]; [|subst rows; by injection H as <-]. destruct Hw as [Hholds Hne].
    apply bind_Ok in H as ([metadata w'] & Hfin & H). destruct (aw_finish w) as [[metadata' w'']|] eqn:Ef; [|done]. injection Hfin as -> ->.
    pose proof (aw_finish_ok _ _ _ _ Hholds Ef) as Hd. destruct (fd_rows _ _ _ Hd) as [Hnum Hsmall]. rewrite Hnum in Hsmall.
    destruct (footer_record schema rows metadata (aw_bytes_written w') path (nan_value_counts r) Hindexed Hpaths Hd
                (nans_so_far_counted _ _ Hn Hsmall)) as (b & Hb & Hpath & Hcount & Hrec).
    rewrite wrapU_id in H by (apply inU_spec; lia). destruct rows as [|row rows]; [done|].
    rewrite (proj2 (Z.eqb_neq _ _)) in H by (cbn [length]; lia). rewrite Hb in H. injection H as <-. by exists b.
Defined.
End laws.

(** ** What a scan makes of the files *)

(** A leaf of a filter that has a meaning for the rows of a file, as [leaf_described] has it. *)
Definition leaf_meant (schema : Schema) (rows : list Struct) (q : BoundPredicate) : Prop :=
  match q with
  | Unary _ t => exists l, reads_leaf schema t l
  | Binary op t d => exists l, reads_leaf schema t l /\ literal_ok (leaf_type l) d
      /\ (forall values, mapR (accessor_get (ref_accessor t)) rows = Ok values ->
            column_regular values /\ (is_order op = true -> column_nan_free values))
      /\ (is_prefix op = true -> leaf_type l = PrimitiveType.String)
  | SetP op t ds => exists l, reads_leaf schema t l /\ Forall (literal_ok (leaf_type l)) ds
      /\ (forall values, mapR (accessor_get (ref_accessor t)) rows = Ok values -> column_regular values)
  | _ => True
  end.
Lemma meant_described schema rows file q :
  record_describes schema rows file -> leaf_meant schema rows q -> leaf_described file rows q.
Proof.
  intros [_ Hd] Hq. destruct q as [| | | | |op t|op t d|op t ds]; try done; cbn in Hq |- *.
  - destruct Hq as (l & Hl). destruct (Hd t l Hl) as (values & D & _). by exists (leaf_type l), values.
  - destruct Hq as (l & Hl & Hlit & Hv & Hp). destruct (Hd t l Hl) as (values & D & Hb). exists (leaf_type l), values.
    destruct (Hv values (proj1 D)) as [Hr Ho]. split_and!; [done..| |done]. intros Hop. split; [by apply Ho|done].
  - destruct Hq as (l & Hl & Hlits & Hv). destruct (Hd t l Hl) as (values & D & Hb). exists (leaf_type l), values.
    split_and!; [done..|by apply (Hv values (proj1 D))|done].
Qed.


(** ** Examples *)

Section examples.
#[local] Existing Instance Concrete.concrete_values.
#[local] Existing Instance Concrete.concrete_values_laws.
#[local] Existing Instance Concrete.concrete_lowercase.
#[local] Existing Instance concrete_arrow_types.
#[local] Existing Instance PartitionWriters.ex_columns.

(** A parquet writer of one column of integers, which keeps the rows and gives one row group. *)
Definition int_schema : Schema := ex_schema PrimitiveType.Int.
Definition int_of (row : Struct) : option Z :=
  match row with [Some (LPrimitive (PrimitiveLiteral.Int n))] => Some n | _ => None end.
Definition int_row (row : Struct) : bool :=
  match row with [None] => true | [Some (LPrimitive (PrimitiveLiteral.Int n))] => inS 32 n | _ => false end.
Definition extreme (pick : Z -> Z -> Z) (ns : list Z) : option Z :=
  match ns with [] => None | n :: ns => Some (foldr pick n ns) end.
Definition int_values (rows : list Struct) : column := (fun row => datum_int <$> int_of row) <$> rows.
Definition int_group (rows : list Struct) : RowGroupMetaData :=
  let ns := omap int_of rows in
  let exact := bool_decide (ns <> []) in
  mkRowGroup [mkColumnChunk "a" 40 (Z.of_nat (length rows))
    (Some (mkColumnStatistics (Statistics.Int32 (mkValueStatistics (extreme Z.min ns) (extreme Z.max ns)
             (Some (count null_value (int_values rows))))) exact exact))] None.
#[local] Instance int_arrow_writer : ArrowWriter (list Struct) := {
  aw_open _ _ := Ok [];
  aw_write w batch := Some (w ++ batch_rows_of MatchId int_schema batch);
  aw_finish w :=
    if forallb int_row w && (Z.of_nat (length w) <? 2 ^ 63)
    then Some (mkParquetMetaData [int_group w] (Z.of_nat (length w)), w) else None;
  aw_bytes_written w := 4 * Z.of_nat (length w);
  aw_in_progress_size w := 0;
  delete_file _ := Some tt;
}.

Lemma extreme_ok (pick : Z -> Z -> Z) (R : Z -> Z -> Prop) ns m :
  (forall a b, pick a b = a \/ pick a b = b) -> (forall a b, R (pick a b) a /\ R (pick a b) b) -> (forall a, R a a) ->
  (forall a b c, R a b -> R b c -> R a c) ->
  extreme pick ns = Some m -> m ∈ ns /\ forall x, x ∈ ns -> R m x.
Proof.
  intros Hpick HR Hrefl Htrans H. destruct ns as [|n ns]; [done|]. injection H as <-.
  induction ns as [|n' ns [IH1 IH2]]; cbn [foldr].
  - split; [constructor|]. by intros x ->%list_elem_of_singleton.
  - destruct (HR n' (foldr pick n ns)) as [R1 R2]. split.
    + destruct (Hpick n' (foldr pick n ns)) as [-> | ->]; [apply list_elem_of_further, list_elem_of_here|].
      apply elem_of_cons in IH1 as [->|IH1]; [apply list_elem_of_here|]. by do 2 apply list_elem_of_further.
    + intros x [->|[->|Hx]%elem_of_cons]%elem_of_cons; [|done|].
      * eapply Htrans; [exact R2|]. apply IH2, list_elem_of_here.
      * eapply Htrans; [exact R2|]. apply IH2. by apply list_elem_of_further.
Qed.
Lemma int_value rows x : Some x ∈ int_values rows -> exists n, x = datum_int n /\ n ∈ omap int_of rows.
Proof.
  intros (row & E & Hin)%list_elem_of_fmap. destruct (int_of row) as [n|] eqn:En; [|done]. injection E as ->.
  exists n. split; [done|]. apply list_elem_of_omap. by exists row.
Qed.
Lemma int_in_range rows n : forallb int_row rows = true -> n ∈ omap int_of rows -> inS 32 n = true.
Proof.
  intros H (row & Hin & E)%list_elem_of_omap. rewrite forallb_forall in H. apply list_elem_of_In, H in Hin.
  by destruct row as [|[[[]| | |]|] []]; try done; injection E as <-.
Qed.
Lemma int_side (opt : forall T, ValueStatistics T -> option T) covers (pick : Z -> Z -> Z) (R : Z -> Z -> Prop) rows stats :
  (forall a b, pick a b = a \/ pick a b = b) -> (forall a b, R (pick a b) a /\ R (pick a b) b) -> (forall a, R a a) ->
  (forall a b c, R a b -> R b c -> R a c) -> (forall a b, R a b -> covers [a] [b]) ->
  forallb int_row rows = true -> opt _ stats = extreme pick (omap int_of rows) ->
  side_ok opt covers PrimitiveType.Int (int_values rows) (bool_decide (omap int_of rows <> [])) (Statistics.Int32 stats).
Proof.
  intros Hpick HR Hrefl Htrans Hcov Hrows Hopt. exists (datum_int <$> extreme pick (omap int_of rows)).
  destruct (extreme pick (omap int_of rows)) as [m|] eqn:E.
  - destruct (extreme_ok pick R _ _ Hpick HR Hrefl Htrans E) as [Hin Hall]. split; [|split].
    + apply ex_int_bound; [by eapply int_in_range|]. intros x (n & -> & Hn)%int_value. by apply Hcov, Hall.
    + rewrite !bool_decide_eq_true_2; [done|by eexists|]. intros E'. by rewrite E' in Hin; apply not_elem_of_nil in Hin.
    + intros _. cbn. by rewrite Hopt.
  - destruct (omap int_of rows) as [|n ns] eqn:En; [|done]. split; [|split; [done|]].
    + intros x (n & _ & Hn)%int_value. rewrite En in Hn. by apply not_elem_of_nil in Hn.
    + done.
Qed.
Lemma int_leaves : schema_leaves int_schema = [("a"%string, 1, PrimitiveType.Int)].
Proof. by vm_compute. Qed.
Lemma int_accessor : accessor_by_field_id int_schema 1 = Some (accessor_new 0 PrimitiveType.Int).
Proof. by vm_compute. Qed.
Lemma int_footer rows :
  forallb int_row rows = true -> Z.of_nat (length rows) < 2 ^ 63 ->
  footer_describes int_schema rows (mkParquetMetaData [int_group rows] (Z.of_nat (length rows))).
Proof.
  intros Hrows Hlen. split; [done|]. exists [rows], [fun _ => int_values rows]. rewrite int_leaves. cbn [concat].
  split; [by rewrite app_nil_r|]. split; [|split].
  - constructor; [|constructor]. intros l a Hl. rewrite int_leaves in Hl. apply list_elem_of_singleton in Hl as ->.
    cbn [leaf_id fst snd]. rewrite int_accessor. intros [= <-]. apply mapR_Ok. unfold int_values.
    apply Forall2_fmap_r, Forall_Forall2_diag, Forall_forall. intros row Hin. rewrite forallb_forall in Hrows.
    apply list_elem_of_In, Hrows in Hin. by destruct row as [|[[[]| | |]|] []].
  - constructor; [|constructor]. split; [repeat constructor; by intros ?%not_elem_of_nil|].
    intros l ->%list_elem_of_singleton. eexists. split; [apply list_elem_of_here|]. split; [done|]. split.
    + intros x (n & -> & Hn)%int_value. pose proof (int_in_range _ _ Hrows Hn). split; [|done]. unfold datum_wf. cbn. by rewrite H.
    + unfold int_values. by rewrite length_fmap.
    + eexists. split; [done|]. split; [done|]. split.
      * eapply (int_side (@min_opt) lex_le Z.min Z.le); [intros; lia..| |done|done]. intros a b Hab. by apply lex_le_singleton.
      * eapply (int_side (@max_opt) (flip lex_le) Z.max Z.ge); [intros; lia..| |done|done]. intros a b Hab. apply lex_le_singleton. lia.
  - intros l _. unfold leaf_values, int_values. cbn. rewrite app_nil_r, length_fmap. lia.
Qed.
#[local] Instance int_arrow_writer_laws : ArrowWriterLaws int_arrow_writer MatchId int_schema.
Proof.
  refine {| aw_holds := fun w rows => w = rows |}.
  - by intros path fields w [= <-].
  - by intros w rows batch w' _ -> [= <-].
  - intros w rows metadata w' -> H. cbn in H. destruct (forallb int_row rows) eqn:Er; [|done].
    destruct (Z.ltb_spec (Z.of_nat (length rows)) (2 ^ 63)); [|done]. injection H as <- _. by apply int_footer.
Defined.

(** A kernel for the masks that keep every row. *)
Definition keep_all (batch : RecordBatch) (f : list bool) : result RecordBatch :=
  if forallb id f && (length f =? batch_num_rows batch)%nat then Ok batch else Err (Error Unexpected).
Lemma keep_all_filters : PartitionWriters.filters_rows (batch_conforms MatchId int_schema) (batch_rows_of MatchId int_schema) keep_all.
Proof.
  intros batch f batch' Hc H. unfold keep_all in H. destruct (forallb id f) eqn:Ef; [|done].
  destruct (Nat.eqb_spec (length f) (batch_num_rows batch)) as [El|]; [|done]. injection H as <-. split; [done|].
  rewrite <- (bc_rows _ _ _ Hc) in El. clear Hc. revert El. generalize (batch_rows_of MatchId int_schema batch). intros rows.
  revert rows. induction f as [|b f IH]; intros [|row rows] El; try done. cbn in Ef. apply andb_true_iff in Ef as [Eb Ef].
  unfold id in Eb. subst b. rewrite PartitionWriters.kept_cons. f_equal. apply IH; [done|]. cbn in El. lia.
Qed.

Definition int_batch (vs : list (option Z)) : RecordBatch :=
  mkRecordBatch [Arrow.with_metadata (Arrow.new "a" Arrow.Int32 true) {["PARQUET:field_id"%string := "1"%string]}] [Int32Array vs] (length vs).
Definition int_batches : list RecordBatch := [int_batch [Some 3; None]; int_batch []; int_batch [Some 8]].
Definition int_config : RollingFileWriterBuilder :=
  mkRollingBuilder 1024 (mkLocations "s3://bucket/t/data") (name_generator_new "insert" None Parquet).
Definition no_partition : PartitionSpec := mkPartitionSpec 0 [].
Definition int_term : BoundReference :=
  mkBoundReference "a" (mkField 1 "a" false (TPrimitive PrimitiveType.Int)) (accessor_new 0 PrimitiveType.Int).
Definition int_filter : BoundPredicate := Binary PredicateOperator.GreaterThan int_term (datum_int 5).
Definition int_insert : result (list DataFile * nat) :=
  PartitionWriters.write_data_files (O := PartitionWriters.last_first)
    (I := data_file_writer (F := parquet_writer (new_with_match_mode int_schema MatchId)) PartitionWriters.ex_human int_config)
    keep_all true int_schema no_partition int_batches 0%nat.
Lemma int_batches_conform : Forall (batch_conforms MatchId int_schema) int_batches.
Proof.
  repeat apply Forall_cons_2; try apply Forall_nil_2; (split; [by vm_compute|by vm_compute|apply (bool_decide_unpack _); by vm_compute|]); intros pos f Hpos;
    assert (as_struct int_schema = [mkField 1 "a" false (TPrimitive PrimitiveType.Int)]) as E by (by vm_compute);
    rewrite E in Hpos; destruct pos as [|pos]; try done; injection Hpos as <-; eexists; (split; [done|]); by vm_compute.
Qed.

(** [a > 5] has a meaning for the rows, so the file is kept. *)
Lemma int_filter_meant :
  leaves (leaf_meant int_schema (concat (batch_rows_of MatchId int_schema <$> int_batches))) int_filter.
Proof.
  cbn. exists ("a"%string, 1, PrimitiveType.Int). split; [|split; [done|split; [|done]]].
  - split; [rewrite int_leaves; apply list_elem_of_here|]. split; [done|]. exact int_accessor.
  - intros values Hv. assert (values = [Some (datum_int 3); None; Some (datum_int 8)]) as ->.
    { vm_compute in Hv. by injection Hv as <-. }
    split; [|intros _]; intros x Hx; rewrite !elem_of_cons in Hx; destruct Hx as [[= ->]|[?|[[= ->]|[]%not_elem_of_nil]]]; done.
Qed.

(** In a struct that is null the array below may hold a NaN, which is counted as one of the rows. *)
Definition null_struct : ArrayRef :=
  StructArray [(Arrow.with_metadata (Arrow.new "d" Arrow.Float64 true) {["PARQUET:field_id"%string := "2"%string]},
                Float64Array [Some InclusiveMetrics.F64_NAN])] [true].
Definition null_struct_batch : RecordBatch :=
  mkRecordBatch [Arrow.with_metadata (Arrow.new "s" (Arrow.Struct []) true) {["PARQUET:field_id"%string := "1"%string]}] [null_struct] 1.
Definition struct_schema : Schema :=
  ok_value (mkSchema [] 0 0 ∅ [] ∅ ∅ ∅ ∅ ∅) (Schema.build (mkSchemaBuilder 0
    [mkField 1 "s" false (TStruct [mkField 2 "d" false (TPrimitive PrimitiveType.Double)])] [] ∅ None)).
Theorem nans_of_null_structs_counted :
  batch_rows_of MatchId struct_schema null_struct_batch = [[None]]
  /\ (fun r => r.2 !! 2) <$> nan_compute MatchId struct_schema null_struct_batch ∅ = Ok (Some 1).
Proof. split; by vm_compute. Qed.
End examples.
