(* ===== verification/EnginePredicates.v ===== *)
(** * Engine predicates to table predicates (iceberg-datafusion, physical_plan)

    expr_to_predicate.rs and physical_expr_to_predicate.rs: the filters of the query engine,
    logical and physical, as predicates of a scan.  The expressions of the engine are a
    parameter apart from the constructors that the code matches; what they mean is SQL's
    semantics of values, comparisons and patterns, which is defined here apart from the code,
    and documented laws.  Correctness: a row that passes the filters satisfies the bound
    predicate, unless a negation stands over a conjunction that lost a side, or a cast, an
    escape or a zero of floats is involved, where it does not. *)

From S2P Require Import Prelude Utf8 Numerals Values Schema Expr ExprEval ArrowSchema.
From S2P Require Concrete ScanSpec DatumOrder ProjectSpec Schema Binding.

(** ** Expressions of the engine *)

Inductive Operator := OpEq | OpNotEq | OpLt | OpLtEq | OpGt | OpGtEq | OpAnd | OpOr | OpOther (n : nat).
(** [ScalarValue]: the variants the code matches; floats by their bits. *)
Inductive ScalarValue :=
  | SBoolean (v : option bool)
  | SInt8 (v : option Z) | SInt16 (v : option Z) | SInt32 (v : option Z) | SInt64 (v : option Z)
  | SFloat32 (bits : option Z) | SFloat64 (bits : option Z)
  | SUtf8 (v : option str) | SLargeUtf8 (v : option str)
  | SBinary (v : option (list Z)) | SLargeBinary (v : option (list Z))
  | SDate32 (v : option Z) | SDate64 (v : option Z)
  | STimestampMicrosecond (v : option Z) (tz : option string)
  | STimestampNanosecond (v : option Z) (tz : option string)
  | SOther (n : nat).

#[warnings="-register-all"]
Inductive Expr :=
  | EBinary (left : Expr) (op : Operator) (right : Expr)
  | ENot (e : Expr)
  | EColumn (name : string)
  | ELiteral (value : ScalarValue)
  | EInList (e : Expr) (list : list Expr) (negated : bool)
  | EIsNull (e : Expr)
  | EIsNotNull (e : Expr)
  | ECast (e : Expr) (data_type : DataType)
  | ELike (negated : bool) (e pattern : Expr) (escape_char : option Z) (case_insensitive : bool)
  | EScalarFunction (name : string) (args : list Expr)
  | EOther (n : nat).

(** A physical expression.  A dynamic filter has the expression it is now. *)
#[warnings="-register-all"]
Inductive PhysicalExpr :=
  | PBinary (left : PhysicalExpr) (op : Operator) (right : PhysicalExpr)
  | PNot (e : PhysicalExpr)
  | PColumn (name : string)
  | PLiteral (value : ScalarValue)
  | PInList (e : PhysicalExpr) (list : list PhysicalExpr) (negated : bool)
  | PIsNull (e : PhysicalExpr)
  | PIsNotNull (e : PhysicalExpr)
  | PHashTableLookup (n : nat)
  | PDynamicFilter (current : result PhysicalExpr)
  | POther (n : nat).

(** ** Literals *)

Definition datum_binary (bytes : list Z) : Datum := mkDatum PrimitiveType.Binary (PrimitiveLiteral.Binary bytes).
Definition datum_double (bits : Z) : Datum := mkDatum PrimitiveType.Double (PrimitiveLiteral.Double bits).
Definition MILLIS_PER_DAY : Z := 24 * 60 * 60 * 1000.
Definition scalar_value_to_datum (value : ScalarValue) : option Datum :=
  match value with
  | SBoolean (Some v) => Some (datum_bool v)
  | SInt8 (Some v) | SInt16 (Some v) | SInt32 (Some v) => Some (datum_int v)
  | SInt64 (Some v) => Some (datum_long v)
  | SFloat32 (Some v) => Some (datum_double (f32_to_f64_bits v))
  | SFloat64 (Some v) => Some (datum_double v)
  | SUtf8 (Some v) | SLargeUtf8 (Some v) => Some (datum_string v)
  | SBinary (Some v) | SLargeBinary (Some v) => Some (datum_binary v)
  | SDate32 (Some v) => Some (datum_date v)
  | SDate64 (Some v) => Some (datum_date (wrapS 32 (Z.quot v MILLIS_PER_DAY)))
  | STimestampMicrosecond (Some v) _ => Some (timestamp_micros v)
  | STimestampNanosecond (Some v) _ => Some (timestamp_nanos v)
  | _ => None
  end.

(** ** Conversion of logical expressions *)

Inductive TransformedResult :=
  | TPredicate (p : Predicate)
  | TColumn (r : Reference)
  | TLiteral (d : Datum)
  | NotTransformed.
Inductive OpTransformedResult := TOperator (op : PredicateOperator.t) | TAnd | TOr | OpNotTransformed.

Definition to_iceberg_operation (op : Operator) : OpTransformedResult :=
  match op with
  | OpEq => TOperator PredicateOperator.Eq
  | OpNotEq => TOperator PredicateOperator.NotEq
  | OpLt => TOperator PredicateOperator.LessThan
  | OpLtEq => TOperator PredicateOperator.LessThanOrEq
  | OpGt => TOperator PredicateOperator.GreaterThan
  | OpGtEq => TOperator PredicateOperator.GreaterThanOrEq
  | OpAnd => TAnd
  | OpOr => TOr
  | OpOther _ => OpNotTransformed
  end.
(** [unreachable!] panics. *)
Definition reverse_predicate_operator (op : PredicateOperator.t) : result PredicateOperator.t :=
  match op with
  | PredicateOperator.Eq => Ok PredicateOperator.Eq
  | PredicateOperator.NotEq => Ok PredicateOperator.NotEq
  | PredicateOperator.GreaterThan => Ok PredicateOperator.LessThan
  | PredicateOperator.GreaterThanOrEq => Ok PredicateOperator.LessThanOrEq
  | PredicateOperator.LessThan => Ok PredicateOperator.GreaterThan
  | PredicateOperator.LessThanOrEq => Ok PredicateOperator.GreaterThanOrEq
  | _ => Err Panic
  end.
Definition to_iceberg_binary_predicate (left right : TransformedResult) (op : PredicateOperator.t) :
    result TransformedResult :=
  match left, right with
  | NotTransformed, _ | _, NotTransformed => Ok NotTransformed
  | TColumn r, TLiteral d => Ok (TPredicate (Binary op r d))
  | TLiteral d, TColumn r =>
      let? op := reverse_predicate_operator op in
      Ok (TPredicate (Binary op r d))
  | _, _ => Ok NotTransformed
  end.
Definition to_iceberg_and_predicate (left right : TransformedResult) : TransformedResult :=
  match left, right with
  | TPredicate l, TPredicate r => TPredicate (predicate_and l r)
  | TPredicate l, _ => TPredicate l
  | _, TPredicate r => TPredicate r
  | _, _ => NotTransformed
  end.
Definition to_iceberg_or_predicate (left right : TransformedResult) : TransformedResult :=
  match left, right with
  | TPredicate l, TPredicate r => TPredicate (predicate_or l r)
  | _, _ => NotTransformed
  end.

(** The loop over the list of [IN]: all are literals, or the expression is not converted. *)
Fixpoint literals (results : list TransformedResult) : option (list Datum) :=
  match results with
  | [] => Some []
  | TLiteral l :: results => cons l <$> literals results
  | _ :: _ => None
  end.
(** The prefix of a pattern that ends in a percent sign and has no other wildcard. *)
Definition PERCENT : Z := 37.
Definition UNDERSCORE : Z := 95.
Definition prefix_pattern (pattern : str) : option str :=
  match last pattern with
  | Some c =>
      let prefix := removelast pattern in
      if (c =? PERCENT) && negb (existsb (fun c => (c =? PERCENT) || (c =? UNDERSCORE)) prefix)
      then Some prefix else None
  | None => None
  end.
Definition column_truth (r : Reference) (b : bool) : Predicate := Binary PredicateOperator.Eq r (datum_bool b).

Section convert.
Context {V : ValueLib}.
(** The type [Date64], one of the others of [DataType]. *)
Context (Date64 : DataType).

Fixpoint to_iceberg_predicate (expr : Expr) : result TransformedResult :=
  match expr with
  | EBinary l op r =>
      let? left := to_iceberg_predicate l in
      let? right := to_iceberg_predicate r in
      match to_iceberg_operation op with
      | TOperator op => to_iceberg_binary_predicate left right op
      | TAnd => Ok (to_iceberg_and_predicate left right)
      | TOr => Ok (to_iceberg_or_predicate left right)
      | OpNotTransformed => Ok NotTransformed
      end
  | ENot exp =>
      let? expr := to_iceberg_predicate exp in
      Ok (match expr with
          | TPredicate p => TPredicate (Not p)
          | TColumn column => TPredicate (column_truth column false)
          | _ => NotTransformed
          end)
  | EColumn column => Ok (TColumn (mkReference column))
  | ELiteral literal =>
      Ok (match scalar_value_to_datum literal with Some data => TLiteral data | None => NotTransformed end)
  | EInList expr list negated =>
      let? results := mapR to_iceberg_predicate list in
      match literals results with
      | Some datums =>
          let? expr := to_iceberg_predicate expr in
          Ok (match expr with
              | TColumn r => TPredicate (if negated then ref_is_not_in r datums else ref_is_in r datums)
              | _ => NotTransformed
              end)
      | None => Ok NotTransformed
      end
  | EIsNull expr =>
      let? p := to_iceberg_predicate expr in
      Ok (match p with TColumn r => TPredicate (Unary PredicateOperator.IsNull r) | _ => NotTransformed end)
  | EIsNotNull expr =>
      let? p := to_iceberg_predicate expr in
      Ok (match p with TColumn r => TPredicate (Unary PredicateOperator.NotNull r) | _ => NotTransformed end)
  | ECast expr data_type =>
      if bool_decide (data_type = Arrow.Date32) || bool_decide (data_type = Date64) then Ok NotTransformed
      else to_iceberg_predicate expr
  | ELike negated expr pattern escape_char case_insensitive =>
      if bool_decide (is_Some escape_char) || case_insensitive then Ok NotTransformed
      else
        let? pattern := to_iceberg_predicate pattern in
        match pattern with
        | TLiteral (mkDatum _ (PrimitiveLiteral.String pattern_str)) =>
            match prefix_pattern pattern_str with
            | Some prefix =>
                let? column := to_iceberg_predicate expr in
                Ok (match column with
                    | TColumn r =>
                        TPredicate (if negated then ref_not_starts_with r (datum_string prefix)
                                    else ref_starts_with r (datum_string prefix))
                    | _ => NotTransformed
                    end)
            | None => Ok NotTransformed
            end
        | _ => Ok NotTransformed
        end
  | EScalarFunction name args =>
      match args with
      | [arg] =>
          if bool_decide (name = "isnan"%string) then
            let? operand := to_iceberg_predicate arg in
            Ok (match operand with TColumn r => TPredicate (Unary PredicateOperator.IsNan r) | _ => NotTransformed end)
          else Ok NotTransformed
      | _ => Ok NotTransformed
      end
  | EOther _ => Ok NotTransformed
  end.

Definition filter_predicate (t : TransformedResult) : option Predicate :=
  match t with
  | TPredicate predicate => Some predicate
  | TColumn column => Some (column_truth column true)
  | _ => None
  end.
Definition convert_filter_to_predicate (expr : Expr) : result (option Predicate) :=
  filter_predicate <$> to_iceberg_predicate expr.
(** [reduce(Predicate::and)]. *)
Definition reduce_and (predicates : list Predicate) : option Predicate :=
  match predicates with
  | [] => None
  | p :: predicates => Some (foldl predicate_and p predicates)
  end.
Definition convert_filters_to_predicate (filters : list Expr) : result (option Predicate) :=
  let? predicates := mapR convert_filter_to_predicate filters in
  Ok (reduce_and (omap id predicates)).
End convert.

(** ** Conversion of physical expressions *)

Definition resolve_physical_expr (expr : PhysicalExpr) : result PhysicalExpr :=
  match expr with PDynamicFilter current => current | _ => Ok expr end.
Definition is_literal_true (expr : PhysicalExpr) : bool :=
  match expr with PLiteral (SBoolean (Some true)) => true | _ => false end.

(** [map_operator], [to_binary], [to_and] and [to_or] on [PhysicalTransformed] are those of the
    logical conversion, and so is [reverse_op] on the operators of comparisons. *)
Definition map_operator (op : Operator) : OpTransformedResult :=
  match op with
  | OpEq => TOperator PredicateOperator.Eq
  | OpNotEq => TOperator PredicateOperator.NotEq
  | OpLt => TOperator PredicateOperator.LessThan
  | OpLtEq => TOperator PredicateOperator.LessThanOrEq
  | OpGt => TOperator PredicateOperator.GreaterThan
  | OpGtEq => TOperator PredicateOperator.GreaterThanOrEq
  | OpAnd => TAnd
  | OpOr => TOr
  | OpOther _ => OpNotTransformed
  end.
Definition reverse_op (op : PredicateOperator.t) : PredicateOperator.t :=
  match op with
  | PredicateOperator.Eq => PredicateOperator.Eq
  | PredicateOperator.NotEq => PredicateOperator.NotEq
  | PredicateOperator.GreaterThan => PredicateOperator.LessThan
  | PredicateOperator.GreaterThanOrEq => PredicateOperator.LessThanOrEq
  | PredicateOperator.LessThan => PredicateOperator.GreaterThan
  | PredicateOperator.LessThanOrEq => PredicateOperator.GreaterThanOrEq
  | other => other
  end.
Definition to_binary (l r : TransformedResult) (op : PredicateOperator.t) : TransformedResult :=
  match l, r with
  | NotTransformed, _ | _, NotTransformed => NotTransformed
  | TColumn r, TLiteral d => TPredicate (Binary op r d)
  | TLiteral d, TColumn r => TPredicate (Binary (reverse_op op) r d)
  | _, _ => NotTransformed
  end.

Section physical.
Context {V : ValueLib}.

(** The items of a physical list are literals themselves. *)
Fixpoint item_datums (items : list PhysicalExpr) : option (list Datum) :=
  match items with
  | [] => Some []
  | PLiteral value :: items => d ← scalar_value_to_datum value; datums ← item_datums items; Some (d :: datums)
  | _ :: _ => None
  end.
Definition in_list_to_predicate (column : TransformedResult) (items : list PhysicalExpr) (negated : bool) :
    TransformedResult :=
  match item_datums items with
  | Some (d :: datums) =>
      match column with
      | TColumn r => TPredicate (if negated then ref_is_not_in r (d :: datums) else ref_is_in r (d :: datums))
      | _ => NotTransformed
      end
  | _ => NotTransformed
  end.
Fixpoint to_iceberg_from_physical (expr : PhysicalExpr) : TransformedResult :=
  if is_literal_true expr then NotTransformed
  else
    match expr with
    | PHashTableLookup _ => NotTransformed
    | PBinary l op r =>
        let left := to_iceberg_from_physical l in
        let right := to_iceberg_from_physical r in
        match map_operator op with
        | TOperator op => to_binary left right op
        | TAnd => to_iceberg_and_predicate left right
        | TOr => to_iceberg_or_predicate left right
        | OpNotTransformed => NotTransformed
        end
    | PNot arg =>
        match to_iceberg_from_physical arg with
        | TPredicate p => TPredicate (Not p)
        | TColumn r => TPredicate (column_truth r false)
        | _ => NotTransformed
        end
    | PColumn name => TColumn (mkReference name)
    | PLiteral value => match scalar_value_to_datum value with Some d => TLiteral d | None => NotTransformed end
    | PIsNull arg =>
        match to_iceberg_from_physical arg with
        | TColumn r => TPredicate (Unary PredicateOperator.IsNull r)
        | _ => NotTransformed
        end
    | PIsNotNull arg =>
        match to_iceberg_from_physical arg with
        | TColumn r => TPredicate (Unary PredicateOperator.NotNull r)
        | _ => NotTransformed
        end
    | PInList arg list negated => in_list_to_predicate (to_iceberg_from_physical arg) list negated
    | PDynamicFilter _ | POther _ => NotTransformed
    end.

Fixpoint extract_pushdown_predicates (expr : PhysicalExpr) : list Predicate :=
  match expr with
  | PHashTableLookup _ => []
  | PBinary l OpAnd r => extract_pushdown_predicates l ++ extract_pushdown_predicates r
  | _ =>
      if is_literal_true expr then []
      else
        match to_iceberg_from_physical expr with
        | TPredicate p => [p]
        | TColumn r => [column_truth r true]
        | _ => []
        end
  end.
Definition convert_physical_expr_to_predicates (expr : PhysicalExpr) : result (list Predicate) :=
  let? resolved := resolve_physical_expr expr in
  Ok (extract_pushdown_predicates resolved).
Definition merge_one (merged : option Predicate) (pred : Predicate) : option Predicate :=
  Some (match merged with Some existing => predicate_and existing pred | None => pred end).
Fixpoint merge_iceberg_predicates (merged : option Predicate) (physical_filters : list PhysicalExpr) :
    result (option Predicate) :=
  match physical_filters with
  | [] => Ok merged
  | filter :: physical_filters =>
      let? parts := convert_physical_expr_to_predicates filter in
      merge_iceberg_predicates (foldl merge_one merged parts) physical_filters
  end.

(** [collect_columns] of the engine gives the names of the columns of an expression. *)
Context (collect_columns : PhysicalExpr -> list string).
Definition can_pushdown_physical_expr (expr : PhysicalExpr) (schema : list string) : bool :=
  forallb (fun col => bool_decide (col ∈ schema)) (collect_columns expr).
End physical.

(** ** What expressions mean

    SQL's meaning of the expressions of a row, for both languages, apart from the code: values
    of columns and of literals as SQL has them, their order, which is that of the engine
    (floats by IEEE 754's total order, text by its bytes), the comparisons and [LIKE]. *)
Inductive SqlValue :=
  | QBool (b : bool) | QNumber (n : Z) | QReal (bits : Z) | QText (s : str) | QBytes (bs : list Z)
  | QDay (n : Z) | QTime (nanos zoned : bool) (n : Z).
Definition sql_of_datum (d : Datum) : option SqlValue :=
  match datum_type d, datum_literal d with
  | PrimitiveType.Boolean, PrimitiveLiteral.Boolean b => Some (QBool b)
  | PrimitiveType.Int, PrimitiveLiteral.Int n | PrimitiveType.Long, PrimitiveLiteral.Long n => Some (QNumber n)
  | PrimitiveType.Float, PrimitiveLiteral.Float bits => Some (QReal (f32_to_f64_bits bits))
  | PrimitiveType.Double, PrimitiveLiteral.Double bits => Some (QReal bits)
  | PrimitiveType.Date, PrimitiveLiteral.Int n => Some (QDay n)
  | PrimitiveType.Timestamp, PrimitiveLiteral.Long n => Some (QTime false false n)
  | PrimitiveType.Timestamptz, PrimitiveLiteral.Long n => Some (QTime false true n)
  | PrimitiveType.TimestampNs, PrimitiveLiteral.Long n => Some (QTime true false n)
  | PrimitiveType.TimestamptzNs, PrimitiveLiteral.Long n => Some (QTime true true n)
  | PrimitiveType.String, PrimitiveLiteral.String s => Some (QText s)
  | PrimitiveType.Binary, PrimitiveLiteral.Binary bs => Some (QBytes bs)
  | _, _ => None
  end.
(** A [Date64] is a date when it is midnight. *)
Definition sql_of_scalar (s : ScalarValue) : option SqlValue :=
  match s with
  | SBoolean (Some b) => Some (QBool b)
  | SInt8 (Some n) | SInt16 (Some n) | SInt32 (Some n) | SInt64 (Some n) => Some (QNumber n)
  | SFloat32 (Some bits) => Some (QReal (f32_to_f64_bits bits))
  | SFloat64 (Some bits) => Some (QReal bits)
  | SUtf8 (Some t) | SLargeUtf8 (Some t) => Some (QText t)
  | SBinary (Some bs) | SLargeBinary (Some bs) => Some (QBytes bs)
  | SDate32 (Some n) => Some (QDay n)
  | SDate64 (Some n) => if n mod 86400000 =? 0 then Some (QDay (n / 86400000)) else None
  | STimestampMicrosecond (Some n) tz => Some (QTime false (bool_decide (is_Some tz)) n)
  | STimestampNanosecond (Some n) tz => Some (QTime true (bool_decide (is_Some tz)) n)
  | _ => None
  end.
Definition sql_cmp (a b : SqlValue) : option comparison :=
  match a, b with
  | QBool a, QBool b => Some (Z.b2z a ?= Z.b2z b)
  | QNumber a, QNumber b | QDay a, QDay b => Some (a ?= b)
  | QReal a, QReal b => Some (total_cmp 64 a b)
  | QText a, QText b => Some (str_cmp a b)
  | QBytes a, QBytes b => Some (lex_cmp a b)
  | QTime u z a, QTime u' z' b => if Bool.eqb u u' && Bool.eqb z z' then Some (a ?= b) else None
  | _, _ => None
  end.
Definition sql_test (op : Operator) (c : comparison) : option bool :=
  match op, c with
  | OpEq, Eq | OpLt, Lt | OpGt, Gt | OpLtEq, (Lt | Eq) | OpGtEq, (Gt | Eq) | OpNotEq, (Lt | Gt) => Some true
  | (OpEq | OpLt | OpGt | OpLtEq | OpGtEq | OpNotEq), _ => Some false
  | _, _ => None
  end.
Definition is_comparison (op : Operator) : bool := match op with OpAnd | OpOr | OpOther _ => false | _ => true end.
Definition swapped (op : Operator) : Operator :=
  match op with OpLt => OpGt | OpLtEq => OpGtEq | OpGt => OpLt | OpGtEq => OpLtEq | op => op end.
(** [LIKE]: a percent sign is any text, an underscore any character. *)
Fixpoint like (pattern text : str) : bool :=
  match pattern with
  | [] => match text with [] => true | _ => false end
  | c :: pattern =>
      if c =? 37
      then (fix any (text : str) : bool := like pattern text || match text with [] => false | _ :: text => any text end) text
      else match text with [] => false | d :: text => ((c =? 95) || (c =? d)) && like pattern text end
  end.

Class SqlSyntax (E : Type) := {
  x_binary : E -> Operator -> E -> E;
  x_not : E -> E;
  x_column : string -> E;
  x_literal : ScalarValue -> E;
  x_in_list : E -> list E -> bool -> E;
  x_is_null : E -> E;
  x_is_not_null : E -> E;
}.
#[export] Instance logical_syntax : SqlSyntax Expr :=
  {| x_binary := EBinary; x_not := ENot; x_column := EColumn; x_literal := ELiteral; x_in_list := EInList;
     x_is_null := EIsNull; x_is_not_null := EIsNotNull |}.
#[export] Instance physical_syntax : SqlSyntax PhysicalExpr :=
  {| x_binary := PBinary; x_not := PNot; x_column := PColumn; x_literal := PLiteral; x_in_list := PInList;
     x_is_null := PIsNull; x_is_not_null := PIsNotNull |}.

(** The truth of expressions on one row, of which [cell] gives the values of the columns.  The
    engine has checked types: what is compared, and known, has values of one kind. *)
Class SqlLaws {E : Type} {X : SqlSyntax E} (truth : E -> option bool) (cell : string -> option Datum) := {
  truth_and l r : truth (x_binary l OpAnd r) = kleene_and (truth l) (truth r);
  truth_or l r : truth (x_binary l OpOr r) = kleene_or (truth l) (truth r);
  truth_not e : truth (x_not e) = kleene_not (truth e);
  truth_swapped l op r : is_comparison op = true -> truth (x_binary l op r) = truth (x_binary r (swapped op) l);
  truth_in e items :
    match truth (x_in_list e items false) with
    | Some true => exists item, item ∈ items /\ truth (x_binary e OpEq item) = Some true
    | Some false => forall item, item ∈ items -> truth (x_binary e OpEq item) = Some false
    | None => True
    end;
  truth_not_in e items : truth (x_in_list e items true) = kleene_not (truth (x_in_list e items false));
  truth_is_null c : truth (x_is_null (x_column c)) = Some (negb (bool_decide (is_Some (cell c))));
  truth_is_not_null c : truth (x_is_not_null (x_column c)) = Some (bool_decide (is_Some (cell c)));
  truth_column c b : truth (x_column c) = Some b -> cell c ≫= sql_of_datum = Some (QBool b);
  truth_compare c op s b :
    is_comparison op = true -> truth (x_binary (x_column c) op (x_literal s)) = Some b ->
    exists v w o, cell c ≫= sql_of_datum = Some v /\ sql_of_scalar s = Some w /\ sql_cmp v w = Some o
      /\ sql_test op o = Some b;
}.
(** [LIKE] without the engine's escape character, and [isnan]. *)
Definition BACKSLASH : Z := 92.
Definition escape_free (pattern : str) : bool := negb (existsb (fun c => c =? BACKSLASH) pattern).
Class LogicalLaws (truth : Expr -> option bool) (cell : string -> option Datum) := {
  logical_sql :: SqlLaws truth cell;
  truth_like c s pattern b :
    sql_of_scalar s = Some (QText pattern) -> escape_free pattern = true ->
    truth (ELike false (EColumn c) (ELiteral s) None false) = Some b ->
    exists text, cell c ≫= sql_of_datum = Some (QText text) /\ like pattern text = b;
  truth_not_like e pattern :
    truth (ELike true e pattern None false) = kleene_not (truth (ELike false e pattern None false));
  truth_isnan c b :
    truth (EScalarFunction "isnan" [EColumn c]) = Some b ->
    exists x, cell c = Some x /\ Values.is_nan x = b;
}.

(** ** Theory *)

(** *** Literals *)

(** The values that Rust's types hold; no zero and no NaN among floats, of which the table has
    another equality, and no days beyond those of a date. *)
Definition real_ok (bits : Z) : bool := inU 64 bits && negb (float_is_nan 64 bits) && negb (float_abs 64 bits =? 0).
Definition scalar_ok (s : ScalarValue) : bool :=
  match s with
  | SInt8 (Some n) => inS 8 n
  | SInt16 (Some n) => inS 16 n
  | SInt32 (Some n) => inS 32 n
  | SInt64 (Some n) => inS 64 n
  | SFloat32 (Some bits) => real_ok (f32_to_f64_bits bits)
  | SFloat64 (Some bits) => real_ok bits
  | SUtf8 (Some t) | SLargeUtf8 (Some t) => valid_str t
  | SDate64 (Some n) => inS 32 (n / 86400000)
  | _ => true
  end.

Section literals.
Context {V : ValueLib} {VL : ValueLibLaws V}.

Lemma compare_eqb a b : (a =? b) = match a ?= b with Eq => true | _ => false end.
Proof. destruct (Z.compare_spec a b); lia. Qed.
Lemma narrow_int w n : 0 < w <= 32 -> inS w n = true -> inS 32 n = true.
Proof.
  intros Hw. rewrite !inS_spec. assert (2 ^ (w - 1) <= 2 ^ (32 - 1)) by (apply Z.pow_le_mono_r; lia). lia.
Qed.
Lemma int_bound_cmp wide v n :
  Binding.int_in_range wide v = true ->
  let x := Binding.int_datum wide v in let d := Binding.int_bound_literal wide n in
  datum_eqb x d = (v =? n)
  /\ match datum_literal d with
     | PrimitiveLiteral.AboveMax => v < n
     | PrimitiveLiteral.BelowMin => n < v
     | _ => partial_cmp x d = Some (v ?= n)
     end.
Proof using Type.
  intros Hv x d. subst x d. unfold Binding.int_bound_literal. destruct (Binding.int_in_range wide n) eqn:Hn.
  - rewrite Binding.int_equal. split; [done|]. rewrite Binding.int_compare. by destruct wide.
  - assert (v <> n) as Hne by congruence. replace (v =? n) with false by lia.
    assert (if 0 <? n then v < n else n < v) as Hlt.
    { destruct wide; unfold Binding.int_in_range in *; rewrite inS_spec in Hv; unfold inS in Hn; bool_to_prop;
        change (2 ^ (32 - 1)) with 2147483648 in *; change (2 ^ (64 - 1)) with 9223372036854775808 in *;
        destruct (0 <? n) eqn:E; bool_to_prop; lia. }
    destruct (0 <? n); (split; [by destruct wide|done]).
Qed.
Lemma top_half x : 2 ^ 63 <= x < 2 * 2 ^ 63 -> x mod 2 ^ 63 = x - 2 ^ 63.
Proof using Type. intros. symmetry. apply Z.mod_unique with 1; lia. Qed.
Lemma total_key_inj a b : inU 64 a = true -> inU 64 b = true -> total_key 64 a = total_key 64 b -> a = b.
Proof using Type.
  intros Ha Hb. rewrite !DatumOrder.total_key_num by done. apply inU_spec in Ha, Hb.
  unfold float_num, float_sign, float_abs. change (2 ^ 64) with (2 * 2 ^ 63) in *. change (64 - 1) with 63.
  destruct (Z.leb_spec (2 ^ 63) a), (Z.leb_spec (2 ^ 63) b);
    rewrite ?(top_half a), ?(top_half b), ?(Z.mod_small a), ?(Z.mod_small b) by lia; lia.
Qed.
(** A number that is no zero and no NaN. *)
Lemma real_equal a b :
  inU 64 a = true -> real_ok b = true -> OrderedFloat_eq 64 a b = match total_cmp 64 a b with Eq => true | _ => false end.
Proof using VL.
  unfold real_ok. intros Ha [[Hb Hn]%andb_true_iff Hz]%andb_true_iff. apply negb_true_iff in Hn, Hz. apply Z.eqb_neq in Hz.
  unfold total_cmp. rewrite <- compare_eqb. rewrite OrderedFloat_eq_ok, Hn. cbn [negb].
  assert (a <> b -> float_is_nan 64 a = false -> float_num 64 a <> float_num 64 b) as Hnum.
  { intros Hab _ E. apply Hab. revert E Hz. apply inU_spec in Ha, Hb. unfold float_num, float_sign, float_abs.
    change (2 ^ 64) with (2 * 2 ^ 63) in *. change (64 - 1) with 63.
    destruct (Z.leb_spec (2 ^ 63) a), (Z.leb_spec (2 ^ 63) b);
      rewrite ?(top_half a), ?(top_half b), ?(Z.mod_small a), ?(Z.mod_small b) by lia; lia. }
  pose proof (total_key_inj a b Ha Hb) as Hkey.
  destruct (Z.eq_dec a b) as [->|Hab]; [by rewrite Hn, !Z.eqb_refl|].
  replace (total_key 64 a =? total_key 64 b) with false by (symmetry; apply Z.eqb_neq; auto).
  destruct (float_is_nan 64 a) eqn:Ea; [done|]. cbn. apply Z.eqb_neq. auto.
Qed.

(** Binding a literal to the type of a value keeps how the value compares with it. *)
Lemma literal_bound x s d d' v w o :
  sql_of_datum x = Some v -> sql_of_scalar s = Some w -> sql_cmp v w = Some o ->
  scalar_ok s = true -> DatumOrder.datum_wf x = true ->
  scalar_value_to_datum s = Some d -> datum_to d (TPrimitive (datum_type x)) = Ok d' ->
  datum_eqb x d' = match o with Eq => true | _ => false end
  /\ match datum_literal d' with
     | PrimitiveLiteral.AboveMax => o = Lt
     | PrimitiveLiteral.BelowMin => o = Gt
     | _ => partial_cmp x d' = Some o
     end.
Proof using VL.
  assert (forall wide n k d, d = datum_int k \/ d = datum_long k ->
    Binding.int_in_range wide n = true -> match datum_type d with PrimitiveType.Int => inS 32 k | _ => inS 64 k end = true ->
    datum_to d (TPrimitive (datum_type (Binding.int_datum wide 0))) = Ok d' ->
    datum_eqb (Binding.int_datum wide n) d' = match n ?= k with Eq => true | _ => false end
    /\ match datum_literal d' with
       | PrimitiveLiteral.AboveMax => (n ?= k) = Lt
       | PrimitiveLiteral.BelowMin => (n ?= k) = Gt
       | _ => partial_cmp (Binding.int_datum wide n) d' = Some (n ?= k)
       end) as Hint.
  { intros wide n k e He Hn Hk Hd'. rewrite (Binding.int_literal_to wide e k) in Hd' by (by destruct He as [-> | ->]).
    injection Hd' as <-. destruct (int_bound_cmp wide n k Hn) as [H1 H2]. rewrite H1, compare_eqb. split; [done|].
    destruct (datum_literal _); first [done|by apply Z.compare_lt_iff|by apply Z.compare_gt_iff]. }
  destruct x as [ty l]. intros Hv Hw Ho Hs Hx Hd Hd'.
  destruct ty, l; cbn in Hv; try discriminate Hv; injection Hv as <-;
    destruct s as [[]|[]|[]|[]|[]|[]|[]|[]|[]|[]|[]|[]|[]|[] ?|[] ?|]; cbn in Hw; try discriminate Hw;
    try (destruct (_ =? 0) eqn:Emid in Hw; [|discriminate Hw]); injection Hw as <-; cbn in Ho; try discriminate Ho;
    cbn in Hd; injection Hd as <-; cbn [scalar_ok] in Hs;
    unfold DatumOrder.datum_wf in Hx; cbn in Hx.
  all: try (injection Ho as <-; first
    [ apply (Hint false _ _ (datum_int _) (or_introl eq_refl)); [done|eapply narrow_int; [|exact Hs]; lia|exact Hd']
    | apply (Hint false _ _ (datum_long _) (or_intror eq_refl)); [done|exact Hs|exact Hd']
    | apply (Hint true _ _ (datum_int _) (or_introl eq_refl)); [done|eapply narrow_int; [|exact Hs]; lia|exact Hd']
    | apply (Hint true _ _ (datum_long _) (or_intror eq_refl)); [done|exact Hs|exact Hd'] ]).
  all: cbn in Hd'; try discriminate Hd'; try (rewrite bool_decide_eq_true_2 in Hd' by done); injection Hd' as <-;
    unfold datum_eqb; cbn [datum_type datum_literal datum_date timestamp_micros timestamptz_micros timestamp_nanos timestamptz_nanos
      lit_eqb partial_cmp]; rewrite bool_decide_eq_true_2 by done; cbn [andb]; rewrite ?compare_eqb.
  - injection Ho as <-. by destruct b, b0.
  - injection Ho as <-. split; [|done]. by apply real_equal.
  - injection Ho as <-. split; [|done]. by apply real_equal.
  - by injection Ho as <-.
  - injection Ho as <-. apply Z.eqb_eq, Z.mod_divide in Emid as [k ->]; [|done]. rewrite Z.div_mul in * by done.
    change MILLIS_PER_DAY with 86400000. rewrite Z.quot_mul, wrapS_id by done. done.
  - destruct (bool_decide _); [discriminate Ho|]. by injection Ho as <-.
  - destruct (bool_decide _); [|discriminate Ho]. by injection Ho as <-.
  - destruct (bool_decide _); [discriminate Ho|]. by injection Ho as <-.
  - injection Ho as <-. split; [|done]. unfold str_cmp.
    destruct (lex_cmp _ _) eqn:E; [apply bool_decide_eq_true_2; by apply lex_cmp_eq|..];
      apply bool_decide_eq_false_2; intros E'; by rewrite E', lex_cmp_refl in E.
  - injection Ho as <-. split; [|done]. unfold str_cmp.
    destruct (lex_cmp _ _) eqn:E; [apply bool_decide_eq_true_2; by apply lex_cmp_eq|..];
      apply bool_decide_eq_false_2; intros E'; by rewrite E', lex_cmp_refl in E.
  - injection Ho as <-. split; [|done].
    destruct (lex_cmp _ _) eqn:E; [apply bool_decide_eq_true_2; by apply lex_cmp_eq|..];
      apply bool_decide_eq_false_2; intros E'; by rewrite E', lex_cmp_refl in E.
  - injection Ho as <-. split; [|done].
    destruct (lex_cmp _ _) eqn:E; [apply bool_decide_eq_true_2; by apply lex_cmp_eq|..];
      apply bool_decide_eq_false_2; intros E'; by rewrite E', lex_cmp_refl in E.
Qed.
(** Literals that the table holds equal are equal. *)
Lemma literal_equal s s' d d' :
  scalar_ok s = true -> scalar_ok s' = true -> scalar_value_to_datum s = Some d -> scalar_value_to_datum s' = Some d' ->
  datum_eqb d d' = true -> d = d'.
Proof using VL.
  intros Hs Hs' Hd Hd' [Ht E]%andb_true_iff. apply bool_decide_eq_true in Ht.
  destruct s as [[]|[]|[]|[]|[]|[]|[]|[]|[]|[]|[]|[]|[]|[] ?|[] ?|]; try discriminate Hd; injection Hd as <-;
    destruct s' as [[]|[]|[]|[]|[]|[]|[]|[]|[]|[]|[]|[]|[]|[] ?|[] ?|]; try discriminate Hd'; injection Hd' as <-;
    try discriminate Ht; cbn [datum_literal datum_bool datum_int datum_long datum_double datum_string datum_binary datum_date
      timestamp_micros timestamp_nanos lit_eqb] in E; cbn [scalar_ok] in Hs, Hs'.
  all: try (apply Z.eqb_eq in E; unfold datum_int, datum_long, datum_date, timestamp_micros, timestamp_nanos; congruence).
  all: try (apply bool_decide_eq_true in E; try (apply DatumOrder.utf8_inj in E; [|done..]); by rewrite E).
  { by destruct b, b0. }
  all: assert (forall bits, real_ok bits = true -> inU 64 bits = true) as Hr
    by (intros bits [[? _]%andb_true_iff _]%andb_true_iff; done).
  all: rewrite real_equal in E by auto; unfold datum_double; do 2 f_equal; apply total_key_inj; [by auto..|];
    unfold total_cmp in E; rewrite <- compare_eqb in E; by apply Z.eqb_eq.
Qed.
End literals.

(** *** Known truths *)

(** What is known of [a] is known of [b]. *)
Definition refines (a b : option bool) : Prop := forall x, a = Some x -> b = Some x.
Lemma refines_and a b a' b' : refines a a' -> refines b b' -> refines (kleene_and a b) (kleene_and a' b').
Proof.
  intros Ha Hb x. destruct a as [[]|]; [rewrite (Ha _ eq_refl)|rewrite (Ha _ eq_refl)|];
    (destruct b as [[]|]; [rewrite (Hb _ eq_refl)|rewrite (Hb _ eq_refl)|]); cbn; try done; by destruct a' as [[]|].
Qed.
Lemma refines_or a b a' b' : refines a a' -> refines b b' -> refines (kleene_or a b) (kleene_or a' b').
Proof.
  intros Ha Hb x. destruct a as [[]|]; [rewrite (Ha _ eq_refl)|rewrite (Ha _ eq_refl)|];
    (destruct b as [[]|]; [rewrite (Hb _ eq_refl)|rewrite (Hb _ eq_refl)|]); cbn; try done; by destruct a' as [[]|].
Qed.
Lemma refines_not a a' : refines a a' -> refines (kleene_not a) (kleene_not a').
Proof. intros Ha x. destruct a as [[]|]; [rewrite (Ha _ eq_refl)|rewrite (Ha _ eq_refl)|]; done. Qed.
Lemma kleene_and_Some_true a b : kleene_and a b = Some true -> a = Some true /\ b = Some true.
Proof. by destruct a as [[]|], b as [[]|]. Qed.
Lemma kleene_or_Some_true a b : kleene_or a b = Some true -> a = Some true \/ b = Some true.
Proof. destruct a as [[]|], b as [[]|]; cbn; auto. Qed.

(** *** The row that a bound predicate sees *)

Section row.
Context {V : ValueLib} {VL : ValueLibLaws V} {LC : Lowercase}.
Context (schema : Schema) (cs : bool) (value : BoundReference -> option Datum).
Abbreviation bound c := (bind_reference (mkReference c) schema cs).

(** The values are of the types of their columns, and required columns have one. *)
Record row_fits : Prop := {
  rf_typed c t x : bound c = Ok t -> value t = Some x ->
    field_type (ref_field t) = TPrimitive (datum_type x) /\ DatumOrder.datum_wf x = true;
  rf_required c t : bound c = Ok t -> field_required (ref_field t) = true -> is_Some (value t);
}.
(** The value of a column, by its name. *)
Definition cell_of (c : string) : option Datum := match bound c with Ok t => value t | Err _ => None end.

(** The predicate, bound to the schema, says what is known of [a]; it is true when [a] is. *)
Definition says (a : option bool) (p : Predicate) : Prop :=
  forall b, bind p schema cs = Ok b -> refines a (denote value b).
Definition implied (a : option bool) (p : Predicate) : Prop :=
  forall b, bind p schema cs = Ok b -> a = Some true -> denote value b = Some true.
Lemma says_implied a p : says a p -> implied a p.
Proof using Type. intros H b Hb Ha. by apply (H b Hb). Qed.

Lemma bind_predicate_and l r b :
  bind (predicate_and l r) schema cs = Ok b ->
  (exists bl br, bind l schema cs = Ok bl /\ bind r schema cs = Ok br
     /\ denote value b = kleene_and (denote value bl) (denote value br))
  \/ (b = AlwaysFalse /\ (l = AlwaysFalse \/ r = AlwaysFalse)).
Proof using Type.
  assert (forall bl br, bind l schema cs = Ok bl -> bind r schema cs = Ok br -> bind (And l r) schema cs = Ok b ->
    denote value b = kleene_and (denote value bl) (denote value br)) as Hand.
  { intros bl br Hl Hr. cbn. rewrite Hl, Hr. intros [= <-]. apply Binding.bind_and_denote. }
  assert (forall c, kleene_and (Some true) c = c /\ kleene_and c (Some true) = c) as Ht by (by intros [[]|]).
  assert (bind (And l r) schema cs = Ok b -> exists bl br, bind l schema cs = Ok bl /\ bind r schema cs = Ok br
    /\ denote value b = kleene_and (denote value bl) (denote value br)) as H.
  { intros H. pose proof H as H'. cbn in H'. apply bind_Ok in H' as (bl & Hl & H'). apply bind_Ok in H' as (br & Hr & _).
    exists bl, br. auto. }
  destruct l, r; cbn [predicate_and]; intros Hb; try (by left; apply H); try (right; cbn in Hb; injection Hb as <-; by auto);
    left; eexists _, _; (split; [first [reflexivity|exact Hb]|split; [first [reflexivity|exact Hb]|by rewrite ?(proj1 (Ht _)), ?(proj2 (Ht _))]]).
Qed.
Lemma bind_predicate_or l r b :
  bind (predicate_or l r) schema cs = Ok b ->
  (exists bl br, bind l schema cs = Ok bl /\ bind r schema cs = Ok br
     /\ denote value b = kleene_or (denote value bl) (denote value br))
  \/ (b = AlwaysTrue /\ (l = AlwaysTrue \/ r = AlwaysTrue)).
Proof using Type.
  assert (forall c, kleene_or (Some false) c = c /\ kleene_or c (Some false) = c) as Ht by (by intros [[]|]).
  assert (bind (Or l r) schema cs = Ok b -> exists bl br, bind l schema cs = Ok bl /\ bind r schema cs = Ok br
    /\ denote value b = kleene_or (denote value bl) (denote value br)) as H.
  { intros H. cbn in H. apply bind_Ok in H as (bl & Hl & H). apply bind_Ok in H as (br & Hr & [= <-]).
    exists bl, br. split; [done|]. split; [done|]. apply Binding.bind_or_denote. }
  destruct l, r; cbn [predicate_or]; intros Hb; try (by left; apply H); try (right; cbn in Hb; injection Hb as <-; by auto);
    left; eexists _, _; (split; [first [reflexivity|exact Hb]|split; [first [reflexivity|exact Hb]|by rewrite ?(proj1 (Ht _)), ?(proj2 (Ht _))]]).
Qed.

Lemma says_and a c l r : says a l -> says c r -> says (kleene_and a c) (predicate_and l r).
Proof using Type.
  intros Hl Hr b [(bl & br & Hbl & Hbr & ->)|[-> Hf]]%bind_predicate_and.
  - apply refines_and; [by apply Hl|by apply Hr].
  - destruct Hf as [-> | ->]; [specialize (Hl _ eq_refl)|specialize (Hr _ eq_refl)]; intros x Hx.
    + destruct a as [[]|]; [by specialize (Hl _ eq_refl)|by injection Hx as <-|by destruct c as [[]|]; try done; injection Hx as <-].
    + destruct c as [[]|]; [by specialize (Hr _ eq_refl)|by destruct a as [[]|]; injection Hx as <-|by destruct a as [[]|]; try done; injection Hx as <-].
Qed.
Lemma says_or a c l r : says a l -> says c r -> says (kleene_or a c) (predicate_or l r).
Proof using Type.
  intros Hl Hr b [(bl & br & Hbl & Hbr & ->)|[-> Hf]]%bind_predicate_or.
  - apply refines_or; [by apply Hl|by apply Hr].
  - destruct Hf as [-> | ->]; [specialize (Hl _ eq_refl)|specialize (Hr _ eq_refl)]; intros x Hx.
    + destruct a as [[]|]; [by injection Hx as <-|by specialize (Hl _ eq_refl)|by destruct c as [[]|]; try done; injection Hx as <-].
    + destruct c as [[]|]; [by destruct a as [[]|]; injection Hx as <-|by specialize (Hr _ eq_refl)|by destruct a as [[]|]; try done; injection Hx as <-].
Qed.
Lemma says_not a p : says a p -> says (kleene_not a) (Not p).
Proof using Type.
  intros H b Hb. cbn in Hb. apply bind_Ok in Hb as (b' & Hb' & [= <-]). rewrite Binding.bind_not_denote.
  apply refines_not. by apply H.
Qed.
Lemma implied_and a c l r : implied a l -> implied c r -> implied (kleene_and a c) (predicate_and l r).
Proof using Type.
  intros Hl Hr b Hb [Ha Hc]%kleene_and_Some_true.
  apply bind_predicate_and in Hb as [(bl & br & Hbl & Hbr & ->)|[-> [-> | ->]]].
  - by rewrite (Hl _ Hbl Ha), (Hr _ Hbr Hc).
  - by apply (Hl AlwaysFalse).
  - by apply (Hr AlwaysFalse).
Qed.
Lemma implied_or a c l r : implied a l -> implied c r -> implied (kleene_or a c) (predicate_or l r).
Proof using Type.
  intros Hl Hr b Hb Hac%kleene_or_Some_true.
  apply bind_predicate_or in Hb as [(bl & br & Hbl & Hbr & ->)|[-> _]]; [|done].
  destruct Hac as [Ha|Hc]; [by rewrite (Hl _ Hbl Ha)|rewrite (Hr _ Hbr Hc); by destruct (denote value bl) as [[]|]].
Qed.
End row.

(** *** Comparisons, lists and patterns *)

Lemma swapped_operation op pop :
  to_iceberg_operation op = TOperator pop ->
  is_comparison op = true /\ exists pop', reverse_predicate_operator pop = Ok pop' /\ reverse_op pop = pop'
    /\ to_iceberg_operation (swapped op) = TOperator pop'.
Proof. destruct op; cbn; intros [= <-]; eauto. Qed.

(** A pattern of a prefix and a percent sign. *)
Lemma like_prefix prefix text :
  existsb (fun c => (c =? PERCENT) || (c =? UNDERSCORE)) prefix = false ->
  like (prefix ++ [PERCENT]) text = bool_decide (take (length prefix) text = prefix).
Proof.
  revert text. induction prefix as [|c prefix IH]; intros text Hc; cbn [app like existsb length take] in *.
  - rewrite bool_decide_eq_true_2 by done. change (PERCENT =? 37) with true. cbn.
    induction text as [|d text IHt]; [done|]. exact IHt.
  - apply orb_false_iff in Hc as [[H37 H95]%orb_false_iff Hp]. change (c =? 37) with (c =? PERCENT). rewrite H37.
    destruct text as [|d text]; [by rewrite bool_decide_eq_false_2|]. change (c =? 95) with (c =? UNDERSCORE).
    rewrite H95, (IH text Hp). cbn [orb]. destruct (Z.eqb_spec c d) as [->|Hne]; cbn [andb].
    + apply bool_decide_ext. split; intros E; [cbn; by f_equal|by injection E].
    + symmetry. apply bool_decide_eq_false_2. by intros [= E _].
Qed.
Lemma prefix_pattern_Some pattern prefix :
  prefix_pattern pattern = Some prefix ->
  pattern = prefix ++ [PERCENT] /\ existsb (fun c => (c =? PERCENT) || (c =? UNDERSCORE)) prefix = false.
Proof.
  unfold prefix_pattern. destruct (last pattern) as [c|] eqn:El; [|done].
  destruct (_ && _) eqn:E; [|done]. intros [= <-]. apply andb_true_iff in E as [->%Z.eqb_eq H%negb_true_iff].
  split; [|done]. apply last_Some in El as [l ->]. by rewrite removelast_last.
Qed.
Lemma prefix_is_like pattern prefix text :
  valid_str pattern = true -> valid_str text = true -> prefix_pattern pattern = Some prefix ->
  Utf8.starts_with text prefix = like pattern text.
Proof.
  intros Hp Ht [-> Hw]%prefix_pattern_Some. rewrite like_prefix by done.
  assert (valid_str prefix = true) as Hv by (unfold valid_str in *; rewrite forallb_app in Hp; by apply andb_true_iff in Hp as [? _]).
  apply eq_true_iff_eq. rewrite Utf8.starts_with_take by done. by rewrite bool_decide_eq_true.
Qed.

Section atoms.
Context {V : ValueLib} {VL : ValueLibLaws V} {LC : Lowercase}.
Context (schema : Schema) (cs : bool) (value : BoundReference -> option Datum) (Hrow : row_fits schema cs value).
Context {E : Type} {X : SqlSyntax E} (truth : E -> option bool) {SL : SqlLaws truth (cell_of schema cs value)}.
Abbreviation says := (says schema cs value).

Lemma cell_bound c t : bind_reference (mkReference c) schema cs = Ok t -> cell_of schema cs value c = value t.
Proof using Type. unfold cell_of. by intros ->. Qed.

(** A leaf whose literal was bound. *)
Lemma bound_leaf_says op pop t d d' x o ans b :
  to_iceberg_operation op = TOperator pop -> sql_test op o = Some ans -> value t = Some x ->
  datum_to d (field_type (ref_field t)) = Ok d' ->
  datum_eqb x d' = match o with Eq => true | _ => false end
  /\ match datum_literal d' with
     | PrimitiveLiteral.AboveMax => o = Lt
     | PrimitiveLiteral.BelowMin => o = Gt
     | _ => partial_cmp x d' = Some o
     end ->
  bind_binary pop t d = Ok b -> denote value b = Some ans.
Proof using Type.
  intros Hop Ho Hx Hd [He Hc]. unfold bind_binary. rewrite Hd. cbn [mbind result_bind].
  assert (partial_cmp x d' = Some o -> Ok (Binary pop t d') = Ok b -> denote value b = Some ans) as Hplain.
  { intros Hp [= <-]. cbn [denote]. rewrite Hx. destruct op; cbn in Hop; try discriminate Hop; injection Hop as <-;
      cbn [holds_binary compare3]; rewrite ?Hp, ?He; destruct o; cbn in Ho |- *; congruence. }
  destruct (datum_literal d'); try (by apply Hplain);
    subst o; destruct op; cbn in Hop; try discriminate Hop; injection Hop as <-; cbn in Ho; injection Ho as <-;
    by intros [= <-].
Qed.

Lemma compare_says c op s pop d :
  to_iceberg_operation op = TOperator pop -> scalar_ok s = true -> scalar_value_to_datum s = Some d ->
  says (truth (x_binary (x_column c) op (x_literal s))) (Binary pop (mkReference c) d).
Proof using VL SL Hrow.
  intros Hop Hs Hd b Hb ans Ht. destruct (swapped_operation _ _ Hop) as [Hcmp _].
  apply truth_compare in Ht as (v & w & o & Hv & Hw & Ho & Hans); [|done].
  cbn in Hb. apply bind_Ok in Hb as (t & Hb1 & Hb). rewrite (cell_bound _ _ Hb1) in Hv.
  destruct (value t) as [x|] eqn:Hx; [|done]. cbn in Hv. destruct (rf_typed _ _ _ Hrow _ _ _ Hb1 Hx) as [Hty Hwf].
  pose proof Hb as Hb'. unfold bind_binary in Hb'. apply bind_Ok in Hb' as (d' & Hd' & _).
  eapply bound_leaf_says; try done. rewrite Hty in Hd'. by eapply literal_bound.
Qed.
Lemma compare_swapped_says c op s pop d pop' :
  to_iceberg_operation op = TOperator pop -> reverse_predicate_operator pop = Ok pop' ->
  scalar_ok s = true -> scalar_value_to_datum s = Some d ->
  says (truth (x_binary (x_literal s) op (x_column c))) (Binary pop' (mkReference c) d).
Proof using VL SL Hrow.
  intros Hop Hr Hs Hd. destruct (swapped_operation op pop Hop) as (Hc & p' & Hr' & _ & Hsw).
  rewrite (truth_swapped (SqlLaws := SL)) by done. rewrite Hr in Hr'. injection Hr' as <-.
  by apply compare_says.
Qed.

(** Lists of literals. *)
Definition literal_of (item : E) (d : Datum) : Prop :=
  exists s, item = x_literal s /\ scalar_ok s = true /\ scalar_value_to_datum s = Some d.
Lemma set_from_iter_subset ds d : d ∈ set_from_iter ds -> d ∈ ds.
Proof using Type.
  unfold set_from_iter. assert (forall s, d ∈ fold_left set_insert ds s -> d ∈ s \/ d ∈ ds) as H.
  { induction ds as [|e ds IH]; intros s; cbn [fold_left]; [by left|]. intros [Hs|Hd]%IH; [|right; by right].
    unfold set_insert in Hs. destruct (set_contains s e); [by left|].
    apply elem_of_app in Hs as [Hs| ->%list_elem_of_singleton]; [by left|right; left]. }
  intros [H'%not_elem_of_nil|H']%H; done.
Qed.
Lemma set_from_iter_has items ds d :
  Forall2 literal_of items ds -> d ∈ ds -> d ∈ set_from_iter ds.
Proof using VL.
  intros Hitems Hd. assert (set_contains (set_from_iter ds) d = true) as Hc.
  { rewrite ScanSpec.set_contains_from_iter. apply existsb_exists. exists d. split; [by apply list_elem_of_In|].
    apply ProjectSpec.datum_eqb_refl. }
  apply existsb_exists in Hc as (d' & Hd' & He). apply list_elem_of_In in Hd'. pose proof (set_from_iter_subset _ _ Hd') as Hin.
  apply list_elem_of_lookup in Hd as [i Hi]. apply list_elem_of_lookup in Hin as [j Hj].
  destruct (Forall2_lookup_r _ _ _ _ _ Hitems Hi) as (? & _ & s & _ & Hs & Hsd).
  destruct (Forall2_lookup_r _ _ _ _ _ Hitems Hj) as (? & _ & s' & _ & Hs' & Hsd').
  by rewrite (literal_equal s s' d d').
Qed.
Lemma mapR_image {A B} (f : A -> result B) l l' y : mapR f l = Ok l' -> y ∈ l' -> exists x, x ∈ l /\ f x = Ok y.
Proof using Type.
  intros H%mapR_Ok Hy. apply list_elem_of_lookup in Hy as [i Hi]. destruct (Forall2_lookup_r _ _ _ _ _ H Hi) as (x & Hx & Hf).
  exists x. split; [by eapply list_elem_of_lookup_2|done].
Qed.
Lemma mapR_maps {A B} (f : A -> result B) l l' x : mapR f l = Ok l' -> x ∈ l -> exists y, y ∈ l' /\ f x = Ok y.
Proof using Type.
  intros H%mapR_Ok Hx. apply list_elem_of_lookup in Hx as [i Hi]. destruct (Forall2_lookup_l _ _ _ _ _ H Hi) as (y & Hy & Hf).
  exists y. split; [by eapply list_elem_of_lookup_2|done].
Qed.
(** What a set leaf is bound to: a test of membership, false on null. *)
Lemma bind_set_denote t ds ds' :
  mapR (fun l => datum_to l (field_type (ref_field t))) ds = Ok ds' ->
  exists b b', bind_set PredicateOperator.In t ds = Ok b /\ bind_set PredicateOperator.NotIn t ds = Ok b'
    /\ denote value b = Some (match value t with Some x => set_contains ds' x | None => false end)
    /\ denote value b' = Some (negb (match value t with Some x => set_contains ds' x | None => false end)).
Proof using VL.
  intros H. unfold bind_set. rewrite H. cbn [mbind result_bind].
  assert (forall x, set_contains ds' x = set_contains (set_from_iter ds') x) as Hs
    by (intros x; by rewrite ScanSpec.set_contains_from_iter).
  destruct (set_from_iter ds') as [|l [|l' ls]]; eexists _, _; (split; [reflexivity|split; [reflexivity|]]);
    cbn [denote holds_binary holds_set]; destruct (value t) as [x|]; try done; rewrite Hs; cbn [set_contains existsb];
    by rewrite ?orb_false_r.
Qed.
Lemma in_says c items ds negated :
  Forall2 literal_of items ds ->
  says (truth (x_in_list (x_column c) items negated))
    (if negated then ref_is_not_in (mkReference c) ds else ref_is_in (mkReference c) ds).
Proof using VL SL Hrow.
  intros Hitems.
  assert (forall t ds' ans, bind_reference (mkReference c) schema cs = Ok t ->
    mapR (fun l => datum_to l (field_type (ref_field t))) (set_from_iter ds) = Ok ds' ->
    truth (x_in_list (x_column c) items false) = Some ans ->
    match value t with Some x => set_contains ds' x | None => false end = ans) as H.
  { intros t ds' ans Ht Hm Hans. pose proof (truth_in (SqlLaws := SL) (x_column c) items) as Hin. rewrite Hans in Hin.
    assert (forall s d d' b, scalar_ok s = true -> scalar_value_to_datum s = Some d ->
      datum_to d (field_type (ref_field t)) = Ok d' -> truth (x_binary (x_column c) OpEq (x_literal s)) = Some b ->
      exists x, value t = Some x /\ datum_eqb x d' = b) as Hone.
    { intros s d d' b Hs Hd Hd' Hb. apply truth_compare in Hb as (v & w & o & Hv & Hw & Ho & Htest); [|done].
      rewrite (cell_bound _ _ Ht) in Hv. destruct (value t) as [x|] eqn:Hx; [|done]. cbn in Hv.
      destruct (rf_typed _ _ _ Hrow _ _ _ Ht Hx) as [Hty Hwf]. rewrite Hty in Hd'.
      destruct (literal_bound _ _ _ _ _ _ _ Hv Hw Ho Hs Hwf Hd Hd') as [He _]. exists x. split; [done|]. rewrite He.
      cbn in Htest. destruct o; congruence. }
    destruct ans.
    - destruct Hin as (item & Hi & Heq). apply list_elem_of_lookup in Hi as [i Hi].
      destruct (Forall2_lookup_l _ _ _ _ _ Hitems Hi) as (d & Hd & s & -> & Hs & Hsd).
      pose proof (set_from_iter_has _ _ _ Hitems (list_elem_of_lookup_2 _ _ _ Hd)) as Hset.
      destruct (mapR_maps _ _ _ _ Hm Hset) as (d' & Hd' & Hto). destruct (Hone s d d' true) as (x & -> & Hx); try done.
      apply existsb_exists. exists d'. split; [by apply list_elem_of_In|done].
    - destruct (value t) as [x|] eqn:Hx; [|done]. apply not_true_iff_false. intros Hc.
      apply existsb_exists in Hc as (d' & Hd' & He). apply list_elem_of_In in Hd'.
      destruct (mapR_image _ _ _ _ Hm Hd') as (d & Hd & Hto). apply set_from_iter_subset, list_elem_of_lookup in Hd as [i Hi].
      destruct (Forall2_lookup_r _ _ _ _ _ Hitems Hi) as (item & Hitem & s & -> & Hs & Hsd).
      destruct (Hone s d d' false Hs Hsd Hto) as (x' & [= <-] & Hf); [|congruence].
      apply Hin. by eapply list_elem_of_lookup_2. }
  intros b Hb ans Hans. assert (exists op, (if negated then ref_is_not_in (mkReference c) ds else ref_is_in (mkReference c) ds)
    = SetP op (mkReference c) (set_from_iter ds) /\ op = if negated then PredicateOperator.NotIn else PredicateOperator.In)
    as (op & Hp & Hop) by (destruct negated; by eexists).
  rewrite Hp in Hb. cbn [bind] in Hb. apply bind_Ok in Hb as (t & Ht & Hb). pose proof Hb as Hm. unfold bind_set in Hm.
  apply bind_Ok in Hm as (ds' & Hm & _). destruct (bind_set_denote t _ _ Hm) as (b1 & b2 & Hb1 & Hb2 & E1 & E2).
  destruct negated; subst op.
  - rewrite Hb2 in Hb. injection Hb as <-. rewrite E2. rewrite (truth_not_in (SqlLaws := SL)) in Hans.
    destruct (truth (x_in_list (x_column c) items false)) as [a|] eqn:Ea; [|done]. injection Hans as <-. by rewrite (H t ds' a).
  - rewrite Hb1 in Hb. injection Hb as <-. rewrite E1. by rewrite (H t ds' ans).
Qed.

(** Columns that are conditions. *)
Lemma column_says c ans b' : truth (x_column c) = Some ans -> says (Some (Bool.eqb ans b')) (column_truth (mkReference c) b').
Proof using SL Hrow.
  intros H%truth_column b Hb x [= <-]. unfold column_truth in Hb. cbn [bind] in Hb. apply bind_Ok in Hb as (t & Ht & Hb).
  rewrite (cell_bound _ _ Ht) in H. destruct (value t) as [x|] eqn:Hx; [|done]. cbn in H.
  destruct (rf_typed _ _ _ Hrow _ _ _ Ht Hx) as [Hty _].
  destruct x as [[] []]; cbn in H; try discriminate H; injection H as ->. unfold bind_binary in Hb. rewrite Hty in Hb.
  cbn in Hb. injection Hb as <-. cbn. rewrite Hx. by destruct ans, b'.
Qed.
Lemma column_true c : implied schema cs value (truth (x_column c)) (column_truth (mkReference c) true).
Proof using SL Hrow. intros b Hb Ht. by apply (column_says c true true Ht b Hb). Qed.
Lemma not_column_says c : says (kleene_not (truth (x_column c))) (column_truth (mkReference c) false).
Proof using SL Hrow.
  intros b Hb x Hx. destruct (truth (x_column c)) as [ans|] eqn:Ea; [|done]. injection Hx as <-.
  apply (column_says c ans false Ea b Hb). by destruct ans.
Qed.
Lemma null_says c :
  says (truth (x_is_null (x_column c))) (Unary PredicateOperator.IsNull (mkReference c))
  /\ says (truth (x_is_not_null (x_column c))) (Unary PredicateOperator.NotNull (mkReference c)).
Proof using SL Hrow.
  split; intros b Hb x Hx; cbn [bind] in Hb; apply bind_Ok in Hb as (t & Ht & Hb); cbn in Hb; injection Hb as <-.
  - rewrite (truth_is_null (SqlLaws := SL)), (cell_bound _ _ Ht) in Hx. injection Hx as <-.
    destruct (field_required (ref_field t)) eqn:Er; [|done]. cbn.
    by rewrite bool_decide_eq_true_2 by by eapply rf_required.
  - rewrite (truth_is_not_null (SqlLaws := SL)), (cell_bound _ _ Ht) in Hx. injection Hx as <-.
    destruct (field_required (ref_field t)) eqn:Er; [|done]. cbn.
    by rewrite bool_decide_eq_true_2 by by eapply rf_required.
Qed.

(** A binary expression whose sides are columns, literals or neither. *)
Definition atom (e : E) (t : TransformedResult) : Prop :=
  match t with TColumn r => e = x_column (ref_name r) | TLiteral d => literal_of e d | _ => True end.
Lemma binary_says (e1 e2 : E) t1 t2 op pop p :
  to_iceberg_operation op = TOperator pop -> atom e1 t1 -> atom e2 t2 ->
  to_iceberg_binary_predicate t1 t2 pop = Ok (TPredicate p) -> says (truth (x_binary e1 op e2)) p.
Proof using VL SL Hrow.
  intros Hop H1 H2 H. destruct t1 as [p1|r1|d1|], t2 as [p2|r2|d2|]; cbn in H; try done.
  - injection H as <-. cbn in H1, H2. subst e1. destruct H2 as (s & -> & Hs & Hd). destruct r1 as [c]. by apply compare_says.
  - destruct (reverse_predicate_operator pop) as [pop'|] eqn:Er; [|done]. injection H as <-. cbn in H1, H2. subst e2.
    destruct H1 as (s & -> & Hs & Hd). destruct r2 as [c]. by eapply compare_swapped_says.
Qed.
End atoms.

(** *** Logical expressions *)

Section logical.
Context {V : ValueLib} {VL : ValueLibLaws V} (Date64 : DataType).
Abbreviation convert := (to_iceberg_predicate Date64).

(** Without casts, other than those to dates, and without escapes in patterns; literals that hold
    what their types hold, with no zero or NaN among floats. *)
Fixpoint plain (e : Expr) : bool :=
  match e with
  | EBinary l _ r => plain l && plain r
  | ENot e | EIsNull e | EIsNotNull e => plain e
  | EInList e items _ => plain e && forallb plain items
  | ECast _ ty => bool_decide (ty = Arrow.Date32) || bool_decide (ty = Date64)
  | ELike _ e pattern _ _ =>
      plain e && plain pattern
      && match pattern with ELiteral (SUtf8 (Some p)) | ELiteral (SLargeUtf8 (Some p)) => escape_free p | _ => true end
  | EScalarFunction _ args => forallb plain args
  | ELiteral s => scalar_ok s
  | EColumn _ | EOther _ => true
  end.
(** The conversion loses no side of a conjunction. *)
Definition is_predicate (r : result TransformedResult) : bool :=
  match r with Ok (TPredicate _) => true | _ => false end.
Fixpoint exact (e : Expr) : bool :=
  match e with
  | EBinary l OpAnd r => exact l && exact r && is_predicate (convert l) && is_predicate (convert r)
  | EBinary l OpOr r => exact l && exact r
  | ENot e => exact e
  | _ => true
  end.
(** What is under a negation is converted exactly. *)
Fixpoint negations_exact (e : Expr) : bool :=
  match e with
  | EBinary l (OpAnd | OpOr) r => negations_exact l && negations_exact r
  | ENot e => exact e
  | _ => true
  end.

(** The conversion never panics. *)
Lemma convert_nested_ind (P : Expr -> Prop) :
  (forall l op r, P l -> P r -> P (EBinary l op r)) -> (forall e, P e -> P (ENot e)) ->
  (forall c, P (EColumn c)) -> (forall s, P (ELiteral s)) ->
  (forall e items n, P e -> Forall P items -> P (EInList e items n)) ->
  (forall e, P e -> P (EIsNull e)) -> (forall e, P e -> P (EIsNotNull e)) -> (forall e ty, P e -> P (ECast e ty)) ->
  (forall n e p esc ci, P e -> P p -> P (ELike n e p esc ci)) ->
  (forall f args, Forall P args -> P (EScalarFunction f args)) -> (forall n, P (EOther n)) -> forall e, P e.
Proof.
  intros Hb Hn Hc Hl Hi Hnu Hnn Hca Hli Hf Ho. fix IH 1.
  assert (forall es, Forall P es) as IHs by (fix IHl 1; intros [|e es]; constructor; [apply IH|apply IHl]).
  intros [| | | | | | | | | |]; [apply Hb|apply Hn|apply Hc|apply Hl|apply Hi|apply Hnu|apply Hnn|apply Hca|apply Hli
    |apply Hf|apply Ho]; auto.
Qed.
Lemma binary_total op pop l r :
  to_iceberg_operation op = TOperator pop -> exists t, to_iceberg_binary_predicate l r pop = Ok t.
Proof.
  intros Hop. destruct (swapped_operation op pop Hop) as (_ & pop' & Hr & _ & _).
  destruct l, r; cbn; rewrite ?Hr; cbn; eauto.
Qed.
Lemma convert_total e : exists t, convert e = Ok t.
Proof.
  induction e as [l op r (tl & Hl) (tr & Hr)|e (t & He)|c|s|e items n (t & He) Hi|e (t & He)|e (t & He)|e ty (t & He)
    |n e p esc ci (t & He) (tp & Hp)|f args Hargs|n] using convert_nested_ind; cbn [to_iceberg_predicate].
  - rewrite Hl, Hr. cbn. destruct (to_iceberg_operation op) as [pop| | |] eqn:Eop; eauto. by eapply binary_total.
  - rewrite He. cbn. eauto.
  - eauto.
  - eauto.
  - destruct (mapR_total convert items Hi) as (ts & Hts). rewrite Hts. cbn. destruct (literals ts); [|eauto].
    rewrite He. cbn. eauto.
  - rewrite He. cbn. eauto.
  - rewrite He. cbn. eauto.
  - destruct (_ || _); eauto.
  - destruct (_ || _); [eauto|]. rewrite Hp. cbn.
    destruct tp as [| |[ty [| | | | |s| | | | |]]|]; eauto. destruct (prefix_pattern s); [|eauto]. rewrite He. cbn. eauto.
  - destruct args as [|a [|]]; eauto. apply Forall_singleton in Hargs as (t & Ha). destruct (bool_decide _); [|eauto].
    rewrite Ha. cbn. eauto.
  - eauto.
Qed.

(** What columns and literals come from. *)
Lemma binary_not_atom l r pop t :
  to_iceberg_binary_predicate l r pop = Ok t -> match t with TColumn _ | TLiteral _ => False | _ => True end.
Proof.
  destruct l, r; cbn; try (by intros [= <-]). destruct (reverse_predicate_operator pop); [|done]. by intros [= <-].
Qed.
Lemma convert_atom e t : plain e = true -> convert e = Ok t -> atom (X := logical_syntax) e t.
Proof.
  destruct e as [l op r|e|c|s|e items n|e|e|e ty|n e p esc ci|f args|n]; cbn [plain to_iceberg_predicate]; intros Hp H.
  - apply bind_Ok in H as (tl & _ & H). apply bind_Ok in H as (tr & _ & H).
    destruct (to_iceberg_operation op); [apply binary_not_atom in H; by destruct t|..]; injection H as <-; [| |done];
      by destruct tl, tr.
  - apply bind_Ok in H as (te & _ & H). injection H as <-. by destruct te.
  - by injection H as <-.
  - injection H as <-. destruct (scalar_value_to_datum s) as [d|] eqn:Ed; [|done]. by exists s.
  - apply bind_Ok in H as (ts & _ & H). destruct (literals ts); [|by injection H as <-].
    apply bind_Ok in H as (te & _ & H). injection H as <-. by destruct te.
  - apply bind_Ok in H as (te & _ & H). injection H as <-. by destruct te.
  - apply bind_Ok in H as (te & _ & H). injection H as <-. by destruct te.
  - rewrite Hp in H. by injection H as <-.
  - destruct (_ || _); [by injection H as <-|]. apply bind_Ok in H as (tp & _ & H).
    destruct tp as [| |[ty [| | | | |s| | | | |]]|]; try (by injection H as <-).
    destruct (prefix_pattern s); [|by injection H as <-]. apply bind_Ok in H as (te & _ & H). injection H as <-.
    by destruct te.
  - destruct args as [|a [|]]; try (by injection H as <-). destruct (bool_decide _); [|by injection H as <-].
    apply bind_Ok in H as (te & _ & H). injection H as <-. by destruct te.
  - by injection H as <-.
Qed.
Lemma convert_column e r : plain e = true -> convert e = Ok (TColumn r) -> e = EColumn (ref_name r).
Proof. intros Hp H. exact (convert_atom e _ Hp H). Qed.
Lemma literals_items items : forall ts ds,
  forallb plain items = true -> mapR convert items = Ok ts -> literals ts = Some ds ->
  Forall2 (literal_of (X := logical_syntax)) items ds.
Proof.
  induction items as [|item items IH]; intros ts ds Hp H Hl; cbn in H.
  - injection H as <-. injection Hl as <-. constructor.
  - apply andb_true_iff in Hp as [Hp Hps]. apply bind_Ok in H as (t & Ht & H). apply bind_Ok in H as (ts' & Hts & H).
    injection H as <-. cbn in Hl. destruct t as [| |d|]; try done.
    destruct (literals ts') as [ds'|] eqn:El; [|done]. injection Hl as <-.
    constructor; [exact (convert_atom _ _ Hp Ht)|by eapply IH].
Qed.

Context {LC : Lowercase} (schema : Schema) (cs : bool) (value : BoundReference -> option Datum)
        (Hrow : row_fits schema cs value).
Context (truth : Expr -> option bool) {LL : LogicalLaws truth (cell_of schema cs value)}.
Abbreviation says := (says schema cs value).
Abbreviation implied := (implied schema cs value).

Lemma isnan_says c : says (truth (EScalarFunction "isnan" [EColumn c])) (Unary PredicateOperator.IsNan (mkReference c)).
Proof using LL.
  intros b Hb ans Hans. cbn [bind] in Hb. apply bind_Ok in Hb as (t & Ht & Hb). cbn in Hb.
  destruct (is_floating_type _); [|done]. injection Hb as <-. apply truth_isnan in Hans as (x & Hx & <-).
  rewrite (cell_bound _ _ _ _ _ Ht) in Hx. cbn. by rewrite Hx.
Qed.
Lemma like_says c s pattern prefix negated :
  scalar_ok s = true -> scalar_value_to_datum s = Some (datum_string pattern) -> escape_free pattern = true ->
  prefix_pattern pattern = Some prefix ->
  says (truth (ELike negated (EColumn c) (ELiteral s) None false))
    (if negated then ref_not_starts_with (mkReference c) (datum_string prefix)
     else ref_starts_with (mkReference c) (datum_string prefix)).
Proof using LL Hrow.
  intros Hs Hd Hesc Hpre.
  assert (sql_of_scalar s = Some (QText pattern) /\ valid_str pattern = true) as [Hsql Hv].
  { destruct s as [[]|[]|[]|[]|[]|[]|[]|[]|[]|[]|[]|[]|[]|[] ?|[] ?|]; cbn in Hd; try discriminate Hd; injection Hd as <-; by split. }
  assert (forall t ans, bind_reference (mkReference c) schema cs = Ok t ->
    truth (ELike false (EColumn c) (ELiteral s) None false) = Some ans ->
    exists x, value t = Some x /\ literal_starts_with x (datum_string prefix) = ans
      /\ datum_to (datum_string prefix) (field_type (ref_field t)) = Ok (datum_string prefix)) as H.
  { intros t ans Ht Hans. apply (truth_like (LogicalLaws := LL)) with (pattern := pattern) in Hans as (text & Hx & <-); try done.
    rewrite (cell_bound _ _ _ _ _ Ht) in Hx. destruct (value t) as [x|] eqn:Ev; [|done]. cbn in Hx.
    destruct (rf_typed _ _ _ Hrow _ _ _ Ht Ev) as [Hty Hwf]. exists x. split; [done|]. rewrite Hty.
    destruct x as [[] []]; cbn in Hx; try discriminate Hx; injection Hx as ->.
    unfold DatumOrder.datum_wf in Hwf. cbn in Hwf. unfold literal_starts_with. cbn.
    split; [by apply prefix_is_like|done]. }
  intros b Hb ans Hans. destruct negated; cbn [bind ref_not_starts_with ref_starts_with] in Hb;
    apply bind_Ok in Hb as (t & Ht & Hb); unfold bind_binary in Hb; apply bind_Ok in Hb as (d' & Hd' & Hb).
  - rewrite (truth_not_like (LogicalLaws := LL)) in Hans.
    destruct (truth (ELike false (EColumn c) (ELiteral s) None false)) as [a|] eqn:Ea; [|done]. injection Hans as <-.
    destruct (H t a Ht eq_refl) as (x & Hx & Hst & Hto). rewrite Hto in Hd'. injection Hd' as <-. injection Hb as <-.
    cbn [denote holds_binary]. by rewrite Hx, Hst.
  - destruct (H t ans Ht Hans) as (x & Hx & Hst & Hto). rewrite Hto in Hd'. injection Hd' as <-. injection Hb as <-.
    cbn [denote holds_binary]. by rewrite Hx, Hst.
Qed.

(** Leaves: everything but connectives. *)
Lemma leaf_says e p :
  plain e = true -> convert e = Ok (TPredicate p) ->
  match e with EBinary _ (OpAnd | OpOr) _ | ENot _ => True | _ => says (truth e) p end.
Proof using VL LL Hrow.
  destruct e as [l op r|e|c|s|e items n|e|e|e ty|n e pat esc ci|f args|n]; cbn [plain to_iceberg_predicate]; intros Hp H;
    try done.
  - apply andb_true_iff in Hp as [Hl Hr]. apply bind_Ok in H as (tl & Htl & H). apply bind_Ok in H as (tr & Htr & H).
    assert (forall pop, to_iceberg_operation op = TOperator pop ->
      to_iceberg_binary_predicate tl tr pop = Ok (TPredicate p) -> says (truth (EBinary l op r)) p) as Hb.
    { intros pop Hop Hb. by apply (binary_says (X := logical_syntax) schema cs value Hrow truth l r tl tr op pop p Hop);
        [apply convert_atom|apply convert_atom|]. }
    destruct op; cbn in H; try done; by eapply Hb.
  - by destruct (scalar_value_to_datum s).
  - apply andb_true_iff in Hp as [He Hi]. apply bind_Ok in H as (ts & Hts & H).
    destruct (literals ts) as [ds|] eqn:El; [|done]. apply bind_Ok in H as (te & Hte & H). destruct te as [|[c]| |]; try done.
    injection H as <-. apply convert_column in Hte as ->; [|done].
    apply (in_says (X := logical_syntax) schema cs value Hrow truth c items ds n). by eapply literals_items.
  - apply bind_Ok in H as (te & Hte & H). destruct te as [|[c]| |]; try done. injection H as <-.
    apply convert_column in Hte as ->; [|done]. apply (null_says (X := logical_syntax) schema cs value Hrow truth c).
  - apply bind_Ok in H as (te & Hte & H). destruct te as [|[c]| |]; try done. injection H as <-.
    apply convert_column in Hte as ->; [|done]. apply (null_says (X := logical_syntax) schema cs value Hrow truth c).
  - by rewrite Hp in H.
  - destruct esc; [done|]. destruct ci; [done|]. cbn in H. apply bind_Ok in H as (tp & Htp & H).
    apply andb_true_iff in Hp as [Hp Hpat]. apply andb_true_iff in Hp as [He Hpl].
    destruct tp as [| |[ty [| | | | |s| | | | |]]|]; try done.
    destruct (prefix_pattern s) as [prefix|] eqn:Epre; [|done].
    apply bind_Ok in H as (te & Hte & H). destruct te as [|[c]| |]; try done. injection H as <-.
    apply convert_column in Hte as ->; [|done].
    destruct (convert_atom pat _ Hpl Htp) as (sc & -> & Hok & Hsc).
    assert (scalar_value_to_datum sc = Some (datum_string s) /\ escape_free s = true) as [Hs Hesc].
    { destruct sc as [[]|[]|[]|[]|[]|[]|[]|[]|[]|[]|[]|[]|[]|[] ?|[] ?|]; cbn in Hsc; try done; injection Hsc as <- <-;
        by split. }
    by eapply like_says.
  - destruct args as [|a [|]]; try done. destruct (bool_decide_reflect (f = "isnan"%string)) as [->|]; [|done].
    apply bind_Ok in H as (te & Hte & H). destruct te as [|[c]| |]; try done. injection H as <-.
    cbn in Hp. rewrite andb_true_r in Hp. apply convert_column in Hte as ->; [|done]. apply isnan_says.
Qed.

Lemma convert_side e t : convert e = Ok t -> is_predicate (convert e) = true -> exists p, t = TPredicate p.
Proof using Type. intros ->. destruct t; cbn; try done. eauto. Qed.
Lemma convert_binary l op r tl tr :
  convert l = Ok tl -> convert r = Ok tr ->
  convert (EBinary l op r)
  = match to_iceberg_operation op with
    | TOperator op => to_iceberg_binary_predicate tl tr op
    | TAnd => Ok (to_iceberg_and_predicate tl tr)
    | TOr => Ok (to_iceberg_or_predicate tl tr)
    | OpNotTransformed => Ok NotTransformed
    end.
Proof using Type. intros Hl Hr. cbn. by rewrite Hl, Hr. Qed.

(** An exact conversion says what the expression says, when that is known. *)
Lemma exact_says e : forall p,
  plain e = true -> exact e = true -> convert e = Ok (TPredicate p) -> says (truth e) p.
Proof using VL LL Hrow.
  induction e as [l IHl op r IHr|e IH| | | | | | | | |]; intros p Hp He H;
    try (exact (leaf_says _ p Hp H)).
  - destruct (convert_total l) as (tl & Hl), (convert_total r) as (tr & Hr). pose proof (convert_binary l op r tl tr Hl Hr) as Hc.
    destruct op; try (exact (leaf_says _ p Hp H)); rewrite Hc in H.
    + cbn [exact] in He. rewrite !andb_true_iff in He. destruct He as [[[Hel Her] Hsl] Hsr].
      destruct (convert_side l tl Hl Hsl) as (pl & ->), (convert_side r tr Hr Hsr) as (pr & ->).
      cbn in Hp, H. apply andb_true_iff in Hp as [Hpl Hpr]. injection H as <-.
      rewrite (truth_and (X := logical_syntax) (truth := truth)). apply says_and; auto.
    + cbn in Hp, He, H. apply andb_true_iff in Hp as [Hpl Hpr], He as [Hel Her].
      destruct tl as [pl| | |], tr as [pr| | |]; try done. injection H as <-.
      rewrite (truth_or (X := logical_syntax) (truth := truth)). apply says_or; auto.
  - cbn in Hp, He, H. destruct (convert_total e) as (t & Ht). rewrite Ht in H. cbn in H.
    rewrite (truth_not (X := logical_syntax) (truth := truth)). destruct t as [q|[c]| |]; try done; injection H as <-.
    + apply says_not. auto.
    + apply convert_column in Ht as ->; [|done]. apply (not_column_says (X := logical_syntax) schema cs value Hrow truth c).
Qed.

(** A conversion that is exact under negations is implied by the expression. *)
Lemma convert_sound e : forall p,
  plain e = true -> negations_exact e = true -> convert e = Ok (TPredicate p) -> implied (truth e) p.
Proof using VL LL Hrow.
  induction e as [l IHl op r IHr|e IH| | | | | | | | |]; intros p Hp Hn H;
    try (apply says_implied; exact (leaf_says _ p Hp H)).
  - destruct (convert_total l) as (tl & Hl), (convert_total r) as (tr & Hr). pose proof (convert_binary l op r tl tr Hl Hr) as Hc.
    destruct op; try (apply says_implied; exact (leaf_says _ p Hp H)); rewrite Hc in H; cbn in Hp, Hn, H;
      apply andb_true_iff in Hp as [Hpl Hpr], Hn as [Hnl Hnr].
    + rewrite (truth_and (X := logical_syntax) (truth := truth)).
      destruct tl as [pl| | |], tr as [pr| | |]; try done; injection H as <-; try (by apply implied_and; auto);
        intros b Hb [Htl Htr]%kleene_and_Some_true; eauto.
      all: first [by apply (IHl _ Hpl Hnl Hl b Hb)|by apply (IHr _ Hpr Hnr Hr b Hb)].
    + rewrite (truth_or (X := logical_syntax) (truth := truth)).
      destruct tl as [pl| | |], tr as [pr| | |]; try done; injection H as <-. apply implied_or; auto.
  - cbn in Hn. apply says_implied. by apply exact_says.
Qed.

Lemma reduce_and_true predicates p :
  reduce_and predicates = Some p -> Forall (fun q => implied (Some true) q) predicates -> implied (Some true) p.
Proof using Type.
  destruct predicates as [|q predicates]; [done|]. intros [= <-] H. apply Forall_cons_1 in H as [Hq H].
  revert q Hq. induction H as [|q' predicates Hq' _ IH]; intros q Hq; [done|]. cbn [foldl]. apply IH.
  by apply (implied_and schema cs value (Some true) (Some true)).
Qed.

Lemma filter_sound e p :
  plain e = true -> negations_exact e = true -> convert_filter_to_predicate Date64 e = Ok (Some p) -> implied (truth e) p.
Proof using VL LL Hrow.
  intros Hp Hn H. unfold convert_filter_to_predicate in H. destruct (convert_total e) as (t & Hc). rewrite Hc in H.
  cbn in H. injection H as H. destruct t as [q|[c]| |]; try done; injection H as <-; [by eapply convert_sound|].
  apply convert_column in Hc as ->; [|done]. apply (column_true (X := logical_syntax) schema cs value Hrow truth c).
Qed.
End logical.

(** C11 The filters of a query are converted without a panic.  A row of which all filters are true
    satisfies the converted predicate, when that binds to the schema (a comparison with a
    32-bit float does not): if the filters have no casts, other than those to dates that are
    not converted, no escape characters in patterns, and no zero or NaN among their floats,
    and conjunctions under negations are converted whole; filters and row have the types of
    the schema, and truth is SQL's, with floats in total order. *)
Theorem engine_filters_sound {V : ValueLib} {VL : ValueLibLaws V} {LC : Lowercase} Date64 schema cs value truth
    {LL : LogicalLaws truth (cell_of schema cs value)} filters :
  row_fits schema cs value ->
  exists converted, convert_filters_to_predicate Date64 filters = Ok converted /\
    (forall p b, converted = Some p -> bind p schema cs = Ok b ->
     Forall (fun e => plain Date64 e = true /\ negations_exact Date64 e = true /\ truth e = Some true) filters ->
     denote value b = Some true).
Proof.
  intros Hrow. destruct (mapR_total (convert_filter_to_predicate Date64) filters) as (ps & Hps).
  { apply Forall_forall. intros e _. destruct (convert_total Date64 e) as (t & Ht).
    exists (filter_predicate t). unfold convert_filter_to_predicate. by rewrite Ht. }
  exists (reduce_and (omap id ps)). split; [unfold convert_filters_to_predicate; by rewrite Hps|].
  intros p b Hp Hb Hf. refine (reduce_and_true schema cs value _ _ Hp _ b Hb eq_refl). apply mapR_Ok in Hps.
  clear Hp. induction Hps as [|e q filters ps Hq _ IH]; [constructor|]. apply Forall_cons_1 in Hf as [(H1 & H2 & H3) Hf].
  cbn. destruct q as [q|]; cbn; [constructor|]; [|auto..].
  rewrite <- H3. by eapply filter_sound.
Qed.

(** *** Physical expressions *)

Section physical_theory.
Context {V : ValueLib} {VL : ValueLibLaws V}.
Abbreviation convert := to_iceberg_from_physical.

(** The literals hold what their types hold, with no zero or NaN among floats. *)
Fixpoint physical_plain (e : PhysicalExpr) : bool :=
  match e with
  | PBinary l _ r => physical_plain l && physical_plain r
  | PNot e | PIsNull e | PIsNotNull e => physical_plain e
  | PLiteral s => scalar_ok s
  | PInList e items _ => physical_plain e && forallb physical_plain items
  | _ => true
  end.
Definition is_physical_predicate (t : TransformedResult) : bool := match t with TPredicate _ => true | _ => false end.
Fixpoint physical_exact (e : PhysicalExpr) : bool :=
  match e with
  | PBinary l OpAnd r =>
      physical_exact l && physical_exact r && is_physical_predicate (convert l) && is_physical_predicate (convert r)
  | PBinary l OpOr r => physical_exact l && physical_exact r
  | PNot e => physical_exact e
  | _ => true
  end.
Fixpoint physical_negations_exact (e : PhysicalExpr) : bool :=
  match e with
  | PBinary l (OpAnd | OpOr) r => physical_negations_exact l && physical_negations_exact r
  | PNot e => physical_exact e
  | _ => true
  end.

(** The physical conversion of comparisons is the logical one, which does not panic. *)
Lemma to_binary_eq op pop l r :
  map_operator op = TOperator pop -> to_iceberg_binary_predicate l r pop = Ok (to_binary l r pop).
Proof.
  intros Hop. destruct (swapped_operation op pop Hop) as (_ & pop' & Hr & Hr' & _).
  destruct l, r; cbn; try done. by rewrite Hr, Hr'.
Qed.
Lemma physical_atom e : physical_plain e = true -> atom (X := physical_syntax) e (convert e).
Proof.
  destruct e as [l op r|e|c|s|e items n|e|e|n|cur|n]; cbn [to_iceberg_from_physical is_literal_true physical_plain]; intros Hp; try done.
  - destruct (map_operator op) as [pop| | |] eqn:Eop; [|by destruct (convert l), (convert r)..|done].
    pose proof (binary_not_atom (convert l) (convert r) pop _ (to_binary_eq op pop _ _ Eop)) as H.
    by destruct (to_binary _ _ _).
  - by destruct (convert e).
  - assert (atom (X := physical_syntax) (PLiteral s)
      match scalar_value_to_datum s with Some d => TLiteral d | None => NotTransformed end) as H.
    { destruct (scalar_value_to_datum s) as [d|] eqn:Ed; [|done]. by exists s. }
    by destruct s as [[[]|]|[]|[]|[]|[]|[]|[]|[]|[]|[]|[]|[]|[]|[] ?|[] ?|].
  - unfold in_list_to_predicate. destruct (item_datums items) as [[|]|]; try done. by destruct (convert e).
  - by destruct (convert e).
  - by destruct (convert e).
Qed.
Lemma physical_column e r : physical_plain e = true -> convert e = TColumn r -> e = PColumn (ref_name r).
Proof. intros Hp H. pose proof (physical_atom e Hp) as Ha. by rewrite H in Ha. Qed.
Lemma item_datums_items items : forall ds,
  forallb physical_plain items = true -> item_datums items = Some ds -> Forall2 (literal_of (X := physical_syntax)) items ds.
Proof.
  induction items as [|item items IH]; intros ds Hp H; cbn in H; [injection H as <-; constructor|].
  apply andb_true_iff in Hp as [H1 Hp].
  destruct item; try done. apply bind_Some in H as (d & Hd & H). apply bind_Some in H as (ds' & Hds & [= <-]).
  constructor; [by eexists|by apply IH].
Qed.

Context {LC : Lowercase} (schema : Schema) (cs : bool) (row : BoundReference -> option Datum)
        (Hrow : row_fits schema cs row).
Context (truth : PhysicalExpr -> option bool) {SL : SqlLaws truth (cell_of schema cs row)}.
Abbreviation says := (says schema cs row).
Abbreviation implied := (implied schema cs row).

Lemma physical_leaf_says e p :
  physical_plain e = true -> convert e = TPredicate p ->
  match e with PBinary _ (OpAnd | OpOr) _ | PNot _ => True | _ => says (truth e) p end.
Proof using VL SL Hrow.
  destruct e as [l op r|e|c|s|e items n|e|e|n|cur|n]; cbn [to_iceberg_from_physical is_literal_true physical_plain];
    intros Hp H; try done.
  - apply andb_true_iff in Hp as [Hl Hr].
    assert (forall pop, map_operator op = TOperator pop -> to_binary (convert l) (convert r) pop = TPredicate p ->
      says (truth (PBinary l op r)) p) as Hb.
    { intros pop Hop Hb. apply (binary_says (X := physical_syntax) schema cs row Hrow truth l r (convert l) (convert r) op pop p);
        [done|by apply physical_atom|by apply physical_atom|].
      by rewrite (to_binary_eq op pop) by done; rewrite Hb. }
    destruct op; cbn in H; try done; by eapply Hb.
  - by destruct s as [[[]|]|[]|[]|[]|[]|[]|[]|[]|[]|[]|[]|[]|[]|[] ?|[] ?|].
  - apply andb_true_iff in Hp as [He Hi].
    unfold in_list_to_predicate in H. destruct (item_datums items) as [[|d ds]|] eqn:Ei; try done.
    destruct (convert e) as [|[c]| |] eqn:Ee; try done. injection H as <-. apply physical_column in Ee as ->; [|done].
    apply (in_says (X := physical_syntax) schema cs row Hrow truth c items (d :: ds) n). by apply item_datums_items.
  - destruct (convert e) as [|[c]| |] eqn:Ee; try done. injection H as <-. apply physical_column in Ee as ->; [|done].
    apply (null_says (X := physical_syntax) schema cs row Hrow truth c).
  - destruct (convert e) as [|[c]| |] eqn:Ee; try done. injection H as <-. apply physical_column in Ee as ->; [|done].
    apply (null_says (X := physical_syntax) schema cs row Hrow truth c).
Qed.

Lemma physical_exact_says e : forall p,
  physical_plain e = true -> physical_exact e = true -> convert e = TPredicate p -> says (truth e) p.
Proof using VL SL Hrow.
  induction e as [l IHl op r IHr|e IH| | | | | | | |]; intros p Hp He H; try (exact (physical_leaf_says _ p Hp H)).
  - destruct op; try (exact (physical_leaf_says _ p Hp H)); cbn in Hp, He, H; apply andb_true_iff in Hp as [Hpl Hpr].
    + rewrite !andb_true_iff in He. destruct He as [[[Hel Her] Hsl] Hsr].
      destruct (convert l) as [pl| | |], (convert r) as [pr| | |]; try done. injection H as <-.
      rewrite (truth_and (X := physical_syntax) (truth := truth)). apply says_and; auto.
    + apply andb_true_iff in He as [Hel Her].
      destruct (convert l) as [pl| | |], (convert r) as [pr| | |]; try done. injection H as <-.
      rewrite (truth_or (X := physical_syntax) (truth := truth)). apply says_or; auto.
  - cbn in Hp, He, H. rewrite (truth_not (X := physical_syntax) (truth := truth)).
    destruct (convert e) as [q|[c]| |] eqn:Ee; try done; injection H as <-.
    + apply says_not. auto.
    + apply physical_column in Ee as ->; [|done]. apply (not_column_says (X := physical_syntax) schema cs row Hrow truth c).
Qed.

Lemma physical_sound e : forall p,
  physical_plain e = true -> physical_negations_exact e = true -> convert e = TPredicate p -> implied (truth e) p.
Proof using VL SL Hrow.
  induction e as [l IHl op r IHr|e IH| | | | | | | |]; intros p Hp Hn H;
    try (apply says_implied; exact (physical_leaf_says _ p Hp H)).
  - destruct op; try (apply says_implied; exact (physical_leaf_says _ p Hp H)); cbn in Hp, Hn, H;
      apply andb_true_iff in Hn as [Hnl Hnr], Hp as [Hpl Hpr].
    + rewrite (truth_and (X := physical_syntax) (truth := truth)).
      destruct (convert l) as [pl| | |], (convert r) as [pr| | |]; try done; injection H as <-; try (by apply implied_and; auto);
        intros b Hb [Htl Htr]%kleene_and_Some_true.
      all: first [by apply (IHl _ Hpl Hnl eq_refl b Hb)|by apply (IHr _ Hpr Hnr eq_refl b Hb)].
    + rewrite (truth_or (X := physical_syntax) (truth := truth)).
      destruct (convert l) as [pl| | |], (convert r) as [pr| | |]; try done; injection H as <-. apply implied_or; auto.
  - cbn in Hn. apply says_implied. by apply physical_exact_says.
Qed.

Lemma extract_sound e :
  physical_plain e = true -> physical_negations_exact e = true ->
  Forall (fun p => implied (truth e) p) (extract_pushdown_predicates e).
Proof using VL SL Hrow.
  assert (forall e, physical_plain e = true -> physical_negations_exact e = true ->
    Forall (fun p => implied (truth e) p)
      (if is_literal_true e then [] else
         match convert e with TPredicate p => [p] | TColumn r => [column_truth r true] | _ => [] end)) as Hone.
  { clear e. intros e Hp Hn. destruct (is_literal_true e); [constructor|].
    destruct (convert e) as [p|[c]| |] eqn:Ee; [| |constructor..]; apply Forall_singleton.
    - by apply physical_sound.
    - apply physical_column in Ee as ->; [|done]. apply (column_true (X := physical_syntax) schema cs row Hrow truth c). }
  induction e as [l IHl op r IHr| | | | | | | | |]; intros Hp Hn; try (exact (Hone _ Hp Hn)).
  destruct op; try (exact (Hone _ Hp Hn)). cbn in Hp, Hn |- *. apply andb_true_iff in Hn as [Hnl Hnr], Hp as [Hpl Hpr].
  rewrite (truth_and (X := physical_syntax) (truth := truth)).
  apply Forall_app. split; [eapply Forall_impl; [by apply IHl|]|eapply Forall_impl; [by apply IHr|]];
    intros p H b Hb [Htl Htr]%kleene_and_Some_true; by apply (H b Hb).
Qed.
Lemma merge_one_sound parts : forall merged,
  Forall (fun p => implied (Some true) p) parts ->
  (forall p, merged = Some p -> implied (Some true) p) ->
  forall p, foldl merge_one merged parts = Some p -> implied (Some true) p.
Proof using Type.
  induction parts as [|q parts IH]; intros merged Hparts Hm p H; [by apply Hm|]. apply Forall_cons_1 in Hparts as [Hq Hparts].
  cbn [foldl] in H. apply (IH (merge_one merged q)); [done| |done]. intros p' [= <-].
  destruct merged as [e|]; [|done]. apply (implied_and schema cs row (Some true) (Some true)); [by apply Hm|done].
Qed.
End physical_theory.

(** C13 A row that satisfies the static predicate of a scan, and of which the physical filters
    pushed to it, as they are when it runs, are true, satisfies the two merged, when that
    binds to the schema; as long as the floats among the literals are no zero or NaN, and
    conjunctions under negations are converted whole.  Filters and row have the types of the
    schema, and truth is SQL's, with floats in total order. *)
Theorem merged_filters_sound {V : ValueLib} {VL : ValueLibLaws V} {LC : Lowercase} schema cs row truth
    {SL : SqlLaws truth (cell_of schema cs row)} filters static merged :
  row_fits schema cs row ->
  merge_iceberg_predicates static filters = Ok merged ->
  (forall p b, static = Some p -> bind p schema cs = Ok b -> denote row b = Some true) ->
  Forall (fun f => forall e, resolve_physical_expr f = Ok e ->
            physical_plain e = true /\ physical_negations_exact e = true /\ truth e = Some true) filters ->
  forall p b, merged = Some p -> bind p schema cs = Ok b -> denote row b = Some true.
Proof.
  intros Hrow H Hs Hf p b Hp Hb. assert (forall p, static = Some p -> implied schema cs row (Some true) p) as Hst.
  { intros q Hq c Hc _. by eapply Hs. }
  clear Hs. enough (implied schema cs row (Some true) p) as Hi by by apply Hi.
  revert static H Hst Hf Hp. induction filters as [|f filters IH]; intros static H Hst Hf Hp; cbn in H.
  - injection H as <-. by apply Hst.
  - apply Forall_cons_1 in Hf as [Hf Hfs]. apply bind_Ok in H as (parts & Hparts & H).
    unfold convert_physical_expr_to_predicates in Hparts. apply bind_Ok in Hparts as (e & He & Hparts).
    injection Hparts as <-. destruct (Hf e He) as (Hpl & Hn & Ht).
    apply (IH _ H); [|done|done]. intros q Hq.
    apply (merge_one_sound schema cs row (extract_pushdown_predicates e) static); [|done|done].
    rewrite <- Ht. by apply (extract_sound schema cs row Hrow truth).
Qed.

(** ** A concrete engine, and examples *)

Section engine.
Context (cell : string -> option Datum).

(** Comparisons of columns with literals, unknown on null and between kinds. *)
Definition engine_compare (l : Expr) (op : Operator) (r : Expr) : option bool :=
  let column c op s :=
    v ← cell c ≫= sql_of_datum; w ← sql_of_scalar s; o ← sql_cmp v w; sql_test op o in
  match l, r with
  | EColumn c, ELiteral s => column c op s
  | ELiteral s, EColumn c => column c (swapped op) s
  | _, _ => None
  end.
Definition engine_like (e pattern : Expr) : option bool :=
  match e, pattern with
  | EColumn c, ELiteral s =>
      match cell c ≫= sql_of_datum, sql_of_scalar s with
      | Some (QText text), Some (QText pattern) => Some (like pattern text)
      | _, _ => None
      end
  | _, _ => None
  end.
Definition engine_null (e : Expr) : option bool :=
  match e with EColumn c => Some (negb (bool_decide (is_Some (cell c)))) | _ => None end.
Fixpoint engine_truth (e : Expr) : option bool :=
  match e with
  | EBinary l OpAnd r => kleene_and (engine_truth l) (engine_truth r)
  | EBinary l OpOr r => kleene_or (engine_truth l) (engine_truth r)
  | EBinary l op r => engine_compare l op r
  | ENot e => kleene_not (engine_truth e)
  | EColumn c => match cell c ≫= sql_of_datum with Some (QBool b) => Some b | _ => None end
  | EInList e items negated =>
      let is_in := foldr kleene_or (Some false) (engine_compare e OpEq <$> items) in
      if negated then kleene_not is_in else is_in
  | EIsNull e => engine_null e
  | EIsNotNull e => kleene_not (engine_null e)
  | ELike negated e pattern None false => if negated then kleene_not (engine_like e pattern) else engine_like e pattern
  | EScalarFunction "isnan" [EColumn c] => Values.is_nan <$> cell c
  | EOther n => Some (n =? 0)%nat
  | _ => None
  end.

Lemma kleene_or_list l :
  match foldr kleene_or (Some false) l with
  | Some true => Some true ∈ l
  | Some false => forall x, x ∈ l -> x = Some false
  | None => True
  end.
Proof.
  induction l as [|a l IH]; [by intros x ?%not_elem_of_nil|]. cbn [foldr].
  destruct a as [[]|], (foldr kleene_or (Some false) l) as [[]|]; cbn; try done; try (by constructor).
  intros x [->|Hx]%elem_of_cons; auto.
Qed.

#[local] Instance engine_laws : LogicalLaws engine_truth cell.
Proof.
  split; [split|..]; try done.
  - intros l op r Hop. destruct op; try done; cbn; unfold engine_compare; by destruct l, r.
  - intros e items. cbn. pose proof (kleene_or_list (engine_compare e OpEq <$> items)) as H.
    destruct (foldr kleene_or (Some false) _) as [[]|]; [| |done].
    + apply list_elem_of_fmap in H as (item & Hi & Hin). by exists item.
    + intros item Hin. apply H. apply list_elem_of_fmap. by exists item.
  - intros c. cbn. by destruct (bool_decide _).
  - intros c b. cbn. destruct (cell c ≫= sql_of_datum) as [[]|]; try done. by intros [= <-].
  - intros c op s b Hop H. assert (engine_compare (EColumn c) op (ELiteral s) = Some b) as H' by (by destruct op).
    unfold engine_compare in H'. apply bind_Some in H' as (v & Hv & H'). apply bind_Some in H' as (w & Hw & H').
    apply bind_Some in H' as (o & Ho & H'). by exists v, w, o.
  - intros c s pattern b Hs _ H. cbn in H. rewrite Hs in H. destruct (cell c ≫= sql_of_datum) as [[]|]; try done.
    injection H as <-. by eexists.
  - intros c b H. cbn in H. destruct (cell c) as [x|]; [|done]. injection H as <-. by exists x.
Qed.
End engine.

(** Physical expressions as logical ones. *)
Fixpoint logical_of (e : PhysicalExpr) : Expr :=
  match e with
  | PBinary l op r => EBinary (logical_of l) op (logical_of r)
  | PNot e => ENot (logical_of e)
  | PColumn c => EColumn c
  | PLiteral s => ELiteral s
  | PInList e items negated => EInList (logical_of e) (logical_of <$> items) negated
  | PIsNull e => EIsNull (logical_of e)
  | PIsNotNull e => EIsNotNull (logical_of e)
  | PDynamicFilter (Ok e) => logical_of e
  | PHashTableLookup n | POther n => EOther n
  | PDynamicFilter (Err _) => EOther 1
  end.
Lemma physical_laws (truth : Expr -> option bool) cell {SL : SqlLaws truth cell} : SqlLaws (truth ∘ logical_of) cell.
Proof.
  split.
  - intros l r. apply (truth_and (X := logical_syntax) (truth := truth)).
  - intros l r. apply (truth_or (X := logical_syntax) (truth := truth)).
  - intros e. apply (truth_not (X := logical_syntax) (truth := truth)).
  - intros l op r Hop. by apply (truth_swapped (X := logical_syntax) (truth := truth)).
  - intros e items. cbn. pose proof (truth_in (X := logical_syntax) (truth := truth) (logical_of e) (logical_of <$> items)) as H.
    cbn in H. destruct (truth _) as [[]|]; [| |done].
    + destruct H as (item & Hi & Ht). apply list_elem_of_fmap in Hi as (pitem & -> & Hi). by exists pitem.
    + intros item Hi. apply H. apply list_elem_of_fmap. by exists item.
  - intros e items. apply (truth_not_in (X := logical_syntax) (truth := truth)).
  - intros c. apply (truth_is_null (X := logical_syntax) (truth := truth)).
  - intros c. apply (truth_is_not_null (X := logical_syntax) (truth := truth)).
  - intros c b. apply (truth_column (X := logical_syntax) (truth := truth)).
  - intros c op s b. apply (truth_compare (X := logical_syntax) (truth := truth)).
Qed.

Section witnesses.
#[local] Existing Instance Concrete.concrete_values.
#[local] Existing Instance Concrete.concrete_values_laws.
#[local] Existing Instance Concrete.concrete_lowercase.

(** A row of two columns. *)
Definition ex_schema : Schema :=
  ok_value (mkSchema [] 0 0 ∅ [] ∅ ∅ ∅ ∅ ∅)
    (build (mkSchemaBuilder 0 [mkField 1 "a" false (TPrimitive PrimitiveType.Int); mkField 2 "s" false (TPrimitive PrimitiveType.String)]
              [] ∅ None)).
Definition ex_row (t : BoundReference) : option Datum :=
  if field_id (ref_field t) =? 1 then Some (datum_int 5)
  else if field_id (ref_field t) =? 2 then Some (datum_string (lit "test")) else None.
Lemma ex_row_fits : row_fits ex_schema true ex_row.
Proof.
  assert (forall c t, bind_reference (mkReference c) ex_schema true = Ok t -> c = "a"%string \/ c = "s"%string) as Hc.
  { intros c t Ht. unfold bind_reference in Ht. apply bind_Ok in Ht as (f & Hf & _). cbn [ref_name] in Hf.
    assert (is_Some (name_to_id ex_schema !! c)) as [id Hid].
    { unfold field_by_name in Hf. destruct (name_to_id ex_schema !! c); [by eexists|done]. }
    assert (name_to_id ex_schema = {["a"%string := 1; "s"%string := 2]}) as E by (vm_compute; reflexivity).
    rewrite E in Hid. apply lookup_insert_Some in Hid as [[<- _]|[_ [<- _]%lookup_singleton_Some]]; auto. }
  split.
  - intros c t x Ht Hx. destruct (Hc c t Ht) as [-> | ->]; vm_compute in Ht; injection Ht as <-; vm_compute in Hx; injection Hx as <-;
      by split; vm_compute.
  - intros c t Ht Hr. destruct (Hc c t Ht) as [-> | ->]; vm_compute in Ht; injection Ht as <-; by eexists.
Qed.
Definition ex_cell : string -> option Datum := cell_of ex_schema true ex_row.
Definition ex_truth : Expr -> option bool := engine_truth ex_cell.
Definition int_lit (n : Z) : Expr := ELiteral (SInt32 (Some n)).
Definition a_is (n : Z) : Expr := EBinary (EColumn "a") OpEq (int_lit n).
Definition ex_filters : list Expr :=
  [EBinary (int_lit 3) OpLt (EColumn "a");
   EBinary (ELike false (EColumn "s") (ELiteral (SUtf8 (Some (lit "te%")))) None false) OpAnd (EOther 0);
   ENot (EInList (EColumn "a") [int_lit 1; int_lit 2] false)].
Definition ex_predicate : Predicate :=
  ok_value AlwaysTrue (default AlwaysTrue <$> convert_filters_to_predicate Arrow.Null ex_filters).
Definition ex_bound : BoundPredicate := ok_value AlwaysTrue (bind ex_predicate ex_schema true).

Lemma engine_filters_sound_witness :
  ex_bound <> AlwaysTrue /\ denote ex_row ex_bound = Some true.
Proof.
  split; [by vm_compute|].
  destruct (engine_filters_sound Arrow.Null ex_schema true ex_row ex_truth (LL := engine_laws ex_cell) ex_filters ex_row_fits)
    as (converted & Hc & H).
  assert (converted = Some ex_predicate) as -> by (vm_compute in Hc |- *; congruence).
  apply (H ex_predicate ex_bound eq_refl); [apply ok_value_Ok; by vm_compute|].
  repeat (apply Forall_cons_2; [repeat split; by vm_compute|]). constructor.
Defined.

Definition ex_physical : list PhysicalExpr :=
  [PDynamicFilter (Ok (PBinary (PBinary (PColumn "a") OpGtEq (PLiteral (SInt32 (Some 4)))) OpAnd (PHashTableLookup 0)))].
Definition ex_merged : option Predicate := ok_value None (merge_iceberg_predicates None ex_physical).
Definition ex_merged_bound : BoundPredicate := ok_value AlwaysTrue (bind (default AlwaysTrue ex_merged) ex_schema true).
Lemma merged_filters_sound_witness :
  ex_merged_bound <> AlwaysTrue /\ denote ex_row ex_merged_bound = Some true.
Proof.
  split; [by vm_compute|].
  apply (merged_filters_sound ex_schema true ex_row (ex_truth ∘ logical_of)
    (SL := physical_laws ex_truth ex_cell (SL := logical_sql (LogicalLaws := engine_laws ex_cell))) ex_physical None ex_merged
    ex_row_fits) with (p := default AlwaysTrue ex_merged).
  - apply (ok_value_Ok None). by vm_compute.
  - done.
  - apply Forall_singleton. intros e [= <-]. by split_and!; vm_compute.
  - by vm_compute.
  - apply ok_value_Ok. by vm_compute.
Defined.

(** The conversion of [NOT (a = 5 AND f)] drops the condition that it cannot convert under the
    negation: a row with [a = 5] and [f] false passes the filter and not the predicate. *)
Definition negated_conjunction : Expr := ENot (EBinary (a_is 5) OpAnd (EOther 1)).
Definition negated_bound : BoundPredicate :=
  ok_value AlwaysTrue (bind (Not (Binary PredicateOperator.Eq (mkReference "a") (datum_int 5))) ex_schema true).
Theorem negated_conjunction_loses_row :
  ex_truth negated_conjunction = Some true
  /\ (default AlwaysTrue <$> convert_filters_to_predicate Arrow.Null [negated_conjunction])
     = Ok (Not (Binary PredicateOperator.Eq (mkReference "a") (datum_int 5)))
  /\ denote ex_row negated_bound = Some false.
Proof. split; [|split]; by vm_compute. Qed.
(** The engine tells the zeros of floats apart, and the table does not. *)
Theorem zeros_are_confused :
  sql_cmp (QReal (2 ^ 63)) (QReal 0) = Some Lt /\ sql_test OpNotEq Lt = Some true
  /\ holds_binary PredicateOperator.NotEq (Some (datum_double (2 ^ 63))) (datum_double 0) = Some false.
Proof. split; [|split]; by vm_compute. Qed.
End witnesses.

(** A cast, unless to a date, is ignored, whatever it does to the values. *)
Theorem cast_is_ignored {V : ValueLib} Date64 ty e op e' :
  ty <> Arrow.Date32 -> ty <> Date64 ->
  to_iceberg_predicate Date64 (EBinary (ECast e ty) op e') = to_iceberg_predicate Date64 (EBinary e op e').
Proof. intros H1 H2. cbn [to_iceberg_predicate]. by rewrite !bool_decide_false by done. Qed.
(** A comparison of a 32-bit float column with a literal of its type is converted to one with a
    64-bit literal, which does not bind: the scan fails. *)
Theorem float_filter_fails {V : ValueLib} {LC : Lowercase} Date64 schema cs c t op pop bits :
  bind_reference (mkReference c) schema cs = Ok t -> field_type (ref_field t) = TPrimitive PrimitiveType.Float ->
  to_iceberg_operation op = TOperator pop ->
  exists p, to_iceberg_predicate Date64 (EBinary (EColumn c) op (ELiteral (SFloat32 (Some bits)))) = Ok (TPredicate p)
    /\ bind p schema cs = Err (Error DataInvalid).
Proof.
  intros Ht Hty Hop. exists (Binary pop (mkReference c) (datum_double (f32_to_f64_bits bits))). split.
  - cbn. by rewrite Hop.
  - cbn [bind]. rewrite Ht. cbn [mbind result_bind]. unfold bind_binary. by rewrite Hty.
Qed.
