(* ===== verification/EngineScan.v ===== *)
(** * Scans and joins of the query engine (iceberg-datafusion, physical_plan)

    scan.rs, scan_statistics.rs, dim_key_bounds.rs, fk_bound_pushdown.rs,
    fact_filter_pushdown.rs, join_utils.rs and join_reorder.rs: the scan node with the filters
    it takes, and the rewriting of join plans, which reads the keys of a filtered dimension
    when the plan is made and bounds the fact tables by them.  Correctness: a limit is cut
    exactly, a bound keeps every fact row that has a key of the dimension, and rewriting
    changes nothing of a plan but predicates of large fact scans; what a scan claims to
    filter and where bounds are pushed are not always right. *)

From S2P Require Import Prelude Utf8 Numerals Values Expr ExprEval EnginePredicates.
From S2P Require Schema PartitionSpecs TableMetadata SnapshotSummary ScanTask FileGroups Concrete ScanSpec Binding.

(** ** Estimates of rows (scan_statistics.rs) *)

Definition parse_u64_prop (props : gmap string string) (key : string) : option Z :=
  value ← props !! key; parse_unsigned 64 (lit value).
Definition row_estimate (table : TableMetadata.TableMetadata) (snapshot_id : option Z) : result (option Z) :=
  let? snapshot :=
    match snapshot_id ≫= TableMetadata.snapshot_by_id table with
    | Some s => Ok (Some s)
    | None => TableMetadata.current_snapshot table
    end in
  Ok (snapshot ≫= fun s =>
        parse_u64_prop (TableMetadata.additional_properties (TableMetadata.summary s)) SnapshotSummary.TOTAL_RECORDS).

(** ** The scan node (scan.rs)

    A physical filter is a shared pointer, of which the identity is a number. *)
Record SharedExpr := mkShared { pointer : nat; shared_expr : PhysicalExpr }.
Record IcebergTableScan := mkScan {
  scan_table : TableMetadata.TableMetadata;
  scan_snapshot_id : option Z;
  table_schema : list string;
  scan_predicates : option Predicate;
  physical_filters : list SharedExpr;
  scan_limit : option nat;
  scan_partitions : Z;
}.
Definition set_predicates (self : IcebergTableScan) (p : option Predicate) : IcebergTableScan :=
  mkScan (scan_table self) (scan_snapshot_id self) (table_schema self) p (physical_filters self) (scan_limit self)
    (scan_partitions self).
Definition set_physical_filters (self : IcebergTableScan) (fs : list SharedExpr) : IcebergTableScan :=
  mkScan (scan_table self) (scan_snapshot_id self) (table_schema self) (scan_predicates self) fs (scan_limit self)
    (scan_partitions self).

Definition SMALL_ICEBERG_BUILD_ROWS : Z := 512 * 1024.
Definition FILTERED_SCAN_JOIN_WEIGHT : Z := 1.
Definition USIZE_MAX : Z := 2 ^ 64 - 1.
Definition saturating_mul (a b : Z) : Z := Z.min (a * b) USIZE_MAX.
Definition join_order_weight (self : IcebergTableScan) : result Z :=
  match scan_predicates self with
  | Some _ => Ok FILTERED_SCAN_JOIN_WEIGHT
  | None => default (USIZE_MAX / 4) <$> row_estimate (scan_table self) (scan_snapshot_id self)
  end.
Definition is_fact_like (self : IcebergTableScan) : result bool :=
  match scan_predicates self with
  | Some _ => Ok false
  | None =>
      let? weight := join_order_weight self in
      Ok (SMALL_ICEBERG_BUILD_ROWS <? Z.max (saturating_mul weight 4) (FILTERED_SCAN_JOIN_WEIGHT + 1))
  end.
Definition is_large_fact_table (self : IcebergTableScan) : result bool :=
  let? rows := row_estimate (scan_table self) (scan_snapshot_id self) in
  Ok (match rows with Some rows => SMALL_ICEBERG_BUILD_ROWS <? rows | None => false end).

Definition with_additional_static_predicate (self : IcebergTableScan) (pred : Predicate) : IcebergTableScan :=
  set_predicates self
    (Some (match scan_predicates self with Some existing => predicate_and existing pred | None => pred end)).
Fixpoint add_filters (filters extra : list SharedExpr) : list SharedExpr :=
  match extra with
  | [] => filters
  | filter :: extra =>
      if existsb (fun existing => (pointer existing =? pointer filter)%nat) filters then add_filters filters extra
      else add_filters (filters ++ [filter]) extra
  end.
Definition with_extra_physical_filters (self : IcebergTableScan) (extra : list SharedExpr) : IcebergTableScan :=
  set_physical_filters self (add_filters (physical_filters self) extra).

(** [repartitioned], from the target and the options of the session. *)
Definition with_scan_partitions (self : IcebergTableScan) (n : Z) : IcebergTableScan :=
  mkScan (scan_table self) (scan_snapshot_id self) (table_schema self) (scan_predicates self) (physical_filters self)
    (scan_limit self) (Z.max n 1).
Definition repartitioned (self : IcebergTableScan) (target_partitions : Z) (repartition_file_scans : bool) :
    option IcebergTableScan :=
  if (target_partitions <=? 1) || (target_partitions <=? scan_partitions self) then None
  else if negb repartition_file_scans then None
  else Some (with_scan_partitions self target_partitions).

Inductive PushedDown := PushedYes | PushedNo.
Section scan.
Context {V : ValueLib} (collect_columns : PhysicalExpr -> list string).
(** What the scan answers for each filter of its parent, and the scan with those it takes. *)
Definition handle_child_pushdown_result (self : IcebergTableScan) (parent_filters : list SharedExpr) :
    list PushedDown * option IcebergTableScan :=
  let takes f := can_pushdown_physical_expr collect_columns (shared_expr f) (table_schema self) in
  let accepted := filter (fun f => takes f = true) parent_filters in
  ((fun f => if takes f then PushedYes else PushedNo) <$> parent_filters,
   match accepted with [] => None | _ => Some (set_physical_filters self (physical_filters self ++ accepted)) end).
(** The predicate that the scan runs with. *)
Definition scan_filter (self : IcebergTableScan) : result (option Predicate) :=
  merge_iceberg_predicates (scan_predicates self) (shared_expr <$> physical_filters self).
End scan.

(** The limit of [execute], on the batches of a stream. *)
Fixpoint limit_batches {R} (remaining : nat) (batches : list (list R)) : list (list R) :=
  match batches with
  | [] => []
  | batch :: batches =>
      if (remaining =? 0)%nat then limit_batches remaining batches
      else if (length batch <=? remaining)%nat then batch :: limit_batches (remaining - length batch) batches
      else take remaining batch :: limit_batches 0 batches
  end.

(** The tasks that [read_partition] reads, of those it has planned; [None] is the internal error
    of [execute] for a partition that is not the scan's. *)
Definition DEFAULT_REPARTITION_FILE_MIN_SIZE : Z := 10 * 1024 * 1024.
Definition read_partition (tasks : list ScanTask.FileScanTask) (partition scan_partitions : nat) (min_file_size : Z) :
    list ScanTask.FileScanTask :=
  let min_file_size := if min_file_size =? 0 then DEFAULT_REPARTITION_FILE_MIN_SIZE else min_file_size in
  default [] (FileGroups.partition_file_scan_tasks tasks scan_partitions min_file_size !! partition).
(** Each partition plans for itself, with the filters as they are when it is first polled. *)
Definition execute (self : IcebergTableScan) (plan : nat -> list ScanTask.FileScanTask) (min_file_size : Z) (partition : nat) :
    option (list ScanTask.FileScanTask) :=
  if scan_partitions self <=? Z.of_nat partition then None
  else Some (read_partition (plan partition) partition (Z.to_nat (scan_partitions self)) min_file_size).

(** ** Keys of a dimension (dim_key_bounds.rs) *)

Inductive JoinKeyConstraint := KeyRange (min max : Datum) | KeyInList (values : list Datum).
Definition MAX_PLAN_TIME_DIM_ROWS : Z := 512 * 1024.
Definition MAX_INLIST_VALUES : Z := 131072.

Definition datum_as_i64 (datum : Datum) : option Z :=
  match datum_literal datum with
  | PrimitiveLiteral.Int v | PrimitiveLiteral.Long v => Some v
  | _ => None
  end.
Definition I64_MAX : Z := 2 ^ 63 - 1.
Definition I64_MIN : Z := - 2 ^ 63.
Definition saturating_i64 (z : Z) : Z := Z.max I64_MIN (Z.min z I64_MAX).
Definition range_is_selective (min max : Datum) (distinct : nat) : bool :=
  match datum_as_i64 min, datum_as_i64 max with
  | Some lo, Some hi =>
      if hi <? lo then false
      else
        let span := wrapU 64 (saturating_i64 (saturating_i64 (hi - lo) + 1)) in
        span <=? saturating_mul (Z.of_nat distinct) 4
  | _, _ => false
  end.

Section keys.
Context {V : ValueLib}.

(** [min_by] keeps the first of the least, [max_by] the last of the greatest. *)
Definition order_of (a b : Datum) : comparison := default Eq (partial_cmp a b).
Definition min_datum (values : list Datum) : option Datum :=
  foldl (fun best x => match best with
                       | Some b => match order_of b x with Gt => Some x | _ => Some b end
                       | None => Some x
                       end) None values.
Definition max_datum (values : list Datum) : option Datum :=
  foldl (fun best x => match best with
                       | Some b => match order_of b x with Gt => Some b | _ => Some x end
                       | None => Some x
                       end) None values.

(** Rows of a key column: [None] is null. *)
Definition collect_distinct (array : list (option ScalarValue)) (distinct : list Datum) : list Datum :=
  fold_left (fun distinct row =>
    match row ≫= scalar_value_to_datum with Some datum => set_insert distinct datum | None => distinct end)
    array distinct.
(** The loop over the batches; [None] if there are too many rows. *)
Fixpoint collect_keys (rows_read : Z) (distinct : list Datum) (batches : list (list (option ScalarValue))) :
    option (list Datum) :=
  match batches with
  | [] => Some distinct
  | [] :: batches => collect_keys rows_read distinct batches
  | batch :: batches =>
      let rows_read := rows_read + Z.of_nat (length batch) in
      if MAX_PLAN_TIME_DIM_ROWS <? rows_read then None
      else collect_keys rows_read (collect_distinct batch distinct) batches
  end.
(** From the record counts of the planned tasks and the batches that are read of them. *)
Definition plan_time_join_key_constraint (has_predicates : bool) (tasks : list (option Z))
    (batches : list (list (option ScalarValue))) : option JoinKeyConstraint :=
  match tasks with
  | [] => None
  | _ =>
      let total_rows := wrapU 64 (foldr Z.add 0 (omap id tasks)) in
      if negb has_predicates && ((total_rows =? 0) || (MAX_PLAN_TIME_DIM_ROWS <? total_rows)) then None
      else
        distinct ← collect_keys 0 [] batches;
        min ← min_datum distinct;
        max ← max_datum distinct;
        if range_is_selective min max (length distinct) then Some (KeyRange min max)
        else if Z.of_nat (length distinct) <=? MAX_INLIST_VALUES then Some (KeyInList distinct)
        else None
  end.

Definition constraint_to_predicate (column : string) (constraint : JoinKeyConstraint) : Predicate :=
  let col := mkReference column in
  match constraint with
  | KeyInList [value] => Binary PredicateOperator.Eq col value
  | KeyInList values => ref_is_in col values
  | KeyRange min max =>
      if datum_eqb min max then Binary PredicateOperator.Eq col min
      else predicate_and (Binary PredicateOperator.GreaterThanOrEq col min)
             (Binary PredicateOperator.LessThanOrEq col max)
  end.
End keys.

(** The cache of constraints, of the whole process: by table, snapshot id of the scan, text of
    the predicate and column.  [infer] reads the dimension. *)
Definition ConstraintCacheKey : Type := Z * option Z * string * string.
Section cache.
Context (predicate_text : Predicate -> string).
Definition cache_key (scan : IcebergTableScan) (key_column : string) : ConstraintCacheKey :=
  (TableMetadata.table_uuid (scan_table scan), scan_snapshot_id scan,
   default ""%string (predicate_text <$> scan_predicates scan), key_column).
Definition compute_join_key_constraint (infer : IcebergTableScan -> string -> result (option JoinKeyConstraint))
    (scan : IcebergTableScan) (key_column : string) :
    SR (gmap ConstraintCacheKey (option JoinKeyConstraint)) (option JoinKeyConstraint) :=
  let key := cache_key scan key_column in
  let! cache := sr_get in
  match cache !! key with
  | Some cached => mret cached
  | None =>
      let! constraint := sr_lift (infer scan key_column) in
      let! _ := sr_modify (fun cache => <[key := constraint]> cache) in
      mret constraint
  end.
End cache.

(** ** Plans

    A plan as the code looks at it: scans, hash joins, and other nodes with their children.
    [with_new_children] replaces the children. *)
Inductive JoinType := JInner | JLeft | JRight | JFull | JLeftSemi | JRightSemi | JLeftAnti | JRightAnti | JOther.
Inductive NodeKind := NRepartition | NCoalescePartitions | NProjection | NCooperative | NOther (n : nat).
Record HashJoin := mkHashJoin {
  join_type : JoinType;
  join_on : list (PhysicalExpr * PhysicalExpr);
  dynamic_filter : option SharedExpr;
}.
#[warnings="-register-all"]
Inductive ExecutionPlan :=
  | PlanScan (scan : IcebergTableScan)
  | PlanHashJoin (join : HashJoin) (l r : ExecutionPlan)
  | PlanNode (kind : NodeKind) (children : list ExecutionPlan).

(** *** join_utils.rs *)

Fixpoint peel_single_input (plan : ExecutionPlan) : ExecutionPlan :=
  match plan with
  | PlanNode (NRepartition | NCoalescePartitions | NProjection | NCooperative) [child] => peel_single_input child
  | _ => plan
  end.
Definition as_iceberg_scan (plan : ExecutionPlan) : option IcebergTableScan :=
  match peel_single_input plan with PlanScan scan => Some scan | _ => None end.
Definition iceberg_join_weight (plan : ExecutionPlan) : result (option Z) :=
  match as_iceberg_scan plan with Some scan => Some <$> join_order_weight scan | None => Ok None end.
Definition is_small_iceberg_build (plan : ExecutionPlan) : result bool :=
  let? weight := iceberg_join_weight plan in
  Ok (match weight with Some w => w <? SMALL_ICEBERG_BUILD_ROWS | None => false end).
Definition is_large_unfiltered_fact (plan : ExecutionPlan) : result bool :=
  match as_iceberg_scan plan with Some scan => is_fact_like scan | None => Ok false end.

(** *** join_reorder.rs *)

Definition should_swap_for_star_schema (l r : ExecutionPlan) : result bool :=
  match as_iceberg_scan l, as_iceberg_scan r with
  | Some _, Some _ =>
      let? fact := is_large_unfiltered_fact l in
      let? small := is_small_iceberg_build r in
      if (fact : bool) && (small : bool) then Ok true
      else
        let? lw := iceberg_join_weight l in
        let? rw := iceberg_join_weight r in
        Ok (match lw, rw with Some lw, Some rw => rw <? lw | _, _ => false end)
  | _, _ => Ok false
  end.

(** [optimize], from the leaves up; the swap is the engine's. *)
Section reorder.
Context (supports_swap : JoinType -> bool) (swap_inputs : HashJoin -> ExecutionPlan -> ExecutionPlan -> result ExecutionPlan).
Fixpoint reorder_joins (plan : ExecutionPlan) : result ExecutionPlan :=
  match plan with
  | PlanScan scan => Ok (PlanScan scan)
  | PlanHashJoin join l r =>
      let? l := reorder_joins l in
      let? r := reorder_joins r in
      if negb (supports_swap (join_type join)) then Ok (PlanHashJoin join l r)
      else
        let? swap := should_swap_for_star_schema l r in
        if (swap : bool) then swap_inputs join l r else Ok (PlanHashJoin join l r)
  | PlanNode kind children =>
      let? children := mapR reorder_joins children in
      Ok (PlanNode kind children)
  end.
End reorder.

(** *** fk_bound_pushdown.rs *)

Definition any_result {A} (f : A -> result bool) : list A -> result bool :=
  fix any l := match l with [] => Ok false | x :: l => let? b := f x in if (b : bool) then Ok true else any l end.
Definition direct_dimension_scan (plan : ExecutionPlan) : result (option IcebergTableScan) :=
  match as_iceberg_scan plan with
  | Some scan =>
      match scan_predicates scan with
      | None => Ok None
      | Some _ => let? fact := is_fact_like scan in Ok (if (fact : bool) then None else Some scan)
      end
  | None => Ok None
  end.
Fixpoint contains_fact_iceberg_scan (plan : ExecutionPlan) : result bool :=
  match plan with
  | PlanScan scan => is_large_fact_table scan
  | PlanHashJoin _ l r =>
      let? b := contains_fact_iceberg_scan l in
      if (b : bool) then Ok true else contains_fact_iceberg_scan r
  | PlanNode _ children => any_result contains_fact_iceberg_scan children
  end.
Definition join_column_names (on : list (PhysicalExpr * PhysicalExpr)) : option (string * string) :=
  match on with
  | (PColumn left_key, PColumn right_key) :: _ => Some (left_key, right_key)
  | _ => None
  end.
Definition resolve_dim_fact_keys (l r : ExecutionPlan) (on : list (PhysicalExpr * PhysicalExpr)) :
    result (option (IcebergTableScan * string * string)) :=
  match join_column_names on with
  | None => Ok None
  | Some (left_key, right_key) =>
      let try_right :=
        let? dim := direct_dimension_scan r in
        match dim with
        | Some dim =>
            let? fact := contains_fact_iceberg_scan l in
            Ok (if (fact : bool) then Some (dim, right_key, left_key) else None)
        | None => Ok None
        end in
      let? dim := direct_dimension_scan l in
      match dim with
      | Some dim =>
          let? fact := contains_fact_iceberg_scan r in
          if (fact : bool) then Ok (Some (dim, left_key, right_key)) else try_right
      | None => try_right
      end
  end.
Definition scan_has_column (scan : IcebergTableScan) (column : string) : bool :=
  bool_decide (column ∈ table_schema scan).
Fixpoint apply_predicate_to_fact_scans (pred : Predicate) (fact_column : string) (plan : ExecutionPlan) :
    result ExecutionPlan :=
  match plan with
  | PlanScan scan =>
      let? large := is_large_fact_table scan in
      Ok (PlanScan (if (large : bool) && scan_has_column scan fact_column
                    then with_additional_static_predicate scan pred else scan))
  | PlanHashJoin join l r =>
      let? l := apply_predicate_to_fact_scans pred fact_column l in
      let? r := apply_predicate_to_fact_scans pred fact_column r in
      Ok (PlanHashJoin join l r)
  | PlanNode kind children =>
      let? children := mapR (apply_predicate_to_fact_scans pred fact_column) children in
      Ok (PlanNode kind children)
  end.

Section rewriting.
Context {V : ValueLib}.
(** [compute_join_key_constraint], with its cache of the process as state. *)
Context {S : Type} (constraint_of : IcebergTableScan -> string -> SR S (option JoinKeyConstraint)).

Definition push_fk_bound (join : HashJoin) (l r : ExecutionPlan) : SR S ExecutionPlan :=
  let! keys := sr_lift (resolve_dim_fact_keys l r (join_on join)) in
  match keys with
  | Some (dim, dim_key, fact_key) =>
      let! constraint := constraint_of dim dim_key in
      match constraint with
      | Some constraint =>
          sr_lift (apply_predicate_to_fact_scans (constraint_to_predicate fact_key constraint) fact_key
                     (PlanHashJoin join l r))
      | None => mret (PlanHashJoin join l r)
      end
  | None => mret (PlanHashJoin join l r)
  end.
Fixpoint push_fk_bounds (plan : ExecutionPlan) : SR S ExecutionPlan :=
  match plan with
  | PlanScan scan => mret (PlanScan scan)
  | PlanHashJoin join l r =>
      let! l := push_fk_bounds l in
      let! r := push_fk_bounds r in
      push_fk_bound join l r
  | PlanNode kind children =>
      let! children := mapSR push_fk_bounds children in
      mret (PlanNode kind children)
  end.
End rewriting.

(** *** fact_filter_pushdown.rs

    The plan, with the filters of joins above given to the large scans on their probe sides;
    an unchanged plan is given back as it is. *)
Fixpoint push_filters_to_fact_scans (inherited : list SharedExpr) (plan : ExecutionPlan) : result (bool * ExecutionPlan) :=
  let other : result (bool * ExecutionPlan) :=
    match plan with
    | PlanHashJoin join l r =>
        let probe_filters := match dynamic_filter join with Some f => inherited ++ [f] | None => inherited end in
        let? left := push_filters_to_fact_scans inherited l in
        let? right := push_filters_to_fact_scans probe_filters r in
        Ok (if fst (left : bool * ExecutionPlan) || fst (right : bool * ExecutionPlan) then (true, PlanHashJoin join (snd left) (snd right)) else (false, plan))
    | PlanNode kind [child] =>
        let? updated := push_filters_to_fact_scans inherited child in
        Ok (if fst (updated : bool * ExecutionPlan) then (true, PlanNode kind [snd updated]) else (false, plan))
    | _ => Ok (false, plan)
    end in
  match plan with
  | PlanScan scan =>
      let? large := is_large_fact_table scan in
      if (large : bool) then
        let updated := with_extra_physical_filters scan inherited in
        Ok (if (length (physical_filters updated) =? length (physical_filters scan))%nat then (false, plan)
            else (true, PlanScan updated))
      else Ok (false, plan)
  | _ => other
  end.

(** ** Theory *)

(** The batches that a scan with a limit gives out hold the first rows of the stream, as
    many as the limit allows. *)
Theorem limit_exact {R} n (batches : list (list R)) : concat (limit_batches n batches) = take n (concat batches).
Proof.
  revert n. induction batches as [|batch batches IH]; intros n; [by destruct n|]. cbn [limit_batches concat].
  destruct (Nat.eqb_spec n 0) as [->|Hn]; [by rewrite IH|].
  destruct (Nat.leb_spec (length batch) n) as [Hle|Hlt].
  - cbn [concat]. rewrite IH, take_app_ge by done. done.
  - cbn [concat]. rewrite IH, take_0, app_nil_r, take_app_le by lia. done.
Qed.

(** The partitions of a scan that all plan the same files read every planned task once
    between them, whatever the sizes and the least size of a division. *)
Theorem partitions_read_every_task self tasks min_file_size :
  1 <= scan_partitions self ->
  exists read, (execute self (fun _ => tasks) min_file_size <$> seq 0 (Z.to_nat (scan_partitions self))) = Some <$> read
    /\ concat read ≡ₚ tasks.
Proof.
  intros Hn. set (n := Z.to_nat (scan_partitions self)).
  set (min := if min_file_size =? 0 then DEFAULT_REPARTITION_FILE_MIN_SIZE else min_file_size).
  destruct (FileGroups.partition_loses_no_task tasks n min) as [Hlen Hperm].
  assert (Nat.max n 1 = n) as Emax by lia. rewrite Emax in Hlen.
  exists (FileGroups.partition_file_scan_tasks tasks n min). split; [|done].
  apply list_eq. intros i. rewrite !list_lookup_fmap. destruct (decide (i < n)%nat) as [Hi|Hi].
  - rewrite lookup_seq_lt by done. cbn. unfold execute. destruct (Z.leb_spec (scan_partitions self) (Z.of_nat i)); [lia|].
    destruct (lookup_lt_is_Some_2 (FileGroups.partition_file_scan_tasks tasks n min) i) as [g Hg]; [lia|].
    unfold read_partition. fold n min. by rewrite Hg.
  - rewrite lookup_seq_ge, lookup_ge_None_2 by lia. done.
Qed.

Lemma foldl_ext {A B} (f g : A -> B -> A) a l : (forall x y, f x y = g x y) -> foldl f a l = foldl g a l.
Proof. intros H. revert a. induction l as [|y l IH]; intros a; [done|]. cbn. by rewrite H, IH. Qed.

Section key_theory.
Context {V : ValueLib} {VL : ValueLibLaws V}.

(** Integer keys of one type compare by their value. *)
Definition scalar_datum (d : Datum) : Prop := exists s, scalar_value_to_datum s = Some d.
Lemma integer_key_cmp a b n m :
  scalar_datum a -> scalar_datum b -> datum_type a = datum_type b ->
  datum_as_i64 a = Some n -> datum_as_i64 b = Some m -> partial_cmp a b = Some (n ?= m).
Proof.
  intros [s Hs] [s' Hs'] Ht Hn Hm.
  destruct s as [[]|[]|[]|[]|[]|[]|[]|[]|[]|[]|[]|[]|[]|[] ?|[] ?|]; cbn in Hs; try done; injection Hs as <-;
    cbn in Hn; try done; injection Hn as <-;
  destruct s' as [[]|[]|[]|[]|[]|[]|[]|[]|[]|[]|[]|[]|[]|[] ?|[] ?|]; cbn in Hs'; try done; injection Hs' as <-;
    cbn in Ht, Hm; try done; by injection Hm as <-.
Qed.
Lemma same_type_integer a b n :
  scalar_datum a -> scalar_datum b -> datum_type a = datum_type b -> datum_as_i64 a = Some n ->
  exists m, datum_as_i64 b = Some m.
Proof.
  intros [s Hs] [s' Hs'] Ht Hn.
  destruct s as [[]|[]|[]|[]|[]|[]|[]|[]|[]|[]|[]|[]|[]|[] ?|[] ?|]; cbn in Hs; try done; injection Hs as <-;
    cbn in Hn; try done;
  destruct s' as [[]|[]|[]|[]|[]|[]|[]|[]|[]|[]|[]|[]|[]|[] ?|[] ?|]; cbn in Hs'; try done; injection Hs' as <-;
    cbn in Ht |- *; try done; eauto.
Qed.
Lemma eqb_integer x d n :
  scalar_datum d -> datum_as_i64 d = Some n -> datum_eqb x d = true -> x = d.
Proof.
  intros [s Hs] Hn H. unfold datum_eqb in H. apply andb_true_iff in H as [Ht%bool_decide_eq_true Hl].
  destruct x as [tx lx]. destruct s as [[]|[]|[]|[]|[]|[]|[]|[]|[]|[]|[]|[]|[]|[] ?|[] ?|]; cbn in Hs; try done;
    injection Hs as <-; cbn in Hn; try done; cbn in Ht, Hl; destruct lx; try done; apply Z.eqb_eq in Hl; by subst.
Qed.

(** The least and the greatest of integer keys. *)
Definition one_type (ty : PrimitiveType.t) (ds : list Datum) : Prop :=
  Forall (fun d => scalar_datum d /\ datum_type d = ty) ds.
Lemma min_datum_elem ds m : min_datum ds = Some m -> m ∈ ds.
Proof.
  unfold min_datum. assert (forall best, foldl (fun best x => match best with
     | Some b => match order_of b x with Gt => Some x | _ => Some b end | None => Some x end) best ds = Some m ->
     best = Some m \/ m ∈ ds) as H; [|intros E; by destruct (H None E)].
  induction ds as [|y ds IH]; intros best; cbn [foldl]; [by left|].
  intros E. apply IH in E as [E|E]; [|by right; constructor].
  destruct best as [b|]; [destruct (order_of b y)|]; injection E as <-; first [by left|by right; constructor].
Qed.
Lemma max_datum_elem ds m : max_datum ds = Some m -> m ∈ ds.
Proof.
  unfold max_datum. assert (forall best, foldl (fun best x => match best with
     | Some b => match order_of b x with Gt => Some b | _ => Some x end | None => Some x end) best ds = Some m ->
     best = Some m \/ m ∈ ds) as H; [|intros E; by destruct (H None E)].
  induction ds as [|y ds IH]; intros best; cbn [foldl]; [by left|].
  intros E. apply IH in E as [E|E]; [|by right; constructor].
  destruct best as [b|]; [destruct (order_of b y)|]; injection E as <-; first [by left|by right; constructor].
Qed.
Lemma one_type_cmp ty ds a b n :
  one_type ty ds -> a ∈ ds -> b ∈ ds -> datum_as_i64 a = Some n ->
  exists m, datum_as_i64 b = Some m /\ partial_cmp a b = Some (n ?= m).
Proof.
  intros H Ha Hb Hn. unfold one_type in H. rewrite Forall_forall in H.
  destruct (H a Ha) as [Hsa Hta], (H b Hb) as [Hsb Htb].
  destruct (same_type_integer a b n Hsa Hsb) as (m & Hm); [congruence|done|].
  exists m. split; [done|]. apply integer_key_cmp; congruence || done.
Qed.
(** A fold that keeps the better of two integer keys keeps one at least as good as all. *)
Lemma best_datum (test : comparison -> bool) (cmp : Z -> Z -> Prop) ty ds :
  (forall n m, if test (n ?= m) then cmp m n /\ cmp m m else cmp n m) -> (forall n, cmp n n) ->
  (forall a b c, cmp a b -> cmp b c -> cmp a c) ->
  one_type ty ds -> forall best m n,
  foldl (fun best x => match best with
                       | Some b => if test (order_of b x) then Some x else Some b
                       | None => Some x
                       end) best ds = Some m ->
  (forall b, best = Some b -> scalar_datum b /\ datum_type b = ty) -> datum_as_i64 m = Some n ->
  forall d, (best = Some d \/ d ∈ ds) -> exists k, datum_as_i64 d = Some k /\ cmp n k.
Proof.
  intros Htest Hrefl Htrans. induction ds as [|y ds IH]; intros Hty best m n Hm Hbest Hn d Hd; cbn [foldl] in Hm.
  - destruct Hd as [Hd|Hd]; [|by apply not_elem_of_nil in Hd]. rewrite Hd in Hm. injection Hm as <-. eauto.
  - apply Forall_cons_1 in Hty as [Hy Hty].
    set (best' := match best with Some b => if test (order_of b y) then Some y else Some b | None => Some y end) in Hm.
    assert (forall b, best' = Some b -> scalar_datum b /\ datum_type b = ty) as Hbest'.
    { intros b. unfold best'. destruct best as [b0|]; [destruct (test _)|]; intros [= <-]; auto. }
    assert (exists b', best' = Some b') as [b' Eb'].
    { unfold best'. destruct best as [b0|]; [destruct (test _)|]; eauto. }
    specialize (IH Hty best' m n Hm Hbest' Hn).
    destruct (IH b' (or_introl Eb')) as (kb & Hkb & Hcb).
    destruct Hd as [Hd|[->|Hd]%elem_of_cons]; [| |by apply IH; right].
    + (* the old best *)
      destruct (Hbest d Hd) as [Hsd Htd]. unfold best' in Eb'. rewrite Hd in Eb'.
      destruct Hy as [Hsy Hty'].
      destruct (Hbest' b' ltac:(unfold best'; by rewrite Hd)) as [Hsb Htb].
      destruct (same_type_integer b' d kb Hsb Hsd ltac:(congruence) Hkb) as (kd & Hkd). exists kd. split; [done|].
      destruct (test (order_of d y)) eqn:Et; injection Eb' as <-; [|congruence].
      unfold order_of in Et. rewrite (integer_key_cmp d y kd kb) in Et by (congruence || done). cbn in Et.
      specialize (Htest kd kb). rewrite Et in Htest. destruct Htest as [Ht _]. by eapply Htrans.
    + (* the new one *)
      destruct Hy as [Hsy Hty'], (Hbest' b' Eb') as [Hsb Htb].
      destruct (same_type_integer b' y kb Hsb Hsy ltac:(congruence) Hkb) as (ky & Hky). exists ky. split; [done|].
      unfold best' in Eb'. destruct best as [b0|]; [|injection Eb' as <-; congruence].
      destruct (test (order_of b0 y)) eqn:Et; injection Eb' as <-; [congruence|].
      destruct (Hbest b0 eq_refl) as [Hs0 Ht0]. unfold order_of in Et.
      rewrite (integer_key_cmp b0 y kb ky) in Et by (congruence || done). cbn in Et.
      specialize (Htest kb ky). rewrite Et in Htest. by eapply Htrans.
Qed.
Lemma min_max_bound ty ds lo hi n m d :
  one_type ty ds -> min_datum ds = Some lo -> max_datum ds = Some hi ->
  datum_as_i64 lo = Some n -> datum_as_i64 hi = Some m -> d ∈ ds ->
  exists k, datum_as_i64 d = Some k /\ n <= k <= m.
Proof.
  intros Hty Hlo Hhi Hn Hm Hd.
  destruct (best_datum (fun c => match c with Gt => true | _ => false end) Z.le ty ds) with (best := @None Datum) (m := lo)
    (n := n) (d := d) as (k & Hk & Hnk).
  1: intros a b; destruct (Z.compare_spec a b); lia.
  1: intros a; lia.
  1: intros a b c; lia.
  1, 3, 4: done.
  { rewrite <- Hlo. unfold min_datum. apply foldl_ext. intros [x|] y; [by destruct (order_of x y)|done]. }
  { by right. }
  destruct (best_datum (fun c => match c with Gt => false | _ => true end) Z.ge ty ds) with (best := @None Datum) (m := hi)
    (n := m) (d := d) as (k' & Hk' & Hkm).
  1: intros a b; destruct (Z.compare_spec a b); lia.
  1: intros a; lia.
  1: intros a b c; lia.
  1, 3, 4: done.
  { rewrite <- Hhi. unfold max_datum. apply foldl_ext. intros [x|] y; [by destruct (order_of x y)|done]. }
  { by right. }
  exists k. split; [done|]. rewrite Hk in Hk'. injection Hk' as <-. lia.
Qed.

Lemma integer_key_eq a b n :
  scalar_datum a -> scalar_datum b -> datum_type a = datum_type b ->
  datum_as_i64 a = Some n -> datum_as_i64 b = Some n -> a = b.
Proof.
  intros [s Hs] [s' Hs'] Ht Hn Hm.
  destruct s as [[]|[]|[]|[]|[]|[]|[]|[]|[]|[]|[]|[]|[]|[] ?|[] ?|]; cbn in Hs; try done; injection Hs as <-;
    cbn in Hn; try done; injection Hn as <-;
  destruct s' as [[]|[]|[]|[]|[]|[]|[]|[]|[]|[]|[]|[]|[]|[] ?|[] ?|]; cbn in Hs'; try done; injection Hs' as <-;
    cbn in Ht, Hm; try done; by injection Hm as <-.
Qed.

(** The keys of the batches, and the set that is made of them. *)
Definition keys_of (batches : list (list (option ScalarValue))) : list Datum :=
  omap (fun row => row ≫= scalar_value_to_datum) (concat batches).
Lemma collect_distinct_keys array : forall distinct,
  collect_distinct array distinct = fold_left set_insert (omap (fun row => row ≫= scalar_value_to_datum) array) distinct.
Proof.
  induction array as [|row array IH]; intros distinct; [done|]. unfold collect_distinct in *. cbn.
  destruct (row ≫= scalar_value_to_datum); cbn; apply IH.
Qed.
Lemma collect_keys_set batches : forall rows distinct ds,
  collect_keys rows distinct batches = Some ds -> ds = fold_left set_insert (keys_of batches) distinct.
Proof.
  induction batches as [|batch batches IH]; intros rows distinct ds H; [by injection H as <-|].
  unfold keys_of. cbn [concat]. rewrite omap_app, fold_left_app. fold (keys_of batches).
  destruct batch as [|row batch]; [by apply IH in H|]. cbn [collect_keys] in H.
  destruct (_ <? _); [done|]. apply IH in H. by rewrite collect_distinct_keys in H.
Qed.

(** Every value that equals a key satisfies the predicate of the constraint. *)
Definition covers (c : JoinKeyConstraint) (ds : list Datum) : Prop :=
  forall column d x value, d ∈ ds -> datum_eqb x d = true -> value (mkReference column) = Some x ->
    denote value (constraint_to_predicate column c) = Some true.
Lemma set_elem ds d : d ∈ ds -> exists d', d' ∈ set_from_iter ds /\ datum_eqb d d' = true.
Proof using VL.
  intros Hd. assert (set_contains (set_from_iter ds) d = true) as H.
  { rewrite ScanSpec.set_contains_from_iter. apply existsb_exists. exists d. split; [by apply list_elem_of_In|].
    apply (ScanSpec.datum_eqb_at d). }
  apply existsb_exists in H as (d' & Hd' & E). exists d'. by split; [apply list_elem_of_In|].
Qed.
Lemma list_covers ds values :
  (forall x, set_contains values x = set_contains ds x) -> covers (KeyInList values) ds.
Proof using VL.
  intros Hv column d x value Hd Hx Hval.
  assert (set_contains values x = true) as Hin.
  { rewrite Hv. apply existsb_exists. exists d. by split; [apply list_elem_of_In|]. }
  unfold constraint_to_predicate, ref_is_in.
  destruct values as [|v [|v' values]]; cbn [denote holds_set holds_binary]; rewrite Hval.
  - by rewrite ScanSpec.set_contains_from_iter, Hin.
  - cbn in Hin. by rewrite orb_false_r in Hin; rewrite Hin.
  - by rewrite ScanSpec.set_contains_from_iter, Hin.
Qed.
Lemma range_covers ty ds lo hi n m :
  one_type ty ds -> one_type ty (set_from_iter ds) ->
  min_datum (set_from_iter ds) = Some lo -> max_datum (set_from_iter ds) = Some hi ->
  datum_as_i64 lo = Some n -> datum_as_i64 hi = Some m -> covers (KeyRange lo hi) ds.
Proof using VL.
  intros Hty Hset Hlo Hhi Hn Hm column d x value Hd Hx Hval.
  destruct (set_elem ds d Hd) as (d' & Hd' & Ed).
  destruct (min_max_bound ty _ lo hi n m d' Hset Hlo Hhi Hn Hm Hd') as (k & Hk & Hnk).
  assert (forall e, e ∈ set_from_iter ds -> scalar_datum e /\ datum_type e = ty) as Hsc.
  { unfold one_type in Hset. by rewrite Forall_forall in Hset. }
  destruct (Hsc d' Hd') as [Hs' Ht'], (Hsc lo (min_datum_elem _ _ Hlo)) as [Hslo Htlo],
    (Hsc hi (max_datum_elem _ _ Hhi)) as [Hshi Hthi].
  apply (eqb_integer d d' k Hs' Hk) in Ed as ->. apply (eqb_integer x d' k Hs' Hk) in Hx as ->.
  assert (forall e, datum_eqb e e = true) as Hrefl by (intros e; apply (ScanSpec.datum_eqb_at e)).
  cbn [constraint_to_predicate]. destruct (datum_eqb lo hi) eqn:Elh.
  - apply (eqb_integer lo hi m Hshi Hm) in Elh as ->. assert (n = m) as -> by congruence.
    assert (k = m) as -> by lia. cbn. rewrite Hval.
    rewrite (integer_key_eq d' hi m) by (congruence || done). by rewrite Hrefl.
  - rewrite predicate_and_denote. cbn. rewrite Hval. cbn.
    rewrite (integer_key_cmp d' lo k n), (integer_key_cmp d' hi k m) by (congruence || done). cbn.
    destruct (Z.compare_spec k n), (Z.compare_spec k m); cbn; try done; lia.
Qed.
Lemma constraint_covers ty has_predicates tasks batches c :
  one_type ty (keys_of batches) -> plan_time_join_key_constraint has_predicates tasks batches = Some c ->
  covers c (keys_of batches).
Proof using VL.
  intros Hty H. unfold plan_time_join_key_constraint in H. destruct tasks as [|t tasks]; [done|].
  destruct (_ && _); [done|]. apply bind_Some in H as (distinct & Hds & H).
  apply collect_keys_set in Hds. change (fold_left set_insert (keys_of batches) []) with (set_from_iter (keys_of batches)) in Hds.
  subst distinct. apply bind_Some in H as (lo & Hlo & H). apply bind_Some in H as (hi & Hhi & H).
  destruct (range_is_selective lo hi _) eqn:Er.
  - injection H as <-. unfold range_is_selective in Er. destruct (datum_as_i64 lo) as [n|] eqn:En; [|done].
    destruct (datum_as_i64 hi) as [m|] eqn:Em; [|done].
    eapply (range_covers ty); try done. by apply Binding.set_from_iter_Forall.
  - destruct (_ <=? _); [|done]. injection H as <-. apply list_covers. intros x. apply ScanSpec.set_contains_from_iter.
Qed.
End key_theory.

(** ** The rows of a plan

    For trees of inner joins over scans, with the nodes that pass rows on: a row gives values
    to columns, a scan has the rows of its table that satisfy its predicate, an inner join the
    pairs that match.  [table_rows] are the rows of a table at a snapshot. *)
Abbreviation Row := (gmap string Datum).
Definition value_of (row : Row) (r : Reference) : option Datum := row !! ref_name r.

Lemma plan_nested_ind (P : ExecutionPlan -> Prop) :
  (forall scan, P (PlanScan scan)) -> (forall join l r, P l -> P r -> P (PlanHashJoin join l r)) ->
  (forall kind children, Forall P children -> P (PlanNode kind children)) -> forall plan, P plan.
Proof.
  intros Hs Hj Hn. fix IH 1. intros [scan|join l r|kind children]; [apply Hs|by apply Hj|]. apply Hn.
  induction children as [|c children IHc]; constructor; [apply IH|exact IHc].
Qed.

Section plan_rows.
Context {V : ValueLib} {VL : ValueLibLaws V}.
Context (table_rows : TableMetadata.TableMetadata -> option Z -> list Row) (matches : HashJoin -> Row -> Row -> bool).

Definition satisfies (p : Predicate) (row : Row) : bool := is_true3 (denote (value_of row) p).
Definition satisfies_all (p : option Predicate) (row : Row) : bool :=
  match p with Some p => satisfies p row | None => true end.
Definition rows_where (test : Row -> bool) (rows : list Row) : list Row := filter (fun row => test row = true) rows.
Definition scan_rows (scan : IcebergTableScan) : list Row :=
  rows_where (satisfies_all (scan_predicates scan)) (table_rows (scan_table scan) (scan_snapshot_id scan)).
Definition join_rows (join : HashJoin) (ls rs : list Row) : list Row :=
  concat ((fun a => (fun b => a ∪ b) <$> rows_where (matches join a) rs) <$> ls).
Fixpoint plan_rows (plan : ExecutionPlan) : list Row :=
  match plan with
  | PlanScan scan => scan_rows scan
  | PlanHashJoin join l r => join_rows join (plan_rows l) (plan_rows r)
  | PlanNode _ children => concat (plan_rows <$> children)
  end.
Fixpoint plan_columns (plan : ExecutionPlan) : list string :=
  match plan with
  | PlanScan scan => table_schema scan
  | PlanHashJoin _ l r => plan_columns l ++ plan_columns r
  | PlanNode _ children => concat (plan_columns <$> children)
  end.
(** Inner joins only, and rows that have the columns of their tables. *)
Definition pinned (scan : IcebergTableScan) : Prop := is_Some (scan_snapshot_id scan).
Fixpoint inner_tree (plan : ExecutionPlan) : Prop :=
  match plan with
  | PlanScan scan => pinned scan /\ forall row c, row ∈ table_rows (scan_table scan) (scan_snapshot_id scan) ->
      is_Some (row !! c) -> c ∈ table_schema scan
  | PlanHashJoin join l r => join_type join = JInner /\ inner_tree l /\ inner_tree r
  | PlanNode (NRepartition | NCoalescePartitions | NCooperative) [child] => inner_tree child
  | PlanNode _ _ => False
  end.
Lemma inner_node kind children :
  inner_tree (PlanNode kind children) -> exists child, children = [child] /\ inner_tree child
    /\ (forall child', inner_tree child' -> inner_tree (PlanNode kind [child'])).
Proof. destruct kind; try done; (destruct children as [|child [|]]; try done); intros H; exists child; auto. Qed.
Lemma node_rows kind child : plan_rows (PlanNode kind [child]) = plan_rows child.
Proof. cbn. by rewrite app_nil_r. Qed.
Lemma node_columns kind child : plan_columns (PlanNode kind [child]) = plan_columns child.
Proof. cbn. by rewrite app_nil_r. Qed.

Lemma row_columns plan row c :
  inner_tree plan -> row ∈ plan_rows plan -> is_Some (row !! c) -> c ∈ plan_columns plan.
Proof.
  revert row. induction plan as [scan|join l r IHl IHr|kind children IH] using plan_nested_ind; intros row Ht Hrow Hc.
  - apply list_elem_of_filter in Hrow as [_ Hrow]. by apply (proj2 Ht row).
  - destruct Ht as (_ & Hl & Hr). cbn in Hrow |- *. apply list_elem_of_In, in_concat in Hrow as (rs & Hrs & Hrow).
    apply list_elem_of_In, list_elem_of_fmap in Hrs as (a & -> & Ha).
    apply list_elem_of_In, list_elem_of_fmap in Hrow as (b & -> & Hb).
    apply list_elem_of_filter in Hb as [_ Hb]. apply elem_of_app.
    destruct Hc as [d Hd]. apply lookup_union_Some_raw in Hd as [Hd|[_ Hd]]; [left; apply (IHl a)|right; apply (IHr b)]; eauto.
  - destruct (inner_node kind children Ht) as (child & -> & Hch & _). rewrite node_rows in Hrow. rewrite node_columns.
    apply Forall_cons_1 in IH as [IH _]. by apply (IH row).
Qed.

(** A filter on a column of one side of a join. *)
Lemma rows_where_ext f g rows : (forall row, row ∈ rows -> f row = g row) -> rows_where f rows = rows_where g rows.
Proof.
  intros H. unfold rows_where. induction rows as [|row rows IH]; [done|]. rewrite !filter_cons.
  rewrite (H row) by constructor. rewrite IH; [done|]. intros r Hr. apply H. by constructor.
Qed.
Lemma rows_where_true f rows : (forall row, row ∈ rows -> f row = true) -> rows_where f rows = rows.
Proof.
  intros H. unfold rows_where. induction rows as [|row rows IH]; [done|]. rewrite filter_cons.
  rewrite decide_True by (apply H; constructor). rewrite IH; [done|]. intros r Hr. apply H. by constructor.
Qed.
Lemma rows_where_app f a b : rows_where f (a ++ b) = rows_where f a ++ rows_where f b.
Proof. apply filter_app. Qed.
Lemma rows_where_map (f g : Row -> bool) (h : Row -> Row) rows :
  (forall row, row ∈ rows -> f (h row) = g row) -> rows_where f (h <$> rows) = h <$> rows_where g rows.
Proof.
  intros H. unfold rows_where. induction rows as [|row rows IH]; [done|]. rewrite fmap_cons, !filter_cons.
  rewrite (H row) by constructor. rewrite IH by (intros r Hr; apply H; by constructor). by case_decide.
Qed.
Lemma rows_where_comm f g rows : rows_where f (rows_where g rows) = rows_where g (rows_where f rows).
Proof. unfold rows_where. rewrite !list_filter_filter. apply list_filter_iff. intros x. tauto. Qed.

Lemma rows_where_cons f row rows :
  rows_where f (row :: rows) = if f row then row :: rows_where f rows else rows_where f rows.
Proof. unfold rows_where. rewrite filter_cons. destruct (f row); [by rewrite decide_True|by rewrite decide_False]. Qed.
Lemma rows_where_none rows : rows_where (fun _ => false) rows = [].
Proof. induction rows as [|row rows IH]; [done|]. by rewrite rows_where_cons. Qed.

Lemma join_rows_left join f ls rs :
  (forall a b, a ∈ ls -> b ∈ rs -> f (a ∪ b) = f a) ->
  join_rows join (rows_where f ls) rs = rows_where f (join_rows join ls rs).
Proof.
  unfold join_rows. induction ls as [|a ls IH]; intros H; [done|]. rewrite rows_where_cons, fmap_cons. cbn [concat].
  rewrite rows_where_app, <- IH by (intros a' b Ha Hb; apply H; [by constructor|done]).
  rewrite (rows_where_map f (fun _ => f a)).
  2: { intros b Hb. apply list_elem_of_filter in Hb as [_ Hb]. apply H; [constructor|done]. }
  destruct (f a) eqn:Ea; [|by rewrite rows_where_none].
  rewrite fmap_cons. cbn [concat]. f_equal. f_equal. symmetry. by apply rows_where_true.
Qed.
Lemma join_rows_right join f ls rs :
  (forall a b, a ∈ ls -> b ∈ rs -> f (a ∪ b) = f b) ->
  join_rows join ls (rows_where f rs) = rows_where f (join_rows join ls rs).
Proof.
  unfold join_rows. induction ls as [|a ls IH]; intros H; [done|]. cbn [fmap list_fmap concat].
  rewrite rows_where_app, <- IH by (intros a' b Ha Hb; apply H; [by constructor|done]). f_equal.
  rewrite (rows_where_map f f).
  2: { intros b Hb. apply list_elem_of_filter in Hb as [_ Hb]. apply H; [constructor|done]. }
  by rewrite rows_where_comm.
Qed.
(** A predicate that looks at one column only. *)
Definition on_column (column : string) (f : Row -> bool) : Prop := forall a b, a !! column = b !! column -> f a = f b.
Lemma union_left (a b : Row) column : b !! column = None -> (a ∪ b) !! column = a !! column.
Proof. intros H. rewrite lookup_union, H. by destruct (a !! column). Qed.
Lemma union_right (a b : Row) column : a !! column = None -> (a ∪ b) !! column = b !! column.
Proof. intros H. rewrite lookup_union, H. by destruct (b !! column). Qed.
Lemma not_a_column plan row column :
  inner_tree plan -> row ∈ plan_rows plan -> column ∉ plan_columns plan -> row !! column = None.
Proof.
  intros Ht Hrow Hc. apply eq_None_not_Some. intros H. by apply Hc, (row_columns plan row).
Qed.
Lemma rows_where_and f g rows : rows_where (fun row => f row && g row) rows = rows_where g (rows_where f rows).
Proof.
  induction rows as [|row rows IH]; [done|]. rewrite !rows_where_cons, IH. destruct (f row); [|done].
  by rewrite rows_where_cons.
Qed.
Lemma scan_rows_additional scan pred :
  scan_rows (with_additional_static_predicate scan pred) = rows_where (satisfies pred) (scan_rows scan).
Proof.
  unfold scan_rows. cbn. destruct (scan_predicates scan) as [existing|].
  - rewrite <- rows_where_and. apply rows_where_ext. intros row _. cbn. unfold satisfies.
    by rewrite predicate_and_denote, kleene_and_true.
  - symmetry. apply (f_equal (rows_where (satisfies pred))). by apply rows_where_true.
Qed.

(** The predicate is put on at most one scan, and what it takes from that scan are the rows of
    the whole plan that do not satisfy it. *)
Lemma apply_predicate_rows pred column plan : forall plan',
  on_column column (satisfies pred) -> inner_tree plan -> NoDup (plan_columns plan) ->
  apply_predicate_to_fact_scans pred column plan = Ok plan' ->
  inner_tree plan' /\ plan_columns plan' = plan_columns plan
  /\ (plan_rows plan' = plan_rows plan
      \/ column ∈ plan_columns plan /\ plan_rows plan' = rows_where (satisfies pred) (plan_rows plan)).
Proof.
  induction plan as [scan|join l r IHl IHr|kind children IH] using plan_nested_ind; intros plan' Hcol Ht Hnd H.
  - apply bind_Ok in H as (large & _ & [= <-]). destruct (large && scan_has_column scan column) eqn:E.
    + split; [exact Ht|]. split; [done|]. right. apply andb_true_iff in E as [_ E%bool_decide_eq_true].
      split; [done|]. apply scan_rows_additional.
    + auto.
  - apply bind_Ok in H as (l' & Hl & (r' & Hr & [= <-])%bind_Ok). destruct Ht as (Hj & Htl & Htr).
    cbn [plan_columns] in Hnd |- *. apply NoDup_app in Hnd as (Hndl & Hdis & Hndr).
    destruct (IHl l' Hcol Htl Hndl Hl) as (Htl' & -> & Rl), (IHr r' Hcol Htr Hndr Hr) as (Htr' & -> & Rr).
    split; [done|]. split; [done|]. cbn [plan_rows].
    destruct Rl as [->|[Cl ->]], Rr as [->|[Cr ->]]; [by left| | |by destruct (Hdis column)]; right.
    + split; [apply elem_of_app; by right|]. apply join_rows_right. intros a b Ha Hb. apply Hcol, union_right.
      apply (not_a_column l); [done|done|]. intros Hc. by apply (Hdis column).
    + split; [apply elem_of_app; by left|]. apply join_rows_left. intros a b Ha Hb. apply Hcol, union_left.
      apply (not_a_column r); [done|done|]. by apply Hdis.
  - destruct (inner_node kind children Ht) as (child & -> & Htc & Hk). rewrite node_columns in Hnd.
    apply bind_Ok in H as (children' & Hc & [= <-]). cbn [mapR] in Hc.
    apply bind_Ok in Hc as (child' & Hc & (nil & [= <-] & [= <-])%bind_Ok).
    apply Forall_cons_1 in IH as [IH _]. destruct (IH child' Hcol Htc Hnd Hc) as (Ht' & Hcols & R).
    rewrite !node_columns, !node_rows. auto.
Qed.

(** What reads the keys of a dimension promises to the rewriting: in a good state, a constraint
    covers the keys of the dimension's rows, and the state stays good. *)
Definition rows_covered (c : JoinKeyConstraint) (scan : IcebergTableScan) (key : string) : Prop :=
  forall row d, row ∈ scan_rows scan -> row !! key = Some d -> covers c [d].
Class KeyBounds {S} (constraint_of : IcebergTableScan -> string -> SR S (option JoinKeyConstraint))
    (good : S -> Prop) : Prop := {
  constraint_good scan key s c s' : pinned scan -> good s -> constraint_of scan key s = Ok (c, s') ->
    good s' /\ forall c', c = Some c' -> rows_covered c' scan key;
}.
(** And the join matches rows of equal keys only, of its first pair of columns. *)
Definition matches_keys : Prop := forall join a b lk rk,
  join_column_names (join_on join) = Some (lk, rk) -> matches join a b = true ->
  exists x y, a !! lk = Some x /\ b !! rk = Some y /\ datum_eqb x y = true /\ datum_eqb y x = true.

Lemma constraint_on_column column c : on_column column (satisfies (constraint_to_predicate column c)).
Proof.
  intros a b Hab. unfold satisfies. f_equal. unfold constraint_to_predicate, ref_is_in.
  assert (value_of a (mkReference column) = value_of b (mkReference column)) as H by done.
  destruct c as [lo hi|[|v [|]]]; [destruct (datum_eqb lo hi); rewrite ?predicate_and_denote|..]; cbn -[value_of]; by rewrite H.
Qed.
Lemma peel_rows plan scan : inner_tree plan -> as_iceberg_scan plan = Some scan ->
  pinned scan /\ plan_rows plan = scan_rows scan /\ plan_columns plan = table_schema scan.
Proof.
  unfold as_iceberg_scan. induction plan as [scan'|join l r IHl IHr|kind children IH] using plan_nested_ind; intros Ht H.
  - injection H as ->. by split; [apply Ht|].
  - done.
  - destruct (inner_node kind children Ht) as (child & -> & Htc & _). apply Forall_cons_1 in IH as [IH _].
    rewrite node_rows, node_columns. apply IH; [done|]. destruct kind; done.
Qed.
Lemma direct_dimension plan dim : direct_dimension_scan plan = Ok (Some dim) -> as_iceberg_scan plan = Some dim.
Proof.
  unfold direct_dimension_scan. destruct (as_iceberg_scan plan) as [scan|]; [|done].
  destruct (scan_predicates scan); [|done]. intros (fact & _ & H)%bind_Ok. destruct fact; [done|congruence].
Qed.
Lemma resolved_keys l r on dim dk fk :
  resolve_dim_fact_keys l r on = Ok (Some (dim, dk, fk)) ->
  join_column_names on = Some (dk, fk) /\ as_iceberg_scan l = Some dim
  \/ join_column_names on = Some (fk, dk) /\ as_iceberg_scan r = Some dim.
Proof.
  unfold resolve_dim_fact_keys. destruct (join_column_names on) as [[lk rk]|]; [|done].
  assert ((let? dim := direct_dimension_scan r in
           match dim with
           | Some dim => let? fact := contains_fact_iceberg_scan l in
                         Ok (if (fact : bool) then Some (dim, rk, lk) else None)
           | None => Ok None
           end) = Ok (Some (dim, dk, fk)) -> Some (lk, rk) = Some (fk, dk) /\ as_iceberg_scan r = Some dim) as Hr.
  { intros ([dim'|] & Hd & H)%bind_Ok; [|done]. apply bind_Ok in H as ([] & _ & H); [|done].
    injection H as <- <- <-. split; [done|by apply direct_dimension]. }
  intros ([dim'|] & Hd & H)%bind_Ok; [|by right; apply Hr].
  apply bind_Ok in H as ([] & _ & H); [|by right; apply Hr].
  injection H as <- <- <-. left. split; [done|by apply direct_dimension].
Qed.

(** Every row of the join satisfies the bound that is made of the keys of its dimension. *)
Lemma join_bounded join l r dim dk fk c row :
  matches_keys -> inner_tree (PlanHashJoin join l r) -> NoDup (plan_columns (PlanHashJoin join l r)) ->
  resolve_dim_fact_keys l r (join_on join) = Ok (Some (dim, dk, fk)) -> rows_covered c dim dk ->
  row ∈ plan_rows (PlanHashJoin join l r) -> satisfies (constraint_to_predicate fk c) row = true.
Proof.
  intros Hm (_ & Htl & Htr) Hnd Hres Hc Hrow. apply NoDup_app in Hnd as (_ & Hdis & _).
  cbn in Hrow. apply list_elem_of_In, in_concat in Hrow as (rs & Hrs & Hrow).
  apply list_elem_of_In, list_elem_of_fmap in Hrs as (a & -> & Ha).
  apply list_elem_of_In, list_elem_of_fmap in Hrow as (b & -> & Hb).
  apply list_elem_of_filter in Hb as [Hab Hb].
  assert (forall key x row d, row ∈ scan_rows dim -> row !! key = Some d -> rows_covered c dim key ->
    datum_eqb x d = true -> forall ab : Row, ab !! fk = Some x -> satisfies (constraint_to_predicate fk c) ab = true) as Hsat.
  { intros key x row d Hr Hd Hcov Hx ab Hfk. unfold satisfies.
    by rewrite (Hcov row d Hr Hd fk d x (value_of ab)) by (done || constructor). }
  destruct (resolved_keys _ _ _ _ _ _ Hres) as [[Hon Hdim]|[Hon Hdim]];
    destruct (Hm _ _ _ _ _ Hon Hab) as (x & y & Hx & Hy & Exy & Eyx).
  - destruct (peel_rows l dim Htl Hdim) as (_ & Hl & _). rewrite Hl in Ha.
    apply (Hsat dk y a x); [done|done|done|done|]. rewrite union_right; [done|].
    apply (not_a_column l); [done|by rewrite Hl|]. intros Hin. apply (Hdis fk Hin). by apply (row_columns r b).
  - destruct (peel_rows r dim Htr Hdim) as (_ & Hr & _). rewrite Hr in Hb.
    apply (Hsat dk x b y); [done|done|done|done|]. rewrite union_left; [done|].
    apply (not_a_column r); [done|by rewrite Hr|]. apply Hdis. by apply (row_columns l a).
Qed.

Section pushed.
Context {S : Type} (constraint_of : IcebergTableScan -> string -> SR S (option JoinKeyConstraint)) (good : S -> Prop).
Context {KB : KeyBounds constraint_of good}.

Definition same_plan (plan plan' : ExecutionPlan) : Prop :=
  inner_tree plan' /\ plan_columns plan' = plan_columns plan /\ plan_rows plan' = plan_rows plan.
Lemma push_fk_bound_same join l r s plan' s' :
  matches_keys -> good s -> inner_tree (PlanHashJoin join l r) -> NoDup (plan_columns (PlanHashJoin join l r)) ->
  push_fk_bound constraint_of join l r s = Ok (plan', s') -> good s' /\ same_plan (PlanHashJoin join l r) plan'.
Proof using KB.
  intros Hm Hs Ht Hnd (keys & s1 & Hkeys & H)%sr_bind_Ok. unfold sr_lift in Hkeys.
  destruct (resolve_dim_fact_keys l r (join_on join)) as [keys'|] eqn:Hres; [|done]. injection Hkeys as <- <-.
  destruct keys' as [[[dim dk] fk]|]; [|by injection H as <- <-].
  assert (pinned dim) as Hpin.
  { destruct Ht as (_ & Htl & Htr).
    destruct (resolved_keys _ _ _ _ _ _ Hres) as [[_ Hd]|[_ Hd]]; [by apply (peel_rows l)|by apply (peel_rows r)]. }
  apply sr_bind_Ok in H as (c & s2 & Hc & H). destruct (constraint_good dim dk s c s2 Hpin Hs Hc) as [Hs2 Hcov].
  destruct c as [c|]; [|by injection H as <- <-]. unfold sr_lift in H.
  destruct (apply_predicate_to_fact_scans _ _ _) as [p|] eqn:Ha in H; [|done]. injection H as <- <-. split; [done|].
  destruct (apply_predicate_rows _ _ _ p (constraint_on_column fk c) Ht Hnd Ha) as (Ht' & Hcols & R).
  split; [done|]. split; [done|]. destruct R as [R|[_ R]]; [done|]. rewrite R. apply rows_where_true.
  intros row Hrow. by apply (join_bounded join l r dim dk fk c); auto.
Qed.
Lemma push_fk_bounds_same plan : forall s plan' s',
  matches_keys -> good s -> inner_tree plan -> NoDup (plan_columns plan) ->
  push_fk_bounds constraint_of plan s = Ok (plan', s') -> good s' /\ same_plan plan plan'.
Proof using KB.
  induction plan as [scan|join l r IHl IHr|kind children IH] using plan_nested_ind; intros s plan' s' Hm Hs Ht Hnd H.
  - by injection H as <- <-.
  - apply sr_bind_Ok in H as (l' & s1 & Hl & (r' & s2 & Hr & H)%sr_bind_Ok).
    pose proof Ht as (Hj & Htl & Htr). cbn in Hnd. pose proof Hnd as (Hndl & _ & Hndr)%NoDup_app.
    destruct (IHl s l' s1 Hm Hs Htl Hndl Hl) as (Hs1 & Htl' & Hcl & Rl).
    destruct (IHr s1 r' s2 Hm Hs1 Htr Hndr Hr) as (Hs2 & Htr' & Hcr & Rr).
    destruct (push_fk_bound_same join l' r' s2 plan' s') as (Hs' & Ht' & Hc' & R'); try done.
    { cbn. by rewrite Hcl, Hcr. }
    split; [done|]. split; [done|]. rewrite Hc', R'. cbn. by rewrite Hcl, Hcr, Rl, Rr.
  - destruct (inner_node kind children Ht) as (child & -> & Htc & Hk). rewrite node_columns in Hnd.
    apply sr_bind_Ok in H as (children' & s1 & Hc & [= <- <-]).
    apply sr_bind_Ok in Hc as (child' & s2 & Hc & (nil & s3 & [= <- <-] & [= <- <-])%sr_bind_Ok).
    apply Forall_cons_1 in IH as [IH _]. destruct (IH s child' s2 Hm Hs Htc Hnd Hc) as (Hs' & Ht' & Hcols & R).
    split; [done|]. unfold same_plan. by rewrite !node_columns, !node_rows; auto.
Qed.
End pushed.

(** *** The reading of keys, with the cache of the process *)
Section reading.
(** [reads]: the record counts of the tasks that are planned and the batches of the key column;
    [predicate_text]: the text of a predicate. *)
Context (reads : IcebergTableScan -> string -> list (option Z) * list (list (option ScalarValue)))
  (predicate_text : Predicate -> string).
Definition infer_constraint (scan : IcebergTableScan) (key : string) : result (option JoinKeyConstraint) :=
  let '(tasks, batches) := reads scan key in
  Ok (plan_time_join_key_constraint (bool_decide (is_Some (scan_predicates scan))) tasks batches).
(** A read gives every key of the rows, all of one type. *)
Definition reads_all : Prop := forall scan key, exists ty,
  one_type ty (keys_of (reads scan key).2)
  /\ forall row d, row ∈ scan_rows scan -> row !! key = Some d -> d ∈ keys_of (reads scan key).2.
(** The rows of a snapshot of a table are always the same, and predicates with one text take the
    same of them. *)
Definition snapshots_fixed : Prop := forall table table' id,
  TableMetadata.table_uuid table = TableMetadata.table_uuid table' -> table_rows table (Some id) = table_rows table' (Some id).
Definition texts_tell : Prop := forall p q table snapshot row,
  default ""%string (predicate_text <$> p) = default ""%string (predicate_text <$> q) ->
  row ∈ table_rows table snapshot -> satisfies_all p row = satisfies_all q row.
(** What the cache holds for a scan of a given snapshot covers its keys. *)
Definition cache_covers (cache : gmap ConstraintCacheKey (option JoinKeyConstraint)) : Prop :=
  forall scan key c, pinned scan -> cache !! cache_key predicate_text scan key = Some (Some c) -> rows_covered c scan key.

Lemma keys_tell_rows scan scan' key key' :
  snapshots_fixed -> texts_tell -> pinned scan ->
  cache_key predicate_text scan key = cache_key predicate_text scan' key' -> scan_rows scan = scan_rows scan'.
Proof.
  intros Hf Ht [id Hid]. unfold cache_key. intros [= Hu Hs Hp _]. unfold scan_rows. rewrite <- Hs, Hid.
  rewrite <- (Hf _ _ id Hu). apply rows_where_ext. intros row Hrow. by eapply Ht.
Qed.
Lemma covers_subset c ds d : covers c ds -> d ∈ ds -> covers c [d].
Proof. intros H Hd column d' x value ->%list_elem_of_singleton. by apply H. Qed.
Lemma cached_key_bounds :
  reads_all -> snapshots_fixed -> texts_tell -> KeyBounds (compute_join_key_constraint predicate_text infer_constraint) cache_covers.
Proof using VL.
  intros Hreads Hfixed Htell. constructor. intros scan key cache c cache' Hpin Hcache H.
  apply sr_bind_Ok in H as (cache1 & s1 & [= <- <-] & H).
  destruct (cache !! cache_key predicate_text scan key) as [cached|] eqn:E.
  { injection H as <- <-. split; [done|]. intros c' ->. by apply Hcache. }
  apply sr_bind_Ok in H as (c1 & s2 & Hinf & (u & s3 & [= _ <-] & [= <- <-])%sr_bind_Ok).
  unfold sr_lift, infer_constraint in Hinf. destruct (reads scan key) as [tasks batches] eqn:Er.
  injection Hinf as <- <-.
  assert (forall c', plan_time_join_key_constraint (bool_decide (is_Some (scan_predicates scan))) tasks batches = Some c' ->
    rows_covered c' scan key) as Hcov.
  { intros c' Hc row d Hrow Hd. destruct (Hreads scan key) as (ty & Hty & Hall). rewrite Er in Hty, Hall.
    apply (covers_subset c' (keys_of batches)); [by eapply (constraint_covers ty), Hc|by apply (Hall row)]. }
  split; [|done]. intros scan' key' c' Hpin' H. destruct (decide (cache_key predicate_text scan key = cache_key predicate_text scan' key')) as [Hk|Hk].
  - rewrite <- Hk, lookup_insert_eq in H. injection H as H. intros row d Hrow Hd.
    rewrite <- (keys_tell_rows scan scan' key key' Hfixed Htell Hpin Hk) in Hrow. assert (key' = key) as -> by (unfold cache_key in Hk; congruence).
    by apply (Hcov c' H row).
  - rewrite lookup_insert_ne in H by done. by apply Hcache.
Qed.

End reading.

(** *** Reordering *)
Lemma rows_where_perm f rows rows' : rows ≡ₚ rows' -> rows_where f rows ≡ₚ rows_where f rows'.
Proof. intros H. by apply filter_Permutation. Qed.
#[local] Instance join_rows_proper join : Proper (Permutation ==> Permutation ==> Permutation) (join_rows join).
Proof.
  intros ls ls' Hl rs rs' Hr. unfold join_rows. trans (concat ((fun a => (fun b => a ∪ b) <$> rows_where (matches join a) rs') <$> ls)).
  - clear Hl ls'. induction ls as [|a ls IH]; [done|]. rewrite !fmap_cons. cbn [concat]. f_equiv; [|exact IH].
    apply fmap_Permutation. by apply rows_where_perm.
  - induction Hl as [|a ls ls' _ IH|a b ls|ls1 ls2 ls3 _ IH1 _ IH2]; [done| | |by etrans]; rewrite !fmap_cons; cbn [concat].
    + by rewrite IH.
    + by rewrite !app_assoc, (Permutation_app_comm (_ <$> rows_where (matches join b) rs')).
Qed.
(** With a swap that keeps the rows of a join, so does the whole pass; the order may change. *)
Theorem reordering_keeps_rows supports_swap swap_inputs plan : forall plan',
  (forall join l r swapped, swap_inputs join l r = Ok swapped -> plan_rows swapped ≡ₚ join_rows join (plan_rows l) (plan_rows r)) ->
  reorder_joins supports_swap swap_inputs plan = Ok plan' -> plan_rows plan' ≡ₚ plan_rows plan.
Proof.
  induction plan as [scan|join l r IHl IHr|kind children IH] using plan_nested_ind; intros plan' Hswap H.
  - by injection H as <-.
  - apply bind_Ok in H as (l' & Hl & (r' & Hr & H)%bind_Ok). cbn [plan_rows].
    rewrite <- (IHl l' Hswap Hl), <- (IHr r' Hswap Hr).
    destruct (negb _); [by injection H as <-|]. apply bind_Ok in H as ([] & _ & H); [by apply Hswap|by injection H as <-].
  - apply bind_Ok in H as (children' & H & [= <-]). apply mapR_Ok in H. cbn [plan_rows].
    induction H as [|c c' children children' Hc _ IHc]; [done|]. apply Forall_cons_1 in IH as [IH IHs].
    rewrite !fmap_cons. cbn [concat]. rewrite (IH c' Hswap Hc), (IHc IHs). done.
Qed.

End plan_rows.

(** Giving filters to the scans changes nothing else of a plan; an answer that nothing changed is
    the same plan. *)
Fixpoint without_filters (plan : ExecutionPlan) : ExecutionPlan :=
  match plan with
  | PlanScan scan => PlanScan (set_physical_filters scan [])
  | PlanHashJoin join l r => PlanHashJoin join (without_filters l) (without_filters r)
  | PlanNode kind children => PlanNode kind (without_filters <$> children)
  end.
Theorem fact_filters_only plan : forall inherited transformed plan',
  push_filters_to_fact_scans inherited plan = Ok (transformed, plan') ->
  without_filters plan' = without_filters plan /\ (transformed = false -> plan' = plan).
Proof.
  induction plan as [scan|join l r IHl IHr|kind children IH] using plan_nested_ind; intros inherited b plan' H.
  - apply bind_Ok in H as ([] & _ & H); [|by injection H as <- <-].
    cbv zeta in H. destruct (Nat.eqb _ _); by injection H as <- <-.
  - apply bind_Ok in H as ([bl l'] & Hl & ([br r'] & Hr & H)%bind_Ok).
    destruct (IHl _ _ _ Hl) as [Wl El], (IHr _ _ _ Hr) as [Wr Er]. cbn in H.
    destruct (bl || br) eqn:E; injection H as <- <-; [|done]. split; [|done]. cbn. by rewrite Wl, Wr.
  - destruct children as [|child [|]]; [by injection H as <- <-| |by injection H as <- <-].
    apply bind_Ok in H as ([bc child'] & Hc & H). apply Forall_cons_1 in IH as [IH _].
    destruct (IH _ _ _ Hc) as [W E]. destruct bc; injection H as <- <-; [|done]. split; [|done]. cbn. by rewrite W.
Qed.

(** ** What the rules do not look at *)

(** A scan takes, and answers that it will apply, a filter over its columns that has no predicate
    of the table: the filter is not applied. *)
Theorem unconverted_filter_is_claimed {V : ValueLib} collect_columns scan n pointer :
  scan_predicates scan = None -> physical_filters scan = [] -> Forall (fun c => c ∈ table_schema scan) (collect_columns (POther n)) ->
  let f := mkShared pointer (POther n) in
  handle_child_pushdown_result collect_columns scan [f] = ([PushedYes], Some (set_physical_filters scan [f]))
  /\ scan_filter (set_physical_filters scan [f]) = Ok None.
Proof.
  intros Hp Hf Hc f. unfold handle_child_pushdown_result. cbn [fmap list_fmap].
  assert (can_pushdown_physical_expr collect_columns (shared_expr f) (table_schema scan) = true) as E.
  { apply forallb_forall. intros c Hin%list_elem_of_In. apply bool_decide_eq_true. by eapply Forall_forall in Hc. }
  rewrite E. rewrite filter_cons, decide_True by done. rewrite filter_nil, Hf. split; [done|].
  unfold scan_filter. cbn. by rewrite Hp.
Qed.

(** The constraint of a dimension is read once for its table, whichever snapshot is current. *)
Theorem constraint_outlives_snapshot predicate_text infer scan scan' key cache cached :
  TableMetadata.table_uuid (scan_table scan') = TableMetadata.table_uuid (scan_table scan) ->
  scan_snapshot_id scan = None -> scan_snapshot_id scan' = None -> scan_predicates scan' = scan_predicates scan ->
  cache !! cache_key predicate_text scan key = Some cached ->
  compute_join_key_constraint predicate_text infer scan' key cache = Ok (cached, cache).
Proof.
  intros Hu Hs Hs' Hp Hc. unfold compute_join_key_constraint. rewrite (run_bind _ _ _ cache cache) by done.
  assert (cache_key predicate_text scan' key = cache_key predicate_text scan key) as -> by (unfold cache_key; congruence).
  by rewrite Hc.
Qed.

(** ** Examples *)

Section examples.
#[local] Existing Instance Concrete.concrete_values.
#[local] Existing Instance Concrete.concrete_values_laws.

Definition ex_table_of (uuid : Z) (records : string) : TableMetadata.TableMetadata :=
  let spec := PartitionSpecs.mkPartitionSpec 0 [] in
  let snapshot := TableMetadata.mkSnapshot 1 None 1 0 "list.avro"
    (TableMetadata.mkSummary TableMetadata.Append {[SnapshotSummary.TOTAL_RECORDS := records]}) None None None in
  TableMetadata.mkTableMetadata TableMetadata.V2 uuid "s3://bucket/t" 1 0 1 ∅ 0 ∅ spec [] 999 ∅ (Some 1)
    {[1 := snapshot]} [] [] ∅ 0 ∅ ∅ ∅ ∅ 0.
Definition ex_rows_of (column : string) (keys : list Z) : list Row := (fun n => {[column := datum_int n]}) <$> keys.
Definition ex_dim_rows : list Row := ex_rows_of "d" [1; 2; 7; 9].
Definition ex_fact_rows : list Row := ex_rows_of "f" [0; 2; 7; 8; 7].
Definition ex_table_rows (table : TableMetadata.TableMetadata) (_ : option Z) : list Row :=
  if TableMetadata.table_uuid table =? 1 then ex_dim_rows
  else if TableMetadata.table_uuid table =? 2 then ex_fact_rows else [].
Definition ex_dim : IcebergTableScan :=
  mkScan (ex_table_of 1 "4") (Some 1) ["d"%string]
    (Some (Binary PredicateOperator.GreaterThan (mkReference "d") (datum_int 1))) [] None 1.
Definition ex_fact : IcebergTableScan := mkScan (ex_table_of 2 "600000") (Some 1) ["f"%string] None [] None 1.
Definition ex_join (ty : JoinType) : HashJoin := mkHashJoin ty [(PColumn "d", PColumn "f")] None.
Definition ex_plan (ty : JoinType) : ExecutionPlan := PlanHashJoin (ex_join ty) (PlanScan ex_dim) (PlanNode NRepartition [PlanScan ex_fact]).

Definition ex_matches (join : HashJoin) (a b : Row) : bool :=
  match join_column_names (join_on join) with
  | Some (lk, rk) =>
      match a !! lk, b !! rk with
      | Some x, Some y => datum_eqb x y && datum_eqb y x
      | _, _ => false
      end
  | None => true
  end.
Lemma ex_matches_keys : matches_keys ex_matches.
Proof.
  intros join a b lk rk Hon H. unfold ex_matches in H. rewrite Hon in H.
  destruct (a !! lk) as [x|], (b !! rk) as [y|]; try done. apply andb_true_iff in H as [H1 H2]. by exists x, y.
Qed.

Definition int_scalar (d : Datum) : option ScalarValue :=
  match datum_literal d with PrimitiveLiteral.Int n => Some (SInt32 (Some n)) | _ => None end.
Definition ex_reads (scan : IcebergTableScan) (key : string) : list (option Z) * list (list (option ScalarValue)) :=
  ([Some 4], [(fun row : Row => row !! key ≫= int_scalar) <$> scan_rows ex_table_rows scan]).
Lemma ex_rows_int table snapshot row c d : row ∈ ex_table_rows table snapshot -> row !! c = Some d -> exists n, d = datum_int n.
Proof.
  assert (forall column keys, row ∈ ex_rows_of column keys -> row !! c = Some d -> exists n, d = datum_int n) as H.
  { intros column keys (n & -> & _)%list_elem_of_fmap Hd. apply lookup_singleton_Some in Hd as [_ <-]. eauto. }
  unfold ex_table_rows. destruct (_ =? 1); [apply H|]. destruct (_ =? 2); [apply H|]. by intros ?%not_elem_of_nil.
Qed.
Lemma ex_reads_all : reads_all ex_table_rows ex_reads.
Proof.
  intros scan key. exists PrimitiveType.Int. unfold keys_of, ex_reads. cbn [snd concat]. rewrite app_nil_r.
  assert (forall rows, (forall row d, row ∈ rows -> row !! key = Some d -> exists n, d = datum_int n) ->
    let ds := omap (fun row => row ≫= scalar_value_to_datum) ((fun row : Row => row !! key ≫= int_scalar) <$> rows) in
    one_type PrimitiveType.Int ds /\ forall row d, row ∈ rows -> row !! key = Some d -> d ∈ ds) as H.
  { induction rows as [|row rows IH]; intros Hn; [split; [constructor|by intros ? ? ?%not_elem_of_nil]|].
    destruct IH as [IH1 IH2]. { intros row' d Hr. apply Hn. by constructor. }
    cbn -[datum_int]. destruct (row !! key) as [d|] eqn:Ed.
    - destruct (Hn row d ltac:(constructor) Ed) as [n ->]. cbn -[datum_int]. split.
      + constructor; [|done]. split; [by exists (SInt32 (Some n))|done].
      + intros row' d' [->|Hr]%elem_of_cons Hd; [|by constructor; apply (IH2 row')].
        rewrite Ed in Hd. injection Hd as <-. constructor.
    - cbn. split; [done|]. intros row' d' [->|Hr]%elem_of_cons Hd; [congruence|by apply (IH2 row')]. }
  apply H. intros row d [_ Hr]%list_elem_of_filter. by apply ex_rows_int with (1 := Hr).
Qed.

(** A text for predicates, of what they say of the rows. *)
Definition ex_text (p : Predicate) : string :=
  String.string_of_list_ascii ((fun row => if satisfies p row then Ascii.one else Ascii.zero) <$> ex_dim_rows ++ ex_fact_rows).
Lemma ex_text_tells p q : ex_text p = ex_text q -> forall row, row ∈ ex_dim_rows ++ ex_fact_rows -> satisfies p row = satisfies q row.
Proof.
  intros H%(f_equal String.list_ascii_of_string). unfold ex_text in H. rewrite !String.list_ascii_of_string_of_list_ascii in H.
  revert H. induction (ex_dim_rows ++ ex_fact_rows) as [|row rows IH]; [by intros _ ? ?%not_elem_of_nil|].
  intros [= H1 H2] row' [->|Hr]%elem_of_cons; [|by apply IH]. by destruct (satisfies p row), (satisfies q row).
Qed.
Lemma ex_texts_tell : texts_tell ex_table_rows ex_text.
Proof.
  intros p q table snapshot row Hp Hrow. assert (row ∈ ex_dim_rows ++ ex_fact_rows) as Hin.
  { apply elem_of_app. unfold ex_table_rows in Hrow. destruct (_ =? 1); [by left|]. destruct (_ =? 2); [by right|].
    by apply not_elem_of_nil in Hrow. }
  destruct p as [p|], q as [q|]; cbn in Hp; try done. by apply ex_text_tells.
Qed.

Definition ex_rewrite (plan : ExecutionPlan) : result (ExecutionPlan * gmap ConstraintCacheKey (option JoinKeyConstraint)) :=
  push_fk_bounds (compute_join_key_constraint ex_text (infer_constraint ex_reads)) plan ∅.
Definition ex_rewritten (ty : JoinType) : ExecutionPlan :=
  match ex_rewrite (ex_plan ty) with Ok (plan, _) => plan | Err _ => ex_plan ty end.
Definition ex_fact_bounded : IcebergTableScan :=
  set_predicates ex_fact (Some (constraint_to_predicate "f" (KeyRange (datum_int 2) (datum_int 9)))).


(** A bound is put below an outer join too, on the side of which all rows are to be kept. *)
Theorem outer_join_is_bounded :
  ex_rewritten JRight = PlanHashJoin (ex_join JRight) (PlanScan ex_dim) (PlanNode NRepartition [PlanScan ex_fact_bounded])
  /\ length (scan_rows ex_table_rows ex_fact) = 5%nat /\ length (scan_rows ex_table_rows ex_fact_bounded) = 4%nat.
Proof. split; [|split]; by vm_compute. Qed.

(** It is put on every large scan below the join with a column of the name of the key, also when
    the key is another table's. *)
Definition ex_cross : HashJoin := mkHashJoin JInner [] None.
Definition ex_two_facts : ExecutionPlan :=
  PlanHashJoin (ex_join JInner) (PlanScan ex_dim) (PlanHashJoin ex_cross (PlanScan ex_fact) (PlanScan ex_fact)).
Theorem other_scan_is_bounded :
  exists plan cache, ex_rewrite ex_two_facts = Ok (plan, cache)
    /\ length (plan_rows ex_table_rows ex_matches ex_two_facts) = 15%nat
    /\ length (plan_rows ex_table_rows ex_matches plan) = 12%nat.
Proof.
  assert (exists plan cache, ex_rewrite ex_two_facts = Ok (plan, cache)) as (plan & cache & E).
  { assert (is_ok (ex_rewrite ex_two_facts) = true) as H by (by vm_compute).
    destruct (ex_rewrite ex_two_facts) as [[plan cache]|]; [by exists plan, cache|done]. }
  exists plan, cache. split; [done|]. split; [by vm_compute|].
  assert (plan = match ex_rewrite ex_two_facts with Ok (plan, _) => plan | Err _ => ex_two_facts end) as -> by (by rewrite E).
  by vm_compute.
Qed.

(** Two tables of middle size are each taken for the fact, in both orders. *)
Definition ex_middle (uuid : Z) (records : string) : ExecutionPlan :=
  PlanScan (mkScan (ex_table_of uuid records) None ["k"%string] None [] None 1).
Theorem swaps_both_ways :
  should_swap_for_star_schema (ex_middle 1 "300000") (ex_middle 2 "200000") = Ok true
  /\ should_swap_for_star_schema (ex_middle 2 "200000") (ex_middle 1 "300000") = Ok true.
Proof. split; by vm_compute. Qed.

(** The division of a scan, and what is lost of it when the partitions plan different files: file
    [b] is planned by both partitions and read by neither, because a join filter that came between
    them took file [a] away. *)
Definition ex_file (path : string) (size : Z) : ScanTask.FileScanTask := FileGroups.ex_task size 0 size path.
Definition ex_scan_of (partitions : Z) : IcebergTableScan := with_scan_partitions ex_fact partitions.
Definition ex_files : list ScanTask.FileScanTask := [ex_file "a" 10; ex_file "b" 9; ex_file "c" 8].
Lemma partitions_read_every_task_witness :
  exists read, (execute (ex_scan_of 2) (fun _ => ex_files) 1 <$> [0; 1]%nat) = Some <$> read /\ concat read ≡ₚ ex_files.
Proof. apply (partitions_read_every_task (ex_scan_of 2) ex_files 1). by vm_compute. Defined.
Theorem file_between_partitions_is_lost :
  execute (ex_scan_of 2) (fun _ => ex_files) 1 0 = Some [ex_file "a" 10]
  /\ execute (ex_scan_of 2) (fun _ => [ex_file "b" 9; ex_file "c" 8]) 1 1 = Some [ex_file "c" 8].
Proof. split; by vm_compute. Qed.

(** Filters pass any node with one input, a limit also. *)
Theorem filter_passes_any_node kind f :
  push_filters_to_fact_scans [f] (PlanNode kind [PlanScan ex_fact])
  = Ok (true, PlanNode kind [PlanScan (set_physical_filters ex_fact [f])]).
Proof. by vm_compute. Qed.
End examples.
