(* ===== verification/Producer.v ===== *)
(** * Producing snapshots (transaction/snapshot.rs, transaction/append.rs)

    [SnapshotProducer] and the fast append.  Storage holds manifest lists and manifests; what
    was written before a failure stays there.  Fresh UUIDs, random numbers and the clock are
    arguments. *)

From S2P Require Import Prelude Utf8 Numerals Values Schema Expr Transform DataFile PartitionSpecs LiteralEq TableMetadata.
From S2P Require Import MetadataBuilder ManifestWriter ManifestList MetadataLocation Commit SnapshotSummary.
From S2P Require Namespace ScanPlan.

Definition META_ROOT_PATH : string := "metadata".
Definition PROPERTY_WRITE_PARTITION_SUMMARY_LIMIT : string := "write.summary.partition-limit".
Definition PROPERTY_WRITE_PARTITION_SUMMARY_LIMIT_DEFAULT : Z := 0.

(** [generate_random_id]: the halves of a random UUID. *)
Definition generate_random_id (uuid : Z * Z) : Z :=
  let snapshot_id := wrapS 64 (Z.lxor uuid.1 uuid.2) in
  if snapshot_id <? 0 then wrapS 64 (- snapshot_id) else snapshot_id.
(** The loop draws until the id is new: [draws] are the UUIDs it gets, [None] when it would need
    another one. *)
Fixpoint generate_unique_snapshot_id (m : TableMetadata) (draws : list (Z * Z)) : option Z :=
  match draws with
  | [] => None
  | uuid :: draws =>
      let id := generate_random_id uuid in
      if existsb (fun s => snapshot_id s =? id) (map_to_list (snapshots m)).*2
      then generate_unique_snapshot_id m draws else Some id
  end.

(** ** State *)

Record ActionCommit := mkActionCommit {
  action_updates : list TableUpdate;
  action_requirements : list TableRequirement;
}.

Record SnapshotProducer := mkSnapshotProducer {
  producer_table : TableMetadata;
  producer_snapshot_id : Z;
  commit_uuid : Z;
  producer_key_metadata : option (list Z);
  snapshot_properties : gmap string string;
  added_data_files : list DataFile;
  manifest_counter : Z;
}.
#[global] Instance SnapshotProducer_updatable : Updatable SnapshotProducer := fun p =>
  mkSnapshotProducer (producer_table p) (producer_snapshot_id p) (commit_uuid p)
    (producer_key_metadata p) (snapshot_properties p) (added_data_files p) (manifest_counter p).

Section producer.
Context {O : HashOrder} {V : ValueLib} {U : UuidText} {A : AvroLists}.

(** Manifest lists and manifests in storage. *)
Record Storage := mkStorage {
  list_files : gmap string avro_file;
  manifest_files : gmap string (list Z);
}.
Abbreviation StorageM := (Namespace.ST Storage).
#[local] Notation "'let*' x ':=' e 'in' k" := (mbind (M := Namespace.ST _) (fun x => k) e)
  (at level 10, x name, e at level 100, k at level 200).
#[local] Abbreviation lift := Namespace.st_lift.

(** [human] is the text of a value, [avro_header] and [avro_entries] the encoding of a manifest,
    [avro_decode] its decoding, and [write_ok] the outcome of a write. *)
Variables (human : Datum -> string)
          (avro_header : ManifestMetadata -> list NestedField -> result unit)
          (avro_entries : ManifestMetadata -> list NestedField -> list ManifestEntry -> result (list Z))
          (avro_decode : list Z -> result (list ManifestEntry))
          (write_ok : string -> result unit).

(** [Snapshot::load_manifest_list], and the entries of a manifest. *)
Definition load_list (st : Storage) (version : FormatVersion) (path : string) : result (list ManifestFile) :=
  let? bs := ok_or (list_files st !! path) DataInvalid in parse_with_version bs version.
Definition load_entries (st : Storage) (m : ManifestFile) : result (list ManifestEntry) :=
  let? bs := ok_or (manifest_files st !! manifest_path m) DataInvalid in avro_decode bs.

Definition producer_new (m : TableMetadata) (id uuid : Z) (key : option (list Z))
    (properties : gmap string string) (files : list DataFile) : SnapshotProducer :=
  mkSnapshotProducer m id uuid key properties files 0.

(** ** Validation *)

(** [zip] of values and fields of the same number; a nested value panics. *)
Fixpoint partition_values_ok (values : Struct) (fields : list NestedField) : result unit :=
  match values, fields with
  | value :: values, field :: fields =>
      let? ty := ok_or (as_primitive_type (field_type field)) Unexpected in
      let? _ :=
        match value with
        | Some (LPrimitive l) => ensure (compatible ty l) DataInvalid
        | Some _ => Err Panic
        | None => Ok tt
        end in
      partition_values_ok values fields
  | _, _ => Ok tt
  end.
Definition validate_partition_value (value : Struct) (fields : list NestedField) : result unit :=
  let? _ := ensure (Nat.eqb (length value) (length fields)) DataInvalid in
  partition_values_ok value fields.

Definition validate_added_data_files (self : SnapshotProducer) : result unit :=
  let m := producer_table self in
  try_fold (fun _ file =>
              let? _ := ensure (bool_decide (content file = Data)) DataInvalid in
              let? _ := ensure (spec_id (default_spec m) =? partition_spec_id file) DataInvalid in
              validate_partition_value (partition file) (default_partition_type m))
    tt (added_data_files self).

Definition validate_duplicate_files (st : Storage) (self : SnapshotProducer) : result unit :=
  let m := producer_table self in
  let new_files : gset string := list_to_set (file_path <$> added_data_files self) in
  let? current := current_snapshot m in
  match current with
  | None => Ok tt
  | Some s =>
      let? list := load_list st (format_version m) (manifest_list s) in
      let? manifests := mapR (ScanPlan.load_manifest (load_entries st)) list in
      let referenced :=
        List.filter (fun e => bool_decide (file_path (data_file e) ∈ new_files) && is_alive e)
          (concat manifests) in
      ensure (Nat.eqb (length referenced) 0) DataInvalid
  end.

(** ** Manifests *)

Definition new_manifest_writer (self : SnapshotProducer) (content : ManifestContentType) :
    result (ManifestWriter * SnapshotProducer) :=
  let m := producer_table self in
  let path := (location m ++ "/" ++ META_ROOT_PATH ++ "/" ++ text (uuid_to_string (commit_uuid self))
               ++ "-m" ++ text (to_string_u (manifest_counter self)) ++ ".avro")%string in
  let? schema := current_schema m in
  let builder := mkManifestWriterBuilder path (Some (producer_snapshot_id self))
                   (producer_key_metadata self) schema (default_spec m) in
  Ok (match format_version m, content with
      | V1, _ => build_v1 builder
      | V2, MData => build_v2_data builder
      | V2, MDeletes => build_v2_deletes builder
      | V3, MData => build_v3_data builder
      | V3, MDeletes => build_v3_deletes builder
      end,
      self <| manifest_counter := manifest_counter self + 1 |>).

Definition new_entry (self : SnapshotProducer) (file : DataFile) : ManifestEntry :=
  mkManifestEntry Added
    (if bool_decide (format_version (producer_table self) = V1) then Some (producer_snapshot_id self) else None)
    None None file.
Definition write_added_manifest (self : SnapshotProducer) : StorageM (ManifestFile * SnapshotProducer) := fun st =>
  (let files := added_data_files self in
   let self := self <| added_data_files := [] |> in
   let* _ := lift (ensure (negb (Nat.eqb (length files) 0)) PreconditionFailed) in
   let* writer := lift (new_manifest_writer self MData) in
   let* w := lift (try_fold add_entry writer.1 (new_entry self <$> files)) in
   let* written := lift (write_manifest_file avro_header avro_entries write_ok w (manifest_files st)) in
   fun st => (Ok (written.1, writer.2), mkStorage (list_files st) written.2)) st.

(** ** Operations

    What an operation keeps of the current snapshot, and the trait [ManifestProcess]. *)
Record SnapshotProduceOperation := mkProduceOperation {
  produced_operation : Operation;
  existing_manifest : Storage -> SnapshotProducer -> result (list ManifestFile);
}.
Definition FastAppendOperation : SnapshotProduceOperation :=
  mkProduceOperation Append (fun st self =>
    let m := producer_table self in
    let? current := current_snapshot m in
    match current with
    | None => Ok []
    | Some s =>
        let? list := load_list st (format_version m) (manifest_list s) in
        Ok (List.filter (fun e => has_added_files e || has_existing_files e) list)
    end).
Definition DefaultManifestProcess (self : SnapshotProducer) (manifests : list ManifestFile) :
    list ManifestFile := manifests.

Definition manifest_file (op : SnapshotProduceOperation)
    (process : SnapshotProducer -> list ManifestFile -> list ManifestFile) (self : SnapshotProducer) :
    StorageM (list ManifestFile) := fun st =>
  (let* _ := lift (ensure (negb (Nat.eqb (length (added_data_files self)) 0
                                 && bool_decide (snapshot_properties self = ∅))) PreconditionFailed) in
   let* existing := lift (existing_manifest op st self) in
   if Nat.eqb (length (added_data_files self)) 0 then mret (process self existing)
   else
     let* added := write_added_manifest self in
     mret (process added.2 (existing ++ [added.1]))) st.

Definition producer_summary (op : SnapshotProduceOperation) (self : SnapshotProducer) : result Summary :=
  let m := producer_table self in
  let limit :=
    default PROPERTY_WRITE_PARTITION_SUMMARY_LIMIT_DEFAULT
      (properties m !! PROPERTY_WRITE_PARTITION_SUMMARY_LIMIT ≫= fun v => parse_unsigned 64 (lit v)) in
  let? c :=
    try_fold (fun c f =>
                let? schema := current_schema m in
                collector_add_file human c schema (default_spec m) f)
      (set_partition_summary_limit collector_new limit) (added_data_files self) in
  let previous_snapshot : option Snapshot :=
    match snapshot_by_id m (producer_snapshot_id self) with
    | Some s => parent_snapshot_id s ≫= fun parent_id => snapshot_by_id m parent_id
    | None => None
    end in
  update_snapshot_summaries
    (mkSummary (produced_operation op) (snapshot_properties self ∪ collector_build c))
    (summary <$> previous_snapshot) match produced_operation op with Overwrite => true | _ => false end.

(** ** [commit] *)

Definition generate_manifest_list_file_path (self : SnapshotProducer) (attempt : Z) : string :=
  (location (producer_table self) ++ "/" ++ META_ROOT_PATH ++ "/snap-"
   ++ text (to_string_i (producer_snapshot_id self)) ++ "-" ++ text (to_string_i attempt) ++ "-"
   ++ text (uuid_to_string (commit_uuid self)) ++ ".avro")%string.
Definition new_list_writer (self : SnapshotProducer) : ManifestListWriter :=
  let m := producer_table self in
  let path := generate_manifest_list_file_path self 0 in
  let id := producer_snapshot_id self in
  match format_version m with
  | V1 => list_v1 path id (current_snapshot_id m)
  | V2 => list_v2 path id (current_snapshot_id m) (next_sequence_number m)
  | V3 => list_v3 path id (current_snapshot_id m) (next_sequence_number m) (Some (next_row_id m))
  end.

(** [map_err] of the summary. *)
Definition as_unexpected {B} (r : result B) : result B :=
  match r with Err (Error _) => Err (Error Unexpected) | r => r end.
Definition list_close (w : ManifestListWriter) : StorageM unit := fun st =>
  match close write_ok w (list_files st) with
  | Ok files => (Ok tt, mkStorage files (manifest_files st))
  | Err e => (Err e, st)
  end.

Definition new_snapshot (self : SnapshotProducer) (s : Summary) (commit_ts : Z) (next : option Z) : Snapshot :=
  let m := producer_table self in
  mkSnapshot (producer_snapshot_id self) (current_snapshot_id m) (next_sequence_number m) commit_ts
    (generate_manifest_list_file_path self 0) s (Some (current_schema_id m)) None
    ((fun next => mkRowRange (next_row_id m) (wrapU 64 (next - next_row_id m))) <$> next).
Definition producer_commit (op : SnapshotProduceOperation)
    (process : SnapshotProducer -> list ManifestFile -> list ManifestFile) (commit_ts : Z)
    (self : SnapshotProducer) : StorageM ActionCommit :=
  let m := producer_table self in
  let* s := lift (as_unexpected (producer_summary op self)) in
  let* new_manifests := manifest_file op process self in
  let* w := lift (add_manifests (new_list_writer self) new_manifests) in
  let* _ := list_close w in
  mret (mkActionCommit
          [AddSnapshot (new_snapshot self s commit_ts (list_next_row_id w));
           SetSnapshotRef MAIN_BRANCH
             (mkSnapshotReference (producer_snapshot_id self) (Branch None None None))]
          [UuidMatch (table_uuid m); RefSnapshotIdMatch MAIN_BRANCH (current_snapshot_id m)]).

(** ** The fast append *)

Record FastAppendAction := mkFastAppendAction {
  check_duplicate : bool;
  append_commit_uuid : option Z;
  append_key_metadata : option (list Z);
  append_snapshot_properties : gmap string string;
  append_data_files : list DataFile;
}.

Definition fast_append_commit (now_v7 : Z) (id : Z) (commit_ts : Z) (self : FastAppendAction)
    (m : TableMetadata) : StorageM ActionCommit := fun st =>
  (let producer := producer_new m id (default now_v7 (append_commit_uuid self))
                     (append_key_metadata self) (append_snapshot_properties self)
                     (append_data_files self) in
   let* _ := lift (validate_added_data_files producer) in
   let* _ := lift (if check_duplicate self then validate_duplicate_files st producer else Ok tt) in
   producer_commit FastAppendOperation DefaultManifestProcess commit_ts producer) st.
End producer.
