(* ===== verification/AppendSpec.v ===== *)
(** * What an append commits (transaction/append.rs, transaction/snapshot.rs)

    The producer of snapshots, the writers and the readers together: the manifest and the list
    that an append writes are read back as the files that were added next to what the
    current snapshot keeps, and the totals of its summary. *)

From S2P Require Import Prelude Utf8 Numerals Values Schema Expr Transform DataFile PartitionSpecs LiteralEq TableMetadata.
From S2P Require Import MetadataBuilder ManifestWriter ManifestList Versions MetadataLocation Commit RawValues LiteralJson AvroSchema.
From S2P Require Import ManifestSerde SnapshotSummary Producer.
From S2P Require Namespace ScanPlan PlanSpec Concrete Metrics.

(** ** The manifest of the added files *)

Section added.
Context {V : ValueLib}.

Definition added_entry (id : option Z) (f : DataFile) : ManifestEntry := mkManifestEntry Added id None None f.

(** A writer with entries added, and its counters. *)
Definition grown (w : ManifestWriter) (entries : list ManifestEntry) (files rows : Z) : ManifestWriter :=
  w <| manifest_entries := manifest_entries w ++ entries |>
    <| ManifestWriter.added_files := files |> <| ManifestWriter.added_rows := rows |>.

Lemma add_new_entry_Ok w p f w' :
  add_entry w (new_entry p f) = Ok w' ->
  w' = grown w [added_entry (writer_snapshot_id w) f] (wrapU 32 (ManifestWriter.added_files w + 1))
         (wrapU 64 (ManifestWriter.added_rows w + record_count f)).
Proof. unfold add_entry. intros ([] & _ & E)%bind_Ok. by injection E as <-. Qed.

(** The counters are exact up to their width. *)
Lemma add_new_entries_Ok w p files w' :
  wrapU 32 (ManifestWriter.added_files w) = ManifestWriter.added_files w ->
  wrapU 64 (ManifestWriter.added_rows w) = ManifestWriter.added_rows w ->
  try_fold add_entry w (new_entry p <$> files) = Ok w' ->
  w' = grown w (added_entry (writer_snapshot_id w) <$> files)
         (wrapU 32 (ManifestWriter.added_files w + Z.of_nat (length files)))
         (wrapU 64 (ManifestWriter.added_rows w + sum_of record_count files)).
Proof.
  revert w. induction files as [|f files IH]; intros w Hn Hr; cbn [fmap list_fmap try_fold].
  - intros [= <-]. cbn [length sum_of foldr]. rewrite !Z.add_0_r, Hn, Hr. unfold grown. rewrite app_nil_r. by destruct w.
  - intros (w1 & ->%add_new_entry_Ok & E)%bind_Ok. apply IH in E as ->.
    + assert (sum_of record_count (f :: files) = record_count f + sum_of record_count files) as -> by done.
      rewrite (length_cons f), Nat2Z.inj_succ, <- Z.add_1_l. unfold grown. cbn -[wrapU Z.of_nat sum_of Z.add].
      by rewrite !wrapU_add, <- !Z.add_assoc, <- app_assoc.
    + apply Z.mod_mod. lia.
    + apply Z.mod_mod. lia.
Qed.
End added.

(** ** Runs of the store monad *)

Lemma st_bind_Ok {S A B} (m : Namespace.ST S A) (f : A -> Namespace.ST S B) s b s' :
  (m ≫= f) s = (Ok b, s') -> exists a s1, m s = (Ok a, s1) /\ f a s1 = (Ok b, s').
Proof. rewrite st_bind_run. destruct (m s) as [[a|e] s1]; [|done]. by exists a, s1. Qed.
Lemma st_lift_Ok {S A} (r : result A) (s s' : S) a : Namespace.st_lift r s = (Ok a, s') -> r = Ok a /\ s' = s.
Proof. by intros [= -> ->]. Qed.
Ltac st_step H a Ha :=
  apply st_bind_Ok in H as (a & ? & [Ha ->]%st_lift_Ok & H).

(** ** Storage after an append *)

Section append.
Context {O : HashOrder} {HL : HashOrderLaws O} {V : ValueLib} {U : UuidText} {A : AvroLists} {AL : AvroListsLaws A}
        {LC : Lowercase} {LL : LowercaseLaws LC} {J : JsonText} {N : AvroNames} {MJ : ManifestJson}
        {AM : AvroManifests} {AML : AvroManifestsLaws AM}.
Context (human : Datum -> string) (write_ok : string -> result unit).

Definition decode (bs : list Z) : result (list ManifestEntry) := snd <$> try_from_avro_bytes bs.

(** A manifest that an append made, as it is before it is listed. *)
Record fresh_manifest (p : SnapshotProducer) (m : ManifestFile) : Prop := {
  fm_content : manifest_content m = MData;
  fm_sequence : sequence_number m = UNASSIGNED_SEQUENCE_NUMBER;
  fm_min_sequence : min_sequence_number m = UNASSIGNED_SEQUENCE_NUMBER;
  fm_snapshot : added_snapshot_id m = producer_snapshot_id p;
  fm_spec : manifest_partition_spec_id m = spec_id (default_spec (producer_table p));
  fm_row_id : manifest_first_row_id m = None;
  fm_counts : counts_ok m;
  fm_files : added_files_count m = Some (wrapU 32 (Z.of_nat (length (added_data_files p))));
  fm_rows : added_rows_count m = Some (wrapU 64 (sum_of record_count (added_data_files p)));
  fm_old_rows : existing_rows_count m = Some 0;
}.

Definition manifest_header (p : SnapshotProducer) (schema : Schema) : ManifestMetadata :=
  mkManifestMetadata schema (schema_id schema) (default_spec (producer_table p))
    (format_version (producer_table p)) MData.

Lemma new_manifest_writer_Ok p w p' :
  new_manifest_writer p MData = Ok (w, p') ->
  producer_table p' = producer_table p
  /\ exists schema path, current_schema (producer_table p) = Ok schema
       /\ w = manifest_writer_new path (Some (producer_snapshot_id p)) (producer_key_metadata p)
                (manifest_header p schema) None.
Proof.
  unfold new_manifest_writer. intros (schema & Hs & [= <- <-])%bind_Ok. split; [done|].
  exists schema. eexists. split; [done|]. unfold manifest_header.
  by destruct (format_version (producer_table p)).
Qed.

Lemma write_added_manifest_Ok p st m p' st' :
  write_added_manifest encode_header encode_entries write_ok p st = (Ok (m, p'), st') ->
  fresh_manifest p m /\ producer_table p' = producer_table p
  /\ exists schema fields bs, current_schema (producer_table p) = Ok schema
       /\ partition_type (default_spec (producer_table p)) schema = Ok fields
       /\ encode_entries (manifest_header p schema) fields
            (added_entry (Some (producer_snapshot_id p)) <$> added_data_files p) = Ok bs
       /\ st' = mkStorage (list_files st) (<[manifest_path m := bs]> (manifest_files st)).
Proof.
  unfold write_added_manifest. intros H. st_step H u Hne. st_step H wr Hw. st_step H w Hadd. st_step H written Hwr.
  injection H as <- <- <-. destruct wr as [w0 p1].
  apply new_manifest_writer_Ok in Hw as (Hp & schema & path & Hs & Hw0). cbn [fst snd] in *.
  apply add_new_entries_Ok in Hadd as ->; [|by rewrite Hw0..]. subst w0.
  destruct written as [m files']. unfold write_manifest_file in Hwr. cbn in Hwr.
  apply bind_Ok in Hwr as (fields & Hf & E). apply bind_Ok in E as ([] & _ & E).
  apply bind_Ok in E as (sums & _ & E). apply bind_Ok in E as (bs & Hb & E).
  apply bind_Ok in E as ([] & _ & [= <- <-]). cbn.
  split; [|split; [done|by exists schema, fields, bs]]. split; try done. split_and!; cbn; try done; apply Z.mod_pos_bound; lia.
Qed.
(** ** Reading it back *)

(** The entry of an added file once it inherited what its manifest has. *)
Definition appended_entry (p : SnapshotProducer) (schema : Schema) (f : DataFile) : ManifestEntry :=
  let seq := Some (next_sequence_number (producer_table p)) in
  mkManifestEntry Added (Some (producer_snapshot_id p)) seq seq
    (stored_file (format_version (producer_table p)) schema (spec_id (default_spec (producer_table p))) f).

Lemma appended_inherits p schema f m :
  sequence_number m = next_sequence_number (producer_table p) ->
  inherit_data (stored_entry (manifest_header p schema) (added_entry (Some (producer_snapshot_id p)) f)) m
  = appended_entry p schema f.
Proof.
  intros Hm. unfold stored_entry, appended_entry, inherit_data, next_sequence_number, manifest_header in *.
  cbn [manifest_format_version added_entry]. by destruct (format_version _); cbn; rewrite ?Hm.
Qed.

Lemma added_files_read p schema fields files bs st m :
  header_kept (manifest_header p schema) ->
  partition_type (default_spec (producer_table p)) schema = Ok fields ->
  Forall (file_fits schema fields) files ->
  encode_entries (manifest_header p schema) fields (added_entry (Some (producer_snapshot_id p)) <$> files) = Ok bs ->
  manifest_files st !! manifest_path m = Some bs ->
  sequence_number m = next_sequence_number (producer_table p) ->
  ScanPlan.load_manifest (load_entries decode st) m = Ok (appended_entry p schema <$> files).
Proof.
  intros Hrows Hf Hfit Hb Hst Hseq. unfold ScanPlan.load_manifest, load_entries. rewrite Hst.
  cbn [ok_or mbind result_bind]. unfold decode.
  erewrite (entries_read_back (manifest_header p schema) fields); [|done|done| |done].
  - cbn [fmap result_fmap mbind result_bind snd]. f_equal. rewrite <- !list_fmap_compose.
    apply list_fmap_ext. intros _ f _. by apply appended_inherits.
  - apply Forall_fmap. exact Hfit.
Qed.

Lemma listed_snoc version seq next ms m :
  listed version seq next (ms ++ [m])
  = listed version seq next ms ++ [listed_one version seq ((fun n => n + rows_total ms) <$> next) m].
Proof.
  revert next. induction ms as [|x ms IH]; intros next; cbn [listed app rows_total foldr].
  - f_equal. f_equal. destruct next; cbn; [|done]. f_equal. lia.
  - rewrite IH. f_equal. f_equal. f_equal. f_equal. destruct next; cbn; [|done]. f_equal. unfold rows_total. cbn. lia.
Qed.

(** The first row id of the list of a version. *)
Definition list_first (m : TableMetadata) : option Z :=
  match format_version m with V3 => Some (next_row_id m) | _ => None end.
Definition listed_by (m : TableMetadata) (ms : list ManifestFile) : list ManifestFile :=
  as_read (format_version m) <$> listed (format_version m) (next_sequence_number m) (list_first m) ms.

Lemma new_list_writer_eq p :
  exists md, new_list_writer p
    = list_writer_new (format_version (producer_table p)) (generate_manifest_list_file_path p 0) md
        (next_sequence_number (producer_table p)) (producer_snapshot_id p) (list_first (producer_table p)).
Proof.
  unfold new_list_writer, list_first, next_sequence_number.
  destruct (format_version (producer_table p)); eexists; reflexivity.
Qed.

Lemma fresh_listed p m n :
  fresh_manifest p m ->
  let m' := as_read (format_version (producer_table p))
              (listed_one (format_version (producer_table p)) (next_sequence_number (producer_table p)) n m) in
  manifest_path m' = manifest_path m /\ added_snapshot_id m' = producer_snapshot_id p
  /\ manifest_content m' = MData /\ sequence_number m' = next_sequence_number (producer_table p).
Proof.
  intros []. unfold listed_one, numbered, next_sequence_number, or_number.
  destruct (format_version (producer_table p)); cbn; rewrite ?fm_sequence0; done.
Qed.
(** ** The whole append *)

Definition append_producer (now_v7 id : Z) (a : FastAppendAction) (m : TableMetadata) : SnapshotProducer :=
  producer_new m id (default now_v7 (append_commit_uuid a)) (append_key_metadata a)
    (append_snapshot_properties a) (append_data_files a).
(** The manifests that an append keeps. *)
Definition kept_manifests (st : Storage) (m : TableMetadata) : result (list ManifestFile) :=
  existing_manifest FastAppendOperation st (producer_new m 0 0 None ∅ []).

Lemma existing_manifest_kept st p :
  existing_manifest FastAppendOperation st p = kept_manifests st (producer_table p).
Proof. done. Qed.
Lemma kept_counts st m kept : kept_manifests st m = Ok kept -> Forall counts_ok kept.
Proof.
  unfold kept_manifests. cbn. intros (current & _ & E)%bind_Ok. destruct current as [s|]; [|by injection E as <-].
  apply bind_Ok in E as (l & Hl & [= <-]). unfold load_list in Hl. apply bind_Ok in Hl as (bs & _ & Hl).
  apply parsed_counts_ok in Hl. rewrite List.Forall_forall in *. intros e [He _]%filter_In. by apply Hl.
Qed.

Lemma manifest_file_Ok p st ms st' :
  manifest_file encode_header encode_entries write_ok FastAppendOperation DefaultManifestProcess p st = (Ok ms, st') ->
  added_data_files p <> [] ->
  exists kept m, kept_manifests st (producer_table p) = Ok kept /\ ms = kept ++ [m] /\ fresh_manifest p m
    /\ exists schema fields bs, current_schema (producer_table p) = Ok schema
       /\ partition_type (default_spec (producer_table p)) schema = Ok fields
       /\ encode_entries (manifest_header p schema) fields
            (added_entry (Some (producer_snapshot_id p)) <$> added_data_files p) = Ok bs
       /\ st' = mkStorage (list_files st) (<[manifest_path m := bs]> (manifest_files st)).
Proof.
  unfold manifest_file. intros H Hne. st_step H u Hu. st_step H kept Hk. rewrite existing_manifest_kept in Hk.
  destruct (added_data_files p) as [|f files] eqn:Ef; [done|]. cbn [length Nat.eqb] in H.
  apply st_bind_Ok in H as ([m p'] & s1 & Hw & H). injection H as <- <-.
  apply write_added_manifest_Ok in Hw as (Hm & Hp & schema & fields & bs & ?). rewrite Ef in *.
  exists kept, m. split; [done|]. split; [done|]. split; [done|]. by exists schema, fields, bs.
Qed.

Lemma producer_commit_Ok avro_header avro_entries p ts ac st st' :
  producer_commit human avro_header avro_entries write_ok FastAppendOperation DefaultManifestProcess ts p st = (Ok ac, st') ->
  exists s ms w st1,
    manifest_file avro_header avro_entries write_ok FastAppendOperation DefaultManifestProcess p st = (Ok ms, st1)
    /\ add_manifests (new_list_writer p) ms = Ok w
    /\ close write_ok w (list_files st1) = Ok (list_files st') /\ manifest_files st' = manifest_files st1
    /\ ac = mkActionCommit
              [AddSnapshot (new_snapshot p s ts (list_next_row_id w));
               SetSnapshotRef MAIN_BRANCH (mkSnapshotReference (producer_snapshot_id p) (Branch None None None))]
              [UuidMatch (table_uuid (producer_table p));
               RefSnapshotIdMatch MAIN_BRANCH (current_snapshot_id (producer_table p))].
Proof.
  unfold producer_commit. intros H. st_step H s Hs. apply st_bind_Ok in H as (ms & st1 & Hms & H).
  st_step H w Hw. apply st_bind_Ok in H as (u & st2 & Hc & H). injection H as <- <-.
  exists s, ms, w, st1. unfold list_close in Hc. destruct (close _ _ _) eqn:E; [|done].
  injection Hc as <- <-. done.
Qed.

Lemma fast_append_commit_Ok avro_header avro_entries avro_decode now_v7 id ts a m ac st st' :
  fast_append_commit human avro_header avro_entries avro_decode write_ok now_v7 id ts a m st = (Ok ac, st') ->
  producer_commit human avro_header avro_entries write_ok FastAppendOperation DefaultManifestProcess ts
    (append_producer now_v7 id a m) st = (Ok ac, st')
  /\ validate_added_data_files (append_producer now_v7 id a m) = Ok tt.
Proof.
  unfold fast_append_commit. intros H. st_step H u Hu. st_step H u' Hu'. by destruct u.
Qed.

(** What an append to a table is: the snapshot, the manifests that stay and the new one as they
    are read from its list, and the files that are read from the new manifest. *)
Record appended (m : TableMetadata) (id : Z) (files : list DataFile) (st st' : Storage) (s : Snapshot) : Prop := {
  ap_id : snapshot_id s = id;
  ap_parent : parent_snapshot_id s = current_snapshot_id m;
  ap_sequence : snapshot_sequence_number s = next_sequence_number m;
  ap_read : exists schema kept m', current_schema m = Ok schema
    /\ kept_manifests st m = Ok kept
    /\ load_list st' (format_version m) (manifest_list s) = Ok (listed_by m kept ++ [m'])
    /\ manifest_content m' = MData /\ added_snapshot_id m' = id
    /\ ScanPlan.load_manifest (load_entries decode st') m'
       = Ok (appended_entry (producer_new m id 0 None ∅ []) schema <$> files)
    /\ forall path, path <> manifest_path m' -> manifest_files st' !! path = manifest_files st !! path;
}.

Lemma commit_appends p ts ac st st' schema fields :
  producer_commit human encode_header encode_entries write_ok FastAppendOperation DefaultManifestProcess ts p st = (Ok ac, st') ->
  added_data_files p <> [] ->
  current_schema (producer_table p) = Ok schema ->
  partition_type (default_spec (producer_table p)) schema = Ok fields ->
  Forall (file_fits schema fields) (added_data_files p) -> header_kept (manifest_header p schema) ->
  exists s, action_updates ac
    = [AddSnapshot s; SetSnapshotRef MAIN_BRANCH (mkSnapshotReference (producer_snapshot_id p) (Branch None None None))]
    /\ appended (producer_table p) (producer_snapshot_id p) (added_data_files p) st st' s.
Proof.
  intros H Hne Hschema Hfields Hfit Hrows.
  apply producer_commit_Ok in H as (sm & ms & w & st1 & Hms & Hw & Hc & Hfiles & ->).
  apply manifest_file_Ok in Hms as (kept & m & Hk & -> & Hm & schema' & fields' & bs & Hs' & Hf' & Hb & ->); [|done].
  assert (schema' = schema) as -> by congruence. assert (fields' = fields) as -> by congruence.
  eexists. split; [reflexivity|]. split; [done..|].
  exists schema, kept, (as_read (format_version (producer_table p))
    (listed_one (format_version (producer_table p)) (next_sequence_number (producer_table p))
       ((fun n => n + rows_total kept) <$> list_first (producer_table p)) m)).
  destruct (fresh_listed p m ((fun n => n + rows_total kept) <$> list_first (producer_table p)) Hm)
    as (Hpath & Hid & Hcontent & Hseq).
  assert (Forall counts_ok (kept ++ [m])) as Hcounts.
  { apply Forall_app. split; [by eapply kept_counts|]. apply Forall_singleton, Hm. }
  split; [done|]. split; [done|]. split; [|split; [done|split; [done|split]]].
  - destruct (new_list_writer_eq p) as [md Emd]. rewrite Emd in Hw.
    destruct (list_reads_back _ _ _ _ _ _ _ _ _ _ _ Hcounts Hw Hc) as (lbs & Hl & Hp).
    unfold load_list. cbn [manifest_list new_snapshot]. rewrite Hl. cbn [ok_or mbind result_bind]. rewrite Hp.
    unfold listed_by. by rewrite listed_snoc, fmap_app.
  - apply (added_files_read p schema fields _ bs); [done..| |done].
    rewrite Hfiles, Hpath. apply lookup_insert_eq.
  - intros path Hne'. rewrite Hpath in Hne'. rewrite Hfiles. cbn [manifest_files]. by apply lookup_insert_ne, not_eq_sym.
Qed.
Lemma fast_append_reads now_v7 id ts a m ac st st' schema fields :
  fast_append_commit human encode_header encode_entries decode write_ok now_v7 id ts a m st = (Ok ac, st') ->
  append_data_files a <> [] ->
  current_schema m = Ok schema -> partition_type (default_spec m) schema = Ok fields ->
  Forall (file_fits schema fields) (append_data_files a) ->
  header_kept (manifest_header (append_producer now_v7 id a m) schema) ->
  exists s, action_updates ac
    = [AddSnapshot s; SetSnapshotRef MAIN_BRANCH (mkSnapshotReference id (Branch None None None))]
    /\ appended m id (append_data_files a) st st' s.
Proof.
  intros [H _]%fast_append_commit_Ok Hne Hs Hf Hfit Hrows.
  exact (commit_appends (append_producer now_v7 id a m) ts ac st st' schema fields H Hne Hs Hf Hfit Hrows).
Qed.

(** After a fast append the list of the new snapshot is read as the manifests that the current
    snapshot keeps and one more, whose entries are read as the added files, each with the id
    of the new snapshot and with its sequence number; no other manifest changes. *)
Theorem append_is_read now_v7 id ts a m ac st st' schema fields :
  fast_append_commit human encode_header encode_entries decode write_ok now_v7 id ts a m st = (Ok ac, st') ->
  append_data_files a <> [] ->
  current_schema m = Ok schema -> partition_type (default_spec m) schema = Ok fields ->
  Forall (file_fits schema fields) (append_data_files a) ->
  header_kept (manifest_header (append_producer now_v7 id a m) schema) ->
  exists s, action_updates ac
    = [AddSnapshot s; SetSnapshotRef MAIN_BRANCH (mkSnapshotReference id (Branch None None None))]
    /\ appended m id (append_data_files a) st st' s.
Proof. apply fast_append_reads. Qed.

Lemma list_row_range p ms w :
  Forall counts_ok ms -> 0 <= next_row_id (producer_table p) < 2 ^ 64 ->
  add_manifests (new_list_writer p) ms = Ok w ->
  (fun next => mkRowRange (next_row_id (producer_table p)) (wrapU 64 (next - next_row_id (producer_table p))))
    <$> list_next_row_id w
  = match format_version (producer_table p) with
    | V3 => Some (mkRowRange (next_row_id (producer_table p)) (rows_total ms))
    | _ => None
    end.
Proof.
  intros Hc Hn Hw. destruct (new_list_writer_eq p) as [md Emd]. rewrite Emd in Hw. unfold list_first in Hw.
  destruct (format_version (producer_table p)) eqn:Ev.
  1,2: apply add_manifests_no_rows in Hw; [by rewrite Hw|done].
  apply add_manifests_Ok in Hw as (_ & _ & _ & _ & _ & Hrows). destruct (Hrows eq_refl) as [E Hlt].
  cbn [list_next_row_id list_writer_new fmap option_fmap option_map] in E, Hlt. rewrite E. cbn. do 2 f_equal.
  rewrite Z.add_simpl_l. unfold wrapU. apply Z.mod_small.
  pose proof (rows_total_nonneg _ Hc). destruct (Hlt _ E) as [[= Hz]|]; lia.
Qed.

(** A list that was closed is read as its manifests as they were appended. *)
Lemma list_is_read p ms w st st' :
  Forall counts_ok ms -> add_manifests (new_list_writer p) ms = Ok w ->
  close write_ok w (list_files st) = Ok (list_files st') ->
  load_list st' (format_version (producer_table p)) (generate_manifest_list_file_path p 0)
  = Ok (listed_by (producer_table p) ms).
Proof.
  intros Hc Hw Hcl. destruct (new_list_writer_eq p) as [md Emd]. rewrite Emd in Hw.
  destruct (list_reads_back _ _ _ _ _ _ _ _ _ _ _ Hc Hw Hcl) as (bs & Hl & Hp). unfold load_list. by rewrite Hl.
Qed.

(** C35 The snapshot of a fast append has a row range only in version 3: it starts at the next row
    id of the table, with an id for each row of the kept manifests that had no row ids yet
    and for each record of the appended files (a total kept in 64 bits).  The list that the
    append writes is read as the kept manifests, numbered in turn, and one that counts the
    appended files and their records, and that takes the ids after those of the kept ones. *)
Theorem append_takes_rows now_v7 id ts a m ac st st' s :
  0 <= next_row_id m < 2 ^ 64 -> append_data_files a <> [] ->
  fast_append_commit human encode_header encode_entries decode write_ok now_v7 id ts a m st = (Ok ac, st') ->
  AddSnapshot s ∈ action_updates ac ->
  let rows := wrapU 64 (sum_of record_count (append_data_files a)) in
  takes_next_rows m (AddSnapshot s)
  /\ exists kept m', kept_manifests st m = Ok kept
       /\ load_list st' (format_version m) (manifest_list s) = Ok (listed_by m kept ++ [m'])
       /\ added_files_count m' = Some (wrapU 32 (Z.of_nat (length (append_data_files a))))
       /\ added_rows_count m' = Some rows
       /\ (manifest_first_row_id m', row_range s)
          = match format_version m with
            | V3 => (Some (next_row_id m + rows_total kept), Some (mkRowRange (next_row_id m) (rows_total kept + rows)))
            | _ => (None, None)
            end.
Proof.
  intros Hn Hne [H _]%fast_append_commit_Ok Hs rows.
  apply producer_commit_Ok in H as (sm & ms & w & st1 & Hms & Hw & Hcl & _ & ->).
  apply manifest_file_Ok in Hms as (kept & m' & Hk & -> & Hm & _); [|done].
  assert (Forall counts_ok (kept ++ [m'])) as Hcounts.
  { apply Forall_app. split; [by eapply kept_counts|]. apply Forall_singleton, Hm. }
  assert (s = new_snapshot (append_producer now_v7 id a m) sm ts (list_next_row_id w)) as ->.
  { cbn in Hs. rewrite !elem_of_cons in Hs. destruct Hs as [[= ->]|[?|[]%not_elem_of_nil]]; done. }
  assert (E := list_row_range (append_producer now_v7 id a m) _ _ Hcounts Hn Hw). cbn [producer_table append_producer producer_new] in E.
  assert (rows_total (kept ++ [m']) = rows_total kept + rows) as Ht.
  { rewrite rows_total_app. cbn [rows_total foldr]. unfold new_rows.
    by rewrite (fm_content _ _ Hm), (fm_row_id _ _ Hm), (fm_old_rows _ _ Hm), (fm_rows _ _ Hm), Z.add_0_r. }
  split.
  - unfold takes_next_rows. cbn [row_range new_snapshot producer_table append_producer producer_new]. rewrite E.
    pose proof (rows_total_nonneg _ Hcounts). by destruct (format_version m).
  - pose proof (list_is_read _ _ _ _ _ Hcounts Hw Hcl) as Hl.
    cbn [producer_table append_producer producer_new] in Hl. unfold listed_by in Hl. rewrite listed_snoc, fmap_app in Hl.
    eexists kept, _. split; [exact Hk|]. split; [exact Hl|]. cbn [row_range new_snapshot producer_table append_producer producer_new].
    rewrite E, Ht. unfold list_first. pose proof (fm_files _ _ Hm) as Hf. pose proof (fm_rows _ _ Hm) as Hr.
    pose proof (fm_content _ _ Hm) as Hc. pose proof (fm_row_id _ _ Hm) as Hi.
    destruct m'. cbn in Hf, Hr, Hc, Hi. subst. by destruct (format_version m).
Qed.
End append.

(** ** The totals of an append *)

Section totals.
Context {O : HashOrder} {L : HashOrderLaws O}.

Lemma generated_id_is_new m draws id :
  map_Forall (fun k s => snapshot_id s = k) (snapshots m) ->
  generate_unique_snapshot_id m draws = Some id -> snapshot_by_id m id = None.
Proof.
  intros Hk. induction draws as [|uuid draws IH]; cbn [generate_unique_snapshot_id]; [done|].
  destruct (existsb _ _) eqn:E; [done|]. intros [= <-]. unfold snapshot_by_id.
  destruct (snapshots m !! generate_random_id uuid) as [s|] eqn:Es; [|done].
  enough (existsb (fun s => snapshot_id s =? generate_random_id uuid) (map_to_list (snapshots m)).*2 = true) by congruence.
  apply existsb_exists. exists s. split; [|by rewrite (Hk _ _ Es), Z.eqb_refl].
  apply list_elem_of_In, list_elem_of_fmap. exists (generate_random_id uuid, s). split; [done|].
  by apply elem_of_map_to_list.
Qed.

(** The totals in the summary of a fast append are those of the added files only, whatever the
    totals of the current snapshot are: the previous snapshot is looked up under the id of the
    new one, which the table does not have. *)
Theorem totals_restart human draws id uuid key m props files s :
  map_Forall (fun k s => snapshot_id s = k) (snapshots m) ->
  generate_unique_snapshot_id m draws = Some id ->
  Forall (fun f => content f = Data) files -> (forall key, key ∈ COUNTS -> props !! key = None) ->
  producer_summary human FastAppendOperation (producer_new m id uuid key props files) = Ok s ->
  parse_count (additional_properties s) TOTAL_DATA_FILES = Ok (Some (wrapU 32 (Z.of_nat (length files))))
  /\ parse_count (additional_properties s) TOTAL_RECORDS = Ok (Some (wrapU 64 (sum_of record_count files)))
  /\ parse_count (additional_properties s) TOTAL_FILE_SIZE
     = Ok (Some (wrapU 64 (sum_of file_size_in_bytes files))).
Proof.
  intros Hk Hid Hf Hp. unfold producer_summary. intros (c & Hc & E)%bind_Ok.
  cbn [producer_table producer_new producer_snapshot_id added_data_files snapshot_properties] in *.
  rewrite (generated_id_is_new _ _ _ Hk Hid) in E. cbn [produced_operation FastAppendOperation fmap option_fmap option_map] in E.
  assert (exists schema limit, try_fold (fun c f => collector_add_file human c schema (default_spec m) f)
            (set_partition_summary_limit collector_new limit) files = Ok c) as (schema & limit & Hfold).
  { destruct (current_schema m) as [schema|e]; [by eexists schema, _|].
    destruct files; [|done]. by exists (mkSchema [] 0 0 ∅ [] ∅ ∅ ∅ ∅ ∅); eexists. }
  destruct (append_totals _ _ _ _ _ _ _ None _ Hfold Hf Hp E) as (n & r & b & [= <-] & [= <-] & [= <-] & E1 & E2 & E3).
  rewrite Z.add_0_l in E1, E2, E3. split; [|done]. rewrite E1. do 2 f_equal. unfold wrapU.
  apply Z.mod_small. pose proof (Z.mod_pos_bound (Z.of_nat (length files)) (2 ^ 32)). lia.
Qed.
End totals.

(** ** Witness

    A version 3 table whose snapshot has one manifest of 40 rows, and an append of one file of
    2 rows. *)

Section witness.
#[local] Existing Instance Concrete.concrete_values.
#[local] Existing Instance Concrete.concrete_lowercase.
#[local] Existing Instance numeral_uuid.
#[local] Existing Instance plain_json_text.
#[local] Existing Instance any_name.

Definition ex_append_table : TableMetadata :=
  PlanSpec.ex_table <| format_version := V3 |> <| next_row_id := 100 |>
    <| default_partition_type := [mkField 1000 "a_trunc" false (TPrimitive PrimitiveType.Int)] |>
    <| snapshots := {[1 := mkSnapshot 1 None 1 0 "list.avro"
                             (mkSummary Append {[TOTAL_RECORDS := "40"]}) (Some 0) None None]} |>%string.
Definition ex_old_manifest : ManifestFileV3 :=
  mkManifestFileV3 (mkManifestFileV2 "old.avro" 10 0 0 1 1 1 1 0 0 40 0 0 None None) (Some 0).
Definition ex_append_storage : Storage := mkStorage {["list.avro"%string := ([], [], [ex_old_manifest])]}
  {["old.avro"%string := [0]]}.
Definition ex_append_files : list DataFile := [Metrics.ex_file_in PlanSpec.ex_tuple].
Definition ex_append : FastAppendAction := mkFastAppendAction true None None ∅ ex_append_files.
Definition ex_append_fields : list NestedField := [mkField 1000 "a_trunc" false (TPrimitive PrimitiveType.Int)].
Definition ex_append_producer : SnapshotProducer := append_producer 9 77 ex_append ex_append_table.
Definition ex_append_header : ManifestMetadata := manifest_header ex_append_producer PlanSpec.ex_table_schema.
#[local] Instance ex_append_json : ManifestJson :=
  one_json PlanSpec.ex_table_schema (spec_fields (default_spec ex_append_table)).
Definition ex_append_rows : ManifestRows :=
  ok_value (RowsV1 []) (rows_of_entries V3 ex_append_fields (added_entry (Some 77) <$> ex_append_files)).
#[local] Instance ex_append_avro : AvroManifests :=
  let meta := ok_value ∅ (user_metadata ex_append_header) in table_avro [(meta, RowsV2 []); (meta, ex_append_rows)] [].
Definition ex_append_run : result ActionCommit * Storage :=
  fast_append_commit (fun _ => ""%string) encode_header encode_entries decode (fun _ => Ok tt) 9 77 1000
    ex_append ex_append_table ex_append_storage.
Definition ex_append_commit : ActionCommit := ok_value (mkActionCommit [] []) ex_append_run.1.
Lemma ex_append_run_Ok : ex_append_run = (Ok ex_append_commit, ex_append_run.2).
Proof.
  unfold ex_append_commit. rewrite <- (ok_value_Ok _ ex_append_run.1); [by destruct ex_append_run|].
  vm_compute. reflexivity.
Qed.
Lemma ex_append_fit : Forall (file_fits PlanSpec.ex_table_schema ex_append_fields) ex_append_files.
Proof.
  apply Forall_singleton. assert (Hp : tuple_fits ex_append_fields PlanSpec.ex_tuple).
  { repeat constructor. exists PrimitiveType.Int. split; [done|]. intros l [= <-]. by exists (PrimitiveLiteral.Int 0). }
  split; [exact Hp|..]; cbn; try done; try apply map_Forall_empty; try (by apply map_Forall_singleton).
  all: apply map_Forall_singleton; intros f Hf; vm_compute in Hf; injection Hf as <-; by vm_compute.
Qed.
Lemma ex_append_type : partition_type (default_spec ex_append_table) PlanSpec.ex_table_schema = Ok ex_append_fields.
Proof. vm_compute. reflexivity. Qed.
Lemma ex_append_schema : current_schema ex_append_table = Ok PlanSpec.ex_table_schema.
Proof. vm_compute. reflexivity. Qed.
Lemma ex_append_header_kept : header_kept ex_append_header.
Proof.
  split; try done.
  - eexists. vm_compute. reflexivity.
  - by repeat constructor.
Qed.

Lemma append_is_read_witness : exists s, appended ex_append_table 77 ex_append_files ex_append_storage ex_append_run.2 s.
Proof.
  destruct (append_is_read (fun _ => ""%string) (fun _ => Ok tt) 9 77 1000 ex_append ex_append_table ex_append_commit
              ex_append_storage ex_append_run.2 PlanSpec.ex_table_schema ex_append_fields ex_append_run_Ok ltac:(done)
              ex_append_schema ex_append_type ex_append_fit ex_append_header_kept) as (s & _ & H).
  exists s. exact H.
Defined.

Definition ex_appended_snapshot : Snapshot :=
  match action_updates ex_append_commit with AddSnapshot s :: _ => s | _ => PlanSpec.ex_snapshot end.
Lemma ex_adds_snapshot : AddSnapshot ex_appended_snapshot ∈ action_updates ex_append_commit.
Proof. vm_compute. left. Qed.
Lemma append_takes_rows_witness :
  takes_next_rows ex_append_table (AddSnapshot ex_appended_snapshot)
  /\ row_range ex_appended_snapshot = Some (mkRowRange 100 2).
Proof.
  destruct (append_takes_rows (fun _ => ""%string) (fun _ => Ok tt) 9 77 1000 ex_append ex_append_table ex_append_commit
              ex_append_storage ex_append_run.2 ex_appended_snapshot) as [H (kept & m' & Hk & _ & _ & _ & Hr)];
    [done|done|apply ex_append_run_Ok|apply ex_adds_snapshot|].
  split; [exact H|]. assert (E : rows_total <$> kept_manifests ex_append_storage ex_append_table = Ok 0) by (vm_compute; reflexivity).
  rewrite Hk in E. injection E as E. apply (f_equal snd) in Hr. rewrite E in Hr.
  refine (eq_trans Hr _). vm_compute. reflexivity.
Defined.

Definition ex_append_summary : result Summary :=
  producer_summary (fun _ => ""%string) FastAppendOperation
    (producer_new ex_append_table 77 9 None ∅ ex_append_files).
Lemma totals_restart_witness : exists s,
  ex_append_summary = Ok s /\ parse_count (additional_properties s) TOTAL_RECORDS = Ok (Some 2).
Proof.
  exists (ok_value (mkSummary Append ∅) ex_append_summary). split; [apply ok_value_Ok; vm_compute; reflexivity|].
  apply (totals_restart (fun _ => ""%string) [(0, 1); (0, 77)] 77 9 None ex_append_table ∅ ex_append_files).
  - by apply map_Forall_singleton.
  - vm_compute. reflexivity.
  - by repeat constructor.
  - intros key _. apply lookup_empty.
  - apply ok_value_Ok. vm_compute. reflexivity.
Defined.
End witness.
