(* ===== verification/Transactions.v ===== *)
(** * Transactions (transaction/mod.rs, transaction/action.rs and the files of the actions)

    The actions, [Transaction::commit] with its retries, and [TableProperties], on a world of a
    memory catalog and the storage of manifests. *)

From S2P Require Import Prelude Utf8 Numerals Values Schema Expr Transform DataFile PartitionSpecs SortOrders LiteralEq.
From S2P Require Import TableMetadata MetadataBuilder MetadataSpec ManifestWriter ManifestList Versions MetadataLocation.
From S2P Require Import Commit Producer.
From S2P Require Namespace ScanPlan.

(** ** Table properties (spec/table_properties.rs) *)

Definition PROPERTY_COMMIT_NUM_RETRIES : string := "commit.retry.num-retries".
Definition PROPERTY_COMMIT_NUM_RETRIES_DEFAULT : Z := 4.
Definition PROPERTY_COMMIT_MIN_RETRY_WAIT_MS : string := "commit.retry.min-wait-ms".
Definition PROPERTY_COMMIT_MIN_RETRY_WAIT_MS_DEFAULT : Z := 100.
Definition PROPERTY_COMMIT_MAX_RETRY_WAIT_MS : string := "commit.retry.max-wait-ms".
Definition PROPERTY_COMMIT_MAX_RETRY_WAIT_MS_DEFAULT : Z := 60 * 1000.
Definition PROPERTY_COMMIT_TOTAL_RETRY_TIME_MS : string := "commit.retry.total-timeout-ms".
Definition PROPERTY_COMMIT_TOTAL_RETRY_TIME_MS_DEFAULT : Z := 30 * 60 * 1000.
Definition PROPERTY_DEFAULT_FILE_FORMAT : string := "write.format.default".
Definition PROPERTY_DEFAULT_FILE_FORMAT_DEFAULT : string := "parquet".
Definition PROPERTY_WRITE_TARGET_FILE_SIZE_BYTES : string := "write.target-file-size-bytes".
Definition PROPERTY_WRITE_TARGET_FILE_SIZE_BYTES_DEFAULT : Z := 512 * 1024 * 1024.
Definition PROPERTY_DATAFUSION_WRITE_FANOUT_ENABLED : string := "write.datafusion.fanout.enabled".
Definition PROPERTY_DATAFUSION_WRITE_FANOUT_ENABLED_DEFAULT : bool := true.

Record TableProperties := mkTableProperties {
  commit_num_retries : Z;
  commit_min_retry_wait_ms : Z;
  commit_max_retry_wait_ms : Z;
  commit_total_retry_timeout_ms : Z;
  write_format_default : string;
  write_target_file_size_bytes : Z;
  write_datafusion_fanout_enabled : bool;
}.

(** [FromStr] of [usize] and [u64], [String] and [bool]. *)
Definition parse_u64 (s : string) : option Z := parse_unsigned 64 (lit s).
Definition parse_bool (s : string) : option bool :=
  if bool_decide (s = "true")%string then Some true
  else if bool_decide (s = "false")%string then Some false else None.
Definition parse_property {A} (parse : string -> option A) (properties : gmap string string) (key : string)
    (default : A) : result A :=
  match properties !! key with Some value => ok_or (parse value) DataInvalid | None => Ok default end.

Definition table_properties (props : gmap string string) : result TableProperties :=
  let? retries := parse_property parse_u64 props PROPERTY_COMMIT_NUM_RETRIES PROPERTY_COMMIT_NUM_RETRIES_DEFAULT in
  let? min_wait :=
    parse_property parse_u64 props PROPERTY_COMMIT_MIN_RETRY_WAIT_MS PROPERTY_COMMIT_MIN_RETRY_WAIT_MS_DEFAULT in
  let? max_wait :=
    parse_property parse_u64 props PROPERTY_COMMIT_MAX_RETRY_WAIT_MS PROPERTY_COMMIT_MAX_RETRY_WAIT_MS_DEFAULT in
  let? total :=
    parse_property parse_u64 props PROPERTY_COMMIT_TOTAL_RETRY_TIME_MS PROPERTY_COMMIT_TOTAL_RETRY_TIME_MS_DEFAULT in
  let? format := parse_property Some props PROPERTY_DEFAULT_FILE_FORMAT PROPERTY_DEFAULT_FILE_FORMAT_DEFAULT in
  let? target :=
    parse_property parse_u64 props PROPERTY_WRITE_TARGET_FILE_SIZE_BYTES
      PROPERTY_WRITE_TARGET_FILE_SIZE_BYTES_DEFAULT in
  let? fanout :=
    parse_property parse_bool props PROPERTY_DATAFUSION_WRITE_FANOUT_ENABLED
      PROPERTY_DATAFUSION_WRITE_FANOUT_ENABLED_DEFAULT in
  Ok (mkTableProperties retries min_wait max_wait total format target fanout).

(** ** The actions and how they are built *)

Record PendingSortField := mkPendingSortField {
  pending_name : string;
  pending_direction : SortDirection;
  pending_null_order : NullOrder;
}.
Definition to_sort_field (self : PendingSortField) (schema : Schema) : result SortField :=
  let? id := ok_or (ScanPlan.field_id_by_name schema (pending_name self)) DataInvalid in
  Ok (mkSortField id Transform.Identity (pending_direction self) (pending_null_order self)).

Inductive TransactionAction :=
| FastAppend (action : FastAppendAction)
| ReplaceSortOrder (pending_sort_fields : list PendingSortField)
| UpdateLocation (location : option string)
| UpdateProperties (updates : gmap string string) (removals : gset string)
| UpdateStatistics (statistics_to_set : gmap Z (option StatisticsFile))
| UpgradeVersion (format_version : option FormatVersion).

Definition fast_append_new : FastAppendAction := mkFastAppendAction true None None ∅ [].
Definition with_check_duplicate (self : FastAppendAction) (v : bool) : FastAppendAction :=
  mkFastAppendAction v (append_commit_uuid self) (append_key_metadata self) (append_snapshot_properties self)
    (append_data_files self).
Definition add_data_files (self : FastAppendAction) (data_files : list DataFile) : FastAppendAction :=
  mkFastAppendAction (check_duplicate self) (append_commit_uuid self) (append_key_metadata self)
    (append_snapshot_properties self) (append_data_files self ++ data_files).
Definition set_commit_uuid (self : FastAppendAction) (uuid : Z) : FastAppendAction :=
  mkFastAppendAction (check_duplicate self) (Some uuid) (append_key_metadata self)
    (append_snapshot_properties self) (append_data_files self).
Definition set_key_metadata (self : FastAppendAction) (key : list Z) : FastAppendAction :=
  mkFastAppendAction (check_duplicate self) (append_commit_uuid self) (Some key)
    (append_snapshot_properties self) (append_data_files self).
Definition set_snapshot_properties (self : FastAppendAction) (p : gmap string string) : FastAppendAction :=
  mkFastAppendAction (check_duplicate self) (append_commit_uuid self) (append_key_metadata self) p
    (append_data_files self).

Definition add_sort_field (self : list PendingSortField) (name : string) (d : SortDirection) (n : NullOrder) :
    list PendingSortField := self ++ [mkPendingSortField name d n].
Definition asc (self : list PendingSortField) (name : string) (n : NullOrder) : list PendingSortField :=
  add_sort_field self name Ascending n.
Definition desc (self : list PendingSortField) (name : string) (n : NullOrder) : list PendingSortField :=
  add_sort_field self name Descending n.

Definition statistics_set (self : gmap Z (option StatisticsFile)) (s : StatisticsFile) :
    gmap Z (option StatisticsFile) := <[stats_snapshot_id s := Some s]> self.
Definition statistics_remove (self : gmap Z (option StatisticsFile)) (id : Z) :
    gmap Z (option StatisticsFile) := <[id := None]> self.

(** ** State

    The files of a table: its metadata files are those of the catalog. *)
Section transactions.
Context {O : HashOrder} {V : ValueLib} {LC : Lowercase} {U : UuidText} {A : AvroLists}.
Variables (human : Datum -> string)
          (avro_header : ManifestMetadata -> list NestedField -> result unit)
          (avro_entries : ManifestMetadata -> list NestedField -> list ManifestEntry -> result (list Z))
          (avro_decode : list Z -> result (list ManifestEntry))
          (encode : TableMetadata -> result (list Z)) (decode : list Z -> result TableMetadata)
          (write_ok : string -> result unit).

Record World := mkWorld { catalog : MemoryCatalog; table_files : Storage }.
Abbreviation WorldM := (Namespace.ST World).
#[local] Notation "'let*' x ':=' e 'in' k" := (mbind (M := Namespace.ST _) (fun x => k) e)
  (at level 10, x name, e at level 100, k at level 200).
#[local] Abbreviation lift := Namespace.st_lift.

Definition on_catalog {B} (op : Namespace.ST MemoryCatalog B) : WorldM B := fun w =>
  let '(r, c) := op (catalog w) in (r, mkWorld c (table_files w)).
Definition on_files {B} (op : Namespace.ST Storage B) : WorldM B := fun w =>
  let '(r, fs) := op (table_files w) in (r, mkWorld (catalog w) fs).

(** What an action draws from its surroundings: a UUID, the id that [generate_unique_snapshot_id]
    ends with for a table, the time of the snapshot, and the clock of [update_table_metadata];
    and what an attempt draws. *)
Record ActionDraws := mkActionDraws {
  action_uuid : Z;
  unique_id : TableMetadata -> Z;
  action_time : Z;
  apply_clock : nat -> Z;
  apply_time : Z;
}.
Record AttemptDraws := mkAttemptDraws { action_draws : nat -> ActionDraws; catalog_draws : Draws }.

(** ** [TransactionAction::commit] *)

Definition replace_sort_order_commit (pending : list PendingSortField) (m : TableMetadata) :
    result ActionCommit :=
  let? schema := current_schema m in
  let? fields := mapR (fun p => to_sort_field p schema) pending in
  let? order := sort_build (sort_with_fields sort_builder fields) schema in
  let? current := default_sort_order m in
  Ok (mkActionCommit [AddSortOrder order; SetDefaultSortOrder (-1)]
        [CurrentSchemaIdMatch (schema_id schema); DefaultSortOrderIdMatch (order_id current)]).
Definition update_location_commit (location : option string) : result ActionCommit :=
  match location with
  | Some l => Ok (mkActionCommit [SetLocation l] [])
  | None => Err (Error DataInvalid)
  end.
Definition update_properties_commit (updates : gmap string string) (removals : gset string) :
    result ActionCommit :=
  if existsb (fun k => bool_decide (is_Some (updates !! k))) (elements removals)
  then Err (Error PreconditionFailed)
  else Ok (mkActionCommit [SetProperties updates;
                           RemoveProperties (hash_iter (gset_to_gmap () removals)).*1] []).
Definition update_statistics_commit (statistics_to_set : gmap Z (option StatisticsFile)) :
    result ActionCommit :=
  Ok (mkActionCommit
        ((fun e => match snd e with
                   | Some s => SetStatistics s
                   | None => RemoveStatistics (fst e)
                   end) <$> hash_iter statistics_to_set) []).
Definition upgrade_version_commit (version : option FormatVersion) : result ActionCommit :=
  let? v := ok_or version DataInvalid in Ok (mkActionCommit [UpgradeFormatVersion v] []).

Definition action_commit (d : ActionDraws) (self : TransactionAction) (m : TableMetadata) :
    WorldM ActionCommit :=
  match self with
  | FastAppend action =>
      on_files (fast_append_commit human avro_header avro_entries avro_decode write_ok (action_uuid d)
                  (unique_id d m) (action_time d) action m)
  | ReplaceSortOrder pending => lift (replace_sort_order_commit pending m)
  | UpdateLocation location => lift (update_location_commit location)
  | UpdateProperties updates removals => lift (update_properties_commit updates removals)
  | UpdateStatistics statistics_to_set => lift (update_statistics_commit statistics_to_set)
  | UpgradeVersion version => lift (upgrade_version_commit version)
  end.

(** ** [Transaction] *)

Record Transaction := mkTransaction {
  transaction_table : Table;
  transaction_actions : list TransactionAction;
}.
Definition transaction_new (t : Table) : Transaction := mkTransaction t [].
(** [ApplyTransactionAction::apply]. *)
Definition apply_action (self : TransactionAction) (tx : Transaction) : Transaction :=
  mkTransaction (transaction_table tx) (transaction_actions tx ++ [self]).

Definition update_table_metadata (d : ActionDraws) (m : TableMetadata) (updates : list TableUpdate) :
    result TableMetadata :=
  let? b := apply_updates (apply_clock d) updates (new_from_metadata m None) in
  let? r := builder_build (apply_time d) b in Ok (built_metadata r).

(** The metadata so far, with the updates and the requirements of the actions so far. *)
Record Applied := mkApplied {
  applied_metadata : TableMetadata;
  existing_updates : list TableUpdate;
  existing_requirements : list TableRequirement;
}.
Definition transaction_apply (d : ActionDraws) (self : Applied) (c : ActionCommit) : result Applied :=
  let? _ := check_requirements (action_requirements c) (applied_metadata self) in
  let? m := update_table_metadata d (applied_metadata self) (action_updates c) in
  Ok (mkApplied m (existing_updates self ++ action_updates c)
        (existing_requirements self ++ action_requirements c)).

Fixpoint apply_actions (d : nat -> ActionDraws) (self : Applied) (actions : list TransactionAction) :
    WorldM Applied :=
  match actions with
  | [] => mret self
  | action :: actions =>
      let* c := action_commit (d 0%nat) action (applied_metadata self) in
      let* self := lift (transaction_apply (d 0%nat) self c) in
      apply_actions (fun n => d (S n)) self actions
  end.

(** The base is the loaded table: the transaction keeps its own when nothing of it changed. *)
Definition do_commit (d : AttemptDraws) (self : Transaction) : WorldM Table :=
  let ident := table_identifier (transaction_table self) in
  let* refreshed := on_catalog (load_table decode ident) in
  let* applied := apply_actions (action_draws d) (mkApplied (table_metadata refreshed) [] [])
                    (transaction_actions self) in
  on_catalog (update_table encode decode write_ok (catalog_draws d)
                (mkTableCommit ident (existing_requirements applied) (existing_updates applied))).

(** [Error::retryable]: only the conflicts of requirements are. *)
Definition retryable (e : failure) : bool :=
  match e with Error CatalogCommitConflicts => true | _ => false end.

(** [backoff] is the [ExponentialBackoff] of the backon crate, the waits it gives for the smallest,
    the greatest and the total wait and the number of retries; [others] is what happens to the
    world during the wait before an attempt. *)
Variables (backoff : Z -> Z -> Z -> Z -> list Z) (others : nat -> World -> World).

Definition build_backoff (props : TableProperties) : list Z :=
  backoff (commit_min_retry_wait_ms props) (commit_max_retry_wait_ms props)
    (commit_total_retry_timeout_ms props) (commit_num_retries props).

(** [retry]: the attempts are numbered from [n]. *)
Fixpoint retry_commit (d : nat -> AttemptDraws) (waits : list Z) (n : nat) (tx : Transaction) : WorldM Table :=
  fun w =>
    match do_commit (d n) tx w with
    | (Err e, w') =>
        match waits with
        | _ :: waits => if retryable e then retry_commit d waits (S n) tx (others n w') else (Err e, w')
        | [] => (Err e, w')
        end
    | (Ok t, w') => (Ok t, w')
    end.
Definition transaction_commit (d : nat -> AttemptDraws) (self : Transaction) : WorldM Table :=
  match transaction_actions self with
  | [] => mret (transaction_table self)
  | _ =>
      let* props := lift (table_properties (properties (table_metadata (transaction_table self)))) in
      retry_commit d (build_backoff props) 0 self
  end.
End transactions.
