(* ===== verification/TransactionSpec.v ===== *)
(** * What transactions do

    The updates of the actions, the table that a committed append leaves, appends that cannot be
    committed together, and the retries. *)

From S2P Require Import Prelude Utf8 Numerals Values Schema Expr Transform DataFile PartitionSpecs SortOrders LiteralEq.
From S2P Require Import TableMetadata MetadataBuilder MetadataSpec ManifestWriter ManifestList Versions MetadataLocation.
From S2P Require Import DatumOrder Commit RawValues LiteralJson AvroSchema ManifestSerde Producer AppendSpec Transactions.
From S2P Require Namespace ScanPlan Concrete Metrics.

(** ** Updates *)

Section updates.
Context {O : HashOrder} {L : HashOrderLaws O} {V : ValueLib} {LC : Lowercase}.

(** The snapshots, the references and the current snapshot stay. *)
Record steady (m m' : TableMetadata) : Prop := {
  st_snapshots : snapshots m' = snapshots m;
  st_refs : refs m' = refs m;
  st_current : current_snapshot_id m' = current_snapshot_id m;
}.
Lemma steady_trans m1 m2 m3 : steady m1 m2 -> steady m2 m3 -> steady m1 m3.
Proof. intros [] []. split; congruence. Qed.

(** The updates of actions other than appends. *)
Definition quiet_action_update (u : TableUpdate) : Prop :=
  match u with
  | AddSortOrder _ | SetDefaultSortOrder _ | SetLocation _ | SetProperties _ | RemoveProperties _
  | SetStatistics _ | RemoveStatistics _ | UpgradeFormatVersion _ => True
  | _ => False
  end.
Lemma quiet_action_steady now u b b' :
  quiet_action_update u -> apply_update now u b = Ok b' -> steady (metadata b) (metadata b').
Proof.
  destruct u; try done; intros _; cbn [apply_update]; intros E;
    unfold upgrade_format_version, add_sort_order, set_default_sort_order, set_location, set_properties,
      remove_properties, set_statistics, remove_statistics in E; run_op E;
    repeat match goal with |- context [match ?x with _ => _ end] => destruct x end; done.
Qed.
Lemma quiet_actions_steady clock us : forall b b',
  Forall quiet_action_update us -> apply_updates clock us b = Ok b' -> steady (metadata b) (metadata b').
Proof.
  revert clock. induction us as [|u us IH]; intros clock b b' Hus; cbn [apply_updates]; [by intros [= <-]|].
  apply Forall_cons in Hus as [Hu Hus]. intros (b1 & H1 & E)%bind_Ok.
  eapply steady_trans; [by eapply quiet_action_steady|by eapply IH].
Qed.

(** [build] keeps them too, when the main branch is the current snapshot. *)
Lemma build_steady now b r :
  builder_ok (metadata b) -> history_ok b ->
  current_snapshot_id (metadata b) = ref_snapshot_id <$> refs (metadata b) !! MAIN_BRANCH ->
  builder_build now b = Ok r -> steady (metadata b) (built_metadata r).
Proof.
  intros Hb Hh Hm E. destruct (builder_build_Ok _ _ _ Hb Hh E) as [H _].
  destruct H as (s & o & t & log & m' & _ & _ & _ & _ & _ & Hn & kept & -> & _).
  destruct (n_same _ _ Hn) as [Hc Hr]; [exact Hm|]. pose proof (n_snapshots _ _ Hn) as Hs.
  clear Hn. split; [exact Hs|exact Hr|exact Hc].
Qed.

(** The updates of an operation on a version of a table, built. *)
Definition updated (m : TableMetadata) (us : list TableUpdate) (m' : TableMetadata) : Prop :=
  exists location clock now b r, apply_updates clock us (new_from_metadata m location) = Ok b
    /\ builder_build now b = Ok r /\ m' = built_metadata r.

Lemma updated_ok m us m' : metadata_ok m -> updated m us m' -> metadata_ok m'.
Proof.
  intros Hm (l & clock & now & b & r & Hu & Hb & ->).
  assert (history_ok (new_from_metadata m l)) as Hh by (left; apply Hm).
  assert (builder_ok (metadata (new_from_metadata m l))) as Hok by apply Hm.
  eapply build_metadata_ok; [..|exact Hb]; [by eapply apply_updates_ok|by eapply apply_updates_history].
Qed.
Lemma updated_steady m us m' :
  metadata_ok m -> Forall quiet_action_update us -> updated m us m' -> steady m m'.
Proof.
  intros Hm Hus (l & clock & now & b & r & Hu & Hb & ->).
  assert (history_ok (new_from_metadata m l)) as Hh by (left; apply Hm).
  assert (builder_ok (metadata (new_from_metadata m l))) as Hok by apply Hm.
  assert (steady m (metadata b)) as Hs by by eapply quiet_actions_steady in Hu.
  eapply steady_trans; [exact Hs|]. eapply build_steady; [..|exact Hb];
    [by eapply apply_updates_ok|by eapply apply_updates_history|].
  destruct Hs as [_ -> ->]. apply Hm.
Qed.

(** A snapshot that is added and becomes that of the main branch. *)
Record advanced (m : TableMetadata) (s : Snapshot) (r : SnapshotReference) (m' : TableMetadata) : Prop := {
  adv_new : snapshots m !! snapshot_id s = None;
  adv_snapshots : snapshots m' = <[snapshot_id s := s]> (snapshots m);
  adv_refs : refs m' = <[MAIN_BRANCH := r]> (refs m);
  adv_current : current_snapshot_id m' = Some (snapshot_id s);
}.
Lemma updated_advanced m s r m' :
  metadata_ok m -> ref_snapshot_id r = snapshot_id s ->
  updated m [AddSnapshot s; SetSnapshotRef MAIN_BRANCH r] m' -> advanced m s r m'.
Proof.
  intros Hm Hr (l & clock & now & b & rb & Hu & Hb & ->).
  assert (history_ok (new_from_metadata m l)) as Hh by (left; apply Hm).
  assert (builder_ok (metadata (new_from_metadata m l))) as Hok by apply Hm.
  assert (history_ok b) as Hhb by by eapply apply_updates_history.
  assert (builder_ok (metadata b)) as Hokb by by eapply apply_updates_ok.
  cbn [apply_updates] in Hu. apply bind_Ok in Hu as (b1 & H1 & Hu). apply bind_Ok in Hu as (b2 & H2 & [= ->]).
  cbn [apply_update] in H1, H2. pose proof (add_snapshot_ok _ _ _ Hok H1) as Hok1.
  apply add_snapshot_metadata in H1 as (row & E1 & Hn & _). cbn [metadata new_from_metadata] in E1, Hn.
  assert (steady (m <| snapshots := <[snapshot_id s := s]> (snapshots m) |>
                    <| current_snapshot_id := Some (snapshot_id s) |>
                    <| refs := <[MAIN_BRANCH := r]> (refs m) |>) (metadata b)) as Hs.
  { apply set_ref_metadata in H2 as [[Hsame _]|(_ & ms & E2)]; [| |apply Hok1].
    - rewrite E1 in Hsame. cbn in Hsame. pose proof (ok_refs _ (ok_builder _ Hm) _ _ Hsame) as [x Hx].
      rewrite Hr in Hx. congruence.
    - rewrite E2, E1. cbn. rewrite Hr. done. }
  assert (steady (metadata b) (built_metadata rb)) as Hs2.
  { eapply build_steady; [done|done| |exact Hb]. destruct Hs as [_ -> ->]. cbn. by rewrite lookup_insert_eq, <- Hr. }
  destruct (steady_trans _ _ _ Hs Hs2) as [H3 H4 H5]. by split.
Qed.
End updates.

(** ** The actions *)

Section transactions.
Context {O : HashOrder} {HL : HashOrderLaws O} {V : ValueLib} {LC : Lowercase} {U : UuidText} {A : AvroLists}.
Context (human : Datum -> string)
        (avro_header : ManifestMetadata -> list NestedField -> result unit)
        (avro_entries : ManifestMetadata -> list NestedField -> list ManifestEntry -> result (list Z))
        (avro_decode : list Z -> result (list ManifestEntry))
        (encode : TableMetadata -> result (list Z)) (decode : list Z -> result TableMetadata)
        (write_ok : string -> result unit).
Abbreviation commit_of := (action_commit human avro_header avro_entries avro_decode write_ok).

Lemma on_files_Ok {B} (op : Namespace.ST Storage B) w b w' :
  on_files op w = (Ok b, w') -> op (table_files w) = (Ok b, table_files w') /\ catalog w' = catalog w.
Proof. unfold on_files. destruct (op (table_files w)) as [[x|e] fs]; by intros [= -> <-]. Qed.
Lemma on_files_catalog {B} (op : Namespace.ST Storage B) w : catalog (on_files op w).2 = catalog w.
Proof. unfold on_files. by destruct (op (table_files w)) as [[x|e] fs]. Qed.

Definition is_append (a : TransactionAction) : bool := match a with FastAppend _ => true | _ => false end.

Lemma append_action_Ok d a m w c w' :
  commit_of d (FastAppend a) m w = (Ok c, w') ->
  catalog w' = catalog w
  /\ exists s, snapshot_id s = unique_id d m
       /\ action_updates c = [AddSnapshot s; SetSnapshotRef MAIN_BRANCH (mkSnapshotReference (unique_id d m) (Branch None None None))]
       /\ RefSnapshotIdMatch MAIN_BRANCH (current_snapshot_id m) ∈ action_requirements c.
Proof.
  cbn [action_commit]. intros [H Hw]%on_files_Ok. split; [done|].
  apply fast_append_commit_Ok in H as [H _]. apply producer_commit_Ok in H as (sm & ms & wr & st1 & _ & _ & _ & _ & ->).
  eexists. split; [|split; [reflexivity|]]; [done|]. cbn. right. left.
Qed.

Lemma quiet_action_Ok d a m w c w' :
  is_append a = false -> commit_of d a m w = (Ok c, w') -> w' = w /\ Forall quiet_action_update (action_updates c).
Proof.
  destruct a as [a|pending|l|us rs|st|v]; cbn [action_commit is_append]; intros Hq H; [done|..];
    apply st_lift_Ok in H as [H ->]; (split; [done|]).
  - unfold replace_sort_order_commit in H. apply bind_Ok in H as (s & _ & H). apply bind_Ok in H as (f & _ & H).
    apply bind_Ok in H as (o & _ & H). apply bind_Ok in H as (cur & _ & [= <-]). by repeat constructor.
  - destruct l; [|done]. injection H as <-. by repeat constructor.
  - unfold update_properties_commit in H. destruct (existsb _ _); [done|]. injection H as <-. by repeat constructor.
  - injection H as <-. apply Forall_fmap, Forall_forall. intros [k o] _. by destruct o.
  - destruct v; [|done]. injection H as <-. by repeat constructor.
Qed.

Lemma transaction_apply_Ok d x c x' :
  transaction_apply d x c = Ok x' ->
  check_requirements (action_requirements c) (applied_metadata x) = Ok tt
  /\ updated (applied_metadata x) (action_updates c) (applied_metadata x')
  /\ existing_updates x' = existing_updates x ++ action_updates c
  /\ existing_requirements x' = existing_requirements x ++ action_requirements c.
Proof.
  unfold transaction_apply, update_table_metadata. intros ([] & Hc & E)%bind_Ok.
  apply bind_Ok in E as (m & (b & Hb & (r & Hr & [= <-])%bind_Ok)%bind_Ok & [= <-]).
  split; [done|]. split; [|done]. by exists None, (apply_clock d), (apply_time d), b, r.
Qed.
(** ** Sequences of actions *)

Abbreviation apply_all := (apply_actions human avro_header avro_entries avro_decode write_ok).
Abbreviation attempt := (do_commit human avro_header avro_entries avro_decode encode decode write_ok).

Lemma apply_action_Ok d x a actions w x' w' :
  metadata_ok (applied_metadata x) -> apply_all d x (a :: actions) w = (Ok x', w') ->
  exists c x1 w1, commit_of (d 0%nat) a (applied_metadata x) w = (Ok c, w1)
    /\ transaction_apply (d 0%nat) x c = Ok x1 /\ metadata_ok (applied_metadata x1)
    /\ apply_all (fun n => d (S n)) x1 actions w1 = (Ok x', w').
Proof.
  intros Hm H. cbn [apply_actions] in H. apply st_bind_Ok in H as (c & w1 & Hc & H).
  st_step H x1 Hx. exists c, x1, w1. split; [done|]. split; [done|]. split; [|done].
  apply transaction_apply_Ok in Hx as (_ & Hu & _). by eapply updated_ok.
Qed.

Lemma apply_all_requirements d x actions w x' w' :
  metadata_ok (applied_metadata x) -> apply_all d x actions w = (Ok x', w') ->
  existing_requirements x `prefix_of` existing_requirements x' /\ catalog w' = catalog w.
Proof.
  revert d x w. induction actions as [|a actions IH]; intros d x w Hm H; [by injection H as <- <-|].
  apply apply_action_Ok in H as (c & x1 & w1 & Hc & Hx & Hm1 & H); [|done].
  destruct (IH _ _ _ Hm1 H) as [Hp Hw]. apply transaction_apply_Ok in Hx as (_ & _ & _ & Hreq).
  split; [by etransitivity; [|exact Hp]; rewrite Hreq; apply prefix_app_r|]. rewrite Hw.
  destruct (is_append a) eqn:Ea; [|by apply quiet_action_Ok in Hc as [-> _]].
  destruct a; try done. by apply append_action_Ok in Hc as [Hc _].
Qed.

(** An append on a table whose current snapshot is [id] requires it of the catalog. *)
Lemma append_requires_current d x actions w x' w' id :
  metadata_ok (applied_metadata x) -> current_snapshot_id (applied_metadata x) = Some id ->
  existsb is_append actions = true -> apply_all d x actions w = (Ok x', w') ->
  RefSnapshotIdMatch MAIN_BRANCH (Some id) ∈ existing_requirements x'.
Proof.
  revert d x w. induction actions as [|a actions IH]; intros d x w Hm Hcur Ha H; [done|].
  apply apply_action_Ok in H as (c & x1 & w1 & Hc & Hx & Hm1 & H); [|done].
  apply transaction_apply_Ok in Hx as (_ & Hu & _ & Hreq). destruct (is_append a) eqn:Ea.
  - destruct (apply_all_requirements _ _ _ _ _ _ Hm1 H) as [[l Hp] _]. rewrite Hp, Hreq.
    destruct a; try done. apply append_action_Ok in Hc as (_ & s & _ & _ & Hin). rewrite Hcur in Hin.
    rewrite !elem_of_app. by left; right.
  - cbn [existsb] in Ha. rewrite Ea in Ha. apply quiet_action_Ok in Hc as [_ Hq]; [|done].
    apply updated_steady in Hu as [_ _ Hs]; [|done..]. eapply IH; [exact Hm1| |done|exact H]. by rewrite Hs.
Qed.

Definition appends (actions : list TransactionAction) : nat := length (List.filter is_append actions).
Lemma appends_some actions : (1 <= appends actions)%nat -> existsb is_append actions = true.
Proof.
  unfold appends. induction actions as [|a actions IH]; cbn; [lia|]. destruct (is_append a); [done|]. exact IH.
Qed.

(** Two appends leave a requirement that no table with fewer snapshots meets. *)
Lemma two_appends_require d x actions w x' w' m :
  metadata_ok (applied_metadata x) -> snapshots m ⊆ snapshots (applied_metadata x) ->
  (2 <= appends actions)%nat -> apply_all d x actions w = (Ok x', w') ->
  exists id, snapshots m !! id = None /\ RefSnapshotIdMatch MAIN_BRANCH (Some id) ∈ existing_requirements x'.
Proof.
  revert d x w. induction actions as [|a actions IH]; intros d x w Hm Hsub Ha H; [cbn in Ha; lia|].
  apply apply_action_Ok in H as (c & x1 & w1 & Hc & Hx & Hm1 & H); [|done].
  apply transaction_apply_Ok in Hx as (_ & Hu & _ & _). unfold appends in Ha. cbn [List.filter] in Ha.
  destruct (is_append a) eqn:Ea.
  - destruct a; try done. apply append_action_Ok in Hc as (_ & s & Hs & Hus & _). rewrite Hus in Hu.
    apply updated_advanced in Hu; [|done|by rewrite Hs]. exists (snapshot_id s). split.
    + eapply lookup_weaken_None; [apply Hu|done].
    + eapply append_requires_current; [exact Hm1|apply Hu| |exact H]. apply appends_some. cbn in Ha. unfold appends. lia.
  - apply quiet_action_Ok in Hc as [_ Hq]; [|done]. apply updated_steady in Hu as [Hs _ _]; [|done..].
    eapply IH; [exact Hm1| |exact Ha|exact H]. by rewrite Hs.
Qed.

(** ** Requirements *)

Lemma requirement_conflicts m r e :
  metadata_ok m -> check_requirement r (Some m) = Err e -> e = Error CatalogCommitConflicts.
Proof.
  intros Hm. destruct r; cbn [check_requirement]; unfold ensure.
  all: try (destruct (_ =? _); by intros [= <-]).
  - by intros [= <-].
  - unfold snapshot_for_ref. destruct (refs m !! ref) as [r|] eqn:Er.
    + destruct (ok_refs _ (ok_builder _ Hm) _ _ Er) as [s Hs]. unfold snapshot_by_id. rewrite Hs. cbn.
      destruct snapshot_id; cbn; [destruct (_ =? _)|]; by intros [= <-].
    + destruct snapshot_id; cbn; by intros [= <-].
  - unfold default_sort_order, sort_order_by_id. destruct (ok_default_order _ (ok_builder _ Hm)) as [o ->]. cbn.
    destruct (_ =? _); by intros [= <-].
Qed.
Lemma requirements_conflict m rs id :
  metadata_ok m -> snapshots m !! id = None -> RefSnapshotIdMatch MAIN_BRANCH (Some id) ∈ rs ->
  check_requirements rs m = Err (Error CatalogCommitConflicts).
Proof.
  intros Hm Hid. unfold check_requirements. induction rs as [|r rs IH]; [by intros ?%not_elem_of_nil|].
  intros Hin. cbn [try_fold]. destruct (check_requirement r (Some m)) as [[]|e] eqn:E.
  - cbn [mbind result_bind]. apply IH. apply elem_of_cons in Hin as [<-|Hin]; [|done]. exfalso.
    cbn [check_requirement] in E. unfold snapshot_for_ref in E.
    destruct (refs m !! MAIN_BRANCH) as [r|] eqn:Er; [|done].
    destruct (ok_refs _ (ok_builder _ Hm) _ _ Er) as [s Hs]. unfold snapshot_by_id in E. rewrite Hs in E. cbn in E.
    apply ensure_Ok, Z.eqb_eq in E. rewrite (ok_snapshots _ (ok_builder _ Hm) _ _ Hs) in E. congruence.
  - cbn [mbind result_bind]. by apply requirement_conflicts in E as ->.
Qed.
(** ** Attempts *)

Lemma on_catalog_run {B} (op : Namespace.ST MemoryCatalog B) w :
  on_catalog op w = ((op (catalog w)).1, mkWorld (op (catalog w)).2 (table_files w)).
Proof. unfold on_catalog. by destruct (op (catalog w)). Qed.
Lemma load_table_at ident c location m :
  table_at decode c ident location m -> load_table decode ident c = (Ok (mkTable m (Some location) ident), c).
Proof.
  intros [Hl Hr]. unfold load_table, Namespace.load_table_from_locked_state. rewrite Hl. cbn [mbind result_bind].
  by rewrite Hr.
Qed.

(** An attempt once its actions are applied. *)
Lemma attempt_run d tx w location m :
  table_at decode (catalog w) (table_identifier (transaction_table tx)) location m ->
  attempt d tx w =
    match apply_all (action_draws d) (mkApplied m [] []) (transaction_actions tx) w with
    | (Ok x, w1) => on_catalog (update_table encode decode write_ok (catalog_draws d)
          (mkTableCommit (table_identifier (transaction_table tx)) (existing_requirements x) (existing_updates x))) w1
    | (Err e, w1) => (Err e, w1)
    end.
Proof.
  intros Hat. unfold do_commit. rewrite st_bind_run, on_catalog_run, (load_table_at _ _ _ _ Hat).
  cbn [fst snd table_metadata]. rewrite st_bind_run.
  assert (mkWorld (catalog w) (table_files w) = w) as -> by by destruct w. done.
Qed.

Lemma action_catalog d a m w : catalog (commit_of d a m w).2 = catalog w.
Proof.
  destruct a; cbn [action_commit]; [apply on_files_catalog|done..].
Qed.
Lemma apply_all_catalog d x actions w : catalog (apply_all d x actions w).2 = catalog w.
Proof.
  revert d x w. induction actions as [|a actions IH]; intros d x w; [done|]. cbn [apply_actions].
  rewrite st_bind_run. pose proof (action_catalog (d 0%nat) a (applied_metadata x) w) as Hc.
  destruct (commit_of _ a _ w) as [[c|e] w1]; [|done]. rewrite st_bind_run. cbn in Hc. unfold Namespace.st_lift.
  destruct (transaction_apply _ x c); [|done]. by rewrite IH.
Qed.

(** An update whose requirements fail leaves the catalog as it is. *)
Lemma update_table_requirements d c s location m e :
  table_at decode s (commit_ident c) location m -> check_requirements (commit_requirements c) m = Err e ->
  update_table encode decode write_ok d c s = (Err e, s).
Proof.
  intros Hat Hc. unfold update_table. rewrite st_bind_run, (load_table_at _ _ _ _ Hat), st_bind_run.
  unfold Namespace.st_lift, commit_apply. cbn [table_metadata]. by rewrite Hc.
Qed.

(** C36 A transaction with two appends is never committed: whatever its other actions are, each
    attempt on a well-formed table fails and leaves the catalog as it is, and when the actions
    themselves succeed it fails with a conflict, which is retried. *)
Theorem two_appends_conflict d tx w location m :
  table_at decode (catalog w) (table_identifier (transaction_table tx)) location m -> metadata_ok m ->
  (2 <= appends (transaction_actions tx))%nat ->
  exists e, (attempt d tx w).1 = Err e /\ catalog (attempt d tx w).2 = catalog w
    /\ (is_ok (apply_all (action_draws d) (mkApplied m [] []) (transaction_actions tx) w).1 = true ->
        e = Error CatalogCommitConflicts).
Proof.
  intros Hat Hm Ha. rewrite (attempt_run _ _ _ _ _ Hat).
  pose proof (apply_all_catalog (action_draws d) (mkApplied m [] []) (transaction_actions tx) w) as Hw1.
  destruct (apply_all _ _ _ w) as [[x|e] w1] eqn:E; [|by exists e]. cbn [snd] in Hw1.
  destruct (two_appends_require _ (mkApplied m [] []) _ _ _ _ m Hm (reflexivity _) Ha E) as (id & Hid & Hreq).
  exists (Error CatalogCommitConflicts). rewrite on_catalog_run, Hw1.
  erewrite update_table_requirements; [done|exact Hat|]. by eapply requirements_conflict.
Qed.
(** ** Retries *)

Context (backoff : Z -> Z -> Z -> Z -> list Z) (others : nat -> World -> World).
Abbreviation retries := (retry_commit human avro_header avro_entries avro_decode encode decode write_ok others).

(** The attempts from [n] on that end in [(r, w')] after [k] retries: each but the last fails with an
    error that is retried, and the next one starts from what the others made of the world. *)
Inductive attempts (d : nat -> AttemptDraws) (tx : Transaction) :
    nat -> World -> nat -> result Table -> World -> Prop :=
| attempts_last n w r w' : attempt (d n) tx w = (r, w') -> attempts d tx n w 0 r w'
| attempts_again n w e w1 k r w' :
    attempt (d n) tx w = (Err e, w1) -> retryable e = true ->
    attempts d tx (S n) (others n w1) k r w' -> attempts d tx n w (S k) r w'.

Lemma retries_attempts d waits n tx w r w' :
  retries d waits n tx w = (r, w') ->
  exists k, attempts d tx n w k r w' /\ (k <= length waits)%nat
    /\ (k = length waits \/ forall e, r = Err e -> retryable e = false).
Proof.
  revert n w. induction waits as [|wait waits IH]; intros n w; cbn [retry_commit].
  - intros H. exists 0%nat. split; [apply attempts_last|by split; [|left]]. by destruct (attempt (d n) tx w) as [[]].
  - destruct (attempt (d n) tx w) as [[t|e] w1] eqn:E.
    + intros [= <- <-]. exists 0%nat. split; [by apply attempts_last|]. split; [cbn; lia|by right].
    + destruct (retryable e) eqn:Er.
      * intros (k & Hk & Hle & Hend)%IH. exists (S k). split; [by eapply attempts_again|]. cbn.
        split; [lia|]. destruct Hend as [->|H]; [by left|by right].
      * intros [= <- <-]. exists 0%nat. split; [by apply attempts_last|]. split; [cbn; lia|].
        right. by intros ? [= <-].
Qed.

(** C25 A commit of some actions makes at most one attempt more than the retries that the table
    properties allow, each retry only after a conflict; it ends with the first attempt that
    succeeds or fails otherwise, or with the last that is allowed. *)
Theorem commit_attempts d tx w r w' props :
  (forall a b c n, (length (backoff a b c n) <= Z.to_nat n)%nat) ->
  transaction_actions tx <> [] ->
  table_properties (properties (table_metadata (transaction_table tx))) = Ok props ->
  transaction_commit human avro_header avro_entries avro_decode encode decode write_ok backoff others d tx w
  = (r, w') ->
  exists k, attempts d tx 0 w k r w' /\ (k <= Z.to_nat (commit_num_retries props))%nat
    /\ (k = length (build_backoff backoff props) \/ forall e, r = Err e -> retryable e = false).
Proof.
  intros Hb Ha Hp. unfold transaction_commit. destruct (transaction_actions tx); [done|].
  rewrite st_bind_run, Hp. cbn [Namespace.st_lift]. intros (k & Hk & Hle & Hend)%retries_attempts.
  exists k. split; [done|]. split; [|done].
  specialize (Hb (commit_min_retry_wait_ms props) (commit_max_retry_wait_ms props)
                 (commit_total_retry_timeout_ms props) (commit_num_retries props)).
  unfold build_backoff in Hle. lia.
Qed.
End transactions.

(** ** A committed append *)

Section committed.
Context {O : HashOrder} {HL : HashOrderLaws O} {V : ValueLib} {LC : Lowercase} {LL : LowercaseLaws LC} {U : UuidText}
        {J : JsonText} {N : AvroNames} {A : AvroLists} {AL : AvroListsLaws A} {MJ : ManifestJson}
        {AM : AvroManifests} {AML : AvroManifestsLaws AM}.
Context (human : Datum -> string) (encode : TableMetadata -> result (list Z)) (decode : list Z -> result TableMetadata)
        (write_ok : string -> result unit).

Abbreviation attempt :=
  (do_commit human encode_header encode_entries AppendSpec.decode
     encode decode write_ok).

(** What a committed append leaves: the table, at its new location, has one snapshot more, that of
    the main branch, which reads as [appended] says; no other table moved. *)
Record committed (m : TableMetadata) (id : Z) (files : list DataFile) (ident : Namespace.TableIdent) (w w' : World)
    (m' : TableMetadata) : Prop := {
  cm_table : exists location, table_at decode (catalog w') ident location m';
  cm_ok : metadata_ok m';
  cm_snapshot : exists s, snapshots m' = <[id := s]> (snapshots m) /\ current_snapshot_id m' = Some id
    /\ appended m id files (table_files w) (table_files w') s;
  cm_others : forall other, other <> ident ->
    Namespace.get_existing_table_location (root_namespace_state (catalog w')) other
    = Namespace.get_existing_table_location (root_namespace_state (catalog w)) other;
}.
(** One append, as the only action. *)
Lemma apply_one_append d a m w x w1 :
  apply_actions human encode_header encode_entries AppendSpec.decode write_ok
    d (mkApplied m [] []) [FastAppend a] w = (Ok x, w1) ->
  exists c, fast_append_commit human encode_header encode_entries
      AppendSpec.decode write_ok (action_uuid (d 0%nat)) (unique_id (d 0%nat) m)
      (action_time (d 0%nat)) a m (table_files w) = (Ok c, table_files w1)
    /\ existing_updates x = action_updates c /\ catalog w1 = catalog w.
Proof.
  cbn [apply_actions]. intros H. apply st_bind_Ok in H as (c & w2 & Hc & H). st_step H y Hy. injection H as -> ->.
  cbn [action_commit applied_metadata] in Hc. apply on_files_Ok in Hc as [Hc Hw]. exists c.
  split; [done|]. split; [|done]. by apply transaction_apply_Ok in Hy as (_ & _ & -> & _).
Qed.

(** C4 When a transaction with one fast append commits, the table of the catalog is a
    well-formed version whose current snapshot has the id that was drawn, and reading that
    snapshot gives the manifests that were kept and a new one whose entries are the added
    files, as the version of the table stores them; the older snapshots and all other tables
    stay as they were.  Entries lose what a manifest loses: the bounds of columns that the
    schema does not have, and in version 1 sequence numbers, content types, equality ids, row
    ids, references to data files and offsets of content.  The added files fit the table:
    bounds of the types of their columns, counts that are not negative, and partition values of
    types other than UUID and timestamps of nanoseconds ([nanosecond_partition_unreadable]);
    the spec binds to the schema; and the JSON forms of schema, partition fields and table
    metadata, which are not modelled, are read back. *)
Theorem append_commits d a t w location m r w' schema :
  table_at decode (catalog w) (table_identifier t) location m -> metadata_ok m ->
  attempt d (mkTransaction t [FastAppend a]) w = (Ok r, w') ->
  append_data_files a <> [] -> current_schema m = Ok schema ->
  Forall (file_fits schema (default_partition_type m)) (append_data_files a) ->
  header_kept (manifest_header
    (append_producer (action_uuid (action_draws d 0%nat)) (unique_id (action_draws d 0%nat) m) a m) schema) ->
  (forall bytes, encode (table_metadata r) = Ok bytes -> decode bytes = Ok (table_metadata r)) ->
  committed m (unique_id (action_draws d 0%nat) m) (append_data_files a) (table_identifier t) w w'
    (table_metadata r).
Proof.
  intros Hat Hm Hrun Hne Hs Hfit Hrows Hdec.
  assert (Hf : partition_type (default_spec m) schema = Ok (default_partition_type m)).
  { destruct (ok_partition_type _ Hm) as (s & Hs' & Hp). unfold current_schema, schema_by_id, unwrap in Hs.
    rewrite Hs' in Hs. by injection Hs as <-. }
  erewrite attempt_run in Hrun by exact Hat. cbn [transaction_table transaction_actions] in Hrun.
  destruct (apply_actions _ _ _ _ _ _ _ _ w) as [[x|e] w1] eqn:Ex; [|done].
  apply apply_one_append in Ex as (c & Hc & Hus & Hw1).
  destruct (fast_append_reads _ _ _ _ _ _ _ _ _ _ _ _ Hc Hne Hs Hf Hfit Hrows)
    as (s & Hupd & Hread).
  rewrite on_catalog_run, Hw1 in Hrun.
  pose proof (update_table_run encode decode write_ok (catalog_draws d)
    (mkTableCommit (table_identifier t) (existing_requirements x) (existing_updates x)) (catalog w)) as Htable.
  destruct (update_table _ _ _ _ _ (catalog w)) as [[t'|e] c'] eqn:Et; [|done].
  cbn [fst snd commit_ident commit_updates] in *. injection Hrun as -> <-.
  destruct Htable as (l & m0 & rb & l' & bytes & Hat0 & _ & (b & Hb & Hbuild)%bind_Ok & _ & Henc & -> & Hfiles & Hwhere).
  assert (m0 = m) as ->.
  { destruct Hat as [E1 E2], Hat0 as [E3 E4]. rewrite E1 in E3. injection E3 as <-. congruence. }
  assert (Hup : updated m (existing_updates x) (built_metadata rb)) by by eexists _, _, _, _, _.
  cbn [table_metadata table_files catalog] in *. split; cbn [table_files catalog].
  - exists l'. split; [by rewrite Hwhere, decide_True|]. unfold read_from.
    rewrite Hfiles, lookup_insert_eq. by apply Hdec.
  - by eapply updated_ok.
  - rewrite Hus, Hupd in Hup. exists s. pose proof (ap_id _ _ _ _ _ _ Hread) as Hid.
    apply updated_advanced in Hup as [_ Hsn _ Hcur]; [|done|by rewrite Hid]. rewrite Hid in Hsn, Hcur. done.
  - intros other Ho. by rewrite Hwhere, decide_False.
Qed.
End committed.

(** ** Witness

    The empty version 3 table of [Versions] in a catalog, and transactions with one and with two
    appends of a file of 2 rows. *)

Section witness.
#[local] Existing Instance Concrete.concrete_values.
#[local] Existing Instance Concrete.concrete_lowercase.
#[local] Existing Instance numeral_uuid.
#[local] Existing Instance plain_json_text.
#[local] Existing Instance any_name.

Definition ex_ident : Namespace.TableIdent := Namespace.mkTableIdent ["ns"%string] "t".
Definition ex_location : string := "s3://b/t/metadata/00000-7.metadata.json".
Definition ex_root : Namespace.NamespaceState :=
  Namespace.mkNamespaceState ∅
    {["ns"%string := Namespace.mkNamespaceState ∅ ∅ {["t"%string := ex_location]}]} ∅.
Definition ex_world : World := mkWorld (mkMemoryCatalog ex_root {[ex_location := [1]]}) (mkStorage ∅ ∅).
Definition ex_base : Table := mkTable ex_v0 (Some ex_location) ex_ident.

Definition ex_file : DataFile := Metrics.ex_file_in [Some (LPrimitive (PrimitiveLiteral.Int 3))].
Definition ex_fields : list NestedField := default_partition_type ex_v0.
Definition ex_table_schema : Schema := ok_value ex_new_schema (current_schema ex_v0).
Definition ex_action : FastAppendAction := mkFastAppendAction true None None ∅ [ex_file].
Definition ex_header (id : Z) : ManifestMetadata :=
  manifest_header (append_producer 9 id ex_action ex_v0) ex_table_schema.
#[local] Instance ex_json : ManifestJson := one_json ex_table_schema (spec_fields (default_spec ex_v0)).
Definition ex_rows (id : Z) : ManifestRows :=
  ok_value (RowsV1 []) (rows_of_entries V3 ex_fields [added_entry (Some id) ex_file]).
#[local] Instance ex_avro : AvroManifests :=
  let meta := ok_value ∅ (user_metadata (ex_header 77)) in table_avro [(meta, ex_rows 77); (meta, ex_rows 78)] [].
Definition ex_draws : AttemptDraws :=
  mkAttemptDraws (fun n => mkActionDraws (9 + Z.of_nat n) (fun _ => 77 + Z.of_nat n) 1001000 (fun _ => 1001000) 1001000)
    (mkDraws (fun _ => 1001000) 1001000 8).

Definition ex_decode (m : TableMetadata) (bs : list Z) : result TableMetadata :=
  match bs with [1] => Ok ex_v0 | _ => Ok m end.
Definition ex_attempt (m : TableMetadata) (actions : list TransactionAction) : result Table * World :=
  do_commit (fun _ => ""%string) encode_header encode_entries AppendSpec.decode (fun _ => Ok [2]) (ex_decode m) (fun _ => Ok tt) ex_draws
    (mkTransaction ex_base actions) ex_world.
Definition ex_committed : Table := ok_value ex_base (ex_attempt ex_v0 [FastAppend ex_action]).1.
Definition ex_second : FastAppendAction :=
  mkFastAppendAction false None None ∅ [ex_file].

Lemma ex_one_run :
  ex_attempt (table_metadata ex_committed) [FastAppend ex_action]
  = (Ok ex_committed, (ex_attempt (table_metadata ex_committed) [FastAppend ex_action]).2).
Proof.
  assert (E : (ex_attempt (table_metadata ex_committed) [FastAppend ex_action]).1 = Ok ex_committed)
    by (vm_compute; reflexivity).
  by destruct (ex_attempt _ _) as [r w]; cbn in E; subst r.
Qed.
Lemma ex_base_at m : table_at (ex_decode m) (catalog ex_world) ex_ident ex_location ex_v0.
Proof. split; vm_compute; reflexivity. Qed.
Lemma ex_v0_ok : metadata_ok ex_v0.
Proof. apply version_metadata_ok, ex_v0_version. Qed.

Lemma two_appends_conflict_witness :
  exists e, (ex_attempt ex_v0 [FastAppend ex_action; FastAppend ex_second]).1 = Err e
    /\ e = Error CatalogCommitConflicts.
Proof.
  destruct (two_appends_conflict (fun _ => ""%string) encode_header encode_entries AppendSpec.decode (fun _ => Ok [2]) (ex_decode ex_v0) (fun _ => Ok tt) ex_draws
    (mkTransaction ex_base [FastAppend ex_action; FastAppend ex_second]) ex_world ex_location ex_v0
    (ex_base_at ex_v0) ex_v0_ok (Nat.le_refl 2)) as (e & He & _ & Hc).
  exists e. split; [exact He|apply Hc]. vm_compute. reflexivity.
Defined.

(** A commit that conflicts is tried three times when two retries are allowed. *)
Definition ex_backoff (a b c n : Z) : list Z := repeat a (Z.to_nat n).
Definition ex_patient : Table :=
  mkTable (ex_v0 <| properties := {[PROPERTY_COMMIT_NUM_RETRIES := "2"%string]} |>) (Some ex_location) ex_ident.
Definition ex_transaction : Transaction :=
  mkTransaction ex_patient [FastAppend ex_action; FastAppend ex_second].
Definition ex_retried : result Table * World :=
  transaction_commit (fun _ => ""%string) encode_header encode_entries AppendSpec.decode (fun _ => Ok [2]) (ex_decode ex_v0) (fun _ => Ok tt) ex_backoff
    (fun _ w => w) (fun _ => ex_draws) ex_transaction ex_world.
Definition ex_properties : TableProperties :=
  ok_value (mkTableProperties 0 0 0 0 "" 0 false) (table_properties (properties (table_metadata ex_patient))).
Lemma ex_retries : Z.to_nat (commit_num_retries ex_properties) = 2%nat.
Proof. vm_compute. reflexivity. Qed.
Lemma commit_attempts_witness : exists k, (k <= 2)%nat
  /\ attempts (fun _ => ""%string) encode_header encode_entries AppendSpec.decode (fun _ => Ok [2]) (ex_decode ex_v0) (fun _ => Ok tt) (fun _ w => w)
       (fun _ => ex_draws) ex_transaction 0 ex_world k ex_retried.1 ex_retried.2.
Proof.
  destruct (commit_attempts (fun _ => ""%string) encode_header encode_entries AppendSpec.decode (fun _ => Ok [2]) (ex_decode ex_v0) (fun _ => Ok tt) ex_backoff
    (fun _ w => w) (fun _ => ex_draws) ex_transaction ex_world ex_retried.1 ex_retried.2 ex_properties)
    as (k & Hk & Hle & _).
  - intros a b c n. unfold ex_backoff. by rewrite repeat_length.
  - done.
  - vm_compute. reflexivity.
  - unfold ex_retried. by destruct (transaction_commit _ _ _ _ _ _ _ _ _ _ _ _).
  - rewrite ex_retries in Hle. by exists k.
Defined.

Lemma ex_fields_eq : ex_fields = [mkField 1000 "a_bucket" false (TPrimitive PrimitiveType.Int)].
Proof. vm_compute. reflexivity. Qed.
Lemma ex_bound_field :
  bound_field ex_table_schema 1 = Some (mkField 1 "a" false (TPrimitive PrimitiveType.Int)).
Proof. vm_compute. reflexivity. Qed.
Lemma ex_fits : Forall (file_fits ex_table_schema ex_fields) [ex_file].
Proof.
  apply Forall_singleton. assert (Hp : tuple_fits ex_fields (partition ex_file)).
  { rewrite ex_fields_eq. constructor; [|constructor]. exists PrimitiveType.Int. split; [done|].
    intros l [= <-]. by exists (PrimitiveLiteral.Int 3). }
  assert (Hb : forall n, datum_wf (datum_int n) = true -> bounds_fit ex_table_schema {[1 := datum_int n]}).
  { intros n Hn. apply map_Forall_singleton. intros f. rewrite ex_bound_field. by intros [= <-]. }
  split; [exact Hp|cbn; lia|cbn; lia|apply map_Forall_empty| | | |by apply Hb|by apply Hb].
  all: by apply map_Forall_singleton.
Qed.
Lemma ex_catalog_header_kept : header_kept (ex_header 77).
Proof.
  split; try done.
  - eexists. vm_compute. reflexivity.
  - apply (bool_decide_unpack _). vm_compute. exact I.
Qed.

Lemma append_commits_witness :
  committed (ex_decode (table_metadata ex_committed)) ex_v0 77 [ex_file] ex_ident ex_world
    (ex_attempt (table_metadata ex_committed) [FastAppend ex_action]).2 (table_metadata ex_committed).
Proof.
  apply (append_commits (fun _ => ""%string) (fun _ => Ok [2]) (ex_decode (table_metadata ex_committed)) (fun _ => Ok tt) ex_draws
           ex_action ex_base ex_world ex_location ex_v0 ex_committed _ ex_table_schema).
  - apply ex_base_at.
  - apply ex_v0_ok.
  - apply ex_one_run.
  - done.
  - vm_compute. reflexivity.
  - apply ex_fits.
  - apply ex_catalog_header_kept.
  - intros bytes [= <-]. reflexivity.
Defined.
End witness.
